(* ===== verification/_CoqProject ===== *)
-Q . S2P
FalconPrelude.v
Decimal.v
Rwlock.v
ShmemAllocator.v
SerializedData.v
InodeId.v
PathCmp.v
DirService.v
PathParse.v
DirPathHash.v
Placement.v
Catalog.v
ForeignServer.v
ShardTable.v
Router.v
InodeTable.v
ShardService.v
MetaFile.v
Attributes.v
MetaReadDir.v
ClientReadDir.v
PathTable.v
DirTree.v
Namespace.v
MetaDir.v
RenamePaths.v
Cluster.v
ClusterSteps.v
NamespaceOps.v
MetaSlice.v
ErrorCode.v
MetaMessages.v
MessageCodec.v
MetaProcess.v
JobQueue.v
PgPool.v
WorkerTask.v
Connection.v
Remote.v
WorkerServer.v
ServiceDemo.v
DiskCache.v
DiskCacheCorrect.v
CachePins.v
StoreNode.v
IoClient.v
WriteStream.v
FileBytes.v
MemPool.v
Base64.v
WriteStreamCorrect.v
ReadStream.v
ReadStreamCorrect.v
FalconFd.v
FalconStore.v
StoreSpace.v
StoreDemo.v
StorePins.v
IoServer.v
ServerFile.v
RemoteWrite.v
FalconMeta.v
Fuse.v
ClientFiles.v
FileLock.v
RemoteComm.v
Transaction.v
TwoPhase.v
TwoPhaseSafety.v
TwoPhaseLogic.v
TwoPhasePrepare.v
TwoPhaseBody.v
TwoPhaseRecovery.v
TwoPhaseCorrect.v
TwoPhaseRun.v
TwoPhaseLive.v
TwoPhaseDemo.v
