(* ===== verification/FalconPrelude.v ===== *)
(** * FalconFS: a verification development

    FalconFS is a distributed file system.  Its metadata are kept by PostgreSQL
    servers with an extension (src/falcon): a coordinator and a number of
    workers.  Clients (src/falcon_client, behind FUSE) send requests to them in
    framed FlatBuffers messages.  The entries of every directory are spread over
    the workers by a hash of their names; the table of directories alone is kept
    on all servers.  A request comes in through a pool of connections that
    batches small jobs, is handed to a backend through shared memory, is parsed
    against a cached directory table, and reads or changes the tables of the
    shards.  mkdir, rmdir and rename are distributed transactions run by the
    coordinator.

    The data are kept apart from the metadata (src/falcon_store, src/common): each
    client is a node of the store as well, with a cache of whole files on its
    disk, in front of an object store.  A file is written to the node that its
    metadata name, here or through a call to another node; writes go through a
    buffer, reads of big files through a pipeline that reads ahead.

    ** Conventions

    C integers are [Z], wrapped to their width wherever the code can wrap.
    Code that changes state is a term of the monad [cmd] of this file: a
    function from the state to a result and a new state ([Ret]), to an error and
    the state at that point ([Raise]), or to [OutOfFuel].  What belongs to
    PostgreSQL, libpq, FlatBuffers, brpc or the C library is a parameter of the
    definitions that use it, and what is relied on is a hypothesis or a field
    of a class: [DirectoryService] (DirService.v), [ShardService]
    (ShardService.v), [FlatBuffers] (MetaMessages.v), [MetaHandlers]
    (MetaProcess.v), [CacheFs] (DiskCache.v, the calls on files of the cache),
    [Brpc] and [StreamIO] (IoClient.v, WriteStream.v, the calls to other nodes),
    [StoreIO] (FalconStore.v, the disk and the object store), [FileLaws]
    (ServerFile.v, what a file gives back of what was written), [MetaLink]
    (FalconMeta.v, the way to the metadata servers) and [ObjectLaws]
    (ClientFiles.v, copy and delete of objects).  Every one of these has an
    instance in the development.  The store and the client use the monads
    [act] and [ost] of DiskCache.v and FalconStore.v in the place of [cmd], in
    which [None] is behaviour that C++ leaves undefined.

    ** The files

    Concurrency and memory of one machine:
    - Rwlock.v: falcon/utils/rwlock.c, each operation and the interleaving of
      the atomic accesses of any number of backends ([step]).
    - ShmemAllocator.v: falcon/utils/falcon_shmem_allocator.c.
    - SerializedData.v: remote_connection_utils/serialized_data.h.

    Names, numbers and paths:
    - InodeId.v: inode numbers (falcon/utils/path_parse.c, utils.c).
    - PathCmp.v: the order of paths (falcon/utils/utils_standalone.c).
    - PathParse.v: the tree of a transaction and PathParseTreeInsert
      (falcon/utils/path_parse.c), against the interface of DirService.v.
    - DirPathHash.v: falcon/dir_path_shmem/dir_path_hash.c, which implements
      that interface, and falcon/metadb/directory_table.c.

    Where things are:
    - Placement.v: part numbers and hashes on server and client.
    - Catalog.v: relations with a unique index.
    - ForeignServer.v: falcon/metadb/foreign_server.c.
    - ShardTable.v: falcon/metadb/shard_table.c; ShardService.v is what the
      handlers see of it.
    - Router.v: falcon_client/src/router.cpp.

    The handlers (falcon/metadb/meta_handle.c):
    - InodeTable.v, MetaFile.v, Attributes.v: inode rows; create, stat, open,
      close, unlink, chmod, chown, utimens.
    - MetaReadDir.v: readdir and opendir on a worker; ClientReadDir.v: the loop
      of the client over all workers (falcon_client/src/falcon_meta.cpp).
    - MetaDir.v: mkdir, rmdir, rename and their sub-operations on the workers.
    - PathTable.v, DirTree.v, Namespace.v, RenamePaths.v: what paths, directory
      tables and rows have to do with each other.
    - Cluster.v, ClusterSteps.v, NamespaceOps.v: all servers together, the
      invariant of every sequence of operations, and what mkdir, rmdir and
      rename do to the namespace.
    - MetaSlice.v: slices of chunks, keys and slice numbers.

    Distributed transactions (falcon/distributed_backend, falcon/transaction):
    - RemoteComm.v: remote_comm_falcon.c, commands for other servers and the two
      phases; Transaction.v: transaction.c and transaction_cleanup.c.  Both are
      programs over the calls they make ([event]), so that other processes can
      come between any two calls.
    - TwoPhase.v: the system: processes, servers, connections that break,
      crashes of the coordinator ([step]); PostgreSQL is the class [PgServers].
    - TwoPhaseSafety.v, TwoPhaseLogic.v: the invariant, what a process relies on
      and guarantees, and a logic for one process; TwoPhasePrepare.v,
      TwoPhaseBody.v, TwoPhaseRecovery.v: the first phase, the handlers and the
      recovery process in that logic.
    - TwoPhaseCorrect.v: all of it together; TwoPhaseRun.v, TwoPhaseLive.v:
      runs in which the servers answer, and what recovery gets done there;
      TwoPhaseDemo.v: an instance, with a crash and with a broken connection.

    The way of a request:
    - ErrorCode.v, MetaMessages.v, MessageCodec.v: codes, requests and answers
      (falcon/utils/error_code.c, meta_serialize_interface_helper.cpp, fbs).
    - MetaProcess.v: falcon/metadb/meta_serialize_interface.c.
    - WorkerTask.v: falcon/connection_pool and falcon/brpc_comm_adapter.
    - Connection.v: falcon_client/src/connection.cpp.
    - Remote.v, WorkerServer.v, ServiceDemo.v: the whole way, for a worker with
      all its handlers, and examples that are computed.

    - JobQueue.v: the queue between them (falcon_concurrent_queue.h), with
      producers, consumers and the collector as steps of an interleaving;
      PgPool.v: the thread of the pool and those of the connections
      (pg_connection_pool.cpp, pg_connection.cpp) over these queues.

    The data of files (falcon_store, common):
    - Decimal.v: numbers as text; DiskCache.v, DiskCacheCorrect.v, CachePins.v:
      disk_cache.cpp, the files on this disk, their references and eviction.
    - StoreNode.v: connection/node.cpp; IoClient.v: falcon_io_client.cpp, the
      calls to another node; IoServer.v: brpc/brpc_main.cpp, their handlers.
    - WriteStream.v, FileBytes.v, WriteStreamCorrect.v: stream_assembler.cpp,
      the buffer of a file that is written; ReadStream.v, ReadStreamCorrect.v:
      read_stream.cpp, the threads that read ahead; MemPool.v: mem_pool.h;
      Base64.v: base64.cpp.
    - FalconFd.v: dir_open_instance.cpp, descriptors and open files.
    - FalconStore.v: falcon_store.cpp, the operations on data; StoreSpace.v and
      StorePins.v: what they keep of the space and of the references of the
      cache; StoreDemo.v: an instance.
    - ServerFile.v, RemoteWrite.v: the handlers and the client joined by a
      network that loses messages.
    - FileLock.v: util/file_lock.cpp.

    The client (falcon_client):
    - FalconMeta.v: falcon_meta.cpp and inner_falcon_meta.cpp; Fuse.v:
      fuse_main.cpp and error_code.cpp; ClientFiles.v: what all callbacks keep.

    ** What is shown

    - The namespace: from servers that agree, every sequence of operations keeps
      the directory tables of all servers equal, a tree, and in correspondence
      with the rows, each row on the worker that its key says; mkdir, rmdir and
      rename succeed under the conditions stated and then do just what they
      should (ClusterSteps.v, NamespaceOps.v).
    - The handlers on files, attributes, slices and keys: result and new state
      on every branch (MetaFile.v, Attributes.v, MetaSlice.v); reading a
      directory delivers every entry once, across pages and workers
      (MetaReadDir.v, ClientReadDir.v).
    - Routing: client and server agree on the worker of a path; bisection in the
      shard table finds the shard of the value; the shard table covers all
      values (Router.v, ShardTable.v).
    - A request arrives at its handler as it was made and the answer comes back
      to the client that asked, alone or in a batch (Remote.v, WorkerTask.v);
      messages and framings are read back as written (SerializedData.v,
      MetaMessages.v).  BatchWorkerTask_misattributes shows the case in which a
      batch goes wrong, SingleWorkerTask_one_service the requests it refuses.
    - The caches follow the tables: the directory cache through commit and abort
      (DirPathHash.v), the copies of servers and connections through changes of
      the table (ForeignServer.v).
    - Distributed transactions are all or nothing in every reachable state, and
      recovery finishes what a crash has left (TwoPhaseCorrect.v,
      TwoPhaseLive.v).  A process is taken to start with new connections;
      failed_commit_leaves_states (TwoPhaseDemo.v) shows what a failed second
      phase leaves behind in a process that goes on.
    - The lock excludes writers from all others under every interleaving, is
      destroyable just when it is unused, and does not get stuck (Rwlock.v);
      allocations never overlap and are given back whole (ShmemAllocator.v), up
      to the 32-bit offsets that alias beyond 4 GiB.
    - Jobs: no interleaving of producers, consumers and the collector loses a
      job or changes the order of a producer's jobs, and a consumer finds them
      (JobQueue.v); collector_past_the_end is a run in which the collector
      leaves its list.  Each job that was enqueued is executed once, a
      connection has one task at a time, and the sizes that the pool reads are
      never negative (PgPool.v).
    - The cache of data files is sound in every run, does not evict files in
      use, and makes the space that it promises (DiskCacheCorrect.v); the
      operations of the store give back every reservation and pin a file just
      while it is open (StoreSpace.v, StorePins.v).
    - Data: the write buffer is not seen in the file, for writes in any order
      (WriteStreamCorrect.v); the pipeline delivers a file in order and does not
      get stuck (ReadStreamCorrect.v); a file written to another node over a
      network that loses messages has what was written if all calls returned 0
      (RemoteWrite.v); locks on files exclude each other (FileLock.v).
    - The client never loses count of its open files, whatever fails; it reports
      a size only after the data are flushed; a rename with objects keeps the
      data of the file; callbacks return 0 or a negative error number
      (ClientFiles.v, Fuse.v).

    ** Bounds and fuel

    Recursion on data is structural.  Fuel is used for SerializedDataEnlarge,
    which doubles a 32-bit size: 33 rounds are enough, and the termination is a
    theorem with the size at which it does not end; for the loop of create over
    a shard twice the length of the batch is enough; for the waiting loops of
    locks and connections the bound is a parameter, and the theorems either
    hold for every bound or name the bound that is enough.  Names and paths are
    not bounded, numbers have the width of the C type.  In the store the fuel of
    the loops over short reads and writes is the number of bytes, as each round
    moves on by one at least; the rounds of PreAllocSpace and of the calls that
    are repeated are those of the code.  The write buffer is transparent for
    calls of less than 2^31 bytes that end before 2^63, the range of off_t.

    ** Not modelled

    - Start-up, hooks, settings, permissions and background processes of the
      extension (falcon/falcon_init.c, falcon/control, the plug-in loader,
      perf_counter): registration with PostgreSQL and no state of the file
      system.
    - distributed_backend_falcon.c, and the start and the signals of the recovery
      process: SQL functions for set-up and tests, and process control.  How the
      handlers of MetaDir.v use distributed transactions is modelled as one
      atomic step there; that these are atomic is TwoPhaseCorrect.v.
    - The object store itself (storage/obs_storage.cpp): calls of its SDK, which
      are the class [StoreIO].  InitStore, FalconInit and the main functions,
      which read settings and start threads; common/src/thread_pool, whose tasks
      are modelled where they are given to it.
    - Start and end of the pool and of its queues (Init, Destroy, the destructor of
      the queue), and functions of the queue that only read.
    - The Python interface, which calls FalconMeta.v's operations, and the manager
      of the cluster (cloud_native/falcon_cm, common/src/cm), which is a client
      of ZooKeeper and of Kubernetes.
    - The adapter for the hcom transport (falcon/hcom_comm_adapter): another
      entry to the pool of WorkerTask.v.
    - Logging, statistics, configuration files, docker and deployment scripts. *)

From stdpp Require Export base numbers option list strings gmap relations sorting.

#[global] Open Scope Z_scope.

(** ** Notation, hint databases and tactics *)

Declare Scope falcon_scope.
Delimit Scope falcon_scope with falcon.
#[global] Open Scope falcon_scope.

Create HintDb falcon discriminated.
Create Rewrite HintDb falcon_bits.

(** [bool_to_prop] turns boolean comparisons of the context into arithmetic
    facts. *)
Ltac bool_to_prop :=
  repeat match goal with
  | H : (_ && _)%bool = true |- _ => apply andb_prop in H; destruct H
  | H : (_ || _)%bool = false |- _ => apply orb_false_elim in H; destruct H
  | H : negb _ = true |- _ => apply negb_true_iff in H
  | H : negb _ = false |- _ => apply negb_false_iff in H
  | H : (_ =? _) = true |- _ => apply Z.eqb_eq in H
  | H : (_ =? _) = false |- _ => apply Z.eqb_neq in H
  | H : (_ <? _) = true |- _ => apply Z.ltb_lt in H
  | H : (_ <? _) = false |- _ => apply Z.ltb_ge in H
  | H : (_ <=? _) = true |- _ => apply Z.leb_le in H
  | H : (_ <=? _) = false |- _ => apply Z.leb_gt in H
  | H : bool_decide _ = true |- _ => apply bool_decide_eq_true_1 in H
  | H : bool_decide _ = false |- _ => apply bool_decide_eq_false_1 in H
  end.

(** ** Machine integers

    A [w]-bit unsigned integer is a [Z] in [0, 2^w); every arithmetic operation
    of the code that can wrap is followed by [wrap w]. *)

Definition wrap (w x : Z) : Z := x `mod` 2 ^ w.

Abbreviation u64 := (wrap 64).
Abbreviation u32 := (wrap 32).
Abbreviation u16 := (wrap 16).
Abbreviation u8 := (wrap 8).

(** Conversion of a [w]-bit pattern to the signed integer it represents. *)
Definition signed (w x : Z) : Z :=
  let y := wrap w x in if y <? 2 ^ (w - 1) then y else y - 2 ^ w.

Abbreviation s64 := (signed 64).
Abbreviation s32 := (signed 32).
Abbreviation s8 := (signed 8).

(** [~x] on 64 bits. *)
Definition lnot64 (x : Z) : Z := Z.lxor x (Z.ones 64).

Definition UINT64_MAX : Z := 2 ^ 64 - 1.
Definition UINT32_MAX : Z := 2 ^ 32 - 1.
Definition INT32_MAX : Z := 2 ^ 31 - 1.
Definition INT32_MIN : Z := - 2 ^ 31.

Definition in_range (w x : Z) : Prop := 0 <= x < 2 ^ w.

Lemma wrap_small w x : in_range w x -> wrap w x = x.
Proof. intros H. apply Z.mod_small, H. Qed.

Lemma wrap_in_range w x : 0 <= w -> in_range w (wrap w x).
Proof. intros H. apply Z.mod_pos_bound. lia. Qed.

Lemma wrap_idemp w x : 0 <= w -> wrap w (wrap w x) = wrap w x.
Proof. intros H. by apply wrap_small, wrap_in_range. Qed.

Lemma wrap_add_l w x y : wrap w (wrap w x + y) = wrap w (x + y).
Proof. apply Zplus_mod_idemp_l. Qed.

Lemma wrap_add_r w x y : wrap w (x + wrap w y) = wrap w (x + y).
Proof. apply Zplus_mod_idemp_r. Qed.

Lemma wrap_sub_l w x y : wrap w (wrap w x - y) = wrap w (x - y).
Proof. apply Zminus_mod_idemp_l. Qed.

Lemma wrap_mul_l w x y : wrap w (wrap w x * y) = wrap w (x * y).
Proof. apply Zmult_mod_idemp_l. Qed.

Lemma wrap_testbit w x i :
  0 <= w -> 0 <= i -> Z.testbit (wrap w x) i = ((i <? w) && Z.testbit x i)%bool.
Proof.
  intros Hw Hi. unfold wrap. destruct (Z.ltb_spec i w).
  - by rewrite Z.mod_pow2_bits_low by lia.
  - by rewrite Z.mod_pow2_bits_high by lia.
Qed.

Lemma in_range_testbit_high w x i :
  in_range w x -> w <= i -> Z.testbit x i = false.
Proof.
  intros Hx Hi. destruct (Z.le_gt_cases 0 w); cycle 1.
  { unfold in_range in Hx. rewrite Z.pow_neg_r in Hx by lia. lia. }
  rewrite <- (wrap_small w x Hx), wrap_testbit by lia.
  by replace (i <? w) with false by lia.
Qed.

(** Two values of at most [w] bits are equal when their low [w] bits are. *)
Lemma bits_inj_range w x y :
  0 <= w -> in_range w x -> in_range w y ->
  (forall i, 0 <= i < w -> Z.testbit x i = Z.testbit y i) -> x = y.
Proof.
  intros Hw Hx Hy Heq. apply Z.bits_inj'. intros i Hi.
  destruct (Z.lt_ge_cases i w); [by apply Heq|].
  by rewrite !(in_range_testbit_high w) by done.
Qed.

Lemma testbits_in_range w x :
  0 <= w -> 0 <= x -> (forall i, w <= i -> Z.testbit x i = false) -> in_range w x.
Proof.
  intros Hw Hx Hhigh. split; [done|].
  replace x with (wrap w x).
  { apply wrap_in_range; lia. }
  apply Z.bits_inj'. intros i Hi. rewrite wrap_testbit by lia.
  destruct (Z.ltb_spec i w); [done|]. by rewrite Hhigh by lia.
Qed.

Lemma lor_in_range w x y :
  0 <= w -> in_range w x -> in_range w y -> in_range w (Z.lor x y).
Proof.
  intros Hw Hx Hy. apply testbits_in_range; [done| |].
  { apply Z.lor_nonneg. unfold in_range in *. lia. }
  intros i Hi. by rewrite Z.lor_spec, !(in_range_testbit_high w) by done.
Qed.

Lemma land_in_range_l w x y :
  0 <= w -> in_range w x -> in_range w (Z.land x y).
Proof.
  intros Hw Hx. apply testbits_in_range; [done| |].
  { apply Z.land_nonneg. unfold in_range in *. lia. }
  intros i Hi. by rewrite Z.land_spec, (in_range_testbit_high w) by done.
Qed.

Lemma shiftr_in_range w x n :
  0 <= w -> 0 <= n -> in_range w x -> in_range w (Z.shiftr x n).
Proof.
  intros Hw Hn Hx. apply testbits_in_range; [done| |].
  { apply Z.shiftr_nonneg. unfold in_range in *. lia. }
  intros i Hi. rewrite Z.shiftr_spec by lia.
  apply (in_range_testbit_high w); [done|lia].
Qed.

Lemma lnot64_testbit x i :
  0 <= i -> Z.testbit (lnot64 x) i = xorb (Z.testbit x i) (i <? 64).
Proof.
  intros Hi. unfold lnot64. rewrite Z.lxor_spec.
  destruct (Z.ltb_spec i 64).
  - by rewrite Z.ones_spec_low by lia.
  - by rewrite Z.ones_spec_high by lia.
Qed.

#[export] Hint Rewrite Z.land_spec Z.lor_spec Z.lxor_spec Z.ldiff_spec
  Z.testbit_0_l : falcon_bits.
#[export] Hint Rewrite lnot64_testbit wrap_testbit Z.shiftr_spec Z.shiftl_spec
  using lia : falcon_bits.
#[export] Hint Resolve wrap_in_range lor_in_range land_in_range_l
  shiftr_in_range : falcon.

(** ** Error codes (remote_connection_def/remote_connection_utils/error_code_def.h) *)

Inductive FalconErrorCode : Type :=
| SUCCESS
| PATH_IS_INVALID
| PATH_IS_ROOT
| PATH_EXISTS
| PATH_NOT_EXISTS
| PATH_LOCK_CONFLICT
| PATH_VERIFY_FAILED
| REMOTE_TRANSFER_FAILED
| WRONG_WORKER
| OBSOLETE_SHARD
| REMOTE_QUERY_FAILED
| ARGUMENT_ERROR
| INODE_ROW_TYPE_ERROR
| FILE_EXISTS
| FILE_NOT_EXISTS
| OUT_OF_MEMORY
| STREAM_ERROR
| PROGRAM_ERROR
| SMART_ROUTE_ERROR
| UNDEFINED
| MKDIR_DUPLICATE
| XKEY_EXISTS
| XKEY_NOT_EXISTS
| VERSION_OUT_OF_DATE
| INVALID_PARAMETER
| UNKNOWN
| SERVER_FAULT
| ZK_NOT_CONNECT
| ZK_FETCH_RESULT_FAILED
| TRANSACTION_FAULT
| POOLED_FAULT
| NOT_FOUND_FD
| GET_ALL_WORKER_CONN_FAILED
| IO_ERROR
| READDIR_RENEW_CONN
| LAST_FALCON_ERROR_CODE.

#[export] Instance FalconErrorCode_eq_dec : EqDecision FalconErrorCode.
Proof. solve_decision. Defined.

(** ** Stateful code that can raise

    [FALCON_ELOG_ERROR] leaves the current statement by a long jump; the state
    reached so far is kept until the transaction callback cleans it up.  A
    command therefore returns a value and a state, raises an error code in the
    state it had reached, or, for a loop modelled with fuel, runs out of fuel. *)

Inductive outcome (S A : Type) : Type :=
| Ret (a : A) (s : S)
| Raise (e : FalconErrorCode) (s : S)
| OutOfFuel.
Arguments Ret {S A} a s.
Arguments Raise {S A} e s.
Arguments OutOfFuel {S A}.

Definition cmd (S A : Type) : Type := S -> outcome S A.

#[export] Instance cmd_ret S : MRet (cmd S) := fun A a s => Ret a s.
#[export] Instance cmd_bind S : MBind (cmd S) := fun A B f m s =>
  match m s with
  | Ret a s' => f a s'
  | Raise e s' => Raise e s'
  | OutOfFuel => OutOfFuel
  end.

Definition raise {S A} (e : FalconErrorCode) : cmd S A := fun s => Raise e s.
Definition get {S} : cmd S S := fun s => Ret s s.
Definition put {S} (s : S) : cmd S unit := fun _ => Ret tt s.
Definition modify {S} (f : S -> S) : cmd S unit := fun s => Ret tt (f s).
Definition gets {S A} (f : S -> A) : cmd S A := fun s => Ret (f s) s.

(** [raise_unless b e] raises [e] unless [b]. *)
Definition raise_unless {S} (b : bool) (e : FalconErrorCode) : cmd S unit :=
  if b then mret tt else raise e.

Lemma bind_Ret_inv {S A B} (m : cmd S A) (f : A -> cmd S B) s b s' :
  (m ≫= f) s = Ret b s' -> exists a s1, m s = Ret a s1 /\ f a s1 = Ret b s'.
Proof. unfold mbind, cmd_bind. destruct (m s); intros; simplify_eq; eauto. Qed.

Lemma bind_Ret {S A B} (m : cmd S A) (f : A -> cmd S B) s a s1 :
  m s = Ret a s1 -> (m ≫= f) s = f a s1.
Proof. unfold mbind, cmd_bind. by intros ->. Qed.

Lemma bind_Raise {S A B} (m : cmd S A) (f : A -> cmd S B) s e s1 :
  m s = Raise e s1 -> (m ≫= f) s = Raise e s1.
Proof. unfold mbind, cmd_bind. by intros ->. Qed.

Lemma bind_modify {S B} (g : S -> S) (f : unit -> cmd S B) s : (modify g ≫= f) s = f tt (g s).
Proof. done. Qed.

Lemma bind_get {S B} (f : S -> cmd S B) s : (get ≫= f) s = f s s.
Proof. done. Qed.

(** [run_inv] decomposes hypotheses of the form [(m ≫= f) s = Ret b s']. *)
Ltac run_inv :=
  repeat match goal with
  | H : (_ ≫= _) _ = Ret _ _ |- _ =>
      let a := fresh "a" in let s := fresh "s" in let E := fresh "E" in
      apply bind_Ret_inv in H; destruct H as (a & s & E & H)
  end.

(** [cmd_unfold H] opens the commands of [H] down to their results. *)
Ltac cmd_unfold H :=
  unfold mbind, cmd_bind, mret, cmd_ret, get, gets, put, modify, raise, raise_unless in H; simpl in H.

Lemma signed_small w x : 0 < w -> 0 <= x < 2 ^ (w - 1) -> signed w x = x.
Proof.
  intros Hw Hx. assert (2 ^ w = 2 * 2 ^ (w - 1)) as E.
  { rewrite <- (Z.pow_succ_r 2 (w - 1)) by lia. f_equal. lia. }
  unfold signed, wrap. rewrite Z.mod_small by lia. destruct (Z.ltb_spec x (2 ^ (w - 1))); [done|lia].
Qed.

Definition in_signed_range (w x : Z) : Prop := - 2 ^ (w - 1) <= x < 2 ^ (w - 1).

Lemma signed_wrap w x : 0 < w -> in_signed_range w x -> signed w (wrap w x) = x.
Proof.
  intros Hw Hx. unfold in_signed_range in Hx. assert (2 ^ w = 2 * 2 ^ (w - 1)) as E.
  { rewrite <- (Z.pow_succ_r 2 (w - 1)) by lia. f_equal. lia. }
  unfold signed. rewrite wrap_idemp by lia. unfold wrap. destruct (Z.le_gt_cases 0 x).
  - rewrite Z.mod_small by lia. destruct (Z.ltb_spec x (2 ^ (w - 1))); lia.
  - rewrite <- (Z.mod_unique_pos x (2 ^ w) (-1) (x + 2 ^ w)) by lia. destruct (Z.ltb_spec (x + 2 ^ w) (2 ^ (w - 1))); lia.
Qed.

Lemma signed_id w x : 0 < w -> in_signed_range w x -> signed w x = x.
Proof. intros Hw Hx. rewrite <- (signed_wrap w x Hw Hx) at 2. unfold signed. by rewrite wrap_idemp by lia. Qed.

Lemma s32_small x : 0 <= x < 2 ^ 31 -> s32 x = x.
Proof. by apply (signed_small 32). Qed.

Lemma s64_small x : 0 <= x < 2 ^ 63 -> s64 x = x.
Proof. by apply (signed_small 64). Qed.

(** ** Single bits of a word *)

Lemma pow2_testbit k i : 0 <= k -> 0 <= i -> Z.testbit (2 ^ k) i = (i =? k).
Proof.
  intros Hk Hi. rewrite Z.pow2_bits_eqb by lia. destruct (Z.eqb_spec k i), (Z.eqb_spec i k); done.
Qed.

Lemma lor_pow2_set x k : 0 <= k -> Z.testbit x k = true -> Z.lor x (2 ^ k) = x.
Proof.
  intros Hk Hx. apply Z.bits_inj'. intros i Hi.
  rewrite Z.lor_spec, pow2_testbit by lia.
  destruct (Z.eqb_spec i k); subst; [by rewrite Hx|apply orb_false_r].
Qed.

Lemma land_pow2_clear x k : 0 <= k -> Z.testbit x k = false -> Z.land x (2 ^ k) = 0.
Proof.
  intros Hk Hx. apply Z.bits_inj'. intros i Hi.
  rewrite Z.land_spec, pow2_testbit, Z.testbit_0_l by lia.
  destruct (Z.eqb_spec i k); subst; [by rewrite Hx|apply andb_false_r].
Qed.

Lemma lor_pow2_clear x k : 0 <= k -> Z.testbit x k = false -> Z.lor x (2 ^ k) = x + 2 ^ k.
Proof.
  intros Hk Hx. pose proof (land_pow2_clear x k Hk Hx).
  rewrite Z.add_nocarry_lxor, Z.lxor_lor by done. done.
Qed.

Lemma land_not_pow2_clear x k :
  in_range 64 x -> 0 <= k < 64 -> Z.testbit x k = false ->
  Z.land x (lnot64 (2 ^ k)) = x.
Proof.
  intros Hr Hk Hx. apply Z.bits_inj'. intros i Hi.
  rewrite Z.land_spec, lnot64_testbit, pow2_testbit by lia.
  destruct (Z.eqb_spec i k); subst; [by rewrite Hx|].
  destruct (Z.ltb_spec i 64); [by rewrite andb_true_r|].
  by rewrite (in_range_testbit_high 64) by done.
Qed.

Lemma land_not_pow2_set x k :
  in_range 64 x -> 0 <= k < 64 -> Z.testbit x k = true ->
  Z.land x (lnot64 (2 ^ k)) = x - 2 ^ k.
Proof.
  intros Hr Hk Hx. symmetry. rewrite Z.sub_nocarry_ldiff.
  - apply Z.bits_inj'. intros i Hi.
    rewrite Z.ldiff_spec, Z.land_spec, lnot64_testbit, pow2_testbit by lia.
    destruct (Z.ltb_spec i 64).
    + by destruct (i =? k).
    + by rewrite (in_range_testbit_high 64) by done.
  - apply Z.bits_inj'. intros i Hi.
    rewrite Z.ldiff_spec, pow2_testbit, Z.testbit_0_l by lia.
    destruct (Z.eqb_spec i k); subst; [by rewrite Hx|done].
Qed.

(** ** Lists *)

Lemma sum_list_with_insert {A} (f : A -> nat) (l : list A) i x y :
  l !! i = Some x ->
  (sum_list_with f (<[i := y]> l) + f x = sum_list_with f l + f y)%nat.
Proof.
  revert i. induction l as [|z l IH]; intros [|i] Hi; simplify_eq/=; [lia|].
  specialize (IH i Hi). lia.
Qed.

Lemma sum_list_with_le {A} (f : A -> nat) (l : list A) b :
  (forall x, x ∈ l -> f x <= b)%nat -> (sum_list_with f l <= length l * b)%nat.
Proof.
  induction l as [|z l IH]; intros H; simpl; [lia|].
  pose proof (H z ltac:(by left)). specialize (IH ltac:(intros; apply H; by right)). lia.
Qed.

Lemma sum_list_with_ge {A} (f : A -> nat) (l : list A) i x :
  l !! i = Some x -> (f x <= sum_list_with f l)%nat.
Proof.
  revert i. induction l as [|z l IH]; intros [|i] Hi; simplify_eq/=; [lia|].
  specialize (IH i Hi). lia.
Qed.

Lemma sum_list_with_pos {A} (f : A -> nat) (l : list A) :
  (0 < sum_list_with f l)%nat -> exists i x, l !! i = Some x /\ (0 < f x)%nat.
Proof.
  induction l as [|z l IH]; simpl; intros H; [lia|].
  destruct (decide (0 < f z)%nat); [by exists 0%nat, z|].
  destruct IH as (i & x & ? & ?); [lia|]. by exists (S i), x.
Qed.

Lemma sum_list_with_le_at {A} (f g : A -> nat) (l : list A) i x :
  (forall y, f y <= g y)%nat -> l !! i = Some x ->
  (sum_list_with f l + g x <= sum_list_with g l + f x)%nat.
Proof.
  intros Hfg. assert (forall k, sum_list_with f k <= sum_list_with g k)%nat as Hm.
  { intros k. induction k as [|z k IHk]; simpl; [lia|]. specialize (Hfg z). lia. }
  revert i. induction l as [|z l IH]; intros [|i] Hi; simplify_eq/=.
  - specialize (Hm l). lia.
  - specialize (IH i Hi). specialize (Hfg z). lia.
Qed.

Lemma sum_list_with_add {A} (f g : A -> nat) (l : list A) :
  (sum_list_with (fun x => f x + g x) l = sum_list_with f l + sum_list_with g l)%nat.
Proof. induction l as [|z l IH]; simpl; lia. Qed.

Lemma sum_list_with_zero {A} (f : A -> nat) (l : list A) :
  (forall x, x ∈ l -> f x = 0)%nat -> sum_list_with f l = 0%nat.
Proof.
  induction l as [|z l IH]; intros H; simpl; [done|].
  rewrite (H z) by (by left). rewrite IH; [done|]. intros; apply H; by right.
Qed.

(** The number of elements of a list that satisfy a boolean predicate. *)
Fixpoint count_if {A} (p : A -> bool) (l : list A) : nat :=
  match l with
  | [] => 0
  | x :: l' => (if p x then 1 else 0) + count_if p l'
  end.

#[export] Instance count_if_proper {A} (p : A -> bool) :
  Proper ((≡ₚ) ==> (=)) (count_if p).
Proof. intros l l' H. induction H; simpl; lia. Qed.

Lemma count_if_length {A} (p : A -> bool) l : (count_if p l <= length l)%nat.
Proof. induction l as [|x l IH]; simpl; [lia|]. destruct (p x); lia. Qed.

Lemma count_if_pos {A} (p : A -> bool) (l : list A) x :
  x ∈ l -> p x = true -> (1 <= count_if p l)%nat.
Proof.
  intros Hx Hp. induction l as [|y l IH]; [by apply not_elem_of_nil in Hx|]. simpl.
  apply elem_of_cons in Hx as [-> | Hx]; [rewrite Hp; lia|]. specialize (IH Hx). lia.
Qed.

Lemma count_if_zero {A} (p : A -> bool) (l : list A) :
  count_if p l = 0%nat <-> forall x, x ∈ l -> p x = false.
Proof.
  split.
  - intros H x Hx. destruct (p x) eqn:E; [|done]. pose proof (count_if_pos p l x Hx E). lia.
  - induction l as [|y l IH]; simpl; intros H; [done|].
    rewrite (H y) by (by left). apply IH. intros x Hx. apply H. by right.
Qed.
