(* ===== verification/Decimal.v ===== *)
(** * Decimal numbers in texts

    What the C library makes of a number that was printed: [pretty] prints as
    [std::to_string] does, [atoll] reads. *)

From Stdlib Require Import Ascii.
From stdpp Require Import pretty.
From S2P Require Import FalconPrelude.

Definition digit_value (a : ascii) : option Z :=
  let x := Z.of_N (N_of_ascii a) in if ((48 <=? x) && (x <=? 57))%bool then Some (x - 48) else None.

(** [atoll]: white space, a sign, and the digits up to the first other
    character.  Overflow is undefined in C; glibc returns the largest value. *)
Definition isspace (a : ascii) : bool :=
  let x := Z.of_N (N_of_ascii a) in ((x =? 32) || (9 <=? x) && (x <=? 13))%bool.
Fixpoint skip_space (s : string) : string :=
  match s with
  | String a s' => if isspace a then skip_space s' else s
  | EmptyString => s
  end.
Fixpoint digits_value (acc : Z) (s : string) : Z :=
  match s with
  | EmptyString => acc
  | String a s' => match digit_value a with Some d => digits_value (10 * acc + d) s' | None => acc end
  end.
Definition atoll (s : string) : Z :=
  match skip_space s with
  | String "-" s' => Z.max (- 2 ^ 63) (- digits_value 0 s')
  | String "+" s' => Z.min (2 ^ 63 - 1) (digits_value 0 s')
  | s' => Z.min (2 ^ 63 - 1) (digits_value 0 s')
  end.


(** ** Texts without a character *)

Fixpoint lacks (c : ascii) (s : string) : Prop :=
  match s with
  | EmptyString => True
  | String a s' => a <> c /\ lacks c s'
  end.

Lemma app_inj_lacks c a a' r r' :
  lacks c a -> lacks c a' -> a +:+ String c r = a' +:+ String c r' -> a = a'.
Proof.
  revert a'. induction a as [|h a IH]; intros [|h' a'] Ha Ha' E; cbn in *; [done| | |].
  - injection E as E1 _. by destruct Ha'.
  - injection E as E1 _. by destruct Ha.
  - injection E as -> E. f_equal. apply IH; [apply Ha|apply Ha'|done].
Qed.

Lemma append_length a s : String.length (a +:+ s) = (String.length a + String.length s)%nat.
Proof. induction a as [|h a IH]; [done|]. cbn. by rewrite <- IH. Qed.

Lemma append_assoc (a b c : string) : (a +:+ b) +:+ c = a +:+ b +:+ c.
Proof. induction a as [|h a IH]; [done|]. change (String h ((a +:+ b) +:+ c) = String h (a +:+ b +:+ c)). by rewrite IH. Qed.

Lemma append_inj_r s a a' : a +:+ s = a' +:+ s -> a = a'.
Proof.
  revert a'. induction a as [|h a IH]; intros [|h' a'] E; [done| | |].
  1,2: apply (f_equal String.length) in E; rewrite !append_length in E; cbn in E; lia.
  injection E as -> E. f_equal. by apply IH.
Qed.

(** ** Printed numbers *)

Lemma pretty_N_char_digit (n : N) : (n < 10)%N -> digit_value (pretty_N_char n) = Some (Z.of_N n).
Proof.
  intros Hn. enough (forallb (fun k => bool_decide (digit_value (pretty_N_char (N.of_nat k)) = Some (Z.of_nat k))) (seq 0 10) = true) as Hall
    by (rewrite forallb_forall in Hall; specialize (Hall (N.to_nat n)); rewrite N2Nat.id, N_nat_Z in Hall;
        eapply bool_decide_eq_true_1, Hall, in_seq; lia).
  by vm_compute.
Qed.

Lemma pretty_N_go_ind (P : string -> Prop) (x : N) s :
  P s -> (forall n s, (n < 10)%N -> P s -> P (String (pretty_N_char n) s)) -> P (pretty_N_go x s).
Proof.
  intros Hs HP. revert s Hs. induction (N.lt_wf_0 x) as [x _ IH]. intros s Hs. destruct (decide (0 < x)%N) as [Hx|Hx].
  - rewrite pretty_N_go_step by done. apply IH; [by apply N.div_lt|]. apply HP; [by apply N.mod_lt|done].
  - assert (x = 0)%N as -> by lia. done.
Qed.

Lemma pretty_N_lacks c (x : N) : digit_value c = None -> lacks c (pretty x).
Proof.
  intros Hc. unfold pretty, pretty_N. case_decide.
  { split; [|done]. intros E. by rewrite <- E in Hc. }
  apply pretty_N_go_ind; [done|]. intros n s Hn Hs. split; [|done].
  intros E. rewrite <- E, pretty_N_char_digit in Hc by done. done.
Qed.

Lemma pretty_Z_lacks c (x : Z) : digit_value c = None -> c <> "-"%char -> lacks c (pretty x).
Proof.
  intros Hc Hm. destruct x; cbn; [|by apply (pretty_N_lacks c (Npos p))|split; [done|by apply (pretty_N_lacks c (Npos p))]].
  split; [|done]. intros <-. done.
Qed.

Lemma pretty_Z_nonneg (x : Z) : 0 <= x -> pretty x = pretty (Z.to_N x).
Proof. by destruct x. Qed.

Lemma pretty_N_go_app (x : N) s r : pretty_N_go x s +:+ r = pretty_N_go x (s +:+ r).
Proof.
  revert s. induction (N.lt_wf_0 x) as [x _ IH]. intros s. destruct (decide (0 < x)%N) as [Hx|Hx].
  - rewrite !(pretty_N_go_step x) by done. apply IH. by apply N.div_lt.
  - assert (x = 0)%N as -> by lia. by rewrite !pretty_N_go_0.
Qed.

Lemma digits_value_go (x : N) s : digits_value 0 (pretty_N_go x s) = digits_value (Z.of_N x) s.
Proof.
  revert s. induction (N.lt_wf_0 x) as [x _ IH]. intros s. destruct (decide (0 < x)%N) as [Hx|Hx].
  - rewrite pretty_N_go_step by done. rewrite IH by (by apply N.div_lt). cbn [digits_value].
    rewrite pretty_N_char_digit by (by apply N.mod_lt). f_equal. pose proof (N.div_mod x 10). lia.
  - assert (x = 0)%N as -> by lia. by rewrite pretty_N_go_0.
Qed.

(** A text that starts with a digit has no white space and no sign to skip. *)
Lemma atoll_digit a s d : digit_value a = Some d -> atoll (String a s) = Z.min (2 ^ 63 - 1) (digits_value 0 (String a s)).
Proof.
  unfold atoll. destruct a as [[|] [|] [|] [|] [|] [|] [|] [|]]; intros Ha; done.
Qed.

(** Reading a printed number gives the number back, whatever follows it, up to
    the range of [long long]. *)
Lemma atoll_pretty (x : Z) a r :
  0 <= x < 2 ^ 63 -> digit_value a = None -> atoll (pretty x +:+ String a r) = x.
Proof.
  intros Hx Ha. rewrite pretty_Z_nonneg by lia. unfold pretty, pretty_N. case_decide as E.
  { assert (x = 0) as -> by lia. change (atoll (String "0" (String a r)) = 0). rewrite (atoll_digit _ _ 0) by done. cbn. by rewrite Ha. }
  rewrite pretty_N_go_app. change ("" +:+ String a r) with (String a r).
  assert (exists b s d, pretty_N_go (Z.to_N x) (String a r) = String b s /\ digit_value b = Some d) as (b & s & d & E1 & E2).
  { rewrite pretty_N_go_step by lia. apply pretty_N_go_ind; eauto 10 using pretty_N_char_digit, N.mod_lt. }
  pose proof (digits_value_go (Z.to_N x) (String a r)) as Hv. rewrite E1 in Hv |- *. rewrite (atoll_digit b s d E2), Hv. cbn.
  rewrite Ha. lia.
Qed.
