(* ===== verification/Rwlock.v ===== *)
(** * The reader-writer lock (falcon/utils/rwlock.c)

    The lock is one 64-bit word in shared memory: the number of shared holders
    in bits 0-23, the exclusive bit 24, a reference count in bits 25-49 and the
    exclusive-waiter flag in bit 62.  Each backend keeps the stack of its
    handles.  The operations are written over the memory and the backend that
    runs them; [step] interleaves the atomic accesses of many backends. *)

From S2P Require Import FalconPrelude.

Definition BIT_COUNT_FOR_SHARED : Z := 24.
Definition RW_FLAG_HAS_EXCLUSIVE_WAITER : Z := Z.shiftl 1 62.
Definition RW_VAL_EXCLUSIVE : Z := Z.shiftl 1 BIT_COUNT_FOR_SHARED.
Definition RW_VAL_SHARED : Z := 1.
Definition RW_VAL_REF_COUNT : Z := Z.shiftl 1 (BIT_COUNT_FOR_SHARED + 1).
Definition RW_LOCK_MASK : Z := Z.shiftl 1 (BIT_COUNT_FOR_SHARED + 1) - 1.
Definition RW_REF_COUNT_MASK : Z :=
  Z.land (Z.shiftl 1 (BIT_COUNT_FOR_SHARED * 2 + 2) - 1) (lnot64 RW_LOCK_MASK).
Definition MAX_SIMUL_RWLOCKS : nat := Z.to_nat 8196.

Inductive RWLockMode : Type := RW_EXCLUSIVE | RW_SHARED | RW_DECLARE.

#[export] Instance RWLockMode_eq_dec : EqDecision RWLockMode.
Proof. solve_decision. Defined.

(** A lock is named by its address. *)
Abbreviation loc := Z (only parsing).

Abbreviation RWLockHandle := (Z * RWLockMode)%type (only parsing).

(** [held] is held_rwlocks[num_held_rwlocks-1 .. 0], newest first, and
    [holdoff] is InterruptHoldoffCount. *)
Record backend : Type := Backend {
  held : list RWLockHandle;
  holdoff : Z;
}.

(** The lock words in shared memory; RWLockInitialize stores 0. *)
Abbreviation mem := (gmap Z Z) (only parsing).
Definition word (m : mem) (l : loc) : Z := default 0 (m !! l).

Definition rw : Type := mem * backend.

Definition RWLockInitialize (l : loc) (m : mem) : mem := <[l := 0]> m.

(** ** Atomic accesses and the backend's own variables *)

Definition pg_atomic_fetch_add_u64 (l : loc) (v : Z) : cmd rw unit :=
  modify (fun s => (<[l := u64 (word s.1 l + v)]> s.1, s.2)).
Definition pg_atomic_fetch_sub_u64 (l : loc) (v : Z) : cmd rw unit :=
  modify (fun s => (<[l := u64 (word s.1 l - v)]> s.1, s.2)).
Definition HOLD_INTERRUPTS : cmd rw unit :=
  modify (fun s => (s.1, Backend (held s.2) (holdoff s.2 + 1))).
Definition RESUME_INTERRUPTS : cmd rw unit :=
  modify (fun s => (s.1, Backend (held s.2) (holdoff s.2 - 1))).
Definition push_handle (h : RWLockHandle) : cmd rw unit :=
  modify (fun s => (s.1, Backend (h :: held s.2) (holdoff s.2))).
Definition set_held (hs : list RWLockHandle) : cmd rw unit :=
  modify (fun s => (s.1, Backend hs (holdoff s.2))).

(** The backward search of held_rwlocks and the removal of the entry found. *)
Fixpoint take_newest (p : RWLockHandle -> bool) (hs : list RWLockHandle)
    : option (RWLockHandle * list RWLockHandle) :=
  match hs with
  | [] => None
  | h :: hs' =>
      if p h then Some (h, hs')
      else match take_newest p hs' with
           | Some (h', r) => Some (h', h :: r)
           | None => None
           end
  end.

(** ** The attempt

    One pass of the body of RWLockAttemptLock: the desired word, and whether
    the lock is taken. *)
Definition attempt (old_state : Z) (mode : RWLockMode) : Z * bool :=
  match mode with
  | RW_EXCLUSIVE =>
      if Z.land old_state RW_LOCK_MASK =? 0
      then (Z.land (Z.lor old_state RW_VAL_EXCLUSIVE)
                   (lnot64 RW_FLAG_HAS_EXCLUSIVE_WAITER), true)
      else (Z.lor old_state RW_FLAG_HAS_EXCLUSIVE_WAITER, false)
  | _ =>
      if Z.land old_state (Z.lor RW_VAL_EXCLUSIVE RW_FLAG_HAS_EXCLUSIVE_WAITER) =? 0
      then (u64 (old_state + RW_VAL_SHARED), true)
      else (old_state, false)
  end.

(** The compare-exchange loop: [env] lists the contents of the word at the
    successive compare-exchanges.  The result is the contents that was
    replaced, the contents stored and the answer. *)
Fixpoint RWLockAttemptLock (old_state : Z) (env : list Z) (mode : RWLockMode)
    : option (Z * Z * bool) :=
  match env with
  | [] => None
  | cur :: env' =>
      let '(desired_state, lock_free) := attempt old_state mode in
      if cur =? old_state then Some (cur, desired_state, lock_free)
      else RWLockAttemptLock cur env' mode
  end.

(** The successful compare-exchange as one atomic access. *)
Definition attempt_lock (l : loc) (mode : RWLockMode) : cmd rw bool := fun s =>
  let '(w, ok) := attempt (word s.1 l) mode in Ret ok (<[l := w]> s.1, s.2).

(** ** Operations *)

Definition RWLockDeclare (l : loc) : cmd rw unit :=
  s ← get;
  _ ← raise_unless (bool_decide (length (held s.2) < MAX_SIMUL_RWLOCKS)%nat) PROGRAM_ERROR;
  _ ← HOLD_INTERRUPTS;
  _ ← pg_atomic_fetch_add_u64 l RW_VAL_REF_COUNT;
  push_handle (l, RW_DECLARE).

Definition RWLockUndeclare (l : loc) : cmd rw unit :=
  s ← get;
  match take_newest (fun h => bool_decide (h = (l, RW_DECLARE))) (held s.2) with
  | None => raise PROGRAM_ERROR
  | Some (_, hs) =>
      _ ← set_held hs;
      _ ← pg_atomic_fetch_sub_u64 l RW_VAL_REF_COUNT;
      RESUME_INTERRUPTS
  end.

Definition RWLockCheckDestroyable (l : loc) (m : mem) : bool :=
  Z.land (word m l) RW_REF_COUNT_MASK =? 0.

(** RWLockAcquire up to the spin loop. *)
Definition RWLockAcquire_begin (l : loc) (mode : RWLockMode) : cmd rw unit :=
  _ ← raise_unless (bool_decide (mode <> RW_DECLARE)) PROGRAM_ERROR;
  s ← get;
  _ ← raise_unless (bool_decide (length (held s.2) < MAX_SIMUL_RWLOCKS)%nat) PROGRAM_ERROR;
  _ ← HOLD_INTERRUPTS;
  pg_atomic_fetch_add_u64 l RW_VAL_REF_COUNT.

(** The spin loop, with the handle recorded on success. *)
Fixpoint RWLockAcquire_spin (fuel : nat) (l : loc) (mode : RWLockMode) : cmd rw unit :=
  match fuel with
  | O => fun _ => OutOfFuel
  | S fuel' =>
      getLock ← attempt_lock l mode;
      if (getLock : bool) then push_handle (l, mode) else RWLockAcquire_spin fuel' l mode
  end.

Definition RWLockAcquire (fuel : nat) (l : loc) (mode : RWLockMode) : cmd rw unit :=
  _ ← RWLockAcquire_begin l mode;
  RWLockAcquire_spin fuel l mode.

(** RWLockRelease up to and including its first atomic access. *)
Definition RWLockRelease_begin (l : loc) : cmd rw unit :=
  s ← get;
  match take_newest (fun h => bool_decide (h.1 = l)) (held s.2) with
  | None => raise PROGRAM_ERROR
  | Some ((_, mode), hs) =>
      _ ← set_held hs;
      pg_atomic_fetch_sub_u64 l
        (match mode with RW_EXCLUSIVE => RW_VAL_EXCLUSIVE | _ => RW_VAL_SHARED end)
  end.

Definition RWLockRelease_end (l : loc) : cmd rw unit :=
  _ ← pg_atomic_fetch_sub_u64 l RW_VAL_REF_COUNT;
  RESUME_INTERRUPTS.

Definition RWLockRelease (l : loc) : cmd rw unit :=
  _ ← RWLockRelease_begin l;
  RWLockRelease_end l.

(** The loop of RWLockReleaseAll; [RWLockReleaseAll] gives it one round per
    handle. *)
Fixpoint RWLockReleaseAll_loop (fuel : nat) (keep : bool) : cmd rw unit := fun s =>
  match held s.2, fuel with
  | [], _ => Ret tt s
  | (l, mode) :: _, O => OutOfFuel
  | (l, mode) :: _, S fuel' =>
      (_ ← (if keep then HOLD_INTERRUPTS else mret tt);
       _ ← (match mode with RW_DECLARE => RWLockUndeclare l | _ => RWLockRelease l end);
       RWLockReleaseAll_loop fuel' keep) s
  end.

Definition RWLockReleaseAll (keepInterruptHoldoffCount : bool) : cmd rw unit :=
  s ← get;
  RWLockReleaseAll_loop (length (held s.2)) keepInterruptHoldoffCount.

(** ** Interleaving

    Between two atomic accesses a backend is idle, spinning in RWLockAcquire,
    or between the two subtractions of RWLockRelease. *)
Inductive pc : Type :=
| Idle
| Spinning (l : loc) (mode : RWLockMode)
| Releasing (l : loc).

Definition config : Type := mem * list (backend * pc).

Definition newest_mode (l : loc) (b : backend) : option RWLockMode :=
  match take_newest (fun h => bool_decide (h.1 = l)) (held b) with
  | Some (h, _) => Some h.2
  | None => None
  end.

(** One atomic access of backend [i].  RWLockRelease is called for a lock whose
    newest handle was acquired, not only declared.  Code outside the lock
    changes InterruptHoldoffCount between operations. *)
Inductive step : config -> config -> Prop :=
| step_declare m bs i b l m' b' :
    bs !! i = Some (b, Idle) -> RWLockDeclare l (m, b) = Ret tt (m', b') ->
    step (m, bs) (m', <[i := (b', Idle)]> bs)
| step_undeclare m bs i b l m' b' :
    bs !! i = Some (b, Idle) -> RWLockUndeclare l (m, b) = Ret tt (m', b') ->
    step (m, bs) (m', <[i := (b', Idle)]> bs)
| step_acquire m bs i b l mode m' b' :
    bs !! i = Some (b, Idle) -> RWLockAcquire_begin l mode (m, b) = Ret tt (m', b') ->
    step (m, bs) (m', <[i := (b', Spinning l mode)]> bs)
| step_attempt_fail m bs i b l mode m' b' :
    bs !! i = Some (b, Spinning l mode) -> attempt_lock l mode (m, b) = Ret false (m', b') ->
    step (m, bs) (m', <[i := (b', Spinning l mode)]> bs)
| step_attempt_ok m bs i b l mode m1 b1 m' b' :
    bs !! i = Some (b, Spinning l mode) -> attempt_lock l mode (m, b) = Ret true (m1, b1) ->
    push_handle (l, mode) (m1, b1) = Ret tt (m', b') ->
    step (m, bs) (m', <[i := (b', Idle)]> bs)
| step_release m bs i b l m' b' :
    bs !! i = Some (b, Idle) -> newest_mode l b <> Some RW_DECLARE ->
    RWLockRelease_begin l (m, b) = Ret tt (m', b') ->
    step (m, bs) (m', <[i := (b', Releasing l)]> bs)
| step_release_end m bs i b l m' b' :
    bs !! i = Some (b, Releasing l) -> RWLockRelease_end l (m, b) = Ret tt (m', b') ->
    step (m, bs) (m', <[i := (b', Idle)]> bs)
| step_interrupts m bs i hs k k' :
    bs !! i = Some (Backend hs k, Idle) ->
    step (m, bs) (m, <[i := (Backend hs k', Idle)]> bs).

Definition initial (n : nat) : config := (∅, replicate n (Backend [] 0, Idle)).

Definition reachable (n : nat) (c : config) : Prop := rtc step (initial n) c.

(** ** The word as four fields *)

Definition encode (s e r f : Z) : Z := s + 2 ^ 24 * e + 2 ^ 25 * r + 2 ^ 62 * f.

Record fields_ok (s e r f : Z) : Prop := {
  fields_s : 0 <= s < 2 ^ 24;
  fields_e : 0 <= e <= 1;
  fields_r : 0 <= r < 2 ^ 25;
  fields_f : 0 <= f <= 1;
}.

Ltac fields_lia :=
  repeat match goal with H : fields_ok _ _ _ _ |- _ => destruct H end;
  unfold encode in *; Z.to_euclidean_division_equations; lia.

Lemma encode_range s e r f : fields_ok s e r f -> in_range 64 (encode s e r f).
Proof. intros H. unfold in_range. fields_lia. Qed.

Lemma encode_bit_excl s e r f :
  fields_ok s e r f -> Z.testbit (encode s e r f) 24 = (e =? 1).
Proof.
  intros H. apply Z.b2z_inj. rewrite Z.testbit_spec' by lia.
  destruct (Z.eqb_spec e 1); simpl; fields_lia.
Qed.

Lemma encode_bit_flag s e r f :
  fields_ok s e r f -> Z.testbit (encode s e r f) 62 = (f =? 1).
Proof.
  intros H. apply Z.b2z_inj. rewrite Z.testbit_spec' by lia.
  destruct (Z.eqb_spec f 1); simpl; fields_lia.
Qed.

Lemma encode_lock_mask s e r f :
  fields_ok s e r f -> Z.land (encode s e r f) RW_LOCK_MASK = s + 2 ^ 24 * e.
Proof.
  intros H. change RW_LOCK_MASK with (Z.ones 25).
  rewrite Z.land_ones by lia. fields_lia.
Qed.

Lemma encode_ref_mask s e r f :
  fields_ok s e r f -> Z.land (encode s e r f) RW_REF_COUNT_MASK = 2 ^ 25 * r.
Proof.
  intros H. change RW_REF_COUNT_MASK with (Z.shiftl (Z.ones 25) 25).
  replace (Z.land (encode s e r f) (Z.shiftl (Z.ones 25) 25))
    with (Z.shiftl (Z.land (Z.shiftr (encode s e r f) 25) (Z.ones 25)) 25).
  - rewrite Z.land_ones, Z.shiftr_div_pow2, Z.shiftl_mul_pow2 by lia. fields_lia.
  - apply Z.bits_inj'. intros i Hi. rewrite Z.shiftl_spec, !Z.land_spec, Z.shiftl_spec by lia.
    destruct (Z.lt_ge_cases i 25).
    + by rewrite !(Z.testbit_neg_r _ (i - 25)), !andb_false_r by lia.
    + rewrite Z.shiftr_spec by lia. by rewrite Z.sub_add.
Qed.

Lemma encode_reader_mask s e r f :
  fields_ok s e r f ->
  (Z.land (encode s e r f) (Z.lor RW_VAL_EXCLUSIVE RW_FLAG_HAS_EXCLUSIVE_WAITER) =? 0)
    = ((e =? 0) && (f =? 0))%bool.
Proof.
  intros H. rewrite Z.land_lor_distr_r.
  change RW_VAL_EXCLUSIVE with (2 ^ 24). change RW_FLAG_HAS_EXCLUSIVE_WAITER with (2 ^ 62).
  pose proof (encode_bit_excl _ _ _ _ H) as Be. pose proof (encode_bit_flag _ _ _ _ H) as Bf.
  assert (e = 0 \/ e = 1) as [-> | ->] by fields_lia;
  assert (f = 0 \/ f = 1) as [-> | ->] by fields_lia.
  - by rewrite !land_pow2_clear by done.
  - apply Z.eqb_neq. rewrite Z.lor_eq_0_iff. intros [_ E].
    apply (f_equal (fun x => Z.testbit x 62)) in E.
    rewrite Z.land_spec, Bf, pow2_testbit in E by lia. done.
  - apply Z.eqb_neq. rewrite Z.lor_eq_0_iff. intros [E _].
    apply (f_equal (fun x => Z.testbit x 24)) in E.
    rewrite Z.land_spec, Be, pow2_testbit in E by lia. done.
  - apply Z.eqb_neq. rewrite Z.lor_eq_0_iff. intros [E _].
    apply (f_equal (fun x => Z.testbit x 24)) in E.
    rewrite Z.land_spec, Be, pow2_testbit in E by lia. done.
Qed.

Lemma attempt_exclusive s e r f :
  fields_ok s e r f ->
  attempt (encode s e r f) RW_EXCLUSIVE =
    if (s =? 0) && (e =? 0) then (encode 0 1 r 0, true) else (encode s e r 1, false).
Proof.
  intros H. unfold attempt. rewrite encode_lock_mask by done.
  change RW_VAL_EXCLUSIVE with (2 ^ 24). change RW_FLAG_HAS_EXCLUSIVE_WAITER with (2 ^ 62).
  pose proof (encode_bit_excl _ _ _ _ H) as Be. pose proof (encode_bit_flag _ _ _ _ H) as Bf.
  replace (s + 2 ^ 24 * e =? 0) with ((s =? 0) && (e =? 0))%bool by fields_lia.
  destruct ((s =? 0) && (e =? 0))%bool eqn:E; bool_to_prop; subst.
  - assert (fields_ok 0 1 r f) as H' by (destruct H; split; lia).
    rewrite lor_pow2_clear by done.
    replace (encode 0 0 r f + 2 ^ 24) with (encode 0 1 r f) by (unfold encode; lia).
    pose proof (encode_bit_flag _ _ _ _ H') as Bf'.
    assert (f = 0 \/ f = 1) as [-> | ->] by fields_lia.
    + rewrite land_not_pow2_clear by (done || lia || by apply encode_range). done.
    + rewrite land_not_pow2_set by (done || lia || by apply encode_range).
      f_equal. unfold encode. lia.
  - assert (f = 0 \/ f = 1) as [-> | ->] by fields_lia.
    + rewrite lor_pow2_clear by done. f_equal. unfold encode. lia.
    + by rewrite lor_pow2_set by done.
Qed.

Lemma attempt_shared s e r f :
  fields_ok s e r f -> s + 1 < 2 ^ 24 ->
  attempt (encode s e r f) RW_SHARED =
    if (e =? 0) && (f =? 0) then (encode (s + 1) e r f, true) else (encode s e r f, false).
Proof.
  intros H Hs. unfold attempt. rewrite encode_reader_mask by done.
  destruct ((e =? 0) && (f =? 0))%bool; [|done].
  rewrite wrap_small; [f_equal; unfold encode, RW_VAL_SHARED; lia|].
  unfold in_range, RW_VAL_SHARED. fields_lia.
Qed.

(** ** What the handles of the backends add up to *)

Definition holds (l : loc) (mode : RWLockMode) (bp : backend * pc) : nat :=
  count_if (fun h => bool_decide (h = (l, mode))) (held bp.1).

Definition pending (l : loc) (p : pc) : nat :=
  match p with
  | Idle => 0
  | Spinning l' _ | Releasing l' => if bool_decide (l' = l) then 1 else 0
  end.

Definition refs (l : loc) (bp : backend * pc) : nat :=
  count_if (fun h => bool_decide (h.1 = l)) (held bp.1) + pending l bp.2.

Definition total (f : backend * pc -> nat) (bs : list (backend * pc)) : Z :=
  Z.of_nat (sum_list_with f bs).

Definition backend_ok (bp : backend * pc) : Prop :=
  (length (held bp.1) + (if bp.2 is Idle then 0 else 1) <= MAX_SIMUL_RWLOCKS)%nat /\
  (forall l mode, bp.2 = Spinning l mode -> mode <> RW_DECLARE).

(** More backends than the word can count references of. *)
Definition MAX_MODEL_BACKENDS : nat := Z.to_nat 2047.

Definition word_inv (m : mem) (bs : list (backend * pc)) (l : loc) (f : Z) : Prop :=
  0 <= f <= 1 /\
  word m l = encode (total (holds l RW_SHARED) bs) (total (holds l RW_EXCLUSIVE) bs)
                    (total (refs l) bs) f /\
  (f = 1 -> exists i b, bs !! i = Some (b, Spinning l RW_EXCLUSIVE)) /\
  total (holds l RW_EXCLUSIVE) bs <= 1 /\
  (total (holds l RW_EXCLUSIVE) bs = 1 -> total (holds l RW_SHARED) bs = 0).

Record rw_inv (c : config) : Prop := {
  ri_backends : (length c.2 <= MAX_MODEL_BACKENDS)%nat;
  ri_ok : forall i bp, c.2 !! i = Some bp -> backend_ok bp;
  ri_word : forall l, exists f, word_inv c.1 c.2 l f;
}.

Lemma take_newest_spec p hs h r :
  take_newest p hs = Some (h, r) -> p h = true /\ hs ≡ₚ h :: r.
Proof.
  revert r. induction hs as [|h0 hs IH]; intros r H; simplify_eq/=.
  destruct (p h0) eqn:Hp; simplify_eq; [done|].
  destruct (take_newest p hs) as [[h' r']|] eqn:E; simplify_eq.
  destruct (IH r' eq_refl) as [? ->]. split; [done|]. apply Permutation_swap.
Qed.

Lemma holds_perm l mode b b' p p' :
  held b ≡ₚ held b' -> holds l mode (b, p) = holds l mode (b', p').
Proof. intros H. unfold holds. simpl. by rewrite H. Qed.

Lemma holds_cons l mode h hs k p :
  holds l mode (Backend (h :: hs) k, p) =
    ((if bool_decide (h = (l, mode)) then 1 else 0) + holds l mode (Backend hs k, p))%nat.
Proof. done. Qed.

Lemma refs_cons l h hs k p :
  refs l (Backend (h :: hs) k, p) =
    ((if bool_decide (h.1 = l) then 1 else 0) + refs l (Backend hs k, p))%nat.
Proof. unfold refs. simpl. lia. Qed.

Lemma holds_backend l mode hs k p k' p' :
  holds l mode (Backend hs k, p) = holds l mode (Backend hs k', p').
Proof. done. Qed.

Lemma refs_perm l b b' p :
  held b ≡ₚ held b' -> refs l (b, p) = refs l (b', p).
Proof. intros H. unfold refs. simpl. by rewrite H. Qed.

Lemma refs_pc l b p p' : (refs l (b, p) + pending l p' = refs l (b, p') + pending l p)%nat.
Proof. unfold refs. simpl. lia. Qed.

Lemma holds_le_refs l bp :
  (holds l RW_SHARED bp + holds l RW_EXCLUSIVE bp + pending l bp.2 <= refs l bp)%nat.
Proof.
  destruct bp as [[hs k] p]. unfold refs, holds. simpl.
  induction hs as [|[l' mode] hs IH]; [simpl; lia|].
  simpl in *. repeat case_bool_decide; simplify_eq/=; lia.
Qed.

Lemma refs_bound l bp : backend_ok bp -> (refs l bp <= MAX_SIMUL_RWLOCKS)%nat.
Proof.
  intros [H _]. unfold refs. pose proof (count_if_length (fun h : RWLockHandle => bool_decide (h.1 = l)) (held bp.1)).
  destruct bp as [b [|? ?|?]]; simpl in *; repeat case_bool_decide; lia.
Qed.

Lemma total_insert f bs i bp bp' :
  bs !! i = Some bp -> total f (<[i := bp']> bs) = total f bs - Z.of_nat (f bp) + Z.of_nat (f bp').
Proof. intros H. unfold total. pose proof (sum_list_with_insert f bs i bp bp' H). lia. Qed.

(** In a configuration that satisfies the invariant the four fields have room. *)
Lemma rw_inv_room c l i bp :
  rw_inv c -> c.2 !! i = Some bp ->
  0 <= total (holds l RW_SHARED) c.2 /\ 0 <= total (holds l RW_EXCLUSIVE) c.2 /\
  total (holds l RW_SHARED) c.2 + total (holds l RW_EXCLUSIVE) c.2 + Z.of_nat (pending l bp.2)
    <= total (refs l) c.2 < 2 ^ 24 /\
  Z.of_nat (holds l RW_SHARED bp) <= total (holds l RW_SHARED) c.2 /\
  Z.of_nat (holds l RW_EXCLUSIVE bp) <= total (holds l RW_EXCLUSIVE) c.2 /\
  Z.of_nat (refs l bp) <= total (refs l) c.2.
Proof.
  intros [Hn Hok _] Hi. unfold total.
  pose proof (sum_list_with_le_at (fun bp => holds l RW_SHARED bp + holds l RW_EXCLUSIVE bp)%nat
    (refs l) c.2 i bp ltac:(intros y; pose proof (holds_le_refs l y); cbv beta; lia) Hi) as H1.
  rewrite sum_list_with_add in H1.
  pose proof (holds_le_refs l bp).
  pose proof (sum_list_with_ge (holds l RW_SHARED) _ _ _ Hi).
  pose proof (sum_list_with_ge (holds l RW_EXCLUSIVE) _ _ _ Hi).
  pose proof (sum_list_with_ge (refs l) _ _ _ Hi).
  assert (sum_list_with (refs l) c.2 <= length c.2 * MAX_SIMUL_RWLOCKS)%nat as H5.
  { apply sum_list_with_le. intros x Hx. apply list_elem_of_lookup in Hx as [j Hj].
    by apply refs_bound, (Hok j). }
  assert (Z.of_nat (sum_list_with (refs l) c.2) <= 2047 * 8196) as H6
    by (apply (Nat.mul_le_mono_r _ _ MAX_SIMUL_RWLOCKS) in Hn; apply inj_le in H5, Hn;
        rewrite (Nat2Z.inj_mul MAX_MODEL_BACKENDS) in Hn; change (Z.of_nat MAX_MODEL_BACKENDS) with 2047 in Hn;
        change (Z.of_nat MAX_SIMUL_RWLOCKS) with 8196 in Hn; lia).
  cbv beta in H1. repeat split; lia.
Qed.

Lemma word_insert_eq m l w : word (<[l := w]> m) l = w.
Proof. unfold word. by rewrite lookup_insert_eq. Qed.

Lemma word_insert_ne m l l' w : l <> l' -> word (<[l := w]> m) l' = word m l'.
Proof. intros H. unfold word. by rewrite lookup_insert_ne. Qed.

(** ** Preservation

    One access changes one backend and one word; the invariant follows from
    what it does there. *)
Lemma rw_inv_update m bs i b p m' b' p' l0 :
  rw_inv (m, bs) -> bs !! i = Some (b, p) -> backend_ok (b', p') ->
  (forall l, l <> l0 ->
     word m' l = word m l /\
     holds l RW_SHARED (b', p') = holds l RW_SHARED (b, p) /\
     holds l RW_EXCLUSIVE (b', p') = holds l RW_EXCLUSIVE (b, p) /\
     refs l (b', p') = refs l (b, p) /\ p <> Spinning l RW_EXCLUSIVE) ->
  (forall f, word_inv m bs l0 f -> exists f',
     0 <= f' <= 1 /\
     let s := total (holds l0 RW_SHARED) bs - Z.of_nat (holds l0 RW_SHARED (b, p))
                + Z.of_nat (holds l0 RW_SHARED (b', p')) in
     let e := total (holds l0 RW_EXCLUSIVE) bs - Z.of_nat (holds l0 RW_EXCLUSIVE (b, p))
                + Z.of_nat (holds l0 RW_EXCLUSIVE (b', p')) in
     let r := total (refs l0) bs - Z.of_nat (refs l0 (b, p)) + Z.of_nat (refs l0 (b', p')) in
     word m' l0 = encode s e r f' /\
     (f' = 1 -> p' = Spinning l0 RW_EXCLUSIVE \/ f = 1 /\ p <> Spinning l0 RW_EXCLUSIVE) /\
     e <= 1 /\ (e = 1 -> s = 0)) ->
  rw_inv (m', <[i := (b', p')]> bs).
Proof.
  intros [Hn Hok Hw] Hi Hok' Hother Hl0. simpl in *. split; simpl.
  - by rewrite length_insert.
  - intros j bp Hj. destruct (decide (i = j)) as [<-|Hij].
    + rewrite list_lookup_insert_eq in Hj by (by eapply lookup_lt_Some). by simplify_eq.
    + rewrite list_lookup_insert_ne in Hj by done. by eapply Hok.
  - assert (forall l f f', word_inv m bs l f ->
      (f' = 1 -> p' = Spinning l RW_EXCLUSIVE \/ f = 1 /\ p <> Spinning l RW_EXCLUSIVE) ->
      f' = 1 -> exists j b0, <[i := (b', p')]> bs !! j = Some (b0, Spinning l RW_EXCLUSIVE)) as Hflag.
    { intros l f f' (_ & _ & Hf & _) Hc Hf'. destruct (Hc Hf') as [-> | [E Hp]].
      - exists i, b'. apply list_lookup_insert_eq. by eapply lookup_lt_Some.
      - destruct (Hf E) as (j & b0 & Hj). exists j, b0.
        rewrite list_lookup_insert_ne; [done|]. intros ->. rewrite Hi in Hj. by simplify_eq. }
    intros l. destruct (Hw l) as [f Hf]. destruct (decide (l = l0)) as [->|Hl].
    + destruct (Hl0 f Hf) as (f' & Hf' & Hword & Hc & He & Hes). exists f'.
      unfold word_inv. rewrite !(total_insert _ _ _ _ _ Hi).
      split_and!; [lia|lia|done|by apply (Hflag l0 f)|done|done].
    + destruct (Hother l Hl) as (Ew & Es & Ee & Er & Hp). exists f.
      pose proof Hf as (? & ? & ? & ? & ?).
      unfold word_inv. rewrite !(total_insert _ _ _ _ _ Hi), Ew, Es, Ee, Er.
      rewrite !Z.sub_add. split_and!; [lia|lia|done| |done|done].
      apply (Hflag l f); auto.
Qed.

Lemma word_inv_fields m bs l f i bp :
  rw_inv (m, bs) -> bs !! i = Some bp -> word_inv m bs l f ->
  fields_ok (total (holds l RW_SHARED) bs) (total (holds l RW_EXCLUSIVE) bs) (total (refs l) bs) f.
Proof.
  intros Hinv Hi (? & _ & _ & ? & _).
  pose proof (rw_inv_room (m, bs) l i bp Hinv Hi) as Hr. simpl in Hr. split; lia.
Qed.

(** [rw_open H] opens an operation that ran to its end. *)
Ltac rw_open H :=
  unfold RWLockDeclare, RWLockUndeclare, RWLockAcquire_begin, RWLockRelease_begin,
    RWLockRelease_end, push_handle, raise_unless, HOLD_INTERRUPTS, RESUME_INTERRUPTS,
    set_held, pg_atomic_fetch_add_u64, pg_atomic_fetch_sub_u64, modify, get, raise,
    mbind, cmd_bind, mret, cmd_ret in H.

(** [rw_word] computes an atomic addition or subtraction on an encoded word. *)
Ltac rw_word :=
  change RW_VAL_REF_COUNT with (2 ^ 25); change RW_VAL_EXCLUSIVE with (2 ^ 24);
  change RW_VAL_SHARED with 1;
  rewrite wrap_small by (unfold in_range; fields_lia); unfold encode; lia.

Lemma undeclare_handles l b hs :
  take_newest (fun h => bool_decide (h = (l, RW_DECLARE))) (held b) = Some hs ->
  hs.1 = (l, RW_DECLARE) /\ held b ≡ₚ (l, RW_DECLARE) :: hs.2.
Proof.
  destruct hs as [h r]. intros H. apply take_newest_spec in H as [Hp Hperm].
  apply bool_decide_eq_true in Hp as ->. done.
Qed.

Lemma release_handles l b hs :
  take_newest (fun h => bool_decide (h.1 = l)) (held b) = Some hs ->
  hs.1.1 = l /\ held b ≡ₚ (l, hs.1.2) :: hs.2.
Proof.
  destruct hs as [[l' mode] r]. intros H. apply take_newest_spec in H as [Hp Hperm].
  apply bool_decide_eq_true in Hp. simpl in *. by subst.
Qed.

(** Taking handle [h] away from a backend, or giving it one, changes the
    counts of its own lock only. *)
Lemma held_swap b h hs k l mode p p' :
  held b ≡ₚ h :: hs ->
  holds l mode (b, p) =
    ((if bool_decide (h = (l, mode)) then 1 else 0) + holds l mode (Backend hs k, p'))%nat /\
  (refs l (b, p) + pending l p' =
    (if bool_decide (h.1 = l) then 1 else 0) + refs l (Backend hs k, p') + pending l p)%nat.
Proof.
  intros H. split.
  - by rewrite (holds_perm l mode b (Backend (h :: hs) k) p p' H), holds_cons.
  - rewrite (refs_perm l b (Backend (h :: hs) k) p H), refs_cons.
    pose proof (refs_pc l (Backend hs k) p p'). lia.
Qed.

Lemma step_declare_inv m bs i b l m' b' :
  rw_inv (m, bs) -> bs !! i = Some (b, Idle) -> RWLockDeclare l (m, b) = Ret tt (m', b') ->
  rw_inv (m', <[i := (b', Idle)]> bs).
Proof.
  intros Hinv Hi H. rw_open H. simpl in H. case_bool_decide; simplify_eq/=.
  pose proof (ri_ok _ Hinv i _ Hi) as [Hlen _].
  apply (rw_inv_update m bs i b Idle _ _ _ l); auto.
  - split; simpl in *; [lia|done].
  - intros l1 Hl1. rewrite word_insert_ne, !holds_cons, refs_cons by done. simpl.
    rewrite !bool_decide_eq_false_2 by congruence. by destruct b.
  - intros f Hf. pose proof (word_inv_fields _ _ _ _ _ _ Hinv Hi Hf) as Hfo.
    destruct Hf as (? & Hw & _ & ? & ?). exists f. destruct b as [hs k].
    rewrite word_insert_eq, !holds_cons, refs_cons, Hw. simpl.
    rewrite !bool_decide_eq_false_2, bool_decide_eq_true_2 by congruence.
    pose proof (rw_inv_room _ l i _ Hinv Hi) as Hr. simpl in Hr.
    change (holds l ?mo (Backend hs (k + 1), Idle)) with (holds l mo (Backend hs k, Idle)).
    change (refs l (Backend hs (k + 1), Idle)) with (refs l (Backend hs k, Idle)).
    split_and!; [lia|lia|rw_word|by right|lia|lia].
Qed.

Lemma step_undeclare_inv m bs i b l m' b' :
  rw_inv (m, bs) -> bs !! i = Some (b, Idle) -> RWLockUndeclare l (m, b) = Ret tt (m', b') ->
  rw_inv (m', <[i := (b', Idle)]> bs).
Proof.
  intros Hinv Hi H. rw_open H. simpl in H.
  destruct (take_newest _ (held b)) as [[h hs]|] eqn:E; simplify_eq/=.
  apply undeclare_handles in E as [_ Hperm]. simpl in Hperm.
  pose proof (ri_ok _ Hinv i _ Hi) as [Hlen _]. simpl in Hlen. rewrite Hperm in Hlen.
  set (b' := Backend hs (holdoff b - 1)).
  apply (rw_inv_update m bs i b Idle _ _ _ l); auto.
  - split; simpl in *; [lia|done].
  - intros l1 Hl1. rewrite word_insert_ne by done.
    destruct (held_swap b _ hs (holdoff b - 1) l1 RW_SHARED Idle Idle Hperm) as [-> ?].
    destruct (held_swap b _ hs (holdoff b - 1) l1 RW_EXCLUSIVE Idle Idle Hperm) as [-> Er].
    simpl in Er. rewrite !bool_decide_eq_false_2 in * by congruence.
    simpl in *. fold b' in Er. split_and!; auto; lia || done.
  - intros f Hf. pose proof (word_inv_fields _ _ _ _ _ _ Hinv Hi Hf) as Hfo.
    destruct Hf as (? & Hw & _ & ? & ?). exists f.
    pose proof (rw_inv_room _ l i _ Hinv Hi) as Hr. simpl in Hr.
    destruct (held_swap b _ hs (holdoff b - 1) l RW_SHARED Idle Idle Hperm) as [Es ?].
    destruct (held_swap b _ hs (holdoff b - 1) l RW_EXCLUSIVE Idle Idle Hperm) as [Ee Er].
    rewrite word_insert_eq, Hw. simpl in Er. fold b' in Es, Ee, Er.
    rewrite bool_decide_eq_false_2 in Es, Ee by congruence.
    rewrite bool_decide_eq_true_2 in Er by done.
    cbv zeta. split_and!; [lia|lia|rw_word|by right|lia|lia].
Qed.

Lemma step_acquire_inv m bs i b l mode m' b' :
  rw_inv (m, bs) -> bs !! i = Some (b, Idle) ->
  RWLockAcquire_begin l mode (m, b) = Ret tt (m', b') ->
  rw_inv (m', <[i := (b', Spinning l mode)]> bs).
Proof.
  intros Hinv Hi H. rw_open H. simpl in H.
  case_bool_decide; simplify_eq/=. case_bool_decide; simplify_eq/=.
  apply (rw_inv_update m bs i b Idle _ _ _ l); auto.
  - split; simpl in *; [lia|congruence].
  - intros l1 Hl1. rewrite word_insert_ne by done. destruct b as [hs k].
    unfold refs. simpl. by rewrite bool_decide_eq_false_2 by congruence.
  - intros f Hf. pose proof (word_inv_fields _ _ _ _ _ _ Hinv Hi Hf) as Hfo.
    destruct Hf as (? & Hw & _ & ? & ?). exists f.
    pose proof (rw_inv_room _ l i _ Hinv Hi) as Hr. simpl in Hr. destruct b as [hs k].
    rewrite word_insert_eq, Hw. simpl.
    rewrite !(holds_backend _ _ hs (k + 1) _ k Idle).
    assert (refs l (Backend hs (k + 1), Spinning l mode) = S (refs l (Backend hs k, Idle))) as ->.
    { unfold refs. simpl. rewrite bool_decide_eq_true_2 by done. lia. }
    cbv zeta. split_and!; [lia|lia|rw_word|by right|lia|lia].
Qed.

Lemma step_attempt_fail_inv m bs i b l mode m' b' :
  rw_inv (m, bs) -> bs !! i = Some (b, Spinning l mode) ->
  attempt_lock l mode (m, b) = Ret false (m', b') ->
  rw_inv (m', <[i := (b', Spinning l mode)]> bs).
Proof.
  intros Hinv Hi H. unfold attempt_lock in H.
  destruct (attempt _ mode) as [w ok] eqn:Ea. simplify_eq/=.
  pose proof (ri_ok _ Hinv i _ Hi) as Hok.
  apply (rw_inv_update m bs i b' (Spinning l mode) _ _ _ l); auto.
  - intros l1 Hl1. rewrite word_insert_ne by done. split_and!; congruence.
  - intros f Hf. pose proof (word_inv_fields _ _ _ _ _ _ Hinv Hi Hf) as Hfo.
    destruct Hf as (? & Hw & _ & ? & ?). rewrite Hw in Ea.
    pose proof (rw_inv_room _ l i _ Hinv Hi) as Hr. cbn [fst snd pending] in Hr.
    rewrite bool_decide_eq_true_2 in Hr by done.
    rewrite word_insert_eq, !Z.sub_add. destruct mode.
    + rewrite attempt_exclusive in Ea by done. exists 1.
      destruct (_ && _)%bool; simplify_eq. cbv zeta. split_and!; auto; lia.
    + rewrite attempt_shared in Ea by (done || lia). exists f.
      destruct (_ && _)%bool; simplify_eq. cbv zeta. split_and!; auto; lia || by right.
    + by destruct Hok as [_ Hok]; destruct (Hok l RW_DECLARE).
Qed.

Lemma step_attempt_ok_inv m bs i b l mode m1 b1 m' b' :
  rw_inv (m, bs) -> bs !! i = Some (b, Spinning l mode) ->
  attempt_lock l mode (m, b) = Ret true (m1, b1) ->
  push_handle (l, mode) (m1, b1) = Ret tt (m', b') ->
  rw_inv (m', <[i := (b', Idle)]> bs).
Proof.
  intros Hinv Hi H H2. unfold attempt_lock in H. rw_open H2.
  destruct (attempt _ mode) as [w ok] eqn:Ea. simplify_eq/=.
  pose proof (ri_ok _ Hinv i _ Hi) as [Hlen Hok]. simpl in Hlen. destruct b1 as [hs k].
  apply (rw_inv_update m bs i (Backend hs k) (Spinning l mode) _ _ _ l); auto.
  - split; simpl in *; [lia|done].
  - intros l1 Hl1. rewrite word_insert_ne, !holds_cons, refs_cons by done.
    pose proof (refs_pc l1 (Backend hs k) Idle (Spinning l mode)) as Hp. simpl in *.
    rewrite !bool_decide_eq_false_2 in * by congruence.
    split_and!; auto; congruence || lia.
  - intros f Hf. pose proof (word_inv_fields _ _ _ _ _ _ Hinv Hi Hf) as Hfo.
    destruct Hf as (? & Hw & _ & ? & ?). rewrite Hw in Ea.
    pose proof (rw_inv_room _ l i _ Hinv Hi) as Hr. cbn [fst snd pending] in Hr.
    pose proof (refs_pc l (Backend hs k) Idle (Spinning l mode)) as Hp. cbn [pending] in Hp.
    cbn [held holdoff]. rewrite word_insert_eq, !holds_cons, refs_cons. cbn [fst].
    rewrite !(bool_decide_eq_true_2 (l = l)) in * by done.
    rewrite !(holds_backend l _ hs k Idle k (Spinning l mode)).
    destruct mode.
    + rewrite attempt_exclusive in Ea by done. exists 0.
      destruct (_ && _)%bool eqn:Hb; simplify_eq. bool_to_prop.
      rewrite bool_decide_eq_false_2, bool_decide_eq_true_2 by congruence.
      cbv zeta. split_and!; [lia|lia|unfold encode; lia|lia|lia|lia].
    + rewrite attempt_shared in Ea by (done || lia). exists f.
      destruct (_ && _)%bool eqn:Hb; simplify_eq. bool_to_prop.
      rewrite bool_decide_eq_true_2, bool_decide_eq_false_2 by congruence.
      cbv zeta. split_and!; [lia|lia|unfold encode; lia|by right|lia|lia].
    + by destruct (Hok l RW_DECLARE).
Qed.

Lemma step_release_inv m bs i b l m' b' :
  rw_inv (m, bs) -> bs !! i = Some (b, Idle) -> newest_mode l b <> Some RW_DECLARE ->
  RWLockRelease_begin l (m, b) = Ret tt (m', b') ->
  rw_inv (m', <[i := (b', Releasing l)]> bs).
Proof.
  intros Hinv Hi Hnew H. rw_open H. unfold newest_mode in Hnew. simpl in H.
  destruct (take_newest _ (held b)) as [[[l' mode] hs]|] eqn:E; simplify_eq/=.
  apply release_handles in E as [El Hperm]. simpl in El, Hperm. subst l'.
  pose proof (ri_ok _ Hinv i _ Hi) as [Hlen _]. simpl in Hlen. rewrite Hperm in Hlen.
  set (b' := Backend hs (holdoff b)).
  apply (rw_inv_update m bs i b Idle _ _ _ l); auto.
  - split; simpl in *; [lia|done].
  - intros l1 Hl1. rewrite word_insert_ne by done.
    destruct (held_swap b _ hs (holdoff b) l1 RW_SHARED Idle (Releasing l) Hperm) as [-> ?].
    destruct (held_swap b _ hs (holdoff b) l1 RW_EXCLUSIVE Idle (Releasing l) Hperm) as [-> Er].
    simpl in Er. rewrite !bool_decide_eq_false_2 in * by congruence.
    simpl in *. fold b' in Er. split_and!; auto; lia || done.
  - intros f Hf. pose proof (word_inv_fields _ _ _ _ _ _ Hinv Hi Hf) as Hfo.
    destruct Hf as (? & Hw & _ & ? & ?). exists f.
    pose proof (rw_inv_room _ l i _ Hinv Hi) as Hr. simpl in Hr.
    destruct (held_swap b _ hs (holdoff b) l RW_SHARED Idle (Releasing l) Hperm) as [Es ?].
    destruct (held_swap b _ hs (holdoff b) l RW_EXCLUSIVE Idle (Releasing l) Hperm) as [Ee Er].
    rewrite word_insert_eq, Hw. simpl in Er. fold b' in Es, Ee, Er.
    rewrite bool_decide_eq_true_2 in Er by done. destruct mode; [| |done].
    + rewrite bool_decide_eq_false_2 in Es by congruence.
      rewrite bool_decide_eq_true_2 in Ee by congruence.
      cbv zeta. split_and!; [lia|lia|rw_word|by right|lia|lia].
    + rewrite bool_decide_eq_true_2 in Es by congruence.
      rewrite bool_decide_eq_false_2 in Ee by congruence.
      cbv zeta. split_and!; [lia|lia|rw_word|by right|lia|lia].
Qed.

Lemma step_release_end_inv m bs i b l m' b' :
  rw_inv (m, bs) -> bs !! i = Some (b, Releasing l) ->
  RWLockRelease_end l (m, b) = Ret tt (m', b') ->
  rw_inv (m', <[i := (b', Idle)]> bs).
Proof.
  intros Hinv Hi H. rw_open H. simplify_eq/=. destruct b as [hs k]. simpl.
  pose proof (ri_ok _ Hinv i _ Hi) as [Hlen _]. simpl in Hlen.
  apply (rw_inv_update m bs i (Backend hs k) (Releasing l) _ _ _ l); auto.
  - split; simpl in *; [lia|done].
  - intros l1 Hl1. rewrite word_insert_ne by done.
    unfold refs. simpl. by rewrite bool_decide_eq_false_2 by congruence.
  - intros f Hf. pose proof (word_inv_fields _ _ _ _ _ _ Hinv Hi Hf) as Hfo.
    destruct Hf as (? & Hw & _ & ? & ?). exists f.
    pose proof (rw_inv_room _ l i _ Hinv Hi) as Hr. cbn [fst snd pending] in Hr.
    rewrite word_insert_eq, Hw.
    rewrite !(holds_backend _ _ hs (k - 1) Idle k (Releasing l)).
    assert (refs l (Backend hs k, Releasing l) = S (refs l (Backend hs (k - 1), Idle))) as Er.
    { unfold refs. simpl. rewrite bool_decide_eq_true_2 by done. lia. }
    cbv zeta. split_and!; [lia|lia|rw_word|by right|lia|lia].
Qed.

Lemma step_interrupts_inv m bs i hs k k' :
  rw_inv (m, bs) -> bs !! i = Some (Backend hs k, Idle) ->
  rw_inv (m, <[i := (Backend hs k', Idle)]> bs).
Proof.
  intros Hinv Hi. pose proof (ri_ok _ Hinv i _ Hi) as Hok.
  apply (rw_inv_update m bs i (Backend hs k) Idle _ _ _ 0); auto.
  intros f (? & Hw & _ & ? & ?). exists f. cbv zeta.
  change (refs 0 (Backend hs k', Idle)) with (refs 0 (Backend hs k, Idle)).
  rewrite !(holds_backend _ _ hs k' Idle k Idle), !Z.sub_add. split_and!; auto; lia.
Qed.

Lemma step_inv c c' : step c c' -> rw_inv c -> rw_inv c'.
Proof.
  intros Hs Hinv. destruct Hs.
  - by eapply step_declare_inv.
  - by eapply step_undeclare_inv.
  - by eapply step_acquire_inv.
  - by eapply step_attempt_fail_inv.
  - by eapply step_attempt_ok_inv.
  - by eapply step_release_inv.
  - by eapply step_release_end_inv.
  - by eapply step_interrupts_inv.
Qed.

Lemma initial_total n f : f (Backend [] 0, Idle) = 0%nat -> total f (initial n).2 = 0.
Proof.
  intros H. unfold total, initial. simpl. rewrite sum_list_with_zero; [done|].
  intros x Hx. apply elem_of_replicate in Hx as [-> _]. done.
Qed.

Lemma initial_inv n : (n <= MAX_MODEL_BACKENDS)%nat -> rw_inv (initial n).
Proof.
  intros Hn. split.
  - unfold initial. simpl. by rewrite length_replicate.
  - intros i bp Hi. apply lookup_replicate in Hi as [-> _]. split; [simpl; lia|done].
  - intros l. exists 0. unfold word_inv. rewrite !initial_total by done.
    split_and!; auto; lia || done.
Qed.

Lemma reachable_inv n c : (n <= MAX_MODEL_BACKENDS)%nat -> reachable n c -> rw_inv c.
Proof.
  intros Hn. unfold reachable. apply (rtc_ind_r rw_inv).
  - by apply initial_inv.
  - intros y z _ Hyz Hy. by apply (step_inv y).
Qed.

(** ** Properties *)

(** C14: mutual exclusion.  Whatever the interleaving of at most 2047 backends,
    while one of them has a lock in exclusive mode, a handle that any backend
    acquired on that lock is that exclusive handle of that backend. *)
Theorem rwlock_mutual_exclusion n c l i bi j bj mode :
  (n <= MAX_MODEL_BACKENDS)%nat -> reachable n c ->
  c.2 !! i = Some bi -> (l, RW_EXCLUSIVE) ∈ held bi.1 ->
  c.2 !! j = Some bj -> (l, mode) ∈ held bj.1 -> mode <> RW_DECLARE ->
  i = j /\ mode = RW_EXCLUSIVE /\ holds l RW_EXCLUSIVE bi = 1%nat.
Proof.
  intros Hn Hr Hi Hli Hj Hlj Hmode. pose proof (reachable_inv n c Hn Hr) as Hinv.
  destruct (ri_word _ Hinv l) as (f & _ & _ & _ & Hx & Hxs).
  pose proof (sum_list_with_ge (holds l RW_EXCLUSIVE) _ _ _ Hi).
  assert (1 <= holds l RW_EXCLUSIVE bi)%nat by (by eapply count_if_pos; [|apply bool_decide_eq_true_2]).
  assert (1 <= holds l mode bj)%nat by (by eapply count_if_pos; [|apply bool_decide_eq_true_2]).
  unfold total in *. destruct mode; [| |done].
  - split_and!; [|done|lia]. destruct (decide (i = j)) as [|Hij]; [done|exfalso].
    pose proof (sum_list_with_insert (holds l RW_EXCLUSIVE) _ _ _ (Backend [] 0, Idle) Hi) as E.
    rewrite <- (list_lookup_insert_ne _ i j (Backend [] 0, Idle)) in Hj by done.
    pose proof (sum_list_with_ge (holds l RW_EXCLUSIVE) _ _ _ Hj).
    change (holds l RW_EXCLUSIVE (Backend [] 0, Idle)) with 0%nat in E. lia.
  - pose proof (sum_list_with_ge (holds l RW_SHARED) _ _ _ Hj). lia.
Qed.

(** The test before a lock's memory is reused is exact.
    RWLockCheckDestroyable answers true precisely when no backend has a handle
    on the lock, is waiting for it, or is in the middle of releasing it. *)
Theorem rwlock_destroyable_iff n c l :
  (n <= MAX_MODEL_BACKENDS)%nat -> reachable n c ->
  RWLockCheckDestroyable l c.1 = true <->
  forall i b p, c.2 !! i = Some (b, p) ->
    (forall mode, (l, mode) ∉ held b) /\ pending l p = 0%nat.
Proof.
  intros Hn Hr. pose proof (reachable_inv n c Hn Hr) as Hinv.
  assert (total (refs l) c.2 = 0 <-> RWLockCheckDestroyable l c.1 = true) as <-.
  { destruct (ri_word _ Hinv l) as (f & Hf). unfold RWLockCheckDestroyable.
    destruct c as [m [|bp bs]] eqn:Ec.
    - destruct Hf as (? & Hw & Hsp & _). simpl in *. rewrite Hw.
      assert (f <> 1) as Hf1 by (intros E; by destruct (Hsp E) as (? & ? & ?)).
      assert (f = 0) as -> by lia. done.
    - pose proof (word_inv_fields m _ l f 0 bp Hinv eq_refl Hf) as Hfo.
      destruct Hf as (_ & Hw & _). cbn [fst snd] in *.
      rewrite Hw, encode_ref_mask, Z.eqb_eq by done. lia. }
  unfold total. split.
  - intros H i b p Hi. pose proof (sum_list_with_ge (refs l) _ _ _ Hi) as Hle.
    unfold refs in Hle at 1. simpl in Hle. split; [|lia].
    intros mode Hm. apply (count_if_pos (fun h => bool_decide (h.1 = l))) in Hm; [lia|].
    by apply bool_decide_eq_true_2.
  - intros H. rewrite sum_list_with_zero; [done|]. intros [b p] Hx.
    apply list_elem_of_lookup in Hx as [i Hi]. destruct (H i b p Hi) as [Hh Hp].
    unfold refs. simpl. rewrite Hp, (proj2 (count_if_zero _ _)); [done|].
    intros [l' mode] Hx. apply bool_decide_eq_false_2. simpl. intros ->. by apply (Hh mode).
Qed.

(** No lost wake-up.  When nobody holds a lock and some backend spins for
    it, the next attempt of one of the spinning backends succeeds; the
    exclusive-waiter flag, which turns readers away, is only ever set while a
    writer is spinning. *)
Theorem rwlock_progress n c l i bp :
  (n <= MAX_MODEL_BACKENDS)%nat -> reachable n c ->
  (forall k b p mode, c.2 !! k = Some (b, p) -> mode <> RW_DECLARE -> (l, mode) ∉ held b) ->
  c.2 !! i = Some bp -> (exists mode, bp.2 = Spinning l mode) ->
  exists j b mode m', c.2 !! j = Some (b, Spinning l mode) /\
    attempt_lock l mode (c.1, b) = Ret true (m', b).
Proof.
  intros Hn Hr Hfree Hi [mode Hsp]. pose proof (reachable_inv n c Hn Hr) as Hinv.
  destruct c as [m bs]. simpl in *. destruct bp as [b p]. simpl in Hsp. subst p.
  assert (forall mo, mo <> RW_DECLARE -> total (holds l mo) bs = 0) as Hz.
  { intros mo Hmo. unfold total. rewrite sum_list_with_zero; [done|].
    intros [b0 p0] Hx. apply list_elem_of_lookup in Hx as [k Hk].
    apply count_if_zero. intros h Hh. apply bool_decide_eq_false_2. intros ->.
    by apply (Hfree k b0 p0 mo). }
  destruct (ri_word _ Hinv l) as (f & Hf). simpl in Hf.
  pose proof (word_inv_fields _ _ _ _ _ _ Hinv Hi Hf) as Hfo.
  destruct Hf as (Hf01 & Hw & Hspin & _).
  rewrite !Hz in Hw, Hfo by done.
  assert (forall j b0, bs !! j = Some (b0, Spinning l RW_EXCLUSIVE) ->
    exists m', attempt_lock l RW_EXCLUSIVE (m, b0) = Ret true (m', b0)) as Hex.
  { intros j b0 _. eexists. unfold attempt_lock. simpl fst. by rewrite Hw, attempt_exclusive by done. }
  destruct (decide (f = 1)) as [E|Hne].
  { destruct (Hspin E) as (j & b0 & Hj). destruct (Hex j b0 Hj) as [m' ?].
    by exists j, b0, RW_EXCLUSIVE, m'. }
  assert (f = 0) as -> by lia. exists i, b, mode.
  destruct mode.
  - destruct (Hex i b Hi) as [m' ?]. eauto.
  - eexists. split; [done|]. unfold attempt_lock. simpl fst.
    by rewrite Hw, attempt_shared by (done || lia).
  - by destruct (ri_ok _ Hinv i _ Hi) as [_ Hok]; destruct (Hok l RW_DECLARE).
Qed.

(** One round of RWLockReleaseAll gives back the newest handle. *)
Lemma release_round m l mode hs k :
  exists m', (match mode with RW_DECLARE => RWLockUndeclare l | _ => RWLockRelease l end)
      (m, Backend ((l, mode) :: hs) k) = Ret tt (m', Backend hs (k - 1)) /\
    forall bs i, bs !! i = Some (Backend ((l, mode) :: hs) k, Idle) ->
      rtc step (m, bs) (m', <[i := (Backend hs (k - 1), Idle)]> bs).
Proof.
  assert (forall md, md <> RW_DECLARE -> newest_mode l (Backend ((l, md) :: hs) k) <> Some RW_DECLARE) as Hnew.
  { intros md Hmd. unfold newest_mode. simpl. rewrite bool_decide_eq_true_2 by done. by intros [=]. }
  destruct mode.
  3: { eexists. unfold RWLockUndeclare, mbind, cmd_bind, get. simpl.
       rewrite bool_decide_eq_true_2 by done. split; [done|].
       intros bs i Hi. apply rtc_once. eapply step_undeclare with (l := l); [done|].
       unfold RWLockUndeclare, mbind, cmd_bind, get. simpl. by rewrite bool_decide_eq_true_2 by done. }
  all: eexists; unfold RWLockRelease, RWLockRelease_begin, mbind, cmd_bind, get; simpl;
       rewrite bool_decide_eq_true_2 by done; split; [done|];
       intros bs i Hi; eapply rtc_l;
       [ eapply step_release with (l := l); [done|by apply Hnew|];
         unfold RWLockRelease_begin, mbind, cmd_bind, get; simpl;
         by rewrite bool_decide_eq_true_2 by done
       | eapply rtc_l;
         [ eapply step_release_end with (i := i) (l := l);
           [apply list_lookup_insert_eq; by eapply lookup_lt_Some|done]
         | rewrite list_insert_insert_eq; apply rtc_refl ] ].
Qed.

(** Error recovery.  RWLockReleaseAll returns, leaves the backend without
    handles and InterruptHoldoffCount as asked, and acts on shared memory as
    ordinary release operations of that backend do, so every property of
    reachable configurations still holds afterwards. *)
Theorem RWLockReleaseAll_correct n m bs i (b : backend) (keep : bool) :
  reachable n (m, bs) -> bs !! i = Some (b, Idle) ->
  exists m', let b' := Backend [] (if keep then holdoff b else holdoff b - Z.of_nat (length (held b))) in
    RWLockReleaseAll keep (m, b) = Ret tt (m', b') /\
    reachable n (m', <[i := (b', Idle)]> bs).
Proof.
  intros Hr Hi. unfold RWLockReleaseAll, mbind, cmd_bind, get. simpl.
  destruct b as [hs k]. simpl. revert m bs k Hr Hi.
  induction hs as [|[l mode] hs IH]; intros m bs k Hr Hi; simpl.
  { exists m. rewrite Z.sub_0_r. destruct keep; split; try done; by rewrite list_insert_id. }
  set (k1 := if keep then k + 1 else k).
  destruct (release_round m l mode hs k1) as (m1 & Hrun & Hsteps).
  assert (reachable n (m1, <[i := (Backend hs (k1 - 1), Idle)]> bs)) as Hr1.
  { unfold reachable in *. etransitivity; [apply Hr|]. eapply rtc_l; [by apply (step_interrupts m bs i ((l, mode) :: hs) k k1)|].
    rewrite <- (list_insert_insert_eq bs i (Backend hs (k1 - 1), Idle)
                  (Backend ((l, mode) :: hs) k1, Idle)).
    apply Hsteps. apply list_lookup_insert_eq. by eapply lookup_lt_Some. }
  destruct (IH _ _ (k1 - 1) Hr1) as (m' & Hloop & Hr').
  { apply list_lookup_insert_eq. by eapply lookup_lt_Some. }
  rewrite list_insert_insert_eq in Hr'. exists m'.
  assert ((if keep then k1 - 1 else k1 - 1 - Z.of_nat (length hs)) =
          (if keep then k else k - Z.of_nat (S (length hs)))) as Ek.
  { unfold k1. destruct keep; lia. }
  rewrite Ek in Hloop, Hr'. split; [|done].
  rewrite (bind_Ret _ _ _ tt (m, Backend ((l, mode) :: hs) k1)) by (unfold k1; by destruct keep).
  by rewrite (bind_Ret _ _ _ _ _ Hrun).
Qed.

(** The compare-exchange loop stores what one pass of its body computes from
    the contents it replaced: it acts as [attempt_lock] at that moment. *)
Lemma RWLockAttemptLock_linearizes old_state env mode cur w ok :
  RWLockAttemptLock old_state env mode = Some (cur, w, ok) ->
  cur ∈ env /\ attempt cur mode = (w, ok).
Proof.
  revert old_state. induction env as [|x env IH]; intros old H; [done|]. simpl in H.
  destruct (attempt old mode) as [d lf] eqn:E. destruct (Z.eqb_spec x old); simplify_eq.
  - split; [by left|done].
  - destruct (IH _ H). split; [by right|done].
Qed.

(** The loop ends as soon as the word is left alone between two accesses. *)
Lemma RWLockAttemptLock_returns old_state env x mode :
  is_Some (RWLockAttemptLock old_state (env ++ [x; x]) mode).
Proof.
  revert old_state. induction env as [|y env IH]; intros old; simpl;
    destruct (attempt old mode); destruct (_ =? old); eauto.
  destruct (attempt x mode). by rewrite Z.eqb_refl.
Qed.

(** An acquisition of a lock nobody has returns at its first attempt. *)
Lemma RWLockAcquire_free fuel l mode m b :
  word m l = 0 -> mode <> RW_DECLARE -> (length (held b) < MAX_SIMUL_RWLOCKS)%nat ->
  exists m', RWLockAcquire (S fuel) l mode (m, b)
    = Ret tt (m', Backend ((l, mode) :: held b) (holdoff b + 1)).
Proof.
  intros Hw Hm Hl. assert (fields_ok 0 0 1 0) as Hfo by (split; lia).
  assert (exists w, attempt (encode 0 0 1 0) mode = (w, true)) as [w Ea].
  { destruct mode; [rewrite attempt_exclusive by done|rewrite attempt_shared by done|done]; eauto. }
  eexists. unfold RWLockAcquire, RWLockAcquire_begin, mbind, cmd_bind.
  rewrite !bool_decide_eq_true_2 by done. simpl. rewrite bool_decide_eq_true_2 by done. simpl.
  unfold attempt_lock, mbind, cmd_bind. simpl. rewrite word_insert_eq, Hw.
  change (u64 (0 + RW_VAL_REF_COUNT)) with (encode 0 0 1 0). by rewrite Ea.
Qed.

(** RWLockRelease looks at the newest handle whatever its mode: releasing a
    lock that is only declared takes one shared holder away from the word. *)
Lemma RWLockRelease_of_declared l m b k :
  b = Backend [(l, RW_DECLARE)] k ->
  exists m', RWLockRelease l (m, b) = Ret tt (m', Backend [] (k - 1)) /\
    word m' l = u64 (word m l - RW_VAL_SHARED - RW_VAL_REF_COUNT).
Proof.
  intros ->. eexists. unfold RWLockRelease, RWLockRelease_begin, mbind, cmd_bind, get. simpl.
  rewrite bool_decide_eq_true_2 by done. split; [done|].
  simpl. rewrite !word_insert_eq. by rewrite wrap_sub_l.
Qed.

(** ** Instances *)

(** Two backends; the first has lock 7 in exclusive mode. *)
Definition demo_held : config :=
  ({[7 := encode 0 1 1 0]}, [(Backend [(7, RW_EXCLUSIVE)] 1, Idle); (Backend [] 0, Idle)]).

(** Two backends; the second waits for lock 7, which nobody holds. *)
Definition demo_waiting : config :=
  ({[7 := encode 0 0 1 0]}, [(Backend [] 0, Idle); (Backend [] 1, Spinning 7 RW_SHARED)]).

Lemma demo_held_reachable : reachable 2 demo_held.
Proof.
  eapply rtc_l; [eapply (step_acquire _ _ 0 _ 7 RW_EXCLUSIVE); reflexivity|].
  eapply rtc_l; [eapply (step_attempt_ok _ _ 0 _ 7 RW_EXCLUSIVE); reflexivity|].
  by apply reflexive_eq.
Qed.

Lemma demo_waiting_reachable : reachable 2 demo_waiting.
Proof.
  eapply rtc_l; [eapply (step_acquire _ _ 1 _ 7 RW_SHARED); reflexivity|].
  by apply reflexive_eq.
Qed.

Lemma rwlock_mutual_exclusion_witness :
  0%nat = 0%nat /\ RW_EXCLUSIVE = RW_EXCLUSIVE /\
  holds 7 RW_EXCLUSIVE (Backend [(7, RW_EXCLUSIVE)] 1, Idle) = 1%nat.
Proof.
  apply (rwlock_mutual_exclusion 2 demo_held 7 0 _ 0 (Backend [(7, RW_EXCLUSIVE)] 1, Idle));
    [vm_compute; lia|apply demo_held_reachable|reflexivity|left|reflexivity|left|done].
Defined.

Lemma rwlock_destroyable_iff_witness :
  RWLockCheckDestroyable 7 demo_held.1 = true <->
  forall i b p, demo_held.2 !! i = Some (b, p) ->
    (forall mode, (7, mode) ∉ held b) /\ pending 7 p = 0%nat.
Proof.
  apply (rwlock_destroyable_iff 2 demo_held 7); [vm_compute; lia|apply demo_held_reachable].
Defined.

Lemma rwlock_progress_witness :
  exists j b mode m', demo_waiting.2 !! j = Some (b, Spinning 7 mode) /\
    attempt_lock 7 mode (demo_waiting.1, b) = Ret true (m', b).
Proof.
  apply (rwlock_progress 2 demo_waiting 7 1 (Backend [] 1, Spinning 7 RW_SHARED));
    [vm_compute; lia|apply demo_waiting_reachable| |reflexivity|by exists RW_SHARED].
  intros [|[|k]] b p mode Hk Hm; simplify_eq/=; by apply not_elem_of_nil.
Defined.

Lemma RWLockReleaseAll_correct_witness :
  exists m', let b' := Backend [] 1 in
    RWLockReleaseAll true (demo_held.1, Backend [(7, RW_EXCLUSIVE)] 1) = Ret tt (m', b') /\
    reachable 2 (m', <[0%nat := (b', Idle)]> demo_held.2).
Proof.
  apply (RWLockReleaseAll_correct 2 demo_held.1 demo_held.2 0 (Backend [(7, RW_EXCLUSIVE)] 1) true);
    [apply demo_held_reachable|reflexivity].
Defined.
