(* ===== verification/ShmemAllocator.v ===== *)
(** * The shared-memory allocator (falcon/utils/falcon_shmem_allocator.c)

    Shared memory is cut into pages of 1 MiB; a 64-bit word per page records
    which of its 64 blocks of 16 KiB are in use.  A request is rounded up to a
    power of two between 16 KiB and 1 MiB, which fixes its level (0 for a whole
    page, 6 for one block), and takes the first aligned free run of blocks. *)

From S2P Require Import FalconPrelude.

Definition FREE_LIST_COUNT : Z := 7.
Definition STATE_BIT_COUNT : Z := 64.
Definition MAX_SUPPORT_ALLOC_SIZE : Z := 1024 * 1024.
Definition MIN_SUPPORT_ALLOC_SIZE : Z := MAX_SUPPORT_ALLOC_SIZE / STATE_BIT_COUNT.
Definition PAGE_SIZE : Z := MAX_SUPPORT_ALLOC_SIZE.
Definition MIN_BLOCK_SIZE : Z := MIN_SUPPORT_ALLOC_SIZE.
(** sizeof(PaddedAtomic64) and sizeof(MemoryHdr). *)
Definition SIZEOF_PaddedAtomic64 : Z := 128.
Definition SIZEOF_MemoryHdr : Z := 24.

Record MemoryHdr : Type := mkMemoryHdr { signature : Z; hdr_size : Z; capacity : Z }.

(** The pointers of FalconShmemAllocator are offsets from shmem. *)
Record layout : Type := mkLayout {
  l_pageCount : Z;
  l_signatureCounter : Z;
  l_freeListHint : Z;
  l_pageCntlArray : Z;
  l_allocatableSpaceBase : Z;
}.

(** The words and headers the allocator keeps in shared memory; a header is
    found at the offset of its block from allocatableSpaceBase. *)
Record allocator : Type := mkAllocator {
  pageCount : Z;
  signatureCounter : Z;
  freeListHint : list Z;
  pageCntlArray : list Z;
  headers : gmap Z MemoryHdr;
}.

(** ** Compiler builtins *)

Fixpoint ctz_pos (p : positive) : Z :=
  match p with
  | xO q => 1 + ctz_pos q
  | _ => 0
  end.

(** __builtin_ctzll, for a non-zero argument. *)
Definition builtin_ctzll (x : Z) : Z := match x with Zpos p => ctz_pos p | _ => 0 end.

(** __builtin_clzll, for a non-zero argument. *)
Definition builtin_clzll (x : Z) : Z := 63 - Z.log2 x.

(** ** Operations *)

(** All the arithmetic is on 64 bits; the quotient is stored in a uint32_t.
    [None] is the return value -1. *)
Definition FalconShmemAllocatorInit (size : Z) : option layout :=
  let pageCount := u32 (u64 (size - SIZEOF_PaddedAtomic64 * (1 + FREE_LIST_COUNT))
                        / (SIZEOF_PaddedAtomic64 + PAGE_SIZE)) in
  if pageCount =? 0 then None
  else
    let signatureCounter := 0 in
    let freeListHint := signatureCounter + SIZEOF_PaddedAtomic64 in
    let pageCntlArray := freeListHint + SIZEOF_PaddedAtomic64 * FREE_LIST_COUNT in
    Some (mkLayout pageCount signatureCounter freeListHint pageCntlArray
            (pageCntlArray + SIZEOF_PaddedAtomic64 * pageCount)).

Definition FalconShmemAllocatorGetUniqueSignature (a : allocator) : Z * allocator :=
  (s64 (s64 (signatureCounter a) + 1),
   mkAllocator (pageCount a) (u64 (signatureCounter a + 1)) (freeListHint a)
     (pageCntlArray a) (headers a)).

Definition GetNextPowerOfTwo (num : Z) : Z :=
  if (num =? 0) || negb (Z.land num (Z.shiftl 1 63) =? 0) then 0
  else if num =? 1 then 1
  else u64 (Z.shiftl 1 (64 - builtin_clzll (num - 1))).

Definition LevelBlockMask_table : list Z :=
  [0x0000000000000001; 0x0000000100000001; 0x0001000100010001; 0x0101010101010101;
   0x1111111111111111; 0x5555555555555555; 0xFFFFFFFFFFFFFFFF].
Definition LevelBlockMask (level : Z) : Z := nth (Z.to_nat level) LevelBlockMask_table 0.

Definition LevelBlockOccupyBitMap_table : list Z :=
  [0xFFFFFFFFFFFFFFFF; 0x00000000FFFFFFFF; 0x000000000000FFFF; 0x00000000000000FF;
   0x000000000000000F; 0x0000000000000003; 0x0000000000000001].
Definition LevelBlockOccupyBitMap (level : Z) : Z :=
  nth (Z.to_nat level) LevelBlockOccupyBitMap_table 0.

(** The loop over j that turns a page's bitmap into the bitmap of a level; it
    runs [n] more times, with the loop variable at [j]. *)
Fixpoint fold_levels (n : nat) (j shift bitmap : Z) : Z :=
  match n with
  | O => bitmap
  | S n' =>
      fold_levels n' (j - 1) (u32 (Z.shiftl shift 1))
        (Z.land (Z.lor (Z.shiftr bitmap shift) bitmap) (LevelBlockMask (j - 1)))
  end.

Definition level_bitmap (level bitmap : Z) : Z :=
  fold_levels (Z.to_nat (FREE_LIST_COUNT - 1 - level)) (FREE_LIST_COUNT - 1) 1 bitmap.

(** One pass of the loop over a page's word: the word to store, the offset of
    the block and the flag pageIsFull, or [None] when the page has no room.
    The offset is computed with a uint32_t page number. *)
Definition page_try (level requiredSize pageNo bitmap : Z) : option (Z * Z * bool) :=
  if level =? 0 then
    if negb (bitmap =? 0) then None
    else Some (lnot64 0, u32 (PAGE_SIZE * pageNo), false)
  else
    let folded := level_bitmap level bitmap in
    if folded =? LevelBlockMask level then None
    else
      let firstEmptyBlockInLevel := builtin_ctzll (Z.land (lnot64 folded) (LevelBlockMask level)) in
      let allocatedShift := u32 (PAGE_SIZE * pageNo + MIN_BLOCK_SIZE * firstEmptyBlockInLevel) in
      Some (Z.lor bitmap (u64 (Z.shiftl (LevelBlockOccupyBitMap level) firstEmptyBlockInLevel)),
            allocatedShift, allocatedShift + requiredSize =? PAGE_SIZE).

(** The loop over the pages, [n] of them from [pageNo] on. *)
Fixpoint scan_pages (n : nat) (level requiredSize pageNo : Z) (pages : list Z)
    : option (Z * (Z * Z * bool)) :=
  match n with
  | O => None
  | S n' =>
      match page_try level requiredSize pageNo (default 0 (pages !! Z.to_nat pageNo)) with
      | Some r => Some (pageNo, r)
      | None => scan_pages n' level requiredSize (pageNo + 1) pages
      end
  end.

Definition required_size (size : Z) : Z :=
  let requiredSize := u64 (size + SIZEOF_MemoryHdr) in
  if requiredSize <? MIN_SUPPORT_ALLOC_SIZE then MIN_SUPPORT_ALLOC_SIZE
  else GetNextPowerOfTwo requiredSize.

Definition level_of (requiredSize : Z) : Z := builtin_ctzll PAGE_SIZE - builtin_ctzll requiredSize.

(** Taking the block found: the page's word, the hint and the header. *)
Definition take_block (a : allocator) (size requiredSize pageNo desired allocatedShift : Z)
    (hints : list Z) : allocator :=
  mkAllocator (pageCount a) (signatureCounter a) hints
    (<[Z.to_nat pageNo := desired]> (pageCntlArray a))
    (<[allocatedShift := mkMemoryHdr 0 size requiredSize]> (headers a)).

Definition FalconShmemAllocatorMalloc (a : allocator) (size : Z) : Z * allocator :=
  if MAX_SUPPORT_ALLOC_SIZE - SIZEOF_MemoryHdr <? size then (0, a)
  else
    let requiredSize := required_size size in
    let level := level_of requiredSize in
    let lv := Z.to_nat level in
    let start := default 0 (freeListHint a !! lv) in
    let scan from := scan_pages (Z.to_nat (pageCount a - from)) level requiredSize from (pageCntlArray a) in
    match scan (u32 start) with
    | Some (pageNo, (desired, shift, pageIsFull)) =>
        let hints := if pageIsFull || negb (pageNo =? start)
                     then <[lv := if (pageIsFull : bool) then u32 (pageNo + 1) else pageNo]> (freeListHint a)
                     else freeListHint a in
        (u64 (shift + SIZEOF_MemoryHdr), take_block a size requiredSize pageNo desired shift hints)
    | None =>
        match scan 0 with
        | Some (pageNo, (desired, shift, pageIsFull)) =>
            let hints := if (pageIsFull : bool) then freeListHint a
                         else if start <=? pageNo then freeListHint a
                         else <[lv := pageNo]> (freeListHint a) in
            (u64 (shift + SIZEOF_MemoryHdr), take_block a size requiredSize pageNo desired shift hints)
        | None => (0, a)
        end
    end.

Definition FalconShmemAllocatorFree (a : allocator) (shift0 : Z) : allocator :=
  let shift := u64 (shift0 - SIZEOF_MemoryHdr) in
  let cap := capacity (default (mkMemoryHdr 0 0 0) (headers a !! shift)) in
  if (cap <? MIN_SUPPORT_ALLOC_SIZE) || (MAX_SUPPORT_ALLOC_SIZE <? cap) then a
  else
    let level := builtin_ctzll MAX_SUPPORT_ALLOC_SIZE - builtin_ctzll cap in
    if negb (cap =? Z.shiftr MAX_SUPPORT_ALLOC_SIZE level) then a
    else
      let pageNo := shift / PAGE_SIZE in
      let blockNo := u32 (shift / MIN_BLOCK_SIZE - pageNo * STATE_BIT_COUNT) in
      let occupyBitmap := u64 (Z.shiftl (LevelBlockOccupyBitMap level) blockNo) in
      let word := default 0 (pageCntlArray a !! Z.to_nat pageNo) in
      let freeHint := default 0 (freeListHint a !! Z.to_nat level) in
      mkAllocator (pageCount a) (signatureCounter a)
        (if freeHint <=? pageNo then freeListHint a
         else <[Z.to_nat level := pageNo]> (freeListHint a))
        (<[Z.to_nat pageNo := Z.land word (lnot64 occupyBitmap)]> (pageCntlArray a))
        (headers a).

(** ** Builtins and tables *)

Lemma ctz_pos_spec p :
  0 <= ctz_pos p /\ Z.testbit (Zpos p) (ctz_pos p) = true /\
  forall i, 0 <= i < ctz_pos p -> Z.testbit (Zpos p) i = false.
Proof.
  induction p as [p IH|p IH|]; simpl ctz_pos; [split_and!; [lia|done|lia]| |split_and!; [lia|done|lia]].
  destruct IH as (H0 & H1 & H2). split_and!; [lia| |].
  - replace (1 + ctz_pos p) with (Z.succ (ctz_pos p)) by lia.
    by rewrite (Pos2Z.inj_xO p), Z.testbit_even_succ by lia.
  - intros i Hi. destruct (decide (i = 0)) as [->|Hne]; [done|].
    replace i with (Z.succ (i - 1)) by lia.
    rewrite (Pos2Z.inj_xO p), Z.testbit_even_succ by lia. apply H2. lia.
Qed.

Lemma builtin_ctzll_spec x :
  0 < x -> 0 <= builtin_ctzll x /\ Z.testbit x (builtin_ctzll x) = true /\
    forall i, 0 <= i < builtin_ctzll x -> Z.testbit x i = false.
Proof. intros H. destruct x as [|p|p]; [lia|apply ctz_pos_spec|lia]. Qed.

Lemma builtin_ctzll_pow2 k : 0 <= k -> builtin_ctzll (2 ^ k) = k.
Proof.
  intros Hk. destruct (builtin_ctzll_spec (2 ^ k)) as (H0 & H1 & H2); [lia|].
  rewrite pow2_testbit in H1 by lia. lia.
Qed.

(** GetNextPowerOfTwo is the least power of two that is not smaller. *)
Lemma GetNextPowerOfTwo_spec num :
  0 < num < 2 ^ 63 -> GetNextPowerOfTwo num = 2 ^ Z.log2_up num.
Proof.
  intros Hn. unfold GetNextPowerOfTwo, builtin_clzll.
  change (Z.shiftl 1 63) with (2 ^ 63).
  rewrite land_pow2_clear by (lia || (apply (in_range_testbit_high 63); [unfold in_range; lia|lia])).
  destruct (Z.eqb_spec num 0); [lia|]. simpl.
  destruct (Z.eqb_spec num 1) as [->|]; [done|].
  unfold Z.log2_up. destruct (Z.compare_spec 1 num); [lia| |lia].
  replace (64 - (63 - Z.log2 (num - 1))) with (Z.succ (Z.log2 (num - 1))) by lia.
  replace (Z.pred num) with (num - 1) by lia.
  pose proof (Z.log2_nonneg (num - 1)).
  assert (Z.log2 (num - 1) < 63) by (apply Z.log2_lt_pow2; lia).
  rewrite Z.shiftl_1_l. apply wrap_small. split; [lia|].
  apply Z.pow_lt_mono_r; lia.
Qed.

(** The number of blocks of a level. *)
Definition span (level : Z) : Z := 2 ^ (6 - level).

Definition level_ok (level : Z) : Prop := 0 <= level <= 6.

(** [for_levels] proves a decidable statement about a level by evaluation. *)
Lemma for_levels (P : Z -> bool) :
  forallb P [0; 1; 2; 3; 4; 5; 6] = true -> forall level, level_ok level -> P level = true.
Proof.
  intros H level Hl. rewrite forallb_forall in H. apply H.
  unfold level_ok in Hl. simpl. lia.
Qed.

Lemma for_bits (P : Z -> bool) :
  forallb (fun k => P (Z.of_nat k)) (seq 0 64) = true -> forall i, 0 <= i < 64 -> P i = true.
Proof.
  intros H i Hi. rewrite forallb_forall in H. rewrite <- (Z2Nat.id i) by lia. apply H.
  apply in_seq. lia.
Qed.

Lemma LevelBlockMask_bits level i :
  level_ok level -> 0 <= i < 64 ->
  Z.testbit (LevelBlockMask level) i = (i `mod` span level =? 0).
Proof.
  intros Hl Hi. apply eqb_prop.
  apply (for_levels (fun level => forallb (fun k => eqb (Z.testbit (LevelBlockMask level) (Z.of_nat k))
    (Z.of_nat k `mod` span level =? 0)) (seq 0 64))) in Hl; [|by vm_compute].
  by apply (for_bits (fun i => eqb (Z.testbit (LevelBlockMask level) i) (i `mod` span level =? 0))).
Qed.

Lemma LevelBlockMask_range level : level_ok level -> in_range 64 (LevelBlockMask level).
Proof.
  intros Hl. apply (for_levels (fun l => (0 <=? LevelBlockMask l) && (LevelBlockMask l <? 2 ^ 64))) in Hl;
    [|by vm_compute]. bool_to_prop. by split.
Qed.

Lemma LevelBlockOccupyBitMap_ones level :
  level_ok level -> LevelBlockOccupyBitMap level = Z.ones (span level).
Proof.
  intros Hl. apply (for_levels (fun l => LevelBlockOccupyBitMap l =? Z.ones (span l))) in Hl;
    [|by vm_compute]. by bool_to_prop.
Qed.

Lemma span_bounds level : level_ok level -> 1 <= span level <= 64 /\ 64 `mod` span level = 0.
Proof.
  intros Hl. apply (for_levels (fun l => (1 <=? span l) && (span l <=? 64) && (64 `mod` span l =? 0))) in Hl;
    [|by vm_compute]. bool_to_prop. lia.
Qed.

(** An aligned run of blocks stays inside its page. *)
Lemma aligned_fits level b :
  level_ok level -> 0 <= b < 64 -> b `mod` span level = 0 -> b + span level <= 64.
Proof.
  intros Hl Hb Hm. destruct (span_bounds level Hl) as [Hs H64].
  apply Z.div_exact in Hm, H64; [|lia|lia].
  set (q := b / span level) in *. set (r := 64 / span level) in *. assert (q < r) by nia. nia.
Qed.

(** The bits a block occupies. *)
Lemma occupy_testbit level b i :
  level_ok level -> 0 <= b -> 0 <= i ->
  Z.testbit (u64 (Z.shiftl (LevelBlockOccupyBitMap level) b)) i
    = ((i <? 64) && (b <=? i) && (i <? b + span level))%bool.
Proof.
  intros Hl Hb Hi. destruct (span_bounds level Hl) as [Hs _].
  rewrite LevelBlockOccupyBitMap_ones, wrap_testbit, Z.shiftl_spec by (done || lia).
  destruct (Z.ltb_spec i 64); [|done]. simpl. destruct (Z.leb_spec b i); simpl.
  - destruct (Z.ltb_spec i (b + span level)).
    + by rewrite Z.ones_spec_low by lia.
    + by rewrite Z.ones_spec_high by lia.
  - by rewrite Z.testbit_neg_r by lia.
Qed.

(** ** The bitmap of a level *)

Definition busy (w i n : Z) : Prop := exists k, i <= k < i + n /\ Z.testbit w k = true.

(** [bm] has a bit at each aligned run of the level that is partly in use. *)
Definition level_spec (w level bm : Z) : Prop :=
  in_range 64 bm /\
  forall i, 0 <= i < 64 ->
    Z.testbit bm i = true <-> i `mod` span level = 0 /\ busy w i (span level).

Lemma busy_split w i n m :
  0 <= n -> 0 <= m -> busy w i (n + m) <-> busy w i n \/ busy w (i + n) m.
Proof.
  intros Hn Hm. split.
  - intros (k & Hk & Hb). destruct (Z.lt_ge_cases k (i + n)); [left|right]; exists k; split; auto; lia.
  - intros [(k & Hk & Hb)|(k & Hk & Hb)]; exists k; split; auto; lia.
Qed.

Lemma span_pred level : level <= 6 -> span (level - 1) = span level + span level.
Proof.
  intros H. unfold span. replace (6 - (level - 1)) with (Z.succ (6 - level)) by lia.
  rewrite Z.pow_succ_r by lia. lia.
Qed.

Lemma level_spec_step w level bm :
  1 <= level <= 6 -> level_spec w level bm ->
  level_spec w (level - 1)
    (Z.land (Z.lor (Z.shiftr bm (span level)) bm) (LevelBlockMask (level - 1))).
Proof.
  intros Hl [Hr Hbm]. assert (level_ok level /\ level_ok (level - 1)) as [Ho Ho'] by (unfold level_ok; lia).
  destruct (span_bounds level Ho) as [Hs _]. pose proof (span_pred level) as Hp.
  split. { auto 6 with falcon lia. }
  intros i Hi. rewrite Z.land_spec, Z.lor_spec, Z.shiftr_spec, LevelBlockMask_bits by (done || lia).
  rewrite andb_true_iff, orb_true_iff, Z.eqb_eq.
  rewrite Hp, busy_split by lia. split.
  - intros [Hb Hm]. split; [done|].
    assert (i + (span level + span level) <= 64).
    { rewrite <- Hp by lia. apply aligned_fits; [done|done|]. by rewrite Hp by lia. }
    destruct Hb as [Hb|Hb]; (apply Hbm in Hb as [_ Hb]; [|lia]); [by right|by left].
  - intros [Hm Hb]. split; [|done].
    assert (i + (span level + span level) <= 64).
    { rewrite <- Hp by lia. apply aligned_fits; [done|done|]. by rewrite Hp by lia. }
    assert (i `mod` span level = 0) as Hi0.
    { apply Z.mod_divide in Hm; [|lia]. apply Z.mod_divide; [lia|].
      destruct Hm as [q Hq]. exists (2 * q). lia. }
    destruct Hb as [Hb|Hb].
    + right. apply Hbm; [lia|done].
    + left. apply Hbm; [lia|]. split; [|done].
      rewrite Z.add_mod, Hi0, Z.mod_same by lia. done.
Qed.

Lemma fold_levels_spec w n j bm :
  1 <= j - Z.of_nat n + 1 -> j <= 6 -> level_spec w j bm ->
  level_spec w (j - Z.of_nat n) (fold_levels n j (span j) bm).
Proof.
  revert j bm. induction n as [|n IH]; intros j bm Hn Hj Hbm; simpl.
  { by rewrite Z.sub_0_r. }
  replace (j - Z.of_nat (S n)) with (j - 1 - Z.of_nat n) by lia.
  replace (u32 (Z.shiftl (span j) 1)) with (span (j - 1)).
  - apply IH; [lia|lia|]. apply level_spec_step; [lia|done].
  - assert (level_ok j) as Ho by (unfold level_ok; lia). destruct (span_bounds j Ho) as [Hs _].
    rewrite span_pred, Z.shiftl_mul_pow2, wrap_small by (unfold in_range; lia). lia.
Qed.

Lemma level_bitmap_spec w level :
  in_range 64 w -> level_ok level -> level_spec w level (level_bitmap level w).
Proof.
  intros Hr Hl. unfold level_ok in Hl. unfold level_bitmap, FREE_LIST_COUNT.
  replace level with (6 - Z.of_nat (Z.to_nat (7 - 1 - level))) at 1 by lia.
  change 1 with (span 6) at 3. apply (fold_levels_spec w _ 6); [lia|lia|].
  split; [done|]. intros i Hi. change (span 6) with 1. rewrite Z.mod_1_r. split.
  - intros Hb. split; [done|]. exists i. split; [lia|done].
  - intros [_ (k & Hk & Hb)]. by replace i with k by lia.
Qed.

(** ** One page *)

Definition run_free (w level b : Z) : Prop :=
  0 <= b < 64 /\ b `mod` span level = 0 /\ ~ busy w b (span level).

(** The page word after the blocks of a run are marked. *)
Definition marks (w level b w' : Z) : Prop :=
  in_range 64 w' /\
  forall i, 0 <= i < 64 ->
    Z.testbit w' i = (Z.testbit w i || ((b <=? i) && (i <? b + span level)))%bool.

Lemma page_try_Some level req p w desired shift full :
  level_ok level -> in_range 64 w -> page_try level req p w = Some (desired, shift, full) ->
  exists b, run_free w level b /\ marks w level b desired /\
    shift = u32 (PAGE_SIZE * p + MIN_BLOCK_SIZE * b).
Proof.
  intros Hl Hr H. unfold page_try in H. destruct (Z.eqb_spec level 0) as [->|Hne].
  - destruct (Z.eqb_spec w 0) as [->|]; simplify_eq/=. exists 0. split_and!.
    + split_and!; [lia|lia|done|]. intros (k & _ & Hk). by rewrite Z.testbit_0_l in Hk.
    + split; [done|]. intros i Hi. rewrite lnot64_testbit, Z.testbit_0_l by lia.
      change (span 0) with 64. replace (0 <=? i) with true by lia.
      by replace (i <? 0 + 64) with (i <? 64) by lia.
    + f_equal. lia.
  - set (bm := level_bitmap level w) in *.
    destruct (level_bitmap_spec w level Hr Hl) as [Hbr Hbm]. fold bm in Hbr, Hbm.
    destruct (Z.eqb_spec bm (LevelBlockMask level)) as [|Hnf]; simplify_eq/=.
    set (x := Z.land (lnot64 bm) (LevelBlockMask level)) in *.
    assert (in_range 64 x) as Hxr.
    { unfold x. rewrite Z.land_comm. apply land_in_range_l; [lia|by apply LevelBlockMask_range]. }
    assert (0 < x) as Hx.
    { assert (x <> 0); [|unfold in_range in Hxr; lia]. intros E. apply Hnf.
      apply (bits_inj_range 64); [lia|done|by apply LevelBlockMask_range|]. intros i Hi.
      assert (Z.testbit x i = false) as Ex by (rewrite E; apply Z.testbit_0_l).
      unfold x in Ex. rewrite Z.land_spec, lnot64_testbit in Ex by lia.
      replace (i <? 64) with true in Ex by lia.
      destruct (Z.testbit (LevelBlockMask level) i) eqn:Em.
      - by destruct (Z.testbit bm i).
      - destruct (Z.testbit bm i) eqn:Eb; [|done]. apply Hbm in Eb as [Eb _]; [|lia].
        rewrite LevelBlockMask_bits in Em by done. lia. }
    destruct (builtin_ctzll_spec x Hx) as (Hb0 & Hb1 & _). set (b := builtin_ctzll x) in *.
    assert (b < 64) as Hb64.
    { destruct (Z.lt_ge_cases b 64); [done|]. by rewrite (in_range_testbit_high 64) in Hb1 by done. }
    unfold x in Hb1. rewrite Z.land_spec, lnot64_testbit, LevelBlockMask_bits in Hb1 by (done || lia).
    replace (b <? 64) with true in Hb1 by lia. bool_to_prop. exists b. split_and!; [|split|done].
    + split_and!; [lia|lia|done|]. intros Hbusy.
      assert (Z.testbit bm b = true) as Eb by (apply Hbm; [lia|done]). by rewrite Eb in *.
    + apply lor_in_range; [lia|done|]. apply wrap_in_range. lia.
    + intros i Hi. rewrite Z.lor_spec, occupy_testbit by (done || lia).
      by replace (i <? 64) with true by lia.
Qed.

Lemma page_try_None level req p w :
  level_ok level -> in_range 64 w -> page_try level req p w = None ->
  forall b, ~ run_free w level b.
Proof.
  intros Hl Hr H b (Hb & Hm & Hnb). unfold page_try in H.
  destruct (Z.eqb_spec level 0) as [->|Hne].
  - destruct (Z.eqb_spec w 0) as [->|Hw]; simplify_eq/=. apply Hnb.
    change (span 0) with 64 in *. assert (b = 0) as ->.
    { rewrite Z.mod_small in Hm by lia. done. }
    exists (builtin_ctzll w). destruct (builtin_ctzll_spec w) as (? & Hbit & _).
    { unfold in_range in Hr. lia. }
    split; [|done]. destruct (Z.lt_ge_cases (builtin_ctzll w) 64); [lia|].
    by rewrite (in_range_testbit_high 64) in Hbit by done.
  - destruct (level_bitmap_spec w level Hr Hl) as [Hbr Hbm].
    destruct (Z.eqb_spec (level_bitmap level w) (LevelBlockMask level)) as [E|]; simplify_eq/=.
    apply Hnb. apply Hbm; [lia|]. rewrite E, LevelBlockMask_bits by done. lia.
Qed.

Lemma required_size_spec size :
  0 <= size <= MAX_SUPPORT_ALLOC_SIZE - SIZEOF_MemoryHdr ->
  let req := required_size size in
  level_ok (level_of req) /\ req = MIN_BLOCK_SIZE * span (level_of req) /\
  size + SIZEOF_MemoryHdr <= req.
Proof.
  intros Hs req. unfold MAX_SUPPORT_ALLOC_SIZE, SIZEOF_MemoryHdr in *.
  assert (forall k, 14 <= k <= 20 -> level_ok (level_of (2 ^ k)) /\
    2 ^ k = MIN_BLOCK_SIZE * span (level_of (2 ^ k))) as Hk.
  { intros k Hk. unfold level_of, level_ok, span. rewrite builtin_ctzll_pow2 by lia.
    change (builtin_ctzll PAGE_SIZE) with 20. change MIN_BLOCK_SIZE with (2 ^ 14).
    rewrite <- Z.pow_add_r by lia. split; [lia|f_equal; lia]. }
  unfold req, required_size. rewrite wrap_small by (unfold in_range, SIZEOF_MemoryHdr; lia).
  unfold SIZEOF_MemoryHdr. change MIN_SUPPORT_ALLOC_SIZE with (2 ^ 14).
  destruct (Z.ltb_spec (size + 24) (2 ^ 14)).
  - destruct (Hk 14) as [? ?]; [lia|]. split_and!; auto; lia.
  - rewrite GetNextPowerOfTwo_spec by lia.
    destruct (Hk (Z.log2_up (size + 24))) as [? ?].
    { split; [|by apply Z.log2_up_le_pow2; lia].
      apply Z.log2_up_le_mono in H. by rewrite Z.log2_up_pow2 in H by lia. }
    split_and!; auto. apply Z.log2_up_spec; lia.
Qed.

Lemma scan_pages_Some n level req p pages q r :
  scan_pages n level req p pages = Some (q, r) ->
  p <= q < p + Z.of_nat n /\
  page_try level req q (default 0 (pages !! Z.to_nat q)) = Some r.
Proof.
  revert p. induction n as [|n IH]; intros p H; simplify_eq/=.
  destruct (page_try level req p _) eqn:E; simplify_eq.
  - split; [lia|done].
  - destruct (IH _ H). split; [lia|done].
Qed.

Lemma scan_pages_None n level req p pages q :
  scan_pages n level req p pages = None -> p <= q < p + Z.of_nat n ->
  page_try level req q (default 0 (pages !! Z.to_nat q)) = None.
Proof.
  revert p. induction n as [|n IH]; intros p H Hq; simplify_eq/=; [lia|].
  destruct (page_try level req p _) eqn:E; simplify_eq.
  destruct (decide (q = p)) as [->|]; [done|]. apply (IH (p + 1)); [done|lia].
Qed.

(** ** Blocks in use

    A block is a page, a level and the index of its first 16 KiB unit. *)
Definition block : Type := Z * Z * Z.
Definition bk_page (k : block) : Z := k.1.1.
Definition bk_level (k : block) : Z := k.1.2.
Definition bk_first (k : block) : Z := k.2.
Definition bk_shift (k : block) : Z := PAGE_SIZE * bk_page k + MIN_BLOCK_SIZE * bk_first k.
Definition bk_bytes (k : block) : Z := MIN_BLOCK_SIZE * span (bk_level k).

Definition covers (k : block) (p i : Z) : Prop :=
  bk_page k = p /\ bk_first k <= i < bk_first k + span (bk_level k).

Record block_ok (a : allocator) (k : block) : Prop := {
  bo_page : 0 <= bk_page k < pageCount a;
  bo_level : level_ok (bk_level k);
  bo_first : 0 <= bk_first k < 64;
  bo_aligned : bk_first k `mod` span (bk_level k) = 0;
  bo_header : exists h, headers a !! bk_shift k = Some h /\ capacity h = bk_bytes k;
}.

(** The pages' words are exactly the blocks in use, which do not overlap. *)
Record alloc_inv (a : allocator) (live : gset block) : Prop := {
  ai_count : pageCount a = Z.of_nat (length (pageCntlArray a)) /\ pageCount a <= 4096;
  ai_range : forall p w, pageCntlArray a !! p = Some w -> in_range 64 w;
  ai_words : forall p w i, pageCntlArray a !! Z.to_nat p = Some w -> 0 <= p -> 0 <= i < 64 ->
    Z.testbit w i = true <-> exists k, k ∈ live /\ covers k p i;
  ai_blocks : forall k, k ∈ live -> block_ok a k;
  ai_disjoint : forall k k' p i, k ∈ live -> k' ∈ live -> covers k p i -> covers k' p i -> k = k';
}.

Definition bytes_disjoint (k k' : block) : Prop :=
  bk_shift k + bk_bytes k <= bk_shift k' \/ bk_shift k' + bk_bytes k' <= bk_shift k.

Lemma covers_disjoint_bytes a a' k k' :
  block_ok a k -> block_ok a' k' ->
  (forall p i, covers k p i -> covers k' p i -> False) -> bytes_disjoint k k'.
Proof.
  intros [_ Hl Hf Ha _] [_ Hl' Hf' Ha' _] Hd. unfold bytes_disjoint, bk_shift, bk_bytes.
  pose proof (aligned_fits _ _ Hl Hf Ha). pose proof (aligned_fits _ _ Hl' Hf' Ha').
  destruct (span_bounds _ Hl) as [? _]. destruct (span_bounds _ Hl') as [? _].
  change PAGE_SIZE with (64 * 16384). change MIN_BLOCK_SIZE with 16384.
  destruct (Z.lt_trichotomy (bk_page k) (bk_page k')) as [|[E|]]; [lia| |lia].
  destruct (Z.le_gt_cases (bk_first k + span (bk_level k)) (bk_first k')); [lia|].
  destruct (Z.le_gt_cases (bk_first k' + span (bk_level k')) (bk_first k)); [lia|].
  exfalso. apply (Hd (bk_page k) (Z.max (bk_first k) (bk_first k'))); split; auto; lia.
Qed.

Lemma default_lookup_page a live q :
  alloc_inv a live -> 0 <= q < pageCount a ->
  exists w, pageCntlArray a !! Z.to_nat q = Some w /\ in_range 64 w.
Proof.
  intros H Hq. destruct (ai_count _ _ H) as [Hc _].
  destruct (lookup_lt_is_Some_2 (pageCntlArray a) (Z.to_nat q)) as [w Hw]; [lia|].
  exists w. split; [done|]. by eapply ai_range.
Qed.

Lemma bk_bytes_pos k : level_ok (bk_level k) -> 0 < bk_bytes k.
Proof.
  intros Hl. destruct (span_bounds _ Hl) as [? _]. unfold bk_bytes.
  change MIN_BLOCK_SIZE with 16384. lia.
Qed.

(** A free run does not meet any block in use. *)
Lemma run_free_disjoint a live q w level b :
  alloc_inv a live -> 0 <= q -> pageCntlArray a !! Z.to_nat q = Some w -> level_ok level ->
  run_free w level b -> forall k p i, k ∈ live -> covers k p i -> covers (q, level, b) p i -> False.
Proof.
  intros Hinv Hq Hw Hl (Hb & Hm & Hnb) k p i Hk [Hp Hi] [Hp' Hi']. unfold bk_page, bk_first, bk_level in Hp', Hi'.
  simpl in Hp', Hi'. subst p. pose proof (aligned_fits level b Hl Hb Hm).
  apply Hnb. exists i. split; [lia|]. apply (ai_words _ _ Hinv q); [done|done|lia|].
  by exists k.
Qed.

Lemma take_block_inv a live q w level b size desired hints :
  alloc_inv a live -> 0 <= q < pageCount a -> pageCntlArray a !! Z.to_nat q = Some w ->
  level_ok level -> run_free w level b -> marks w level b desired ->
  let k := (q, level, b) in
  let a' := take_block a size (bk_bytes k) q desired (bk_shift k) hints in
  alloc_inv a' ({[k]} ∪ live) /\ block_ok a' k /\
  forall k', k' ∈ live -> bytes_disjoint k k'.
Proof.
  intros Hinv Hq Hw Hl Hrun [Hdr Hd] k a'. pose proof Hrun as (Hb & Hm & Hnb).
  assert (block_ok a' k) as Hok.
  { split; [done|done|done|done|]. eexists. split; [apply lookup_insert_eq|done]. }
  pose proof (run_free_disjoint a live q w level b Hinv ltac:(lia) Hw Hl Hrun) as Hdis.
  assert (forall k', k' ∈ live -> bytes_disjoint k k') as Hbytes.
  { intros k' Hk'. apply (covers_disjoint_bytes a' a); [done|by apply (ai_blocks _ _ Hinv)|].
    intros p i H1 H2. by apply (Hdis k' p i). }
  split; [|done]. split.
  - destruct (ai_count _ _ Hinv). simpl. by rewrite length_insert.
  - intros p w' Hp. simpl in Hp. apply list_lookup_insert_Some in Hp as [(_ & <- & _)|[_ Hp]]; [done|].
    by eapply (ai_range _ _ Hinv).
  - intros p w' i Hp Hp0 Hi. simpl in Hp.
    apply list_lookup_insert_Some in Hp as [(Epq & <- & _)|[Hne Hp]].
    + assert (p = q) as -> by lia. rewrite Hd, orb_true_iff by done.
      rewrite (ai_words _ _ Hinv q w i) by (done || lia). split.
      * intros [(k' & Hk' & Hc)|Hc]; [exists k'; split; [by apply elem_of_union_r|done]|].
        exists k. split; [by apply elem_of_union_l, elem_of_singleton|]. split; [done|]. unfold bk_first, bk_level. simpl. lia.
      * intros (k' & Hk' & Hc). apply elem_of_union in Hk' as [Hk'|Hk']; [|eauto].
        apply elem_of_singleton in Hk' as ->. right. destruct Hc as [_ Hc].
        unfold bk_first, bk_level in Hc. simpl in Hc. lia.
    + rewrite (ai_words _ _ Hinv p w' i) by done. split.
      * intros (k' & Hk' & Hc). exists k'. split; [by apply elem_of_union_r|done].
      * intros (k' & Hk' & Hc). apply elem_of_union in Hk' as [Hk'|Hk']; [|eauto].
        apply elem_of_singleton in Hk' as ->. destruct Hc as [Hc _]. unfold bk_page in Hc. simpl in Hc. lia.
  - intros k' Hk'. apply elem_of_union in Hk' as [Hk'|Hk'].
    + by apply elem_of_singleton in Hk' as ->.
    + destruct (ai_blocks _ _ Hinv k' Hk') as [H1 H2 H3 H4 (h & Hh & Hc)].
      split; [done|done|done|done|]. exists h. split; [|done]. simpl.
      rewrite lookup_insert_ne; [done|]. pose proof (Hbytes k' Hk') as Hby.
      pose proof (bk_bytes_pos k' H2). pose proof (bk_bytes_pos k Hl). unfold bytes_disjoint in Hby. lia.
  - intros k1 k2 p i H1 H2 Hc1 Hc2.
    apply elem_of_union in H1 as [H1|H1], H2 as [H2|H2];
      try apply elem_of_singleton in H1 as ->; try apply elem_of_singleton in H2 as ->.
    + done.
    + by destruct (Hdis k2 p i).
    + by destruct (Hdis k1 p i).
    + by apply (ai_disjoint _ _ Hinv k1 k2 p i).
Qed.

(** The block a page gives out. *)
Lemma page_try_block a live q level req size desired shift full hints :
  alloc_inv a live -> 0 <= q < pageCount a -> level_ok level -> req = MIN_BLOCK_SIZE * span level ->
  page_try level req q (default 0 (pageCntlArray a !! Z.to_nat q)) = Some (desired, shift, full) ->
  exists k, bk_level k = level /\ bk_page k = q /\ shift = bk_shift k /\ (k ∉ live) /\
    (let a' := take_block a size req q desired shift hints in
     alloc_inv a' ({[k]} ∪ live) /\ block_ok a' k /\ forall k', k' ∈ live -> bytes_disjoint k k').
Proof.
  intros Hinv Hq Hl -> H. destruct (default_lookup_page a live q Hinv Hq) as (w & Hw & Hr).
  rewrite Hw in H. simpl in H.
  destruct (page_try_Some level _ q w desired shift full Hl Hr H) as (b & Hrun & Hmarks & Es).
  exists (q, level, b). assert (shift = bk_shift (q, level, b)) as ->.
  { rewrite Es. apply wrap_small. destruct (ai_count _ _ Hinv). destruct Hrun as (? & _).
    unfold in_range, bk_shift, bk_page, bk_first. simpl. change PAGE_SIZE with 1048576. change MIN_BLOCK_SIZE with 16384. lia. }
  pose proof (take_block_inv a live q w level b size desired hints Hinv Hq Hw Hl Hrun Hmarks) as
    (H1 & H2 & H3).
  split_and!; auto. intros Hk. pose proof (H3 _ Hk) as Hb. unfold bytes_disjoint in Hb.
  pose proof (bk_bytes_pos (q, level, b) Hl). lia.
Qed.

(** ** Freeing *)

(** What FalconShmemAllocatorFree computes from the address of a block. *)
Lemma free_decodes k :
  level_ok (bk_level k) -> 0 <= bk_page k -> 0 <= bk_first k < 64 ->
  MIN_SUPPORT_ALLOC_SIZE <= bk_bytes k <= MAX_SUPPORT_ALLOC_SIZE /\
  builtin_ctzll MAX_SUPPORT_ALLOC_SIZE - builtin_ctzll (bk_bytes k) = bk_level k /\
  bk_bytes k = Z.shiftr MAX_SUPPORT_ALLOC_SIZE (bk_level k) /\
  bk_shift k / PAGE_SIZE = bk_page k /\
  bk_shift k / MIN_BLOCK_SIZE - bk_page k * STATE_BIT_COUNT = bk_first k.
Proof.
  intros Hl Hp Hf. unfold bk_bytes, bk_shift. set (l := bk_level k) in *.
  apply (for_levels (fun l => (MIN_SUPPORT_ALLOC_SIZE <=? MIN_BLOCK_SIZE * span l) &&
    (MIN_BLOCK_SIZE * span l <=? MAX_SUPPORT_ALLOC_SIZE) &&
    (builtin_ctzll MAX_SUPPORT_ALLOC_SIZE - builtin_ctzll (MIN_BLOCK_SIZE * span l) =? l) &&
    (MIN_BLOCK_SIZE * span l =? Z.shiftr MAX_SUPPORT_ALLOC_SIZE l))) in Hl; [|by vm_compute].
  bool_to_prop. split_and!; auto.
  - change PAGE_SIZE with (64 * 16384). change MIN_BLOCK_SIZE with 16384.
    symmetry. apply (Z.div_unique _ _ _ (16384 * bk_first k)); lia.
  - change PAGE_SIZE with (64 * 16384). change MIN_BLOCK_SIZE with 16384. unfold STATE_BIT_COUNT.
    rewrite <- (Z.div_unique (64 * 16384 * bk_page k + 16384 * bk_first k) 16384
      (64 * bk_page k + bk_first k) 0); lia.
Qed.

(** Freeing a block in use is clearing its bits. *)
Lemma free_unfold a live k w :
  alloc_inv a live -> k ∈ live -> pageCntlArray a !! Z.to_nat (bk_page k) = Some w ->
  let a' := FalconShmemAllocatorFree a (bk_shift k + SIZEOF_MemoryHdr) in
  pageCount a' = pageCount a /\ headers a' = headers a /\
  pageCntlArray a' = <[Z.to_nat (bk_page k) :=
    Z.land w (lnot64 (u64 (Z.shiftl (LevelBlockOccupyBitMap (bk_level k)) (bk_first k))))]>
    (pageCntlArray a).
Proof.
  intros Hinv Hk Hw. destruct (ai_blocks _ _ Hinv k Hk) as [Hp Hl Hf _ (h & Hh & Hc)].
  destruct (free_decodes k Hl) as ([? ?] & El & Ecap & Ep & Eb); [lia|done|].
  destruct (ai_count _ _ Hinv). unfold FalconShmemAllocatorFree.
  rewrite Z.add_simpl_r, (wrap_small 64 (bk_shift k)), Hh.
  2: { unfold in_range, bk_shift. change PAGE_SIZE with 1048576. change MIN_BLOCK_SIZE with 16384. lia. }
  simpl default. rewrite Hc, El, <- Ecap, Z.eqb_refl, Ep, Eb, Hw.
  replace (bk_bytes k <? MIN_SUPPORT_ALLOC_SIZE) with false by lia.
  replace (MAX_SUPPORT_ALLOC_SIZE <? bk_bytes k) with false by lia. simpl.
  by rewrite (wrap_small 32 (bk_first k)) by (unfold in_range; lia).
Qed.

Lemma free_inv a live k :
  alloc_inv a live -> k ∈ live ->
  alloc_inv (FalconShmemAllocatorFree a (bk_shift k + SIZEOF_MemoryHdr)) (live ∖ {[k]}).
Proof.
  intros Hinv Hk. pose proof (ai_blocks _ _ Hinv k Hk) as Hok. pose proof Hok as [Hp Hl Hf Ha _].
  destruct (default_lookup_page a live (bk_page k) Hinv Hp) as (w & Hw & Hr).
  destruct (free_unfold a live k w Hinv Hk Hw) as (Ec & Eh & Epg).
  assert (forall i, 0 <= i < 64 -> Z.testbit (Z.land w (lnot64
    (u64 (Z.shiftl (LevelBlockOccupyBitMap (bk_level k)) (bk_first k))))) i = true <->
    Z.testbit w i = true /\ ~ covers k (bk_page k) i) as Hbit.
  { intros i Hi. rewrite Z.land_spec, lnot64_testbit, occupy_testbit by (done || lia).
    replace (i <? 64) with true by lia. unfold covers.
    rewrite andb_true_iff. apply and_iff_compat_l.
    destruct (Z.leb_spec (bk_first k) i), (Z.ltb_spec i (bk_first k + span (bk_level k))); simpl;
      first [ split; [intros _ [_ ?]; lia|done]
            | split; [done|]; intros Hn; destruct Hn; split; [done|lia] ]. }
  assert (forall k', k' ∈ live ∖ {[k]} <-> k' ∈ live /\ k' <> k) as Hin.
  { intros k'. by rewrite elem_of_difference, elem_of_singleton. }
  split.
  - destruct (ai_count _ _ Hinv). by rewrite Ec, Epg, length_insert.
  - intros p w' Hp'. rewrite Epg in Hp'.
    apply list_lookup_insert_Some in Hp' as [(_ & <- & _)|[_ Hp']].
    + by apply land_in_range_l.
    + by eapply (ai_range _ _ Hinv).
  - intros p w' i Hp' Hp0 Hi. rewrite Epg in Hp'.
    apply list_lookup_insert_Some in Hp' as [(Epq & <- & _)|[Hne Hp']].
    + assert (p = bk_page k) as -> by lia. rewrite Hbit by done.
      rewrite (ai_words _ _ Hinv (bk_page k) w i) by (done || lia). split.
      * intros [(k' & Hk' & Hc) Hn]. exists k'. rewrite Hin. split_and!; auto. by intros ->.
      * intros (k' & Hk' & Hc). apply Hin in Hk' as [Hk' Hne]. split; [eauto|].
        intros Hc'. by apply Hne, (ai_disjoint _ _ Hinv k' k (bk_page k) i).
    + rewrite (ai_words _ _ Hinv p w' i) by done. split.
      * intros (k' & Hk' & Hc). exists k'. rewrite Hin. split_and!; auto.
        intros ->. destruct Hc as [Hc _]. by rewrite Hc in Hne.
      * intros (k' & Hk' & Hc). apply Hin in Hk' as [Hk' _]. eauto.
  - intros k' Hk'. apply Hin in Hk' as [Hk' _].
    destruct (ai_blocks _ _ Hinv k' Hk') as [H1 H2 H3 H4 H5]. split; rewrite ?Ec, ?Eh; done.
  - intros k1 k2 p i H1 H2. apply Hin in H1 as [H1 _], H2 as [H2 _]. by apply (ai_disjoint _ _ Hinv).
Qed.

(** ** Properties *)

(** What a successful scan does, whatever becomes of the hints. *)
Lemma scan_success a live size from q desired shift full hints :
  alloc_inv a live -> 0 <= from -> 0 <= size <= MAX_SUPPORT_ALLOC_SIZE - SIZEOF_MemoryHdr ->
  scan_pages (Z.to_nat (pageCount a - from)) (level_of (required_size size)) (required_size size)
    from (pageCntlArray a) = Some (q, (desired, shift, full)) ->
  exists k, u64 (shift + SIZEOF_MemoryHdr) = bk_shift k + SIZEOF_MemoryHdr /\ (k ∉ live) /\
    size + SIZEOF_MemoryHdr <= bk_bytes k /\
    (let a' := take_block a size (required_size size) q desired shift hints in
     alloc_inv a' ({[k]} ∪ live) /\ block_ok a' k /\ forall k', k' ∈ live -> bytes_disjoint k k').
Proof.
  intros Hinv Hfrom Hsize H. destruct (required_size_spec size Hsize) as (Hl & Ereq & Hle).
  apply scan_pages_Some in H as [Hq Htry]. destruct (ai_count _ _ Hinv) as [_ Hcount].
  assert (0 <= q < pageCount a) as Hq' by lia.
  destruct (page_try_block a live q _ _ size desired shift full hints Hinv Hq' Hl Ereq Htry)
    as (k & El & Ep & -> & Hk & Hinv' & Hok & Hdis).
  exists k. split_and!; auto.
  - apply wrap_small. destruct Hok as [? _ ? _ _]. unfold in_range, bk_shift.
    change PAGE_SIZE with 1048576. change MIN_BLOCK_SIZE with 16384. unfold SIZEOF_MemoryHdr. lia.
  - unfold bk_bytes. rewrite El. lia.
Qed.

(** FalconShmemAllocatorMalloc on every branch. *)
Lemma malloc_cases a live size r a' :
  alloc_inv a live -> 0 <= size -> FalconShmemAllocatorMalloc a size = (r, a') ->
  (r = 0 /\ a' = a /\
    (MAX_SUPPORT_ALLOC_SIZE - SIZEOF_MemoryHdr < size \/
     forall p w b, 0 <= p -> pageCntlArray a !! Z.to_nat p = Some w ->
       ~ run_free w (level_of (required_size size)) b)) \/
  (exists k, r = bk_shift k + SIZEOF_MemoryHdr /\ (k ∉ live) /\
    size + SIZEOF_MemoryHdr <= bk_bytes k /\
    alloc_inv a' ({[k]} ∪ live) /\ block_ok a' k /\
    (forall k', k' ∈ live -> bytes_disjoint k k') /\ pageCount a' = pageCount a).
Proof.
  intros Hinv Hs H. unfold FalconShmemAllocatorMalloc in H.
  destruct (Z.ltb_spec (MAX_SUPPORT_ALLOC_SIZE - SIZEOF_MemoryHdr) size); simplify_eq.
  { left. auto. }
  destruct (scan_pages _ _ _ (u32 _) _) as [[q [[desired shift] full]]|] eqn:E1.
  { simplify_eq. right.
    edestruct scan_success as (k & ? & ? & ? & ? & ? & ?); [done| |split; [done|done]|exact E1|].
    { by apply wrap_in_range. } exists k. split_and!; eauto. }
  destruct (scan_pages _ _ _ 0 _) as [[q [[desired shift] full]]|] eqn:E2; simplify_eq.
  { right. edestruct scan_success as (k & ? & ? & ? & ? & ? & ?); [done| |split; [done|done]|exact E2|]; [lia|].
    exists k. split_and!; eauto. }
  left. split_and!; auto. right. intros p w b Hp Hw.
  assert (p < pageCount a').
  { destruct (ai_count _ _ Hinv). apply lookup_lt_Some in Hw. lia. }
  pose proof (scan_pages_None _ _ _ _ _ p E2 ltac:(lia)) as Htry. rewrite Hw in Htry. simpl in Htry.
  destruct (required_size_spec size ltac:(lia)) as (Hl & _).
  eapply page_try_None; [done|by eapply (ai_range _ _ Hinv)|done].
Qed.

(** C15: FalconShmemAllocatorMalloc, with at most 4096 pages.  It returns 0 and
    changes nothing exactly when the request is too large or no page has an
    aligned free run for it; otherwise it returns the address behind the header
    of a block that holds the request, records its capacity, overlaps no block
    in use, and leaves the page words describing the blocks in use. *)
Theorem FalconShmemAllocatorMalloc_correct a live size r a' :
  alloc_inv a live -> 0 <= size -> FalconShmemAllocatorMalloc a size = (r, a') ->
  (r = 0 /\ a' = a /\
    (MAX_SUPPORT_ALLOC_SIZE - SIZEOF_MemoryHdr < size \/
     forall p w b, 0 <= p -> pageCntlArray a !! Z.to_nat p = Some w ->
       ~ run_free w (level_of (required_size size)) b)) \/
  (exists k, r = bk_shift k + SIZEOF_MemoryHdr /\ (k ∉ live) /\
    size + SIZEOF_MemoryHdr <= bk_bytes k /\
    alloc_inv a' ({[k]} ∪ live) /\ block_ok a' k /\
    forall k', k' ∈ live -> bytes_disjoint k k').
Proof.
  intros Hinv Hs H. destruct (malloc_cases a live size r a' Hinv Hs H) as [|(k & Hk)]; [by left|].
  right. exists k. destruct Hk as (? & ? & ? & ? & ? & ? & _). by split_and!.
Qed.

(** The words of the pages are determined by the blocks in use. *)
Lemma alloc_inv_words a a' live :
  alloc_inv a live -> alloc_inv a' live -> pageCount a = pageCount a' ->
  pageCntlArray a = pageCntlArray a'.
Proof.
  intros H H' Ec. destruct (ai_count _ _ H), (ai_count _ _ H').
  apply list_eq. intros p. destruct (decide (p < length (pageCntlArray a))%nat) as [Hp|Hp].
  - destruct (lookup_lt_is_Some_2 (pageCntlArray a) p) as [w Hw]; [lia|].
    destruct (lookup_lt_is_Some_2 (pageCntlArray a') p) as [w' Hw']; [lia|].
    rewrite Hw, Hw'. f_equal.
    apply (bits_inj_range 64); [lia|by eapply (ai_range _ _ H)|by eapply (ai_range _ _ H')|]. intros i Hi.
    apply eq_true_iff_eq. rewrite <- (Nat2Z.id p) in Hw, Hw'.
    rewrite (ai_words _ _ H (Z.of_nat p) w i), (ai_words _ _ H' (Z.of_nat p) w' i) by (done || lia). done.
  - rewrite !lookup_ge_None_2 by lia. done.
Qed.

(** Freeing a block in use gives back exactly its 16 KiB units: the block
    leaves the set of blocks in use, every other block stays, and freeing what
    FalconShmemAllocatorMalloc has just returned restores all page words. *)
Theorem FalconShmemAllocatorFree_correct a live :
  alloc_inv a live ->
  (forall k, k ∈ live ->
    alloc_inv (FalconShmemAllocatorFree a (bk_shift k + SIZEOF_MemoryHdr)) (live ∖ {[k]})) /\
  (forall size r a', 0 <= size -> FalconShmemAllocatorMalloc a size = (r, a') -> r <> 0 ->
    pageCntlArray (FalconShmemAllocatorFree a' r) = pageCntlArray a).
Proof.
  intros Hinv. split; [intros k; by apply free_inv|]. intros size r a' Hs Hm Hr.
  destruct (malloc_cases a live size r a' Hinv Hs Hm)
    as [(? & _)|(k & -> & Hk & _ & Hinv' & _ & _ & Ec)]; [done|].
  assert (k ∈ ({[k]} ∪ live : gset block)) as Hin by (by apply elem_of_union_l, elem_of_singleton).
  pose proof (free_inv a' _ k Hinv' Hin) as Hf.
  destruct (ai_blocks _ _ Hinv' k Hin) as [Hp _ _ _ _].
  destruct (default_lookup_page a' _ (bk_page k) Hinv' Hp) as (w & Hw & _).
  destruct (free_unfold a' _ k w Hinv' Hin Hw) as (Ec' & _ & _).
  replace (({[k]} ∪ live) ∖ {[k]}) with live in Hf by (clear - Hk; set_solver).
  by apply (alloc_inv_words _ _ live); [..|congruence].
Qed.

(** FalconShmemAllocatorInit lays the counter, the seven hints, the page
    words and the pages one after the other inside the memory it is given, and
    refuses memory that has no room for one page. *)
Theorem FalconShmemAllocatorInit_layout size :
  SIZEOF_PaddedAtomic64 * (1 + FREE_LIST_COUNT) <= size < 2 ^ 52 ->
  match FalconShmemAllocatorInit size with
  | Some l =>
      l_signatureCounter l = 0 /\
      l_freeListHint l = l_signatureCounter l + SIZEOF_PaddedAtomic64 /\
      l_pageCntlArray l = l_freeListHint l + SIZEOF_PaddedAtomic64 * FREE_LIST_COUNT /\
      l_allocatableSpaceBase l = l_pageCntlArray l + SIZEOF_PaddedAtomic64 * l_pageCount l /\
      0 < l_pageCount l /\
      l_allocatableSpaceBase l + PAGE_SIZE * l_pageCount l <= size /\
      size < l_allocatableSpaceBase l + PAGE_SIZE * l_pageCount l + SIZEOF_PaddedAtomic64 + PAGE_SIZE
  | None => size < SIZEOF_PaddedAtomic64 * (2 + FREE_LIST_COUNT) + PAGE_SIZE
  end.
Proof.
  intros Hs. unfold FalconShmemAllocatorInit.
  unfold SIZEOF_PaddedAtomic64, FREE_LIST_COUNT in *. change PAGE_SIZE with 1048576.
  rewrite (wrap_small 64) by (unfold in_range; lia).
  set (n := (size - 128 * (1 + 7)) / (128 + 1048576)).
  assert (0 <= n < 2 ^ 32) by (unfold n; Z.to_euclidean_division_equations; lia).
  rewrite wrap_small by done. destruct (Z.eqb_spec n 0) as [E|E]; simpl.
  - unfold n in E. Z.to_euclidean_division_equations; lia.
  - unfold n in *. Z.to_euclidean_division_equations; lia.
Qed.

(** Below the size of the fixed part the subtraction wraps around. *)
Lemma FalconShmemAllocatorInit_underflow :
  exists l, FalconShmemAllocatorInit 0 = Some l /\ 0 < l_pageCount l.
Proof. eexists. split; [reflexivity|reflexivity]. Qed.

Lemma scan_pages_skip n m req p pages :
  0 <= p -> (forall q, p <= q < p + Z.of_nat n -> default 0 (pages !! Z.to_nat q) <> 0) ->
  scan_pages (n + m) 0 req p pages = scan_pages m 0 req (p + Z.of_nat n) pages.
Proof.
  revert p. induction n as [|n IH]; intros p Hp H; simpl; [by rewrite Z.add_0_r|].
  unfold page_try. simpl. destruct (Z.eqb_spec (default 0 (pages !! Z.to_nat p)) 0) as [E|_].
  { destruct (H p); [lia|done]. }
  simpl. rewrite IH; [|lia|intros q Hq; apply H; lia]. f_equal. lia.
Qed.

(** Beyond 4 GiB the byte offset of a page is computed in 32 bits.  With
    4097 pages of which only the last is free, a request for a page is answered
    with the first page, which is in use. *)
Theorem FalconShmemAllocatorMalloc_aliases_beyond_4GiB a :
  pageCount a = 4097 -> 0 <= default 0 (freeListHint a !! 0%nat) <= 4096 ->
  (forall q, 0 <= q < 4096 -> default 0 (pageCntlArray a !! Z.to_nat q) <> 0) ->
  pageCntlArray a !! Z.to_nat 4096 = Some 0 ->
  (FalconShmemAllocatorMalloc a (MAX_SUPPORT_ALLOC_SIZE - SIZEOF_MemoryHdr)).1 = SIZEOF_MemoryHdr.
Proof.
  intros Hc Hh Hq Hlast. unfold FalconShmemAllocatorMalloc. rewrite Z.ltb_irrefl, Hc.
  set (h := default 0 (freeListHint a !! 0%nat)) in *.
  change (level_of (required_size (MAX_SUPPORT_ALLOC_SIZE - SIZEOF_MemoryHdr))) with 0.
  change (required_size (MAX_SUPPORT_ALLOC_SIZE - SIZEOF_MemoryHdr)) with PAGE_SIZE.
  change (freeListHint a !! Z.to_nat 0) with (freeListHint a !! 0%nat). fold h.
  rewrite (wrap_small 32 h) by (unfold in_range; lia).
  replace (Z.to_nat (4097 - h)) with (Z.to_nat (4096 - h) + 1)%nat by lia.
  rewrite scan_pages_skip by (lia || (intros q ?; apply Hq; lia)).
  replace (h + Z.of_nat (Z.to_nat (4096 - h))) with 4096 by lia.
  cbn [scan_pages]. rewrite Hlast. reflexivity.
Qed.

(** ** Instances *)

Definition fresh (n : nat) : allocator :=
  mkAllocator (Z.of_nat n) 0 (replicate 7 0) (replicate n 0) ∅.

Lemma fresh_inv n : Z.of_nat n <= 4096 -> alloc_inv (fresh n) ∅.
Proof.
  intros Hn. split; simpl.
  - by rewrite length_replicate.
  - intros p w Hp. by apply lookup_replicate in Hp as [-> _].
  - intros p w i Hp _ _. apply lookup_replicate in Hp as [-> _]. rewrite Z.testbit_0_l.
    split; [done|]. intros (k & Hk & _). by apply not_elem_of_empty in Hk.
  - intros k Hk. by apply not_elem_of_empty in Hk.
  - intros k k' p i Hk. by apply not_elem_of_empty in Hk.
Qed.

Lemma FalconShmemAllocatorMalloc_correct_witness :
  exists r a', FalconShmemAllocatorMalloc (fresh 2) 100 = (r, a') /\ r = 24 /\
    exists k, r = bk_shift k + SIZEOF_MemoryHdr /\ alloc_inv a' {[k]}.
Proof.
  destruct (FalconShmemAllocatorMalloc (fresh 2) 100) as [r a'] eqn:E. exists r, a'.
  assert (r = 24) as Hr by (by vm_compute in E; injection E).
  split_and!; [done|done|].
  destruct (FalconShmemAllocatorMalloc_correct (fresh 2) ∅ 100 r a' (fresh_inv 2 ltac:(lia)) ltac:(lia) E)
    as [(H0 & _)|(k & Hk & _ & _ & Hinv & _)].
  - rewrite Hr in H0. discriminate H0.
  - exists k. split; [exact Hk|]. rewrite (right_id_L ∅ (∪)) in Hinv. exact Hinv.
Defined.

Lemma FalconShmemAllocatorFree_correct_witness :
  pageCntlArray (FalconShmemAllocatorFree (FalconShmemAllocatorMalloc (fresh 2) 100).2
    (FalconShmemAllocatorMalloc (fresh 2) 100).1) = pageCntlArray (fresh 2).
Proof.
  destruct (FalconShmemAllocatorFree_correct (fresh 2) ∅ (fresh_inv 2 ltac:(lia))) as [_ H].
  apply (H 100); [lia|by destruct (FalconShmemAllocatorMalloc (fresh 2) 100)|by vm_compute].
Defined.

Lemma FalconShmemAllocatorInit_layout_witness :
  match FalconShmemAllocatorInit (256 * 1024 * 1024) with
  | Some l => l_pageCount l = 255 /\
      l_allocatableSpaceBase l + PAGE_SIZE * l_pageCount l <= 256 * 1024 * 1024
  | None => False
  end.
Proof.
  pose proof (FalconShmemAllocatorInit_layout (256 * 1024 * 1024) ltac:(vm_compute; split; congruence)) as H.
  destruct (FalconShmemAllocatorInit (256 * 1024 * 1024)) as [l|] eqn:E; [|by vm_compute in E].
  split; [by vm_compute in E; injection E as <-|apply H].
Defined.

Lemma FalconShmemAllocatorMalloc_aliases_beyond_4GiB_witness :
  let a := mkAllocator 4097 0 (replicate 7 0) (replicate (Z.to_nat 4096) UINT64_MAX ++ [0]) ∅ in
  (FalconShmemAllocatorMalloc a (MAX_SUPPORT_ALLOC_SIZE - SIZEOF_MemoryHdr)).1 = SIZEOF_MemoryHdr.
Proof.
  intros a. apply (FalconShmemAllocatorMalloc_aliases_beyond_4GiB a); [done|vm_compute; split; congruence| |].
  - intros q Hq. unfold a. cbn [pageCntlArray]. rewrite lookup_app_l by (rewrite length_replicate; lia).
    rewrite lookup_replicate_2 by lia. done.
  - unfold a. cbn [pageCntlArray].
    rewrite lookup_app_r, length_replicate, Nat.sub_diag by (rewrite length_replicate; lia). done.
Defined.
