(* ===== verification/SerializedData.v ===== *)
(** * Framed messages (remote_connection_def/remote_connection_utils/serialized_data.h)

    A message is a sequence of items, each a 32-bit little-endian length
    followed by that many bytes, lengths and offsets being multiples of four.
    The byte order of the machine and the memory manager are parameters. *)

From S2P Require Import FalconPrelude.

Definition SERIALIZED_DATA_DEFAULT_CAPACITY : Z := 128.
Definition SERIALIZED_DATA_ALIGNMENT : Z := 4.
Definition SERIALIZED_DATA_ALIGNMENT_MASK : Z := SERIALIZED_DATA_ALIGNMENT - 1.

(** A byte is a [Z] in [0, 256). *)
Definition byte_ok (b : Z) : Prop := in_range 8 b.

(** alloc and realloc; [None] is the null pointer. *)
Record MemoryManager : Type := mkMemoryManager {
  mm_alloc : Z -> option (list Z);
  mm_realloc : list Z -> Z -> option (list Z);
}.

(** What the C standard says of malloc and realloc: the new object has the
    requested size and realloc keeps the contents up to the old size. *)
Class MemoryManagerLaws (mm : MemoryManager) : Prop := {
  mm_alloc_length n buf : mm_alloc mm n = Some buf -> Z.of_nat (length buf) = n;
  mm_realloc_length old n buf : mm_realloc mm old n = Some buf -> Z.of_nat (length buf) = n;
  mm_realloc_prefix old n buf k :
    mm_realloc mm old n = Some buf -> (k <= length old)%nat -> Z.of_nat k <= n ->
    take k buf = take k old;
}.

(** [sd_buffer] is [None] for a null buffer. *)
Record SerializedData : Type := mkSerializedData {
  sd_buffer : option (list Z);
  sd_size : Z;
  sd_capacity : Z;
  sd_memoryManager : option MemoryManager;
}.

(** ** Byte order *)

Definition byte_at (v k : Z) : Z := Z.land (Z.shiftr v (8 * k)) 0xFF.

(** The bytes of a 32-bit value, least significant first. *)
Definition le32 (v : Z) : list Z := [byte_at v 0; byte_at v 1; byte_at v 2; byte_at v 3].

Definition of_le32 (bs : list Z) : Z :=
  foldr (fun b acc => b + 256 * acc) 0 bs.

(** What a store of a 32-bit value leaves in memory, and a load reads from it. *)
Definition native_store (little : bool) (v : Z) : list Z :=
  if little then le32 v else rev (le32 v).
Definition native_load (little : bool) (bs : list Z) : Z :=
  of_le32 (if little then bs else rev bs).

(** The test of the first byte of 0x01020304. *)
Definition SystemIsLittleEndian (little : bool) : bool :=
  bool_decide (head (native_store little 0x01020304) = Some 4).

Definition ConvertBetweenBigAndLittleEndian (value : Z) : Z :=
  Z.lor (Z.lor (Z.lor (Z.shiftr (Z.land value 0xFF000000) 24)
                      (Z.shiftr (Z.land value 0x00FF0000) 8))
               (u32 (Z.shiftl (Z.land value 0x0000FF00) 8)))
        (u32 (Z.shiftl (Z.land value 0x000000FF) 24)).

(** ** Operations *)

Definition SerializedDataInit (buffer : option (list Z)) (bufferSize validBytes : Z)
    (memoryManager : option MemoryManager) (DefaultMemoryManager : MemoryManager)
    : option SerializedData :=
  match buffer with
  | Some buf =>
      if negb (Z.land bufferSize SERIALIZED_DATA_ALIGNMENT_MASK =? 0)
         || negb (Z.land validBytes SERIALIZED_DATA_ALIGNMENT_MASK =? 0)
      then None
      else Some (mkSerializedData (Some buf) validBytes bufferSize memoryManager)
  | None =>
      Some (mkSerializedData None 0 0
              (Some (match memoryManager with Some mm => mm | None => DefaultMemoryManager end)))
  end.

Definition SerializedDataClear (d : SerializedData) : SerializedData :=
  mkSerializedData (sd_buffer d) 0 (sd_capacity d) (sd_memoryManager d).

(** The doubling loop of SerializedDataEnlarge. *)
Fixpoint double_until (fuel : nat) (newCapacity size : Z) : option Z :=
  if newCapacity <? size then
    match fuel with
    | O => None
    | S fuel' => double_until fuel' (u32 (newCapacity * 2)) size
    end
  else Some newCapacity.

(** The doubling loop runs at most 32 times when it ends at all. *)
Definition DOUBLING_FUEL : nat := 32.

Inductive enlarge_result : Type :=
| Enlarged (d : SerializedData)
| EnlargeFailed
| EnlargeHangs.

Definition SerializedDataEnlarge (d : SerializedData) (size : Z) : enlarge_result :=
  if size <=? sd_capacity d then Enlarged d
  else
    match sd_memoryManager d with
    | None => EnlargeFailed
    | Some mm =>
        let newCapacity0 := if sd_capacity d =? 0 then SERIALIZED_DATA_DEFAULT_CAPACITY
                            else u32 (sd_capacity d * 2) in
        match double_until DOUBLING_FUEL newCapacity0 size with
        | None => EnlargeHangs
        | Some newCapacity =>
            match (match sd_buffer d with
                   | Some buf => mm_realloc mm buf newCapacity
                   | None => mm_alloc mm newCapacity
                   end) with
            | None => EnlargeFailed
            | Some newBuffer =>
                Enlarged (mkSerializedData (Some newBuffer) (sd_size d) newCapacity (sd_memoryManager d))
            end
        end
    end.

(** Overwriting a piece of the buffer. *)
Definition write_at (buf : list Z) (off : Z) (bs : list Z) : list Z :=
  take (Z.to_nat off) buf ++ bs ++ drop (Z.to_nat off + length bs) buf.

Definition align_size (size : Z) : Z :=
  u32 (size + Z.land (u64 (lnot64 (Z.land size SERIALIZED_DATA_ALIGNMENT_MASK) + 1))
                     SERIALIZED_DATA_ALIGNMENT_MASK).

(** The offset of the segment in the buffer, and the new state; [None] is the
    null pointer or a call that does not return. *)
Definition SerializedDataApplyForSegment (little : bool) (d : SerializedData) (size0 : Z)
    : option (Z * SerializedData) :=
  let size := align_size size0 in
  match SerializedDataEnlarge d (u32 (sd_size d + SERIALIZED_DATA_ALIGNMENT + size)) with
  | Enlarged d' =>
      let stored := if SystemIsLittleEndian little then size
                    else ConvertBetweenBigAndLittleEndian size in
      let buf := write_at (default [] (sd_buffer d')) (sd_size d') (native_store little stored) in
      Some (sd_size d' + SERIALIZED_DATA_ALIGNMENT,
            mkSerializedData (Some buf) (u32 (sd_size d' + SERIALIZED_DATA_ALIGNMENT + size))
              (sd_capacity d') (sd_memoryManager d'))
  | _ => None
  end.

Definition SerializedDataAppend (dest src : SerializedData) : option SerializedData :=
  match SerializedDataEnlarge dest (u32 (sd_size dest + sd_size src)) with
  | Enlarged d' =>
      let buf := write_at (default [] (sd_buffer d')) (sd_size d')
                   (take (Z.to_nat (sd_size src)) (default [] (sd_buffer src))) in
      Some (mkSerializedData (Some buf) (u32 (sd_size d' + sd_size src))
              (sd_capacity d') (sd_memoryManager d'))
  | _ => None
  end.

(** A load of four bytes; [None] when they are not all inside the buffer. *)
Definition load_at (little : bool) (d : SerializedData) (off : Z) : option Z :=
  let bs := take 4 (drop (Z.to_nat off) (default [] (sd_buffer d))) in
  if bool_decide (length bs = 4%nat) then Some (native_load little bs) else None.

Inductive item_size : Type :=
| ItemSize (n : Z)
| ItemError
| OutOfBounds.

(** The loop over the items, [p] being the offset of the pointer. *)
Fixpoint next_items (little : bool) (d : SerializedData) (start p : Z) (itemCount : nat) : item_size :=
  match itemCount with
  | O => ItemSize (u32 (u32 p - start))
  | S n =>
      match load_at little d p with
      | None => OutOfBounds
      | Some raw =>
          let itemSize := if SystemIsLittleEndian little then raw
                          else ConvertBetweenBigAndLittleEndian raw in
          if negb (Z.land itemSize SERIALIZED_DATA_ALIGNMENT_MASK =? 0) then ItemError
          else
            let p' := p + SERIALIZED_DATA_ALIGNMENT + itemSize in
            if sd_size d <? p' then ItemError else next_items little d start p' n
      end
  end.

Definition SerializedDataNextSeveralItemSize (little : bool) (d : SerializedData) (start : Z)
    (itemCount : nat) : item_size :=
  if negb (Z.land start SERIALIZED_DATA_ALIGNMENT_MASK =? 0) then ItemError
  else next_items little d start start itemCount.

(** ** Alignment *)

Lemma land_mask_mod x : Z.land x SERIALIZED_DATA_ALIGNMENT_MASK = x `mod` 4.
Proof. change SERIALIZED_DATA_ALIGNMENT_MASK with (Z.ones 2). by rewrite Z.land_ones by lia. Qed.

(** The padding brings a size up to the next multiple of four. *)
Lemma align_size_spec n :
  0 <= n <= 2 ^ 32 - 4 ->
  n <= align_size n < n + 4 /\ align_size n `mod` 4 = 0 /\ align_size n < 2 ^ 32.
Proof.
  intros Hn. unfold align_size. rewrite !land_mask_mod. unfold lnot64.
  assert (n `mod` 4 = 0 \/ n `mod` 4 = 1 \/ n `mod` 4 = 2 \/ n `mod` 4 = 3) as H
    by (Z.to_euclidean_division_equations; lia).
  destruct H as [E|[E|[E|E]]]; rewrite E;
    match goal with |- context [u64 ?x] => let y := eval vm_compute in (u64 x `mod` 4) in
      change (u64 x `mod` 4) with y end;
    rewrite wrap_small by (unfold in_range; Z.to_euclidean_division_equations; lia);
    Z.to_euclidean_division_equations; lia.
Qed.

(** ** Byte order *)

Lemma byte_at_testbit v k i :
  0 <= k -> 0 <= i -> Z.testbit (byte_at v k) i = ((i <? 8) && Z.testbit v (i + 8 * k))%bool.
Proof.
  intros Hk Hi. unfold byte_at. rewrite Z.land_spec, Z.shiftr_spec by lia.
  change 0xFF with (Z.ones 8). destruct (Z.ltb_spec i 8).
  - rewrite Z.ones_spec_low by lia. apply andb_true_r.
  - rewrite Z.ones_spec_high by lia. apply andb_false_r.
Qed.

Lemma byte_at_ok v k : 0 <= k -> byte_ok (byte_at v k).
Proof.
  intros Hk. unfold byte_at. change 0xFF with (Z.ones 8). rewrite Z.land_ones by lia.
  apply Z.mod_pos_bound. lia.
Qed.

(** The conversion exchanges the bytes. *)
Lemma byte_at_convert v k :
  0 <= k <= 3 -> byte_at (ConvertBetweenBigAndLittleEndian v) k = byte_at v (3 - k).
Proof.
  intros Hk. apply Z.bits_inj'. intros i Hi. rewrite !byte_at_testbit by lia.
  destruct (Z.ltb_spec i 8); [|done]. simpl. unfold ConvertBetweenBigAndLittleEndian.
  rewrite !Z.lor_spec, !Z.shiftr_spec, !wrap_testbit, !Z.shiftl_spec, !Z.land_spec by lia.
  assert (k = 0 \/ k = 1 \/ k = 2 \/ k = 3) as Hks by lia.
  assert (i = 0 \/ i = 1 \/ i = 2 \/ i = 3 \/ i = 4 \/ i = 5 \/ i = 6 \/ i = 7) as His by lia.
  repeat match goal with H : _ \/ _ |- _ => destruct H as [-> | H] end; subst;
    repeat match goal with |- context [Z.testbit (Zpos ?p) ?j] =>
      let b := eval vm_compute in (Z.testbit (Zpos p) j) in
      change (Z.testbit (Zpos p) j) with b end;
    simpl; rewrite ?andb_true_r, ?andb_false_r, ?orb_false_r; try done;
    rewrite ?Z.testbit_neg_r by lia; done.
Qed.

Lemma le32_convert v : le32 (ConvertBetweenBigAndLittleEndian v) = rev (le32 v).
Proof. unfold le32. simpl. by rewrite !byte_at_convert by lia. Qed.

Lemma of_le32_le32 v : in_range 32 v -> of_le32 (le32 v) = v.
Proof.
  intros Hv. unfold of_le32, le32, byte_at. simpl foldr. change 255 with (Z.ones 8).
  rewrite !Z.land_ones, !Z.shiftr_div_pow2 by lia. unfold in_range in Hv.
  change (8 * 0) with 0. change (8 * 1) with 8. change (8 * 2) with 16. change (8 * 3) with 24.
  Z.to_euclidean_division_equations; lia.
Qed.

Lemma le32_of_le32 b0 b1 b2 b3 :
  byte_ok b0 -> byte_ok b1 -> byte_ok b2 -> byte_ok b3 ->
  le32 (of_le32 [b0; b1; b2; b3]) = [b0; b1; b2; b3].
Proof.
  unfold byte_ok, in_range. intros H0 H1 H2 H3. unfold of_le32, le32, byte_at. simpl foldr.
  change 255 with (Z.ones 8). rewrite !Z.land_ones, !Z.shiftr_div_pow2 by lia.
  change (8 * 0) with 0. change (8 * 1) with 8. change (8 * 2) with 16. change (8 * 3) with 24.
  repeat f_equal; Z.to_euclidean_division_equations; lia.
Qed.

Lemma ConvertBetweenBigAndLittleEndian_range v :
  in_range 32 (ConvertBetweenBigAndLittleEndian v).
Proof.
  apply testbits_in_range; [lia| |].
  - unfold ConvertBetweenBigAndLittleEndian. rewrite !Z.lor_nonneg, !Z.shiftr_nonneg, !Z.land_nonneg.
    repeat split; try (right; lia); apply wrap_in_range; lia.
  - intros i Hi. unfold ConvertBetweenBigAndLittleEndian.
    rewrite !Z.lor_spec, !Z.shiftr_spec, !wrap_testbit, !Z.land_spec by lia.
    rewrite (in_range_testbit_high 32 0xFF000000), (in_range_testbit_high 32 0x00FF0000) by (done || lia).
    by replace (i <? 32) with false by lia; rewrite !andb_false_r.
Qed.

Lemma Convert_involutive v :
  in_range 32 v -> ConvertBetweenBigAndLittleEndian (ConvertBetweenBigAndLittleEndian v) = v.
Proof.
  intros Hv.
  rewrite <- (of_le32_le32 (ConvertBetweenBigAndLittleEndian _)) by apply ConvertBetweenBigAndLittleEndian_range.
  rewrite !le32_convert, rev_involutive. by apply of_le32_le32.
Qed.

Lemma SystemIsLittleEndian_eq little : SystemIsLittleEndian little = little.
Proof. by destruct little. Qed.

(** On either kind of machine a length is stored least significant byte first,
    and read back as stored. *)
Lemma stored_length little v :
  native_store little (if SystemIsLittleEndian little then v else ConvertBetweenBigAndLittleEndian v)
    = le32 v.
Proof.
  rewrite SystemIsLittleEndian_eq. destruct little; [done|].
  unfold native_store. by rewrite le32_convert, rev_involutive.
Qed.

Lemma loaded_length little v :
  in_range 32 v ->
  (if SystemIsLittleEndian little then native_load little (le32 v)
   else ConvertBetweenBigAndLittleEndian (native_load little (le32 v))) = v.
Proof.
  intros Hv. rewrite SystemIsLittleEndian_eq. destruct little; unfold native_load.
  - by apply of_le32_le32.
  - rewrite <- le32_convert, of_le32_le32 by apply ConvertBetweenBigAndLittleEndian_range.
    by apply Convert_involutive.
Qed.

(** ** Growing the buffer *)

Lemma double_until_Some fuel c size c' :
  in_range 32 c -> double_until fuel c size = Some c' -> in_range 32 c' /\ size <= c'.
Proof.
  revert c. induction fuel as [|fuel IH]; intros c Hc H; simpl in H;
    destruct (Z.ltb_spec c size); simplify_eq; auto.
  apply IH in H; [done|]. by apply wrap_in_range.
Qed.

(** The loop ends for every size up to 2^31: one doubling per bit is enough. *)
Lemma double_until_ends fuel c size :
  0 < c -> c <= 2 ^ 31 -> size <= 2 ^ 31 -> 2 ^ 31 <= c * 2 ^ Z.of_nat fuel ->
  is_Some (double_until fuel c size).
Proof.
  revert c. induction fuel as [|fuel IH]; intros c Hc Hc' Hs Hf; simpl;
    destruct (Z.ltb_spec c size) as [Hlt|]; eauto; [lia|].
  assert (c < 2 ^ 31) by lia.
  rewrite wrap_small by (unfold in_range; lia).
  destruct (Z.le_gt_cases (c * 2) (2 ^ 31)).
  - apply IH; [lia|lia|lia|]. rewrite Nat2Z.inj_succ, Z.pow_succ_r in Hf by lia. lia.
  - destruct fuel; simpl; destruct (Z.ltb_spec (c * 2) size); eauto; lia.
Qed.

Lemma double_until_now fuel c size : size <= c -> double_until fuel c size = Some c.
Proof. intros H. destruct fuel; simpl; by replace (c <? size) with false by lia. Qed.

(** Once the capacity has wrapped to 0 it stays there. *)
Lemma double_until_zero fuel size : 0 < size -> double_until fuel 0 size = None.
Proof.
  intros Hs. induction fuel as [|fuel IH]; simpl; destruct (Z.ltb_spec 0 size); try lia; done.
Qed.

Lemma double_until_hangs_from fuel k size :
  2 ^ 31 < size -> 0 <= k <= 31 -> double_until fuel (2 ^ k) size = None.
Proof.
  intros Hs. revert k. induction fuel as [|fuel IH]; intros k Hk; simpl.
  all: assert (2 ^ k <= 2 ^ 31) by (apply Z.pow_le_mono_r; lia).
  all: destruct (Z.ltb_spec (2 ^ k) size); [|lia].
  { done. }
  destruct (decide (k = 31)) as [->|].
  - change (u32 (2 ^ 31 * 2)) with 0. apply double_until_zero. lia.
  - replace (2 ^ k * 2) with (2 ^ (k + 1)) by (rewrite Z.pow_add_r by lia; lia).
    rewrite wrap_small; [apply IH; lia|]. split; [lia|]. apply Z.pow_lt_mono_r; lia.
Qed.

(** ** Well-formed data *)

Definition valid_bytes (d : SerializedData) : list Z :=
  take (Z.to_nat (sd_size d)) (default [] (sd_buffer d)).

Record sd_wf (d : SerializedData) : Prop := {
  wf_size : 0 <= sd_size d <= sd_capacity d;
  wf_capacity : sd_capacity d < 2 ^ 32;
  wf_aligned : sd_size d `mod` 4 = 0;
  wf_buffer : Z.of_nat (length (default [] (sd_buffer d))) = sd_capacity d;
  wf_manager : forall mm, sd_memoryManager d = Some mm -> MemoryManagerLaws mm;
}.

Lemma valid_bytes_length d : sd_wf d -> Z.of_nat (length (valid_bytes d)) = sd_size d.
Proof. intros [? ? _ ? _]. unfold valid_bytes. rewrite length_take. lia. Qed.

(** The loop of SerializedDataEnlarge ends for every size up to 2^31. *)
Lemma enlarge_ends d size :
  sd_wf d -> sd_capacity d < size -> size <= 2 ^ 31 ->
  is_Some (double_until DOUBLING_FUEL (if sd_capacity d =? 0
    then SERIALIZED_DATA_DEFAULT_CAPACITY else u32 (sd_capacity d * 2)) size).
Proof.
  intros Hwf Hs Hle. pose proof (wf_size _ Hwf) as Hcap. destruct (Z.eqb_spec (sd_capacity d) 0).
  - apply double_until_ends; [done|done|lia|done].
  - rewrite wrap_small by (unfold in_range; lia).
    destruct (Z.le_gt_cases (sd_capacity d * 2) (2 ^ 31)).
    + apply double_until_ends; [lia|lia|lia|]. change (2 ^ Z.of_nat DOUBLING_FUEL) with (2 ^ 32). lia.
    + rewrite double_until_now by lia. eauto.
Qed.

Lemma SerializedDataEnlarge_wf d size d' :
  sd_wf d -> SerializedDataEnlarge d size = Enlarged d' ->
  sd_wf d' /\ sd_size d' = sd_size d /\ valid_bytes d' = valid_bytes d /\ size <= sd_capacity d' /\
  sd_memoryManager d' = sd_memoryManager d.
Proof.
  intros Hwf H. unfold SerializedDataEnlarge in H.
  destruct (Z.leb_spec size (sd_capacity d)) as [Hle|Hgt]; [by simplify_eq|].
  destruct (sd_memoryManager d) as [mm|] eqn:Emm; [|done].
  destruct (double_until _ _ size) as [c|] eqn:Ec; [|done].
  destruct Hwf as [Hs Hc Ha Hb Hm]. pose proof (Hm mm Emm) as Hlaws.
  apply double_until_Some in Ec as [Hcr Hcs].
  2: { destruct (_ =? 0); [done|]. by apply wrap_in_range. }
  destruct (match sd_buffer d with Some _ => _ | None => _ end) as [buf|] eqn:Eb; [|done]. simplify_eq.
  assert (Z.of_nat (length buf) = c) as Hlen.
  { destruct (sd_buffer d); [by eapply mm_realloc_length|by eapply mm_alloc_length]. }
  unfold in_range in Hcr. split_and!; auto; [split; simpl; try done; try lia; by intros ? [= <-]|].
  unfold valid_bytes. simpl. destruct (sd_buffer d) as [old|]; simpl in Hb |- *.
  - apply (mm_realloc_prefix old c); [done|lia|lia].
  - replace (Z.to_nat (sd_size d)) with 0%nat by lia. done.
Qed.

(** ** Writing items *)

Lemma write_at_length buf off bs :
  0 <= off -> off + Z.of_nat (length bs) <= Z.of_nat (length buf) ->
  length (write_at buf off bs) = length buf.
Proof.
  intros H0 H. unfold write_at. rewrite !length_app, length_take, length_drop. lia.
Qed.

Lemma write_at_take buf off bs :
  0 <= off -> off + Z.of_nat (length bs) <= Z.of_nat (length buf) ->
  take (Z.to_nat (off + Z.of_nat (length bs))) (write_at buf off bs) = take (Z.to_nat off) buf ++ bs.
Proof.
  intros H0 H. unfold write_at. rewrite app_assoc, take_app_length'; [done|].
  rewrite length_app, length_take. lia.
Qed.

(** One item: its length and its bytes. *)
Definition frame (p : list Z) : list Z := le32 (Z.of_nat (length p)) ++ p.

Definition item_ok (p : list Z) : Prop :=
  Z.of_nat (length p) `mod` 4 = 0 /\ Z.of_nat (length p) < 2 ^ 32.

Lemma frame_length p : Z.of_nat (length (frame p)) = 4 + Z.of_nat (length p).
Proof. unfold frame. rewrite length_app. simpl length. lia. Qed.

(** SerializedDataApplyForSegment followed by the caller's copy of the payload
    into the segment, as connection.cpp does. *)
Definition write_segment (little : bool) (d : SerializedData) (payload : list Z)
    : option SerializedData :=
  match SerializedDataApplyForSegment little d (Z.of_nat (length payload)) with
  | Some (off, d') =>
      Some (mkSerializedData (Some (write_at (default [] (sd_buffer d')) off payload))
              (sd_size d') (sd_capacity d') (sd_memoryManager d'))
  | None => None
  end.

Lemma write_segment_spec little d payload d' :
  sd_wf d -> sd_size d + 4 + Z.of_nat (length payload) <= 2 ^ 32 - 4 ->
  write_segment little d payload = Some d' ->
  sd_wf d' /\ exists pad, item_ok (payload ++ pad) /\ (length pad < 4)%nat /\
    valid_bytes d' = valid_bytes d ++ frame (payload ++ pad).
Proof.
  intros Hwf Hsz H. unfold write_segment, SerializedDataApplyForSegment in H.
  destruct (align_size_spec (Z.of_nat (length payload))) as (Ha & Ham & Hau); [pose proof (wf_size _ Hwf); lia|].
  set (n := align_size (Z.of_nat (length payload))) in *. unfold SERIALIZED_DATA_ALIGNMENT in H.
  pose proof (wf_size _ Hwf) as Hs0. pose proof (wf_aligned _ Hwf) as Hal.
  assert (sd_size d + 4 + n < 2 ^ 32) as Hfit by (Z.to_euclidean_division_equations; lia).
  rewrite wrap_small in H by (unfold in_range; lia).
  destruct (SerializedDataEnlarge d _) as [d1| |] eqn:E; [|done|done].
  apply SerializedDataEnlarge_wf in E as (Hwf1 & Es & Ev & Hcap & Em); [|done].
  rewrite stored_length, Es, wrap_small in H by (unfold in_range; lia). simplify_eq/=.
  set (buf := default [] (sd_buffer d1)) in *. set (buf1 := write_at buf (sd_size d) (le32 n)).
  set (buf2 := write_at buf1 (sd_size d + 4) payload).
  pose proof (wf_buffer _ Hwf1) as Hb1. fold buf in Hb1.
  assert (length buf1 = length buf) as L1 by (apply write_at_length; simpl length; lia).
  assert (length buf2 = length buf) as L2 by (rewrite <- L1; apply write_at_length; lia).
  split.
  { pose proof (wf_capacity _ Hwf1). split; simpl; try lia; fold buf1 buf2; try lia.
    - Z.to_euclidean_division_equations; lia.
    - apply (wf_manager _ Hwf1). }
  set (m := Z.to_nat (sd_size d + 4 + Z.of_nat (length payload))).
  set (pad := take (Z.to_nat (n - Z.of_nat (length payload))) (drop m buf2)).
  assert (length pad = Z.to_nat (n - Z.of_nat (length payload))) as Lp.
  { unfold pad, m. rewrite length_take, length_drop. lia. }
  assert (Z.of_nat (length (payload ++ pad)) = n) as Ln by (rewrite length_app; lia).
  exists pad. split; [by split; rewrite Ln|]. split; [lia|].
  rewrite <- Ev. unfold valid_bytes at 1. simpl. fold buf1 buf2.
  unfold frame. rewrite Ln.
  replace (Z.to_nat (sd_size d + 4 + n)) with (m + length pad)%nat by (unfold m; lia).
  rewrite <- take_take_drop, Lp. fold pad.
  unfold buf2 at 1, m. rewrite write_at_take by lia.
  unfold buf1. change (sd_size d + 4) with (sd_size d + Z.of_nat (length (le32 n))).
  rewrite write_at_take by (simpl length; lia). unfold valid_bytes. fold buf. rewrite Es.
  by rewrite <- !app_assoc.
Qed.

(** ** Reading items *)

Definition frames (ps : list (list Z)) : list Z := concat (frame <$> ps).

Lemma frames_cons p ps : frames (p :: ps) = frame p ++ frames ps.
Proof. done. Qed.

Lemma buffer_split d : default [] (sd_buffer d) =
  valid_bytes d ++ drop (Z.to_nat (sd_size d)) (default [] (sd_buffer d)).
Proof. unfold valid_bytes. by rewrite take_drop. Qed.

Lemma load_at_item little d pre p post :
  valid_bytes d = pre ++ frame p ++ post ->
  load_at little d (Z.of_nat (length pre)) = Some (native_load little (le32 (Z.of_nat (length p)))).
Proof.
  intros Hv. unfold load_at. rewrite buffer_split, Hv, Nat2Z.id. unfold frame.
  rewrite <- !app_assoc, drop_app_length. by rewrite take_app_length'.
Qed.

Lemma next_items_frames little d start pre ps post :
  sd_wf d -> valid_bytes d = pre ++ frames ps ++ post -> Forall item_ok ps ->
  next_items little d start (Z.of_nat (length pre)) (length ps)
    = ItemSize (u32 (u32 (Z.of_nat (length (pre ++ frames ps))) - start)).
Proof.
  intros Hwf. revert pre. induction ps as [|p ps IH]; intros pre Hv Hok.
  { unfold frames. simpl. by rewrite app_nil_r. }
  apply Forall_cons in Hok as [[Hm Hr] Hok]. rewrite frames_cons, <- app_assoc in Hv.
  cbn [length next_items]. rewrite (load_at_item little d pre p _ Hv).
  rewrite loaded_length by (unfold in_range; lia).
  rewrite land_mask_mod, Hm. simpl negb. cbn match.
  assert (Z.of_nat (length pre) + SERIALIZED_DATA_ALIGNMENT + Z.of_nat (length p)
    = Z.of_nat (length (pre ++ frame p))) as Ep.
  { rewrite length_app. pose proof (frame_length p). unfold SERIALIZED_DATA_ALIGNMENT. lia. }
  rewrite Ep. destruct (Z.ltb_spec (sd_size d) (Z.of_nat (length (pre ++ frame p)))) as [Hlt|_].
  { rewrite <- valid_bytes_length, Hv in Hlt by done. rewrite app_assoc, length_app in Hlt. lia. }
  rewrite IH; [|by rewrite <- app_assoc|done]. by rewrite frames_cons, app_assoc.
Qed.

Lemma NextSeveralItemSize_frames little d pre ps post :
  sd_wf d -> valid_bytes d = pre ++ frames ps ++ post -> Forall item_ok ps ->
  Z.of_nat (length pre) `mod` 4 = 0 ->
  SerializedDataNextSeveralItemSize little d (Z.of_nat (length pre)) (length ps)
    = ItemSize (Z.of_nat (length (frames ps))).
Proof.
  intros Hwf Hv Hok Hm. unfold SerializedDataNextSeveralItemSize.
  rewrite land_mask_mod, Hm. simpl negb. cbn match.
  rewrite (next_items_frames little d _ pre ps post) by done. f_equal.
  pose proof (valid_bytes_length d Hwf) as Hlen. rewrite Hv, app_assoc, length_app in Hlen.
  pose proof (wf_size _ Hwf). pose proof (wf_capacity _ Hwf). rewrite length_app in Hlen |- *.
  rewrite (wrap_small 32 (Z.of_nat (_ + _))) by (unfold in_range; lia).
  rewrite wrap_small by (unfold in_range; lia). lia.
Qed.

(** Writing several items, one after the other. *)
Fixpoint write_segments (little : bool) (d : SerializedData) (payloads : list (list Z))
    : option SerializedData :=
  match payloads with
  | [] => Some d
  | p :: ps =>
      match write_segment little d p with
      | Some d' => write_segments little d' ps
      | None => None
      end
  end.

Definition room (payloads : list (list Z)) : Z :=
  Z.of_nat (sum_list_with (fun p => 8 + length p)%nat payloads).

Lemma room_cons q qs : room (q :: qs) = 8 + Z.of_nat (length q) + room qs.
Proof. unfold room. cbn [sum_list_with]. lia. Qed.

Lemma room_nonneg qs : 0 <= room qs.
Proof. unfold room. lia. Qed.

(** [p] is [payload] with its padding. *)
Definition padded (payload p : list Z) : Prop :=
  exists pad, p = payload ++ pad /\ (length pad < 4)%nat /\ item_ok p.

Lemma write_segments_spec little d payloads d' :
  sd_wf d -> sd_size d + room payloads <= 2 ^ 32 - 4 -> write_segments little d payloads = Some d' ->
  sd_wf d' /\ exists ps, Forall2 padded payloads ps /\ valid_bytes d' = valid_bytes d ++ frames ps.
Proof.
  revert d. induction payloads as [|q qs IH]; intros d Hwf Hroom H; simpl in H; simplify_eq.
  { split; [done|]. exists []. split; [constructor|]. unfold frames. simpl. by rewrite app_nil_r. }
  destruct (write_segment little d q) as [d1|] eqn:E; [|done].
  rewrite room_cons in Hroom. pose proof (room_nonneg qs).
  apply write_segment_spec in E as (Hwf1 & pad & Hok & Hpad & Hv1); [|done|lia].
  assert (sd_size d1 = sd_size d + 4 + Z.of_nat (length (q ++ pad))) as Es.
  { rewrite <- (valid_bytes_length d1), Hv1, length_app by done.
    pose proof (valid_bytes_length d Hwf). pose proof (frame_length (q ++ pad)). lia. }
  rewrite length_app in Es. apply IH in H as (Hwf' & ps & Hps & Hv'); [|done|lia].
  split; [done|]. exists ((q ++ pad) :: ps). split.
  - constructor; [|done]. exists pad. auto.
  - by rewrite Hv', Hv1, frames_cons, app_assoc.
Qed.

Lemma padded_item_ok payloads ps : Forall2 padded payloads ps -> Forall item_ok ps.
Proof. induction 1 as [|? ? ? ? (pad & _ & _ & ?)]; auto. Qed.

Lemma frames_app ps qs : frames (ps ++ qs) = frames ps ++ frames qs.
Proof. unfold frames. by rewrite fmap_app, concat_app. Qed.

(** A memory manager that does not run out of memory. *)
Definition manager_gives (d : SerializedData) : Prop :=
  exists mm, sd_memoryManager d = Some mm /\ (forall n, in_range 32 n -> is_Some (mm_alloc mm n)) /\
    forall old n, in_range 32 n -> is_Some (mm_realloc mm old n).

Lemma enlarge_runs d size :
  sd_wf d -> manager_gives d -> size <= 2 ^ 31 -> exists d', SerializedDataEnlarge d size = Enlarged d'.
Proof.
  intros Hwf (mm & Hmm & Ha & Hr) Hs. unfold SerializedDataEnlarge. destruct (Z.leb_spec size (sd_capacity d)); [eauto|].
  rewrite Hmm. destruct (enlarge_ends d size Hwf) as [c Ec]; [lia|done|]. rewrite Ec.
  apply double_until_Some in Ec as [Hc _]; [|destruct (_ =? 0); [done|by apply wrap_in_range]].
  destruct (sd_buffer d) as [buf|]; [destruct (Hr buf c Hc) as [b ->]|destruct (Ha c Hc) as [b ->]]; eauto.
Qed.

Lemma write_segments_runs little d payloads :
  sd_wf d -> manager_gives d -> sd_size d + room payloads <= 2 ^ 31 -> is_Some (write_segments little d payloads).
Proof.
  revert d. induction payloads as [|q qs IH]; intros d Hwf Hg Hroom; [by eexists|].
  rewrite room_cons in Hroom. pose proof (room_nonneg qs). pose proof (wf_size _ Hwf).
  destruct (align_size_spec (Z.of_nat (length q))) as (Ha & Hb & _); [lia|].
  assert (exists d1, write_segment little d q = Some d1 /\ sd_memoryManager d1 = sd_memoryManager d) as (d1 & E & Em).
  { unfold write_segment, SerializedDataApplyForSegment, SERIALIZED_DATA_ALIGNMENT.
    destruct (enlarge_runs d (u32 (sd_size d + 4 + align_size (Z.of_nat (length q))))) as [d2 E2]; [done|done| |].
    { rewrite wrap_small by (unfold in_range; lia). lia. }
    rewrite E2. eexists. split; [done|]. apply SerializedDataEnlarge_wf in E2; [|done]. cbn. by destruct E2 as (_ & _ & _ & _ & ?). }
  cbn [write_segments]. rewrite E. apply write_segment_spec in E as (Hwf1 & pad & _ & Hpad & Hv); [|done|lia].
  apply IH; [done| |].
  - destruct Hg as (mm & Hmm & ?). exists mm. by rewrite Em.
  - rewrite <- (valid_bytes_length d1), Hv, length_app by done. pose proof (valid_bytes_length d Hwf).
    pose proof (frame_length (q ++ pad)) as Hf. rewrite length_app in Hf. lia.
Qed.

(** C22: what is written is read.  After any number of items have been written,
    the data holds the old bytes followed by the items, and on a machine of
    either byte order SerializedDataNextSeveralItemSize, started where the
    first of them begins, answers the exact size of any number of them. *)
Theorem serialized_roundtrip little little' d payloads d' :
  sd_wf d -> sd_size d + room payloads <= 2 ^ 32 - 4 ->
  write_segments little d payloads = Some d' ->
  sd_wf d' /\ exists ps, Forall2 padded payloads ps /\
    valid_bytes d' = valid_bytes d ++ frames ps /\
    forall n, (n <= length ps)%nat ->
      SerializedDataNextSeveralItemSize little' d' (sd_size d) n
        = ItemSize (Z.of_nat (length (frames (take n ps)))).
Proof.
  intros Hwf Hroom H.
  destruct (write_segments_spec little d payloads d' Hwf Hroom H) as (Hwf' & ps & Hps & Hv).
  split; [done|]. exists ps. split_and!; [done|done|]. intros n Hn.
  rewrite <- (valid_bytes_length d) by done.
  replace n with (length (take n ps)) at 1 by (rewrite length_take; lia).
  eapply (NextSeveralItemSize_frames little' d' _ _ (frames (drop n ps))); [done| | |].
  - by rewrite Hv, <- frames_app, take_drop.
  - apply Forall_take. by eapply padded_item_ok.
  - rewrite valid_bytes_length by done. apply wf_aligned, Hwf.
Qed.

(** SerializedDataAppend puts the items of one message after those of
    another: the valid bytes are concatenated and the result is well formed. *)
Theorem SerializedDataAppend_correct dest src d' :
  sd_wf dest -> sd_wf src -> sd_size dest + sd_size src < 2 ^ 32 ->
  SerializedDataAppend dest src = Some d' ->
  sd_wf d' /\ valid_bytes d' = valid_bytes dest ++ valid_bytes src.
Proof.
  intros Hd Hs Hsum H. unfold SerializedDataAppend in H.
  pose proof (wf_size _ Hd). pose proof (wf_size _ Hs).
  rewrite wrap_small in H by (unfold in_range; lia).
  destruct (SerializedDataEnlarge dest _) as [d1| |] eqn:E; [|done|done].
  apply SerializedDataEnlarge_wf in E as (Hwf1 & Es & Ev & Hcap & Em); [|done].
  rewrite Es, wrap_small in H by (unfold in_range; lia). simplify_eq/=.
  fold (valid_bytes src). pose proof (valid_bytes_length src Hs) as Ls.
  pose proof (wf_buffer _ Hwf1) as Hb. split.
  - pose proof (wf_aligned _ Hd). pose proof (wf_aligned _ Hs). pose proof (wf_capacity _ Hwf1).
    split; simpl; try lia.
    + Z.to_euclidean_division_equations; lia.
    + rewrite write_at_length by lia. done.
    + apply (wf_manager _ Hwf1).
  - rewrite <- Ev. unfold valid_bytes at 1. simpl. rewrite <- Ls, write_at_take by lia.
    unfold valid_bytes at 2. by rewrite Es.
Qed.

(** C35: SerializedDataEnlarge returns for every size up to 2^31; asked for more
    on data without a buffer, it doubles a 32-bit capacity past 2^31 to 0 and
    its loop runs forever, whatever number of rounds it is given. *)
Theorem SerializedDataEnlarge_termination d size :
  sd_wf d -> 0 <= size < 2 ^ 32 ->
  (size <= 2 ^ 31 -> SerializedDataEnlarge d size <> EnlargeHangs) /\
  (2 ^ 31 < size -> sd_capacity d = 0 -> is_Some (sd_memoryManager d) ->
    SerializedDataEnlarge d size = EnlargeHangs /\
    forall fuel, double_until fuel SERIALIZED_DATA_DEFAULT_CAPACITY size = None).
Proof.
  intros Hwf Hs. split.
  - intros Hle H. unfold SerializedDataEnlarge in H.
    destruct (Z.leb_spec size (sd_capacity d)); [done|].
    destruct (sd_memoryManager d) as [mm|]; [|done].
    destruct (double_until _ _ size) eqn:E.
    { by destruct (match sd_buffer d with Some _ => _ | None => _ end). }
    destruct (enlarge_ends d size Hwf); [lia|lia|congruence].
  - intros Hgt Hc [mm Hmm].
    assert (forall fuel, double_until fuel SERIALIZED_DATA_DEFAULT_CAPACITY size = None) as Hall.
    { intros fuel. by apply (double_until_hangs_from fuel 7). }
    split; [|done]. unfold SerializedDataEnlarge. rewrite Hc, Hmm.
    replace (size <=? 0) with false by lia. rewrite Z.eqb_refl. by rewrite Hall.
Qed.

(** The length of an item is loaded before the bound is checked.  When the
    buffer is exactly as long as its valid bytes, asking for more items than it
    holds loads four bytes from outside the buffer. *)
Theorem NextSeveralItemSize_overreads little d pre ps n :
  sd_wf d -> sd_capacity d = sd_size d -> valid_bytes d = pre ++ frames ps -> Forall item_ok ps ->
  Z.of_nat (length pre) `mod` 4 = 0 -> (length ps < n)%nat ->
  SerializedDataNextSeveralItemSize little d (Z.of_nat (length pre)) n = OutOfBounds.
Proof.
  intros Hwf Hcap Hv Hok Hm Hn. unfold SerializedDataNextSeveralItemSize.
  rewrite land_mask_mod, Hm. simpl negb. cbn match.
  generalize (Z.of_nat (length pre)) at 1 as start. intros start.
  revert pre n Hv Hm Hn. induction ps as [|p ps IH]; intros pre [|n] Hv Hm Hn; simpl in Hn; try lia.
  - cbn [next_items]. unfold load_at. rewrite bool_decide_eq_false_2; [done|].
    rewrite length_take, length_drop, Nat2Z.id. pose proof (valid_bytes_length d Hwf) as Hl.
    pose proof (wf_buffer _ Hwf). rewrite Hv in Hl. unfold frames in Hl. simpl in Hl.
    rewrite app_nil_r in Hl. lia.
  - apply Forall_cons in Hok as [[Hpm Hpr] Hok]. rewrite frames_cons in Hv.
    cbn [next_items]. rewrite (load_at_item little d pre p (frames ps) Hv).
    rewrite loaded_length by (unfold in_range; lia).
    rewrite land_mask_mod, Hpm. simpl negb. cbn match.
    assert (Z.of_nat (length pre) + SERIALIZED_DATA_ALIGNMENT + Z.of_nat (length p)
      = Z.of_nat (length (pre ++ frame p))) as Ep.
    { rewrite length_app. pose proof (frame_length p). unfold SERIALIZED_DATA_ALIGNMENT. lia. }
    rewrite Ep. destruct (Z.ltb_spec (sd_size d) (Z.of_nat (length (pre ++ frame p)))) as [Hlt|_].
    { rewrite <- valid_bytes_length, Hv in Hlt by done. rewrite app_assoc, length_app in Hlt. lia. }
    apply IH; [done|by rewrite <- app_assoc| |lia].
    rewrite <- Ep. unfold SERIALIZED_DATA_ALIGNMENT. Z.to_euclidean_division_equations; lia.
Qed.

(** ** Instances *)

(** A memory manager that hands out zeroed memory. *)
Definition zero_manager : MemoryManager :=
  mkMemoryManager (fun n => if 0 <=? n then Some (replicate (Z.to_nat n) 0) else None)
    (fun old n => if 0 <=? n
                  then Some (take (Z.to_nat n) (old ++ replicate (Z.to_nat n) 0)) else None).

#[export] Instance zero_manager_laws : MemoryManagerLaws zero_manager.
Proof.
  split; simpl.
  - intros n buf. destruct (Z.leb_spec 0 n); intros [= <-]. rewrite length_replicate. lia.
  - intros old n buf. destruct (Z.leb_spec 0 n); intros [= <-].
    rewrite length_take, length_app, length_replicate. lia.
  - intros old n buf k. destruct (Z.leb_spec 0 n); intros [= <-] Hk Hn.
    rewrite take_take, Nat.min_l, take_app_le by lia. done.
Qed.

Definition empty_data : SerializedData := mkSerializedData None 0 0 (Some zero_manager).

Lemma empty_data_init : SerializedDataInit None 0 0 (Some zero_manager) zero_manager = Some empty_data.
Proof. done. Qed.

Lemma empty_data_wf : sd_wf empty_data.
Proof. split; simpl; try lia; try done. intros mm [= <-]. apply _. Qed.

Lemma serialized_roundtrip_witness :
  exists d', write_segments true empty_data [[1; 2; 3; 4; 5]; [7]] = Some d' /\
    SerializedDataNextSeveralItemSize false d' 0 2 = ItemSize 20.
Proof.
  eexists. split; [reflexivity|].
  match goal with |- SerializedDataNextSeveralItemSize _ ?d _ _ = _ =>
    destruct (serialized_roundtrip true false empty_data [[1; 2; 3; 4; 5]; [7]] d empty_data_wf
      ltac:(vm_compute; congruence) eq_refl) as (_ & ps & Hps & _ & Hread) end.
  pose proof (Forall2_length _ _ _ Hps) as Hl. simpl in Hl.
  etransitivity; [apply (Hread 2%nat); lia|]. f_equal.
  destruct ps as [|p1 [|p2 [|]]]; simpl in Hl; try lia.
  apply Forall2_cons in Hps as [(pad1 & -> & Hp1 & Hm1 & _) Hps].
  apply Forall2_cons in Hps as [(pad2 & -> & Hp2 & Hm2 & _) _].
  rewrite length_app in Hm1, Hm2. simpl length in Hm1, Hm2.
  unfold frames, frame. simpl. rewrite ?length_app. simpl. rewrite ?length_app. simpl.
  Z.to_euclidean_division_equations; lia.
Defined.

Definition eight_bytes : SerializedData :=
  mkSerializedData (Some (frame [1; 2; 3; 4])) 8 8 None.

Lemma eight_bytes_wf : sd_wf eight_bytes.
Proof. split; simpl; try lia; done. Qed.

Lemma SerializedDataAppend_correct_witness :
  exists d', SerializedDataAppend empty_data eight_bytes = Some d' /\
    valid_bytes d' = frame [1; 2; 3; 4].
Proof.
  eexists. split; [reflexivity|].
  etransitivity;
    [apply (SerializedDataAppend_correct empty_data eight_bytes _ empty_data_wf eight_bytes_wf); done|].
  reflexivity.
Defined.

Lemma SerializedDataEnlarge_termination_witness :
  SerializedDataEnlarge empty_data 1000 <> EnlargeHangs /\
  SerializedDataEnlarge empty_data (2 ^ 31 + 4) = EnlargeHangs.
Proof.
  split.
  - apply (SerializedDataEnlarge_termination empty_data 1000 empty_data_wf); lia.
  - apply (SerializedDataEnlarge_termination empty_data (2 ^ 31 + 4) empty_data_wf); try lia; done.
Defined.

Lemma NextSeveralItemSize_overreads_witness :
  SerializedDataNextSeveralItemSize true eight_bytes 0 2 = OutOfBounds.
Proof.
  apply (NextSeveralItemSize_overreads true eight_bytes [] [[1; 2; 3; 4]] 2 eight_bytes_wf);
    [done|done|repeat constructor|done|simpl; lia].
Defined.
