(* ===== verification/InodeId.v ===== *)
(** * Inode numbers (falcon/utils/path_parse.c, falcon/utils/utils.c)

    Each server has one database sequence with increment 32; a backend takes a
    block of 32 numbers at a time and hands them out one by one.  An inode
    number is such a number shifted over the 12-bit number of the server. *)

From S2P Require Import FalconPrelude.

(** The increment of pg_dfs_inodeid_seq in falcon--1.0.sql, which is also the
    number of values a backend takes from one call of nextval. *)
Definition SEQUENCE_BLOCK : Z := 32.

(** The static variables of GetNextSequenceNum. *)
Record seq_cache : Type := mkSeqCache {
  remainNumberCount : Z;
  currentSequenceNumber : Z;
}.

Definition empty_cache : seq_cache := mkSeqCache 0 0.

(** [next] is the value the next call of nextval on the sequence returns. *)
Definition GetNextSequenceNum (next : Z) (c : seq_cache) : Z * Z * seq_cache :=
  let '(next', c') :=
    if remainNumberCount c =? 0
    then (next + SEQUENCE_BLOCK, mkSeqCache 32 next)
    else (next, c) in
  (currentSequenceNumber c', next',
   mkSeqCache (remainNumberCount c' - 1) (u64 (currentSequenceNumber c' + 1))).

Definition GenerateInodeIdBySeqAndNodeId (seq nodeId : Z) : Z :=
  Z.lor (u64 (Z.shiftl seq 12)) (Z.land nodeId 0xFFF).

(** ** Many backends of one server

    [run sched] lets the backends named by [sched] call GetNextSequenceNum one
    after the other and lists what they get. *)
Fixpoint run (sched : list nat) (next : Z) (cs : list seq_cache) : list Z :=
  match sched with
  | [] => []
  | i :: sched' =>
      match cs !! i with
      | None => run sched' next cs
      | Some c =>
          let '(v, next', c') := GetNextSequenceNum next c in
          v :: run sched' next' (<[i := c']> cs)
      end
  end.

(** The numbers a backend still has. *)
Definition in_block (c : seq_cache) (v : Z) : Prop :=
  currentSequenceNumber c <= v < currentSequenceNumber c + remainNumberCount c.

Record caches_ok (next : Z) (cs : list seq_cache) : Prop := {
  co_next : 0 <= next;
  co_remain : forall i c, cs !! i = Some c -> 0 <= remainNumberCount c;
  co_below : forall i c v, cs !! i = Some c -> in_block c v -> 0 <= v < next;
  co_disjoint : forall i j c c' v, cs !! i = Some c -> cs !! j = Some c' ->
    in_block c v -> in_block c' v -> i = j;
}.

(** A call returns a number nobody has, and leaves the blocks disjoint. *)
Lemma GetNextSequenceNum_step next cs i c v next' c' :
  caches_ok next cs -> next + SEQUENCE_BLOCK < 2 ^ 63 -> cs !! i = Some c ->
  GetNextSequenceNum next c = (v, next', c') ->
  caches_ok next' (<[i := c']> cs) /\ 0 <= v < next' /\
  (next' = next \/ next' = next + SEQUENCE_BLOCK) /\
  (forall w, w < next -> (forall j d, cs !! j = Some d -> ~ in_block d w) -> w <> v) /\
  (forall j d w, <[i := c']> cs !! j = Some d -> in_block d w ->
     w <> v /\ (next <= w \/ exists j d', cs !! j = Some d' /\ in_block d' w)).
Proof.
  intros [Hn Hr Hb Hd] Hmax Hi H. unfold GetNextSequenceNum, SEQUENCE_BLOCK in *.
  set (c1 := if remainNumberCount c =? 0 then mkSeqCache 32 next else c).
  set (n1 := if remainNumberCount c =? 0 then next + 32 else next).
  assert (v = currentSequenceNumber c1 /\ next' = n1 /\
    c' = mkSeqCache (remainNumberCount c1 - 1) (u64 (currentSequenceNumber c1 + 1))) as (-> & -> & ->).
  { unfold c1, n1. destruct (_ =? 0); by simplify_eq. } clear H.
  assert (0 < remainNumberCount c1 /\ (forall w, in_block c1 w -> 0 <= w < n1) /\ next <= n1 /\
    (n1 = next \/ n1 = next + 32) /\
    forall w, in_block c1 w -> next <= w \/ in_block c w) as (Hpos & Hbelow & Hn1 & Hn2 & Hfrom).
  { unfold c1, n1, in_block. pose proof (Hr i c Hi). pose proof (Hb i c) as Hbi.
    destruct (Z.eqb_spec (remainNumberCount c) 0); simpl; split_and!; try lia; intros w Hw; auto; lia. }
  assert (0 <= currentSequenceNumber c1 < n1) as Hc1 by (apply Hbelow; unfold in_block; lia).
  rewrite wrap_small by (unfold in_range; lia).
  assert (forall w, in_block (mkSeqCache (remainNumberCount c1 - 1) (currentSequenceNumber c1 + 1)) w ->
    in_block c1 w /\ w <> currentSequenceNumber c1) as Hsub.
  { unfold in_block. simpl. intros; lia. }
  assert (forall j d w, j <> i -> cs !! j = Some d -> in_block d w -> ~ in_block c1 w) as Hother.
  { intros j d w Hji Hj Hw Hw1. pose proof (Hb j d w Hj Hw). destruct (Hfrom w Hw1); [lia|].
    apply Hji. by eapply Hd. }
  set (cs' := <[i := _]> cs).
  assert (forall j d, cs' !! j = Some d -> (j <> i /\ cs !! j = Some d) \/
    (j = i /\ d = mkSeqCache (remainNumberCount c1 - 1) (currentSequenceNumber c1 + 1))) as Hcs.
  { intros j d Hj. unfold cs' in Hj. apply list_lookup_insert_Some in Hj as [(-> & <- & _)|[? ?]]; auto. }
  split; [split; [lia|..]|split; [lia|split; [done|split]]].
  - intros j d Hj. destruct (Hcs j d Hj) as [[_ Hj']|[_ ->]]; [by eapply Hr|simpl; lia].
  - intros j d w Hj Hw. destruct (Hcs j d Hj) as [[_ Hj']|[_ ->]].
    + pose proof (Hb j d w Hj' Hw). lia.
    + apply Hbelow, Hsub, Hw.
  - intros j k d d' w Hj Hk Hw Hw'.
    destruct (Hcs j d Hj) as [[Hji Hj']|[-> ->]], (Hcs k d' Hk) as [[Hki Hk']|[-> ->]]; auto.
    + by eapply Hd.
    + destruct (Hother j d w Hji Hj' Hw). by apply Hsub.
    + destruct (Hother k d' w Hki Hk' Hw'). by apply Hsub.
  - intros w Hw Hnot ->. assert (in_block c1 (currentSequenceNumber c1)) as H1 by (unfold in_block; lia).
    destruct (Hfrom _ H1); [lia|]. by apply (Hnot i c).
  - intros j d w0 Hj Hw0. destruct (Hcs _ _ Hj) as [[Hji Hj']|[-> ->]].
    + split; [|eauto]. intros ->. apply (Hother _ _ _ Hji Hj' Hw0). unfold in_block. lia.
    + apply Hsub in Hw0 as [H1 H2]. split; [done|]. destruct (Hfrom _ H1); eauto.
Qed.

Lemma run_fresh sched next cs :
  caches_ok next cs -> next + SEQUENCE_BLOCK * Z.of_nat (length sched) < 2 ^ 63 ->
  NoDup (run sched next cs) /\
  forall v, v ∈ run sched next cs ->
    (next <= v \/ exists j d, cs !! j = Some d /\ in_block d v) /\
    0 <= v < next + SEQUENCE_BLOCK * Z.of_nat (length sched).
Proof.
  revert next cs. induction sched as [|i sched IH]; intros next cs Hok Hmax; simpl.
  { split; [constructor|]. intros v Hv. by apply not_elem_of_nil in Hv. }
  simpl length in Hmax. rewrite Nat2Z.inj_succ in Hmax |- *. unfold SEQUENCE_BLOCK in *.
  destruct (cs !! i) as [c|] eqn:Hi.
  2: { destruct (IH next cs Hok ltac:(lia)) as [Hnd Hall]. split; [done|].
       intros v Hv. destruct (Hall v Hv). split; [done|lia]. }
  destruct (GetNextSequenceNum next c) as [[v next'] c'] eqn:E.
  destruct (GetNextSequenceNum_step next cs i c v next' c' Hok) as (Hok' & Hv & Hn & Hfresh & Hrest);
    [unfold SEQUENCE_BLOCK; lia|done|done|]. unfold SEQUENCE_BLOCK in *.
  destruct (IH next' (<[i := c']> cs) Hok' ltac:(lia)) as [Hnd Hall].
  split.
  - constructor; [|done]. intros Hin. destruct (Hall v Hin) as [[Hle|(j & d & Hj & Hb)] _]; [lia|].
    by destruct (Hrest j d v Hj Hb) as [[] _].
  - intros w Hw. apply elem_of_cons in Hw as [-> | Hw].
    + split; [|lia]. destruct (Z.le_gt_cases next v); [by left|]. right.
      destruct (decide (Exists (fun d => in_block d v) cs)) as [Hex|Hno].
      * apply Exists_exists in Hex as (d & Hd & Hb). apply list_elem_of_lookup in Hd as [j Hj]. eauto.
      * exfalso. apply (Hfresh v); [done| |done]. intros j d Hj Hb. apply Hno, Exists_exists.
        exists d. split; [by eapply list_elem_of_lookup_2|done].
    + destruct (Hall w Hw) as [[Hle|(j & d & Hj & Hb)] Hbound].
      * split; [left; lia|lia].
      * destruct (Hrest j d w Hj Hb) as [_ ?]. split; [done|lia].
Qed.

Lemma initial_caches k : caches_ok 1 (replicate k empty_cache).
Proof.
  split; [lia| | |].
  - intros i c Hi. apply lookup_replicate in Hi as [-> _]. simpl. lia.
  - intros i c v Hi Hb. apply lookup_replicate in Hi as [-> _]. unfold in_block in Hb. simpl in Hb. lia.
  - intros i j c c' v Hi _ Hb. apply lookup_replicate in Hi as [-> _].
    unfold in_block in Hb. simpl in Hb. lia.
Qed.

Lemma GenerateInodeId_sum seq nodeId :
  0 <= seq < 2 ^ 52 -> 0 <= nodeId < 2 ^ 12 ->
  GenerateInodeIdBySeqAndNodeId seq nodeId = seq * 2 ^ 12 + nodeId.
Proof.
  intros Hs Hn. unfold GenerateInodeIdBySeqAndNodeId. change 0xFFF with (Z.ones 12).
  rewrite Z.land_ones, Z.mod_small by lia.
  rewrite Z.shiftl_mul_pow2, wrap_small by (unfold in_range; lia).
  rewrite <- Z.lxor_lor, <- Z.add_nocarry_lxor; [done| |]; apply Z.bits_inj'; intros i Hi;
    rewrite Z.land_spec, Z.testbit_0_l, <- Z.shiftl_mul_pow2, Z.shiftl_spec by lia;
    (destruct (Z.lt_ge_cases i 12);
      [by rewrite Z.testbit_neg_r by lia
      |rewrite (in_range_testbit_high 12 nodeId) by (done || lia); apply andb_false_r]).
Qed.

(** One server: its number, how many backends it has and who asks when. *)
Record server : Type := mkServer { nodeId : Z; backends : nat; schedule : list nat }.

Definition inode_ids (s : server) : list Z :=
  (fun seq => GenerateInodeIdBySeqAndNodeId seq (nodeId s)) <$>
  run (schedule s) 1 (replicate (backends s) empty_cache).

Definition server_ok (s : server) : Prop :=
  0 <= nodeId s < 2 ^ 12 /\ 1 + SEQUENCE_BLOCK * Z.of_nat (length (schedule s)) <= 2 ^ 52.

Lemma inode_ids_spec s :
  server_ok s -> NoDup (inode_ids s) /\
  forall id, id ∈ inode_ids s -> exists seq, id = seq * 2 ^ 12 + nodeId s.
Proof.
  intros [Hn Hlen]. unfold SEQUENCE_BLOCK in *.
  destruct (run_fresh (schedule s) 1 (replicate (backends s) empty_cache)) as [Hnd Hall].
  { apply initial_caches. } { unfold SEQUENCE_BLOCK. lia. } unfold SEQUENCE_BLOCK in *.
  assert (forall seq, seq ∈ run (schedule s) 1 (replicate (backends s) empty_cache) ->
    GenerateInodeIdBySeqAndNodeId seq (nodeId s) = seq * 2 ^ 12 + nodeId s) as Hgen.
  { intros seq Hs. destruct (Hall seq Hs). apply GenerateInodeId_sum; lia. }
  split.
  - unfold inode_ids. revert Hnd Hgen. clear. generalize (run (schedule s) 1 (replicate (backends s) empty_cache)).
    induction 1 as [|x l Hx Hnd IH]; intros Hgen; simpl; constructor.
    + intros Hin. apply list_elem_of_fmap in Hin as (y & Ey & Hy).
      rewrite !Hgen in Ey by (by (left || right)). assert (x = y) as -> by lia. done.
    + apply IH. intros seq Hs. apply Hgen. by right.
  - intros id Hid. apply list_elem_of_fmap in Hid as (seq & -> & Hs). exists seq. by apply Hgen.
Qed.

(** C21: inode numbers are unique in the cluster.  Whatever the order in which
    the backends of the servers ask, all inode numbers generated are different,
    as long as the servers have different 12-bit numbers and no sequence runs
    past 2^52. *)
Theorem inode_ids_unique (servers : list server) :
  Forall server_ok servers -> NoDup (nodeId <$> servers) -> NoDup (concat (inode_ids <$> servers)).
Proof.
  induction servers as [|s servers IH]; intros Hok Hnd; simpl; [constructor|].
  apply Forall_cons in Hok as [Hs Hok]. simpl in Hnd. apply NoDup_cons in Hnd as [Hnot Hnd].
  destruct (inode_ids_spec s Hs) as [Hnds Hids].
  apply NoDup_app. split_and!; [done| |by apply IH].
  intros id Hid Hin. apply list_elem_of_In, in_concat in Hin as (ids & Hids' & Hin).
  apply list_elem_of_In in Hids', Hin.
  apply list_elem_of_fmap in Hids' as (t & -> & Ht).
  pose proof (proj1 (Forall_forall _ _) Hok t Ht) as Hokt.
  destruct (inode_ids_spec t Hokt) as [_ Hidt].
  destruct (Hids id Hid) as [q1 E1], (Hidt id Hin) as [q2 E2].
  destruct Hs as [? _], Hokt as [? _]. apply Hnot. apply list_elem_of_fmap. exists t. split; [|done]. lia.
Qed.

Lemma inode_ids_unique_witness :
  NoDup (concat (inode_ids <$> [mkServer 0 2 [0; 1; 0; 1]%nat; mkServer 1 1 [0; 0]%nat])) /\
  inode_ids (mkServer 1 1 [0; 0]%nat) = [4097; 8193].
Proof.
  split; [|reflexivity].
  apply (inode_ids_unique [mkServer 0 2 [0; 1; 0; 1]%nat; mkServer 1 1 [0; 0]%nat]).
  - repeat constructor; vm_compute; congruence.
  - apply NoDup_cons. split; [|apply NoDup_singleton]. simpl. intros H.
    by apply list_elem_of_singleton in H.
Defined.
