(* ===== verification/PathCmp.v ===== *)
(** * The order of paths (falcon/utils/utils_standalone.c)

    pathcmp is the order in which a batch of paths is processed and locked. *)

From Stdlib Require Import Ascii.
From S2P Require Import FalconPrelude.

(** The code of an unsigned char; the end of the string is the NUL character. *)
Definition char_code (c : ascii) : Z := Z.of_nat (nat_of_ascii c).
Definition SLASH : ascii := "/"%char.

(** A C string has no NUL inside. *)
Fixpoint no_nul (s : string) : bool :=
  match s with
  | EmptyString => true
  | String c s' => negb (char_code c =? 0) && no_nul s'
  end.

Definition head_code (s : string) : Z :=
  match s with EmptyString => 0 | String c _ => char_code c end.

(** The loop runs once per character of [p1] and leaves at its NUL. *)
Fixpoint pathcmp (p1 p2 : string) : Z :=
  match p1 with
  | EmptyString => 0 - head_code p2
  | String a p1' =>
      let c1 := char_code a in
      let c2 := head_code p2 in
      if c1 =? c2 then
        match p2 with
        | EmptyString => 0
        | String _ p2' => pathcmp p1' p2'
        end
      else if (c2 =? 0) || (c2 =? char_code SLASH) then 1
      else if c1 =? char_code SLASH then -1
      else c1 - c2
  end.

(** ** A lexicographic order

    The end of the path ranks lowest, then the separator, then the other
    characters by code. *)
Definition rank (c : ascii) : Z := if char_code c =? char_code SLASH then 1 else char_code c + 2.

Fixpoint ranks (s : string) : list Z :=
  match s with
  | EmptyString => []
  | String c s' => rank c :: ranks s'
  end.

Fixpoint lex (l1 l2 : list Z) : comparison :=
  match l1 with
  | x :: l1' => match l2 with y :: l2' => match x ?= y with Eq => lex l1' l2' | c => c end | [] => Gt end
  | [] => match l2 with _ :: _ => Lt | [] => Eq end
  end.

Lemma char_code_bound c : 0 <= char_code c < 256.
Proof. unfold char_code. pose proof (nat_ascii_bounded c). lia. Qed.

Lemma char_code_inj c d : char_code c = char_code d -> c = d.
Proof.
  unfold char_code. intros H. apply Nat2Z.inj in H.
  by rewrite <- (ascii_nat_embedding c), H, ascii_nat_embedding.
Qed.

Lemma rank_inj c d : rank c = rank d -> c = d.
Proof.
  unfold rank. pose proof (char_code_bound c). pose proof (char_code_bound d).
  destruct (Z.eqb_spec (char_code c) (char_code SLASH)), (Z.eqb_spec (char_code d) (char_code SLASH));
    intros; try lia; apply char_code_inj; lia.
Qed.

Lemma ranks_inj s t : ranks s = ranks t -> s = t.
Proof.
  revert t. induction s as [|c s IH]; intros [|d t] H; simplify_eq/=; [done|].
  by rewrite (rank_inj c d), (IH t).
Qed.

Lemma lex_refl l : lex l l = Eq.
Proof. induction l as [|x l IH]; simpl; [done|]. by rewrite Z.compare_refl. Qed.

Lemma lex_eq l1 l2 : lex l1 l2 = Eq -> l1 = l2.
Proof.
  revert l2. induction l1 as [|x l1 IH]; intros [|y l2] H; simplify_eq/=; [done|].
  destruct (Z.compare_spec x y); simplify_eq. f_equal. auto.
Qed.

Lemma lex_antisym l1 l2 : lex l2 l1 = CompOpp (lex l1 l2).
Proof.
  revert l2. induction l1 as [|x l1 IH]; intros [|y l2]; simpl; try done.
  rewrite (Z.compare_antisym x y). destruct (x ?= y); simpl; auto.
Qed.

Lemma lex_trans l1 l2 l3 : lex l1 l2 = Lt -> lex l2 l3 = Lt -> lex l1 l3 = Lt.
Proof.
  revert l2 l3. induction l1 as [|x l1 IH]; intros [|y l2] [|z l3] H1 H2; simplify_eq/=; try done.
  destruct (Z.compare_spec x y), (Z.compare_spec y z), (Z.compare_spec x z); simplify_eq; try lia; eauto.
Qed.

Lemma lex_prefix l x k : lex l (l ++ x :: k) = Lt.
Proof. induction l as [|y l IH]; simpl; [done|]. by rewrite Z.compare_refl. Qed.

(** pathcmp computes that order. *)
Lemma pathcmp_lex p1 p2 :
  no_nul p1 = true -> no_nul p2 = true -> (pathcmp p1 p2 ?= 0) = lex (ranks p1) (ranks p2).
Proof.
  revert p2. induction p1 as [|a p1 IH]; intros p2 H1 H2; simpl.
  { destruct p2 as [|b p2]; simpl in *; [done|]. bool_to_prop.
    pose proof (char_code_bound b). apply Z.compare_lt_iff. lia. }
  simpl in H1. bool_to_prop. pose proof (char_code_bound a).
  destruct p2 as [|b p2]; simpl in *.
  { by destruct (Z.eqb_spec (char_code a) 0). }
  bool_to_prop. pose proof (char_code_bound b). unfold rank at 1 2.
  destruct (Z.eqb_spec (char_code a) (char_code b)) as [E|E].
  - rewrite IH by done. rewrite <- E. by rewrite Z.compare_refl.
  - destruct (Z.eqb_spec (char_code b) 0); [lia|]. simpl.
    destruct (Z.eqb_spec (char_code b) (char_code SLASH)), (Z.eqb_spec (char_code a) (char_code SLASH));
      try lia; match goal with |- context [match ?x ?= ?y with _ => _ end] =>
        destruct (Z.compare_spec x y) end; try lia; try done;
      first [apply Z.compare_lt_iff; lia | apply Z.compare_gt_iff; lia].
Qed.

(** Pathcmp orders paths.  Its sign is antisymmetric and transitive and it
    is 0 only on equal paths, so it is a total order; a directory comes before
    everything below it, and whatever comes between two paths below a
    directory is below that directory too. *)
Theorem pathcmp_order p q r :
  no_nul p = true -> no_nul q = true -> no_nul r = true ->
  (pathcmp p q = 0 <-> p = q) /\
  (pathcmp p q < 0 <-> 0 < pathcmp q p) /\
  (pathcmp p q < 0 -> pathcmp q r < 0 -> pathcmp p r < 0) /\
  (forall t, no_nul t = true -> pathcmp p (p +:+ String SLASH t) < 0) /\
  (forall t u, no_nul t = true -> no_nul u = true ->
     pathcmp (p +:+ String SLASH t) q < 0 -> pathcmp q (p +:+ String SLASH u) < 0 ->
     exists v, q = p +:+ String SLASH v).
Proof.
  intros Hp Hq Hr.
  assert (forall s t, no_nul s = true -> no_nul t = true ->
    (pathcmp s t < 0 <-> lex (ranks s) (ranks t) = Lt)) as Hlt.
  { intros s t Hs Ht. by rewrite <- pathcmp_lex, Z.compare_lt_iff by done. }
  assert (forall s t, ranks (s +:+ String SLASH t) = ranks s ++ 1 :: ranks t) as Happ.
  { intros s t. induction s as [|c s IH]; simpl; [done|]. by rewrite IH. }
  assert (forall s t, no_nul s = true -> no_nul t = true -> no_nul (s +:+ String SLASH t) = true) as Hnn.
  { intros s t. induction s as [|c s IH]; simpl; intros Hs Ht; [done|].
    bool_to_prop. rewrite IH by done. by apply andb_true_intro; split; [apply negb_true_iff, Z.eqb_neq|]. }
  split_and!.
  - split; [|intros ->].
    + intros H. apply ranks_inj, lex_eq. by rewrite <- pathcmp_lex, H by done.
    + apply Z.compare_eq_iff. by rewrite pathcmp_lex, lex_refl.
  - rewrite Hlt by done. rewrite <- Z.compare_gt_iff, pathcmp_lex by done.
    rewrite (lex_antisym (ranks p) (ranks q)). by destruct (lex (ranks p) (ranks q)).
  - rewrite !Hlt by done. apply lex_trans.
  - intros t Ht. rewrite Hlt, Happ by auto. apply lex_prefix.
  - intros t u Ht Hu. rewrite !Hlt, !Happ by auto. clear Hlt Hnn Hp Hr Hq.
    revert q. induction p as [|c p IH]; intros [|d q] H1 H2;
      cbn [lex ranks app] in H1, H2; try discriminate.
    + destruct (Z.compare_spec 1 (rank d)) as [E|E|E]; simplify_eq/=.
      * exists q. by rewrite (rank_inj d SLASH).
      * destruct (Z.compare_spec (rank d) 1); simplify_eq/=; lia.
    + destruct (Z.compare_spec (rank c) (rank d)) as [E|E|E]; simplify_eq/=.
      * rewrite E, Z.compare_refl in H2. apply rank_inj in E as ->.
        destruct (IH q H1 H2) as [v ->]. by exists v.
      * destruct (Z.compare_spec (rank d) (rank c)); simplify_eq/=; lia.
Qed.

Lemma pathcmp_order_witness :
  pathcmp "/a" "/a/b" < 0 /\ (pathcmp "/a/b" "/a!" < 0 -> pathcmp "/a" "/a!" < 0).
Proof.
  destruct (pathcmp_order "/a" "/a/b" "/a!" eq_refl eq_refl eq_refl) as (_ & _ & Htrans & Hpre & _).
  pose proof (Hpre "b" eq_refl) as H. split; [exact H|exact (Htrans H)].
Defined.
