(* ===== verification/DirService.v ===== *)
(** * What path resolution needs from the directory cache

    The interface between falcon/utils/path_parse.c, which walks paths, and
    falcon/dir_path_shmem/dir_path_hash.c, which finds and locks one directory
    entry. *)

From S2P Require Import FalconPrelude.

(** (uint64_t)-1 and (uint64_t)-2. *)
Definition DIR_HASH_TABLE_PATH_NOT_EXIST : Z := u64 (-1).
Definition DIR_HASH_TABLE_PATH_UNKNOWN : Z := u64 (-2).

Inductive DirPathLockMode : Type := DIR_LOCK_EXCLUSIVE | DIR_LOCK_SHARED | DIR_LOCK_NONE.

#[export] Instance DirPathLockMode_eq_dec : EqDecision DirPathLockMode.
Proof. solve_decision. Defined.

(** The entry of a directory is found by its parent and its name; the answer
    is its inode number or DIR_HASH_TABLE_PATH_NOT_EXIST. *)
Class DirectoryService (S : Type) : Type := {
  ds_search : Z -> string -> DirPathLockMode -> cmd S Z;
  ds_release_last : cmd S unit;
  ds_ok : S -> Prop;
  ds_view : S -> Z -> string -> Z;
  ds_search_spec p n lk s v s' :
    ds_ok s -> ds_search p n lk s = Ret v s' ->
    ds_ok s' /\ (forall q m, ds_view s' q m = ds_view s q m) /\ v = ds_view s p n;
  ds_release_spec s s' :
    ds_ok s -> ds_release_last s = Ret tt s' ->
    ds_ok s' /\ (forall q m, ds_view s' q m = ds_view s q m);
}.

(** A service on which the calls of one backend always return. *)
Class TotalService (S : Type) {DS : DirectoryService S} : Prop := {
  ds_search_returns p n lk s : ds_ok s -> exists v s', ds_search p n lk s = Ret v s';
  ds_release_returns s : ds_ok s -> exists s', ds_release_last s = Ret tt s';
}.

(** The directory table alone, without locks, is such a service. *)
Abbreviation table := (gmap (Z * string) Z) (only parsing).

Definition table_view (t : table) (p : Z) (n : string) : Z :=
  default DIR_HASH_TABLE_PATH_NOT_EXIST (t !! (p, n)).

#[export] Program Instance table_service : DirectoryService table := {
  ds_search p n lk t := Ret (table_view t p n) t;
  ds_release_last t := Ret tt t;
  ds_ok _ := True;
  ds_view := table_view;
}.
Next Obligation. intros. simplify_eq/=. auto. Qed.
Next Obligation. intros. simplify_eq/=. auto. Qed.

#[export] Instance table_service_total : TotalService table.
Proof. split; simpl; eauto. Qed.
