(* ===== verification/PathParse.v ===== *)
(** * Path resolution (falcon/utils/path_parse.c)

    A transaction keeps a tree of the directories it has looked up, with the
    lock it holds on each; PathParseTreeInsert walks a path through that tree
    and the directory cache.  The tree is a map from the position of a node,
    its name followed by those of its ancestors, to the node; a pointer into
    the path is the rest of the path it points to. *)

From Stdlib Require Import Ascii.
From S2P Require Import FalconPrelude DirService InodeId PathCmp.

Definition PATH_PARSE_FLAG_NOT_ROOT : Z := 1.
Definition PATH_PARSE_FLAG_TARGET_IS_DIRECTORY : Z := 2.
Definition PATH_PARSE_FLAG_TARGET_TO_BE_CREATED : Z := 4.
Definition PATH_PARSE_FLAG_INODE_ID_FOR_INPUT : Z := 8.
Definition PATH_PARSE_FLAG_TARGET_TO_BE_DELETED : Z := 16.
Definition PATH_PARSE_FLAG_ALLOW_OPERATION_UNDER_CREATED_DIRECTORY : Z := 32.
Definition PATH_PARSE_FLAG_ACQUIRE_SHARED_LOCK_IF_TARGET_IS_DIRECTORY : Z := 64.

(** [flag & f] as a condition. *)
Definition has (flag f : Z) : bool := negb (Z.land flag f =? 0).

Inductive PPLockMode : Type := PP_NONE | PP_SHARED | PP_EXCLUSIVE | PP_EXCLUSIVE_FOR_CREATE.

#[export] Instance PPLockMode_eq_dec : EqDecision PPLockMode.
Proof. solve_decision. Defined.

Record PathParseRBTreeNode : Type := mkNode {
  inodeId : Z;
  lockAcquired : PPLockMode;
}.

Abbreviation tree := (gmap (list string) PathParseRBTreeNode) (only parsing).

(** ** Strings *)

(** The characters before the next separator or the end. *)
Fixpoint name_length (s : string) : nat :=
  match s with
  | EmptyString => 0
  | String c s' => if bool_decide (c = SLASH) then 0 else S (name_length s')
  end.

Fixpoint str_take (n : nat) (s : string) : string :=
  match n, s with
  | S n', String c s' => String c (str_take n' s')
  | _, _ => EmptyString
  end.

Fixpoint str_drop (n : nat) (s : string) : string :=
  match n, s with
  | S n', String _ s' => str_drop n' s'
  | _, _ => s
  end.

Section PathParse.
Context {Dir : Type} {DS : DirectoryService Dir}.
Context (GetLocalServerId : Z).

(** The state of the backend: the tree of the transaction, the inode-number
    sequence with the numbers taken from it, and the directory cache. *)
Record pp_state : Type := mkPP {
  pp_tree : tree;
  pp_nextval : Z;
  pp_seq : seq_cache;
  pp_dir : Dir;
}.

Definition on_dir {A} (m : cmd Dir A) : cmd pp_state A := fun s =>
  match m (pp_dir s) with
  | Ret a d => Ret a (mkPP (pp_tree s) (pp_nextval s) (pp_seq s) d)
  | Raise e d => Raise e (mkPP (pp_tree s) (pp_nextval s) (pp_seq s) d)
  | OutOfFuel => OutOfFuel
  end.

Definition SearchDirectory (p : Z) (n : string) (lk : DirPathLockMode) : cmd pp_state Z :=
  on_dir (ds_search p n lk).

(** rbt_find and rbt_insert; PathParseRBT_combine raises on a second node. *)
Definition rbt_find (k : list string) : cmd pp_state (option PathParseRBTreeNode) :=
  gets (fun s => pp_tree s !! k).
Definition set_node (k : list string) (nd : PathParseRBTreeNode) : cmd pp_state unit :=
  modify (fun s => mkPP (<[k := nd]> (pp_tree s)) (pp_nextval s) (pp_seq s) (pp_dir s)).
Definition rbt_insert (k : list string) (nd : PathParseRBTreeNode) : cmd pp_state unit :=
  old ← rbt_find k;
  match old with
  | Some _ => raise PROGRAM_ERROR
  | None => set_node k nd
  end.

(** GenerateInodeIdBySeqAndNodeId(GetNextSequenceNum(), GetLocalServerId()). *)
Definition next_inode_id : cmd pp_state Z := fun s =>
  let '(v, next, c) := GetNextSequenceNum (pp_nextval s) (pp_seq s) in
  Ret (GenerateInodeIdBySeqAndNodeId v GetLocalServerId) (mkPP (pp_tree s) next c (pp_dir s)).

(** TransactionLevelPathParseReset. *)
Definition TransactionLevelPathParseReset : cmd pp_state unit :=
  modify (fun s => mkPP ∅ (pp_nextval s) (pp_seq s) (pp_dir s)).

(** ** CheckWhetherPathExistsInDirectoryTable *)

(** The loop; [first] is currentFileNameStartPos == 0. *)
Fixpoint check_loop (fuel : nat) (first : bool) (rest : string) (len : nat) (parentId : Z)
    : cmd pp_state Z :=
  match rest with
  | EmptyString => mret parentId
  | String _ _ =>
      match fuel with
      | O => fun _ => OutOfFuel
      | S fuel' =>
          let name := str_take len rest in
          currentDirectoryId ← SearchDirectory parentId name DIR_LOCK_NONE;
          if currentDirectoryId =? DIR_HASH_TABLE_PATH_NOT_EXIST
          then mret DIR_HASH_TABLE_PATH_NOT_EXIST
          else if first then
            let rest' := str_drop 1 rest in
            check_loop fuel' false rest' (name_length rest') currentDirectoryId
          else match String.get len rest with
               | None => mret currentDirectoryId
               | Some _ =>
                   let rest' := str_drop (len + 1) rest in
                   check_loop fuel' false rest' (name_length rest') currentDirectoryId
               end
      end
  end.

Definition CheckWhetherPathExistsInDirectoryTable (path : string) : cmd pp_state Z :=
  match path with
  | EmptyString => raise ARGUMENT_ERROR
  | String c _ =>
      if negb (bool_decide (c = SLASH)) then raise ARGUMENT_ERROR
      else check_loop (S (String.length path)) true path 1 0
  end.

(** ** PathParseTreeInsert *)

(** Where the walk over the directories of a path ends: the rest of the path
    with the length of the last name, and the node it is looked up under. *)
Record walk_end : Type := mkWalkEnd {
  we_rest : string;
  we_len : nat;
  we_key : list string;
  we_id : Z;
}.

(** One directory of the path: its inode number, or the code returned. *)
Definition enter_directory (key : list string) (id : Z) (name : string)
    : cmd pp_state (FalconErrorCode + Z) :=
  node ← rbt_find (name :: key);
  match node with
  | Some nd =>
      if bool_decide (lockAcquired nd = PP_EXCLUSIVE) then mret (inl PATH_LOCK_CONFLICT)
      else if bool_decide (lockAcquired nd = PP_NONE) then
        _ ← SearchDirectory (inodeId nd) name DIR_LOCK_SHARED;
        _ ← set_node (name :: key) (mkNode (inodeId nd) PP_SHARED);
        mret (inr (inodeId nd))
      else mret (inr (inodeId nd))
  | None =>
      currentDirectoryId ← SearchDirectory id name DIR_LOCK_SHARED;
      if currentDirectoryId =? u64 (-1) then mret (inl PATH_IS_INVALID)
      else
        _ ← rbt_insert (name :: key) (mkNode currentDirectoryId PP_SHARED);
        mret (inr currentDirectoryId)
  end.

(** The while loop; [first] is currentFileNameStartPos == 0. *)
Fixpoint walk (fuel : nat) (first : bool) (rest : string) (len : nat) (key : list string) (id : Z)
    : cmd pp_state (FalconErrorCode + walk_end) :=
  match String.get len rest with
  | None => mret (inr (mkWalkEnd rest len key id))
  | Some _ =>
      match fuel with
      | O => fun _ => OutOfFuel
      | S fuel' =>
          let name := str_take len rest in
          r ← enter_directory key id name;
          match r with
          | inl e => mret (inl e)
          | inr id' =>
              let rest' := if first then str_drop 1 rest else str_drop (len + 1) rest in
              walk fuel' false rest' (name_length rest') (name :: key) id'
          end
      end
  end.

(** The target of a path that is to be created. *)
Definition parse_create (flag : Z) (w : walk_end) (inode : option Z)
    : cmd pp_state (FalconErrorCode * option Z) :=
  match inode with
  | None => raise PROGRAM_ERROR
  | Some given =>
      if has flag PATH_PARSE_FLAG_TARGET_IS_DIRECTORY then
        let name := str_take (we_len w) (we_rest w) in
        node ← rbt_find (name :: we_key w);
        match node with
        | Some _ => mret (PATH_EXISTS, inode)
        | None =>
            targetInodeId ← SearchDirectory (we_id w) (we_rest w) DIR_LOCK_EXCLUSIVE;
            id ← (if negb (has flag PATH_PARSE_FLAG_INODE_ID_FOR_INPUT) then
                    if negb (targetInodeId =? DIR_HASH_TABLE_PATH_NOT_EXIST) then mret targetInodeId
                    else next_inode_id
                  else mret given);
            _ ← rbt_insert (name :: we_key w)
                  (mkNode id (if has flag PATH_PARSE_FLAG_ALLOW_OPERATION_UNDER_CREATED_DIRECTORY
                              then PP_EXCLUSIVE_FOR_CREATE else PP_EXCLUSIVE));
            mret (if negb (targetInodeId =? DIR_HASH_TABLE_PATH_NOT_EXIST) then PATH_EXISTS else SUCCESS,
                  Some id)
        end
      else if negb (has flag PATH_PARSE_FLAG_INODE_ID_FOR_INPUT) then
        id ← next_inode_id;
        mret (SUCCESS, Some id)
      else mret (SUCCESS, inode)
  end.

(** The target of a path that is a directory to be deleted.  The second test of
    the node's lock in the source repeats the first. *)
Definition parse_delete (w : walk_end) (inode : option Z)
    : cmd pp_state (FalconErrorCode * option Z) :=
  match inode with
  | None => raise PROGRAM_ERROR
  | Some _ =>
      let name := str_take (we_len w) (we_rest w) in
      node ← rbt_find (name :: we_key w);
      if match node with Some nd => bool_decide (lockAcquired nd <> PP_NONE) | None => false end
      then mret (PATH_LOCK_CONFLICT, inode)
      else
        id ← SearchDirectory (we_id w) (we_rest w) DIR_LOCK_EXCLUSIVE;
        if id =? DIR_HASH_TABLE_PATH_NOT_EXIST then mret (PATH_NOT_EXISTS, Some id)
        else
          match node with
          | Some nd =>
              _ ← set_node (name :: we_key w) (mkNode (inodeId nd) PP_EXCLUSIVE);
              mret (SUCCESS, Some id)
          | None =>
              _ ← rbt_insert (name :: we_key w) (mkNode id PP_EXCLUSIVE);
              mret (SUCCESS, Some id)
          end
  end.

(** The target of a path that is locked when it is a directory. *)
Definition parse_lock_target (flag : Z) (w : walk_end) (inode : option Z)
    : cmd pp_state (FalconErrorCode * option Z) :=
  let name := str_take (we_len w) (we_rest w) in
  let answer id : FalconErrorCode * option Z := (SUCCESS, match inode with Some _ => Some id | None => None end) in
  node ← rbt_find (name :: we_key w);
  match node with
  | Some nd =>
      if bool_decide (lockAcquired nd = PP_EXCLUSIVE) then mret (PATH_LOCK_CONFLICT, inode)
      else if negb (inodeId nd =? DIR_HASH_TABLE_PATH_NOT_EXIST) && bool_decide (lockAcquired nd = PP_NONE)
      then
        _ ← SearchDirectory (inodeId nd) name DIR_LOCK_SHARED;
        _ ← set_node (name :: we_key w) (mkNode (inodeId nd) PP_SHARED);
        mret (answer (inodeId nd))
      else mret (answer (inodeId nd))
  | None =>
      id ← SearchDirectory (we_id w) name DIR_LOCK_SHARED;
      if (id =? DIR_HASH_TABLE_PATH_NOT_EXIST) && has flag PATH_PARSE_FLAG_TARGET_IS_DIRECTORY
      then mret (PATH_NOT_EXISTS, inode)
      else
        lk ← (if id =? DIR_HASH_TABLE_PATH_NOT_EXIST
              then (_ ← on_dir ds_release_last; mret PP_NONE) else mret PP_SHARED);
        _ ← rbt_insert (name :: we_key w) (mkNode id lk);
        mret (answer id)
  end.

(** What the function returns: its code, *parentId with *fileName where the
    walk got that far, and *inodeId where the pointer is not null. *)
Record pp_result : Type := mkResult {
  r_code : FalconErrorCode;
  r_target : option (Z * string);
  r_inode : option Z;
}.

(** What is done with the target, by the flags. *)
Definition parse_target (flag : Z) (w : walk_end) (inode : option Z)
    : cmd pp_state (FalconErrorCode * option Z) :=
  if has flag PATH_PARSE_FLAG_TARGET_TO_BE_CREATED then parse_create flag w inode
  else if has flag PATH_PARSE_FLAG_TARGET_TO_BE_DELETED
          && has flag PATH_PARSE_FLAG_TARGET_IS_DIRECTORY
  then parse_delete w inode
  else if has flag PATH_PARSE_FLAG_ACQUIRE_SHARED_LOCK_IF_TARGET_IS_DIRECTORY
  then parse_lock_target flag w inode
  else mret (SUCCESS, inode).

Definition PathParseTreeInsert (path : string) (flag : Z) (inode : option Z) : cmd pp_state pp_result :=
  if bool_decide (path = String SLASH EmptyString) && has flag PATH_PARSE_FLAG_NOT_ROOT
  then mret (mkResult PATH_IS_ROOT None inode)
  else
    r ← walk (S (String.length path)) true path 1 [] 0;
    match r with
    | inl e => mret (mkResult e None inode)
    | inr w =>
        out ← parse_target flag w inode;
        mret (mkResult out.1 (Some (we_id w, str_take (we_len w) (we_rest w))) out.2)
    end.

(** ** VerifyPathValidity

    The code and *property. *)
Definition VERIFY_PATH_VALIDITY_REQUIREMENT_MUST_BE_DIRECTORY : Z := 1.
Definition VERIFY_PATH_VALIDITY_REQUIREMENT_MUST_BE_FILE : Z := 2.
Definition VERIFY_PATH_VALIDITY_PROPERTY_CAN_BE_DIRECTORY : Z := 1.
Definition VERIFY_PATH_VALIDITY_PROPERTY_CAN_BE_FILE : Z := 2.

Definition VerifyPathValidity (path : string) (requirement : Z) : FalconErrorCode * Z :=
  if negb (bool_decide (String.get 0 path = Some SLASH)) then (PATH_IS_INVALID, 0)
  else
    let property :=
      if bool_decide (String.get (String.length path - 1) path = Some SLASH)
      then VERIFY_PATH_VALIDITY_PROPERTY_CAN_BE_DIRECTORY
      else Z.lor VERIFY_PATH_VALIDITY_PROPERTY_CAN_BE_DIRECTORY VERIFY_PATH_VALIDITY_PROPERTY_CAN_BE_FILE in
    if has requirement VERIFY_PATH_VALIDITY_REQUIREMENT_MUST_BE_DIRECTORY
       && negb (has property VERIFY_PATH_VALIDITY_PROPERTY_CAN_BE_DIRECTORY)
    then (PATH_VERIFY_FAILED, property)
    else if has requirement VERIFY_PATH_VALIDITY_REQUIREMENT_MUST_BE_FILE
       && negb (has property VERIFY_PATH_VALIDITY_PROPERTY_CAN_BE_FILE)
    then (PATH_VERIFY_FAILED, property)
    else (SUCCESS, property).

End PathParse.

(** ** Names of a path *)

(** The names between the separators. *)
Fixpoint split_slash (s : string) : list string :=
  match s with
  | EmptyString => [EmptyString]
  | String c s' =>
      if bool_decide (c = SLASH) then EmptyString :: split_slash s'
      else match split_slash s' with
           | [] => [String c EmptyString]
           | x :: xs => String c x :: xs
           end
  end.

(** The directories a path goes through and its last name.  The root
    directory is entered under the name of the separator. *)
Definition path_dirs (path : string) : list string :=
  match path with
  | String _ EmptyString => []
  | _ => String SLASH EmptyString :: removelast (split_slash (str_drop 1 path))
  end.

Definition path_name (path : string) : string :=
  match path with
  | String _ EmptyString => path
  | _ => List.last (split_slash (str_drop 1 path)) EmptyString
  end.

Definition absolute (path : string) : Prop := String.get 0 path = Some SLASH.

Lemma split_slash_nonempty s : split_slash s <> [].
Proof. destruct s as [|c s]; simpl; [done|]. case_bool_decide; [done|]. by destruct (split_slash s). Qed.

Lemma split_slash_cases s :
  (split_slash s = [s] /\ String.get (name_length s) s = None /\ str_take (name_length s) s = s) \/
  (String.get (name_length s) s = Some SLASH /\
   split_slash s = str_take (name_length s) s :: split_slash (str_drop (name_length s + 1) s) /\
   (String.length (str_drop (name_length s + 1) s) < String.length s)%nat).
Proof.
  induction s as [|c s IH]; simpl; [by left|]. case_bool_decide as Hc; simpl.
  { right. subst c. split_and!; auto. }
  destruct IH as [(E1 & E2 & E3)|(E1 & E2 & E3)].
  - left. rewrite E1, E2, E3. done.
  - right. rewrite E1, E2. split_and!; auto.
Qed.

Lemma removelast_cons {A} (x : A) l : l <> [] -> removelast (x :: l) = x :: removelast l.
Proof. by destruct l. Qed.

Lemma last_cons {A} (x : A) l d : l <> [] -> List.last (x :: l) d = List.last l d.
Proof. by destruct l. Qed.

Lemma last_app_ne {A} (l1 l2 : list A) d : l2 <> [] -> List.last (l1 ++ l2) d = List.last l2 d.
Proof.
  intros H. induction l1 as [|x l1 IH]; [done|]. rewrite <- app_comm_cons, last_cons, IH; [done|].
  by destruct l1, l2.
Qed.

Lemma str_take_length s : str_take (String.length s) s = s.
Proof. induction s as [|c s IH]; simpl; [done|]. by rewrite IH. Qed.

Lemma split_slash_take s x : x ∈ split_slash s -> str_take (name_length x) x = x.
Proof.
  revert x. induction s as [|c s IH]; intros x; simpl.
  { intros Hx. by apply list_elem_of_singleton in Hx as ->. }
  case_bool_decide as Hc.
  { intros Hx. apply elem_of_cons in Hx as [-> | Hx]; [done|auto]. }
  destruct (split_slash s) as [|y ys]; intros Hx.
  - apply list_elem_of_singleton in Hx as ->. simpl. by rewrite bool_decide_eq_false_2.
  - apply elem_of_cons in Hx as [-> | Hx]; [|apply IH; by right].
    simpl. rewrite bool_decide_eq_false_2 by done. simpl. f_equal. apply IH. by left.
Qed.

Lemma last_elem {A} (l : list A) d : l <> [] -> List.last l d ∈ l.
Proof.
  intros H. induction l as [|x l IH]; [done|]. destruct l as [|y l]; [by left|].
  right. by apply IH.
Qed.

Lemma path_name_take path :
  path <> String SLASH EmptyString -> absolute path ->
  str_take (name_length (path_name path)) (path_name path) = path_name path.
Proof.
  intros Hne Habs. unfold absolute in Habs. destruct path as [|c [|d path]]; simpl in Habs; simplify_eq.
  unfold path_name. eapply split_slash_take, last_elem, split_slash_nonempty.
Qed.

Section PathParseProofs.
Context {Dir : Type} {DS : DirectoryService Dir}.
Context (node : Z).

Abbreviation state := (pp_state (Dir := Dir)) (only parsing).

(** The walk over a list of directories. *)
Fixpoint walk_list (dirs : list string) (key : list string) (id : Z)
    : cmd state (FalconErrorCode + list string * Z) :=
  match dirs with
  | [] => mret (inr (key, id))
  | d :: ds =>
      r ← enter_directory key id d;
      match r with
      | inl e => mret (inl e)
      | inr id' => walk_list ds (d :: key) id'
      end
  end.

Definition at_target (name : string) (len : nat) (r : FalconErrorCode + list string * Z)
    : FalconErrorCode + walk_end :=
  match r with
  | inl e => inl e
  | inr (k, i) => inr (mkWalkEnd name len k i)
  end.

Lemma walk_splits fuel rest key id (s : state) :
  (String.length rest < fuel)%nat ->
  walk fuel false rest (name_length rest) key id s =
  (r ← walk_list (removelast (split_slash rest)) key id;
   let name := List.last (split_slash rest) EmptyString in
   mret (at_target name (name_length name) r)) s.
Proof.
  revert rest key id s. induction fuel as [|fuel IH]; intros rest key id s Hf; [lia|].
  cbn [walk]. destruct (split_slash_cases rest) as [(E1 & E2 & E3)|(E1 & E2 & E3)].
  - rewrite E2, E1. simpl. unfold mbind, cmd_bind. simpl. done.
  - rewrite E1, E2. set (rest' := str_drop (name_length rest + 1) rest) in *.
    rewrite removelast_cons, last_cons by apply split_slash_nonempty.
    cbn [walk_list]. unfold mbind, cmd_bind.
    destruct (enter_directory key id _ s) as [[e|id'] s1|e s1|]; try done.
    rewrite IH by lia. done.
Qed.

Lemma walk_path path (s : state) :
  absolute path ->
  walk (S (String.length path)) true path 1 [] 0 s =
  (r ← walk_list (path_dirs path) [] 0;
   mret (at_target (path_name path)
           (if bool_decide (path = String SLASH EmptyString) then 1 else name_length (path_name path))
           r)) s.
Proof.
  intros Habs. unfold absolute in Habs. destruct path as [|c [|d path]]; simpl in Habs; simplify_eq.
  - done.
  - rewrite bool_decide_eq_false_2 by done. cbn [walk String.get path_dirs path_name str_drop].
    cbn [str_take walk_list]. unfold mbind, cmd_bind.
    destruct (enter_directory [] 0 _ s) as [[e|id'] s1|e s1|]; try done.
    cbv beta iota zeta. rewrite walk_splits by (simpl; lia). done.
Qed.

(** ** The walk as a function of the tree and the directory entries *)

Definition enter (t : tree) (view : Z -> string -> Z) (key : list string) (id : Z) (d : string)
    : FalconErrorCode + Z :=
  match t !! (d :: key) with
  | Some nd => if bool_decide (lockAcquired nd = PP_EXCLUSIVE) then inl PATH_LOCK_CONFLICT
               else inr (inodeId nd)
  | None => if view id d =? DIR_HASH_TABLE_PATH_NOT_EXIST then inl PATH_IS_INVALID
            else inr (view id d)
  end.

Fixpoint resolve_in (t : tree) (view : Z -> string -> Z) (dirs key : list string) (id : Z)
    : FalconErrorCode + list string * Z :=
  match dirs with
  | [] => inr (key, id)
  | d :: ds =>
      match enter t view key id d with
      | inl e => inl e
      | inr id' => resolve_in t view ds (d :: key) id'
      end
  end.

(** The directory entries alone. *)
Fixpoint resolve (view : Z -> string -> Z) (dirs : list string) (id : Z) : option Z :=
  match dirs with
  | [] => Some id
  | d :: ds =>
      if view id d =? DIR_HASH_TABLE_PATH_NOT_EXIST then None else resolve view ds (view id d)
  end.

Definition view_of (s : state) : Z -> string -> Z := ds_view (pp_dir s).

(** Two states with the same directory entries and sequence. *)
Definition same_world (s s' : state) : Prop :=
  ds_ok (pp_dir s') /\ (forall q m, view_of s' q m = view_of s q m) /\
  pp_nextval s' = pp_nextval s /\ pp_seq s' = pp_seq s.

Lemma same_world_trans s1 s2 s3 : same_world s1 s2 -> same_world s2 s3 -> same_world s1 s3.
Proof.
  intros (? & Hv1 & ? & ?) (? & Hv2 & ? & ?). split_and!; [done| |congruence|congruence].
  intros q m. by rewrite Hv2, Hv1.
Qed.

Lemma same_world_refl s : ds_ok (pp_dir s) -> same_world s s.
Proof. intros H. unfold same_world. by split_and!. Qed.

(** The inode number a position of the tree stands for. *)
Definition node_id (t : tree) (key : list string) : option Z :=
  match key with
  | [] => Some 0
  | _ => inodeId <$> t !! key
  end.

(** Every node of the tree is a directory entry found earlier and locked, or one
    created by the transaction. *)
Definition tree_agrees (view : Z -> string -> Z) (t : tree) : Prop :=
  forall n p nd, t !! (n :: p) = Some nd ->
    (lockAcquired nd = PP_SHARED \/ lockAcquired nd = PP_EXCLUSIVE_FOR_CREATE) /\ inodeId nd <> DIR_HASH_TABLE_PATH_NOT_EXIST /\
    exists pid, node_id t p = Some pid /\ inodeId nd = view pid n.

Lemma lock_kept (nd : PathParseRBTreeNode) :
  lockAcquired nd = PP_SHARED \/ lockAcquired nd = PP_EXCLUSIVE_FOR_CREATE ->
  lockAcquired nd <> PP_EXCLUSIVE /\ lockAcquired nd <> PP_NONE.
Proof. intros [-> | ->]; done. Qed.

Lemma node_id_insert t k nd key id :
  t !! k = None -> k <> [] -> node_id t key = Some id -> node_id (<[k := nd]> t) key = Some id.
Proof.
  intros Hk Hne H. destruct key as [|n key]; [done|]. simpl in *.
  rewrite lookup_insert_ne; [done|]. intros ->. by rewrite Hk in H.
Qed.

Lemma tree_agrees_insert view t key id name :
  tree_agrees view t -> node_id t key = Some id -> t !! (name :: key) = None ->
  view id name <> DIR_HASH_TABLE_PATH_NOT_EXIST ->
  tree_agrees view (<[name :: key := mkNode (view id name) PP_SHARED]> t).
Proof.
  intros Ht Hid Hnone Hex n p nd H.
  destruct (decide (name :: key = n :: p)) as [E|Hne]; simplify_eq.
  - rewrite lookup_insert_eq in H. simplify_eq/=. split_and!; auto. exists id. split; [|done].
    by apply node_id_insert.
  - rewrite lookup_insert_ne in H by done. destruct (Ht n p nd H) as (? & ? & pid & Hp & ?).
    split_and!; auto. exists pid. split; [|done]. by apply node_id_insert.
Qed.

Lemma tree_agrees_view view view' t :
  (forall q m, view' q m = view q m) -> tree_agrees view t -> tree_agrees view' t.
Proof.
  intros Hv Ht n p nd H. destruct (Ht n p nd H) as (? & ? & pid & Hp & E).
  split_and!; auto. exists pid. by rewrite Hv.
Qed.

Section Total.
Context {TS : TotalService Dir}.

Lemma SearchDirectory_returns p n lk (s : state) :
  ds_ok (pp_dir s) ->
  exists s', SearchDirectory p n lk s = Ret (view_of s p n) s' /\ same_world s s' /\ pp_tree s' = pp_tree s.
Proof.
  intros Hok. destruct (ds_search_returns p n lk (pp_dir s) Hok) as (v & d & E).
  destruct (ds_search_spec p n lk _ v d Hok E) as (Hok' & Hv & ->).
  unfold SearchDirectory, on_dir. rewrite E. eexists. split; [done|]. split; [unfold same_world; by split_and!|done].
Qed.

(** Entering a directory answers as [enter] says and touches one position. *)
Lemma enter_directory_spec key id d (s : state) :
  ds_ok (pp_dir s) ->
  exists s', enter_directory key id d s = Ret (enter (pp_tree s) (view_of s) key id d) s' /\
    same_world s s' /\
    (forall k, k <> d :: key -> pp_tree s' !! k = pp_tree s !! k) /\
    (forall id', enter (pp_tree s) (view_of s) key id d = inr id' ->
       node_id (pp_tree s') (d :: key) = Some id') /\
    (tree_agrees (view_of s) (pp_tree s) -> node_id (pp_tree s) key = Some id ->
       tree_agrees (view_of s') (pp_tree s')).
Proof.
  intros Hok. unfold enter_directory, enter, rbt_find, gets, mbind, cmd_bind.
  destruct (pp_tree s !! (d :: key)) as [nd|] eqn:Et; simpl.
  - case_bool_decide; [exists s; split_and!; auto using same_world_refl; done|].
    case_bool_decide as Hn.
    + destruct (SearchDirectory_returns (inodeId nd) d DIR_LOCK_SHARED s Hok) as (s1 & E & Hsw & Ht).
      rewrite E. eexists. split; [done|]. simpl. rewrite Ht. split_and!.
      * exact Hsw.
      * intros k Hk. by rewrite lookup_insert_ne.
      * intros id' [= <-]. by rewrite lookup_insert_eq.
      * intros Hag _. destruct (Hag _ _ _ Et) as [[? | ?] _]; congruence.
    + exists s. split_and!; auto using same_world_refl. intros id' [= <-]. simpl. by rewrite Et.
  - destruct (SearchDirectory_returns id d DIR_LOCK_SHARED s Hok) as (s1 & E & Hsw & Ht).
    rewrite E. change (u64 (-1)) with DIR_HASH_TABLE_PATH_NOT_EXIST.
    destruct (Z.eqb_spec (view_of s id d) DIR_HASH_TABLE_PATH_NOT_EXIST) as [|Hex].
    + exists s1. split_and!; auto; try apply Hsw; [by rewrite Ht|done|].
      intros Hag _. rewrite Ht. eapply tree_agrees_view; [apply Hsw|done].
    + unfold rbt_insert, rbt_find, gets, mbind, cmd_bind. rewrite Ht, Et. eexists.
      split; [done|]. simpl. rewrite Ht. split_and!.
      * exact Hsw.
      * intros k Hk. by rewrite lookup_insert_ne.
      * intros id' [= <-]. by rewrite lookup_insert_eq.
      * intros Hag Hid. eapply tree_agrees_view; [apply Hsw|]. by apply tree_agrees_insert.
Qed.

Lemma resolve_in_frame t t' view view' dirs key id :
  (forall q m, view' q m = view q m) ->
  (forall k, (length key < length k)%nat -> t' !! k = t !! k) ->
  resolve_in t' view' dirs key id = resolve_in t view dirs key id.
Proof.
  intros Hv. revert key id. induction dirs as [|d ds IH]; intros key id Hk; simpl; [done|].
  unfold enter. rewrite Hk, Hv by (simpl; lia).
  destruct (t !! (d :: key)) as [nd|].
  - case_bool_decide; [done|]. apply IH. intros k Hlen. apply Hk. simpl in Hlen. lia.
  - destruct (_ =? _); [done|]. apply IH. intros k Hlen. apply Hk. simpl in Hlen. lia.
Qed.

(** The walk answers as [resolve_in] says; the nodes it adds are above the
    target. *)
Lemma walk_list_spec dirs key id (s : state) :
  ds_ok (pp_dir s) ->
  exists s', walk_list dirs key id s = Ret (resolve_in (pp_tree s) (view_of s) dirs key id) s' /\
    same_world s s' /\
    (forall k, (length key + length dirs < length k)%nat -> pp_tree s' !! k = pp_tree s !! k) /\
    (tree_agrees (view_of s) (pp_tree s) -> node_id (pp_tree s) key = Some id ->
       tree_agrees (view_of s') (pp_tree s') /\
       forall k i, resolve_in (pp_tree s) (view_of s) dirs key id = inr (k, i) ->
         node_id (pp_tree s') k = Some i).
Proof.
  revert key id s. induction dirs as [|d ds IH]; intros key id s Hok; simpl.
  { exists s. split_and!; auto using same_world_refl. intros Hag Hid. split; [done|]. by intros k i [= <- <-]. }
  destruct (enter_directory_spec key id d s Hok) as (s1 & E1 & Hsw & Hfr & Hid & Hag).
  unfold mbind, cmd_bind. rewrite E1. destruct (enter _ _ key id d) as [e|id'] eqn:Ee.
  { exists s1. split_and!; auto.
    - intros k Hk. apply Hfr. intros ->. simpl in Hk. lia.
    - intros Ha Hi. split; [by apply Hag|done]. }
  destruct (IH (d :: key) id' s1) as (s2 & E2 & Hsw2 & Hfr2 & Hag2); [apply Hsw|].
  exists s2. rewrite E2. split.
  { f_equal. apply resolve_in_frame; [apply Hsw|]. intros k Hk. apply Hfr. intros ->. simpl in Hk. lia. }
  split_and!; try (by eapply same_world_trans).
  - intros k Hk. rewrite Hfr2 by (simpl; lia). apply Hfr. intros ->. simpl in Hk. lia.
  - intros Ha Hi. destruct (Hag2 (Hag Ha Hi)) as [Ha2 Hi2]; [by apply Hid|]. split; [done|].
    intros k i Hr. apply Hi2. rewrite <- Hr. apply resolve_in_frame; [apply Hsw|].
    intros k' Hk'. apply Hfr. intros ->. simpl in Hk'. lia.
Qed.

(** PathParseTreeInsert on a path other than the root: the walk, then the
    target. *)
Lemma PathParseTreeInsert_unfold path flag inode (s : state) :
  absolute path -> path <> String SLASH EmptyString -> ds_ok (pp_dir s) ->
  exists s1, same_world s s1 /\
    (forall k, (length (path_dirs path) < length k)%nat -> pp_tree s1 !! k = pp_tree s !! k) /\
    (tree_agrees (view_of s) (pp_tree s) -> tree_agrees (view_of s1) (pp_tree s1) /\
       forall k i, resolve_in (pp_tree s) (view_of s) (path_dirs path) [] 0 = inr (k, i) ->
         node_id (pp_tree s1) k = Some i) /\
    PathParseTreeInsert node path flag inode s =
      match resolve_in (pp_tree s) (view_of s) (path_dirs path) [] 0 with
      | inl e => Ret (mkResult e None inode) s1
      | inr (k, i) =>
          (out ← parse_target node flag (mkWalkEnd (path_name path) (name_length (path_name path)) k i) inode;
           mret (mkResult out.1 (Some (i, path_name path)) out.2)) s1
      end.
Proof.
  intros Habs Hroot Hok.
  destruct (walk_list_spec (path_dirs path) [] 0 s Hok) as (s1 & E & Hsw & Hfr & Hag).
  exists s1. split_and!; auto. unfold PathParseTreeInsert.
  rewrite bool_decide_eq_false_2 by done. cbn [andb]. unfold mbind at 1, cmd_bind at 1.
  rewrite walk_path, bool_decide_eq_false_2 by done. unfold mbind at 1, cmd_bind at 1. rewrite E.
  destruct (resolve_in _ _ (path_dirs path) [] 0) as [e|[k i]]; [done|].
  simpl. by rewrite path_name_take.
Qed.

(** On a tree that agrees with the directory entries the walk is the walk over
    those entries. *)
Lemma resolve_in_agrees view t dirs key id :
  tree_agrees view t -> node_id t key = Some id ->
  resolve_in t view dirs key id =
    match resolve view dirs id with
    | Some i => inr (rev dirs ++ key, i)
    | None => inl PATH_IS_INVALID
    end.
Proof.
  intros Hag. assert (forall key id dirs, (node_id t key = Some id \/ forall n p, t !! (n ++ p :: key) = None) ->
    resolve_in t view dirs key id = match resolve view dirs id with
      | Some i => inr (rev dirs ++ key, i) | None => inl PATH_IS_INVALID end) as H; [|auto].
  clear key id dirs. intros key id dirs. revert key id.
  induction dirs as [|d ds IH]; intros key id Hkey; simpl; [done|].
  unfold enter. destruct (t !! (d :: key)) as [nd|] eqn:Et.
  - destruct Hkey as [Hkey|Hkey]; [|specialize (Hkey [] d); simpl in Hkey; congruence].
    destruct (Hag d key nd Et) as (Hl & Hne & pid & Hp & Ei). rewrite Hkey in Hp. simplify_eq.
    rewrite bool_decide_eq_false_2 by (destruct (lock_kept _ Hl); done). rewrite Ei in *.
    replace (view pid d =? DIR_HASH_TABLE_PATH_NOT_EXIST) with false by (symmetry; by apply Z.eqb_neq).
    rewrite IH by (left; simpl; rewrite Et; simpl; congruence).
    destruct (resolve view ds _); [|done]. by rewrite <- app_assoc.
  - destruct (view id d =? _); [done|]. rewrite IH.
    + destruct (resolve view ds _); [|done]. by rewrite <- app_assoc.
    + right. intros n p. destruct (t !! (n ++ p :: d :: key)) as [nd|] eqn:E; [exfalso|done].
      clear - Hag Et E. revert p nd E. induction n as [|x n IHn]; intros p nd E; simpl in E.
      * destruct (Hag _ _ _ E) as (_ & _ & pid & Hp & _). simpl in Hp. by rewrite Et in Hp.
      * destruct (Hag _ _ _ E) as (_ & _ & pid & Hp & _).
        destruct (n ++ p :: d :: key) as [|y ys] eqn:Ey; [by destruct n|]. simpl in Hp.
        destruct (t !! (y :: ys)) as [nd'|] eqn:E'; [|done]. rewrite <- Ey in E'. by eapply IHn.
Qed.

(** Where a path leads: the inode number of its parent and its last name. *)
Definition target_of (view : Z -> string -> Z) (path : string) : option (Z * string) :=
  (fun p => (p, path_name path)) <$> resolve view (path_dirs path) 0.

Lemma parse_lookup path inode (s : state) :
  absolute path -> ds_ok (pp_dir s) -> tree_agrees (view_of s) (pp_tree s) ->
  exists s', PathParseTreeInsert node path 0 inode s = Ret
      (match target_of (view_of s) path with
       | Some t => mkResult SUCCESS (Some t) inode
       | None => mkResult PATH_IS_INVALID None inode
       end) s' /\
    same_world s s' /\ tree_agrees (view_of s') (pp_tree s').
Proof.
  intros Habs Hok Hag. destruct (decide (path = String SLASH EmptyString)) as [->|Hroot].
  { exists s. split_and!; [reflexivity|by apply same_world_refl|done]. }
  destruct (PathParseTreeInsert_unfold path 0 inode s Habs Hroot Hok) as (s1 & Hsw & _ & Ht & E).
  exists s1. rewrite E, resolve_in_agrees by done. unfold target_of.
  destruct (Ht Hag) as [Hag1 _]. by destruct (resolve _ _ 0).
Qed.

(** A file that is to be created gets the next inode number. *)
Definition CREATE_FLAG : Z := Z.lor PATH_PARSE_FLAG_NOT_ROOT PATH_PARSE_FLAG_TARGET_TO_BE_CREATED.

Lemma parse_create_file path given (s : state) :
  absolute path -> ds_ok (pp_dir s) -> tree_agrees (view_of s) (pp_tree s) ->
  exists s', tree_agrees (view_of s') (pp_tree s') /\ ds_ok (pp_dir s') /\
    (forall q m, view_of s' q m = view_of s q m) /\
    PathParseTreeInsert node path CREATE_FLAG (Some given) s = Ret
      (if bool_decide (path = String SLASH EmptyString) then mkResult PATH_IS_ROOT None (Some given)
       else match target_of (view_of s) path with
            | Some t => mkResult SUCCESS (Some t)
                (Some (GenerateInodeIdBySeqAndNodeId (GetNextSequenceNum (pp_nextval s) (pp_seq s)).1.1 node))
            | None => mkResult PATH_IS_INVALID None (Some given)
            end) s'.
Proof.
  intros Habs Hok Hag. case_bool_decide as Hroot.
  { subst path. exists s. split_and!; done. }
  destruct (PathParseTreeInsert_unfold path CREATE_FLAG (Some given) s Habs Hroot Hok)
    as (s1 & (Hok1 & Hv1 & Hn1 & Hq1) & _ & Ht & E).
  rewrite resolve_in_agrees in E by done. unfold target_of. destruct (Ht Hag) as [Hag1 _].
  destruct (resolve _ _ 0) as [i|]; [|by exists s1].
  change (parse_target node CREATE_FLAG) with (parse_create node CREATE_FLAG) in E.
  unfold parse_create in E. change (has CREATE_FLAG PATH_PARSE_FLAG_TARGET_IS_DIRECTORY) with false in E.
  change (has CREATE_FLAG PATH_PARSE_FLAG_INODE_ID_FOR_INPUT) with false in E.
  cbn [negb] in E. unfold next_inode_id, mbind, cmd_bind in E. rewrite Hn1, Hq1 in E.
  destruct (GetNextSequenceNum (pp_nextval s) (pp_seq s)) as [[v next] c].
  eexists. split_and!; [| | |exact E]; done.
Qed.

(** A directory that is read is locked for it. *)
Definition READDIR_FLAG : Z :=
  Z.lor PATH_PARSE_FLAG_ACQUIRE_SHARED_LOCK_IF_TARGET_IS_DIRECTORY PATH_PARSE_FLAG_TARGET_IS_DIRECTORY.

Definition directory_result (view : Z -> string -> Z) (given : Z) (p : Z) (n : string) : FalconErrorCode * option Z :=
  if view p n =? DIR_HASH_TABLE_PATH_NOT_EXIST then (PATH_NOT_EXISTS, Some given) else (SUCCESS, Some (view p n)).

Lemma lock_directory_spec k i rest len given (s : state) :
  ds_ok (pp_dir s) -> tree_agrees (view_of s) (pp_tree s) -> node_id (pp_tree s) k = Some i ->
  exists s', parse_lock_target READDIR_FLAG (mkWalkEnd rest len k i) (Some given) s (DS := DS) =
      Ret (directory_result (view_of s) given i (str_take len rest)) s' /\
    ds_ok (pp_dir s') /\ (forall q m, view_of s' q m = view_of s q m) /\ tree_agrees (view_of s') (pp_tree s').
Proof.
  intros Hok Hag Hk. unfold parse_lock_target, rbt_find, gets, directory_result. cbn [we_rest we_len we_key we_id].
  set (name := str_take len rest). unfold mbind, cmd_bind.
  destruct (pp_tree s !! (name :: k)) as [nd|] eqn:Et.
  - destruct (Hag _ _ _ Et) as (Hl & Hne & pid & Hp & Ei). rewrite Hk in Hp. simplify_eq.
    rewrite !bool_decide_eq_false_2 by (destruct (lock_kept _ Hl); done). rewrite andb_false_r, <- Ei.
    rewrite (proj2 (Z.eqb_neq _ _) Hne). exists s. done.
  - destruct (SearchDirectory_returns i name DIR_LOCK_SHARED s Hok) as (s2 & E2 & (Hok2 & Hv2 & _ & _) & Ht2).
    rewrite E2. change (has READDIR_FLAG PATH_PARSE_FLAG_TARGET_IS_DIRECTORY) with true. rewrite andb_true_r.
    destruct (Z.eqb_spec (view_of s i name) DIR_HASH_TABLE_PATH_NOT_EXIST) as [Ex|Ex].
    { exists s2. rewrite Ht2. split_and!; try done. by eapply tree_agrees_view. }
    unfold rbt_insert, rbt_find, gets, mbind, cmd_bind. cbn. rewrite Ht2, Et. cbn. eexists. split; [done|].
    split; [done|]. split; [intros q m; exact (Hv2 q m)|]. rewrite Ht2.
    eapply (tree_agrees_view (view_of s)); [intros q m; exact (Hv2 q m)|]. by apply tree_agrees_insert.
Qed.

Lemma parse_directory path given (s : state) :
  absolute path -> ds_ok (pp_dir s) -> tree_agrees (view_of s) (pp_tree s) ->
  exists s', PathParseTreeInsert node path READDIR_FLAG (Some given) s = Ret
      (match target_of (view_of s) path with
       | Some (p, n) => mkResult (directory_result (view_of s) given p n).1 (Some (p, n))
                                 (directory_result (view_of s) given p n).2
       | None => mkResult PATH_IS_INVALID None (Some given)
       end) s' /\
    ds_ok (pp_dir s') /\ (forall q m, view_of s' q m = view_of s q m) /\ tree_agrees (view_of s') (pp_tree s').
Proof.
  intros Habs Hok Hag. destruct (decide (path = String SLASH EmptyString)) as [->|Hroot].
  { destruct (lock_directory_spec [] 0 (String SLASH EmptyString) 1 given s Hok Hag eq_refl) as (s' & E & H).
    exists s'. split; [|done]. unfold PathParseTreeInsert.
    change (bool_decide _ && _) with false. cbv iota. unfold mbind at 1, cmd_bind at 1.
    cbn [walk String.length String.get]. unfold mret at 1, cmd_ret at 1. unfold mbind, cmd_bind.
    change (parse_target node READDIR_FLAG) with (fun w i => parse_lock_target READDIR_FLAG w i (DS := DS)); cbv beta. by rewrite E. }
  destruct (PathParseTreeInsert_unfold path READDIR_FLAG (Some given) s Habs Hroot Hok)
    as (s1 & (Hok1 & Hv1 & _ & _) & _ & Ht & E).
  destruct (Ht Hag) as [Hag1 Hid]. rewrite resolve_in_agrees in E, Hid by done. unfold target_of.
  destruct (resolve _ _ 0) as [i|]; [|by exists s1].
  specialize (Hid _ _ eq_refl).
  destruct (lock_directory_spec _ i (path_name path) (name_length (path_name path)) given s1 Hok1 Hag1 Hid)
    as (s' & E' & Hok' & Hv' & Hag'). exists s'.
  split; [|split; [done|split; [|done]]].
  - rewrite E. unfold mbind, cmd_bind.
    change (parse_target node READDIR_FLAG) with (fun w i => parse_lock_target READDIR_FLAG w i (DS := DS)); cbv beta.
    rewrite E', path_name_take by done. unfold directory_result. rewrite Hv1. done.
  - intros q m. by rewrite Hv', Hv1.
Qed.

(** ** Properties *)

(** The flags the handlers pass. *)
Definition MKDIR_FLAG : Z :=
  Z.lor (Z.lor PATH_PARSE_FLAG_TARGET_IS_DIRECTORY PATH_PARSE_FLAG_TARGET_TO_BE_CREATED)
        PATH_PARSE_FLAG_ALLOW_OPERATION_UNDER_CREATED_DIRECTORY.
Definition RMDIR_FLAG : Z :=
  Z.lor (Z.lor PATH_PARSE_FLAG_TARGET_IS_DIRECTORY PATH_PARSE_FLAG_TARGET_TO_BE_DELETED)
        PATH_PARSE_FLAG_NOT_ROOT.
Definition SETATTR_FLAG : Z := PATH_PARSE_FLAG_ACQUIRE_SHARED_LOCK_IF_TARGET_IS_DIRECTORY.

(** Looking up a path.  On a tree of directories found earlier, the parse
    of an absolute path returns, without running out of steps; it answers
    PATH_IS_INVALID exactly when a directory of the path does not exist, and
    otherwise the inode number that the directory entries lead to and the last
    name of the path.  The tree stays a tree of directories found. *)
Theorem PathParseTreeInsert_lookup path inode (s : state) :
  absolute path -> path <> String SLASH EmptyString -> ds_ok (pp_dir s) ->
  tree_agrees (view_of s) (pp_tree s) ->
  exists s', PathParseTreeInsert node path 0 inode s = Ret
      (match resolve (view_of s) (path_dirs path) 0 with
       | Some parentId => mkResult SUCCESS (Some (parentId, path_name path)) inode
       | None => mkResult PATH_IS_INVALID None inode
       end) s' /\
    same_world s s' /\ tree_agrees (view_of s') (pp_tree s').
Proof.
  intros Habs Hroot Hok Hag.
  destruct (PathParseTreeInsert_unfold path 0 inode s Habs Hroot Hok) as (s1 & Hsw & _ & Ht & E).
  exists s1. rewrite E, resolve_in_agrees by done.
  destruct (Ht Hag) as [Hag1 _]. by destruct (resolve _ _ 0).
Qed.

(** The target of mkdir.  With the parent resolved, an existing directory is
    reported as PATH_EXISTS; otherwise the parse succeeds with a fresh inode
    number from the sequence, leaves the directory entries as they are, and
    notes the new directory so that the rest of the batch can work below it. *)
Theorem PathParseTreeInsert_mkdir path given parentId (s : state) :
  absolute path -> path <> String SLASH EmptyString -> ds_ok (pp_dir s) ->
  tree_agrees (view_of s) (pp_tree s) ->
  resolve (view_of s) (path_dirs path) 0 = Some parentId ->
  let key := path_name path :: rev (path_dirs path) in
  exists s' r, PathParseTreeInsert node path MKDIR_FLAG (Some given) s = Ret r s' /\
    (forall q m, view_of s' q m = view_of s q m) /\
    r_target r = Some (parentId, path_name path) /\
    (view_of s parentId (path_name path) <> DIR_HASH_TABLE_PATH_NOT_EXIST -> r_code r = PATH_EXISTS) /\
    (view_of s parentId (path_name path) = DIR_HASH_TABLE_PATH_NOT_EXIST ->
       exists id, r = mkResult SUCCESS (Some (parentId, path_name path)) (Some id) /\
         (id, pp_nextval s', pp_seq s') =
           (let '(v, next, c) := GetNextSequenceNum (pp_nextval s) (pp_seq s) in
            (GenerateInodeIdBySeqAndNodeId v node, next, c)) /\
         pp_tree s' !! key = Some (mkNode id PP_EXCLUSIVE_FOR_CREATE)).
Proof.
  intros Habs Hroot Hok Hag Hres key.
  destruct (PathParseTreeInsert_unfold path MKDIR_FLAG (Some given) s Habs Hroot Hok) as (s1 & Hsw & Hfr & Ht & E).
  rewrite resolve_in_agrees, Hres, app_nil_r in E by done. destruct (Ht Hag) as [Hag1 Hid].
  specialize (Hid (rev (path_dirs path)) parentId).
  rewrite resolve_in_agrees, Hres, app_nil_r in Hid by done. specialize (Hid eq_refl).
  change (parse_target node MKDIR_FLAG) with (parse_create node MKDIR_FLAG) in E.
  unfold parse_create, rbt_find, gets in E. cbn [has] in E.
  change (has MKDIR_FLAG PATH_PARSE_FLAG_TARGET_IS_DIRECTORY) with true in E.
  change (has MKDIR_FLAG PATH_PARSE_FLAG_INODE_ID_FOR_INPUT) with false in E.
  change (has MKDIR_FLAG PATH_PARSE_FLAG_ALLOW_OPERATION_UNDER_CREATED_DIRECTORY) with true in E.
  cbn [we_rest we_len we_key we_id negb] in E. rewrite path_name_take in E by done. fold key in E.
  unfold mbind, cmd_bind in E. destruct Hsw as (Hok1 & Hv1 & Hn1 & Hq1).
  destruct (pp_tree s1 !! key) as [nd|] eqn:Ek.
  - exists s1. eexists. split; [exact E|]. split; [done|]. split; [done|]. split; [done|].
    intros Hno. destruct (Hag1 _ _ _ Ek) as (_ & Hne & pid & Hp & Ei).
    rewrite Hid in Hp. simplify_eq. rewrite Hv1 in Ei. congruence.
  - destruct (SearchDirectory_returns parentId (path_name path) DIR_LOCK_EXCLUSIVE s1 Hok1)
      as (s2 & E2 & (Hok2 & Hv2 & Hn2 & Hq2) & Ht2). rewrite E2, Hv1 in E.
    destruct (Z.eqb_spec (view_of s parentId (path_name path)) DIR_HASH_TABLE_PATH_NOT_EXIST) as [Ex|Ex];
      cbn [negb] in E.
    + unfold next_inode_id in E. rewrite Hn2, Hn1, Hq2, Hq1 in E.
      destruct (GetNextSequenceNum (pp_nextval s) (pp_seq s)) as [[v next] c] eqn:Eseq.
      unfold rbt_insert, rbt_find, gets, mbind, cmd_bind in E. cbn [pp_tree] in E.
      rewrite Ht2, Ek in E. eexists _, _. split; [exact E|].
      split; [intros q m; unfold view_of in *; simpl; by rewrite Hv2, Hv1|]. split; [done|].
      split; [done|]. intros _. eexists. split; [done|]. split; [done|]. simpl. by rewrite lookup_insert_eq.
    + unfold rbt_insert, rbt_find, gets, mbind, cmd_bind in E. cbn in E.
      rewrite Ht2, Ek in E. eexists _, _. split; [exact E|].
      split; [intros q m; unfold view_of in *; simpl; by rewrite Hv2, Hv1|]. done.
Qed.

(** ** Paths below a locked directory *)

Lemma split_slash_app s t : split_slash (s +:+ String SLASH t) = split_slash s ++ split_slash t.
Proof.
  induction s as [|c s IH]; simpl; [done|]. case_bool_decide; simpl; rewrite IH; [done|].
  destruct (split_slash s) as [|x xs] eqn:E; [by apply split_slash_nonempty in E|done].
Qed.

Lemma path_dirs_below path t :
  absolute path -> path <> String SLASH EmptyString ->
  path_dirs (path +:+ String SLASH t) =
    path_dirs path ++ path_name path :: removelast (split_slash t) /\
  path_name (path +:+ String SLASH t) = List.last (split_slash t) EmptyString /\
  absolute (path +:+ String SLASH t) /\ path +:+ String SLASH t <> String SLASH EmptyString.
Proof.
  intros Habs Hroot. unfold absolute in *. destruct path as [|c [|d path]]; simpl in Habs; simplify_eq.
  change (String SLASH (String d path) +:+ String SLASH t)
    with (String SLASH (String d path +:+ String SLASH t)).
  assert (forall u, u <> EmptyString -> path_dirs (String SLASH u) = String SLASH EmptyString :: removelast (split_slash u) /\
    path_name (String SLASH u) = List.last (split_slash u) EmptyString) as Hu by (by intros [|]).
  destruct (Hu (String d path +:+ String SLASH t)) as [-> ->]; [done|].
  destruct (Hu (String d path)) as [-> ->]; [done|]. rewrite split_slash_app.
  rewrite removelast_app by apply split_slash_nonempty.
  split_and!; [|by apply last_app_ne, split_slash_nonempty|done|done].
  rewrite <- app_comm_cons. f_equal.
  rewrite (app_removelast_last EmptyString (split_slash_nonempty (String d path))) at 1.
  by rewrite <- app_assoc.
Qed.

Lemma resolve_in_app t view dirs1 dirs2 key id :
  resolve_in t view (dirs1 ++ dirs2) key id =
    match resolve_in t view dirs1 key id with
    | inl e => inl e
    | inr (k, i) => resolve_in t view dirs2 k i
    end.
Proof.
  revert key id. induction dirs1 as [|d ds IH]; intros key id; simpl; [done|].
  by destruct (enter t view key id d).
Qed.

(** The walk does not look at positions below its target. *)
Lemma resolve_in_above t view dirs key id k nd :
  (length key + length dirs < length k)%nat ->
  resolve_in (<[k := nd]> t) view dirs key id = resolve_in t view dirs key id.
Proof.
  revert key id. induction dirs as [|d ds IH]; intros key id Hk; simpl in *; [done|].
  unfold enter. rewrite lookup_insert_ne by (intros ->; simpl in Hk; lia).
  destruct (t !! (d :: key)).
  - case_bool_decide; [done|]. apply IH. simpl. lia.
  - destruct (_ =? _); [done|]. apply IH. simpl. lia.
Qed.

Lemma resolve_in_view t view view' dirs key id :
  (forall q m, view q m = view' q m) ->
  resolve_in t view dirs key id = resolve_in t view' dirs key id.
Proof.
  intros Hv. revert key id. induction dirs as [|d ds IH]; intros key id; simpl; [done|].
  unfold enter. rewrite Hv. destruct (t !! (d :: key)).
  - case_bool_decide; [done|]. apply IH.
  - destruct (_ =? _); [done|]. apply IH.
Qed.

Lemma resolve_view view view' dirs id :
  (forall q m, view' q m = view q m) -> resolve view' dirs id = resolve view dirs id.
Proof.
  intros Hv. revert id. induction dirs as [|d ds IH]; intros id; simpl; [done|].
  rewrite Hv. destruct (_ =? _); [done|]. apply IH.
Qed.

(** Removing or renaming a directory shuts off what is below it.  Once the
    parse for its removal has succeeded, every path below that directory is
    answered PATH_LOCK_CONFLICT for the rest of the transaction; in particular
    a directory cannot be renamed into itself. *)
Theorem PathParseTreeInsert_rmdir_locks_subtree path given r (s s' : state) :
  absolute path -> path <> String SLASH EmptyString -> ds_ok (pp_dir s) ->
  tree_agrees (view_of s) (pp_tree s) ->
  PathParseTreeInsert node path RMDIR_FLAG (Some given) s = Ret r s' -> r_code r = SUCCESS ->
  forall t flag inode, exists s'',
    PathParseTreeInsert node (path +:+ String SLASH t) flag inode s'
      = Ret (mkResult PATH_LOCK_CONFLICT None inode) s''.
Proof.
  intros Habs Hroot Hok Hag Hrun Hcode t flag inode.
  destruct (PathParseTreeInsert_unfold path RMDIR_FLAG (Some given) s Habs Hroot Hok)
    as (s1 & Hsw & Hfr & Ht & E).
  rewrite E, resolve_in_agrees in Hrun by done. destruct (Ht Hag) as [Hag1 Hid].
  destruct (resolve (view_of s) (path_dirs path) 0) as [pid|] eqn:Hres; [|by simplify_eq].
  set (key := rev (path_dirs path)) in *. rewrite app_nil_r in Hrun. clear E.
  change (parse_target node RMDIR_FLAG) with (fun w inode => parse_delete w inode (DS := DS)) in Hrun.
  cbv beta in Hrun. unfold parse_delete, rbt_find, gets in Hrun.
  cbn [we_rest we_len we_key we_id] in Hrun. rewrite path_name_take in Hrun by done.
  unfold mbind, cmd_bind, mret, cmd_ret in Hrun. destruct Hsw as (Hok1 & Hv1 & _ & _).
  destruct (pp_tree s1 !! (path_name path :: key)) as [nd|] eqn:Ek.
  { destruct (Hag1 _ _ _ Ek) as (Hsh & _). rewrite bool_decide_eq_true_2 in Hrun by (destruct (lock_kept _ Hsh); done).
    by simplify_eq/=. }
  destruct (SearchDirectory_returns pid (path_name path) DIR_LOCK_EXCLUSIVE s1 Hok1)
    as (s2 & E2 & (Hok2 & Hv2 & _ & _) & Ht2). rewrite E2 in Hrun.
  destruct (_ =? _); [by simplify_eq/=|].
  unfold rbt_insert, rbt_find, gets, mbind, cmd_bind, set_node, modify in Hrun. rewrite Ht2, Ek in Hrun. simplify_eq/=.
  destruct (path_dirs_below path t Habs Hroot) as (Ed & _ & Habs' & Hroot').
  match goal with |- context [PathParseTreeInsert _ _ _ _ ?st] =>
    destruct (PathParseTreeInsert_unfold (path +:+ String SLASH t) flag inode st Habs' Hroot' Hok2)
      as (s3 & _ & _ & _ & ->) end.
  exists s3. rewrite Ed, resolve_in_app. unfold view_of. cbn [pp_tree pp_dir].
  assert (resolve_in (<[path_name path :: key := mkNode (ds_view (pp_dir s1) pid (path_name path)) PP_EXCLUSIVE]>
    (pp_tree s2)) (ds_view (pp_dir s2)) (path_dirs path) [] 0 = inr (key, pid)) as ->.
  { rewrite Ht2, resolve_in_above.
    - rewrite (resolve_in_view _ _ (view_of s1)) by (intros; apply Hv2).
      rewrite resolve_in_agrees by done. rewrite (resolve_view (view_of s)) by (intros; apply Hv1).
      by rewrite Hres, app_nil_r.
    - simpl. unfold key. rewrite length_rev. lia. }
  simpl. unfold enter. rewrite lookup_insert_eq. done.
Qed.

Lemma ds_release_last_returns (s : state) :
  ds_ok (pp_dir s) ->
  exists s', on_dir ds_release_last s = Ret tt s' /\ same_world s s' /\ pp_tree s' = pp_tree s.
Proof.
  intros Hok. destruct (ds_release_returns (pp_dir s) Hok) as (d & E).
  destruct (ds_release_spec _ d Hok E) as (Hok' & Hv).
  unfold on_dir. rewrite E. eexists. split; [done|]. split; [unfold same_world; by split_and!|done].
Qed.

(** A name that is not a directory is accepted as one.  Setting attributes
    of a file notes its name in the tree without a lock; a later path of the
    same transaction below that file, which should be PATH_IS_INVALID, is then
    answered SUCCESS with the invalid inode number as its parent. *)
Theorem PathParseTreeInsert_below_file path t parentId given inode (s : state) :
  absolute path -> path <> String SLASH EmptyString -> ds_ok (pp_dir s) ->
  tree_agrees (view_of s) (pp_tree s) ->
  resolve (view_of s) (path_dirs path) 0 = Some parentId ->
  view_of s parentId (path_name path) = DIR_HASH_TABLE_PATH_NOT_EXIST -> split_slash t = [t] ->
  exists s1 s2,
    PathParseTreeInsert node path SETATTR_FLAG (Some given) s =
      Ret (mkResult SUCCESS (Some (parentId, path_name path)) (Some DIR_HASH_TABLE_PATH_NOT_EXIST)) s1 /\
    PathParseTreeInsert node (path +:+ String SLASH t) 0 inode s1 =
      Ret (mkResult SUCCESS (Some (DIR_HASH_TABLE_PATH_NOT_EXIST, t)) inode) s2.
Proof.
  intros Habs Hroot Hok Hag Hres Hno Ht.
  destruct (PathParseTreeInsert_unfold path SETATTR_FLAG (Some given) s Habs Hroot Hok)
    as (s1 & (Hok1 & Hv1 & _ & _) & Hfr & Htr & E).
  rewrite resolve_in_agrees, Hres, app_nil_r in E by done. destruct (Htr Hag) as [Hag1 Hid].
  specialize (Hid (rev (path_dirs path)) parentId).
  rewrite resolve_in_agrees, Hres, app_nil_r in Hid by done. specialize (Hid eq_refl).
  set (key := rev (path_dirs path)) in *.
  change (parse_target node SETATTR_FLAG) with (fun w inode => parse_lock_target SETATTR_FLAG w inode (DS := DS)) in E.
  cbv beta in E. unfold parse_lock_target, rbt_find, gets in E.
  cbn [we_rest we_len we_key we_id] in E. rewrite path_name_take in E by done.
  unfold mbind, cmd_bind, mret, cmd_ret in E.
  destruct (pp_tree s1 !! (path_name path :: key)) as [nd|] eqn:Ek.
  { exfalso. destruct (Hag1 _ _ _ Ek) as (_ & Hne & pid & Hp & Ei).
    rewrite Hid in Hp. simplify_eq. rewrite Hv1 in Ei. congruence. }
  destruct (SearchDirectory_returns parentId (path_name path) DIR_LOCK_SHARED s1 Hok1)
    as (s2 & E2 & (Hok2 & Hv2 & _ & _) & Ht2).
  rewrite E2, Hv1, Hno, Z.eqb_refl in E. cbn [andb] in E.
  change (has SETATTR_FLAG PATH_PARSE_FLAG_TARGET_IS_DIRECTORY) with false in E. cbv iota in E.
  destruct (ds_release_last_returns s2 Hok2) as (s3 & E3 & (Hok3 & Hv3 & _ & _) & Ht3).
  cbv beta in E. rewrite E3 in E.
  unfold rbt_insert, rbt_find, gets, mbind, cmd_bind, set_node, modify in E. rewrite Ht3, Ht2, Ek in E.
  cbn in E. eexists. rewrite E. clear E.
  destruct (path_dirs_below path t Habs Hroot) as (Ed & En & Habs' & Hroot'). rewrite Ht in Ed, En. simpl in Ed, En.
  match goal with |- exists s2, Ret _ ?st = _ /\ _ =>
    destruct (PathParseTreeInsert_unfold (path +:+ String SLASH t) 0 inode st Habs' Hroot' Hok3)
      as (s4 & _ & _ & _ & E4); exists s4; split; [done|rewrite E4] end.
  rewrite Ed, resolve_in_app. unfold view_of. cbn [pp_tree pp_dir].
  rewrite Ht3, Ht2, resolve_in_above by (simpl; unfold key; rewrite length_rev; lia).
  rewrite (resolve_in_view _ _ (view_of s1)) by (intros; rewrite <- Hv2; apply Hv3).
  rewrite resolve_in_agrees by done. rewrite (resolve_view (view_of s)) by (intros; apply Hv1).
  rewrite Hres, app_nil_r. fold key. simpl. unfold enter. rewrite lookup_insert_eq. simpl. by rewrite En.
Qed.

(** ** Checking whether a path exists *)

(** The names looked up: a separator at the end adds none. *)
Definition check_names (rest : string) : list string :=
  if bool_decide (List.last (split_slash rest) EmptyString = EmptyString)
  then removelast (split_slash rest) else split_slash rest.

Lemma check_loop_unfold fuel rest len id (s : state) :
  rest <> EmptyString ->
  check_loop (S fuel) false rest len id s =
  (cur ← SearchDirectory id (str_take len rest) DIR_LOCK_NONE;
   if cur =? DIR_HASH_TABLE_PATH_NOT_EXIST then mret DIR_HASH_TABLE_PATH_NOT_EXIST
   else match String.get len rest with
        | None => mret cur
        | Some _ => check_loop fuel false (str_drop (len + 1) rest)
                      (name_length (str_drop (len + 1) rest)) cur
        end) s.
Proof. by destruct rest. Qed.

Lemma check_loop_spec fuel rest id (s : state) :
  ds_ok (pp_dir s) -> (String.length rest < fuel)%nat ->
  exists s', check_loop fuel false rest (name_length rest) id s =
      Ret (default DIR_HASH_TABLE_PATH_NOT_EXIST (resolve (view_of s) (check_names rest) id)) s' /\
    same_world s s' /\ pp_tree s' = pp_tree s.
Proof.
  revert rest id s. induction fuel as [|fuel IH]; intros rest id s Hok Hf; [lia|].
  destruct (decide (rest = EmptyString)) as [->|Hne]; [exists s; split_and!; auto using same_world_refl|].
  rewrite check_loop_unfold by done.
  destruct (SearchDirectory_returns id (str_take (name_length rest) rest) DIR_LOCK_NONE s Hok)
    as (s1 & E1 & Hsw & Ht). unfold mbind, cmd_bind. rewrite E1.
  unfold check_names. destruct (split_slash_cases rest) as [(Es & Eg & Et)|(Eg & Es & El)].
  - rewrite Es, Eg, Et. simpl List.last. rewrite bool_decide_eq_false_2 by done. simpl.
    destruct (_ =? _); exists s1; auto.
  - rewrite Es, Eg. set (rest' := str_drop (name_length rest + 1) rest) in *.
    rewrite removelast_cons, last_cons by apply split_slash_nonempty. fold (check_names rest').
    assert ((if bool_decide (List.last (split_slash rest') "" = "")
      then str_take (name_length rest) rest :: removelast (split_slash rest')
      else str_take (name_length rest) rest :: split_slash rest')
      = str_take (name_length rest) rest :: check_names rest') as ->.
    { unfold check_names. by case_bool_decide. }
    simpl. destruct (_ =? _); [exists s1; auto|].
    destruct (IH rest' (view_of s id (str_take (name_length rest) rest)) s1) as (s2 & E2 & Hsw2 & Ht2);
      [apply Hsw|lia|]. exists s2. rewrite E2. split_and!.
    + f_equal. f_equal. apply resolve_view. apply Hsw.
    + by eapply same_world_trans.
    + congruence.
Qed.

Lemma CheckWhetherPathExists_spec rest (s : state) :
  ds_ok (pp_dir s) ->
  exists s', CheckWhetherPathExistsInDirectoryTable (String SLASH rest) s =
      Ret (default DIR_HASH_TABLE_PATH_NOT_EXIST
             (resolve (view_of s) (String SLASH EmptyString :: check_names rest) 0)) s' /\
    same_world s s' /\ pp_tree s' = pp_tree s.
Proof.
  intros Hok. unfold CheckWhetherPathExistsInDirectoryTable. rewrite bool_decide_eq_true_2 by done.
  cbn [negb check_loop str_take]. unfold mbind, cmd_bind.
  destruct (SearchDirectory_returns 0 (String SLASH EmptyString) DIR_LOCK_NONE s Hok) as (s1 & E1 & Hsw & Ht).
  replace (match rest with "" => EmptyString | String _ _ => EmptyString end) with EmptyString by (by destruct rest).
  rewrite E1. simpl resolve. destruct (_ =? _); [exists s1; auto|].
  cbn [str_drop]. replace (match rest with "" => rest | String _ _ => rest end) with rest by (by destruct rest).
  destruct (check_loop_spec (String.length (String SLASH rest)) rest (view_of s 0 (String SLASH EmptyString)) s1)
    as (s2 & E2 & Hsw2 & Ht2); [apply Hsw|simpl; lia|].
  exists s2. split_and!; [|by eapply same_world_trans|congruence].
  rewrite E2. f_equal. f_equal. apply resolve_view. apply Hsw.
Qed.

Lemma path_names path :
  absolute path -> path <> String SLASH EmptyString ->
  exists rest, path = String SLASH rest /\
    path_dirs path ++ [path_name path] = String SLASH EmptyString :: split_slash rest.
Proof.
  intros Habs Hroot. unfold absolute in Habs. destruct path as [|c [|d rest]]; simpl in Habs; simplify_eq.
  exists (String d rest). split; [done|]. cbn [path_dirs path_name str_drop]. rewrite <- app_comm_cons. f_equal.
  symmetry. apply app_removelast_last, split_slash_nonempty.
Qed.

(** A separator at the end.  For an existing directory the path with a
    trailing separator passes VerifyPathValidity as a directory and
    CheckWhetherPathExistsInDirectoryTable finds the directory, but the parse
    for its removal looks for an entry with an empty name inside it and answers
    PATH_NOT_EXISTS. *)
Theorem trailing_separator path id given (s : state) :
  absolute path -> path <> String SLASH EmptyString -> ds_ok (pp_dir s) ->
  tree_agrees (view_of s) (pp_tree s) ->
  resolve (view_of s) (path_dirs path ++ [path_name path]) 0 = Some id ->
  view_of s id EmptyString = DIR_HASH_TABLE_PATH_NOT_EXIST ->
  let path' := path +:+ String SLASH EmptyString in
  (VerifyPathValidity path' VERIFY_PATH_VALIDITY_REQUIREMENT_MUST_BE_DIRECTORY).1 = SUCCESS /\
  (exists s1, CheckWhetherPathExistsInDirectoryTable path' s = Ret id s1) /\
  (exists s2, PathParseTreeInsert node path' RMDIR_FLAG (Some given) s =
     Ret (mkResult PATH_NOT_EXISTS (Some (id, EmptyString)) (Some DIR_HASH_TABLE_PATH_NOT_EXIST)) s2).
Proof.
  intros Habs Hroot Hok Hag Hres Hempty path'.
  destruct (path_names path Habs Hroot) as (rest & -> & En). split_and!.
  - unfold VerifyPathValidity. rewrite bool_decide_eq_true_2 by done. cbn [negb].
    by destruct (bool_decide _).
  - destruct (CheckWhetherPathExists_spec (rest +:+ String SLASH EmptyString) s Hok) as (s1 & E & _).
    exists s1. unfold path'.
    change (String SLASH rest +:+ String SLASH "") with (String SLASH (rest +:+ String SLASH "")).
    rewrite E. unfold check_names. rewrite split_slash_app, last_app_ne by done.
    rewrite bool_decide_eq_true_2 by done. rewrite removelast_app, app_nil_r by done.
    by rewrite <- En, Hres.
  - destruct (path_dirs_below (String SLASH rest) EmptyString Habs Hroot) as (Ed & Enm & Habs' & Hroot').
    fold path' in Ed, Enm, Habs', Hroot'. cbn [split_slash List.last] in Enm.
    destruct (PathParseTreeInsert_unfold path' RMDIR_FLAG (Some given) s Habs' Hroot' Hok)
      as (s1 & (Hok1 & Hv1 & _ & _) & Hfr & Htr & E).
    rewrite Ed in E. cbn [split_slash removelast] in E.
    rewrite resolve_in_agrees, Hres, app_nil_r in E by done. rewrite Enm in E.
    destruct (Htr Hag) as [Hag1 Hid]. specialize (Hid (rev (path_dirs path')) id).
    rewrite resolve_in_agrees, Ed in Hid by done. cbn [split_slash removelast] in Hid.
    rewrite Hres, app_nil_r in Hid. specialize (Hid eq_refl).
    change (parse_target node RMDIR_FLAG) with (fun w inode => parse_delete w inode (DS := DS)) in E.
    cbv beta in E. unfold parse_delete, rbt_find, gets in E.
    cbn [we_rest we_len we_key we_id str_take name_length] in E.
    unfold mbind, cmd_bind, mret, cmd_ret in E.
    match type of E with context [pp_tree s1 !! ?k] => destruct (pp_tree s1 !! k) as [nd|] eqn:Ek end.
    { exfalso. destruct (Hag1 _ _ _ Ek) as (_ & Hne & pid & Hp & Ei).
      rewrite Hid in Hp. simplify_eq. rewrite Hv1 in Ei. congruence. }
    destruct (SearchDirectory_returns id EmptyString DIR_LOCK_EXCLUSIVE s1 Hok1) as (s2 & E2 & _).
    rewrite E2, Hv1, Hempty, Z.eqb_refl in E. by exists s2.
Qed.

End Total.
End PathParseProofs.

(** ** Instances *)

(** The root directory with inode number 1 and the directory /a below it. *)
Definition demo_table : gmap (Z * string) Z := {[ (0, "/"%string) := 1; (1, "a"%string) := 5 ]}.
Definition demo_pp : pp_state (Dir := gmap (Z * string) Z) := mkPP ∅ 1 empty_cache demo_table.

Lemma demo_agrees : tree_agrees (view_of demo_pp) (pp_tree demo_pp).
Proof. intros n p nd H. simpl in H. by rewrite lookup_empty in H. Qed.

Lemma PathParseTreeInsert_lookup_witness :
  exists s', PathParseTreeInsert 0 "/a/f" 0 None demo_pp
    = Ret (mkResult SUCCESS (Some (5, "f"%string)) None) s'.
Proof.
  destruct (PathParseTreeInsert_lookup 0 "/a/f" None demo_pp eq_refl ltac:(done) I demo_agrees)
    as (s' & E & _). exists s'. exact E.
Defined.

Lemma PathParseTreeInsert_mkdir_witness :
  exists s', PathParseTreeInsert 3 "/a/d" MKDIR_FLAG (Some 0) demo_pp
    = Ret (mkResult SUCCESS (Some (5, "d"%string)) (Some (4096 + 3))) s'.
Proof.
  destruct (PathParseTreeInsert_mkdir 3 "/a/d" 0 5 demo_pp eq_refl ltac:(done) I demo_agrees eq_refl)
    as (s' & r & E & _ & _ & _ & H). destruct (H eq_refl) as (id & -> & Eid & _).
  exists s'. rewrite E. simpl in Eid. injection Eid as -> _ _. reflexivity.
Defined.

Lemma PathParseTreeInsert_rmdir_locks_subtree_witness :
  exists r s', PathParseTreeInsert 0 "/a" RMDIR_FLAG (Some 0) demo_pp = Ret r s' /\
    exists s'', PathParseTreeInsert 0 "/a/b" 0 None s' = Ret (mkResult PATH_LOCK_CONFLICT None None) s''.
Proof.
  eexists _, _. split; [reflexivity|].
  apply (PathParseTreeInsert_rmdir_locks_subtree 0 "/a" 0 _ demo_pp _ eq_refl ltac:(done) I demo_agrees
    eq_refl eq_refl "b" 0 None).
Defined.

Lemma PathParseTreeInsert_below_file_witness :
  exists s1 s2,
    PathParseTreeInsert 0 "/f" SETATTR_FLAG (Some 0) demo_pp =
      Ret (mkResult SUCCESS (Some (1, "f"%string)) (Some DIR_HASH_TABLE_PATH_NOT_EXIST)) s1 /\
    PathParseTreeInsert 0 "/f/x" 0 None s1 =
      Ret (mkResult SUCCESS (Some (DIR_HASH_TABLE_PATH_NOT_EXIST, "x"%string)) None) s2.
Proof.
  apply (PathParseTreeInsert_below_file 0 "/f" "x" 1 0 None demo_pp eq_refl ltac:(done) I demo_agrees
    eq_refl eq_refl eq_refl).
Defined.

Lemma trailing_separator_witness :
  exists s2, PathParseTreeInsert 0 "/a/" RMDIR_FLAG (Some 0) demo_pp =
    Ret (mkResult PATH_NOT_EXISTS (Some (5, EmptyString)) (Some DIR_HASH_TABLE_PATH_NOT_EXIST)) s2.
Proof.
  apply (trailing_separator 0 "/a" 5 0 demo_pp eq_refl ltac:(done) I demo_agrees eq_refl eq_refl).
Defined.
