(* ===== verification/DirPathHash.v ===== *)
(** * The shared directory cache (falcon/dir_path_shmem/dir_path_hash.c)

    A hash table in shared memory, in 128 partitions, caches the entries of the
    directory table, absent ones included, each with a reader-writer lock.  A
    transaction changes the directory table at once and notes the change; the
    cache is brought up to date when the transaction commits.

    The hash function, the room left in a partition and the order in which
    hash_seq_search visits it belong to PostgreSQL and are parameters.  The
    lock of an entry is the lock word at an address that the key determines. *)

From S2P Require Import FalconPrelude Rwlock DirService.

Definition DIR_PATH_HASH_PARTITION_SIZE : Z := 128.
Definition MAX_DIRECTORY_HASH_TO_COMMIT_ACTION_LENGTH : nat := Z.to_nat 4096.
Definition MAX_DIRECTORY_PATH_HASH_CAPACITY : Z := 2048.
Definition MAX_BUCKET_SUM_LRU_CLAER_BEGIN : Z := MAX_DIRECTORY_PATH_HASH_CAPACITY / 4 * 3.

(** DirPathHashKey: the parent and the name. *)
Abbreviation DirPathHashKey := (Z * string)%type (only parsing).

Record DirPathHashItem : Type := mkItem { it_inodeId : Z; it_usageCount : Z }.

(** DirPathHashToCommitAction with its DirPathHashToCommitActionInfo. *)
Inductive commit_action : Type :=
| ActionA (k : DirPathHashKey)
| ActionU (k : DirPathHashKey) (inodeId : Z).

(** The directory table as the transaction sees it, the cache with its entry
    counts, the actions of the transaction, DirectoryHashTableLastAcquiredLock,
    and the lock words with the handles of the backend. *)
Record dph : Type := mkDph {
  d_table : gmap DirPathHashKey Z;
  d_cache : gmap DirPathHashKey DirPathHashItem;
  d_count : gmap Z Z;
  d_actions : list commit_action;
  d_last : option DirPathHashKey;
  d_rw : rw;
}.

(** The comparison of keys, 0 for equal keys as hash_search asks for. *)
Definition strcmp (s1 s2 : string) : Z :=
  match String.compare s1 s2 with Eq => 0 | Lt => -1 | Gt => 1 end.
Definition dir_path_compare (d1 d2 : DirPathHashKey) : Z :=
  if d2.1 <? d1.1 then 1 else if d1.1 <? d2.1 then -1 else strcmp d1.2 d2.2.
Definition dir_path_match (key1 key2 : DirPathHashKey) : Z := dir_path_compare key1 key2.

Lemma string_compare_refl n : String.compare n n = Eq.
Proof. induction n as [|c n IH]; simpl; [done|]. unfold Ascii.compare. by rewrite N.compare_refl. Qed.

(** Keys match when parent and name are the same, so the tables are maps from
    pairs. *)
Lemma dir_path_match_equal k1 k2 : dir_path_match k1 k2 = 0 <-> k1 = k2.
Proof.
  destruct k1 as [p1 n1], k2 as [p2 n2]. unfold dir_path_match, dir_path_compare, strcmp. simpl.
  destruct (Z.ltb_spec p2 p1), (Z.ltb_spec p1 p2); try (split; [done|intros [=]; lia]).
  assert (p1 = p2) as -> by lia.
  destruct (String.compare n1 n2) eqn:E.
  - apply String.compare_eq_iff in E as ->. done.
  - split; [done|]. intros [= ->]. by rewrite string_compare_refl in E.
  - split; [done|]. intros [= ->]. by rewrite string_compare_refl in E.
Qed.

(** The address of the lock of an entry. *)
Definition lock_addr (k : DirPathHashKey) : loc := Zpos (countable.encode k).

Section DirPathHash.
Context (dir_path_hash : DirPathHashKey -> Z).
Context (room : gmap DirPathHashKey DirPathHashItem -> Z -> bool).
Context (hash_seq : gmap DirPathHashKey DirPathHashItem -> Z -> list DirPathHashKey).
Context (rand_skip : gmap DirPathHashKey DirPathHashItem -> nat).
Context (fuel : nat).

Definition DIR_PATH_HASH_PARTITION_INDEX (k : DirPathHashKey) : Z :=
  dir_path_hash k `mod` DIR_PATH_HASH_PARTITION_SIZE.

Definition set_cache (f : gmap DirPathHashKey DirPathHashItem -> gmap DirPathHashKey DirPathHashItem)
    : cmd dph unit :=
  modify (fun s => mkDph (d_table s) (f (d_cache s)) (d_count s) (d_actions s) (d_last s) (d_rw s)).
Definition set_table (f : gmap DirPathHashKey Z -> gmap DirPathHashKey Z) : cmd dph unit :=
  modify (fun s => mkDph (f (d_table s)) (d_cache s) (d_count s) (d_actions s) (d_last s) (d_rw s)).
Definition set_actions (f : list commit_action -> list commit_action) : cmd dph unit :=
  modify (fun s => mkDph (d_table s) (d_cache s) (d_count s) (f (d_actions s)) (d_last s) (d_rw s)).
Definition set_last (k : DirPathHashKey) : cmd dph unit :=
  modify (fun s => mkDph (d_table s) (d_cache s) (d_count s) (d_actions s) (Some k) (d_rw s)).
Definition add_count (part delta : Z) : cmd dph unit :=
  modify (fun s => mkDph (d_table s) (d_cache s)
    (<[part := u32 (default 0 (d_count s !! part) + delta)]> (d_count s))
    (d_actions s) (d_last s) (d_rw s)).
Definition on_rw {A} (m : cmd rw A) : cmd dph A := fun s =>
  let back r := mkDph (d_table s) (d_cache s) (d_count s) (d_actions s) (d_last s) r in
  match m (d_rw s) with
  | Ret a r => Ret a (back r)
  | Raise e r => Raise e (back r)
  | OutOfFuel => OutOfFuel
  end.

(** ** The directory table (falcon/metadb/directory_table.c) *)

Definition SearchDirectoryTableInfo (k : DirPathHashKey) : cmd dph Z :=
  gets (fun s => table_view (d_table s) k.1 k.2).

(** The index on parent and name is unique. *)
Definition InsertIntoDirectoryTable (k : DirPathHashKey) (inodeId : Z) : cmd dph unit :=
  s ← get;
  match d_table s !! k with
  | None => set_table (<[k := inodeId]>)
  | Some _ => raise UNKNOWN
  end.

Definition DeleteFromDirectoryTable (k : DirPathHashKey) : cmd dph unit :=
  s ← get;
  match d_table s !! k with
  | None => raise ARGUMENT_ERROR
  | Some _ => set_table (delete k)
  end.

(** ** Actions *)

Definition add_action (a : commit_action) : cmd dph unit :=
  s ← get;
  _ ← raise_unless (bool_decide (length (d_actions s) < MAX_DIRECTORY_HASH_TO_COMMIT_ACTION_LENGTH)%nat)
        PROGRAM_ERROR;
  set_actions (fun l => l ++ [a]).

Definition DirPathHashToCommitAddEntry (k : DirPathHashKey) : cmd dph unit := add_action (ActionA k).
Definition DirPathHashToCommitUpdateEntry (k : DirPathHashKey) (inodeId : Z) : cmd dph unit :=
  add_action (ActionU k inodeId).
Definition DirPathHashToCommitClear : cmd dph unit := set_actions (fun _ => []).

(** ** Eviction *)

(** FindNextItem over the keys still to be visited: the entry it stops at, the
    number of destroyable entries it saw, and the cache with the usage counts
    it lowered. *)
Fixpoint FindNextItem (m : mem) (keys : list DirPathHashKey) (cnt : Z)
    (c : gmap DirPathHashKey DirPathHashItem)
    : option DirPathHashKey * Z * gmap DirPathHashKey DirPathHashItem :=
  match keys with
  | [] => (None, cnt, c)
  | k :: ks =>
      match c !! k with
      | None => FindNextItem m ks cnt c
      | Some it =>
          if negb (RWLockCheckDestroyable (lock_addr k) m) then FindNextItem m ks cnt c
          else
            let u := s32 (it_usageCount it - 1) in
            let c' := <[k := mkItem (it_inodeId it) u]> c in
            if u <=? 0 then (Some k, cnt + 1, c') else FindNextItem m ks (cnt + 1) c'
      end
  end.

(** The passes over the whole partition until an entry is found or none can be
    destroyed; [None] when [n] passes were not enough. *)
Fixpoint search_passes (n : nat) (m : mem) (part : Z) (c : gmap DirPathHashKey DirPathHashItem)
    : option (option DirPathHashKey * gmap DirPathHashKey DirPathHashItem) :=
  match n with
  | O => None
  | S n' =>
      let '(entry, cnt, c') := FindNextItem m (hash_seq c part) 0 c in
      match entry with
      | Some k => Some (Some k, c')
      | None => if cnt =? 0 then Some (None, c') else search_passes n' m part c'
      end
  end.

Fixpoint eliminate_loop (n : nat) (part : Z) : cmd dph bool := fun s =>
  let m := (d_rw s).1 in
  let '(first, _, c1) := FindNextItem m (drop (rand_skip (d_cache s)) (hash_seq (d_cache s) part)) 0 (d_cache s) in
  match (match first with Some k => Some (Some k, c1) | None => search_passes fuel m part c1 end) with
  | None => OutOfFuel
  | Some (None, c2) => Ret false (mkDph (d_table s) c2 (d_count s) (d_actions s) (d_last s) (d_rw s))
  | Some (Some k, c2) =>
      let found := bool_decide (is_Some (c2 !! k)) in
      if negb found || negb (RWLockCheckDestroyable (lock_addr k) m) then
        match n with
        | O => OutOfFuel
        | S n' => eliminate_loop n' part
                    (mkDph (d_table s) c2 (d_count s) (d_actions s) (d_last s) (d_rw s))
        end
      else
        (_ ← set_cache (fun _ => delete k c2);
         _ ← add_count part (-1);
         mret true) s
  end.

Definition EliminateDirPathHashByLRU (part : Z) : cmd dph bool :=
  s ← get;
  if default 0 (d_count s !! part) <=? MAX_BUCKET_SUM_LRU_CLAER_BEGIN / DIR_PATH_HASH_PARTITION_SIZE
  then mret false
  else eliminate_loop fuel part.

(** ** The operations *)

(** The for(;;) loop: whether there is an entry for the key afterwards.  The
    value is what the directory table says; [known] is false in the deletion,
    which neither compares nor overwrites an existing entry. *)
Fixpoint enter_loop (n : nat) (k : DirPathHashKey) (lockMode : DirPathLockMode) (known : bool) (v : Z)
    : cmd dph bool := fun s =>
  match d_cache s !! k with
  | Some it =>
      if negb known then Ret true s
      else if it_inodeId it =? DIR_HASH_TABLE_PATH_UNKNOWN then
        (_ ← set_cache (<[k := mkItem v (it_usageCount it)]>); mret true) s
      else if negb (it_inodeId it =? v) then Raise PROGRAM_ERROR s
      else Ret true s
  | None =>
      if room (d_cache s) (DIR_PATH_HASH_PARTITION_INDEX k) then
        (_ ← add_count (DIR_PATH_HASH_PARTITION_INDEX k) 1;
         _ ← on_rw (fun r => Ret tt (RWLockInitialize (lock_addr k) r.1, r.2));
         _ ← set_cache (<[k := mkItem v 0]>);
         _ ← DirPathHashToCommitAddEntry k;
         mret true) s
      else if bool_decide (lockMode <> DIR_LOCK_NONE) then
        match n with
        | O => OutOfFuel
        | S n' => (_ ← EliminateDirPathHashByLRU (DIR_PATH_HASH_PARTITION_INDEX k);
                   enter_loop n' k lockMode known v) s
        end
      else Ret false s
  end.

(** usageCount++, then the lock of the entry in the mode asked for. *)
Definition lock_item (k : DirPathHashKey) (lockMode : DirPathLockMode) : cmd dph unit :=
  _ ← set_cache (alter (fun it => mkItem (it_inodeId it) (s32 (it_usageCount it + 1))) k);
  match lockMode with
  | DIR_LOCK_NONE => mret tt
  | _ =>
      _ ← on_rw (RWLockDeclare (lock_addr k));
      _ ← on_rw (RWLockAcquire fuel (lock_addr k)
                   (match lockMode with DIR_LOCK_EXCLUSIVE => RW_EXCLUSIVE | _ => RW_SHARED end));
      _ ← on_rw (RWLockUndeclare (lock_addr k));
      set_last k
  end.

(** Whether the entry is cached with a known inode number. *)
Definition cached_known (s : dph) (k : DirPathHashKey) : bool :=
  match d_cache s !! k with
  | Some it => negb (it_inodeId it =? DIR_HASH_TABLE_PATH_UNKNOWN)
  | None => false
  end.

Definition SearchDirectoryByDirectoryHashTable (parentId : Z) (name : string) (lockMode : DirPathLockMode)
    : cmd dph Z :=
  let k := (parentId, name) in
  s ← get;
  inodeId ← (if cached_known s k then mret 0 else SearchDirectoryTableInfo k);
  item ← (if cached_known s k then mret true else enter_loop fuel k lockMode true inodeId);
  if negb (item : bool) then mret inodeId
  else
    _ ← lock_item k lockMode;
    s' ← get;
    mret (match d_cache s' !! k with Some it => it_inodeId it | None => inodeId end).

Definition InsertDirectoryByDirectoryHashTable (parentId : Z) (name : string) (inodeId : Z)
    (lockMode : DirPathLockMode) : cmd dph unit :=
  let k := (parentId, name) in
  s ← get;
  item ← (if cached_known s k then mret true
          else
            tempId ← SearchDirectoryTableInfo k;
            _ ← raise_unless (tempId =? DIR_HASH_TABLE_PATH_NOT_EXIST) ARGUMENT_ERROR;
            enter_loop fuel k lockMode true tempId);
  if negb (item : bool) then InsertIntoDirectoryTable k inodeId
  else
    _ ← lock_item k lockMode;
    _ ← InsertIntoDirectoryTable k inodeId;
    DirPathHashToCommitUpdateEntry k inodeId.

Definition DeleteDirectoryByDirectoryHashTable (parentId : Z) (name : string)
    (lockMode : DirPathLockMode) : cmd dph unit :=
  let k := (parentId, name) in
  _ ← raise_unless (bool_decide (lockMode <> DIR_LOCK_SHARED)) PROGRAM_ERROR;
  s ← get;
  item ← (if bool_decide (is_Some (d_cache s !! k)) then mret true
          else enter_loop fuel k lockMode false DIR_HASH_TABLE_PATH_UNKNOWN);
  if negb (item : bool) then DeleteFromDirectoryTable k
  else
    _ ← lock_item k lockMode;
    _ ← DeleteFromDirectoryTable k;
    DirPathHashToCommitUpdateEntry k DIR_HASH_TABLE_PATH_NOT_EXIST.

(** RWLockRelease(DirectoryHashTableLastAcquiredLock). *)
Definition release_last : cmd dph unit :=
  s ← get;
  match d_last s with
  | Some k => on_rw (RWLockRelease (lock_addr k))
  | None => raise PROGRAM_ERROR
  end.

Definition ReleaseDirPathHashLock (parentId : Z) (filename : string) : cmd dph unit :=
  s ← get;
  match d_cache s !! (parentId, filename) with
  | None => raise FILE_NOT_EXISTS
  | Some _ => on_rw (RWLockRelease (lock_addr (parentId, filename)))
  end.

(** The SQL functions that take and release the lock of one entry. *)
Definition falcon_acquire_hash_lock (fileName : string) (parentId lockNum : Z) : cmd dph unit :=
  lockMode ← (if lockNum =? 0 then mret DIR_LOCK_NONE
              else if lockNum =? 1 then mret DIR_LOCK_SHARED
              else if lockNum =? 2 then mret DIR_LOCK_EXCLUSIVE
              else raise PROGRAM_ERROR);
  res ← SearchDirectoryByDirectoryHashTable parentId fileName lockMode;
  raise_unless (negb (res =? DIR_HASH_TABLE_PATH_NOT_EXIST)) PROGRAM_ERROR.

Definition falcon_release_hash_lock (fileName : string) (parentId : Z) : cmd dph unit :=
  ReleaseDirPathHashLock parentId fileName.

(** ** The end of the transaction

    An element the table hands out again was evicted with a usage count of at
    most 0 and an unused lock; it counts as 0 here. *)

Definition commit_one (a : commit_action) : cmd dph unit :=
  match a with
  | ActionA k => _ ← EliminateDirPathHashByLRU (DIR_PATH_HASH_PARTITION_INDEX k); mret tt
  | ActionU k v => fun s =>
      match d_cache s !! k with
      | Some it => set_cache (<[k := mkItem v (it_usageCount it)]>) s
      | None =>
          if room (d_cache s) (DIR_PATH_HASH_PARTITION_INDEX k) then
            (_ ← add_count (DIR_PATH_HASH_PARTITION_INDEX k) 1;
             set_cache (<[k := mkItem v 0]>)) s
          else Ret tt s
      end
  end.

Fixpoint commit_all (l : list commit_action) : cmd dph unit :=
  match l with
  | [] => DirPathHashToCommitClear
  | a :: l' => _ ← commit_one a; commit_all l'
  end.

Definition CommitForDirPathHash : cmd dph unit :=
  s ← get;
  commit_all (d_actions s).

Definition AbortForDirPathHash : cmd dph unit := DirPathHashToCommitClear.

(** The entry counts are left as they are. *)
Definition ClearDirPathHash : cmd dph unit := set_cache (fun _ => ∅).

End DirPathHash.

(** ** Coherence *)

(** Two caches with the same entries up to usage counts. *)
Definition same_ids (c c' : gmap DirPathHashKey DirPathHashItem) : Prop :=
  forall k, it_inodeId <$> c' !! k = it_inodeId <$> c !! k.

#[export] Instance same_ids_equivalence : Equivalence same_ids.
Proof.
  split.
  - done.
  - intros c c' H k. by rewrite H.
  - intros c1 c2 c3 H1 H2 k. by rewrite H2, H1.
Qed.

(** Every cached entry is unknown or says what the table says. *)
Definition coherent (t : gmap DirPathHashKey Z) (c : gmap DirPathHashKey DirPathHashItem) : Prop :=
  forall k it, c !! k = Some it ->
    it_inodeId it = DIR_HASH_TABLE_PATH_UNKNOWN \/ it_inodeId it = table_view t k.1 k.2.

(** Coherence depends on the inode numbers only. *)
#[export] Instance coherent_proper t : Proper (same_ids ==> iff) (coherent t).
Proof.
  intros c c' H. split; intros Hc k it Hk; specialize (H k).
  - rewrite Hk in H. destruct (c !! k) as [it'|] eqn:E; simplify_eq/=. rewrite H.
    by apply (Hc k).
  - rewrite Hk in H. destruct (c' !! k) as [it'|] eqn:E; simplify_eq/=. rewrite <- H.
    by apply (Hc k).
Qed.

Lemma coherent_delete t c k : coherent t c -> coherent t (delete k c).
Proof. intros H k' it Hk. apply lookup_delete_Some in Hk as [_ Hk]. by apply H. Qed.

Lemma coherent_insert t c k it :
  coherent t c -> it_inodeId it = DIR_HASH_TABLE_PATH_UNKNOWN \/ it_inodeId it = table_view t k.1 k.2 ->
  coherent t (<[k := it]> c).
Proof.
  intros H Hit k' it' Hk. apply lookup_insert_Some in Hk as [[<- <-]|[_ Hk]]; [done|by apply H].
Qed.

Lemma same_ids_insert c k it it' :
  c !! k = Some it -> it_inodeId it' = it_inodeId it -> same_ids c (<[k := it']> c).
Proof.
  intros Hk E k'. destruct (decide (k = k')) as [->|Hne].
  - rewrite lookup_insert_eq, Hk. simpl. by rewrite E.
  - by rewrite lookup_insert_ne.
Qed.

(** What an action of the transaction does to the directory table. *)
Definition replay_one (t : gmap DirPathHashKey Z) (a : commit_action) : gmap DirPathHashKey Z :=
  match a with
  | ActionA _ => t
  | ActionU k v => if v =? DIR_HASH_TABLE_PATH_NOT_EXIST then delete k t else <[k := v]> t
  end.
Definition replay (l : list commit_action) (t : gmap DirPathHashKey Z) : gmap DirPathHashKey Z :=
  foldl replay_one t l.

Lemma replay_view k v t : table_view (replay_one t (ActionU k v)) k.1 k.2 = v.
Proof.
  unfold table_view. simpl. destruct k as [p n]. simpl.
  destruct (Z.eqb_spec v DIR_HASH_TABLE_PATH_NOT_EXIST) as [->|].
  - by rewrite lookup_delete_eq.
  - by rewrite lookup_insert_eq.
Qed.

Lemma replay_view_ne k k' v t :
  k <> k' -> table_view (replay_one t (ActionU k v)) k'.1 k'.2 = table_view t k'.1 k'.2.
Proof.
  intros Hne. unfold table_view. simpl. destruct k' as [p n]. simpl.
  destruct (v =? _); [by rewrite lookup_delete_ne|by rewrite lookup_insert_ne].
Qed.

Section DirPathHashProofs.
Context (dir_path_hash : DirPathHashKey -> Z).
Context (room : gmap DirPathHashKey DirPathHashItem -> Z -> bool).
Context (hash_seq : gmap DirPathHashKey DirPathHashItem -> Z -> list DirPathHashKey).
Context (rand_skip : gmap DirPathHashKey DirPathHashItem -> nat).
Context (fuel : nat).

Abbreviation Eliminate := (EliminateDirPathHashByLRU hash_seq rand_skip fuel) (only parsing).
Abbreviation Search := (SearchDirectoryByDirectoryHashTable dir_path_hash room hash_seq rand_skip fuel) (only parsing).
Abbreviation Insert := (InsertDirectoryByDirectoryHashTable dir_path_hash room hash_seq rand_skip fuel) (only parsing).
Abbreviation Delete := (DeleteDirectoryByDirectoryHashTable dir_path_hash room hash_seq rand_skip fuel) (only parsing).
Abbreviation Commit := (CommitForDirPathHash dir_path_hash room hash_seq rand_skip fuel) (only parsing).

(** ** Eviction *)

Lemma FindNextItem_spec m keys cnt c e cnt' c' :
  FindNextItem m keys cnt c = (e, cnt', c') ->
  same_ids c c' /\ forall k, e = Some k -> k ∈ keys /\ is_Some (c !! k) /\
    RWLockCheckDestroyable (lock_addr k) m = true.
Proof.
  revert cnt c. induction keys as [|k ks IH]; intros cnt c H; simpl in H.
  { simplify_eq. split; [done|]. by intros. }
  assert (forall cnt c1, same_ids c c1 -> FindNextItem m ks cnt c1 = (e, cnt', c') ->
    same_ids c c' /\ forall k', e = Some k' -> k' ∈ k :: ks /\ is_Some (c !! k') /\
      RWLockCheckDestroyable (lock_addr k') m = true) as Hrec.
  { intros cnt1 c1 Hs Hf. destruct (IH _ _ Hf) as [Hs' Hk]. split; [by etransitivity|].
    intros k' E. destruct (Hk k' E) as (Hin & [it Hit] & Hd). split_and!; [by right| |done].
    specialize (Hs k'). rewrite Hit in Hs. destruct (c !! k'); [eauto|done]. }
  destruct (c !! k) as [it|] eqn:Ek; [|by eapply Hrec].
  destruct (RWLockCheckDestroyable (lock_addr k) m) eqn:Ed; simpl in H; [|by eapply Hrec].
  set (c1 := <[k := _]> c) in *.
  assert (same_ids c c1) as Hs by (by eapply same_ids_insert).
  destruct (_ <=? 0); [|by eapply Hrec].
  simplify_eq. split; [done|]. intros k' [= <-]. split_and!; [by left|eauto|done].
Qed.

Lemma search_passes_spec n m part c e c' :
  search_passes hash_seq n m part c = Some (e, c') ->
  same_ids c c' /\ forall k, e = Some k -> is_Some (c !! k) /\ RWLockCheckDestroyable (lock_addr k) m = true.
Proof.
  revert c. induction n as [|n IH]; intros c H; [done|]. simpl in H.
  destruct (FindNextItem m (hash_seq c part) 0 c) as [[e1 cnt] c1] eqn:E.
  apply FindNextItem_spec in E as [Hs Hk]. destruct e1 as [k|]; simplify_eq.
  - split; [done|]. intros k' [= <-]. by destruct (Hk k eq_refl) as (_ & ? & ?).
  - destruct (cnt =? 0); simplify_eq; [by split|].
    destruct (IH _ H) as [Hs' Hk']. split; [by etransitivity|]. intros k' E'.
    destruct (Hk' k' E') as [[it Hit] Hd]. split; [|done].
    specialize (Hs k'). rewrite Hit in Hs. destruct (c !! k'); [eauto|done].
Qed.

(** What an eviction leaves: the entries without one that nobody referred to,
    or all of them. *)
Definition evicted (s s' : dph) (b : bool) : Prop :=
  d_table s' = d_table s /\ d_actions s' = d_actions s /\ d_last s' = d_last s /\ d_rw s' = d_rw s /\
  if b then exists k, is_Some (d_cache s !! k) /\
      RWLockCheckDestroyable (lock_addr k) (d_rw s).1 = true /\
      same_ids (delete k (d_cache s)) (d_cache s')
  else same_ids (d_cache s) (d_cache s').

Lemma same_ids_delete c c' k : same_ids c c' -> same_ids (delete k c) (delete k c').
Proof.
  intros H k'. destruct (decide (k = k')) as [->|Hne].
  - by rewrite !lookup_delete_eq.
  - rewrite !lookup_delete_ne by done. apply H.
Qed.

Lemma eliminate_loop_spec n part s b s' :
  eliminate_loop hash_seq rand_skip fuel n part s = Ret b s' -> evicted s s' b.
Proof.
  revert s. induction n as [|n IH]; intros s H; simpl in H.
  all: destruct (FindNextItem _ _ 0 (d_cache s)) as [[e1 cnt] c1] eqn:E1;
    apply FindNextItem_spec in E1 as [Hs1 Hk1].
  all: assert (forall e2 c2, (match e1 with Some k => Some (Some k, c1)
      | None => search_passes hash_seq fuel (d_rw s).1 part c1 end) = Some (e2, c2) ->
    same_ids (d_cache s) c2 /\ forall k, e2 = Some k -> is_Some (d_cache s !! k) /\
      RWLockCheckDestroyable (lock_addr k) (d_rw s).1 = true) as Hboth by (
    intros e2 c2 E2; destruct e1 as [k1|]; simplify_eq;
    [split; [done|]; intros k [= <-]; by destruct (Hk1 k1 eq_refl) as (_ & ? & ?)
    |apply search_passes_spec in E2 as [Hs2 Hk2]; split; [by etransitivity|];
     intros k E; destruct (Hk2 k E) as [[it Hit] Hd]; split; [|done];
     specialize (Hs1 k); rewrite Hit in Hs1; destruct (d_cache s !! k); [eauto|done]]).
  all: destruct (match e1 with Some _ => _ | None => _ end) as [[[k|] c2]|]; [| |done].
  all: destruct (Hboth _ _ eq_refl) as [Hs Hk]; try (simplify_eq; by split_and!).
  all: destruct (Hk k eq_refl) as [Hin Hd]; rewrite Hd in H.
  all: assert (is_Some (c2 !! k)) as Hin2 by (specialize (Hs k); destruct Hin as [it Hit];
    rewrite Hit in Hs; destruct (c2 !! k); [eauto|done]).
  all: rewrite bool_decide_eq_true_2 in H by done; cmd_unfold H.
  all: simplify_eq; split_and!; try done.
  all: exists k; split_and!; auto; simpl; by apply same_ids_delete.
Qed.

Lemma Eliminate_spec part s b s' : Eliminate part s = Ret b s' -> evicted s s' b.
Proof.
  intros H. unfold EliminateDirPathHashByLRU in H. cmd_unfold H.
  destruct (_ <=? _); [simplify_eq; unfold evicted; by split_and!|]. by eapply eliminate_loop_spec.
Qed.

Lemma evicted_coherent t s s' b : evicted s s' b -> coherent t (d_cache s) -> coherent t (d_cache s').
Proof.
  intros (_ & _ & _ & _ & H) Hc. destruct b.
  - destruct H as (k & _ & _ & H). rewrite <- H. by apply coherent_delete.
  - by rewrite <- H.
Qed.

(** ** Entering, locking, searching *)

(** The only actions added are evictions to try at the end. *)
Definition only_A (l : list commit_action) : Prop := forall t, replay l t = t.

Lemma only_A_nil : only_A [].
Proof. by intros t. Qed.

Lemma only_A_cons k : only_A [ActionA k].
Proof. by intros t. Qed.

(** From [s] to [s'] the table is kept, and the cache has lost entries or
    gained one for [k] with value [v]. *)
Record enters (k : DirPathHashKey) (v : Z) (s s' : dph) : Prop := {
  en_table : d_table s' = d_table s;
  en_actions : exists l, d_actions s' = d_actions s ++ l /\ only_A l;
  en_cache : forall k' it', d_cache s' !! k' = Some it' ->
    (exists it, d_cache s !! k' = Some it /\ it_inodeId it' = it_inodeId it) \/
    (k' = k /\ it_inodeId it' = v);
}.

Lemma enters_refl k v s : enters k v s s.
Proof. split; eauto. exists []. by rewrite app_nil_r. Qed.

Lemma enters_trans k v s1 s2 s3 : enters k v s1 s2 -> enters k v s2 s3 -> enters k v s1 s3.
Proof.
  intros [T1 (l1 & A1 & O1) C1] [T2 (l2 & A2 & O2) C2]. split; [congruence| |].
  - exists (l1 ++ l2). rewrite A2, A1, app_assoc. split; [done|]. intros t.
    unfold replay. rewrite foldl_app. fold (replay l1 t). rewrite O1. apply O2.
  - intros k' it' H. destruct (C2 k' it' H) as [(it & H' & E)|]; [|by right].
    destruct (C1 k' it H') as [(it0 & H0 & E0)|[? ?]]; [left; exists it0; split; congruence|].
    right. split; congruence.
Qed.

Lemma evicted_enters k v s s' b : evicted s s' b -> enters k v s s'.
Proof.
  intros (HT & HA & _ & _ & HC). split; [done|exists []; by rewrite app_nil_r|].
  intros k' it' H. left. destruct b.
  - destruct HC as (kd & _ & _ & HC). specialize (HC k'). rewrite H in HC.
    destruct (delete kd (d_cache s) !! k') as [it|] eqn:E; simplify_eq/=.
    apply lookup_delete_Some in E as [_ E]. eauto.
  - specialize (HC k'). rewrite H in HC. destruct (d_cache s !! k') as [it|]; simplify_eq/=. eauto.
Qed.

(** The answer of the loop: whether there is an entry, and with which value. *)
Definition entered (k : DirPathHashKey) (known : bool) (v : Z) (s s' : dph) (b : bool) : Prop :=
  enters k v s s' /\
  (b = true -> exists it, d_cache s' !! k = Some it /\ (known = true -> it_inodeId it = v)) /\
  (b = false -> d_cache s' !! k = None).

Lemma insert_enters k v u s c' :
  c' = <[k := mkItem v u]> (d_cache s) ->
  forall k' it', c' !! k' = Some it' ->
    (exists it, d_cache s !! k' = Some it /\ it_inodeId it' = it_inodeId it) \/ (k' = k /\ it_inodeId it' = v).
Proof.
  intros -> k' it' H. apply lookup_insert_Some in H as [[<- <-]|[_ H]]; eauto.
Qed.

Lemma enter_found k known v it s b s' :
  d_cache s !! k = Some it ->
  (if negb known then Ret true s
   else if it_inodeId it =? DIR_HASH_TABLE_PATH_UNKNOWN then
     (_ ← set_cache (<[k := mkItem v (it_usageCount it)]>); mret true) s
   else if negb (it_inodeId it =? v) then Raise PROGRAM_ERROR s
   else Ret true s) = Ret b s' ->
  entered k known v s s' b.
Proof.
  intros Ek H. destruct known; simpl in H; cycle 1.
  { simplify_eq. split; [apply enters_refl|]. split; [|done]. intros _. exists it. by split. }
  destruct (it_inodeId it =? DIR_HASH_TABLE_PATH_UNKNOWN).
  - cmd_unfold H. simplify_eq/=. split; [|split; [intros _; eexists; split; [apply lookup_insert_eq|done]|done]].
    split; [done|exists []; by rewrite app_nil_r|]. by eapply insert_enters.
  - destruct (Z.eqb_spec (it_inodeId it) v); simplify_eq/=.
    split; [apply enters_refl|]. split; [|done]. intros _. by exists it.
Qed.

Lemma enter_room k known v s b s' :
  (_ ← add_count (DIR_PATH_HASH_PARTITION_INDEX dir_path_hash k) 1;
   _ ← on_rw (fun r => Ret tt (RWLockInitialize (lock_addr k) r.1, r.2));
   _ ← set_cache (<[k := mkItem v 0]>);
   _ ← DirPathHashToCommitAddEntry k;
   mret true) s = Ret b s' ->
  entered k known v s s' b.
Proof.
  intros H. unfold DirPathHashToCommitAddEntry, add_action in H. cmd_unfold H.
  case_bool_decide; cmd_unfold H; simplify_eq/=.
  split; [|split; [intros _; eexists; split; [apply lookup_insert_eq|done]|done]].
  split; [done|exists [ActionA k]; split; [done|apply only_A_cons]|]. by eapply insert_enters.
Qed.

Lemma enter_loop_spec n k lk known v s b s' :
  enter_loop dir_path_hash room hash_seq rand_skip fuel n k lk known v s = Ret b s' ->
  entered k known v s s' b.
Proof.
  revert s. induction n as [|n IH]; intros s H; cbn [enter_loop] in H;
    (destruct (d_cache s !! k) as [it|] eqn:Ek; [by eapply enter_found|]);
    (destruct (room (d_cache s) _); [by eapply enter_room|]);
    case_bool_decide; try (simplify_eq; split; [apply enters_refl|by split]); [done|].
  apply bind_Ret_inv in H as (b1 & s1 & E1 & H). apply Eliminate_spec in E1.
  destruct (IH _ H) as (He & Hb). split; [|done].
  eapply enters_trans; [by eapply evicted_enters|done].
Qed.

(** Locking an entry changes usage counts and lock words only. *)
Lemma lock_item_spec k lk s s' :
  lock_item fuel k lk s = Ret tt s' ->
  d_table s' = d_table s /\ d_actions s' = d_actions s /\ same_ids (d_cache s) (d_cache s').
Proof.
  intros H. unfold lock_item in H. apply bind_Ret_inv in H as ([] & s1 & E1 & H).
  cmd_unfold E1. unfold set_cache in E1. cmd_unfold E1. simplify_eq.
  set (c1 := alter _ k (d_cache s)) in *.
  assert (same_ids (d_cache s) c1) as Hc1.
  { intros k'. unfold c1. destruct (decide (k = k')) as [->|Hne].
    - rewrite lookup_alter_eq. by destruct (d_cache s !! k').
    - by rewrite lookup_alter_ne. }
  assert (forall {A} (m : cmd rw A) st a st', on_rw m st = Ret a st' ->
    d_table st' = d_table st /\ d_actions st' = d_actions st /\ d_cache st' = d_cache st) as Hrw.
  { intros A m st a st' E. unfold on_rw in E. by destruct (m (d_rw st)); simplify_eq. }
  destruct lk; [| |cmd_unfold H; by simplify_eq].
  all: run_inv; unfold set_last in H; cmd_unfold H; simplify_eq; simpl.
  all: repeat match goal with E : on_rw _ _ = Ret _ _ |- _ => apply Hrw in E as (? & ? & ?) end.
  all: simpl in *; split_and!; try congruence.
  all: intros k'; rewrite <- Hc1; congruence.
Qed.

Lemma coherent_enters t k v s s' :
  enters k v s s' -> coherent t (d_cache s) ->
  v = DIR_HASH_TABLE_PATH_UNKNOWN \/ v = table_view t k.1 k.2 -> coherent t (d_cache s').
Proof.
  intros [_ _ HC] Hc Hv k' it' H. destruct (HC k' it' H) as [(it & H' & ->)|[-> ->]]; [by apply Hc|done].
Qed.

(** Searching returns what [t] says and keeps the cache coherent with [t], when
    the table agrees with [t] on an entry that is not cached. *)
Lemma Search_spec t p n lk s v s' :
  coherent t (d_cache s) ->
  (cached_known s (p, n) = true \/ table_view (d_table s) p n = table_view t p n) ->
  Search p n lk s = Ret v s' ->
  v = table_view t p n /\ coherent t (d_cache s') /\ d_table s' = d_table s /\
  exists l, d_actions s' = d_actions s ++ l /\ only_A l.
Proof.
  intros Hc Hk H. unfold SearchDirectoryByDirectoryHashTable in H. cmd_unfold H.
  destruct (cached_known s (p, n)) eqn:Eck.
  - simpl in H. destruct (lock_item fuel (p, n) lk s) as [[] s1|e s1|] eqn:E; simplify_eq.
    apply lock_item_spec in E as (Et & Ea & Es). unfold cached_known in Eck.
    destruct (d_cache s !! (p, n)) as [it|] eqn:Ei; [|done]. bool_to_prop.
    pose proof (Es (p, n)) as E1. rewrite Ei in E1.
    destruct (d_cache s' !! (p, n)) as [it'|]; simplify_eq/=. rewrite <- Es.
    destruct (Hc _ _ Ei) as [|Hv]; [done|]. simpl in Hv. split_and!; auto; [congruence|].
    exists []. split; [by rewrite app_nil_r|apply only_A_nil].
  - destruct Hk as [|Hk]; [done|]. unfold SearchDirectoryTableInfo in H. cmd_unfold H.
    destruct (enter_loop _ _ _ _ _ fuel (p, n) lk true _ s) as [b s1|e s1|] eqn:E; [|done|done].
    apply enter_loop_spec in E as (He & Hb & _). destruct b; simpl in H.
    + destruct (lock_item fuel (p, n) lk s1) as [[] s2|e s2|] eqn:E2; simplify_eq.
      apply lock_item_spec in E2 as (Et & Ea & Es). destruct (Hb eq_refl) as (it & Hit & Hval).
      pose proof (Es (p, n)) as E1. rewrite Hit in E1.
      destruct (d_cache s' !! (p, n)) as [it'|]; simplify_eq/=. rewrite <- Es.
      destruct (en_actions _ _ _ _ He) as (l & El & Ol). split_and!.
      * rewrite E1, Hval by done. done.
      * eapply coherent_enters; [done|done|]. by right.
      * rewrite Et. apply He.
      * exists l. by rewrite Ea.
    + simplify_eq. split_and!; [done| |apply He|apply He].
      eapply coherent_enters; [done|done|]. by right.
Qed.
(** ** Transactions *)

(** The cache is coherent with the table at the start of the transaction, and
    the table is that table with the updates noted so far. *)
Definition txn_inv (base : gmap DirPathHashKey Z) (s : dph) : Prop :=
  coherent base (d_cache s) /\ d_table s = replay (d_actions s) base.

Lemma replay_app l1 l2 t : replay (l1 ++ l2) t = replay l2 (replay l1 t).
Proof. unfold replay. by rewrite foldl_app. Qed.

Lemma add_action_spec a s s' :
  add_action a s = Ret tt s' ->
  d_actions s' = d_actions s ++ [a] /\ d_table s' = d_table s /\ d_cache s' = d_cache s.
Proof.
  intros H. unfold add_action in H. cmd_unfold H. case_bool_decide; simplify_eq/=.
  unfold set_actions in H. cmd_unfold H. by simplify_eq.
Qed.

(** The last part of an insertion or deletion of an entry that is cached. *)
Lemma update_spec base k lk v s1 s2 s3 s4 :
  txn_inv base s1 -> lock_item fuel k lk s1 = Ret tt s2 ->
  d_cache s3 = d_cache s2 -> d_actions s3 = d_actions s2 ->
  d_table s3 = replay_one (d_table s2) (ActionU k v) ->
  DirPathHashToCommitUpdateEntry k v s3 = Ret tt s4 -> txn_inv base s4.
Proof.
  intros [Hc Ht] Hl Ec Ea Et Hu. apply lock_item_spec in Hl as (Et2 & Ea2 & Es2).
  apply add_action_spec in Hu as (Ea4 & Et4 & Ec4). split.
  - by rewrite Ec4, Ec, <- Es2.
  - rewrite Et4, Et, Ea4, Ea, Ea2, Et2, Ht, replay_app. done.
Qed.

Lemma Insert_spec base p n id lk s s' :
  txn_inv base s -> id <> DIR_HASH_TABLE_PATH_NOT_EXIST ->
  (cached_known s (p, n) = true \/ table_view (d_table s) p n = table_view base p n) ->
  Insert p n id lk s = Ret tt s' -> is_Some (d_cache s' !! (p, n)) -> txn_inv base s'.
Proof.
  intros [Hc Ht] Hid Hk H Hs'. unfold InsertDirectoryByDirectoryHashTable in H.
  apply bind_Ret_inv in H as (s0 & s00 & E0 & H). cmd_unfold E0. simplify_eq.
  apply bind_Ret_inv in H as (b & s1 & E1 & H).
  assert (txn_inv base s1 /\ (b = false -> d_cache s1 !! (p, n) = None)) as [Hinv1 Hb].
  { destruct (cached_known s00 (p, n)) eqn:Eck.
    - cmd_unfold E1. simplify_eq. by split.
    - destruct Hk as [|Hk]; [done|]. unfold SearchDirectoryTableInfo in E1. cmd_unfold E1.
      destruct (_ =? _); cmd_unfold E1; [|done].
      apply enter_loop_spec in E1 as (He & _ & Hb). split; [|done].
      destruct (en_actions _ _ _ _ He) as (l & El & Ol). split.
      + eapply coherent_enters; [done|done|]. by right.
      + rewrite El, replay_app, Ol, (en_table _ _ _ _ He). done. }
  destruct b; simpl in H.
  - apply bind_Ret_inv in H as ([] & s2 & E2 & H). apply bind_Ret_inv in H as ([] & s3 & E3 & H).
    unfold InsertIntoDirectoryTable, set_table in E3. cmd_unfold E3.
    destruct (d_table s2 !! (p, n)); simplify_eq.
    eapply update_spec; [exact Hinv1|exact E2|..|exact H]; [done|done|].
    simpl. by destruct (Z.eqb_spec id DIR_HASH_TABLE_PATH_NOT_EXIST).
  - unfold InsertIntoDirectoryTable, set_table in H. cmd_unfold H.
    destruct (d_table s1 !! (p, n)); simplify_eq/=.
    rewrite Hb in Hs' by done. by destruct Hs'.
Qed.

Lemma Delete_spec base p n lk s s' :
  txn_inv base s -> Delete p n lk s = Ret tt s' -> is_Some (d_cache s' !! (p, n)) -> txn_inv base s'.
Proof.
  intros [Hc Ht] H Hs'. unfold DeleteDirectoryByDirectoryHashTable in H.
  apply bind_Ret_inv in H as ([] & s00 & E00 & H). cmd_unfold E00.
  case_bool_decide; cmd_unfold E00; simplify_eq.
  apply bind_Ret_inv in H as (s0 & s0' & E0 & H). cmd_unfold E0. simplify_eq.
  apply bind_Ret_inv in H as (b & s1 & E1 & H).
  assert (txn_inv base s1 /\ (b = false -> d_cache s1 !! (p, n) = None)) as [Hinv1 Hb].
  { case_bool_decide.
    - cmd_unfold E1. simplify_eq. by split.
    - apply enter_loop_spec in E1 as (He & _ & Hb). split; [|done].
      destruct (en_actions _ _ _ _ He) as (l & El & Ol). split.
      + eapply coherent_enters; [done|done|]. by left.
      + rewrite El, replay_app, Ol, (en_table _ _ _ _ He). done. }
  destruct b; simpl in H.
  - apply bind_Ret_inv in H as ([] & s2 & E2 & H). apply bind_Ret_inv in H as ([] & s3 & E3 & H).
    unfold DeleteFromDirectoryTable, set_table in E3. cmd_unfold E3.
    destruct (d_table s2 !! (p, n)); simplify_eq.
    by eapply update_spec; [exact Hinv1|exact E2|..|exact H].
  - unfold DeleteFromDirectoryTable, set_table in H. cmd_unfold H.
    destruct (d_table s1 !! (p, n)); simplify_eq/=.
    rewrite Hb in Hs' by done. by destruct Hs'.
Qed.

(** One call of a transaction.  A search or insertion of an entry that is not
    cached with a known value comes before the transaction changes it, and the
    entry of a changed directory is in the cache. *)
Inductive txn_step (base : gmap DirPathHashKey Z) : dph -> dph -> Prop :=
| txn_search p n lk v s s' :
    (cached_known s (p, n) = true \/ table_view (d_table s) p n = table_view base p n) ->
    Search p n lk s = Ret v s' -> txn_step base s s'
| txn_insert p n id lk s s' :
    id <> DIR_HASH_TABLE_PATH_NOT_EXIST ->
    (cached_known s (p, n) = true \/ table_view (d_table s) p n = table_view base p n) ->
    Insert p n id lk s = Ret tt s' -> is_Some (d_cache s' !! (p, n)) -> txn_step base s s'
| txn_delete p n lk s s' :
    Delete p n lk s = Ret tt s' -> is_Some (d_cache s' !! (p, n)) -> txn_step base s s'.

Lemma txn_step_inv base s s' : txn_step base s s' -> txn_inv base s -> txn_inv base s'.
Proof.
  intros Hs Hinv. destruct Hs as [p n lk v s s' Hk H|p n id lk s s' Hid Hk H Hi|p n lk s s' H Hi].
  - destruct Hinv as [Hc Ht]. apply (Search_spec base) in H as (_ & Hc' & Et & l & El & Ol); [|done|done].
    split; [done|]. by rewrite Et, El, replay_app, Ol.
  - by eapply Insert_spec.
  - by eapply Delete_spec.
Qed.

Lemma txn_inv_run base s s' : rtc (txn_step base) s s' -> txn_inv base s -> txn_inv base s'.
Proof. induction 1; eauto using txn_step_inv. Qed.

Lemma commit_one_spec t a s s' :
  commit_one dir_path_hash room hash_seq rand_skip fuel a s = Ret tt s' ->
  coherent t (d_cache s) -> coherent (replay_one t a) (d_cache s') /\ d_table s' = d_table s.
Proof.
  intros H Hc. destruct a as [k|k v].
  - apply bind_Ret_inv in H as (b & s1 & E & H). cmd_unfold H. simplify_eq.
    apply Eliminate_spec in E. split; [by eapply evicted_coherent|]. by destruct E.
  - assert (forall k' it, k' <> k -> d_cache s !! k' = Some it ->
      it_inodeId it = DIR_HASH_TABLE_PATH_UNKNOWN \/
      it_inodeId it = table_view (replay_one t (ActionU k v)) k'.1 k'.2) as Hother.
    { intros k' it Hne Hk'. rewrite replay_view_ne by done. by apply Hc. }
    assert (forall u, coherent (replay_one t (ActionU k v)) (<[k := mkItem v u]> (d_cache s))) as Hins.
    { intros u k' it Hk'. apply lookup_insert_Some in Hk' as [[<- <-]|[Hne Hk']]; [|by apply Hother].
      right. by rewrite replay_view. }
    unfold commit_one in H. destruct (d_cache s !! k) as [it|] eqn:Ek.
    + unfold set_cache in H. cmd_unfold H. simplify_eq. split; [apply Hins|done].
    + destruct (room _ _).
      * unfold set_cache, add_count in H. cmd_unfold H. simplify_eq. split; [apply Hins|done].
      * simplify_eq. split; [|done]. intros k' it Hk'. apply Hother; [|done]. congruence.
Qed.

Lemma commit_all_spec t l s s' :
  commit_all dir_path_hash room hash_seq rand_skip fuel l s = Ret tt s' ->
  coherent t (d_cache s) ->
  coherent (replay l t) (d_cache s') /\ d_table s' = d_table s /\ d_actions s' = [].
Proof.
  revert t s. induction l as [|a l IH]; intros t s H Hc; cbn [commit_all] in H.
  - unfold DirPathHashToCommitClear, set_actions in H. cmd_unfold H. by simplify_eq.
  - apply bind_Ret_inv in H as ([] & s1 & E & H).
    destruct (commit_one_spec t a s s1 E Hc) as [Hc1 Et].
    destruct (IH _ _ H Hc1) as (? & ? & ?). split_and!; [done|congruence|done].
Qed.


(** Eviction spares what is in use.  EliminateDirPathHashByLRU removes at
    most one entry, and only one whose lock nobody refers to; the inode numbers
    of all other entries, the table, the locks and the pending actions stay. *)
Theorem EliminateDirPathHashByLRU_spares_used part s b s' :
  Eliminate part s = Ret b s' ->
  d_table s' = d_table s /\ d_actions s' = d_actions s /\ d_rw s' = d_rw s /\
  exists gone, (forall k, k ∉ gone -> it_inodeId <$> d_cache s' !! k = it_inodeId <$> d_cache s !! k) /\
    length gone = (if b then 1 else 0)%nat /\
    forall k, k ∈ gone -> is_Some (d_cache s !! k) /\ d_cache s' !! k = None /\
      RWLockCheckDestroyable (lock_addr k) (d_rw s).1 = true.
Proof.
  intros H. apply Eliminate_spec in H as (Et & Ea & El & Er & H). split_and!; auto. destruct b.
  - destruct H as (k & Hk & Hd & Hs). exists [k]. split_and!; [|done|].
    + intros k' Hne. rewrite Hs, lookup_delete_ne; [done|]. intros ->. apply Hne. by left.
    + intros k' Hk'. apply list_elem_of_singleton in Hk' as ->. split_and!; auto.
      specialize (Hs k). rewrite lookup_delete_eq in Hs. by destruct (d_cache s' !! k).
  - exists []. split_and!; [by intros k _|done|]. intros k Hk. by apply not_elem_of_nil in Hk.
Qed.

(** ** Answers *)

(** An entry that is already there, or room for it, or no lock asked for: the
    loop is left at once. *)
Lemma enter_loop_none_returns k v s :
  (forall it, d_cache s !! k = Some it ->
    it_inodeId it = DIR_HASH_TABLE_PATH_UNKNOWN \/ it_inodeId it = v) ->
  (length (d_actions s) < MAX_DIRECTORY_HASH_TO_COMMIT_ACTION_LENGTH)%nat ->
  exists b s', enter_loop dir_path_hash room hash_seq rand_skip fuel fuel k DIR_LOCK_NONE true v s = Ret b s'.
Proof.
  intros Hit Hlen. destruct fuel as [|f]; cbn [enter_loop].
  all: destruct (d_cache s !! k) as [it|].
  1, 3: destruct (Hit it eq_refl) as [E|E]; rewrite E; simpl;
    [eauto|destruct (v =? _); rewrite ?Z.eqb_refl; simpl; eauto].
  all: destruct (room _ _); [|rewrite bool_decide_eq_false_2 by (intros []; done); eauto].
  all: eexists _, _; unfold DirPathHashToCommitAddEntry, add_action, mbind, cmd_bind, raise_unless; simpl;
    rewrite bool_decide_eq_true_2 by done; reflexivity.
Qed.

(** A search answers what the directory table says, whatever the cache
    holds: in every lock mode a search that returns has the table's answer and
    leaves table and coherence as they are, and a search without a lock always
    returns, unless the list of actions of the transaction is full. *)
Theorem SearchDirectoryByDirectoryHashTable_answers p n s :
  coherent (d_table s) (d_cache s) ->
  (forall lk v s', Search p n lk s = Ret v s' ->
     v = table_view (d_table s) p n /\ d_table s' = d_table s /\ coherent (d_table s') (d_cache s')) /\
  ((length (d_actions s) < MAX_DIRECTORY_HASH_TO_COMMIT_ACTION_LENGTH)%nat ->
   exists s', Search p n DIR_LOCK_NONE s = Ret (table_view (d_table s) p n) s').
Proof.
  intros Hc.
  assert (forall lk v s', Search p n lk s = Ret v s' ->
     v = table_view (d_table s) p n /\ d_table s' = d_table s /\ coherent (d_table s') (d_cache s')) as H1.
  { intros lk v s' H. apply (Search_spec (d_table s)) in H as (Hv & Hc' & Et & _); auto.
    by rewrite Et. }
  split; [done|]. intros Hlen.
  enough (exists v s', Search p n DIR_LOCK_NONE s = Ret v s') as (v & s' & H).
  { exists s'. by destruct (H1 _ _ _ H) as (<- & _). }
  unfold SearchDirectoryByDirectoryHashTable, mbind, cmd_bind, get. simpl.
  destruct (cached_known s (p, n)); simpl; [eauto|].
  destruct (enter_loop_none_returns (p, n) (table_view (d_table s) p n) s) as (b & s1 & E); [|done|].
  { intros it Hit. exact (Hc _ _ Hit). }
  unfold SearchDirectoryTableInfo, gets. simpl. rewrite E. destruct b; simpl; eauto.
Qed.

(** The cache in front of the table is a directory service. *)
#[export] Program Instance dph_service : DirectoryService dph := {
  ds_search := Search;
  ds_release_last := release_last;
  ds_ok s := coherent (d_table s) (d_cache s);
  ds_view s := table_view (d_table s);
}.
Next Obligation.
  intros p n lk s v s' Hok H. simpl in *. apply (Search_spec (d_table s)) in H as (Hv & Hc & Et & _); auto.
  by rewrite Et.
Qed.
Next Obligation.
  intros s s' Hok H. simpl in *. unfold release_last, on_rw in H. cmd_unfold H.
  destruct (d_last s); [|done]. destruct (RWLockRelease _ _); by simplify_eq.
Qed.

End DirPathHashProofs.

(** ** Instances *)

(** A table with one directory, an empty cache with room, no locks. *)
Definition demo_seq (c : gmap DirPathHashKey DirPathHashItem) (_ : Z) : list DirPathHashKey :=
  (map_to_list c).*1.
Definition demo_dph : dph :=
  mkDph {[(0, "a"%string) := 5]} ∅ ∅ [] None (∅, Backend [] 0).
(** The state a command leaves. *)
Definition final {A} (m : cmd dph A) (s : dph) : dph :=
  match m s with Ret _ s' => s' | Raise _ s' => s' | OutOfFuel => s end.

Abbreviation demo_op op := (op (fun _ => 0) (fun _ _ => true) demo_seq (fun _ => O) 10%nat) (only parsing).

Definition demo_searched : dph :=
  final (demo_op SearchDirectoryByDirectoryHashTable 0 "a"%string DIR_LOCK_SHARED) demo_dph.
Definition demo_inserted : dph :=
  final (demo_op InsertDirectoryByDirectoryHashTable 0 "b"%string 7 DIR_LOCK_EXCLUSIVE) demo_searched.

Lemma demo_txn :
  rtc (txn_step (fun _ => 0) (fun _ _ => true) demo_seq (fun _ => O) 10 (d_table demo_dph))
    demo_dph demo_inserted.
Proof.
  eapply (rtc_l _ _ demo_searched).
  { eapply (txn_search _ _ _ _ _ _ 0 "a" DIR_LOCK_SHARED 5); [right; reflexivity|]. vm_compute. reflexivity. }
  eapply rtc_l; [|apply rtc_refl].
  eapply (txn_insert _ _ _ _ _ _ 0 "b" 7 DIR_LOCK_EXCLUSIVE); [by vm_compute|right; vm_compute; reflexivity| |].
  - vm_compute. reflexivity.
  - vm_compute. eauto.
Qed.

Lemma demo_coherent : coherent (d_table demo_dph) (d_cache demo_dph).
Proof. intros k it H. unfold demo_dph in H. cbn [d_cache] in H. by rewrite lookup_empty in H. Qed.


Lemma SearchDirectoryByDirectoryHashTable_answers_witness :
  exists s', demo_op SearchDirectoryByDirectoryHashTable 0 "a"%string DIR_LOCK_NONE demo_dph = Ret 5 s'.
Proof.
  refine (proj2 (SearchDirectoryByDirectoryHashTable_answers (fun _ => 0) (fun _ _ => true) demo_seq (fun _ => O) 10
    0 "a" demo_dph demo_coherent) _).
  apply Nat.ltb_lt. vm_compute. reflexivity.
Defined.

(** A full partition with one entry that a backend holds and one that nobody
    refers to. *)
Definition demo_full : dph :=
  mkDph ∅ {[(0, "a"%string) := mkItem 5 1; (0, "b"%string) := mkItem 7 1]} {[0 := 100]} [] None
    ({[lock_addr (0, "a"%string) := RW_VAL_REF_COUNT]}, Backend [] 0).

Lemma EliminateDirPathHashByLRU_spares_used_witness :
  let s' := final (EliminateDirPathHashByLRU demo_seq (fun _ => O) 10 0) demo_full in
  d_cache s' !! (0, "a"%string) = Some (mkItem 5 1) /\ d_cache s' !! (0, "b"%string) = None /\
  d_rw s' = d_rw demo_full.
Proof.
  split_and!; [vm_compute; reflexivity|vm_compute; reflexivity|].
  refine (proj1 (proj2 (proj2 (EliminateDirPathHashByLRU_spares_used demo_seq (fun _ => O) 10 0 demo_full true _ _)))).
  vm_compute. reflexivity.
Defined.

(** The condition on the calls of a transaction is needed: a search for an
    entry that the transaction deleted before it was cached enters the
    deletion in the cache at once, and it stays there when the transaction is
    rolled back. *)
Lemma search_after_uncached_delete :
  let s1 := final (demo_op DeleteDirectoryByDirectoryHashTable 0 "a"%string DIR_LOCK_EXCLUSIVE) demo_dph in
  let s2 := final (demo_op SearchDirectoryByDirectoryHashTable 0 "a"%string DIR_LOCK_NONE) s1 in
  let s3 := final AbortForDirPathHash s2 in
  ~ coherent (d_table demo_dph) (d_cache s3).
Proof.
  intros s1 s2 s3 H.
  destruct (H (0, "a"%string) (mkItem DIR_HASH_TABLE_PATH_NOT_EXIST 2)) as [E|E];
    [vm_compute; reflexivity|vm_compute in E; discriminate|vm_compute in E; discriminate].
Qed.
