(* ===== verification/Placement.v ===== *)
(** * Where an entry lives: part numbers and shard hashes

    The server (falcon/metadb/meta_handle_helper.c, falcon/utils/utils.c) and
    the client (falcon_client/src/utils.cpp) compute the place of an entry from
    its name.  char is signed on some machines and unsigned on others, which
    the flag [sg] says; hash_bytes_uint32 belongs to PostgreSQL and is a
    parameter of the server's function. *)

From Stdlib Require Import Ascii.
From S2P Require Import FalconPrelude.

Definition FILENAMELENGTH : nat := Z.to_nat 256.
Definition PART_ID_MASK : Z := 0x1FFF.
Definition PART_ID_BIT_COUNT : Z := 13.

(** The value of a char in arithmetic. *)
Definition char_value (sg : bool) (c : ascii) : Z :=
  if sg then s8 (Z.of_N (N_of_ascii c)) else Z.of_N (N_of_ascii c).

(** ** On the server *)

Fixpoint hash_name (sg : bool) (hashValue : Z) (cs : list ascii) : Z :=
  match cs with
  | [] => hashValue
  | c :: cs' => hash_name sg (u16 (hashValue * 31 + char_value sg c)) cs'
  end.

Definition HashPartId (sg : bool) (fileName : string) : Z :=
  Z.land (hash_name sg 0 (take FILENAMELENGTH (String.list_ascii_of_string fileName))) PART_ID_MASK.

Definition CombineParentIdWithPartId (parent_id part_id : Z) : Z :=
  Z.lor (u64 (Z.shiftl parent_id PART_ID_BIT_COUNT)) part_id.

Definition lnot32 (x : Z) : Z := Z.lxor x (Z.ones 32).

(** The two halves of the value, folded. *)
Definition fold_halves (val : Z) : Z :=
  let lohalf := u32 val in
  let hihalf := u32 (Z.shiftr val 32) in
  Z.lxor lohalf (if 0 <=? val then hihalf else lnot32 hihalf).

Definition HashShard (hash_bytes_uint32 : Z -> Z) (parentId_partId : Z) : Z :=
  let val := s64 (Z.land parentId_partId PART_ID_MASK) in
  let res := s32 (hash_bytes_uint32 (fold_halves val)) in
  s32 (Z.land (u32 res) (lnot32 (Z.shiftl 1 31))).

(** ** On the client *)

Definition RotateLeft32 (w n : Z) : Z := Z.lor (u32 (Z.shiftl w n)) (Z.shiftr w (32 - n)).

Definition HashBytesUint32 (k : Z) : Z :=
  let a := u32 (0x9e3779b9 + 4 + 3923095) in
  let b := a in
  let c := a in
  let a := u32 (a + k) in
  let c := Z.lxor c b in
  let c := u32 (c - RotateLeft32 b 14) in
  let a := Z.lxor a c in
  let a := u32 (a - RotateLeft32 c 11) in
  let b := Z.lxor b a in
  let b := u32 (b - RotateLeft32 a 25) in
  let c := Z.lxor c b in
  let c := u32 (c - RotateLeft32 b 16) in
  let a := Z.lxor a c in
  let a := u32 (a - RotateLeft32 c 4) in
  let b := Z.lxor b a in
  let b := u32 (b - RotateLeft32 a 14) in
  let c := Z.lxor c b in
  u32 (c - RotateLeft32 b 24).

Definition HashInt8 (val : Z) : Z :=
  let res := s32 (HashBytesUint32 (fold_halves val)) in
  u32 (s32 (Z.land (u32 res) (lnot32 (Z.shiftl 1 31)))).

(** The length of the C string whose bytes [cs] lead up to its NUL, up to
    [maxLen]. *)
Fixpoint StrnLen (cs : list ascii) (maxLen : nat) : nat :=
  match maxLen, cs with
  | S maxLen', _ :: cs' => S (StrnLen cs' maxLen')
  | _, _ => O
  end.

Definition client_HashPartId (sg : bool) (fileName : string) : Z :=
  let cs := String.list_ascii_of_string fileName in
  Z.land (hash_name sg 0 (take (StrnLen cs FILENAMELENGTH) cs)) PART_ID_MASK.

(** ** Properties *)

Lemma land_part_mask x : Z.land x PART_ID_MASK = x `mod` 2 ^ 13.
Proof. change PART_ID_MASK with (Z.ones 13). by apply Z.land_ones. Qed.

Lemma land_low31 x : Z.land x (lnot32 (Z.shiftl 1 31)) = x `mod` 2 ^ 31.
Proof. change (lnot32 (Z.shiftl 1 31)) with (Z.ones 31). by apply Z.land_ones. Qed.

Lemma HashPartId_range sg n : 0 <= HashPartId sg n < 2 ^ 13.
Proof. unfold HashPartId. rewrite land_part_mask. apply Z.mod_pos_bound. lia. Qed.

Lemma StrnLen_min cs m : StrnLen cs m = (length cs `min` m)%nat.
Proof. revert m. induction cs as [|c cs IH]; intros [|m]; simpl; auto. Qed.

(** Client and server compute the same part number on machines with the same
    char. *)
Lemma client_HashPartId_eq sg n : client_HashPartId sg n = HashPartId sg n.
Proof.
  unfold client_HashPartId, HashPartId. cbv zeta. rewrite StrnLen_min.
  f_equal. f_equal. set (cs := String.list_ascii_of_string n).
  destruct (Nat.le_gt_cases (length cs) FILENAMELENGTH).
  - rewrite Nat.min_l by done. by rewrite !take_ge.
  - by rewrite Nat.min_r by lia.
Qed.

(** The parent number is a multiple of 2^13 below the part number. *)
Lemma CombineParentIdWithPartId_add p q :
  0 <= q < 2 ^ 13 -> CombineParentIdWithPartId p q = u64 (p * 2 ^ 13) + q.
Proof.
  intros Hq. unfold CombineParentIdWithPartId, PART_ID_BIT_COUNT. rewrite Z.shiftl_mul_pow2 by lia.
  assert (u64 (p * 2 ^ 13) = (p `mod` 2 ^ 51) * 2 ^ 13) as E.
  { unfold wrap. change (2 ^ 64) with (2 ^ 51 * 2 ^ 13). by rewrite Z.mul_mod_distr_r by lia. }
  rewrite E, <- Z.shiftl_mul_pow2 by lia. symmetry. apply Z.add_nocarry_lor.
  apply Z.bits_inj'. intros i Hi. rewrite Z.land_spec, Z.shiftl_spec, Z.bits_0 by lia.
  destruct (Z.lt_ge_cases i 13).
  - by rewrite Z.testbit_neg_r by lia.
  - rewrite (in_range_testbit_high 13 q) by (unfold in_range; lia). apply andb_false_r.
Qed.

(** The combination is undone by division for parents below 2^51. *)
Lemma CombineParentIdWithPartId_split p q :
  0 <= p < 2 ^ 51 -> 0 <= q < 2 ^ 13 ->
  CombineParentIdWithPartId p q / 2 ^ 13 = p /\ CombineParentIdWithPartId p q `mod` 2 ^ 13 = q.
Proof.
  intros Hp Hq. rewrite CombineParentIdWithPartId_add by done.
  unfold wrap. rewrite Z.mod_small by lia. split.
  - rewrite Z.add_comm, Z.div_add, Z.div_small by lia. lia.
  - rewrite Z.add_comm, Z_mod_plus_full. by apply Z.mod_small.
Qed.

Lemma CombineParentIdWithPartId_part p q :
  0 <= q < 2 ^ 13 -> Z.land (CombineParentIdWithPartId p q) PART_ID_MASK = q.
Proof.
  intros Hq. rewrite land_part_mask, CombineParentIdWithPartId_add by done.
  unfold wrap. change (2 ^ 64) with (2 ^ 51 * 2 ^ 13). rewrite Z.mul_mod_distr_r by lia.
  rewrite Z.add_comm, Z_mod_plus_full. by apply Z.mod_small.
Qed.

(** Compared as int8, the numbers of one parent are 2^13 consecutive ones. *)
Lemma CombineParentIdWithPartId_base p :
  exists b, 0 <= b < 2 ^ 51 /\ u64 (p * 2 ^ 13) = b * 2 ^ 13 /\
    forall q, 0 <= q < 2 ^ 13 ->
      CombineParentIdWithPartId p q = b * 2 ^ 13 + q /\
      s64 (CombineParentIdWithPartId p q) = (if b <? 2 ^ 50 then b else b - 2 ^ 51) * 2 ^ 13 + q.
Proof.
  exists (p `mod` 2 ^ 51). pose proof (Z.mod_pos_bound p (2 ^ 51) ltac:(lia)) as Hb.
  assert (u64 (p * 2 ^ 13) = (p `mod` 2 ^ 51) * 2 ^ 13) as E.
  { unfold wrap. change (2 ^ 64) with (2 ^ 51 * 2 ^ 13). by rewrite Z.mul_mod_distr_r by lia. }
  split; [done|]. split; [done|]. intros q Hq. rewrite CombineParentIdWithPartId_add, E by done. split; [done|].
  set (b := p `mod` 2 ^ 51) in *. unfold signed, wrap. rewrite Z.mod_small by lia.
  destruct (Z.ltb_spec b (2 ^ 50)), (Z.ltb_spec (b * 2 ^ 13 + q) (2 ^ (64 - 1))); lia.
Qed.

Lemma CombineParentIdWithPartId_range p q : 0 <= q < 2 ^ 13 -> 0 <= CombineParentIdWithPartId p q < 2 ^ 64.
Proof. intros Hq. destruct (CombineParentIdWithPartId_base p) as (b & Hb & _ & H). destruct (H q Hq) as [-> _]. lia. Qed.

(** A number between the first and the last of a parent is the parent's. *)
Lemma CombineParentIdWithPartId_between d p q :
  0 <= q < 2 ^ 13 ->
  s64 (CombineParentIdWithPartId d 0) <= s64 (CombineParentIdWithPartId p q) <=
    s64 (CombineParentIdWithPartId d PART_ID_MASK) <->
  CombineParentIdWithPartId p q = CombineParentIdWithPartId d q.
Proof.
  intros Hq. destruct (CombineParentIdWithPartId_base d) as (b & Hb & _ & H), (CombineParentIdWithPartId_base p) as (c & Hc & _ & H').
  destruct (H 0 ltac:(lia)) as [_ ->], (H PART_ID_MASK ltac:(unfold PART_ID_MASK; lia)) as [_ ->], (H' q Hq) as [-> ->], (H q Hq) as [-> _].
  unfold PART_ID_MASK. destruct (Z.ltb_spec b (2 ^ 50)), (Z.ltb_spec c (2 ^ 50)); lia.
Qed.

Lemma s64_inj x y : 0 <= x < 2 ^ 64 -> 0 <= y < 2 ^ 64 -> s64 x = s64 y -> x = y.
Proof.
  intros Hx Hy. unfold signed, wrap. rewrite !Z.mod_small by lia.
  destruct (Z.ltb_spec x (2 ^ (64 - 1))), (Z.ltb_spec y (2 ^ (64 - 1))); lia.
Qed.

Lemma HashShard_range h v : 0 <= HashShard h v <= INT32_MAX.
Proof.
  unfold HashShard. cbv zeta. rewrite land_low31. set (r := u32 _).
  pose proof (Z.mod_pos_bound r (2 ^ 31) ltac:(lia)). unfold INT32_MAX.
  rewrite s32_small; lia.
Qed.

(** The shard of an entry depends on the part number alone, and the client
    finds it without knowing the parent. *)
Lemma HashShard_HashInt8 h p q :
  (forall k, h k = HashBytesUint32 k) -> 0 <= q < 2 ^ 13 ->
  HashShard h (CombineParentIdWithPartId p q) = HashInt8 q.
Proof.
  intros Hh Hq. unfold HashShard, HashInt8. cbv zeta. rewrite CombineParentIdWithPartId_part by done.
  rewrite (s64_small q) by lia. rewrite Hh. set (r := s32 (HashBytesUint32 _)).
  rewrite land_low31. pose proof (Z.mod_pos_bound (u32 r) (2 ^ 31) ltac:(lia)).
  set (x := _ `mod` 2 ^ 31) in *. rewrite s32_small by done. unfold wrap. rewrite Z.mod_small; lia.
Qed.
