(* ===== verification/Catalog.v ===== *)
(** * Catalog relations

    What the server uses of PostgreSQL's relations with a unique index: rows
    found, inserted, changed and deleted by key, and scanned in the order of
    the index.  An error of PostgreSQL itself reaches the client as UNKNOWN
    (falcon/utils/error_code.c). *)

From S2P Require Import FalconPrelude.

Section Catalog.
Context {K A : Type} `{Countable K} (R : relation K) `{!RelDecision R}.

Definition row_le (x y : K * A) : Prop := R x.1 y.1.

#[global] Instance row_le_dec : RelDecision row_le.
Proof. intros x y. unfold row_le. apply _. Defined.

(** systable_beginscan_ordered over the whole relation. *)
Definition index_scan (t : gmap K A) : list (K * A) := merge_sort row_le (map_to_list t).

Context `{!Total R, !Transitive R}.

#[local] Instance row_le_total : Total row_le.
Proof. intros x y. unfold row_le. apply total. apply _. Qed.

#[local] Instance row_le_trans : Transitive row_le.
Proof. intros x y z. unfold row_le. apply transitivity. Qed.

Lemma index_scan_perm t : index_scan t ≡ₚ map_to_list t.
Proof. apply merge_sort_Permutation. Qed.

Lemma index_scan_elem t k v : (k, v) ∈ index_scan t <-> t !! k = Some v.
Proof. rewrite index_scan_perm. apply elem_of_map_to_list. Qed.

Lemma index_scan_NoDup t : NoDup (index_scan t).*1.
Proof. rewrite index_scan_perm. apply NoDup_fst_map_to_list. Qed.

Lemma index_scan_sorted t : StronglySorted row_le (index_scan t).
Proof. apply StronglySorted_merge_sort; apply _. Qed.

Lemma index_scan_length t : length (index_scan t) = size t.
Proof. rewrite index_scan_perm. apply length_map_to_list. Qed.
End Catalog.

Section Rows.
Context {K A : Type} `{Countable K}.

(** CatalogTupleInsert under a unique index. *)
Definition tuple_insert (k : K) (v : A) : cmd (gmap K A) unit := fun t =>
  match t !! k with
  | Some _ => Raise UNKNOWN t
  | None => Ret tt (<[k := v]> t)
  end.

Lemma tuple_insert_Ret k v t t' : tuple_insert k v t = Ret tt t' <-> t !! k = None /\ t' = <[k := v]> t.
Proof.
  unfold tuple_insert. destruct (t !! k) eqn:E; split; [done|by intros [? _]|by intros [= <-]|].
  by intros [_ ->].
Qed.
End Rows.

Lemma StronglySorted_filter {A} (R : relation A) (P : A -> Prop) `{!forall x, Decision (P x)} l :
  StronglySorted R l -> StronglySorted R (filter P l).
Proof.
  induction 1 as [|x l Hs IH Hall]; [constructor|]. rewrite filter_cons. case_decide; [|done].
  constructor; [done|]. rewrite Forall_forall in Hall |- *. intros y Hy.
  apply list_elem_of_filter in Hy as [_ Hy]. auto.
Qed.

Lemma filter_none {A} (P : A -> Prop) `{!forall x, Decision (P x)} (l : list A) :
  (forall x, x ∈ l -> ~ P x) -> filter P l = [].
Proof. intros Hl. apply elem_of_nil_inv. intros x [Hp Hx]%list_elem_of_filter. by eapply Hl. Qed.

Lemma filter_all {A} (P : A -> Prop) `{!forall x, Decision (P x)} (l : list A) :
  (forall x, x ∈ l -> P x) -> filter P l = l.
Proof.
  induction l as [|x l IH]; intros Hl; [done|]. rewrite filter_cons_True by (apply Hl; left).
  rewrite IH; [done|]. intros y Hy. apply Hl. by right.
Qed.

(** ** Parts of sorted lists *)

Lemma sorted_after {A} (lt : relation A) `{!Transitive lt, !Irreflexive lt, !RelDecision lt} l1 x l2 :
  StronglySorted lt (l1 ++ x :: l2) -> filter (fun y => lt x y) (l1 ++ x :: l2) = l2.
Proof.
  intros Hs. apply StronglySorted_app in Hs as (Hx & _ & Hs). apply StronglySorted_inv in Hs as [_ Hall].
  rewrite Forall_forall in Hall. rewrite filter_app, filter_cons_False by (by apply irreflexivity).
  rewrite (filter_none _ l1), (filter_all _ l2); [done| |].
  - intros y Hy. by apply Hall.
  - intros y Hy Hlt. apply (irreflexivity lt x). transitivity y; [done|]. apply Hx; [done|left].
Qed.

(** What [P] and [Q] select comes in two runs when no [Q] precedes a [P]. *)
Lemma sorted_runs {A} (R : relation A) (P Q S : A -> Prop) `{!forall x, Decision (P x)} `{!forall x, Decision (Q x)}
    `{!forall x, Decision (S x)} (l : list A) :
  StronglySorted R l -> (forall x, x ∈ l -> S x <-> P x \/ Q x) ->
  (forall x, x ∈ l -> P x -> ~ Q x) -> (forall x y, P x -> Q y -> ~ R y x) ->
  filter S l = filter P l ++ filter Q l.
Proof.
  intros Hs. induction Hs as [|x l Hs IH Hall]; intros HS Hd HR; [done|]. rewrite Forall_forall in Hall.
  rewrite !filter_cons, IH; [|intros; apply HS; by right|intros ??; apply Hd; by right|done].
  pose proof (HS x ltac:(left)) as Hx. destruct (decide (P x)) as [Hp|Hp].
  - rewrite decide_True by (apply Hx; by left). rewrite decide_False by (apply Hd; [left|done]). done.
  - destruct (decide (Q x)) as [Hq|Hq].
    + rewrite decide_True by (apply Hx; by right). rewrite (filter_none P l); [done|].
      intros y Hy Hpy. exact (HR y x Hpy Hq (Hall y Hy)).
    + rewrite decide_False; [done|]. rewrite Hx. tauto.
Qed.

(** ** Keys in order: the first one that reaches a value *)

Section LowerBound.
Context {A : Type}.

Definition first_reaching (rows : list (Z * A)) (h : Z) : option (Z * A) :=
  head (filter (fun r => h <= r.1) rows).

Definition lower_bound (t : gmap Z A) (h : Z) : option (Z * A) := first_reaching (index_scan Z.le t) h.

Lemma first_reaching_app l1 l2 h :
  Forall (fun r => r.1 < h) l1 -> first_reaching (l1 ++ l2) h = first_reaching l2 h.
Proof.
  intros H. unfold first_reaching. rewrite filter_app.
  assert (filter (fun r : Z * A => h <= r.1) l1 = []) as ->; [|done].
  induction H as [|r l1 Hr H IH]; [done|]. rewrite filter_cons_False by lia. done.
Qed.

Lemma first_reaching_here r l h : h <= r.1 -> first_reaching (r :: l) h = Some r.
Proof. intros H. unfold first_reaching. by rewrite filter_cons_True. Qed.

Lemma reaching_elem t h k v :
  (k, v) ∈ filter (fun r : Z * A => h <= r.1) (index_scan Z.le t) <-> t !! k = Some v /\ h <= k.
Proof. rewrite list_elem_of_filter, index_scan_elem. simpl. tauto. Qed.

(** The smallest key that reaches the value. *)
Lemma lower_bound_Some t h k v :
  lower_bound t h = Some (k, v) <->
  t !! k = Some v /\ h <= k /\ forall k', is_Some (t !! k') -> h <= k' -> k <= k'.
Proof.
  unfold lower_bound, first_reaching. pose proof (reaching_elem t h) as Hin.
  assert (StronglySorted (row_le Z.le) (filter (fun r : Z * A => h <= r.1) (index_scan Z.le t))) as Hl.
  { apply StronglySorted_filter, index_scan_sorted; apply _. }
  destruct (filter _ _) as [|[k0 v0] l]; simpl.
  - split; [done|]. intros (Hr & Hh & _). specialize (proj2 (Hin k v) (conj Hr Hh)). set_solver.
  - apply StronglySorted_inv in Hl as [_ Hall]. rewrite Forall_forall in Hall.
    assert (forall k', is_Some (t !! k') -> h <= k' -> k0 <= k') as Hmin.
    { intros k' [v' Hv'] Hh. specialize (proj2 (Hin k' v') (conj Hv' Hh)) as H.
      apply elem_of_cons in H as [[= <- _]|H]; [lia|]. exact (Hall _ H). }
    destruct (proj1 (Hin k0 v0)) as [Hk Hh]; [by left|]. split.
    + intros [= <- <-]. auto.
    + intros (Hr & Hhr & Hmin'). assert (k0 = k) as ->.
      { specialize (Hmin k (ex_intro _ _ Hr) Hhr). specialize (Hmin' k0 (ex_intro _ _ Hk) Hh). lia. }
      congruence.
Qed.

Lemma lower_bound_None t h : lower_bound t h = None <-> forall k, is_Some (t !! k) -> k < h.
Proof.
  unfold lower_bound, first_reaching. pose proof (reaching_elem t h) as Hin.
  destruct (filter _ _) as [|[k0 v0] l]; simpl.
  - split; [|done]. intros _ k [v Hv]. destruct (Z.lt_ge_cases k h); [done|].
    specialize (proj2 (Hin k v) (conj Hv H)). set_solver.
  - split; [done|]. intros H. destruct (proj1 (Hin k0 v0)) as [Hk Hh]; [by left|].
    specialize (H k0 (ex_intro _ _ Hk)). lia.
Qed.
End LowerBound.

Lemma index_scan_strict {A} (t : gmap Z A) : StronglySorted (fun x y => x.1 < y.1) (index_scan Z.le t).
Proof.
  pose proof (index_scan_sorted Z.le t) as Hs. pose proof (index_scan_NoDup Z.le t) as Hn.
  induction Hs as [|x l Hs IH Hall]; [constructor|]. cbn in Hn. apply NoDup_cons in Hn as [Hx Hn].
  constructor; [by apply IH|]. rewrite Forall_forall in Hall |- *. intros y Hy.
  specialize (Hall y Hy). unfold row_le in Hall.
  assert (x.1 <> y.1); [|lia]. intros E. apply Hx. rewrite E. by apply list_elem_of_fmap_2.
Qed.
