(* ===== verification/ForeignServer.v ===== *)
(** * The servers of the cluster (falcon/metadb/foreign_server.c)

    The table falcon_foreign_server, its copy in shared memory with the flag
    that says the copy is out of date, and the connections a backend keeps to
    the other servers.

    text_to_cstring_buffer, the order of hash_seq_search and whether a
    connection can be made are PostgreSQL's and libpq's and are parameters. *)

From S2P Require Import FalconPrelude Catalog.

Definition FALCON_CN_SERVER_ID : Z := 0.
Definition FOREIGN_SERVER_NAME_MAX_LENGTH : nat := Z.to_nat 128.
Definition HOST_MAX_LENGTH : nat := 16.
Definition FOREIGN_SERVER_NUM_MAX : nat := Z.to_nat 128.

(** A row without its key server_id. *)
Record FormData_falcon_foreign_server : Type := mkForeignServer {
  server_name : string;
  host : string;
  port : Z;
  is_local : bool;
  user_name : string;
}.

Inductive FalconRemoteTransactionState : Type :=
| FALCON_REMOTE_TRANSACTION_NONE
| FALCON_REMOTE_TRANSACTION_BEGIN_FOR_WRITE
| FALCON_REMOTE_TRANSACTION_BEGIN_FOR_SNAPSHOT
| FALCON_REMOTE_TRANSACTION_PREPARE.

#[export] Instance FalconRemoteTransactionState_eq_dec : EqDecision FalconRemoteTransactionState.
Proof. solve_decision. Defined.

(** A connection: where it leads, and its status. *)
Inductive conn_status : Type := CONNECTION_STARTED | CONNECTION_OK | CONNECTION_BAD.
#[export] Instance conn_status_eq_dec : EqDecision conn_status.
Proof. solve_decision. Defined.

Record PGconn : Type := mkConn { conn_host : string; conn_port : Z; status : conn_status }.

Record ForeignServerConnection : Type := mkFSConn {
  conn : option PGconn;
  transactionState : FalconRemoteTransactionState;
}.

Record fserver : Type := mkFserver {
  fs_rows : gmap Z FormData_falcon_foreign_server;
  fs_cache : gmap Z FormData_falcon_foreign_server;
  fs_version : Z;
  fs_invalid : bool;
  fs_conns : gmap Z ForeignServerConnection;
  fs_localVersion : Z;
  LocalServerId : Z;
  LocalServerName : string;
}.

Definition fserver_init : fserver := mkFserver ∅ ∅ 0 true ∅ 0 (-1) EmptyString.

Section ForeignServer.
Context (text_to_cstring_buffer : string -> nat -> string).
Context (hash_seq : gmap Z FormData_falcon_foreign_server -> list Z).
Context (connects : FormData_falcon_foreign_server -> bool).

Definition set_rows (f : gmap Z FormData_falcon_foreign_server -> gmap Z FormData_falcon_foreign_server)
    : cmd fserver unit :=
  modify (fun s => mkFserver (f (fs_rows s)) (fs_cache s) (fs_version s) (fs_invalid s) (fs_conns s)
                     (fs_localVersion s) (LocalServerId s) (LocalServerName s)).
Definition set_shmem (c : gmap Z FormData_falcon_foreign_server) (v : Z) (inv : bool) : cmd fserver unit :=
  modify (fun s => mkFserver (fs_rows s) c v inv (fs_conns s)
                     (fs_localVersion s) (LocalServerId s) (LocalServerName s)).
Definition set_conns (f : gmap Z ForeignServerConnection -> gmap Z ForeignServerConnection) : cmd fserver unit :=
  modify (fun s => mkFserver (fs_rows s) (fs_cache s) (fs_version s) (fs_invalid s) (f (fs_conns s))
                     (fs_localVersion s) (LocalServerId s) (LocalServerName s)).
Definition set_local (v id : Z) (name : string) : cmd fserver unit :=
  modify (fun s => mkFserver (fs_rows s) (fs_cache s) (fs_version s) (fs_invalid s) (fs_conns s) v id name).

(** ** The table *)

Definition InvalidateForeignServerShmemCache : cmd fserver unit :=
  s ← get; set_shmem (fs_cache s) (fs_version s) true.

Definition InsertForeignServerByRel (serverId : Z) (row : FormData_falcon_foreign_server) : cmd fserver unit :=
  s ← get;
  match tuple_insert serverId row (fs_rows s) with
  | Ret _ t => set_rows (fun _ => t)
  | Raise e _ => raise e
  | OutOfFuel => fun _ => OutOfFuel
  end.

Definition DeleteForeignServerByRel (serverId : Z) : cmd fserver unit :=
  s ← get;
  match fs_rows s !! serverId with
  | None => raise ARGUMENT_ERROR
  | Some _ => set_rows (delete serverId)
  end.

Definition UpdateForeignServerByRel (serverId : Z) (newHost : string) (newPort : Z) : cmd fserver unit :=
  s ← get;
  match fs_rows s !! serverId with
  | None => raise ARGUMENT_ERROR
  | Some r => set_rows (<[serverId := mkForeignServer (server_name r) newHost newPort (is_local r) (user_name r)]>)
  end.

Definition InsertForeignServer (serverId : Z) (row : FormData_falcon_foreign_server) : cmd fserver unit :=
  _ ← InsertForeignServerByRel serverId row; InvalidateForeignServerShmemCache.
Definition DeleteForeignServer (serverId : Z) : cmd fserver unit :=
  _ ← DeleteForeignServerByRel serverId; InvalidateForeignServerShmemCache.
Definition UpdateForeignServer (serverId : Z) (newHost : string) (newPort : Z) : cmd fserver unit :=
  _ ← UpdateForeignServerByRel serverId newHost newPort; InvalidateForeignServerShmemCache.

(** ** The copy in shared memory *)

Definition load_row (r : FormData_falcon_foreign_server) : FormData_falcon_foreign_server :=
  mkForeignServer (text_to_cstring_buffer (server_name r) FOREIGN_SERVER_NAME_MAX_LENGTH)
    (text_to_cstring_buffer (host r) HOST_MAX_LENGTH) (port r) (is_local r)
    (text_to_cstring_buffer (user_name r) FOREIGN_SERVER_NAME_MAX_LENGTH).

Definition ReloadForeignServerShmemCache : cmd fserver unit :=
  s ← get;
  if negb (fs_invalid s) then mret tt
  else
    let rows := index_scan Z.le (fs_rows s) in
    let cache := list_to_map (prod_map id load_row <$> take FOREIGN_SERVER_NUM_MAX rows) in
    if bool_decide (FOREIGN_SERVER_NUM_MAX < length rows)%nat then
      _ ← set_shmem cache (fs_version s) true; raise PROGRAM_ERROR
    else set_shmem cache (s32 (fs_version s + 1)) false.

(** The loop that reloads while the flag is set: a reload clears the flag or
    raises. *)
Definition refresh : cmd fserver unit :=
  s ← get; if fs_invalid s then ReloadForeignServerShmemCache else mret tt.

Definition falcon_reload_foreign_server_cache : cmd fserver unit :=
  _ ← InvalidateForeignServerShmemCache; ReloadForeignServerShmemCache.

Definition GetForeignServerCount : cmd fserver Z :=
  _ ← refresh; s ← get; mret (Z.of_nat (size (fs_cache s))).

(** The servers that GetAllForeignServerId does not skip. *)
Definition wanted (exceptSelf exceptCn : bool) (c : gmap Z FormData_falcon_foreign_server) (id : Z) : bool :=
  match c !! id with
  | Some r => negb (exceptSelf && is_local r) && negb (exceptCn && (id =? FALCON_CN_SERVER_ID))
  | None => false
  end.

Definition GetAllForeignServerId (exceptSelf exceptCn : bool) : cmd fserver (list Z) :=
  _ ← refresh;
  s ← get;
  mret (filter (fun id => wanted exceptSelf exceptCn (fs_cache s) id = true) (hash_seq (fs_cache s))).

(** The host and port of each server asked for. *)
Fixpoint connection_infos (ids : list Z) : cmd fserver (list (string * Z)) := fun s =>
  match ids with
  | [] => Ret [] s
  | id :: ids' =>
      match fs_cache s !! id with
      | None => Raise PROGRAM_ERROR s
      | Some r => (rest ← connection_infos ids'; mret ((host r, port r) :: rest)) s
      end
  end.

Definition GetForeignServerConnectionInfo (ids : list Z) : cmd fserver (list (string * Z)) :=
  _ ← refresh; connection_infos ids.

(** ** The connections of a backend *)

(** Whether a kept connection is dropped: its server is gone, it was never
    made, or the server moved. *)
Definition stale (c : gmap Z FormData_falcon_foreign_server) (id : Z) (fc : ForeignServerConnection) : bool :=
  match c !! id, conn fc with
  | Some r, Some k => negb (bool_decide (conn_host k = host r)) || negb (conn_port k =? port r)
  | _, _ => true
  end.

Definition find_local (c : gmap Z FormData_falcon_foreign_server) : option (Z * string) :=
  head (omap (fun id => match c !! id with
                        | Some r => if is_local r then Some (id, server_name r) else None
                        | None => None
                        end) (hash_seq c)).

Definition RenewForeignServerLocalCache : cmd fserver unit :=
  s ← get;
  _ ← set_conns (fun m => filter (fun p : Z * ForeignServerConnection => stale (fs_cache s) p.1 p.2 = false) m);
  match (if LocalServerId s =? -1 then find_local (fs_cache s) else None) with
  | Some (id, name) => set_local (fs_version s) id name
  | None => set_local (fs_version s) (LocalServerId s) (LocalServerName s)
  end.

Definition GetLocalServerId : cmd fserver Z :=
  s ← get;
  _ ← (if LocalServerId s =? -1 then _ ← refresh; RenewForeignServerLocalCache else mret tt);
  gets LocalServerId.

Definition GetLocalServerName : cmd fserver string :=
  s ← get;
  _ ← (if LocalServerId s =? -1 then _ ← refresh; RenewForeignServerLocalCache else mret tt);
  gets LocalServerName.

(** The entry of a server, made if need be, without a broken connection. *)
Definition enter_conn (m : gmap Z ForeignServerConnection) (id : Z) : ForeignServerConnection :=
  let fc := default (mkFSConn None FALCON_REMOTE_TRANSACTION_NONE) (m !! id) in
  match conn fc with
  | Some k => if bool_decide (status k = CONNECTION_BAD) then mkFSConn None (transactionState fc) else fc
  | None => fc
  end.

(** The first loop for one server: whether a connection was started. *)
Definition start_conn (id : Z) : cmd fserver bool :=
  s ← get;
  let fc := enter_conn (fs_conns s) id in
  match conn fc, fs_cache s !! id with
  | Some _, _ => _ ← set_conns (<[id := fc]>); mret false
  | None, None => _ ← set_conns (<[id := fc]>); raise PROGRAM_ERROR
  | None, Some r =>
      _ ← set_conns (<[id := mkFSConn (Some (mkConn (host r) (port r) CONNECTION_STARTED))
                                       FALCON_REMOTE_TRANSACTION_NONE]>);
      mret true
  end.

Fixpoint start_conns (ids : list Z) : cmd fserver (list (Z * bool)) :=
  match ids with
  | [] => mret []
  | id :: ids' =>
      started ← start_conn id;
      rest ← start_conns ids';
      mret ((id, started) :: rest)
  end.

(** The second loop: a started connection becomes usable or is given up. *)
Fixpoint finish_conns (l : list (Z * bool)) : cmd fserver bool :=
  match l with
  | [] => mret true
  | (id, false) :: l' => finish_conns l'
  | (id, true) :: l' =>
      s ← get;
      let ok := match fs_cache s !! id with Some r => connects r | None => false end in
      _ ← set_conns (alter (fun fc =>
            mkFSConn (if ok then (fun k => mkConn (conn_host k) (conn_port k) CONNECTION_OK) <$> conn fc else None)
              (transactionState fc)) id);
      rest ← finish_conns l';
      mret (ok && rest)
  end.

Definition GetForeignServerConnection (aborting : bool) (ids : list Z) : cmd fserver (list Z) :=
  _ ← refresh;
  s ← get;
  _ ← (if fs_localVersion s <? fs_version s then RenewForeignServerLocalCache else mret tt);
  l ← start_conns ids;
  connectSucceed ← finish_conns l;
  _ ← raise_unless (connectSucceed || aborting) PROGRAM_ERROR;
  mret ids.

Definition CleanupForeignServerConnections : cmd fserver unit := set_conns (fun _ => ∅).

End ForeignServer.

(** ** Correctness *)

Section ForeignServerProofs.
Context (text_to_cstring_buffer : string -> nat -> string).
Context (hash_seq : gmap Z FormData_falcon_foreign_server -> list Z).
Context (connects : FormData_falcon_foreign_server -> bool).

Abbreviation load := (load_row text_to_cstring_buffer) (only parsing).
Abbreviation Refresh := (refresh text_to_cstring_buffer) (only parsing).

(** The connection goes where the copy of the table says. *)
Definition conn_current (c : gmap Z FormData_falcon_foreign_server) (id : Z) (fc : ForeignServerConnection) : Prop :=
  forall k, conn fc = Some k -> exists r, c !! id = Some r /\ conn_host k = host r /\ conn_port k = port r.

(** While the flag is not set the copy is the table; a backend whose version is
    the current one has no stale connections. *)
Record fs_inv (s : fserver) : Prop := {
  inv_cache : fs_invalid s = false -> fs_cache s = load <$> fs_rows s;
  inv_version : 0 <= fs_localVersion s <= fs_version s;
  inv_conns : fs_invalid s = false -> fs_localVersion s = fs_version s ->
    map_Forall (conn_current (fs_cache s)) (fs_conns s);
}.

Lemma load_all t : list_to_map (prod_map id load <$> index_scan Z.le t) = load <$> t.
Proof.
  apply map_eq. intros k. apply option_eq. intros r.
  rewrite <- elem_of_list_to_map.
  - rewrite list_elem_of_fmap, lookup_fmap, fmap_Some. split.
    + intros ([k' r'] & [= -> ->] & Hin). apply index_scan_elem in Hin. eauto.
    + intros (r' & Hr & ->). exists (k, r'). split; [done|]. by apply index_scan_elem.
  - rewrite <- list_fmap_compose. rewrite (list_fmap_ext _ fst) by (by intros ? [] ?).
    apply index_scan_NoDup.
Qed.

(** After a reload the copy is the table. *)
Lemma refresh_Ret s s' :
  fs_inv s -> fs_version s < INT32_MAX -> Refresh s = Ret tt s' ->
  fs_inv s' /\ fs_invalid s' = false /\ fs_rows s' = fs_rows s /\ fs_cache s' = load <$> fs_rows s /\
  fs_conns s' = fs_conns s /\ LocalServerId s' = LocalServerId s.
Proof.
  intros [Hc Hv Hk] Hb H. unfold refresh in H. cmd_unfold H.
  destruct (fs_invalid s) eqn:Ei; cycle 1.
  { simplify_eq. split_and!; auto. split; auto. }
  unfold ReloadForeignServerShmemCache in H. cmd_unfold H. rewrite Ei in H. simpl in H.
  case_bool_decide as Hlen; cmd_unfold H; simplify_eq/=. unfold set_shmem in H. cmd_unfold H. simplify_eq.
  rewrite take_ge, load_all by lia. unfold INT32_MAX in Hb.
  rewrite s32_small by lia. split_and!; try done. split; simpl; [done|lia|]. intros _ E. lia.
Qed.

Lemma refresh_returns s :
  (size (fs_rows s) <= FOREIGN_SERVER_NUM_MAX)%nat -> exists s', Refresh s = Ret tt s'.
Proof.
  intros Hs. unfold refresh, ReloadForeignServerShmemCache, mbind, cmd_bind, get. simpl.
  destruct (fs_invalid s) eqn:Ei; [|eexists; reflexivity]. rewrite Ei. simpl.
  rewrite index_scan_length, bool_decide_eq_false_2 by lia. eexists; reflexivity.
Qed.

Lemma refresh_Raise s e s' : fs_inv s -> Refresh s = Raise e s' -> fs_inv s' /\ fs_rows s' = fs_rows s.
Proof.
  intros [Hc Hv Hk] H. unfold refresh in H. cmd_unfold H.
  destruct (fs_invalid s) eqn:Ei; [|done].
  unfold ReloadForeignServerShmemCache in H. cmd_unfold H. rewrite Ei in H. simpl in H.
  case_bool_decide as Hlen; cmd_unfold H; simplify_eq/=. split; [|done]. by split.
Qed.

Lemma connection_infos_spec ids s :
  connection_infos ids s =
    match mapM (fun id => fs_cache s !! id) ids with
    | Some rs => Ret ((fun r => (host r, port r)) <$> rs) s
    | None => Raise PROGRAM_ERROR s
    end.
Proof.
  induction ids as [|id ids IH]; simpl; [done|].
  destruct (fs_cache s !! id) as [r|]; simpl; [|done].
  unfold mbind, cmd_bind in IH |- *. rewrite IH. by destruct (mapM _ ids).
Qed.

(** Dropping the stale connections leaves current ones. *)
Lemma Renew_spec s s' :
  RenewForeignServerLocalCache hash_seq s = Ret tt s' ->
  fs_rows s' = fs_rows s /\ fs_cache s' = fs_cache s /\ fs_version s' = fs_version s /\
  fs_invalid s' = fs_invalid s /\ fs_localVersion s' = fs_version s /\
  map_Forall (conn_current (fs_cache s)) (fs_conns s').
Proof.
  intros H. unfold RenewForeignServerLocalCache in H. cmd_unfold H.
  set (m := filter _ (fs_conns s)) in *.
  assert (map_Forall (conn_current (fs_cache s)) m) as Hm.
  { intros id fc Hl k Ek. apply map_lookup_filter_Some in Hl as [_ Hst]. unfold stale in Hst. simpl in Hst.
    rewrite Ek in Hst. destruct (fs_cache s !! id) as [r|]; [|done].
    bool_to_prop. eauto. }
  destruct (if LocalServerId s =? -1 then _ else _) as [[id name]|]; unfold set_local in H; cmd_unfold H; by simplify_eq.
Qed.

(** ** Reachable states *)

(** The effect of a call, whether it returns or raises. *)
Definition ran {A} (m : cmd fserver A) (s s' : fserver) : Prop :=
  (exists a, m s = Ret a s') \/ (exists e, m s = Raise e s').

(** One call, or a connection that breaks.  The version of the copy, a 32-bit
    counter of reloads, stays below its maximum. *)
Inductive fs_step : fserver -> fserver -> Prop :=
| fs_insert (id : Z) row s s' : ran (InsertForeignServer id row) s s' -> fs_step s s'
| fs_delete (id : Z) s s' : ran (DeleteForeignServer id) s s' -> fs_step s s'
| fs_update (id : Z) (h : string) (p : Z) s s' : ran (UpdateForeignServer id h p) s s' -> fs_step s s'
| fs_read s s' : fs_version s < INT32_MAX -> ran Refresh s s' -> fs_step s s'
| fs_connect aborting ids s s' :
    fs_version s < INT32_MAX ->
    ran (GetForeignServerConnection text_to_cstring_buffer hash_seq connects aborting ids) s s' -> fs_step s s'
| fs_invalidate s s' : ran InvalidateForeignServerShmemCache s s' -> fs_step s s'
| fs_break (id : Z) fc k s s' :
    fs_conns s !! id = Some fc -> conn fc = Some k ->
    ran (set_conns (<[id := mkFSConn (Some (mkConn (conn_host k) (conn_port k) CONNECTION_BAD))
                             (transactionState fc)]>)) s s' -> fs_step s s'
| fs_cleanup s s' : ran CleanupForeignServerConnections s s' -> fs_step s s'.

Lemma ran_bind {A B} (m : cmd fserver A) (k : A -> cmd fserver B) s s' :
  ran (m ≫= k) s s' -> (exists e, m s = Raise e s') \/ (exists a s1, m s = Ret a s1 /\ ran (k a) s1 s').
Proof.
  unfold ran, mbind, cmd_bind. intros [[b H]|[e H]]; destruct (m s) as [a s1|e1 s1|]; simplify_eq; eauto.
  - right. exists a, s1. eauto.
  - right. exists a, s1. eauto.
Qed.

(** What the loops over the connections keep. *)
Definition keeps (s s' : fserver) : Prop :=
  fs_rows s' = fs_rows s /\ fs_cache s' = fs_cache s /\ fs_version s' = fs_version s /\
  fs_invalid s' = fs_invalid s /\ fs_localVersion s' = fs_localVersion s.

#[local] Instance keeps_preorder : PreOrder keeps.
Proof. split; [by intros s|]. intros s1 s2 s3 (? & ? & ? & ? & ?) (? & ? & ? & ? & ?). split_and!; congruence. Qed.

Definition conns_current (s : fserver) : Prop := map_Forall (conn_current (fs_cache s)) (fs_conns s).

Lemma enter_conn_current s id :
  conns_current s -> conn_current (fs_cache s) id (enter_conn (fs_conns s) id).
Proof.
  intros Hc. unfold enter_conn. destruct (fs_conns s !! id) as [fc|] eqn:E; simpl; [|by intros k [=]].
  specialize (Hc _ _ E). destruct (conn fc) as [k|] eqn:Ek; [|done]. case_bool_decide; [by intros k' [=]|done].
Qed.

Lemma start_conn_ran id s s' :
  ran (start_conn id) s s' -> conns_current s -> keeps s s' /\ conns_current s'.
Proof.
  intros H Hc. pose proof (enter_conn_current s id Hc) as Hfc. unfold start_conn in H.
  set (fc := enter_conn (fs_conns s) id) in *.
  assert (forall fc1, conn_current (fs_cache s) id fc1 ->
    s' = mkFserver (fs_rows s) (fs_cache s) (fs_version s) (fs_invalid s) (<[id := fc1]> (fs_conns s))
           (fs_localVersion s) (LocalServerId s) (LocalServerName s) ->
    keeps s s' /\ conns_current s') as Hset.
  { intros fc1 H1 ->. split; [by split_and!|]. by apply map_Forall_insert_2. }
  destruct H as [[a H]|[e H]]; cmd_unfold H; fold fc in H;
    (destruct (conn fc) as [k|] eqn:Ek; [|destruct (fs_cache s !! id) as [r|] eqn:Er]);
    unfold set_conns in H; cmd_unfold H; simplify_eq; try (by eapply Hset).
  eapply Hset; [|done]. intros k [= <-]. eauto.
Qed.

Lemma start_conns_ran ids s s' :
  ran (start_conns ids) s s' -> conns_current s -> keeps s s' /\ conns_current s'.
Proof.
  revert s. induction ids as [|id ids IH]; intros s H Hc; cbn [start_conns] in H.
  { destruct H as [[a H]|[e H]]; cmd_unfold H; by simplify_eq. }
  apply ran_bind in H as [[e H]|(b & s1 & E & H)].
  { apply (start_conn_ran id); [right; eauto|done]. }
  destruct (start_conn_ran id s s1) as [K1 C1]; [left; eauto|done|].
  apply ran_bind in H as [[e H]|(l & s2 & E2 & H)].
  - destruct (IH s1) as [K2 C2]; [right; eauto|done|]. split; [by etransitivity|done].
  - destruct H as [[a H]|[e H]]; cmd_unfold H; simplify_eq.
    destruct (IH s1) as [K2 C2]; [left; eauto|done|]. split; [by etransitivity|done].
Qed.

Lemma finish_conns_ran l s s' :
  ran (finish_conns connects l) s s' -> conns_current s -> keeps s s' /\ conns_current s'.
Proof.
  revert s. induction l as [|[id b] l IH]; intros s H Hc; cbn [finish_conns] in H.
  { destruct H as [[a H]|[e H]]; cmd_unfold H; by simplify_eq. }
  destruct b; [|by apply IH].
  apply ran_bind in H as [[e H]|(s0 & s00 & E0 & H)]; [done|]. cmd_unfold E0. simplify_eq.
  apply ran_bind in H as [[e H]|([] & s1 & E1 & H)]; [done|].
  set (ok := match fs_cache s00 !! id with Some _ => _ | None => _ end) in *.
  assert (keeps s00 s1 /\ conns_current s1) as [K1 C1].
  { unfold set_conns in E1. cmd_unfold E1. simplify_eq. split; [by split_and!|].
    intros id' fc Hl. simpl in Hl. destruct (decide (id = id')) as [<-|Hne].
    - rewrite lookup_alter_eq in Hl. destruct (fs_conns s00 !! id) as [fc'|] eqn:El; simplify_eq/=.
      specialize (Hc _ _ El). intros k Hk. simpl in Hk. destruct ok; [|done].
      destruct (conn fc') as [k'|] eqn:Ek'; simplify_eq/=. exact (Hc k' Ek').
    - rewrite lookup_alter_ne in Hl by done. exact (Hc _ _ Hl). }
  apply ran_bind in H as [[e H]|(r & s2 & E2 & H)].
  - destruct (IH s1) as [K2 C2]; [right; eauto|done|]. split; [by etransitivity|done].
  - destruct H as [[a H]|[e H]]; cmd_unfold H; simplify_eq.
    destruct (IH s1) as [K2 C2]; [left; eauto|done|]. split; [by etransitivity|done].
Qed.

Lemma keeps_inv s s' :
  fs_inv s -> keeps s s' -> fs_invalid s = false -> conns_current s' -> fs_inv s'.
Proof.
  intros [Hc Hv _] (Er & Ec & Ev & Ei & El) Hi Hcur. split.
  - rewrite Ec, Er. auto.
  - by rewrite El, Ev.
  - intros _ _. exact Hcur.
Qed.

(** The state in which the loops start. *)
Lemma connect_begin s s1 s2 :
  fs_inv s -> fs_version s < INT32_MAX -> Refresh s = Ret tt s1 ->
  (if fs_localVersion s1 <? fs_version s1 then RenewForeignServerLocalCache hash_seq else mret tt) s1 = Ret tt s2 ->
  fs_inv s2 /\ fs_invalid s2 = false /\ conns_current s2 /\
  fs_rows s2 = fs_rows s /\ fs_cache s2 = load <$> fs_rows s.
Proof.
  intros Hinv Hb H1 H2. apply refresh_Ret in H1 as (Hi1 & Hv1 & Er1 & Ec1 & _); [|done|done].
  destruct (Z.ltb_spec (fs_localVersion s1) (fs_version s1)) as [Hlt|Hge].
  - apply Renew_spec in H2 as (Er & Ec & Ev & Ei & El & Hf). rewrite Er, Ec.
    assert (conns_current s2) as Hcur by (unfold conns_current; by rewrite Ec).
    split_and!; try done; try congruence. split.
    + rewrite Er, Ec. intros _. congruence.
    + rewrite El, Ev. pose proof (inv_version _ Hi1). lia.
    + intros _ _. exact Hcur.
  - cmd_unfold H2. simplify_eq. split_and!; try done.
    pose proof (inv_version _ Hi1). apply (inv_conns _ Hi1); [done|lia].
Qed.

Lemma Renew_returns s : exists s', RenewForeignServerLocalCache hash_seq s = Ret tt s'.
Proof.
  unfold RenewForeignServerLocalCache, mbind, cmd_bind. simpl.
  destruct (if LocalServerId s =? -1 then _ else _) as [[id name]|]; eexists; reflexivity.
Qed.

Lemma connect_ran aborting ids s s' :
  fs_inv s -> fs_version s < INT32_MAX ->
  ran (GetForeignServerConnection text_to_cstring_buffer hash_seq connects aborting ids) s s' -> fs_inv s'.
Proof.
  intros Hinv Hb H. unfold GetForeignServerConnection in H.
  apply ran_bind in H as [[e H]|([] & s1 & E1 & H)]; [by apply refresh_Raise in H as [? _]|].
  apply ran_bind in H as [[e H]|(s0 & s10 & E0 & H)]; [done|]. cmd_unfold E0. simplify_eq.
  apply ran_bind in H as [[e H]|([] & s2 & E2 & H)].
  { destruct (Renew_returns s10) as [x Hx]. destruct (_ <? _); [by rewrite Hx in H|done]. }
  destruct (connect_begin _ _ _ Hinv Hb E1 E2) as (Hi2 & Hv2 & Hc2 & _).
  apply ran_bind in H as [[e H]|(l & s3 & E3 & H)].
  { destruct (start_conns_ran ids s2 s') as [K C]; [right; eauto|done|]. by eapply keeps_inv. }
  destruct (start_conns_ran ids s2 s3) as [K3 C3]; [left; eauto|done|].
  assert (fs_inv s3) as Hi3 by (by eapply keeps_inv).
  assert (fs_invalid s3 = false) as Hv3 by (destruct K3 as (_ & _ & _ & -> & _); done).
  apply ran_bind in H as [[e H]|(b & s4 & E4 & H)].
  { destruct (finish_conns_ran l s3 s') as [K C]; [right; eauto|done|]. by eapply keeps_inv. }
  destruct (finish_conns_ran l s3 s4) as [K4 C4]; [left; eauto|done|].
  assert (s' = s4) as ->; [|by eapply keeps_inv].
  destruct H as [[a H]|[e H]]; cmd_unfold H; destruct (_ || _); cmd_unfold H; by simplify_eq.
Qed.

Lemma fs_inv_invalid s s' :
  fs_inv s -> fs_invalid s' = true -> fs_version s' = fs_version s -> fs_localVersion s' = fs_localVersion s ->
  fs_inv s'.
Proof. intros [_ Hv _] Hi Ev El. split; [congruence|by rewrite El, Ev|congruence]. Qed.

(** A change of the table sets the flag. *)
Lemma table_change_inv (m : cmd fserver unit) s s' :
  (forall s1, m s = Ret tt s1 -> fs_version s1 = fs_version s /\ fs_localVersion s1 = fs_localVersion s) ->
  (forall e s1, m s = Raise e s1 -> s1 = s) ->
  fs_inv s -> ran (_ ← m; InvalidateForeignServerShmemCache) s s' -> fs_inv s'.
Proof.
  intros Hm Hr Hinv H. apply ran_bind in H as [[e H]|([] & s1 & E & H)]; [by rewrite (Hr _ _ H)|].
  destruct (Hm s1 E) as [Ev El]. unfold InvalidateForeignServerShmemCache, set_shmem in H.
  destruct H as [[a H]|[e H]]; cmd_unfold H; simplify_eq.
  apply (fs_inv_invalid s _ Hinv); simpl; congruence.
Qed.

Ltac row_op :=
  intros;
  match goal with
  | E : _ ?s = _ |- _ =>
      unfold InsertForeignServerByRel, DeleteForeignServerByRel, UpdateForeignServerByRel, tuple_insert in E;
      cmd_unfold E; destruct (fs_rows s !! _); unfold set_rows in E; cmd_unfold E; by simplify_eq
  end.

Lemma fs_step_inv s s' : fs_step s s' -> fs_inv s -> fs_inv s'.
Proof.
  intros Hstep Hinv. destruct Hstep as [id row s s' H|id s s' H|id h p s s' H|s s' Hb H|aborting ids s s' Hb H
    |s s' H|id fc k s s' El Ek H|s s' H].
  - refine (table_change_inv _ s s' _ _ Hinv H); row_op.
  - refine (table_change_inv _ s s' _ _ Hinv H); row_op.
  - refine (table_change_inv _ s s' _ _ Hinv H); row_op.
  - destruct H as [[[] H]|[e H]]; [by apply refresh_Ret in H as [? _]|by apply refresh_Raise in H as [? _]].
  - by eapply connect_ran.
  - unfold InvalidateForeignServerShmemCache, set_shmem in H.
    destruct H as [[a H]|[e H]]; cmd_unfold H; simplify_eq. apply (fs_inv_invalid s _ Hinv); simpl; congruence.
  - unfold CleanupForeignServerConnections, set_conns in H.
    destruct H as [[a H]|[e H]]; cmd_unfold H; simplify_eq. destruct Hinv as [Hc Hv Hk]. split; [done|done|].
    intros Hi Hl. simpl in *. apply map_Forall_insert_2; [|by apply Hk].
    intros k' [= <-]. simpl. exact (Hk Hi Hl _ _ El _ Ek).
  - unfold CleanupForeignServerConnections, set_conns in H.
    destruct H as [[a H]|[e H]]; cmd_unfold H; simplify_eq. destruct Hinv as [Hc Hv Hk]. split; [done|done|].
    intros _ _. apply map_Forall_empty.
Qed.

Definition fs_reachable (s : fserver) : Prop := rtc fs_step fserver_init s.

Lemma fs_init_inv : fs_inv fserver_init.
Proof. split; simpl; [done|lia|done]. Qed.

Lemma fs_reachable_inv s : fs_reachable s -> fs_inv s.
Proof.
  intros H. unfold fs_reachable in H. remember fserver_init as i eqn:Ei.
  assert (fs_inv i) as Hi by (rewrite Ei; apply fs_init_inv). clear Ei.
  induction H; eauto using fs_step_inv.
Qed.

(** ** Answers *)

(** The server has a connection that is not broken. *)
Definition linked (s : fserver) (id : Z) : Prop :=
  exists fc k, fs_conns s !! id = Some fc /\ conn fc = Some k /\ status k <> CONNECTION_BAD.

Lemma linked_insert s s' id fc k :
  conn fc = Some k -> status k <> CONNECTION_BAD -> fs_conns s' = <[id := fc]> (fs_conns s) ->
  linked s' id /\ forall id', linked s id' -> linked s' id'.
Proof.
  intros Hk Hs E.
  assert (linked s' id) as Hid by (exists fc, k; rewrite E, lookup_insert_eq; by split_and!).
  split; [done|]. intros id' (fc' & k' & El & Hl). destruct (decide (id = id')) as [<-|Hne]; [done|].
  exists fc', k'. by rewrite E, lookup_insert_ne.
Qed.

Lemma start_conn_links s id :
  is_Some (fs_cache s !! id) ->
  exists b s', start_conn id s = Ret b s' /\ fs_cache s' = fs_cache s /\ linked s' id /\
    forall id', linked s id' -> linked s' id'.
Proof.
  intros [r Hr]. unfold start_conn, mbind, cmd_bind, get. simpl.
  destruct (conn (enter_conn (fs_conns s) id)) as [k|] eqn:Ek.
  - eexists _, _. split; [reflexivity|]. split; [done|]. eapply linked_insert; [exact Ek| |done].
    unfold enter_conn in Ek. set (fc := default _ (fs_conns s !! id)) in Ek.
    destruct (conn fc) as [k'|] eqn:Ek'; [case_bool_decide; [done|congruence]|congruence].
  - rewrite Hr. eexists _, _. split; [reflexivity|]. split; [done|].
    eapply linked_insert; cycle 2; [reflexivity|reflexivity|done].
Qed.

Lemma start_conns_links s ids :
  Forall (fun id => is_Some (fs_cache s !! id)) ids ->
  exists l s', start_conns ids s = Ret l s' /\ fs_cache s' = fs_cache s /\ l.*1 = ids /\
    Forall (linked s') ids /\ forall id', linked s id' -> linked s' id'.
Proof.
  revert s. induction ids as [|id ids IH]; intros s Hall; cbn [start_conns].
  { eexists [], s. by split_and!. }
  apply Forall_cons in Hall as [Hid Hall].
  destruct (start_conn_links s id Hid) as (b & s1 & E1 & Ec1 & L1 & P1).
  destruct (IH s1) as (l & s2 & E2 & Ec2 & El & L2 & P2); [by rewrite Ec1|].
  exists ((id, b) :: l), s2. rewrite (bind_Ret _ _ _ _ _ E1), (bind_Ret _ _ _ _ _ E2).
  split_and!; [done|congruence|by rewrite <- El|constructor; auto|auto].
Qed.

Lemma finish_conns_links s l :
  Forall (fun id => exists r, fs_cache s !! id = Some r /\ connects r = true) l.*1 ->
  exists s', finish_conns connects l s = Ret true s' /\ forall id, linked s id -> linked s' id.
Proof.
  revert s. induction l as [|[id b] l IH]; intros s Hall; cbn [finish_conns]; [by exists s|].
  apply Forall_cons in Hall as [(r & Hr & Hok) Hall]. simpl in Hr. destruct b; [|by apply IH].
  unfold mbind, cmd_bind, get. simpl. rewrite Hr, Hok.
  set (s1 := mkFserver _ _ _ _ _ _ _ _). destruct (IH s1) as (s2 & E2 & P2); [done|]. rewrite E2.
  exists s2. split; [done|]. intros id' (fc & k & El & Ek & Hs). apply P2.
  destruct (decide (id = id')) as [<-|Hne].
  - eexists _, _. unfold s1. simpl. rewrite lookup_alter_eq, El. simpl. rewrite Ek. by split_and!.
  - exists fc, k. unfold s1. simpl. by rewrite lookup_alter_ne.
Qed.

(** The answers follow the table.  In every state that inserts, deletes,
    updates, reloads, invalidations and connections can lead to, asking for
    the addresses of servers gives what falcon_foreign_server says now, or
    PROGRAM_ERROR when a server is not in it. *)
Theorem GetForeignServerConnectionInfo_current s ids :
  fs_reachable s -> (size (fs_rows s) <= FOREIGN_SERVER_NUM_MAX)%nat -> fs_version s < INT32_MAX ->
  exists s', fs_rows s' = fs_rows s /\
    GetForeignServerConnectionInfo text_to_cstring_buffer ids s =
      match mapM (fun id => fs_rows s !! id) ids with
      | Some rs => Ret ((fun r => (text_to_cstring_buffer (host r) HOST_MAX_LENGTH, port r)) <$> rs) s'
      | None => Raise PROGRAM_ERROR s'
      end.
Proof.
  intros Hr Hs Hb. apply fs_reachable_inv in Hr. destruct (refresh_returns s Hs) as [s1 E].
  destruct (refresh_Ret s s1 Hr Hb E) as (_ & _ & Er & Ec & _). exists s1. split; [done|].
  unfold GetForeignServerConnectionInfo. rewrite (bind_Ret _ _ _ _ _ E), connection_infos_spec, Ec.
  assert (mapM (fun id => (load <$> fs_rows s) !! id) ids =
          (fmap load) <$> mapM (fun id => fs_rows s !! id) ids) as ->.
  { induction ids as [|id ids IH]; simpl; [done|]. rewrite lookup_fmap, IH.
    destruct (fs_rows s !! id); simpl; [|done].
    by destruct (mapM (fun id => fs_rows s !! id) ids). }
  destruct (mapM _ ids) as [rs|]; simpl; [|done]. rewrite <- list_fmap_compose.
  reflexivity.
Qed.

(** Connections go to the servers of the table.  When the servers asked for
    are in the table and accept connections, GetForeignServerConnection returns
    and each of them has a connection, not broken, to the host and port the
    table gives now, whatever connections the backend kept from before. *)
Theorem GetForeignServerConnection_current s aborting ids :
  fs_reachable s -> (size (fs_rows s) <= FOREIGN_SERVER_NUM_MAX)%nat -> fs_version s < INT32_MAX ->
  Forall (fun id => exists r, fs_rows s !! id = Some r /\ connects (load r) = true) ids ->
  exists s', GetForeignServerConnection text_to_cstring_buffer hash_seq connects aborting ids s = Ret ids s' /\
    Forall (fun id => exists r fc k, fs_rows s !! id = Some r /\ fs_conns s' !! id = Some fc /\
      conn fc = Some k /\ status k <> CONNECTION_BAD /\
      conn_host k = text_to_cstring_buffer (host r) HOST_MAX_LENGTH /\ conn_port k = port r) ids.
Proof.
  intros Hr Hs Hb Hall. apply fs_reachable_inv in Hr. destruct (refresh_returns s Hs) as [s1 E1].
  assert (exists s2, (if fs_localVersion s1 <? fs_version s1 then RenewForeignServerLocalCache hash_seq
    else mret tt) s1 = Ret tt s2) as [s2 E2] by (destruct (_ <? _); [apply Renew_returns|by eexists]).
  destruct (connect_begin _ _ _ Hr Hb E1 E2) as (_ & _ & Hc2 & _ & Ec2).
  assert (Forall (fun id => exists r, fs_rows s !! id = Some r /\ fs_cache s2 !! id = Some (load r) /\
    connects (load r) = true) ids) as Hall2.
  { eapply Forall_impl; [exact Hall|]. simpl. intros id (r & Hr' & Hok). exists r. by rewrite Ec2, lookup_fmap, Hr'. }
  destruct (start_conns_links s2 ids) as (l & s3 & E3 & Ec3 & El & L3 & _).
  { eapply Forall_impl; [exact Hall2|]. simpl. intros id (r & _ & -> & _). eauto. }
  destruct (finish_conns_links s3 l) as (s4 & E4 & P4).
  { rewrite El, Ec3. eapply Forall_impl; [exact Hall2|]. simpl. intros id (r & _ & Hr' & Hok). eauto. }
  destruct (start_conns_ran ids s2 s3) as [K3 C3]; [left; eauto|done|].
  destruct (finish_conns_ran l s3 s4) as [K4 C4]; [left; eauto|done|].
  exists s4. split.
  - unfold GetForeignServerConnection. rewrite (bind_Ret _ _ _ _ _ E1).
    rewrite (bind_Ret _ _ _ s1 s1) by done. by rewrite (bind_Ret _ _ _ _ _ E2), (bind_Ret _ _ _ _ _ E3), (bind_Ret _ _ _ _ _ E4).
  - apply Forall_forall. intros id Hid. rewrite Forall_forall in Hall2, L3.
    destruct (Hall2 id Hid) as (r & Hrow & Hc & _). destruct (P4 id (L3 id Hid)) as (fc & k & Hl & Hk & Hst).
    exists r, fc, k. destruct (C4 id fc Hl k Hk) as (r' & Hr' & Hh & Hp).
    assert (fs_cache s4 = fs_cache s2) as Ec4 by (destruct K3 as (_ & ? & _), K4 as (_ & ? & _); congruence).
    rewrite Ec4, Hc in Hr'. simplify_eq. by split_and!.
Qed.

End ForeignServerProofs.

(** ** Instances *)

Definition cut (t : string) (n : nat) : string := String.substring 0 (n - 1) t.
Definition key_order (c : gmap Z FormData_falcon_foreign_server) : list Z := (map_to_list c).*1.
Definition worker1 : FormData_falcon_foreign_server :=
  mkForeignServer "dn1"%string "10.0.0.1"%string 5432 false "falcon"%string.

(** The state a command leaves. *)
Definition after {A} (m : cmd fserver A) (s : fserver) : fserver :=
  match m s with Ret _ s' => s' | Raise _ s' => s' | OutOfFuel => s end.

(** A server that the backend is connected to moves to another host. *)
Definition fs1 : fserver := after (InsertForeignServer 1 worker1) fserver_init.
Definition fs2 : fserver := after (GetForeignServerConnection cut key_order (fun _ => true) false [1]) fs1.
Definition fs3 : fserver := after (UpdateForeignServer 1 "10.0.0.2"%string 5432) fs2.

Lemma fs3_reachable : fs_reachable cut key_order (fun _ => true) fs3.
Proof.
  apply (rtc_l _ _ fs1); [apply (fs_insert _ _ _ 1 worker1); left; exists tt; vm_compute; reflexivity|].
  apply (rtc_l _ _ fs2); [apply (fs_connect _ _ _ false [1]); [by vm_compute|left; exists [1]; vm_compute; reflexivity]|].
  apply (rtc_l _ _ fs3); [|apply rtc_refl].
  apply (fs_update _ _ _ 1 "10.0.0.2" 5432). left. exists tt. vm_compute. reflexivity.
Qed.

Lemma GetForeignServerConnectionInfo_current_witness :
  exists s', GetForeignServerConnectionInfo cut [1] fs3 = Ret [("10.0.0.2"%string, 5432)] s'.
Proof.
  destruct (GetForeignServerConnectionInfo_current cut key_order (fun _ => true) fs3 [1] fs3_reachable)
    as (s' & _ & E).
  - apply Nat.leb_le. vm_compute. reflexivity.
  - by vm_compute.
  - exists s'. exact E.
Defined.

Lemma GetForeignServerConnection_current_witness :
  exists s', GetForeignServerConnection cut key_order (fun _ => true) false [1] fs3 = Ret [1] s' /\
    (conn_host <$> (fs_conns fs3 !! 1 ≫= conn)) = Some "10.0.0.1"%string /\
    (conn_host <$> (fs_conns s' !! 1 ≫= conn)) = Some "10.0.0.2"%string.
Proof.
  destruct (GetForeignServerConnection_current cut key_order (fun _ => true) fs3 false [1] fs3_reachable)
    as (s' & E & Hall).
  - apply Nat.leb_le. vm_compute. reflexivity.
  - by vm_compute.
  - constructor; [|constructor]. eexists. split; [vm_compute|]; reflexivity.
  - exists s'. split_and!; [exact E|vm_compute; reflexivity|].
    apply Forall_inv in Hall as (r & fc & k & Hr & Hf & Hk & _ & Hh & _).
    rewrite Hf. simpl. rewrite Hk. simpl. rewrite Hh. vm_compute in Hr. injection Hr as <-. reflexivity.
Defined.

(** An error about one server after a connection to another was started leaves
    that connection behind; the next call takes it as established. *)
Lemma started_connection_left_behind :
  let s1 := after (GetForeignServerConnection cut key_order (fun _ => true) false [1; 9]) fs1 in
  let s2 := after (GetForeignServerConnection cut key_order (fun _ => true) false [1]) s1 in
  GetForeignServerConnection cut key_order (fun _ => true) false [1; 9] fs1 = Raise PROGRAM_ERROR s1 /\
  GetForeignServerConnection cut key_order (fun _ => true) false [1] s1 = Ret [1] s2 /\
  (status <$> (fs_conns s2 !! 1 ≫= conn)) = Some CONNECTION_STARTED.
Proof. vm_compute. auto. Qed.
