(* ===== verification/ShardTable.v ===== *)
(** * The shard table (falcon/metadb/shard_table.c)

    The hash values 0 .. INT32_MAX are cut into ranges, each kept by one
    worker.  The table has the last value of each range; a sorted copy of it is
    kept in shared memory and searched by bisection. *)

From S2P Require Import FalconPrelude Catalog Placement ForeignServer.

Definition SHARD_COUNT_MAX : Z := 100000000.
Definition SHARD_TABLE_RANGE_MIN : Z := 0.
Definition SHARD_TABLE_RANGE_MAX : Z := INT32_MAX.

(** FormData_falcon_shard_table: range_point and server_id. *)
Abbreviation shard_row := (Z * Z)%type (only parsing).

Record shard : Type := mkShard {
  sh_rows : gmap Z Z;
  sh_cache : list shard_row;
  sh_invalid : bool;
  sh_servers : fserver;
}.

Definition shard_init : shard := mkShard ∅ [] true fserver_init.

Section ShardTable.
Context (text_to_cstring_buffer : string -> nat -> string).
Context (hash_seq : gmap Z FormData_falcon_foreign_server -> list Z).

Definition set_shard_rows (t : gmap Z Z) : cmd shard unit :=
  modify (fun s => mkShard t (sh_cache s) (sh_invalid s) (sh_servers s)).
Definition set_shard_cache (c : list shard_row) (inv : bool) : cmd shard unit :=
  modify (fun s => mkShard (sh_rows s) c inv (sh_servers s)).
Definition on_servers {A} (m : cmd fserver A) : cmd shard A := fun s =>
  let back f := mkShard (sh_rows s) (sh_cache s) (sh_invalid s) f in
  match m (sh_servers s) with
  | Ret a f => Ret a (back f)
  | Raise e f => Raise e (back f)
  | OutOfFuel => OutOfFuel
  end.

Definition InvalidateShardTableShmemCache : cmd shard unit :=
  s ← get; set_shard_cache (sh_cache s) true.

Definition ReloadShardTableShmemCache : cmd shard unit :=
  s ← get;
  if negb (sh_invalid s) then mret tt
  else
    let rows := index_scan Z.le (sh_rows s) in
    if SHARD_COUNT_MAX <? Z.of_nat (length rows) then
      _ ← set_shard_cache (take (Z.to_nat SHARD_COUNT_MAX) rows) true; raise PROGRAM_ERROR
    else set_shard_cache rows false.

(** The loop that reloads while the flag is set: a reload clears the flag or
    raises. *)
Definition refresh_shards : cmd shard unit :=
  s ← get; if sh_invalid s then ReloadShardTableShmemCache else mret tt.

Definition falcon_reload_shard_table_cache : cmd shard unit :=
  _ ← InvalidateShardTableShmemCache; ReloadShardTableShmemCache.

(** ** Building and changing the table *)

Definition range_point (shardCount i : Z) : Z :=
  if i =? shardCount - 1 then SHARD_TABLE_RANGE_MAX
  else s32 (s64 ((SHARD_TABLE_RANGE_MAX - SHARD_TABLE_RANGE_MIN) * (i + 1)) / shardCount + SHARD_TABLE_RANGE_MIN).

Fixpoint build_rows (shardCount : Z) (serverIdList : list Z) (serverRound : nat) (idxs : list Z) : cmd shard unit :=
  fun s =>
  match idxs with
  | [] => Ret tt s
  | i :: idxs' =>
      match tuple_insert (range_point shardCount i) (nth serverRound serverIdList 0) (sh_rows s) with
      | Ret _ t =>
          (_ ← set_shard_rows t;
           build_rows shardCount serverIdList (S serverRound `mod` length serverIdList) idxs') s
      | Raise e _ => Raise e s
      | OutOfFuel => OutOfFuel
      end
  end.

Definition falcon_build_shard_table (shardCount : Z) : cmd shard unit :=
  _ ← raise_unless (negb ((shardCount <=? 0) || (SHARD_COUNT_MAX <? shardCount))) ARGUMENT_ERROR;
  serverIdList ← on_servers (GetAllForeignServerId text_to_cstring_buffer hash_seq false true);
  _ ← raise_unless (negb (length serverIdList =? 0)%nat) ARGUMENT_ERROR;
  _ ← build_rows shardCount serverIdList 0 (seqZ 0 shardCount);
  InvalidateShardTableShmemCache.

(** A row is inserted or gets another server. *)
Definition falcon_update_shard_table (rangePointArray serverIdArray : list Z) : cmd shard unit :=
  _ ← raise_unless (length rangePointArray =? length serverIdArray)%nat ARGUMENT_ERROR;
  s ← get;
  _ ← set_shard_rows (foldl (fun t p => <[s32 p.1 := s32 p.2]> t) (sh_rows s)
                        (zip rangePointArray serverIdArray));
  InvalidateShardTableShmemCache.

(** ** Searching *)

(** while (l < r); [None] when [n] rounds were not enough or an index is out
    of range. *)
Fixpoint bisect (n : nat) (cache : list shard_row) (hashValue l r : Z) : option Z :=
  if l <? r then
    match n with
    | O => None
    | S n' =>
        let mid := (l + r) / 2 in
        row ← cache !! Z.to_nat mid;
        if row.1 <? hashValue then bisect n' cache hashValue (mid + 1) r
        else bisect n' cache hashValue l mid
    end
  else Some l.

Definition search_cache (hashValue : Z) : cmd shard shard_row := fun s =>
  match bisect (S (length (sh_cache s))) (sh_cache s) hashValue 0 (Z.of_nat (length (sh_cache s))) with
  | None => OutOfFuel
  | Some l =>
      match sh_cache s !! Z.to_nat l with
      | None => Raise PROGRAM_ERROR s
      | Some row => Ret row s
      end
  end.

(** range_point, which numbers the shard, and server_id. *)
Definition SearchShardInfoByHashValue (hashValue : Z) : cmd shard shard_row :=
  _ ← refresh_shards; search_cache hashValue.

Definition SearchShardInfoByShardValue (hash_bytes_uint32 : Z -> Z) (shardColValue : Z) : cmd shard shard_row :=
  SearchShardInfoByHashValue (HashShard hash_bytes_uint32 shardColValue).

Definition GetShardTableData : cmd shard (list shard_row) := _ ← refresh_shards; gets sh_cache.
Definition GetShardTableSize : cmd shard Z :=
  _ ← refresh_shards; gets (fun s => Z.of_nat (length (sh_cache s))).

(** ** For the clients *)

Record ShardInfo : Type := mkShardInfo {
  rangeMin : Z; rangeMax : Z; si_host : string; si_port : Z; serverId : Z;
}.

(** The ranges that the rows stand for. *)
Fixpoint shard_ranges (rangeLow : Z) (rows : list shard_row) : list (Z * Z * Z) :=
  match rows with
  | [] => []
  | (rp, srv) :: rows' => (rangeLow, rp, srv) :: shard_ranges (s32 (rp + 1)) rows'
  end.

Definition falcon_renew_shard_table : cmd shard (list ShardInfo) :=
  _ ← refresh_shards;
  s ← get;
  let ranges := shard_ranges SHARD_TABLE_RANGE_MIN (sh_cache s) in
  infos ← on_servers (GetForeignServerConnectionInfo text_to_cstring_buffer (ranges.*2));
  mret (zip_with (fun (r : Z * Z * Z) (i : string * Z) => mkShardInfo r.1.1 r.1.2 i.1 i.2 r.2) ranges infos).

End ShardTable.

(** ** The reference: the first range that reaches the hash value *)

Definition shard_of (t : gmap Z Z) (hashValue : Z) : option shard_row := lower_bound t hashValue.

(** [l] splits the rows at the hash value. *)
Definition splits (rows : list shard_row) (h : Z) (x : nat) : Prop :=
  (forall i r, rows !! i = Some r -> (i < x)%nat -> r.1 < h) /\
  (forall i r, rows !! i = Some r -> (x <= i)%nat -> h <= r.1).

Lemma splits_first rows h x : splits rows h x -> first_reaching rows h = rows !! x.
Proof.
  intros [Hlo Hhi]. rewrite <- (take_drop x rows) at 1. rewrite first_reaching_app.
  - destruct (rows !! x) as [r|] eqn:E.
    + rewrite (drop_S _ _ _ E). apply first_reaching_here. by apply (Hhi x).
    + rewrite drop_ge by (by apply lookup_ge_None). done.
  - apply Forall_lookup. intros i r Hi. apply lookup_take_Some in Hi as [Hi Hlt]. by apply (Hlo i).
Qed.

Lemma sorted_lookup (rows : list shard_row) i j a b :
  StronglySorted (row_le (A := Z) Z.le) rows -> rows !! i = Some a -> rows !! j = Some b -> (i <= j)%nat -> a.1 <= b.1.
Proof.
  intros Hs. revert i j. induction Hs as [|r rows Hs IH Hall]; intros i j Hi Hj Hle; [done|].
  destruct i as [|i], j as [|j]; simpl in *; simplify_eq; [lia| |lia|].
  - apply list_elem_of_lookup_2 in Hj. by apply (proj1 (Forall_forall _ _) Hall).
  - apply (IH i j); auto with lia.
Qed.

Lemma bisect_spec (rows : list shard_row) h n l r :
  StronglySorted (row_le Z.le) rows -> 0 <= l <= r -> r <= Z.of_nat (length rows) -> r - l <= Z.of_nat n ->
  (forall i x, rows !! i = Some x -> Z.of_nat i < l -> x.1 < h) ->
  (forall i x, rows !! i = Some x -> r <= Z.of_nat i -> h <= x.1) ->
  exists x, bisect n rows h l r = Some x /\ 0 <= x /\ splits rows h (Z.to_nat x).
Proof.
  intros Hs. revert l r. induction n as [|n IH]; intros l r Hl Hr Hn Hlo Hhi; cbn [bisect];
    destruct (Z.ltb_spec l r) as [Hlt|Hge]; try lia.
  1, 3: exists l; split_and!; [done|lia|]; split; intros i x Hx Hi; [apply (Hlo i); auto; lia|apply (Hhi i); auto; lia].
  pose proof (Z.div_mod (l + r) 2 ltac:(lia)). pose proof (Z.mod_pos_bound (l + r) 2 ltac:(lia)).
  set (mid := (l + r) / 2) in *.
  destruct (lookup_lt_is_Some_2 rows (Z.to_nat mid)) as [row Hrow]; [lia|]. rewrite Hrow. simpl.
  destruct (Z.ltb_spec row.1 h) as [Hc|Hc].
  - apply IH; try lia; [|done]. intros i x Hx Hi.
    pose proof (sorted_lookup rows i (Z.to_nat mid) x row Hs Hx Hrow ltac:(lia)). lia.
  - apply IH; try lia; [done|]. intros i x Hx Hi.
    pose proof (sorted_lookup rows (Z.to_nat mid) i row x Hs Hrow Hx ltac:(lia)). lia.
Qed.

(** The copy is the table unless the flag is set. *)
Definition sh_inv (s : shard) : Prop :=
  sh_invalid s = false -> sh_cache s = index_scan Z.le (sh_rows s).

(** The state after a reload, if one is needed. *)
Definition refreshed (s : shard) : shard :=
  mkShard (sh_rows s) (index_scan Z.le (sh_rows s)) false (sh_servers s).

Lemma refresh_shards_spec s :
  sh_inv s -> Z.of_nat (size (sh_rows s)) <= SHARD_COUNT_MAX -> refresh_shards s = Ret tt (refreshed s).
Proof.
  intros Hinv Hs. unfold refresh_shards, ReloadShardTableShmemCache, mbind, cmd_bind, get. simpl.
  destruct (sh_invalid s) eqn:Ei.
  - rewrite Ei. simpl. rewrite index_scan_length.
    destruct (Z.ltb_spec SHARD_COUNT_MAX (Z.of_nat (size (sh_rows s)))); [lia|done].
  - unfold refreshed. rewrite <- (Hinv Ei), <- Ei. by destruct s.
Qed.

Lemma search_cache_spec s h :
  StronglySorted (row_le Z.le) (sh_cache s) ->
  search_cache h s = match first_reaching (sh_cache s) h with
                     | Some row => Ret row s
                     | None => Raise PROGRAM_ERROR s
                     end.
Proof.
  intros Hs. unfold search_cache.
  destruct (bisect_spec (sh_cache s) h (S (length (sh_cache s))) 0 (Z.of_nat (length (sh_cache s))) Hs)
    as (x & -> & Hx & Hsp); [lia|lia|lia|lia| |].
  - intros i r Hi. apply lookup_lt_Some in Hi. lia.
  - by rewrite (splits_first _ _ _ Hsp).
Qed.

Lemma Search_refreshed s h :
  sh_inv s -> Z.of_nat (size (sh_rows s)) <= SHARD_COUNT_MAX ->
  SearchShardInfoByHashValue h s = match shard_of (sh_rows s) h with
                                   | Some row => Ret row (refreshed s)
                                   | None => Raise PROGRAM_ERROR (refreshed s)
                                   end.
Proof.
  intros Hinv Hs. unfold SearchShardInfoByHashValue.
  rewrite (bind_Ret _ _ _ _ _ (refresh_shards_spec s Hinv Hs)).
  apply search_cache_spec. apply index_scan_sorted; apply _.
Qed.

(** C20: bisection finds the shard.  For a table of at most SHARD_COUNT_MAX rows,
    SearchShardInfoByHashValue returns, and answers the row with the smallest
    range point that reaches the hash value, whether or not the copy had to be
    reloaded; it raises PROGRAM_ERROR when the value is beyond all ranges. *)
Theorem SearchShardInfoByHashValue_correct s h :
  sh_inv s -> Z.of_nat (size (sh_rows s)) <= SHARD_COUNT_MAX ->
  (exists rp srv s', SearchShardInfoByHashValue h s = Ret (rp, srv) s' /\ sh_rows s' = sh_rows s /\ sh_inv s' /\
     sh_rows s !! rp = Some srv /\ h <= rp /\ forall rp', is_Some (sh_rows s !! rp') -> h <= rp' -> rp <= rp') \/
  (exists s', SearchShardInfoByHashValue h s = Raise PROGRAM_ERROR s' /\
     forall rp, is_Some (sh_rows s !! rp) -> rp < h).
Proof.
  intros Hinv Hs. rewrite (Search_refreshed s h Hinv Hs).
  destruct (shard_of (sh_rows s) h) as [[rp srv]|] eqn:E.
  - left. apply lower_bound_Some in E. exists rp, srv, (refreshed s). by split_and!; try apply E.
  - right. exists (refreshed s). split; [done|]. exact (proj1 (lower_bound_None _ _) E).
Qed.

(** ** A table that has just been built *)

Lemma range_point_value n i :
  0 <= i < n -> n <= SHARD_COUNT_MAX ->
  range_point n i = (if i =? n - 1 then INT32_MAX else INT32_MAX * (i + 1) / n).
Proof.
  intros Hi Hn. unfold range_point, SHARD_TABLE_RANGE_MAX, SHARD_TABLE_RANGE_MIN, SHARD_COUNT_MAX, INT32_MAX in *.
  destruct (Z.eqb_spec i (n - 1)); [done|]. rewrite Z.sub_0_r, Z.add_0_r, s64_small by lia.
  apply s32_small. split; [apply Z.div_pos; lia|]. apply Z.div_lt_upper_bound; lia.
Qed.

Lemma range_point_lt n i j :
  0 <= i < j -> j < n -> n <= SHARD_COUNT_MAX -> range_point n i < range_point n j.
Proof.
  intros Hi Hj Hn. rewrite !range_point_value by lia.
  unfold SHARD_COUNT_MAX, INT32_MAX in *. destruct (Z.eqb_spec i (n - 1)); [lia|].
  destruct (Z.eqb_spec j (n - 1)).
  - apply Z.div_lt_upper_bound; nia.
  - apply Z.lt_le_trans with ((2 ^ 31 - 1) * (i + 1) / n + 1); [lia|].
    apply Z.div_le_lower_bound; [lia|].
    pose proof (Z.mul_div_le ((2 ^ 31 - 1) * (i + 1)) n ltac:(lia)). nia.
Qed.

Lemma range_point_range n i :
  0 <= i < n -> n <= SHARD_COUNT_MAX -> 0 <= range_point n i <= INT32_MAX.
Proof.
  intros Hi Hn. rewrite range_point_value by done. unfold SHARD_COUNT_MAX, INT32_MAX in *.
  destruct (Z.eqb_spec i (n - 1)); [lia|]. split; [apply Z.div_pos; lia|].
  apply Z.lt_le_incl. apply Z.div_lt_upper_bound; nia.
Qed.

(** Rows for new range points are all inserted, with servers of the list. *)
Lemma build_rows_spec n ids round idxs s :
  ids <> [] -> (round < length ids)%nat ->
  NoDup (range_point n <$> idxs) -> Forall (fun i => sh_rows s !! range_point n i = None) idxs ->
  exists t, build_rows n ids round idxs s = Ret tt (mkShard t (sh_cache s) (sh_invalid s) (sh_servers s)) /\
    (forall k v, t !! k = Some v -> sh_rows s !! k = Some v \/ k ∈ range_point n <$> idxs /\ v ∈ ids) /\
    (forall k, is_Some (sh_rows s !! k) -> is_Some (t !! k)) /\
    (forall k, k ∈ range_point n <$> idxs -> is_Some (t !! k)) /\
    size t = (size (sh_rows s) + length idxs)%nat.
Proof.
  intros Hne. revert round s. induction idxs as [|i idxs IH]; intros round s Hround Hnd Hnone; cbn [build_rows].
  { exists (sh_rows s). split_and!; [by destruct s|auto|done|set_solver|simpl; lia]. }
  apply Forall_cons in Hnone as [Hi Hnone]. cbn in Hnd. apply NoDup_cons in Hnd as [Hnot Hnd].
  unfold tuple_insert. rewrite Hi. unfold mbind, cmd_bind. simpl. set (v0 := nth round ids 0).
  assert (v0 ∈ ids) as Hv0 by (apply list_elem_of_In, nth_In; done).
  set (s1 := mkShard _ _ _ _).
  destruct (IH (S round `mod` length ids)%nat s1) as (t & E & Hsub & Hkeep & Hnew & Hsize).
  { apply Nat.mod_upper_bound. lia. }
  { done. }
  { rewrite Forall_forall in Hnone |- *. intros j Hj. unfold s1. simpl.
    rewrite lookup_insert_ne; [by apply Hnone|]. intros Ei. apply Hnot. rewrite Ei. by apply list_elem_of_fmap_2. }
  rewrite E. exists t. split; [done|]. unfold s1 in *. simpl in *. split_and!.
  - intros k v Hk. apply Hsub in Hk as [Hk|[Hk Hv]]; [|right; split; [by right|done]].
    apply lookup_insert_Some in Hk as [[<- <-]|[_ Hk]]; [right; split; [by left|done]|by left].
  - intros k [v Hk]. apply Hkeep. destruct (decide (range_point n i = k)) as [<-|Hn'].
    + rewrite lookup_insert_eq. eauto.
    + rewrite lookup_insert_ne by done. eauto.
  - intros k Hk. apply elem_of_cons in Hk as [->|Hk]; [|by apply Hnew]. apply Hkeep. rewrite lookup_insert_eq. eauto.
  - rewrite Hsize, map_size_insert_None by done. lia.
Qed.

Section ShardTableProofs.
Context (text_to_cstring_buffer : string -> nat -> string).
Context (hash_seq : gmap Z FormData_falcon_foreign_server -> list Z).
Context (hash_bytes_uint32 : Z -> Z).

Lemma GetAllForeignServerId_no_cn exceptSelf f ids f' :
  GetAllForeignServerId text_to_cstring_buffer hash_seq exceptSelf true f = Ret ids f' ->
  FALCON_CN_SERVER_ID ∉ ids.
Proof.
  intros H Hin. unfold GetAllForeignServerId in H.
  apply bind_Ret_inv in H as ([] & f1 & _ & H). cmd_unfold H. simplify_eq.
  apply list_elem_of_filter in Hin as [Hw _]. unfold wanted in Hw.
  destruct (fs_cache f' !! _); [|done]. simpl in Hw. rewrite andb_false_r in Hw. done.
Qed.

Lemma build_rows_fresh n ids s :
  0 < n <= SHARD_COUNT_MAX -> ids <> [] -> sh_rows s = ∅ ->
  exists t, build_rows n ids 0 (seqZ 0 n) s = Ret tt (mkShard t (sh_cache s) (sh_invalid s) (sh_servers s)) /\
    size t = Z.to_nat n /\
    (forall k v, t !! k = Some v -> 0 <= k <= INT32_MAX /\ v ∈ ids) /\ is_Some (t !! INT32_MAX).
Proof.
  intros Hn Hne He.
  destruct (build_rows_spec n ids 0 (seqZ 0 n) s Hne) as (t & E & Hsub & _ & Hnew & Hsize).
  - destruct ids; [done|simpl; lia].
  - apply NoDup_fmap_2_strong; [|apply NoDup_seqZ]. intros i j Hi Hj Eij. apply elem_of_seqZ in Hi, Hj.
    destruct (Z.lt_trichotomy i j) as [Hlt|[?|Hlt]]; [|done|].
    + pose proof (range_point_lt n i j). lia.
    + pose proof (range_point_lt n j i). lia.
  - apply Forall_forall. intros i _. by rewrite He, lookup_empty.
  - exists t. split_and!; [done|rewrite Hsize, He, map_size_empty, length_seqZ; lia| |].
    + intros k v Hk. apply Hsub in Hk as [Hk|[Hk Hv]]; [by rewrite He, lookup_empty in Hk|].
      apply list_elem_of_fmap in Hk as (i & -> & Hi). apply elem_of_seqZ in Hi.
      split; [apply range_point_range; lia|done].
    + apply Hnew. apply list_elem_of_fmap. exists (n - 1). split; [|apply elem_of_seqZ; lia].
      rewrite range_point_value by lia. by rewrite Z.eqb_refl.
Qed.

(** Building covers every hash value.  With 1 to SHARD_COUNT_MAX shards and
    at least one worker, falcon_build_shard_table fills an empty table with
    that many rows, and then the shard of every entry is found, on one of the
    workers and never on the coordinator. *)
Theorem falcon_build_shard_table_covers n s ids f :
  0 < n <= SHARD_COUNT_MAX -> sh_rows s = ∅ -> ids <> [] ->
  GetAllForeignServerId text_to_cstring_buffer hash_seq false true (sh_servers s) = Ret ids f ->
  exists s', falcon_build_shard_table text_to_cstring_buffer hash_seq n s = Ret tt s' /\
    size (sh_rows s') = Z.to_nat n /\
    forall parentId_partId, exists rp srv s'',
      SearchShardInfoByShardValue hash_bytes_uint32 parentId_partId s' = Ret (rp, srv) s'' /\
      HashShard hash_bytes_uint32 parentId_partId <= rp <= INT32_MAX /\ srv ∈ ids /\ srv <> FALCON_CN_SERVER_ID.
Proof.
  intros Hn He Hne Hids. pose proof (GetAllForeignServerId_no_cn _ _ _ _ Hids) as Hcn.
  destruct (build_rows_fresh n ids (mkShard (sh_rows s) (sh_cache s) (sh_invalid s) f) Hn Hne He)
    as (t & E & Hsize & Hall & Hmax). simpl in E.
  exists (mkShard t (sh_cache s) true f). split; [|split; [done|]].
  - unfold falcon_build_shard_table. rewrite (bind_Ret _ _ _ tt s).
    2:{ unfold raise_unless. destruct (Z.leb_spec n 0), (Z.ltb_spec SHARD_COUNT_MAX n); simpl; [lia|lia|lia|done]. }
    rewrite (bind_Ret _ _ _ ids (mkShard (sh_rows s) (sh_cache s) (sh_invalid s) f)).
    2:{ unfold on_servers. by rewrite Hids. }
    rewrite (bind_Ret _ _ _ tt (mkShard (sh_rows s) (sh_cache s) (sh_invalid s) f)).
    2:{ unfold raise_unless. by destruct ids. }
    by rewrite (bind_Ret _ _ _ _ _ E).
  - intros v. unfold SearchShardInfoByShardValue. pose proof (HashShard_range hash_bytes_uint32 v) as Hr.
    set (h := HashShard hash_bytes_uint32 v) in *.
    rewrite Search_refreshed; simpl; [|done|lia].
    destruct (shard_of t h) as [[rp srv]|] eqn:Es.
    + apply lower_bound_Some in Es as (Ht & Hh & _). destruct (Hall rp srv Ht) as [Hrp Hsrv].
      exists rp, srv. eexists. split_and!; [done|done|lia|done|]. intros ->. done.
    + pose proof (proj1 (lower_bound_None _ _) Es INT32_MAX Hmax). lia.
Qed.
End ShardTableProofs.

(** ** Instances *)

Definition two_workers : shard :=
  mkShard ∅ [] true (after (_ ← InsertForeignServer 1 worker1; InsertForeignServer 2 worker1) fserver_init).
Definition built : shard :=
  match falcon_build_shard_table cut key_order 4 two_workers with Ret _ s => s | _ => shard_init end.

Lemma SearchShardInfoByHashValue_correct_witness :
  exists s', SearchShardInfoByHashValue 600000000 built = Ret (1073741823, 1) s' /\ sh_inv s'.
Proof.
  assert (SearchShardInfoByHashValue 600000000 built = Ret (1073741823, 1) (refreshed built)) as E0
    by (vm_compute; reflexivity).
  destruct (SearchShardInfoByHashValue_correct built 600000000) as [(rp & srv & s' & E & _ & Hi & _)|(s' & E & _)].
  - by vm_compute.
  - by vm_compute.
  - rewrite E0 in E. injection E as <- <- <-. exists (refreshed built). by split.
  - by rewrite E0 in E.
Defined.

Lemma falcon_build_shard_table_covers_witness :
  exists s', falcon_build_shard_table cut key_order 4 two_workers = Ret tt s' /\ size (sh_rows s') = 4%nat.
Proof.
  destruct (falcon_build_shard_table_covers cut key_order (fun k => k) 4 two_workers [2; 1]
    (after (refresh cut) (sh_servers two_workers))) as (s' & E & Hs & _).
  - by vm_compute.
  - reflexivity.
  - done.
  - vm_compute. reflexivity.
  - exists s'. split; [exact E|exact Hs].
Defined.
