(* ===== verification/Router.v ===== *)
(** * The client's router (falcon_client/src/router.cpp)

    The client keeps a copy of the shard table and one connection for each
    worker, and sends a request to the worker that has the shard of the last
    name of the path.  Numbers travel as decimal text.  Time-outs and the
    retries after a worker has moved are driven by the cluster manager and are
    not part of this file. *)

From Stdlib Require Import Ascii.
From S2P Require Import FalconPrelude Catalog Placement ForeignServer ShardTable.

Record ServerIdentifier : Type := mkServer { ip : string; sport : Z; id : Z }.

#[export] Instance ServerIdentifier_eq_dec : EqDecision ServerIdentifier.
Proof. solve_decision. Defined.
#[export] Instance ServerIdentifier_countable : Countable ServerIdentifier.
Proof.
  apply (inj_countable' (fun s => (ip s, sport s, id s)) (fun p => mkServer p.1.1 p.1.2 p.2)). by intros [].
Defined.

(** A connection, with a number that tells it from others to the same server. *)
Record Connection : Type := mkConnection { c_no : nat; server : ServerIdentifier }.

Record Router : Type := mkRouter {
  shardTable : gmap Z ServerIdentifier;
  routeMap : gmap ServerIdentifier Connection;
  made : nat;
}.

Definition router_init : Router := mkRouter ∅ ∅ 0.

(** What a call gives: a value, or the text of a runtime_error. *)
Abbreviation result A := (A + string)%type (only parsing).

(** std::map::emplace and try_emplace keep what is there. *)
Definition emplace {K A} `{Countable K} (k : K) (v : A) (m : gmap K A) : gmap K A :=
  match m !! k with Some _ => m | None => <[k := v]> m end.

Definition server_of (i : ShardInfo) : ServerIdentifier :=
  mkServer (si_host i) (s32 (si_port i + 10)) (serverId i).

(** The body of the loop over the rows, when the ranges fit. *)
Definition fetch_row (tmpRouteMap : gmap ServerIdentifier Connection) (lastShardMaxValue : Z) (i : ShardInfo)
    (r : Router) : Router :=
  let t := if (lastShardMaxValue =? INT32_MIN) && negb (rangeMin i =? INT32_MIN)
           then emplace (s32 (rangeMin i - 1)) (mkServer EmptyString 0 (-1)) (shardTable r)
           else shardTable r in
  let c := default (mkConnection (made r) (server_of i)) (tmpRouteMap !! server_of i) in
  mkRouter (emplace (rangeMax i) (server_of i) t) (emplace (server_of i) c (routeMap r))
    (match tmpRouteMap !! server_of i with Some _ => made r | None => S (made r) end).

Fixpoint fetch_rows (tmpRouteMap : gmap ServerIdentifier Connection) (lastShardMaxValue : Z)
    (rows : list ShardInfo) (r : Router) : Router * result Z :=
  match rows with
  | [] => (r, inl lastShardMaxValue)
  | i :: rows' =>
      if negb (lastShardMaxValue =? INT32_MIN) && negb (s32 (lastShardMaxValue + 1) =? rangeMin i)
      then (r, inr "shard table is corrupt"%string)
      else fetch_rows tmpRouteMap (rangeMax i) rows' (fetch_row tmpRouteMap lastShardMaxValue i r)
  end.

(** [response] is the answer to falcon_renew_shard_table, [None] when the
    coordinator cannot be reached. *)
Definition FetchShardTable (response : option (list ShardInfo)) (r : Router) : Router * result FalconErrorCode :=
  match response with
  | None => (r, inl SERVER_FAULT)
  | Some rows =>
      match fetch_rows (routeMap r) INT32_MIN rows (mkRouter ∅ ∅ (made r)) with
      | (r', inr e) => (r', inr e)
      | (r', inl lastShardMaxValue) =>
          if negb (lastShardMaxValue =? INT32_MAX) then (r', inr "shard table is corrupt"%string)
          else (r', inl SUCCESS)
      end
  end.

(** The position of the last separator. *)
Fixpoint find_last_slash (cs : list ascii) : option nat :=
  match cs with
  | [] => None
  | c :: cs' =>
      match find_last_slash cs' with
      | Some n => Some (S n)
      | None => if bool_decide (c = "/"%char) then Some O else None
      end
  end.

(** [path] is the characters of the path up to its NUL; filename.data() is the
    C string that starts at the name. *)
Definition routed_name (path : list ascii) : list ascii :=
  let view := if (1 <? length path)%nat && bool_decide (last path = Some "/"%char)
              then removelast path else path in
  match find_last_slash view with
  | None => path
  | Some last_slash =>
      let dir := take (if (last_slash =? 0)%nat then 0 else last_slash - 1) view in
      let filename := drop (S last_slash) view in
      if bool_decide (filename = []) && bool_decide (dir = []) then ["/"%char] else drop (S last_slash) path
  end.

Definition GetWorkerConnByPath (sg : bool) (path : list ascii) (r : Router) : result (option Connection) :=
  match path with
  | [] => inl None
  | c :: _ =>
      if negb (bool_decide (c = "/"%char)) then inl None
      else
        let partId := client_HashPartId sg (String.string_of_list_ascii (routed_name path)) in
        match lower_bound (shardTable r) (s32 (HashInt8 partId)) with
        | None => inr "shard table is corrupt. cannot find target."%string
        | Some (_, s) =>
            match routeMap r !! s with
            | Some conn => inl (Some conn)
            | None => inr "no such server."%string
            end
        end
  end.

(** ** Ranges that fit *)

(** The ranges follow each other from [low] on. *)
Fixpoint contiguous (low : Z) (rows : list ShardInfo) : Prop :=
  match rows with
  | [] => True
  | i :: rows' => rangeMin i = low /\ low <= rangeMax i <= INT32_MAX /\ contiguous (rangeMax i + 1) rows'
  end.

Definition last_max (d : Z) (rows : list ShardInfo) : Z := default d (rangeMax <$> last rows).

Lemma contiguous_bounds low rows i :
  contiguous low rows -> i ∈ rows -> low <= rangeMax i <= INT32_MAX.
Proof.
  revert low. induction rows as [|j rows IH]; intros low H Hi; [set_solver|].
  destruct H as (Hm & Hl & H). apply elem_of_cons in Hi as [->|Hi]; [done|].
  specialize (IH _ H Hi). lia.
Qed.

Lemma emplace_lookup {K A} `{Countable K} (k k' : K) (v : A) m :
  emplace k v m !! k' = if decide (k = k') then Some (default v (m !! k)) else m !! k'.
Proof.
  unfold emplace. case_decide as E.
  - subst. destruct (m !! k') eqn:E; [done|]. by rewrite lookup_insert_eq.
  - destruct (m !! k); [done|]. by rewrite lookup_insert_ne.
Qed.

Lemma emplace_is_Some {K A} `{Countable K} (k k' : K) (v : A) m :
  is_Some (m !! k') -> is_Some (emplace k v m !! k').
Proof. intros Hm. rewrite emplace_lookup. case_decide; eauto. Qed.

(** Connections lead to the server they are kept for. *)
Definition routes_ok (m : gmap ServerIdentifier Connection) : Prop :=
  map_Forall (fun s c => server c = s) m.

Lemma fetch_row_routes tmp last i r :
  routes_ok tmp -> routes_ok (routeMap r) -> routes_ok (routeMap (fetch_row tmp last i r)).
Proof.
  intros Ht Hr s c Hc. cbn in Hc. rewrite emplace_lookup in Hc. case_decide as E; [|by apply Hr].
  subst s. destruct (routeMap r !! server_of i) eqn:Er; simplify_eq/=; [by apply Hr|].
  destruct (tmp !! server_of i) eqn:Et; [by apply Ht|done].
Qed.

(** The keys that a row adds. *)
Lemma fetch_row_table tmp last i r k :
  is_Some (shardTable (fetch_row tmp last i r) !! k) ->
  is_Some (shardTable r !! k) \/ k = rangeMax i \/ last = INT32_MIN /\ k = s32 (rangeMin i - 1).
Proof.
  cbn. rewrite emplace_lookup. case_decide as E; [auto|].
  destruct (Z.eqb_spec last INT32_MIN); simpl; [|auto]. destruct (negb _); [|auto].
  rewrite emplace_lookup. case_decide; auto.
Qed.

Lemma fetch_rows_spec tmp last low rows r :
  contiguous low rows -> 0 <= low -> low <= INT32_MAX + 1 -> (last = INT32_MIN \/ last = low - 1) ->
  (forall k, is_Some (shardTable r !! k) -> k < low) -> routes_ok tmp -> routes_ok (routeMap r) ->
  exists r', fetch_rows tmp last rows r = (r', inl (last_max last rows)) /\ routes_ok (routeMap r') /\
    (forall k s, shardTable r !! k = Some s -> shardTable r' !! k = Some s) /\
    (forall k, is_Some (shardTable r' !! k) ->
       is_Some (shardTable r !! k) \/ last = INT32_MIN /\ k = low - 1 \/ exists i, i ∈ rows /\ k = rangeMax i) /\
    (forall i, i ∈ rows -> shardTable r' !! rangeMax i = Some (server_of i)) /\
    (forall s, is_Some (routeMap r !! s) -> is_Some (routeMap r' !! s)) /\
    (forall i, i ∈ rows -> is_Some (routeMap r' !! server_of i)).
Proof.
  revert last low r. induction rows as [|i rows IH]; intros last low r Hc H0 Hlow Hlast Hkeys Htmp Hr.
  { exists r. split_and!; auto; set_solver. }
  destruct Hc as (Hm & Hl & Hc). cbn [fetch_rows].
  assert (negb (last =? INT32_MIN) && negb (s32 (last + 1) =? rangeMin i) = false) as ->.
  { destruct (Z.eqb_spec last INT32_MIN); [done|]. destruct Hlast as [?|Hlast]; [done|]. subst last. simpl.
    rewrite s32_small by (unfold INT32_MAX in *; lia). apply negb_false_iff, Z.eqb_eq. lia. }
  set (r1 := fetch_row tmp last i r).
  assert (s32 (rangeMin i - 1) = low - 1) as Es.
  { rewrite Hm. unfold INT32_MAX in *. destruct (Z.eq_dec low 0) as [->|]; [done|]. apply s32_small. lia. }
  assert (shardTable r1 !! rangeMax i = Some (server_of i)) as Hnew.
  { unfold r1. cbn. rewrite emplace_lookup, decide_True by done. rewrite Es.
    assert (shardTable r !! rangeMax i = None) as Hnone.
    { destruct (shardTable r !! rangeMax i) eqn:E; [|done]. specialize (Hkeys _ (ex_intro _ _ E)). lia. }
    destruct (_ && _); [|by rewrite Hnone]. rewrite emplace_lookup, decide_False by lia. by rewrite Hnone. }
  assert (forall k s, shardTable r !! k = Some s -> shardTable r1 !! k = Some s) as Hold.
  { intros k s Hk. specialize (Hkeys _ (ex_intro _ _ Hk)) as Hlt. unfold r1. cbn. rewrite emplace_lookup, decide_False by lia.
    destruct (_ && _); [|done]. rewrite emplace_lookup. case_decide as E; [|done]. by rewrite E, Hk. }
  destruct (IH (rangeMax i) (rangeMax i + 1) r1) as (r' & E & Hro & Hsub & Hk' & Hin & Hrt & Hrin); try done; try lia.
  { intros k Hk. apply fetch_row_table in Hk as [Hk|[->|[_ ->]]]; [specialize (Hkeys _ Hk)| |rewrite Es]; lia. }
  { by apply fetch_row_routes. }
  exists r'. split_and!; [|done|auto| | | |].
  - rewrite E. f_equal. f_equal. unfold last_max. rewrite last_cons.
    by match goal with |- context [match ?x with Some _ => _ | None => _ end] => destruct x end.
  - intros k Hk. apply Hk' in Hk as [Hk|[[Hmin _]|(j & Hj & ->)]]; [|unfold INT32_MIN in Hmin; lia|].
    + apply fetch_row_table in Hk as [Hk|[->|[-> ->]]]; [by left|right; right; exists i; split; [by left|done]|].
      right. left. by rewrite Es.
    + right. right. exists j. split; [by right|done].
  - intros j Hj. apply elem_of_cons in Hj as [->|Hj]; [|by apply Hin]. by apply Hsub.
  - intros s Hs. apply Hrt. unfold r1. cbn. by apply emplace_is_Some.
  - intros j Hj. apply elem_of_cons in Hj as [->|Hj]; [|by apply Hrin]. apply Hrt. unfold r1. cbn.
    rewrite emplace_lookup, decide_True by done. eauto.
Qed.

Lemma contiguous_last d low rows i :
  contiguous low rows -> i ∈ rows -> rangeMax i = INT32_MAX -> last_max d rows = INT32_MAX.
Proof.
  revert d low. induction rows as [|j rows IH]; intros d low H Hi Hm; [set_solver|].
  destruct H as (_ & _ & H). unfold last_max in *. rewrite last_cons.
  destruct rows as [|k rows].
  { apply list_elem_of_singleton in Hi as ->. done. }
  apply elem_of_cons in Hi as [->|Hi].
  { destruct H as (_ & Hk & _). lia. }
  specialize (IH (rangeMax j) _ H Hi Hm). by destruct (last (k :: rows)).
Qed.

(** ** What the server answers *)

Definition range_of (i : ShardInfo) : Z * Z * Z := (rangeMin i, rangeMax i, serverId i).

Lemma ranges_contiguous low rows infos :
  StronglySorted (fun x y : Z * Z => x.1 < y.1) rows -> Forall (fun r => low <= r.1 <= INT32_MAX) rows ->
  0 <= low -> range_of <$> infos = shard_ranges low rows -> contiguous low infos.
Proof.
  intros Hs. revert low infos. induction Hs as [|[rp srv] rows Hs IH Hall]; intros low infos Hb H0 E.
  { by destruct infos. }
  destruct infos as [|i infos]; [done|]. cbn in E. injection E as Emin Emax Esrv E.
  apply Forall_cons in Hb as [Hrp Hb]. cbn in Hrp. cbn. rewrite Emax. split_and!; [done|lia|lia|].
  destruct rows as [|[rp' srv'] rows]; [by destruct infos|].
  assert (rp < rp') as Hlt by (by apply Forall_inv in Hall).
  assert (rp' <= INT32_MAX) as Hmax by (apply Forall_inv in Hb; simpl in Hb; lia).
  rewrite s32_small in E by (unfold INT32_MAX in *; lia).
  apply IH; [|lia|done]. rewrite Forall_forall in Hall, Hb |- *. intros r Hr.
  specialize (Hall r Hr). specialize (Hb r Hr). cbn in Hall. lia.
Qed.

Lemma shard_ranges_rows low rows : (fun r : Z * Z * Z => (r.1.2, r.2)) <$> shard_ranges low rows = rows.
Proof. revert low. induction rows as [|[rp srv] rows IH]; intros low; [done|]. cbn. by rewrite IH. Qed.

Section Agreement.
Context (text_to_cstring_buffer : string -> nat -> string).

Lemma ConnectionInfo_length ids f l f' :
  GetForeignServerConnectionInfo text_to_cstring_buffer ids f = Ret l f' -> length l = length ids.
Proof.
  intros H. apply bind_Ret_inv in H as ([] & f1 & _ & H). rewrite connection_infos_spec in H.
  destruct (mapM _ ids) as [rs|] eqn:E; simplify_eq. apply length_mapM in E. by rewrite length_fmap.
Qed.

(** The rows in the answer are the rows of the table, with ranges that fit. *)
Lemma renew_spec s infos s1 :
  sh_inv s -> Z.of_nat (size (sh_rows s)) <= SHARD_COUNT_MAX ->
  falcon_renew_shard_table text_to_cstring_buffer s = Ret infos s1 ->
  sh_rows s1 = sh_rows s /\ sh_inv s1 /\
  range_of <$> infos = shard_ranges SHARD_TABLE_RANGE_MIN (index_scan Z.le (sh_rows s)).
Proof.
  intros Hinv Hs H. unfold falcon_renew_shard_table in H.
  rewrite (bind_Ret _ _ _ _ _ (refresh_shards_spec s Hinv Hs)) in H.
  apply bind_Ret_inv in H as (s0 & s00 & E0 & H). cmd_unfold E0. simplify_eq.
  apply bind_Ret_inv in H as (l & s2 & E2 & H). cmd_unfold H. simplify_eq.
  unfold on_servers in E2. destruct (GetForeignServerConnectionInfo _ _ _) as [l' f|e f|] eqn:Ei; simplify_eq.
  cbn in *. split_and!; [done|done|]. apply ConnectionInfo_length in Ei. rewrite length_fmap in Ei.
  apply fmap_zip_with_l; [by intros [[] ?] []|lia].
Qed.

Lemma renew_rows s infos s1 k v :
  sh_inv s -> Z.of_nat (size (sh_rows s)) <= SHARD_COUNT_MAX ->
  falcon_renew_shard_table text_to_cstring_buffer s = Ret infos s1 ->
  sh_rows s !! k = Some v <-> exists i, i ∈ infos /\ rangeMax i = k /\ serverId i = v.
Proof.
  intros Hinv Hs H. apply renew_spec in H as (_ & _ & E); [|done|done].
  assert ((fun i => (rangeMax i, serverId i)) <$> infos = index_scan Z.le (sh_rows s)) as El.
  { rewrite <- (shard_ranges_rows SHARD_TABLE_RANGE_MIN), <- E, <- list_fmap_compose. done. }
  rewrite <- (index_scan_elem Z.le), <- El, list_elem_of_fmap. split.
  - intros (i & [= -> ->] & Hi). eauto.
  - intros (i & Hi & <- & <-). eauto.
Qed.

(** The routed name of a path without a trailing separator is its last name. *)
Lemma find_last_slash_app dir name :
  "/"%char ∉ name -> find_last_slash (dir ++ "/"%char :: name) = Some (length dir).
Proof.
  intros Hn. assert (find_last_slash name = None) as Hnone.
  { induction name as [|c name IH]; [done|]. cbn. rewrite IH by set_solver.
    rewrite bool_decide_eq_false_2 by set_solver. done. }
  induction dir as [|c dir IH]; cbn.
  - rewrite Hnone. done.
  - by rewrite IH.
Qed.

Lemma routed_name_last dir name :
  name <> [] -> "/"%char ∉ name -> routed_name (dir ++ "/"%char :: name) = name.
Proof.
  intros Hne Hn. unfold routed_name.
  assert (last (dir ++ "/"%char :: name) <> Some "/"%char) as Hlast.
  { destruct (exists_last Hne) as (n' & c & ->). rewrite app_comm_cons, app_assoc, last_snoc.
    intros [= ->]. apply Hn. set_solver. }
  rewrite (bool_decide_eq_false_2 (last _ = _)) by done. rewrite andb_false_r.
  rewrite find_last_slash_app by done. rewrite <- Nat.add_1_r, drop_app_add. cbn.
  by rewrite (bool_decide_eq_false_2 (name = [])).
Qed.

(** A table that covers the hash values. *)
Definition covering (t : gmap Z Z) : Prop :=
  map_Forall (fun rp _ => 0 <= rp <= INT32_MAX) t /\ is_Some (t !! INT32_MAX).

(** Fetching the answer of the server succeeds and gives its table. *)
Lemma FetchShardTable_spec s infos s1 r :
  sh_inv s -> Z.of_nat (size (sh_rows s)) <= SHARD_COUNT_MAX -> covering (sh_rows s) ->
  falcon_renew_shard_table text_to_cstring_buffer s = Ret infos s1 -> routes_ok (routeMap r) ->
  exists r', FetchShardTable (Some infos) r = (r', inl SUCCESS) /\ routes_ok (routeMap r') /\
    forall h, 0 <= h <= INT32_MAX -> exists rp srv sv conn,
      lower_bound (sh_rows s) h = Some (rp, srv) /\ lower_bound (shardTable r') h = Some (rp, sv) /\
      id sv = srv /\ routeMap r' !! sv = Some conn.
Proof.
  intros Hinv Hs [Hall [vmax Hmax]] Hren Hr.
  destruct (renew_spec s infos s1 Hinv Hs Hren) as (_ & _ & Eranges).
  pose proof (fun k v => renew_rows s infos s1 k v Hinv Hs Hren) as Hrows.
  assert (contiguous 0 infos) as Hc.
  { eapply ranges_contiguous; [apply (index_scan_strict (sh_rows s))| |lia|exact Eranges].
    apply Forall_forall. intros [rp srv] Hin. apply index_scan_elem in Hin. exact (Hall _ _ Hin). }
  destruct (fetch_rows_spec (routeMap r) INT32_MIN 0 infos (mkRouter ∅ ∅ (made r)) Hc)
    as (r' & E & Hro & _ & Hkeys & Hin & _ & Hrt); [lia|done|by left| |done|apply map_Forall_empty|].
  { intros k [v Hk]. cbn in Hk. by rewrite lookup_empty in Hk. }
  destruct (proj1 (Hrows INT32_MAX vmax) Hmax) as (im & Him & Em & _).
  exists r'. split_and!; [|done|].
  - unfold FetchShardTable. rewrite E, (contiguous_last _ 0 infos im) by done. by rewrite Z.eqb_refl.
  - intros h Hh. destruct (lower_bound (sh_rows s) h) as [[rp srv]|] eqn:El.
    2:{ pose proof (proj1 (lower_bound_None _ _) El INT32_MAX (ex_intro _ _ Hmax)). lia. }
    apply lower_bound_Some in El as (Hrp & Hle & Hmin).
    destruct (proj1 (Hrows rp srv) Hrp) as (i & Hi & Ei & Esrv).
    destruct (Hrt i Hi) as [conn Hconn]. exists rp, srv, (server_of i), conn. split_and!; [done| |done|done].
    apply lower_bound_Some. split_and!; [by rewrite <- Ei; apply Hin|done|].
    intros k' Hk' Hhk'. apply Hkeys in Hk' as [[v Hk']|[[_ ->]|(j & Hj & ->)]].
    + cbn in Hk'. by rewrite lookup_empty in Hk'.
    + lia.
    + apply Hmin; [|done]. exists (serverId j). apply Hrows. eauto.
Qed.

(** C13: client and server agree where an entry lives.  After the client has
    fetched a covering shard table, the worker it sends a request for
    dir/name to is the one the server finds for that name, whatever the inode
    number of the directory, provided hash_bytes_uint32 is the Jenkins mix that
    PostgreSQL documents and char has the same signedness on both sides. *)
Theorem routing_agrees (hash_bytes_uint32 : Z -> Z) sg dir name s infos s1 r :
  (forall k, hash_bytes_uint32 k = HashBytesUint32 k) ->
  sh_inv s -> Z.of_nat (size (sh_rows s)) <= SHARD_COUNT_MAX -> covering (sh_rows s) ->
  falcon_renew_shard_table text_to_cstring_buffer s = Ret infos s1 -> routes_ok (routeMap r) ->
  (dir = [] \/ head dir = Some "/"%char) -> name <> [] -> "/"%char ∉ name ->
  exists r' conn, FetchShardTable (Some infos) r = (r', inl SUCCESS) /\
    GetWorkerConnByPath sg (dir ++ "/"%char :: name) r' = inl (Some conn) /\
    forall parentId, exists rp s2,
      SearchShardInfoByShardValue hash_bytes_uint32
        (CombineParentIdWithPartId parentId (HashPartId sg (String.string_of_list_ascii name))) s1
      = Ret (rp, id (server conn)) s2.
Proof.
  intros Hhash Hinv Hs Hcov Hren Hr Hdir Hne Hn.
  destruct (renew_spec s infos s1 Hinv Hs Hren) as (Erows & Hinv1 & _).
  destruct (FetchShardTable_spec s infos s1 r Hinv Hs Hcov Hren Hr) as (r' & Ef & Hro & Hlook).
  set (nm := String.string_of_list_ascii name). set (q := HashPartId sg nm).
  pose proof (HashPartId_range sg nm) as Hq. fold q in Hq.
  assert (forall p, HashShard hash_bytes_uint32 (CombineParentIdWithPartId p q) = HashInt8 q) as Hsame.
  { intros p. by apply HashShard_HashInt8. }
  pose proof (HashShard_range hash_bytes_uint32 (CombineParentIdWithPartId 0 q)) as Hrange.
  rewrite Hsame in Hrange. destruct (Hlook _ Hrange) as (rp & srv & sv & conn & El1 & El2 & Eid & Econn).
  exists r', conn. split_and!; [done| |].
  - unfold GetWorkerConnByPath. rewrite routed_name_last by done. rewrite client_HashPartId_eq. fold nm q.
    rewrite s32_small by (unfold INT32_MAX in Hrange; lia). rewrite El2, Econn.
    destruct Hdir as [->|Hd]; [done|]. destruct dir as [|c dir]; [done|]. cbn in Hd. injection Hd as ->. done.
  - intros p. exists rp, (refreshed s1). unfold SearchShardInfoByShardValue. rewrite Hsame.
    rewrite Search_refreshed by (rewrite ?Erows; done). unfold shard_of. rewrite Erows, El1.
    specialize (Hro _ _ Econn). cbn in Hro. by rewrite Hro, Eid.
Qed.

End Agreement.

(** ** Instances *)

Definition answer : list ShardInfo :=
  match falcon_renew_shard_table cut built with Ret l _ => l | _ => [] end.
Definition fetched : Router := (FetchShardTable (Some answer) router_init).1.

Lemma routing_agrees_witness :
  exists conn, GetWorkerConnByPath true (String.list_ascii_of_string "/d/b") fetched = inl (Some conn) /\
    exists rp s2, SearchShardInfoByShardValue HashBytesUint32
      (CombineParentIdWithPartId 77 (HashPartId true "b")) built = Ret (rp, id (server conn)) s2.
Proof.
  destruct (routing_agrees cut HashBytesUint32 true ["/"; "d"]%char ["b"]%char built answer
    (refreshed (mkShard (sh_rows built) [] true (after (refresh cut) (sh_servers built)))) router_init)
    as (r' & conn & Ef & Eg & Hs).
  - done.
  - by vm_compute.
  - by vm_compute.
  - split; [|vm_compute; eauto]. apply (bool_decide_unpack _). vm_compute. done.
  - vm_compute. reflexivity.
  - apply map_Forall_empty.
  - by right.
  - done.
  - apply (bool_decide_unpack _). vm_compute. done.
  - exists conn. assert (r' = fetched) as -> by (unfold fetched; by rewrite Ef).
    split; [exact Eg|]. destruct (Hs 77) as (rp & s2 & E). exists rp. vm_compute in E |- *. eauto.
Defined.

(** A trailing separator changes the worker.  GetWorkerConnByPath takes the
    separator off its view of the path but hashes the C string behind it, so
    /d/b/ is sent to another worker than /d/b. *)
Theorem GetWorkerConnByPath_trailing_separator :
  exists c1 c2, GetWorkerConnByPath true (String.list_ascii_of_string "/d/b") fetched = inl (Some c1) /\
    GetWorkerConnByPath true (String.list_ascii_of_string "/d/b/") fetched = inl (Some c2) /\
    id (server c1) <> id (server c2).
Proof. eexists _, _. split_and!; [vm_compute; reflexivity|vm_compute; reflexivity|vm_compute; done]. Qed.
