(* ===== verification/InodeTable.v ===== *)
(** * The inode tables (falcon/metadb/meta_handle_helper.c, inode_table.c)

    Each shard has a table with one row for each entry of the directories whose
    names fall into the shard, under a unique index on parentid_partid and
    name.  The tables of a server are a map from shard numbers to rows. *)

From S2P Require Import FalconPrelude Catalog.

(** FormData_dfs_inode_table without its key. *)
Record inode_row : Type := mkRow {
  st_ino : Z;
  st_dev : Z;
  st_mode : Z;
  st_nlink : Z;
  st_uid : Z;
  st_gid : Z;
  st_rdev : Z;
  st_size : Z;
  st_blksize : Z;
  st_blocks : Z;
  st_atim : Z;
  st_mtim : Z;
  st_ctim : Z;
  etag : string;
  update_version : Z;
  primary_nodeid : Z;
  backup_nodeid : Z;
}.

#[export] Instance inode_row_eq_dec : EqDecision inode_row.
Proof. solve_decision. Defined.

(** parentid_partid and name. *)
Abbreviation inode_key := (Z * string)%type (only parsing).
Abbreviation inode_table := (gmap (Z * string) inode_row) (only parsing).
Abbreviation inode_shards := (gmap Z (gmap (Z * string) inode_row)) (only parsing).

Definition S_IFMT : Z := 0xF000.
Definition S_IFREG : Z := 0x8000.
Definition S_IFDIR : Z := 0x4000.
Definition S_ISREG (mode : Z) : bool := Z.land mode S_IFMT =? S_IFREG.
Definition S_ISDIR (mode : Z) : bool := Z.land mode S_IFMT =? S_IFDIR.

Inductive ModeCheckType : Type := MODE_CHECK_NONE | MODE_CHECK_MUST_BE_FILE | MODE_CHECK_MUST_BE_DIRECTORY.

(** The arguments of SearchAndUpdateInodeTableInfo: doUpdate, and the pointers
    that are not NULL.  [wantVersion], [nlinkChange] and [wantMode] say whether
    updateVersion, nlink and mode are given; what is only read needs no
    argument, the row being returned. *)
Record update_args : Type := mkArgs {
  doUpdate : bool;
  newSize : option Z;
  wantVersion : bool;
  nlinkChange : option Z;
  wantMode : option ModeCheckType;
  newExecMode : option Z;
  newUid : option Z;
  newGid : option Z;
  newEtag : option string;
  newAtime : option Z;
  newMtime : option Z;
  newPrimaryNodeId : option Z;
}.

Definition read_args : update_args := mkArgs false None false None None None None None None None None None.

(** The row with the values to be stored.  A null pointer keeps the value. *)
Definition modify_row (a : update_args) (r : inode_row) : inode_row :=
  mkRow (st_ino r) (st_dev r)
    (match newExecMode a with
     | Some m => Z.lor (Z.land (st_mode r) (Z.lxor 0xFFFFFFFF 0x1FF)) m
     | None => st_mode r
     end)
    (match nlinkChange a with
     | Some d => if u64 (st_nlink r + d) =? 0 then st_nlink r else u64 (st_nlink r + d)
     | None => st_nlink r
     end)
    (default (st_uid r) (newUid a)) (default (st_gid r) (newGid a)) (st_rdev r)
    (default (st_size r) (newSize a)) (st_blksize r) (st_blocks r)
    (default (st_atim r) (newAtime a)) (default (st_mtim r) (newMtime a)) (st_ctim r)
    (default (etag r) (newEtag a))
    (if wantVersion a then u64 (update_version r + 1) else update_version r)
    (default (primary_nodeid r) (newPrimaryNodeId a)) (backup_nodeid r).

(** The reference count drops to zero and the row is removed. *)
Definition removes (a : update_args) (r : inode_row) : bool :=
  doUpdate a && match nlinkChange a with Some d => u64 (st_nlink r + d) =? 0 | None => false end.

(** needCatalogTupleUpdate at the end. *)
Definition needs_update (a : update_args) (r : inode_row) : bool :=
  bool_decide (is_Some (newSize a)) || wantVersion a ||
  match nlinkChange a with Some d => negb (u64 (st_nlink r + d) =? 0) | None => false end ||
  bool_decide (is_Some (newUid a)) || bool_decide (is_Some (newGid a)) ||
  bool_decide (is_Some (newExecMode a)) || bool_decide (is_Some (newEtag a)) ||
  bool_decide (is_Some (newAtime a)) || bool_decide (is_Some (newMtime a)) ||
  bool_decide (is_Some (newPrimaryNodeId a)).

(** The entry is not of the type asked for. *)
Definition wrong_type (a : update_args) (r : inode_row) : bool :=
  match wantMode a with
  | Some MODE_CHECK_MUST_BE_FILE => negb (S_ISREG (st_mode r))
  | Some MODE_CHECK_MUST_BE_DIRECTORY => negb (S_ISDIR (st_mode r))
  | _ => false
  end.

(** The row as it was found, with whether its type was as asked for: only then
    are the node numbers handed out.  Updating a row that was just removed is
    an error of PostgreSQL. *)
Definition SearchAndUpdateInodeTableInfo (shardId : Z) (k : inode_key) (a : update_args)
    : cmd inode_shards (option (inode_row * bool)) := fun t =>
  match t !! shardId with
  | None => Raise PROGRAM_ERROR t
  | Some rows =>
      match rows !! k with
      | None => Ret None t
      | Some r =>
          let rows1 := if removes a r then delete k rows else rows in
          if wrong_type a r then Ret (Some (r, false)) (<[shardId := rows1]> t)
          else if doUpdate a && needs_update a r then
            if removes a r then Raise UNKNOWN (<[shardId := rows1]> t)
            else Ret (Some (r, true)) (<[shardId := <[k := modify_row a r]> rows]> t)
          else Ret (Some (r, true)) (<[shardId := rows1]> t)
      end
  end.

(** InsertIntoInodeTable, with the relation it opens. *)
Definition InsertIntoInodeTable (shardId : Z) (k : inode_key) (r : inode_row) : cmd inode_shards unit := fun t =>
  match t !! shardId with
  | None => Raise PROGRAM_ERROR t
  | Some rows =>
      match tuple_insert k r rows with
      | Ret _ rows' => Ret tt (<[shardId := rows']> t)
      | Raise e _ => Raise e t
      | OutOfFuel => OutOfFuel
      end
  end.

(** ** Lookup in the tables of a server *)

Definition find_row (t : inode_shards) (shardId : Z) (k : inode_key) : option inode_row :=
  rows ← t !! shardId; rows !! k.

Lemma Search_read t shardId rows k a :
  t !! shardId = Some rows -> doUpdate a = false ->
  SearchAndUpdateInodeTableInfo shardId k a t =
    Ret ((fun r => (r, negb (wrong_type a r))) <$> find_row t shardId k) t.
Proof.
  intros Ht Hu. unfold SearchAndUpdateInodeTableInfo, find_row, removes. rewrite Ht, Hu. simpl.
  destruct (rows !! k) as [r|]; [|done]. simpl. rewrite insert_id by done. by destruct (wrong_type a r).
Qed.
