(* ===== verification/ShardService.v ===== *)
(** * What the handlers need from the shard table

    The interface between falcon/metadb/meta_handle.c and
    falcon/metadb/shard_table.c: the shard and the worker of a value of
    parentid_partid, and the number of the local server. *)

From S2P Require Import FalconPrelude Catalog Placement ForeignServer ShardTable.

Class ShardService : Type := {
  (** SearchShardInfoByShardValue: the shard and the worker. *)
  ss_lookup : Z -> option (Z * Z);
  (** GetShardTableData. *)
  ss_rows : list (Z * Z);
  (** GetLocalServerId. *)
  ss_local : Z;
  (** The place of an entry depends on the part number alone. *)
  ss_lookup_part p p' q :
    0 <= q < 2 ^ 13 ->
    ss_lookup (CombineParentIdWithPartId p q) = ss_lookup (CombineParentIdWithPartId p' q);
  ss_lookup_row v row : ss_lookup v = Some row -> row ∈ ss_rows;
  ss_rows_NoDup : NoDup ss_rows.*1;
}.

(** The shard table of a server is such a service. *)
Section Instance.
Context (hash_bytes_uint32 : Z -> Z) (t : gmap Z Z) (local : Z).

#[export] Program Instance table_shards : ShardService := {
  ss_lookup v := shard_of t (HashShard hash_bytes_uint32 v);
  ss_rows := index_scan Z.le t;
  ss_local := local;
}.
Next Obligation.
  intros p p' q Hq. unfold HashShard. cbv zeta. by rewrite !CombineParentIdWithPartId_part.
Qed.
Next Obligation.
  intros v [rp srv] H. apply lower_bound_Some in H as (H & _). by apply index_scan_elem.
Qed.
Next Obligation. apply index_scan_NoDup. Qed.

(** Its answers are those of SearchShardInfoByShardValue. *)
Lemma table_shards_search s v :
  sh_rows s = t -> sh_inv s -> Z.of_nat (size t) <= SHARD_COUNT_MAX ->
  SearchShardInfoByShardValue hash_bytes_uint32 v s =
    match ss_lookup v with
    | Some row => Ret row (refreshed s)
    | None => Raise PROGRAM_ERROR (refreshed s)
    end.
Proof.
  intros Ht Hinv Hs. unfold SearchShardInfoByShardValue. rewrite Search_refreshed by (rewrite ?Ht; done).
  by rewrite Ht.
Qed.
End Instance.
