(* ===== verification/MetaFile.v ===== *)
(** * Files: create, stat, open, close, unlink and attributes

    The handlers of falcon/metadb/meta_handle.c that work on the inode rows of
    one worker.  A request is a batch: every path is verified, the batch is
    sorted, the paths are parsed, and the entries are handled shard by shard.

    The order pg_qsort gives equal paths and the order in which hash_seq_search
    visits the shards are PostgreSQL's and are parameters; the clock does not
    advance within a handler. *)

From S2P Require Import FalconPrelude Catalog DirService InodeId PathCmp PathParse Placement ShardTable InodeTable ShardService.

(** MetaProcessInfoData: [mi_row] has inodeId, the st_* fields, etag and
    node_id. *)
Record MetaProcessInfo : Type := mkInfo {
  mi_path : string;
  mi_errorCode : FalconErrorCode;
  mi_parentId : Z;
  mi_parentId_partId : Z;
  mi_name : string;
  mi_row : inode_row;
}.

Definition with_error (e : FalconErrorCode) (i : MetaProcessInfo) : MetaProcessInfo :=
  mkInfo (mi_path i) e (mi_parentId i) (mi_parentId_partId i) (mi_name i) (mi_row i).
Definition with_row (r : inode_row) (i : MetaProcessInfo) : MetaProcessInfo :=
  mkInfo (mi_path i) (mi_errorCode i) (mi_parentId i) (mi_parentId_partId i) (mi_name i) r.
Definition with_target (p pp : Z) (n : string) (i : MetaProcessInfo) : MetaProcessInfo :=
  mkInfo (mi_path i) (mi_errorCode i) p pp n (mi_row i).

(** The key of the row of an entry. *)
Definition info_key (i : MetaProcessInfo) : inode_key := (mi_parentId_partId i, mi_name i).

Section MetaFile.
Context {Dir : Type} {DS : DirectoryService Dir} {SS : ShardService}.
Context (sg : bool) (GetCurrentTimestamp : Z).
Context (pg_qsort : list MetaProcessInfo -> list MetaProcessInfo).
Context (hash_order : list Z -> list Z).

(** A server as the handlers see it. *)
Record server_state : Type := mkSrv {
  sv_pp : pp_state (Dir := Dir);
  sv_inodes : inode_shards;
}.

Definition on_pp {A} (m : cmd (pp_state (Dir := Dir)) A) : cmd server_state A := fun s =>
  match m (sv_pp s) with
  | Ret a p => Ret a (mkSrv p (sv_inodes s))
  | Raise e p => Raise e (mkSrv p (sv_inodes s))
  | OutOfFuel => OutOfFuel
  end.
Definition on_inodes {A} (m : cmd inode_shards A) : cmd server_state A := fun s =>
  match m (sv_inodes s) with
  | Ret a t => Ret a (mkSrv (sv_pp s) t)
  | Raise e t => Raise e (mkSrv (sv_pp s) t)
  | OutOfFuel => OutOfFuel
  end.

(** ** The common part of the batches *)

(** The first loop, and the sort. *)
Definition verify_paths (requirement : Z) (infos : list MetaProcessInfo) : list MetaProcessInfo :=
  pg_qsort ((fun i => with_error (VerifyPathValidity (mi_path i) requirement).1 i) <$> infos).

(** SearchShardInfoByShardValue. *)
Definition find_shard (v : Z) : cmd server_state (Z * Z) :=
  match ss_lookup v with Some r => mret r | None => raise PROGRAM_ERROR end.

(** The second loop for one entry: the entry, and the shard whose list it is
    put on.  [fill] sets the fields a new file starts with. *)
Definition parse_info (flag : Z) (wantInode : bool) (fill : MetaProcessInfo -> MetaProcessInfo)
    (i : MetaProcessInfo) : cmd server_state (MetaProcessInfo * option Z) :=
  if negb (bool_decide (mi_errorCode i = SUCCESS)) then mret (i, None)
  else
    r ← on_pp (PathParseTreeInsert ss_local (mi_path i) flag
                 (if wantInode then Some (st_ino (mi_row i)) else None));
    match r_code r, r_target r with
    | SUCCESS, Some (p, n) =>
        let i1 := with_target p (CombineParentIdWithPartId p (HashPartId sg n)) n i in
        let row := mi_row i1 in
        let i2 := fill (with_row (mkRow (default (st_ino row) (r_inode r)) (st_dev row) (st_mode row)
                     (st_nlink row) (st_uid row) (st_gid row) (st_rdev row) (st_size row) (st_blksize row)
                     (st_blocks row) (st_atim row) (st_mtim row) (st_ctim row) (etag row)
                     (update_version row) (primary_nodeid row) (backup_nodeid row)) i1) in
        sw ← find_shard (mi_parentId_partId i2);
        if negb (sw.2 =? ss_local) then mret (with_error WRONG_WORKER i2, None)
        else mret (i2, Some sw.1)
    | e, _ => mret (with_error e i, None)
    end.

Fixpoint parse_infos (flag : Z) (wantInode : bool) (fill : MetaProcessInfo -> MetaProcessInfo)
    (infos : list MetaProcessInfo) : cmd server_state (list (MetaProcessInfo * option Z)) :=
  match infos with
  | [] => mret []
  | i :: infos' =>
      x ← parse_info flag wantInode fill i;
      rest ← parse_infos flag wantInode fill infos';
      mret (x :: rest)
  end.

(** batchMetaProcessInfoListPerShard: the positions of the entries of a shard,
    and the positions in the order in which they are handled. *)
Definition shard_entries (arr : list (MetaProcessInfo * option Z)) (shardId : Z) : list nat :=
  filter (fun k => arr !! k ≫= snd = Some shardId) (seq 0 (length arr)).
Definition batch_shards (arr : list (MetaProcessInfo * option Z)) : list Z :=
  hash_order (remove_dups (omap snd arr)).
Definition batch_order (arr : list (MetaProcessInfo * option Z)) : list nat :=
  concat (shard_entries arr <$> batch_shards arr).

(** The entries at the given positions are handled one after the other. *)
Fixpoint handle_entries (op : Z -> MetaProcessInfo -> cmd inode_shards MetaProcessInfo) (order : list nat)
    (arr : list (MetaProcessInfo * option Z)) : cmd server_state (list (MetaProcessInfo * option Z)) :=
  match order with
  | [] => mret arr
  | k :: order' =>
      match arr !! k with
      | Some (i, Some shardId) =>
          i' ← on_inodes (op shardId i);
          handle_entries op order' (<[k := (i', Some shardId)]> arr)
      | _ => handle_entries op order' arr
      end
  end.

Definition batch_handle (requirement flag : Z) (op : Z -> MetaProcessInfo -> cmd inode_shards MetaProcessInfo)
    (infos : list MetaProcessInfo) : cmd server_state (list MetaProcessInfo) :=
  arr ← parse_infos flag false (fun i => i) (verify_paths requirement infos);
  res ← handle_entries op (batch_order arr) arr;
  mret (res.*1).

(** ** Stat *)

Definition stat_entry (shardId : Z) (i : MetaProcessInfo) : cmd inode_shards MetaProcessInfo :=
  found ← SearchAndUpdateInodeTableInfo shardId (info_key i) read_args;
  mret (match (found : option (inode_row * bool)) with
        | None => with_error FILE_NOT_EXISTS i
        | Some (r, _) =>
            with_row (mkRow (st_ino r) (st_dev r) (st_mode r) (st_nlink r) (st_uid r) (st_gid r) (st_rdev r)
              (st_size r) (st_blksize r) (st_blocks r) (st_atim r) (st_mtim r) (st_ctim r) (etag r)
              (update_version (mi_row i)) (primary_nodeid r) (backup_nodeid (mi_row i))) i
        end).

Definition FalconStatHandle : list MetaProcessInfo -> cmd server_state (list MetaProcessInfo) :=
  batch_handle 0 0 stat_entry.

(** ** Open *)

Definition open_entry (shardId : Z) (i : MetaProcessInfo) : cmd inode_shards MetaProcessInfo :=
  found ← SearchAndUpdateInodeTableInfo shardId (info_key i)
            (mkArgs false None false (Some 0) (Some MODE_CHECK_NONE) None None None None None None None);
  let row := mi_row i in
  mret (match (found : option (inode_row * bool)) with
        | None =>
            with_error FILE_NOT_EXISTS (with_row (mkRow (st_ino row) 0 (st_mode row) (st_nlink row) 0 0 0
              (st_size row) 0 0 0 0 0 EmptyString (update_version row) (primary_nodeid row) (backup_nodeid row)) i)
        | Some (r, _) =>
            with_error SUCCESS (with_row (mkRow (st_ino r) 0 (st_mode r) (st_nlink r) 0 0 0
              (st_size r) 0 0 0 0 0 EmptyString (update_version row) (primary_nodeid r) (backup_nodeid row)) i)
        end).

Definition FalconOpenHandle : list MetaProcessInfo -> cmd server_state (list MetaProcessInfo) :=
  batch_handle 0 0 open_entry.

(** ** Close *)

Definition close_entry (shardId : Z) (i : MetaProcessInfo) : cmd inode_shards MetaProcessInfo :=
  found ← SearchAndUpdateInodeTableInfo shardId (info_key i)
            (mkArgs true (Some (st_size (mi_row i))) false None None None None None None None
               (Some GetCurrentTimestamp) (Some (primary_nodeid (mi_row i))));
  mret (with_error (match (found : option (inode_row * bool)) with None => FILE_NOT_EXISTS | Some _ => SUCCESS end) i).

Definition FalconCloseHandle : list MetaProcessInfo -> cmd server_state (list MetaProcessInfo) :=
  batch_handle 0 0 close_entry.

(** ** Unlink *)

Definition unlink_entry (shardId : Z) (i : MetaProcessInfo) : cmd inode_shards MetaProcessInfo :=
  found ← SearchAndUpdateInodeTableInfo shardId (info_key i)
            (mkArgs true None false (Some (-1)) (Some MODE_CHECK_MUST_BE_FILE) None None None None None None None);
  mret (match (found : option (inode_row * bool)) with
        | None => with_error FILE_NOT_EXISTS i
        | Some (r, regular) =>
            let row := mi_row i in
            let i' := with_row (mkRow (st_ino r) (st_dev row) (st_mode row) (st_nlink row) (st_uid row)
              (st_gid row) (st_rdev row) (st_size r) (st_blksize row) (st_blocks row) (st_atim row) (st_mtim row)
              (st_ctim row) (etag row) (update_version row)
              (if regular then primary_nodeid r else primary_nodeid row) (backup_nodeid row)) i in
            with_error (if negb (S_ISREG (st_mode r)) then PATH_VERIFY_FAILED
                        else if negb (st_nlink r =? 1) then PROGRAM_ERROR
                        else SUCCESS) i'
        end).

Definition FalconUnlinkHandle : list MetaProcessInfo -> cmd server_state (list MetaProcessInfo) :=
  batch_handle VERIFY_PATH_VALIDITY_REQUIREMENT_MUST_BE_FILE 0 unlink_entry.

(** ** Create *)

Definition BATCH_OPERATION_GROUP_SIZE : nat := 8.

(** The fields a new file starts with. *)
Definition new_file (i : MetaProcessInfo) : MetaProcessInfo :=
  with_row (mkRow (st_ino (mi_row i)) 0 (Z.lor S_IFREG 0x1A4) 1 0 0 0 0 0 0
    GetCurrentTimestamp GetCurrentTimestamp GetCurrentTimestamp EmptyString
    (update_version (mi_row i)) ss_local (backup_nodeid (mi_row i))) i.

(** The row that is inserted for it. *)
Definition create_row (i : MetaProcessInfo) : inode_row :=
  let r := mi_row i in
  mkRow (st_ino r) 0 (st_mode r) 1 0 0 0 (st_size r) 0 0 (st_atim r) (st_mtim r) (st_ctim r) (etag r) 0
    (primary_nodeid r) (-1).

(** What an entry that exists reports. *)
Definition existing_file (r : inode_row) (i : MetaProcessInfo) : MetaProcessInfo :=
  let row := mi_row i in
  with_row (mkRow (st_ino r) (st_dev row) (st_mode r) (st_nlink r) (st_uid row) (st_gid row) (st_rdev row)
    (st_size r) (st_blksize row) (st_blocks row) (st_atim row) (st_mtim row) (st_ctim row) (etag row)
    (update_version row) (primary_nodeid r) (backup_nodeid row)) i.

(** One run of the block in PG_TRY over the entries still to be handled: the
    entries done and left with the rows, or the entry whose insertion failed
    with those before and after it. *)
Inductive create_run : Type :=
| Committed (done todo : list MetaProcessInfo) (rows : gmap (Z * string) inode_row)
| Caught (before : list MetaProcessInfo) (failed : MetaProcessInfo) (after : list MetaProcessInfo).

Fixpoint create_pass (currentGroupHandled : nat) (todo : list MetaProcessInfo) (rows : gmap (Z * string) inode_row)
    : create_run :=
  match currentGroupHandled, todo with
  | S more, i :: todo' =>
      if bool_decide (mi_errorCode i = SUCCESS) then
        match rows !! info_key i with
        | Some _ => Caught [] i todo'
        | None =>
            match create_pass more todo' (<[info_key i := create_row i]> rows) with
            | Committed d t rows' => Committed (i :: d) t rows'
            | Caught b f a => Caught (i :: b) f a
            end
        end
      else
        let i' := if bool_decide (mi_errorCode i = FILE_EXISTS)
                  then match rows !! info_key i with Some r => existing_file r i | None => i end
                  else i in
        match create_pass (S more) todo' rows with
        | Committed d t rows' => Committed (i' :: d) t rows'
        | Caught b f a => Caught (i' :: b) f a
        end
  | _, _ => Committed [] todo rows
  end.

(** The update of an entry that exists, which only callers that pass
    updateExisted ask for. *)
Definition update_existed (i : MetaProcessInfo) (rows : gmap (Z * string) inode_row) : gmap (Z * string) inode_row :=
  alter (modify_row (mkArgs true (Some (st_size (mi_row i))) false None None None None None
    (Some (etag (mi_row i))) None (Some (st_mtim (mi_row i))) None)) (info_key i) rows.

(** while (list_length(toHandleMetaProcessList) != 0); [None] when [fuel] runs
    were not enough. *)
Fixpoint create_group (fuel : nat) (updateExisted : bool) (todo : list MetaProcessInfo)
    (rows : gmap (Z * string) inode_row) : option (list MetaProcessInfo * gmap (Z * string) inode_row) :=
  match todo with
  | [] => Some ([], rows)
  | _ =>
      match fuel with
      | O => None
      | S fuel' =>
          match create_pass BATCH_OPERATION_GROUP_SIZE todo rows with
          | Committed d t rows' =>
              '(d', rows'') ← create_group fuel' updateExisted t rows'; Some (d ++ d', rows'')
          | Caught b f a =>
              if updateExisted then create_group fuel' updateExisted (b ++ f :: a) (update_existed f rows)
              else create_group fuel' updateExisted (b ++ with_error FILE_EXISTS f :: a) rows
          end
      end
  end.

(** The entries at the given positions are replaced. *)
Fixpoint put_entries {A} (ks : list nat) (xs : list A) (arr : list A) : list A :=
  match ks, xs with
  | k :: ks', x :: xs' => put_entries ks' xs' (<[k := x]> arr)
  | _, _ => arr
  end.

Definition create_shard (fuel : nat) (updateExisted : bool) (shardId : Z)
    (arr : list (MetaProcessInfo * option Z)) : cmd server_state (list (MetaProcessInfo * option Z)) := fun s =>
  let ks := shard_entries arr shardId in
  match sv_inodes s !! shardId with
  | None => Raise PROGRAM_ERROR s
  | Some rows =>
      match create_group fuel updateExisted (omap (fun k => fst <$> arr !! k) ks) rows with
      | None => OutOfFuel
      | Some (infos, rows') =>
          Ret (put_entries ks ((fun i => (i, Some shardId)) <$> infos) arr)
              (mkSrv (sv_pp s) (<[shardId := rows']> (sv_inodes s)))
      end
  end.

Fixpoint create_shards (fuel : nat) (updateExisted : bool) (shards : list Z)
    (arr : list (MetaProcessInfo * option Z)) : cmd server_state (list (MetaProcessInfo * option Z)) :=
  match shards with
  | [] => mret arr
  | shardId :: shards' =>
      arr' ← create_shard fuel updateExisted shardId arr;
      create_shards fuel updateExisted shards' arr'
  end.

Definition FalconCreateHandle (fuel : nat) (updateExisted : bool) (infos : list MetaProcessInfo)
    : cmd server_state (list MetaProcessInfo) :=
  arr ← parse_infos CREATE_FLAG true new_file (verify_paths VERIFY_PATH_VALIDITY_REQUIREMENT_MUST_BE_FILE infos);
  res ← create_shards fuel updateExisted (batch_shards arr) arr;
  mret (res.*1).

(** ** Attributes *)

(** The common part of the three handlers: the path is resolved and its row
    changed. *)
Definition set_attributes (a : update_args) (i : MetaProcessInfo) : cmd server_state MetaProcessInfo :=
  r ← on_pp (PathParseTreeInsert ss_local (mi_path i) SETATTR_FLAG None);
  match r_code r, r_target r with
  | SUCCESS, Some (p, n) =>
      let v := CombineParentIdWithPartId p (HashPartId sg n) in
      sw ← find_shard v;
      _ ← raise_unless (sw.2 =? ss_local) WRONG_WORKER;
      found ← on_inodes (SearchAndUpdateInodeTableInfo sw.1 (v, n) a);
      _ ← raise_unless (bool_decide (is_Some (found : option (inode_row * bool)))) FILE_NOT_EXISTS;
      mret (with_error SUCCESS i)
  | e, _ => raise e
  end.

Definition FalconUtimeNsHandle (i : MetaProcessInfo) : cmd server_state MetaProcessInfo :=
  let given := negb ((st_atim (mi_row i) =? -1) || (st_mtim (mi_row i) =? -1)) in
  set_attributes (mkArgs true None false None None None None None None
    (Some (if given then st_atim (mi_row i) else GetCurrentTimestamp))
    (Some (if given then st_mtim (mi_row i) else GetCurrentTimestamp)) None) i.

Definition FalconChownHandle (i : MetaProcessInfo) : cmd server_state MetaProcessInfo :=
  set_attributes (mkArgs true None false None None None
    (Some (st_uid (mi_row i))) (Some (st_gid (mi_row i))) None None None None) i.

Definition FalconChmodHandle (i : MetaProcessInfo) : cmd server_state MetaProcessInfo :=
  set_attributes (mkArgs true None false None None
    (Some (Z.land (st_mode (mi_row i)) 0x1FF)) None None None None None None) i.

End MetaFile.

(** Entries of one shard are handled one after the other: [g] gives for an
    entry what it reports and the rows it leaves. *)
Section InTurn.
Context (g : MetaProcessInfo -> gmap (Z * string) inode_row -> MetaProcessInfo * gmap (Z * string) inode_row).

Fixpoint in_turn (todo : list MetaProcessInfo) (rows : gmap (Z * string) inode_row)
    : list MetaProcessInfo * gmap (Z * string) inode_row :=
  match todo with
  | [] => ([], rows)
  | i :: todo' =>
      let '(i', rows1) := g i rows in
      let '(d, rows2) := in_turn todo' rows1 in
      (i' :: d, rows2)
  end.
End InTurn.

(** ** Creating: one entry after the other *)

Section CreateProofs.
Abbreviation rows_t := (gmap (Z * string) inode_row) (only parsing).

(** The reference: each entry is inserted, or reports the row that exists. *)
Definition create_one (i : MetaProcessInfo) (rows : rows_t) : MetaProcessInfo * rows_t :=
  match rows !! info_key i with
  | Some r => (with_error FILE_EXISTS (existing_file r i), rows)
  | None => (i, <[info_key i := create_row i]> rows)
  end.

(** Entries marked as existing do exist when their turn comes; the others have
    no error. *)
Fixpoint marks_ok (todo : list MetaProcessInfo) (rows : rows_t) : Prop :=
  match todo with
  | [] => True
  | i :: todo' =>
      (mi_errorCode i = SUCCESS \/ mi_errorCode i = FILE_EXISTS /\ is_Some (rows !! info_key i)) /\
      marks_ok todo' (create_one i rows).2
  end.

Definition unmarked (todo : list MetaProcessInfo) : nat :=
  count_if (fun i => bool_decide (mi_errorCode i = SUCCESS)) todo.

Lemma create_one_marked i rows :
  create_one (with_error FILE_EXISTS i) rows =
    match rows !! info_key i with
    | Some _ => create_one i rows
    | None => (with_error FILE_EXISTS i, <[info_key i := create_row i]> rows)
    end.
Proof. unfold create_one. change (info_key (with_error FILE_EXISTS i)) with (info_key i). by destruct (rows !! info_key i). Qed.

Lemma create_one_existing i rows r :
  rows !! info_key i = Some r ->
  create_one (existing_file r i) rows = create_one i rows /\
  (mi_errorCode i = FILE_EXISTS -> (create_one i rows).1 = existing_file r i).
Proof.
  intros Hr. unfold create_one. change (info_key (existing_file r i)) with (info_key i). rewrite Hr.
  split; [done|]. intros He. simpl. destruct i. simpl in He. by subst.
Qed.

Lemma create_one_new i rows :
  rows !! info_key i = None -> create_one i rows = (i, <[info_key i := create_row i]> rows).
Proof. intros H. unfold create_one. by rewrite H. Qed.

Lemma create_one_old i rows r : rows !! info_key i = Some r -> (create_one i rows).2 = rows.
Proof. intros H. unfold create_one. by rewrite H. Qed.

(** What one run leaves: it got through a part of the list as the reference
    does, or it found one more entry that exists. *)
Definition run_ok (n : nat) (todo : list MetaProcessInfo) (rows : rows_t) (r : create_run) : Prop :=
  match r with
  | Committed d t rows' =>
      in_turn create_one todo rows = (d ++ (in_turn create_one t rows').1, (in_turn create_one t rows').2) /\
      marks_ok t rows' /\ (n <> O -> todo <> [] -> (length t < length todo)%nat) /\
      (length t <= length todo)%nat /\ (unmarked t <= unmarked todo)%nat
  | Caught b f a =>
      let todo' := b ++ with_error FILE_EXISTS f :: a in
      in_turn create_one todo' rows = in_turn create_one todo rows /\ marks_ok todo' rows /\
      length todo' = length todo /\ (unmarked todo' < unmarked todo)%nat
  end.

Lemma run_ok_cons n m i i' todo rows r :
  run_ok n todo (create_one i rows).2 r ->
  (create_one i rows).1 = i' -> create_one i' rows = create_one i rows ->
  mi_errorCode i' = mi_errorCode i ->
  (mi_errorCode i' = SUCCESS \/ mi_errorCode i' = FILE_EXISTS /\ is_Some (rows !! info_key i')) ->
  run_ok m (i :: todo) rows (match r with
                             | Committed d t rows' => Committed (i' :: d) t rows'
                             | Caught b f a => Caught (i' :: b) f a
                             end).
Proof.
  intros H E1 E2 Ee Hm. assert (unmarked [i'] = unmarked [i]) as Eu by (unfold unmarked; simpl; by rewrite Ee).
  assert (forall l, in_turn create_one (i :: l) rows =
    (i' :: (in_turn create_one l (create_one i rows).2).1, (in_turn create_one l (create_one i rows).2).2)) as Hseq.
  { intros l. cbn. rewrite <- E1. destruct (create_one i rows) as [x rows1]. simpl. by destruct (in_turn create_one l rows1). }
  destruct r as [d t rows'|b f a].
  - destruct H as (H1 & H2 & _ & H4 & H5). unfold run_ok. rewrite Hseq, H1. split_and!; try done; cbn; try lia.
    unfold unmarked in *. cbn. lia.
  - destruct H as (H1 & H2 & H3 & H4). cbn [run_ok app]. split_and!.
    + cbn [in_turn]. rewrite E2. destruct (create_one i rows) as [x rows1]. simpl in *. by rewrite H1.
    + cbn [marks_ok]. rewrite E2. by split.
    + cbn. by rewrite H3.
    + unfold unmarked in *. cbn in *. lia.
Qed.

Lemma create_pass_spec n todo rows :
  marks_ok todo rows -> run_ok n todo rows (create_pass n todo rows).
Proof.
  revert n rows. induction todo as [|i todo IH]; intros n rows Hm.
  { destruct n; cbn; split_and!; try done; try lia; by intros _ []. }
  destruct n as [|n].
  { cbn [create_pass]. unfold run_ok. split_and!; try done. by destruct (in_turn create_one (i :: todo) rows). }
  destruct Hm as [Hi Hm]. cbn [create_pass]. case_bool_decide as Es.
  - destruct (rows !! info_key i) as [r|] eqn:Er.
    + cbn [run_ok app]. split_and!; [| | |unfold unmarked; simpl; rewrite (bool_decide_eq_true_2 (mi_errorCode i = SUCCESS)) by done; simpl; lia].
      * cbn [in_turn]. by rewrite create_one_marked, Er.
      * cbn [marks_ok]. rewrite create_one_marked, Er. split; [|done]. right.
        change (info_key (with_error FILE_EXISTS i)) with (info_key i). rewrite Er. by eauto.
      * done.
    + rewrite create_one_new in Hm by done. cbn in Hm.
      eapply (run_ok_cons n); [rewrite create_one_new by done; by apply IH|by rewrite create_one_new|done|done|by left].
  - destruct Hi as [?|[He [r Hr]]]; [done|]. rewrite bool_decide_eq_true_2 by done. rewrite Hr.
    destruct (create_one_existing i rows r Hr) as [Ea Eb]. rewrite (create_one_old i rows r Hr) in Hm.
    eapply (run_ok_cons (S n)); [rewrite (create_one_old i rows r Hr); by apply IH|by apply Eb|done|done|].
    right. split; [done|]. change (info_key (existing_file r i)) with (info_key i). eauto.
Qed.

(** The group is handled as by the reference, in at most one run for each entry
    and each entry that exists. *)
Lemma create_group_seq fuel todo rows :
  marks_ok todo rows -> (length todo + unmarked todo <= fuel)%nat ->
  create_group fuel false todo rows = Some (in_turn create_one todo rows).
Proof.
  revert todo rows. induction fuel as [|fuel IH]; intros todo rows Hm Hf.
  { destruct todo; [done|]. simpl in Hf. lia. }
  destruct todo as [|i todo]; [done|]. cbn [create_group].
  pose proof (create_pass_spec BATCH_OPERATION_GROUP_SIZE (i :: todo) rows Hm) as H.
  destruct (create_pass _ (i :: todo) rows) as [d t rows'|b f a].
  - destruct H as (E & Hm' & Hlt & _ & Hu). specialize (Hlt ltac:(done) ltac:(done)).
    rewrite IH by (done || lia). rewrite E. simpl. by destruct (in_turn create_one t rows').
  - destruct H as (E & Hm' & El & Hu). rewrite IH; [by rewrite E|done|]. lia.
Qed.

(** With updateExisted an entry that exists is tried again for ever. *)
Lemma create_group_updateExisted fuel i rows :
  mi_errorCode i = SUCCESS -> is_Some (rows !! info_key i) -> create_group fuel true [i] rows = None.
Proof.
  intros Hi. revert rows. induction fuel as [|fuel IH]; intros rows [r Hr]; [done|].
  cbn [create_group create_pass BATCH_OPERATION_GROUP_SIZE]. rewrite bool_decide_eq_true_2, Hr by done. simpl.
  apply IH. unfold update_existed. rewrite lookup_alter_eq, Hr. eauto.
Qed.
End CreateProofs.

(** ** Batches *)

Section BatchProofs.
Context {Dir : Type} {DS : DirectoryService Dir} {TS : TotalService Dir} {SS : ShardService}.
Context (sg : bool) (GetCurrentTimestamp : Z).
Context (pg_qsort : list MetaProcessInfo -> list MetaProcessInfo).
Context (hash_order : list Z -> list Z).
Context (pg_qsort_perm : forall l, pg_qsort l ≡ₚ l) (hash_order_perm : forall l, hash_order l ≡ₚ l).
Abbreviation srv := (server_state (Dir := Dir)) (only parsing).

(** The shard table covers all values. *)
Context (covers : forall v, is_Some (ss_lookup v)).

(** Each shard of this server has its table. *)
Definition tables_ok (t : inode_shards) : Prop :=
  forall v sh, ss_lookup v = Some (sh, ss_local) -> is_Some (t !! sh).

(** What parsing does to an entry. *)
Definition lookup_info (view : Z -> string -> Z) (i : MetaProcessInfo) : MetaProcessInfo * option Z :=
  if negb (bool_decide (mi_errorCode i = SUCCESS)) then (i, None)
  else match target_of view (mi_path i) with
       | None => (with_error PATH_IS_INVALID i, None)
       | Some (p, n) =>
           let v := CombineParentIdWithPartId p (HashPartId sg n) in
           let i2 := with_target p v n i in
           match ss_lookup v with
           | Some (sh, w) => if w =? ss_local then (i2, Some sh) else (with_error WRONG_WORKER i2, None)
           | None => (i2, None)
           end
       end.

Definition srv_ok (s : srv) : Prop :=
  ds_ok (pp_dir (sv_pp s)) /\ tree_agrees (view_of (sv_pp s)) (pp_tree (sv_pp s)).

Definition same_dirs (s s' : srv) : Prop :=
  (forall q m, view_of (sv_pp s') q m = view_of (sv_pp s) q m) /\ sv_inodes s' = sv_inodes s.

Lemma target_of_view view view' path :
  (forall q m, view' q m = view q m) -> target_of view' path = target_of view path.
Proof. intros H. unfold target_of. f_equal. by apply resolve_view. Qed.

Lemma lookup_info_view view view' i :
  (forall q m, view' q m = view q m) -> lookup_info view' i = lookup_info view i.
Proof. intros H. unfold lookup_info. by rewrite (target_of_view view view'). Qed.

Lemma parse_info_lookup i (s : srv) :
  srv_ok s -> (mi_errorCode i = SUCCESS -> absolute (mi_path i)) ->
  exists s', parse_info sg 0 false (fun i => i) i s = Ret (lookup_info (view_of (sv_pp s)) i) s' /\
    srv_ok s' /\ same_dirs s s'.
Proof.
  intros [Hok Hag] Habs. unfold parse_info, lookup_info. case_bool_decide as E; simpl; [|by exists s].
  destruct (parse_lookup ss_local (mi_path i) None (sv_pp s) (Habs E) Hok Hag) as (p' & Ep & (Hok' & Hv & _) & Hag').
  unfold mbind, cmd_bind, on_pp. rewrite Ep.
  destruct (target_of (view_of (sv_pp s)) (mi_path i)) as [[p n]|]; simpl; [|by exists (mkSrv p' (sv_inodes s))].
  destruct (covers (CombineParentIdWithPartId p (HashPartId sg n))) as [[sh w] Hl].
  unfold find_shard. rewrite Hl. simpl. exists (mkSrv p' (sv_inodes s)). split; [|by split].
  destruct i as [? ? ? ? ? []]. simpl. by destruct (w =? ss_local).
Qed.

Lemma parse_infos_lookup infos (s : srv) :
  srv_ok s -> Forall (fun i => mi_errorCode i = SUCCESS -> absolute (mi_path i)) infos ->
  exists s', parse_infos sg 0 false (fun i => i) infos s = Ret (lookup_info (view_of (sv_pp s)) <$> infos) s' /\
    srv_ok s' /\ same_dirs s s'.
Proof.
  revert s. induction infos as [|i infos IH]; intros s Hok Hall; cbn [parse_infos].
  { exists s. done. }
  apply Forall_cons in Hall as [Hi Hall].
  destruct (parse_info_lookup i s Hok Hi) as (s1 & E1 & Hok1 & Hv1 & Ht1).
  destruct (IH s1 Hok1 Hall) as (s2 & E2 & Hok2 & Hv2 & Ht2).
  exists s2. rewrite (bind_Ret _ _ _ _ _ E1), (bind_Ret _ _ _ _ _ E2).
  split; [|split; [done|split; [|congruence]]].
  - cbn. f_equal. f_equal. apply list_fmap_ext. intros _ x _. by apply lookup_info_view.
  - intros q m. by rewrite Hv2, Hv1.
Qed.

(** Verified paths are absolute. *)
Lemma verify_absolute path req : (VerifyPathValidity path req).1 = SUCCESS -> absolute path.
Proof. unfold VerifyPathValidity, absolute. by case_bool_decide. Qed.

Lemma verify_paths_absolute req infos :
  Forall (fun i => mi_errorCode i = SUCCESS -> absolute (mi_path i)) (verify_paths pg_qsort req infos).
Proof.
  unfold verify_paths. rewrite pg_qsort_perm. apply Forall_fmap, Forall_true. intros i H.
  exact (verify_absolute (mi_path i) req H).
Qed.

(** ** The order of handling *)

Lemma shard_entries_elem arr sh k :
  k ∈ shard_entries arr sh <-> exists i, arr !! k = Some (i, Some sh).
Proof.
  unfold shard_entries. rewrite list_elem_of_filter, elem_of_seq. split.
  - intros [H _]. destruct (arr !! k) as [[i o]|]; simpl in H; simplify_eq. eauto.
  - intros [i H]. rewrite H. split; [done|]. apply lookup_lt_Some in H. lia.
Qed.

Lemma batch_shards_elem arr sh : sh ∈ batch_shards hash_order arr <-> exists k i, arr !! k = Some (i, Some sh).
Proof.
  unfold batch_shards. rewrite hash_order_perm, elem_of_remove_dups, list_elem_of_omap. split.
  - intros ([i o] & Hin & E). simpl in E. subst. apply list_elem_of_lookup in Hin as [k Hk]. eauto.
  - intros (k & i & H). apply list_elem_of_lookup_2 in H. by exists (i, Some sh).
Qed.

Lemma batch_order_elem arr k :
  k ∈ batch_order hash_order arr <-> exists i sh, arr !! k = Some (i, Some sh).
Proof.
  unfold batch_order. rewrite list_elem_of_In, in_concat. split.
  - intros (l & Hl & Hk). apply list_elem_of_In, list_elem_of_fmap in Hl as (sh & -> & _).
    apply list_elem_of_In, shard_entries_elem in Hk as [i Hi]. eauto.
  - intros (i & sh & H). exists (shard_entries arr sh). split.
    + apply list_elem_of_In, list_elem_of_fmap. exists sh. split; [done|]. apply batch_shards_elem. eauto.
    + apply list_elem_of_In, shard_entries_elem. eauto.
Qed.

Lemma NoDup_concat {A} (ls : list (list A)) :
  Forall NoDup ls -> (forall i j l l' x, ls !! i = Some l -> ls !! j = Some l' -> x ∈ l -> x ∈ l' -> i = j) ->
  NoDup (concat ls).
Proof.
  induction 1 as [|l ls Hl Hls IH]; intros Hd; simpl; [constructor|]. apply NoDup_app. split_and!; [done| |].
  - intros x Hx Hin. apply list_elem_of_In, in_concat in Hin as (l' & Hl' & Hx').
    apply list_elem_of_In in Hl', Hx'. apply list_elem_of_lookup in Hl' as [j Hj].
    by specialize (Hd 0%nat (S j) l l' x eq_refl Hj Hx Hx').
  - apply IH. intros i j l1 l2 x H1 H2 Hx1 Hx2. by specialize (Hd (S i) (S j) l1 l2 x H1 H2 Hx1 Hx2) as [= ->].
Qed.

Lemma batch_order_NoDup arr : NoDup (batch_order hash_order arr).
Proof.
  unfold batch_order. apply NoDup_concat.
  - apply Forall_fmap, Forall_true. intros sh. apply NoDup_filter, NoDup_seq.
  - intros i j l l' x Hi Hj Hx Hx'.
    apply list_lookup_fmap_Some in Hi as (sh & -> & Hsh), Hj as (sh' & -> & Hsh').
    apply shard_entries_elem in Hx as [a Ha], Hx' as [b Hb]. simplify_eq.
    eapply NoDup_lookup; [|exact Hsh|exact Hsh']. unfold batch_shards. rewrite hash_order_perm. apply NoDup_remove_dups.
Qed.

(** ** Handling without changes *)

Definition handled (f : Z -> MetaProcessInfo -> MetaProcessInfo) (x : MetaProcessInfo * option Z)
    : MetaProcessInfo * option Z :=
  match x with
  | (i, Some sh) => (f sh i, Some sh)
  | (i, None) => (i, None)
  end.

Lemma handle_entries_pure op f order arr (s : srv) :
  NoDup order ->
  (forall k i sh, k ∈ order -> arr !! k = Some (i, Some sh) -> op sh i (sv_inodes s) = Ret (f sh i) (sv_inodes s)) ->
  exists res, handle_entries op order arr s = Ret res s /\
    forall k, res !! k = (if decide (k ∈ order) then handled f else fun x => x) <$> arr !! k.
Proof.
  revert arr. induction order as [|k order IH]; intros arr Hnd Hop; cbn [handle_entries].
  { exists arr. split; [done|]. intros k. destruct (decide (k ∈ [])); [set_solver|]. by destruct (arr !! k). }
  apply NoDup_cons in Hnd as [Hk Hnd].
  assert (forall arr', (forall k', k' <> k -> arr' !! k' = arr !! k') ->
    (arr' !! k = handled f <$> arr !! k) ->
    exists res, handle_entries op order arr' s = Ret res s /\
      forall k', res !! k' = (if decide (k' ∈ k :: order) then handled f else fun x => x) <$> arr !! k') as Hrec.
  { intros arr' Hne Heq. destruct (IH arr' Hnd) as (res & E & Hres).
    - intros k' i sh Hk' Hl. apply (Hop k'); [by right|]. rewrite <- Hne; [done|]. intros ->. done.
    - exists res. split; [done|]. intros k'. rewrite Hres. destruct (decide (k' = k)) as [->|Hn].
      + rewrite decide_False by done. rewrite decide_True by (by left). rewrite Heq. by destruct (arr !! k).
      + rewrite Hne by done. destruct (decide (k' ∈ order)) as [Ho|Ho]; [rewrite decide_True by (by right)|rewrite decide_False by (intros [?|?]%elem_of_cons; done)]; done. }
  destruct (arr !! k) as [[i [sh|]]|] eqn:Ek; try (apply Hrec; [done|by rewrite Ek]).
  unfold mbind, cmd_bind, on_inodes. rewrite (Hop k i sh) by (by left || done).
  replace (mkSrv (sv_pp s) (sv_inodes s)) with s by (by destruct s).
  apply Hrec; [intros k' Hn; by rewrite list_lookup_insert_ne|].
  rewrite list_lookup_insert_eq by (by eapply lookup_lt_Some). done.
Qed.

(** What a handler that only reads answers for one path. *)
Definition answer_one (view : Z -> string -> Z) (req : Z) (f : Z -> MetaProcessInfo -> MetaProcessInfo)
    (i : MetaProcessInfo) : MetaProcessInfo :=
  (handled f (lookup_info view (with_error (VerifyPathValidity (mi_path i) req).1 i))).1.

Lemma lookup_info_local view i i' sh :
  lookup_info view i = (i', Some sh) ->
  ss_lookup (mi_parentId_partId i') = Some (sh, ss_local) /\ mi_errorCode i' = SUCCESS.
Proof.
  unfold lookup_info. case_bool_decide as E; simpl; [|done].
  destruct (target_of view (mi_path i)) as [[p n]|]; [|done].
  destruct (ss_lookup _) as [[sh' w]|] eqn:Hl; [|done]. destruct (Z.eqb_spec w ss_local); [|done].
  intros [= <- <-]. subst. simpl. by rewrite Hl.
Qed.

Lemma batch_handle_pure req op f infos (s : srv) :
  srv_ok s -> tables_ok (sv_inodes s) ->
  (forall sh i, mi_errorCode i = SUCCESS -> is_Some (sv_inodes s !! sh) ->
     op sh i (sv_inodes s) = Ret (f sh i) (sv_inodes s)) ->
  exists res s', batch_handle sg pg_qsort hash_order req 0 op infos s = Ret res s' /\
    srv_ok s' /\ same_dirs s s' /\ res ≡ₚ answer_one (view_of (sv_pp s)) req f <$> infos.
Proof.
  intros Hok Ht Hop.
  destruct (parse_infos_lookup (verify_paths pg_qsort req infos) s Hok (verify_paths_absolute req infos))
    as (s1 & E1 & Hok1 & Hv & Hi). set (arr := lookup_info _ <$> _) in E1.
  destruct (handle_entries_pure op f (batch_order hash_order arr) arr s1 (batch_order_NoDup arr)) as (res & E2 & Hres).
  { intros k i sh _ Hk. apply list_lookup_fmap_Some in Hk as (i0 & Hl & _). symmetry in Hl.
    apply lookup_info_local in Hl as [Hl He]. rewrite Hi. apply Hop; [done|]. by eapply Ht. }
  assert (res = handled f <$> arr) as ->.
  { apply list_eq. intros k. rewrite Hres, list_lookup_fmap. case_decide as Hd; [done|].
    destruct (arr !! k) as [[i [sh|]]|] eqn:Ek; [|done|done]. exfalso. apply Hd, batch_order_elem. eauto. }
  exists (handled f <$> arr).*1, s1. split; [|split; [done|split; [done|]]].
  - unfold batch_handle. by rewrite (bind_Ret _ _ _ _ _ E1), (bind_Ret _ _ _ _ _ E2).
  - unfold arr, verify_paths. rewrite pg_qsort_perm, <- !list_fmap_compose. done.
Qed.

(** The attributes stat reports. *)
Definition stat_answer (t : inode_shards) (sh : Z) (i : MetaProcessInfo) : MetaProcessInfo :=
  match find_row t sh (info_key i) with
  | None => with_error FILE_NOT_EXISTS i
  | Some r =>
      with_row (mkRow (st_ino r) (st_dev r) (st_mode r) (st_nlink r) (st_uid r) (st_gid r) (st_rdev r)
        (st_size r) (st_blksize r) (st_blocks r) (st_atim r) (st_mtim r) (st_ctim r) (etag r)
        (update_version (mi_row i)) (primary_nodeid r) (backup_nodeid (mi_row i))) i
  end.

Lemma stat_handle infos (s : srv) :
  srv_ok s -> tables_ok (sv_inodes s) ->
  exists res s', FalconStatHandle sg pg_qsort hash_order infos s = Ret res s' /\
    srv_ok s' /\ same_dirs s s' /\
    res ≡ₚ answer_one (view_of (sv_pp s)) 0 (stat_answer (sv_inodes s)) <$> infos.
Proof.
  intros Hok Ht. apply batch_handle_pure; [done|done|]. intros sh i He [rows Hr].
  unfold stat_entry. rewrite (bind_Ret _ _ _ _ _ (Search_read _ _ _ _ read_args Hr eq_refl)).
  unfold stat_answer. by destruct (find_row _ sh (info_key i)).
Qed.

(** Stat answers every path.  For a batch of any size the handler returns,
    changes nothing, and gives for each path, in some order, what the path
    alone calls for: the error of a malformed path, PATH_IS_INVALID when a
    directory of it does not exist, WRONG_WORKER when its shard is elsewhere,
    FILE_NOT_EXISTS when there is no row, and otherwise the attributes of the
    row of its shard. *)
Theorem FalconStatHandle_correct infos (s : srv) :
  srv_ok s -> tables_ok (sv_inodes s) ->
  exists res s', FalconStatHandle sg pg_qsort hash_order infos s = Ret res s' /\
    srv_ok s' /\ same_dirs s s' /\
    res ≡ₚ answer_one (view_of (sv_pp s)) 0 (stat_answer (sv_inodes s)) <$> infos.
Proof. apply stat_handle. Qed.

(** ** Creating a batch *)

(** The entries of a list that belong to a shard, or to none. *)
Definition of_shard (o : option Z) (arr : list (MetaProcessInfo * option Z)) : list MetaProcessInfo :=
  (filter (fun x => x.2 = o) arr).*1.

Lemma of_shard_cons o x arr :
  of_shard o (x :: arr) = (if decide (x.2 = o) then [x.1] else []) ++ of_shard o arr.
Proof. unfold of_shard. rewrite filter_cons. by destruct (decide _). Qed.

Lemma shard_entries_cons x arr sh :
  shard_entries (x :: arr) sh =
    (if decide (x.2 = Some sh) then [0%nat] else []) ++ (S <$> shard_entries arr sh).
Proof.
  unfold shard_entries. cbn [length seq]. rewrite filter_cons. cbn.
  assert (filter (fun k => (x :: arr) !! k ≫= snd = Some sh) (seq 1 (length arr)) =
          S <$> filter (fun k => arr !! k ≫= snd = Some sh) (seq 0 (length arr))) as ->.
  { rewrite <- fmap_S_seq. generalize (seq 0 (length arr)). induction l as [|k l IH]; [done|].
    rewrite fmap_cons, !filter_cons, IH. cbn [lookup list_lookup]. by destruct (decide _). }
  by destruct (decide (x.2 = Some sh)).
Qed.

Lemma shard_entries_todo arr sh :
  omap (fun k => fst <$> arr !! k) (shard_entries arr sh) = of_shard (Some sh) arr.
Proof.
  induction arr as [|x arr IH]; [done|]. rewrite shard_entries_cons, omap_app. unfold of_shard in *.
  rewrite filter_cons. assert (omap (fun k => fst <$> (x :: arr) !! k) (S <$> shard_entries arr sh) =
    omap (fun k => fst <$> arr !! k) (shard_entries arr sh)) as ->.
  { generalize (shard_entries arr sh). induction l as [|k l IHl]; [done|]. cbn. by rewrite IHl. }
  rewrite IH. by destruct (decide (x.2 = Some sh)).
Qed.

Lemma put_entries_S {A} ks (xs : list A) x arr :
  put_entries (S <$> ks) xs (x :: arr) = x :: put_entries ks xs arr.
Proof. revert xs arr. induction ks as [|k ks IH]; intros [|y xs] arr; try done. cbn. apply IH. Qed.

(** The entries of one shard are replaced, the others stay. *)
Lemma put_entries_shard sh arr xs o :
  length xs = length (of_shard (Some sh) arr) ->
  of_shard o (put_entries (shard_entries arr sh) ((fun i => (i, Some sh)) <$> xs) arr) =
    if decide (o = Some sh) then xs else of_shard o arr.
Proof.
  revert xs. induction arr as [|x arr IH]; intros xs Hl.
  { destruct xs; [|done]. cbn. by destruct (decide _). }
  rewrite shard_entries_cons. rewrite of_shard_cons in Hl |- *.
  destruct (decide (x.2 = Some sh)) as [Hx|Hx]; cbn [app] in *.
  - destruct xs as [|y xs]; [done|]. rewrite fmap_cons. cbn [put_entries insert list_insert]. injection Hl as Hl.
    rewrite put_entries_S, of_shard_cons, IH by done. cbn [fst snd].
    destruct (decide (o = Some sh)) as [->|Ho]; [by rewrite decide_True|].
    by rewrite !decide_False by congruence.
  - rewrite put_entries_S, of_shard_cons, IH by done.
    destruct (decide (o = Some sh)) as [->|Ho]; [by rewrite decide_False|done].
Qed.

(** What the replaced entries keep is kept by the list. *)
Lemma put_entries_fmap {B} (g : MetaProcessInfo -> B) sh arr xs :
  g <$> xs = g <$> of_shard (Some sh) arr ->
  prod_map g id <$> put_entries (shard_entries arr sh) ((fun i => (i, Some sh)) <$> xs) arr = prod_map g id <$> arr.
Proof.
  revert xs. induction arr as [|x arr IH]; intros xs Hl; [by destruct xs|].
  rewrite shard_entries_cons. rewrite of_shard_cons in Hl.
  destruct (decide (x.2 = Some sh)) as [Hx|Hx]; cbn [app] in *.
  - destruct xs as [|y xs]; [done|]. cbn in Hl. injection Hl as Hy Hl. rewrite fmap_cons.
    cbn [put_entries insert list_insert]. rewrite put_entries_S, !fmap_cons, IH by done.
    f_equal. unfold prod_map. cbn. by rewrite Hy, Hx.
  - rewrite put_entries_S, !fmap_cons. f_equal. by apply IH.
Qed.

(** What an entry keeps when it is handled. *)
Definition identity (i : MetaProcessInfo) : string * (Z * string) := (mi_path i, info_key i).

(** What the reference answers for an entry, and the rows it leaves. *)
Definition entry_created (rows rows' : gmap (Z * string) inode_row) (i : MetaProcessInfo) : Prop :=
  exists r, rows' !! info_key i = Some r /\
    match rows !! info_key i with
    | Some r0 => r = r0 /\ mi_errorCode i = FILE_EXISTS /\ st_ino (mi_row i) = st_ino r
    | None => mi_errorCode i = SUCCESS /\ r = create_row i \/
              mi_errorCode i = FILE_EXISTS /\ st_ino (mi_row i) = st_ino r
    end.

Definition succeeded (l : list MetaProcessInfo) : list MetaProcessInfo :=
  filter (fun i => mi_errorCode i = SUCCESS) l.

Lemma in_turn_identity g todo rows :
  (forall i rows, identity (g i rows).1 = identity i) -> identity <$> (in_turn g todo rows).1 = identity <$> todo.
Proof.
  intros Hg. revert rows. induction todo as [|i todo IH]; intros rows; [done|]. cbn [in_turn].
  pose proof (Hg i rows) as Hi. destruct (g i rows) as [i' rows1]. specialize (IH rows1).
  destruct (in_turn g todo rows1) as [d rows2]. cbn in *. by rewrite IH, Hi.
Qed.

Lemma create_one_identity i rows : identity (create_one i rows).1 = identity i.
Proof. unfold create_one. by destruct (rows !! info_key i). Qed.

Lemma create_seq_keeps todo rows k r :
  rows !! k = Some r -> (in_turn create_one todo rows).2 !! k = Some r.
Proof.
  revert rows. induction todo as [|i todo IH]; intros rows Hk; [done|]. cbn [in_turn].
  destruct (create_one i rows) as [i' rows1] eqn:E.
  assert (rows1 !! k = Some r) as Hk1.
  { unfold create_one in E. destruct (rows !! info_key i) eqn:Ei; simplify_eq; [done|].
    rewrite lookup_insert_ne; [done|]. congruence. }
  specialize (IH rows1 Hk1). by destruct (in_turn create_one todo rows1).
Qed.

Lemma create_seq_spec todo rows :
  Forall (fun i => mi_errorCode i = SUCCESS) todo ->
  Forall (entry_created rows (in_turn create_one todo rows).2) (in_turn create_one todo rows).1 /\
  NoDup (info_key <$> succeeded (in_turn create_one todo rows).1) /\
  (forall k r, (in_turn create_one todo rows).2 !! k = Some r ->
     rows !! k = Some r \/
     rows !! k = None /\ exists i, i ∈ succeeded (in_turn create_one todo rows).1 /\ info_key i = k /\ r = create_row i).
Proof.
  intros Hall. revert rows. induction Hall as [|i todo Hi Hall IH]; intros rows; cbn [in_turn].
  { split_and!; [constructor|constructor|by left]. }
  destruct (create_one i rows) as [i' rows1] eqn:E. specialize (IH rows1).
  pose proof (create_seq_keeps todo rows1) as Hk.
  destruct (in_turn create_one todo rows1) as [d rows2]. cbn [fst snd] in *. destruct IH as (Hd & Hn & Hr).
  unfold create_one in E. destruct (rows !! info_key i) as [r0|] eqn:Ei; simplify_eq.
  - split_and!.
    + constructor; [|done]. exists r0. cbn. change (info_key (with_error _ (existing_file r0 i))) with (info_key i).
      rewrite Ei. auto.
    + unfold succeeded. rewrite filter_cons, decide_False by done. done.
    + intros k r Hkr. unfold succeeded. rewrite filter_cons, decide_False by done. by apply Hr.
  - split_and!.
    + constructor.
      * exists (create_row i'). rewrite Ei. split; [|by left; split]. apply Hk, lookup_insert_eq.
      * eapply Forall_impl; [exact Hd|]. intros x (r & Hx & Hm). exists r. split; [done|].
        destruct (decide (info_key x = info_key i')) as [Ex|Ex].
        -- rewrite Ex, lookup_insert_eq in Hm. rewrite Ex, Ei. right. by destruct Hm as (-> & ? & ?).
        -- by rewrite lookup_insert_ne in Hm by done.
    + unfold succeeded. rewrite filter_cons, decide_True by done. cbn. apply NoDup_cons. split; [|done].
      intros Hin. apply list_elem_of_fmap in Hin as (x & Ex & Hx). apply list_elem_of_filter in Hx as [Hs Hx].
      pose proof (proj1 (Forall_forall _ _) Hd x Hx) as (r & _ & Hm). rewrite <- Ex, lookup_insert_eq in Hm.
      destruct Hm as (_ & He & _). congruence.
    + intros k r Hkr. unfold succeeded. rewrite filter_cons, decide_True by done.
      destruct (Hr k r Hkr) as [Hl|(Hl & x & Hx & Ex & ->)].
      * destruct (decide (info_key i' = k)) as [<-|Hne].
        -- rewrite lookup_insert_eq in Hl. simplify_eq. right. split; [done|]. exists i'. split; [left|done].
        -- left. by rewrite lookup_insert_ne in Hl by done.
      * right. rewrite lookup_insert_None in Hl. destruct Hl as [Hl _]. split; [done|].
        exists x. split; [by right|done].
Qed.

Definition rows_of (t : inode_shards) (sh : Z) : gmap (Z * string) inode_row := default ∅ (t !! sh).

Lemma marks_ok_fresh todo rows : Forall (fun i => mi_errorCode i = SUCCESS) todo -> marks_ok todo rows.
Proof. intros H. revert rows. induction H as [|i todo Hi H IH]; intros rows; cbn; auto. Qed.

Lemma of_shard_length o arr : (length (of_shard o arr) <= length arr)%nat.
Proof. unfold of_shard. rewrite length_fmap. apply length_filter. Qed.

(** *** Shard after shard *)

Fixpoint over_shards (step : Z -> list (MetaProcessInfo * option Z) -> cmd srv (list (MetaProcessInfo * option Z)))
    (shards : list Z) (arr : list (MetaProcessInfo * option Z)) : cmd srv (list (MetaProcessInfo * option Z)) :=
  match shards with
  | [] => mret arr
  | sh :: shards' => arr' ← step sh arr; over_shards step shards' arr'
  end.

(** The entries of each shard are handled in turn. *)
Definition handled_all (g : MetaProcessInfo -> gmap (Z * string) inode_row -> MetaProcessInfo * gmap (Z * string) inode_row)
    (shards : list Z) (arr res : list (MetaProcessInfo * option Z)) (t t' : inode_shards) : Prop :=
  (forall sh, rows_of t' sh = if decide (sh ∈ shards)
     then (in_turn g (of_shard (Some sh) arr) (rows_of t sh)).2 else rows_of t sh) /\
  (forall sh, of_shard (Some sh) res = if decide (sh ∈ shards)
     then (in_turn g (of_shard (Some sh) arr) (rows_of t sh)).1 else of_shard (Some sh) arr) /\
  of_shard None res = of_shard None arr /\
  prod_map identity id <$> res = prod_map identity id <$> arr.

Section OverShards.
Context (g : MetaProcessInfo -> gmap (Z * string) inode_row -> MetaProcessInfo * gmap (Z * string) inode_row).
Context (g_identity : forall i rows, identity (g i rows).1 = identity i).
Context (step : Z -> list (MetaProcessInfo * option Z) -> cmd srv (list (MetaProcessInfo * option Z))).
Context (arr0 : list (MetaProcessInfo * option Z)).
Context (step_spec : forall sh arr (s : srv) rows,
  snd <$> arr = snd <$> arr0 -> of_shard (Some sh) arr = of_shard (Some sh) arr0 -> sv_inodes s !! sh = Some rows ->
  step sh arr s = Ret
    (put_entries (shard_entries arr sh)
       ((fun i => (i, Some sh)) <$> (in_turn g (of_shard (Some sh) arr) rows).1) arr)
    (mkSrv (sv_pp s) (<[sh := (in_turn g (of_shard (Some sh) arr) rows).2]> (sv_inodes s)))).

Lemma identity_snd (arr arr' : list (MetaProcessInfo * option Z)) :
  prod_map identity id <$> arr' = prod_map identity id <$> arr -> snd <$> arr' = snd <$> arr.
Proof. intros H. apply (f_equal (fmap snd)) in H. by rewrite <- !list_fmap_compose in H. Qed.

Lemma over_shards_spec shards arr (s : srv) :
  NoDup shards -> snd <$> arr = snd <$> arr0 ->
  (forall sh, sh ∈ shards -> of_shard (Some sh) arr = of_shard (Some sh) arr0 /\ is_Some (sv_inodes s !! sh)) ->
  exists res s', over_shards step shards arr s = Ret res s' /\ sv_pp s' = sv_pp s /\
    (forall sh, is_Some (sv_inodes s' !! sh) <-> is_Some (sv_inodes s !! sh)) /\
    handled_all g shards arr res (sv_inodes s) (sv_inodes s').
Proof.
  revert arr s. induction shards as [|sh shards IH]; intros arr s Hnd Hsnd Hex.
  { exists arr, s. split_and!; try done; intros sh; destruct (decide (sh ∈ [])); done || set_solver. }
  apply NoDup_cons in Hnd as [Hsh Hnd]. cbn [over_shards].
  destruct (Hex sh) as [He [rows Hr]]; [left|].
  pose proof (step_spec sh arr s rows Hsnd He Hr) as E1. rewrite (bind_Ret _ _ _ _ _ E1).
  set (todo := in_turn g (of_shard (Some sh) arr) rows) in *. set (arr1 := put_entries _ _ arr) in *. set (s1 := mkSrv _ _) in *.
  assert (identity <$> todo.1 = identity <$> of_shard (Some sh) arr) as Htodo by (by apply in_turn_identity).
  assert (forall o, of_shard o arr1 = if decide (o = Some sh) then todo.1 else of_shard o arr) as Ho.
  { intros o. apply put_entries_shard. by rewrite <- (length_fmap identity), Htodo, length_fmap. }
  assert (prod_map identity id <$> arr1 = prod_map identity id <$> arr) as Hid by (by apply put_entries_fmap).
  assert (rows_of (sv_inodes s) sh = rows) as Hrr by (unfold rows_of; by rewrite Hr).
  assert (forall sh', sh' ∈ shards -> of_shard (Some sh') arr1 = of_shard (Some sh') arr /\ sh' <> sh) as Ho'.
  { intros sh' Hin. assert (sh' <> sh) by (intros ->; done). split; [|done]. rewrite Ho, decide_False; congruence. }
  assert (forall sh', is_Some (sv_inodes s1 !! sh') <-> is_Some (sv_inodes s !! sh')) as Hs1.
  { intros sh'. cbn. destruct (decide (sh' = sh)) as [->|?]; [|by rewrite lookup_insert_ne].
    rewrite lookup_insert_eq. split; eauto. }
  assert (forall sh', rows_of (sv_inodes s1) sh' = if decide (sh' = sh) then todo.2 else rows_of (sv_inodes s) sh') as Hr1.
  { intros sh'. unfold rows_of at 1. cbn. destruct (decide (sh' = sh)) as [->|?]; [by rewrite lookup_insert_eq|].
    by rewrite lookup_insert_ne. }
  destruct (IH arr1 s1 Hnd) as (res & s' & E2 & Hpp & Hsome & Hrows & Hof & Hnone & Hid2).
  { rewrite <- Hsnd. by apply identity_snd. }
  { intros sh' Hin. destruct (Ho' sh' Hin) as [-> _]. split; [|apply Hs1]; apply Hex; by right. }
  exists res, s'. split; [done|]. split; [done|]. split; [intros sh'; by rewrite Hsome, Hs1|].
  split; [|split; [|split; [|congruence]]].
  - intros sh'. rewrite Hrows, Hr1. destruct (decide (sh' ∈ shards)) as [Hin|Hin].
    + destruct (Ho' sh' Hin) as [-> Hne]. rewrite decide_False by done. rewrite decide_True by (by right). done.
    + destruct (decide (sh' = sh)) as [->|Hne]; [rewrite decide_True by left; by rewrite Hrr|].
      rewrite decide_False; [done|]. intros [?|?]%elem_of_cons; done.
  - intros sh'. rewrite Hof, Hr1. destruct (decide (sh' ∈ shards)) as [Hin|Hin].
    + destruct (Ho' sh' Hin) as [-> Hne]. rewrite decide_False by done. rewrite decide_True by (by right). done.
    + rewrite Ho. destruct (decide (Some sh' = Some sh)) as [[= ->]|Hne]; [rewrite decide_True by left; by rewrite Hrr|].
      rewrite decide_False; [done|]. intros [->|?]%elem_of_cons; done.
  - rewrite Hnone, Ho. by rewrite decide_False.
Qed.
End OverShards.

(** What parsing does to an entry that is to be created and gets [ino]. *)
Definition create_info (view : Z -> string -> Z) (ino : Z) (i : MetaProcessInfo) : MetaProcessInfo * option Z :=
  if negb (bool_decide (mi_errorCode i = SUCCESS)) then (i, None)
  else match target_of view (mi_path i) with
       | None => (with_error PATH_IS_INVALID i, None)
       | Some (p, n) =>
           let v := CombineParentIdWithPartId p (HashPartId sg n) in
           let row := mi_row i in
           let i2 := new_file GetCurrentTimestamp (with_row (mkRow ino (st_dev row) (st_mode row)
                     (st_nlink row) (st_uid row) (st_gid row) (st_rdev row) (st_size row) (st_blksize row)
                     (st_blocks row) (st_atim row) (st_mtim row) (st_ctim row) (etag row)
                     (update_version row) (primary_nodeid row) (backup_nodeid row)) (with_target p v n i)) in
           match ss_lookup v with
           | Some (sh, w) => if w =? ss_local then (i2, Some sh) else (with_error WRONG_WORKER i2, None)
           | None => (i2, None)
           end
       end.

(** A path that passed the first loop of create. *)
Definition creatable (i : MetaProcessInfo) : Prop :=
  mi_errorCode i = SUCCESS -> absolute (mi_path i) /\ mi_path i <> String SLASH EmptyString.

Lemma parse_info_create i (s : srv) :
  srv_ok s -> creatable i ->
  exists ino s', parse_info sg CREATE_FLAG true (new_file GetCurrentTimestamp) i s =
      Ret (create_info (view_of (sv_pp s)) ino i) s' /\ srv_ok s' /\ same_dirs s s'.
Proof.
  intros [Hok Hag] Hc. unfold parse_info, create_info. case_bool_decide as E; simpl; [|by exists 0, s].
  destruct (Hc E) as [Habs Hroot].
  destruct (parse_create_file ss_local (mi_path i) (st_ino (mi_row i)) (sv_pp s) Habs Hok Hag) as (p' & Hag' & Hok' & Hv & Ep).
  rewrite bool_decide_eq_false_2 in Ep by done.
  unfold mbind, cmd_bind, on_pp. rewrite Ep.
  destruct (target_of (view_of (sv_pp s)) (mi_path i)) as [[p n]|]; simpl; [|by exists 0, (mkSrv p' (sv_inodes s))].
  destruct (covers (CombineParentIdWithPartId p (HashPartId sg n))) as [[sh w] Hl].
  unfold find_shard. simpl. rewrite Hl. simpl. eexists _, (mkSrv p' (sv_inodes s)). split; [|by split].
  by destruct (w =? ss_local).
Qed.

Lemma create_info_view view view' ino i :
  (forall q m, view' q m = view q m) -> create_info view' ino i = create_info view ino i.
Proof. intros H. unfold create_info. by rewrite (target_of_view view view'). Qed.

Lemma parse_infos_create infos (s : srv) :
  srv_ok s -> Forall creatable infos ->
  exists arr s', parse_infos sg CREATE_FLAG true (new_file GetCurrentTimestamp) infos s = Ret arr s' /\
    srv_ok s' /\ same_dirs s s' /\
    Forall2 (fun i x => exists ino, x = create_info (view_of (sv_pp s)) ino i) infos arr.
Proof.
  intros Hok Hall. revert s Hok. induction Hall as [|i infos Hi Hall IH]; intros s Hok; cbn [parse_infos].
  { exists [], s. split_and!; [done|done|done|constructor]. }
  destruct (parse_info_create i s Hok Hi) as (ino & s1 & E1 & Hok1 & Hv1 & Ht1).
  destruct (IH s1 Hok1) as (arr & s2 & E2 & Hok2 & [Hv2 Ht2] & Harr).
  eexists _, s2. rewrite (bind_Ret _ _ _ _ _ E1), (bind_Ret _ _ _ _ _ E2).
  split; [done|]. split; [done|]. split.
  { split; [|congruence]. intros q m. by rewrite Hv2, Hv1. }
  constructor; [by exists ino|]. eapply Forall2_impl; [exact Harr|]. intros x y [ino' ->]. exists ino'.
  by apply create_info_view.
Qed.

Lemma verify_paths_creatable infos :
  Forall creatable (verify_paths pg_qsort VERIFY_PATH_VALIDITY_REQUIREMENT_MUST_BE_FILE infos).
Proof.
  unfold verify_paths. rewrite pg_qsort_perm. apply Forall_fmap, Forall_true. intros i H. split.
  - exact (verify_absolute _ _ H).
  - intros E. cbn in E, H. by rewrite E in H.
Qed.

(** *** What a path calls for *)

(** The answer for an entry by its path alone, and [Q] where the entry is in a
    shard of this server. *)
Definition path_answer (req : Z) (view : Z -> string -> Z) (Q : Z -> MetaProcessInfo -> Prop) (i : MetaProcessInfo) : Prop :=
  match (VerifyPathValidity (mi_path i) req).1 with
  | SUCCESS =>
      match target_of view (mi_path i) with
      | None => mi_errorCode i = PATH_IS_INVALID
      | Some (p, n) =>
          let v := CombineParentIdWithPartId p (HashPartId sg n) in
          exists sh w, ss_lookup v = Some (sh, w) /\
            if w =? ss_local then info_key i = (v, n) /\ Q sh i else mi_errorCode i = WRONG_WORKER
      end
  | e => mi_errorCode i = e
  end.

(** An entry after the second loop, on the list of a shard or on none. *)
Definition placed (req : Z) (view : Z -> string -> Z) (x : MetaProcessInfo * option Z) : Prop :=
  match x.2 with
  | Some sh =>
      mi_errorCode x.1 = SUCCESS /\ ss_lookup (mi_parentId_partId x.1) = Some (sh, ss_local) /\
      forall i (Q : Z -> MetaProcessInfo -> Prop), identity i = identity x.1 -> Q sh i -> path_answer req view Q i
  | None => mi_errorCode x.1 <> SUCCESS /\ forall Q, path_answer req view Q x.1
  end.

Lemma placed_local req view i p n sh (Q : Z -> MetaProcessInfo -> Prop) i' :
  (VerifyPathValidity (mi_path i) req).1 = SUCCESS -> target_of view (mi_path i) = Some (p, n) ->
  ss_lookup (CombineParentIdWithPartId p (HashPartId sg n)) = Some (sh, ss_local) ->
  identity i' = (mi_path i, (CombineParentIdWithPartId p (HashPartId sg n), n)) -> Q sh i' -> path_answer req view Q i'.
Proof.
  intros Hv Ht Hl Hid HQ. unfold identity in Hid. injection Hid as Hp Hk1 Hk2. unfold path_answer. rewrite Hp, Hv, Ht.
  exists sh, ss_local. split; [done|]. rewrite Z.eqb_refl. split; [|done]. unfold info_key. congruence.
Qed.

Lemma path_answer_failed req view Q i :
  (VerifyPathValidity (mi_path i) req).1 = mi_errorCode i -> mi_errorCode i <> SUCCESS -> path_answer req view Q i.
Proof. intros Hv He. unfold path_answer. rewrite Hv. by destruct (mi_errorCode i). Qed.

Lemma create_info_placed view ino i :
  mi_errorCode i = (VerifyPathValidity (mi_path i) VERIFY_PATH_VALIDITY_REQUIREMENT_MUST_BE_FILE).1 ->
  placed VERIFY_PATH_VALIDITY_REQUIREMENT_MUST_BE_FILE view (create_info view ino i).
Proof.
  intros He. unfold create_info. case_bool_decide as Hs; cbn [negb].
  2:{ split; [done|]. intros Q. by apply path_answer_failed. }
  rewrite Hs in He. symmetry in He. destruct (target_of view (mi_path i)) as [[p n]|] eqn:Ht.
  - destruct (covers (CombineParentIdWithPartId p (HashPartId sg n))) as [[sh w] Hl]. rewrite Hl.
    destruct (Z.eqb_spec w ss_local) as [->|Hw].
    + split; [done|]. split; [done|]. intros i' Q Hid HQ. by eapply (placed_local _ _ i).
    + split; [done|]. intros Q. unfold path_answer. cbn [mi_path fst with_error with_row with_target new_file].
      rewrite He, Ht. exists sh, w. by rewrite (proj2 (Z.eqb_neq w ss_local) Hw).
  - split; [done|]. intros Q. unfold path_answer. cbn [mi_path fst with_error]. by rewrite He, Ht.
Qed.

Lemma lookup_info_placed req view i :
  mi_errorCode i = (VerifyPathValidity (mi_path i) req).1 -> placed req view (lookup_info view i).
Proof.
  intros He. unfold lookup_info. case_bool_decide as Hs; cbn [negb].
  2:{ split; [done|]. intros Q. by apply path_answer_failed. }
  rewrite Hs in He. symmetry in He. destruct (target_of view (mi_path i)) as [[p n]|] eqn:Ht.
  - destruct (covers (CombineParentIdWithPartId p (HashPartId sg n))) as [[sh w] Hl]. rewrite Hl.
    destruct (Z.eqb_spec w ss_local) as [->|Hw].
    + split; [done|]. split; [done|]. intros i' Q Hid HQ. by eapply (placed_local _ _ i).
    + split; [done|]. intros Q. unfold path_answer. cbn [mi_path fst with_error with_target].
      rewrite He, Ht. exists sh, w. by rewrite (proj2 (Z.eqb_neq w ss_local) Hw).
  - split; [done|]. intros Q. unfold path_answer. cbn [mi_path fst with_error]. by rewrite He, Ht.
Qed.

Lemma of_shard_elem o arr i : i ∈ of_shard o arr <-> (i, o) ∈ arr.
Proof.
  unfold of_shard. rewrite list_elem_of_fmap. split.
  - intros ([i' o'] & -> & Hin). apply list_elem_of_filter in Hin as [Ho Hin]. cbn in *. by subst.
  - intros Hin. exists (i, o). split; [done|]. by apply list_elem_of_filter.
Qed.

(** An entry of the result stands for one of the parsed list. *)
Lemma identity_elem (arr res : list (MetaProcessInfo * option Z)) i o :
  prod_map identity id <$> res = prod_map identity id <$> arr -> (i, o) ∈ res ->
  exists i', (i', o) ∈ arr /\ identity i' = identity i.
Proof.
  intros E Hin. apply (list_elem_of_fmap_2 (prod_map identity id)) in Hin. rewrite E in Hin.
  apply list_elem_of_fmap in Hin as ([i' o'] & Hx & Hin). pose proof (f_equal snd Hx) as H2. cbn in H2. subst o'.
  exists i'. split; [done|]. symmetry. exact (f_equal fst Hx).
Qed.

(** Every shard's entries are handled in turn. *)
Definition all_in_turn (g : MetaProcessInfo -> gmap (Z * string) inode_row -> MetaProcessInfo * gmap (Z * string) inode_row)
    (arr res : list (MetaProcessInfo * option Z)) (t t' : inode_shards) : Prop :=
  (forall sh, rows_of t' sh = (in_turn g (of_shard (Some sh) arr) (rows_of t sh)).2) /\
  (forall sh, of_shard (Some sh) res = (in_turn g (of_shard (Some sh) arr) (rows_of t sh)).1) /\
  of_shard None res = of_shard None arr /\
  prod_map identity id <$> res = prod_map identity id <$> arr.

Lemma handled_all_in_turn g arr res t t' :
  handled_all g (batch_shards hash_order arr) arr res t t' -> all_in_turn g arr res t t'.
Proof.
  intros (Hrows & Hof & Hnone & Hid).
  assert (forall sh, sh ∉ batch_shards hash_order arr -> of_shard (Some sh) arr = []) as Hno.
  { intros sh Hn. apply elem_of_nil_inv. intros i (k & Hk)%of_shard_elem%list_elem_of_lookup_1.
    apply Hn, batch_shards_elem. eauto. }
  split; [|split; [|done]]; intros sh.
  - rewrite Hrows. case_decide as Hd; [done|]. by rewrite Hno.
  - rewrite Hof. case_decide as Hd; [done|]. by rewrite Hno.
Qed.

Lemma batch_shards_NoDup arr : NoDup (batch_shards hash_order arr).
Proof. unfold batch_shards. rewrite hash_order_perm. apply NoDup_remove_dups. Qed.

Lemma create_shards_over fuel shards arr (s : srv) :
  create_shards fuel false shards arr s = over_shards (create_shard fuel false) shards arr s.
Proof.
  revert arr s. induction shards as [|sh shards IH]; intros arr s; [done|]. cbn [create_shards over_shards].
  unfold mbind, cmd_bind. destruct (create_shard fuel false sh arr s); [apply IH|done|done].
Qed.

Lemma create_shard_spec fuel sh arr (s : srv) rows :
  Forall (fun i => mi_errorCode i = SUCCESS) (of_shard (Some sh) arr) ->
  sv_inodes s !! sh = Some rows -> (2 * length arr <= fuel)%nat ->
  create_shard fuel false sh arr s = Ret
    (put_entries (shard_entries arr sh)
       ((fun i => (i, Some sh)) <$> (in_turn create_one (of_shard (Some sh) arr) rows).1) arr)
    (mkSrv (sv_pp s) (<[sh := (in_turn create_one (of_shard (Some sh) arr) rows).2]> (sv_inodes s))).
Proof.
  intros Hall Hr Hf. unfold create_shard. rewrite Hr, shard_entries_todo.
  pose proof (of_shard_length (Some sh) arr) as Hl.
  rewrite create_group_seq; [by destruct (in_turn create_one _ rows)|by apply marks_ok_fresh|].
  unfold unmarked. pose proof (count_if_length (fun i => bool_decide (mi_errorCode i = SUCCESS)) (of_shard (Some sh) arr)). lia.
Qed.

Lemma create_shards_all fuel arr (s : srv) req view :
  tables_ok (sv_inodes s) -> (forall x, x ∈ arr -> placed req view x) -> (2 * length arr <= fuel)%nat ->
  exists res s', create_shards fuel false (batch_shards hash_order arr) arr s = Ret res s' /\ sv_pp s' = sv_pp s /\
    tables_ok (sv_inodes s') /\ all_in_turn create_one arr res (sv_inodes s) (sv_inodes s').
Proof.
  intros Ht Hparsed Hf. rewrite create_shards_over.
  destruct (over_shards_spec create_one create_one_identity (create_shard fuel false) arr) with
    (shards := batch_shards hash_order arr) (arr := arr) (s := s) as (res & s' & E & Hpp & Hsome & Hall); [| | |..].
  { intros sh arr' s1 rows Hsnd Hof Hr. apply create_shard_spec; [|done|].
    - rewrite Hof. apply Forall_forall. by intros i [Hi _]%of_shard_elem%Hparsed.
    - by rewrite <- (length_fmap snd), Hsnd, length_fmap. }
  { apply batch_shards_NoDup. }
  { done. }
  { intros sh (k & i & Hk)%batch_shards_elem. split; [done|]. apply list_elem_of_lookup_2, Hparsed in Hk.
    destruct Hk as (_ & Hl & _). by eapply Ht. }
  exists res, s'. split; [done|]. split; [done|]. split; [|by apply handled_all_in_turn].
  intros v sh Hl. apply Hsome. by eapply Ht.
Qed.

(** Values grouped so that equal ones share their group differ when they do
    within each group. *)
Lemma NoDup_by_group {A K G} `{EqDecision G} (g : A -> K) (grp : A -> G) l :
  (forall o, NoDup (g <$> filter (fun x => grp x = o) l)) ->
  (forall x y, x ∈ l -> y ∈ l -> g x = g y -> grp x = grp y) -> NoDup (g <$> l).
Proof.
  induction l as [|x l IH]; intros Hn Hg; [constructor|]. rewrite fmap_cons. apply NoDup_cons. split.
  - intros (y & Hy & Hin)%list_elem_of_fmap. specialize (Hn (grp x)).
    rewrite filter_cons, decide_True, fmap_cons in Hn by done. apply NoDup_cons in Hn as [Hn _]. apply Hn.
    rewrite Hy. apply list_elem_of_fmap_2, list_elem_of_filter. split; [|done].
    symmetry. apply Hg; [left|by right|done].
  - apply IH; [|intros; apply Hg; by try right]. intros o. specialize (Hn o). rewrite filter_cons in Hn.
    destruct (decide (grp x = o)); [|done]. rewrite fmap_cons in Hn. by apply NoDup_cons in Hn as [_ Hn].
Qed.

Lemma succeeded_fst (l : list (MetaProcessInfo * option Z)) :
  succeeded l.*1 = (filter (fun x => mi_errorCode x.1 = SUCCESS) l).*1.
Proof.
  unfold succeeded. induction l as [|x l IH]; [done|]. rewrite fmap_cons, !filter_cons, IH. by destruct (decide _).
Qed.

Lemma succeeded_of_shard o (l : list (MetaProcessInfo * option Z)) :
  succeeded (of_shard o l) = (filter (fun x => x.2 = o) (filter (fun x => mi_errorCode x.1 = SUCCESS) l)).*1.
Proof.
  unfold succeeded, of_shard. induction l as [|x l IH]; [done|]. rewrite !filter_cons.
  destruct (decide (x.2 = o)) as [Ho|Ho], (decide (mi_errorCode x.1 = SUCCESS)) as [Hs|Hs];
    rewrite ?fmap_cons, ?filter_cons, ?(decide_True _ _ Ho), ?(decide_False _ _ Ho), ?(decide_True _ _ Hs),
      ?(decide_False _ _ Hs), ?fmap_cons, IH; done.
Qed.

Section Results.
Context (req : Z) (view : Z -> string -> Z).
Context (g : MetaProcessInfo -> gmap (Z * string) inode_row -> MetaProcessInfo * gmap (Z * string) inode_row).
Context (arr res : list (MetaProcessInfo * option Z)) (t t' : inode_shards).
Context (Hparsed : forall x, x ∈ arr -> placed req view x) (Hall : all_in_turn g arr res t t').

Lemma todo_success sh : Forall (fun i => mi_errorCode i = SUCCESS) (of_shard (Some sh) arr).
Proof. apply Forall_forall. by intros i [Hi _]%of_shard_elem%Hparsed. Qed.

(** The entry of a shard is at home there. *)
Lemma result_local i sh :
  (i, Some sh) ∈ res ->
  ss_lookup (info_key i).1 = Some (sh, ss_local) /\
  forall (Q : Z -> MetaProcessInfo -> Prop), Q sh i -> path_answer req view Q i.
Proof.
  intros Hin. destruct Hall as (_ & _ & _ & Hid).
  destruct (identity_elem arr res i (Some sh) Hid Hin) as (i' & Hi' & Heq).
  apply Hparsed in Hi' as (_ & Hl & Hp). cbn in *. split.
  - unfold identity, info_key in Heq. cbn. congruence.
  - intros Q HQ. apply Hp; [by symmetry|done].
Qed.

Lemma result_error i : (i, None) ∈ res -> mi_errorCode i <> SUCCESS /\ forall Q, path_answer req view Q i.
Proof.
  intros Hin. destruct Hall as (_ & _ & Hnone & _). apply of_shard_elem in Hin. rewrite Hnone in Hin.
  by apply of_shard_elem, Hparsed in Hin.
Qed.

Lemma result_answers (Q : Z -> MetaProcessInfo -> Prop) :
  (forall sh, Forall (Q sh) (in_turn g (of_shard (Some sh) arr) (rows_of t sh)).1) -> Forall (path_answer req view Q) res.*1.
Proof.
  intros HQ. apply Forall_forall. intros i ([i' o] & -> & Hin)%list_elem_of_fmap. cbn.
  destruct o as [sh|]; [|by apply result_error].
  apply (result_local i' sh Hin). destruct Hall as (_ & Hof & _). apply of_shard_elem in Hin. rewrite Hof in Hin.
  exact (proj1 (Forall_forall _ _) (HQ sh) i' Hin).
Qed.

Lemma result_NoDup :
  (forall sh, NoDup (info_key <$> succeeded (in_turn g (of_shard (Some sh) arr) (rows_of t sh)).1)) ->
  NoDup (info_key <$> succeeded res.*1).
Proof.
  intros Hg. rewrite succeeded_fst, <- list_fmap_compose. apply (NoDup_by_group _ snd).
  - intros o. rewrite list_fmap_compose, <- succeeded_of_shard. destruct Hall as (_ & Hof & _). destruct o as [sh|].
    + by rewrite Hof.
    + replace (succeeded (of_shard None res)) with (@nil MetaProcessInfo); [constructor|].
      symmetry. apply elem_of_nil_inv. intros i [Hs Hi]%list_elem_of_filter.
      apply of_shard_elem, result_error in Hi as [? _]. done.
  - intros [i o] [i' o'] [Hs Hi]%list_elem_of_filter [Hs' Hi']%list_elem_of_filter Hk.
    cbn [fst snd compose] in Hs, Hs', Hk |- *.
    destruct o as [sh|]; [|by apply result_error in Hi as [? _]].
    destruct o' as [sh'|]; [|by apply result_error in Hi' as [? _]].
    apply result_local in Hi as [Hl1 _], Hi' as [Hl2 _]. unfold compose in Hk. cbn [fst] in Hk. congruence.
Qed.

Lemma result_succeeded sh i :
  i ∈ succeeded (in_turn g (of_shard (Some sh) arr) (rows_of t sh)).1 -> i ∈ succeeded res.*1.
Proof.
  destruct Hall as (_ & Hof & _). rewrite <- Hof. intros [Hs Hi]%list_elem_of_filter. apply list_elem_of_filter.
  split; [done|]. apply of_shard_elem in Hi. by apply (list_elem_of_fmap_2 fst) in Hi.
Qed.
End Results.

(** A file has one link, a directory two. *)
Definition link_ok (r : inode_row) : Prop := st_nlink r = if S_ISREG (st_mode r) then 1 else 2.
Definition links_ok (t : inode_shards) : Prop :=
  forall sh k r, rows_of t sh !! k = Some r -> link_ok r.

Lemma create_seq_succeeded todo rows i : i ∈ succeeded (in_turn create_one todo rows).1 -> i ∈ todo.
Proof.
  revert rows. induction todo as [|x todo IH]; intros rows Hi; cbn [in_turn] in Hi; [done|].
  unfold create_one in Hi at 1. destruct (rows !! info_key x) as [r|].
  - specialize (IH rows). destruct (in_turn create_one todo rows) as [d rows']. cbn [fst] in *.
    unfold succeeded in Hi. rewrite filter_cons, decide_False in Hi by done. right. by apply IH.
  - specialize (IH (<[info_key x:=create_row x]> rows)). destruct (in_turn create_one todo _) as [d rows']. cbn [fst] in *.
    apply list_elem_of_filter in Hi as [Hs [->|Hi]%elem_of_cons]; [left|right]. apply IH, list_elem_of_filter. done.
Qed.

(** Entries to be created have the mode of a file. *)
Definition new_mode (x : MetaProcessInfo * option Z) : Prop :=
  is_Some x.2 -> st_mode (mi_row x.1) = Z.lor S_IFREG 0x1A4.

Lemma create_info_mode view ino i : new_mode (create_info view ino i).
Proof. unfold create_info, new_mode. repeat case_match; try done; by intros []. Qed.

Lemma parsed_list infos arr view :
  Forall2 (fun i x => exists ino, x = create_info view ino i)
    (verify_paths pg_qsort VERIFY_PATH_VALIDITY_REQUIREMENT_MUST_BE_FILE infos) arr ->
  (forall x, x ∈ arr -> placed VERIFY_PATH_VALIDITY_REQUIREMENT_MUST_BE_FILE view x) /\
  mi_path <$> arr.*1 ≡ₚ mi_path <$> infos /\ length arr = length infos /\ Forall new_mode arr.
Proof.
  intros Harr. split; [|split; [|split]].
  - intros x [k Hk]%list_elem_of_lookup. destruct (Forall2_lookup_r _ _ _ _ _ Harr Hk) as (i & Hi & ino & ->).
    apply create_info_placed. apply list_elem_of_lookup_2 in Hi. unfold verify_paths in Hi.
    rewrite pg_qsort_perm in Hi. by apply list_elem_of_fmap in Hi as (i0 & -> & _).
  - assert (mi_path <$> arr.*1 = mi_path <$> verify_paths pg_qsort VERIFY_PATH_VALIDITY_REQUIREMENT_MUST_BE_FILE infos) as ->.
    { induction Harr as [|i x is' xs [ino ->] H IH]; [done|]. rewrite !fmap_cons, IH. f_equal.
      unfold create_info. repeat case_match; done. }
    unfold verify_paths. by rewrite pg_qsort_perm, <- list_fmap_compose.
  - rewrite <- (Forall2_length _ _ _ Harr). unfold verify_paths. by rewrite pg_qsort_perm, length_fmap.
  - apply Forall_forall. intros x [k Hk]%list_elem_of_lookup.
    destruct (Forall2_lookup_r _ _ _ _ _ Harr Hk) as (i & Hi & ino & ->). apply create_info_mode.
Qed.

(** C16: create is a sequence of insertions.  A batch of any size is handled in
    a bounded number of sub-transactions, also when entries exist already or a
    path occurs more than once; each entry is answered by what its path calls
    for, a new row is inserted for exactly one entry of each path that did not
    exist, every other entry reports the row that is there, and no other row
    changes. *)
Theorem FalconCreateHandle_correct fuel infos (s : srv) :
  srv_ok s -> tables_ok (sv_inodes s) -> (2 * length infos <= fuel)%nat ->
  exists res s', FalconCreateHandle sg GetCurrentTimestamp pg_qsort hash_order fuel false infos s = Ret res s' /\
    srv_ok s' /\ tables_ok (sv_inodes s') /\ mi_path <$> res ≡ₚ mi_path <$> infos /\
    Forall (path_answer VERIFY_PATH_VALIDITY_REQUIREMENT_MUST_BE_FILE (view_of (sv_pp s))
      (fun sh => entry_created (rows_of (sv_inodes s) sh) (rows_of (sv_inodes s') sh))) res /\
    NoDup (info_key <$> succeeded res) /\
    (forall sh k r, rows_of (sv_inodes s') sh !! k = Some r ->
       rows_of (sv_inodes s) sh !! k = Some r \/
       rows_of (sv_inodes s) sh !! k = None /\ exists i, i ∈ succeeded res /\ info_key i = k /\ r = create_row i) /\
    (links_ok (sv_inodes s) -> links_ok (sv_inodes s')).
Proof.
  intros Hok Ht Hf. set (ver := verify_paths pg_qsort VERIFY_PATH_VALIDITY_REQUIREMENT_MUST_BE_FILE infos).
  destruct (parse_infos_create ver s Hok (verify_paths_creatable infos)) as (arr & s1 & E1 & Hok1 & [_ Hi1] & Harr).
  destruct (parsed_list infos arr (view_of (sv_pp s)) Harr) as (Hparsed & Hpaths & Hlen & Hmode).
  rewrite <- Hi1 in Ht |- *.
  destruct (create_shards_all fuel arr s1 _ (view_of (sv_pp s)) Ht Hparsed) as (res & s' & E2 & Hpp & Ht' & Hall); [lia|].
  exists res.*1, s'. split; [|split; [|split; [done|split; [|split; [|split; [|split]]]]]].
  - unfold FalconCreateHandle. fold ver. by rewrite (bind_Ret _ _ _ _ _ E1), (bind_Ret _ _ _ _ _ E2).
  - unfold srv_ok. by rewrite Hpp.
  - rewrite <- Hpaths. destruct Hall as (_ & _ & _ & Hid).
    apply (f_equal (fmap (fun x => fst (fst x)))) in Hid. rewrite <- !list_fmap_compose in Hid.
    rewrite <- !list_fmap_compose. by apply reflexive_eq.
  - eapply (result_answers _ _ create_one arr); [done|done|]. intros sh. destruct Hall as [-> _].
    eapply create_seq_spec, todo_success. done.
  - eapply (result_NoDup _ _ create_one arr); [done|done|]. intros sh. eapply create_seq_spec, todo_success. done.
  - intros sh k r Hk. pose proof (proj1 Hall sh) as Hr. rewrite Hr in Hk.
    apply create_seq_spec in Hk as [Hk|(Hk & i & Hi & He)]; [by left| |by eapply todo_success].
    right. split; [done|]. exists i. split; [|done]. by eapply result_succeeded.
  - intros Hl sh k r Hk. rewrite (proj1 Hall sh) in Hk.
    apply create_seq_spec in Hk as [Hk|(Hk & i & Hi & _ & ->)]; [by eapply Hl| |by eapply todo_success].
    apply create_seq_succeeded, of_shard_elem in Hi. unfold link_ok. cbn.
    pose proof (proj1 (Forall_forall _ _) Hmode _ Hi ltac:(eauto)) as Hm. cbn in Hm. by rewrite Hm.
Qed.

(** ** The other batches, entry after entry *)

Section HandleInTurn.
Context (op : Z -> MetaProcessInfo -> cmd inode_shards MetaProcessInfo).
Context (g : MetaProcessInfo -> gmap (Z * string) inode_row -> MetaProcessInfo * gmap (Z * string) inode_row).
Context (g_identity : forall i rows, identity (g i rows).1 = identity i).
Context (op_spec : forall sh i (t : inode_shards) rows, t !! sh = Some rows ->
  op sh i t = Ret (g i rows).1 (<[sh := (g i rows).2]> t)).

Lemma handle_entries_in_turn sh ks arr (s : srv) rows :
  NoDup ks -> (forall k, k ∈ ks -> exists i, arr !! k = Some (i, Some sh)) -> sv_inodes s !! sh = Some rows ->
  handle_entries op ks arr s = Ret
    (put_entries ks ((fun i => (i, Some sh)) <$> (in_turn g (omap (fun k => fst <$> arr !! k) ks) rows).1) arr)
    (mkSrv (sv_pp s) (<[sh := (in_turn g (omap (fun k => fst <$> arr !! k) ks) rows).2]> (sv_inodes s))).
Proof.
  revert arr s rows. induction ks as [|k ks IH]; intros arr s rows Hnd Hks Hr; cbn [handle_entries omap list_omap].
  { cbn. rewrite insert_id by done. by destruct s. }
  apply NoDup_cons in Hnd as [Hk Hnd]. destruct (Hks k) as [i Hi]; [left|]. rewrite Hi. cbn [fmap option_fmap option_map fst].
  unfold mbind, cmd_bind, on_inodes. rewrite (op_spec sh i _ rows Hr). cbn [in_turn].
  destruct (g i rows) as [i' rows1] eqn:Eg. cbn [fst snd].
  rewrite (IH _ _ rows1 Hnd); cbn [sv_pp sv_inodes].
  - assert (omap (fun k0 => fst <$> <[k:=(i', Some sh)]> arr !! k0) ks = omap (fun k0 => fst <$> arr !! k0) ks) as ->.
    { clear -Hk. induction ks as [|k' ks IH]; [done|]. apply not_elem_of_cons in Hk as [Hne Hk]. cbn.
      rewrite list_lookup_insert_ne by done. by rewrite IH. }
    rewrite insert_insert_eq. by destruct (in_turn g _ rows1).
  - intros k' Hk'. destruct (Hks k') as [i1 Hi1]; [by right|]. exists i1.
    rewrite list_lookup_insert_ne; [done|]. intros ->. done.
  - apply lookup_insert_eq.
Qed.

Lemma handle_entries_app o1 o2 arr (s : srv) :
  handle_entries op (o1 ++ o2) arr s = (arr' ← handle_entries op o1 arr; handle_entries op o2 arr') s.
Proof.
  revert arr s. induction o1 as [|k o1 IH]; intros arr s; [done|]. cbn [app handle_entries].
  destruct (arr !! k) as [[i [sh|]]|]; [|apply IH|apply IH].
  unfold mbind, cmd_bind in *. destruct (on_inodes _ s); [apply IH|done|done].
Qed.

Lemma handle_entries_over arr0 shards arr (s : srv) :
  handle_entries op (concat (shard_entries arr0 <$> shards)) arr s =
    over_shards (fun sh => handle_entries op (shard_entries arr0 sh)) shards arr s.
Proof.
  revert arr s. induction shards as [|sh shards IH]; intros arr s; [done|].
  rewrite fmap_cons. cbn [concat over_shards]. rewrite handle_entries_app.
  unfold mbind, cmd_bind. destruct (handle_entries _ _ _ s); [apply IH|done|done].
Qed.

Lemma shard_entries_snd arr arr' sh : snd <$> arr' = snd <$> arr -> shard_entries arr' sh = shard_entries arr sh.
Proof.
  intros H. unfold shard_entries. assert (length arr' = length arr) as -> by (by rewrite <- (length_fmap snd), H, length_fmap).
  apply list_filter_iff. intros k. assert (arr' !! k ≫= snd = arr !! k ≫= snd) as ->; [|done].
  pose proof (f_equal (.!! k) H) as Hk. rewrite !list_lookup_fmap in Hk.
  destruct (arr' !! k), (arr !! k); cbn in *; congruence.
Qed.

(** A batch, when each entry is handled as [g] says. *)
Lemma batch_handle_in_turn req infos (s : srv) :
  srv_ok s -> tables_ok (sv_inodes s) ->
  exists res s' arr, batch_handle sg pg_qsort hash_order req 0 op infos s = Ret res.*1 s' /\ srv_ok s' /\
    tables_ok (sv_inodes s') /\ mi_path <$> res.*1 ≡ₚ mi_path <$> infos /\
    (forall x, x ∈ arr -> placed req (view_of (sv_pp s)) x) /\ all_in_turn g arr res (sv_inodes s) (sv_inodes s').
Proof.
  intros Hok Ht.
  destruct (parse_infos_lookup (verify_paths pg_qsort req infos) s Hok (verify_paths_absolute req infos))
    as (s1 & E1 & Hok1 & Hv & Hi). set (arr := lookup_info _ <$> _) in E1. rewrite <- Hi in Ht |- *.
  assert (forall x, x ∈ arr -> placed req (view_of (sv_pp s)) x) as Hpl.
  { intros x (i & -> & Hx)%list_elem_of_fmap. apply lookup_info_placed. unfold verify_paths in Hx.
    rewrite pg_qsort_perm in Hx. by apply list_elem_of_fmap in Hx as (i0 & -> & _). }
  destruct (over_shards_spec g g_identity (fun sh => handle_entries op (shard_entries arr sh)) arr) with
    (shards := batch_shards hash_order arr) (arr := arr) (s := s1) as (res & s' & E2 & Hpp & Hsome & Hall).
  { intros sh arr' s2 rows Hsnd Hof Hr. rewrite <- shard_entries_todo, (shard_entries_snd arr arr' sh Hsnd).
    apply handle_entries_in_turn; [apply NoDup_filter, NoDup_seq| |done]. intros k Hk.
    rewrite <- (shard_entries_snd arr arr' sh Hsnd) in Hk. by apply shard_entries_elem in Hk. }
  { apply batch_shards_NoDup. }
  { done. }
  { intros sh (k & i & Hk)%batch_shards_elem. split; [done|]. apply list_elem_of_lookup_2, Hpl in Hk as (_ & Hl & _).
    by eapply Ht. }
  rewrite <- handle_entries_over in E2.
  exists res, s', arr. split; [|split; [|split; [|split; [|split; [done|by apply handled_all_in_turn]]]]].
  - unfold batch_handle. by rewrite (bind_Ret _ _ _ _ _ E1), (bind_Ret _ _ _ _ _ E2).
  - unfold srv_ok. by rewrite Hpp.
  - intros v sh Hl. apply Hsome. by eapply Ht.
  - destruct Hall as (_ & _ & _ & Hid). apply (f_equal (fmap (fun x => fst (fst x)))) in Hid.
    rewrite <- !list_fmap_compose in Hid. rewrite <- list_fmap_compose.
    transitivity (mi_path <$> arr.*1); [rewrite <- list_fmap_compose; by apply reflexive_eq|].
    transitivity (mi_path <$> verify_paths pg_qsort req infos).
    + apply reflexive_eq. unfold arr. rewrite <- !list_fmap_compose. apply list_fmap_ext. intros _ i _. cbn.
      unfold lookup_info. repeat case_match; done.
    + unfold verify_paths. by rewrite pg_qsort_perm, <- list_fmap_compose.
Qed.
End HandleInTurn.

(** ** Unlink *)

Definition unlink_args : update_args :=
  mkArgs true None false (Some (-1)) (Some MODE_CHECK_MUST_BE_FILE) None None None None None None None.

(** The reference for one entry. *)
Definition unlink_one (i : MetaProcessInfo) (rows : gmap (Z * string) inode_row)
    : MetaProcessInfo * gmap (Z * string) inode_row :=
  match unlink_entry 0 i {[ 0 := rows ]} with
  | Ret i' t => (i', rows_of t 0)
  | _ => (i, rows)
  end.

Lemma unlink_entry_one (sh : Z) (i : MetaProcessInfo) (t : inode_shards) (rows : gmap (Z * string) inode_row) :
  t !! sh = Some rows -> unlink_entry sh i t = Ret (unlink_one i rows).1 (<[sh := (unlink_one i rows).2]> t).
Proof.
  intros Ht. unfold unlink_one, unlink_entry, mbind, cmd_bind, SearchAndUpdateInodeTableInfo. fold unlink_args.
  rewrite Ht, lookup_singleton_eq. destruct (rows !! info_key i) as [r|].
  2:{ cbn. unfold rows_of. rewrite lookup_singleton_eq. cbn. by rewrite insert_id. }
  assert (removes unlink_args r && needs_update unlink_args r = false) as Hx.
  { unfold removes, needs_update. cbn. by destruct (u64 (st_nlink r + -1) =? 0). }
  destruct (wrong_type unlink_args r); [by cbn; unfold rows_of; rewrite lookup_insert_eq|].
  destruct (needs_update unlink_args r); cbn [andb doUpdate unlink_args].
  - rewrite andb_true_r in Hx. rewrite Hx. cbn. unfold rows_of. by rewrite lookup_insert_eq.
  - cbn. unfold rows_of. by rewrite lookup_insert_eq.
Qed.

Lemma unlink_one_identity i rows : identity (unlink_one i rows).1 = identity i.
Proof.
  unfold unlink_one, unlink_entry, mbind, cmd_bind, SearchAndUpdateInodeTableInfo. rewrite lookup_singleton_eq.
  fold unlink_args. destruct (rows !! info_key i) as [r|]; [|done].
  destruct (wrong_type unlink_args r), (needs_update unlink_args r), (removes unlink_args r); done.
Qed.

(** What unlink reports of the row it found. *)
Definition unlinked (r : inode_row) (i : MetaProcessInfo) : Prop :=
  st_ino (mi_row i) = st_ino r /\ st_size (mi_row i) = st_size r /\ primary_nodeid (mi_row i) = primary_nodeid r.

Lemma unlink_one_spec (i : MetaProcessInfo) (rows : gmap (Z * string) inode_row) :
  (forall r, rows !! info_key i = Some r -> link_ok r) ->
  exists i', info_key i' = info_key i /\
  match rows !! info_key i with
  | None => unlink_one i rows = (i', rows) /\ mi_errorCode i' = FILE_NOT_EXISTS
  | Some r =>
      if S_ISREG (st_mode r) then unlink_one i rows = (i', delete (info_key i) rows) /\ mi_errorCode i' = SUCCESS /\ unlinked r i'
      else unlink_one i rows = (i', rows) /\ mi_errorCode i' = PATH_VERIFY_FAILED
  end.
Proof.
  intros Hl. exists (unlink_one i rows).1. split.
  { pose proof (f_equal snd (unlink_one_identity i rows)) as H. exact H. }
  destruct (rows !! info_key i) as [r|] eqn:Er.
  2:{ unfold unlink_one, unlink_entry, mbind, cmd_bind, SearchAndUpdateInodeTableInfo.
      rewrite lookup_singleton_eq, Er. cbn. unfold rows_of. by rewrite lookup_singleton_eq. }
  specialize (Hl r eq_refl). unfold link_ok in Hl. unfold unlink_one, unlink_entry, mbind, cmd_bind, SearchAndUpdateInodeTableInfo.
  rewrite lookup_singleton_eq, Er. unfold removes, wrong_type, needs_update, rows_of. cbn [wantMode doUpdate nlinkChange andb].
  destruct (S_ISREG (st_mode r)) eqn:Em; rewrite Hl; cbn [negb].
  - change (u64 (1 + -1) =? 0) with true. cbn. rewrite lookup_insert_eq, Em, Hl. done.
  - change (u64 (2 + -1) =? 0) with false. cbn. rewrite lookup_insert_eq, Em. done.
Qed.

(** What the batch answers for an entry, and the rows it leaves. *)
Definition entry_unlinked (rows rows' : gmap (Z * string) inode_row) (i : MetaProcessInfo) : Prop :=
  match rows !! info_key i with
  | None => mi_errorCode i = FILE_NOT_EXISTS /\ rows' !! info_key i = None
  | Some r =>
      if S_ISREG (st_mode r)
      then rows' !! info_key i = None /\
           (mi_errorCode i = SUCCESS /\ unlinked r i \/ mi_errorCode i = FILE_NOT_EXISTS)
      else mi_errorCode i = PATH_VERIFY_FAILED /\ rows' !! info_key i = Some r
  end.

(** The rows that are left: those not reported as unlinked. *)
Definition rows_unlinked (rows rows' : gmap (Z * string) inode_row) (done : list MetaProcessInfo) : Prop :=
  forall k, rows' !! k = rows !! k \/
    rows' !! k = None /\ exists r i, rows !! k = Some r /\ S_ISREG (st_mode r) = true /\ i ∈ done /\ info_key i = k.

Lemma unlink_cases (i : MetaProcessInfo) (rows : gmap (Z * string) inode_row) :
  (forall k r, rows !! k = Some r -> link_ok r) ->
  exists i',
    unlink_one i rows = (i', rows) /\ mi_errorCode i' <> SUCCESS /\
    match rows !! info_key i' with
    | None => mi_errorCode i' = FILE_NOT_EXISTS
    | Some r => S_ISREG (st_mode r) = false /\ mi_errorCode i' = PATH_VERIFY_FAILED
    end \/
    exists r, unlink_one i rows = (i', delete (info_key i') rows) /\ rows !! info_key i' = Some r /\
      S_ISREG (st_mode r) = true /\ mi_errorCode i' = SUCCESS /\ unlinked r i'.
Proof.
  intros Hl. destruct (unlink_one_spec i rows (Hl _)) as (i' & Hk & H). exists i'.
  rewrite <- Hk in H. destruct (rows !! info_key i') as [r|] eqn:Er; [destruct (S_ISREG (st_mode r)) eqn:Em|].
  - destruct H as (-> & Hs & Hu). right. exists r. done.
  - destruct H as [-> He]. left. by rewrite He.
  - destruct H as [-> He]. left. by rewrite He.
Qed.

Lemma rows_unlinked_none rows rows' l k : rows_unlinked rows rows' l -> rows !! k = None -> rows' !! k = None.
Proof. intros H Hk. destruct (H k) as [Hr|[Hr _]]; congruence. Qed.

Lemma rows_unlinked_other rows rows' l k r :
  rows_unlinked rows rows' l -> rows !! k = Some r -> S_ISREG (st_mode r) = false -> rows' !! k = Some r.
Proof. intros H Hk Hr. destruct (H k) as [Hr'|[_ (r' & i & Hr' & Hm & _)]]; congruence. Qed.

Lemma unlink_in_turn todo rows :
  (forall k r, rows !! k = Some r -> link_ok r) ->
  let d := (in_turn unlink_one todo rows).1 in
  let rows' := (in_turn unlink_one todo rows).2 in
  Forall (entry_unlinked rows rows') d /\ NoDup (info_key <$> succeeded d) /\
  rows_unlinked rows rows' (succeeded d) /\ (forall i, i ∈ succeeded d -> is_Some (rows !! info_key i)).
Proof.
  revert rows. induction todo as [|i todo IH]; intros rows Hl d rows'.
  { unfold d, rows'. cbn. split_and!; [constructor|constructor|by left|]. intros i Hi. by apply elem_of_nil in Hi. }
  subst d rows'. cbn [in_turn].
  destruct (unlink_cases i rows Hl) as (i' & [(-> & Hs & Hc)|(r & -> & Er & Em & Hs & Hu)]).
  - specialize (IH rows Hl). destruct (in_turn unlink_one todo rows) as [d rows2]. cbn [fst snd] in *.
    destruct IH as (Hd & Hn & Hr & Hi). unfold succeeded. rewrite filter_cons, decide_False by done.
    split; [|done]. constructor; [|done]. unfold entry_unlinked. destruct (rows !! info_key i') as [r|] eqn:Er.
    + destruct Hc as [Hm Hc]. rewrite Hm. split; [done|]. by eapply rows_unlinked_other.
    + split; [done|]. by eapply rows_unlinked_none.
  - destruct (IH (delete (info_key i') rows)) as (Hd & Hn & Hr & Hi).
    { intros k r' Hk. apply lookup_delete_Some in Hk as [_ Hk]. by eapply Hl. }
    destruct (in_turn unlink_one todo _) as [d rows2]. cbn [fst snd] in *.
    assert (rows2 !! info_key i' = None) as Hgone by (eapply rows_unlinked_none; [done|apply lookup_delete_eq]).
    unfold succeeded. rewrite filter_cons, decide_True by done. split; [|split; [|split]].
    + constructor; [unfold entry_unlinked; rewrite Er, Em; auto|]. eapply Forall_impl; [exact Hd|].
      intros x Hx. unfold entry_unlinked in *. destruct (decide (info_key x = info_key i')) as [Ek|Ek].
      * rewrite Ek in *. rewrite lookup_delete_eq in Hx. rewrite Er, Em. by destruct Hx; auto.
      * by rewrite lookup_delete_ne in Hx by done.
    + rewrite fmap_cons. apply NoDup_cons. split; [|done]. intros (x & Ek & Hx)%list_elem_of_fmap.
      apply Hi in Hx. rewrite <- Ek, lookup_delete_eq in Hx. by destruct Hx.
    + intros k. destruct (decide (info_key i' = k)) as [<-|Ek].
      { right. split; [done|]. exists r, i'. split_and!; try done. left. }
      destruct (Hr k) as [Hr1|(Hr1 & r1 & x & Hr2 & Hm & Hx & Hk)]; [left|right]; rewrite lookup_delete_ne in * by done; [done|].
      split; [done|]. exists r1, x. split_and!; try done. by right.
    + intros x [->|Hx]%elem_of_cons; [eauto|]. destruct (Hi x Hx) as [rx Hrx]. apply lookup_delete_Some in Hrx as [_ ?]. eauto.
Qed.

(** C17: unlink removes files, once each, and nothing else.  On tables where
    files have one link and directories two, a batch of any size is answered
    path by path: a path that names a file is gone afterwards and exactly one
    entry for it reports success, with the number, size and node of the file;
    a directory is refused with PATH_VERIFY_FAILED and kept; every row that is
    not reported stays as it was. *)
Theorem FalconUnlinkHandle_correct infos (s : srv) :
  srv_ok s -> tables_ok (sv_inodes s) -> links_ok (sv_inodes s) ->
  exists res s', FalconUnlinkHandle sg pg_qsort hash_order infos s = Ret res s' /\
    srv_ok s' /\ tables_ok (sv_inodes s') /\ links_ok (sv_inodes s') /\ mi_path <$> res ≡ₚ mi_path <$> infos /\
    Forall (path_answer VERIFY_PATH_VALIDITY_REQUIREMENT_MUST_BE_FILE (view_of (sv_pp s))
      (fun sh => entry_unlinked (rows_of (sv_inodes s) sh) (rows_of (sv_inodes s') sh))) res /\
    NoDup (info_key <$> succeeded res) /\
    (forall sh, rows_unlinked (rows_of (sv_inodes s) sh) (rows_of (sv_inodes s') sh) (succeeded res)).
Proof.
  intros Hok Ht Hl.
  destruct (batch_handle_in_turn unlink_entry unlink_one unlink_one_identity unlink_entry_one
    VERIFY_PATH_VALIDITY_REQUIREMENT_MUST_BE_FILE infos s Hok Ht) as (res & s' & arr & E & Hok' & Ht' & Hp & Hpl & Hall).
  assert (forall sh, rows_unlinked (rows_of (sv_inodes s) sh) (rows_of (sv_inodes s') sh) (succeeded res.*1)) as Hrows.
  { intros sh k. rewrite (proj1 Hall sh). destruct (unlink_in_turn (of_shard (Some sh) arr) _ (Hl sh)) as (_ & _ & Hr & _).
    destruct (Hr k) as [Hr1|(Hr1 & r & i & ? & ? & Hi & ?)]; [by left|right]. split; [done|]. exists r, i.
    split; [done|]. split; [done|]. split; [|done]. by eapply result_succeeded. }
  exists res.*1, s'. split; [done|]. split; [done|]. split; [done|]. split; [|split; [done|split; [|split; [|done]]]].
  - intros sh k r Hk. destruct (Hrows sh k) as [Hr|[Hr _]]; [|congruence]. rewrite Hr in Hk. by eapply Hl.
  - eapply (result_answers _ _ unlink_one arr); [done|done|]. intros sh. rewrite (proj1 Hall sh). apply (unlink_in_turn _ _ (Hl sh)).
  - eapply (result_NoDup _ _ unlink_one arr); [done|done|]. intros sh. apply (unlink_in_turn _ _ (Hl sh)).
Qed.
End BatchProofs.

(** ** A server with one shard *)

#[local] Instance one_shard : ShardService := table_shards (fun v => v) {[ INT32_MAX := 1 ]} 1.

Lemma one_shard_covers v : is_Some (ss_lookup v).
Proof.
  cbn. destruct (shard_of _ _) as [row|] eqn:E; [eauto|exfalso].
  pose proof (HashShard_range (fun v => v) v) as Hr.
  apply (proj1 (lower_bound_None _ _)) with (k := INT32_MAX) in E; [lia|]. rewrite lookup_singleton_eq. eauto.
Qed.

Definition empty_row : inode_row := mkRow 0 0 0 0 0 0 0 0 0 0 0 0 0 EmptyString 0 0 0.
Definition request (path : string) : MetaProcessInfo := mkInfo path SUCCESS 0 0 EmptyString empty_row.
Definition a_request : list MetaProcessInfo := request <$> ["/a/f"; "/b/f"; "/a/f"; "/a/"]%string.

Definition demo_server : server_state := mkSrv demo_pp {[ INT32_MAX := ∅ ]}.
(** The same server with a file and a directory in /a. *)
Definition key_in_a (n : string) : Z * string := (CombineParentIdWithPartId 5 (HashPartId true n), n).
Definition a_file : inode_row := mkRow 9 0 (Z.lor S_IFREG 0x1A4) 1 0 0 0 100 0 0 0 0 0 EmptyString 0 1 (-1).
Definition a_dir : inode_row := mkRow 11 0 (Z.lor S_IFDIR 0x1ED) 2 0 0 0 0 0 0 0 0 0 EmptyString 0 (-1) (-1).
Definition full_server : server_state :=
  mkSrv demo_pp {[ INT32_MAX := {[ key_in_a "f" := a_file; key_in_a "d" := a_dir ]} ]}.

Definition codes (o : outcome (server_state (Dir := gmap (Z * string) Z)) (list MetaProcessInfo)) : list FalconErrorCode :=
  match o with Ret res _ => mi_errorCode <$> res | _ => [] end.

Lemma demo_server_ok : srv_ok demo_server.
Proof. split; [done|]. exact demo_agrees. Qed.
Lemma demo_tables_ok : tables_ok (sv_inodes demo_server).
Proof.
  intros v sh H. apply lower_bound_Some in H as (H & _). apply lookup_singleton_Some in H as [<- _].
  cbn. rewrite lookup_singleton_eq. eauto.
Qed.
Lemma full_server_ok : srv_ok full_server.
Proof. split; [done|]. exact demo_agrees. Qed.
Lemma full_tables_ok : tables_ok (sv_inodes full_server).
Proof.
  intros v sh H. apply lower_bound_Some in H as (H & _). apply lookup_singleton_Some in H as [<- _].
  cbn. rewrite lookup_singleton_eq. eauto.
Qed.
Lemma full_links_ok : links_ok (sv_inodes full_server).
Proof.
  intros sh k r H. unfold rows_of in H. cbn [sv_inodes full_server] in H.
  destruct (decide (sh = INT32_MAX)) as [->|Hne]; [|by rewrite lookup_singleton_ne in H].
  rewrite lookup_singleton_eq in H. cbn [default from_option id] in H.
  apply lookup_insert_Some in H as [[_ <-]|[_ H]]; [done|]. by apply lookup_singleton_Some in H as [_ <-].
Qed.

Lemma FalconStatHandle_correct_witness :
  exists res s', FalconStatHandle true (fun l => l) (fun l => l) a_request demo_server = Ret res s' /\
    mi_errorCode <$> res = [FILE_NOT_EXISTS; PATH_IS_INVALID; FILE_NOT_EXISTS; FILE_NOT_EXISTS].
Proof.
  destruct (FalconStatHandle_correct true (fun l => l) (fun l => l) ltac:(done) ltac:(done) one_shard_covers
    a_request demo_server demo_server_ok demo_tables_ok) as (res & s' & E & _).
  exists res, s'. split; [exact E|]. assert (codes (FalconStatHandle true (fun l => l) (fun l => l) a_request demo_server) = [FILE_NOT_EXISTS; PATH_IS_INVALID; FILE_NOT_EXISTS; FILE_NOT_EXISTS]) as H
    by (vm_compute; reflexivity). by rewrite E in H.
Defined.

Lemma FalconCreateHandle_correct_witness :
  exists res s', FalconCreateHandle true 7 (fun l => l) (fun l => l) 8 false a_request demo_server = Ret res s' /\
    mi_errorCode <$> res = [SUCCESS; PATH_IS_INVALID; FILE_EXISTS; PATH_VERIFY_FAILED].
Proof.
  destruct (FalconCreateHandle_correct true 7 (fun l => l) (fun l => l) ltac:(done) ltac:(done) one_shard_covers
    8 a_request demo_server demo_server_ok demo_tables_ok ltac:(cbn; lia)) as (res & s' & E & _).
  exists res, s'. split; [exact E|]. assert (codes (FalconCreateHandle true 7 (fun l => l) (fun l => l) 8 false a_request demo_server) = [SUCCESS; PATH_IS_INVALID; FILE_EXISTS; PATH_VERIFY_FAILED]) as H
    by (vm_compute; reflexivity). by rewrite E in H.
Defined.

Lemma FalconUnlinkHandle_correct_witness :
  exists res s', FalconUnlinkHandle true (fun l => l) (fun l => l) (request <$> ["/a/f"; "/a/d"; "/a/f"]%string) full_server
      = Ret res s' /\ mi_errorCode <$> res = [SUCCESS; PATH_VERIFY_FAILED; FILE_NOT_EXISTS].
Proof.
  destruct (FalconUnlinkHandle_correct true (fun l => l) (fun l => l) ltac:(done) ltac:(done) one_shard_covers
    (request <$> ["/a/f"; "/a/d"; "/a/f"]%string) full_server full_server_ok full_tables_ok full_links_ok)
    as (res & s' & E & _).
  exists res, s'. split; [exact E|]. assert (codes (FalconUnlinkHandle true (fun l => l) (fun l => l) (request <$> ["/a/f"; "/a/d"; "/a/f"]%string) full_server) = [SUCCESS; PATH_VERIFY_FAILED; FILE_NOT_EXISTS]) as H
    by (vm_compute; reflexivity). by rewrite E in H.
Defined.
