(* ===== verification/Attributes.v ===== *)
(** * Attributes: chmod, chown and utimens (falcon/metadb/meta_handle.c)

    What the three handlers of MetaFile.v do: the path is resolved, and the row
    of its shard is changed in the fields that are given and no others. *)

From S2P Require Import FalconPrelude Catalog DirService InodeId PathCmp PathParse Placement InodeTable ShardService MetaFile.

Section Attributes.
Context {Dir : Type} {DS : DirectoryService Dir} {TS : TotalService Dir} {SS : ShardService} (sg : bool).
Abbreviation srv := (server_state (Dir := Dir)) (only parsing).

(** Resolving the path of a file or a directory that is not the root. *)
Lemma parse_setattr (path : string) (s : pp_state (Dir := Dir)) :
  absolute path -> path <> String SLASH EmptyString -> ds_ok (pp_dir s) -> tree_agrees (view_of s) (pp_tree s) ->
  exists s', PathParseTreeInsert ss_local path SETATTR_FLAG None s = Ret
      (match target_of (view_of s) path with
       | Some t => mkResult SUCCESS (Some t) None
       | None => mkResult PATH_IS_INVALID None None
       end) s' /\
    ds_ok (pp_dir s') /\ forall q m, view_of s' q m = view_of s q m.
Proof.
  intros Habs Hroot Hok Hag.
  destruct (PathParseTreeInsert_unfold ss_local path SETATTR_FLAG None s Habs Hroot Hok) as (s1 & (Hok1 & Hv1 & _ & _) & _ & Ht & E).
  destruct (Ht Hag) as [Hag1 Hid]. rewrite resolve_in_agrees in E, Hid by done. unfold target_of.
  destruct (resolve _ _ 0) as [i|]; [|by exists s1]. specialize (Hid _ _ eq_refl).
  change (parse_target ss_local SETATTR_FLAG) with (fun w inode => parse_lock_target SETATTR_FLAG w inode (DS := DS)) in E. cbv beta in E.
  unfold parse_lock_target, rbt_find, gets in E. cbn [we_rest we_len we_key we_id] in E. rewrite path_name_take in E by done.
  unfold mbind, cmd_bind, mret, cmd_ret in E.
  destruct (pp_tree s1 !! _) as [nd|] eqn:Ek.
  - destruct (Hag1 _ _ _ Ek) as (Hl & _ & _). rewrite !bool_decide_eq_false_2 in E by (destruct (lock_kept _ Hl); done).
    rewrite andb_false_r in E. exists s1. done.
  - destruct (SearchDirectory_returns i (path_name path) DIR_LOCK_SHARED s1 Hok1) as (s2 & E2 & (Hok2 & Hv2 & _ & _) & Ht2).
    rewrite E2 in E. change (has SETATTR_FLAG PATH_PARSE_FLAG_TARGET_IS_DIRECTORY) with false in E. rewrite andb_false_r in E.
    assert (forall s3, same_world s2 s3 -> ds_ok (pp_dir s3) /\ forall q m, view_of s3 q m = view_of s q m) as Hview.
    { intros s3 (Hok3 & Hv3 & _ & _). split; [done|]. intros q m. by rewrite Hv3, Hv2, Hv1. }
    destruct (view_of s1 i (path_name path) =? _); cbv beta in E.
    + destruct (ds_release_last_returns s2 Hok2) as (s3 & E3 & Hsw3 & Ht3). rewrite E3 in E.
      unfold rbt_insert, rbt_find, gets, mbind, cmd_bind, set_node, modify in E. rewrite Ht3, Ht2, Ek in E. cbn in E.
      eexists. split; [exact E|]. exact (Hview s3 Hsw3).
    + unfold rbt_insert, rbt_find, gets, mbind, cmd_bind, set_node, modify in E. cbn in E. rewrite Ht2, Ek in E. cbn in E.
      eexists. split; [exact E|]. exact (Hview s2 (same_world_refl s2 Hok2)).
Qed.

(** What the update does to one row. *)
Definition updated (t : inode_shards) (sh : Z) (k : Z * string) (a : update_args) : inode_shards :=
  alter (alter (modify_row a) k) sh t.

Lemma Search_update (t : inode_shards) (sh : Z) (k : Z * string) (a : update_args) (r : inode_row) :
  find_row t sh k = Some r -> doUpdate a = true -> nlinkChange a = None -> wantMode a = None -> needs_update a r = true ->
  SearchAndUpdateInodeTableInfo sh k a t = Ret (Some (r, true)) (updated t sh k a).
Proof.
  unfold find_row, SearchAndUpdateInodeTableInfo, removes, wrong_type, updated. intros Hr Hu Hn Hm Hup.
  destruct (t !! sh) as [rows|] eqn:Et; [|done]. cbn in Hr. rewrite Hr, Hu, Hn, Hm, Hup. cbn.
  assert (alter (alter (modify_row a) k) sh t = <[sh := <[k := modify_row a r]> rows]> t) as ->; [|done].
  apply map_eq. intros x. destruct (decide (x = sh)) as [->|Hx].
  - rewrite lookup_alter_eq, lookup_insert_eq, Et. cbn. f_equal. apply map_eq. intros y. destruct (decide (y = k)) as [->|Hy].
    + by rewrite lookup_alter_eq, lookup_insert_eq, Hr.
    + by rewrite lookup_alter_ne, lookup_insert_ne.
  - by rewrite lookup_alter_ne, lookup_insert_ne.
Qed.

(** Arguments that give attributes and ask for nothing else. *)
Definition gives_attributes (a : update_args) : Prop :=
  doUpdate a = true /\ nlinkChange a = None /\ wantMode a = None /\ forall r, needs_update a r = true.

(** The outcome that a path calls for. *)
Definition setattr_outcome (view : Z -> string -> Z) (t : inode_shards) (a : update_args) (path : string) : FalconErrorCode * inode_shards :=
  match target_of view path with
  | None => (PATH_IS_INVALID, t)
  | Some (p, n) =>
      let v := CombineParentIdWithPartId p (HashPartId sg n) in
      match ss_lookup v with
      | Some (sh, w) =>
          if negb (w =? ss_local) then (WRONG_WORKER, t)
          else match find_row t sh (v, n) with
               | None => (FILE_NOT_EXISTS, t)
               | Some _ => (SUCCESS, updated t sh (v, n) a)
               end
      | None => (PROGRAM_ERROR, t)
      end
  end.

Lemma set_attributes_outcome (a : update_args) (i : MetaProcessInfo) (s : srv) :
  srv_ok s -> tables_ok (sv_inodes s) -> gives_attributes a -> absolute (mi_path i) -> mi_path i <> String SLASH EmptyString ->
  let '(e, t) := setattr_outcome (view_of (sv_pp s)) (sv_inodes s) a (mi_path i) in
  exists s', set_attributes sg a i s = (if bool_decide (e = SUCCESS) then Ret (with_error SUCCESS i) s' else Raise e s') /\
    sv_inodes s' = t /\ ds_ok (pp_dir (sv_pp s')) /\ forall q m, view_of (sv_pp s') q m = view_of (sv_pp s) q m.
Proof.
  intros [Hok Hag] Ht (Hu & Hn & Hm & Hup) Habs Hroot. unfold setattr_outcome, set_attributes.
  destruct (parse_setattr (mi_path i) (sv_pp s) Habs Hroot Hok Hag) as (p' & E & Hok' & Hv').
  unfold mbind, cmd_bind, on_pp. rewrite E. clear E. destruct (target_of _ (mi_path i)) as [[p n]|] eqn:Etgt; cbn [r_code r_target].
  2:{ eexists. split; [reflexivity|]. done. }
  set (v := CombineParentIdWithPartId p (HashPartId sg n)). unfold find_shard.
  destruct (ss_lookup v) as [[sh w]|] eqn:El; [|eexists; split; [reflexivity|done]].
  unfold mret, cmd_ret, raise_unless, raise. cbn [fst snd]. destruct (Z.eqb_spec w ss_local) as [->|Hw]; cbn [negb].
  2:{ eexists. split; [reflexivity|done]. }
  unfold on_inodes, mret at 1, cmd_ret at 1. cbn [sv_inodes sv_pp]. destruct (Ht v sh El) as [rows Hrows].
  destruct (find_row (sv_inodes s) sh (v, n)) as [r|] eqn:Er.
  - rewrite (Search_update _ sh (v, n) a r) by auto. cbn. eexists. split; [reflexivity|]. done.
  - unfold SearchAndUpdateInodeTableInfo. rewrite Hrows. unfold find_row in Er. rewrite Hrows in Er. cbn in Er. rewrite Er. cbn.
    eexists. split; [reflexivity|]. done.
Qed.

(** Chmod, chown and utimens change what they are given and nothing else.  For
    an absolute path other than the root the handler answers PATH_IS_INVALID
    when a directory of the path does not exist, WRONG_WORKER when its shard is
    elsewhere and FILE_NOT_EXISTS when there is no row, all without a change;
    otherwise it succeeds, the row of the path has the new mode bits below the
    type, the new owner, or the new times (the clock for both when either is
    -1), and every other field and every other row is as before. *)
Theorem set_attributes_correct (now : Z) (i : MetaProcessInfo) (s : srv) :
  srv_ok s -> tables_ok (sv_inodes s) -> absolute (mi_path i) -> mi_path i <> String SLASH EmptyString ->
  forall h a,
    (h = FalconChmodHandle sg /\ a = mkArgs true None false None None (Some (Z.land (st_mode (mi_row i)) 0x1FF)) None None None None None None) \/
    (h = FalconChownHandle sg /\ a = mkArgs true None false None None None (Some (st_uid (mi_row i))) (Some (st_gid (mi_row i))) None None None None) \/
    (h = FalconUtimeNsHandle sg now /\
       let given := negb ((st_atim (mi_row i) =? -1) || (st_mtim (mi_row i) =? -1)) in
       a = mkArgs true None false None None None None None None (Some (if given then st_atim (mi_row i) else now))
             (Some (if given then st_mtim (mi_row i) else now)) None) ->
  let '(e, t) := setattr_outcome (view_of (sv_pp s)) (sv_inodes s) a (mi_path i) in
  exists s', h i s = (if bool_decide (e = SUCCESS) then Ret (with_error SUCCESS i) s' else Raise e s') /\ sv_inodes s' = t.
Proof.
  intros Hok Ht Habs Hroot h a Hh. pose proof (set_attributes_outcome a i s Hok Ht) as H.
  destruct (setattr_outcome _ _ a (mi_path i)) as [e t] eqn:Eo.
  destruct H as (s' & E & Hi & _); [|done|done|exists s'; split; [|done]].
  - destruct Hh as [(_ & ->)|[(_ & ->)|(_ & ->)]]; split_and!; done.
  - destruct Hh as [(-> & ->)|[(-> & ->)|(-> & ->)]]; exact E.
Qed.
End Attributes.

(** ** chmod on the server of MetaFile.v *)

Lemma set_attributes_correct_witness :
  exists s', FalconChmodHandle (SS := table_shards (fun v => v) {[ INT32_MAX := 1 ]} 1) true
      (mkInfo "/a/f" SUCCESS 0 0 EmptyString (mkRow 0 0 0x81FF 0 0 0 0 0 0 0 0 0 0 EmptyString 0 0 0)) full_server =
    Ret (mkInfo "/a/f" SUCCESS 0 0 EmptyString (mkRow 0 0 0x81FF 0 0 0 0 0 0 0 0 0 0 EmptyString 0 0 0)) s' /\
    st_mode <$> find_row (sv_inodes s') INT32_MAX (key_in_a "f") = Some (Z.lor S_IFREG 0x1FF).
Proof.
  pose proof (set_attributes_correct (SS := table_shards (fun v => v) {[ INT32_MAX := 1 ]} 1) true 0
    (mkInfo "/a/f" SUCCESS 0 0 EmptyString (mkRow 0 0 0x81FF 0 0 0 0 0 0 0 0 0 0 EmptyString 0 0 0)) full_server
    full_server_ok full_tables_ok eq_refl ltac:(done) _ _ (or_introl (conj eq_refl eq_refl))) as H.
  match type of H with context [setattr_outcome ?g ?w ?t ?a ?p] =>
    assert ((setattr_outcome (SS := table_shards (fun v => v) {[ INT32_MAX := 1 ]} 1) g w t a p).1 = SUCCESS /\
      st_mode <$> find_row (setattr_outcome (SS := table_shards (fun v => v) {[ INT32_MAX := 1 ]} 1) g w t a p).2 INT32_MAX (key_in_a "f") =
        Some (Z.lor S_IFREG 0x1FF)) as [He Hm] by (split; vm_compute; reflexivity);
    destruct (setattr_outcome g w t a p) as [e t'] end.
  cbn [fst snd] in He, Hm. subst e. destruct H as (s' & E & Ht). exists s'. split; [exact E|]. rewrite Ht. exact Hm.
Defined.
