(* ===== verification/MetaReadDir.v ===== *)
(** * Reading directories (falcon/metadb/meta_handle.c)

    FalconReadDirHandle and FalconOpenDirHandle.  A directory is spread over the
    shards by the names of its entries.  A worker hands out the entries it has
    in pages: it goes through its shards in the order of the shard table, and a
    cursor, the index of the shard and the last name, says where the next page
    starts.

    The order of names in the index is the collation of the database, a
    parameter. *)

From S2P Require Import FalconPrelude Catalog DirService PathParse Placement ShardTable InodeTable ShardService MetaFile.

Inductive StreamSearchState : Type := SAME_ID_GREATER_NAME | GREATER_ID | NEW_SHARD.

(** OneReadDirResult. *)
Record OneReadDirResult : Type := mkEntry { fileName : string; mode : Z }.

(** What the request gives. *)
Record readdir_request : Type := mkReadDir {
  rd_path : string;
  readDirMaxReadCount : Z;
  readDirLastShardIndex : Z;
  readDirLastFileName : string;
}.

(** The reply, or the access to the last cell of an empty list. *)
Inductive readdir_reply : Type :=
| Page (readDirResultList : list OneReadDirResult) (lastShardIndex : Z) (lastFileName : option string)
| NullDereference.

Section ReadDir.
Context {Dir : Type} {DS : DirectoryService Dir} {SS : ShardService}.
Context (sg : bool) (name_le : relation string) `{!RelDecision name_le}.

(** The order of the index on parentid_partid, compared as int8, and name. *)
Definition key_le (x y : inode_key) : Prop :=
  s64 x.1 < s64 y.1 \/ s64 x.1 = s64 y.1 /\ name_le x.2 y.2.

#[global] Instance key_le_dec : RelDecision key_le.
Proof. intros x y. unfold key_le. apply _. Defined.

(** The scan keys of the three states. *)
Definition scan_keys (state : StreamSearchState) (directoryId : Z) (lastFileName : string) (k : inode_key) : bool :=
  let lowerId := CombineParentIdWithPartId directoryId 0 in
  let upperId := CombineParentIdWithPartId directoryId PART_ID_MASK in
  let parentId_partId := CombineParentIdWithPartId directoryId (HashPartId sg lastFileName) in
  match state with
  | SAME_ID_GREATER_NAME =>
      (s64 k.1 =? s64 parentId_partId) && negb (bool_decide (name_le k.2 lastFileName))
  | GREATER_ID => (s64 parentId_partId <? s64 k.1) && (s64 k.1 <=? s64 upperId)
  | NEW_SHARD => (s64 lowerId <=? s64 k.1) && (s64 k.1 <=? s64 upperId)
  end.

Definition next_state (state : StreamSearchState) : StreamSearchState :=
  match state with
  | SAME_ID_GREATER_NAME => GREATER_ID
  | GREATER_ID => NEW_SHARD
  | NEW_SHARD => NEW_SHARD
  end.

(** systable_getnext on the index scan. *)
Definition scan (state : StreamSearchState) (directoryId : Z) (lastFileName : string)
    (rows : gmap (Z * string) inode_row) : list (inode_key * inode_row) :=
  filter (fun x => scan_keys state directoryId lastFileName x.1) (index_scan key_le rows).

Definition entry_of (x : inode_key * inode_row) : OneReadDirResult := mkEntry x.1.2 (st_mode x.2).

(** The inner loop: the rows read, and readCount. *)
Fixpoint read_rows (maxReadCount : Z) (rows : list (inode_key * inode_row)) (readCount : Z)
    : list OneReadDirResult * Z :=
  match rows with
  | [] => ([], readCount)
  | r :: rows' =>
      if maxReadCount <=? readCount + 1 then ([entry_of r], readCount + 1)
      else let '(l, c) := read_rows maxReadCount rows' (readCount + 1) in (entry_of r :: l, c)
  end.

(** The outer loop: resultList, readCount and shardIndex at its end. *)
Fixpoint read_shards (fuel : nat) (directoryId : Z) (lastFileName : string) (maxReadCount : Z)
    (state : StreamSearchState) (shardIndex : nat) (readCount : Z) (resultList : list OneReadDirResult)
    : cmd inode_shards (list OneReadDirResult * Z * nat) :=
  match fuel with
  | O => fun _ => OutOfFuel
  | S fuel' =>
      match ss_rows !! shardIndex with
      | None => mret (resultList, readCount, shardIndex)
      | Some (shardId, workerId) =>
          if negb (workerId =? ss_local)
          then read_shards fuel' directoryId lastFileName maxReadCount state (S shardIndex) readCount resultList
          else
            t ← get;
            match t !! shardId with
            | None => raise PROGRAM_ERROR
            | Some rows =>
                let '(l, c) := read_rows maxReadCount (scan state directoryId lastFileName rows) readCount in
                let state' := next_state state in
                if maxReadCount <=? c then mret (resultList ++ l, c, shardIndex)
                else read_shards fuel' directoryId lastFileName maxReadCount state'
                       (match state' with NEW_SHARD => S shardIndex | _ => shardIndex end) c (resultList ++ l)
            end
      end
  end.

(** The part after the path is parsed. *)
Definition read_page (directoryId : Z) (q : readdir_request) : cmd inode_shards readdir_reply :=
  let maxReadCount := if readDirMaxReadCount q =? -1 then INT32_MAX else readDirMaxReadCount q in
  let firstCall := readDirLastShardIndex q =? -1 in
  out ← read_shards (3 + 3 * length ss_rows) directoryId (readDirLastFileName q) maxReadCount
          (if firstCall then NEW_SHARD else SAME_ID_GREATER_NAME)
          (if firstCall then O else Z.to_nat (readDirLastShardIndex q)) 0 [];
  let '(resultList, readCount, shardIndex) := (out : list OneReadDirResult * Z * nat) in
  if readCount <? maxReadCount then mret (Page resultList (-1) None)
  else match last resultList with
       | Some e => mret (Page resultList (Z.of_nat shardIndex) (Some (fileName e)))
       | None => mret NullDereference
       end.

Definition open_directory (path : string) : cmd server_state Z :=
  r ← on_pp (PathParseTreeInsert ss_local path READDIR_FLAG (Some 0));
  match r_code r, r_inode r with
  | SUCCESS, Some directoryId => mret directoryId
  | SUCCESS, None => raise PROGRAM_ERROR
  | e, _ => raise e
  end.

Definition FalconReadDirHandle (q : readdir_request) : cmd server_state readdir_reply :=
  directoryId ← open_directory (rd_path q);
  on_inodes (read_page directoryId q).

(** The inode number that is reported. *)
Definition FalconOpenDirHandle (path : string) : cmd server_state Z := open_directory path.

(** A client that reads a directory to the end. *)
Fixpoint read_directory (pages : nat) (q : readdir_request) : cmd server_state (list OneReadDirResult) :=
  match pages with
  | O => fun _ => OutOfFuel
  | S pages' =>
      reply ← FalconReadDirHandle q;
      match (reply : readdir_reply) with
      | NullDereference => raise UNKNOWN
      | Page l i (Some n) =>
          rest ← read_directory pages' (mkReadDir (rd_path q) (readDirMaxReadCount q) i n); mret (l ++ rest)
      | Page l _ None => mret l
      end
  end.
End ReadDir.

(** ** Properties *)

Section ReadDirProofs.
Context {Dir : Type} {DS : DirectoryService Dir} {TS : TotalService Dir} {SS : ShardService}.
Context (sg : bool) (name_le : relation string) `{!RelDecision name_le}.
Context `{!Total name_le, !Transitive name_le, !AntiSymm (=) name_le}.
Abbreviation srv := (server_state (Dir := Dir)) (only parsing).
Abbreviation row := ((Z * string) * inode_row)%type (only parsing).

(** Every row is filed under its parent, the hash of its name and its shard. *)
Definition rows_placed (t : inode_shards) : Prop :=
  forall sh k r, rows_of t sh !! k = Some r ->
    (exists p, k.1 = CombineParentIdWithPartId p (HashPartId sg k.2)) /\ exists w, ss_lookup k.1 = Some (sh, w).

#[local] Instance key_le_total : Total (key_le name_le).
Proof.
  intros x y. unfold key_le. destruct (Z.lt_trichotomy (s64 x.1) (s64 y.1)) as [?|[?|?]]; [auto| |auto].
  destruct (total name_le x.2 y.2); auto.
Qed.

#[local] Instance key_le_trans : Transitive (key_le name_le).
Proof.
  intros x y z [H1|[H1 H1']] [H2|[H2 H2']]; unfold key_le; [left; lia|left; lia|left; lia|right].
  split; [lia|]. by etransitivity.
Qed.

(** Strictly before. *)
Definition row_lt (x y : row) : Prop := ~ key_le name_le y.1 x.1.

#[local] Instance row_lt_dec : RelDecision row_lt.
Proof. intros x y. unfold row_lt. apply _. Defined.
#[local] Instance row_lt_irrefl : Irreflexive row_lt.
Proof. intros x H. apply H. destruct (total (key_le name_le) x.1 x.1); done. Qed.
#[local] Instance row_lt_trans : Transitive row_lt.
Proof.
  intros x y z H1 H2 H3. apply H2. destruct (total (key_le name_le) x.1 y.1) as [H|H]; [by transitivity x.1|by destruct H1].
Qed.

(** The rows of a directory in a shard, in the order of the index. *)
Definition dir_rows (t : inode_shards) (d sh : Z) : list row := scan sg name_le NEW_SHARD d EmptyString (rows_of t sh).

Lemma scan_elem st d n rows k r :
  (k, r) ∈ scan sg name_le st d n rows <-> scan_keys sg name_le st d n k = true /\ rows !! k = Some r.
Proof. unfold scan. rewrite list_elem_of_filter, index_scan_elem. cbn. by rewrite Is_true_true. Qed.

Lemma dir_rows_elem t d sh k r :
  rows_placed t ->
  (k, r) ∈ dir_rows t d sh <->
  rows_of t sh !! k = Some r /\ k.1 = CombineParentIdWithPartId d (HashPartId sg k.2).
Proof.
  intros Ht. unfold dir_rows. rewrite scan_elem. cbn [scan_keys]. rewrite andb_true_iff, !Z.leb_le. split.
  - intros [Hr Hk]. split; [done|]. destruct (Ht _ _ _ Hk) as [[p Hp] _]. rewrite Hp in Hr |- *.
    apply CombineParentIdWithPartId_between in Hr; [done|apply HashPartId_range].
  - intros [Hk Hv]. split; [|done]. rewrite Hv.
    by apply CombineParentIdWithPartId_between; [apply HashPartId_range|].
Qed.

(** Different rows are never level. *)
Lemma rows_strict t sh : rows_placed t -> StronglySorted row_lt (index_scan (key_le name_le) (rows_of t sh)).
Proof.
  intros Ht. pose proof (index_scan_sorted (key_le name_le) (rows_of t sh)) as Hs.
  pose proof (index_scan_NoDup (key_le name_le) (rows_of t sh)) as Hn.
  assert (forall x, x ∈ index_scan (key_le name_le) (rows_of t sh) -> 0 <= x.1.1 < 2 ^ 64) as Hr.
  { intros [k r] Hx. apply index_scan_elem in Hx. destruct (Ht _ _ _ Hx) as [[p Hp] _]. cbn. rewrite Hp.
    apply CombineParentIdWithPartId_range, HashPartId_range. }
  induction Hs as [|x l Hs IH Hall]; [constructor|]. rewrite fmap_cons in Hn. apply NoDup_cons in Hn as [Hx Hn].
  constructor; [apply IH; [done|]; intros; apply Hr; by right|].
  rewrite Forall_forall in Hall |- *. intros y Hy Hle. specialize (Hall y Hy). unfold row_le in Hall.
  apply Hx. assert (x.1 = y.1) as ->; [|by apply list_elem_of_fmap_2].
  destruct Hall as [?|[E1 H1]], Hle as [?|[E2 H2]]; try lia.
  apply injective_projections; [apply s64_inj; [apply Hr; left|apply Hr; by right|done]|by apply (anti_symm name_le)].
Qed.

(** The position of a name in a directory. *)
Definition key_of (d : Z) (n : string) : Z * string := (CombineParentIdWithPartId d (HashPartId sg n), n).

(** The two scans that resume after a name find the rows behind it. *)
Lemma scan_after t d n sh :
  scan sg name_le SAME_ID_GREATER_NAME d n (rows_of t sh) ++ scan sg name_le GREATER_ID d n (rows_of t sh) =
  filter (fun x => ~ key_le name_le x.1 (key_of d n)) (dir_rows t d sh).
Proof.
  pose proof (CombineParentIdWithPartId_between d d (HashPartId sg n) (HashPartId_range sg n)) as [_ Hin].
  specialize (Hin eq_refl). unfold dir_rows, scan at 3. rewrite list_filter_filter. symmetry.
  apply (sorted_runs (row_le (key_le name_le))); [apply index_scan_sorted; apply _| | |].
  - intros x _. rewrite !Is_true_true. cbn [scan_keys].
    rewrite !andb_true_iff, Z.eqb_eq, Z.ltb_lt, !Z.leb_le, negb_true_iff, bool_decide_eq_false.
    unfold key_le, key_of. cbn [fst snd]. destruct (decide (name_le x.1.2 n)),
      (Z.lt_trichotomy (s64 x.1.1) (s64 (CombineParentIdWithPartId d (HashPartId sg n)))) as [?|[?|?]]; intuition lia.
  - intros x _. rewrite !Is_true_true. cbn [scan_keys]. rewrite !andb_true_iff, Z.eqb_eq, Z.ltb_lt. lia.
  - intros x y. rewrite !Is_true_true. cbn [scan_keys]. rewrite !andb_true_iff, Z.eqb_eq, Z.ltb_lt.
    unfold row_le, key_le. lia.
Qed.

Lemma dir_rows_sorted t d sh : StronglySorted (row_le (key_le name_le)) (dir_rows t d sh).
Proof. apply StronglySorted_filter, index_scan_sorted; apply _. Qed.

Lemma scan_resumes t d n sh :
  exists before, dir_rows t d sh = before ++
    scan sg name_le SAME_ID_GREATER_NAME d n (rows_of t sh) ++ scan sg name_le GREATER_ID d n (rows_of t sh).
Proof.
  rewrite scan_after. exists (filter (fun x => key_le name_le x.1 (key_of d n)) (dir_rows t d sh)).
  rewrite <- (filter_all (fun _ => True) (dir_rows t d sh)) at 1 by done.
  apply (sorted_runs (row_le (key_le name_le))); [apply dir_rows_sorted| |by intros x _ H1 H2|].
  - intros x _. destruct (decide (key_le name_le x.1 (key_of d n))); tauto.
  - intros x y H1 H2 H3. apply H2. by etransitivity.
Qed.

(** ** One page *)

Definition shard_part (t : inode_shards) (d : Z) (place : Z * Z) : list row :=
  if place.2 =? ss_local then dir_rows t d place.1 else [].
(** What the worker has of the directory in the shards from [n] on. *)
Definition rest_from (t : inode_shards) (d : Z) (n : nat) : list row := concat (shard_part t d <$> drop n ss_rows).

(** What is left to read in a state of the loop. *)
Definition to_read (t : inode_shards) (d : Z) (name : string) (st : StreamSearchState) (n : nat) : list row :=
  match st, ss_rows !! n with
  | NEW_SHARD, _ => rest_from t d n
  | SAME_ID_GREATER_NAME, Some (sh, _) =>
      (scan sg name_le SAME_ID_GREATER_NAME d name (rows_of t sh) ++ scan sg name_le GREATER_ID d name (rows_of t sh))
      ++ rest_from t d (S n)
  | GREATER_ID, Some (sh, _) => scan sg name_le GREATER_ID d name (rows_of t sh) ++ rest_from t d (S n)
  | _, None => []
  end.

(** [R] is what follows the row [x] of shard [n]. *)
Definition resumes (t : inode_shards) (d : Z) (n : nat) (x : row) (R : list row) : Prop :=
  exists sh before after, ss_rows !! n = Some (sh, ss_local) /\ dir_rows t d sh = before ++ x :: after /\
    R = after ++ rest_from t d (S n).

Definition local_tables (t : inode_shards) : Prop := forall sh, (sh, ss_local) ∈ ss_rows -> is_Some (t !! sh).

Lemma rest_from_cons t d n row :
  ss_rows !! n = Some row -> rest_from t d n = shard_part t d row ++ rest_from t d (S n).
Proof. intros H. unfold rest_from. by rewrite (drop_S _ _ _ H). Qed.

Lemma rest_from_end t d n : ss_rows !! n = None -> rest_from t d n = [].
Proof. intros H. unfold rest_from. rewrite drop_ge; [done|]. by apply lookup_ge_None. Qed.

(** The inner loop reads up to the limit. *)
Lemma read_rows_spec max rows c :
  c < max ->
  read_rows max rows c =
    (entry_of <$> take (Z.to_nat (max - c)) rows, c + Z.of_nat (length (take (Z.to_nat (max - c)) rows))).
Proof.
  revert c. induction rows as [|r rows IH]; intros c Hc.
  { rewrite take_nil. cbn. f_equal. lia. }
  cbn [read_rows]. destruct (Z.leb_spec max (c + 1)).
  - replace (Z.to_nat (max - c)) with 1%nat by lia. by destruct rows.
  - rewrite IH by lia. replace (Z.to_nat (max - c)) with (S (Z.to_nat (max - (c + 1)))) by lia. cbn. f_equal. lia.
Qed.

(** A scan that fills the page stops at a row of the shard. *)
Lemma stops_at t d n sh before (P after R : list row) m :
  ss_rows !! n = Some (sh, ss_local) -> dir_rows t d sh = before ++ P ++ after -> R = after ++ rest_from t d (S n) ->
  (0 < m)%nat -> (m <= length P)%nat ->
  exists x, last (take m (P ++ R)) = Some x /\ resumes t d n x (drop m (P ++ R)).
Proof.
  intros Hn Hd -> Hm Hl. rewrite take_app_le, drop_app_le by done.
  destruct m as [|m]; [lia|]. destruct (lookup_lt_is_Some_2 P m) as [x Hx]; [lia|].
  exists x. rewrite (take_S_r _ _ _ Hx), last_snoc. split; [done|].
  exists sh, (before ++ take m P), (drop (S m) P ++ after). split; [done|]. split; [|by rewrite app_assoc].
  rewrite Hd, <- app_assoc. f_equal. rewrite app_comm_cons, app_assoc. f_equal. symmetry. by apply take_drop_middle.
Qed.

Definition next_shard (st : StreamSearchState) (n : nat) : nat :=
  match next_state st with NEW_SHARD => S n | _ => n end.

(** One scan: its rows are part of the shard's, and the next state has the
    rest. *)
Lemma scan_step t d name st n sh :
  rows_placed t -> ss_rows !! n = Some (sh, ss_local) ->
  let P := scan sg name_le st d name (rows_of t sh) in
  exists before after, dir_rows t d sh = before ++ P ++ after /\
    to_read t d name st n = P ++ to_read t d name (next_state st) (next_shard st n) /\
    to_read t d name (next_state st) (next_shard st n) = after ++ rest_from t d (S n).
Proof.
  intros Ht Hn P. subst P. destruct (scan_resumes t d name sh) as [before Hb].
  destruct st; unfold next_shard, to_read; cbn [next_state]; rewrite ?Hn.
  - exists before. eexists. split; [exact Hb|]. by rewrite app_assoc.
  - exists (before ++ scan sg name_le SAME_ID_GREATER_NAME d name (rows_of t sh)), [].
    rewrite app_nil_r, <- app_assoc. done.
  - exists [], []. rewrite app_nil_r. split; [done|]. split; [|done].
    rewrite (rest_from_cons t d n _ Hn). unfold shard_part. cbn [fst snd]. by rewrite Z.eqb_refl.
Qed.

Lemma read_shards_spec fuel d name max st n c acc t :
  rows_placed t -> local_tables t -> (st <> NEW_SHARD -> exists sh, ss_rows !! n = Some (sh, ss_local)) -> c < max ->
  (length ss_rows - n + (match st with SAME_ID_GREATER_NAME => 2 | _ => 1 end) <= fuel)%nat ->
  let m := Z.to_nat (max - c) in
  let R := to_read t d name st n in
  exists n', read_shards sg name_le fuel d name max st n c acc t =
      Ret (acc ++ (entry_of <$> take m R), c + Z.of_nat (length (take m R)), n') t /\
    ((m <= length R)%nat -> exists x, last (take m R) = Some x /\ resumes t d n' x (drop m R)).
Proof.
  intros Ht Hl. revert st n c acc. induction fuel as [|fuel IH]; intros st n c acc Hst Hc Hf m R; [destruct st; lia|].
  cbn [read_shards]. destruct (ss_rows !! n) as [[sh w]|] eqn:Hn.
  2:{ destruct st; [destruct Hst; done..|]. unfold R, to_read. rewrite rest_from_end, take_nil by done.
      exists n. cbn. rewrite app_nil_r, Z.add_0_r. split; [done|]. lia. }
  pose proof (lookup_lt_Some _ _ _ Hn) as Hlt.
  destruct (Z.eqb_spec w ss_local) as [->|Hw]; cbn [negb].
  2:{ destruct st; [destruct Hst; [done|congruence]..|].
      destruct (IH NEW_SHARD (S n) c acc ltac:(done) Hc ltac:(cbn; lia)) as (n' & E & Hstop). exists n'.
      assert (R = to_read t d name NEW_SHARD (S n)) as ->; [|done].
      unfold R, to_read. rewrite (rest_from_cons t d n _ Hn). unfold shard_part. cbn [fst snd].
      by rewrite (proj2 (Z.eqb_neq _ _) Hw). }
  unfold mbind, cmd_bind, get. destruct (Hl sh) as [rows Hr]; [by eapply list_elem_of_lookup_2|]. rewrite Hr.
  assert (rows = rows_of t sh) as -> by (unfold rows_of; by rewrite Hr).
  destruct (scan_step t d name st n sh Ht Hn) as (before & after & Hd & HR & Hafter).
  set (P := scan sg name_le st d name (rows_of t sh)) in *.
  rewrite read_rows_spec by done. fold m. unfold R. rewrite HR.
  destruct (decide (m <= length P)%nat) as [Hm|Hm].
  - rewrite (proj2 (Z.leb_le max _)) by (rewrite length_take; lia).
    exists n. rewrite take_app_le by done. split; [done|]. intros _.
    rewrite <- (take_app_le P (to_read t d name (next_state st) (next_shard st n)) m) by done.
    eapply stops_at; [done|done|done|lia|done].
  - rewrite (proj2 (Z.leb_gt max _)) by (rewrite length_take; lia).
    rewrite (take_ge P) by lia.
    destruct (IH (next_state st) (next_shard st n) (c + Z.of_nat (length P)) (acc ++ (entry_of <$> P))) as (n' & E & Hstop).
    { intros Hne. destruct st; [by exists sh|done|done]. }
    { lia. }
    { destruct st; unfold next_shard; cbn [next_state]; lia. }
    exists n'. unfold next_shard in E at 1. rewrite E.
    replace (Z.to_nat (max - (c + Z.of_nat (length P)))) with (m - length P)%nat in * by lia.
    rewrite (take_app_ge P), (drop_app_ge P) by lia. split.
    + rewrite fmap_app, length_app, app_assoc. f_equal. f_equal. f_equal. lia.
    + rewrite length_app. intros Hle. destruct Hstop as (x & Hx & Hres); [lia|]. exists x. split; [|done].
      by rewrite last_app, Hx.
Qed.

(** ** The pages of a directory *)

(** What a request has left to read. *)
Definition left_to_read (t : inode_shards) (d : Z) (q : readdir_request) : list row :=
  if readDirLastShardIndex q =? -1 then rest_from t d 0
  else to_read t d (readDirLastFileName q) SAME_ID_GREATER_NAME (Z.to_nat (readDirLastShardIndex q)).

(** A first request, or one with the cursor of a reply. *)
Definition cursor_ok (q : readdir_request) : Prop :=
  readDirLastShardIndex q = -1 \/
  0 <= readDirLastShardIndex q /\ exists sh, ss_rows !! Z.to_nat (readDirLastShardIndex q) = Some (sh, ss_local).

Definition page_size (q : readdir_request) : nat :=
  Z.to_nat (if readDirMaxReadCount q =? -1 then INT32_MAX else readDirMaxReadCount q).

Lemma resumes_left t d n x R :
  rows_placed t -> resumes t d n x R -> to_read t d x.1.2 SAME_ID_GREATER_NAME n = R.
Proof.
  intros Ht (sh & before & after & Hn & Hd & ->). unfold to_read. rewrite Hn, scan_after. f_equal.
  assert (x ∈ dir_rows t d sh) as Hx by (rewrite Hd; apply elem_of_app; right; left).
  destruct x as [k r]. apply dir_rows_elem in Hx as [_ Hk]; [|done]. cbn [fst snd].
  replace (key_of d k.2) with k by (unfold key_of; destruct k; cbn in *; congruence).
  rewrite Hd, (list_filter_iff _ (fun y => row_lt (k, r) y)) by done.
  apply (sorted_after row_lt before (k, r) after). rewrite <- Hd.
  by apply StronglySorted_filter, rows_strict.
Qed.

Lemma read_page_spec d q t :
  rows_placed t -> local_tables t -> cursor_ok q -> (0 < page_size q)%nat ->
  let R := left_to_read t d q in
  exists i name, read_page sg name_le d q t = Ret (Page (entry_of <$> take (page_size q) R) i name) t /\
    if decide (length R < page_size q)%nat then name = None
    else exists n, name = Some n /\ let q' := mkReadDir (rd_path q) (readDirMaxReadCount q) i n in
      cursor_ok q' /\ 0 <= i /\ left_to_read t d q' = drop (page_size q) R /\ exists sh x, x ∈ dir_rows t d sh /\ n = x.1.2.
Proof.
  intros Ht Hl Hq Hp R. unfold read_page. unfold page_size in Hp.
  set (max := if readDirMaxReadCount q =? -1 then INT32_MAX else readDirMaxReadCount q) in *.
  set (first := readDirLastShardIndex q =? -1).
  destruct (read_shards_spec (3 + 3 * length ss_rows) d (readDirLastFileName q) max
    (if first then NEW_SHARD else SAME_ID_GREATER_NAME) (if first then O else Z.to_nat (readDirLastShardIndex q)) 0 [] t)
    as (n' & E & Hstop); [done|done| |lia|destruct first; lia|].
  { destruct Hq as [Hq|[Hq [sh Hs]]]; unfold first; [by rewrite Hq|].
    destruct (Z.eqb_spec (readDirLastShardIndex q) (-1)); [lia|]. eauto. }
  rewrite Z.sub_0_r in E, Hstop.
  assert (to_read t d (readDirLastFileName q) (if first then NEW_SHARD else SAME_ID_GREATER_NAME)
    (if first then O else Z.to_nat (readDirLastShardIndex q)) = R) as HR.
  { unfold R, left_to_read. fold first. by destruct first. }
  rewrite HR in E, Hstop. rewrite (bind_Ret _ _ _ _ _ E). cbn [app]. change (page_size q) with (Z.to_nat max) in *.
  destruct (decide (length R < Z.to_nat max)%nat) as [Hlt|Hge].
  - rewrite (proj2 (Z.ltb_lt _ max)) by (rewrite length_take; lia). by eexists _, _.
  - rewrite (proj2 (Z.ltb_ge _ max)) by (rewrite length_take; lia).
    destruct Hstop as (x & Hx & Hres); [lia|]. rewrite fmap_last, Hx. cbn.
    eexists _, _. split; [done|]. eexists. split; [done|]. split.
    + right. cbn. split; [lia|]. rewrite Nat2Z.id. destruct Hres as (sh & _ & _ & Hn & _). eauto.
    + unfold left_to_read. cbn [readDirLastShardIndex readDirLastFileName].
      rewrite (proj2 (Z.eqb_neq (Z.of_nat n') (-1))) by lia. rewrite Nat2Z.id.
      split; [lia|]. split; [by apply resumes_left|].
      destruct Hres as (sh & before & after & _ & Hd & _). exists sh, x. split; [|done].
      rewrite Hd. apply elem_of_app. right. left.
Qed.

Lemma rest_from_elem t d x :
  x ∈ rest_from t d 0 <-> exists sh, (sh, ss_local) ∈ ss_rows /\ x ∈ dir_rows t d sh.
Proof.
  unfold rest_from. rewrite drop_0, list_elem_of_In, in_concat. split.
  - intros (l & Hl & Hx). apply list_elem_of_In, list_elem_of_fmap in Hl as ([sh w] & -> & Hin).
    apply list_elem_of_In in Hx. unfold shard_part in Hx. cbn [fst snd] in Hx.
    destruct (Z.eqb_spec w ss_local) as [->|]; [eauto|by apply elem_of_nil in Hx].
  - intros (sh & Hin & Hx). exists (dir_rows t d sh). split; [|by apply list_elem_of_In].
    apply list_elem_of_In, list_elem_of_fmap. exists (sh, ss_local). split; [|done].
    unfold shard_part. cbn [fst snd]. by rewrite Z.eqb_refl.
Qed.

(** The rows of a directory have their names' keys, and are in their shards. *)
Lemma dir_rows_key t d sh x :
  rows_placed t -> x ∈ dir_rows t d sh ->
  x.1 = key_of d x.1.2 /\ rows_of t sh !! key_of d x.1.2 = Some x.2 /\ exists w, ss_lookup (key_of d x.1.2).1 = Some (sh, w).
Proof.
  intros Ht Hx. destruct x as [k r]. apply dir_rows_elem in Hx as [Hr Hk]; [|done]. cbn [fst snd].
  assert (k = key_of d k.2) as Ek by (unfold key_of; destruct k; cbn in *; congruence).
  split; [done|]. rewrite <- Ek. split; [done|]. by apply (Ht sh k r).
Qed.

Lemma rest_from_names t d : rows_placed t -> NoDup ((fun x : row => x.1.2) <$> rest_from t d 0).
Proof.
  intros Ht. apply NoDup_fmap_2_strong.
  - intros x y Hx Hy Hn. apply rest_from_elem in Hx as (sh & _ & Hx), Hy as (sh' & _ & Hy).
    apply (dir_rows_key t d sh x Ht) in Hx as (Ex & Rx & w & Lx).
    apply (dir_rows_key t d sh' y Ht) in Hy as (Ey & Ry & w' & Ly).
    rewrite <- Hn in Ry, Ly. rewrite Lx in Ly. injection Ly as <- _. rewrite Rx in Ry. injection Ry as Hr.
    apply injective_projections; [congruence|done].
  - unfold rest_from. rewrite drop_0. apply NoDup_concat.
    + apply Forall_fmap, Forall_true. intros [sh w]. cbn. unfold shard_part. cbn [fst snd].
      destruct (w =? ss_local); [|constructor]. apply NoDup_filter. apply (NoDup_fmap_1 fst), index_scan_NoDup.
    + intros i j l l' x Hi Hj Hx Hx'. apply list_lookup_fmap_Some in Hi as ([sh w] & -> & Hi), Hj as ([sh' w'] & -> & Hj).
      unfold shard_part in Hx, Hx'. cbn [fst snd] in Hx, Hx'.
      destruct (w =? ss_local); [|by apply elem_of_nil in Hx]. destruct (w' =? ss_local); [|by apply elem_of_nil in Hx'].
      apply dir_rows_key in Hx as (_ & _ & a & La), Hx' as (_ & _ & b & Lb); [|done|done].
      rewrite La in Lb. injection Lb as <- _. eapply NoDup_lookup; [apply ss_rows_NoDup| |].
      * by rewrite list_lookup_fmap, Hi.
      * by rewrite list_lookup_fmap, Hj.
Qed.

Lemma open_directory_spec path p n (s : srv) :
  srv_ok s -> absolute path -> target_of (view_of (sv_pp s)) path = Some (p, n) ->
  view_of (sv_pp s) p n <> DIR_HASH_TABLE_PATH_NOT_EXIST ->
  exists s', open_directory path s = Ret (view_of (sv_pp s) p n) s' /\ srv_ok s' /\ same_dirs s s'.
Proof.
  intros [Hok Hag] Habs Htg Hex.
  destruct (parse_directory ss_local path 0 (sv_pp s) Habs Hok Hag) as (p' & E & Hok' & Hv & Hag').
  rewrite Htg in E. unfold directory_result in E. rewrite (proj2 (Z.eqb_neq _ _) Hex) in E. cbn in E.
  unfold open_directory, on_pp, mbind, cmd_bind. rewrite E. by exists (mkSrv p' (sv_inodes s)).
Qed.

Lemma read_directory_spec pages q p n (s : srv) :
  let t := sv_inodes s in
  let d := view_of (sv_pp s) p n in
  srv_ok s -> rows_placed t -> local_tables t -> absolute (rd_path q) ->
  target_of (view_of (sv_pp s)) (rd_path q) = Some (p, n) -> d <> DIR_HASH_TABLE_PATH_NOT_EXIST ->
  cursor_ok q -> (0 < page_size q)%nat -> (length (left_to_read t d q) < pages)%nat ->
  exists s', read_directory sg name_le pages q s = Ret (entry_of <$> left_to_read t d q) s' /\ srv_ok s' /\ same_dirs s s'.
Proof.
  revert q s. induction pages as [|pages IH]; intros q s t d Hok Ht Hl Habs Htg Hex Hq Hp Hlen; [lia|].
  cbn [read_directory]. unfold FalconReadDirHandle.
  destruct (open_directory_spec (rd_path q) p n s Hok Habs Htg Hex) as (s1 & E1 & Hok1 & [Hv1 Hi1]).
  destruct (read_page_spec d q t Ht Hl Hq Hp) as (i & name & E2 & Hname).
  unfold mbind, cmd_bind, on_inodes. rewrite E1, Hi1. fold t d. rewrite E2.
  replace (mkSrv (sv_pp s1) t) with s1 by (unfold t; rewrite <- Hi1; by destruct s1).
  destruct (decide _) as [Hlt|Hge].
  - subst name. exists s1. rewrite take_ge by lia. done.
  - destruct Hname as (nm & -> & Hq' & _ & Hleft & _).
    destruct (IH (mkReadDir (rd_path q) (readDirMaxReadCount q) i nm) s1) as (s2 & E3 & Hok2 & [Hv2 Hi2]).
    { done. } { by rewrite Hi1. } { by rewrite Hi1. } { done. }
    { cbn [rd_path]. by rewrite (target_of_view _ _ _ Hv1). } { by rewrite Hv1. } { done. } { done. }
    { rewrite Hi1, Hv1. fold t d. rewrite Hleft, length_drop. lia. }
    rewrite Hi1, Hv1 in E3. fold t d in E3. rewrite Hleft in E3. rewrite E3.
    exists s2. rewrite <- fmap_app, take_drop. split; [done|]. split; [done|]. split; [|congruence].
    intros a b. by rewrite Hv2, Hv1.
Qed.

(** C18: reading a directory to the end.  For every page size, a client that
    asks again with the cursor of each reply gets to the end, and has then got
    the entries this worker holds of the directory, each exactly once and with
    its mode, whichever shards and positions the pages ended at. *)
Theorem FalconReadDirHandle_complete pages q p n (s : srv) :
  let t := sv_inodes s in
  let d := view_of (sv_pp s) p n in
  srv_ok s -> rows_placed t -> local_tables t -> absolute (rd_path q) ->
  target_of (view_of (sv_pp s)) (rd_path q) = Some (p, n) -> d <> DIR_HASH_TABLE_PATH_NOT_EXIST ->
  readDirLastShardIndex q = -1 -> (readDirMaxReadCount q = -1 \/ 0 < readDirMaxReadCount q) ->
  (length (rest_from t d 0) < pages)%nat ->
  exists res s', read_directory sg name_le pages q s = Ret res s' /\ srv_ok s' /\ same_dirs s s' /\
    NoDup (fileName <$> res) /\
    (forall e, e ∈ res <-> exists sh r, (sh, ss_local) ∈ ss_rows /\
       rows_of t sh !! key_of d (fileName e) = Some r /\ mode e = st_mode r).
Proof.
  intros t d Hok Ht Hl Habs Htg Hex Hq Hm Hlen.
  assert (left_to_read t d q = rest_from t d 0) as HR by (unfold left_to_read; by rewrite Hq).
  destruct (read_directory_spec pages q p n s) as (s' & E & Hok' & Hsame); try done; [by left| | |].
  { unfold page_size, INT32_MAX. destruct Hm as [->|Hm]; [by cbn; lia|].
    destruct (Z.eqb_spec (readDirMaxReadCount q) (-1)); lia. }
  { fold t d. by rewrite HR. }
  fold t d in E. rewrite HR in E. exists (entry_of <$> rest_from t d 0), s'.
  split; [done|]. split; [done|]. split; [done|]. split.
  - rewrite <- list_fmap_compose. exact (rest_from_names t d Ht).
  - intros e. rewrite list_elem_of_fmap. split.
    + intros (x & -> & Hx). apply rest_from_elem in Hx as (sh & Hin & Hx).
      apply dir_rows_key in Hx as (_ & Hr & _); [|done]. exists sh, x.2. done.
    + intros (sh & r & Hin & Hr & Hmode). exists (key_of d (fileName e), r). split.
      * unfold entry_of. cbn. rewrite <- Hmode. by destruct e.
      * apply rest_from_elem. exists sh. split; [done|]. by apply dir_rows_elem.
Qed.

(** A page size of zero in an empty directory is not answered: the reply takes
    the name of the last entry of an empty list. *)
Lemma read_page_zero d q t sh :
  readDirMaxReadCount q = 0 -> readDirLastShardIndex q = -1 -> ss_rows !! 0%nat = Some (sh, ss_local) ->
  is_Some (t !! sh) -> dir_rows t d sh = [] ->
  read_page sg name_le d q t = Ret NullDereference t.
Proof.
  intros Hm Hi Hs [rows Hr] Hd. unfold read_page. rewrite Hm, Hi. cbn.
  unfold mbind, cmd_bind. rewrite Hs. rewrite Z.eqb_refl. cbn. rewrite Hr.
  unfold dir_rows, rows_of in Hd. rewrite Hr in Hd. cbn in Hd.
  assert (scan sg name_le NEW_SHARD d (readDirLastFileName q) rows = []) as -> by exact Hd. done.
Qed.
End ReadDirProofs.

(** ** Examples *)

#[local] Existing Instance one_shard.

Lemma one_shard_lookup v : ss_lookup v = Some (INT32_MAX, 1).
Proof.
  destruct (one_shard_covers v) as [[sh w] H]. rewrite H. apply lower_bound_Some in H as (H & _).
  by apply lookup_singleton_Some in H as [<- <-].
Qed.

Lemma full_rows_placed : rows_placed true (sv_inodes full_server).
Proof.
  intros sh k r H. unfold rows_of in H. cbn [sv_inodes full_server] in H.
  destruct (decide (sh = INT32_MAX)) as [->|Hne]; [|by rewrite lookup_singleton_ne in H].
  rewrite lookup_singleton_eq in H. cbn [default from_option id] in H. split; [|rewrite one_shard_lookup; eauto].
  exists 5. apply lookup_insert_Some in H as [[<- _]|[_ H]]; [done|]. by apply lookup_singleton_Some in H as [<- _].
Qed.

Lemma full_local_tables : local_tables (sv_inodes full_server).
Proof.
  intros sh H. apply (index_scan_elem Z.le) in H. apply lookup_singleton_Some in H as [<- _].
  cbn. rewrite lookup_singleton_eq. eauto.
Qed.

Definition names_of (o : outcome (server_state (Dir := gmap (Z * string) Z)) (list OneReadDirResult)) : list string :=
  match o with Ret res _ => fileName <$> res | _ => [] end.

Lemma FalconReadDirHandle_complete_witness :
  exists res s', read_directory true String.le 3 (mkReadDir "/a" 1 (-1) "") full_server = Ret res s' /\
    fileName <$> res = ["d"; "f"]%string.
Proof.
  destruct (FalconReadDirHandle_complete true String.le 3 (mkReadDir "/a" 1 (-1) "") 1 "a" full_server
    full_server_ok full_rows_placed full_local_tables eq_refl eq_refl ltac:(by vm_compute) eq_refl
    ltac:(right; cbn; lia) ltac:(vm_compute; lia)) as (res & s' & E & _).
  exists res, s'. split; [exact E|].
  assert (names_of (read_directory true String.le 3 (mkReadDir "/a" 1 (-1) "") full_server) = ["d"; "f"]%string) as H
    by (vm_compute; reflexivity). by rewrite E in H.
Defined.
