(* ===== verification/ClientReadDir.v ===== *)
(** * Reading directories on the client (falcon_client/src/falcon_meta.cpp)

    FalconReadDir with the open directory of
    common/src/include/buffer/dir_open_instance.h.  A call of FUSE fills its
    buffer from entries fetched earlier; when those are used up, one page is
    fetched from every worker that has not finished.

    What a worker promises is an interface, and FalconReadDirHandle of
    falcon/metadb/meta_handle.c implements it.  The order in which an
    unordered_map is walked is a parameter.  The directory does not change
    while it is read. *)

From S2P Require Import FalconPrelude InodeTable ShardService MetaFile MetaReadDir.

(** Connection::ReadDir on one directory: the entries, the index of the shard
    and the last name, empty where the response has none. *)
Class DirectoryReader : Type := {
  dr_read : string -> Z -> Z -> string -> FalconErrorCode + (list OneReadDirResult * Z * string);
  (** What a cursor has left, for the cursors a worker hands out. *)
  dr_left : string -> Z -> string -> list OneReadDirResult;
  dr_ok : string -> Z -> string -> Prop;
  dr_first w : dr_ok w (-1) EmptyString;
  dr_read_spec w max i n :
    0 < max -> dr_ok w i n ->
    exists i' n', dr_read w max i n = inr (take (Z.to_nat max) (dr_left w i n), i', n') /\
      ((Z.to_nat max <= length (dr_left w i n))%nat ->
         dr_ok w i' n' /\ dr_left w i' n' = drop (Z.to_nat max) (dr_left w i n));
}.

(** The members FalconReadDir works with; connections are known by ip and
    port. *)
Record DirOpenInstance : Type := mkDir {
  workers : list string;
  workingWorkers : list string;
  partialEntryVec : list string;
  fileModes : list Z;
  lastFileNames : gmap string string;
  lastShardIndexes : gmap string Z;
  offset : nat;
}.

Definition new_DirOpenInstance : DirOpenInstance := mkDir [] [] [] [] ∅ ∅ 0.

Definition FILE_NUMBER_PER_EPOCH : Z := 1048576.
Definition FILE_NUMBER_PER_WORKER : Z := 4096.

(** emplace keeps a value that is there. *)
Definition emplace {A} (k : string) (v : A) (m : gmap string A) : gmap string A :=
  match m !! k with Some _ => m | None => <[k := v]> m end.

Definition SetAllWorkerInfo (tmpWorkers : list string) (d : DirOpenInstance) : DirOpenInstance :=
  mkDir tmpWorkers tmpWorkers (partialEntryVec d) (fileModes d)
    (foldr (fun w => emplace w EmptyString) (lastFileNames d) tmpWorkers)
    (foldr (fun w => emplace w (-1)) (lastShardIndexes d) tmpWorkers) (offset d).

(** The buffer of FUSE: the entries taken, and how many more fit. *)
Record fuse_buf : Type := mkBuf { taken : list (string * Z); room : nat }.

(** filler: an entry that does not fit is refused. *)
Definition filler (name : string) (st_mode : Z) (b : fuse_buf) : bool * fuse_buf :=
  match room b with
  | O => (true, b)
  | S r => (false, mkBuf (taken b ++ [(name, st_mode)]) r)
  end.

Section Client.
Context {DR : DirectoryReader} (map_order : list string -> list string).

(** operator[] of the maps. *)
Definition name_at (d : DirOpenInstance) (w : string) : string := default EmptyString (lastFileNames d !! w).
Definition index_at (d : DirOpenInstance) (w : string) : Z := default 0 (lastShardIndexes d !! w).

(** The loop over the workers, and the code at its end. *)
Fixpoint fetch_pages (fileNumberPerWorker : Z) (ws : list string) (d : DirOpenInstance) : FalconErrorCode * DirOpenInstance :=
  match ws with
  | [] => (SUCCESS, d)
  | ipPort :: ws' =>
      match dr_read ipPort fileNumberPerWorker (index_at d ipPort) (name_at d ipPort) with
      | inl ret => (ret, d)
      | inr (result_list, i, n) =>
          let finished := Z.of_nat (length result_list) <? fileNumberPerWorker in
          fetch_pages fileNumberPerWorker ws'
            (mkDir (workers d) (if finished then workingWorkers d else workingWorkers d ++ [ipPort])
              (partialEntryVec d ++ (fileName <$> result_list)) (fileModes d ++ (mode <$> result_list))
              (if finished then delete ipPort (<[ipPort := n]> (lastFileNames d)) else <[ipPort := n]> (lastFileNames d))
              (<[ipPort := i]> (lastShardIndexes d)) (offset d))
      end
  end.

(** The entries from the offset on go to the buffer until one is refused. *)
Fixpoint fill_entries (i : nat) (names : list string) (modes : list Z) (b : fuse_buf) : nat * fuse_buf :=
  match names with
  | [] => (i, b)
  | n :: names' =>
      match filler n (default 0 (head modes)) b with
      | (true, b') => (i, b')
      | (false, b') => fill_entries (S i) names' (tail modes) b'
      end
  end.

Definition with_offset (o : nat) (d : DirOpenInstance) : DirOpenInstance :=
  mkDir (workers d) (workingWorkers d) (partialEntryVec d) (fileModes d) (lastFileNames d) (lastShardIndexes d) o.

(** The part of FalconReadDir after the entries for the directory itself. *)
Definition read_entries (d : DirOpenInstance) (b : fuse_buf) : FalconErrorCode * DirOpenInstance * fuse_buf :=
  let workerNotFinished := Z.of_nat (length (workingWorkers d)) in
  let '(ret, d1) :=
    if bool_decide (length (partialEntryVec d) <= offset d)%nat && negb (workerNotFinished =? 0) then
      let fileNumberPerWorker := Z.min (FILE_NUMBER_PER_EPOCH / workerNotFinished) FILE_NUMBER_PER_WORKER in
      fetch_pages fileNumberPerWorker (map_order (workingWorkers d))
        (mkDir (workingWorkers d) [] [] (fileModes d) (lastFileNames d) (lastShardIndexes d) 0)
    else (SUCCESS, d) in
  if bool_decide (ret = SUCCESS) then
    let '(o, b') := fill_entries (offset d1) (drop (offset d1) (partialEntryVec d1)) (drop (offset d1) (fileModes d1)) b in
    (SUCCESS, with_offset o d1, b')
  else (ret, d1, b).

(** FalconReadDir on an open directory; [allWorkers] is what
    GetAllWorkerConnection gives. *)
Definition FalconReadDir (allWorkers : list string) (off : Z) (d : DirOpenInstance) (b : fuse_buf)
    : FalconErrorCode * DirOpenInstance * fuse_buf :=
  if off =? 0 then
    read_entries (SetAllWorkerInfo allWorkers d) (filler ".." 0 (filler "." 0 b).2).2
  else read_entries d b.
End Client.

(** ** Properties *)

Section ClientProofs.
Context {DR : DirectoryReader} (map_order : list string -> list string).
Context (map_order_perm : forall l, map_order l ≡ₚ l).

(** The names the given workers have left. *)
Definition names_left (d : DirOpenInstance) (ws : list string) : list string :=
  concat ((fun w => fileName <$> dr_left w (index_at d w) (name_at d w)) <$> ws).

(** The names a directory will still deliver. *)
Definition pending (d : DirOpenInstance) : list string :=
  drop (offset d) (partialEntryVec d) ++ names_left d (workingWorkers d).

Definition cursors_ok (d : DirOpenInstance) (ws : list string) : Prop :=
  forall w, w ∈ ws -> dr_ok w (index_at d w) (name_at d w).

Definition dir_ok (d : DirOpenInstance) : Prop :=
  NoDup (workingWorkers d) /\ cursors_ok d (workingWorkers d) /\
  Z.of_nat (length (workingWorkers d)) <= FILE_NUMBER_PER_EPOCH.

Lemma names_left_ext d d' ws :
  (forall w, w ∈ ws -> index_at d' w = index_at d w /\ name_at d' w = name_at d w) ->
  names_left d' ws = names_left d ws.
Proof.
  intros H. unfold names_left. f_equal. apply list_fmap_ext. intros _ w Hw%list_elem_of_lookup_2.
  by destruct (H w Hw) as [-> ->].
Qed.

Lemma names_left_app d l1 l2 : names_left d (l1 ++ l2) = names_left d l1 ++ names_left d l2.
Proof. unfold names_left. by rewrite fmap_app, concat_app. Qed.

(** The effect of a page on the workers other than its own. *)
Definition after_page (w : string) (fin : bool) (l : list OneReadDirResult) (i : Z) (n : string) (d : DirOpenInstance)
    : DirOpenInstance :=
  mkDir (workers d) (if fin then workingWorkers d else workingWorkers d ++ [w])
    (partialEntryVec d ++ (fileName <$> l)) (fileModes d ++ (mode <$> l))
    (if fin then delete w (<[w := n]> (lastFileNames d)) else <[w := n]> (lastFileNames d))
    (<[w := i]> (lastShardIndexes d)) (offset d).

Lemma after_page_other w fin l i n d w' :
  w' <> w -> index_at (after_page w fin l i n d) w' = index_at d w' /\ name_at (after_page w fin l i n d) w' = name_at d w'.
Proof.
  intros Hw. unfold index_at, name_at, after_page. cbn. rewrite lookup_insert_ne by done. split; [done|].
  destruct fin; rewrite ?lookup_delete_ne, lookup_insert_ne by done; done.
Qed.

Lemma after_page_own w l i n d :
  index_at (after_page w false l i n d) w = i /\ name_at (after_page w false l i n d) w = n.
Proof. unfold index_at, name_at, after_page. cbn. by rewrite !lookup_insert_eq. Qed.

Lemma fetch_pages_spec m ws d :
  0 < m -> NoDup (workingWorkers d ++ ws) -> cursors_ok d (workingWorkers d ++ ws) ->
  exists d', fetch_pages m ws d = (SUCCESS, d') /\ offset d' = offset d /\
    NoDup (workingWorkers d') /\ cursors_ok d' (workingWorkers d') /\
    (length (workingWorkers d') <= length (workingWorkers d ++ ws))%nat /\
    partialEntryVec d' ++ names_left d' (workingWorkers d') ≡ₚ
      partialEntryVec d ++ names_left d (workingWorkers d ++ ws) /\
    (length (partialEntryVec d) <= length (partialEntryVec d'))%nat /\
    (partialEntryVec d' = [] -> workingWorkers d' = workingWorkers d).
Proof.
  intros Hm. revert d. induction ws as [|w ws IH]; intros d Hnd Hok; cbn [fetch_pages].
  { exists d. rewrite app_nil_r in *. done. }
  destruct (dr_read_spec w m (index_at d w) (name_at d w) Hm) as (i & n & E & Hnext).
  { apply Hok, elem_of_app. right. left. }
  rewrite E. set (L := dr_left w (index_at d w) (name_at d w)) in *. set (l := take (Z.to_nat m) L) in *.
  assert (length l = (Z.to_nat m `min` length L)%nat) as Hl by apply length_take.
  pose proof (NoDup_app (workingWorkers d) (w :: ws)) as [Hsplit _]. destruct (Hsplit Hnd) as (Hnd1 & Hdis & Hnd2).
  apply NoDup_cons in Hnd2 as [Hw Hnd2].
  assert (forall w', w' ∈ workingWorkers d ++ ws -> w' <> w) as Hne.
  { intros w' Hw' ->. apply elem_of_app in Hw' as [Hw'|Hw']; [|done]. apply (Hdis w Hw'). left. }
  assert (names_left d (workingWorkers d ++ w :: ws) ≡ₚ (fileName <$> L) ++ names_left d (workingWorkers d ++ ws)) as Hp.
  { rewrite !names_left_app. change (names_left d (w :: ws)) with ((fileName <$> L) ++ names_left d ws). solve_Permutation. }
  change (exists d', fetch_pages m ws (after_page w (Z.of_nat (length l) <? m) l i n d) = (SUCCESS, d') /\ offset d' = offset d /\
    NoDup (workingWorkers d') /\ cursors_ok d' (workingWorkers d') /\
    (length (workingWorkers d') <= length (workingWorkers d ++ w :: ws))%nat /\
    partialEntryVec d' ++ names_left d' (workingWorkers d') ≡ₚ
      partialEntryVec d ++ names_left d (workingWorkers d ++ w :: ws) /\
    (length (partialEntryVec d) <= length (partialEntryVec d'))%nat /\
    (partialEntryVec d' = [] -> workingWorkers d' = workingWorkers d)).
  destruct (Z.ltb_spec (Z.of_nat (length l)) m) as [Hlt|Hge]; set (d1 := after_page _ _ _ _ _ _).
  - destruct (IH d1) as (d' & E' & Ho & Hn' & Hok' & Hlen & Hperm & Hpre & Hw').
    { cbn. apply NoDup_app. split_and!; [done| |done]. intros x Hx Hin. apply (Hdis x Hx). by right. }
    { cbn. intros w' Hin. destruct (after_page_other w true l i n d w' (Hne w' Hin)) as [E1 E2].
      unfold d1. rewrite E1, E2. apply Hok.
      apply elem_of_app in Hin as [?|?]; apply elem_of_app; [by left|right; by right]. }
    exists d'. cbn in Hlen, Hpre, Hw'. rewrite length_app in Hpre, Hlen. rewrite length_app.
    split_and!; try done; cbn; try lia.
    rewrite Hperm, Hp. change (workingWorkers d1) with (workingWorkers d).
    change (partialEntryVec d1) with (partialEntryVec d ++ (fileName <$> l)). rewrite (names_left_ext d d1) by (intros; apply after_page_other, Hne; done).
    unfold l. rewrite take_ge by lia. by rewrite <- app_assoc.
  - destruct Hnext as [Hok1 Hdrop]; [lia|].
    destruct (IH d1) as (d' & E' & Ho & Hn' & Hok' & Hlen & Hperm & Hpre & Hw').
    { cbn. by rewrite <- app_assoc. }
    { cbn. intros w' Hin. rewrite <- app_assoc in Hin. cbn in Hin. destruct (decide (w' = w)) as [->|Hd].
      - destruct (after_page_own w l i n d) as [E1 E2]. unfold d1. by rewrite E1, E2.
      - destruct (after_page_other w false l i n d w' Hd) as [E1 E2]. unfold d1. rewrite E1, E2. by apply Hok. }
    exists d'. cbn in Hlen, Hpre, Hw'. rewrite !length_app in Hlen. rewrite length_app, length_fmap in Hpre.
    rewrite !length_app. cbn [length] in *. split_and!; try done; try lia.
    + rewrite Hperm, Hp. change (workingWorkers d1) with (workingWorkers d ++ [w]).
      change (partialEntryVec d1) with (partialEntryVec d ++ (fileName <$> l)). rewrite <- (app_assoc (workingWorkers d)), !names_left_app.
      rewrite (names_left_ext d d1 (workingWorkers d)), (names_left_ext d d1 ws)
        by (intros; apply after_page_other, Hne; apply elem_of_app; auto).
      assert (names_left d1 [w] = fileName <$> drop (Z.to_nat m) L) as ->.
      { unfold names_left, d1. cbn. destruct (after_page_own w l i n d) as [E1 E2]. by rewrite E1, E2, Hdrop, app_nil_r. }
      assert (fileName <$> L = (fileName <$> l) ++ (fileName <$> drop (Z.to_nat m) L)) as ->
        by (unfold l; by rewrite <- fmap_app, take_drop). solve_Permutation.
    + intros Hnil. rewrite Hnil in Hpre. cbn in Hpre. lia.
Qed.

Lemma fill_entries_spec i names modes b :
  let k := (length names `min` room b)%nat in
  exists b', fill_entries i names modes b = ((i + k)%nat, b') /\ (taken b').*1 = (taken b).*1 ++ take k names.
Proof.
  revert i modes b. induction names as [|n names IH]; intros i modes b; cbn [fill_entries].
  { exists b. rewrite take_nil, app_nil_r, Nat.add_0_r. done. }
  unfold filler. destruct (room b) as [|r] eqn:Er.
  { exists b. rewrite Nat.min_0_r, Nat.add_0_r, app_nil_r. done. }
  destruct (IH (S i) (tail modes) (mkBuf (taken b ++ [(n, default 0 (head modes))]) r)) as (b' & E & Ht).
  exists b'. rewrite E. cbn [length room taken] in *. split; [f_equal; lia|].
  rewrite Ht, fmap_app, <- app_assoc. done.
Qed.

(** One call, after the entries for the directory itself. *)
Lemma read_entries_delivers d b :
  dir_ok d ->
  exists d' b' given, read_entries map_order d b = (SUCCESS, d', b') /\ dir_ok d' /\
    (taken b').*1 = (taken b).*1 ++ given /\ given ++ pending d' ≡ₚ pending d /\
    (given = [] -> (0 < room b)%nat -> pending d = []).
Proof.
  intros (Hnd & Hok & Hlen). unfold read_entries.
  assert (exists d1, (if bool_decide (length (partialEntryVec d) <= offset d)%nat && negb (Z.of_nat (length (workingWorkers d)) =? 0) then
      fetch_pages (Z.min (FILE_NUMBER_PER_EPOCH / Z.of_nat (length (workingWorkers d))) FILE_NUMBER_PER_WORKER) (map_order (workingWorkers d))
        (mkDir (workingWorkers d) [] [] (fileModes d) (lastFileNames d) (lastShardIndexes d) 0)
      else (SUCCESS, d)) = (SUCCESS, d1) /\ dir_ok d1 /\ pending d1 ≡ₚ pending d /\
      (drop (offset d1) (partialEntryVec d1) = [] -> pending d1 = [])) as (d1 & -> & Hok1 & Hp1 & Hprog).
  { case_bool_decide as Hex; cbn [andb].
    2:{ exists d. split; [done|]. split; [done|]. split; [done|]. intros H. apply (f_equal length) in H. rewrite length_drop in H. cbn in H. lia. }
    destruct (Z.eqb_spec (Z.of_nat (length (workingWorkers d))) 0) as [Hz|Hz]; cbn [negb].
    { exists d. split; [done|]. split; [done|]. split; [done|]. intros _.
      unfold pending. rewrite drop_ge by done. destruct (workingWorkers d); [done|]. cbn in Hz. lia. }
    set (d0 := mkDir _ _ _ _ _ _ _).
    destruct (fetch_pages_spec (Z.min (FILE_NUMBER_PER_EPOCH / Z.of_nat (length (workingWorkers d))) FILE_NUMBER_PER_WORKER)
      (map_order (workingWorkers d)) d0) as (d1 & E & Ho & Hnd1 & Hok1 & Hlen1 & Hperm & _ & Hprog).
    { unfold FILE_NUMBER_PER_WORKER. apply Z.min_glb_lt; [|lia]. apply Z.div_str_pos. lia. }
    { cbn. by rewrite map_order_perm. }
    { cbn. intros w Hw. rewrite map_order_perm in Hw. by apply Hok. }
    cbn [workingWorkers d0 app offset partialEntryVec] in *. exists d1. split; [done|].
    rewrite map_order_perm in Hlen1. split; [split_and!; [done|done|lia]|]. unfold pending. rewrite Ho, drop_0.
    split; [|intros Hnil; rewrite Hnil, (Hprog Hnil); done].
    rewrite Hperm, drop_ge by done. unfold names_left. by rewrite map_order_perm. }
  rewrite bool_decide_eq_true_2 by done.
  destruct (fill_entries_spec (offset d1) (drop (offset d1) (partialEntryVec d1)) (drop (offset d1) (fileModes d1)) b) as (b' & -> & Ht).
  eexists _, _, _. split; [done|]. split; [done|]. split; [exact Ht|]. set (k := (_ `min` _)%nat) in *. split.
  - rewrite <- Hp1. unfold pending. cbn. rewrite <- drop_drop, app_assoc, take_drop. done.
  - intros Hnil Hr. symmetry in Hp1. apply Permutation_nil_r. rewrite Hp1, Hprog; [done|].
    apply (f_equal length) in Hnil. rewrite length_take in Hnil. cbn in Hnil. apply nil_length_inv. lia.
Qed.

Lemma fold_emplace {A} ws (v : A) (m : gmap string A) w :
  m = ∅ -> foldr (fun w => emplace w v) m ws !! w = if decide (w ∈ ws) then Some v else None.
Proof.
  intros ->. induction ws as [|w' ws IH]; cbn [foldr]; [by rewrite lookup_empty|]. unfold emplace at 1.
  destruct (decide (w = w')) as [->|Hne].
  - rewrite (decide_True (P := w' ∈ w' :: ws)) by left.
    destruct (foldr _ _ ws !! w') as [x|] eqn:E; [|apply lookup_insert_eq].
    destruct (decide (w' ∈ ws)); congruence.
  - assert ((if decide (w ∈ w' :: ws) then Some v else None) = (if decide (w ∈ ws) then Some v else None)) as ->.
    { destruct (decide (w ∈ ws)); [rewrite decide_True by (by right)|rewrite decide_False by (intros [?|?]%elem_of_cons; done)]; done. }
    destruct (foldr _ _ ws !! w'); [done|]. by rewrite lookup_insert_ne.
Qed.

Lemma opened_first all w : w ∈ all ->
  index_at (SetAllWorkerInfo all new_DirOpenInstance) w = -1 /\ name_at (SetAllWorkerInfo all new_DirOpenInstance) w = EmptyString.
Proof.
  intros Hw. unfold index_at, name_at, SetAllWorkerInfo. cbn. by rewrite !fold_emplace, !decide_True by done.
Qed.

(** The directory as the call starts from it, and the buffer. *)
Definition start_dir (all : list string) (off : Z) (d : DirOpenInstance) : DirOpenInstance :=
  if off =? 0 then SetAllWorkerInfo all d else d.
Definition start_buf (off : Z) (b : fuse_buf) : fuse_buf :=
  if off =? 0 then (filler ".." 0 (filler "." 0 b).2).2 else b.


Lemma fill_entries_appends i names modes b :
  exists more, taken (fill_entries i names modes b).2 = taken b ++ more.
Proof.
  revert i modes b. induction names as [|n names IH]; intros i modes b; cbn [fill_entries].
  { exists []. by rewrite app_nil_r. }
  unfold filler. destruct (room b) as [|r]; [exists []; by rewrite app_nil_r|].
  destruct (IH (S i) (tail modes) (mkBuf (taken b ++ [(n, default 0 (head modes))]) r)) as [more ->].
  eexists. cbn. by rewrite <- app_assoc.
Qed.

(** The modes of later pages.  The vector of modes is not cleared with the
    vector of names: when a directory takes more than one round of pages, the
    first entry of the new round is reported with the mode of the first entry
    of the first round. *)
Theorem FalconReadDir_stale_modes all off d b w e rest m0 ms r :
  off <> 0 -> (length (partialEntryVec d) <= offset d)%nat -> workingWorkers d = [w] ->
  dr_ok w (index_at d w) (name_at d w) -> dr_left w (index_at d w) (name_at d w) = e :: rest ->
  fileModes d = m0 :: ms -> room b = S r ->
  exists d' b' more, FalconReadDir map_order all off d b = (SUCCESS, d', b') /\
    taken b' = taken b ++ (fileName e, m0) :: more.
Proof.
  intros Hoff Hex Hw Hok Hleft Hm Hr. unfold FalconReadDir. rewrite (proj2 (Z.eqb_neq _ _) Hoff). unfold read_entries.
  rewrite bool_decide_eq_true_2, Hw by done. cbn [length andb negb].
  rewrite (Permutation_length_1_inv (symmetry (map_order_perm [w]))). cbn [fetch_pages].
  set (m := Z.min _ _). assert (0 < m) as Hpos by (by vm_compute).
  destruct (dr_read_spec w m (index_at d w) (name_at d w) Hpos Hok) as (i & n & E & _).
  change (index_at (mkDir _ _ _ _ _ _ _) w) with (index_at d w). change (name_at (mkDir _ _ _ _ _ _ _) w) with (name_at d w).
  rewrite E, Hleft. replace (Z.to_nat m) with (S (Z.to_nat (m - 1))) by lia. cbn [take fmap list_fmap].
  change (negb (Z.of_nat 1 =? 0)) with true. cbv beta iota. rewrite bool_decide_eq_true_2 by done. cbn [offset drop partialEntryVec fileModes app]. rewrite Hm. cbn [app fill_entries].
  unfold filler. rewrite Hr. cbn [head default from_option id tail].
  match goal with |- context [fill_entries ?a ?b ?c ?d] => destruct (fill_entries_appends a b c d) as [more Hmore];
    destruct (fill_entries a b c d) as [o b'] end.
  eexists _, b', more. split; [done|]. cbn in Hmore. by rewrite Hmore, <- app_assoc.
Qed.

(** Going back to the start keeps the cursors of the workers. *)
Lemma rewind_keeps_cursor all d w i n :
  lastShardIndexes d !! w = Some i -> lastFileNames d !! w = Some n ->
  index_at (SetAllWorkerInfo all d) w = i /\ name_at (SetAllWorkerInfo all d) w = n.
Proof.
  intros Hi Hn. unfold index_at, name_at, SetAllWorkerInfo. cbn.
  assert (forall A (v x : A) (m : gmap string A), m !! w = Some x -> foldr (fun w => emplace w v) m all !! w = Some x) as H.
  { intros A v x m Hm. induction all as [|w' ws IH]; [done|]. cbn [foldr]. unfold emplace at 1.
    destruct (foldr _ m ws !! w') eqn:E; [done|]. rewrite lookup_insert_ne; [done|]. intros ->. congruence. }
  by rewrite (H _ _ _ _ Hi), (H _ _ _ _ Hn).
Qed.
End ClientProofs.

(** ** The workers implement the interface *)

Section ServerReader.
Context (ss : string -> ShardService) (sg : bool) (name_le : relation string) `{!RelDecision name_le}.
Context `{!Total name_le, !Transitive name_le, !AntiSymm (=) name_le}.
Context (directoryId : Z) (t : string -> inode_shards).
Context (t_placed : forall w, rows_placed (SS := ss w) sg (t w)) (t_local : forall w, local_tables (SS := ss w) (t w)).
Context (t_named : forall w sh k r, rows_of (t w) sh !! k = Some r -> k.2 <> EmptyString).

#[export] Program Instance server_reader : DirectoryReader := {
  dr_read w max i n :=
    match read_page (SS := ss w) sg name_le directoryId (mkReadDir EmptyString max i n) (t w) with
    | Ret (Page l i' n') _ => inr (l, i', default EmptyString n')
    | Ret NullDereference _ => inl SERVER_FAULT
    | Raise e _ => inl e
    | OutOfFuel => inl PROGRAM_ERROR
    end;
  dr_left w i n := entry_of <$> left_to_read (SS := ss w) sg name_le (t w) directoryId (mkReadDir EmptyString 1 i n);
  dr_ok w i n := cursor_ok (SS := ss w) (mkReadDir EmptyString 1 i n) /\ (i <> -1 -> n <> EmptyString);
}.
Next Obligation. intros w. split; [by left|done]. Qed.
Next Obligation.
  intros w max i n Hm [Hc _]. cbv beta.
  destruct (read_page_spec (SS := ss w) sg name_le directoryId (mkReadDir EmptyString max i n) (t w) (t_placed w) (t_local w) Hc)
    as (i' & name & E & Hn).
  { unfold page_size. cbn. destruct (Z.eqb_spec max (-1)); lia. }
  assert (page_size (mkReadDir EmptyString max i n) = Z.to_nat max) as Hp.
  { unfold page_size. cbn. destruct (Z.eqb_spec max (-1)); lia. }
  rewrite Hp in E, Hn. rewrite E. exists i', (default EmptyString name).
  split; [by rewrite fmap_take|]. intros Hlen. rewrite length_fmap in Hlen.
  rewrite decide_False in Hn by (change (left_to_read sg name_le (t w) directoryId (mkReadDir EmptyString max i n))
    with (left_to_read (SS := ss w) sg name_le (t w) directoryId (mkReadDir EmptyString 1 i n)); lia).
  destruct Hn as (nm & -> & Hc' & Hi & Hleft & sh & x & Hx & ->). cbn [default from_option id]. split; [split; [done|]|].
  - intros _. apply (dir_rows_key (SS := ss w)) in Hx as (Hk & Hr & _); [|apply t_placed]. by apply t_named in Hr.
  - rewrite <- fmap_drop. f_equal. exact Hleft.
Qed.
End ServerReader.

(** ** Examples *)

Definition two_entries : list OneReadDirResult := [mkEntry "d" 0x41ED; mkEntry "f" 0x81A4].

(** A worker with two entries that answers one at a time; the index counts the
    entries read. *)
#[local] Program Instance one_at_a_time : DirectoryReader := {
  dr_read w max i n :=
    let l := drop (Z.to_nat (i + 1)) two_entries in
    inr (take (Z.to_nat max) l, i + max, n);
  dr_left w i n := drop (Z.to_nat (i + 1)) two_entries;
  dr_ok w i n := -1 <= i;
}.
Next Obligation. done. Qed.
Next Obligation.
  intros w max i n Hm Hi. cbv beta in *. eexists _, _. split; [done|]. intros _. split; [lia|].
  rewrite drop_drop. f_equal. lia.
Qed.


(** The directory after a first round that ended with the entry d. *)
Definition second_round : DirOpenInstance :=
  mkDir ["w"%string] ["w"%string] ["d"%string] [0x41ED] {[ "w"%string := "d"%string ]} {[ "w"%string := 0 ]} 1.

Lemma FalconReadDir_stale_modes_witness :
  exists d' b' more, FalconReadDir (fun l => l) ["w"%string] 3 second_round (mkBuf [] 5) = (SUCCESS, d', b') /\
    taken b' = ("f"%string, 0x41ED) :: more.
Proof.
  exact (FalconReadDir_stale_modes (fun l => l) ltac:(done) ["w"%string] 3 second_round (mkBuf [] 5) "w" (mkEntry "f" 0x81A4) []
    0x41ED [] 4 ltac:(done) ltac:(cbn; lia) eq_refl ltac:(by vm_compute) eq_refl eq_refl eq_refl).
Defined.
