(* ===== verification/PathTable.v ===== *)
(** * Paths over a plain table of directories

    What the handlers on the coordinator use of PathParse.v: the table is not
    changed by parsing, the target of a parse is where the entries of the table
    lead, also when the same transaction has locked or created directories
    before. *)

From S2P Require Import FalconPrelude DirService InodeId PathCmp PathParse.

Abbreviation dir_table := (gmap (Z * string) Z) (only parsing).
Abbreviation tstate := (pp_state (Dir := gmap (Z * string) Z)) (only parsing).

(** ** The table is not changed *)

Section KeepsDir.
Context (node : Z).

Definition keeps_dir {A : Type} (m : cmd tstate A) : Prop := forall s a s', m s = Ret a s' -> pp_dir s' = pp_dir s.

Lemma keeps_bind {A B : Type} (m : cmd tstate A) (k : A -> cmd tstate B) :
  keeps_dir m -> (forall a, keeps_dir (k a)) -> keeps_dir (m ≫= k).
Proof.
  intros Hm Hk s b s' H. apply bind_Ret_inv in H as (a & s1 & E1 & E2).
  rewrite (Hk a _ _ _ E2). by eapply Hm.
Qed.

Lemma keeps_ret {A : Type} (a : A) : keeps_dir (mret a).
Proof. by intros s b s' [= <- <-]. Qed.
Lemma keeps_raise {A : Type} (e : FalconErrorCode) : keeps_dir (raise e : cmd tstate A).
Proof. by intros s b s' H. Qed.
Lemma keeps_find k : keeps_dir (rbt_find k).
Proof. by intros s b s' [= <- <-]. Qed.
Lemma keeps_set k nd : keeps_dir (set_node k nd).
Proof. by intros s b s' [= <- <-]. Qed.
Lemma keeps_search p n lk : keeps_dir (SearchDirectory p n lk).
Proof. intros s b s' H. unfold SearchDirectory, on_dir in H. cbn in H. by simplify_eq. Qed.
Lemma keeps_release : keeps_dir (on_dir ds_release_last).
Proof. intros s b s' H. unfold on_dir in H. cbn in H. by simplify_eq. Qed.
Lemma keeps_next : keeps_dir (next_inode_id node).
Proof. intros s b s' H. unfold next_inode_id in H. destruct (GetNextSequenceNum _ _) as [[v nx] c]. by simplify_eq. Qed.
Lemma keeps_fuel {A : Type} : keeps_dir (fun _ => OutOfFuel : outcome tstate A).
Proof. by intros s b s' H. Qed.

Create HintDb keeps.
#[local] Hint Resolve keeps_ret keeps_raise keeps_find keeps_set keeps_search keeps_release keeps_next keeps_fuel : keeps.
Ltac keeps := repeat (first [ progress eauto with keeps | apply keeps_bind; [|intros ?] | case_match ]).

Lemma keeps_insert k nd : keeps_dir (rbt_insert k nd).
Proof. unfold rbt_insert. keeps. Qed.
#[local] Hint Resolve keeps_insert : keeps.

Lemma keeps_enter key id d : keeps_dir (enter_directory key id d).
Proof. unfold enter_directory. keeps. Qed.
#[local] Hint Resolve keeps_enter : keeps.

Lemma keeps_walk fuel first rest len key id : keeps_dir (walk fuel first rest len key id).
Proof. revert first rest len key id. induction fuel as [|fuel IH]; intros; cbn [walk]; keeps. Qed.
#[local] Hint Resolve keeps_walk : keeps.

Lemma keeps_target flag w inode : keeps_dir (parse_target node flag w inode).
Proof. unfold parse_target, parse_create, parse_delete, parse_lock_target. keeps. Qed.
#[local] Hint Resolve keeps_target : keeps.

Lemma parse_keeps path flag inode : keeps_dir (PathParseTreeInsert node path flag inode).
Proof. unfold PathParseTreeInsert. keeps. Qed.

Lemma keeps_check fuel first rest len id : keeps_dir (check_loop fuel first rest len id).
Proof. revert first rest len id. induction fuel as [|fuel IH]; intros; cbn [check_loop]; keeps. Qed.
#[local] Hint Resolve keeps_check : keeps.

Lemma check_keeps path : keeps_dir (CheckWhetherPathExistsInDirectoryTable path).
Proof. unfold CheckWhetherPathExistsInDirectoryTable. keeps. Qed.
End KeepsDir.

(** ** Trees with locked directories *)

(** A node is locked exclusively, or it is a directory entry. *)
Definition tree_weak (view : Z -> string -> Z) (t : gmap (list string) PathParseRBTreeNode) : Prop :=
  forall n p nd, t !! (n :: p) = Some nd ->
    lockAcquired nd = PP_EXCLUSIVE \/ exists pid, node_id t p = Some pid /\ inodeId nd = view pid n /\
      inodeId nd <> DIR_HASH_TABLE_PATH_NOT_EXIST.

Lemma tree_agrees_weak view t : tree_agrees view t -> tree_weak view t.
Proof. intros H n p nd Hn. right. destruct (H n p nd Hn) as (_ & ? & pid & ? & ?). eauto. Qed.

Lemma tree_weak_lock view t k nd :
  tree_weak view t -> t !! k = None -> k <> [] -> lockAcquired nd = PP_EXCLUSIVE -> tree_weak view (<[k := nd]> t).
Proof.
  intros Ht Hk Hne Hl n p nd' H. destruct (decide (k = n :: p)) as [->|Hd].
  - rewrite lookup_insert_eq in H. simplify_eq. by left.
  - rewrite lookup_insert_ne in H by done. destruct (Ht n p nd' H) as [?|(pid & Hp & ? & ?)]; [by left|right].
    exists pid. split; [|done]. by apply node_id_insert.
Qed.

(** Where the walk gets, the entries lead. *)
Lemma resolve_in_weak view t dirs key id k i :
  tree_weak view t -> (node_id t key = Some id \/ node_id t key = None) ->
  resolve_in t view dirs key id = inr (k, i) -> resolve view dirs id = Some i.
Proof.
  intros Ht. revert key id. induction dirs as [|d ds IH]; intros key id Hkey H; cbn in *; [by simplify_eq|].
  unfold enter in H. destruct (t !! (d :: key)) as [nd|] eqn:Et.
  - case_bool_decide as Hl; [done|].
    destruct (Ht d key nd Et) as [?|(pid & Hp & Ei & Hex)]; [done|]. destruct Hkey as [Hkey|Hkey]; [|congruence].
    rewrite Hkey in Hp. simplify_eq. rewrite Ei in *.
    rewrite (proj2 (Z.eqb_neq _ _) Hex). apply (IH (d :: key)); [|done]. left. cbn. by rewrite Et, <- Ei.
  - destruct (view id d =? _) eqn:Ev; [done|]. apply (IH (d :: key)); [|done]. right. cbn. by rewrite Et.
Qed.

(** An inode number that is reached is that of an entry. *)
Lemma resolve_entry view dirs id i :
  resolve view dirs id = Some i -> dirs <> [] -> exists q m, view q m = i /\ i <> DIR_HASH_TABLE_PATH_NOT_EXIST.
Proof.
  revert id. induction dirs as [|d ds IH]; intros id H Hne; [done|]. cbn in H.
  destruct (Z.eqb_spec (view id d) DIR_HASH_TABLE_PATH_NOT_EXIST); [done|].
  destruct ds as [|d' ds]; [cbn in H; simplify_eq; eauto|]. by apply (IH (view id d)).
Qed.

(** The parent of a target: nothing for the root, an entry for other paths. *)
Definition parent_entry (t : dir_table) (p : Z) (n : string) : Prop :=
  p = 0 /\ n = String SLASH EmptyString \/ exists k, t !! k = Some p.

Lemma table_view_entry (t : dir_table) q m i :
  table_view t q m = i -> i <> DIR_HASH_TABLE_PATH_NOT_EXIST -> t !! (q, m) = Some i.
Proof. unfold table_view. destruct (t !! (q, m)); cbn; congruence. Qed.

Lemma target_of_parent (t : dir_table) path p n :
  absolute path -> target_of (table_view t) path = Some (p, n) -> parent_entry t p n.
Proof.
  intros Habs H. unfold target_of in H. apply fmap_Some in H as (i & Hr & [= -> ->]).
  destruct (decide (path = String SLASH EmptyString)) as [->|Hroot]; [left; cbn in Hr; by simplify_eq|].
  right. destruct (resolve_entry _ _ _ _ Hr) as (q & m & Hv & Hex).
  { destruct path as [|c [|c' path]]; [done| |done]. cbn in Habs. by injection Habs as ->. }
  exists (q, m). by apply table_view_entry.
Qed.

Section Targets.
Context (node : Z).

(** Whatever the flags, a parse that gets to its target gets where the entries
    lead. *)
Lemma parse_target_weak (path : string) (flag : Z) (inode : option Z) (s : tstate) (r : pp_result) (s' : tstate) (t : Z * string) :
  absolute path -> tree_weak (view_of s) (pp_tree s) ->
  PathParseTreeInsert node path flag inode s = Ret r s' -> r_target r = Some t -> target_of (view_of s) path = Some t.
Proof.
  intros Habs Hw H Ht. destruct (decide (path = String SLASH EmptyString)) as [->|Hroot].
  { unfold PathParseTreeInsert in H. destruct (bool_decide _ && _); [by cmd_unfold H; simplify_eq|].
    apply bind_Ret_inv in H as (w & s1 & E1 & E2). cbn in E1. cmd_unfold E1. simplify_eq.
    apply bind_Ret_inv in E2 as (out & s2 & _ & E3). cmd_unfold E3. by simplify_eq. }
  destruct (PathParseTreeInsert_unfold (DS := table_service) node path flag inode s Habs Hroot I) as (s1 & _ & _ & _ & E). rewrite E in H.
  destruct (resolve_in _ _ (path_dirs path) [] 0) as [e|[k i]] eqn:Er; [by simplify_eq|].
  apply bind_Ret_inv in H as (out & s2 & _ & E3). cmd_unfold E3. simplify_eq. cbn in Ht. injection Ht as <-.
  unfold target_of. by rewrite (resolve_in_weak _ _ _ [] 0 _ _ Hw (or_introl eq_refl) Er).
Qed.

(** A new entry keeps the agreement, with the node of the directory made. *)
Lemma tree_agrees_created (t : gmap (list string) PathParseRBTreeNode) (key : list string) (i : Z) (n : string) (id : Z) (D : dir_table) :
  tree_agrees (table_view D) t -> node_id t key = Some i -> t !! (n :: key) = None ->
  table_view D i n = DIR_HASH_TABLE_PATH_NOT_EXIST -> id <> DIR_HASH_TABLE_PATH_NOT_EXIST ->
  tree_agrees (table_view (<[(i, n) := id]> D)) (<[n :: key := mkNode id PP_EXCLUSIVE_FOR_CREATE]> t).
Proof.
  intros Ht Hk Hnone Hno Hid m p nd H. destruct (decide (n :: key = m :: p)) as [E|Hd].
  - injection E as -> ->. rewrite lookup_insert_eq in H. simplify_eq. split; [by right|]. split; [done|].
    exists i. split; [by apply node_id_insert|]. unfold table_view. by rewrite lookup_insert_eq.
  - rewrite lookup_insert_ne in H by done. destruct (Ht m p nd H) as (Hl & Hex & pid & Hp & Ei). split; [done|].
    split; [done|]. exists pid. split; [by apply node_id_insert|]. rewrite Ei. unfold table_view.
    rewrite lookup_insert_ne; [done|]. intros [= <- <-]. congruence.
Qed.

Lemma tree_agrees_found (t : gmap (list string) PathParseRBTreeNode) (key : list string) (i : Z) (n : string) (lk : PPLockMode) (D : dir_table) :
  tree_agrees (table_view D) t -> node_id t key = Some i -> t !! (n :: key) = None ->
  table_view D i n <> DIR_HASH_TABLE_PATH_NOT_EXIST -> lk = PP_SHARED \/ lk = PP_EXCLUSIVE_FOR_CREATE ->
  tree_agrees (table_view D) (<[n :: key := mkNode (table_view D i n) lk]> t).
Proof.
  intros Ht Hk Hnone Hex Hlk m p nd H. destruct (decide (n :: key = m :: p)) as [E|Hd].
  - injection E as -> ->. rewrite lookup_insert_eq in H. simplify_eq. split; [done|]. split; [done|].
    exists i. split; [by apply node_id_insert|done].
  - rewrite lookup_insert_ne in H by done. destruct (Ht m p nd H) as (Hl & ? & pid & Hp & Ei). split; [done|].
    split; [done|]. exists pid. split; [by apply node_id_insert|done].
Qed.

Lemma create_directory_spec (k : list string) (i : Z) (rest : string) (len : nat) (given : Z) (s : tstate) :
  tree_agrees (view_of s) (pp_tree s) -> node_id (pp_tree s) k = Some i -> str_take len rest = rest ->
  exists out s', parse_create node MKDIR_FLAG (mkWalkEnd rest len k i) (Some given) s = Ret out s' /\
    if table_view (pp_dir s) i rest =? DIR_HASH_TABLE_PATH_NOT_EXIST
    then exists v, GetNextSequenceNum (pp_nextval s) (pp_seq s) = (v, pp_nextval s', pp_seq s') /\
      let id := GenerateInodeIdBySeqAndNodeId v node in
      out = (SUCCESS, Some id) /\
      (id <> DIR_HASH_TABLE_PATH_NOT_EXIST -> tree_agrees (table_view (<[(i, rest) := id]> (pp_dir s))) (pp_tree s'))
    else out.1 = PATH_EXISTS /\ tree_agrees (view_of s) (pp_tree s') /\ pp_nextval s' = pp_nextval s /\ pp_seq s' = pp_seq s.
Proof.
  intros Hag Hk Hr. unfold parse_create.
  change (has MKDIR_FLAG PATH_PARSE_FLAG_TARGET_IS_DIRECTORY) with true.
  change (has MKDIR_FLAG PATH_PARSE_FLAG_INODE_ID_FOR_INPUT) with false.
  change (has MKDIR_FLAG PATH_PARSE_FLAG_ALLOW_OPERATION_UNDER_CREATED_DIRECTORY) with true.
  cbn [we_rest we_len we_key we_id negb]. rewrite Hr. unfold rbt_find, gets, mbind, cmd_bind.
  destruct (pp_tree s !! (rest :: k)) as [nd|] eqn:Et.
  - destruct (Hag _ _ _ Et) as (_ & Hex & pid & Hp & Ei). rewrite Hk in Hp. simplify_eq.
    eexists _, s. split; [done|]. change (view_of s pid rest) with (table_view (pp_dir s) pid rest) in Ei.
    rewrite <- Ei, (proj2 (Z.eqb_neq _ _) Hex). done.
  - unfold SearchDirectory, on_dir. cbn [ds_search table_service].
    destruct (Z.eqb_spec (table_view (pp_dir s) i rest) DIR_HASH_TABLE_PATH_NOT_EXIST) as [Ex|Ex]; cbn [negb].
    + unfold next_inode_id. cbn [pp_nextval pp_seq pp_dir pp_tree].
      destruct (GetNextSequenceNum (pp_nextval s) (pp_seq s)) as [[v nx] c].
      unfold rbt_insert, rbt_find, gets, mbind, cmd_bind. cbn [pp_tree]. rewrite Et. eexists _, _. split; [done|].
      exists v. split; [done|]. split; [done|]. intros Hid. by apply tree_agrees_created.
    + unfold rbt_insert, rbt_find, gets, mbind, cmd_bind. cbn. rewrite Et. eexists _, _. split; [done|].
      split; [done|]. split; [|done]. apply tree_agrees_found; auto.
Qed.

Lemma parse_mkdir (path : string) (given : Z) (s : tstate) :
  absolute path -> tree_agrees (view_of s) (pp_tree s) ->
  exists r s', PathParseTreeInsert node path MKDIR_FLAG (Some given) s = Ret r s' /\
    (forall p n, target_of (view_of s) path = Some (p, n) -> table_view (pp_dir s) p n = DIR_HASH_TABLE_PATH_NOT_EXIST ->
       r_code r = SUCCESS) /\
    match r_code r with
    | SUCCESS => exists p n v, GetNextSequenceNum (pp_nextval s) (pp_seq s) = (v, pp_nextval s', pp_seq s') /\
        let id := GenerateInodeIdBySeqAndNodeId v node in
        r = mkResult SUCCESS (Some (p, n)) (Some id) /\
        target_of (view_of s) path = Some (p, n) /\
        (id <> DIR_HASH_TABLE_PATH_NOT_EXIST -> tree_agrees (table_view (<[(p, n) := id]> (pp_dir s))) (pp_tree s'))
    | _ => tree_agrees (view_of s) (pp_tree s') /\ pp_nextval s' = pp_nextval s /\ pp_seq s' = pp_seq s
    end.
Proof.
  intros Habs Hag. destruct (decide (path = String SLASH EmptyString)) as [->|Hroot].
  - destruct (create_directory_spec [] 0 (String SLASH EmptyString) 1 given s Hag eq_refl eq_refl) as (out & s' & E & H).
    exists (mkResult out.1 (Some (0, String SLASH EmptyString)) out.2), s'. split.
    { unfold PathParseTreeInsert. change (bool_decide _ && _) with false. cbv iota. unfold mbind at 1, cmd_bind at 1.
      cbn [walk String.length String.get]. unfold mret at 1, cmd_ret at 1. unfold mbind, cmd_bind.
      change (parse_target node MKDIR_FLAG) with (parse_create node MKDIR_FLAG). by rewrite E. }
    split.
    { intros p n Ht Hno. unfold target_of in Ht. cbn in Ht. injection Ht as <- <-.
      rewrite (proj2 (Z.eqb_eq _ _) Hno) in H. by destruct H as (v & _ & -> & _). }
    destruct (_ =? _); [destruct H as (v & Hv & -> & H)|destruct H as [-> H]]; [|done].
    exists 0, (String SLASH EmptyString), v. done.
  - destruct (PathParseTreeInsert_unfold (DS := table_service) node path MKDIR_FLAG (Some given) s Habs Hroot I) as (s1 & Hsw & _ & Ht & E).
    destruct (Ht Hag) as [Hag1 Hid]. rewrite resolve_in_agrees in E, Hid by done.
    destruct (resolve (view_of s) (path_dirs path) 0) as [i|] eqn:Er.
    + specialize (Hid _ _ eq_refl).
      destruct (create_directory_spec _ i (path_name path) (name_length (path_name path)) given s1 Hag1 Hid
        (path_name_take path Hroot Habs)) as (out & s' & E' & H).
      change (parse_target node MKDIR_FLAG) with (parse_create node MKDIR_FLAG) in E.
      rewrite (bind_Ret _ _ _ _ _ E') in E.
      assert (pp_dir s1 = pp_dir s) as Hd.
      { rewrite <- (parse_keeps node path MKDIR_FLAG (Some given) s _ _ E). symmetry.
        eapply (keeps_target node MKDIR_FLAG). exact E'. }
      eexists _, s'. split; [exact E|]. unfold target_of. rewrite Er. cbn [fmap option_fmap option_map].
      unfold view_of in H |- *. destruct Hsw as (_ & _ & Hn & Hq). rewrite Hd, Hn, Hq in H.
      split.
      { intros p n Htg Hno. injection Htg as <- <-. rewrite (proj2 (Z.eqb_eq _ _) Hno) in H. by destruct H as (v & _ & -> & _). }
      destruct (_ =? _); [destruct H as (v & Hv & -> & H)|destruct H as [-> H]]; cbn; [|done].
      exists i, (path_name path), v. done.
    + eexists _, s1. split; [exact E|]. split; [unfold target_of; by rewrite Er|]. cbn. unfold view_of in *. destruct Hsw as (_ & _ & Hn & Hq).
      by rewrite (parse_keeps node path MKDIR_FLAG (Some given) s _ _ E) in Hag1.
Qed.
End Targets.
