(* ===== verification/DirTree.v ===== *)
(** * The table of directories as a tree

    What the table of directories has to be for the paths to name its entries:
    inode numbers are those of one entry each, and every entry is below the
    root.  Adding, removing and moving a directory keep that, under what the
    handlers of meta_handle.c check. *)

From S2P Require Import FalconPrelude DirService PathCmp PathParse PathTable.

Abbreviation dir_table := (gmap (Z * string) Z) (only parsing).

Definition ROOT_NAME : string := String SLASH EmptyString.

(** Following entries by name. *)
Inductive leads (D : dir_table) : Z -> list string -> Z -> Prop :=
| leads_here i : leads D i [] i
| leads_into i d j ds k : D !! (i, d) = Some j -> leads D j ds k -> leads D i (d :: ds) k.

#[export] Hint Constructors leads : core.

(** Below the root, or the root itself. *)
Definition below_root (D : dir_table) (p : Z) (n : string) : Prop :=
  p = 0 /\ n = ROOT_NAME \/ exists ds, leads D 0 (ROOT_NAME :: ds) p.

Record dirs_ok (D : dir_table) : Prop := {
  do_id : forall k id, D !! k = Some id -> 0 < id < 2 ^ 51;
  do_inj : forall k k' id, D !! k = Some id -> D !! k' = Some id -> k = k';
  do_tree : forall p n id, D !! (p, n) = Some id -> below_root D p n;
}.

Lemma leads_app D i ds j es k : leads D i ds j -> leads D j es k -> leads D i (ds ++ es) k.
Proof. induction 1; cbn; eauto. Qed.

Lemma leads_app_inv D i ds es k : leads D i (ds ++ es) k -> exists j, leads D i ds j /\ leads D j es k.
Proof.
  revert i. induction ds as [|d ds IH]; intros i H; cbn in H; [eauto|].
  inversion H as [|? ? j ? ? Hd Hl]; subst. destruct (IH j Hl) as (m & ? & ?). eauto.
Qed.

Lemma leads_mono D D' i ds k : D ⊆ D' -> leads D i ds k -> leads D' i ds k.
Proof. intros Hs. induction 1; [done|]. econstructor; [|done]. by eapply lookup_weaken. Qed.

Lemma below_root_mono D D' p n : D ⊆ D' -> below_root D p n -> below_root D' p n.
Proof. intros Hs [?|[ds ?]]; [by left|right]. exists ds. by eapply leads_mono. Qed.

(** The last entry on the way. *)
Lemma leads_last D i ds k : leads D i ds k -> ds <> [] -> exists es q n, ds = es ++ [n] /\ leads D i es q /\ D !! (q, n) = Some k.
Proof.
  intros H Hne. destruct (exists_last Hne) as (es & n & ->). apply leads_app_inv in H as (q & H1 & H2).
  inversion H2 as [|? ? j ? ? Hd Hl]; subst. inversion Hl; subst. eauto 6.
Qed.

Lemma leads_value D i d ds k : leads D i (d :: ds) k -> exists key, D !! key = Some k.
Proof. intros H. destruct (leads_last _ _ _ _ H) as (? & ? & ? & _ & _ & ?); [done|eauto]. Qed.

Lemma below_root_parent D p n : below_root D p n -> parent_entry D p n.
Proof. intros [?|[ds H]]; [by left|right]. by eapply leads_value. Qed.

(** There is one way from the root to a directory. *)
Lemma leads_unique D ds es k : dirs_ok D -> leads D 0 ds k -> leads D 0 es k -> ds = es.
Proof.
  intros HD. revert es k. induction ds as [|n ds IH] using rev_ind; intros es k H1 H2.
  - inversion H1; subst. destruct es as [|e es]; [done|]. apply leads_value in H2 as [key Hk].
    apply (do_id _ HD) in Hk. lia.
  - destruct (leads_last _ _ _ _ H1) as (es1 & q1 & n1 & E & L1 & Hk1); [by destruct ds|].
    apply app_inj_tail in E as [<- <-]. destruct (decide (es = [])) as [->|Hne].
    { inversion H2; subst. apply (do_id _ HD) in Hk1. lia. }
    destruct (leads_last _ _ _ _ H2 Hne) as (es2 & q2 & n2 & -> & L2 & Hk2).
    pose proof (do_inj _ HD _ _ _ Hk1 Hk2) as [= <- <-]. by rewrite (IH es2 q1).
Qed.

(** Without an entry a way is still there, or it went through the entry. *)
Lemma leads_delete_first D i ds k p n :
  leads D i ds k -> leads (delete (p, n) D) i ds k \/
  exists ds1 ds2 id, ds = ds1 ++ n :: ds2 /\ leads D i ds1 p /\ D !! (p, n) = Some id /\ leads D id ds2 k.
Proof.
  induction 1 as [|i d j ds k Hd Hl IH]; [by left|]. destruct (decide ((p, n) = (i, d))) as [[= -> ->]|Hne].
  { right. exists [], ds, j. eauto. }
  destruct IH as [IH|(ds1 & ds2 & id & -> & L & Hid & L')].
  - left. econstructor; [|done]. by rewrite lookup_delete_ne.
  - right. exists (d :: ds1), ds2, id. eauto.
Qed.

Lemma leads_delete_last D i ds k p n :
  leads D i ds k -> leads (delete (p, n) D) i ds k \/
  exists ds1 ds2 id, ds = ds1 ++ n :: ds2 /\ D !! (p, n) = Some id /\ leads (delete (p, n) D) id ds2 k.
Proof.
  induction 1 as [|i d j ds k Hd Hl IH]; [by left|]. destruct IH as [IH|(ds1 & ds2 & id & -> & Hid & L')].
  - destruct (decide ((p, n) = (i, d))) as [[= -> ->]|Hne]; [right; exists [], ds, j; eauto|].
    left. econstructor; [|done]. by rewrite lookup_delete_ne.
  - right. exists (d :: ds1), ds2, id. eauto.
Qed.

(** The walk over the entries is [leads]. *)
Lemma resolve_leads D ds i k : resolve (table_view D) ds i = Some k -> leads D i ds k.
Proof.
  revert i. induction ds as [|d ds IH]; intros i H; cbn in H; [by simplify_eq|].
  destruct (Z.eqb_spec (table_view D i d) DIR_HASH_TABLE_PATH_NOT_EXIST); [done|].
  econstructor; [by apply table_view_entry|]. by apply IH.
Qed.

Lemma resolve_mono (D D' : dir_table) (ds : list string) (i k : Z) :
  D ⊆ D' -> resolve (table_view D) ds i = Some k -> resolve (table_view D') ds i = Some k.
Proof.
  intros Hs. revert i. induction ds as [|d ds IH]; intros i H; cbn in *; [done|].
  destruct (Z.eqb_spec (table_view D i d) DIR_HASH_TABLE_PATH_NOT_EXIST) as [|Hne]; [done|].
  pose proof (table_view_entry D i d _ eq_refl Hne) as He. eapply lookup_weaken in He; [|exact Hs].
  assert (table_view D' i d = table_view D i d) as -> by (unfold table_view at 1; by rewrite He).
  rewrite (proj2 (Z.eqb_neq _ _) Hne). by apply IH.
Qed.

Lemma target_mono (D D' : dir_table) (path : string) (t : Z * string) :
  D ⊆ D' -> target_of (table_view D) path = Some t -> target_of (table_view D') path = Some t.
Proof.
  intros Hs H. unfold target_of in *. apply fmap_Some in H as (i & Hi & ->). by rewrite (resolve_mono D D' _ _ _ Hs Hi).
Qed.

Lemma target_leads D path p n :
  absolute path -> path <> ROOT_NAME -> target_of (table_view D) path = Some (p, n) ->
  n = path_name path /\ leads D 0 (path_dirs path) p /\ exists ds, path_dirs path = ROOT_NAME :: ds.
Proof.
  intros Habs Hroot H. unfold target_of in H. apply fmap_Some in H as (i & Hr & [= -> ->]).
  split; [done|]. split; [by apply resolve_leads|].
  destruct path as [|c [|c' path]]; [done| |by eexists]. cbn in Habs. injection Habs as ->. done.
Qed.

Lemma target_below_root D path p n :
  absolute path -> target_of (table_view D) path = Some (p, n) -> below_root D p n.
Proof.
  intros Habs H. destruct (decide (path = ROOT_NAME)) as [->|Hroot].
  - left. unfold target_of in H. cbn in H. by simplify_eq.
  - destruct (target_leads D path p n Habs Hroot H) as (_ & L & ds & E). right. exists ds. by rewrite <- E.
Qed.

Lemma target_inside D path p n :
  dirs_ok D -> absolute path -> path <> ROOT_NAME -> target_of (table_view D) path = Some (p, n) -> 0 < p < 2 ^ 51.
Proof.
  intros HD Habs Hroot H. destruct (target_leads D path p n Habs Hroot H) as (_ & L & ds & E). rewrite E in L.
  apply leads_value in L as [k Hk]. by eapply (do_id _ HD).
Qed.

(** ** Adding, removing and moving a directory *)

Lemma dirs_ok_empty : dirs_ok ∅.
Proof. split; intros; by rewrite lookup_empty in *. Qed.

Lemma dirs_ok_add D p n id :
  dirs_ok D -> D !! (p, n) = None -> below_root D p n -> 0 < id < 2 ^ 51 -> (forall k, D !! k <> Some id) ->
  dirs_ok (<[(p, n) := id]> D).
Proof.
  intros HD Hno Hb Hid Hfresh. assert (D ⊆ <[(p, n) := id]> D) as Hs by (by apply insert_subseteq). split.
  - intros k i [[_ <-]|[_ H]]%lookup_insert_Some; [done|]. by eapply (do_id _ HD).
  - intros k k' i [[<- <-]|[_ H]]%lookup_insert_Some [[<- E]|[_ H']]%lookup_insert_Some; try done.
    + by destruct (Hfresh k').
    + subst. by destruct (Hfresh k).
    + by eapply (do_inj _ HD).
  - intros q m i [[[= <- <-] _]|[_ H]]%lookup_insert_Some; [by eapply below_root_mono|].
    eapply below_root_mono; [done|]. by eapply (do_tree _ HD).
Qed.

Lemma dirs_ok_remove D p n id :
  dirs_ok D -> D !! (p, n) = Some id -> (forall m, D !! (id, m) = None) -> dirs_ok (delete (p, n) D).
Proof.
  intros HD Hid Hempty. split.
  - intros k i [_ H]%lookup_delete_Some. by eapply (do_id _ HD).
  - intros k k' i [_ H]%lookup_delete_Some [_ H']%lookup_delete_Some. by eapply (do_inj _ HD).
  - intros q m i [Hne H]%lookup_delete_Some. destruct (do_tree _ HD _ _ _ H) as [?|[ds L]]; [by left|right].
    exists ds. destruct (leads_delete_first _ _ _ _ p n L) as [?|(ds1 & ds2 & id' & _ & _ & Hid' & L2)]; [done|].
    rewrite Hid in Hid'. simplify_eq. inversion L2; subst; [by rewrite Hempty in H|].
    by match goal with Hx : D !! (id', _) = Some _ |- _ => rewrite Hempty in Hx end.
Qed.

Lemma dirs_ok_move D p n q m id ds :
  dirs_ok D -> D !! (p, n) = Some id -> delete (p, n) D !! (q, m) = None ->
  leads (delete (p, n) D) 0 (ROOT_NAME :: ds) q -> dirs_ok (<[(q, m) := id]> (delete (p, n) D)).
Proof.
  intros HD Hid Hno Hq. set (D1 := delete (p, n) D) in *.
  assert (D1 ⊆ <[(q, m) := id]> D1) as Hs by (by apply insert_subseteq). split.
  - intros k i [[_ <-]|[_ [_ H]%lookup_delete_Some]]%lookup_insert_Some; by eapply (do_id _ HD).
  - intros k k' i [[<- <-]|[_ [Hk H]%lookup_delete_Some]]%lookup_insert_Some
      [[<- E]|[_ [Hk' H']%lookup_delete_Some]]%lookup_insert_Some; try done.
    + by destruct Hk', (do_inj _ HD _ _ _ Hid H').
    + subst. by destruct Hk, (do_inj _ HD _ _ _ Hid H).
    + by eapply (do_inj _ HD).
  - intros x y i [[[= <- <-] _]|[_ H]]%lookup_insert_Some; [right; exists ds; by eapply leads_mono|].
    apply lookup_delete_Some in H as [_ H]. destruct (do_tree _ HD _ _ _ H) as [?|[es L]]; [by left|right].
    destruct (leads_delete_last _ _ _ _ p n L) as [L'|(ds1 & ds2 & id' & _ & Hid' & L2)].
    { exists es. by eapply leads_mono. }
    rewrite Hid in Hid'. simplify_eq. exists (ds ++ m :: ds2). rewrite app_comm_cons. eapply leads_app.
    + eapply leads_mono; [done|]. exact Hq.
    + econstructor; [apply lookup_insert_eq|]. by eapply leads_mono.
Qed.

(** A way that does not start like the path of the entry does not need it. *)
Lemma leads_avoids D p n ds es k :
  dirs_ok D -> leads D 0 ds p -> leads D 0 es k -> ~ (ds ++ [n]) `prefix_of` es -> leads (delete (p, n) D) 0 es k.
Proof.
  intros HD Hp He Hno. destruct (leads_delete_first _ _ _ _ p n He) as [?|(ds1 & ds2 & id & -> & L1 & _ & _)]; [done|].
  destruct Hno. rewrite (leads_unique D ds ds1 p HD Hp L1). exists ds2. by rewrite <- app_assoc.
Qed.
