(* ===== verification/Namespace.v ===== *)
(** * The namespace: directories and rows

    Directories are in the table of directories and have a row among the rows
    of their parent; files only have a row.  [rows_ok] says how the two fit, and
    the lemmas say which changes of both together keep it: those of mkdir,
    rmdir, rename, create and unlink (falcon/metadb/meta_handle.c). *)

From S2P Require Import FalconPrelude DirService InodeId PathCmp PathParse PathTable DirTree Placement InodeTable MetaFile.

Section Rows.
Context (sg : bool).

(** Where the row of an entry is filed. *)
Definition entry_key (p : Z) (n : string) : Z * string := (CombineParentIdWithPartId p (HashPartId sg n), n).

Record rows_ok (D : gmap (Z * string) Z) (N : Z * string -> option inode_row) : Prop := {
  ro_row : forall k r, N k = Some r -> exists p n, k = entry_key p n /\ parent_entry D p n /\ link_ok r /\
    (S_ISDIR (st_mode r) = true -> D !! (p, n) = Some (st_ino r));
  ro_dir : forall p n id, D !! (p, n) = Some id ->
    exists r, N (entry_key p n) = Some r /\ S_ISDIR (st_mode r) = true /\ st_ino r = id;
}.

Lemma entry_key_inj p n q m :
  0 <= p < 2 ^ 51 -> 0 <= q < 2 ^ 51 -> entry_key p n = entry_key q m -> p = q /\ n = m.
Proof.
  intros Hp Hq [= E <-]. split; [|done]. pose proof (HashPartId_range sg n) as Hn.
  destruct (CombineParentIdWithPartId_split p _ Hp Hn) as [<- _].
  destruct (CombineParentIdWithPartId_split q _ Hq Hn) as [<- _]. by rewrite E.
Qed.

(** The rename sub-operations take 0 for no key at all. *)
Lemma entry_key_nonzero p n : 0 < p < 2 ^ 51 -> (entry_key p n).1 <> 0.
Proof.
  intros Hp. pose proof (HashPartId_range sg n) as Hn. unfold entry_key. cbn [fst].
  rewrite CombineParentIdWithPartId_add by done. unfold wrap. rewrite Z.mod_small by lia. lia.
Qed.

Lemma parent_range D p n : dirs_ok D -> parent_entry D p n -> 0 <= p < 2 ^ 51.
Proof. intros HD [[-> _]|[k Hk]]; [lia|]. apply (do_id _ HD) in Hk. lia. Qed.

Lemma entry_parent D p n id : dirs_ok D -> D !! (p, n) = Some id -> parent_entry D p n.
Proof. intros HD H. by eapply below_root_parent, (do_tree _ HD). Qed.

Lemma parent_mono D D' p n : D ⊆ D' -> parent_entry D p n -> parent_entry D' p n.
Proof. intros Hs [?|[k Hk]]; [by left|right]. exists k. by eapply lookup_weaken. Qed.

(** The row of a key belongs to one entry. *)
Lemma ro_row_at D N p n r :
  dirs_ok D -> rows_ok D N -> 0 <= p < 2 ^ 51 -> N (entry_key p n) = Some r ->
  parent_entry D p n /\ link_ok r /\ (S_ISDIR (st_mode r) = true -> D !! (p, n) = Some (st_ino r)).
Proof.
  intros HD HN Hp H. destruct (ro_row _ _ HN _ _ H) as (q & m & E & Hq & Hr).
  apply entry_key_inj in E as [<- <-]; [done|done|]. by eapply parent_range.
Qed.

Lemma rows_ok_empty : rows_ok ∅ (fun _ => None).
Proof. split; intros; [done|]. by rewrite lookup_empty in *. Qed.

Lemma rows_ok_ext D N N' : (forall k, N' k = N k) -> rows_ok D N -> rows_ok D N'.
Proof.
  intros E [H1 H2]. split.
  - intros k r Hk. apply H1. by rewrite <- E.
  - intros p n id Hd. destruct (H2 p n id Hd) as (r & ? & ?). exists r. by rewrite E.
Qed.

(** New directories, each with its row. *)
Lemma rows_ok_add D D' N N' (l : list (Z * string * inode_row)) :
  rows_ok D N ->
  (forall k id, D' !! k = Some id <-> D !! k = Some id \/ exists r, (k, r) ∈ l /\ id = st_ino r) ->
  (forall k r, N' k = Some r <-> N k = Some r \/ exists p n, (p, n, r) ∈ l /\ k = entry_key p n) ->
  (forall p n r, (p, n, r) ∈ l -> parent_entry D' p n /\ link_ok r /\ S_ISDIR (st_mode r) = true) ->
  rows_ok D' N'.
Proof.
  intros HN HD' HN' Hl. split.
  - intros k r [Hk|(p & n & Hin & ->)]%HN'.
    + destruct (ro_row _ _ HN _ _ Hk) as (p & n & -> & Hp & Hr & Hd). exists p, n. split_and!; [done| |done|].
      * eapply parent_mono; [|done]. apply map_subseteq_spec. intros k id Hid. apply HD'. by left.
      * intros Hm. apply HD'. left. by apply Hd.
    + destruct (Hl _ _ _ Hin) as (Hp & Hr & Hm). exists p, n. split_and!; [done|done|done|].
      intros _. apply HD'. eauto.
  - intros p n id [Hd|(r & Hin & ->)]%HD'.
    + destruct (ro_dir _ _ HN _ _ _ Hd) as (r & Hr & ?). exists r. split; [|done]. apply HN'. by left.
    + exists r. split; [apply HN'; eauto|]. split; [|done]. by apply (Hl p n).
Qed.

(** A directory removed with its row, when no row is left in it. *)
Lemma rows_ok_remove D N N' p n id :
  dirs_ok D -> rows_ok D N -> D !! (p, n) = Some id -> (forall m, N (entry_key id m) = None) ->
  (forall k, N' k = if decide (k = entry_key p n) then None else N k) -> rows_ok (delete (p, n) D) N'.
Proof.
  intros HD HN Hid Hempty HN'. assert (0 <= p < 2 ^ 51) as Hp by (by eapply parent_range, entry_parent).
  split.
  - intros k r Hk. rewrite HN' in Hk. case_decide as Hne; [done|].
    destruct (ro_row _ _ HN _ _ Hk) as (q & m & -> & Hq & Hr & Hd). exists q, m. split_and!; [done| |done|].
    + destruct Hq as [?|[key Hkey]]; [by left|right]. exists key. rewrite lookup_delete_ne; [done|]. intros <-.
      rewrite Hid in Hkey. simplify_eq. by rewrite Hempty in Hk.
    + intros Hm. rewrite lookup_delete_ne; [by apply Hd|]. by intros [= <- <-].
  - intros q m i [Hne Hd]%lookup_delete_Some. destruct (ro_dir _ _ HN _ _ _ Hd) as (r & Hr & ?).
    exists r. split; [|done]. rewrite HN', decide_False; [done|]. intros E.
    apply entry_key_inj in E as [-> ->]; [done|by eapply parent_range, entry_parent|done].
Qed.

(** Rows of files come and go. *)
Lemma rows_ok_files D N N' :
  rows_ok D N ->
  (forall k r, N' k = Some r -> N k = Some r \/
     exists p n, k = entry_key p n /\ parent_entry D p n /\ link_ok r /\ S_ISDIR (st_mode r) = false) ->
  (forall k r, N k = Some r -> S_ISDIR (st_mode r) = true -> N' k = Some r) ->
  rows_ok D N'.
Proof.
  intros HN H1 H2. split.
  - intros k r [Hk|(p & n & -> & Hp & Hr & Hm)]%H1; [by apply (ro_row _ _ HN)|].
    exists p, n. split_and!; [done|done|done|]. by rewrite Hm.
  - intros p n id Hd. destruct (ro_dir _ _ HN _ _ _ Hd) as (r & Hr & ? & ?). exists r. auto.
Qed.

(** Rows whose attributes change. *)
Lemma rows_ok_attributes D N N' :
  rows_ok D N ->
  (forall k, match N k, N' k with
   | Some r, Some r' => st_ino r' = st_ino r /\ S_ISDIR (st_mode r') = S_ISDIR (st_mode r) /\ (link_ok r -> link_ok r')
   | None, None => True
   | _, _ => False
   end) -> rows_ok D N'.
Proof.
  intros HN H. split.
  - intros k r' Hk. specialize (H k). rewrite Hk in H. destruct (N k) as [r|] eqn:Er; [|done]. destruct H as (Ei & Ed & El).
    destruct (ro_row _ _ HN _ _ Er) as (p & n & -> & Hp & Hl & Hd). exists p, n. rewrite Ei, Ed. auto.
  - intros p n id Hd. destruct (ro_dir _ _ HN _ _ _ Hd) as (r & Hr & Hm & <-). specialize (H (entry_key p n)).
    rewrite Hr in H. destruct (N' (entry_key p n)) as [r'|]; [|done]. destruct H as (Ei & Ed & _). exists r'. by rewrite Ed.
Qed.

(** The row of an entry moved to another key, with what the table needs of it. *)
Definition moved_row (N N' : Z * string -> option inode_row) (src dst : Z * string) (r r' : inode_row) : Prop :=
  N src = Some r /\ (N dst = None \/ dst = src) /\
  (forall k, N' k = if decide (k = dst) then Some r' else if decide (k = src) then None else N k) /\
  st_ino r' = st_ino r /\ st_mode r' = st_mode r /\ st_nlink r' = st_nlink r.

Lemma rows_ok_move_file D N N' p n q m r r' :
  dirs_ok D -> rows_ok D N -> parent_entry D p n -> parent_entry D q m -> D !! (p, n) = None ->
  moved_row N N' (entry_key p n) (entry_key q m) r r' -> rows_ok D N'.
Proof.
  intros HD HN Hp Hq Hno (Hr & Hdst & HN' & Ei & Em & El).
  destruct (ro_row_at D N p n r HD HN) as (_ & Hl & Hd); [by eapply parent_range|done|].
  assert (S_ISDIR (st_mode r) = false) as Hf.
  { destruct (S_ISDIR (st_mode r)); [|done]. by rewrite Hno in Hd; specialize (Hd eq_refl). }
  apply (rows_ok_files D N); [done| |].
  - intros k x Hk. rewrite HN' in Hk. case_decide as Hkd; [|case_decide; [done|by left]]. simplify_eq.
    right. exists q, m. unfold link_ok in *. by rewrite El, Em.
  - intros k x Hk Hx. rewrite HN'. rewrite !decide_False; [done| |]; intros ->; [congruence|].
    destruct Hdst as [?|E]; [congruence|]. rewrite E in Hk. congruence.
Qed.

Lemma rows_ok_move_dir D N N' p n q m r r' id :
  dirs_ok D -> rows_ok D N -> D !! (p, n) = Some id -> delete (p, n) D !! (q, m) = None -> parent_entry (delete (p, n) D) q m ->
  moved_row N N' (entry_key p n) (entry_key q m) r r' -> rows_ok (<[(q, m) := id]> (delete (p, n) D)) N'.
Proof.
  intros HD HN Hid Hno Hq (Hr & Hdst & HN' & Ei & Em & El). set (D1 := delete (p, n) D) in *.
  assert (0 <= p < 2 ^ 51) as Hpr by (by eapply parent_range, entry_parent).
  assert (parent_entry D q m) as HqD by (eapply parent_mono; [apply delete_subseteq|done]).
  assert (0 <= q < 2 ^ 51) as Hqr by (by eapply parent_range).
  destruct (ro_dir _ _ HN _ _ _ Hid) as (r0 & Hr0 & Hdir & Hino). rewrite Hr in Hr0. simplify_eq.
  destruct (ro_row_at D N p n r0 HD HN Hpr Hr) as (_ & Hl & _).
  assert (forall x y, parent_entry D x y -> parent_entry (<[(q, m) := st_ino r0]> D1) x y) as Hpar.
  { intros x y [?|[key Hkey]]; [by left|right]. destruct (decide (key = (p, n))) as [->|Hne].
    - exists (q, m). rewrite lookup_insert_eq. congruence.
    - exists key. apply lookup_insert_Some. right. split; [|by apply lookup_delete_Some].
      intros <-. apply lookup_delete_None in Hno as [?|?]; congruence. }
  split.
  - intros k x Hk. rewrite HN' in Hk. case_decide as Hkd.
    + simplify_eq. exists q, m. split_and!; [done|by apply Hpar|unfold link_ok in *; by rewrite El, Em|].
      intros _. by rewrite lookup_insert_eq, Ei.
    + case_decide as Hks; [done|]. destruct (ro_row _ _ HN _ _ Hk) as (x1 & y1 & -> & Hx & Hxl & Hxd).
      exists x1, y1. split_and!; [done|by apply Hpar|done|]. intros Hm. rewrite lookup_insert_ne by congruence.
      unfold D1. rewrite lookup_delete_ne by congruence. by apply Hxd.
  - intros x y i [[[= <- <-] <-]|[Hne [Hne' Hd]%lookup_delete_Some]]%lookup_insert_Some.
    + exists r'. rewrite HN', decide_True by done. by rewrite Em, Ei.
    + destruct (ro_dir _ _ HN _ _ _ Hd) as (rx & Hrx & ?). exists rx. split; [|done].
      assert (0 <= x < 2 ^ 51) as Hxr by (by eapply parent_range, entry_parent).
      rewrite HN', !decide_False; [done| |]; intros E; apply entry_key_inj in E as [-> ->]; done.
Qed.
End Rows.
