(* ===== verification/MetaDir.v ===== *)
(** * Directories: mkdir, rmdir and rename (falcon/metadb/meta_handle.c)

    The table of directories is kept on the coordinator and on every worker;
    the row of a directory is on the worker of its shard.  mkdir, rmdir and
    rename run on the coordinator, which changes its own table and has the
    workers change theirs with the sub-operations, in one distributed
    transaction.

    The tables of directories are plain maps here: the cache in front of them
    follows the transactions (DirPathHash.v).  An error on a worker reaches the
    coordinator as REMOTE_QUERY_FAILED (falcon/distributed_backend/
    remote_comm_falcon.c), and the transaction is rolled back on all servers. *)

From S2P Require Import FalconPrelude Catalog DirService InodeId PathCmp PathParse Placement ForeignServer InodeTable ShardService MetaFile MetaReadDir.

Abbreviation dirs := (gmap (Z * string) Z) (only parsing).

Record worker : Type := mkWorker { wk_dirs : dirs; wk_inodes : inode_shards }.

Record cluster : Type := mkCluster {
  cl_pp : pp_state (Dir := gmap (Z * string) Z);
  cl_workers : gmap Z worker;
}.

Definition on_cn {A} (m : cmd (pp_state (Dir := gmap (Z * string) Z)) A) : cmd cluster A := fun c =>
  match m (cl_pp c) with
  | Ret a p => Ret a (mkCluster p (cl_workers c))
  | Raise e p => Raise e (mkCluster p (cl_workers c))
  | OutOfFuel => OutOfFuel
  end.

(** FalconMetaCallOnWorkerList and FalconSendCommandAndWaitForResult, for one
    worker. *)
Definition on_worker {A} (w : Z) (m : cmd worker A) : cmd cluster A := fun c =>
  match cl_workers c !! w with
  | None => Raise PROGRAM_ERROR c
  | Some s =>
      match m s with
      | Ret a s' => Ret a (mkCluster (cl_pp c) (<[w := s']> (cl_workers c)))
      | Raise _ s' => Raise REMOTE_QUERY_FAILED (mkCluster (cl_pp c) (<[w := s']> (cl_workers c)))
      | OutOfFuel => OutOfFuel
      end
  end.

Fixpoint on_workers (ws : list Z) (m : Z -> cmd worker unit) : cmd cluster unit :=
  match ws with
  | [] => mret tt
  | w :: ws' => _ ← on_worker w (m w); on_workers ws' m
  end.

(** GetAllForeignServerId on the coordinator, without itself. *)
Definition all_workers (c : cluster) : list Z := (map_to_list (cl_workers c)).*1.

(** What a transaction changed is kept or dropped on all servers; sequence
    numbers are not given back, and the tree of paths ends with it. *)
Definition transaction {A} (m : cmd cluster A) : cmd cluster A := fun c =>
  let reset p d := mkPP ∅ (pp_nextval p) (pp_seq p) d in
  match m (mkCluster (reset (cl_pp c) (pp_dir (cl_pp c))) (cl_workers c)) with
  | Ret a c' => Ret a (mkCluster (reset (cl_pp c') (pp_dir (cl_pp c'))) (cl_workers c'))
  | Raise e c' => Raise e (mkCluster (reset (cl_pp c') (pp_dir (cl_pp c))) (cl_workers c))
  | OutOfFuel => OutOfFuel
  end.

(** InsertIntoDirectoryTable and DeleteFromDirectoryTable. *)
Definition dir_insert (k : Z * string) (id : Z) : cmd dirs unit := tuple_insert k id.
Definition dir_delete (k : Z * string) : cmd dirs unit := fun t =>
  match t !! k with
  | None => Raise ARGUMENT_ERROR t
  | Some _ => Ret tt (delete k t)
  end.

Definition cn_dirs {A} (m : cmd dirs A) : cmd cluster A := on_cn (on_dir m).
Definition wk_on_dirs {A} (m : cmd dirs A) : cmd worker A := fun s =>
  match m (wk_dirs s) with
  | Ret a d => Ret a (mkWorker d (wk_inodes s))
  | Raise e d => Raise e (mkWorker d (wk_inodes s))
  | OutOfFuel => OutOfFuel
  end.
Definition wk_on_inodes {A} (m : cmd inode_shards A) : cmd worker A := fun s =>
  match m (wk_inodes s) with
  | Ret a t => Ret a (mkWorker (wk_dirs s) t)
  | Raise e t => Raise e (mkWorker (wk_dirs s) t)
  | OutOfFuel => OutOfFuel
  end.

Section MetaDir.
Context {SS : ShardService} (sg : bool) (name_le : relation string) `{!RelDecision name_le}.
Context (GetCurrentTimestamp : Z).
Context (pg_qsort : list MetaProcessInfo -> list MetaProcessInfo).
Context (hash_order : list Z -> list Z).

(** SearchShardInfoByShardValue. *)
Definition search_shard {S} (v : Z) : cmd S (Z * Z) :=
  match ss_lookup v with Some r => mret r | None => raise PROGRAM_ERROR end.

(** ** Mkdir *)

Fixpoint FalconMkdirSubMkdirHandle (infos : list MetaProcessInfo) : cmd worker unit :=
  match infos with
  | [] => mret tt
  | i :: infos' =>
      _ ← raise_unless (negb (mi_parentId i =? u64 (-1))) ARGUMENT_ERROR;
      _ ← wk_on_dirs (dir_insert (mi_parentId i, mi_name i) (st_ino (mi_row i)));
      FalconMkdirSubMkdirHandle infos'
  end.

(** The row of a new directory. *)
Definition mkdir_row (i : MetaProcessInfo) : inode_row :=
  let r := mi_row i in
  mkRow (st_ino r) 0 (st_mode r) 2 0 0 0 (st_size r) 0 0 (st_mtim r) (st_mtim r) (st_mtim r) EmptyString 0 (-1) (-1).

(** The shards of the entries, which must be of this worker. *)
Fixpoint sub_create_shards (local : Z) (infos : list MetaProcessInfo) : cmd worker (list (MetaProcessInfo * Z)) :=
  match infos with
  | [] => mret []
  | i :: infos' =>
      _ ← raise_unless (negb ((st_ino (mi_row i) =? u64 (-1)) || (mi_parentId_partId i =? u64 (-1)))) ARGUMENT_ERROR;
      sw ← search_shard (mi_parentId_partId i);
      _ ← raise_unless (sw.2 =? local) ARGUMENT_ERROR;
      rest ← sub_create_shards local infos';
      mret ((i, sw.1) :: rest)
  end.

Fixpoint sub_create_rows (placed : list (MetaProcessInfo * Z)) : cmd worker unit :=
  match placed with
  | [] => mret tt
  | (i, sh) :: placed' =>
      _ ← wk_on_inodes (InsertIntoInodeTable sh (info_key i) (mkdir_row i));
      sub_create_rows placed'
  end.

Definition FalconMkdirSubCreateHandle (local : Z) (infos : list MetaProcessInfo) : cmd worker unit :=
  placed ← sub_create_shards local infos;
  sub_create_rows (concat ((fun sh => filter (fun x => x.2 = sh) placed) <$> hash_order (remove_dups placed.*2))).

(** The second loop: an entry whose directory was entered is paired with
    true. *)
Fixpoint mkdir_parse (local : Z) (infos : list MetaProcessInfo) : cmd cluster (list (MetaProcessInfo * bool)) :=
  match infos with
  | [] => mret []
  | i :: infos' =>
      x ← (if negb (bool_decide (mi_errorCode i = SUCCESS)) then mret (i, false)
           else
             r ← on_cn (PathParseTreeInsert local (mi_path i) MKDIR_FLAG (Some (st_ino (mi_row i))));
             match r_code r, r_target r, r_inode r with
             | SUCCESS, Some (p, n), Some id =>
                 _ ← cn_dirs (dir_insert (p, n) id);
                 mret (with_row (mkRow id 0 (Z.lor S_IFDIR 0x1ED) 0 0 0 0 0 0 0 0 GetCurrentTimestamp 0 EmptyString 0 0 0)
                         (with_target p (CombineParentIdWithPartId p (HashPartId sg n)) n i), true)
             | e, _, _ => mret (with_error e i, false)
             end);
      rest ← mkdir_parse local infos';
      mret (x :: rest)
  end.

(** The workers of the entries. *)
Fixpoint mkdir_places (infos : list MetaProcessInfo) : cmd cluster (list (MetaProcessInfo * Z)) :=
  match infos with
  | [] => mret []
  | i :: infos' =>
      sw ← search_shard (mi_parentId_partId i);
      rest ← mkdir_places infos';
      mret ((i, sw.2) :: rest)
  end.

Definition FalconMkdirHandle (local : Z) (infos : list MetaProcessInfo) : cmd cluster (list MetaProcessInfo) :=
  _ ← raise_unless (local =? FALCON_CN_SERVER_ID) WRONG_WORKER;
  arr ← mkdir_parse local (verify_paths pg_qsort VERIFY_PATH_VALIDITY_REQUIREMENT_MUST_BE_DIRECTORY infos);
  let valid := (filter (fun x => x.2 = true) arr).*1 in
  match valid with
  | [] => mret (arr.*1)
  | _ =>
      ws ← gets all_workers;
      placed ← mkdir_places valid;
      _ ← on_workers ws (fun _ => FalconMkdirSubMkdirHandle valid);
      _ ← on_workers (hash_order (remove_dups placed.*2))
            (fun w => FalconMkdirSubCreateHandle w (filter (fun x => x.2 = w) placed).*1);
      mret (arr.*1)
  end.

(** ** Rmdir *)

(** The rows of a directory in the shards of this worker. *)
Fixpoint check_empty (local directoryId : Z) (shards : list (Z * Z)) : cmd worker unit :=
  match shards with
  | [] => mret tt
  | (shardId, workerId) :: shards' =>
      if negb (workerId =? local) then check_empty local directoryId shards'
      else
        s ← get;
        match wk_inodes s !! shardId with
        | None => raise PROGRAM_ERROR
        | Some rows =>
            _ ← raise_unless (bool_decide (scan sg name_le NEW_SHARD directoryId EmptyString rows = [])) ARGUMENT_ERROR;
            check_empty local directoryId shards'
        end
  end.

Definition FalconRmdirSubRmdirHandle (local parentId : Z) (name : string) : cmd worker unit :=
  directoryId ← gets (fun s => table_view (wk_dirs s) parentId name);
  _ ← raise_unless (negb (directoryId =? DIR_HASH_TABLE_PATH_NOT_EXIST)) FILE_NOT_EXISTS;
  _ ← wk_on_dirs (dir_delete (parentId, name));
  check_empty local directoryId ss_rows.

Definition rmdir_args : update_args := mkArgs true None false (Some (-2)) None None None None None None None None.

Definition FalconRmdirSubUnlinkHandle (local parentId_partId : Z) (name : string) : cmd worker unit :=
  sw ← search_shard parentId_partId;
  _ ← raise_unless (sw.2 =? local) ARGUMENT_ERROR;
  found ← wk_on_inodes (SearchAndUpdateInodeTableInfo sw.1 (parentId_partId, name) rmdir_args);
  match (found : option (inode_row * bool)) with
  | None => raise FILE_NOT_EXISTS
  | Some (r, _) => raise_unless (st_nlink r =? 2) PROGRAM_ERROR
  end.

Definition FalconRmdirHandle (local : Z) (path : string) : cmd cluster unit :=
  _ ← raise_unless (local =? FALCON_CN_SERVER_ID) WRONG_WORKER;
  let e := (VerifyPathValidity path VERIFY_PATH_VALIDITY_REQUIREMENT_MUST_BE_DIRECTORY).1 in
  _ ← raise_unless (bool_decide (e = SUCCESS)) e;
  r ← on_cn (PathParseTreeInsert local path RMDIR_FLAG (Some 0));
  match r_code r, r_target r with
  | SUCCESS, Some (p, n) =>
      _ ← cn_dirs (dir_delete (p, n));
      ws ← gets all_workers;
      let v := CombineParentIdWithPartId p (HashPartId sg n) in
      sw ← search_shard v;
      _ ← on_workers ws (fun w => FalconRmdirSubRmdirHandle w p n);
      on_worker sw.2 (FalconRmdirSubUnlinkHandle sw.2 v n)
  | e, _ => raise e
  end.

(** ** Rename *)

(** The arguments of the sub-operation on a worker. *)
Record rename_args : Type := mkRename {
  targetIsDirectory : bool;
  rn_inodeId : Z;
  srcLockOrder : Z;
  rn_parentId : Z;
  rn_name : string;
  dstParentId : Z;
  dstName : string;
  rn_parentId_partId : Z;
  dstParentIdPartId : Z;
}.

(** The directory is taken out of the table and put in again, in the order of
    the paths. *)
Definition rename_dir (a : rename_args) : cmd dirs unit :=
  let del := dir_delete (rn_parentId a, rn_name a) in
  let ins := dir_insert (dstParentId a, dstName a) (rn_inodeId a) in
  if srcLockOrder a =? 0 then (_ ← del; ins) else (_ ← ins; del).

(** The row that was moved away, for the coordinator to move on. *)
Definition FalconRenameSubRenameLocallyHandle (local : Z) (a : rename_args) : cmd worker (option inode_row) :=
  _ ← (if targetIsDirectory a then
         _ ← raise_unless ((srcLockOrder a =? 0) || (srcLockOrder a =? 1)) ARGUMENT_ERROR;
         wk_on_dirs (rename_dir a)
       else mret tt);
  if rn_parentId_partId a =? 0 then mret None
  else
    sw ← search_shard (rn_parentId_partId a);
    _ ← raise_unless (sw.2 =? local) WRONG_WORKER;
    s ← get;
    match wk_inodes s !! sw.1 with
    | None => raise PROGRAM_ERROR
    | Some rows =>
        match rows !! (rn_parentId_partId a, rn_name a) with
        | None => raise FILE_NOT_EXISTS
        | Some r =>
            _ ← modify (fun s => mkWorker (wk_dirs s)
                  (<[sw.1 := delete (rn_parentId_partId a, rn_name a) rows]> (wk_inodes s)));
            if negb (dstParentIdPartId a =? 0) then
              dw ← search_shard (dstParentIdPartId a);
              _ ← raise_unless (dw.2 =? local) WRONG_WORKER;
              _ ← wk_on_inodes (InsertIntoInodeTable dw.1 (dstParentIdPartId a, dstName a) r);
              mret None
            else mret (Some r)
        end
    end.

(** The row as it arrives at another worker. *)
Definition rename_row (r : inode_row) : inode_row :=
  mkRow (st_ino r) (st_dev r) (st_mode r) (st_nlink r) (st_uid r) (st_gid r) (st_rdev r) (st_size r)
    (st_blksize r) (st_blocks r) (st_atim r) (st_mtim r) (st_ctim r) EmptyString 0 (primary_nodeid r) (-1).

Definition FalconRenameSubCreateHandle (local parentId_partId : Z) (name : string) (r : inode_row) : cmd worker unit :=
  sw ← search_shard parentId_partId;
  _ ← raise_unless (sw.2 =? local) WRONG_WORKER;
  wk_on_inodes (InsertIntoInodeTable sw.1 (parentId_partId, name) (rename_row r)).

Definition rename_flag (renameDirectory isDst : bool) : Z :=
  Z.lor (Z.lor PATH_PARSE_FLAG_NOT_ROOT (if renameDirectory then PATH_PARSE_FLAG_TARGET_IS_DIRECTORY else 0))
    (if isDst then Z.lor PATH_PARSE_FLAG_TARGET_TO_BE_CREATED PATH_PARSE_FLAG_INODE_ID_FOR_INPUT
     else PATH_PARSE_FLAG_TARGET_TO_BE_DELETED).

(** One path of the two: its parent, its name and the inode number. *)
Definition rename_parse (local : Z) (renameDirectory isDst : bool) (srcDirectoryId : Z) (path : string)
    : cmd cluster (Z * string * Z) :=
  r ← on_cn (PathParseTreeInsert local path (rename_flag renameDirectory isDst) (Some (if isDst then srcDirectoryId else 0)));
  match r_code r, r_target r, r_inode r with
  | SUCCESS, Some (p, n), Some id => mret (p, n, id)
  | SUCCESS, _, _ => raise PROGRAM_ERROR
  | e, _, _ => raise e
  end.

(** Steps 4 to 6: the rename on the workers, and the row brought to the worker
    of the new name. *)
Definition rename_send (renameDirectory : bool) (id : Z) (dstFirst : bool) (sp : Z) (sn : string) (dp : Z) (dn : string)
    : cmd cluster unit :=
  let sv := CombineParentIdWithPartId sp (HashPartId sg sn) in
  let dv := CombineParentIdWithPartId dp (HashPartId sg dn) in
  ssw ← search_shard sv;
  dsw ← search_shard dv;
  let args spp dpp := mkRename renameDirectory id (if dstFirst then 1 else 0) sp sn dp dn spp dpp in
  ws ← gets all_workers;
  moved ← on_worker ssw.2 (FalconRenameSubRenameLocallyHandle ssw.2 (args sv (if dsw.2 =? ssw.2 then dv else 0)));
  _ ← on_workers (filter (fun w => w <> ssw.2) ws)
        (fun w => _ ← FalconRenameSubRenameLocallyHandle w (args 0 0); mret tt);
  if negb (ssw.2 =? dsw.2) then
    match (moved : option inode_row) with
    | Some r => on_worker dsw.2 (FalconRenameSubCreateHandle dsw.2 dv dn r)
    | None => raise PROGRAM_ERROR
    end
  else mret tt.

Definition FalconRenameHandle (local : Z) (srcPath dstPath : string) : cmd cluster unit :=
  let srcProperty := (VerifyPathValidity srcPath 0).2 in
  _ ← raise_unless (local =? 0) WRONG_WORKER;
  srcDirectoryId ← on_cn (CheckWhetherPathExistsInDirectoryTable srcPath);
  let renameDirectory := negb (srcDirectoryId =? DIR_HASH_TABLE_PATH_NOT_EXIST) in
  _ ← raise_unless (negb (renameDirectory && negb (has srcProperty VERIFY_PATH_VALIDITY_PROPERTY_CAN_BE_DIRECTORY))) ARGUMENT_ERROR;
  _ ← raise_unless (negb (negb renameDirectory && negb (has srcProperty VERIFY_PATH_VALIDITY_PROPERTY_CAN_BE_FILE))) ARGUMENT_ERROR;
  let dstFirst := 0 <? pathcmp srcPath dstPath in
  sd ← (if dstFirst then
          d ← rename_parse local renameDirectory true srcDirectoryId dstPath;
          s ← rename_parse local renameDirectory false srcDirectoryId srcPath; mret (s, d)
        else
          s ← rename_parse local renameDirectory false srcDirectoryId srcPath;
          d ← rename_parse local renameDirectory true srcDirectoryId dstPath; mret (s, d));
  let '(sp, sn, _, (dp, dn, id)) := (sd : (Z * string * Z) * (Z * string * Z)) in
  _ ← (if renameDirectory then (_ ← cn_dirs (dir_delete (sp, sn)); cn_dirs (dir_insert (dp, dn) id)) else mret tt);
  rename_send renameDirectory id dstFirst sp sn dp dn.
End MetaDir.
