(* ===== verification/RenamePaths.v ===== *)
(** * The two paths of a rename

    What falcon/metadb/meta_handle.c gets from the two parses of a rename: where
    each path leads, whatever the other one has locked, and that a directory is
    not moved below itself. *)

From Stdlib Require Import Ascii.
From S2P Require Import FalconPrelude DirService InodeId PathCmp PathParse PathTable DirTree MetaDir.

Abbreviation tstate := (pp_state (Dir := gmap (Z * string) Z)) (only parsing).

(** ** Paths below a path come later *)

Lemma pathcmp_below p t : pathcmp p (p +:+ String SLASH t) < 0.
Proof.
  induction p as [|c p IH]; cbn [pathcmp String.append]; [done|]. cbn [head_code]. by rewrite Z.eqb_refl.
Qed.

Lemma split_slash_below s s' x l : split_slash s' = split_slash s ++ x :: l -> exists t, s' = s +:+ String SLASH t.
Proof.
  revert s'. induction s as [|c s IH]; intros s' H.
  - destruct s' as [|d s']; [done|]. cbn in H. case_bool_decide as Hd; [subst d; by exists s'|].
    destruct (split_slash s'); done.
  - destruct s' as [|d s']; cbn in H.
    { exfalso. apply (f_equal length) in H. rewrite length_app in H.
      case_bool_decide; [cbn in H; lia|]. destruct (split_slash s); cbn in H; lia. }
    case_bool_decide as Hd; case_bool_decide as Hc; subst.
    + injection H as H. destruct (IH s' H) as [t ->]. by exists t.
    + by destruct (split_slash s).
    + by destruct (split_slash s').
    + destruct (split_slash s) as [|y ys] eqn:Es; [by apply split_slash_nonempty in Es|].
      destruct (split_slash s') as [|y' ys'] eqn:Es'; [by apply split_slash_nonempty in Es'|].
      injection H as -> -> ->. destruct (IH s') as [t ->]; [by rewrite Es'|]. by exists t.
Qed.

Lemma path_dirs_prefix src dst :
  absolute src -> src <> ROOT_NAME -> absolute dst ->
  (path_dirs src ++ [path_name src]) `prefix_of` path_dirs dst -> pathcmp src dst < 0.
Proof.
  intros Hs Hr Hd [l Hl]. destruct (path_names src Hs Hr) as (rest & -> & E). rewrite E in Hl. clear E.
  unfold absolute in Hd. destruct dst as [|c [|d rest']]; cbn in Hd; [done|done|]. injection Hd as ->.
  cbn [path_dirs str_drop] in Hl. injection Hl as Hl. set (s' := String d rest') in *.
  assert (split_slash s' = split_slash rest ++ (l ++ [List.last (split_slash s') EmptyString])) as H.
  { rewrite app_assoc, <- Hl. apply app_removelast_last, split_slash_nonempty. }
  destruct (l ++ _) as [|x l'] eqn:El; [by destruct l|]. apply split_slash_below in H as [t ->].
  apply (pathcmp_below (String SLASH rest) t).
Qed.

(** ** A locked directory is not entered *)

Lemma resolve_in_key t view dirs key id k i : resolve_in t view dirs key id = inr (k, i) -> k = rev dirs ++ key.
Proof.
  revert key id. induction dirs as [|d ds IH]; intros key id H; cbn in H; [by simplify_eq|].
  destruct (enter t view key id d); [done|]. rewrite (IH _ _ H). cbn. by rewrite <- app_assoc.
Qed.

Lemma resolve_in_locked t view dirs n nd es k i :
  t !! (n :: rev dirs) = Some nd -> lockAcquired nd = PP_EXCLUSIVE ->
  resolve_in t view es [] 0 = inr (k, i) -> ~ (dirs ++ [n]) `prefix_of` es.
Proof.
  intros Ht Hl Hr [l ->]. rewrite <- app_assoc, resolve_in_app in Hr.
  destruct (resolve_in t view dirs [] 0) as [e|[k1 i1]] eqn:E; [done|]. apply resolve_in_key in E as ->.
  cbn in Hr. unfold enter in Hr. rewrite app_nil_r, Ht, bool_decide_eq_true_2 in Hr by done. done.
Qed.

Lemma SearchDirectory_Ret (p : Z) (n : string) (lk : DirPathLockMode) (s s' : tstate) (v : Z) :
  SearchDirectory p n lk s = Ret v s' -> v = table_view (pp_dir s) p n /\ pp_tree s' = pp_tree s.
Proof. intros [= <- <-]. done. Qed.

Lemma rbt_insert_Ret (k : list string) (nd : PathParseRBTreeNode) (s s' : tstate) (u : unit) :
  rbt_insert k nd s = Ret u s' -> pp_tree s !! k = None /\ pp_tree s' = <[k := nd]> (pp_tree s).
Proof.
  intros H. apply bind_Ret_inv in H as (o & ? & [= <- <-] & H). destruct (pp_tree s !! k); [done|]. by injection H as _ <-.
Qed.

Section Parses.
Context (node : Z).

(** A node locked exclusively for a target. *)
Lemma locked_target (view : Z -> string -> Z) (n : string) (key : list string) (id : Z)
    (t t' : gmap (list string) PathParseRBTreeNode) :
  tree_weak view t -> t !! (n :: key) = None -> t' = <[n :: key := mkNode id PP_EXCLUSIVE]> t ->
  tree_weak view t' /\ (true = true -> exists nd, t' !! (n :: key) = Some nd /\ lockAcquired nd = PP_EXCLUSIVE).
Proof.
  intros Hw Hno ->. split; [by apply tree_weak_lock|]. intros _. eexists. by rewrite lookup_insert_eq.
Qed.

(** A parse that gets to its target went around what is locked. *)
Lemma parse_around (path : string) (flag : Z) (inode : option Z) (s s' : tstate) (r : pp_result) (t : Z * string)
    (dirs : list string) (n : string) (nd : PathParseRBTreeNode) :
  absolute path -> path <> ROOT_NAME -> PathParseTreeInsert node path flag inode s = Ret r s' -> r_target r = Some t ->
  pp_tree s !! (n :: rev dirs) = Some nd -> lockAcquired nd = PP_EXCLUSIVE -> ~ (dirs ++ [n]) `prefix_of` path_dirs path.
Proof.
  intros Habs Hroot E Ht Hnd Hl.
  destruct (PathParseTreeInsert_unfold (DS := table_service) node path flag inode s Habs Hroot I) as (s1 & _ & _ & _ & E').
  rewrite E in E'. destruct (resolve_in _ _ (path_dirs path) [] 0) as [e|[k i]] eqn:Er; [by injection E' as -> _|].
  by eapply resolve_in_locked.
Qed.

Lemma not_root_error (path : string) (d isDst : bool) (given : Z) (s s' : tstate) (r : pp_result) :
  PathParseTreeInsert node path (rename_flag d isDst) (Some given) s = Ret r s' -> r_code r = SUCCESS -> path <> ROOT_NAME.
Proof. intros E Hc ->. destruct d, isDst; injection E as <- _; done. Qed.

(** The tree after the first of the two parses, and what the parse says. *)
Lemma rename_parse_first (path : string) (d isDst : bool) (given : Z) (s s' : tstate) (r : pp_result) :
  absolute path -> tree_agrees (view_of s) (pp_tree s) ->
  PathParseTreeInsert node path (rename_flag d isDst) (Some given) s = Ret r s' -> r_code r = SUCCESS ->
  tree_weak (view_of s) (pp_tree s') /\
  (d = true -> exists nd, pp_tree s' !! (path_name path :: rev (path_dirs path)) = Some nd /\ lockAcquired nd = PP_EXCLUSIVE).
Proof.
  intros Habs Hag E Hc. pose proof (not_root_error _ _ _ _ _ _ _ E Hc) as Hroot.
  destruct (PathParseTreeInsert_unfold (DS := table_service) node path (rename_flag d isDst) (Some given) s Habs Hroot I)
    as (s1 & (_ & Hv & _) & _ & Ht & E'). destruct (Ht Hag) as [Hag1 _]. rewrite E in E'. clear E Ht.
  rewrite resolve_in_agrees in E' by done. destruct (resolve _ _ 0) as [i|]; [|injection E' as -> _; done].
  rewrite app_nil_r in E'. symmetry in E'. apply bind_Ret_inv in E' as (out & s2 & E2 & E').
  injection E' as <- <-. cbn in Hc. apply (tree_agrees_view _ (view_of s)) in Hag1; [|done].
  pose proof (tree_agrees_weak _ _ Hag1) as Hw. pose proof (path_name_take path Hroot Habs) as Hn.
  destruct d; [|by destruct isDst; injection E2 as <- <-].
  destruct isDst.
  - change (parse_target node (rename_flag true true)) with (parse_create node (rename_flag true true)) in E2.
    unfold parse_create in E2. change (has (rename_flag true true) PATH_PARSE_FLAG_TARGET_IS_DIRECTORY) with true in E2.
    cbv iota in E2. cbn [we_rest we_len we_key we_id] in E2. rewrite Hn in E2.
    apply bind_Ret_inv in E2 as (nd & ? & [= <- <-] & E2).
    destruct (pp_tree s1 !! (path_name path :: rev (path_dirs path))) as [nd|] eqn:Et; [by injection E2 as <- _|].
    apply bind_Ret_inv in E2 as (tgt & s3 & [-> Ht3]%SearchDirectory_Ret & E2).
    apply bind_Ret_inv in E2 as (id & ? & [= <- <-] & E2).
    apply bind_Ret_inv in E2 as ([] & s4 & [Hno Ht4]%rbt_insert_Ret & E2). injection E2 as _ <-.
    rewrite Ht3 in Ht4. by eapply locked_target.
  - change (parse_target node (rename_flag true false)) with (parse_delete (DS := table_service)) in E2.
    unfold parse_delete in E2. cbn [we_rest we_len we_key we_id] in E2. rewrite Hn in E2.
    apply bind_Ret_inv in E2 as (nd & ? & [= <- <-] & E2).
    destruct (pp_tree s1 !! (path_name path :: rev (path_dirs path))) as [nd|] eqn:Et.
    { destruct (Hag1 _ _ _ Et) as [Hl _]. rewrite bool_decide_eq_true_2 in E2 by (by destruct (lock_kept _ Hl)).
      by injection E2 as <- _. }
    apply bind_Ret_inv in E2 as (tgt & s3 & [-> Ht3]%SearchDirectory_Ret & E2).
    destruct (_ =? _); [by injection E2 as <- _|].
    apply bind_Ret_inv in E2 as ([] & s4 & [Hno Ht4]%rbt_insert_Ret & E2). injection E2 as _ <-.
    rewrite Ht3 in Ht4. by eapply locked_target.
Qed.

(** The inode number given for the new name is the one reported. *)
Lemma rename_parse_id (path : string) (d : bool) (given : Z) (s s' : tstate) (r : pp_result) :
  PathParseTreeInsert node path (rename_flag d true) (Some given) s = Ret r s' -> r_code r = SUCCESS -> r_inode r = Some given.
Proof.
  intros E Hc. unfold PathParseTreeInsert in E. destruct (_ && _); [by injection E as <- _|].
  apply bind_Ret_inv in E as (w & s1 & _ & E). destruct w as [e|w]; [by injection E as <- _|].
  apply bind_Ret_inv in E as (out & s2 & E2 & E). injection E as <- _. cbn in Hc |- *.
  destruct d; [|by injection E2 as <- _].
  change (parse_target node (rename_flag true true)) with (parse_create node (rename_flag true true)) in E2.
  unfold parse_create in E2. change (has (rename_flag true true) PATH_PARSE_FLAG_TARGET_IS_DIRECTORY) with true in E2.
  cbv iota zeta in E2. apply bind_Ret_inv in E2 as (nd & ? & [= <- <-] & E2).
  destruct (pp_tree s1 !! _); [by injection E2 as <- _|].
  apply bind_Ret_inv in E2 as (tgt & s3 & _ & E2). apply bind_Ret_inv in E2 as (id & ? & [= <- <-] & E2).
  apply bind_Ret_inv in E2 as ([] & s4 & _ & E2). by injection E2 as <- _.
Qed.
End Parses.

(** ** Whether the old path is a directory *)

Lemma resolve_app view ds es i : resolve view (ds ++ es) i = resolve view ds i ≫= resolve view es.
Proof. revert i. induction ds as [|d ds IH]; intros i; cbn; [done|]. destruct (_ =? _); [done|]. apply IH. Qed.

Lemma check_absolute (path : string) (s s' : tstate) (id : Z) :
  CheckWhetherPathExistsInDirectoryTable path s = Ret id s' -> exists rest, path = String SLASH rest /\ pp_tree s' = pp_tree s /\
    id = default DIR_HASH_TABLE_PATH_NOT_EXIST (resolve (view_of s) (String SLASH EmptyString :: check_names rest) 0).
Proof.
  intros E. destruct path as [|c rest]; [done|]. exists rest. assert (c = SLASH) as ->.
  { unfold CheckWhetherPathExistsInDirectoryTable in E. by case_bool_decide. }
  destruct (CheckWhetherPathExists_spec (DS := table_service) rest s I) as (s1 & E' & _ & Ht). rewrite E in E'.
  assert (s' = s1) as -> by congruence. split_and!; [done|done|congruence].
Qed.

Lemma check_target (path : string) (s s' : tstate) (id p : Z) (n : string) :
  CheckWhetherPathExistsInDirectoryTable path s = Ret id s' -> path <> ROOT_NAME -> path_name path <> EmptyString ->
  target_of (view_of s) path = Some (p, n) -> id = view_of s p n.
Proof.
  intros E Hroot Hname Htgt. destruct (check_absolute _ _ _ _ E) as (rest & -> & _ & ->).
  destruct (path_names (String SLASH rest) eq_refl Hroot) as (rest' & E' & En). injection E' as <-. unfold target_of in Htgt.
  apply fmap_Some in Htgt as (q & Hq & Hpn). assert (p = q) as -> by congruence.
  assert (n = path_name (String SLASH rest)) as -> by congruence.
  assert (check_names rest = split_slash rest) as ->.
  { unfold check_names. rewrite bool_decide_eq_false_2; [done|]. intros Ee. apply Hname.
    pose proof (f_equal (fun l => List.last l EmptyString) En) as Hl. cbv beta in Hl.
    rewrite last_last in Hl. rewrite Hl.
    rewrite last_cons by apply split_slash_nonempty. done. }
  rewrite <- En, resolve_app, Hq. cbn [mbind option_bind resolve]. by destruct (Z.eqb_spec (view_of s q (path_name (String SLASH rest))) DIR_HASH_TABLE_PATH_NOT_EXIST).
Qed.
