(* ===== verification/Cluster.v ===== *)
(** * The servers together

    What holds of the coordinator and the workers after any sequence of mkdir,
    rmdir, rename, create and unlink: the tables of directories are equal
    everywhere and form a tree, rows and directories correspond, and every row
    is where its key says (falcon/metadb/meta_handle.c). *)

From S2P Require Import FalconPrelude Catalog DirService InodeId PathCmp PathParse PathTable DirTree Placement ForeignServer InodeTable ShardService MetaFile MetaReadDir Namespace MetaDir RenamePaths.

Abbreviation pp := (pp_state (Dir := gmap (Z * string) Z)) (only parsing).
Abbreviation dir_table := (gmap (Z * string) Z) (only parsing).

(** ** Sequence numbers are only taken *)

Definition seq_step (a b : Z * seq_cache) : Prop := exists v, GetNextSequenceNum a.1 a.2 = (v, b.1, b.2).

Definition seq_of (s : pp) : Z * seq_cache := (pp_nextval s, pp_seq s).

(** Whatever the outcome, the sequence has only advanced. *)
Definition advancing {S A : Type} (f : S -> Z * seq_cache) (m : cmd S A) : Prop := forall s,
  match m s with
  | Ret _ s' | Raise _ s' => rtc seq_step (f s) (f s')
  | OutOfFuel => True
  end.

Section Advancing.
Context {S : Type} (f : S -> Z * seq_cache).

Lemma adv_bind {A B : Type} (m : cmd S A) (k : A -> cmd S B) :
  advancing f m -> (forall a, advancing f (k a)) -> advancing f (m ≫= k).
Proof.
  intros Hm Hk s. specialize (Hm s). unfold mbind, cmd_bind. destruct (m s) as [a s1|e s1|]; [|done|done].
  specialize (Hk a s1). destruct (k a s1); [by etransitivity|by etransitivity|done].
Qed.
Lemma adv_ret {A : Type} (a : A) : advancing f (mret a).
Proof. intros s. apply rtc_refl. Qed.
Lemma adv_raise {A : Type} (e : FalconErrorCode) : advancing f (raise e : cmd S A).
Proof. intros s. apply rtc_refl. Qed.
Lemma adv_gets {A : Type} (g : S -> A) : advancing f (gets g).
Proof. intros s. apply rtc_refl. Qed.
Lemma adv_fuel {A : Type} : advancing f (fun _ => OutOfFuel : outcome S A).
Proof. by intros s. Qed.
Lemma adv_unless b e : advancing f (raise_unless b e).
Proof. intros s. unfold raise_unless. destruct b; apply rtc_refl. Qed.
End Advancing.

Create HintDb advance.
#[export] Hint Resolve adv_ret adv_raise adv_gets adv_fuel adv_unless : advance.
Ltac advance := repeat (first [ progress eauto with advance | apply adv_bind; [|intros ?] | case_match ]).

Lemma adv_search p n lk : advancing seq_of (SearchDirectory p n lk).
Proof. intros s. unfold SearchDirectory, on_dir. cbn. apply rtc_refl. Qed.
Lemma adv_release : advancing seq_of (on_dir ds_release_last).
Proof. intros s. unfold on_dir. cbn. apply rtc_refl. Qed.
Lemma adv_find k : advancing seq_of (rbt_find k).
Proof. intros s. apply rtc_refl. Qed.
Lemma adv_set k nd : advancing seq_of (set_node k nd).
Proof. intros s. apply rtc_refl. Qed.
Lemma adv_next node : advancing seq_of (next_inode_id node).
Proof.
  intros s. unfold next_inode_id. destruct (GetNextSequenceNum _ _) as [[v nx] c] eqn:E.
  apply rtc_once. by exists v.
Qed.
#[export] Hint Resolve adv_search adv_release adv_find adv_set adv_next : advance.

Lemma adv_insert k nd : advancing seq_of (rbt_insert k nd).
Proof. unfold rbt_insert. advance. Qed.
#[export] Hint Resolve adv_insert : advance.
Lemma adv_enter key id d : advancing seq_of (enter_directory key id d).
Proof. unfold enter_directory. advance. Qed.
#[export] Hint Resolve adv_enter : advance.
Lemma adv_walk fuel first rest len key id : advancing seq_of (walk fuel first rest len key id).
Proof. revert first rest len key id. induction fuel as [|fuel IH]; intros; cbn [walk]; advance. Qed.
#[export] Hint Resolve adv_walk : advance.
Lemma adv_target node flag w inode : advancing seq_of (parse_target node flag w inode).
Proof. unfold parse_target, parse_create, parse_delete, parse_lock_target. advance. Qed.
#[export] Hint Resolve adv_target : advance.
Lemma adv_parse node path flag inode : advancing seq_of (PathParseTreeInsert node path flag inode).
Proof. unfold PathParseTreeInsert. advance. Qed.
Lemma adv_check fuel first rest len id : advancing seq_of (check_loop fuel first rest len id).
Proof. revert first rest len id. induction fuel as [|fuel IH]; intros; cbn [check_loop]; advance. Qed.
#[export] Hint Resolve adv_parse adv_check : advance.
Lemma adv_exists path : advancing seq_of (CheckWhetherPathExistsInDirectoryTable path).
Proof. unfold CheckWhetherPathExistsInDirectoryTable. advance. Qed.
#[export] Hint Resolve adv_exists : advance.

Definition cluster_seq (c : cluster) : Z * seq_cache := seq_of (cl_pp c).

Lemma adv_on_cn {A : Type} (m : cmd pp A) : advancing seq_of m -> advancing cluster_seq (on_cn m).
Proof. intros H c. specialize (H (cl_pp c)). unfold on_cn. by destruct (m (cl_pp c)). Qed.
Lemma adv_cn_dirs {A : Type} (m : cmd dir_table A) : advancing cluster_seq (cn_dirs m).
Proof. apply adv_on_cn. intros s. unfold on_dir. destruct (m (pp_dir s)); done || apply rtc_refl. Qed.
Lemma adv_on_worker {A : Type} w (m : cmd worker A) : advancing cluster_seq (on_worker w m).
Proof. intros c. unfold on_worker. destruct (cl_workers c !! w); [destruct (m w0)|]; done || apply rtc_refl. Qed.
#[export] Hint Resolve adv_on_cn adv_cn_dirs adv_on_worker : advance.
Lemma adv_on_workers ws m : advancing cluster_seq (on_workers ws m).
Proof. induction ws as [|w ws IH]; cbn [on_workers]; advance. Qed.
#[export] Hint Resolve adv_on_workers : advance.

Section Sequence.
Context {SS : ShardService} (sg : bool) (name_le : relation string) `{!RelDecision name_le}.
Context (now : Z) (pg_qsort : list MetaProcessInfo -> list MetaProcessInfo) (hash_order : list Z -> list Z).

Lemma adv_shard v : advancing cluster_seq (search_shard v).
Proof. unfold search_shard. advance. Qed.
#[local] Hint Resolve adv_shard : advance.
Lemma adv_mkdir_parse local infos : advancing cluster_seq (mkdir_parse sg now local infos).
Proof. induction infos as [|i infos IH]; cbn [mkdir_parse]; advance. Qed.
Lemma adv_mkdir_places infos : advancing cluster_seq (mkdir_places infos).
Proof. induction infos as [|i infos IH]; cbn [mkdir_places]; advance. Qed.
#[local] Hint Resolve adv_mkdir_parse adv_mkdir_places : advance.
Lemma adv_mkdir local infos : advancing cluster_seq (FalconMkdirHandle sg now pg_qsort hash_order local infos).
Proof. unfold FalconMkdirHandle. advance. Qed.
Lemma adv_rmdir local path : advancing cluster_seq (FalconRmdirHandle sg name_le local path).
Proof. unfold FalconRmdirHandle. advance. Qed.
Lemma adv_rename_parse local d isDst id path : advancing cluster_seq (rename_parse local d isDst id path).
Proof. unfold rename_parse. advance. Qed.
#[local] Hint Resolve adv_rename_parse : advance.
Lemma adv_rename_send d id f sp sn dp dn : advancing cluster_seq (rename_send sg d id f sp sn dp dn).
Proof. unfold rename_send. advance. Qed.
#[local] Hint Resolve adv_rename_send : advance.
Lemma adv_rename local src dst : advancing cluster_seq (FalconRenameHandle sg local src dst).
Proof. unfold FalconRenameHandle. advance. Qed.
End Sequence.

(** ** Inode numbers of directories are taken from the sequence once *)

Record seq_ok (next : Z) (c : seq_cache) (D : dir_table) : Prop := {
  so_next : 1 <= next;
  so_remain : 0 <= remainNumberCount c;
  so_block : forall v, in_block c v -> 1 <= v < next;
  so_taken : forall k id, D !! k = Some id -> exists v, id = v * 2 ^ 12 /\ 1 <= v < next /\ ~ in_block c v;
}.

Lemma GetNext_mono next c v next' c' : GetNextSequenceNum next c = (v, next', c') -> next <= next'.
Proof. unfold GetNextSequenceNum, SEQUENCE_BLOCK. destruct (_ =? 0); intros; simplify_eq; lia. Qed.

(** The numbers a backend has after taking one. *)
Lemma GetNext_block next c v next' c' D :
  seq_ok next c D -> GetNextSequenceNum next c = (v, next', c') -> next' <= 2 ^ 39 ->
  1 <= v < next' /\ (next <= v \/ in_block c v) /\ 0 <= remainNumberCount c' /\
  forall x, in_block c' x -> 1 <= x < next' /\ x <> v /\ (next <= x \/ in_block c x).
Proof.
  intros [Hn Hr Hb _] H Hmax. unfold GetNextSequenceNum, SEQUENCE_BLOCK in H. unfold in_block in *.
  destruct (Z.eqb_spec (remainNumberCount c) 0) as [E|E]; simplify_eq; cbn [remainNumberCount currentSequenceNumber] in *.
  - rewrite wrap_small by (unfold in_range; lia). split_and!; lia.
  - pose proof (Hb (currentSequenceNumber c) ltac:(lia)) as Hc.
    rewrite wrap_small by (unfold in_range; lia). split_and!; try lia.
    intros x Hx. pose proof (Hb x ltac:(lia)). lia.
Qed.

Lemma seq_ok_next next c v next' c' D :
  seq_ok next c D -> GetNextSequenceNum next c = (v, next', c') -> next' <= 2 ^ 39 ->
  let id := GenerateInodeIdBySeqAndNodeId v 0 in
  0 < id < 2 ^ 51 /\ (forall k, D !! k <> Some id) /\ seq_ok next' c' D /\ forall k, seq_ok next' c' (<[k := id]> D).
Proof.
  intros Hs H Hmax id. destruct (GetNext_block _ _ _ _ _ _ Hs H Hmax) as (Hv & Hfrom & Hrem & Hblock).
  pose proof (GetNext_mono _ _ _ _ _ H) as Hmono.
  assert (id = v * 2 ^ 12) as Eid by (unfold id; rewrite GenerateInodeId_sum; lia).
  assert (seq_ok next' c' D) as Hs'.
  { split; [lia|done|intros x Hx; apply Hblock, Hx|]. intros k i Hk.
    destruct (so_taken _ _ _ Hs k i Hk) as (x & -> & Hx & Hno). exists x. split; [done|]. split; [lia|].
    intros Hin. destruct (Hblock x Hin) as (_ & _ & [?|?]); [lia|done]. }
  split_and!; [lia|lia| |done|].
  - intros k Hk. destruct (so_taken _ _ _ Hs k id Hk) as (x & Ex & Hx & Hno).
    assert (x = v) as -> by lia. destruct Hfrom; [lia|done].
  - intros k. destruct Hs' as [A B C T]. split; [done|done|done|]. intros k' i [[_ <-]|[_ Hk]]%lookup_insert_Some; [|by eapply T].
    exists v. split; [done|]. split; [lia|]. intros Hin. by destruct (Hblock v Hin) as (_ & ? & _).
Qed.

Lemma seq_mono a b : rtc seq_step a b -> a.1 <= b.1.
Proof. induction 1 as [|a b c [v E] _ IH]; [done|]. apply GetNext_mono in E. lia. Qed.

Lemma seq_ok_adv a b D : seq_ok a.1 a.2 D -> rtc seq_step a b -> b.1 <= 2 ^ 39 -> seq_ok b.1 b.2 D.
Proof.
  intros Hs H. induction H as [|a b c [v E] H IH]; intros Hmax; [done|]. apply IH; [|done].
  apply seq_mono in H. by eapply seq_ok_next; [..|lia].
Qed.

Lemma seq_ok_dirs (next : Z) (c : seq_cache) (D D' : dir_table) :
  (forall k id, D' !! k = Some id -> exists k', D !! k' = Some id) -> seq_ok next c D -> seq_ok next c D'.
Proof. intros Hs [A B C T]. split; [done|done|done|]. intros k id Hk. destruct (Hs k id Hk) as [k' ?]. by eapply T. Qed.

(** ** The invariant of the servers *)

Section Invariant.
Context {SS : ShardService} (sg : bool).

(** The row of a key, wherever it is filed. *)
Definition inode_at (c : cluster) (k : Z * string) : option inode_row :=
  match ss_lookup k.1 with
  | Some (sh, w) => s ← cl_workers c !! w; find_row (wk_inodes s) sh k
  | None => None
  end.

Definition cn_table (c : cluster) : dir_table := pp_dir (cl_pp c).

Record cluster_ok (c : cluster) : Prop := {
  ck_seq : seq_ok (pp_nextval (cl_pp c)) (pp_seq (cl_pp c)) (cn_table c);
  ck_dirs : dirs_ok (cn_table c);
  ck_replicas : forall w s, cl_workers c !! w = Some s -> wk_dirs s = cn_table c;
  ck_tables : forall v sh w, ss_lookup v = Some (sh, w) ->
    exists s, cl_workers c !! w = Some s /\ is_Some (wk_inodes s !! sh);
  ck_placed : forall w s sh k r, cl_workers c !! w = Some s -> find_row (wk_inodes s) sh k = Some r ->
    ss_lookup k.1 = Some (sh, w);
  ck_rows : rows_ok sg (cn_table c) (inode_at c);
}.

(** Rows of a worker that is given in part. *)
Lemma inode_at_row (c : cluster) k sh w s :
  ss_lookup k.1 = Some (sh, w) -> cl_workers c !! w = Some s -> inode_at c k = find_row (wk_inodes s) sh k.
Proof. intros Hl Hw. unfold inode_at. by rewrite Hl, Hw. Qed.
End Invariant.

(** ** What the sub-operations do *)

(** A map with more entries. *)
Definition added {K A : Type} `{Countable K} (m m' : gmap K A) (l : list (K * A)) : Prop :=
  forall k a, m' !! k = Some a <-> m !! k = Some a \/ (k, a) ∈ l.

Lemma added_nil {K A : Type} `{Countable K} (m : gmap K A) : added m m [].
Proof. intros k a. split; [by left|]. intros [?|?%elem_of_nil]; done. Qed.

Lemma added_cons {K A : Type} `{Countable K} (m m' : gmap K A) k a l :
  m !! k = None -> added (<[k := a]> m) m' l -> added m m' ((k, a) :: l).
Proof.
  intros Hk Hm k' a'. rewrite (Hm k' a'), lookup_insert_Some, elem_of_cons. split.
  - intros [[[<- <-]|[_ ?]]|?]; auto.
  - intros [?|[[= -> ->]|?]]; auto. left. right. split; [congruence|done].
Qed.

Lemma added_det {K A : Type} `{Countable K} (m m1 m2 : gmap K A) l : added m m1 l -> added m m2 l -> m1 = m2.
Proof.
  intros H1 H2. apply map_eq. intros k. destruct (m1 !! k) as [a|] eqn:E1.
  - symmetry. by apply H2, H1.
  - destruct (m2 !! k) as [a|] eqn:E2; [|done]. apply H2, H1 in E2. congruence.
Qed.

Lemma added_mono {K A : Type} `{Countable K} (m m' : gmap K A) l : added m m' l -> m ⊆ m'.
Proof. intros Hm. apply map_subseteq_spec. intros k a Hk. apply Hm. by left. Qed.

Lemma dir_insert_Ret (k : Z * string) (id : Z) (t t' : dir_table) u :
  dir_insert k id t = Ret u t' -> t !! k = None /\ t' = <[k := id]> t.
Proof. destruct u. apply tuple_insert_Ret. Qed.

Lemma dir_delete_Ret (k : Z * string) (t t' : dir_table) u :
  dir_delete k t = Ret u t' -> is_Some (t !! k) /\ t' = delete k t.
Proof. unfold dir_delete. destruct (t !! k); [|done]. intros [= _ <-]. eauto. Qed.

Lemma on_worker_Ret {A : Type} w (m : cmd worker A) (c c' : cluster) a :
  on_worker w m c = Ret a c' -> exists s s', cl_workers c !! w = Some s /\ m s = Ret a s' /\
    c' = mkCluster (cl_pp c) (<[w := s']> (cl_workers c)).
Proof.
  unfold on_worker. destruct (cl_workers c !! w) as [s|]; [|done].
  destruct (m s) as [a0 s'|e s'|] eqn:E; [|done|done]. intros [= <- <-]. eauto.
Qed.

(** Each worker named does its part. *)
Lemma on_workers_Ret ws (m : Z -> cmd worker unit) (c c' : cluster) u :
  on_workers ws m c = Ret u c' -> NoDup ws ->
  cl_pp c' = cl_pp c /\
  forall w, if decide (w ∈ ws)
    then exists s s', cl_workers c !! w = Some s /\ m w s = Ret tt s' /\ cl_workers c' !! w = Some s'
    else cl_workers c' !! w = cl_workers c !! w.
Proof.
  revert c. induction ws as [|w ws IH]; intros c H Hnd; cbn [on_workers] in H.
  { injection H as _ <-. split; [done|]. intros w. rewrite decide_False; [done|]. by intros ?%elem_of_nil. }
  apply bind_Ret_inv in H as ([] & c1 & E1 & E2). apply NoDup_cons in Hnd as [Hw Hnd].
  apply on_worker_Ret in E1 as (s & s' & Hs & Hm & ->). destruct (IH _ E2 Hnd) as [Hp Hall]. split; [done|].
  intros w'. specialize (Hall w'). cbn [cl_workers] in Hall. destruct (decide (w' = w)) as [->|Hne].
  - rewrite decide_False in Hall by done. rewrite decide_True by left. rewrite lookup_insert_eq in Hall. eauto.
  - rewrite lookup_insert_ne in Hall by done. destruct (decide (w' ∈ ws)) as [Hin|Hin].
    + rewrite decide_True by (by right). done.
    + rewrite decide_False; [done|]. by intros [?|?]%elem_of_cons.
Qed.

Lemma all_workers_elem (c : cluster) w : w ∈ all_workers c <-> is_Some (cl_workers c !! w).
Proof.
  unfold all_workers. rewrite list_elem_of_fmap. split.
  - intros ([w' s] & -> & Hin). apply elem_of_map_to_list in Hin. eauto.
  - intros [s Hs]. exists (w, s). split; [done|]. by apply elem_of_map_to_list.
Qed.

Lemma all_workers_NoDup (c : cluster) : NoDup (all_workers c).
Proof. apply NoDup_fst_map_to_list. Qed.

Lemma wk_on_dirs_Ret {A : Type} (m : cmd dir_table A) (s s' : worker) a :
  wk_on_dirs m s = Ret a s' -> m (wk_dirs s) = Ret a (wk_dirs s') /\ wk_inodes s' = wk_inodes s.
Proof. unfold wk_on_dirs. destruct (m (wk_dirs s)); intros; by simplify_eq. Qed.

Lemma wk_on_inodes_Ret {A : Type} (m : cmd inode_shards A) (s s' : worker) a :
  wk_on_inodes m s = Ret a s' -> m (wk_inodes s) = Ret a (wk_inodes s') /\ wk_dirs s' = wk_dirs s.
Proof. unfold wk_on_inodes. destruct (m (wk_inodes s)); intros; by simplify_eq. Qed.

Lemma unless_Ret {S : Type} b e (s s' : S) u : raise_unless b e s = Ret u s' -> b = true /\ s' = s.
Proof. unfold raise_unless. destruct b; [|done]. by intros [= _ <-]. Qed.

(** The entry of the table a new directory gets. *)
Definition new_dir (i : MetaProcessInfo) : (Z * string) * Z := ((mi_parentId i, mi_name i), st_ino (mi_row i)).

Lemma SubMkdir_Ret infos (s s' : worker) u :
  FalconMkdirSubMkdirHandle infos s = Ret u s' ->
  wk_inodes s' = wk_inodes s /\ added (wk_dirs s) (wk_dirs s') (new_dir <$> infos).
Proof.
  revert s. induction infos as [|i infos IH]; intros s H; cbn [FalconMkdirSubMkdirHandle] in H.
  { injection H as _ <-. split; [done|]. apply added_nil. }
  apply bind_Ret_inv in H as (? & ? & [_ ->]%unless_Ret & H).
  apply bind_Ret_inv in H as ([] & s2 & [E1 Ei]%wk_on_dirs_Ret & H).
  apply dir_insert_Ret in E1 as [Hno Ed]. destruct (IH _ H) as [-> Hadd]. split; [done|].
  rewrite fmap_cons. apply added_cons; [done|]. by rewrite <- Ed.
Qed.

(** A row put into the table of a shard. *)
Lemma InsertIntoInodeTable_Ret (sh : Z) (k : Z * string) (r : inode_row) (t t' : inode_shards) (u : unit) :
  InsertIntoInodeTable sh k r t = Ret u t' ->
  exists rows, t !! sh = Some rows /\ rows !! k = None /\ t' = <[sh := <[k := r]> rows]> t.
Proof.
  unfold InsertIntoInodeTable. destruct (t !! sh) as [rows|]; [|done]. unfold tuple_insert.
  destruct (rows !! k) eqn:E; [done|]. intros [= _ <-]. eauto.
Qed.

Lemma find_row_update (t : inode_shards) (sh : Z) (rows : gmap (Z * string) inode_row) (sh' : Z) (k : Z * string) :
  find_row (<[sh := rows]> t) sh' k = if decide (sh' = sh) then rows !! k else find_row t sh' k.
Proof.
  unfold find_row. destruct (decide (sh' = sh)) as [->|Hne].
  - by rewrite lookup_insert_eq.
  - by rewrite lookup_insert_ne.
Qed.

Lemma tables_update (t : inode_shards) (sh : Z) (rows rows' : gmap (Z * string) inode_row) (sh' : Z) :
  t !! sh = Some rows -> is_Some (<[sh := rows']> t !! sh') <-> is_Some (t !! sh').
Proof.
  intros H. destruct (decide (sh' = sh)) as [->|Hne]; [|by rewrite lookup_insert_ne].
  rewrite lookup_insert_eq, H. split; eauto.
Qed.

Lemma on_cn_Ret {A : Type} (m : cmd pp A) (c c' : cluster) (a : A) :
  on_cn m c = Ret a c' -> m (cl_pp c) = Ret a (cl_pp c') /\ cl_workers c' = cl_workers c.
Proof. unfold on_cn. destruct (m (cl_pp c)); intros; by simplify_eq. Qed.

Definition with_dirs (s : pp) (D : dir_table) : pp := mkPP (pp_tree s) (pp_nextval s) (pp_seq s) D.

Lemma cn_dirs_Ret {A : Type} (m : cmd dir_table A) (c c' : cluster) (a : A) :
  cn_dirs m c = Ret a c' ->
  m (cn_table c) = Ret a (cn_table c') /\ cl_pp c' = with_dirs (cl_pp c) (cn_table c') /\ cl_workers c' = cl_workers c.
Proof.
  intros [H ->]%on_cn_Ret. unfold on_dir in H. unfold cn_table. destruct (m (pp_dir (cl_pp c))) as [x d|x d|]; [|done|done].
  injection H as <- <-. done.
Qed.

(** The number of a directory is not the answer for a missing one. *)
Lemma id_exists id : 0 < id < 2 ^ 51 -> id <> DIR_HASH_TABLE_PATH_NOT_EXIST.
Proof. change DIR_HASH_TABLE_PATH_NOT_EXIST with (2 ^ 64 - 1). lia. Qed.

Section Mkdir.
Context {SS : ShardService} (sg : bool) (now : Z).
Context (pg_qsort : list MetaProcessInfo -> list MetaProcessInfo) (hash_order : list Z -> list Z).
Context (pg_qsort_perm : forall l, pg_qsort l ≡ₚ l) (hash_order_perm : forall l, hash_order l ≡ₚ l).

Lemma search_shard_Ret {S : Type} v (s s' : S) r : search_shard v s = Ret r s' -> ss_lookup v = Some r /\ s' = s.
Proof. unfold search_shard. destruct (ss_lookup v); [by intros [= <- <-]|done]. Qed.

Lemma sub_create_shards_Ret local infos (s s' : worker) pl :
  sub_create_shards local infos s = Ret pl s' ->
  s' = s /\ pl.*1 = infos /\ forall i sh, (i, sh) ∈ pl -> ss_lookup (mi_parentId_partId i) = Some (sh, local).
Proof.
  revert s pl. induction infos as [|i infos IH]; intros s pl H; cbn [sub_create_shards] in H.
  { injection H as <- <-. split_and!; [done|done|]. by intros i sh ?%elem_of_nil. }
  apply bind_Ret_inv in H as (? & ? & [_ ->]%unless_Ret & H).
  apply bind_Ret_inv in H as ([sh w] & ? & [Hl ->]%search_shard_Ret & H).
  apply bind_Ret_inv in H as (? & ? & [Hw%Z.eqb_eq ->]%unless_Ret & H). cbn in Hw. subst w.
  apply bind_Ret_inv in H as (rest & s1 & E & H). injection H as <- <-. destruct (IH _ _ E) as (-> & <- & Hall).
  split_and!; [done|done|]. intros j sh' [[= -> ->]|Hin]%elem_of_cons; [done|]. by apply Hall.
Qed.

(** The rows added to the tables of a worker. *)
Definition rows_added (t t' : inode_shards) (l : list (MetaProcessInfo * Z)) : Prop :=
  (forall sh, is_Some (t' !! sh) <-> is_Some (t !! sh)) /\
  forall sh k r, find_row t' sh k = Some r <->
    find_row t sh k = Some r \/ exists i, (i, sh) ∈ l /\ k = info_key i /\ r = mkdir_row i.

Lemma sub_create_rows_Ret (pl : list (MetaProcessInfo * Z)) (s s' : worker) (u : unit) :
  sub_create_rows pl s = Ret u s' -> wk_dirs s' = wk_dirs s /\ rows_added (wk_inodes s) (wk_inodes s') pl.
Proof.
  revert s. induction pl as [|[i sh] pl IH]; intros s H; cbn [sub_create_rows] in H.
  { injection H as _ <-. split; [done|]. split; [done|]. intros sh k r. split; [by left|].
    intros [?|(i & ?%elem_of_nil & _)]; done. }
  apply bind_Ret_inv in H as ([] & s1 & [E1 Ed]%wk_on_inodes_Ret & H).
  apply InsertIntoInodeTable_Ret in E1 as (rows & Hsh & Hk & Et). destruct (IH _ H) as (-> & Htab & Hrow).
  split; [done|]. rewrite Et in Htab, Hrow. split.
  { intros sh'. rewrite Htab. by eapply tables_update. }
  intros sh' k r. rewrite Hrow, find_row_update. assert (find_row (wk_inodes s) sh = (rows !!.)) as Hf.
  { unfold find_row. by rewrite Hsh. }
  case_decide as Hd; [subst sh'; rewrite Hf, lookup_insert_Some|]; split.
  - intros [[[<- <-]|[_ ?]]|(j & ? & ?)]; [right|by left|right]; [exists i; split_and!; [left|done|done]|].
    exists j. split; [by right|done].
  - intros [?|(j & [[= ->]|?]%elem_of_cons & -> & ->)]; [|by left; left|right; eauto].
    left. right. split; [congruence|done].
  - intros [?|(j & ? & ?)]; [by left|right]. exists j. split; [by right|done].
  - intros [?|(j & [[= -> ->]|?]%elem_of_cons & ?)]; [by left|done|right; eauto].
Qed.

(** The same elements in another order. *)
Lemma rows_added_elem t t' l l' : (forall x, x ∈ l <-> x ∈ l') -> rows_added t t' l -> rows_added t t' l'.
Proof. intros Hl [H1 H2]. split; [done|]. intros sh k r. rewrite H2. by setoid_rewrite Hl. Qed.

Lemma grouped_elem {A : Type} (l : list (A * Z)) x :
  x ∈ concat ((fun sh => filter (fun x => x.2 = sh) l) <$> hash_order (remove_dups l.*2)) <-> x ∈ l.
Proof.
  rewrite list_elem_of_In, in_concat. split.
  - intros (g & Hg & Hx). apply list_elem_of_In, list_elem_of_fmap in Hg as (sh & -> & _).
    apply list_elem_of_In, list_elem_of_filter in Hx. tauto.
  - intros Hx. exists (filter (fun y => y.2 = x.2) l). split; apply list_elem_of_In.
    + apply list_elem_of_fmap. exists x.2. split; [done|]. rewrite hash_order_perm, elem_of_remove_dups.
      by apply list_elem_of_fmap_2.
    + by apply list_elem_of_filter.
Qed.

Lemma SubCreate_Ret local infos (s s' : worker) u :
  FalconMkdirSubCreateHandle hash_order local infos s = Ret u s' ->
  wk_dirs s' = wk_dirs s /\ (forall sh, is_Some (wk_inodes s' !! sh) <-> is_Some (wk_inodes s !! sh)) /\
  forall sh k r, find_row (wk_inodes s') sh k = Some r <-> find_row (wk_inodes s) sh k = Some r \/
    exists i, i ∈ infos /\ k = info_key i /\ r = mkdir_row i /\ ss_lookup k.1 = Some (sh, local).
Proof.
  intros H. apply bind_Ret_inv in H as (pl & s1 & E & H).
  apply sub_create_shards_Ret in E as (-> & <- & Hl).
  apply sub_create_rows_Ret in H as (-> & Hr). split; [done|].
  eapply (rows_added_elem _ _ _ pl) in Hr as [Ht Hr]; [|apply grouped_elem]. split; [done|].
  intros sh k r. rewrite Hr. split; (intros [?|H]; [by left|right]).
  - destruct H as (i & Hin & -> & ->). exists i. split_and!; [|done|done|by apply Hl].
    apply list_elem_of_fmap. by exists (i, sh).
  - destruct H as (i & Hin & -> & -> & Hlk). exists i. split_and!; [|done|done].
    apply list_elem_of_fmap in Hin as ([i' sh'] & -> & Hin). pose proof (Hl _ _ Hin) as Hl'. cbn in *. congruence.
Qed.

(** What the coordinator has while the paths of a batch are parsed. *)
Record parsing_ok (s : pp) : Prop := {
  po_tree : tree_agrees (table_view (pp_dir s)) (pp_tree s);
  po_dirs : dirs_ok (pp_dir s);
  po_seq : seq_ok (pp_nextval s) (pp_seq s) (pp_dir s);
}.

(** An entry for which a directory was entered into [D]. *)
Definition new_ok (D : dir_table) (i : MetaProcessInfo) : Prop :=
  info_key i = entry_key sg (mi_parentId i) (mi_name i) /\ st_mode (mi_row i) = Z.lor S_IFDIR 0x1ED /\
  target_of (table_view D) (mi_path i) = Some (mi_parentId i, mi_name i) /\ absolute (mi_path i).

Lemma new_ok_mono (D D' : dir_table) (i : MetaProcessInfo) : D ⊆ D' -> new_ok D i -> new_ok D' i.
Proof. intros Hs (? & ? & ? & ?). split_and!; [done|done|by eapply target_mono|done]. Qed.

Lemma new_ok_parent (D : dir_table) (i : MetaProcessInfo) : new_ok D i -> parent_entry D (mi_parentId i) (mi_name i).
Proof. intros (_ & _ & Ht & Ha). by eapply (target_of_parent _ (mi_path i)). Qed.

Definition entered (arr : list (MetaProcessInfo * bool)) : list MetaProcessInfo := (filter (fun x => x.2 = true) arr).*1.

Definition parsable (i : MetaProcessInfo) : Prop := mi_errorCode i = SUCCESS -> absolute (mi_path i).

(** One entry of the batch. *)
Lemma mkdir_parse_one (i : MetaProcessInfo) (s s1 : pp) (r : pp_result) :
  PathParseTreeInsert 0 (mi_path i) MKDIR_FLAG (Some (st_ino (mi_row i))) s = Ret r s1 ->
  absolute (mi_path i) -> parsing_ok s -> pp_nextval s1 <= 2 ^ 39 ->
  match r_code r with
  | SUCCESS => exists p n id, r = mkResult SUCCESS (Some (p, n)) (Some id) /\ pp_dir s1 = pp_dir s /\
      target_of (table_view (pp_dir s)) (mi_path i) = Some (p, n) /\ (pp_dir s !! (p, n) = None ->
        parsing_ok (mkPP (pp_tree s1) (pp_nextval s1) (pp_seq s1) (<[(p, n) := id]> (pp_dir s))))
  | _ => parsing_ok s1 /\ pp_dir s1 = pp_dir s
  end.
Proof.
  intros E Habs [Ht Hd Hs] Hmax. pose proof (parse_keeps 0 _ _ _ _ _ _ E) as Hdir.
  destruct (parse_mkdir 0 (mi_path i) (st_ino (mi_row i)) s Habs Ht) as (r0 & s0 & E0 & _ & H).
  rewrite E in E0. simplify_eq. destruct (r_code r0) eqn:Ec.
  2-36: destruct H as (Ht' & Hn & Hq); split; [|done]; split; unfold view_of in *; rewrite ?Hdir, ?Hn, ?Hq; done.
  destruct H as (p & n & v & Hv & -> & Htgt & Htree). exists p, n, (GenerateInodeIdBySeqAndNodeId v 0).
  split; [done|]. split; [done|]. assert (below_root (pp_dir s) p n) as Hb by (by eapply target_below_root).
  split; [exact Htgt|]. intros Hno. destruct (seq_ok_next _ _ _ _ _ _ Hs Hv Hmax) as (Hid & Hfresh & _ & Hs').
  split; cbn [pp_dir pp_tree pp_nextval pp_seq].
  - by apply Htree, id_exists.
  - by apply dirs_ok_add.
  - apply Hs'.
Qed.

Lemma entered_cons i b arr : entered ((i, b) :: arr) = if b then i :: entered arr else entered arr.
Proof. unfold entered. rewrite filter_cons. by destruct b. Qed.

Lemma mkdir_parse_Ret (infos : list MetaProcessInfo) (c c' : cluster) (arr : list (MetaProcessInfo * bool)) :
  mkdir_parse sg now 0 infos c = Ret arr c' -> Forall parsable infos -> parsing_ok (cl_pp c) ->
  pp_nextval (cl_pp c') <= 2 ^ 39 ->
  cl_workers c' = cl_workers c /\ parsing_ok (cl_pp c') /\
  added (cn_table c) (cn_table c') (new_dir <$> entered arr) /\ Forall (new_ok (cn_table c')) (entered arr) /\
  succeeded arr.*1 = entered arr.
Proof.
  revert c arr. induction infos as [|i infos IH]; intros c arr H Hp Hok Hmax; cbn [mkdir_parse] in H.
  { injection H as <- <-. split_and!; [done|done|apply added_nil|constructor|done]. }
  apply Forall_cons in Hp as [Hi Hp]. apply bind_Ret_inv in H as ([i' b] & c1 & E1 & H).
  apply bind_Ret_inv in H as (rest & c2 & E2 & H). injection H as <- <-.
  assert (pp_nextval (cl_pp c1) <= 2 ^ 39) as Hmax1.
  { pose proof (adv_mkdir_parse sg now 0 infos c1) as Ha. rewrite E2 in Ha. apply seq_mono in Ha. cbn in Ha. lia. }
  rewrite entered_cons, fmap_cons. unfold succeeded. rewrite filter_cons.
  assert (cl_workers c1 = cl_workers c /\ parsing_ok (cl_pp c1) /\
    if b then mi_errorCode i' = SUCCESS /\ new_ok (cn_table c1) i' /\ cn_table c !! (new_dir i').1 = None /\
      cn_table c1 = <[(new_dir i').1 := (new_dir i').2]> (cn_table c)
    else mi_errorCode i' <> SUCCESS /\ cn_table c1 = cn_table c) as (Hw1 & Hok1 & Hstep).
  { case_bool_decide as Hs; cbn [negb] in E1; [|by injection E1 as <- <- <-].
    apply bind_Ret_inv in E1 as (r & c0 & [Er Ew]%on_cn_Ret & E1).
    assert (pp_nextval (cl_pp c0) <= 2 ^ 39) as Hmax0.
    { destruct (r_code r), (r_target r) as [[p n]|], (r_inode r); try (by injection E1 as _ _ <-).
      apply bind_Ret_inv in E1 as (? & c3 & (_ & Ec & _)%cn_dirs_Ret & E1). injection E1 as _ _ <-. by rewrite Ec in Hmax1. }
    pose proof (mkdir_parse_one i (cl_pp c) (cl_pp c0) r Er (Hi Hs) Hok Hmax0) as Hone.
    destruct (r_code r) eqn:Ec.
    2-36: injection E1 as <- <- <-; destruct Hone; by rewrite Ew.
    destruct Hone as (p & n & id & -> & Hd & Htgt & Hnew). cbn in E1.
    apply bind_Ret_inv in E1 as (? & c3 & (Ed & Ep & Ew3)%cn_dirs_Ret & E1). injection E1 as <- <- <-.
    apply dir_insert_Ret in Ed as [Hno Ed]. unfold cn_table in *. rewrite Hd in *.
    rewrite Ew3, Ew. split; [done|]. split; [rewrite Ep, Ed; by apply Hnew|]. split; [done|]. split; [|done].
    split; [done|]. split; [done|]. split; [|by apply Hi]. cbn. rewrite Ed. eapply target_mono; [by apply insert_subseteq|done]. }
  destruct (IH _ _ E2 Hp Hok1 Hmax) as (Hw & Hok' & Hadd & Hnew & Hsucc). split; [congruence|]. split; [done|].
  cbn [fst]. destruct b; [|by rewrite decide_False, <- (proj2 Hstep) by apply Hstep].
  destruct Hstep as (Hs & Hni & Hno & Ed). rewrite fmap_cons, decide_True by done. split; [|split; [|unfold succeeded in Hsucc; by rewrite Hsucc]].
  - rewrite (surjective_pairing (new_dir i')). apply added_cons; [done|]. by rewrite <- Ed.
  - constructor; [|done]. eapply new_ok_mono; [by eapply added_mono|done].
Qed.

Lemma mkdir_places_Ret (infos : list MetaProcessInfo) (c c' : cluster) (pl : list (MetaProcessInfo * Z)) :
  mkdir_places infos c = Ret pl c' ->
  c' = c /\ pl.*1 = infos /\ forall i w, (i, w) ∈ pl -> exists sh, ss_lookup (mi_parentId_partId i) = Some (sh, w).
Proof.
  revert c pl. induction infos as [|i infos IH]; intros c pl H; cbn [mkdir_places] in H.
  { injection H as <- <-. split_and!; [done|done|]. by intros i w ?%elem_of_nil. }
  apply bind_Ret_inv in H as ([sh w] & ? & [Hl ->]%search_shard_Ret & H).
  apply bind_Ret_inv in H as (rest & c1 & E & H). injection H as <- <-. destruct (IH _ _ E) as (-> & <- & Hall).
  split_and!; [done|done|]. intros j w' [[= -> ->]|Hin]%elem_of_cons; [eauto|by apply Hall].
Qed.

(** What the two sub-operations leave on a worker: entries for the new
    directories, and the rows of those that are filed there. *)
Definition dirs_made (valid : list MetaProcessInfo) (pl : list (MetaProcessInfo * Z)) (w : Z) (o o2 : option worker) : Prop :=
  match o, o2 with
  | None, None => True
  | Some s, Some s2 => added (wk_dirs s) (wk_dirs s2) (new_dir <$> valid) /\
      (forall sh, is_Some (wk_inodes s2 !! sh) <-> is_Some (wk_inodes s !! sh)) /\
      forall sh k r, find_row (wk_inodes s2) sh k = Some r <-> find_row (wk_inodes s) sh k = Some r \/
        exists i, (i, w) ∈ pl /\ k = info_key i /\ r = mkdir_row i /\ ss_lookup k.1 = Some (sh, w)
  | _, _ => False
  end.

Lemma mkdir_workers (valid : list MetaProcessInfo) (pl : list (MetaProcessInfo * Z)) (c c1 c2 : cluster) (u1 u2 : unit) :
  on_workers (all_workers c) (fun _ => FalconMkdirSubMkdirHandle valid) c = Ret u1 c1 ->
  on_workers (hash_order (remove_dups pl.*2))
    (fun w => FalconMkdirSubCreateHandle hash_order w (filter (fun x => x.2 = w) pl).*1) c1 = Ret u2 c2 ->
  cl_pp c2 = cl_pp c /\
  forall w, dirs_made valid pl w (cl_workers c !! w) (cl_workers c2 !! w).
Proof.
  intros H1 H2. apply on_workers_Ret in H1 as [Hp1 Hw1]; [|apply all_workers_NoDup].
  apply on_workers_Ret in H2 as [Hp2 Hw2]; [|rewrite hash_order_perm; apply NoDup_remove_dups].
  split; [congruence|]. intros w. specialize (Hw1 w). specialize (Hw2 w). unfold dirs_made.
  destruct (decide (w ∈ all_workers c)) as [Hin1|Hin1].
  - destruct Hw1 as (s & s1 & -> & Hm & E1). apply SubMkdir_Ret in Hm as [Hi Hadd]. rewrite E1 in Hw2.
    case_decide as Hin2.
    + destruct Hw2 as (? & s2 & [= <-] & Hm & ->). apply SubCreate_Ret in Hm as (-> & Ht & Hr).
      rewrite Hi in Ht, Hr. split; [done|]. split; [done|]. intros sh k r. rewrite Hr.
      split; (intros [?|(i & Hin & Hx)]; [by left|right; exists i; split; [|done]]).
      * apply list_elem_of_fmap in Hin as ([i' w'] & -> & [Hw Hin]%list_elem_of_filter). cbn in *. by subst.
      * apply list_elem_of_fmap. exists (i, w). split; [done|]. by apply list_elem_of_filter.
    + rewrite Hw2, Hi. split; [done|]. split; [done|]. intros sh k r. split; [by left|]. intros [?|(i & Hin & _)]; [done|].
      destruct Hin2. rewrite hash_order_perm, elem_of_remove_dups. apply list_elem_of_fmap. by exists (i, w).
  - rewrite all_workers_elem in Hin1. apply eq_None_not_Some in Hin1. rewrite Hin1 in *.
    rewrite Hw1 in Hw2. case_decide; [destruct Hw2 as (? & ? & ? & _); congruence|]. by rewrite Hw2.
Qed.

(** The rows after mkdir, from what each worker has. *)
Lemma mkdir_rows (valid : list MetaProcessInfo) (pl : list (MetaProcessInfo * Z)) (c c2 : cluster) :
  cluster_ok sg c -> pl.*1 = valid ->
  (forall i w, (i, w) ∈ pl -> exists sh, ss_lookup (mi_parentId_partId i) = Some (sh, w)) ->
  (forall w, dirs_made valid pl w (cl_workers c !! w) (cl_workers c2 !! w)) ->
  forall k r, inode_at c2 k = Some r <->
    inode_at c k = Some r \/ exists i, i ∈ valid /\ k = info_key i /\ r = mkdir_row i.
Proof.
  intros Hok <- Hpl Hw k r. destruct (ss_lookup k.1) as [[sh w]|] eqn:El.
  - destruct (ck_tables _ _ Hok _ _ _ El) as (s & Hs & _). specialize (Hw w). rewrite Hs in Hw.
    destruct (cl_workers c2 !! w) as [s2|] eqn:Hs2; [|done]. destruct Hw as (_ & _ & Hr).
    rewrite (inode_at_row c2 k sh w s2 El Hs2), (inode_at_row c k sh w s El Hs), Hr.
    split; (intros [?|(i & Hin & -> & H)]; [by left|right; exists i]).
    + destruct H as [-> _]. split; [|done]. apply list_elem_of_fmap. by exists (i, w).
    + apply list_elem_of_fmap in Hin as ([i' w'] & -> & Hin). destruct (Hpl _ _ Hin) as [sh' Hl].
      cbn [info_key fst] in *. rewrite El in Hl. by simplify_eq.
  - unfold inode_at. rewrite El. split; [done|]. intros [?|(i & Hin & -> & _)]; [done|].
    apply list_elem_of_fmap in Hin as ([i' w'] & -> & Hin). destruct (Hpl _ _ Hin) as [sh' Hl].
    cbn [info_key fst] in *. congruence.
Qed.

(** What mkdir has done when it succeeds: the entries that report success have
    their directories. *)
Record mkdir_done (res : list MetaProcessInfo) (c c' : cluster) : Prop := {
  md_dirs : dirs_ok (cn_table c');
  md_seq : seq_ok (pp_nextval (cl_pp c')) (pp_seq (cl_pp c')) (cn_table c');
  md_table : added (cn_table c) (cn_table c') (new_dir <$> succeeded res);
  md_new : Forall (new_ok (cn_table c')) (succeeded res);
  md_workers : exists pl, forall w, dirs_made (succeeded res) pl w (cl_workers c !! w) (cl_workers c' !! w);
  md_rows : forall k r, inode_at c' k = Some r <->
    inode_at c k = Some r \/ exists i, i ∈ succeeded res /\ k = info_key i /\ r = mkdir_row i;
}.

Lemma mkdir_Ret (infos res : list MetaProcessInfo) (local : Z) (c c' : cluster) :
  cluster_ok sg c -> pp_tree (cl_pp c) = ∅ -> FalconMkdirHandle sg now pg_qsort hash_order local infos c = Ret res c' ->
  pp_nextval (cl_pp c') <= 2 ^ 39 -> mkdir_done res c c'.
Proof.
  intros Hok Htree H Hmax. apply bind_Ret_inv in H as (? & ? & [->%Z.eqb_eq ->]%unless_Ret & H).
  apply bind_Ret_inv in H as (arr & c1 & E1 & H).
  assert (parsing_ok (cl_pp c)) as Hpo.
  { split; [by rewrite Htree|apply Hok|apply Hok]. }
  fold (entered arr) in H. cbv zeta in H.
  assert (exists pl, cl_pp c' = cl_pp c1 /\ res = arr.*1 /\ pl.*1 = entered arr /\
    (forall i w, (i, w) ∈ pl -> exists sh, ss_lookup (mi_parentId_partId i) = Some (sh, w)) /\
    forall w, dirs_made (entered arr) pl w (cl_workers c1 !! w) (cl_workers c' !! w)) as (pl & Epp & -> & Epl & Hpl & Hwk).
  { destruct (entered arr) as [|i0 is0] eqn:Ev.
    - injection H as <- <-. exists []. split_and!; [done|done|done|by intros ? ? ?%elem_of_nil|].
      intros w. unfold dirs_made. destruct (cl_workers c1 !! w); [|done]. split; [apply added_nil|]. split; [done|].
      intros sh k r. split; [by left|]. intros [?|(? & ?%elem_of_nil & _)]; done.
    - rewrite <- Ev in H |- *. apply bind_Ret_inv in H as (ws & ? & [= <- <-] & H).
      apply bind_Ret_inv in H as (pl & ? & (-> & Epl & Hpl)%mkdir_places_Ret & H).
      apply bind_Ret_inv in H as ([] & c3 & E3 & H). apply bind_Ret_inv in H as ([] & c4 & E4 & H).
      injection H as <- <-. destruct (mkdir_workers _ _ _ _ _ _ _ E3 E4) as [Ep Hwk]. by exists pl. }
  rewrite Epp in Hmax.
  destruct (mkdir_parse_Ret _ _ _ _ E1 (verify_paths_absolute pg_qsort pg_qsort_perm _ _) Hpo Hmax) as (Hw & [_ Hd Hs] & Hadd & Hnew & Esucc).
  assert (cn_table c' = cn_table c1) as Et by (unfold cn_table; by rewrite Epp). rewrite Hw in Hwk.
  split; rewrite ?Et, ?Epp, ?Esucc; [done|done|done|done|by exists pl|].
  by apply (mkdir_rows (entered arr) pl c c' Hok Epl Hpl Hwk).
Qed.

Lemma mkdir_keeps (infos res : list MetaProcessInfo) (local : Z) (c c' : cluster) :
  cluster_ok sg c -> pp_tree (cl_pp c) = ∅ -> FalconMkdirHandle sg now pg_qsort hash_order local infos c = Ret res c' ->
  pp_nextval (cl_pp c') <= 2 ^ 39 -> cluster_ok sg c'.
Proof.
  intros Hok Htree H Hmax. destruct (mkdir_Ret _ _ _ _ _ Hok Htree H Hmax) as [Hd Hs Hadd Hnew [pl Hwk] Hrows].
  rewrite Forall_forall in Hnew. split; [done|done| | | |].
  - intros w s2 Hs2. specialize (Hwk w). rewrite Hs2 in Hwk.
    destruct (cl_workers c !! w) as [s|] eqn:Es; [|done]. destruct Hwk as [Ha _].
    rewrite (ck_replicas _ _ Hok _ _ Es) in Ha. by eapply added_det.
  - intros v sh w Hl. destruct (ck_tables _ _ Hok _ _ _ Hl) as (s & Es & Hsh). specialize (Hwk w). rewrite Es in Hwk.
    destruct (cl_workers c' !! w) as [s2|]; [|done]. exists s2. split; [done|]. by apply Hwk.
  - intros w s2 sh k r Hs2 Hr. specialize (Hwk w). rewrite Hs2 in Hwk.
    destruct (cl_workers c !! w) as [s|] eqn:Es; [|done]. destruct Hwk as (_ & _ & Hrow).
    apply Hrow in Hr as [Hr|(i & _ & _ & _ & Hl)]; [|done]. by eapply (ck_placed _ _ Hok).
  - eapply (rows_ok_add sg (cn_table c) _ (inode_at c) _ ((fun i => ((new_dir i).1, mkdir_row i)) <$> succeeded res)).
    + apply Hok.
    + intros k id. rewrite (Hadd k id), list_elem_of_fmap. split; (intros [?|H1]; [by left|right]).
      * destruct H1 as (i & Ei & Hin). exists (mkdir_row i). unfold new_dir in Ei. injection Ei as -> ->.
        split; [|done]. apply list_elem_of_fmap. eauto.
      * destruct H1 as (r & (i & [= -> ->] & Hin)%list_elem_of_fmap & ->). by exists i.
    + intros k r. rewrite Hrows. split; (intros [?|H1]; [by left|right]).
      * destruct H1 as (i & Hin & -> & ->). exists (mi_parentId i), (mi_name i). split; [|by apply (Hnew i)].
        apply list_elem_of_fmap. by exists i.
      * destruct H1 as (p & n & (i & [= -> -> ->] & Hin)%list_elem_of_fmap & ->). exists i. split; [done|].
        split; [|done]. symmetry. by apply (Hnew i).
    + intros p n r (i & [= -> -> ->] & Hin)%list_elem_of_fmap. pose proof (new_ok_parent _ _ (Hnew i Hin)).
      destruct (Hnew i Hin) as (_ & Hm & _). split; [done|]. unfold link_ok. cbn. by rewrite Hm.
Qed.
End Mkdir.

Section Rmdir.
Context {SS : ShardService} (sg : bool) (name_le : relation string) `{!RelDecision name_le}.

Lemma check_empty_Ret (local d : Z) (shards : list (Z * Z)) (s s' : worker) (u : unit) :
  check_empty sg name_le local d shards s = Ret u s' ->
  s' = s /\ forall sh, (sh, local) ∈ shards -> forall k r,
    find_row (wk_inodes s) sh k = Some r -> scan_keys sg name_le NEW_SHARD d EmptyString k = false.
Proof.
  induction shards as [|[sh w] shards IH]; intros H; cbn [check_empty] in H.
  { injection H as _ <-. split; [done|]. by intros sh ?%elem_of_nil. }
  destruct (Z.eqb_spec w local) as [->|Hne]; cbn [negb] in H.
  - apply bind_Ret_inv in H as (? & ? & [= <- <-] & H). destruct (wk_inodes s !! sh) as [rows|] eqn:Et; [|done].
    apply bind_Ret_inv in H as (? & ? & [He%bool_decide_eq_true ->]%unless_Ret & H).
    destruct (IH H) as [-> Hall]. split; [done|]. intros sh' [[= ->]|Hin]%elem_of_cons; [|by apply Hall].
    intros k r Hk. unfold find_row in Hk. rewrite Et in Hk. cbn in Hk.
    destruct (scan_keys sg name_le NEW_SHARD d EmptyString k) eqn:Es; [|done].
    assert ((k, r) ∈ scan sg name_le NEW_SHARD d EmptyString rows) as Hin by (by apply scan_elem).
    rewrite He in Hin. by apply elem_of_nil in Hin.
  - destruct (IH H) as [-> Hall]. split; [done|]. intros sh' [[= -> ->]|Hin]%elem_of_cons; [done|by apply Hall].
Qed.

(** The keys of a directory are in the range that is scanned. *)
Lemma scan_keys_entry d m : scan_keys sg name_le NEW_SHARD d EmptyString (entry_key sg d m) = true.
Proof.
  cbn. pose proof (HashPartId_range sg m) as Hr.
  apply andb_true_iff. rewrite !Z.leb_le. by apply CombineParentIdWithPartId_between.
Qed.

Lemma SubRmdir_Ret (local p : Z) (n : string) (s s' : worker) (u : unit) :
  FalconRmdirSubRmdirHandle sg name_le local p n s = Ret u s' ->
  exists id, wk_dirs s !! (p, n) = Some id /\ wk_dirs s' = delete (p, n) (wk_dirs s) /\ wk_inodes s' = wk_inodes s /\
    forall sh m, (sh, local) ∈ ss_rows -> find_row (wk_inodes s) sh (entry_key sg id m) = None.
Proof.
  intros H. apply bind_Ret_inv in H as (id & ? & [= Eid <-] & H).
  apply bind_Ret_inv in H as (? & ? & [Hex ->]%unless_Ret & H).
  apply bind_Ret_inv in H as ([] & s1 & [E1 Ei]%wk_on_dirs_Ret & H). apply dir_delete_Ret in E1 as [_ Ed].
  apply check_empty_Ret in H as [-> Hall]. exists id. bool_to_prop. split_and!; [by apply table_view_entry|done|done|].
  intros sh m Hsh. destruct (find_row (wk_inodes s) sh (entry_key sg id m)) as [r|] eqn:Er; [|done].
  rewrite <- Ei in Er. apply Hall in Er; [|done]. by rewrite scan_keys_entry in Er.
Qed.

Lemma SubUnlink_Ret (local v : Z) (n : string) (s s' : worker) (u : unit) :
  FalconRmdirSubUnlinkHandle local v n s = Ret u s' ->
  exists sh rows, ss_lookup v = Some (sh, local) /\ wk_inodes s !! sh = Some rows /\
    is_Some (rows !! (v, n)) /\ wk_dirs s' = wk_dirs s /\ wk_inodes s' = <[sh := delete (v, n) rows]> (wk_inodes s).
Proof.
  intros H. apply bind_Ret_inv in H as ([sh w] & ? & [Hl ->]%search_shard_Ret & H).
  apply bind_Ret_inv in H as (? & ? & [Hw%Z.eqb_eq ->]%unless_Ret & H). cbn in Hw. subst w.
  apply bind_Ret_inv in H as (found & s1 & [E1 Ed]%wk_on_inodes_Ret & H).
  unfold SearchAndUpdateInodeTableInfo in E1. cbn [fst] in E1. destruct (wk_inodes s !! sh) as [rows|] eqn:Et; [|done].
  exists sh, rows. destruct (rows !! (v, n)) as [r|] eqn:Er; [|injection E1 as <- _; done].
  unfold removes, wrong_type, needs_update, rmdir_args in E1. cbn in E1.
  assert (st_nlink r = 2) as Hn.
  { repeat case_match; simplify_eq; apply unless_Ret in H as [H%Z.eqb_eq _]; done. }
  rewrite Hn in E1. change (u64 (2 + -2) =? 0) with true in E1. cbn in E1. injection E1 as <- E1.
  apply unless_Ret in H as [_ ->]. split_and!; eauto.
Qed.

(** What the two sub-operations leave on a worker: the entry and, where it is
    filed, the row of the directory are gone, and the directory was empty. *)
Definition dir_removed (p : Z) (n : string) (w : Z) (o o' : option worker) : Prop :=
  match o, o' with
  | None, None => True
  | Some s, Some s' => exists id, wk_dirs s !! (p, n) = Some id /\ wk_dirs s' = delete (p, n) (wk_dirs s) /\
      (forall sh, is_Some (wk_inodes s' !! sh) <-> is_Some (wk_inodes s !! sh)) /\
      (forall sh m, (sh, w) ∈ ss_rows -> find_row (wk_inodes s) sh (entry_key sg id m) = None) /\
      forall sh k, find_row (wk_inodes s') sh k =
        if decide (k = entry_key sg p n /\ ss_lookup k.1 = Some (sh, w)) then None else find_row (wk_inodes s) sh k
  | _, _ => False
  end.

Lemma rmdir_workers (p : Z) (n : string) (sh w : Z) (c c1 c2 : cluster) (u1 u2 : unit) :
  let v := CombineParentIdWithPartId p (HashPartId sg n) in
  ss_lookup v = Some (sh, w) ->
  on_workers (all_workers c) (fun w => FalconRmdirSubRmdirHandle sg name_le w p n) c = Ret u1 c1 ->
  on_worker w (FalconRmdirSubUnlinkHandle w v n) c1 = Ret u2 c2 ->
  cl_pp c2 = cl_pp c /\ forall w', dir_removed p n w' (cl_workers c !! w') (cl_workers c2 !! w').
Proof.
  intros v Hl E1 E2. apply on_workers_Ret in E1 as [Ep Hw]; [|apply all_workers_NoDup].
  apply on_worker_Ret in E2 as (s1 & s2 & Hs1 & E2 & ->).
  apply SubUnlink_Ret in E2 as (sh' & rows & Hl' & Hrows & _ & Hd2 & Hi2). rewrite Hl in Hl'. injection Hl' as <-.
  split; [done|]. intros w'. specialize (Hw w'). cbn [cl_workers]. unfold dir_removed.
  destruct (decide (w' ∈ all_workers c)) as [Hin|Hin].
  - destruct Hw as (s & s' & -> & E & Hs'). apply SubRmdir_Ret in E as (id & Hid & Hd & Hi & Hno).
    destruct (decide (w' = w)) as [->|Hne].
    + rewrite lookup_insert_eq. rewrite Hs1 in Hs'. injection Hs' as <-. exists id. rewrite Hd2, Hi2, Hi in *.
      split_and!; [done|done|intros ?; by eapply tables_update|done|]. intros sh1 k. rewrite find_row_update.
      destruct (decide (sh1 = sh)) as [->|Hsh].
      * unfold find_row. rewrite Hrows. cbn. destruct (decide (k = entry_key sg p n)) as [->|Hk].
        -- rewrite decide_True by done. apply lookup_delete_eq.
        -- rewrite decide_False by (by intros [? _]). by rewrite lookup_delete_ne.
      * rewrite decide_False; [done|]. intros [-> Hx]. unfold v in Hl. cbn in Hx. congruence.
    + rewrite lookup_insert_ne, Hs' by done. exists id. rewrite Hi. split_and!; [done|done|done|done|]. intros sh1 k.
      rewrite decide_False; [done|]. intros [-> Hx]. unfold v in Hl. cbn in Hx. congruence.
  - rewrite all_workers_elem in Hin. apply eq_None_not_Some in Hin. rewrite Hin in *.
    destruct (decide (w' = w)) as [->|Hne]; [congruence|]. by rewrite lookup_insert_ne, Hw by done.
Qed.

(** What rmdir has done when it succeeds. *)
Definition rmdir_done (path : string) (c c' : cluster) : Prop :=
  exists p n id, target_of (table_view (cn_table c)) path = Some (p, n) /\ path <> ROOT_NAME /\
    cn_table c !! (p, n) = Some id /\ cn_table c' = delete (p, n) (cn_table c) /\
    forall w, dir_removed p n w (cl_workers c !! w) (cl_workers c' !! w).

Lemma rmdir_Ret (local : Z) (path : string) (c c' : cluster) (u : unit) :
  pp_tree (cl_pp c) = ∅ -> FalconRmdirHandle sg name_le local path c = Ret u c' -> rmdir_done path c c'.
Proof.
  intros Htree H. apply bind_Ret_inv in H as (? & ? & [->%Z.eqb_eq ->]%unless_Ret & H). cbv zeta in H.
  apply bind_Ret_inv in H as (? & ? & [Hv%bool_decide_eq_true ->]%unless_Ret & H). apply verify_absolute in Hv.
  apply bind_Ret_inv in H as (r & c0 & [Er Ew0]%on_cn_Ret & H).
  assert (cn_table c0 = cn_table c) as Hd0 by exact (parse_keeps _ _ _ _ _ _ _ Er).
  destruct (r_code r) eqn:Ec; try done. destruct (r_target r) as [[p n]|] eqn:Et; [|done].
  assert (path <> ROOT_NAME) as Hroot.
  { intros ->. injection Er as <- _. done. }
  assert (target_of (table_view (cn_table c)) path = Some (p, n)) as Htgt.
  { eapply (parse_target_weak _ path _ _ (cl_pp c)); [done| |exact Er|done]. rewrite Htree. by intros ? ? ? ?. }
  apply bind_Ret_inv in H as ([] & c1 & (Ed & Ep1 & Ew1)%cn_dirs_Ret & H). apply dir_delete_Ret in Ed as [[id Hid] Ed].
  apply bind_Ret_inv in H as (ws & ? & [= <- <-] & H).
  apply bind_Ret_inv in H as ([sh w] & ? & [Hl ->]%search_shard_Ret & H). cbn [snd] in H.
  apply bind_Ret_inv in H as ([] & c2 & E2 & E3).
  destruct (rmdir_workers p n sh w c1 c2 c' _ _ Hl E2 E3) as [Ep Hw]. rewrite Hd0 in Hid, Ed. rewrite Ew1, Ew0 in Hw.
  exists p, n, id. split_and!; [done|done|done| |done]. unfold cn_table at 1. by rewrite Ep.
Qed.

(** The rows that are left. *)
Lemma rmdir_rows (p : Z) (n : string) (id : Z) (c c' : cluster) :
  cluster_ok sg c -> cn_table c !! (p, n) = Some id ->
  (forall w, dir_removed p n w (cl_workers c !! w) (cl_workers c' !! w)) ->
  (forall m, inode_at c (entry_key sg id m) = None) /\
  forall k, inode_at c' k = if decide (k = entry_key sg p n) then None else inode_at c k.
Proof.
  intros Hok Hid Hw. split.
  - intros m. unfold inode_at. destruct (ss_lookup _) as [[sh w]|] eqn:El; [|done]. specialize (Hw w). unfold dir_removed in Hw.
    destruct (cl_workers c !! w) as [s|] eqn:Es; [|done]. destruct (cl_workers c' !! w) as [s'|]; [|done].
    destruct Hw as (id' & Hid' & _ & _ & Hno & _). rewrite (ck_replicas _ _ Hok w s Es), Hid in Hid'. injection Hid' as <-.
    apply Hno. by eapply ss_lookup_row.
  - intros k. unfold inode_at. destruct (ss_lookup k.1) as [[sh w]|] eqn:El; [|by case_decide]. specialize (Hw w).
    unfold dir_removed in Hw. destruct (cl_workers c !! w) as [s|]; destruct (cl_workers c' !! w) as [s'|]; try done; [|by case_decide].
    destruct Hw as (_ & _ & _ & _ & _ & Hr). cbn. rewrite Hr. destruct (decide (k = entry_key sg p n)) as [->|Hne].
    + by rewrite decide_True.
    + rewrite decide_False; [done|]. by intros [? _].
Qed.

Lemma rmdir_keeps (local : Z) (path : string) (c c' : cluster) (u : unit) :
  cluster_ok sg c -> pp_tree (cl_pp c) = ∅ -> FalconRmdirHandle sg name_le local path c = Ret u c' ->
  pp_nextval (cl_pp c') <= 2 ^ 39 -> cluster_ok sg c'.
Proof.
  intros Hok Htree H Hmax. destruct (rmdir_Ret _ _ _ _ _ Htree H) as (p & n & id & _ & _ & Hid & Ed & Hw).
  destruct (rmdir_rows p n id c c' Hok Hid Hw) as [Hempty Hrows].
  pose proof (adv_rmdir sg name_le local path c) as Ha. rewrite H in Ha.
  split; rewrite ?Ed.
  - eapply seq_ok_dirs; [|eapply (seq_ok_adv (cluster_seq c) (cluster_seq c')); [apply Hok|done|done]].
    intros k i [_ Hk]%lookup_delete_Some. eauto.
  - eapply dirs_ok_remove; [apply Hok|done|]. intros m. destruct (cn_table c !! (id, m)) as [i|] eqn:Em; [|done].
    destruct (ro_dir _ _ _ (ck_rows _ _ Hok) _ _ _ Em) as (r & Hr & _). by rewrite Hempty in Hr.
  - intros w s' Hs'. specialize (Hw w). rewrite Hs' in Hw. unfold dir_removed in Hw.
    destruct (cl_workers c !! w) as [s|] eqn:Es; [|done]. destruct Hw as (_ & _ & -> & _).
    by rewrite (ck_replicas _ _ Hok w s Es).
  - intros v sh w Hl. destruct (ck_tables _ _ Hok _ _ _ Hl) as (s & Es & Hsh). specialize (Hw w). rewrite Es in Hw.
    unfold dir_removed in Hw. destruct (cl_workers c' !! w) as [s'|]; [|done]. exists s'. split; [done|].
    destruct Hw as (_ & _ & _ & Ht & _). by apply Ht.
  - intros w s' sh k r Hs' Hr. specialize (Hw w). rewrite Hs' in Hw. unfold dir_removed in Hw.
    destruct (cl_workers c !! w) as [s|] eqn:Es; [|done]. destruct Hw as (_ & _ & _ & _ & _ & Hf). rewrite Hf in Hr.
    case_decide; [done|]. by eapply (ck_placed _ _ Hok).
  - eapply rows_ok_remove; [apply Hok|apply Hok|done|done|done].
Qed.
End Rmdir.

Section Rename.
Context {SS : ShardService} (sg : bool).

(** The table after a directory was moved. *)
Definition dir_moved (src dst : Z * string) (id : Z) (t t' : dir_table) : Prop :=
  is_Some (t !! src) /\ delete src t !! dst = None /\ t' = <[dst := id]> (delete src t).

Lemma rename_dir_Ret (a : rename_args) (t t' : dir_table) (u : unit) :
  rename_dir a t = Ret u t' -> is_Some (t !! (rn_parentId a, rn_name a)) ->
  dir_moved (rn_parentId a, rn_name a) (dstParentId a, dstName a) (rn_inodeId a) t t'.
Proof.
  intros H Hsrc. unfold rename_dir in H. destruct (srcLockOrder a =? 0).
  - apply bind_Ret_inv in H as (? & t1 & [Hs ->]%dir_delete_Ret & [Hno ->]%dir_insert_Ret). done.
  - apply bind_Ret_inv in H as (? & t1 & [Hno ->]%dir_insert_Ret & [_ ->]%dir_delete_Ret). split; [done|]. split.
    + by apply lookup_delete_None; right.
    + apply delete_insert_ne. intros E. destruct Hsrc as [? Hx]. congruence.
Qed.

(** The tables of a worker after the row of [src] was moved to [dst]. *)
Definition row_moved (src dst : Z * string) (r' : inode_row) (w : Z) (t t' : inode_shards) : Prop :=
  (forall sh, is_Some (t' !! sh) <-> is_Some (t !! sh)) /\
  forall sh k, find_row t' sh k =
    if decide (k = dst /\ ss_lookup k.1 = Some (sh, w)) then Some r'
    else if decide (k = src /\ ss_lookup k.1 = Some (sh, w)) then None else find_row t sh k.

Lemma row_moved_elsewhere src dst r' w t :
  (forall sh, ss_lookup src.1 <> Some (sh, w)) -> (forall sh, ss_lookup dst.1 <> Some (sh, w)) -> row_moved src dst r' w t t.
Proof.
  intros Hs Hd. split; [done|]. intros sh k. rewrite !decide_False; [done| |]; intros [-> ?]; [by eapply Hs|by eapply Hd].
Qed.

(** What a worker does of a rename: [src] and [dst] are the keys of the rows,
    or nothing where they are elsewhere. *)
Definition moved_away (src : Z * string) (w : Z) (r : inode_row) (t t' : inode_shards) : Prop :=
  exists sh rows, ss_lookup src.1 = Some (sh, w) /\ t !! sh = Some rows /\ rows !! src = Some r /\ t' = <[sh := delete src rows]> t.

Definition moved_in (dst : Z * string) (w : Z) (r : inode_row) (t t' : inode_shards) : Prop :=
  exists sh rows, ss_lookup dst.1 = Some (sh, w) /\ t !! sh = Some rows /\ rows !! dst = None /\ t' = <[sh := <[dst := r]> rows]> t.

Lemma SubRenameLocally_Ret (local : Z) (a : rename_args) (s s' : worker) (moved : option inode_row) :
  FalconRenameSubRenameLocallyHandle local a s = Ret moved s' ->
  is_Some (wk_dirs s !! (rn_parentId a, rn_name a)) \/ targetIsDirectory a = false ->
  (if targetIsDirectory a
   then dir_moved (rn_parentId a, rn_name a) (dstParentId a, dstName a) (rn_inodeId a) (wk_dirs s) (wk_dirs s')
   else wk_dirs s' = wk_dirs s) /\
  if rn_parentId_partId a =? 0 then wk_inodes s' = wk_inodes s
  else exists r t1, moved_away (rn_parentId_partId a, rn_name a) local r (wk_inodes s) t1 /\
    if dstParentIdPartId a =? 0 then moved = Some r /\ wk_inodes s' = t1
    else moved_in (dstParentIdPartId a, dstName a) local r t1 (wk_inodes s').
Proof.
  intros H Hsrc. apply bind_Ret_inv in H as ([] & s1 & E1 & H).
  assert ((if targetIsDirectory a
    then dir_moved (rn_parentId a, rn_name a) (dstParentId a, dstName a) (rn_inodeId a) (wk_dirs s) (wk_dirs s1)
    else wk_dirs s1 = wk_dirs s) /\ wk_inodes s1 = wk_inodes s) as [Hd1 <-].
  { destruct (targetIsDirectory a); [|by injection E1 as <-].
    apply bind_Ret_inv in E1 as (? & ? & [_ ->]%unless_Ret & [E1 Ei]%wk_on_dirs_Ret). split; [|done].
    apply rename_dir_Ret in E1; [done|]. by destruct Hsrc. }
  destruct (rn_parentId_partId a =? 0); [by injection H as _ <-|].
  apply bind_Ret_inv in H as ([sh w] & ? & [Hl ->]%search_shard_Ret & H).
  apply bind_Ret_inv in H as (? & ? & [Hw%Z.eqb_eq ->]%unless_Ret & H). cbn [snd] in Hw. subst w.
  apply bind_Ret_inv in H as (? & ? & [= <- <-] & H). cbn [fst] in H.
  destruct (wk_inodes s1 !! sh) as [rows|] eqn:Et; [|done]. destruct (rows !! _) as [r|] eqn:Er; [|done].
  apply bind_Ret_inv in H as ([] & s2 & [= <-] & H).
  assert (moved_away (rn_parentId_partId a, rn_name a) local r (wk_inodes s1)
    (<[sh := delete (rn_parentId_partId a, rn_name a) rows]> (wk_inodes s1))) as Haway by (exists sh, rows; done).
  destruct (dstParentIdPartId a =? 0); cbn [negb] in H.
  - injection H as <- <-. split; [done|]. eauto.
  - apply bind_Ret_inv in H as ([dsh dw] & ? & [Hdl ->]%search_shard_Ret & H).
    apply bind_Ret_inv in H as (? & ? & [Hw%Z.eqb_eq ->]%unless_Ret & H). cbn [snd] in Hw. subst dw.
    apply bind_Ret_inv in H as ([] & s3 & [E3 Ed3]%wk_on_inodes_Ret & H). injection H as _ <-.
    rewrite Ed3. split; [done|]. exists r, (<[sh := delete (rn_parentId_partId a, rn_name a) rows]> (wk_inodes s1)).
    split; [done|]. apply InsertIntoInodeTable_Ret in E3 as (drows & ? & ? & ?). by exists dsh, drows.
Qed.

Lemma moved_away_find (src : Z * string) (w : Z) (r : inode_row) (t t' : inode_shards) :
  moved_away src w r t t' ->
  (forall sh, is_Some (t' !! sh) <-> is_Some (t !! sh)) /\
  (exists sh, ss_lookup src.1 = Some (sh, w) /\ find_row t sh src = Some r) /\
  forall sh k, find_row t' sh k = if decide (k = src /\ ss_lookup k.1 = Some (sh, w)) then None else find_row t sh k.
Proof.
  intros (sh & rows & Hl & Ht & Hr & ->). split; [intros ?; by eapply tables_update|]. split.
  { exists sh. unfold find_row. by rewrite Ht. }
  intros sh1 k. rewrite find_row_update. destruct (decide (sh1 = sh)) as [->|Hsh].
  - unfold find_row. rewrite Ht. cbn. destruct (decide (k = src)) as [->|Hk].
    + rewrite decide_True by done. apply lookup_delete_eq.
    + rewrite decide_False by (by intros [? _]). by rewrite lookup_delete_ne.
  - rewrite decide_False; [done|]. intros [-> ?]. congruence.
Qed.

Lemma moved_in_find (dst : Z * string) (w : Z) (r : inode_row) (t t' : inode_shards) :
  moved_in dst w r t t' ->
  (forall sh, is_Some (t' !! sh) <-> is_Some (t !! sh)) /\
  (exists sh, ss_lookup dst.1 = Some (sh, w) /\ find_row t sh dst = None) /\
  forall sh k, find_row t' sh k = if decide (k = dst /\ ss_lookup k.1 = Some (sh, w)) then Some r else find_row t sh k.
Proof.
  intros (sh & rows & Hl & Ht & Hr & ->). split; [intros ?; by eapply tables_update|]. split.
  { exists sh. unfold find_row. by rewrite Ht. }
  intros sh1 k. rewrite find_row_update. destruct (decide (sh1 = sh)) as [->|Hsh].
  - unfold find_row. rewrite Ht. cbn. destruct (decide (k = dst)) as [->|Hk].
    + rewrite decide_True by done. apply lookup_insert_eq.
    + rewrite decide_False by (by intros [? _]). by rewrite lookup_insert_ne.
  - rewrite decide_False; [done|]. intros [-> ?]. congruence.
Qed.

(** Both ends on one worker, or one of them. *)
Lemma row_moved_both src dst r w t t1 t' :
  moved_away src w r t t1 -> moved_in dst w r t1 t' ->
  row_moved src dst r w t t' /\ exists sh dsh, ss_lookup src.1 = Some (sh, w) /\ find_row t sh src = Some r /\
    ss_lookup dst.1 = Some (dsh, w) /\ (find_row t dsh dst = None \/ dst = src).
Proof.
  intros (Ht1 & (sh & Hl & Hs) & Hf1)%moved_away_find (Ht' & (dsh & Hdl & Hd) & Hf')%moved_in_find. split.
  - split; [intros sh'; by rewrite Ht', Ht1|]. intros sh' k. by rewrite Hf', Hf1.
  - exists sh, dsh. split_and!; [done|done|done|]. rewrite Hf1 in Hd. case_decide as Hx; [right; by destruct Hx|by left].
Qed.

Lemma row_moved_away src dst r r' w t t' :
  moved_away src w r t t' -> (forall sh, ss_lookup dst.1 <> Some (sh, w)) -> row_moved src dst r' w t t'.
Proof.
  intros (Ht & _ & Hf)%moved_away_find Hd. split; [done|]. intros sh k.
  rewrite (decide_False (P := k = dst /\ _)); [apply Hf|]. intros [-> ?]. by eapply Hd.
Qed.

Lemma row_moved_in src dst r w t t' :
  moved_in dst w r t t' -> (forall sh, ss_lookup src.1 <> Some (sh, w)) -> row_moved src dst r w t t'.
Proof.
  intros (Ht & _ & Hf)%moved_in_find Hs. split; [done|]. intros sh k. rewrite Hf. case_decide; [done|].
  rewrite decide_False; [done|]. intros [-> ?]. by eapply Hs.
Qed.

Lemma RenameSubCreate_Ret (local v : Z) (n : string) (r : inode_row) (s s' : worker) (u : unit) :
  FalconRenameSubCreateHandle local v n r s = Ret u s' ->
  wk_dirs s' = wk_dirs s /\ moved_in (v, n) local (rename_row r) (wk_inodes s) (wk_inodes s').
Proof.
  intros H. apply bind_Ret_inv in H as ([sh w] & ? & [Hl ->]%search_shard_Ret & H).
  apply bind_Ret_inv in H as (? & ? & [Hw%Z.eqb_eq ->]%unless_Ret & H). cbn [snd] in Hw. subst w.
  apply wk_on_inodes_Ret in H as [E Ed]. split; [done|].
  apply InsertIntoInodeTable_Ret in E as (rows & ? & ? & ?). by exists sh, rows.
Qed.

(** The row under its new key: as it was on the same worker, with what is sent
    of it on another. *)
Definition arriving_row (src dst : Z * string) (r : inode_row) : inode_row :=
  if bool_decide (snd <$> ss_lookup src.1 = snd <$> ss_lookup dst.1) then r else rename_row r.

Section Send.
Context (isdir : bool) (id ord sp : Z) (sn : string) (dp : Z) (dn : string).

Definition send_args (x y : Z) : rename_args := mkRename isdir id ord sp sn dp dn x y.

Definition dirs_moved (D D' : dir_table) : Prop := if isdir then dir_moved (sp, sn) (dp, dn) id D D' else D' = D.

(** What the first sub-operation has done on the workers. *)
Definition sent (sw : Z) (c c2 : cluster) : Prop := forall w,
  match cl_workers c !! w, cl_workers c2 !! w with
  | None, None => True
  | Some s, Some s' => dirs_moved (wk_dirs s) (wk_dirs s') /\ (w <> sw -> wk_inodes s' = wk_inodes s)
  | _, _ => False
  end.

(** The worker that has the row, then the others. *)
Lemma rename_send_locally (sw spp dpp : Z) (c c1 c2 : cluster) (moved : option inode_row) (u : unit) :
  (forall w s, cl_workers c !! w = Some s -> is_Some (wk_dirs s !! (sp, sn)) \/ isdir = false) -> spp <> 0 ->
  on_worker sw (FalconRenameSubRenameLocallyHandle sw (send_args spp dpp)) c = Ret moved c1 ->
  on_workers (filter (fun w => w <> sw) (all_workers c))
    (fun w => _ ← FalconRenameSubRenameLocallyHandle w (send_args 0 0); mret tt) c1 = Ret u c2 ->
  cl_pp c2 = cl_pp c /\
  sent sw c c2 /\
  exists s s' r t1, cl_workers c !! sw = Some s /\ cl_workers c2 !! sw = Some s' /\
    moved_away (spp, sn) sw r (wk_inodes s) t1 /\
    if dpp =? 0 then moved = Some r /\ wk_inodes s' = t1 else moved_in (dpp, dn) sw r t1 (wk_inodes s').
Proof.
  intros Hsrc Hspp E1 E2. apply on_worker_Ret in E1 as (s & s1 & Hs & E1 & ->).
  apply SubRenameLocally_Ret in E1 as [Hd1 Hr1]; [|by eapply Hsrc]. cbn in Hr1. rewrite (proj2 (Z.eqb_neq _ _) Hspp) in Hr1.
  apply on_workers_Ret in E2 as [Ep Hw]; [|apply NoDup_filter, all_workers_NoDup]. split; [done|].
  assert (cl_workers c2 !! sw = Some s1) as Hs1.
  { specialize (Hw sw). rewrite decide_False in Hw by (by intros [? _]%list_elem_of_filter).
    cbn [cl_workers] in Hw. by rewrite lookup_insert_eq in Hw. }
  split.
  - intros w. destruct (decide (w = sw)) as [->|Hne]; [by rewrite Hs, Hs1|]. specialize (Hw w). cbn [cl_workers] in Hw.
    rewrite lookup_insert_ne in Hw by done. destruct (decide (w ∈ filter _ _)) as [Hin|Hin].
    + destruct Hw as (s0 & s0' & Hs0 & E & ->). rewrite Hs0. apply bind_Ret_inv in E as (m & s2 & E & [= <-]).
      apply SubRenameLocally_Ret in E as [Hd Hr]; [|by eapply Hsrc]. by split.
    + rewrite Hw. destruct (cl_workers c !! w) eqn:Ew; [|done]. destruct Hin. apply list_elem_of_filter.
      split; [done|]. apply all_workers_elem. eauto.
  - destruct Hr1 as (r & t1 & Haway & Hrest). exists s, s1, r, t1. done.
Qed.

(** What a rename leaves on a worker. *)
Definition moved_on (src dst : Z * string) (r' : inode_row) (w : Z) (o o' : option worker) : Prop :=
  match o, o' with
  | None, None => True
  | Some s, Some s' => dirs_moved (wk_dirs s) (wk_dirs s') /\ row_moved src dst r' w (wk_inodes s) (wk_inodes s')
  | _, _ => False
  end.

(** The rows of the servers afterwards. *)
Lemma moved_rows (src dst : Z * string) (r r' : inode_row) (c c' : cluster) (sh sw dsh dw : Z) (s sd : worker) :
  (forall w, moved_on src dst r' w (cl_workers c !! w) (cl_workers c' !! w)) ->
  ss_lookup src.1 = Some (sh, sw) -> ss_lookup dst.1 = Some (dsh, dw) ->
  cl_workers c !! sw = Some s -> find_row (wk_inodes s) sh src = Some r ->
  cl_workers c !! dw = Some sd -> find_row (wk_inodes sd) dsh dst = None \/ dst = src ->
  r' = r \/ r' = rename_row r -> moved_row (inode_at c) (inode_at c') src dst r r'.
Proof.
  intros Hw Hl Hdl Hs Hr Hsd Hdst Hr'. split; [by rewrite (inode_at_row _ _ _ _ _ Hl Hs)|].
  split; [by rewrite (inode_at_row _ _ _ _ _ Hdl Hsd)|]. split; [|by destruct Hr' as [-> | ->]].
  intros k. unfold inode_at. destruct (ss_lookup k.1) as [[sh1 w1]|] eqn:E.
  - specialize (Hw w1). unfold moved_on in Hw. destruct (cl_workers c !! w1) as [s1|] eqn:E1, (cl_workers c' !! w1) as [s1'|]; try done.
    + destruct Hw as [_ [_ Hf]]. cbn. rewrite Hf. destruct (decide (k = dst)) as [->|Hd].
      { by rewrite decide_True. }
      rewrite (decide_False (P := k = dst /\ _)) by (by intros [? _]). destruct (decide (k = src)) as [->|Hk].
      { by rewrite decide_True. }
      rewrite decide_False by (by intros [? _]). done.
    + destruct (decide (k = dst)) as [->|Hd]; [congruence|]. by destruct (decide (k = src)).
  - destruct (decide (k = dst)) as [->|Hd]; [congruence|]. by destruct (decide (k = src)).
Qed.

Lemma sent_here (src dst : Z * string) (sw : Z) (c c2 : cluster) (s s' : worker) (r : inode_row) (t1 : inode_shards) :
  sent sw c c2 -> cl_workers c !! sw = Some s -> cl_workers c2 !! sw = Some s' ->
  moved_away src sw r (wk_inodes s) t1 -> moved_in dst sw r t1 (wk_inodes s') ->
  (forall w, moved_on src dst r w (cl_workers c !! w) (cl_workers c2 !! w)) /\
  moved_row (inode_at c) (inode_at c2) src dst r r.
Proof.
  intros Hw Hs Hs' Haway Hin. destruct (row_moved_both _ _ _ _ _ _ _ Haway Hin) as (Hm & sh1 & sh2 & Hl1 & Hf1 & Hl2 & Hf2).
  assert (forall w, moved_on src dst r w (cl_workers c !! w) (cl_workers c2 !! w)) as Hon; [|split; [done|by eapply moved_rows; eauto]].
  intros w. specialize (Hw w). unfold moved_on. destruct (decide (w = sw)) as [->|Hne].
  - rewrite Hs, Hs' in *. by destruct Hw.
  - destruct (cl_workers c !! w), (cl_workers c2 !! w); try done. destruct Hw as [Hd ->]; [|done]. split; [done|].
    apply row_moved_elsewhere; intros x Hx; congruence.
Qed.

Lemma sent_across (src dst : Z * string) (sw dw : Z) (c c2 : cluster) (s s' s2 s3 : worker) (r : inode_row) :
  sent sw c c2 -> dw <> sw -> cl_workers c !! sw = Some s -> cl_workers c2 !! sw = Some s' ->
  moved_away src sw r (wk_inodes s) (wk_inodes s') -> cl_workers c2 !! dw = Some s2 ->
  wk_dirs s3 = wk_dirs s2 -> moved_in dst dw (rename_row r) (wk_inodes s2) (wk_inodes s3) ->
  let c3 := mkCluster (cl_pp c2) (<[dw := s3]> (cl_workers c2)) in
  (forall w, moved_on src dst (rename_row r) w (cl_workers c !! w) (cl_workers c3 !! w)) /\
  moved_row (inode_at c) (inode_at c3) src dst r (rename_row r).
Proof.
  intros Hw Hne Hs Hs' Haway Hs2 Hd3 Hin c3. pose proof (Hw dw) as Hwd. rewrite Hs2 in Hwd.
  destruct (cl_workers c !! dw) as [sd|] eqn:Esd; [|done]. destruct Hwd as [Hdd Hid]. rewrite (Hid Hne) in Hin. clear Hid.
  pose proof (moved_away_find _ _ _ _ _ Haway) as (_ & (sh1 & Hl1 & Hf1) & _).
  pose proof (moved_in_find _ _ _ _ _ Hin) as (_ & (sh2 & Hl2 & Hf2) & _).
  assert (forall w, moved_on src dst (rename_row r) w (cl_workers c !! w) (cl_workers c3 !! w)) as Hon.
  2:{ split; [done|]. eapply moved_rows; [exact Hon|exact Hl1|exact Hl2|done|done|done|by left|by right]. }
  intros w. specialize (Hw w). unfold moved_on. cbn [cl_workers c3]. destruct (decide (w = dw)) as [->|Hnd].
  - rewrite lookup_insert_eq, Esd, Hd3. split; [done|]. eapply row_moved_in; [done|]. intros x Hx. congruence.
  - rewrite lookup_insert_ne by done. destruct (decide (w = sw)) as [->|Hns].
    + rewrite Hs, Hs' in *. destruct Hw as [Hd _]. split; [done|]. eapply row_moved_away; [done|]. intros x Hx. congruence.
    + destruct (cl_workers c !! w), (cl_workers c2 !! w); try done. destruct Hw as [Hd ->]; [|done]. split; [done|].
      apply row_moved_elsewhere; intros x Hx; congruence.
Qed.

Lemma rename_send_Ret (dstFirst : bool) (c c' : cluster) (u : unit) :
  ord = (if dstFirst then 1 else 0) ->
  (forall w s, cl_workers c !! w = Some s -> is_Some (wk_dirs s !! (sp, sn)) \/ isdir = false) ->
  (entry_key sg sp sn).1 <> 0 -> (entry_key sg dp dn).1 <> 0 ->
  rename_send sg isdir id dstFirst sp sn dp dn c = Ret u c' ->
  cl_pp c' = cl_pp c /\ exists r r', r' = arriving_row (entry_key sg sp sn) (entry_key sg dp dn) r /\
    (forall w, moved_on (entry_key sg sp sn) (entry_key sg dp dn) r' w (cl_workers c !! w) (cl_workers c' !! w)) /\
    moved_row (inode_at c) (inode_at c') (entry_key sg sp sn) (entry_key sg dp dn) r r'.
Proof.
  intros Hord Hsrc Hsv Hdv H. unfold rename_send in H. cbv zeta in H. rewrite <- Hord in H. cbn [entry_key fst] in Hsv, Hdv.
  apply bind_Ret_inv in H as ([sh sw] & ? & [Hl ->]%search_shard_Ret & H).
  apply bind_Ret_inv in H as ([dsh dw] & ? & [Hdl ->]%search_shard_Ret & H). cbn [fst snd] in H.
  apply bind_Ret_inv in H as (ws & ? & [= <- <-] & H). apply bind_Ret_inv in H as (moved & c1 & E1 & H).
  apply bind_Ret_inv in H as ([] & c2 & E2 & H).
  destruct (rename_send_locally sw _ _ c c1 c2 moved _ Hsrc Hsv E1 E2) as (Ep & Hw & s & s' & r & t1 & Hs & Hs' & Haway & Hrow).
  destruct (Z.eqb_spec dw sw) as [->|Hne].
  - rewrite Z.eqb_refl in H. injection H as _ <-. split; [done|]. exists r, r.
    split; [unfold arriving_row; cbn [entry_key fst]; by rewrite Hl, Hdl, bool_decide_eq_true_2|].
    rewrite (proj2 (Z.eqb_neq _ _) Hdv) in Hrow. by eapply sent_here.
  - rewrite Z.eqb_refl in Hrow. destruct Hrow as [-> <-]. rewrite (proj2 (Z.eqb_neq sw dw)) in H by congruence. cbn [negb] in H.
    apply on_worker_Ret in H as (s2 & s3 & Hs2 & E3 & ->). apply RenameSubCreate_Ret in E3 as [Hd3 Hin]. split; [done|].
    exists r, (rename_row r).
    split; [unfold arriving_row; cbn [entry_key fst]; rewrite Hl, Hdl, bool_decide_eq_false_2; [done|]; cbn; congruence|].
    by eapply (sent_across _ _ sw dw c c2 s s' s2 s3).
Qed.
End Send.

Lemma rename_parse_Ret (local : Z) (d isDst : bool) (sid : Z) (path : string) (c c' : cluster) (p : Z) (n : string) (id : Z) :
  rename_parse local d isDst sid path c = Ret (p, n, id) c' ->
  cl_workers c' = cl_workers c /\ cn_table c' = cn_table c /\ exists r,
    PathParseTreeInsert local path (rename_flag d isDst) (Some (if isDst then sid else 0)) (cl_pp c) = Ret r (cl_pp c') /\
    r_code r = SUCCESS /\ r_target r = Some (p, n) /\ r_inode r = Some id.
Proof.
  intros H. apply bind_Ret_inv in H as (r & c1 & [E Ew]%on_cn_Ret & H).
  destruct (r_code r) eqn:Ec; try done. destruct (r_target r) as [[p1 n1]|] eqn:Et; [|done].
  destruct (r_inode r) as [id1|] eqn:Ei; [|done]. injection H as -> -> -> <-. split; [done|].
  split; [exact (parse_keeps _ _ _ _ _ _ _ E)|]. by exists r.
Qed.

(** Where the two paths lead, in the order of the locks. *)
Lemma rename_targets (d : bool) (sid : Z) (src dst : string) (c c' : cluster) (sp : Z) (sn : string) (i1 dp : Z) (dn : string) (i2 : Z) :
  pp_tree (cl_pp c) = ∅ -> absolute src -> absolute dst ->
  (if 0 <? pathcmp src dst then
     x ← rename_parse 0 d true sid dst; y ← rename_parse 0 d false sid src; mret (y, x)
   else y ← rename_parse 0 d false sid src; x ← rename_parse 0 d true sid dst; mret (y, x)) c
    = Ret (sp, sn, i1, (dp, dn, i2)) c' ->
  cl_workers c' = cl_workers c /\ cn_table c' = cn_table c /\ i2 = sid /\
  target_of (table_view (cn_table c)) src = Some (sp, sn) /\ target_of (table_view (cn_table c)) dst = Some (dp, dn) /\
  src <> ROOT_NAME /\ dst <> ROOT_NAME /\ (d = true -> ~ (path_dirs src ++ [path_name src]) `prefix_of` path_dirs dst).
Proof.
  intros Htree Hs Hd H. assert (tree_agrees (view_of (cl_pp c)) (pp_tree (cl_pp c))) as Hag by (by rewrite Htree).
  pose proof (tree_agrees_weak _ _ Hag) as Hw. destruct (Z.ltb_spec 0 (pathcmp src dst)) as [Hlt|Hge].
  - apply bind_Ret_inv in H as ([[p2 n2] j2] & c1 & (Ew1 & Et1 & r1 & E1 & Hc1 & Hr1 & Hi1)%rename_parse_Ret & H).
    apply bind_Ret_inv in H as ([[p1 n1] j1] & c2 & (Ew2 & Et2 & r2 & E2 & Hc2 & Hr2 & Hi2)%rename_parse_Ret & H).
    injection H as -> -> -> -> -> -> <-. rewrite Ew2, Et2, Ew1, Et1. split; [done|]. split; [done|].
    destruct (rename_parse_first 0 dst d true sid _ _ _ Hd Hag E1 Hc1) as [Hw1 _].
    assert (view_of (cl_pp c1) = view_of (cl_pp c)) as Hv by (exact (f_equal table_view Et1)). rewrite <- Hv in Hw1.
    split_and!; [by rewrite (rename_parse_id 0 dst d sid _ _ _ E1 Hc1) in Hi1; simplify_eq| | | | |].
    + change (table_view (cn_table c)) with (view_of (cl_pp c)). rewrite <- Hv. by eapply parse_target_weak.
    + by eapply (parse_target_weak 0 dst _ _ (cl_pp c)).
    + by eapply not_root_error.
    + by eapply not_root_error.
    + intros _ Hp. apply path_dirs_prefix in Hp; [lia|done| |done]. by eapply not_root_error.
  - apply bind_Ret_inv in H as ([[p1 n1] j1] & c1 & (Ew1 & Et1 & r1 & E1 & Hc1 & Hr1 & Hi1)%rename_parse_Ret & H).
    apply bind_Ret_inv in H as ([[p2 n2] j2] & c2 & (Ew2 & Et2 & r2 & E2 & Hc2 & Hr2 & Hi2)%rename_parse_Ret & H).
    injection H as -> -> -> -> -> -> <-. rewrite Ew2, Et2, Ew1, Et1. split; [done|]. split; [done|].
    destruct (rename_parse_first 0 src d false 0 _ _ _ Hs Hag E1 Hc1) as [Hw1 Hlock].
    assert (view_of (cl_pp c1) = view_of (cl_pp c)) as Hv by (exact (f_equal table_view Et1)). rewrite <- Hv in Hw1.
    split_and!; [by rewrite (rename_parse_id 0 dst d sid _ _ _ E2 Hc2) in Hi2; simplify_eq| | | | |].
    + by eapply (parse_target_weak 0 src _ _ (cl_pp c)).
    + change (table_view (cn_table c)) with (view_of (cl_pp c)). rewrite <- Hv. by eapply parse_target_weak.
    + by eapply not_root_error.
    + by eapply not_root_error.
    + intros Hdir. destruct (Hlock Hdir) as (nd & Hnd & Hl). eapply parse_around; [done| |exact E2|done|done|done].
      by eapply not_root_error.
Qed.

(** What rename has done when it succeeds. *)
Record rename_done (src dst : string) (c c' : cluster) (isdir : bool) (id sp : Z) (sn : string) (dp : Z) (dn : string) (r r' : inode_row) : Prop := {
  rn_src : target_of (table_view (cn_table c)) src = Some (sp, sn);
  rn_dst : target_of (table_view (cn_table c)) dst = Some (dp, dn);
  rn_inside : 0 < sp < 2 ^ 51 /\ 0 < dp < 2 ^ 51;
  rn_entry : cn_table c !! (sp, sn) = if isdir then Some id else None;
  rn_around : isdir = true -> exists ds, leads (delete (sp, sn) (cn_table c)) 0 (ROOT_NAME :: ds) dp;
  rn_table : dirs_moved isdir id sp sn dp dn (cn_table c) (cn_table c');
  rn_workers : forall w, moved_on isdir id sp sn dp dn (entry_key sg sp sn) (entry_key sg dp dn) r' w (cl_workers c !! w) (cl_workers c' !! w);
  rn_rows : moved_row (inode_at c) (inode_at c') (entry_key sg sp sn) (entry_key sg dp dn) r r';
  rn_row : r' = arriving_row (entry_key sg sp sn) (entry_key sg dp dn) r;
}.

Lemma rename_around (D : dir_table) (src dst : string) (sp : Z) (sn : string) (dp : Z) (dn : string) :
  dirs_ok D -> absolute src -> absolute dst -> src <> ROOT_NAME -> dst <> ROOT_NAME ->
  target_of (table_view D) src = Some (sp, sn) -> target_of (table_view D) dst = Some (dp, dn) ->
  ~ (path_dirs src ++ [path_name src]) `prefix_of` path_dirs dst ->
  exists ds, leads (delete (sp, sn) D) 0 (ROOT_NAME :: ds) dp.
Proof.
  intros HD Hs Hd Hsr Hdr Ts Td Hno. destruct (target_leads D src sp sn Hs Hsr Ts) as (-> & Ls & _).
  destruct (target_leads D dst dp dn Hd Hdr Td) as (_ & Ld & ds & E). exists ds. rewrite <- E. by eapply leads_avoids.
Qed.

Lemma view_entry (D : dir_table) (p : Z) (n : string) :
  dirs_ok D -> D !! (p, n) = if negb (table_view D p n =? DIR_HASH_TABLE_PATH_NOT_EXIST) then Some (table_view D p n) else None.
Proof.
  intros HD. unfold table_view. destruct (D !! (p, n)) as [i|] eqn:E; [|by cbn; rewrite Z.eqb_refl].
  change (default _ (Some i)) with i. by rewrite (proj2 (Z.eqb_neq _ _) (id_exists _ (do_id _ HD _ _ E))).
Qed.

Lemma rename_Ret (local : Z) (src dst : string) (c c' : cluster) (u : unit) :
  cluster_ok sg c -> pp_tree (cl_pp c) = ∅ -> absolute dst -> path_name src <> EmptyString ->
  FalconRenameHandle sg local src dst c = Ret u c' ->
  exists isdir id sp sn dp dn r r', rename_done src dst c c' isdir id sp sn dp dn r r'.
Proof.
  intros Hok Htree Hdst Hname H. unfold FalconRenameHandle in H. cbv zeta in H.
  apply bind_Ret_inv in H as (? & ? & [->%Z.eqb_eq ->]%unless_Ret & H).
  apply bind_Ret_inv in H as (sid & c1 & [E1 Ew1]%on_cn_Ret & H).
  apply bind_Ret_inv in H as (? & ? & [_ ->]%unless_Ret & H). apply bind_Ret_inv in H as (? & ? & [_ ->]%unless_Ret & H).
  set (isdir := negb (sid =? DIR_HASH_TABLE_PATH_NOT_EXIST)) in *.
  apply bind_Ret_inv in H as ([[[sp sn] i1] [[dp dn] id]] & c2 & E2 & H).
  assert (cn_table c1 = cn_table c) as Et1 by exact (check_keeps _ _ _ _ E1).
  assert (absolute src /\ pp_tree (cl_pp c1) = ∅) as [Hsrc Htree1].
  { destruct (check_absolute _ _ _ _ E1) as (rest & -> & -> & _). done. }
  destruct (rename_targets isdir sid src dst c1 c2 sp sn i1 dp dn id Htree1 Hsrc Hdst E2)
    as (Ew2 & Et2 & -> & Ts & Td & Hsr & Hdr & Hno). rewrite Et1, ?Ew1 in *.
  pose proof (check_target src _ _ _ sp sn E1 Hsr Hname Ts) as Esid.
  pose proof (view_entry (cn_table c) sp sn (ck_dirs _ _ Hok)) as Hent.
  change (table_view (cn_table c) sp sn) with (view_of (cl_pp c) sp sn) in Hent. rewrite <- Esid in Hent. fold isdir in Hent.
  apply bind_Ret_inv in H as ([] & c3 & E3 & H).
  assert (dirs_moved isdir sid sp sn dp dn (cn_table c) (cn_table c3) /\ cl_workers c3 = cl_workers c) as [Hmv Ew3].
  { unfold dirs_moved. destruct isdir; [|injection E3 as <-; by rewrite Ew2].
    apply bind_Ret_inv in E3 as ([] & c4 & (Ed & _ & Ew4)%cn_dirs_Ret & (Ei & _ & Ew5)%cn_dirs_Ret).
    apply dir_delete_Ret in Ed as [_ Ed]. apply dir_insert_Ret in Ei as [Hfree Ei]. rewrite Et2 in Ed. rewrite Ed in *.
    split; [|congruence]. split; [eauto|done]. }
  assert (0 < sp < 2 ^ 51) as Hsp by (eapply (target_inside (cn_table c) src); [apply Hok|done|done|done]).
  assert (0 < dp < 2 ^ 51) as Hdp by (eapply (target_inside (cn_table c) dst); [apply Hok|done|done|done]).
  destruct (rename_send_Ret isdir sid _ sp sn dp dn (0 <? pathcmp src dst) c3 c' u eq_refl) as (Epp & r & r' & Hr & Hon & Hrow);
    [|by apply entry_key_nonzero|by apply entry_key_nonzero|done|].
  { intros w s Hs. rewrite Ew3 in Hs. rewrite (ck_replicas _ _ Hok w s Hs), Hent. destruct isdir; [left; eauto|by right]. }
  exists isdir, sid, sp, sn, dp, dn, r, r'. rewrite Ew3 in Hon. split; try done.
  - intros Hd. eapply rename_around; [apply Hok|exact Hsrc|exact Hdst|done|done|done|done|by apply Hno].
  - unfold cn_table at 2. by rewrite Epp.
  - destruct Hrow as (Ha & Hb & Hc & Hd). unfold inode_at in Ha, Hb, Hc |- *. rewrite Ew3 in Ha, Hb, Hc. done.
Qed.

Lemma rename_dirs_ok (src dst : string) (c c' : cluster) isdir id sp sn dp dn r r' :
  cluster_ok sg c -> rename_done src dst c c' isdir id sp sn dp dn r r' ->
  absolute src -> absolute dst ->
  dirs_ok (cn_table c') /\ rows_ok sg (cn_table c') (inode_at c') /\
  forall k i, cn_table c' !! k = Some i -> exists k', cn_table c !! k' = Some i.
Proof.
  intros Hok Hdone Hs Hd. destruct Hdone as [Ts Td _ Hent Har Ht _ Hrow _].
  pose proof (ck_dirs _ _ Hok) as HD. pose proof (ck_rows _ _ Hok) as HN.
  assert (parent_entry (cn_table c) sp sn) as Hps by (by eapply (target_of_parent _ src)).
  assert (parent_entry (cn_table c) dp dn) as Hpd by (by eapply (target_of_parent _ dst)).
  unfold dirs_moved in Ht. destruct isdir.
  - destruct Ht as (_ & Hfree & ->). destruct (Har eq_refl) as [ds L]. split; [by eapply dirs_ok_move|]. split.
    + eapply rows_ok_move_dir; [done|done|done|done| |done]. right. by eapply leads_value.
    + intros k i [[_ <-]|[_ [_ Hk]%lookup_delete_Some]]%lookup_insert_Some; eauto.
  - rewrite Ht. split; [done|]. split; [|eauto].
    by eapply (rows_ok_move_file sg (cn_table c) _ _ sp sn dp dn).
Qed.

Lemma rename_keeps (local : Z) (src dst : string) (c c' : cluster) (u : unit) :
  cluster_ok sg c -> pp_tree (cl_pp c) = ∅ -> absolute dst -> path_name src <> EmptyString ->
  FalconRenameHandle sg local src dst c = Ret u c' -> pp_nextval (cl_pp c') <= 2 ^ 39 -> cluster_ok sg c'.
Proof.
  intros Hok Htree Hdst Hname H Hmax.
  pose proof (adv_rename sg local src dst c) as Ha. rewrite H in Ha.
  destruct (rename_Ret local src dst c c' u Hok Htree Hdst Hname H) as (isdir & id & sp & sn & dp & dn & r & r' & Hdone).
  assert (absolute src) as Hsrc.
  { unfold FalconRenameHandle in H. apply bind_Ret_inv in H as (? & ? & [_ ->]%unless_Ret & H).
    apply bind_Ret_inv in H as (sid & c1 & [E1 _]%on_cn_Ret & _). by destruct (check_absolute _ _ _ _ E1) as (rest & -> & _). }
  destruct (rename_dirs_ok src dst c c' _ _ _ _ _ _ _ _ Hok Hdone Hsrc Hdst) as (HD' & HN' & Hids).
  destruct Hdone as [_ _ _ _ _ Ht Hw _ _]. split; [| done| | | |done].
  - eapply seq_ok_dirs; [exact Hids|]. eapply (seq_ok_adv (cluster_seq c) (cluster_seq c')); [apply Hok|done|done].
  - intros w s' Hs'. specialize (Hw w). rewrite Hs' in Hw. unfold moved_on in Hw.
    destruct (cl_workers c !! w) as [s|] eqn:Es; [|done]. destruct Hw as [Hd _]. rewrite (ck_replicas _ _ Hok w s Es) in Hd.
    unfold dirs_moved, dir_moved in Hd, Ht. destruct isdir; [|congruence]. destruct Hd as (_ & _ & ->), Ht as (_ & _ & ->). done.
  - intros v sh w Hl. destruct (ck_tables _ _ Hok _ _ _ Hl) as (s & Es & Hsh). specialize (Hw w). rewrite Es in Hw.
    unfold moved_on in Hw. destruct (cl_workers c' !! w) as [s'|]; [|done]. exists s'. split; [done|]. by apply Hw.
  - intros w s' sh k x Hs' Hx. specialize (Hw w). rewrite Hs' in Hw. unfold moved_on in Hw.
    destruct (cl_workers c !! w) as [s|] eqn:Es; [|done]. destruct Hw as [_ [_ Hf]]. rewrite Hf in Hx.
    destruct (decide (k = entry_key sg dp dn /\ _)) as [[_ ?]|_]; [done|]. case_decide; [done|]. by eapply (ck_placed _ _ Hok).
Qed.
End Rename.
