(* ===== verification/ClusterSteps.v ===== *)
(** * Every sequence of operations on the servers

    mkdir, rmdir and rename run on the coordinator, each in a distributed
    transaction; create, unlink and the changes of attributes run on the worker
    of the entry.  The steps are those of falcon/metadb/meta_handle.c as they
    are taken one after the other; the invariant of Cluster.v holds after any
    number of them. *)

From S2P Require Import FalconPrelude Catalog DirService InodeId PathCmp PathParse PathTable DirTree Placement ForeignServer InodeTable ShardTable ShardService MetaFile MetaReadDir Namespace MetaDir RenamePaths Cluster.

Abbreviation srv := (server_state (Dir := gmap (Z * string) Z)) (only parsing).

(** The shard table as a worker sees it. *)
Definition at_worker (SS : ShardService) (w : Z) : ShardService := {|
  ss_lookup := ss_lookup;
  ss_rows := ss_rows;
  ss_local := w;
  ss_lookup_part := ss_lookup_part;
  ss_lookup_row := ss_lookup_row;
  ss_rows_NoDup := ss_rows_NoDup;
|}.

(** ** What the operations of a worker do to its rows *)

Section Files.
Context {SS : ShardService} (sg : bool) (now : Z).
Context (pg_qsort : list MetaProcessInfo -> list MetaProcessInfo) (hash_order : list Z -> list Z).
Context (pg_qsort_perm : forall l, pg_qsort l ≡ₚ l) (hash_order_perm : forall l, hash_order l ≡ₚ l).
Context (covers : forall v, is_Some (ss_lookup v)).

Lemma rows_of_find (t : inode_shards) (sh : Z) (k : Z * string) : rows_of t sh !! k = find_row t sh k.
Proof. unfold rows_of, find_row. by destruct (t !! sh). Qed.

(** An entry on the list of a shard is what its path names. *)
Lemma placed_target (req : Z) (D : gmap (Z * string) Z) (i : MetaProcessInfo) (sh : Z) :
  placed sg req (table_view D) (i, Some sh) ->
  exists p n, info_key i = entry_key sg p n /\ ss_lookup (info_key i).1 = Some (sh, ss_local) /\ parent_entry D p n.
Proof.
  intros (He & Hl & Hans). cbn [fst] in *. specialize (Hans i (fun _ _ => True) eq_refl I). unfold path_answer in Hans.
  destruct (VerifyPathValidity (mi_path i) req) as [e prop] eqn:Ev. cbn [fst] in Hans.
  destruct e; try congruence. destruct (target_of (table_view D) (mi_path i)) as [[p n]|] eqn:Et; [|congruence].
  cbv zeta in Hans. destruct Hans as (sh' & w' & Hl' & Hx). destruct (w' =? ss_local); [|congruence].
  destruct Hx as [Hk _]. exists p, n. split; [done|]. split; [done|]. eapply (target_of_parent _ (mi_path i)); [|done].
  eapply (verify_absolute _ req). by rewrite Ev.
Qed.

(** What the files of a worker may become. *)
Record files_changed (D : gmap (Z * string) Z) (t t' : inode_shards) : Prop := {
  fc_tables : tables_ok t -> tables_ok t';
  fc_new : forall sh k r, find_row t' sh k = Some r -> find_row t sh k = Some r \/
    exists p n, k = entry_key sg p n /\ ss_lookup k.1 = Some (sh, ss_local) /\ parent_entry D p n /\
      link_ok r /\ S_ISDIR (st_mode r) = false;
  fc_dirs : forall sh k r, find_row t sh k = Some r -> S_ISDIR (st_mode r) = true -> find_row t' sh k = Some r;
}.

Lemma create_files (fuel : nat) (infos res : list MetaProcessInfo) (s s' : srv) :
  srv_ok s -> tables_ok (sv_inodes s) -> (2 * length infos <= fuel)%nat ->
  FalconCreateHandle sg now pg_qsort hash_order fuel false infos s = Ret res s' ->
  files_changed (pp_dir (sv_pp s)) (sv_inodes s) (sv_inodes s').
Proof.
  intros Hok Ht Hf H. apply bind_Ret_inv in H as (arr & s1 & E1 & H).
  destruct (parse_infos_create sg now covers _ s Hok (verify_paths_creatable pg_qsort pg_qsort_perm infos))
    as (arr' & s1' & E1' & Hok1 & [_ Hi1] & Harr). rewrite E1 in E1'. assert (arr = arr') as <- by congruence.
  assert (s1 = s1') as <- by congruence. clear E1'.
  destruct (parsed_list sg now pg_qsort pg_qsort_perm covers infos arr _ Harr) as (Hparsed & _ & Hlen & Hmode).
  rewrite <- Hi1 in Ht |- *. apply bind_Ret_inv in H as (res1 & s2 & E2 & [= _ <-]).
  destruct (create_shards_all sg hash_order hash_order_perm fuel arr s1 _ _ Ht Hparsed) as (res' & s2' & E2' & _ & Ht' & Hall); [lia|].
  rewrite E2 in E2'. assert (s2 = s2') as <- by congruence. clear E2'.
  assert (forall sh, Forall (fun i => mi_errorCode i = SUCCESS) (of_shard (Some sh) arr)) as Hsucc.
  { intros sh. eapply todo_success. exact Hparsed. }
  split; [done| |].
  - intros sh k r Hk. rewrite <- rows_of_find, (proj1 Hall sh) in Hk. rewrite <- rows_of_find.
    apply create_seq_spec in Hk as [Hk|(Hk & i & Hi & <- & ->)]; [by left| |done].
    right. apply create_seq_succeeded, of_shard_elem in Hi.
    destruct (placed_target _ _ _ _ (Hparsed _ Hi)) as (p & n & Hk1 & Hl & Hp). exists p, n. split; [done|]. split; [done|].
    split; [done|]. rewrite Forall_forall in Hmode. pose proof (Hmode _ Hi ltac:(eauto)) as Hm. cbn in Hm.
    unfold link_ok. cbn. by rewrite Hm.
  - intros sh k r Hk _. rewrite <- rows_of_find in *. rewrite (proj1 Hall sh). by apply create_seq_keeps.
Qed.

Lemma ISREG_not_ISDIR m : S_ISREG m = true -> S_ISDIR m = false.
Proof. unfold S_ISREG, S_ISDIR. intros ->%Z.eqb_eq. done. Qed.

Lemma unlink_files (infos res : list MetaProcessInfo) (s s' : srv) :
  srv_ok s -> tables_ok (sv_inodes s) -> links_ok (sv_inodes s) ->
  FalconUnlinkHandle sg pg_qsort hash_order infos s = Ret res s' ->
  files_changed (pp_dir (sv_pp s)) (sv_inodes s) (sv_inodes s').
Proof.
  intros Hok Ht Hl H.
  destruct (batch_handle_in_turn sg pg_qsort hash_order pg_qsort_perm hash_order_perm covers unlink_entry unlink_one
    unlink_one_identity unlink_entry_one VERIFY_PATH_VALIDITY_REQUIREMENT_MUST_BE_FILE infos s Hok Ht)
    as (res' & s1 & arr & E & _ & Ht' & _ & _ & Hall).
  unfold FalconUnlinkHandle in H. rewrite E in H. injection H as _ <-.
  assert (forall sh, rows_unlinked (rows_of (sv_inodes s) sh) (rows_of (sv_inodes s1) sh)
    (succeeded (in_turn unlink_one (of_shard (Some sh) arr) (rows_of (sv_inodes s) sh)).1)) as Hrows.
  { intros sh. rewrite (proj1 Hall sh). apply (unlink_in_turn _ _ (Hl sh)). }
  split; [done| |].
  - intros sh k r Hk. left. rewrite <- rows_of_find in *. destruct (Hrows sh k) as [Hr|[Hr _]]; congruence.
  - intros sh k r Hk Hd. rewrite <- rows_of_find in *. eapply rows_unlinked_other; [apply Hrows|done|].
    destruct (S_ISREG (st_mode r)) eqn:Em; [|done]. apply ISREG_not_ISDIR in Em. congruence.
Qed.

(** Rows that differ in attributes only. *)
Definition same_entry (r r' : inode_row) : Prop :=
  st_ino r' = st_ino r /\ st_nlink r' = st_nlink r /\ Z.land (st_mode r') S_IFMT = Z.land (st_mode r) S_IFMT.

Lemma same_entry_refl r : same_entry r r.
Proof. done. Qed.

Lemma same_entry_type r r' : same_entry r r' -> S_ISDIR (st_mode r') = S_ISDIR (st_mode r) /\ (link_ok r -> link_ok r').
Proof. intros (_ & Hn & Hm). unfold link_ok, S_ISREG, S_ISDIR. by rewrite Hm, Hn. Qed.

(** Arguments that change attributes. *)
Definition attribute_args (a : update_args) : Prop :=
  nlinkChange a = None /\ wantMode a = None /\
  match newExecMode a with Some m => exists x, m = Z.land x 0x1FF | None => True end.

(** Reading, or changing attributes. *)
Definition harmless_args (a : update_args) : Prop := doUpdate a = false \/ attribute_args a.

Lemma modify_row_same a r : attribute_args a -> same_entry r (modify_row a r).
Proof.
  intros (Hn & _ & Hm). unfold same_entry, modify_row. cbn [st_ino st_nlink st_mode]. rewrite Hn. split; [done|]. split; [done|].
  destruct (newExecMode a) as [m|]; [|done]. destruct Hm as [x ->]. rewrite Z.land_lor_distr_l, <- !Z.land_assoc.
  change (Z.land (Z.lxor 0xFFFFFFFF 0x1FF) S_IFMT) with S_IFMT. change (Z.land 0x1FF S_IFMT) with 0.
  by rewrite Z.land_0_r, Z.lor_0_r.
Qed.

Definition attributes_changed (t t' : inode_shards) : Prop :=
  (forall sh, is_Some (t' !! sh) <-> is_Some (t !! sh)) /\
  forall sh k, match find_row t sh k, find_row t' sh k with
    | Some r, Some r' => same_entry r r'
    | None, None => True
    | _, _ => False
    end.

Lemma attributes_unchanged t : attributes_changed t t.
Proof. split; [done|]. intros sh k. destruct (find_row t sh k); [apply same_entry_refl|done]. Qed.

Lemma Search_attributes (sh : Z) (k : Z * string) (a : update_args) (t t' : inode_shards) (o : option (inode_row * bool)) :
  harmless_args a -> SearchAndUpdateInodeTableInfo sh k a t = Ret o t' -> attributes_changed t t'.
Proof.
  intros [Hu|Ha] H.
  { destruct (t !! sh) as [rows|] eqn:Et; [|unfold SearchAndUpdateInodeTableInfo in H; by rewrite Et in H].
    rewrite (Search_read t sh rows k a Et Hu) in H. injection H as _ <-. apply attributes_unchanged. }
  unfold SearchAndUpdateInodeTableInfo in H. destruct (t !! sh) as [rows|] eqn:Et; [|done].
  destruct (rows !! k) as [r|] eqn:Er; [|injection H as _ <-; apply attributes_unchanged].
  assert (removes a r = false) as Hre by (unfold removes; destruct Ha as (-> & _); by rewrite andb_false_r).
  assert (wrong_type a r = false) as Hwt by (unfold wrong_type; by destruct Ha as (_ & -> & _)).
  rewrite Hre, Hwt in H. rewrite (insert_id t sh rows) in H by done.
  destruct (doUpdate a && needs_update a r); injection H as _ <-; [|apply attributes_unchanged]. split.
  { intros sh'. by eapply tables_update. }
  intros sh' k'. rewrite find_row_update. case_decide as Hd; [subst sh'|destruct (find_row t sh' k'); [apply same_entry_refl|done]].
  unfold find_row. rewrite Et. cbn. destruct (decide (k = k')) as [<-|Hk].
  - rewrite Er, lookup_insert_eq. by apply modify_row_same.
  - rewrite lookup_insert_ne by done. destruct (rows !! k'); [apply same_entry_refl|done].
Qed.

Lemma set_attributes_changed (a : update_args) (i i' : MetaProcessInfo) (s s' : srv) :
  harmless_args a -> set_attributes sg a i s = Ret i' s' -> attributes_changed (sv_inodes s) (sv_inodes s').
Proof.
  intros Ha H. apply bind_Ret_inv in H as (r & s1 & E1 & H).
  assert (sv_inodes s1 = sv_inodes s) as <-.
  { unfold on_pp in E1. destruct (PathParseTreeInsert _ _ _ _ _); [|done|done]. by injection E1 as _ <-. }
  destruct (r_code r); try done. destruct (r_target r) as [[p n]|]; [|done]. cbv zeta in H.
  apply bind_Ret_inv in H as ([sh w] & s2 & E2 & H). unfold find_shard in E2. case_match; [|done].
  injection E2 as -> <-. apply bind_Ret_inv in H as (? & ? & [_ ->]%unless_Ret & H).
  apply bind_Ret_inv in H as (found & s3 & E3 & H). apply bind_Ret_inv in H as (? & ? & [_ ->]%unless_Ret & [= _ <-]).
  unfold on_inodes in E3. destruct (SearchAndUpdateInodeTableInfo _ _ _ _) as [o t|e t|] eqn:Es; [|done|done].
  injection E3 as _ <-. by eapply Search_attributes.
Qed.

Lemma attributes_trans t1 t2 t3 : attributes_changed t1 t2 -> attributes_changed t2 t3 -> attributes_changed t1 t3.
Proof.
  intros [H1 H2] [H3 H4]. split; [intros sh; by rewrite H3|]. intros sh k. specialize (H2 sh k). specialize (H4 sh k).
  destruct (find_row t1 sh k), (find_row t2 sh k), (find_row t3 sh k); try done. unfold same_entry in *. intuition congruence.
Qed.

Lemma on_pp_inodes {A : Type} (m : cmd (pp_state (Dir := gmap (Z * string) Z)) A) (s s' : srv) (a : A) :
  on_pp m s = Ret a s' -> sv_inodes s' = sv_inodes s.
Proof. unfold on_pp. destruct (m (sv_pp s)); [|done|done]. by intros [= _ <-]. Qed.

Lemma parse_infos_inodes (flag : Z) (want : bool) (fill : MetaProcessInfo -> MetaProcessInfo) (infos : list MetaProcessInfo)
    (s s' : srv) (arr : list (MetaProcessInfo * option Z)) :
  parse_infos sg flag want fill infos s = Ret arr s' -> sv_inodes s' = sv_inodes s.
Proof.
  revert s arr. induction infos as [|i infos IH]; intros s arr E; cbn [parse_infos] in E; [by injection E as _ <-|].
  apply bind_Ret_inv in E as (x & s1 & E & H). apply bind_Ret_inv in H as (rest & s2 & E2 & [= _ <-]).
  rewrite (IH _ _ E2). clear IH E2. unfold parse_info in E. destruct (negb _); [by injection E as _ <-|].
  apply bind_Ret_inv in E as (r & s3 & E3%on_pp_inodes & E). rewrite <- E3.
  destruct (r_code r), (r_target r) as [[p n]|]; try (by injection E as _ <-). cbv zeta in E.
  apply bind_Ret_inv in E as (sw & s4 & E4 & E). unfold find_shard in E4.
  destruct (ss_lookup (mi_parentId_partId _)); [|done]. injection E4 as _ <-. destruct (negb _); by injection E as _ <-.
Qed.

(** A batch of such changes. *)
Lemma batch_attributes (req flag : Z) (op : Z -> MetaProcessInfo -> cmd inode_shards MetaProcessInfo)
    (infos res : list MetaProcessInfo) (s s' : srv) :
  (forall sh i t i' t', op sh i t = Ret i' t' -> attributes_changed t t') ->
  batch_handle sg pg_qsort hash_order req flag op infos s = Ret res s' -> attributes_changed (sv_inodes s) (sv_inodes s').
Proof.
  intros Hop H. apply bind_Ret_inv in H as (arr & s1 & E1%parse_infos_inodes & H).
  apply bind_Ret_inv in H as (out & s2 & E2 & [= _ <-]). rewrite <- E1. clear E1 s.
  revert E2. generalize (batch_order hash_order arr). intros order. revert arr s1.
  induction order as [|k order IH]; intros arr s1 E2; cbn [handle_entries] in E2.
  { injection E2 as _ <-. apply attributes_unchanged. }
  destruct (arr !! k) as [[i [sh|]]|]; try (by eapply IH).
  apply bind_Ret_inv in E2 as (i' & s3 & E & E2). eapply attributes_trans; [|by eapply IH].
  unfold on_inodes in E. destruct (op sh i (sv_inodes s1)) as [o t|e t|] eqn:Eo; [|done|done]. injection E as _ <-. by eapply Hop.
Qed.

(** What opens, closes and changes attributes is of this kind. *)
Lemma close_attributes sh i t i' t' : close_entry now sh i t = Ret i' t' -> attributes_changed t t'.
Proof.
  intros H. apply bind_Ret_inv in H as (o & t1 & E & [= _ <-]). eapply Search_attributes; [|exact E]. right. done.
Qed.
Lemma open_attributes sh i t i' t' : open_entry sh i t = Ret i' t' -> attributes_changed t t'.
Proof.
  intros H. apply bind_Ret_inv in H as (o & t1 & E & [= _ <-]). eapply Search_attributes; [|exact E]. by left.
Qed.
Lemma stat_attributes sh i t i' t' : stat_entry sh i t = Ret i' t' -> attributes_changed t t'.
Proof.
  intros H. apply bind_Ret_inv in H as (o & t1 & E & [= _ <-]). eapply Search_attributes; [|exact E]. by left.
Qed.
End Files.

(** ** The operations of a worker keep the invariant *)

Section Workers.
Context {SS : ShardService} (sg : bool).

(** The servers after the rows of one worker have changed. *)
Definition with_inodes (c : cluster) (w : Z) (s : worker) (t : inode_shards) : cluster :=
  mkCluster (cl_pp c) (<[w := mkWorker (wk_dirs s) t]> (cl_workers c)).

Lemma inode_at_with (c : cluster) (w : Z) (s : worker) (t : inode_shards) (k : Z * string) :
  inode_at (with_inodes c w s t) k =
    match ss_lookup k.1 with
    | Some (sh, w') => if decide (w' = w) then find_row t sh k else inode_at c k
    | None => None
    end.
Proof.
  unfold inode_at. destruct (ss_lookup k.1) as [[sh w']|]; [|done]. cbn [cl_workers with_inodes].
  case_decide as Hd; [subst; by rewrite lookup_insert_eq|by rewrite lookup_insert_ne].
Qed.

(** What is left to show when the rows of one worker have changed. *)
Lemma with_inodes_ok (c : cluster) (w : Z) (s : worker) (t : inode_shards) :
  cluster_ok sg c -> cl_workers c !! w = Some s -> (forall v sh, ss_lookup v = Some (sh, w) -> is_Some (t !! sh)) ->
  (forall sh k r, find_row t sh k = Some r -> ss_lookup k.1 = Some (sh, w)) ->
  rows_ok sg (cn_table c) (inode_at (with_inodes c w s t)) -> cluster_ok sg (with_inodes c w s t).
Proof.
  intros Hok Hs Ht Hp Hr. split; [apply Hok|apply Hok| | | |done]; cbn [cl_workers with_inodes].
  - intros w' s' [[<- <-]|[_ Hs']]%lookup_insert_Some; [|by eapply (ck_replicas _ _ Hok)]. by eapply (ck_replicas _ _ Hok w s).
  - intros v sh w' Hl. destruct (decide (w' = w)) as [->|Hne].
    + exists (mkWorker (wk_dirs s) t). rewrite lookup_insert_eq. eauto.
    + rewrite lookup_insert_ne by done. by eapply (ck_tables _ _ Hok).
  - intros w' s' sh k r [[<- <-]|[_ Hs']]%lookup_insert_Some; [apply Hp|]. by eapply (ck_placed _ _ Hok).
Qed.

(** The rows of a worker among those of all. *)
Lemma worker_row (c : cluster) (w : Z) (s : worker) (sh : Z) (k : Z * string) (r : inode_row) :
  cluster_ok sg c -> cl_workers c !! w = Some s -> find_row (wk_inodes s) sh k = Some r ->
  ss_lookup k.1 = Some (sh, w) /\ inode_at c k = Some r.
Proof.
  intros Hok Hs Hr. pose proof (ck_placed _ _ Hok w s sh k r Hs Hr) as Hl. split; [done|].
  by rewrite (inode_at_row c k sh w s Hl Hs).
Qed.

Lemma worker_links (c : cluster) (w : Z) (s : worker) : cluster_ok sg c -> cl_workers c !! w = Some s -> links_ok (wk_inodes s).
Proof.
  intros Hok Hs sh k r Hr. rewrite rows_of_find in Hr. destruct (worker_row c w s sh k r Hok Hs Hr) as [_ Hk].
  by destruct (ro_row _ _ _ (ck_rows _ _ Hok) _ _ Hk) as (? & ? & _ & _ & ? & _).
Qed.

Lemma files_keep (c : cluster) (w : Z) (s : worker) (t : inode_shards) :
  cluster_ok sg c -> cl_workers c !! w = Some s ->
  files_changed (SS := at_worker SS w) sg (cn_table c) (wk_inodes s) t -> cluster_ok sg (with_inodes c w s t).
Proof.
  intros Hok Hs [Ht Hnew Hdirs]. apply with_inodes_ok; [done|done| | |].
  - apply Ht. intros v sh Hl. destruct (ck_tables _ _ Hok v sh w Hl) as (s' & Hs' & ?). congruence.
  - intros sh k r [Hr|(p & n & -> & Hl & _)]%Hnew; [|done]. by eapply (worker_row c w s).
  - apply (rows_ok_files sg _ (inode_at c)); [apply Hok| |].
    + intros k r. rewrite inode_at_with. destruct (ss_lookup k.1) as [[sh w']|] eqn:El; [|done].
      case_decide as Hd; [subst w'|by left]. intros [Hr|(p & n & -> & _ & ?)]%Hnew; [left|right; eauto].
      by eapply (worker_row c w s).
    + intros k r Hk Hd. rewrite inode_at_with. unfold inode_at in Hk.
      destruct (ss_lookup k.1) as [[sh w']|] eqn:El; [|done]. case_decide as Hw; [subst w'|].
      * rewrite Hs in Hk. by apply Hdirs.
      * unfold inode_at. by rewrite El.
Qed.

Lemma attributes_keep (c : cluster) (w : Z) (s : worker) (t : inode_shards) :
  cluster_ok sg c -> cl_workers c !! w = Some s -> attributes_changed (wk_inodes s) t -> cluster_ok sg (with_inodes c w s t).
Proof.
  intros Hok Hs [Ht Hrow]. apply with_inodes_ok; [done|done| | |].
  - intros v sh Hl. apply Ht. destruct (ck_tables _ _ Hok _ _ _ Hl) as (s' & Hs' & ?). congruence.
  - intros sh k r' Hr'. specialize (Hrow sh k). rewrite Hr' in Hrow. destruct (find_row (wk_inodes s) sh k) as [r|] eqn:Er; [|done].
    by eapply (worker_row c w s).
  - eapply rows_ok_attributes; [apply Hok|]. intros k. rewrite inode_at_with. unfold inode_at at 1.
    destruct (ss_lookup k.1) as [[sh w']|] eqn:El; [|done]. case_decide as Hw; [subst w'|].
    + rewrite Hs. cbn. specialize (Hrow sh k). destruct (find_row (wk_inodes s) sh k), (find_row t sh k); try done.
      destruct (same_entry_type _ _ Hrow). by destruct Hrow.
    + unfold inode_at. rewrite El. by destruct (_ ≫= _).
Qed.
End Workers.

(** ** Steps *)

Section Steps.
Context {SS : ShardService} (sg : bool) (name_le : relation string) `{!RelDecision name_le}.
Context (pg_qsort : list MetaProcessInfo -> list MetaProcessInfo) (hash_order : list Z -> list Z).

(** The state a transaction leaves, committed or rolled back. *)
Definition settled {A : Type} (o : outcome cluster A) : option cluster :=
  match o with
  | Ret _ c | Raise _ c => Some c
  | OutOfFuel => None
  end.

(** The handlers of a worker, run by one of its backends. *)
Inductive worker_run (w : Z) : srv -> srv -> Prop :=
| run_create now fuel infos res s s' :
    (2 * length infos <= fuel)%nat ->
    FalconCreateHandle (SS := at_worker SS w) sg now pg_qsort hash_order fuel false infos s = Ret res s' -> worker_run w s s'
| run_unlink infos res s s' :
    FalconUnlinkHandle (SS := at_worker SS w) sg pg_qsort hash_order infos s = Ret res s' -> worker_run w s s'
| run_stat infos res s s' :
    FalconStatHandle (SS := at_worker SS w) sg pg_qsort hash_order infos s = Ret res s' -> worker_run w s s'
| run_open infos res s s' :
    FalconOpenHandle (SS := at_worker SS w) sg pg_qsort hash_order infos s = Ret res s' -> worker_run w s s'
| run_close now infos res s s' :
    FalconCloseHandle (SS := at_worker SS w) sg now pg_qsort hash_order infos s = Ret res s' -> worker_run w s s'
| run_utimens now i res s s' :
    FalconUtimeNsHandle (SS := at_worker SS w) sg now i s = Ret res s' -> worker_run w s s'
| run_chown i res s s' :
    FalconChownHandle (SS := at_worker SS w) sg i s = Ret res s' -> worker_run w s s'
| run_chmod i res s s' :
    FalconChmodHandle (SS := at_worker SS w) sg i s = Ret res s' -> worker_run w s s'.

Inductive cluster_step (c : cluster) : cluster -> Prop :=
| step_mkdir now local infos c' :
    settled (transaction (FalconMkdirHandle sg now pg_qsort hash_order local infos) c) = Some c' -> cluster_step c c'
| step_rmdir local path c' :
    settled (transaction (FalconRmdirHandle sg name_le local path) c) = Some c' -> cluster_step c c'
| step_rename local src dst c' :
    absolute dst -> path_name src <> EmptyString ->
    settled (transaction (FalconRenameHandle sg local src dst) c) = Some c' -> cluster_step c c'
| step_worker w s sv sv' :
    cl_workers c !! w = Some s -> pp_tree (sv_pp sv) = ∅ -> pp_dir (sv_pp sv) = wk_dirs s -> sv_inodes sv = wk_inodes s ->
    worker_run w sv sv' -> cluster_step c (with_inodes c w s (sv_inodes sv'))
| step_backend :
    cluster_step c (mkCluster (mkPP (pp_tree (cl_pp c)) (pp_nextval (cl_pp c)) empty_cache (cn_table c)) (cl_workers c)).

(** The servers before anything was made: the tables are there and empty. *)
Record fresh_cluster (c : cluster) : Prop := {
  fr_next : pp_nextval (cl_pp c) = 1;
  fr_seq : pp_seq (cl_pp c) = empty_cache;
  fr_dirs : cn_table c = ∅;
  fr_workers : forall w s, cl_workers c !! w = Some s -> wk_dirs s = ∅ /\ forall sh k, find_row (wk_inodes s) sh k = None;
  fr_tables : forall v sh w, ss_lookup v = Some (sh, w) ->
    exists s, cl_workers c !! w = Some s /\ is_Some (wk_inodes s !! sh);
}.

Lemma fresh_cluster_ok c : fresh_cluster c -> cluster_ok sg c.
Proof.
  intros [Hn Hq Hd Hw Ht]. split; rewrite ?Hn, ?Hq, ?Hd.
  - split; [lia|done| |]; [unfold in_block; cbn; lia|]. intros k id Hk. by rewrite lookup_empty in Hk.
  - apply dirs_ok_empty.
  - intros w s Hs. by destruct (Hw w s Hs).
  - done.
  - intros w s sh k r Hs Hr. destruct (Hw w s Hs) as [_ Hno]. by rewrite Hno in Hr.
  - eapply rows_ok_ext; [|apply rows_ok_empty]. intros k. unfold inode_at. destruct (ss_lookup k.1) as [[sh w]|]; [|done].
    destruct (cl_workers c !! w) as [s|] eqn:Es; [|done]. destruct (Hw w s Es) as [_ Hno]. apply Hno.
Qed.

Context (pg_qsort_perm : forall l, pg_qsort l ≡ₚ l) (hash_order_perm : forall l, hash_order l ≡ₚ l).
Context (covers : forall v, is_Some (ss_lookup v)).

(** The tree of paths is not part of the invariant. *)
Lemma cluster_ok_reset (p : pp_state (Dir := gmap (Z * string) Z)) (ws : gmap Z worker) (t : gmap (list string) PathParseRBTreeNode) :
  cluster_ok sg (mkCluster p ws) -> cluster_ok sg (mkCluster (mkPP t (pp_nextval p) (pp_seq p) (pp_dir p)) ws).
Proof. intros H. split; apply H. Qed.

Lemma transaction_keeps {A : Type} (m : cmd cluster A) (c c' : cluster) :
  cluster_ok sg c -> advancing cluster_seq m ->
  (forall c1 a c2, cluster_ok sg c1 -> pp_tree (cl_pp c1) = ∅ -> m c1 = Ret a c2 -> pp_nextval (cl_pp c2) <= 2 ^ 39 ->
     cluster_ok sg c2) ->
  settled (transaction m c) = Some c' -> pp_nextval (cl_pp c') <= 2 ^ 39 -> cluster_ok sg c'.
Proof.
  intros Hok Hadv Hkeep H Hmax. unfold transaction in H. destruct c as [p ws]. cbn [cl_pp cl_workers] in H.
  apply (cluster_ok_reset _ _ ∅) in Hok. set (c1 := mkCluster (mkPP ∅ _ _ _) ws) in *.
  specialize (Hadv c1). destruct (m c1) as [a c2|e c2|] eqn:E; [| |done]; injection H as <-.
  - destruct c2 as [p2 ws2]. apply cluster_ok_reset. by eapply Hkeep.
  - destruct Hok as [Hs Hd Hr Ht Hp Hn]. split; [|done|done|done|done|done].
    exact (seq_ok_adv (cluster_seq c1) (cluster_seq c2) _ Hs Hadv Hmax).
Qed.

Lemma transaction_mono {A : Type} (m : cmd cluster A) (c c' : cluster) :
  advancing cluster_seq m -> settled (transaction m c) = Some c' -> pp_nextval (cl_pp c) <= pp_nextval (cl_pp c').
Proof.
  intros Hadv H. unfold transaction in H. match type of H with context [m ?x] => specialize (Hadv x); destruct (m x) end;
    [| |done]; injection H as <-; by apply seq_mono in Hadv.
Qed.

Lemma cluster_step_mono (c c' : cluster) : cluster_step c c' -> pp_nextval (cl_pp c) <= pp_nextval (cl_pp c').
Proof.
  destruct 1 as [now local infos c' H|local path c' H|local src dst c' _ _ H|w s sv sv' _ _ _ _ _|]; [| | |done|done].
  - eapply transaction_mono; [|exact H]. apply adv_mkdir.
  - eapply transaction_mono; [|exact H]. exact (adv_rmdir sg name_le local path).
  - eapply transaction_mono; [|exact H]. apply adv_rename.
Qed.

Lemma worker_run_keeps (c : cluster) (w : Z) (s : worker) (sv sv' : srv) :
  cluster_ok sg c -> cl_workers c !! w = Some s -> pp_tree (sv_pp sv) = ∅ -> pp_dir (sv_pp sv) = wk_dirs s ->
  sv_inodes sv = wk_inodes s -> worker_run w sv sv' -> cluster_ok sg (with_inodes c w s (sv_inodes sv')).
Proof.
  intros Hok Hs Htree Hd Hi Hrun. assert (srv_ok sv) as Hsrv by (split; [done|]; by rewrite Htree).
  assert (tables_ok (SS := at_worker SS w) (sv_inodes sv)) as Ht.
  { intros v sh Hl. destruct (ck_tables _ _ Hok v sh w Hl) as (s' & Hs' & ?). rewrite Hi. congruence. }
  pose proof (worker_links sg c w s Hok Hs) as Hl. rewrite <- Hi in Hl.
  assert (pp_dir (sv_pp sv) = cn_table c) as HD by (rewrite Hd; by eapply (ck_replicas _ _ Hok)).
  destruct Hrun as [now fuel infos res sv sv' Hf H|infos res sv sv' H|infos res sv sv' H|infos res sv sv' H|now infos res sv sv' H
    |now i res sv sv' H|i res sv sv' H|i res sv sv' H]; rewrite ?Hi in *.
  1-2: apply files_keep; [done|done|]; rewrite <- HD, <- Hi.
  - eapply (create_files (SS := at_worker SS w)); [exact pg_qsort_perm|exact hash_order_perm|done|done|by rewrite Hi|exact Hf|exact H].
  - eapply (unlink_files (SS := at_worker SS w)); [exact pg_qsort_perm|exact hash_order_perm|done|done|by rewrite Hi|by rewrite Hi|exact H].
  - apply attributes_keep; [done|done|]. rewrite <- Hi. eapply (batch_attributes (SS := at_worker SS w)); [|exact H]. apply stat_attributes.
  - apply attributes_keep; [done|done|]. rewrite <- Hi. eapply (batch_attributes (SS := at_worker SS w)); [|exact H]. apply open_attributes.
  - apply attributes_keep; [done|done|]. rewrite <- Hi. eapply (batch_attributes (SS := at_worker SS w)); [|exact H]. apply close_attributes.
  - apply attributes_keep; [done|done|]. rewrite <- Hi. eapply (set_attributes_changed (SS := at_worker SS w)); [|exact H]. by right.
  - apply attributes_keep; [done|done|]. rewrite <- Hi. eapply (set_attributes_changed (SS := at_worker SS w)); [|exact H]. by right.
  - apply attributes_keep; [done|done|]. rewrite <- Hi. eapply (set_attributes_changed (SS := at_worker SS w)); [|exact H].
    right. split_and!; [done|done|]. by eexists.
Qed.

Lemma cluster_step_keeps (c c' : cluster) :
  cluster_ok sg c -> cluster_step c c' -> pp_nextval (cl_pp c') <= 2 ^ 39 -> cluster_ok sg c'.
Proof.
  intros Hok Hstep Hmax. destruct Hstep as [now local infos c' H|local path c' H|local src dst c' Hd Hn H|w s sv sv' Hs Ht Hdir Hi Hrun|].
  - eapply transaction_keeps; [done|apply adv_mkdir| |exact H|done]. intros. by eapply mkdir_keeps.
  - eapply transaction_keeps; [done|exact (adv_rmdir sg name_le local path)| |exact H|done].
    intros. by eapply (rmdir_keeps sg name_le).
  - eapply transaction_keeps; [done|apply adv_rename| |exact H|done]. intros. by eapply rename_keeps.
  - by eapply worker_run_keeps.
  - destruct Hok as [[A B C T] Hdi Hr Ht Hp Hn]. split; [|done|done|done|done|done]. split; [done|done| |].
    + unfold in_block. cbn. lia.
    + intros k id Hk. destruct (T k id Hk) as (v & -> & Hv & _). exists v. split; [done|]. split; [done|]. unfold in_block. cbn. lia.
Qed.

(** C1: the directories and the files stay one tree.  Whatever mkdir, rmdir and
    rename transactions the coordinator runs, committed or rolled back, and
    whatever create, unlink, open, close, stat, chmod, chown and utimens the
    workers run, in any order and however often backends are restarted: all
    servers have the same table of directories, no two entries share an inode
    number and every entry can be reached from the root; every directory has
    its row and every row of a directory its entry; every row has a parent that
    exists and is on the shard and the worker that its key calls for.  Renames
    are those of paths a client sends, absolute and without a separator at the
    end; the sequence of inode numbers stays below 2^39. *)
Theorem namespace_invariant (c0 c : cluster) :
  fresh_cluster c0 -> rtc cluster_step c0 c -> pp_nextval (cl_pp c) <= 2 ^ 39 -> cluster_ok sg c.
Proof.
  intros Hfresh H Hmax. apply fresh_cluster_ok in Hfresh. induction H as [c|c c1 c2 Hstep Hrest IH]; [done|].
  apply IH; [|done]. eapply cluster_step_keeps; [done|done|].
  assert (pp_nextval (cl_pp c1) <= pp_nextval (cl_pp c2)); [|lia]. clear -Hrest.
  induction Hrest as [c|c c1 c2 Hstep Hrest IH]; [done|]. apply cluster_step_mono in Hstep. lia.
Qed.
End Steps.

(** ** Two workers with one shard each *)

#[export] Instance two_shards : ShardService := table_shards (fun v => v) {[ 4095 := 1; INT32_MAX := 2 ]} 0.

Lemma two_shards_cover v : is_Some (ss_lookup v).
Proof.
  cbn. destruct (shard_of _ _) as [row|] eqn:E; [eauto|exfalso].
  pose proof (HashShard_range (fun v => v) v) as Hr.
  apply (proj1 (lower_bound_None _ _)) with (k := INT32_MAX) in E; [lia|].
  rewrite lookup_insert_ne by done. rewrite lookup_singleton_eq. eauto.
Qed.

Definition demo_empty : cluster :=
  mkCluster (mkPP ∅ 1 empty_cache ∅) {[ 1 := mkWorker ∅ {[ 4095 := ∅ ]}; 2 := mkWorker ∅ {[ INT32_MAX := ∅ ]} ]}.

Definition demo_mkdir (paths : list string) : cmd cluster (list MetaProcessInfo) :=
  transaction (FalconMkdirHandle true 7 (fun l => l) (fun l => l) FALCON_CN_SERVER_ID (request <$> paths)).
Definition demo_rename (src dst : string) : cmd cluster unit := transaction (FalconRenameHandle true FALCON_CN_SERVER_ID src dst).
Definition demo_made : cluster := default demo_empty (settled (demo_mkdir ["/"; "/a"; "/a/b"; "/a/abc"]%string demo_empty)).
Definition demo_moved : cluster := default demo_empty (settled (demo_rename "/a/b" "/abd" demo_made)).

Lemma settled_default {A : Type} (o : outcome cluster A) (c : cluster) :
  (match o with OutOfFuel => false | _ => true end) = true -> settled o = Some (default c (settled o)).
Proof. by destruct o. Qed.

(** The workers of the shards. *)
Lemma two_shards_row sh w : (sh, w) ∈ ss_rows -> (sh = 4095 /\ w = 1) \/ (sh = INT32_MAX /\ w = 2).
Proof.
  intros H. apply index_scan_elem, lookup_insert_Some in H as [[<- <-]|[_ H]]; [by left|].
  apply lookup_singleton_Some in H as [<- <-]. by right.
Qed.

Lemma demo_empty_fresh : fresh_cluster demo_empty.
Proof.
  split; [done|done|done| |].
  - assert (forall sh0 sh k, find_row {[ sh0 := ∅ ]} sh k = None) as Hno.
    { intros sh0 sh k. unfold find_row. destruct (decide (sh = sh0)) as [->|Hne];
        [by rewrite lookup_singleton_eq|by rewrite lookup_singleton_ne by congruence]. }
    cbn [cl_workers demo_empty]. intros w s [[_ <-]|[_ [_ <-]%lookup_singleton_Some]]%lookup_insert_Some; (split; [done|]; apply Hno).
  - intros v sh w H. apply ss_lookup_row in H. destruct (two_shards_row _ _ H) as [[-> ->]|[-> ->]].
    + exists (mkWorker ∅ {[ 4095 := ∅ ]}). split; [by vm_compute|]. cbn. rewrite lookup_singleton_eq. eauto.
    + exists (mkWorker ∅ {[ INT32_MAX := ∅ ]}). split; [by vm_compute|]. cbn. rewrite lookup_singleton_eq. eauto.
Qed.

Abbreviation demo_step := (cluster_step true String.le (fun l => l) (fun l => l)).

Lemma demo_mkdir_step paths c : (match demo_mkdir paths c with OutOfFuel => false | _ => true end) = true ->
  demo_step c (default demo_empty (settled (demo_mkdir paths c))).
Proof. intros H. by apply (step_mkdir _ _ _ _ _ 7 FALCON_CN_SERVER_ID (request <$> paths)), settled_default. Qed.

Lemma demo_made_ok : cluster_ok true demo_made.
Proof.
  apply (cluster_step_keeps true String.le (fun l => l) (fun l => l) ltac:(done) ltac:(done) two_shards_cover demo_empty).
  - apply fresh_cluster_ok, demo_empty_fresh.
  - apply demo_mkdir_step. by vm_compute.
  - by vm_compute.
Qed.

Lemma demo_steps : rtc demo_step demo_empty demo_moved.
Proof.
  apply rtc_l with demo_made; [apply demo_mkdir_step; by vm_compute|]. apply rtc_once.
  apply (step_rename _ _ _ _ _ FALCON_CN_SERVER_ID "/a/b" "/abd"); [by eexists|by vm_compute|].
  apply settled_default. by vm_compute.
Qed.

Lemma namespace_invariant_witness : cluster_ok true demo_moved /\ cn_table demo_moved !! (4096, "abd"%string) = Some 12288.
Proof.
  split; [|by vm_compute]. apply (namespace_invariant true String.le (fun l => l) (fun l => l)
    ltac:(done) ltac:(done) two_shards_cover demo_empty demo_moved demo_empty_fresh demo_steps). by vm_compute.
Defined.
