(* ===== verification/NamespaceOps.v ===== *)
(** * What mkdir, rmdir and rename do

    The three operations of the coordinator (falcon/metadb/meta_handle.c) on
    servers that satisfy the invariant of Cluster.v: when they succeed and what
    they leave, on the coordinator and on all workers. *)

From S2P Require Import FalconPrelude Catalog DirService InodeId PathCmp PathParse PathTable DirTree Placement ForeignServer InodeTable ShardTable ShardService MetaFile MetaReadDir Namespace MetaDir RenamePaths Cluster ClusterSteps.

(** ** Running on all workers *)

Lemma on_worker_runs {A : Type} (w : Z) (m : cmd worker A) (c : cluster) (s s' : worker) (a : A) :
  cl_workers c !! w = Some s -> m s = Ret a s' ->
  on_worker w m c = Ret a (mkCluster (cl_pp c) (<[w := s']> (cl_workers c))).
Proof. intros Hs E. unfold on_worker. by rewrite Hs, E. Qed.

Lemma on_workers_runs (ws : list Z) (m : Z -> cmd worker unit) (c : cluster) :
  NoDup ws -> (forall w, w ∈ ws -> exists s s', cl_workers c !! w = Some s /\ m w s = Ret tt s') ->
  exists c', on_workers ws m c = Ret tt c'.
Proof.
  revert c. induction ws as [|w ws IH]; intros c Hnd H; cbn [on_workers]; [by eexists|].
  apply NoDup_cons in Hnd as [Hw Hnd]. destruct (H w) as (s & s' & Hs & E); [left|].
  rewrite (bind_Ret _ _ _ _ _ (on_worker_runs _ _ _ _ _ _ Hs E)). apply IH; [done|]. intros w' Hw'.
  destruct (H w') as (s1 & s1' & Hs1 & E1); [by right|]. exists s1, s1'. cbn. rewrite lookup_insert_ne by (by intros ->). done.
Qed.

(** A worker that fails makes the whole command fail. *)
Lemma on_workers_fails (ws : list Z) (m : Z -> cmd worker unit) (c : cluster) :
  (forall w, w ∈ ws -> is_Some (cl_workers c !! w)) -> (forall w s, m w s <> OutOfFuel) ->
  (exists c', on_workers ws m c = Ret tt c') \/ exists c', on_workers ws m c = Raise REMOTE_QUERY_FAILED c'.
Proof.
  intros Hw Hm. revert c Hw. induction ws as [|w ws IH]; intros c Hw; cbn [on_workers]; [left; by eexists|].
  destruct (Hw w) as [s Hs]; [left|]. unfold mbind, cmd_bind, on_worker. rewrite Hs. specialize (Hm w s).
  destruct (m w s) as [[] s'|e s'|]; [|by eauto|done]. apply IH. intros w' Hw'. cbn.
  destruct (decide (w' = w)) as [->|Hne]; [rewrite lookup_insert_eq; eauto|rewrite lookup_insert_ne by done]. apply Hw. by right.
Qed.

(** The state in which a transaction starts. *)
Definition started (c : cluster) : cluster :=
  mkCluster (mkPP ∅ (pp_nextval (cl_pp c)) (pp_seq (cl_pp c)) (pp_dir (cl_pp c))) (cl_workers c).

Lemma transaction_Ret {A : Type} (m : cmd cluster A) (c c1 : cluster) (a : A) :
  m (started c) = Ret a c1 -> transaction m c = Ret a (started c1).
Proof. intros E. unfold transaction. fold (started c). by rewrite E. Qed.

Lemma transaction_Ret_inv {A : Type} (m : cmd cluster A) (c c' : cluster) (a : A) :
  transaction m c = Ret a c' -> exists c1, m (started c) = Ret a c1 /\ c' = started c1.
Proof. unfold transaction. fold (started c). destruct (m (started c)) as [a0 c1|e c1|]; [|done|done]. intros [= <- <-]. eauto. Qed.

Lemma transaction_Raise {A : Type} (m : cmd cluster A) (c c1 : cluster) (e : FalconErrorCode) :
  m (started c) = Raise e c1 -> exists c', transaction m c = Raise e c' /\ cn_table c' = cn_table c /\ cl_workers c' = cl_workers c.
Proof. intros E. unfold transaction. fold (started c). rewrite E. by eexists. Qed.

Section Operations.
Context {SS : ShardService} (sg : bool).

Lemma started_ok c : cluster_ok sg c -> cluster_ok sg (started c).
Proof. intros H. split; apply H. Qed.

Lemma inode_at_started c k : inode_at (started c) k = inode_at c k.
Proof. done. Qed.

(** C6: rename moves one entry and nothing else.  When a rename succeeds, both
    paths lead where the entries said before; the row of the old name is now
    the row of the new one, which was free, and all other rows are as they
    were; a directory keeps its inode number, so everything below it moves with
    it, and the tables of all servers have changed in this entry only.  On
    another worker the row arrives without its etag, update version and backup
    node. *)
Theorem FalconRenameHandle_correct (local : Z) (src dst : string) (c c' : cluster) (u : unit) :
  cluster_ok sg c -> absolute dst -> path_name src <> EmptyString ->
  transaction (FalconRenameHandle sg local src dst) c = Ret u c' ->
  exists sp sn dp dn r,
    target_of (table_view (cn_table c)) src = Some (sp, sn) /\ target_of (table_view (cn_table c)) dst = Some (dp, dn) /\
    inode_at c (entry_key sg sp sn) = Some r /\
    (inode_at c (entry_key sg dp dn) = None \/ entry_key sg dp dn = entry_key sg sp sn) /\
    (forall k, inode_at c' k =
       if decide (k = entry_key sg dp dn) then Some (arriving_row (entry_key sg sp sn) (entry_key sg dp dn) r)
       else if decide (k = entry_key sg sp sn) then None else inode_at c k) /\
    cn_table c' = (match cn_table c !! (sp, sn) with
                   | Some id => <[(dp, dn) := id]> (delete (sp, sn) (cn_table c))
                   | None => cn_table c
                   end) /\
    forall w s', cl_workers c' !! w = Some s' -> wk_dirs s' = cn_table c'.
Proof.
  intros Hok Hd Hn (c1 & E & ->)%transaction_Ret_inv. apply started_ok in Hok.
  destruct (rename_Ret sg local src dst _ c1 u Hok eq_refl Hd Hn E) as (isdir & id & sp & sn & dp & dn & r & r' & Hdone).
  destruct Hdone as [Ts Td _ Hent _ Ht Hw (Hr & Hfree & Hrows & _) ->]. exists sp, sn, dp, dn, r.
  split; [done|]. split; [done|]. split; [done|]. split; [done|]. split; [done|].
  change (cn_table (started c)) with (cn_table c) in *. change (cn_table (started c1)) with (cn_table c1). rewrite Hent.
  unfold dirs_moved, dir_moved in Ht. split; [destruct isdir; [by destruct Ht as (_ & _ & ->)|done]|].
  intros w s' Hs'. specialize (Hw w). cbn [cl_workers started] in Hs', Hw. rewrite Hs' in Hw. unfold moved_on in Hw.
  destruct (cl_workers c !! w) as [s|] eqn:Es; [|done]. destruct Hw as [Hdm _]. unfold dirs_moved, dir_moved in Hdm.
  rewrite (ck_replicas _ _ Hok w s Es) in Hdm. change (cn_table (started c)) with (cn_table c) in Hdm.
  destruct isdir; [|congruence]. by destruct Hdm as (_ & _ & ->), Ht as (_ & _ & ->).
Qed.

(** *** Rmdir *)

Context (name_le : relation string) `{!RelDecision name_le}.

(** The parse for the removal of an existing directory. *)
Lemma parse_rmdir_runs (path : string) (s : pp_state (Dir := gmap (Z * string) Z)) (p : Z) (n : string) :
  absolute path -> path <> ROOT_NAME -> pp_tree s = ∅ -> target_of (table_view (pp_dir s)) path = Some (p, n) ->
  table_view (pp_dir s) p n <> DIR_HASH_TABLE_PATH_NOT_EXIST ->
  exists r s', PathParseTreeInsert 0 path RMDIR_FLAG (Some 0) s = Ret r s' /\ r_code r = SUCCESS /\ r_target r = Some (p, n).
Proof.
  intros Habs Hroot Htree Ht Hex. assert (tree_agrees (view_of s) (pp_tree s)) as Hag by (by rewrite Htree).
  destruct (PathParseTreeInsert_unfold (DS := table_service) 0 path RMDIR_FLAG (Some 0) s Habs Hroot I)
    as (s1 & (_ & Hv & _) & Hfr & _ & E). rewrite resolve_in_agrees in E by done.
  unfold target_of in Ht. apply fmap_Some in Ht as (i & Hi & [= -> ->]).
  change (resolve (view_of s) (path_dirs path) 0 = Some i) in Hi. rewrite Hi, app_nil_r in E.
  assert (pp_tree s1 !! (path_name path :: rev (path_dirs path)) = None) as Hnone.
  { rewrite Hfr, Htree by (cbn; rewrite length_rev; lia). apply lookup_empty. }
  change (parse_target 0 RMDIR_FLAG) with (parse_delete (DS := table_service)) in E.
  unfold parse_delete, mbind, cmd_bind, rbt_find, gets in E. cbn [we_rest we_len we_key we_id] in E.
  rewrite (path_name_take path Hroot Habs), Hnone in E. cbv iota in E. unfold SearchDirectory, on_dir in E.
  change (ds_search i (path_name path) DIR_LOCK_EXCLUSIVE (pp_dir s1)) with
    (Ret (view_of s1 i (path_name path)) (pp_dir s1)) in E. cbv iota beta in E. rewrite Hv in E.
  change (view_of s i (path_name path)) with (table_view (pp_dir s) i (path_name path)) in E.
  rewrite (proj2 (Z.eqb_neq _ _) Hex) in E. unfold rbt_insert, mbind, cmd_bind, rbt_find, gets in E. cbn [pp_tree] in E.
  rewrite Hnone in E. eexists _, _. split; [exact E|]. done.
Qed.

(** The coordinator's part of rmdir. *)
Lemma rmdir_begins (path : string) (c : cluster) (p : Z) (n : string) (id sh w : Z) :
  cluster_ok sg c -> pp_tree (cl_pp c) = ∅ -> absolute path -> path <> ROOT_NAME ->
  target_of (table_view (cn_table c)) path = Some (p, n) -> cn_table c !! (p, n) = Some id ->
  ss_lookup (entry_key sg p n).1 = Some (sh, w) ->
  exists c1, cl_workers c1 = cl_workers c /\
    FalconRmdirHandle sg name_le FALCON_CN_SERVER_ID path c =
      (_ ← on_workers (all_workers c1) (fun w => FalconRmdirSubRmdirHandle sg name_le w p n);
       on_worker w (FalconRmdirSubUnlinkHandle w (entry_key sg p n).1 n)) c1.
Proof.
  intros Hok Htree Habs Hroot Ht Hid Hl.
  assert (table_view (cn_table c) p n = id) as Hv by (unfold table_view; by rewrite Hid).
  destruct (parse_rmdir_runs path (cl_pp c) p n Habs Hroot Htree Ht) as (r & s' & E & Hc & Htg).
  { change (table_view (pp_dir (cl_pp c)) p n) with (table_view (cn_table c) p n). rewrite Hv. eapply id_exists, (do_id _ (ck_dirs _ _ Hok)), Hid. }
  pose proof (parse_keeps _ _ _ _ _ _ _ E) as Hd.
  exists (mkCluster (with_dirs s' (delete (p, n) (pp_dir s'))) (cl_workers c)). split; [done|].
  assert ((VerifyPathValidity path VERIFY_PATH_VALIDITY_REQUIREMENT_MUST_BE_DIRECTORY).1 = SUCCESS) as Hver.
  { unfold VerifyPathValidity. rewrite bool_decide_eq_true_2 by done. cbn [negb]. by destruct (bool_decide _). }
  assert (pp_dir s' !! (p, n) = Some id) as Hid' by (rewrite Hd; exact Hid).
  unfold FalconRmdirHandle. rewrite (bind_Ret _ _ c tt c eq_refl). cbv zeta. rewrite Hver, (bind_Ret _ _ c tt c eq_refl).
  rewrite (bind_Ret _ _ c r (mkCluster s' (cl_workers c))) by (unfold on_cn, FALCON_CN_SERVER_ID; by rewrite E).
  rewrite Hc, Htg. rewrite (bind_Ret _ _ _ tt (mkCluster (with_dirs s' (delete (p, n) (pp_dir s'))) (cl_workers c)))
    by (unfold cn_dirs, on_cn, on_dir, dir_delete; cbn; by rewrite Hid').
  rewrite (bind_Ret (gets all_workers) _ _ _ _ eq_refl). cbn [entry_key fst] in Hl |- *.
  set (c1 := mkCluster (with_dirs _ _) _). by rewrite (bind_Ret _ _ c1 (sh, w) c1) by (unfold search_shard; by rewrite Hl).
Qed.

Lemma check_empty_runs (local d : Z) (shards : list (Z * Z)) (s : worker) :
  (forall sh, (sh, local) ∈ shards -> exists rows, wk_inodes s !! sh = Some rows /\ scan sg name_le NEW_SHARD d EmptyString rows = []) ->
  check_empty sg name_le local d shards s = Ret tt s.
Proof.
  induction shards as [|[sh w] shards IH]; intros H; cbn [check_empty]; [done|].
  destruct (Z.eqb_spec w local) as [->|Hne]; cbn [negb].
  - destruct (H sh) as (rows & Hr & Hs); [left|]. rewrite (bind_Ret get _ s s s eq_refl), Hr, Hs, (bind_Ret _ _ s tt s eq_refl).
    apply IH. intros sh' Hin. apply H. by right.
  - apply IH. intros sh' Hin. apply H. by right.
Qed.

Lemma check_empty_fuel (local d : Z) (shards : list (Z * Z)) (s : worker) : check_empty sg name_le local d shards s <> OutOfFuel.
Proof.
  induction shards as [|[sh w] shards IH]; cbn [check_empty]; [done|]. destruct (negb (w =? local)); [exact IH|].
  rewrite (bind_Ret get _ s s s eq_refl). destruct (wk_inodes s !! sh) as [rows|]; [|done].
  unfold raise_unless, mbind, cmd_bind. by destruct (bool_decide _).
Qed.

Lemma SubRmdir_fuel (local p : Z) (n : string) (s : worker) : FalconRmdirSubRmdirHandle sg name_le local p n s <> OutOfFuel.
Proof.
  unfold FalconRmdirSubRmdirHandle. rewrite (bind_Ret (gets _) _ s _ s eq_refl). unfold raise_unless, mbind, cmd_bind.
  destruct (negb _); [|done]. cbn. unfold wk_on_dirs, dir_delete. destruct (wk_dirs s !! (p, n)); [|done]. apply check_empty_fuel.
Qed.

(** Every shard of the shard table has its table of rows on its worker. *)
Definition shards_open (c : cluster) : Prop :=
  forall sh w, (sh, w) ∈ ss_rows -> exists s, cl_workers c !! w = Some s /\ is_Some (wk_inodes s !! sh).

(** The rows that are scanned are those of the directory. *)
Lemma scan_empty (c : cluster) (id sh w : Z) (s : worker) (rows : gmap (Z * string) inode_row) :
  cluster_ok sg c -> (forall m, inode_at c (entry_key sg id m) = None) -> cl_workers c !! w = Some s ->
  wk_inodes s !! sh = Some rows -> scan sg name_le NEW_SHARD id EmptyString rows = [].
Proof.
  intros Hok He Hs Hr. destruct (scan _ _ _ _ _ _) as [|[k r] l] eqn:Es; [done|].
  assert ((k, r) ∈ scan sg name_le NEW_SHARD id EmptyString rows) as [Hk Hkr]%scan_elem by (rewrite Es; left).
  assert (find_row (wk_inodes s) sh k = Some r) as Hf by (unfold find_row; by rewrite Hr).
  pose proof (ck_placed _ _ Hok _ _ _ _ _ Hs Hf) as Hl. rewrite <- (inode_at_row c k sh w s Hl Hs) in Hf.
  destruct (ro_row _ _ _ (ck_rows _ _ Hok) _ _ Hf) as (q & m & -> & _).
  cbn [scan_keys entry_key fst] in Hk. apply andb_true_iff in Hk as [H1%Z.leb_le H2%Z.leb_le].
  assert (entry_key sg q m = entry_key sg id m) as E; [|by rewrite E, He in Hf]. unfold entry_key. f_equal.
  apply CombineParentIdWithPartId_between; [apply HashPartId_range|done].
Qed.

Lemma SubRmdir_runs (c : cluster) (p : Z) (n : string) (id w : Z) (s : worker) :
  cluster_ok sg c -> shards_open c -> cn_table c !! (p, n) = Some id -> (forall m, inode_at c (entry_key sg id m) = None) ->
  cl_workers c !! w = Some s -> exists s', FalconRmdirSubRmdirHandle sg name_le w p n s = Ret tt s'.
Proof.
  intros Hok Hopen Hid He Hs. rewrite <- (ck_replicas _ _ Hok w s Hs) in Hid.
  assert (table_view (wk_dirs s) p n = id) as Hv by (unfold table_view; by rewrite Hid).
  unfold FalconRmdirSubRmdirHandle. rewrite (bind_Ret (gets _) _ s id s) by (unfold gets; by rewrite Hv).
  rewrite (bind_Ret _ _ s tt s).
  2:{ rewrite (proj2 (Z.eqb_neq _ _)); [done|]. eapply id_exists, (do_id _ (ck_dirs _ _ Hok)). by rewrite <- (ck_replicas _ _ Hok w s Hs). }
  rewrite (bind_Ret _ _ s tt (mkWorker (delete (p, n) (wk_dirs s)) (wk_inodes s))).
  2:{ unfold wk_on_dirs, dir_delete. by rewrite Hid. }
  eexists. apply check_empty_runs. cbn [wk_inodes]. intros sh Hin. destruct (Hopen sh w Hin) as (s0 & Hs0 & rows & Hr).
  rewrite Hs in Hs0. injection Hs0 as <-. exists rows. split; [done|]. by eapply scan_empty.
Qed.

Lemma SubUnlink_runs (v : Z) (n : string) (sh w : Z) (s : worker) (r : inode_row) :
  ss_lookup v = Some (sh, w) -> find_row (wk_inodes s) sh (v, n) = Some r -> st_nlink r = 2 ->
  exists s', FalconRmdirSubUnlinkHandle w v n s = Ret tt s'.
Proof.
  intros Hl Hf Hn. unfold find_row in Hf. destruct (wk_inodes s !! sh) as [rows|] eqn:Et; [|done]. cbn in Hf.
  unfold FalconRmdirSubUnlinkHandle. rewrite (bind_Ret _ _ s (sh, w) s) by (unfold search_shard; by rewrite Hl).
  rewrite (bind_Ret _ _ s tt s) by (cbn; by rewrite Z.eqb_refl).
  rewrite (bind_Ret _ _ s (Some (r, true)) (mkWorker (wk_dirs s) (<[sh := delete (v, n) rows]> (wk_inodes s)))).
  - eexists. by rewrite Hn.
  - unfold wk_on_inodes, SearchAndUpdateInodeTableInfo. cbn [fst]. rewrite Et, Hf.
    unfold wrong_type, removes, needs_update, rmdir_args. cbn. by rewrite Hn.
Qed.

(** Rmdir of an empty directory. *)
Lemma rmdir_succeeds (path : string) (c : cluster) (p : Z) (n : string) (id : Z) :
  cluster_ok sg c -> shards_open c -> pp_tree (cl_pp c) = ∅ -> absolute path -> path <> ROOT_NAME ->
  target_of (table_view (cn_table c)) path = Some (p, n) -> cn_table c !! (p, n) = Some id ->
  (forall m, inode_at c (entry_key sg id m) = None) ->
  exists c', FalconRmdirHandle sg name_le FALCON_CN_SERVER_ID path c = Ret tt c'.
Proof.
  intros Hok Hopen Htree Habs Hroot Ht Hid He.
  destruct (ro_dir _ _ _ (ck_rows _ _ Hok) _ _ _ Hid) as (r & Hr & Hdir & _).
  destruct (ro_row _ _ _ (ck_rows _ _ Hok) _ _ Hr) as (_ & _ & _ & _ & Hn & _). unfold link_ok in Hn.
  unfold inode_at in Hr. destruct (ss_lookup (entry_key sg p n).1) as [[sh w]|] eqn:Hl; [|done].
  destruct (rmdir_begins path c p n id sh w Hok Htree Habs Hroot Ht Hid Hl) as (c1 & Ew & ->).
  destruct (on_workers_runs (all_workers c1) (fun w => FalconRmdirSubRmdirHandle sg name_le w p n) c1) as [c2 E2].
  { apply all_workers_NoDup. }
  { intros w' [s Hs]%all_workers_elem. rewrite Ew in Hs. destruct (SubRmdir_runs c p n id w' s Hok Hopen Hid He Hs) as [s' E].
    exists s, s'. by rewrite Ew. }
  rewrite (bind_Ret _ _ _ _ _ E2). apply on_workers_Ret in E2 as [_ Hw]; [|apply all_workers_NoDup]. specialize (Hw w).
  destruct (cl_workers c !! w) as [s|] eqn:Hs; [|done]. cbn in Hr.
  rewrite decide_True in Hw by (rewrite all_workers_elem, Ew, Hs; eauto). destruct Hw as (s0 & s1 & Hs0 & E & Hs1).
  rewrite Ew, Hs in Hs0. injection Hs0 as <-. apply SubRmdir_Ret in E as (_ & _ & _ & Hi & _).
  destruct (SubUnlink_runs (entry_key sg p n).1 n sh w s1 r Hl) as [s2 E2]; [by rewrite Hi| |eexists; by apply (on_worker_runs w _ c2 s1 s2)].
  rewrite Hn. unfold S_ISREG, S_ISDIR in *. apply Z.eqb_eq in Hdir. by rewrite Hdir.
Qed.

(** Rmdir of a directory with an entry. *)
Lemma rmdir_fails (path : string) (c : cluster) (p : Z) (n : string) (id : Z) (m : string) (r : inode_row) :
  cluster_ok sg c -> pp_tree (cl_pp c) = ∅ -> absolute path -> path <> ROOT_NAME ->
  target_of (table_view (cn_table c)) path = Some (p, n) -> cn_table c !! (p, n) = Some id ->
  inode_at c (entry_key sg id m) = Some r ->
  exists c', FalconRmdirHandle sg name_le FALCON_CN_SERVER_ID path c = Raise REMOTE_QUERY_FAILED c'.
Proof.
  intros Hok Htree Habs Hroot Ht Hid He.
  destruct (ro_dir _ _ _ (ck_rows _ _ Hok) _ _ _ Hid) as (r' & Hr & _).
  unfold inode_at in Hr. destruct (ss_lookup (entry_key sg p n).1) as [[sh w]|] eqn:Hl; [|done].
  destruct (rmdir_begins path c p n id sh w Hok Htree Habs Hroot Ht Hid Hl) as (c1 & Ew & ->).
  destruct (on_workers_fails (all_workers c1) (fun w => FalconRmdirSubRmdirHandle sg name_le w p n) c1) as [[c2 E2]|[c2 E2]].
  { intros w'. by rewrite all_workers_elem. }
  { intros. apply SubRmdir_fuel. }
  - exfalso. apply on_workers_Ret in E2 as [_ Hw]; [|apply all_workers_NoDup]. unfold inode_at in He.
    destruct (ss_lookup (entry_key sg id m).1) as [[sh' w']|] eqn:Hl'; [|done]. specialize (Hw w').
    destruct (cl_workers c !! w') as [s|] eqn:Hs; [|done]. cbn in He.
    rewrite decide_True in Hw by (rewrite all_workers_elem, Ew, Hs; eauto). destruct Hw as (s0 & s1 & Hs0 & E & _).
    rewrite Ew, Hs in Hs0. injection Hs0 as <-. apply SubRmdir_Ret in E as (id' & Hid' & _ & _ & Hno).
    rewrite (ck_replicas _ _ Hok w' s Hs), Hid in Hid'. injection Hid' as <-.
    rewrite Hno in He; [done|]. by eapply ss_lookup_row.
  - exists c2. unfold mbind, cmd_bind. by rewrite E2.
Qed.

(** C7: rmdir removes an empty directory and refuses any other.  For an
    existing directory other than the root: if no row has it as parent, on
    whichever worker, rmdir succeeds, and its entry is gone from the tables of
    all servers, its row from its worker, and nothing else has changed; if some
    row does, rmdir fails with the error of the worker that found it, and all
    servers are as before. *)
Theorem FalconRmdirHandle_correct (path : string) (c : cluster) (p : Z) (n : string) (id : Z) :
  cluster_ok sg c -> shards_open c -> absolute path -> path <> ROOT_NAME ->
  target_of (table_view (cn_table c)) path = Some (p, n) -> cn_table c !! (p, n) = Some id ->
  ((forall m, inode_at c (entry_key sg id m) = None) ->
   exists c', transaction (FalconRmdirHandle sg name_le FALCON_CN_SERVER_ID path) c = Ret tt c' /\
     cn_table c' = delete (p, n) (cn_table c) /\
     (forall w s', cl_workers c' !! w = Some s' -> wk_dirs s' = cn_table c') /\
     forall k, inode_at c' k = if decide (k = entry_key sg p n) then None else inode_at c k) /\
  forall m r, inode_at c (entry_key sg id m) = Some r ->
   exists c', transaction (FalconRmdirHandle sg name_le FALCON_CN_SERVER_ID path) c = Raise REMOTE_QUERY_FAILED c' /\
     cn_table c' = cn_table c /\ cl_workers c' = cl_workers c.
Proof.
  intros Hok Hopen Habs Hroot Ht Hid. apply started_ok in Hok. split.
  - intros He. destruct (rmdir_succeeds path (started c) p n id) as [c1 E]; try done.
    exists (started c1). split; [by apply transaction_Ret|].
    apply rmdir_Ret in E as (p' & n' & id' & Ht' & _ & Hid' & Ed & Hw); [|done].
    change (cn_table (started c)) with (cn_table c) in *. rewrite Ht in Ht'. injection Ht' as <- <-.
    rewrite Hid in Hid'. injection Hid' as <-. split; [done|]. split; [|exact (proj2 (rmdir_rows _ p n id (started c) c1 Hok Hid Hw))].
    intros w s' Hs'. specialize (Hw w). cbn [cl_workers started] in Hs', Hw. rewrite Hs' in Hw. unfold dir_removed in Hw.
    destruct (cl_workers c !! w) as [s|] eqn:Hs; [|done]. destruct Hw as (_ & _ & -> & _).
    rewrite (ck_replicas _ _ Hok w s Hs). symmetry. exact Ed.
  - intros m r He. destruct (rmdir_fails path (started c) p n id m r) as [c1 E]; try done. by eapply transaction_Raise.
Qed.

(** *** Mkdir *)

Context (now : Z) (pg_qsort : list MetaProcessInfo -> list MetaProcessInfo) (hash_order : list Z -> list Z).
Context (pg_qsort_perm : forall l, pg_qsort l ≡ₚ l) (hash_order_perm : forall l, hash_order l ≡ₚ l).

Lemma mkdir_verify_one (i : MetaProcessInfo) :
  absolute (mi_path i) ->
  verify_paths pg_qsort VERIFY_PATH_VALIDITY_REQUIREMENT_MUST_BE_DIRECTORY [i] = [with_error SUCCESS i].
Proof.
  intros H. unfold verify_paths. cbn [fmap list_fmap].
  assert ((VerifyPathValidity (mi_path i) VERIFY_PATH_VALIDITY_REQUIREMENT_MUST_BE_DIRECTORY).1 = SUCCESS) as ->.
  { unfold VerifyPathValidity. rewrite bool_decide_eq_true_2 by done. cbn [negb]. by destruct (bool_decide _). }
  apply Permutation_singleton_r, pg_qsort_perm.
Qed.

(** The entry of a new directory. *)
Definition mkdir_entry (p : Z) (n : string) (id : Z) (i : MetaProcessInfo) : MetaProcessInfo :=
  with_row (mkRow id 0 (Z.lor S_IFDIR 0x1ED) 0 0 0 0 0 0 0 0 now 0 EmptyString 0 0 0)
    (with_target p (CombineParentIdWithPartId p (HashPartId sg n)) n i).

Lemma mkdir_parse_runs (i : MetaProcessInfo) (c : cluster) (p : Z) (n : string) :
  mi_errorCode i = SUCCESS -> absolute (mi_path i) -> pp_tree (cl_pp c) = ∅ ->
  target_of (table_view (cn_table c)) (mi_path i) = Some (p, n) -> cn_table c !! (p, n) = None ->
  exists v c1, GetNextSequenceNum (pp_nextval (cl_pp c)) (pp_seq (cl_pp c)) = (v, pp_nextval (cl_pp c1), pp_seq (cl_pp c1)) /\
    cl_workers c1 = cl_workers c /\
    mkdir_parse sg now 0 [i] c = Ret [(mkdir_entry p n (GenerateInodeIdBySeqAndNodeId v 0) i, true)] c1.
Proof.
  intros He Habs Htree Ht Hno. destruct (parse_mkdir 0 (mi_path i) (st_ino (mi_row i)) (cl_pp c) Habs) as (r & s' & E & Hsucc & Hr).
  { by rewrite Htree. }
  rewrite (Hsucc p n Ht) in Hr by (unfold table_view; change (pp_dir (cl_pp c)) with (cn_table c); by rewrite Hno).
  destruct Hr as (p' & n' & v & Hv & -> & Ht' & _). change (view_of (cl_pp c)) with (table_view (cn_table c)) in Ht'.
  rewrite Ht in Ht'. injection Ht' as <- <-. pose proof (parse_keeps _ _ _ _ _ _ _ E) as Hd.
  set (id := GenerateInodeIdBySeqAndNodeId v 0) in *.
  exists v, (mkCluster (with_dirs s' (<[(p, n) := id]> (pp_dir s'))) (cl_workers c)). split; [done|]. split; [done|].
  cbn [mkdir_parse]. rewrite He, bool_decide_eq_true_2 by done. cbn [negb].
  rewrite (bind_Ret _ _ c (mkdir_entry p n id i, true) (mkCluster (with_dirs s' (<[(p, n) := id]> (pp_dir s'))) (cl_workers c))); [done|].
  rewrite (bind_Ret _ _ c _ (mkCluster s' (cl_workers c))) by (unfold on_cn; by rewrite E). cbn [r_code r_target r_inode].
  rewrite (bind_Ret _ _ _ tt (mkCluster (with_dirs s' (<[(p, n) := id]> (pp_dir s'))) (cl_workers c))); [done|].
  unfold cn_dirs, on_cn, on_dir, dir_insert, tuple_insert. cbn. rewrite Hd.
  change (pp_dir (cl_pp c)) with (cn_table c). by rewrite Hno.
Qed.

(** The number of a key is not the one that stands for no number. *)
Lemma entry_key_valid (next : Z) (q : seq_cache) (D : gmap (Z * string) Z) (p : Z) (n : string) :
  seq_ok next q D -> dirs_ok D -> parent_entry D p n -> p <> u64 (-1) /\ (entry_key sg p n).1 <> u64 (-1).
Proof.
  intros Hs HD Hp. pose proof (parent_range _ _ _ HD Hp) as Hr. pose proof (HashPartId_range sg n) as Hn.
  change (u64 (-1)) with (2 ^ 64 - 1). split; [lia|]. unfold entry_key. cbn [fst].
  rewrite CombineParentIdWithPartId_add by done.
  assert (exists v, p = v * 2 ^ 12) as [v ->].
  { destruct Hp as [[-> _]|[k Hk]]; [by exists 0|]. destruct (so_taken _ _ _ Hs k p Hk) as (v & -> & _). eauto. }
  unfold wrap. rewrite Z.mod_small by lia. lia.
Qed.

(** The workers' part of the mkdir of one directory. *)
Lemma SubMkdir_runs (e : MetaProcessInfo) (s : worker) :
  mi_parentId e <> u64 (-1) -> wk_dirs s !! (mi_parentId e, mi_name e) = None ->
  exists s', FalconMkdirSubMkdirHandle [e] s = Ret tt s'.
Proof.
  intros Hp Hno. cbn [FalconMkdirSubMkdirHandle].
  rewrite (bind_Ret _ _ s tt s) by (by rewrite (proj2 (Z.eqb_neq _ _) Hp)). eexists.
  rewrite (bind_Ret _ _ s tt (mkWorker (<[(mi_parentId e, mi_name e) := st_ino (mi_row e)]> (wk_dirs s)) (wk_inodes s))); [done|].
  unfold wk_on_dirs, dir_insert, tuple_insert. by rewrite Hno.
Qed.

Lemma SubCreate_one (e : MetaProcessInfo) (s : worker) (sh w : Z) :
  st_ino (mi_row e) <> u64 (-1) -> mi_parentId_partId e <> u64 (-1) -> ss_lookup (mi_parentId_partId e) = Some (sh, w) ->
  FalconMkdirSubCreateHandle hash_order w [e] s = (_ ← wk_on_inodes (InsertIntoInodeTable sh (info_key e) (mkdir_row e)); mret tt) s.
Proof.
  intros Hi Hv Hl. unfold FalconMkdirSubCreateHandle.
  rewrite (bind_Ret _ _ s [(e, sh)] s).
  - assert (hash_order [sh] = [sh]) as Eh by apply Permutation_singleton_r, hash_order_perm.
    change (remove_dups [(e, sh)].*2) with [sh]. rewrite Eh. cbn [fmap list_fmap]. rewrite filter_cons_True by done. done.
  - cbn [sub_create_shards]. rewrite (bind_Ret _ _ s tt s) by
      (by rewrite (proj2 (Z.eqb_neq _ _) Hi), (proj2 (Z.eqb_neq _ _) Hv)).
    rewrite (bind_Ret _ _ s (sh, w) s) by (unfold search_shard; by rewrite Hl). cbn [snd fst].
    by rewrite Z.eqb_refl.
Qed.

(** The handler up to the rows: the directory is entered on all servers. *)
Lemma mkdir_begins (i : MetaProcessInfo) (c : cluster) (p : Z) (n : string) (sh w : Z) :
  cluster_ok sg c -> pp_tree (cl_pp c) = ∅ -> absolute (mi_path i) -> pp_nextval (cl_pp c) + 32 <= 2 ^ 39 ->
  target_of (table_view (cn_table c)) (mi_path i) = Some (p, n) -> cn_table c !! (p, n) = None ->
  ss_lookup (entry_key sg p n).1 = Some (sh, w) ->
  exists e c2, let id := st_ino (mi_row e) in
    mi_path e = mi_path i /\ mi_errorCode e = SUCCESS /\ info_key e = entry_key sg p n /\ mi_parentId e = p /\ mi_name e = n /\
    (forall k, cn_table c !! k <> Some id) /\ pp_nextval (cl_pp c2) <= 2 ^ 39 /\
    (forall w s, cl_workers c !! w = Some s -> exists s2, cl_workers c2 !! w = Some s2 /\ wk_inodes s2 = wk_inodes s) /\
    FalconMkdirHandle sg now pg_qsort hash_order 0 [i] c =
      (_ ← on_worker w (wk_on_inodes (InsertIntoInodeTable sh (entry_key sg p n) (mkdir_row e))); mret [e]) c2.
Proof.
  intros Hok Htree Habs Hmax Ht Hno Hl.
  destruct (mkdir_parse_runs (with_error SUCCESS i) c p n eq_refl Habs Htree Ht Hno) as (v & c1 & Hv & Ew & E1).
  destruct (entry_key_valid _ _ _ p n (ck_seq _ _ Hok) (ck_dirs _ _ Hok)) as [Hp Hk].
  { by eapply (target_of_parent _ (mi_path i)). }
  assert (pp_nextval (cl_pp c1) <= 2 ^ 39) as Hmax1.
  { revert Hv. unfold GetNextSequenceNum, SEQUENCE_BLOCK. destruct (_ =? 0); intros [= _ <- _]; lia. }
  destruct (seq_ok_next _ _ _ _ _ _ (ck_seq _ _ Hok) Hv Hmax1) as (Hid & Hfresh & _).
  set (id := GenerateInodeIdBySeqAndNodeId v 0) in *. set (e := mkdir_entry p n id (with_error SUCCESS i)) in *.
  destruct (on_workers_runs (all_workers c1) (fun _ => FalconMkdirSubMkdirHandle [e]) c1) as [c2 E2].
  { apply all_workers_NoDup. }
  { intros w' [s Hs]%all_workers_elem. pose proof Hs as Hs0. rewrite Ew in Hs0.
    destruct (SubMkdir_runs e s Hp) as [s' E]; [by rewrite (ck_replicas _ _ Hok w' s Hs0)|]. by exists s, s'. }
  pose proof (on_workers_Ret _ _ _ _ _ E2 (all_workers_NoDup _)) as [Epp Hw].
  exists e, c2. cbv zeta. do 5 (split; [done|]). split; [done|]. split; [by rewrite Epp|]. split.
  - intros w' s Hs. rewrite <- Ew in Hs. specialize (Hw w'). rewrite decide_True in Hw by (rewrite all_workers_elem; eauto).
    destruct Hw as (s0 & s2 & Hs0 & E & Hs2). rewrite Hs in Hs0. injection Hs0 as <-. exists s2. split; [done|].
    by apply SubMkdir_Ret in E as [? _].
  - unfold FalconMkdirHandle. rewrite (bind_Ret _ _ c tt c eq_refl), mkdir_verify_one by done.
    rewrite (bind_Ret _ _ c _ c1 E1). cbv zeta. rewrite filter_cons_True by done. cbn [filter list_filter fmap list_fmap fst].
    rewrite (bind_Ret (gets all_workers) _ _ _ _ eq_refl), (bind_Ret _ _ c1 [(e, w)] c1).
    2:{ cbn [mkdir_places]. by rewrite (bind_Ret _ _ c1 (sh, w) c1) by (unfold search_shard; change (mi_parentId_partId e) with (entry_key sg p n).1; by rewrite Hl). }
    rewrite (bind_Ret _ _ c1 tt c2 E2). change (remove_dups [(e, w)].*2) with [w].
    assert (hash_order [w] = [w]) as -> by apply Permutation_singleton_r, hash_order_perm.
    cbn [on_workers]. rewrite filter_cons_True by done. cbn [filter list_filter fmap list_fmap fst].
    unfold mbind, cmd_bind, on_worker. destruct (cl_workers c2 !! w) as [s|]; [|done].
    rewrite (SubCreate_one e s sh w) by (done || (change (u64 (-1)) with (2 ^ 64 - 1); cbn; lia)).
    unfold mbind, cmd_bind. by destruct (wk_on_inodes _ s).
Qed.

(** C8: mkdir of one path makes one directory.  For a path whose parent exists
    and leads to no directory: if no file has the name either, mkdir reports
    success, the directory has a number no directory had before, its entry is
    in the tables of all servers and its row on the worker of its shard, and
    nothing else has changed; if a file has the name, mkdir fails and all
    servers are as before. *)
Theorem FalconMkdirHandle_correct (i : MetaProcessInfo) (c : cluster) (p : Z) (n : string) (sh w : Z) :
  cluster_ok sg c -> absolute (mi_path i) -> pp_nextval (cl_pp c) + 32 <= 2 ^ 39 ->
  target_of (table_view (cn_table c)) (mi_path i) = Some (p, n) -> cn_table c !! (p, n) = None ->
  ss_lookup (entry_key sg p n).1 = Some (sh, w) ->
  (inode_at c (entry_key sg p n) = None ->
   exists e c', transaction (FalconMkdirHandle sg now pg_qsort hash_order FALCON_CN_SERVER_ID [i]) c = Ret [e] c' /\
     mi_errorCode e = SUCCESS /\ (forall k, cn_table c !! k <> Some (st_ino (mi_row e))) /\
     cn_table c' = <[(p, n) := st_ino (mi_row e)]> (cn_table c) /\
     (forall w s', cl_workers c' !! w = Some s' -> wk_dirs s' = cn_table c') /\
     forall k, inode_at c' k = if decide (k = entry_key sg p n) then Some (mkdir_row e) else inode_at c k) /\
  forall r, inode_at c (entry_key sg p n) = Some r ->
   exists c', transaction (FalconMkdirHandle sg now pg_qsort hash_order FALCON_CN_SERVER_ID [i]) c = Raise REMOTE_QUERY_FAILED c' /\
     cn_table c' = cn_table c /\ cl_workers c' = cl_workers c.
Proof.
  intros Hok Habs Hmax Ht Hno Hl. apply started_ok in Hok.
  destruct (mkdir_begins i (started c) p n sh w) as (e & c2 & _ & He & Hkey & Hp & Hn & Hfresh & Hmax2 & Hws & E); try done.
  destruct (ck_tables _ _ Hok _ _ _ Hl) as (s & Hs & rows & Hrows). destruct (Hws w s Hs) as (s2 & Hs2 & Hi2).
  unfold mbind, cmd_bind, on_worker in E. rewrite Hs2 in E. unfold wk_on_inodes, InsertIntoInodeTable in E. rewrite Hi2, Hrows in E.
  assert (inode_at c (entry_key sg p n) = rows !! entry_key sg p n) as Hat.
  { rewrite <- inode_at_started, (inode_at_row (started c) _ sh w s Hl Hs). unfold find_row. by rewrite Hrows. }
  rewrite Hat. unfold tuple_insert in E. split.
  - intros Hr. rewrite Hr in E. apply transaction_Ret in E as Et. eexists e, _. split; [exact Et|]. split; [done|]. split; [done|].
    destruct (mkdir_Ret _ _ _ _ pg_qsort_perm hash_order_perm _ _ _ _ _ Hok eq_refl E Hmax2) as [_ _ Hadd _ [pl Hwk] Hrow].
    assert (succeeded [e] = [e]) as Esucc by (unfold succeeded; by rewrite filter_cons_True).
    rewrite Esucc in *. change (cn_table (started c)) with (cn_table c) in *.
    assert (added (cn_table c) (<[(p, n) := st_ino (mi_row e)]> (cn_table c)) (new_dir <$> [e])) as Hadd1.
    { cbn. unfold new_dir. rewrite Hp, Hn. apply added_cons; [done|apply added_nil]. }
    split; [exact (added_det _ _ _ _ Hadd Hadd1)|]. split.
    + intros w' s' Hs'. specialize (Hwk w'). cbn [cl_workers started] in Hs', Hwk. rewrite Hs' in Hwk.
      destruct (cl_workers c !! w') as [s0|] eqn:Es0; [|done]. destruct Hwk as [Ha _].
      rewrite (ck_replicas _ _ Hok w' s0 Es0) in Ha. exact (added_det _ _ _ _ Ha Hadd).
    + intros k. apply option_eq. intros r. rewrite (Hrow k r). rewrite inode_at_started. case_decide as Hk.
      * subst k. rewrite Hat, Hr. split; [intros [?|(i0 & ->%list_elem_of_singleton & _ & ->)]; done|].
        intros [= <-]. right. exists e. by rewrite list_elem_of_singleton.
      * split; [|by left]. intros [?|(i0 & ->%list_elem_of_singleton & Hk' & _)]; [done|congruence].
  - intros r Hr. rewrite Hr in E. by eapply transaction_Raise.
Qed.
End Operations.

(** ** Two workers *)

Lemma demo_made_open : shards_open demo_made.
Proof.
  intros sh w H. apply two_shards_row in H as [[-> ->]|[-> ->]].
  - destruct (cl_workers demo_made !! 1) as [s|] eqn:E; [|by vm_compute in E]. exists s. split; [done|].
    assert (bool_decide (is_Some (cl_workers demo_made !! 1 ≫= fun s => wk_inodes s !! 4095)) = true) as H%bool_decide_eq_true by (by vm_compute).
    by rewrite E in H.
  - destruct (cl_workers demo_made !! 2) as [s|] eqn:E; [|by vm_compute in E]. exists s. split; [done|].
    assert (bool_decide (is_Some (cl_workers demo_made !! 2 ≫= fun s => wk_inodes s !! INT32_MAX)) = true) as H%bool_decide_eq_true by (by vm_compute).
    by rewrite E in H.
Qed.

(** The directories no row of which is anywhere. *)
Definition no_rows_of (id : Z) (c : cluster) : Prop :=
  map_Forall (fun _ s => map_Forall (fun _ rows => map_Forall (fun (k : Z * string) (_ : inode_row) => k.1 / 2 ^ 13 <> id) rows) (wk_inodes s))
    (cl_workers c).

Lemma no_rows_empty (id : Z) (c : cluster) (m : string) :
  0 <= id < 2 ^ 51 -> no_rows_of id c -> inode_at c (entry_key true id m) = None.
Proof.
  intros Hid H. unfold inode_at, find_row. destruct (ss_lookup _) as [[sh w]|]; [|done].
  destruct (cl_workers c !! w) as [s|] eqn:Es; [|done]. cbn. destruct (wk_inodes s !! sh) as [rows|] eqn:Er; [|done]. cbn.
  destruct (rows !! _) as [r|] eqn:Ek; [|done]. destruct (H w s Es sh rows Er _ r Ek). unfold entry_key. cbn [fst].
  by apply (CombineParentIdWithPartId_split id _ Hid (HashPartId_range true m)).
Qed.

Lemma FalconRenameHandle_correct_witness :
  exists c', demo_rename "/a/b" "/abd" demo_made = Ret tt c' /\ forall w s', cl_workers c' !! w = Some s' -> wk_dirs s' = cn_table c'.
Proof.
  destruct (demo_rename "/a/b" "/abd" demo_made) as [[] c'|e c'|] eqn:E.
  - exists c'. split; [done|].
    by destruct (FalconRenameHandle_correct true FALCON_CN_SERVER_ID "/a/b" "/abd" demo_made c' tt demo_made_ok
      ltac:(by eexists) ltac:(by vm_compute) E) as (? & ? & ? & ? & ? & ? & ? & ? & ? & ? & ? & Hw).
  - exfalso. assert (match demo_rename "/a/b" "/abd" demo_made with Raise _ _ => false | _ => true end = true) as H by (by vm_compute). by rewrite E in H.
  - exfalso. assert (match demo_rename "/a/b" "/abd" demo_made with OutOfFuel => false | _ => true end = true) as H by (by vm_compute). by rewrite E in H.
Defined.

Lemma FalconRmdirHandle_correct_witness :
  (exists c', transaction (FalconRmdirHandle true String.le FALCON_CN_SERVER_ID "/a/abc") demo_made = Ret tt c' /\
    inode_at c' (entry_key true 8192 "abc") = None) /\
  exists c', transaction (FalconRmdirHandle true String.le FALCON_CN_SERVER_ID "/a") demo_made = Raise REMOTE_QUERY_FAILED c' /\
    cn_table c' = cn_table demo_made.
Proof.
  split.
  - destruct (FalconRmdirHandle_correct true String.le "/a/abc" demo_made 8192 "abc" 16384 demo_made_ok demo_made_open
      ltac:(by eexists) ltac:(done) ltac:(by vm_compute) ltac:(by vm_compute)) as [(c' & E & _ & _ & Hrows) _].
    { intros m. apply no_rows_empty; [lia|]. apply (bool_decide_unpack _). by vm_compute. }
    exists c'. split; [exact E|]. rewrite Hrows. by rewrite decide_True.
  - destruct (FalconRmdirHandle_correct true String.le "/a" demo_made 4096 "a" 8192 demo_made_ok demo_made_open
      ltac:(by eexists) ltac:(done) ltac:(by vm_compute) ltac:(by vm_compute)) as [_ H].
    destruct (inode_at demo_made (entry_key true 8192 "abc")) as [r|] eqn:Er; [|by vm_compute in Er].
    destruct (H "abc"%string r Er) as (c' & E & Ht & _). exists c'. split; [exact E|exact Ht].
Defined.

Lemma FalconMkdirHandle_correct_witness :
  exists e c', demo_mkdir ["/a/x"%string] demo_made = Ret [e] c' /\ mi_errorCode e = SUCCESS /\
    cn_table c' = <[(8192, "x"%string) := st_ino (mi_row e)]> (cn_table demo_made).
Proof.
  destruct (FalconMkdirHandle_correct true 7 (fun l => l) (fun l => l) ltac:(done) ltac:(done) (request "/a/x") demo_made 8192 "x" 4095 1
    demo_made_ok ltac:(by eexists) ltac:(by vm_compute) ltac:(by vm_compute) ltac:(by vm_compute) ltac:(by vm_compute)) as [H _].
  destruct H as (e & c' & E & He & _ & Ht & _); [by vm_compute|]. exists e, c'. split; [exact E|]. split; [exact He|exact Ht].
Defined.
