(* ===== verification/MetaSlice.v ===== *)
(** * Slices, keys and slice numbers (falcon/metadb/meta_handle.c)

    Besides the tree of files the metadata servers keep the slices of each
    chunk of a file, the slices of the values of a key-value store, and the
    counters from which the clients take slice numbers.  The first two are
    tables of the shards, found by the name of the file or by the key; the
    counters are two tables of one row. *)

From S2P Require Import FalconPrelude Catalog Placement ForeignServer ShardTable ShardService.

(** ** Slices of files *)

Record SliceInfo : Type := mkSlice {
  sl_inodeId : Z;
  sl_chunkId : Z;
  sl_sliceId : Z;
  sl_sliceSize : Z;
  sl_sliceOffset : Z;
  sl_sliceLen : Z;
  sl_sliceLoc1 : Z;
  sl_sliceLoc2 : Z;
}.

#[export] Instance SliceInfo_eq_dec : EqDecision SliceInfo.
Proof. solve_decision. Defined.

(** SliceProcessInfoData: the arrays are as long as the vectors of the message
    they point into, which need not be [sp_count]. *)
Record SliceProcessInfo : Type := mkSliceProcess {
  sp_inodeIds : list Z;
  sp_chunkIds : list Z;
  sp_sliceIds : list Z;
  sp_sliceSizes : list Z;
  sp_sliceOffsets : list Z;
  sp_sliceLens : list Z;
  sp_sliceLoc1s : list Z;
  sp_sliceloc2s : list Z;
  sp_name : string;
  sp_inputInodeid : Z;
  sp_inputChunkid : Z;
  sp_count : Z;
  sp_errorCode : FalconErrorCode;
}.

Definition with_slice_error (e : FalconErrorCode) (i : SliceProcessInfo) : SliceProcessInfo :=
  mkSliceProcess (sp_inodeIds i) (sp_chunkIds i) (sp_sliceIds i) (sp_sliceSizes i) (sp_sliceOffsets i) (sp_sliceLens i)
    (sp_sliceLoc1s i) (sp_sliceloc2s i) (sp_name i) (sp_inputInodeid i) (sp_inputChunkid i) (sp_count i) e.

Definition with_count (n : Z) (i : SliceProcessInfo) : SliceProcessInfo :=
  mkSliceProcess (sp_inodeIds i) (sp_chunkIds i) (sp_sliceIds i) (sp_sliceSizes i) (sp_sliceOffsets i) (sp_sliceLens i)
    (sp_sliceLoc1s i) (sp_sliceloc2s i) (sp_name i) (sp_inputInodeid i) (sp_inputChunkid i) n (sp_errorCode i).

(** The arrays of the answer. *)
Definition with_slices (l : list SliceInfo) (i : SliceProcessInfo) : SliceProcessInfo :=
  mkSliceProcess (sl_inodeId <$> l) (sl_chunkId <$> l) (sl_sliceId <$> l) (sl_sliceSize <$> l) (sl_sliceOffset <$> l)
    (sl_sliceLen <$> l) (sl_sliceLoc1 <$> l) (sl_sliceLoc2 <$> l) (sp_name i) (sp_inputInodeid i) (sp_inputChunkid i)
    (u32 (Z.of_nat (length l))) SUCCESS.

(** The rows of the shards of a server, in the order in which they were put. *)
Abbreviation slice_shards := (gmap Z (list SliceInfo)) (only parsing).

Section Slices.
Context {SS : ShardService} (sg : bool).
(** What is in memory behind a vector of a message. *)
Context (behind : nat -> Z).
(** The order in which the index returns rows with equal keys. *)
Context (index_order : list SliceInfo -> list SliceInfo).

Definition array_at (l : list Z) (j : nat) : Z := default (behind (j - length l)) (l !! j).

(** SearchShardInfoByShardValue(HashPartId(name)). *)
Definition name_shard {S} (name : string) : cmd S (Z * Z) :=
  match ss_lookup (HashPartId sg name) with
  | Some r => mret r
  | None => raise PROGRAM_ERROR
  end.

(** table_open of the table of a shard. *)
Definition open_shard {A} (shardId : Z) : cmd (gmap Z A) A := fun t =>
  match t !! shardId with
  | None => Raise PROGRAM_ERROR t
  | Some rows => Ret rows t
  end.

Definition slice_row (i : SliceProcessInfo) (j : nat) : SliceInfo :=
  mkSlice (array_at (sp_inodeIds i) j) (array_at (sp_chunkIds i) j) (array_at (sp_sliceIds i) j) (array_at (sp_sliceSizes i) j)
    (array_at (sp_sliceOffsets i) j) (array_at (sp_sliceLens i) j) (array_at (sp_sliceLoc1s i) j) (array_at (sp_sliceloc2s i) j).

Definition slice_rows (i : SliceProcessInfo) : list SliceInfo := slice_row i <$> seq 0 (Z.to_nat (sp_count i)).

(** [return] in the loop leaves the rest of the batch as it was. *)
Fixpoint FalconSlicePutHandle (infos : list SliceProcessInfo) : cmd slice_shards (list SliceProcessInfo) :=
  match infos with
  | [] => mret []
  | i :: infos' =>
      sw ← name_shard (sp_name i);
      if negb (sw.2 =? ss_local) then mret (with_slice_error WRONG_WORKER i :: infos')
      else
        rows ← open_shard sw.1;
        _ ← modify (fun t => <[sw.1 := rows ++ slice_rows i]> t);
        rest ← FalconSlicePutHandle infos';
        mret (with_slice_error SUCCESS i :: rest)
  end.

(** The rows under the two scan keys. *)
Definition is_slice_of (inodeId chunkId : Z) (r : SliceInfo) : Prop := sl_inodeId r = inodeId /\ sl_chunkId r = chunkId.

#[export] Instance is_slice_of_dec inodeId chunkId r : Decision (is_slice_of inodeId chunkId r).
Proof. unfold is_slice_of. apply _. Defined.

Definition slice_answer (l : list SliceInfo) (i : SliceProcessInfo) : SliceProcessInfo :=
  match l with
  | [] => with_count 0 (with_slice_error FILE_NOT_EXISTS i)
  | _ => with_slices l i
  end.

Fixpoint FalconSliceGetHandle (infos : list SliceProcessInfo) : cmd slice_shards (list SliceProcessInfo) :=
  match infos with
  | [] => mret []
  | i :: infos' =>
      sw ← name_shard (sp_name i);
      if negb (sw.2 =? ss_local) then mret (with_slice_error WRONG_WORKER i :: infos')
      else
        rows ← open_shard sw.1;
        let found := index_order (filter (is_slice_of (sp_inputInodeid i) (sp_inputChunkid i)) rows) in
        rest ← FalconSliceGetHandle infos';
        mret (slice_answer found i :: rest)
  end.

(** The scans of one batch see the rows as they were before it, and deleting a
    row a second time is an error of PostgreSQL. *)
Fixpoint slice_del (t0 : slice_shards) (infos : list SliceProcessInfo) : cmd slice_shards (list SliceProcessInfo) :=
  match infos with
  | [] => mret []
  | i :: infos' =>
      sw ← name_shard (sp_name i);
      if negb (sw.2 =? ss_local) then mret (with_slice_error WRONG_WORKER i :: infos')
      else
        let mine := is_slice_of (sp_inputInodeid i) (sp_inputChunkid i) in
        rows ← open_shard sw.1;
        let seen := filter mine (default [] (t0 !! sw.1)) in
        _ ← raise_unless (bool_decide (seen = []) || negb (bool_decide (filter mine rows = []))) UNKNOWN;
        _ ← modify (fun t => <[sw.1 := filter (fun r => ~ mine r) rows]> t);
        rest ← slice_del t0 infos';
        mret (with_slice_error SUCCESS i :: rest)
  end.

Definition FalconSliceDelHandle (infos : list SliceProcessInfo) : cmd slice_shards (list SliceProcessInfo) :=
  t0 ← get;
  slice_del t0 infos.

(** ** What the handlers do with the slices of a chunk *)

Definition slices_of (t : slice_shards) (sh inodeId chunkId : Z) : list SliceInfo :=
  filter (is_slice_of inodeId chunkId) (default [] (t !! sh)).

(** The file is of this server, whose table is there. *)
Definition served (t : slice_shards) (i : SliceProcessInfo) : Prop :=
  exists sh, ss_lookup (HashPartId sg (sp_name i)) = Some (sh, ss_local) /\ is_Some (t !! sh).

(** The message of a list of slices. *)
Definition slice_message (name : string) (l : list SliceInfo) (e : FalconErrorCode) : SliceProcessInfo :=
  mkSliceProcess (sl_inodeId <$> l) (sl_chunkId <$> l) (sl_sliceId <$> l) (sl_sliceSize <$> l) (sl_sliceOffset <$> l)
    (sl_sliceLen <$> l) (sl_sliceLoc1 <$> l) (sl_sliceLoc2 <$> l) name 0 0 (Z.of_nat (length l)) e.

Lemma array_at_fmap {A : Type} (f : A -> Z) (l : list A) (j : nat) (a : A) : l !! j = Some a -> array_at (f <$> l) j = f a.
Proof. intros H. unfold array_at. by rewrite list_lookup_fmap, H. Qed.

Lemma slice_rows_message (name : string) (l : list SliceInfo) (e : FalconErrorCode) : slice_rows (slice_message name l e) = l.
Proof.
  apply list_eq. intros j. unfold slice_rows. cbn [sp_count slice_message]. rewrite Nat2Z.id, list_lookup_fmap.
  destruct (l !! j) as [r|] eqn:E.
  - pose proof (lookup_lt_Some _ _ _ E). rewrite lookup_seq_lt by done. cbn. f_equal.
    unfold slice_row. cbn. rewrite !(array_at_fmap _ l j r E). by destruct r.
  - apply lookup_ge_None in E. by rewrite lookup_seq_ge.
Qed.

(** The shard of a file. *)
Definition shard_of_name (name : string) : option Z := fst <$> ss_lookup (HashPartId sg name).

(** The slices of a batch that go to a shard. *)
Definition put_to (sh : Z) (infos : list SliceProcessInfo) : list SliceInfo :=
  concat (slice_rows <$> filter (fun i => shard_of_name (sp_name i) = Some sh) infos).

Lemma put_to_cons (sh : Z) (i : SliceProcessInfo) (infos : list SliceProcessInfo) :
  put_to sh (i :: infos) = (if decide (shard_of_name (sp_name i) = Some sh) then slice_rows i else []) ++ put_to sh infos.
Proof. unfold put_to. rewrite filter_cons. by case_decide. Qed.

Lemma served_mono (t t' : slice_shards) (i : SliceProcessInfo) :
  (forall sh, is_Some (t !! sh) -> is_Some (t' !! sh)) -> served t i -> served t' i.
Proof. intros H (sh & Hl & Hs). exists sh. auto. Qed.

Lemma insert_tables {A : Type} (t : gmap Z A) (sh : Z) (rows rows' : A) :
  t !! sh = Some rows -> forall x, is_Some (t !! x) -> is_Some (<[sh := rows']> t !! x).
Proof. intros _ x Hx. apply lookup_insert_is_Some'. by right. Qed.

(** The common start of the handlers. *)
Lemma served_start (t : slice_shards) (i : SliceProcessInfo) :
  served t i -> exists sh rows, t !! sh = Some rows /\ shard_of_name (sp_name i) = Some sh /\
    name_shard (sp_name i) t = Ret (sh, ss_local) t /\ open_shard sh t = Ret rows t.
Proof.
  intros (sh & Hl & [rows Hr]). exists sh, rows. unfold shard_of_name, name_shard, open_shard. by rewrite Hl, Hr.
Qed.

Lemma slice_put_runs (infos : list SliceProcessInfo) (t : slice_shards) :
  Forall (served t) infos ->
  exists t', FalconSlicePutHandle infos t = Ret (with_slice_error SUCCESS <$> infos) t' /\
    (forall sh, is_Some (t !! sh) -> is_Some (t' !! sh)) /\
    forall sh, default [] (t' !! sh) = default [] (t !! sh) ++ put_to sh infos.
Proof.
  revert t. induction infos as [|i infos IH]; intros t Hs.
  { exists t. split; [done|]. split; [done|]. intros sh. by rewrite app_nil_r. }
  apply Forall_cons in Hs as [Hi Hs]. destruct (served_start t i Hi) as (sh & rows & Hr & Hsh & E1 & E2).
  set (t1 := <[sh := rows ++ slice_rows i]> t). pose proof (insert_tables t sh rows (rows ++ slice_rows i) Hr) as Hm.
  destruct (IH t1) as (t' & E & Ht & Hrows).
  { eapply Forall_impl; [exact Hs|]. intros x. by apply served_mono. }
  exists t'. cbn [FalconSlicePutHandle]. rewrite (bind_Ret _ _ _ _ _ E1). cbn [fst snd]. rewrite Z.eqb_refl. cbn [negb].
  rewrite (bind_Ret _ _ _ _ _ E2), bind_modify, (bind_Ret _ _ _ _ _ E).
  split; [done|]. split; [auto|]. intros sh'. rewrite Hrows, put_to_cons, Hsh. unfold t1.
  destruct (decide (sh' = sh)) as [->|Hne].
  - rewrite lookup_insert_eq, Hr, decide_True by done. cbn. by rewrite app_assoc.
  - rewrite lookup_insert_ne, decide_False by congruence. done.
Qed.

Context (index_order_perm : forall l, index_order l ≡ₚ l).

(** The answer to a request: the slices of the chunk, or that there is none. *)
Definition slice_answered (t : slice_shards) (i a : SliceProcessInfo) : Prop :=
  exists sh l, shard_of_name (sp_name i) = Some sh /\ l ≡ₚ slices_of t sh (sp_inputInodeid i) (sp_inputChunkid i) /\
    a = slice_answer l i.

Lemma slice_get_runs (infos : list SliceProcessInfo) (t : slice_shards) :
  Forall (served t) infos ->
  exists res, FalconSliceGetHandle infos t = Ret res t /\ Forall2 (slice_answered t) infos res.
Proof.
  induction infos as [|i infos IH]; intros Hs; [by exists []|].
  apply Forall_cons in Hs as [Hi Hs]. destruct (served_start t i Hi) as (sh & rows & Hr & Hsh & E1 & E2).
  destruct (IH Hs) as (res & E & Hall). eexists. cbn [FalconSliceGetHandle].
  rewrite (bind_Ret _ _ _ _ _ E1). cbn [fst snd]. rewrite Z.eqb_refl. cbn [negb].
  rewrite (bind_Ret _ _ _ _ _ E2). cbv zeta. rewrite (bind_Ret _ _ _ _ _ E). split; [done|]. constructor; [|done].
  eexists sh, _. split; [done|]. split; [|done]. rewrite index_order_perm. unfold slices_of. by rewrite Hr.
Qed.

(** What a batch of deletions names. *)
Definition named (sh : Z) (infos : list SliceProcessInfo) (r : SliceInfo) : Prop :=
  Exists (fun i => shard_of_name (sp_name i) = Some sh /\ is_slice_of (sp_inputInodeid i) (sp_inputChunkid i) r) infos.

#[local] Instance named_dec sh infos r : Decision (named sh infos r).
Proof. apply Exists_dec. apply _. Defined.

Definition chunk_of (i : SliceProcessInfo) : option Z * Z * Z := (shard_of_name (sp_name i), sp_inputInodeid i, sp_inputChunkid i).

Lemma slice_del_runs (infos : list SliceProcessInfo) (t0 t : slice_shards) :
  Forall (served t) infos -> NoDup (chunk_of <$> infos) ->
  (forall i sh, i ∈ infos -> shard_of_name (sp_name i) = Some sh ->
     slices_of t sh (sp_inputInodeid i) (sp_inputChunkid i) = slices_of t0 sh (sp_inputInodeid i) (sp_inputChunkid i)) ->
  exists t', slice_del t0 infos t = Ret (with_slice_error SUCCESS <$> infos) t' /\
    forall sh, default [] (t' !! sh) = filter (fun r => ~ named sh infos r) (default [] (t !! sh)).
Proof.
  revert t. induction infos as [|i infos IH]; intros t Hs Hnd Hsame.
  { exists t. split; [done|]. intros sh. rewrite filter_all; [done|]. intros r _. by intros ?%Exists_nil. }
  apply Forall_cons in Hs as [Hi Hs]. destruct (served_start t i Hi) as (sh & rows & Hr & Hsh & E1 & E2).
  rewrite fmap_cons in Hnd. apply NoDup_cons in Hnd as [Hnew Hnd].
  set (mine := is_slice_of (sp_inputInodeid i) (sp_inputChunkid i)). set (t1 := <[sh := filter (fun r => ~ mine r) rows]> t).
  destruct (IH t1) as (t' & E & Hrows).
  { eapply Forall_impl; [exact Hs|]. intros x. apply served_mono. by apply (insert_tables t sh rows). }
  { done. }
  { intros x shx Hx Hshx. rewrite <- (Hsame x shx) by (done || by right). unfold slices_of, t1.
    destruct (decide (shx = sh)) as [->|Hne]; [|by rewrite lookup_insert_ne].
    rewrite lookup_insert_eq, Hr. cbn. rewrite list_filter_filter_l; [done|]. intros r Hxr Hmine. apply Hnew.
    destruct Hxr as [H1 H2], Hmine as [H3 H4]. apply list_elem_of_fmap. exists x. split; [|done].
    unfold chunk_of. congruence. }
  exists t'. cbn [slice_del]. rewrite (bind_Ret _ _ _ _ _ E1). cbn [fst snd]. rewrite Z.eqb_refl. cbn [negb].
  cbv zeta. rewrite (bind_Ret _ _ _ _ _ E2). specialize (Hsame i sh ltac:(left) Hsh). unfold slices_of in Hsame.
  rewrite Hr in Hsame. cbn in Hsame. fold mine in Hsame |- *. rewrite <- Hsame.
  rewrite (bind_Ret _ _ t tt t) by (by destruct (bool_decide _)).
  rewrite bind_modify, (bind_Ret _ _ _ _ _ E). split; [done|].
  intros sh'. rewrite Hrows. unfold t1, named. destruct (decide (sh' = sh)) as [->|Hne].
  - rewrite lookup_insert_eq, Hr. cbn. rewrite list_filter_filter. apply list_filter_iff. intros r.
    rewrite Exists_cons, Hsh. unfold mine. tauto.
  - rewrite lookup_insert_ne by done. apply list_filter_iff. intros r. rewrite Exists_cons, Hsh.
    split; intros H1 H2; apply H1; [|by right]. destruct H2 as [[[= ->] _]|?]; done.
Qed.

Lemma put_to_messages (sh : Z) (msgs : list (string * list SliceInfo)) (e : FalconErrorCode) :
  put_to sh ((fun m => slice_message m.1 m.2 e) <$> msgs) = concat (snd <$> filter (fun m => shard_of_name m.1 = Some sh) msgs).
Proof.
  induction msgs as [|m msgs IH]; [done|]. rewrite fmap_cons, put_to_cons, IH, filter_cons.
  cbn [sp_name slice_message]. case_decide; [|done]. by rewrite slice_rows_message.
Qed.

(** The slice tables are lists of slices for each chunk of a file.  A batch
    of puts, each with vectors as long as it says, adds its slices to the chunks
    they name, in this order, and reports success for all; a batch of gets then
    returns for each request all slices of the chunk, or FILE_NOT_EXISTS if it
    has none; a batch of deletions of different chunks removes the slices of
    these chunks and no others. *)
Theorem slices_by_chunk (msgs : list (string * list SliceInfo)) (e : FalconErrorCode) (gets dels : list SliceProcessInfo) (t : slice_shards) :
  let puts := (fun m => slice_message m.1 m.2 e) <$> msgs in
  Forall (served t) puts -> Forall (served t) gets -> Forall (served t) dels -> NoDup (chunk_of <$> dels) ->
  exists t1 res t2,
    FalconSlicePutHandle puts t = Ret (with_slice_error SUCCESS <$> puts) t1 /\
    (forall sh inodeId chunkId, slices_of t1 sh inodeId chunkId = slices_of t sh inodeId chunkId ++
       filter (is_slice_of inodeId chunkId) (concat (snd <$> filter (fun m => shard_of_name m.1 = Some sh) msgs))) /\
    FalconSliceGetHandle gets t1 = Ret res t1 /\ Forall2 (slice_answered t1) gets res /\
    FalconSliceDelHandle dels t1 = Ret (with_slice_error SUCCESS <$> dels) t2 /\
    forall sh, default [] (t2 !! sh) = filter (fun r => ~ named sh dels r) (default [] (t1 !! sh)).
Proof.
  intros puts Hp Hg Hd Hnd. destruct (slice_put_runs puts t Hp) as (t1 & E1 & Ht & Hrows).
  assert (forall l, Forall (served t) l -> Forall (served t1) l) as Hmono.
  { intros l Hl. eapply Forall_impl; [exact Hl|]. intros x. by apply served_mono. }
  destruct (slice_get_runs gets t1 (Hmono _ Hg)) as (res & E2 & Hres).
  destruct (slice_del_runs dels t1 t1 (Hmono _ Hd) Hnd) as (t2 & E3 & Hleft); [done|].
  exists t1, res, t2. split; [done|]. split; [|done].
  intros sh inodeId chunkId. unfold slices_of. by rewrite Hrows, filter_app; subst puts; rewrite put_to_messages.
Qed.
End Slices.

(** ** Keys *)

Record kv_row : Type := mkKv {
  kv_valuelen : Z;
  kv_slicenum : Z;
  kv_valuekey : list Z;
  kv_location : list Z;
  kv_slicelen : list Z;
}.

(** KvMetaProcessInfoData. *)
Record KvMetaProcessInfo : Type := mkKvProcess {
  kp_userkey : string;
  kp_row : kv_row;
  kp_errorCode : FalconErrorCode;
}.

Abbreviation kv_shards := (gmap Z (gmap string kv_row)) (only parsing).

Definition with_kv_error (e : FalconErrorCode) (i : KvMetaProcessInfo) : KvMetaProcessInfo :=
  mkKvProcess (kp_userkey i) (kp_row i) e.

Section Keys.
Context {SS : ShardService} (sg : bool) (behind : nat -> Z).

(** The row that is formed: arrays of as many elements as [slicenum] says. *)
Definition kv_stored (r : kv_row) : kv_row :=
  let cut l := array_at behind l <$> seq 0 (Z.to_nat (kv_slicenum r)) in
  mkKv (kv_valuelen r) (kv_slicenum r) (cut (kv_valuekey r)) (cut (kv_location r)) (cut (kv_slicelen r)).

(** A violation of the unique index is caught and reported as success; nothing
    is written then. *)
Definition FalconKvmetaPutHandle (i : KvMetaProcessInfo) : cmd kv_shards KvMetaProcessInfo :=
  sw ← name_shard sg (kp_userkey i);
  if negb (sw.2 =? ss_local) then mret (with_kv_error WRONG_WORKER i)
  else
    rows ← open_shard sw.1;
    match rows !! kp_userkey i with
    | Some _ => mret (with_kv_error SUCCESS i)
    | None =>
        _ ← modify (fun t => <[sw.1 := <[kp_userkey i := kv_stored (kp_row i)]> rows]> t);
        mret i
    end.

Definition FalconKvmetaGetHandle (i : KvMetaProcessInfo) : cmd kv_shards KvMetaProcessInfo :=
  sw ← name_shard sg (kp_userkey i);
  if negb (sw.2 =? ss_local) then mret (with_kv_error WRONG_WORKER i)
  else
    rows ← open_shard sw.1;
    match rows !! kp_userkey i with
    | None => raise ARGUMENT_ERROR
    | Some r => mret (mkKvProcess (kp_userkey i) r (kp_errorCode i))
    end.

Definition FalconKvmetaDelHandle (i : KvMetaProcessInfo) : cmd kv_shards KvMetaProcessInfo :=
  sw ← name_shard sg (kp_userkey i);
  if negb (sw.2 =? ss_local) then mret (with_kv_error WRONG_WORKER i)
  else
    rows ← open_shard sw.1;
    match rows !! kp_userkey i with
    | None => raise ARGUMENT_ERROR
    | Some _ =>
        _ ← modify (fun t => <[sw.1 := delete (kp_userkey i) rows]> t);
        mret i
    end.

(** ** What the handlers do with a key *)

Definition kv_served (t : kv_shards) (key : string) (sh : Z) (rows : gmap string kv_row) : Prop :=
  ss_lookup (HashPartId sg key) = Some (sh, ss_local) /\ t !! sh = Some rows.

(** The arrays of a row have as many elements as it says, a 16-bit number. *)
Definition kv_row_ok (r : kv_row) : Prop :=
  in_range 16 (kv_slicenum r) /\ Z.of_nat (length (kv_valuekey r)) = kv_slicenum r /\
  Z.of_nat (length (kv_location r)) = kv_slicenum r /\ Z.of_nat (length (kv_slicelen r)) = kv_slicenum r.

Definition kv_ok (t : kv_shards) : Prop := forall sh rows key r, t !! sh = Some rows -> rows !! key = Some r -> kv_row_ok r.

Lemma kv_stored_ok (r : kv_row) : in_range 16 (kv_slicenum r) -> kv_row_ok (kv_stored r).
Proof.
  intros H. unfold kv_row_ok, kv_stored. cbn. rewrite !length_fmap, !length_seq, Z2Nat.id by (unfold in_range in H; lia). done.
Qed.

Lemma array_at_id (l : list Z) : array_at behind l <$> seq 0 (length l) = l.
Proof.
  apply list_eq. intros j. rewrite list_lookup_fmap. destruct (l !! j) as [x|] eqn:E.
  - rewrite lookup_seq_lt by (by apply lookup_lt_Some in E). cbn. unfold array_at. by rewrite E.
  - by rewrite lookup_seq_ge by (by apply lookup_ge_None).
Qed.

Lemma kv_stored_id (r : kv_row) : kv_row_ok r -> kv_stored r = r.
Proof.
  intros (_ & H1 & H2 & H3). destruct r as [vl n a b c]. unfold kv_stored. cbn in *. f_equal.
  - by rewrite <- H1, Nat2Z.id, array_at_id.
  - by rewrite <- H2, Nat2Z.id, array_at_id.
  - by rewrite <- H3, Nat2Z.id, array_at_id.
Qed.

Lemma kv_start (t : kv_shards) (key : string) (sh : Z) (rows : gmap string kv_row) :
  kv_served t key sh rows -> name_shard sg key t = Ret (sh, ss_local) t /\ open_shard sh t = Ret rows t.
Proof. intros [Hl Hr]. unfold name_shard, open_shard. by rewrite Hl, Hr. Qed.

Ltac kv_run H :=
  destruct (kv_start _ _ _ _ H) as [?E1 ?E2];
  rewrite (bind_Ret _ _ _ _ _ E1); cbn [fst snd]; rewrite Z.eqb_refl; cbn [negb]; rewrite (bind_Ret _ _ _ _ _ E2).

Lemma kv_put_runs (i : KvMetaProcessInfo) (t : kv_shards) (sh : Z) (rows : gmap string kv_row) :
  kv_served t (kp_userkey i) sh rows ->
  FalconKvmetaPutHandle i t =
    match rows !! kp_userkey i with
    | Some _ => Ret (with_kv_error SUCCESS i) t
    | None => Ret i (<[sh := <[kp_userkey i := kv_stored (kp_row i)]> rows]> t)
    end.
Proof. intros H. unfold FalconKvmetaPutHandle. kv_run H. by destruct (rows !! _). Qed.

Lemma kv_get_runs (i : KvMetaProcessInfo) (t : kv_shards) (sh : Z) (rows : gmap string kv_row) :
  kv_served t (kp_userkey i) sh rows ->
  FalconKvmetaGetHandle i t =
    match rows !! kp_userkey i with
    | Some r => Ret (mkKvProcess (kp_userkey i) r (kp_errorCode i)) t
    | None => Raise ARGUMENT_ERROR t
    end.
Proof. intros H. unfold FalconKvmetaGetHandle. kv_run H. by destruct (rows !! _). Qed.

Lemma kv_del_runs (i : KvMetaProcessInfo) (t : kv_shards) (sh : Z) (rows : gmap string kv_row) :
  kv_served t (kp_userkey i) sh rows ->
  FalconKvmetaDelHandle i t =
    match rows !! kp_userkey i with
    | Some _ => Ret i (<[sh := delete (kp_userkey i) rows]> t)
    | None => Raise ARGUMENT_ERROR t
    end.
Proof. intros H. unfold FalconKvmetaDelHandle. kv_run H. by destruct (rows !! _). Qed.

Lemma kv_served_insert (t : kv_shards) (key : string) (sh : Z) (rows rows' : gmap string kv_row) :
  kv_served t key sh rows -> kv_served (<[sh := rows']> t) key sh rows'.
Proof. intros [Hl _]. split; [done|]. apply lookup_insert_eq. Qed.

Lemma kv_ok_insert (t : kv_shards) (sh : Z) (rows rows' : gmap string kv_row) :
  kv_ok t -> t !! sh = Some rows -> (forall k r, rows' !! k = Some r -> rows !! k = Some r \/ kv_row_ok r) ->
  kv_ok (<[sh := rows']> t).
Proof.
  intros Hok Ht Hr sh' rows1 key r [[<- <-]|[_ H1]]%lookup_insert_Some H2; [|by eapply Hok].
  destruct (Hr key r H2); [by eapply Hok|done].
Qed.

(** A key is written once.  On the server of a key, a put of a value for a
    key that is free is found by the gets that follow, until a deletion frees
    the key; a put for a key that is taken reports success as well and leaves
    the first value; getting or deleting a free key is an error.  Other keys are
    not touched. *)
Theorem kvmeta_write_once (key : string) (r r' : kv_row) (e : FalconErrorCode) (t : kv_shards) (sh : Z) (rows : gmap string kv_row) :
  kv_served t key sh rows -> rows !! key = None -> kv_row_ok r ->
  let request v := mkKvProcess key v e in
  exists t1, FalconKvmetaPutHandle (request r) t = Ret (request r) t1 /\
    FalconKvmetaPutHandle (request r') t1 = Ret (with_kv_error SUCCESS (request r')) t1 /\
    FalconKvmetaGetHandle (request r') t1 = Ret (request r) t1 /\
    t1 = <[sh := <[key := r]> rows]> t /\
    FalconKvmetaDelHandle (request r') t1 = Ret (request r') t /\
    FalconKvmetaGetHandle (request r') t = Raise ARGUMENT_ERROR t /\
    FalconKvmetaDelHandle (request r') t = Raise ARGUMENT_ERROR t.
Proof.
  intros Hs Hno Hok request. exists (<[sh := <[key := r]> rows]> t).
  pose proof (kv_served_insert t key sh rows (<[key := r]> rows) Hs) as Hs1.
  rewrite (kv_put_runs (request r) t sh rows Hs), (kv_put_runs (request r') _ sh _ Hs1), (kv_get_runs (request r') _ sh _ Hs1),
    (kv_del_runs (request r') _ sh _ Hs1), (kv_get_runs (request r') t sh rows Hs), (kv_del_runs (request r') t sh rows Hs).
  cbn [kp_userkey kp_row kp_errorCode request]. rewrite Hno, lookup_insert_eq, kv_stored_id by done.
  split_and!; [done|done|done|done| |done|done]. f_equal.
  rewrite insert_insert_eq, delete_insert_id by done. by rewrite insert_id by apply Hs.
Qed.

End Keys.

(** ** Slice numbers *)

Record SliceIdProcessInfo : Type := mkSliceId {
  si_count : Z;
  si_type : Z;
  si_start : Z;
  si_end : Z;
  si_errorCode : FalconErrorCode;
}.

(** falcon_kvsliceid_table and falcon_filesliceid_table: the row of slice_id. *)
Record slice_ids : Type := mkSliceIds { kv_slice_id : option Z; file_slice_id : option Z }.

(** The numbers taken, from the row that was found. *)
Definition take_ids (row : option Z) (count : Z) : Z * Z :=
  match row with
  | Some start => (start, u64 (start + count))
  | None => (0, count)
  end.

Definition FalconFetchSliceIdHandle (i : SliceIdProcessInfo) : cmd slice_ids SliceIdProcessInfo :=
  t ← get;
  let row := if si_type i =? 0 then kv_slice_id t else file_slice_id t in
  let '(first, last) := take_ids row (si_count i) in
  _ ← put (if si_type i =? 0 then mkSliceIds (Some last) (file_slice_id t) else mkSliceIds (kv_slice_id t) (Some last));
  mret (mkSliceId (si_count i) (si_type i) first last SUCCESS).

(** *** Clients that fetch numbers at the same time

    A transaction reads the row with a snapshot and writes it later.  As long as
    another transaction has written the row and not ended, the writer waits; if
    the row has changed since the snapshot, the write is an error of PostgreSQL
    (for the first row: a violation of the unique index). *)

Record fetch_tx : Type := mkFetchTx {
  ft_row : option Z;
  ft_version : nat;
  ft_count : Z;
}.

Record fetch_state : Type := mkFetch {
  fs_row : option Z;
  fs_version : nat;
  fs_writer : option nat;
  fs_active : gmap nat fetch_tx;
  fs_done : list (Z * Z);
}.

Definition fetch_init : fetch_state := mkFetch None 0 None ∅ [].

Inductive fetch_step (s : fetch_state) : fetch_state -> Prop :=
| fetch_read t count :
    fs_active s !! t = None -> in_range 32 count ->
    fetch_step s (mkFetch (fs_row s) (fs_version s) (fs_writer s) (<[t := mkFetchTx (fs_row s) (fs_version s) count]> (fs_active s)) (fs_done s))
| fetch_write t tx :
    fs_active s !! t = Some tx -> fs_writer s = None -> ft_version tx = fs_version s ->
    fetch_step s (mkFetch (fs_row s) (fs_version s) (Some t) (fs_active s) (fs_done s))
| fetch_commit t tx a ids :
    fs_active s !! t = Some tx -> fs_writer s = Some t ->
    FalconFetchSliceIdHandle (mkSliceId (ft_count tx) 1 0 0 SUCCESS) (mkSliceIds None (ft_row tx)) = Ret a ids ->
    fetch_step s (mkFetch (file_slice_id ids) (S (fs_version s)) None (delete t (fs_active s)) ((si_start a, si_end a) :: fs_done s))
| fetch_abort t :
    fetch_step s (mkFetch (fs_row s) (fs_version s) (if decide (fs_writer s = Some t) then None else fs_writer s)
      (delete t (fs_active s)) (fs_done s)).

(** The numbers taken, each range beginning where the one before ended. *)
Fixpoint adjacent (row : option Z) (l : list (Z * Z)) : Prop :=
  match l with
  | [] => row = None
  | (a, b) :: l' =>
      row = Some b /\ exists row', adjacent row' l' /\ exists count, in_range 32 count /\ (a, b) = take_ids row' count
  end.

Record fetch_ok (s : fetch_state) : Prop := {
  fo_done : adjacent (fs_row s) (fs_done s);
  fo_fresh : forall t tx, fs_active s !! t = Some tx ->
    in_range 32 (ft_count tx) /\ (ft_version tx <= fs_version s)%nat /\ (ft_version tx = fs_version s -> ft_row tx = fs_row s);
  fo_writer : forall t, fs_writer s = Some t -> exists tx, fs_active s !! t = Some tx /\ ft_version tx = fs_version s;
}.

Lemma fetch_step_ok s s' : fetch_ok s -> fetch_step s s' -> fetch_ok s'.
Proof.
  intros [Hd Hf Hw] [t count Hno Hc|t tx Ht Hn Hv|t tx a ids Ht Hn Ha|t].
  - split; [done| |]; cbn [fs_active fs_version fs_row fs_writer].
    + intros t' tx' [[<- <-]|[_ H]]%lookup_insert_Some; [|by apply (Hf t')]. cbn. auto.
    + intros t' Ht'. destruct (Hw t' Ht') as (tx & Htx & Hv). exists tx. rewrite lookup_insert_ne; [done|]. intros ->. congruence.
  - split; [done|done|]. intros t' [= <-]. eauto.
  - destruct (Hw t Hn) as (tx0 & Htx0 & Hv). cbn in Htx0. rewrite Ht in Htx0. injection Htx0 as <-.
    destruct (Hf t tx Ht) as (Hc & _ & Hrow). split; [| |done]; cbn [fs_active fs_version fs_row fs_done].
    + unfold FalconFetchSliceIdHandle in Ha. rewrite bind_get in Ha. cbn [si_type si_count file_slice_id] in Ha.
      change (1 =? 0) with false in Ha. cbv iota in Ha. destruct (take_ids (ft_row tx) (ft_count tx)) as [first last] eqn:Ei.
      injection Ha as <- <-. split; [done|]. exists (fs_row s). split; [done|]. exists (ft_count tx). split; [done|].
      by rewrite <- Hrow.
    + intros t' tx' [_ H]%lookup_delete_Some. destruct (Hf t' tx' H) as (? & Hle & _). split; [done|]. lia.
  - split; [done| |]; cbn [fs_active fs_version fs_row fs_writer].
    + intros t' tx' [_ H]%lookup_delete_Some. by apply (Hf t').
    + intros t'. case_decide as Hd'; [done|]. intros Ht'. destruct (Hw t' Ht') as (tx & Htx & Hv). exists tx.
      rewrite lookup_delete_ne; [done|]. intros ->. done.
Qed.

(** Ranges that begin where the one before ended, without overflow. *)
Lemma adjacent_below row l :
  adjacent row l -> Forall (fun r => r.1 <= r.2) l ->
  (forall b, row = Some b -> 0 <= b) /\ (forall r b, r ∈ l -> row = Some b -> 0 <= r.1 /\ r.2 <= b) /\
  ForallOrdPairs (fun r r' => r'.2 <= r.1) l.
Proof.
  revert row. induction l as [|[a b] l IH]; intros row; cbn [adjacent].
  { intros -> _. split; [done|]. split; [by intros r b ?%elem_of_nil|constructor]. }
  intros (-> & row' & Hadj & count & Hc & E) [Hab Hl]%Forall_cons. cbn in Hab.
  destruct (IH row' Hadj Hl) as (Hpos & Hbelow & Hpairs).
  assert (0 <= a /\ forall c, row' = Some c -> a = c) as [Ha Hrow'].
  { destruct row' as [c|]; injection E as -> _; [|by split]. split; [by apply Hpos|]. by intros ? [= ->]. }
  split; [intros ? [= <-]; lia|]. split.
  - intros r b' [->|Hr]%elem_of_cons [= <-]; [cbn; lia|]. destruct row' as [c|]; [|destruct l; [by apply elem_of_nil in Hr|by destruct p as [? ?], Hadj]].
    destruct (Hbelow r c Hr eq_refl). specialize (Hrow' c eq_refl). lia.
  - constructor; [|done]. apply Forall_forall. intros r Hr. cbn.
    destruct row' as [c|]; [|destruct l; [by apply elem_of_nil in Hr|by destruct p as [? ?], Hadj]].
    destruct (Hbelow r c Hr eq_refl). specialize (Hrow' c eq_refl). lia.
Qed.

(** Slice numbers are handed out once.  However clients fetch numbers at the
    same time, whichever of their transactions are rolled back, the ranges of
    those that committed do not overlap, as long as the 64-bit counter has not
    wrapped around, that is no range ends below its beginning. *)
Theorem slice_ids_disjoint (s : fetch_state) (i j : nat) (r r' : Z * Z) (x : Z) :
  rtc fetch_step fetch_init s -> Forall (fun r => r.1 <= r.2) (fs_done s) ->
  fs_done s !! i = Some r -> fs_done s !! j = Some r' -> r.1 <= x < r.2 -> r'.1 <= x < r'.2 -> i = j.
Proof.
  intros H Hup Hi Hj Hx Hx'. assert (fetch_ok s) as [Hd _ _].
  { assert (fetch_ok fetch_init) as H0 by (split; [done|by intros ? ?|done]).
    revert H0. induction H as [|s s1 s2 Hs _ IH]; [done|]. intros H0. apply IH; [done..|]. by eapply fetch_step_ok. }
  destruct (adjacent_below _ _ Hd Hup) as (_ & _ & Hpairs). clear Hd Hup H.
  revert i j Hi Hj. induction Hpairs as [|y l Hall _ IH]; intros i j Hi Hj; [done|]. rewrite Forall_forall in Hall.
  destruct i as [|i], j as [|j]; cbn in Hi, Hj; [done| | |f_equal; by apply IH].
  - injection Hi as ->. apply list_elem_of_lookup_2, Hall in Hj. lia.
  - injection Hj as ->. apply list_elem_of_lookup_2, Hall in Hi. lia.
Qed.

(** ** A server with one shard *)

#[local] Instance slice_shard : ShardService := table_shards (fun v => v) {[ INT32_MAX := 1 ]} 1.

Definition a_slice (id : Z) : SliceInfo := mkSlice 9 0 id 100 0 100 1 (-1).
Definition of_chunk (name : string) (chunk : Z) : SliceProcessInfo := mkSliceProcess [] [] [] [] [] [] [] [] name 9 chunk 0 UNKNOWN.

Lemma slice_served (t : gmap Z (list SliceInfo)) (i : SliceProcessInfo) :
  bool_decide (ss_lookup (HashPartId true (sp_name i)) = Some (INT32_MAX, 1)) = true ->
  bool_decide (is_Some (t !! INT32_MAX)) = true -> served true t i.
Proof. intros H1%bool_decide_eq_true H2%bool_decide_eq_true. exists INT32_MAX. split; [exact H1|exact H2]. Qed.

Lemma slices_by_chunk_witness :
  exists t1 a t2, FalconSlicePutHandle true (fun _ => 0) [slice_message "f" [a_slice 1; a_slice 2] UNKNOWN] {[ INT32_MAX := [] ]} = Ret [a] t1 /\
    sp_errorCode a = SUCCESS /\ FalconSliceDelHandle true [of_chunk "f" 0; of_chunk "f" 1] t1 =
      Ret (with_slice_error SUCCESS <$> [of_chunk "f" 0; of_chunk "f" 1]) t2.
Proof.
  destruct (slices_by_chunk true (fun _ => 0) (fun l => l) ltac:(done) [("f"%string, [a_slice 1; a_slice 2])] UNKNOWN [of_chunk "f" 0]
    [of_chunk "f" 0; of_chunk "f" 1] {[ INT32_MAX := [] ]}) as (t1 & res & t2 & E1 & _ & _ & _ & E2 & _).
  - repeat constructor. apply slice_served; by vm_compute.
  - repeat constructor. apply slice_served; by vm_compute.
  - repeat constructor; apply slice_served; by vm_compute.
  - apply (bool_decide_unpack _). by vm_compute.
  - eexists t1, _, t2. split; [exact E1|]. split; [done|exact E2].
Defined.

Definition a_kv_row : kv_row := mkKv 10 2 [1; 2] [3; 4] [5; 5].

Lemma a_kv_row_ok : kv_row_ok a_kv_row.
Proof. done. Qed.

Lemma kvmeta_write_once_witness :
  exists t1, FalconKvmetaPutHandle true (fun _ => 0) (mkKvProcess "k" a_kv_row SUCCESS) {[ INT32_MAX := ∅ ]} = Ret (mkKvProcess "k" a_kv_row SUCCESS) t1 /\
    FalconKvmetaGetHandle true (mkKvProcess "k" (mkKv 0 0 [] [] []) SUCCESS) t1 = Ret (mkKvProcess "k" a_kv_row SUCCESS) t1.
Proof.
  destruct (kvmeta_write_once true (fun _ => 0) "k" a_kv_row (mkKv 0 0 [] [] []) SUCCESS {[ INT32_MAX := ∅ ]} INT32_MAX ∅) as (t1 & E1 & _ & E2 & _).
  - split; by vm_compute.
  - done.
  - exact a_kv_row_ok.
  - exists t1. split; [exact E1|exact E2].
Defined.


(** Two clients: the second begins before the first has committed and is rolled
    back, then takes numbers. *)
Lemma two_fetches : exists s, rtc fetch_step fetch_init s /\ fs_done s = [(10, 15); (0, 10)].
Proof.
  eexists. split.
  - eapply rtc_l; [by apply (fetch_read _ 0 10)|]. eapply rtc_l; [by apply (fetch_read _ 1 5)|].
    eapply rtc_l; [eapply (fetch_write _ 0); reflexivity|]. eapply rtc_l; [apply (fetch_commit _ 0 (mkFetchTx None 0 10) (mkSliceId 10 1 0 10 SUCCESS) (mkSliceIds None (Some 10))); reflexivity|].
    eapply rtc_l; [apply (fetch_abort _ 1)|]. eapply rtc_l; [by apply (fetch_read _ 1 5)|].
    eapply rtc_l; [eapply (fetch_write _ 1); reflexivity|]. eapply rtc_l; [apply (fetch_commit _ 1 (mkFetchTx (Some 10) 1 5) (mkSliceId 5 1 10 15 SUCCESS) (mkSliceIds None (Some 15))); reflexivity|]. apply rtc_refl.
  - reflexivity.
Qed.

Lemma slice_ids_disjoint_witness : exists s, fs_done s = [(10, 15); (0, 10)] /\ forall x, 10 <= x < 15 -> ~ 0 <= x < 10.
Proof.
  destruct two_fetches as (s & Hs & Hd). exists s. split; [exact Hd|]. intros x H1 H2. assert (0%nat = 1%nat) as E; [|done].
  apply (slice_ids_disjoint s 0 1 (10, 15) (0, 10) x Hs); rewrite ?Hd; try done. repeat constructor; cbn; lia.
Defined.
