(* ===== verification/ErrorCode.v ===== *)
(** * Error codes in messages (falcon/utils/error_code.c, falcon/include/utils/error_log.h)

    An error that a handler raises travels as the text of an error of
    PostgreSQL: the code is the first character of the text.  FalconErrorMsgAnalyse
    takes it out again; an error of PostgreSQL itself has a text of its own. *)

From S2P Require Import FalconPrelude.

(** The numbers of the enumeration. *)
Definition all_error_codes : list FalconErrorCode :=
  [SUCCESS; PATH_IS_INVALID; PATH_IS_ROOT; PATH_EXISTS; PATH_NOT_EXISTS; PATH_LOCK_CONFLICT; PATH_VERIFY_FAILED;
   REMOTE_TRANSFER_FAILED; WRONG_WORKER; OBSOLETE_SHARD; REMOTE_QUERY_FAILED; ARGUMENT_ERROR; INODE_ROW_TYPE_ERROR;
   FILE_EXISTS; FILE_NOT_EXISTS; OUT_OF_MEMORY; STREAM_ERROR; PROGRAM_ERROR; SMART_ROUTE_ERROR; UNDEFINED;
   MKDIR_DUPLICATE; XKEY_EXISTS; XKEY_NOT_EXISTS; VERSION_OUT_OF_DATE; INVALID_PARAMETER; UNKNOWN; SERVER_FAULT;
   ZK_NOT_CONNECT; ZK_FETCH_RESULT_FAILED; TRANSACTION_FAULT; POOLED_FAULT; NOT_FOUND_FD; GET_ALL_WORKER_CONN_FAILED;
   IO_ERROR; READDIR_RENEW_CONN; LAST_FALCON_ERROR_CODE].

Definition error_num (e : FalconErrorCode) : Z :=
  default 0 (Z.of_nat ∘ fst <$> list_find (fun e' => e' = e) all_error_codes).

(** The cast of a number to the enumeration, for the numbers that have a name. *)
Definition error_of_num (n : Z) : option FalconErrorCode :=
  if n <? 0 then None else all_error_codes !! Z.to_nat n.

Lemma error_of_error_num e : error_of_num (error_num e) = Some e.
Proof. by destruct e. Qed.

Lemma error_num_range e : 0 <= error_num e <= error_num LAST_FALCON_ERROR_CODE.
Proof. by destruct e. Qed.

(** What FALCON_ELOG_ERROR prints after the severity and two blanks, as libpq
    returns it. *)
Definition severity : string := "ERROR:  ".
Definition FALCON_ELOG_ERROR (errorCode : FalconErrorCode) (text : string) : string :=
  severity +:+ String (Ascii.ascii_of_N (Z.to_N (u8 (error_num errorCode + 64)))) (" " +:+ text).

(** The character of a string of C at an index; behind the terminating zero
    there is no string. *)
Definition char_at (s : string) (n : nat) : option Z :=
  if bool_decide (n = String.length s) then Some 0
  else (fun c => s8 (Z.of_N (Ascii.N_of_ascii c))) <$> String.get n s.

Definition str_drop (n : nat) (s : string) : string := String.substring n (String.length s - n) s.

(** The code and the text; [None] is the access behind the end of the text. *)
Definition FalconErrorMsgAnalyse (originalErrorMsg : option string) : option (FalconErrorCode * option string) :=
  match originalErrorMsg with
  | None => Some (PROGRAM_ERROR, None)
  | Some msg =>
      c ← char_at msg 8;
      if (64 <? c) && (c <? 64 + error_num LAST_FALCON_ERROR_CODE)
      then (fun e => (e, Some (str_drop 9 msg))) <$> error_of_num (c - 64)
      else Some (UNKNOWN, Some msg)
  end.

Lemma char_at_code (s : string) (c : Ascii.ascii) (rest : string) :
  String.length s = 8%nat -> char_at (s +:+ String c rest) 8 = Some (s8 (Z.of_N (Ascii.N_of_ascii c))).
Proof.
  intros Hs. unfold char_at. rewrite bool_decide_eq_false_2.
  - do 8 (destruct s as [|? s]; [done|]). by destruct s.
  - do 8 (destruct s as [|? s]; [done|]). destruct s; [|done]. intros E. discriminate E.
Qed.

(** A code that a handler raises is the one that is read. *)
Lemma error_code_roundtrip (e : FalconErrorCode) (text : string) :
  e <> SUCCESS -> e <> LAST_FALCON_ERROR_CODE ->
  exists msg, FalconErrorMsgAnalyse (Some (FALCON_ELOG_ERROR e text)) = Some (e, Some msg).
Proof.
  intros H1 H2. unfold FalconErrorMsgAnalyse, FALCON_ELOG_ERROR.
  rewrite char_at_code by done. eexists. destruct e; done.
Qed.

(** An error of PostgreSQL whose text begins with a letter up to b is taken for
    a code. *)
Lemma error_code_misread :
  FalconErrorMsgAnalyse (Some "ERROR:  attempted to delete invisible tuple"%string) =
    Some (IO_ERROR, Some "ttempted to delete invisible tuple"%string).
Proof. by vm_compute. Qed.
