(* ===== verification/MetaMessages.v ===== *)
(** * Messages (remote_connection_def/fbs, falcon/metadb/meta_serialize_interface_helper.cpp)

    Requests and answers are FlatBuffers tables, one for each item of a framed
    message (SerializedData.v).  The tables of the two schemas are the inductive
    types [AnyMetaParam] and [AnyMetaResponse]; a string or a vector that is not
    in the buffer is [None].  FlatBuffers itself is the class [FlatBuffers]: what
    is packed is verified and read back, each number at the width the schema
    gives it. *)

From S2P Require Import FalconPrelude Catalog ErrorCode SerializedData DirService PathParse InodeTable ShardService MetaFile MetaReadDir MetaSlice.

(** ** The services *)

Inductive FalconMetaServiceType : Type :=
| PLAIN_COMMAND | MKDIR | MKDIR_SUB_MKDIR | MKDIR_SUB_CREATE | CREATE | STAT | OPEN | CLOSE | UNLINK | READDIR | OPENDIR
| RMDIR | RMDIR_SUB_RMDIR | RMDIR_SUB_UNLINK | RENAME | RENAME_SUB_RENAME_LOCALLY | RENAME_SUB_CREATE | UTIMENS | CHOWN
| CHMOD | KV_PUT | KV_GET | KV_DEL | SLICE_PUT | SLICE_GET | SLICE_DEL | FETCH_SLICE_ID | NOT_SUPPORTED.

#[export] Instance FalconMetaServiceType_eq_dec : EqDecision FalconMetaServiceType.
Proof. solve_decision. Defined.

(** The numbers of the enumeration. *)
Definition all_services : list FalconMetaServiceType :=
  [PLAIN_COMMAND; MKDIR; MKDIR_SUB_MKDIR; MKDIR_SUB_CREATE; CREATE; STAT; OPEN; CLOSE; UNLINK; READDIR; OPENDIR;
   RMDIR; RMDIR_SUB_RMDIR; RMDIR_SUB_UNLINK; RENAME; RENAME_SUB_RENAME_LOCALLY; RENAME_SUB_CREATE; UTIMENS; CHOWN;
   CHMOD; KV_PUT; KV_GET; KV_DEL; SLICE_PUT; SLICE_GET; SLICE_DEL; FETCH_SLICE_ID; NOT_SUPPORTED].

(** The cast of a number to the type: [None] for the numbers without a name. *)
Definition MetaServiceTypeDecode (type : Z) : option FalconMetaServiceType :=
  if type <? 0 then None else all_services !! Z.to_nat type.

(** ** The tables *)

(** The attributes that several tables have in common. *)
Record attributes : Type := mkAttr {
  a_ino : Z;
  a_dev : Z;
  a_mode : Z;
  a_nlink : Z;
  a_uid : Z;
  a_gid : Z;
  a_rdev : Z;
  a_size : Z;
  a_blksize : Z;
  a_blocks : Z;
  a_atim : Z;
  a_mtim : Z;
  a_ctim : Z;
}.

(** The eight vectors of slices. *)
Record slice_vectors : Type := mkVectors {
  v_inodeid : option (list Z);
  v_chunkid : option (list Z);
  v_sliceid : option (list Z);
  v_slicesize : option (list Z);
  v_sliceoffset : option (list Z);
  v_slicelen : option (list Z);
  v_sliceloc1 : option (list Z);
  v_sliceloc2 : option (list Z);
}.

Inductive AnyMetaParam : Type :=
| ParamNone
| PlainCommandParam (command : option string)
| PathOnlyParam (path : option string)
| MkdirSubMkdirParam (parent_id : Z) (name : option string) (inode_id : Z)
| MkdirSubCreateParam (parent_id_part_id : Z) (name : option string) (inode_id mode mtim size : Z)
| CloseParam (path : option string) (size mtim node_id : Z)
| ReadDirParam (path : option string) (max_read_count last_shard_index : Z) (last_file_name : option string)
| RmdirSubRmdirParam (parent_id : Z) (name : option string)
| RmdirSubUnlinkParam (parent_id_part_id : Z) (name : option string)
| RenameParam (src dst : option string)
| RenameSubRenameLocallyParam (src_parent_id src_parent_id_part_id : Z) (src_name : option string)
    (dst_parent_id dst_parent_id_part_id : Z) (dst_name : option string) (target_is_directory : bool)
    (directory_inode_id src_lock_order : Z)
| RenameSubCreateParam (parentid_partid : Z) (name : option string) (a : attributes) (node_id : Z)
| UtimeNsParam (path : option string) (atim mtim : Z)
| ChownParam (path : option string) (uid gid : Z)
| ChmodParam (path : option string) (mode : Z)
| KVParam (key : option string) (value_len slice_num : Z) (value_key location size : option (list Z))
| KeyOnlyParam (key : option string)
| SliceInfoParam (filename : option string) (slicenum : Z) (v : slice_vectors)
| SliceIndexParam (filename : option string) (inodeid chunkid : Z)
| SliceIdParam (count type : Z).

Inductive AnyMetaResponse : Type :=
| ResponseNone
| PlainCommandResponse (row col : Z) (data : option (list string))
| CreateResponse (a : attributes) (node_id : Z)
| StatResponse (a : attributes)
| OpenResponse (a : attributes) (node_id : Z)
| UnlinkResponse (ino size node_id : Z)
| ReadDirResponse (last_shard_index : Z) (last_file_name : option string) (result_list : list (option string * Z))
| OpenDirResponse (ino : Z)
| RenameSubRenameLocallyResponse (a : attributes) (node_id : Z)
| GetKVMetaResponse (value_len slice_num : Z) (value_key location size : option (list Z))
| SliceInfoResponse (slicenum : Z) (v : slice_vectors)
| SliceIdResponse (startid endid : Z).

(** The root table of an answer. *)
Record MetaResponse : Type := mkResponse { error_code : Z; response : AnyMetaResponse }.

(** ** The widths of the schemas *)

Definition norm_attributes (a : attributes) : attributes :=
  mkAttr (u64 (a_ino a)) (u64 (a_dev a)) (u32 (a_mode a)) (u64 (a_nlink a)) (u32 (a_uid a)) (u32 (a_gid a)) (u64 (a_rdev a))
    (s64 (a_size a)) (s64 (a_blksize a)) (s64 (a_blocks a)) (u64 (a_atim a)) (u64 (a_mtim a)) (u64 (a_ctim a)).

Definition vector (w : Z -> Z) (v : option (list Z)) : option (list Z) := fmap (M := list) w <$> v.

Definition norm_vectors (v : slice_vectors) : slice_vectors :=
  mkVectors (vector u64 (v_inodeid v)) (vector u32 (v_chunkid v)) (vector u64 (v_sliceid v)) (vector u32 (v_slicesize v))
    (vector u32 (v_sliceoffset v)) (vector u32 (v_slicelen v)) (vector u32 (v_sliceloc1 v)) (vector u32 (v_sliceloc2 v)).

Definition norm_param (m : AnyMetaParam) : AnyMetaParam :=
  match m with
  | ParamNone | PlainCommandParam _ | PathOnlyParam _ | RenameParam _ _ | KeyOnlyParam _ => m
  | MkdirSubMkdirParam p n i => MkdirSubMkdirParam (u64 p) n (u64 i)
  | MkdirSubCreateParam v n i mode mtim size => MkdirSubCreateParam (u64 v) n (u64 i) (u32 mode) (u64 mtim) (s64 size)
  | CloseParam path size mtim node => CloseParam path (s64 size) (u64 mtim) (s32 node)
  | ReadDirParam path count shard name => ReadDirParam path (s32 count) (s32 shard) name
  | RmdirSubRmdirParam p n => RmdirSubRmdirParam (u64 p) n
  | RmdirSubUnlinkParam v n => RmdirSubUnlinkParam (u64 v) n
  | RenameSubRenameLocallyParam sp sv sn dp dv dn dir id order =>
      RenameSubRenameLocallyParam (u64 sp) (u64 sv) sn (u64 dp) (u64 dv) dn dir (u64 id) (s32 order)
  | RenameSubCreateParam v n a node => RenameSubCreateParam (u64 v) n (norm_attributes a) (s32 node)
  | UtimeNsParam path a m => UtimeNsParam path (u64 a) (u64 m)
  | ChownParam path u g => ChownParam path (u32 u) (u32 g)
  | ChmodParam path mode => ChmodParam path (u64 mode)
  | KVParam key len num k l s => KVParam key (u32 len) (u16 num) (vector u64 k) (vector u64 l) (vector u32 s)
  | SliceInfoParam name num v => SliceInfoParam name (u32 num) (norm_vectors v)
  | SliceIndexParam name i c => SliceIndexParam name (u64 i) (u32 c)
  | SliceIdParam count type => SliceIdParam (u32 count) (u8 type)
  end.

Definition norm_any_response (r : AnyMetaResponse) : AnyMetaResponse :=
  match r with
  | ResponseNone => r
  | PlainCommandResponse row col data => PlainCommandResponse (u32 row) (u32 col) data
  | CreateResponse a node => CreateResponse (norm_attributes a) (s64 node)
  | StatResponse a => StatResponse (norm_attributes a)
  | OpenResponse a node => OpenResponse (norm_attributes a) (s64 node)
  | UnlinkResponse ino size node => UnlinkResponse (u64 ino) (s64 size) (s64 node)
  | ReadDirResponse shard name l => ReadDirResponse (s32 shard) name ((fun x => (x.1, u32 x.2)) <$> l)
  | OpenDirResponse ino => OpenDirResponse (u64 ino)
  | RenameSubRenameLocallyResponse a node => RenameSubRenameLocallyResponse (norm_attributes a) (s32 node)
  | GetKVMetaResponse len num k l s => GetKVMetaResponse (u32 len) (u16 num) (vector u64 k) (vector u64 l) (vector u32 s)
  | SliceInfoResponse num v => SliceInfoResponse (u32 num) (norm_vectors v)
  | SliceIdResponse a b => SliceIdResponse (u64 a) (u64 b)
  end.

Definition norm_response (m : MetaResponse) : MetaResponse :=
  mkResponse (u32 (error_code m)) (norm_any_response (response m)).

(** What the code relies on: a finished buffer, also with the bytes that fill it
    up to the alignment, is accepted by the verifier and read back. *)
Class FlatBuffers : Type := {
  pack_param : AnyMetaParam -> list Z;
  unpack_param : list Z -> option AnyMetaParam;
  pack_response : MetaResponse -> list Z;
  unpack_response : list Z -> option MetaResponse;
  unpack_pack_param m pad : (length pad < 4)%nat -> unpack_param (pack_param m ++ pad) = Some (norm_param m);
  unpack_pack_response m pad : (length pad < 4)%nat -> unpack_response (pack_response m ++ pad) = Some (norm_response m);
}.

(** ** Reading requests *)

(** A message is read or written, refused (the answer false), or the server
    follows a null pointer or reads outside a buffer. *)
Inductive coding (A : Type) : Type :=
| Coded (a : A)
| Refused
| Crash.
Arguments Coded {A} a.
Arguments Refused {A}.
Arguments Crash {A}.

#[export] Instance coding_ret : MRet coding := fun _ a => Coded a.
#[export] Instance coding_bind : MBind coding := fun _ _ f m =>
  match m with
  | Coded a => f a
  | Refused => Refused
  | Crash => Crash
  end.

(** The characters up to the terminating zero. *)
Fixpoint c_string (s : string) : string :=
  match s with
  | EmptyString => EmptyString
  | String c s' => if bool_decide (c = Ascii.zero) then EmptyString else String c (c_string s')
  end.

(** [->c_str()] and [->data()] of a string or a vector that is not there give a
    pointer to nowhere.  The strings are read by every handler (but for the last
    name of a readdir), the vectors when they have elements. *)
Definition c_str (s : option string) : coding string :=
  match s with Some s => Coded (c_string s) | None => Crash end.
Definition data (n : Z) (v : option (list Z)) : coding (list Z) :=
  match v with
  | Some l => Coded l
  | None => if n =? 0 then Coded [] else Crash
  end.

(** MetaProcessInfoData: the fields of MetaFile.v and those of readdir and
    rename.  [md_readDirLastFileName] is [None] for a pointer to nowhere in a
    request, and for the null pointer in an answer. *)
Record MetaProcessInfoData : Type := mkData {
  md_info : MetaProcessInfo;
  md_readDirMaxReadCount : Z;
  md_readDirLastShardIndex : Z;
  md_readDirLastFileName : option string;
  md_readDirResultList : list OneReadDirResult;
  md_dstPath : string;
  md_dstParentId : Z;
  md_dstParentIdPartId : Z;
  md_dstName : string;
  md_targetIsDirectory : bool;
  md_srcLockOrder : Z;
}.

Definition with_info (f : MetaProcessInfo -> MetaProcessInfo) (d : MetaProcessInfoData) : MetaProcessInfoData :=
  mkData (f (md_info d)) (md_readDirMaxReadCount d) (md_readDirLastShardIndex d) (md_readDirLastFileName d)
    (md_readDirResultList d) (md_dstPath d) (md_dstParentId d) (md_dstParentIdPartId d) (md_dstName d)
    (md_targetIsDirectory d) (md_srcLockOrder d).

Definition set_path (path : string) (i : MetaProcessInfo) : MetaProcessInfo :=
  mkInfo path (mi_errorCode i) (mi_parentId i) (mi_parentId_partId i) (mi_name i) (mi_row i).
Definition set_key (p v : Z) (n : string) (i : MetaProcessInfo) : MetaProcessInfo :=
  mkInfo (mi_path i) (mi_errorCode i) p v n (mi_row i).
Definition set_row (f : inode_row -> inode_row) (i : MetaProcessInfo) : MetaProcessInfo :=
  mkInfo (mi_path i) (mi_errorCode i) (mi_parentId i) (mi_parentId_partId i) (mi_name i) (f (mi_row i)).

Definition row_attributes (a : attributes) (node_id : Z) (r : inode_row) : inode_row :=
  mkRow (a_ino a) (a_dev a) (a_mode a) (a_nlink a) (a_uid a) (a_gid a) (a_rdev a) (a_size a) (a_blksize a) (a_blocks a)
    (s64 (a_atim a)) (s64 (a_mtim a)) (s64 (a_ctim a)) (etag r) (update_version r) node_id (backup_nodeid r).

Definition attributes_of (r : inode_row) : attributes :=
  mkAttr (st_ino r) (st_dev r) (st_mode r) (st_nlink r) (st_uid r) (st_gid r) (st_rdev r) (st_size r) (st_blksize r)
    (st_blocks r) (st_atim r) (st_mtim r) (st_ctim r).

Definition row_ino (ino : Z) (r : inode_row) : inode_row :=
  mkRow ino (st_dev r) (st_mode r) (st_nlink r) (st_uid r) (st_gid r) (st_rdev r) (st_size r) (st_blksize r) (st_blocks r)
    (st_atim r) (st_mtim r) (st_ctim r) (etag r) (update_version r) (primary_nodeid r) (backup_nodeid r).
Definition row_times (atim mtim : Z) (r : inode_row) : inode_row :=
  mkRow (st_ino r) (st_dev r) (st_mode r) (st_nlink r) (st_uid r) (st_gid r) (st_rdev r) (st_size r) (st_blksize r) (st_blocks r)
    atim mtim (st_ctim r) (etag r) (update_version r) (primary_nodeid r) (backup_nodeid r).
Definition row_size (size : Z) (r : inode_row) : inode_row :=
  mkRow (st_ino r) (st_dev r) (st_mode r) (st_nlink r) (st_uid r) (st_gid r) (st_rdev r) size (st_blksize r) (st_blocks r)
    (st_atim r) (st_mtim r) (st_ctim r) (etag r) (update_version r) (primary_nodeid r) (backup_nodeid r).
Definition row_mode (mode : Z) (r : inode_row) : inode_row :=
  mkRow (st_ino r) (st_dev r) mode (st_nlink r) (st_uid r) (st_gid r) (st_rdev r) (st_size r) (st_blksize r) (st_blocks r)
    (st_atim r) (st_mtim r) (st_ctim r) (etag r) (update_version r) (primary_nodeid r) (backup_nodeid r).
Definition row_owner (uid gid : Z) (r : inode_row) : inode_row :=
  mkRow (st_ino r) (st_dev r) (st_mode r) (st_nlink r) uid gid (st_rdev r) (st_size r) (st_blksize r) (st_blocks r)
    (st_atim r) (st_mtim r) (st_ctim r) (etag r) (update_version r) (primary_nodeid r) (backup_nodeid r).
Definition row_node (node_id : Z) (r : inode_row) : inode_row :=
  mkRow (st_ino r) (st_dev r) (st_mode r) (st_nlink r) (st_uid r) (st_gid r) (st_rdev r) (st_size r) (st_blksize r) (st_blocks r)
    (st_atim r) (st_mtim r) (st_ctim r) (etag r) (update_version r) node_id (backup_nodeid r).

(** The body of the loop of SerializedDataMetaParamDecode: the fields that the
    request gives are set, the others keep what the memory had. *)
Definition decode_meta_param (service : FalconMetaServiceType) (m : AnyMetaParam) (d : MetaProcessInfoData) : coding MetaProcessInfoData :=
  let i := md_info d in
  match service, m with
  | (MKDIR | CREATE | STAT | OPEN | UNLINK | OPENDIR | RMDIR), PathOnlyParam path =>
      path ← c_str path; mret (with_info (set_path path) d)
  | MKDIR_SUB_MKDIR, MkdirSubMkdirParam p n id =>
      n ← c_str n; mret (with_info (fun i => set_row (row_ino id) (set_key p (mi_parentId_partId i) n i)) d)
  | MKDIR_SUB_CREATE, MkdirSubCreateParam v n id mode mtim size =>
      n ← c_str n;
      mret (with_info (fun i => set_row (fun r => row_times (st_atim r) (s64 mtim) (row_size size (row_mode mode (row_ino id r))))
        (set_key (mi_parentId i) v n i)) d)
  | CLOSE, CloseParam path size mtim node =>
      path ← c_str path;
      mret (with_info (fun i => set_row (fun r => row_node node (row_times (st_atim r) (s64 mtim) (row_size size r))) (set_path path i)) d)
  | READDIR, ReadDirParam path count shard name =>
      path ← c_str path;
      mret (mkData (set_path path i) count shard (c_string <$> name) (md_readDirResultList d) (md_dstPath d) (md_dstParentId d)
        (md_dstParentIdPartId d) (md_dstName d) (md_targetIsDirectory d) (md_srcLockOrder d))
  | RMDIR_SUB_RMDIR, RmdirSubRmdirParam p n =>
      n ← c_str n; mret (with_info (fun i => set_key p (mi_parentId_partId i) n i) d)
  | RMDIR_SUB_UNLINK, RmdirSubUnlinkParam v n =>
      n ← c_str n; mret (with_info (fun i => set_key (mi_parentId i) v n i) d)
  | RENAME, RenameParam src dst =>
      src ← c_str src; dst ← c_str dst;
      mret (mkData (set_path src i) (md_readDirMaxReadCount d) (md_readDirLastShardIndex d) (md_readDirLastFileName d)
        (md_readDirResultList d) dst (md_dstParentId d) (md_dstParentIdPartId d) (md_dstName d) (md_targetIsDirectory d) (md_srcLockOrder d))
  | RENAME_SUB_RENAME_LOCALLY, RenameSubRenameLocallyParam sp sv sn dp dv dn dir id order =>
      sn ← c_str sn; dn ← c_str dn;
      mret (mkData (set_row (row_ino id) (set_key sp sv sn i)) (md_readDirMaxReadCount d) (md_readDirLastShardIndex d)
        (md_readDirLastFileName d) (md_readDirResultList d) (md_dstPath d) dp dv dn dir order)
  | RENAME_SUB_CREATE, RenameSubCreateParam v n a node =>
      n ← c_str n; mret (with_info (fun i => set_row (row_attributes a node) (set_key (mi_parentId i) v n i)) d)
  | UTIMENS, UtimeNsParam path atim mtim =>
      path ← c_str path; mret (with_info (fun i => set_row (row_times (s64 atim) (s64 mtim)) (set_path path i)) d)
  | CHOWN, ChownParam path uid gid =>
      path ← c_str path; mret (with_info (fun i => set_row (row_owner uid gid) (set_path path i)) d)
  | CHMOD, ChmodParam path mode =>
      path ← c_str path; mret (with_info (fun i => set_row (row_mode (u32 mode)) (set_path path i)) d)
  | _, _ => Refused
  end.

Definition decode_kv_param (service : FalconMetaServiceType) (m : AnyMetaParam) (i : KvMetaProcessInfo) : coding KvMetaProcessInfo :=
  match service, m with
  | KV_PUT, KVParam key len num k l s =>
      key ← c_str key; k ← data num k; l ← data num l; s ← data num s;
      mret (mkKvProcess key (mkKv len num k l s) (kp_errorCode i))
  | (KV_GET | KV_DEL), KeyOnlyParam key => key ← c_str key; mret (mkKvProcess key (kp_row i) (kp_errorCode i))
  | _, _ => Refused
  end.

Definition decode_slice_param (service : FalconMetaServiceType) (m : AnyMetaParam) (i : SliceProcessInfo) : coding SliceProcessInfo :=
  match service, m with
  | SLICE_PUT, SliceInfoParam name num v =>
      name ← c_str name; a ← data num (v_inodeid v); b ← data num (v_chunkid v); c ← data num (v_sliceid v); d ← data num (v_slicesize v);
      e ← data num (v_sliceoffset v); f ← data num (v_slicelen v); g ← data num (v_sliceloc1 v); h ← data num (v_sliceloc2 v);
      mret (mkSliceProcess a b c d e f g h name (sp_inputInodeid i) (sp_inputChunkid i) num (sp_errorCode i))
  | (SLICE_GET | SLICE_DEL), SliceIndexParam name inodeid chunkid =>
      name ← c_str name;
      mret (mkSliceProcess (sp_inodeIds i) (sp_chunkIds i) (sp_sliceIds i) (sp_sliceSizes i) (sp_sliceOffsets i) (sp_sliceLens i)
        (sp_sliceLoc1s i) (sp_sliceloc2s i) name inodeid chunkid (sp_count i) (sp_errorCode i))
  | _, _ => Refused
  end.

Definition decode_slice_id_param (m : AnyMetaParam) (i : SliceIdProcessInfo) : coding SliceIdProcessInfo :=
  match m with
  | SliceIdParam count type => mret (mkSliceId count type (si_start i) (si_end i) (si_errorCode i))
  | _ => Refused
  end.

(** ** Writing answers *)

Definition error_only (e : FalconErrorCode) : MetaResponse := mkResponse (error_num e) ResponseNone.

(** The body of the loop of SerializedDataMetaResponseEncode. *)
Definition encode_meta_response (service : FalconMetaServiceType) (d : MetaProcessInfoData) : coding MetaResponse :=
  let i := md_info d in
  let e := mi_errorCode i in
  let r := mi_row i in
  let answer x := Coded (mkResponse (error_num e) x) in
  if negb (bool_decide (e = SUCCESS)) && negb (bool_decide (e = FILE_EXISTS)) then Coded (error_only e)
  else
    match service with
    | MKDIR | MKDIR_SUB_MKDIR | MKDIR_SUB_CREATE | CLOSE | RMDIR | RMDIR_SUB_RMDIR | RMDIR_SUB_UNLINK | RENAME
    | RENAME_SUB_CREATE | UTIMENS | CHOWN | CHMOD => Coded (error_only e)
    | CREATE => answer (CreateResponse (attributes_of r) (primary_nodeid r))
    | STAT => answer (StatResponse (attributes_of r))
    | OPEN => answer (OpenResponse (attributes_of r) (primary_nodeid r))
    | UNLINK => answer (UnlinkResponse (st_ino r) (st_size r) (primary_nodeid r))
    | READDIR =>
        answer (ReadDirResponse (md_readDirLastShardIndex d) (md_readDirLastFileName d)
          ((fun x => (Some (fileName x), mode x)) <$> md_readDirResultList d))
    | OPENDIR => answer (OpenDirResponse (st_ino r))
    | RENAME_SUB_RENAME_LOCALLY =>
        if negb (mi_parentId_partId i =? 0) && (md_dstParentIdPartId d =? 0)
        then answer (RenameSubRenameLocallyResponse (attributes_of r) (primary_nodeid r))
        else Coded (error_only e)
    | _ => Refused
    end.

(** CreateVector of an array. *)
Definition create_vector (l : list Z) (n : Z) : coding (option (list Z)) :=
  if bool_decide (n <= Z.of_nat (length l)) then Coded (Some (take (Z.to_nat n) l)) else Crash.

Definition encode_kv_response (service : FalconMetaServiceType) (i : KvMetaProcessInfo) : coding MetaResponse :=
  let e := kp_errorCode i in
  let r := kp_row i in
  if negb (bool_decide (e = SUCCESS)) && negb (bool_decide (e = FILE_EXISTS)) then Coded (error_only e)
  else
    match service with
    | KV_PUT | KV_DEL => Coded (error_only e)
    | KV_GET =>
        k ← create_vector (kv_valuekey r) (kv_slicenum r); l ← create_vector (kv_location r) (kv_slicenum r);
        s ← create_vector (kv_slicelen r) (kv_slicenum r);
        mret (mkResponse (error_num e) (GetKVMetaResponse (kv_valuelen r) (kv_slicenum r) k l s))
    | _ => Refused
    end.

(** Without a test of the error code. *)
Definition encode_slice_response (service : FalconMetaServiceType) (i : SliceProcessInfo) : coding MetaResponse :=
  let e := sp_errorCode i in
  let n := sp_count i in
  match service with
  | SLICE_PUT | SLICE_DEL => Coded (error_only e)
  | SLICE_GET =>
      a ← create_vector (sp_inodeIds i) n; b ← create_vector (sp_chunkIds i) n; c ← create_vector (sp_sliceIds i) n;
      d ← create_vector (sp_sliceSizes i) n; o ← create_vector (sp_sliceOffsets i) n; l ← create_vector (sp_sliceLens i) n;
      g ← create_vector (sp_sliceLoc1s i) n; h ← create_vector (sp_sliceloc2s i) n;
      mret (mkResponse (error_num e) (SliceInfoResponse n (mkVectors a b c d o l g h)))
  | _ => Refused
  end.

Definition encode_slice_id_response (i : SliceIdProcessInfo) : coding MetaResponse :=
  Coded (mkResponse (error_num (si_errorCode i)) (SliceIdResponse (si_start i) (si_end i))).

(** ** Requests of the coordinator to the workers *)

(** The body of the loop of SerializedDataMetaParamEncode. *)
Definition encode_meta_param (service : FalconMetaServiceType) (d : MetaProcessInfoData) : coding AnyMetaParam :=
  let i := md_info d in
  let r := mi_row i in
  match service with
  | MKDIR_SUB_MKDIR => Coded (MkdirSubMkdirParam (mi_parentId i) (Some (mi_name i)) (st_ino r))
  | MKDIR_SUB_CREATE =>
      Coded (MkdirSubCreateParam (mi_parentId_partId i) (Some (mi_name i)) (st_ino r) (st_mode r) (st_mtim r) (st_size r))
  | RMDIR_SUB_RMDIR => Coded (RmdirSubRmdirParam (mi_parentId i) (Some (mi_name i)))
  | RMDIR_SUB_UNLINK => Coded (RmdirSubUnlinkParam (mi_parentId_partId i) (Some (mi_name i)))
  | RENAME_SUB_RENAME_LOCALLY =>
      Coded (RenameSubRenameLocallyParam (mi_parentId i) (mi_parentId_partId i) (Some (mi_name i)) (md_dstParentId d)
        (md_dstParentIdPartId d) (Some (md_dstName d)) (md_targetIsDirectory d) (st_ino r) (md_srcLockOrder d))
  | RENAME_SUB_CREATE =>
      Coded (RenameSubCreateParam (mi_parentId_partId i) (Some (mi_name i)) (attributes_of r) (primary_nodeid r))
  | _ => Refused
  end.

(** The body of the loop of SerializedDataMetaResponseDecode.  A number that is
    no error code is kept as LAST_FALCON_ERROR_CODE. *)
Definition decode_meta_response (service : FalconMetaServiceType) (m : MetaResponse) (d : MetaProcessInfoData) : coding MetaProcessInfoData :=
  let e := default LAST_FALCON_ERROR_CODE (error_of_num (error_code m)) in
  let d := with_info (with_error e) d in
  match service with
  | MKDIR_SUB_MKDIR | MKDIR_SUB_CREATE | RMDIR_SUB_RMDIR | RMDIR_SUB_UNLINK | RENAME_SUB_CREATE => mret d
  | RENAME_SUB_RENAME_LOCALLY =>
      match response m with
      | ResponseNone => mret d
      | RenameSubRenameLocallyResponse a node => mret (with_info (set_row (row_attributes a node)) d)
      | _ => Refused
      end
  | _ => Refused
  end.

(** ** Items of a message *)

Ltac typed_simpl :=
  repeat match goal with
  | H : in_range ?w ?x |- context [wrap ?w ?x] => rewrite (wrap_small w x H)
  | H : in_signed_range ?w ?x |- context [signed ?w (wrap ?w ?x)] => rewrite (signed_wrap w x ltac:(lia) H)
  | H : in_signed_range ?w ?x |- context [signed ?w ?x] => rewrite (signed_id w x ltac:(lia) H)
  | H : c_string ?s = ?s |- context [c_string ?s] => rewrite H
  end.

Section Items.
Context {FB : FlatBuffers} (little : bool).

(** The bytes of the item at [p] and its size with its length. *)
Definition item_at (d : SerializedData) (p : Z) : coding (list Z * Z) :=
  match SerializedDataNextSeveralItemSize little d p 1 with
  | ItemSize n =>
      let len := Z.to_nat (n - SERIALIZED_DATA_ALIGNMENT) in
      let bytes := take len (drop (Z.to_nat (p + SERIALIZED_DATA_ALIGNMENT)) (default [] (sd_buffer d))) in
      if bool_decide (length bytes = len) then Coded (bytes, n) else Crash
  | ItemError => Refused
  | OutOfBounds => Crash
  end.

(** The loops over the items: [one] reads an item into an element of the
    array. *)
Fixpoint decode_items {A M : Type} (unpack : list Z -> option M) (one : M -> A -> coding A) (d : SerializedData) (p : Z) (infos : list A)
    : coding (list A) :=
  match infos with
  | [] => Coded []
  | i :: infos' =>
      item ← item_at d p;
      match unpack item.1 with
      | None => Refused
      | Some m =>
          i' ← one m i;
          rest ← decode_items unpack one d (u32 (p + item.2)) infos';
          mret (i' :: rest)
      end
  end.

Definition SerializedDataMetaParamDecode (service : FalconMetaServiceType) (param : SerializedData) (infos : list MetaProcessInfoData)
    : coding (list MetaProcessInfoData) :=
  decode_items unpack_param (decode_meta_param service) param 0 infos.

Definition SerializedKvMetaParamDecode (service : FalconMetaServiceType) (param : SerializedData) (i : KvMetaProcessInfo) : coding KvMetaProcessInfo :=
  l ← decode_items unpack_param (decode_kv_param service) param 0 [i];
  match l with [i'] => mret i' | _ => Refused end.

Definition SerializedSliceParamDecode (service : FalconMetaServiceType) (param : SerializedData) (infos : list SliceProcessInfo)
    : coding (list SliceProcessInfo) :=
  decode_items unpack_param (decode_slice_param service) param 0 infos.

Definition SerializedSliceIdParamDecode (param : SerializedData) (i : SliceIdProcessInfo) : coding SliceIdProcessInfo :=
  l ← decode_items unpack_param decode_slice_id_param param 0 [i];
  match l with [i'] => mret i' | _ => Refused end.

Definition SerializedDataMetaResponseDecode (service : FalconMetaServiceType) (resp : SerializedData) (infos : list MetaProcessInfoData)
    : coding (list MetaProcessInfoData) :=
  decode_items unpack_response (decode_meta_response service) resp 0 infos.

(** The loops that write items. *)
Fixpoint encode_items {A M : Type} (pack : M -> list Z) (one : A -> coding M) (infos : list A) (d : SerializedData) : coding SerializedData :=
  match infos with
  | [] => Coded d
  | i :: infos' =>
      m ← one i;
      match write_segment little d (pack m) with
      | Some d' => encode_items pack one infos' d'
      | None => Crash
      end
  end.

Definition SerializedDataMetaResponseEncode (service : FalconMetaServiceType) (infos : list MetaProcessInfoData) : SerializedData -> coding SerializedData :=
  encode_items pack_response (encode_meta_response service) infos.
Definition SerializedkVMetaResponseEncode (service : FalconMetaServiceType) (i : KvMetaProcessInfo) : SerializedData -> coding SerializedData :=
  encode_items pack_response (encode_kv_response service) [i].
Definition SerializedSliceResponseEncode (service : FalconMetaServiceType) (infos : list SliceProcessInfo) : SerializedData -> coding SerializedData :=
  encode_items pack_response (encode_slice_response service) infos.
Definition SerializedSliceIdResponseEncode (i : SliceIdProcessInfo) : SerializedData -> coding SerializedData :=
  encode_items pack_response encode_slice_id_response [i].
Definition SerializedDataMetaParamEncode (service : FalconMetaServiceType) (infos : list MetaProcessInfoData) : SerializedData -> coding SerializedData :=
  encode_items pack_param (encode_meta_param service) infos.

(** ** Items that were written are read *)

(** Memory that holds the items, however large the descriptor says it is. *)
Definition holds (d : SerializedData) (pre : list Z) (ps : list (list Z)) : Prop :=
  exists post, default [] (sd_buffer d) = pre ++ frames ps ++ post /\
    Z.of_nat (length (pre ++ frames ps)) <= sd_size d < 2 ^ 32 /\ Z.of_nat (length pre) `mod` 4 = 0 /\ Forall item_ok ps.

Lemma holds_next (d : SerializedData) (pre : list Z) (q : list Z) (ps : list (list Z)) :
  holds d pre (q :: ps) -> holds d (pre ++ frame q) ps.
Proof.
  intros (post & Hb & Hs & Hm & [Hq Hps]%Forall_cons). exists post. rewrite frames_cons in Hb, Hs. rewrite <- !app_assoc.
  split; [by rewrite <- app_assoc in Hb|]. split; [done|]. split; [|done].
  rewrite length_app, Nat2Z.inj_add, frame_length. destruct Hq as [Hq _]. Z.to_euclidean_division_equations; lia.
Qed.

Lemma item_at_holds (d : SerializedData) (pre : list Z) (q : list Z) (ps : list (list Z)) :
  holds d pre (q :: ps) -> item_at d (Z.of_nat (length pre)) = Coded (q, Z.of_nat (length (frame q))).
Proof.
  intros (post & Hb & Hs & Hm & [[Hqm Hqr] _]%Forall_cons). rewrite frames_cons, <- app_assoc in Hb. rewrite frames_cons in Hs.
  rewrite app_assoc, length_app, Nat2Z.inj_add in Hs.
  unfold item_at, SerializedDataNextSeveralItemSize. rewrite land_mask_mod, Hm. simpl negb. cbn match. cbn [next_items].
  unfold load_at. rewrite Hb, Nat2Z.id, drop_app_length. assert (take 4 (frame q ++ frames ps ++ post) = le32 (Z.of_nat (length q))) as ->.
  { unfold frame. by rewrite <- app_assoc, take_app_length'. }
  rewrite bool_decide_eq_true_2 by done. rewrite loaded_length by (unfold in_range; lia).
  rewrite land_mask_mod, Hqm. simpl negb. cbn match. unfold SERIALIZED_DATA_ALIGNMENT.
  assert (Z.of_nat (length pre) + 4 + Z.of_nat (length q) = Z.of_nat (length (pre ++ frame q))) as Ep.
  { rewrite length_app. pose proof (frame_length q). lia. }
  rewrite Ep, (proj2 (Z.ltb_ge _ _)) by lia.
  rewrite (wrap_small 32 (Z.of_nat _)) by (unfold in_range; lia). rewrite wrap_small by (unfold in_range; lia).
  assert (Z.of_nat (length (pre ++ frame q)) - Z.of_nat (length pre) = Z.of_nat (length (frame q))) as -> by (rewrite length_app; lia).
  rewrite (frame_length q). replace (Z.to_nat (4 + Z.of_nat (length q) - 4)) with (length q) by lia.
  replace (Z.to_nat (Z.of_nat (length pre) + 4)) with (length (pre ++ le32 (Z.of_nat (length q)))) by (rewrite length_app; cbn; lia).
  assert (pre ++ frame q ++ frames ps ++ post = (pre ++ le32 (Z.of_nat (length q))) ++ q ++ frames ps ++ post) as ->.
  { unfold frame. by rewrite <- !app_assoc. }
  rewrite drop_app_length, take_app_length. by rewrite bool_decide_eq_true_2.
Qed.

(** The loop over the items, one element for each. *)
Fixpoint decode_all {A M : Type} (unpack : list Z -> option M) (one : M -> A -> coding A) (ps : list (list Z)) (infos : list A) : coding (list A) :=
  match ps, infos with
  | q :: ps', i :: infos' =>
      match unpack q with
      | None => Refused
      | Some m => i' ← one m i; rest ← decode_all unpack one ps' infos'; mret (i' :: rest)
      end
  | _, _ => Coded []
  end.

Lemma decode_items_holds {A M : Type} (unpack : list Z -> option M) (one : M -> A -> coding A) (d : SerializedData)
    (ps : list (list Z)) (infos : list A) (pre : list Z) :
  holds d pre ps -> length ps = length infos ->
  decode_items unpack one d (Z.of_nat (length pre)) infos = decode_all unpack one ps infos.
Proof.
  revert ps pre. induction infos as [|i infos IH]; intros [|q ps] pre Hh Hl; try done.
  cbn [decode_items decode_all]. rewrite (item_at_holds d pre q ps Hh). cbn [mbind coding_bind fst snd].
  destruct (unpack q) as [m|]; [|done]. destruct (one m i) as [i'| |]; [|done|done]. cbn [mbind coding_bind].
  pose proof (holds_next d pre q ps Hh) as Hn. injection Hl as Hl. rewrite <- (IH ps _ Hn Hl). do 2 f_equal.
  destruct Hn as (_ & _ & Hs & _). rewrite !length_app in *. rewrite wrap_small; [lia|]. unfold in_range. lia.
Qed.

(** Writing all items. *)
Lemma encode_items_Coded {A M : Type} (pack : M -> list Z) (one : A -> coding M) (infos : list A) (ms : list M) (d : SerializedData) :
  Forall2 (fun i m => one i = Coded m) infos ms ->
  encode_items pack one infos d = match write_segments little d (pack <$> ms) with Some d' => Coded d' | None => Crash end.
Proof.
  intros H. revert d. induction H as [|i m infos ms Hi _ IH]; intros d; [done|].
  cbn [encode_items write_segments fmap list_fmap]. rewrite Hi. cbn [mbind coding_bind].
  destruct (write_segment little d (pack m)) as [d'|]; [apply IH|done].
Qed.

(** Each element from its message. *)
Fixpoint decode_each {A M : Type} (one : M -> A -> coding A) (ms : list M) (infos : list A) : coding (list A) :=
  match ms, infos with
  | m :: ms', i :: infos' => i' ← one m i; rest ← decode_each one ms' infos'; mret (i' :: rest)
  | _, _ => Coded []
  end.

Lemma decode_all_params {A : Type} (one : AnyMetaParam -> A -> coding A) (ms : list AnyMetaParam) (ps : list (list Z)) (infos : list A) :
  Forall2 padded (pack_param <$> ms) ps -> decode_all unpack_param one ps infos = decode_each one (norm_param <$> ms) infos.
Proof.
  intros H. revert ps H infos. induction ms as [|m ms IH]; intros ps H infos; cbn in H |- *.
  { apply Forall2_nil_inv_l in H as ->. done. }
  apply Forall2_cons_inv_l in H as (q & ps' & (pad & -> & Hpad & _) & H & ->). destruct infos as [|i infos]; [done|].
  cbn [decode_all]. rewrite unpack_pack_param by done. destruct (one (norm_param m) i); [|done|done]. cbn. by rewrite IH.
Qed.

Lemma decode_all_responses {A : Type} (one : MetaResponse -> A -> coding A) (ms : list MetaResponse) (ps : list (list Z)) (infos : list A) :
  Forall2 padded (pack_response <$> ms) ps -> decode_all unpack_response one ps infos = decode_each one (norm_response <$> ms) infos.
Proof.
  intros H. revert ps H infos. induction ms as [|m ms IH]; intros ps H infos; cbn in H |- *.
  { apply Forall2_nil_inv_l in H as ->. done. }
  apply Forall2_cons_inv_l in H as (q & ps' & (pad & -> & Hpad & _) & H & ->). destruct infos as [|i infos]; [done|].
  cbn [decode_all]. rewrite unpack_pack_response by done. destruct (one (norm_response m) i); [|done|done]. cbn. by rewrite IH.
Qed.

(** The descriptor over memory of unknown length with which a server reads a
    message. *)
Definition SD_SIZE_T_MAX : Z := Z.land UINT32_MAX (Z.lxor SERIALIZED_DATA_ALIGNMENT_MASK (Z.ones 32)).
Definition message_view (memory : list Z) : SerializedData := mkSerializedData (Some memory) SD_SIZE_T_MAX SD_SIZE_T_MAX None.

Lemma message_view_holds (ps : list (list Z)) (post : list Z) :
  Forall item_ok ps -> Z.of_nat (length (frames ps)) <= SD_SIZE_T_MAX -> holds (message_view (frames ps ++ post)) [] ps.
Proof. intros Hok Hs. exists post. split; [done|]. split; [|done]. cbn. change SD_SIZE_T_MAX with (2 ^ 32 - 4) in *. lia. Qed.

(** Items written into empty data and read from the memory they are copied to. *)
Lemma written_holds (d0 d' : SerializedData) (payloads : list (list Z)) (post : list Z) :
  sd_wf d0 -> sd_size d0 = 0 -> room payloads <= 2 ^ 32 - 4 -> write_segments little d0 payloads = Some d' ->
  exists ps, Forall2 padded payloads ps /\ valid_bytes d' = frames ps /\ holds (message_view (valid_bytes d' ++ post)) [] ps.
Proof.
  intros Hwf H0 Hroom H. destruct (write_segments_spec little d0 payloads d' Hwf) as (Hwf' & ps & Hps & Hv); [lia|done|].
  exists ps. split; [done|]. assert (valid_bytes d0 = []) as E0.
  { apply nil_length_inv. pose proof (valid_bytes_length d0 Hwf). lia. }
  rewrite E0, app_nil_l in Hv. split; [done|]. rewrite Hv. apply message_view_holds; [by eapply padded_item_ok|].
  change SD_SIZE_T_MAX with (2 ^ 32 - 4). rewrite <- Hv, (valid_bytes_length d' Hwf').
  pose proof (wf_size _ Hwf'). pose proof (wf_capacity _ Hwf'). pose proof (wf_aligned _ Hwf').
  Z.to_euclidean_division_equations; lia.
Qed.

(** ** Requests of the coordinator arrive *)

(** Rows whose fields fit their types. *)
Record row_typed (r : inode_row) : Prop := {
  rt_ino : in_range 64 (st_ino r);
  rt_dev : in_range 64 (st_dev r);
  rt_mode : in_range 32 (st_mode r);
  rt_nlink : in_range 64 (st_nlink r);
  rt_uid : in_range 32 (st_uid r);
  rt_gid : in_range 32 (st_gid r);
  rt_rdev : in_range 64 (st_rdev r);
  rt_size : in_signed_range 64 (st_size r);
  rt_blksize : in_signed_range 64 (st_blksize r);
  rt_blocks : in_signed_range 64 (st_blocks r);
  rt_atim : in_signed_range 64 (st_atim r);
  rt_mtim : in_signed_range 64 (st_mtim r);
  rt_ctim : in_signed_range 64 (st_ctim r);
  rt_node : in_signed_range 32 (primary_nodeid r);
}.

Record data_typed (d : MetaProcessInfoData) : Prop := {
  dt_row : row_typed (mi_row (md_info d));
  dt_parent : in_range 64 (mi_parentId (md_info d));
  dt_part : in_range 64 (mi_parentId_partId (md_info d));
  dt_name : c_string (mi_name (md_info d)) = mi_name (md_info d);
  dt_dstParent : in_range 64 (md_dstParentId d);
  dt_dstPart : in_range 64 (md_dstParentIdPartId d);
  dt_dstName : c_string (md_dstName d) = md_dstName d;
  dt_order : in_signed_range 32 (md_srcLockOrder d);
}.

(** The fields that the handler of a sub-operation reads. *)
Definition same_request (service : FalconMetaServiceType) (d d' : MetaProcessInfoData) : Prop :=
  let i := md_info d in
  let i' := md_info d' in
  let r := mi_row i in
  let r' := mi_row i' in
  match service with
  | MKDIR_SUB_MKDIR => mi_parentId i' = mi_parentId i /\ mi_name i' = mi_name i /\ st_ino r' = st_ino r
  | MKDIR_SUB_CREATE => info_key i' = info_key i /\ st_ino r' = st_ino r /\ st_mode r' = st_mode r /\ st_mtim r' = st_mtim r /\ st_size r' = st_size r
  | RMDIR_SUB_RMDIR => mi_parentId i' = mi_parentId i /\ mi_name i' = mi_name i
  | RMDIR_SUB_UNLINK => info_key i' = info_key i
  | RENAME_SUB_RENAME_LOCALLY =>
      mi_parentId i' = mi_parentId i /\ info_key i' = info_key i /\ st_ino r' = st_ino r /\ md_dstParentId d' = md_dstParentId d /\
      md_dstParentIdPartId d' = md_dstParentIdPartId d /\ md_dstName d' = md_dstName d /\
      md_targetIsDirectory d' = md_targetIsDirectory d /\ md_srcLockOrder d' = md_srcLockOrder d
  | RENAME_SUB_CREATE => info_key i' = info_key i /\ attributes_of r' = attributes_of r /\ primary_nodeid r' = primary_nodeid r
  | _ => False
  end.

Definition sub_services : list FalconMetaServiceType :=
  [MKDIR_SUB_MKDIR; MKDIR_SUB_CREATE; RMDIR_SUB_RMDIR; RMDIR_SUB_UNLINK; RENAME_SUB_RENAME_LOCALLY; RENAME_SUB_CREATE].

Lemma sub_request_one (service : FalconMetaServiceType) (d junk : MetaProcessInfoData) :
  service ∈ sub_services -> data_typed d ->
  exists m d', encode_meta_param service d = Coded m /\ decode_meta_param service (norm_param m) junk = Coded d' /\ same_request service d d'.
Proof.
  intros Hs [[] ? ? ? ? ? ? ?]. unfold sub_services in Hs. rewrite !elem_of_cons, elem_of_nil in Hs.
  unfold info_key, attributes_of, norm_attributes in *.
  destruct Hs as [->|[->|[->|[->|[->|[->|[]]]]]]]; do 2 eexists; (split; [reflexivity|]); (split; [reflexivity|]);
    unfold same_request, info_key, attributes_of, set_key, set_row; cbn; typed_simpl; split_and?; done.
Qed.

(** What the coordinator asks a worker is what the worker's handler is given.
    For each of the six sub-operations and a batch of any length that fits a
    message: the coordinator's encoding succeeds, and the worker, reading the
    message where it was copied to, in memory of which it does not know the end,
    finds for each entry the fields that the handler uses. *)
Theorem sub_requests_arrive (service : FalconMetaServiceType) (infos junk : list MetaProcessInfoData) (d0 : SerializedData) :
  service ∈ sub_services -> Forall data_typed infos -> length junk = length infos ->
  sd_wf d0 -> sd_size d0 = 0 -> manager_gives d0 ->
  (forall ms, Forall2 (fun i m => encode_meta_param service i = Coded m) infos ms -> room (pack_param <$> ms) <= 2 ^ 31) ->
  exists d', SerializedDataMetaParamEncode service infos d0 = Coded d' /\
    forall post, exists infos', SerializedDataMetaParamDecode service (message_view (valid_bytes d' ++ post)) junk = Coded infos' /\
      Forall2 (same_request service) infos infos'.
Proof.
  intros Hs Hty Hl Hwf H0 Hg Hroom.
  assert (exists ms, Forall2 (fun i m => encode_meta_param service i = Coded m) infos ms /\
    exists infos', decode_each (decode_meta_param service) (norm_param <$> ms) junk = Coded infos' /\ Forall2 (same_request service) infos infos')
    as (ms & Hms & infos' & Hdec & Hsame).
  { clear Hroom. revert junk Hl. induction Hty as [|d infos Hd _ IH]; intros junk Hl.
    - exists []. split; [constructor|]. exists []. by destruct junk.
    - destruct junk as [|j junk]; [done|]. injection Hl as Hl. destruct (IH junk Hl) as (ms & Hms & infos' & Hdec & Hsame).
      destruct (sub_request_one service d j Hs Hd) as (m & d' & E1 & E2 & Hd'). exists (m :: ms). split; [by constructor|].
      exists (d' :: infos'). split; [|by constructor]. cbn. rewrite E2. cbn. by rewrite Hdec. }
  specialize (Hroom ms Hms). destruct (write_segments_runs little d0 (pack_param <$> ms) Hwf Hg) as [d' E]; [lia|].
  exists d'. split; [unfold SerializedDataMetaParamEncode; by rewrite (encode_items_Coded _ _ _ ms), E|].
  intros post. destruct (written_holds d0 d' (pack_param <$> ms) post Hwf H0) as (ps & Hps & _ & Hh); [lia|done|].
  exists infos'. split; [|done]. unfold SerializedDataMetaParamDecode. change 0 with (Z.of_nat (length (@nil Z))).
  rewrite (decode_items_holds _ _ _ ps); [|done|].
  - by rewrite (decode_all_params _ ms).
  - rewrite <- (Forall2_length _ _ _ Hps), length_fmap, Hl. symmetry. by eapply Forall2_length.
Qed.
End Items.
