(* ===== verification/MessageCodec.v ===== *)
(** * A concrete pack and unpack

    An instance of the class of MetaMessages.v, with a number for each message:
    it shows that what the messages need of FlatBuffers can be had, and the
    examples are computed with it. *)

From S2P Require Import FalconPrelude SerializedData MetaMessages.

(** The leaves of a table: numbers, strings, vectors of numbers, vectors of
    strings, and entries of a directory. *)
Abbreviation leaf := (Z + option string + option (list Z) + option (list string) + list (option string * Z))%type (only parsing).

Definition lz (z : Z) : gen_tree leaf := GenLeaf (inl (inl (inl (inl z)))).
Definition ls (s : option string) : gen_tree leaf := GenLeaf (inl (inl (inl (inr s)))).
Definition lv (v : option (list Z)) : gen_tree leaf := GenLeaf (inl (inl (inr v))).
Definition lw (v : option (list string)) : gen_tree leaf := GenLeaf (inl (inr v)).
Definition lx (v : list (option string * Z)) : gen_tree leaf := GenLeaf (inr v).

Definition attr_list (a : attributes) : list Z :=
  [a_ino a; a_dev a; a_mode a; a_nlink a; a_uid a; a_gid a; a_rdev a; a_size a; a_blksize a; a_blocks a; a_atim a; a_mtim a; a_ctim a].
Definition list_attr (l : list Z) : attributes :=
  let f k := default 0 (l !! k) in
  mkAttr (f 0%nat) (f 1%nat) (f 2%nat) (f 3%nat) (f 4%nat) (f 5%nat) (f 6%nat) (f 7%nat) (f 8%nat) (f 9%nat) (f 10%nat) (f 11%nat) (f 12%nat).

Lemma list_attr_list a : list_attr (attr_list a) = a.
Proof. by destruct a. Qed.

Definition la (a : attributes) : gen_tree leaf := lv (Some (attr_list a)).

Definition lvs (v : slice_vectors) : list (gen_tree leaf) :=
  [lv (v_inodeid v); lv (v_chunkid v); lv (v_sliceid v); lv (v_slicesize v); lv (v_sliceoffset v); lv (v_slicelen v);
   lv (v_sliceloc1 v); lv (v_sliceloc2 v)].

Definition param_tree (m : AnyMetaParam) : gen_tree leaf :=
  match m with
  | ParamNone => GenNode 0 []
  | PlainCommandParam c => GenNode 1 [ls c]
  | PathOnlyParam p => GenNode 2 [ls p]
  | MkdirSubMkdirParam p n i => GenNode 3 [lz p; ls n; lz i]
  | MkdirSubCreateParam v n i mode mtim size => GenNode 4 [lz v; ls n; lz i; lz mode; lz mtim; lz size]
  | CloseParam p size mtim node => GenNode 5 [ls p; lz size; lz mtim; lz node]
  | ReadDirParam p c s n => GenNode 6 [ls p; lz c; lz s; ls n]
  | RmdirSubRmdirParam p n => GenNode 7 [lz p; ls n]
  | RmdirSubUnlinkParam v n => GenNode 8 [lz v; ls n]
  | RenameParam a b => GenNode 9 [ls a; ls b]
  | RenameSubRenameLocallyParam a b c d e f g h i =>
      GenNode 10 [lz a; lz b; ls c; lz d; lz e; ls f; lz (if g then 1 else 0); lz h; lz i]
  | RenameSubCreateParam v n a node => GenNode 11 [lz v; ls n; la a; lz node]
  | UtimeNsParam p a m => GenNode 12 [ls p; lz a; lz m]
  | ChownParam p u g => GenNode 13 [ls p; lz u; lz g]
  | ChmodParam p m => GenNode 14 [ls p; lz m]
  | KVParam k a b c d e => GenNode 15 [ls k; lz a; lz b; lv c; lv d; lv e]
  | KeyOnlyParam k => GenNode 16 [ls k]
  | SliceInfoParam n k v => GenNode 17 (ls n :: lz k :: lvs v)
  | SliceIndexParam n i c => GenNode 18 [ls n; lz i; lz c]
  | SliceIdParam c t => GenNode 19 [lz c; lz t]
  end.

(** The leaves of a node. *)
Definition zs (l : list (gen_tree leaf)) (k : nat) : Z :=
  match l !! k with Some (GenLeaf (inl (inl (inl (inl z))))) => z | _ => 0 end.
Definition ss (l : list (gen_tree leaf)) (k : nat) : option string :=
  match l !! k with Some (GenLeaf (inl (inl (inl (inr s))))) => s | _ => None end.
Definition vs (l : list (gen_tree leaf)) (k : nat) : option (list Z) :=
  match l !! k with Some (GenLeaf (inl (inl (inr v)))) => v | _ => None end.
Definition ats (l : list (gen_tree leaf)) (k : nat) : attributes := list_attr (default [] (vs l k)).
Definition vecs (l : list (gen_tree leaf)) (k : nat) : slice_vectors :=
  mkVectors (vs l k) (vs l (1 + k)) (vs l (2 + k)) (vs l (3 + k)) (vs l (4 + k)) (vs l (5 + k)) (vs l (6 + k)) (vs l (7 + k)).

Definition tree_param (t : gen_tree leaf) : AnyMetaParam :=
  match t with
  | GenNode 1 l => PlainCommandParam (ss l 0)
  | GenNode 2 l => PathOnlyParam (ss l 0)
  | GenNode 3 l => MkdirSubMkdirParam (zs l 0) (ss l 1) (zs l 2)
  | GenNode 4 l => MkdirSubCreateParam (zs l 0) (ss l 1) (zs l 2) (zs l 3) (zs l 4) (zs l 5)
  | GenNode 5 l => CloseParam (ss l 0) (zs l 1) (zs l 2) (zs l 3)
  | GenNode 6 l => ReadDirParam (ss l 0) (zs l 1) (zs l 2) (ss l 3)
  | GenNode 7 l => RmdirSubRmdirParam (zs l 0) (ss l 1)
  | GenNode 8 l => RmdirSubUnlinkParam (zs l 0) (ss l 1)
  | GenNode 9 l => RenameParam (ss l 0) (ss l 1)
  | GenNode 10 l => RenameSubRenameLocallyParam (zs l 0) (zs l 1) (ss l 2) (zs l 3) (zs l 4) (ss l 5) (zs l 6 =? 1) (zs l 7) (zs l 8)
  | GenNode 11 l => RenameSubCreateParam (zs l 0) (ss l 1) (ats l 2) (zs l 3)
  | GenNode 12 l => UtimeNsParam (ss l 0) (zs l 1) (zs l 2)
  | GenNode 13 l => ChownParam (ss l 0) (zs l 1) (zs l 2)
  | GenNode 14 l => ChmodParam (ss l 0) (zs l 1)
  | GenNode 15 l => KVParam (ss l 0) (zs l 1) (zs l 2) (vs l 3) (vs l 4) (vs l 5)
  | GenNode 16 l => KeyOnlyParam (ss l 0)
  | GenNode 17 l => SliceInfoParam (ss l 0) (zs l 1) (vecs l 2)
  | GenNode 18 l => SliceIndexParam (ss l 0) (zs l 1) (zs l 2)
  | GenNode 19 l => SliceIdParam (zs l 0) (zs l 1)
  | _ => ParamNone
  end.

Lemma tree_param_tree m : tree_param (param_tree m) = m.
Proof.
  destruct m; try reflexivity; cbn.
  - by destruct target_is_directory.
  - unfold ats. cbn. by destruct a.
  - by destruct v.
Qed.

Definition response_tree (m : MetaResponse) : gen_tree leaf :=
  let e := lz (error_code m) in
  match response m with
  | ResponseNone => GenNode 0 [e]
  | PlainCommandResponse r c d => GenNode 1 [e; lz r; lz c; lw d]
  | CreateResponse a n => GenNode 2 [e; la a; lz n]
  | StatResponse a => GenNode 3 [e; la a]
  | OpenResponse a n => GenNode 4 [e; la a; lz n]
  | UnlinkResponse i s n => GenNode 5 [e; lz i; lz s; lz n]
  | ReadDirResponse s n l => GenNode 6 [e; lz s; ls n; lx l]
  | OpenDirResponse i => GenNode 7 [e; lz i]
  | RenameSubRenameLocallyResponse a n => GenNode 8 [e; la a; lz n]
  | GetKVMetaResponse a b c d s => GenNode 9 [e; lz a; lz b; lv c; lv d; lv s]
  | SliceInfoResponse n v => GenNode 10 (e :: lz n :: lvs v)
  | SliceIdResponse a b => GenNode 11 [e; lz a; lz b]
  end.

Definition ws (l : list (gen_tree leaf)) (k : nat) : option (list string) :=
  match l !! k with Some (GenLeaf (inl (inr v))) => v | _ => None end.
Definition xs (l : list (gen_tree leaf)) (k : nat) : list (option string * Z) :=
  match l !! k with Some (GenLeaf (inr v)) => v | _ => [] end.

Definition tree_response (t : gen_tree leaf) : MetaResponse :=
  match t with
  | GenNode 1 l => mkResponse (zs l 0) (PlainCommandResponse (zs l 1) (zs l 2) (ws l 3))
  | GenNode 2 l => mkResponse (zs l 0) (CreateResponse (ats l 1) (zs l 2))
  | GenNode 3 l => mkResponse (zs l 0) (StatResponse (ats l 1))
  | GenNode 4 l => mkResponse (zs l 0) (OpenResponse (ats l 1) (zs l 2))
  | GenNode 5 l => mkResponse (zs l 0) (UnlinkResponse (zs l 1) (zs l 2) (zs l 3))
  | GenNode 6 l => mkResponse (zs l 0) (ReadDirResponse (zs l 1) (ss l 2) (xs l 3))
  | GenNode 7 l => mkResponse (zs l 0) (OpenDirResponse (zs l 1))
  | GenNode 8 l => mkResponse (zs l 0) (RenameSubRenameLocallyResponse (ats l 1) (zs l 2))
  | GenNode 9 l => mkResponse (zs l 0) (GetKVMetaResponse (zs l 1) (zs l 2) (vs l 3) (vs l 4) (vs l 5))
  | GenNode 10 l => mkResponse (zs l 0) (SliceInfoResponse (zs l 1) (vecs l 2))
  | GenNode 11 l => mkResponse (zs l 0) (SliceIdResponse (zs l 1) (zs l 2))
  | GenNode _ l => mkResponse (zs l 0) ResponseNone
  | GenLeaf _ => mkResponse 0 ResponseNone
  end.

Lemma tree_response_tree m : tree_response (response_tree m) = m.
Proof. destruct m as [e r]; destruct r; try reflexivity; cbn; unfold ats; cbn; by (destruct a || destruct v). Qed.

#[export] Instance AnyMetaParam_eq_dec : EqDecision AnyMetaParam.
Proof. intros x y. destruct (decide (param_tree x = param_tree y)) as [E|E]; [left|right; by intros ->].
  by rewrite <- (tree_param_tree x), E, tree_param_tree. Defined.
#[export] Instance MetaResponse_eq_dec : EqDecision MetaResponse.
Proof. intros x y. destruct (decide (response_tree x = response_tree y)) as [E|E]; [left|right; by intros ->].
  by rewrite <- (tree_response_tree x), E, tree_response_tree. Defined.
#[export] Instance AnyMetaParam_countable : Countable AnyMetaParam := inj_countable' param_tree tree_param tree_param_tree.
#[export] Instance MetaResponse_countable : Countable MetaResponse := inj_countable' response_tree tree_response tree_response_tree.

(** One number for the message. *)
Definition number {A : Type} `{Countable A} (a : A) : list Z := [Z.pos (encode a)].
Definition of_number {A : Type} `{Countable A} (l : list Z) : option A :=
  match l with
  | Z.pos p :: _ => decode p
  | _ => None
  end.

#[export] Program Instance number_codec : FlatBuffers := {
  pack_param m := number (norm_param m);
  unpack_param := of_number;
  pack_response m := number (norm_response m);
  unpack_response := of_number;
}.
Next Obligation. intros m pad _. cbn. apply decode_encode. Qed.
Next Obligation. intros m pad _. cbn. apply decode_encode. Qed.
