(* ===== verification/MetaProcess.v ===== *)
(** * Serving a request (falcon/metadb/meta_serialize_interface.c)

    A backend reads the items of a request from memory, has the handler of the
    service work on them, and writes one item of the answer for each.  The
    handlers are a record, so that what is shown here holds for those of any
    server; MetaFile.v, MetaReadDir.v, MetaDir.v and MetaSlice.v have them. *)

From S2P Require Import FalconPrelude Catalog ErrorCode SerializedData DirService PathParse InodeTable ShardService MetaFile MetaReadDir MetaSlice MetaMessages.

(** ** Handlers *)

(** The arrays are changed in place: a handler answers for the entries it was
    given.  readdir can follow the last cell of an empty list. *)
Record MetaHandlers (S : Type) : Type := mkHandlers {
  h_mkdir : list MetaProcessInfoData -> cmd S (list MetaProcessInfoData);
  h_mkdir_sub_mkdir : list MetaProcessInfoData -> cmd S (list MetaProcessInfoData);
  h_mkdir_sub_create : list MetaProcessInfoData -> cmd S (list MetaProcessInfoData);
  h_create : list MetaProcessInfoData -> cmd S (list MetaProcessInfoData);
  h_stat : list MetaProcessInfoData -> cmd S (list MetaProcessInfoData);
  h_open : list MetaProcessInfoData -> cmd S (list MetaProcessInfoData);
  h_close : list MetaProcessInfoData -> cmd S (list MetaProcessInfoData);
  h_unlink : list MetaProcessInfoData -> cmd S (list MetaProcessInfoData);
  h_readdir : MetaProcessInfoData -> cmd S (coding MetaProcessInfoData);
  h_opendir : MetaProcessInfoData -> cmd S MetaProcessInfoData;
  h_rmdir : MetaProcessInfoData -> cmd S MetaProcessInfoData;
  h_rmdir_sub_rmdir : MetaProcessInfoData -> cmd S MetaProcessInfoData;
  h_rmdir_sub_unlink : MetaProcessInfoData -> cmd S MetaProcessInfoData;
  h_rename : MetaProcessInfoData -> cmd S MetaProcessInfoData;
  h_rename_sub_rename_locally : MetaProcessInfoData -> cmd S MetaProcessInfoData;
  h_rename_sub_create : MetaProcessInfoData -> cmd S MetaProcessInfoData;
  h_utimens : MetaProcessInfoData -> cmd S MetaProcessInfoData;
  h_chown : MetaProcessInfoData -> cmd S MetaProcessInfoData;
  h_chmod : MetaProcessInfoData -> cmd S MetaProcessInfoData;
  h_kv_put : KvMetaProcessInfo -> cmd S KvMetaProcessInfo;
  h_kv_get : KvMetaProcessInfo -> cmd S KvMetaProcessInfo;
  h_kv_del : KvMetaProcessInfo -> cmd S KvMetaProcessInfo;
  h_slice_put : list SliceProcessInfo -> cmd S (list SliceProcessInfo);
  h_slice_get : list SliceProcessInfo -> cmd S (list SliceProcessInfo);
  h_slice_del : list SliceProcessInfo -> cmd S (list SliceProcessInfo);
  h_fetch_slice_id : SliceIdProcessInfo -> cmd S SliceIdProcessInfo;
}.
Arguments mkHandlers {S}.
Arguments h_mkdir {S} _ _ _ : assert.
Arguments h_mkdir_sub_mkdir {S} _ _ _ : assert.
Arguments h_mkdir_sub_create {S} _ _ _ : assert.
Arguments h_create {S} _ _ _ : assert.
Arguments h_stat {S} _ _ _ : assert.
Arguments h_open {S} _ _ _ : assert.
Arguments h_close {S} _ _ _ : assert.
Arguments h_unlink {S} _ _ _ : assert.
Arguments h_readdir {S} _ _ _ : assert.
Arguments h_opendir {S} _ _ _ : assert.
Arguments h_rmdir {S} _ _ _ : assert.
Arguments h_rmdir_sub_rmdir {S} _ _ _ : assert.
Arguments h_rmdir_sub_unlink {S} _ _ _ : assert.
Arguments h_rename {S} _ _ _ : assert.
Arguments h_rename_sub_rename_locally {S} _ _ _ : assert.
Arguments h_rename_sub_create {S} _ _ _ : assert.
Arguments h_utimens {S} _ _ _ : assert.
Arguments h_chown {S} _ _ _ : assert.
Arguments h_chmod {S} _ _ _ : assert.
Arguments h_kv_put {S} _ _ _ : assert.
Arguments h_kv_get {S} _ _ _ : assert.
Arguments h_kv_del {S} _ _ _ : assert.
Arguments h_slice_put {S} _ _ _ : assert.
Arguments h_slice_get {S} _ _ _ : assert.
Arguments h_slice_del {S} _ _ _ : assert.
Arguments h_fetch_slice_id {S} _ _ _ : assert.

(** The outcome of a call: the answer; an error, with its code; the backend is
    gone; or it is still running. *)
Inductive served (S : Type) : Type :=
| Replied (response : SerializedData) (s : S)
| Failed (e : FalconErrorCode) (s : S)
| Crashed
| Unfinished.
Arguments Replied {S} response s.
Arguments Failed {S} e s.
Arguments Crashed {S}.
Arguments Unfinished {S}.

(** The number that [serviceType] is sent as. *)
Definition service_num (service : FalconMetaServiceType) : Z :=
  default 0 (Z.of_nat ∘ fst <$> list_find (fun s => s = service) all_services).

(** The services that take several items. *)
Definition batch_service (service : FalconMetaServiceType) : bool :=
  bool_decide (service ∈ [MKDIR; MKDIR_SUB_MKDIR; MKDIR_SUB_CREATE; CREATE; STAT; OPEN; CLOSE; UNLINK]).

(** MaxAllocSize of palloc. *)
Definition MaxAllocSize : Z := 0x3fffffff.

Section MetaProcess.
Context {FB : FlatBuffers} (little : bool).
Context {S : Type} (H : MetaHandlers S).
Context (PgMemoryManager DefaultMemoryManager : MemoryManager).
(** The sizes of the two structures, each with a pointer to it. *)
Context (sizeof_info sizeof_slice : Z).
(** What is in memory that was not written. *)
Context (info_junk : nat -> MetaProcessInfoData) (slice_junk : nat -> SliceProcessInfo).

(** The switch of FileMetaProcess. *)
Definition batch_of (h : list MetaProcessInfoData -> cmd S (list MetaProcessInfoData)) (infos : list MetaProcessInfoData)
    : cmd S (coding (list MetaProcessInfoData)) :=
  infos' ← h infos; mret (Coded infos').
Definition first_of (h : MetaProcessInfoData -> cmd S (coding MetaProcessInfoData)) (infos : list MetaProcessInfoData)
    : cmd S (coding (list MetaProcessInfoData)) :=
  match infos with
  | [] => mret Crash
  | i :: infos' => r ← h i; mret (i' ← (r : coding MetaProcessInfoData); Coded (i' :: infos'))
  end.
Definition single (h : MetaProcessInfoData -> cmd S MetaProcessInfoData) : list MetaProcessInfoData -> cmd S (coding (list MetaProcessInfoData)) :=
  first_of (fun i => i' ← h i; mret (Coded i')).

Definition file_switch (service : FalconMetaServiceType) : list MetaProcessInfoData -> cmd S (coding (list MetaProcessInfoData)) :=
  match service with
  | MKDIR => batch_of (h_mkdir H)
  | MKDIR_SUB_MKDIR => batch_of (h_mkdir_sub_mkdir H)
  | MKDIR_SUB_CREATE => batch_of (h_mkdir_sub_create H)
  | CREATE => batch_of (h_create H)
  | STAT => batch_of (h_stat H)
  | OPEN => batch_of (h_open H)
  | CLOSE => batch_of (h_close H)
  | UNLINK => batch_of (h_unlink H)
  | READDIR => first_of (h_readdir H)
  | OPENDIR => single (h_opendir H)
  | RMDIR => single (h_rmdir H)
  | RMDIR_SUB_RMDIR => single (h_rmdir_sub_rmdir H)
  | RMDIR_SUB_UNLINK => single (h_rmdir_sub_unlink H)
  | RENAME => single (h_rename H)
  | RENAME_SUB_RENAME_LOCALLY => single (h_rename_sub_rename_locally H)
  | RENAME_SUB_CREATE => single (h_rename_sub_create H)
  | UTIMENS => single (h_utimens H)
  | CHOWN => single (h_chown H)
  | CHMOD => single (h_chmod H)
  | _ => fun _ => raise ARGUMENT_ERROR
  end.

Definition kv_switch (service : FalconMetaServiceType) (i : KvMetaProcessInfo) : cmd S (coding KvMetaProcessInfo) :=
  i' ← match service with
       | KV_PUT => h_kv_put H i
       | KV_GET => h_kv_get H i
       | KV_DEL => h_kv_del H i
       | _ => raise ARGUMENT_ERROR
       end;
  mret (Coded i').

Definition slice_switch (service : FalconMetaServiceType) (infos : list SliceProcessInfo) : cmd S (coding (list SliceProcessInfo)) :=
  infos' ← match service with
           | SLICE_PUT => h_slice_put H infos
           | SLICE_GET => h_slice_get H infos
           | SLICE_DEL => h_slice_del H infos
           | _ => raise ARGUMENT_ERROR
           end;
  mret (Coded infos').

(** What the four functions have in common: the request is decoded, handled,
    and the answer is encoded. *)
Definition process {A : Type} (decoded : coding A) (handle : A -> cmd S (coding A)) (encode : A -> SerializedData -> coding SerializedData)
    (s : S) : served S :=
  match decoded with
  | Crash => Crashed
  | Refused => Failed ARGUMENT_ERROR s
  | Coded a =>
      match handle a s with
      | OutOfFuel => Unfinished
      | Raise e s' => Failed e s'
      | Ret Crash _ => Crashed
      | Ret Refused s' => Failed ARGUMENT_ERROR s'
      | Ret (Coded a') s' =>
          match SerializedDataInit None 0 0 (Some PgMemoryManager) DefaultMemoryManager with
          | None => Crashed
          | Some response =>
              match encode a' response with
              | Crash => Crashed
              | Refused => Failed ARGUMENT_ERROR s'
              | Coded d => Replied d s'
              end
          end
      end
  end.

(** The data over the parameters, of which the end is not known. *)
Definition with_param (paramBuffer : list Z) (k : SerializedData -> S -> served S) (s : S) : served S :=
  match SerializedDataInit (Some paramBuffer) SD_SIZE_T_MAX SD_SIZE_T_MAX None DefaultMemoryManager with
  | None => Failed ARGUMENT_ERROR s
  | Some param => k param s
  end.

(** palloc of an array; its error is one of PostgreSQL. *)
Definition with_array {A : Type} (size count : Z) (junk : nat -> A) (k : list A -> S -> served S) (s : S) : served S :=
  if MaxAllocSize <? u64 (size * u64 count) then Failed UNKNOWN s else k (junk <$> seq 0 (Z.to_nat count)) s.

Definition FileMetaProcess (metaService : FalconMetaServiceType) (count : Z) (paramBuffer : list Z) (s : S) : served S :=
  if negb (count =? 1) && negb (batch_service metaService) then Failed ARGUMENT_ERROR s
  else
    with_param paramBuffer (fun param =>
      with_array sizeof_info count info_junk (fun infoDataArray =>
        process (SerializedDataMetaParamDecode little metaService param infoDataArray) (file_switch metaService)
          (SerializedDataMetaResponseEncode little metaService))) s.

(** infoData = {0}. *)
Definition kv_zero : KvMetaProcessInfo := mkKvProcess EmptyString (mkKv 0 0 [] [] []) SUCCESS.
Definition slice_id_zero : SliceIdProcessInfo := mkSliceId 0 0 0 0 SUCCESS.

Definition KVMetaProcess (metaService : FalconMetaServiceType) (paramBuffer : list Z) : S -> served S :=
  with_param paramBuffer (fun param =>
    process (SerializedKvMetaParamDecode little metaService param kv_zero) (kv_switch metaService)
      (SerializedkVMetaResponseEncode little metaService)).

Definition SliceMetaProcess (metaService : FalconMetaServiceType) (count : Z) (paramBuffer : list Z) : S -> served S :=
  with_param paramBuffer (fun param =>
    with_array sizeof_slice count slice_junk (fun infoDataArray =>
      process (SerializedSliceParamDecode little metaService param infoDataArray) (slice_switch metaService)
        (SerializedSliceResponseEncode little metaService))).

Definition SliceIdProcess (paramBuffer : list Z) : S -> served S :=
  with_param paramBuffer (fun param =>
    process (SerializedSliceIdParamDecode little param slice_id_zero) (fun i => i' ← h_fetch_slice_id H i; mret (Coded i'))
      (SerializedSliceIdResponseEncode little)).

(** The comparisons with the first and the last of each group. *)
Definition MetaProcess (metaService count : Z) (paramBuffer : list Z) (s : S) : served S :=
  match MetaServiceTypeDecode metaService with
  | None | Some NOT_SUPPORTED => Failed ARGUMENT_ERROR s
  | Some service =>
      match service with
      | KV_PUT | KV_GET | KV_DEL => KVMetaProcess service paramBuffer s
      | SLICE_PUT | SLICE_GET | SLICE_DEL => SliceMetaProcess service count paramBuffer s
      | FETCH_SLICE_ID => SliceIdProcess paramBuffer s
      | _ => FileMetaProcess service count paramBuffer s
      end
  end.

(** ** Requests that are well formed are answered item by item *)

(** palloc and repalloc: they give what is asked for. *)
Definition manager_ok (mm : MemoryManager) : Prop :=
  MemoryManagerLaws mm /\ (forall n, in_range 32 n -> is_Some (mm_alloc mm n)) /\
  forall old n, in_range 32 n -> is_Some (mm_realloc mm old n).

Lemma response_init (mm mm' : MemoryManager) : manager_ok mm ->
  exists d0, SerializedDataInit None 0 0 (Some mm) mm' = Some d0 /\ sd_wf d0 /\ sd_size d0 = 0 /\ manager_gives d0.
Proof.
  intros (Hl & Ha & Hr). eexists. split; [reflexivity|]. split_and!; [|done|].
  - split; cbn; [lia|lia|done|done|congruence].
  - exists mm. split_and!; done.
Qed.

(** Items packed one after the other. *)
Definition items {M : Type} (pack : M -> list Z) (ms : list M) (bytes : list Z) : Prop :=
  exists ps, Forall2 padded (pack <$> ms) ps /\ bytes = frames ps.

Lemma items_nil {M : Type} (pack : M -> list Z) : items pack [] [].
Proof. exists []. split; [constructor|done]. Qed.

Lemma items_app {M : Type} (pack : M -> list Z) (ms ms' : list M) (b b' : list Z) :
  items pack ms b -> items pack ms' b' -> items pack (ms ++ ms') (b ++ b').
Proof.
  intros (ps & Hp & ->) (ps' & Hp' & ->). exists (ps ++ ps'). rewrite fmap_app, frames_app. split; [by apply Forall2_app|done].
Qed.

Lemma items_app_inv {M : Type} (pack : M -> list Z) (ms ms' : list M) (b : list Z) :
  items pack (ms ++ ms') b -> exists b1 b2, b = b1 ++ b2 /\ items pack ms b1 /\ items pack ms' b2.
Proof.
  intros (ps & Hp & ->). rewrite fmap_app in Hp. apply Forall2_app_inv_l in Hp as (ps1 & ps2 & H1 & H2 & ->).
  exists (frames ps1), (frames ps2). rewrite frames_app. split; [done|]. split; eexists; done.
Qed.

Lemma items_length {M : Type} (pack : M -> list Z) (ms : list M) (b : list Z) : items pack ms b -> Z.of_nat (length b) `mod` 4 = 0.
Proof.
  intros (ps & Hp & ->). apply padded_item_ok in Hp. induction Hp as [|q ps [Hq _] _ IH]; [done|].
  rewrite frames_cons, length_app, Nat2Z.inj_add, frame_length. Z.to_euclidean_division_equations; lia.
Qed.

Lemma items_count {M : Type} (pack : M -> list Z) (ms : list M) (b : list Z) : items pack ms b -> (length ms <= length b)%nat.
Proof.
  intros (ps & Hp & ->). rewrite <- (length_fmap pack), (Forall2_length _ _ _ Hp). clear.
  induction ps as [|q ps IH]; [done|]. rewrite frames_cons, length_app. pose proof (frame_length q). cbn [length]. lia.
Qed.

Lemma param_view (mem : list Z) (k : SerializedData -> S -> served S) (s : S) : with_param mem k s = k (message_view mem) s.
Proof. done. Qed.

(** Decoding the items of a request. *)
Lemma decode_items_request {A : Type} (one : AnyMetaParam -> A -> coding A) (ms : list AnyMetaParam) (bytes post : list Z) (infos : list A) :
  items pack_param ms bytes -> Z.of_nat (length bytes) <= SD_SIZE_T_MAX -> length infos = length ms ->
  decode_items little unpack_param one (message_view (bytes ++ post)) 0 infos = decode_each one (norm_param <$> ms) infos.
Proof.
  intros (ps & Hp & ->) Hs Hl. change 0 with (Z.of_nat (length (@nil Z))).
  rewrite (decode_items_holds little _ _ _ ps); [by rewrite (decode_all_params _ ms)| |].
  - apply message_view_holds; [by eapply padded_item_ok|done].
  - by rewrite <- (Forall2_length _ _ _ Hp), length_fmap.
Qed.

(** Encoding the items of an answer. *)
Lemma encode_items_answer {A : Type} (one : A -> coding MetaResponse) (infos : list A) (rs : list MetaResponse) (d0 : SerializedData) :
  sd_wf d0 -> sd_size d0 = 0 -> manager_gives d0 ->
  Forall2 (fun i r => one i = Coded r) infos rs -> room (pack_response <$> rs) <= 2 ^ 31 ->
  exists d, encode_items little pack_response one infos d0 = Coded d /\ sd_wf d /\ items pack_response rs (valid_bytes d).
Proof.
  intros Hwf H0 Hg Hrs Hroom. destruct (write_segments_runs little d0 (pack_response <$> rs) Hwf Hg) as [d E]; [lia|].
  exists d. split; [by rewrite (encode_items_Coded _ _ _ _ rs), E|].
  destruct (write_segments_spec little d0 (pack_response <$> rs) d Hwf) as (Hwf' & ps & Hps & Hv); [lia|done|]. split; [done|].
  exists ps. split; [done|]. rewrite Hv. assert (valid_bytes d0 = []) as ->; [|done].
  apply nil_length_inv. pose proof (valid_bytes_length d0 Hwf). lia.
Qed.

(** The answer to a request that was decoded and handled. *)
Lemma process_replies {A B : Type} (a a' : A) (handle : A -> cmd S (coding A)) (one : B -> coding MetaResponse) (entries : A -> list B)
    (rs : list MetaResponse) (s s' : S) :
  manager_ok PgMemoryManager ->
  handle a s = Ret (Coded a') s' ->
  Forall2 (fun i r => one i = Coded r) (entries a') rs -> room (pack_response <$> rs) <= 2 ^ 31 ->
  exists d, process (Coded a) handle (fun x => encode_items little pack_response one (entries x)) s = Replied d s' /\
    sd_wf d /\ items pack_response rs (valid_bytes d).
Proof.
  intros Hm Hh Hrs Hroom. unfold process. rewrite Hh. destruct (response_init _ DefaultMemoryManager Hm) as (d0 & E0 & Hwf & H0 & Hg).
  rewrite E0. destruct (encode_items_answer one (entries a') rs d0) as (d & E & Hd); [done..|]. exists d. by rewrite E.
Qed.

(** A request that a service accepts, what its handler does, and the answers. *)
Record file_served (service : FalconMetaServiceType) (ms : list AnyMetaParam) (rs : list MetaResponse) (s s' : S) : Prop := {
  fs_count : batch_service service = true \/ length ms = 1%nat;
  fs_space : u64 (sizeof_info * Z.of_nat (length ms)) <= MaxAllocSize;
  fs_answers : exists infos infos',
    decode_each (decode_meta_param service) (norm_param <$> ms) (info_junk <$> seq 0 (length ms)) = Coded infos /\
    file_switch service infos s = Ret (Coded infos') s' /\
    Forall2 (fun i r => encode_meta_response service i = Coded r) infos' rs;
  fs_each : length rs = length ms;
  fs_room : room (pack_response <$> rs) <= 2 ^ 31;
}.

Lemma FileMetaProcess_replies (service : FalconMetaServiceType) (ms : list AnyMetaParam) (rs : list MetaResponse) (bytes post : list Z) (s s' : S) :
  manager_ok PgMemoryManager -> file_served service ms rs s s' ->
  items pack_param ms bytes -> Z.of_nat (length bytes) <= SD_SIZE_T_MAX ->
  exists d, FileMetaProcess service (Z.of_nat (length ms)) (bytes ++ post) s = Replied d s' /\ sd_wf d /\ items pack_response rs (valid_bytes d).
Proof.
  intros Hm [Hc Hsp (infos & infos' & Hd & Hh & Hrs) _ Hroom] Hb Hs. unfold FileMetaProcess.
  assert (negb (Z.of_nat (length ms) =? 1) && negb (batch_service service) = false) as ->.
  { destruct Hc as [->| ->]; [by rewrite andb_comm|done]. }
  rewrite param_view. unfold with_array. rewrite (wrap_small 64 (Z.of_nat (length ms))).
  - rewrite (proj2 (Z.ltb_ge _ _)) by done. rewrite Nat2Z.id. unfold SerializedDataMetaParamDecode, SerializedDataMetaResponseEncode.
    rewrite (decode_items_request _ ms), Hd; [|done|done|by rewrite length_fmap, length_seq].
    by apply (process_replies infos infos' _ _ (fun l => l)).
  - unfold in_range. split; [lia|]. pose proof (items_count _ _ _ Hb).
    change SD_SIZE_T_MAX with (2 ^ 32 - 4) in Hs. lia.
Qed.
End MetaProcess.
