(* ===== verification/JobQueue.v ===== *)
(** * The queue of jobs

    falcon/include/connection_pool/falcon_concurrent_queue.h: every producer thread
    has a queue of its own, consumers go round all of them, and queues of threads
    that have ended are taken out, at once when they are empty, else by the thread
    that collects garbage.  The queues of boost are lists; a push fails when there is
    no memory.

    Producers and consumers run at the same time: [step] is one atomic access, or a
    section under the exclusive lock.  A thread is somewhere in enqueue or dequeue
    ([pos]); consumers hold the shared lock from the beginning to the end of a call.
    size_approx reads the queues one by one.  clear, which the destructor calls, and the
    statistics are left out. *)

From S2P Require Import FalconPrelude.

Section queue.

Context {T : Type}.

(** [sent] and [taken] are all values that were ever pushed and popped. *)
Record ProducerInfo : Type := {
  queue : list T;
  approx_size : Z;
  active : bool;
  sent : list T;
  taken : list T
}.

Definition new_ProducerInfo : ProducerInfo := {| queue := []; approx_size := 0; active := true; sent := []; taken := [] |}.

(** Where a thread is:
    - [Have p vs k]: enqueue has the queue [p], pushed [k] values and has [vs] left;
    - [Scan p b max start i total stolen]: dequeue ([b]: the one for many values) is
      at the [i]-th queue after [start], which is [p], took [total] values from those
      before and [stolen] from this one;
    - [Test p b max start i total stolen]: it has subtracted the last ones from the
      size, and [total] counts them;
    - [Sum l n]: size_approx has added up [n] and has the queues [l] left. *)
Inductive pos : Type :=
  | Idle
  | Have (p : nat) (vs : list T) (k : nat)
  | Scan (p : nat) (b : bool) (max start i total stolen : nat)
  | Test (p : nat) (b : bool) (max start i total stolen : nat)
  | Sum (l : list nat) (n : Z).

Record qstate : Type := {
  producers : gmap nat ProducerInfo;
  producer_map : gmap nat nat;
  active_producers : list nat;
  needGC : bool;
  gc_waits : bool;
  next_p : nat;
  threads : gmap nat pos
}.

(** The collector has not made its first pass. *)
Definition new_queue : qstate :=
  {| producers := ∅; producer_map := ∅; active_producers := []; needGC := false; gc_waits := false; next_p := 0; threads := ∅ |}.

Implicit Types (s : qstate) (p t : nat).

Definition pos_of t s : pos := default Idle (threads s !! t).
Definition at_pos t x s : qstate :=
  {| producers := producers s; producer_map := producer_map s; active_producers := active_producers s; needGC := needGC s; gc_waits := gc_waits s; next_p := next_p s;
     threads := <[t := x]> (threads s) |}.
Definition set_producer p (i : ProducerInfo) s : qstate :=
  {| producers := <[p := i]> (producers s); producer_map := producer_map s; active_producers := active_producers s; needGC := needGC s; gc_waits := gc_waits s;
     next_p := next_p s; threads := threads s |}.
Definition set_needGC (b : bool) s : qstate :=
  {| producers := producers s; producer_map := producer_map s; active_producers := active_producers s; needGC := b; gc_waits := gc_waits s; next_p := next_p s;
     threads := threads s |}.

(** It holds the shared lock. *)
Definition reads (x : pos) : bool := match x with Idle | Have _ _ _ => false | _ => true end.

(** The exclusive lock can be taken. *)
Definition no_readers s : Prop := forall t, reads (pos_of t s) = false.

(** ** Operations *)

Definition create t s : qstate :=
  {| producers := <[next_p s := new_ProducerInfo]> (producers s); producer_map := <[t := next_p s]> (producer_map s);
     active_producers := active_producers s ++ [next_p s]; needGC := needGC s; gc_waits := gc_waits s; next_p := S (next_p s); threads := threads s |}.

Definition push (v : T) (i : ProducerInfo) : ProducerInfo :=
  {| queue := queue i ++ [v]; approx_size := approx_size i; active := active i; sent := sent i ++ [v]; taken := taken i |}.

Definition fetch_add (n : Z) (i : ProducerInfo) : ProducerInfo :=
  {| queue := queue i; approx_size := u64 (approx_size i + n); active := active i; sent := sent i; taken := taken i |}.

(** [None]: there is nothing to pop. *)
Definition pop (i : ProducerInfo) : option ProducerInfo :=
  match queue i with
  | [] => None
  | v :: q => Some {| queue := q; approx_size := approx_size i; active := active i; sent := sent i; taken := taken i ++ [v] |}
  end.

Definition deactivate (i : ProducerInfo) : ProducerInfo :=
  {| queue := queue i; approx_size := approx_size i; active := false; sent := sent i; taken := taken i |}.

(** The queue that is [i] after [start]. *)
Definition nth_producer start (i : nat) s : option nat := active_producers s !! ((start + i) `mod` length (active_producers s))%nat.

(** The loop of dequeue after the [i]-th queue: it ends, or goes on to the next. *)
Definition next_pos (b : bool) (max start i total : nat) s : pos :=
  if decide (max <= total)%nat then Idle else
  match (if decide (S i < length (active_producers s))%nat then nth_producer start (S i) s else None) with
  | Some p => Scan p b max start (S i) total 0
  | None => Idle
  end.

(** Whether the collector is told of the queue. *)
Definition tells_gc (b : bool) (stolen : nat) (i : ProducerInfo) : bool :=
  ((b || (0 <? stolen)%nat) && (approx_size i =? 0) && negb (active i))%bool.

Definition on_thread_exit t p (i : ProducerInfo) s : qstate :=
  let s := if decide (approx_size i = 0) then
             {| producers := producers s; producer_map := producer_map s; active_producers := filter (fun q => q <> p) (active_producers s);
                needGC := needGC s; gc_waits := gc_waits s; next_p := next_p s; threads := threads s |}
           else set_producer p (deactivate i) s in
  {| producers := producers s; producer_map := delete t (producer_map s); active_producers := active_producers s; needGC := needGC s; gc_waits := gc_waits s;
     next_p := next_p s; threads := threads s |}.

Definition is_garbage s p : bool :=
  match producers s !! p with Some i => ((approx_size i =? 0) && negb (active i))%bool | None => false end.

(** The loop of the collector.  After erase the iterator is at the next queue, and the
    loop moves on past it; [None]: past the end. *)
Fixpoint collect (garbage : nat -> bool) (l : list nat) : option (list nat) :=
  match l with
  | [] => Some []
  | p :: l' =>
      if garbage p then
        match l' with
        | [] => None
        | q :: l'' => rest ← collect garbage l''; Some (q :: rest)
        end
      else rest ← collect garbage l'; Some (p :: rest)
  end.

Definition collected (l : list nat) s : qstate :=
  {| producers := producers s; producer_map := producer_map s; active_producers := l; needGC := false; gc_waits := true; next_p := next_p s;
     threads := threads s |}.

(** ** Steps

    The label is the thread, [None] for the collector; the result is [None] where the
    behaviour is not defined.  A queue never has 2^63 nodes: memory is finite. *)
Inductive step : option nat -> qstate -> option qstate -> Prop :=
  | step_find t p vs s :
      pos_of t s = Idle -> producer_map s !! t = Some p ->
      step (Some t) s (Some (at_pos t (Have p vs 0) s))
  | step_create t vs s :
      pos_of t s = Idle -> producer_map s !! t = None -> no_readers s ->
      step (Some t) s (Some (at_pos t (Have (next_p s) vs 0) (create t s)))
  | step_push t p v vs k i s :
      pos_of t s = Have p (v :: vs) k -> producers s !! p = Some i -> Z.of_nat (length (queue i)) < 2 ^ 63 ->
      step (Some t) s (Some (at_pos t (Have p vs (S k)) (set_producer p (push v i) s)))
  | step_pushed t p vs k i s :
      pos_of t s = Have p vs k -> producers s !! p = Some i ->
      step (Some t) s (Some (at_pos t Idle (set_producer p (fetch_add (Z.of_nat k) i) s)))
  | step_dequeue t p b max start s :
      pos_of t s = Idle -> (0 < max)%nat -> (b = false -> max = 1%nat) -> nth_producer start 0 s = Some p ->
      step (Some t) s (Some (at_pos t (Scan p b max start 0 0 0) s))
  | step_pop t p b max start i total stolen x x' s :
      pos_of t s = Scan p b max start i total stolen -> (stolen < max - total)%nat ->
      producers s !! p = Some x -> pop x = Some x' ->
      step (Some t) s (Some (at_pos t (Scan p b max start i total (S stolen)) (set_producer p x' s)))
  | step_popped t p b max start i total stolen x s :
      pos_of t s = Scan p b max start i total stolen -> producers s !! p = Some x ->
      ((max - total <= stolen)%nat \/ pop x = None) ->
      step (Some t) s (Some (at_pos t (Test p b max start i (total + stolen) stolen) (set_producer p (fetch_add (- Z.of_nat stolen) x) s)))
  | step_test t p b max start i total stolen x s :
      pos_of t s = Test p b max start i total stolen -> producers s !! p = Some x ->
      step (Some t) s (Some (at_pos t (next_pos b max start i total s) (set_needGC (needGC s || tells_gc b stolen x) s)))
  | step_size t s :
      pos_of t s = Idle -> step (Some t) s (Some (at_pos t (Sum (active_producers s) 0) s))
  | step_sum t p l n x s :
      pos_of t s = Sum (p :: l) n -> producers s !! p = Some x ->
      step (Some t) s (Some (at_pos t (Sum l (u64 (n + approx_size x))) s))
  | step_sized t n s :
      pos_of t s = Sum [] n -> step (Some t) s (Some (at_pos t Idle s))
  | step_exit t p x s :
      pos_of t s = Idle -> no_readers s -> producer_map s !! t = Some p -> producers s !! p = Some x ->
      step (Some t) s (Some (on_thread_exit t p x s))
  | step_collect s :
      no_readers s -> gc_waits s = false \/ needGC s = true ->
      step None s (l ← collect (is_garbage s) (active_producers s); Some (collected l s)).

Inductive reachable : qstate -> Prop :=
  | reach_new : reachable new_queue
  | reach_step l s s' : reachable s -> step l s (Some s') -> reachable s'.

(** ** The invariant *)

(** What a thread still has to add to the size of [p], with the sign turned. *)
Definition owes p (x : pos) : Z :=
  match x with
  | Idle => 0
  | Have q _ k => if decide (q = p) then - Z.of_nat k else 0
  | Scan q _ _ _ _ _ stolen => if decide (q = p) then Z.of_nat stolen else 0
  | Test _ _ _ _ _ _ _ | Sum _ _ => 0
  end.

Definition owed p (m : gmap nat pos) : Z := map_fold (fun _ x n => owes p x + n) 0 m.

Definition info_ok s p (i : ProducerInfo) : Prop :=
  sent i = taken i ++ queue i /\ Z.of_nat (length (queue i)) <= 2 ^ 63 /\
  approx_size i = u64 (Z.of_nat (length (queue i)) + owed p (threads s)) /\
  (queue i <> [] -> p ∈ active_producers s) /\ (p < next_p s)%nat.

Definition pos_ok s t (x : pos) : Prop :=
  match x with
  | Idle | Sum _ _ => True
  | Have p _ _ => producer_map s !! t = Some p
  | Scan p _ _ _ _ _ _ | Test p _ _ _ _ _ _ => is_Some (producers s !! p)
  end.

Record inv s : Prop := {
  inv_info p i : producers s !! p = Some i -> info_ok s p i;
  inv_pos t : pos_ok s t (pos_of t s);
  inv_map t p : producer_map s !! t = Some p -> exists i, producers s !! p = Some i /\ active i = true /\ p ∈ active_producers s;
  inv_inj t t' p : producer_map s !! t = Some p -> producer_map s !! t' = Some p -> t = t';
  inv_active p : p ∈ active_producers s -> is_Some (producers s !! p);
  inv_NoDup : NoDup (active_producers s)
}.

Lemma owed_insert p t x (m : gmap nat pos) : owed p (<[t := x]> m) = owed p m - owes p (default Idle (m !! t)) + owes p x.
Proof.
  unfold owed. destruct (m !! t) as [y|] eqn:E; simpl.
  - rewrite <- insert_delete_eq, map_fold_insert_L by (first [apply lookup_delete_eq | intros; lia]).
    rewrite (map_fold_delete_L _ 0 t y m) by (first [done | intros; lia]). lia.
  - rewrite map_fold_insert_L by (first [done | intros; lia]). lia.
Qed.

Lemma owed_zero p (m : gmap nat pos) : (forall t, owes p (default Idle (m !! t)) = 0) -> owed p m = 0.
Proof.
  induction m as [|t x m Ht IH] using map_ind; intros H; [reflexivity|].
  rewrite owed_insert, Ht. simpl. rewrite IH.
  - specialize (H t). rewrite lookup_insert_eq in H. simpl in H. lia.
  - intros t'. specialize (H t'). destruct (decide (t = t')) as [->|Hn]; [by rewrite Ht|]. by rewrite lookup_insert_ne in H.
Qed.

Lemma pos_of_at t t' x s : pos_of t' (at_pos t x s) = if decide (t = t') then x else pos_of t' s.
Proof. unfold pos_of, at_pos. simpl. destruct (decide (t = t')) as [->|Hn]; [by rewrite lookup_insert_eq|by rewrite lookup_insert_ne]. Qed.

(** A step of [t] that changes one queue. *)
Lemma inv_update t x p i i' s :
  inv s -> producers s !! p = Some i -> sent i' = taken i' ++ queue i' -> Z.of_nat (length (queue i')) <= 2 ^ 63 ->
  approx_size i' = u64 (approx_size i + Z.of_nat (length (queue i')) - Z.of_nat (length (queue i)) + owes p x - owes p (pos_of t s)) ->
  (forall q, q <> p -> owes q x = owes q (pos_of t s)) -> active i' = active i ->
  (queue i' <> [] -> p ∈ active_producers s) -> pos_ok s t x -> inv (at_pos t x (set_producer p i' s)).
Proof.
  intros [I1 I2 I3 I4 I5 I6] Hp Hs Hl Ha Ho Hact Hq Hx.
  assert (Hin : forall q, is_Some (producers s !! q) -> is_Some (<[p := i']> (producers s) !! q)).
  { intros q Hq'. destruct (decide (p = q)) as [->|]; [rewrite lookup_insert_eq; eauto|by rewrite lookup_insert_ne]. }
  split.
  - intros q j Hj. simpl in Hj. unfold info_ok. simpl. rewrite owed_insert. fold (pos_of t s).
    destruct (decide (p = q)) as [<-|Hn].
    + rewrite lookup_insert_eq in Hj. injection Hj as <-. destruct (I1 p i Hp) as (_ & _ & E & _ & Hb).
      split_and!; auto. rewrite Ha, E. unfold u64. rewrite (Z.add_comm (Z.of_nat (length (queue i)))).
      rewrite <- !Z.add_sub_assoc, <- !Z.add_assoc, Zplus_mod_idemp_l. f_equal. lia.
    + rewrite lookup_insert_ne in Hj by done. destruct (I1 q j Hj) as (? & ? & E & ? & ?). rewrite Ho by done.
      split_and!; auto. rewrite E. f_equal. lia.
  - intros t'. rewrite pos_of_at. destruct (decide (t = t')) as [<-|]; [specialize Hx|specialize (I2 t')].
    + destruct x; simpl in *; auto.
    + unfold pos_ok in *. change (pos_of t' (set_producer p i' s)) with (pos_of t' s). destruct (pos_of t' s); simpl; auto.
  - intros t' q Ht. destruct (I3 t' q Ht) as (j & Hj & Haj & Hin'). simpl. destruct (decide (p = q)) as [<-|].
    + exists i'. rewrite lookup_insert_eq. rewrite Hj in Hp. injection Hp as ->. split_and!; auto. congruence.
    + exists j. by rewrite lookup_insert_ne.
  - exact I4.
  - intros q Hq'. simpl. auto.
  - exact I6.
Qed.

Lemma inv_move t x s : inv s -> (forall q, owes q x = owes q (pos_of t s)) -> pos_ok s t x -> inv (at_pos t x s).
Proof.
  intros [I1 I2 I3 I4 I5 I6] Ho Hx. split; try assumption.
  - intros q j Hj. destruct (I1 q j Hj) as (? & ? & E & ? & ?). split_and!; auto.
    simpl. rewrite owed_insert. fold (pos_of t s). rewrite Ho, E. f_equal. lia.
  - intros t'. rewrite pos_of_at. destruct (decide (t = t')) as [<-|]; [exact Hx|exact (I2 t')].
Qed.

Lemma inv_needGC b s : inv s -> inv (set_needGC b s).
Proof. intros [I1 I2 I3 I4 I5 I6]. split; assumption. Qed.

Lemma owed_quiet s p : no_readers s -> (forall t vs k, pos_of t s = Have p vs k -> k = 0%nat) -> owed p (threads s) = 0.
Proof.
  intros Hr Hh. apply owed_zero. intros t. fold (pos_of t s). specialize (Hr t). specialize (Hh t). destruct (pos_of t s) as [|q vs k| | |]; try done.
  simpl. case_decide as Hd; [|done]. subst q. by rewrite (Hh vs k).
Qed.

(** A queue whose size is 0 is empty, when no thread is about to change the size. *)
Lemma size_zero_empty s p i :
  inv s -> no_readers s -> producers s !! p = Some i -> (forall t vs k, pos_of t s = Have p vs k -> k = 0%nat) ->
  approx_size i = 0 -> queue i = [].
Proof.
  intros [I1 _ _ _ _ _] Hr Hp Hh Ha. destruct (I1 p i Hp) as (_ & Hl & E & _). rewrite owed_quiet, Z.add_0_r in E by done.
  rewrite wrap_small in E by (unfold in_range; lia). destruct (queue i); simpl in *; [done|lia].
Qed.

Lemma collect_spec garbage l l' : collect garbage l = Some l' -> l' `sublist_of` l /\ forall p, p ∈ l -> garbage p = false -> p ∈ l'.
Proof.
  remember (length l) as n eqn:En. revert l l' En. induction n as [n IH] using lt_wf_ind. intros [|a l] l' -> H; simpl in H; [by simplify_eq|].
  destruct (garbage a) eqn:Eg.
  - destruct l as [|q l]; [done|]. apply bind_Some in H as (r & Hr & [= <-]).
    destruct (IH (length l) ltac:(simpl; lia) l r eq_refl Hr) as [H1 H2]. split; [by constructor; constructor|].
    intros p. rewrite !elem_of_cons. intros [->|[->|Hin]] Hg; [congruence|auto|auto].
  - apply bind_Some in H as (r & Hr & [= <-]).
    destruct (IH (length l) ltac:(simpl; lia) l r eq_refl Hr) as [H1 H2]. split; [by constructor|].
    intros p. rewrite !elem_of_cons. intros [->|Hin] Hg; auto.
Qed.

Lemma inv_create t s : inv s -> pos_of t s = Idle -> producer_map s !! t = None -> inv (create t s).
Proof.
  intros [I1 I2 I3 I4 I5 I6] Ht Hm.
  assert (Hnew : producers s !! next_p s = None).
  { destruct (producers s !! next_p s) as [j|] eqn:E; [|done]. destruct (I1 _ _ E) as (_ & _ & _ & _ & Hl). lia. }
  assert (Hne : forall q, is_Some (producers s !! q) -> next_p s <> q) by (intros q [j Hj] <-; congruence).
  assert (Hno : forall t', ~ producer_map s !! t' = Some (next_p s)).
  { intros t' Ht'. destruct (I3 _ _ Ht') as (j & Hj & _). congruence. }
  assert (Hz : owed (next_p s) (threads s) = 0).
  { apply owed_zero. intros t'. fold (pos_of t' s). specialize (I2 t'). destruct (pos_of t' s); simpl in *; try done; case_decide as Hd; try done; subst.
    - by apply Hno in I2.
    - by apply Hne in I2. }
  split; unfold create; simpl.
  - intros q j Hj. unfold info_ok. simpl. rewrite elem_of_app. destruct (decide (next_p s = q)) as [<-|Hn].
    + rewrite lookup_insert_eq in Hj. injection Hj as <-. rewrite Hz. simpl. split_and!; try done; lia.
    + rewrite lookup_insert_ne in Hj by done. destruct (I1 q j Hj) as (? & ? & ? & ? & ?). split_and!; auto.
  - intros t'. change (pos_of t' _) with (pos_of t' s). specialize (I2 t'). destruct (pos_of t' s) eqn:E; simpl in *; try done.
    + rewrite lookup_insert_ne; [done|]. intros ->. congruence.
    + rewrite lookup_insert_ne by auto. done.
    + rewrite lookup_insert_ne by auto. done.
  - intros t' q Hq. apply lookup_insert_Some in Hq as [[<- <-]|[Hn Hq]].
    + exists new_ProducerInfo. rewrite lookup_insert_eq. split_and!; try done. set_solver.
    + destruct (I3 _ _ Hq) as (j & Hj & Ha & Hin). exists j. rewrite lookup_insert_ne by eauto. split_and!; auto. set_solver.
  - intros t1 t2 q H1 H2. apply lookup_insert_Some in H1 as [[<- <-]|[Hn1 H1]]; apply lookup_insert_Some in H2 as [[<- E]|[Hn2 H2]]; try done.
    + by apply Hno in H2.
    + subst q. by apply Hno in H1.
    + eauto.
  - intros q Hq. apply elem_of_app in Hq as [Hq|Hq%list_elem_of_singleton].
    + rewrite lookup_insert_ne by auto. auto.
    + subst. rewrite lookup_insert_eq. eauto.
  - apply NoDup_app. split_and!; [done| |apply NoDup_singleton]. intros q Hq ->%list_elem_of_singleton. destruct (I5 _ Hq). congruence.
Qed.

Lemma no_have t p s : inv s -> pos_of t s = Idle -> producer_map s !! t = Some p -> forall t' vs k, pos_of t' s = Have p vs k -> k = 0%nat.
Proof.
  intros I Ht Hm t' vs k Hh. pose proof (inv_pos s I t') as Hp. rewrite Hh in Hp. simpl in Hp.
  rewrite (inv_inj s I t' t p Hp Hm) in Hh. congruence.
Qed.

(** Taking queues out of the list that are empty and have no thread. *)
Lemma inv_shrink s l :
  inv s -> l `sublist_of` active_producers s ->
  (forall p i, producers s !! p = Some i -> p ∈ active_producers s -> p ∉ l -> queue i = [] /\ forall t, producer_map s !! t <> Some p) ->
  inv (collected l s).
Proof.
  intros [I1 I2 I3 I4 I5 I6] Hl Hout. split; try done; [| | |by eapply sublist_NoDup].
  - intros p i Hp. destruct (I1 p i Hp) as (? & ? & ? & Hq & ?). split_and!; auto. simpl. intros Hne.
    destruct (decide (p ∈ l)) as [|Hn]; [done|]. by destruct (Hout p i Hp (Hq Hne) Hn).
  - intros t p Hm. destruct (I3 t p Hm) as (i & Hp & Ha & Hin). exists i. split_and!; auto. simpl.
    destruct (decide (p ∈ l)) as [|Hn]; [done|]. destruct (Hout p i Hp Hin Hn) as [_ Hx]. by destruct (Hx t).
  - intros p Hp. apply I5. by eapply elem_of_sublist.
Qed.

(** Garbage has no thread. *)
Lemma garbage_spec s p : inv s -> is_garbage s p = true ->
  exists i, producers s !! p = Some i /\ approx_size i = 0 /\ (forall t, producer_map s !! t <> Some p) /\ forall t vs k, pos_of t s = Have p vs k -> k = 0%nat.
Proof.
  intros I Hg. unfold is_garbage in Hg. destruct (producers s !! p) as [i|] eqn:Hp; [|done]. apply andb_true_iff in Hg as [Ha%Z.eqb_eq Hi%negb_true_iff].
  assert (Hno : forall t, producer_map s !! t <> Some p).
  { intros t Ht. destruct (inv_map s I t p Ht) as (j & Hj & Haj & _). congruence. }
  exists i. split_and!; auto. intros t vs k Hh. pose proof (inv_pos s I t) as Hx. rewrite Hh in Hx. by apply Hno in Hx.
Qed.

Lemma inv_collect s l : inv s -> no_readers s -> collect (is_garbage s) (active_producers s) = Some l -> inv (collected l s).
Proof.
  intros I Hr Hc. destruct (collect_spec _ _ _ Hc) as [Hs Hl]. apply inv_shrink; [done..|].
  intros p i Hp Hin Hn. assert (Hg : is_garbage s p = true) by (apply not_false_is_true; intros E; apply Hn; by apply Hl).
  destruct (garbage_spec s p I Hg) as (j & Hj & Ha & Hno & Hh). assert (j = i) as -> by congruence. split; [|done]. by apply (size_zero_empty s p i).
Qed.

(** Forgetting a thread that is not in enqueue. *)
Definition forget t s : qstate :=
  {| producers := producers s; producer_map := delete t (producer_map s); active_producers := active_producers s; needGC := needGC s;
     gc_waits := gc_waits s; next_p := next_p s; threads := threads s |}.

Lemma inv_forget t s : inv s -> pos_of t s = Idle -> inv (forget t s).
Proof.
  intros [I1 I2 I3 I4 I5 I6] Ht. split; try done.
  - intros t'. change (pos_of t' (forget t s)) with (pos_of t' s). specialize (I2 t'). destruct (pos_of t' s) eqn:E; try done.
    simpl in *. rewrite lookup_delete_ne; [done|]. intros ->. congruence.
  - intros t' p Hm. simpl in Hm. apply lookup_delete_Some in Hm as [_ Hm]. eauto.
  - intros t1 t2 p H1 H2. simpl in H1, H2. apply lookup_delete_Some in H1 as [_ H1], H2 as [_ H2]. eauto.
Qed.

Lemma inv_deactivate p i s :
  inv s -> producers s !! p = Some i -> (forall t, producer_map s !! t <> Some p) -> inv (set_producer p (deactivate i) s).
Proof.
  intros [I1 I2 I3 I4 I5 I6] Hp Hno.
  assert (Hin : forall q, is_Some (producers s !! q) -> is_Some (<[p := deactivate i]> (producers s) !! q)).
  { intros q Hq. destruct (decide (p = q)) as [->|]; [rewrite lookup_insert_eq; eauto|by rewrite lookup_insert_ne]. }
  split; try done.
  - intros q j Hj. simpl in Hj. apply lookup_insert_Some in Hj as [[<- <-]|[Hn Hj]]; [exact (I1 p i Hp)|exact (I1 q j Hj)].
  - intros t. change (pos_of t (set_producer p (deactivate i) s)) with (pos_of t s). specialize (I2 t).
    destruct (pos_of t s); simpl in *; auto.
  - intros t q Hm. destruct (I3 t q Hm) as (j & Hj & Ha & Hq). exists j. simpl. rewrite lookup_insert_ne; [done|].
    intros ->. by apply (Hno t).
  - intros q Hq. apply Hin, I5, Hq.
Qed.

Lemma inv_exit t p i s :
  inv s -> no_readers s -> pos_of t s = Idle -> producer_map s !! t = Some p -> producers s !! p = Some i -> inv (on_thread_exit t p i s).
Proof.
  intros I Hr Ht Hm Hp. pose proof (inv_forget t s I Ht) as If.
  assert (Hno : forall t', producer_map (forget t s) !! t' <> Some p).
  { intros t' H. simpl in H. apply lookup_delete_Some in H as [Hn H]. apply Hn. by apply (inv_inj s I t t' p). }
  unfold on_thread_exit. case_decide as Hz.
  - assert (Hs : inv (collected (filter (fun q => q <> p) (active_producers s)) (forget t s))).
    { apply inv_shrink; [done|apply sublist_filter|].
      intros q j Hj Hq Hout. assert (q = p) as ->.
        { destruct (decide (q = p)) as [|Hn]; [done|]. destruct Hout. by apply list_elem_of_filter. }
        split; [|done]. simpl in Hj. assert (j = i) as -> by congruence.
        eapply size_zero_empty; eauto using no_have. }
    destruct Hs as [I1 I2 I3 I4 I5 I6]. split; assumption.
  - exact (inv_deactivate p i (forget t s) If Hp Hno).
Qed.

Lemma queue_inv_new : inv new_queue.
Proof. split; try done; [|apply NoDup_nil_2]. intros p Hp. simpl in Hp. by apply elem_of_nil in Hp. Qed.

Lemma next_pos_idle b max start i total s t : inv s -> (forall q, owes q (next_pos b max start i total s) = 0) /\ pos_ok s t (next_pos b max start i total s).
Proof.
  intros I. unfold next_pos. case_decide; [done|]. destruct (if decide _ then _ else _) as [p|] eqn:E; [|done].
  split; [intros q; simpl; by destruct (decide (p = q))|]. case_decide; [|done]. apply (inv_active s I). by eapply list_elem_of_lookup_2.
Qed.

Lemma pop_Some (i i' : ProducerInfo) : pop i = Some i' ->
  exists v, queue i = v :: queue i' /\ taken i' = taken i ++ [v] /\ sent i' = sent i /\ approx_size i' = approx_size i /\ active i' = active i.
Proof. unfold pop. destruct (queue i) as [|v q] eqn:E; [done|]. intros [= <-]. by exists v. Qed.

Lemma approx_u64 s p i : inv s -> producers s !! p = Some i -> approx_size i = u64 (approx_size i).
Proof. intros I Hp. destruct (inv_info s I p i Hp) as (_ & _ & -> & _). by rewrite wrap_idemp. Qed.

Lemma inv_push t p v vs k i s :
  inv s -> pos_of t s = Have p (v :: vs) k -> producers s !! p = Some i -> Z.of_nat (length (queue i)) < 2 ^ 63 ->
  inv (at_pos t (Have p vs (S k)) (set_producer p (push v i) s)).
Proof.
  intros I Ht Hp Hb. destruct (inv_info s I p i Hp) as (Hs & Hl & _ & _). pose proof (inv_pos s I t) as Hx. rewrite Ht in Hx.
  destruct (inv_map s I t p Hx) as (j & Hj & _ & Hin).
  apply (inv_update t _ p i); auto; rewrite ?Ht; simpl; rewrite ?length_app; simpl.
  - by rewrite Hs, app_assoc.
  - lia.
  - rewrite !decide_True by done. rewrite (approx_u64 s p i I Hp) at 1. f_equal. lia.
  - intros q Hq. by rewrite !decide_False.
Qed.

Lemma inv_pushed t p vs k i s :
  inv s -> pos_of t s = Have p vs k -> producers s !! p = Some i ->
  inv (at_pos t Idle (set_producer p (fetch_add (Z.of_nat k) i) s)).
Proof.
  intros I Ht Hp. destruct (inv_info s I p i Hp) as (Hs & Hl & _ & Hin & _).
  apply (inv_update t _ p i); auto; rewrite ?Ht; simpl; try done.
  - rewrite decide_True by done. f_equal. lia.
  - intros q Hq. by rewrite decide_False.
Qed.

Lemma queue_inv_pop t p b max start i total stolen x x' s :
  inv s -> pos_of t s = Scan p b max start i total stolen -> producers s !! p = Some x -> pop x = Some x' ->
  inv (at_pos t (Scan p b max start i total (S stolen)) (set_producer p x' s)).
Proof.
  intros I Ht Hp Hx. destruct (inv_info s I p x Hp) as (Hs & Hl & _ & Hin & _).
  destruct (pop_Some x x' Hx) as (v & Hq & Htk & Hse & Ha & Hac). rewrite Hq in Hs, Hl, Hin. simpl in Hl.
  apply (inv_update t _ p x); auto; rewrite ?Ht; simpl.
  - by rewrite Hse, Htk, Hs, <- app_assoc.
  - lia.
  - rewrite !decide_True by done. rewrite Ha, Hq. rewrite (approx_u64 s p x I Hp) at 1. simpl. f_equal. lia.
  - intros q Hn. by rewrite !decide_False.
  - eauto.
Qed.

Lemma inv_popped t p b max start i total stolen x s :
  inv s -> pos_of t s = Scan p b max start i total stolen -> producers s !! p = Some x ->
  inv (at_pos t (Test p b max start i (total + stolen) stolen) (set_producer p (fetch_add (- Z.of_nat stolen) x) s)).
Proof.
  intros I Ht Hp. destruct (inv_info s I p x Hp) as (Hs & Hl & _ & Hin & _).
  apply (inv_update t _ p x); auto; rewrite ?Ht; simpl.
  - rewrite decide_True by done. f_equal. lia.
  - intros q Hn. by rewrite decide_False.
  - eauto.
Qed.

Lemma inv_step l s s' : step l s (Some s') -> inv s -> inv s'.
Proof.
  intros H I. inversion H as [t p vs s0 Ht Hm|t vs s0 Ht Hm Hr|t p v vs k i s0 Ht Hp Hb|t p vs k i s0 Ht Hp|t p b max start s0 Ht Hmax Hb Hn
    |t p b max start i total stolen x x' s0 Ht Hlt Hp Hx|t p b max start i total stolen x s0 Ht Hp Hx|t p b max start i total stolen x s0 Ht Hp
    |t s0 Ht|t p l0 n x s0 Ht Hp|t n s0 Ht|t p x s0 Ht Hr Hm Hp|s0 Hr Hg]; subst.
  - apply inv_move; [done| |done]. intros q. rewrite Ht. simpl. by case_decide.
  - apply inv_move; [by apply inv_create| |simpl; by rewrite lookup_insert_eq].
    intros q. change (pos_of t (create t s)) with (pos_of t s). rewrite Ht. simpl. by case_decide.
  - by apply (inv_push t p v vs k i).
  - by apply (inv_pushed t p vs k i).
  - apply inv_move; [done|intros q; rewrite Ht; simpl; by case_decide|]. apply (inv_active s I). by eapply list_elem_of_lookup_2.
  - by apply (queue_inv_pop t p b max start i total stolen x x').
  - by apply (inv_popped t p b max start i total stolen x).
  - destruct (next_pos_idle b max start i total s t I) as [H1 H2].
    apply (inv_move t _ (set_needGC _ s)); [by apply inv_needGC| |exact H2].
    intros q. rewrite H1. change (pos_of t (set_needGC _ s)) with (pos_of t s). by rewrite Ht.
  - apply inv_move; [done|intros q; by rewrite Ht|done].
  - apply inv_move; [done|intros q; by rewrite Ht|done].
  - apply inv_move; [done|intros q; by rewrite Ht|done].
  - by apply inv_exit.
  - match goal with E : _ = Some s' |- _ => apply bind_Some in E as (l' & Hl & [= <-]) end. by apply inv_collect.
Qed.

Lemma queue_reachable_inv s : reachable s -> inv s.
Proof. induction 1; [apply queue_inv_new|]. eauto using inv_step. Qed.

(** ** A dequeue that runs alone *)

(** Steps of [t] only. *)
Inductive alone t : qstate -> qstate -> Prop :=
  | alone_refl s : alone t s s
  | alone_step s s' s'' : step (Some t) s (Some s') -> alone t s' s'' -> alone t s s''.

Lemma alone_trans t s s' s'' : alone t s s' -> alone t s' s'' -> alone t s s''.
Proof. induction 1; eauto using alone_step. Qed.

Lemma alone_inv t s s' : alone t s s' -> inv s -> inv s'.
Proof. induction 1; eauto using inv_step. Qed.

Lemma alone_reachable t s s' : alone t s s' -> reachable s -> reachable s'.
Proof. induction 1; eauto using reach_step. Qed.

Definition queue_length s p : nat := match producers s !! p with Some i => length (queue i) | None => 0 end.

(** The jobs in the queues [l]. *)
Definition jobs s (l : list nat) : nat := sum_list_with (queue_length s) l.

Lemma jobs_other s s' l : (forall p, p ∈ l -> queue_length s' p = queue_length s p) -> jobs s' l = jobs s l.
Proof.
  induction l as [|p l IH]; intros H; [done|]. unfold jobs in *. simpl. rewrite IH, H by (intros; try apply H; set_solver). done.
Qed.

Lemma jobs_one s s' l p :
  NoDup l -> p ∈ l -> (forall q, q <> p -> queue_length s' q = queue_length s q) ->
  (jobs s' l + queue_length s p = jobs s l + queue_length s' p)%nat.
Proof.
  intros Hd Hin Ho. apply list_elem_of_split in Hin as (l1 & l2 & ->). apply NoDup_app in Hd as (_ & Hd1 & [Hd2 _]%NoDup_cons).
  unfold jobs. rewrite !sum_list_with_app. simpl. fold (jobs s l1) (jobs s' l1) (jobs s l2) (jobs s' l2).
  rewrite (jobs_other s s' l1), (jobs_other s s' l2); [lia|..]; intros q Hq; apply Ho; intros ->; [done|]. apply (Hd1 p Hq). set_solver.
Qed.

(** It takes what there is in the queue, up to the number it may still take. *)
Lemma take_alone n : forall t p b max start i total stolen s,
  pos_of t s = Scan p b max start i total stolen -> is_Some (producers s !! p) -> n = Nat.min (max - total - stolen) (queue_length s p) ->
  exists s', alone t s s' /\ pos_of t s' = Test p b max start i (total + (stolen + n)) (stolen + n) /\ active_producers s' = active_producers s /\
    queue_length s' p = (queue_length s p - n)%nat /\ is_Some (producers s' !! p) /\ (forall q, q <> p -> queue_length s' q = queue_length s q).
Proof.
  induction n as [|n IH]; intros t p b max start i total stolen s Ht [x Hp] Hn.
  - eexists. split; [eapply alone_step; [|apply alone_refl]; apply (step_popped t p b max start i total stolen x s Ht Hp)|].
    + unfold queue_length in Hn. rewrite Hp in Hn. unfold pop. destruct (queue x); simpl in Hn; [by right|left; lia].
    + rewrite pos_of_at, decide_True, Nat.add_0_r by done. simpl. unfold queue_length. simpl. rewrite lookup_insert_eq, Hp. simpl.
      split_and!; first [done | lia | intros q Hq; by rewrite lookup_insert_ne].
  - destruct (pop x) as [x'|] eqn:Ex; [|unfold queue_length, pop in *; rewrite Hp in Hn; destruct (queue x); simpl in *; [lia|done]].
    destruct (pop_Some x x' Ex) as (v & Hq & _).
    set (s1 := at_pos t (Scan p b max start i total (S stolen)) (set_producer p x' s)).
    assert (Hl : queue_length s p = S (queue_length s1 p)) by (unfold queue_length, s1; simpl; by rewrite lookup_insert_eq, Hp, Hq).
    assert (Ho : forall q, q <> p -> queue_length s1 q = queue_length s q) by (intros q Hn'; unfold queue_length, s1; simpl; by rewrite lookup_insert_ne).
    destruct (IH t p b max start i total (S stolen) s1) as (s' & Ha & H1 & H2 & H3 & H4 & H5).
    + unfold s1. by rewrite pos_of_at, decide_True.
    + unfold s1. simpl. rewrite lookup_insert_eq. eauto.
    + lia.
    + exists s'. split; [|split_and!; auto].
      * eapply alone_step; [|exact Ha]. apply (step_pop t p b max start i total stolen x x' s); auto. lia.
      * rewrite H1. f_equal; lia.
      * lia.
      * intros q Hn'. rewrite H5, Ho by done. done.
Qed.

Lemma nth_producer_rotate start i s : (i < length (active_producers s))%nat -> nth_producer start i s = rotate start (active_producers s) !! i.
Proof.
  intros Hi. rewrite lookup_rotate_r by done. unfold nth_producer, rotate_nat_add. f_equal.
  by rewrite <- Nat2Z.inj_add, <- Nat2Z.inj_mod, Nat2Z.id.
Qed.

Lemma rotate_permutation {A} n (l : list A) : rotate n l ≡ₚ l.
Proof. unfold rotate. rewrite (Permutation_app_comm _ _). by rewrite take_drop. Qed.

(** The rest of the round, from the [i]-th queue on. *)
Lemma scan_alone n : forall t p b max start i total s R,
  R = rotate start (active_producers s) -> n = (length R - i)%nat -> inv s -> pos_of t s = Scan p b max start i total 0 ->
  R !! i = Some p -> (total < max)%nat ->
  exists s', alone t s s' /\ pos_of t s' = Idle /\ active_producers s' = active_producers s /\
    (jobs s' R + Nat.min (max - total) (jobs s (drop i R)) = jobs s R)%nat.
Proof.
  induction n as [|n IH]; intros t p b max start i total s R ER Hn I Ht HR Hlt; [apply lookup_lt_Some in HR; lia|].
  assert (Hd : NoDup R) by (rewrite ER, rotate_permutation; apply (inv_NoDup s I)).
  destruct (take_alone _ t p b max start i total 0 s Ht (ltac:(pose proof (inv_pos s I t) as Hx; by rewrite Ht in Hx)) eq_refl)
    as (s1 & Ha1 & Ht1 & Hact1 & Hq1 & [x Hp1] & Ho1).
  rewrite Nat.sub_0_r, Nat.add_0_l in *. set (k := Nat.min (max - total) (queue_length s p)) in *.
  set (s2 := at_pos t (next_pos b max start i (total + k) s1) (set_needGC (needGC s1 || tells_gc b k x) s1)).
  assert (Ha2 : alone t s s2).
  { eapply alone_trans; [exact Ha1|]. eapply alone_step; [|apply alone_refl]. by apply (step_test t p b max start i (total + k) k x s1). }
  assert (Ht2 : pos_of t s2 = next_pos b max start i (total + k) s1) by (unfold s2; by rewrite pos_of_at, decide_True).
  assert (Hin : p ∈ R) by by eapply list_elem_of_lookup_2.
  assert (HJ : (jobs s2 R + k = jobs s R)%nat).
  { pose proof (jobs_one s s1 R p Hd Hin Ho1) as E. change (jobs s2 R) with (jobs s1 R). lia. }
  assert (Hdrop : drop i R = p :: drop (S i) R) by by apply drop_S.
  assert (HJd : jobs s2 (drop (S i) R) = jobs s (drop (S i) R)).
  { apply jobs_other. intros q Hq. apply Ho1. intros ->. rewrite <- (take_drop i R), Hdrop in Hd.
    apply NoDup_app in Hd as (_ & _ & [Hd _]%NoDup_cons). done. }
  assert (HJi : jobs s (drop i R) = (queue_length s p + jobs s (drop (S i) R))%nat) by by rewrite Hdrop.
  assert (HL : length R = length (active_producers s1)) by by rewrite ER, length_rotate, Hact1.
  unfold next_pos in Ht2. destruct (decide (max <= total + k)%nat) as [Hmax|Hmax]; [exists s2; split_and!; auto; lia|].
  destruct (decide (S i < length (active_producers s1))%nat) as [Hlen|Hlen].
  - rewrite nth_producer_rotate in Ht2 by done. rewrite Hact1, <- ER in Ht2.
    destruct (R !! S i) as [q|] eqn:Eq; [|apply lookup_ge_None in Eq; lia].
    destruct (IH t q b max start (S i) (total + k)%nat s2 R) as (s' & Ha & Hi & Hact & HJ'); auto; try lia.
    + simpl. by rewrite Hact1.
    + by eapply alone_inv.
    + exists s'. split_and!; [by eapply alone_trans|done|by rewrite Hact|lia].
  - exists s2. split_and!; auto. rewrite HJi, (drop_ge R (S i)) by lia. unfold jobs at 2. simpl. lia.
Qed.

Definition begin_dequeue t p (b : bool) (max start : nat) s : qstate := at_pos t (Scan p b max start 0 0 0) s.

(** C28: a thread that begins to dequeue up to [max] jobs, with no step of another one in
    between, comes back with [max] of the jobs of all queues, or with all of them. *)
Theorem dequeue_takes t b max start s :
  reachable s -> pos_of t s = Idle -> (0 < max)%nat -> (b = false -> max = 1%nat) -> active_producers s <> [] ->
  exists p s', step (Some t) s (Some (begin_dequeue t p b max start s)) /\ alone t (begin_dequeue t p b max start s) s' /\
    pos_of t s' = Idle /\ jobs s' (active_producers s) = (jobs s (active_producers s) - max)%nat.
Proof.
  intros Hr Ht Hmax Hb Hne. assert (H0 : (0 < length (active_producers s))%nat) by (destruct (active_producers s); [done|simpl; lia]).
  destruct (rotate start (active_producers s) !! 0%nat) as [p|] eqn:Ep; [|apply lookup_ge_None in Ep; rewrite length_rotate in Ep; lia].
  assert (Hs : step (Some t) s (Some (begin_dequeue t p b max start s))) by (apply step_dequeue; auto; by rewrite nth_producer_rotate).
  destruct (scan_alone _ t p b max start 0 0 (begin_dequeue t p b max start s) _ eq_refl eq_refl) as (s' & Ha & Hi & Hact & HJ); auto.
  - eapply inv_step, queue_reachable_inv; eauto.
  - unfold begin_dequeue. by rewrite pos_of_at, decide_True.
  - exists p, s'. split_and!; auto. simpl in HJ. rewrite drop_0, Nat.sub_0_r in HJ.
    unfold jobs in *. rewrite !(rotate_permutation start (active_producers s)) in HJ.
    change (queue_length (begin_dequeue t p b max start s)) with (queue_length s) in HJ. lia.
Qed.

(** C27: every value that was pushed was popped, in the order it was pushed, or is in its
    queue; a queue that has one is among those a consumer looks at; and when no thread
    is in the middle of a call, the size that is kept is that of the queue. *)
Theorem queue_keeps_jobs s p i :
  reachable s -> producers s !! p = Some i ->
  sent i = taken i ++ queue i /\ (queue i <> [] -> p ∈ active_producers s) /\
  ((forall t, pos_of t s = Idle) -> approx_size i = Z.of_nat (length (queue i))).
Proof.
  intros I%queue_reachable_inv Hp. destruct (inv_info s I p i Hp) as (Hs & Hl & Ha & Hq & _). split_and!; [done..|].
  intros Hidle. rewrite Ha, owed_zero, Z.add_0_r, wrap_small; [done|unfold in_range; lia|].
  intros t. fold (pos_of t s). by rewrite Hidle.
Qed.

End queue.

(** ** Examples *)

Module QueueDemo.

Lemma no_readers_check (s : @qstate Z) : bool_decide (map_Forall (fun _ x => reads x = false) (threads s)) = true -> no_readers s.
Proof.
  intros H%bool_decide_eq_true t. unfold pos_of. destruct (threads s !! t) as [x|] eqn:E; [|done]. exact (H t x E).
Qed.

(** Thread 1 sends one job and ends. *)
Definition sent1 : @qstate Z :=
  at_pos 1 Idle (set_producer 0 (fetch_add 1 (push 7 new_ProducerInfo)) (at_pos 1 (Have 0 [] 1) (set_producer 0 (push 7 new_ProducerInfo)
    (at_pos 1 (Have 0 [7] 0) (create 1 new_queue))))).

Lemma sent1_reachable : reachable sent1.
Proof.
  unfold sent1. eapply reach_step; [eapply reach_step; [eapply reach_step; [apply reach_new|]|]|].
  - by apply (step_create 1 [7] new_queue); [| |apply no_readers_check].
  - by apply (step_push 1 0 7 [] 0 new_ProducerInfo (at_pos 1 (Have 0 [7] 0) (create 1 new_queue))).
  - by apply (step_pushed 1 0 [] 1 (push 7 new_ProducerInfo)).
Qed.

Definition ended : @qstate Z := on_thread_exit 1 0 (fetch_add 1 (push 7 new_ProducerInfo)) sent1.

Lemma ended_reachable : reachable ended.
Proof.
  eapply reach_step; [apply sent1_reachable|]. apply step_exit; [done|by apply no_readers_check|done|done].
Qed.

Definition gone : ProducerInfo := deactivate (fetch_add 1 (push 7 new_ProducerInfo)).
Definition gone' : ProducerInfo := {| queue := []; approx_size := 1; active := false; sent := [7]; taken := [7] |}.

(** Thread 2 takes the job. *)
Definition taken1 : @qstate Z :=
  at_pos 2 Idle (set_needGC true (at_pos 2 (Test 0 true 5 0 0 1 1) (set_producer 0 (fetch_add (-1) gone')
    (at_pos 2 (Scan 0 true 5 0 0 0 1) (set_producer 0 gone' (begin_dequeue 2 0 true 5 0 ended)))))).

Lemma taken1_reachable : reachable taken1.
Proof.
  unfold taken1. eapply reach_step; [eapply reach_step; [eapply reach_step; [eapply reach_step; [apply ended_reachable|]|]|]|].
  - by apply (step_dequeue 2 0 true 5 0 ended); [|lia| |].
  - apply (step_pop 2 0 true 5 0 0 0 0 gone gone'); [done|lia|done|done].
  - apply (step_popped 2 0 true 5 0 0 0 1 gone'); [done|done|by right].
  - by apply (step_test 2 0 true 5 0 0 1 1 (fetch_add (-1) gone')).
Qed.

Lemma queue_keeps_jobs_witness :
  exists i, producers ended !! 0%nat = Some i /\ sent i = taken i ++ queue i /\ 0%nat ∈ active_producers ended /\ approx_size i = 1.
Proof.
  exists gone. destruct (queue_keeps_jobs ended 0 gone ended_reachable eq_refl) as (H1 & H2 & _). split_and!; [done|done|by apply H2|done].
Defined.

Lemma dequeue_takes_witness :
  exists p s', alone 2 (begin_dequeue 2 p true 5 0 ended) s' /\ jobs ended (active_producers ended) = 1%nat /\ jobs s' (active_producers ended) = 0%nat.
Proof.
  destruct (dequeue_takes 2 true 5 0 ended ended_reachable) as (p & s' & _ & Ha & _ & HJ); [done|lia|done|done|].
  exists p, s'. split_and!; [done|done|]. rewrite HJ. reflexivity.
Defined.

(** The collector goes past the end of the list of queues: a thread that sends one job
    and ends, and a consumer that takes it, are enough. *)
Theorem collector_past_the_end : exists s : @qstate Z, reachable s /\ step None s None.
Proof.
  exists taken1. split; [apply taken1_reachable|].
  apply (step_collect taken1); [by apply no_readers_check|by right].
Qed.

End QueueDemo.
