(* ===== verification/PgPool.v ===== *)
(** * The connection pool

    falcon/connection_pool/pg_connection_pool.cpp and pg_connection.cpp: the thread
    that takes jobs from the queues of JobQueue.v and gives them to idle connections
    (BackgroundPoolManager), and the threads of the connections (BackgroundWorker).
    All of them run at the same time with the threads that dispatch jobs; [pstep] is
    a step of one of them.  What a task does with its connection is in WorkerTask.v.
    Init and Destroy are not steps: the pool is taken between them. *)

From S2P Require Import FalconPrelude JobQueue.

(** FalconBatchServiceType::NOT_SUPPORT, the last of the queues. *)
Definition NOT_SUPPORT_index : nat := 6.

(** The thread of the pool among the threads that use the queues. *)
Definition MANAGER : nat := 0.

(** FalconConnectionPoolBatchSize, WaitAdjust, WaitMin and WaitMax. *)
Record pool_config : Type := {
  BatchSize : Z;
  WaitAdjust : Z;
  WaitMin : Z;
  WaitMax : Z
}.

Section pool.

Context {J : Type} (cfg : pool_config).

Inductive task : Type :=
  | BatchTask (jobs : list J)
  | SingleTask (job : J).

Definition task_jobs (t : task) : list J := match t with BatchTask js => js | SingleTask j => [j] end.

(** A connection: the tasks it was given, and the one that it works on. *)
Record worker : Type := {
  m_workerTaskQueue : list task;
  current : option task
}.

Definition worker_jobs (w : worker) : list J :=
  (m_workerTaskQueue w ≫= task_jobs) ++ match current w with Some t => task_jobs t | None => [] end.

Definition Exec (t : task) (w : worker) : worker := {| m_workerTaskQueue := m_workerTaskQueue w ++ [t]; current := current w |}.

(** A round of BackgroundWorker: it pulls a task, and has done it. *)
Definition BackgroundWorker_pull (w : worker) : option worker :=
  match m_workerTaskQueue w, current w with
  | t :: ts, None => Some {| m_workerTaskQueue := ts; current := Some t |}
  | _, _ => None
  end.

Definition BackgroundWorker_done (w : worker) : option (list J * worker) :=
  t ← current w; Some (task_jobs t, {| m_workerTaskQueue := m_workerTaskQueue w; current := None |}).

(** Where BackgroundPoolManager is, with the index of the queue, emptyCount and
    maxCount. *)
Inductive mpos : Type :=
  | Round (i empty : nat) (maxCount : Z)
  | Sizing (i empty : nat) (maxCount : Z)
  | Sized (i empty : nat) (maxCount queueSizeApprox : Z)
  | Dequeue (i empty : nat) (maxCount : Z) (jobList : list J)
  | Give (i empty : nat) (maxCount : Z) (tasks : list task).

Definition manager_jobs (m : mpos) : list J :=
  match m with Dequeue _ _ _ js => js | Give _ _ _ ts => ts ≫= task_jobs | _ => [] end.

(** [executed]: the jobs that are done. *)
Record pool : Type := {
  queues : list (@qstate J);
  connPool : list nat;
  workers : gmap nat worker;
  manager : mpos;
  waitTime : Z;
  executed : list J
}.

Definition idle_worker : worker := {| m_workerTaskQueue := []; current := None |}.

(** The pool after Init with [n] connections. *)
Definition new_pool (n : nat) : pool :=
  {| queues := replicate (S NOT_SUPPORT_index) new_queue; connPool := seq 0 n;
     workers := list_to_map ((fun c => (c, idle_worker)) <$> seq 0 n); manager := Round 0 0 0; waitTime := 100; executed := [] |}.

Definition set_queue (i : nat) (s : qstate) (P : pool) : pool :=
  {| queues := <[i := s]> (queues P); connPool := connPool P; workers := workers P; manager := manager P; waitTime := waitTime P;
     executed := executed P |}.
Definition set_manager (m : mpos) (P : pool) : pool :=
  {| queues := queues P; connPool := connPool P; workers := workers P; manager := m; waitTime := waitTime P; executed := executed P |}.
Definition set_waitTime (w : Z) (P : pool) : pool :=
  {| queues := queues P; connPool := connPool P; workers := workers P; manager := manager P; waitTime := w; executed := executed P |}.
Definition set_worker (c : nat) (w : worker) (cs : list nat) (js : list J) (P : pool) : pool :=
  {| queues := queues P; connPool := cs; workers := <[c := w]> (workers P); manager := manager P; waitTime := waitTime P;
     executed := executed P ++ js |}.

Definition AdjustWaitTime (prevTime reqInLoop : Z) : Z :=
  if WaitAdjust cfg =? 0 then prevTime
  else if u64 reqInLoop <=? u64 (s32 (BatchSize cfg * 2)) then Z.min (s32 (prevTime * 2)) (WaitMax cfg)
  else Z.max (prevTime ÷ 2) (WaitMin cfg).

(** The end of the work on queue [i]: the next queue, the queues again, or, when all
    were empty, a pause and a new round. *)
Definition next_queue (i empty : nat) (maxCount : Z) (P : pool) : pool :=
  if decide (i < NOT_SUPPORT_index)%nat then set_manager (Round (S i) empty maxCount) P
  else if decide (empty = S NOT_SUPPORT_index) then set_waitTime (AdjustWaitTime (waitTime P) maxCount) (set_manager (Round 0 0 0) P)
  else set_manager (Round 0 0 maxCount) P.

(** BatchDequeueExec makes one task of the jobs, SingleDequeueExec one of each. *)
Definition tasks_of (i : nat) (jobs : list J) : list task :=
  if decide (i < NOT_SUPPORT_index)%nat then [BatchTask jobs] else SingleTask <$> jobs.

(** What a step of a consumer takes from the queue. *)
Definition takes (t : nat) (s s' : @qstate J) : list J :=
  match pos_of t s, pos_of t s' with
  | Scan p _ _ _ _ _ _, Scan _ _ _ _ _ _ _ => match producers s !! p with Some x => take 1 (queue x) | None => [] end
  | _, _ => []
  end.

Inductive outcome : Type :=
  | Next (P : pool)
  | Throws
  | Undefined.

(** The size is converted to int; reserve of a negative number throws.  Only the
    thread of the pool dequeues. *)
Inductive pstep (P : pool) : outcome -> Prop :=
  | p_thread i t s s' :
      queues P !! i = Some s -> t <> MANAGER -> step (Some t) s (Some s') -> reads (pos_of t s') = false ->
      pstep P (Next (set_queue i s' P))
  | p_collector i s s' :
      queues P !! i = Some s -> step None s (Some s') -> pstep P (Next (set_queue i s' P))
  | p_collector_undefined i s :
      queues P !! i = Some s -> step None s None -> pstep P Undefined
  | p_size i e m s :
      manager P = Round i e m -> queues P !! i = Some s -> pos_of MANAGER s = Idle ->
      pstep P (Next (set_manager (Sizing i e m) (set_queue i (at_pos MANAGER (Sum (active_producers s) 0) s) P)))
  | p_sum i e m s s' p l n :
      manager P = Sizing i e m -> queues P !! i = Some s -> pos_of MANAGER s = Sum (p :: l) n -> step (Some MANAGER) s (Some s') ->
      pstep P (Next (set_queue i s' P))
  | p_sized i e m s n :
      manager P = Sizing i e m -> queues P !! i = Some s -> pos_of MANAGER s = Sum [] n ->
      pstep P (Next (set_manager (Sized i e m (s32 n)) (set_queue i (at_pos MANAGER Idle s) P)))
  | p_empty i e m :
      manager P = Sized i e m 0 -> pstep P (Next (next_queue i (S e) m P))
  | p_reserve i e m n s :
      manager P = Sized i e m n -> queues P !! i = Some s -> Z.min n (BatchSize cfg) < 0 -> pstep P Throws
  | p_nothing i e m n s :
      manager P = Sized i e m n -> n <> 0 -> queues P !! i = Some s -> Z.min n (BatchSize cfg) = 0 \/ 0 < Z.min n (BatchSize cfg) /\ active_producers s = [] ->
      pstep P (Next (next_queue i e (Z.max m n) P))
  | p_dequeue i e m n s p start :
      manager P = Sized i e m n -> 0 < Z.min n (BatchSize cfg) -> queues P !! i = Some s -> pos_of MANAGER s = Idle -> nth_producer start 0 s = Some p ->
      pstep P (Next (set_manager (Dequeue i e (Z.max m n) [])
        (set_queue i (begin_dequeue MANAGER p true (Z.to_nat (Z.min n (BatchSize cfg))) start s) P)))
  | p_take i e m js s s' :
      manager P = Dequeue i e m js -> queues P !! i = Some s -> pos_of MANAGER s <> Idle -> step (Some MANAGER) s (Some s') ->
      pstep P (Next (set_manager (Dequeue i e m (js ++ takes MANAGER s s')) (set_queue i s' P)))
  | p_taken_none i e m s :
      manager P = Dequeue i e m [] -> queues P !! i = Some s -> pos_of MANAGER s = Idle -> pstep P (Next (next_queue i e m P))
  | p_taken i e m js s :
      manager P = Dequeue i e m js -> js <> [] -> queues P !! i = Some s -> pos_of MANAGER s = Idle ->
      pstep P (Next (set_manager (Give i e m (tasks_of i js)) P))
  | p_give i e m t ts c cs w :
      manager P = Give i e m (t :: ts) -> connPool P = c :: cs -> workers P !! c = Some w ->
      pstep P (Next (set_manager (Give i e m ts)
        (set_worker c (Exec t w) cs [] P)))
  | p_given i e m :
      manager P = Give i e m [] -> pstep P (Next (next_queue i e m P))
  | p_pull c w w' :
      workers P !! c = Some w -> BackgroundWorker_pull w = Some w' -> pstep P (Next (set_worker c w' (connPool P) [] P))
  | p_done c js w w' :
      workers P !! c = Some w -> BackgroundWorker_done w = Some (js, w') -> pstep P (Next (set_worker c w' (connPool P ++ [c]) js P)).

Inductive preachable (n : nat) : pool -> Prop :=
  | preach_new : preachable n (new_pool n)
  | preach_step P P' : preachable n P -> pstep P (Next P') -> preachable n P'.

(** ** Jobs *)

(** A field of all queues of a map, one after the other. *)
Definition all {K A : Type} (f : K -> list A) (m : gmap nat K) : list A := map_to_list m ≫= (fun q => f q.2).

Lemma all_new {K A} (f : K -> list A) m p y : m !! p = None -> all f (<[p := y]> m) ≡ₚ f y ++ all f m.
Proof. intros H. unfold all. by rewrite map_to_list_insert. Qed.

Lemma all_set {K A} (f : K -> list A) m p x y r :
  m !! p = Some x -> f y ≡ₚ f x ++ r -> all f (<[p := y]> m) ≡ₚ all f m ++ r.
Proof.
  intros H E. rewrite <- insert_delete_eq, all_new by apply lookup_delete_eq.
  rewrite <- (insert_delete_id m p x H) at 2. rewrite all_new by apply lookup_delete_eq.
  rewrite E, <- !app_assoc. by rewrite (Permutation_app_comm r).
Qed.

Lemma all_same {K A} (f : K -> list A) m p x y : m !! p = Some x -> f y = f x -> all f (<[p := y]> m) ≡ₚ all f m.
Proof. intros H E. rewrite (all_set f m p x y []); [by rewrite app_nil_r|done|by rewrite E, app_nil_r]. Qed.

Lemma fresh_producer (s : @qstate J) : inv s -> producers s !! next_p s = None.
Proof.
  intros I. destruct (producers s !! next_p s) as [j|] eqn:E; [|done]. destruct (inv_info s I _ _ E) as (_ & _ & _ & _ & Hl). lia.
Qed.

Lemma exit_taken t p x (s : @qstate J) : producers s !! p = Some x -> all taken (producers (on_thread_exit t p x s)) ≡ₚ all taken (producers s).
Proof. intros Hp. unfold on_thread_exit. case_decide; [done|]. by apply (all_same taken _ p x). Qed.

(** A step of the queue takes just what the thread of the step gets. *)
Lemma step_taken l s s' :
  inv s -> step l s (Some s') ->
  all taken (producers s') ≡ₚ all taken (producers s) ++ match l with Some t => takes t s s' | None => [] end.
Proof.
  intros I H. inversion H as [t p vs s0 Ht Hm|t vs s0 Ht Hm Hr|t p v vs k i s0 Ht Hp Hb|t p vs k i s0 Ht Hp|t p b max start s0 Ht Hmax Hb Hn
    |t p b max start i total stolen x x' s0 Ht Hlt Hp Hx|t p b max start i total stolen x s0 Ht Hp Hx|t p b max start i total stolen x s0 Ht Hp
    |t s0 Ht|t p l0 n x s0 Ht Hp|t n s0 Ht|t p x s0 Ht Hr Hm Hp|s0 Hr Hg]; subst; unfold takes; rewrite ?Ht, ?pos_of_at, ?decide_True, ?app_nil_r by done;
    try done.
  - simpl. by rewrite all_new by by apply fresh_producer.
  - by apply (all_same taken _ p i).
  - by apply (all_same taken _ p i).
  - destruct (pop_Some x x' Hx) as (v & Hq & Htk & _). rewrite Hp, Hq. simpl. apply (all_set taken _ p x); [done|]. by rewrite Htk.
  - by apply (all_same taken _ p x).
  - by apply exit_taken.
  - match goal with E : _ = Some s' |- _ => apply bind_Some in E as (l' & Hl & [= <-]) end. done.
Qed.

(** ** Sizes

    The size that is kept of a queue, without wrapping. *)
Definition val (s : @qstate J) (p : nat) : Z := Z.of_nat (queue_length s p) + owed p (threads s).

Definition vsum (s : @qstate J) (l : list nat) : Z := foldr (fun p n => val s p + n) 0 l.

Lemma vsum_app s l l' : vsum s (l ++ l') = vsum s l + vsum s l'.
Proof. induction l; simpl; lia. Qed.

Lemma vsum_mono s s' l : (forall p, p ∈ l -> val s p <= val s' p) -> vsum s l <= vsum s' l.
Proof.
  induction l as [|p l IH]; intros H; simpl; [lia|]. pose proof (H p ltac:(set_solver)). pose proof (IH ltac:(set_solver)). lia.
Qed.

Lemma vsum_sublist s l' l : l' `sublist_of` l -> NoDup l -> (forall p, p ∈ l -> p ∉ l' -> val s p = 0) -> vsum s l = vsum s l'.
Proof.
  induction 1 as [|x l1 l2 Hs IH|x l1 l2 Hs IH]; intros Hd H; [done|..]; apply NoDup_cons in Hd as [Hx Hd]; simpl.
  - rewrite IH; [done|done|]. intros p Hp Hn. apply H; [set_solver|]. rewrite elem_of_cons. intros [->|]; done.
  - rewrite (H x); [|set_solver|]. { rewrite IH; [lia|done|]. intros p Hp Hn. apply H; set_solver. }
    intros Hin. apply Hx. by eapply elem_of_sublist.
Qed.

Lemma vsum_less s s' l p k : NoDup l -> 0 <= k -> val s' p = val s p - k -> (forall q, q <> p -> val s' q = val s q) -> vsum s l - k <= vsum s' l.
Proof.
  induction l as [|q l IH]; intros Hd Hk Hp Ho; simpl; [lia|]. apply NoDup_cons in Hd as [Hq Hd].
  destruct (decide (q = p)) as [->|Hn].
  - assert (vsum s l <= vsum s' l); [|lia]. apply vsum_mono. intros r Hr. rewrite Ho; [lia|]. by intros ->.
  - rewrite (Ho q Hn). specialize (IH Hd Hk Hp Ho). lia.
Qed.

Lemma val_at t x (s : @qstate J) p : val (at_pos t x s) p = val s p - owes p (pos_of t s) + owes p x.
Proof. unfold val. simpl. rewrite owed_insert. fold (pos_of t s). change (queue_length (at_pos t x s) p) with (queue_length s p). lia. Qed.

Lemma queue_length_set p y (s : @qstate J) q : queue_length (set_producer p y s) q = if decide (p = q) then length (queue y) else queue_length s q.
Proof. unfold queue_length. simpl. destruct (decide (p = q)) as [->|]; [by rewrite lookup_insert_eq|by rewrite lookup_insert_ne]. Qed.

Lemma val_set p x y (s : @qstate J) q :
  producers s !! p = Some x ->
  val (set_producer p y s) q = val s q + (if decide (p = q) then Z.of_nat (length (queue y)) - Z.of_nat (length (queue x)) else 0).
Proof.
  intros Hp. unfold val. rewrite queue_length_set. change (threads (set_producer p y s)) with (threads s).
  destruct (decide (p = q)) as [<-|]; [|lia]. unfold queue_length. rewrite Hp. lia.
Qed.

Lemma val_zero (s : @qstate J) p i :
  inv s -> no_readers s -> producers s !! p = Some i -> (forall t vs k, pos_of t s = Have p vs k -> k = 0%nat) -> approx_size i = 0 -> val s p = 0.
Proof.
  intros I Hr Hp Hh Ha. unfold val, queue_length. rewrite Hp, (size_zero_empty s p i), (owed_quiet s p) by done. done.
Qed.

(** The thread of the step does not hold the shared lock. *)
Definition quiet (l : option nat) (s s' : @qstate J) : Prop :=
  match l with Some t => reads (pos_of t s) = false /\ reads (pos_of t s') = false | None => True end.

Lemma exit_val t p x (s : @qstate J) q : producers s !! p = Some x -> val (on_thread_exit t p x s) q = val s q.
Proof.
  intros Hp. unfold on_thread_exit. case_decide; [done|]. transitivity (val (set_producer p (deactivate x) s) q); [done|].
  rewrite (val_set p x) by done. simpl. case_decide; lia.
Qed.

Lemma exit_vsum t p x (s : @qstate J) :
  inv s -> no_readers s -> pos_of t s = Idle -> producer_map s !! t = Some p -> producers s !! p = Some x ->
  vsum s (active_producers s) = vsum (on_thread_exit t p x s) (active_producers (on_thread_exit t p x s)).
Proof.
  intros I Hr Ht Hm Hp. transitivity (vsum s (active_producers (on_thread_exit t p x s))).
  - unfold on_thread_exit. case_decide as Hz; [|done]. simpl. apply vsum_sublist; [apply sublist_filter|by apply inv_NoDup|].
    intros q Hq Hn. assert (q = p) as -> by (destruct (decide (q = p)); [done|]; destruct Hn; by apply list_elem_of_filter).
    apply (val_zero s p x); eauto using no_have.
  - apply Z.le_antisymm; apply vsum_mono; intros q _; rewrite (exit_val t p x s q Hp); lia.
Qed.

Lemma create_val t x (s : @qstate J) q : inv s -> pos_of t s = Idle -> owes q x = 0 -> val (at_pos t x (create t s)) q = val s q.
Proof.
  intros I Ht Hx. rewrite val_at. change (pos_of t (create t s)) with (pos_of t s). rewrite Ht, Hx. unfold val, queue_length. simpl.
  destruct (decide (next_p s = q)) as [<-|Hn]; [rewrite lookup_insert_eq, fresh_producer by done|rewrite lookup_insert_ne by done]; simpl; lia.
Qed.

Lemma fresh_val (s : @qstate J) : inv s -> val s (next_p s) = 0.
Proof.
  intros I. unfold val, queue_length. rewrite fresh_producer by done. rewrite owed_zero; [done|]. intros t. fold (pos_of t s).
  pose proof (inv_pos s I t) as Hx. pose proof (fresh_producer s I) as Hf.
  destruct (pos_of t s); simpl in *; try done; case_decide; subst; try done.
  - destruct (inv_map s I _ _ Hx) as (j & Hj & _). congruence.
  - destruct Hx. congruence.
Qed.

Lemma vsum_grows (s s' : @qstate J) :
  active_producers s' = active_producers s -> (forall q, val s q <= val s' q) ->
  vsum s (active_producers s) <= vsum s' (active_producers s') /\ (no_readers s \/ active_producers s' = active_producers s /\ forall p, val s p <= val s' p).
Proof. intros E H. rewrite E. split; [by apply vsum_mono|by right]. Qed.

(** Steps of other threads do not make the sizes smaller. *)
Lemma thread_step l (s s' : @qstate J) :
  inv s -> step l s (Some s') -> quiet l s s' ->
  (forall t, l <> Some t -> pos_of t s' = pos_of t s) /\ vsum s (active_producers s) <= vsum s' (active_producers s') /\
  (no_readers s \/ active_producers s' = active_producers s /\ forall p, val s p <= val s' p).
Proof.
  intros I H Hq. inversion H as [t p vs s0 Ht Hm|t vs s0 Ht Hm Hr|t p v vs k i s0 Ht Hp Hb|t p vs k i s0 Ht Hp|t p b max start s0 Ht Hmax Hb Hn
    |t p b max start i total stolen x x' s0 Ht Hlt Hp Hx|t p b max start i total stolen x s0 Ht Hp Hx|t p b max start i total stolen x s0 Ht Hp
    |t s0 Ht|t p l0 n x s0 Ht Hp|t n s0 Ht|t p x s0 Ht Hr Hm Hp|s0 Hr Hg]; subst; simpl in Hq; rewrite ?Ht, ?pos_of_at, ?decide_True in Hq by done; try (by destruct Hq);
    try (split; [by intros t' Hn'; rewrite pos_of_at, decide_False by congruence|]).
  - apply vsum_grows; [done|intros q]. rewrite val_at, Ht. simpl. case_decide; lia.
  - split; [|by left]. simpl. rewrite vsum_app. simpl.
    assert (E : forall q, val (at_pos t (Have (next_p s) vs 0) (create t s)) q = val s q) by (intros q; apply create_val; auto; simpl; by case_decide).
    rewrite E, fresh_val by done. assert (vsum s (active_producers s) <= vsum (at_pos t (Have (next_p s) vs 0) (create t s)) (active_producers s)); [|lia].
    apply vsum_mono. intros q _. rewrite E. lia.
  - apply vsum_grows; [done|intros q]. rewrite val_at, (val_set p i) by done.
    change (pos_of t (set_producer p (push v i) s)) with (pos_of t s). rewrite Ht. simpl. rewrite length_app. simpl. case_decide; lia.
  - apply vsum_grows; [done|intros q]. rewrite val_at, (val_set p i) by done.
    change (pos_of t (set_producer p (fetch_add (Z.of_nat k) i) s)) with (pos_of t s). rewrite Ht. simpl. case_decide; lia.
  - split; [|split; [|by left]].
    + intros t' _. unfold on_thread_exit. by case_decide.
    + by rewrite <- (exit_vsum t p x s).
  - match goal with E : _ = Some s' |- _ => apply bind_Some in E as (l' & Hl & [= <-]) end. split; [done|]. split; [|by left].
    destruct (collect_spec _ _ _ Hl) as [Hs Hk]. change (vsum (collected l' s)) with (vsum s). simpl.
    rewrite (vsum_sublist s l' (active_producers s)); [done|done|by apply inv_NoDup|].
    intros p Hp Hn. destruct (garbage_spec s p I) as (i & Hi & Ha & _ & Hh); [|by apply (val_zero s p i)].
    apply not_false_is_true. intros E. by apply Hn, Hk.
Qed.

(** What the manager relies on in a queue: there are as many jobs as it may take. *)
Definition manager_ok (s : @qstate J) : Prop :=
  match pos_of MANAGER s with
  | Idle => 0 <= vsum s (active_producers s)
  | Have _ _ _ => False
  | Scan _ _ max _ _ total stolen => Z.of_nat (max - total) <= vsum s (active_producers s) /\ (stolen <= max - total)%nat
  | Test _ _ max _ _ total _ => Z.of_nat (max - total) <= vsum s (active_producers s)
  | Sum l n => exists n0 l0, active_producers s = l0 ++ l /\ n = u64 n0 /\ 0 <= n0 + vsum s l /\ n0 <= vsum s l0
  end.

Lemma others_step l (s s' : @qstate J) :
  inv s -> step l s (Some s') -> quiet l s s' -> l <> Some MANAGER -> manager_ok s ->
  manager_ok s' /\ pos_of MANAGER s' = pos_of MANAGER s /\ vsum s (active_producers s) <= vsum s' (active_producers s').
Proof.
  intros I H Hq Hl Hm. destruct (thread_step l s s' I H Hq) as (Hpos & Hsum & Hr). split_and!; [|by apply Hpos|done].
  unfold manager_ok in *. rewrite (Hpos _ Hl). destruct (pos_of MANAGER s) as [| |p b max start i total stolen|p b max start i total stolen|l1 n] eqn:E; try lia; try done.
  destruct Hr as [Hr|[Ha Hv]]; [specialize (Hr MANAGER); by rewrite E in Hr|].
  destruct Hm as (n0 & l0 & Hact & Hn & H0 & H1). exists n0, l0. rewrite Ha. split_and!; [done|done|..].
  - pose proof (vsum_mono s s' l1 ltac:(auto)). lia.
  - pose proof (vsum_mono s s' l0 ltac:(auto)). lia.
Qed.

Lemma approx_val (s : @qstate J) p x : inv s -> producers s !! p = Some x -> approx_size x = u64 (val s p).
Proof. intros I Hp. destruct (inv_info s I p x Hp) as (_ & _ & -> & _). unfold val, queue_length. by rewrite Hp. Qed.

Lemma vsum_same (s s' : @qstate J) l : (forall p, val s' p = val s p) -> vsum s' l = vsum s l.
Proof. intros H. induction l; simpl; [done|]. rewrite H. lia. Qed.

(** The steps of the manager keep it. *)
Lemma manager_step (s s' : @qstate J) :
  inv s -> step (Some MANAGER) s (Some s') -> reads (pos_of MANAGER s) = true -> manager_ok s ->
  manager_ok s' /\ forall t, t <> MANAGER -> pos_of t s' = pos_of t s.
Proof.
  intros I H Hr Hm. inversion H as [t p vs s0 Ht Hmm|t vs s0 Ht Hmm Hnr|t p v vs k i s0 Ht Hp Hb|t p vs k i s0 Ht Hp|t p b max start s0 Ht Hmax Hb Hn
    |t p b max start i total stolen x x' s0 Ht Hlt Hp Hx|t p b max start i total stolen x s0 Ht Hp Hx|t p b max start i total stolen x s0 Ht Hp
    |t s0 Ht|t p l0 n x s0 Ht Hp|t n s0 Ht|t p x s0 Ht Hnr Hmm Hp|s0 Hnr Hg]; subst; rewrite Ht in Hr; try done;
    (split; [|by intros t' Hn'; rewrite pos_of_at, decide_False by congruence]); unfold manager_ok in *; rewrite Ht in Hm; rewrite pos_of_at, decide_True by done.
  - destruct Hm as [Hm Hs]. destruct (pop_Some x x' Hx) as (v & Hq & _). split; [|lia]. rewrite (vsum_same s); [done|]. intros q.
    rewrite val_at, (val_set p x) by done. change (pos_of MANAGER (set_producer p x' s)) with (pos_of MANAGER s). rewrite Ht, Hq. simpl. case_decide; lia.
  - destruct Hm as [Hm Hs]. set (s1 := at_pos _ _ _).
    assert (E : forall q, val s1 q = val s q - (if decide (p = q) then Z.of_nat stolen else 0)).
    { intros q. unfold s1. rewrite val_at, (val_set p x) by done. change (pos_of MANAGER (set_producer p _ s)) with (pos_of MANAGER s).
      rewrite Ht. simpl. case_decide; lia. }
    pose proof (vsum_less s s1 (active_producers s) p (Z.of_nat stolen) (inv_NoDup s I) ltac:(lia)) as L. change (active_producers s1) with (active_producers s).
    rewrite E, decide_True in L by done. specialize (L eq_refl ltac:(intros q Hq; rewrite E, decide_False by done; lia)). lia.
  - set (s1 := at_pos _ _ _). destruct (next_pos_idle b max start i total s MANAGER I) as [H1 _].
    assert (E : forall l, vsum s1 l = vsum s l).
    { intros l. apply vsum_same. intros q. unfold s1. rewrite val_at, H1. change (pos_of MANAGER (set_needGC _ s)) with (pos_of MANAGER s). rewrite Ht. simpl.
      change (val (set_needGC _ s) q) with (val s q). lia. }
    change (active_producers s1) with (active_producers s). unfold next_pos. case_decide; [rewrite E; lia|].
    destruct (if decide _ then _ else _); rewrite E; [split; lia|lia].
  - destruct Hm as (n0 & la & Hact & Hn & H0 & H1). set (s1 := at_pos _ _ _).
    assert (E : forall l, vsum s1 l = vsum s l) by (intros l; apply vsum_same; intros q; unfold s1; rewrite val_at, Ht; simpl; lia).
    exists (n0 + val s p), (la ++ [p]). rewrite !E, vsum_app. simpl in *. split_and!; try lia; [by rewrite <- app_assoc|].
    rewrite Hn, (approx_val s p x I Hp), wrap_add_l, wrap_add_r. done.
  - destruct Hm as (n0 & la & Hact & Hn & H0 & H1). rewrite (vsum_same s) by (intros q; rewrite val_at, Ht; simpl; lia).
    simpl in *. rewrite Hact, app_nil_r. lia.
Qed.

Definition taken_all (P : pool) : list J := queues P ≫= (fun s => all taken (producers s)).

Lemma taken_set i s s' (P : pool) r :
  queues P !! i = Some s -> all taken (producers s') ≡ₚ all taken (producers s) ++ r -> taken_all (set_queue i s' P) ≡ₚ taken_all P ++ r.
Proof.
  intros Hi E. unfold taken_all. simpl. rewrite <- (take_drop_middle (queues P) i s Hi) at 2.
  rewrite insert_take_drop by by eapply lookup_lt_Some. rewrite !bind_app, !bind_cons, E, <- !app_assoc. by rewrite (Permutation_app_comm r).
Qed.

(** What was taken from the queues is with the manager, with a connection, or done. *)
Definition jobs_ok (P : pool) : Prop := taken_all P ≡ₚ manager_jobs (manager P) ++ all worker_jobs (workers P) ++ executed P.

Lemma next_queue_same i e m (P : pool) :
  queues (next_queue i e m P) = queues P /\ connPool (next_queue i e m P) = connPool P /\ workers (next_queue i e m P) = workers P /\
  executed (next_queue i e m P) = executed P /\ exists i' e' m', manager (next_queue i e m P) = Round i' e' m'.
Proof. unfold next_queue. repeat case_decide; split_and!; simpl; eauto. Qed.

(** Where the manager is and where it is in the queues. *)
Definition at_manager (m : mpos) (i : nat) (s : @qstate J) : Prop :=
  match m with
  | Round _ _ _ | Give _ _ _ _ => pos_of MANAGER s = Idle
  | Sizing i' _ _ | Dequeue i' _ _ _ => i <> i' -> pos_of MANAGER s = Idle
  | Sized i' _ _ n => pos_of MANAGER s = Idle /\ (i = i' -> exists n0, 0 <= n0 <= vsum s (active_producers s) /\ n = s32 (u64 n0))
  end.

Record queue_ok (m : mpos) (i : nat) (s : @qstate J) : Prop := {
  qo_inv : inv s;
  qo_others t : t <> MANAGER -> reads (pos_of t s) = false;
  qo_manager : manager_ok s;
  qo_at : at_manager m i s
}.

Definition queues_ok (P : pool) : Prop := forall i s, queues P !! i = Some s -> queue_ok (manager P) i s.

Lemma queues_ok_set i s s' m (P : pool) :
  queues_ok P -> queues P !! i = Some s -> queue_ok m i s' ->
  (forall j r, j <> i -> at_manager (manager P) j r -> at_manager m j r) -> queues_ok (set_manager m (set_queue i s' P)).
Proof.
  intros Q Hi Hs Hm j r Hj. simpl in Hj. apply list_lookup_insert_Some in Hj as [(<- & <- & _)|[Hn Hj]]; [done|].
  destruct (Q j r Hj) as [Q1 Q2 Q3 Q4]. split; auto.
Qed.

Lemma queues_ok_move m (P P' : pool) :
  queues_ok P -> queues P' = queues P -> manager P' = m -> (forall j r, at_manager (manager P) j r -> queues P !! j = Some r -> at_manager m j r) -> queues_ok P'.
Proof. intros Q E <- Hm j r Hj. rewrite E in Hj. destruct (Q j r Hj) as [Q1 Q2 Q3 Q4]. split; auto. Qed.

(** A step of another thread in queue [i]. *)
Lemma queue_others l m i (s s' : @qstate J) :
  queue_ok m i s -> step l s (Some s') -> l <> Some MANAGER -> (forall t, l = Some t -> reads (pos_of t s') = false) -> queue_ok m i s'.
Proof.
  intros [Q1 Q2 Q3 Q4] H Hl Hr. assert (Hq : quiet l s s') by (destruct l as [t|]; simpl; [|done]; split; [apply Q2; congruence|auto]).
  destruct (others_step l s s' Q1 H Hq Hl Q3) as (H1 & H2 & H3). destruct (thread_step l s s' Q1 H Hq) as [Hpos _]. split; [by eapply inv_step| |done|].
  - intros t Ht. destruct (decide (l = Some t)) as [E|E]; [auto|]. rewrite (Hpos t E). auto.
  - unfold at_manager in *. destruct m; rewrite ?H2; auto. destruct Q4 as [Q4 Q5]. split; [done|]. intros Hi. destruct (Q5 Hi) as (n0 & ? & ?). exists n0. split; [lia|done].
Qed.

(** A step of the manager in queue [i]. *)
Lemma queue_manager m m' i (s s' : @qstate J) :
  queue_ok m i s -> step (Some MANAGER) s (Some s') -> reads (pos_of MANAGER s) = true -> at_manager m' i s' -> queue_ok m' i s'.
Proof.
  intros [Q1 Q2 Q3 Q4] H Hr Ha. destruct (manager_step s s' Q1 H Hr Q3) as [H1 H2]. split; [by eapply inv_step| |done|done].
  intros t Ht. rewrite H2 by done. auto.
Qed.

(** The manager begins to read: its position has no part in the sizes. *)
Lemma queue_enter m m' i x (s : @qstate J) :
  queue_ok m i s -> pos_of MANAGER s = Idle -> step (Some MANAGER) s (Some (at_pos MANAGER x s)) -> (forall q, owes q x = 0) ->
  (forall s', pos_of MANAGER s' = x -> active_producers s' = active_producers s -> (forall l, vsum s' l = vsum s l) -> manager_ok s' /\ at_manager m' i s') ->
  queue_ok m' i (at_pos MANAGER x s).
Proof.
  intros [Q1 Q2 Q3 Q4] Hp Hs Hx H. destruct (H (at_pos MANAGER x s)) as [H1 H2].
  - by rewrite pos_of_at, decide_True.
  - done.
  - intros l. apply vsum_same. intros q. rewrite val_at, Hp, Hx. simpl. lia.
  - split; [by eapply inv_step| |done|done]. intros t Ht. rewrite pos_of_at, decide_False by done. auto.
Qed.

Lemma s32_u64_le x : 0 <= x -> s32 (u64 x) <= x.
Proof.
  intros H. assert (u64 x <= x /\ 0 <= u64 x) as [H1 H2] by (unfold wrap; split; [apply Z.mod_le; lia|apply Z.mod_pos_bound; lia]).
  unfold signed. assert (wrap 32 (u64 x) <= u64 x) by (unfold wrap at 1; apply Z.mod_le; lia). simpl. case_match; lia.
Qed.

Lemma queue_size m i e c (s : @qstate J) :
  queue_ok m i s -> pos_of MANAGER s = Idle -> queue_ok (Sizing i e c) i (at_pos MANAGER (Sum (active_producers s) 0) s).
Proof.
  intros Q Hp. apply (queue_enter m); [done|done|by apply step_size|done|]. intros s' E1 E2 E3. unfold manager_ok. rewrite E1. split; [|by intros []].
  pose proof (qo_manager _ _ _ Q) as Hm. unfold manager_ok in Hm. rewrite Hp in Hm. exists 0, []. rewrite E2, E3. split_and!; simpl; try done; lia.
Qed.

Lemma queue_begin i e c e' c' n p start (s : @qstate J) :
  queue_ok (Sized i e c n) i s -> 0 < Z.min n (BatchSize cfg) -> nth_producer start 0 s = Some p ->
  queue_ok (Dequeue i e' c' []) i (begin_dequeue MANAGER p true (Z.to_nat (Z.min n (BatchSize cfg))) start s).
Proof.
  intros Q Hn Hp. destruct (qo_at _ _ _ Q) as [Hi Hs]. destruct (Hs eq_refl) as (n0 & H0 & E). pose proof (s32_u64_le n0 ltac:(lia)).
  apply (queue_enter (Sized i e c n)); [done|done| |intros q; simpl; by case_decide|].
  - apply step_dequeue; auto; [lia|done].
  - intros s' E1 E2 E3. unfold manager_ok. rewrite E1, E2, E3. split; [split; lia|by intros []].
Qed.

Lemma queue_sized i e c n (s : @qstate J) :
  queue_ok (Sizing i e c) i s -> pos_of MANAGER s = Sum [] n -> queue_ok (Sized i e c (s32 n)) i (at_pos MANAGER Idle s).
Proof.
  intros Q Hp. apply (queue_manager (Sizing i e c) _ i s); [done|by apply (step_sized MANAGER n)|by rewrite Hp|].
  pose proof (qo_manager _ _ _ Q) as Hm. unfold manager_ok in Hm. rewrite Hp in Hm. destruct Hm as (n0 & l0 & Hact & -> & H0 & H1).
  split; [by rewrite pos_of_at, decide_True|]. intros _. exists n0. rewrite (vsum_same s) by (intros q; rewrite val_at, Hp; simpl; lia).
  simpl in *. rewrite Hact, app_nil_r. split; [lia|done].
Qed.

Lemma queues_step P P' : queues_ok P -> pstep P (Next P') -> queues_ok P'.
Proof.
  intros Q H. inversion H as [i t s s' Hi Ht Hs Hr|i s s' Hi Hs| |i e m s Hm Hi Hp|i e m s s' p l n Hm Hi Hp Hs|i e m s n Hm Hi Hp|i e m Hm| |i e m n s Hm Hn Hi Hc
    |i e m n s p start Hm Hn Hi Hp Hc|i e m js s s' Hm Hi Hp Hs|i e m s Hm Hi Hp|i e m js s Hm Hn Hi Hp|i e m t ts c cs w Hm Hc Hw|i e m Hm|c w w' Hw Hpull|c js w w' Hw Hdone]; subst;
    try (destruct (next_queue_same i (S e) m P) as (E1 & _ & _ & _ & i' & e' & m' & E2));
    try (destruct (next_queue_same i e (Z.max m n) P) as (F1 & _ & _ & _ & i2 & e2 & m2 & F2));
    try (destruct (next_queue_same i e m P) as (G1 & _ & _ & _ & i3 & e3 & m3 & G2)).
  - apply (queues_ok_set i s s' (manager P) P); auto. apply (queue_others (Some t) _ i s); [by apply Q|done|congruence|by intros t' [= <-]].
  - apply (queues_ok_set i s s' (manager P) P); auto. by apply (queue_others None _ i s); [apply Q|..].
  - apply (queues_ok_set i s); auto; [by apply (queue_size (manager P)); [apply Q|]|]. rewrite Hm. by intros j r ? Hj _.
  - pose proof (Q i s Hi) as Qi. rewrite Hm in Qi. apply (queues_ok_set i s s' (manager P) P); auto. rewrite Hm.
    apply (queue_manager (Sizing i e m) _ i s); [done|done|by rewrite Hp|by intros []].
  - pose proof (Q i s Hi) as Qi. rewrite Hm in Qi. apply (queues_ok_set i s); auto; [by apply queue_sized|]. rewrite Hm. intros j r Hn Hj. split; [auto|]. by intros ->.
  - apply (queues_ok_move _ P _ Q E1 E2). rewrite Hm. by intros j r [Hj _].
  - apply (queues_ok_move _ P _ Q F1 F2). rewrite Hm. by intros j r [Hj _].
  - pose proof (Q i s Hi) as Qi. rewrite Hm in Qi. apply (queues_ok_set i s); auto; [by eapply queue_begin|]. rewrite Hm. by intros j r ? [Hj _] _.
  - pose proof (Q i s Hi) as Qi. rewrite Hm in Qi. apply (queues_ok_set i s); auto; [|by rewrite Hm].
    apply (queue_manager (Dequeue i e m js) _ i s); [done|done| |by intros []]. pose proof (qo_manager _ _ _ Qi) as Hk. unfold manager_ok in Hk. by destruct (pos_of MANAGER s).
  - apply (queues_ok_move _ P _ Q G1 G2). rewrite Hm. intros j r Hj Hjr. simpl. destruct (decide (j = i)) as [->|]; [congruence|auto].
  - apply (queues_ok_move (Give i e m (tasks_of i js)) P); [done..|]. rewrite Hm. intros j r Hj Hjr. simpl. destruct (decide (j = i)) as [->|]; [congruence|auto].
  - apply (queues_ok_move (Give i e m ts) P); [done..|]. by rewrite Hm.
  - apply (queues_ok_move _ P _ Q G1 G2). by rewrite Hm.
  - by apply (queues_ok_move (manager P) P).
  - by apply (queues_ok_move (manager P) P).
Qed.

Lemma tasks_of_jobs i (js : list J) : tasks_of i js ≫= task_jobs = js.
Proof.
  unfold tasks_of. case_decide; [simpl; by rewrite app_nil_r|]. induction js as [|j js IH]; [done|]. by rewrite fmap_cons, bind_cons, IH.
Qed.

Lemma jobs_next i e m (P : pool) : manager_jobs (manager P) = [] -> jobs_ok P -> jobs_ok (next_queue i e m P).
Proof.
  intros Hj Hk. destruct (next_queue_same i e m P) as (E1 & _ & E2 & E3 & i' & e' & m' & E4). unfold jobs_ok, taken_all in *. rewrite E1, E2, E3, E4. by rewrite Hj in Hk.
Qed.

Lemma jobs_set i s s' m (P : pool) r :
  jobs_ok P -> queues P !! i = Some s -> all taken (producers s') ≡ₚ all taken (producers s) ++ r -> manager_jobs m = manager_jobs (manager P) ++ r ->
  jobs_ok (set_manager m (set_queue i s' P)).
Proof.
  intros Hk Hi E Em. unfold jobs_ok in *. change (taken_all (set_manager m (set_queue i s' P))) with (taken_all (set_queue i s' P)).
  rewrite (taken_set i s s' P r Hi E). simpl. rewrite Em, Hk, <- !app_assoc. apply Permutation_app_head. rewrite app_assoc. apply Permutation_app_comm.
Qed.

Lemma jobs_step P P' : queues_ok P -> jobs_ok P -> pstep P (Next P') -> jobs_ok P'.
Proof.
  intros Q Hk H. inversion H as [i t s s' Hi Ht Hs Hr|i s s' Hi Hs| |i e m s Hm Hi Hp|i e m s s' p l n Hm Hi Hp Hs|i e m s n Hm Hi Hp|i e m Hm| |i e m n s Hm Hn Hi Hc
    |i e m n s p start Hm Hn Hi Hp Hc|i e m js s s' Hm Hi Hp Hs|i e m s Hm Hi Hp|i e m js s Hm Hn Hi Hp|i e m t ts c cs w Hm Hc Hw|i e m Hm|c w w' Hw Hpull|c js w w' Hw Hdone]; subst.
  - apply (jobs_set i s s' (manager P) P []); auto; [|by rewrite app_nil_r]. rewrite (step_taken _ _ _ (qo_inv _ _ _ (Q i s Hi)) Hs). unfold takes.
    destruct (pos_of t s'); try done; by destruct (pos_of t s).
  - apply (jobs_set i s s' (manager P) P []); auto; [|by rewrite app_nil_r]. by rewrite (step_taken _ _ _ (qo_inv _ _ _ (Q i s Hi)) Hs).
  - apply (jobs_set i s _ _ P []); auto; [by rewrite app_nil_r|by rewrite Hm].
  - apply (jobs_set i s s' (manager P) P []); auto; [|by rewrite app_nil_r]. rewrite (step_taken _ _ _ (qo_inv _ _ _ (Q i s Hi)) Hs). unfold takes. by rewrite Hp.
  - apply (jobs_set i s _ _ P []); auto; [by rewrite app_nil_r|by rewrite Hm].
  - apply jobs_next; [by rewrite Hm|done].
  - apply jobs_next; [by rewrite Hm|done].
  - apply (jobs_set i s _ _ P []); auto; [by rewrite app_nil_r|by rewrite Hm].
  - apply (jobs_set i s _ _ P (takes MANAGER s s')); auto; [|by rewrite Hm]. by rewrite (step_taken _ _ _ (qo_inv _ _ _ (Q i s Hi)) Hs).
  - apply jobs_next; [by rewrite Hm|done].
  - unfold jobs_ok in *. simpl. rewrite Hm in Hk. by rewrite tasks_of_jobs.
  - unfold jobs_ok in *. simpl. rewrite Hm in Hk. simpl in Hk. rewrite app_nil_r, (all_set worker_jobs _ c w _ (task_jobs t)); [|done|].
    + change (taken_all _) with (taken_all P). rewrite Hk, <- !app_assoc. rewrite (Permutation_app_swap_app (task_jobs t)). apply Permutation_app_head, Permutation_app_swap_app.
    + unfold worker_jobs. simpl. rewrite bind_app. simpl. rewrite app_nil_r, <- !app_assoc. f_equiv. apply Permutation_app_comm.
  - apply jobs_next; [by rewrite Hm|done].
  - unfold BackgroundWorker_pull in Hpull. destruct (m_workerTaskQueue w) as [|t ts] eqn:Ht, (current w) eqn:Hc; try done. injection Hpull as <-.
    unfold jobs_ok in *. simpl. rewrite app_nil_r, (all_set worker_jobs _ c w _ []); [by rewrite app_nil_r|done|].
    unfold worker_jobs. simpl. rewrite Ht, Hc, !app_nil_r. simpl. apply Permutation_app_comm.
  - apply bind_Some in Hdone as (t & Hc & [= <- <-]). unfold jobs_ok in *. simpl. change (taken_all _) with (taken_all P). rewrite Hk. apply Permutation_app_head.
    set (w' := {| m_workerTaskQueue := m_workerTaskQueue w; current := None |}).
    assert (E : all worker_jobs (workers P) ≡ₚ all worker_jobs (<[c := w']> (workers P)) ++ task_jobs t).
    { rewrite <- (insert_id (workers P) c w Hw) at 1. rewrite <- (insert_insert_eq (workers P) c w w').
      apply (all_set worker_jobs _ c w'); [apply lookup_insert_eq|]. unfold worker_jobs. simpl. by rewrite Hc, app_nil_r. }
    rewrite E, <- app_assoc. apply Permutation_app_head, Permutation_app_comm.
Qed.

(** ** Connections *)

(** A connection is idle and in the pool, or not in the pool and has one task. *)
Definition conn_ok (cs : list nat) (c : nat) (w : worker) : Prop :=
  (c ∈ cs /\ w = idle_worker) \/
  (c ∉ cs /\ exists t, w = {| m_workerTaskQueue := [t]; current := None |} \/ w = {| m_workerTaskQueue := []; current := Some t |}).

Definition conns_ok (P : pool) : Prop := NoDup (connPool P) /\ map_Forall (conn_ok (connPool P)) (workers P).

Lemma conns_same (P P' : pool) : conns_ok P -> connPool P' = connPool P -> workers P' = workers P -> conns_ok P'.
Proof. unfold conns_ok. by intros H -> ->. Qed.

Lemma conns_set c w cs js (P : pool) :
  conns_ok P -> NoDup cs -> conn_ok cs c w -> (forall d, d <> c -> d ∈ cs <-> d ∈ connPool P) -> conns_ok (set_worker c w cs js P).
Proof.
  intros [Hd Hw] Hn Hc Ho. split; [done|]. simpl. intros d v Hv. apply lookup_insert_Some in Hv as [[<- <-]|[Hne Hv]]; [done|].
  unfold conn_ok. rewrite (Ho d) by done. by apply (Hw d v).
Qed.

Lemma conns_step P P' : conns_ok P -> pstep P (Next P') -> conns_ok P'.
Proof.
  intros C H. inversion H as [i t s s' Hi Ht Hs Hr|i s s' Hi Hs| |i e m s Hm Hi Hp|i e m s s' p l n Hm Hi Hp Hs|i e m s n Hm Hi Hp|i e m Hm| |i e m n s Hm Hn Hi Hc
    |i e m n s p start Hm Hn Hi Hp Hc|i e m js s s' Hm Hi Hp Hs|i e m s Hm Hi Hp|i e m js s Hm Hn Hi Hp|i e m t ts c cs w Hm Hc Hw|i e m Hm|c w w' Hw Hpull|c js w w' Hw Hdone]; subst;
    try (by apply (conns_same P)); try (by apply (conns_same P); [|apply next_queue_same..]).
  - destruct C as [Hd Hf] eqn:EC. clear EC. pose proof Hd as Hd'. rewrite Hc in Hd'. apply NoDup_cons in Hd' as [Hn Hd'].
    assert (w = idle_worker) as -> by (destruct (Hf c w Hw) as [[_ ->]|[Hn' _]]; [done|]; destruct Hn'; rewrite Hc; set_solver).
    apply (conns_same (set_worker c {| m_workerTaskQueue := [t]; current := None |} cs [] P)); [|done..].
    apply conns_set; [done|done|right; eauto|]. intros d Hdc. rewrite Hc. set_solver.
  - destruct C as [Hd Hf] eqn:EC. clear EC. destruct (Hf c w Hw) as [[_ ->]|(Hn & t' & [->| ->])]; [done| |done].
    injection Hpull as <-. apply conns_set; [done|done|right; eauto|done].
  - destruct C as [Hd Hf] eqn:EC. clear EC. destruct (Hf c w Hw) as [[_ ->]|(Hn & t' & [->| ->])]; [done|done|].
    injection Hdone as <- <-. apply conns_set; [done| |left; split; [set_solver|done]|set_solver]. apply NoDup_app. split_and!; [done|set_solver|apply NoDup_singleton].
Qed.

(** ** The pool *)

Lemma all_app {K A} (f g h : K -> list A) m : map_Forall (fun _ x => f x ≡ₚ g x ++ h x) m -> all f m ≡ₚ all g m ++ all h m.
Proof.
  induction m as [|p x m Hp IH] using map_ind; intros H; [done|]. apply map_Forall_insert in H as [Hx H]; [|done].
  rewrite !all_new by done. rewrite Hx, (IH H), <- !app_assoc. apply Permutation_app_head, Permutation_app_swap_app.
Qed.

Lemma new_workers n c w : workers (new_pool n) !! c = Some w -> c ∈ seq 0 n /\ w = idle_worker.
Proof.
  simpl. intros H%elem_of_list_to_map_2. apply list_elem_of_fmap in H as (c' & [= -> ->] & H). done.
Qed.

Lemma new_pool_ok n : queues_ok (new_pool n) /\ jobs_ok (new_pool n) /\ conns_ok (new_pool n).
Proof.
  split_and!.
  - intros i s Hi. apply lookup_replicate_1 in Hi as [-> _]. split; [apply queue_inv_new|done|apply Z.le_refl|done].
  - unfold jobs_ok. change (taken_all (new_pool n)) with (@nil J). change (executed (new_pool n)) with (@nil J). rewrite app_nil_r.
    assert (all worker_jobs (workers (new_pool n)) = []) as ->; [|done]. unfold all.
    destruct (map_to_list (workers (new_pool n)) ≫= _) as [|j js] eqn:E; [done|].
    assert (j ∈ map_to_list (workers (new_pool n)) ≫= (fun q => worker_jobs q.2)) as Hj by (rewrite E; set_solver).
    apply list_elem_of_bind in Hj as ([c w] & Hj & Hw%elem_of_map_to_list). apply new_workers in Hw as [_ ->]. by apply elem_of_nil in Hj.
  - split; [apply NoDup_seq|]. intros c w Hw. left. by apply new_workers.
Qed.

Lemma pool_ok n P : preachable n P -> queues_ok P /\ jobs_ok P /\ conns_ok P.
Proof.
  induction 1 as [|P P' _ (Q & Hj & C) H]; [apply new_pool_ok|]. split_and!; [by eapply queues_step|by eapply jobs_step|by eapply conns_step].
Qed.

Definition sent_all (P : pool) : list J := queues P ≫= (fun s => all sent (producers s)).
Definition queued_all (P : pool) : list J := queues P ≫= (fun s => all queue (producers s)).

(** C11: no job is lost and none is executed twice, in every interleaving of the threads
    that dispatch jobs, of the thread of the pool and of those of the connections:
    what was enqueued is in a queue, with the thread of the pool, with a connection or
    done, as many times as it was enqueued. *)
Theorem pool_jobs_once n P :
  preachable n P -> sent_all P ≡ₚ queued_all P ++ manager_jobs (manager P) ++ all worker_jobs (workers P) ++ executed P.
Proof.
  intros H. destruct (pool_ok n P H) as (Q & Hj & _). unfold jobs_ok in Hj. rewrite <- Hj. unfold sent_all, queued_all, taken_all.
  assert (Forall inv (queues P)) as Hi by (apply Forall_lookup; intros i s Hs; by apply (Q i s)).
  induction Hi as [|s qs Hs Hqs IH] in |- *; [done|]. rewrite !bind_cons, IH, <- !app_assoc, (all_app sent queue taken).
  - rewrite <- !app_assoc. apply Permutation_app_head, Permutation_app_swap_app.
  - intros p x Hp. destruct (inv_info s Hs p x Hp) as (-> & _). apply Permutation_app_comm.
Qed.

(** C26: a connection works on one task at a time, and one that has a task is not given
    another: those in the pool are idle, each is there once, and the others have just
    one task. *)
Theorem pool_connections n P c w :
  preachable n P -> workers P !! c = Some w ->
  NoDup (connPool P) /\
  ((c ∈ connPool P /\ m_workerTaskQueue w = [] /\ current w = None) \/
   (c ∉ connPool P /\ exists t, (m_workerTaskQueue w = [t] /\ current w = None) \/ (m_workerTaskQueue w = [] /\ current w = Some t))).
Proof.
  intros H Hw. destruct (pool_ok n P H) as (_ & _ & Hd & Hf). split; [done|].
  destruct (Hf c w Hw) as [[Hc ->]|(Hc & t & [->| ->])]; [by left|right; eauto..].
Qed.

Lemma owed_nonpos p (m : gmap nat (@pos J)) : map_Forall (fun _ x => reads x = false) m -> owed p m <= 0.
Proof.
  induction m as [|t x m Ht IH] using map_ind; intros H; [done|]. apply map_Forall_insert in H as [Hx H]; [|done].
  rewrite owed_insert, Ht. specialize (IH H). destruct x; try done; simpl; [lia|]. case_decide; lia.
Qed.

Lemma vsum_le_jobs (s : @qstate J) l : (forall p, owed p (threads s) <= 0) -> vsum s l <= Z.of_nat (jobs s l).
Proof.
  intros Ho. induction l as [|p l IH]; [done|]. specialize (Ho p). unfold jobs in *. simpl. unfold val at 1. lia.
Qed.

Lemma idle_vsum m i s : queue_ok m i s -> pos_of MANAGER s = Idle -> vsum s (active_producers s) <= Z.of_nat (jobs s (active_producers s)).
Proof.
  intros [_ Q2 _ _] Hp. apply vsum_le_jobs. intros p. apply owed_nonpos. intros t x Hx. destruct (decide (t = MANAGER)) as [->|Hne].
  - unfold pos_of in Hp. rewrite Hx in Hp. simpl in Hp. by rewrite Hp.
  - specialize (Q2 t Hne). unfold pos_of in Q2. by rewrite Hx in Q2.
Qed.

(** C25: the number of jobs that the thread of the pool asks for.  Although the size of a
    queue can be less than 0 while a thread enqueues, the sum that size_approx reads,
    one queue after the other, is between 0 and the number of jobs there are; so
    reserve never gets a negative number, which would end the process, as long as
    there are fewer than 2^31 jobs in a queue. *)
Theorem pool_size_bound n P :
  preachable n P -> 1 <= BatchSize cfg -> (forall i s, queues P !! i = Some s -> Z.of_nat (jobs s (active_producers s)) < 2 ^ 31) ->
  (forall i e m q s, manager P = Sized i e m q -> queues P !! i = Some s -> 0 <= q <= Z.of_nat (jobs s (active_producers s))) /\
  ~ pstep P Throws.
Proof.
  intros H Hb Hj. destruct (pool_ok n P H) as (Q & _).
  assert (B : forall i e m q s, manager P = Sized i e m q -> queues P !! i = Some s -> 0 <= q <= Z.of_nat (jobs s (active_producers s))).
  { intros i e m q s Hm Hi. pose proof (Q i s Hi) as Qi. rewrite Hm in Qi. destruct (qo_at _ _ _ Qi) as [Hp Hn]. destruct (Hn eq_refl) as (n0 & H0 & ->).
    pose proof (idle_vsum _ _ _ Qi Hp). specialize (Hj i s Hi). rewrite (wrap_small 64), s32_small by (unfold in_range; lia). lia. }
  split; [done|]. intros Ht. inversion Ht as [| | | | | | |i e m q s Hm Hi Hq| | | | | | | | |]. specialize (B _ _ _ _ _ Hm Hi). lia.
Qed.

End pool.

(** ** An example *)

Module PoolDemo.

Definition demo_config : pool_config := {| BatchSize := 512; WaitAdjust := 1; WaitMin := 1; WaitMax := 500 |}.

Notation run := (preachable demo_config 1).

Definition s1 : @qstate Z := at_pos 1 (Have 0 [7] 0) (create 1 new_queue).
Definition s2 : @qstate Z := at_pos 1 (Have 0 [] 1) (set_producer 0 (push 7 new_ProducerInfo) s1).

(** Thread 1 enqueues a job. *)
Definition P1 : pool := set_queue 0 QueueDemo.sent1 (new_pool 1).

Lemma P1_run : run P1.
Proof.
  assert (H1 : run (set_queue 0 s1 (new_pool 1))).
  { eapply preach_step; [apply preach_new|]. by apply (p_thread demo_config _ 0 1 new_queue); [| |apply step_create; [| |apply QueueDemo.no_readers_check]|]. }
  assert (H2 : run (set_queue 0 s2 (new_pool 1))).
  { eapply preach_step; [apply H1|]. by apply (p_thread demo_config (set_queue 0 s1 (new_pool 1)) 0 1 s1 s2); [| |apply (step_push 1 0 7 [] 0 new_ProducerInfo)|]. }
  eapply preach_step; [apply H2|].
  by apply (p_thread demo_config (set_queue 0 s2 (new_pool 1)) 0 1 s2 QueueDemo.sent1); [| |apply (step_pushed 1 0 [] 1 (push 7 new_ProducerInfo))|].
Qed.

(** The manager reads the size of the queue. *)
Definition q2 : @qstate Z := at_pos 0 (Sum [0%nat] 0) QueueDemo.sent1.
Definition q3 : @qstate Z := at_pos 0 (Sum [] 1) q2.
Definition q4 : @qstate Z := at_pos 0 Idle q3.
Definition P4 : pool := set_manager (Sized 0 0 0 1) (set_queue 0 q4 P1).

Lemma P4_run : run P4.
Proof.
  assert (H2 : run (set_manager (Sizing 0 0 0) (set_queue 0 q2 P1))) by (eapply preach_step; [apply P1_run|]; by apply (p_size demo_config P1 0 0 0 QueueDemo.sent1)).
  assert (H3 : run (set_manager (Sizing 0 0 0) (set_queue 0 q3 P1))).
  { eapply preach_step; [apply H2|]. by apply (p_sum demo_config (set_manager (Sizing 0 0 0) (set_queue 0 q2 P1)) 0 0 0 q2 q3 0 [] 0);
      [| | |apply (step_sum 0 0 [] 0 (fetch_add 1 (push 7 new_ProducerInfo)))]. }
  eapply preach_step; [apply H3|]. by apply (p_sized demo_config (set_manager (Sizing 0 0 0) (set_queue 0 q3 P1)) 0 0 0 q3 1).
Qed.

Definition x1 : @ProducerInfo Z := fetch_add 1 (push 7 new_ProducerInfo).
Definition x2 : @ProducerInfo Z := {| queue := []; approx_size := 1; active := true; sent := [7]; taken := [7] |}.
Definition q5 : @qstate Z := begin_dequeue 0 0 true 1 0 q4.
Definition q6 : @qstate Z := at_pos 0 (Scan 0 true 1 0 0 0 1) (set_producer 0 x2 q5).
Definition q7 : @qstate Z := at_pos 0 (Test 0 true 1 0 0 1 1) (set_producer 0 (fetch_add (-1) x2) q6).
Definition q8 : @qstate Z := at_pos 0 Idle (set_needGC false q7).

(** It takes the job and gives it to the connection, which is out of the pool then. *)
Definition P8 (js : list Z) (q : qstate) : pool := set_manager (Dequeue 0 0 1 js) (set_queue 0 q P1).
Definition P10 : pool :=
  set_manager (Give 0 0 1 []) (set_worker 0 {| m_workerTaskQueue := [BatchTask [7]]; current := None |} [] [] (P8 [7] q8)).

Lemma P10_run : run P10.
Proof.
  assert (H5 : run (P8 [] q5)) by (eapply preach_step; [apply P4_run|]; by apply (p_dequeue demo_config P4 0 0 0 1 q4 0 0)).
  assert (H6 : run (P8 [7] q6)).
  { eapply preach_step; [apply H5|]. apply (p_take demo_config (P8 [] q5) 0 0 1 [] q5 q6); [done|done|done|].
    apply (step_pop 0 0 true 1 0 0 0 0 x1 x2); [done|lia|done|done]. }
  assert (H7 : run (P8 [7] q7)).
  { eapply preach_step; [apply H6|]. apply (p_take demo_config (P8 [7] q6) 0 0 1 [7] q6 q7); [done|done|done|].
    apply (step_popped 0 0 true 1 0 0 0 1 x2); [done|done|by left]. }
  assert (H8 : run (P8 [7] q8)).
  { eapply preach_step; [apply H7|]. apply (p_take demo_config (P8 [7] q7) 0 0 1 [7] q7 q8); [done|done|done|].
    by apply (step_test 0 0 true 1 0 0 1 1 (fetch_add (-1) x2)). }
  assert (H9 : run (set_manager (Give 0 0 1 [BatchTask [7]]) (P8 [7] q8))) by (eapply preach_step; [apply H8|]; by apply (p_taken demo_config (P8 [7] q8) 0 0 1 [7] q8)).
  eapply preach_step; [apply H9|]. by apply (p_give demo_config (set_manager (Give 0 0 1 [BatchTask [7]]) (P8 [7] q8)) 0 0 1 (BatchTask [7]) [] 0 [] idle_worker).
Qed.

Lemma pool_jobs_once_witness : sent_all P10 = [7] /\ sent_all P10 ≡ₚ queued_all P10 ++ all worker_jobs (workers P10).
Proof.
  split; [reflexivity|]. pose proof (pool_jobs_once demo_config 1 P10 P10_run) as H. exact H.
Defined.

Lemma pool_connections_witness : connPool P10 = [] /\ exists w, workers P10 !! 0%nat = Some w /\ exists t, m_workerTaskQueue w = [t] /\ current w = None.
Proof.
  split; [reflexivity|]. exists {| m_workerTaskQueue := [BatchTask [7]]; current := None |}. split; [reflexivity|].
  destruct (pool_connections demo_config 1 P10 0 _ P10_run eq_refl) as [_ [(_ & H & _)|(_ & t & [H|[H _]])]]; [discriminate H|by exists t|discriminate H].
Defined.

Lemma pool_size_bound_witness : manager P4 = Sized 0 0 0 1 /\ ~ pstep demo_config P4 Throws.
Proof.
  split; [reflexivity|]. apply (pool_size_bound demo_config 1 P4 P4_run); [done|].
  intros i s Hi. assert (Hs : Forall (fun s => Z.of_nat (jobs s (active_producers s)) < 2 ^ 31) (queues P4)) by (apply (bool_decide_unpack _); by vm_compute).
  by apply (Forall_lookup_1 _ _ i s Hs).
Defined.

End PoolDemo.
