(* ===== verification/WorkerTask.v ===== *)
(** * From jobs to calls (falcon/connection_pool, falcon/brpc_comm_adapter)

    A request of a client is a job: the services of its items and their bytes.
    The pool puts jobs that may be batched on the queue of their service and has
    one call of the database serve several of them (BatchWorkerTask); a job on
    its own is served by SingleWorkerTask.  The bytes go to the backend through
    shared memory and the answers come back the same way.

    An exception that DoWork throws is not caught by the thread of the
    connection: the process ends. *)

From S2P Require Import FalconPrelude ErrorCode SerializedData MetaSlice MetaMessages MetaProcess.

(** BrpcMetaServiceJob: the types of the request, and the attachment. *)
Record job : Type := mkJob {
  j_type : list Z;
  allow_batch_with_others : bool;
  request_attachment : list Z;
}.

Definition GetReqServiceCnt (j : job) : nat := length (j_type j).
Definition GetReqDatasize (j : job) : Z := Z.of_nat (length (request_attachment j)).
Definition IsEmptyRequest (j : job) : bool := bool_decide (j_type j = []).

(** [None] is the exception. *)
Definition GetFalconMetaServiceType (j : job) (index : nat) : option FalconMetaServiceType :=
  type ← j_type j !! index;
  service ← MetaServiceTypeDecode type;
  if bool_decide (service = NOT_SUPPORTED) then None else Some service.

Definition IsAllowBatchProcess (j : job) : bool :=
  match j_type j with
  | [] => false
  | type :: types => allow_batch_with_others j && forallb (fun t => t =? type) types
  end.

(** ** Dispatch *)

Inductive FalconBatchServiceType : Type :=
| BATCH_MKDIR | BATCH_CREATE | BATCH_STAT | BATCH_UNLINK | BATCH_OPEN | BATCH_CLOSE | NOT_SUPPORT.

#[export] Instance FalconBatchServiceType_eq_dec : EqDecision FalconBatchServiceType.
Proof. solve_decision. Defined.

Definition FalconMetaServiceTypeToBatchServiceType (type : FalconMetaServiceType) : FalconBatchServiceType :=
  match type with
  | MKDIR => BATCH_MKDIR
  | CREATE => BATCH_CREATE
  | STAT => BATCH_STAT
  | UNLINK => BATCH_UNLINK
  | OPEN => BATCH_OPEN
  | CLOSE => BATCH_CLOSE
  | _ => NOT_SUPPORT
  end.

(** A job is dropped without an answer, put on a queue, or refused with an
    exception. *)
Inductive dispatched : Type :=
| Dropped
| Queued (q : FalconBatchServiceType)
| Thrown.

Definition DispatchMetaServiceJob (j : job) : dispatched :=
  if IsEmptyRequest j then Dropped
  else
    match GetFalconMetaServiceType j 0 with
    | None => Thrown
    | Some falconSupportType =>
        Queued (if IsAllowBatchProcess j then FalconMetaServiceTypeToBatchServiceType falconSupportType else NOT_SUPPORT)
    end.

(** ** Serving jobs *)

(** A result of the database: rows, or a text. *)
Inductive pg_result : Type :=
| TuplesOk (row col : Z) (values : list string)
| NotTuples (message : string).

(** The outcome of DoWork: each job has its answer; the process has ended; it
    has read or written outside of a buffer; or the call has not come back. *)
Inductive task_result (S : Type) : Type :=
| Answered (replies : list (list Z)) (s : S)
| Terminated
| OutsideMemory
| Waiting.
Arguments Answered {S} replies s.
Arguments Terminated {S}.
Arguments OutsideMemory {S}.
Arguments Waiting {S}.

(** The outcome of the call through shared memory. *)
Inductive call_result (S : Type) : Type :=
| CallReply (bytes : list Z) (s : S)
| CallError (message : string) (s : S)
| CallGone
| CallHangs.
Arguments CallReply {S} bytes s.
Arguments CallError {S} message s.
Arguments CallGone {S}.
Arguments CallHangs {S}.

Section WorkerTask.
Context {FB : FlatBuffers} (little : bool).
Context {S : Type} (H : MetaHandlers S).
Context (PgMemoryManager DefaultMemoryManager : MemoryManager).
Context (sizeof_info sizeof_slice : Z).
Context (info_junk : nat -> MetaProcessInfoData) (slice_junk : nat -> SliceProcessInfo).
(** What is in shared memory behind the request. *)
Context (behind : list Z).
(** Whether the allocator of shared memory has a block for so many bytes, for
    the pool and for the backend. *)
Context (pool_gives backend_gives : Z -> bool).
(** The end of a transaction: what stays of the state before and the state
    reached. *)
Context (commit : S -> S) (rollback : S -> S -> S).
(** The text of an error of PostgreSQL, by the code that stands for it. *)
Context (error_message : FalconErrorCode -> string).
(** The results of the statements of a plain command. *)
Context (run_command : string -> S -> list pg_result * S).

(** falcon_meta_call_by_serialized_shmem_internal, as a transaction. *)
Definition falcon_meta_call_by_serialized_shmem_internal (type count : Z) (paramBuffer : list Z) (s : S) : call_result S :=
  if INT32_MAX <? count then CallError (error_message UNKNOWN) s
  else
    match MetaProcess little H PgMemoryManager DefaultMemoryManager sizeof_info sizeof_slice info_junk slice_junk type count paramBuffer s with
    | Replied response s' =>
        if backend_gives (sd_size response) then CallReply (valid_bytes response) (commit s')
        else CallError (error_message PROGRAM_ERROR) (rollback s s')
    | Failed e s' => CallError (error_message e) (rollback s s')
    | Crashed => CallGone
    | Unfinished => CallHangs
    end.

(** The message with a code alone; [None] when the memory for it is missing. *)
Definition error_reply (e : FalconErrorCode) (replyBuilder : SerializedData) : option (list Z) :=
  d ← write_segment little replyBuilder (pack_response (error_only e));
  Some (valid_bytes d).

(** The code of an error: success is not one. *)
Definition result_code (message : string) : option FalconErrorCode :=
  r ← FalconErrorMsgAnalyse (Some message);
  Some (if bool_decide (r.1 = SUCCESS) then PROGRAM_ERROR else r.1).

(** The answers are cut out of the reply, for each job as many as it has
    items. *)
Fixpoint split_reply (reply : SerializedData) (p : Z) (jobs : list job) : coding (list (list Z)) :=
  match jobs with
  | [] => Coded []
  | j :: jobs' =>
      match SerializedDataNextSeveralItemSize little reply p (GetReqServiceCnt j) with
      | ItemError => Refused
      | OutOfBounds => Crash
      | ItemSize size =>
          if size =? UINT32_MAX then Refused
          else
            let data := take (Z.to_nat size) (drop (Z.to_nat p) (default [] (sd_buffer reply))) in
            rest ← split_reply reply (u32 (p + size)) jobs';
            mret (data :: rest)
      end
  end.

Definition BatchWorkerTask_DoWork (replyBuilder : SerializedData) (m_jobList : list job) (s : S) : task_result S :=
  match m_jobList with
  | [] => Terminated
  | first :: _ =>
      match GetFalconMetaServiceType first 0 with
      | None => Terminated
      | Some serviceType =>
          if existsb (fun j => negb (Z.land (GetReqDatasize j) SERIALIZED_DATA_ALIGNMENT_MASK =? 0)) m_jobList then Terminated
          else
            let count := u32 (Z.of_nat (sum_list (GetReqServiceCnt <$> m_jobList))) in
            let data := concat (request_attachment <$> m_jobList) in
            let size := u32 (Z.of_nat (length data)) in
            if negb (pool_gives size) then Terminated
            else if size <? Z.of_nat (length data) then OutsideMemory
            else
              match falcon_meta_call_by_serialized_shmem_internal (service_num serviceType) count (data ++ behind) s with
              | CallGone => Terminated
              | CallHangs => Waiting
              | CallError message s' =>
                  match result_code message with
                  | None => OutsideMemory
                  | Some e =>
                      match error_reply e (SerializedDataClear replyBuilder) with
                      | None => Terminated
                      | Some bytes => Answered ((fun _ => bytes) <$> m_jobList) s'
                      end
                  end
              | CallReply bytes s' =>
                  let n := Z.of_nat (length bytes) in
                  match SerializedDataInit (Some bytes) n n None DefaultMemoryManager with
                  | None => Terminated
                  | Some replyData =>
                      match split_reply replyData 0 m_jobList with
                      | Coded replies => Answered replies s'
                      | Refused => Terminated
                      | Crash => OutsideMemory
                      end
                  end
              end
      end
  end.

(** *** A job on its own *)

(** The types of the items, all supported. *)
Definition job_services (j : job) : option (list FalconMetaServiceType) :=
  mapM (GetFalconMetaServiceType j) (seq 0 (GetReqServiceCnt j)).

(** The commands of the loop: neighbours of the same type are merged, plain
    commands are not. *)
Fixpoint merge_types (services : list FalconMetaServiceType) : list (FalconMetaServiceType * nat) :=
  match services with
  | [] => []
  | t :: services' =>
      match merge_types services' with
      | (t', n) :: groups =>
          if bool_decide (t' = t) && negb (bool_decide (t = PLAIN_COMMAND)) then (t, Datatypes.S n) :: groups
          else (t, 1%nat) :: (t', n) :: groups
      | [] => [(t, 1%nat)]
      end
  end.

(** The answer to a call: the bytes of the reply after those of replyData, which
    is empty. *)
Definition single_reply (bytes : list Z) : option (list Z) :=
  let n := Z.of_nat (length bytes) in
  oneReply ← SerializedDataInit (Some bytes) n n None DefaultMemoryManager;
  replyData ← SerializedDataInit None 0 0 None DefaultMemoryManager;
  Some (valid_bytes (default replyData (SerializedDataAppend replyData oneReply))).

Definition answer_error (message : string) (s : S) : task_result S :=
  match result_code message, SerializedDataInit None 0 0 None DefaultMemoryManager with
  | None, _ => OutsideMemory
  | Some e, Some replyData =>
      match error_reply e replyData with
      | None => Terminated
      | Some bytes => Answered [bytes] s
      end
  | Some _, None => Terminated
  end.

(** The text of the command in the request.  That the size of the item could not
    be found is not tested: it is then taken for a length. *)
Definition plain_command (attachment : list Z) : coding string :=
  let n := Z.of_nat (length attachment) in
  match item_at little (mkSerializedData (Some attachment) n n None) 0 with
  | Coded item =>
      match unpack_param item.1 with
      | Some (PlainCommandParam command) => c_str command
      | _ => Refused
      end
  | _ => Crash
  end.

Definition answer_plain (results : list pg_result) (s : S) : task_result S :=
  match results with
  | [TuplesOk row col values] =>
      match SerializedDataInit None 0 0 None DefaultMemoryManager with
      | None => Terminated
      | Some replyData =>
          match write_segment little replyData
                  (pack_response (mkResponse (error_num SUCCESS) (PlainCommandResponse row col (Some values)))) with
          | Some d => Answered [valid_bytes d] s
          | None => Terminated
          end
      end
  | [NotTuples message] => answer_error message s
  | _ => Terminated
  end.

(** PQsendQuery answers 1 when the commands were sent, which is compared with
    the number of commands: for any other number the exception is thrown. *)
Definition SingleWorkerTask_DoWork (m_job : job) (s : S) : task_result S :=
  let size := GetReqDatasize m_job in
  if negb (pool_gives size) then Terminated
  else if negb (Z.land size SERIALIZED_DATA_ALIGNMENT_MASK =? 0) then Terminated
  else
    match merge_types <$> job_services m_job with
    | Some [(PLAIN_COMMAND, _)] =>
        match plain_command (request_attachment m_job) with
        | Crash => OutsideMemory
        | Refused => Terminated
        | Coded command => let '(results, s') := run_command command s in answer_plain results s'
        end
    | Some [(serviceType, count)] =>
        match falcon_meta_call_by_serialized_shmem_internal (service_num serviceType) (Z.of_nat count)
                (request_attachment m_job ++ behind) s with
        | CallGone => Terminated
        | CallHangs => Waiting
        | CallError message s' => answer_error message s'
        | CallReply bytes s' =>
            match single_reply bytes with
            | None => Terminated
            | Some reply => Answered [reply] s'
            end
        end
    | _ => Terminated
    end.

(** ** Every job gets its own answers *)

Lemma service_decode (service : FalconMetaServiceType) : MetaServiceTypeDecode (service_num service) = Some service.
Proof. by destruct service. Qed.

(** A job whose attachment has the items its types announce. *)
Definition job_of (service : FalconMetaServiceType) (j : job) (ms : list AnyMetaParam) : Prop :=
  j_type j = replicate (length ms) (service_num service) /\ items pack_param ms (request_attachment j).

Lemma job_service (service : FalconMetaServiceType) (j : job) (ms : list AnyMetaParam) :
  service <> NOT_SUPPORTED -> job_of service j ms -> ms <> [] -> GetFalconMetaServiceType j 0 = Some service.
Proof.
  intros Hs [Ht _] Hne. unfold GetFalconMetaServiceType. rewrite Ht. destruct ms as [|m ms]; [done|].
  change (replicate _ _ !! 0%nat) with (Some (service_num service)). cbn [mbind option_bind].
  rewrite service_decode. cbn [mbind option_bind]. by rewrite bool_decide_eq_false_2.
Qed.

Lemma job_count (service : FalconMetaServiceType) (j : job) (ms : list AnyMetaParam) : job_of service j ms -> GetReqServiceCnt j = length ms.
Proof. intros [Ht _]. unfold GetReqServiceCnt. by rewrite Ht, length_replicate. Qed.

Lemma jobs_items (service : FalconMetaServiceType) (jobs : list job) (mss : list (list AnyMetaParam)) :
  Forall2 (job_of service) jobs mss ->
  items pack_param (concat mss) (concat (request_attachment <$> jobs)) /\ sum_list (GetReqServiceCnt <$> jobs) = length (concat mss) /\
  existsb (fun j => negb (Z.land (GetReqDatasize j) SERIALIZED_DATA_ALIGNMENT_MASK =? 0)) jobs = false.
Proof.
  induction 1 as [|j ms jobs mss Hj _ (IH1 & IH2 & IH3)]; [split; [apply items_nil|done]|]. cbn.
  split; [apply items_app; [apply Hj|done]|]. rewrite length_app, <- IH2, (job_count _ _ _ Hj). split; [done|].
  rewrite land_mask_mod. unfold GetReqDatasize. by rewrite (items_length pack_param ms _ (proj2 Hj)).
Qed.

(** The descriptor over a reply. *)
Definition reply_data (bytes : list Z) : SerializedData :=
  mkSerializedData (Some bytes) (Z.of_nat (length bytes)) (Z.of_nat (length bytes)) None.

Lemma reply_data_wf (bytes : list Z) :
  Z.of_nat (length bytes) `mod` 4 = 0 -> Z.of_nat (length bytes) < 2 ^ 32 -> sd_wf (reply_data bytes) /\ valid_bytes (reply_data bytes) = bytes.
Proof. intros H4 Hl. split; [split; cbn; [lia|lia|done|done|done]|]. unfold valid_bytes. cbn. by rewrite Nat2Z.id, firstn_all. Qed.

Lemma reply_data_init (bytes : list Z) :
  Z.of_nat (length bytes) `mod` 4 = 0 ->
  SerializedDataInit (Some bytes) (Z.of_nat (length bytes)) (Z.of_nat (length bytes)) None DefaultMemoryManager = Some (reply_data bytes).
Proof. intros H4. unfold SerializedDataInit. by rewrite land_mask_mod, H4. Qed.

Lemma split_reply_items (bytes : list Z) (jobs : list job) (rss : list (list MetaResponse)) (pre rest : list Z) :
  bytes = pre ++ rest -> Z.of_nat (length bytes) < UINT32_MAX -> Z.of_nat (length pre) `mod` 4 = 0 ->
  items pack_response (concat rss) rest -> Forall2 (fun j rs => GetReqServiceCnt j = length rs) jobs rss ->
  exists replies, split_reply (reply_data bytes) (Z.of_nat (length pre)) jobs = Coded replies /\ Forall2 (items pack_response) rss replies.
Proof.
  intros Eb Hl Hpre Hr Hj. revert pre rest Eb Hpre Hr. induction Hj as [|j rs jobs rss Hj _ IH]; intros pre rest Eb Hpre Hr.
  { exists []. split; [done|constructor]. }
  cbn [concat] in Hr. apply items_app_inv in Hr as (b1 & b2 & -> & H1 & H2).
  assert (Z.of_nat (length bytes) `mod` 4 = 0) as Hb4.
  { rewrite Eb, !length_app. pose proof (items_length _ _ _ H1). pose proof (items_length _ _ _ H2). Z.to_euclidean_division_equations; lia. }
  destruct (reply_data_wf bytes Hb4) as [Hwf Hv]; [unfold UINT32_MAX in *; lia|].
  destruct H1 as (ps & Hps & Eb1). assert (GetReqServiceCnt j = length ps) as Hc.
  { rewrite Hj. rewrite <- (Forall2_length _ _ _ Hps). by rewrite length_fmap. }
  cbn [split_reply]. rewrite Hc, (NextSeveralItemSize_frames little _ pre ps b2); [|done|by rewrite Hv, <- Eb1|by eapply padded_item_ok|done].
  rewrite <- Eb1. rewrite (proj2 (Z.eqb_neq _ _)) by (rewrite Eb, !length_app in Hl; lia).
  destruct (IH (pre ++ b1) b2) as (replies & E & HF); [by rewrite <- app_assoc| |done|].
  { rewrite length_app. assert (items pack_response rs b1) as H1%items_length by (by exists ps). Z.to_euclidean_division_equations; lia. }
  assert (u32 (Z.of_nat (length pre) + Z.of_nat (length b1)) = Z.of_nat (length (pre ++ b1))) as ->.
  { rewrite length_app, Nat2Z.inj_add. apply wrap_small. unfold in_range. rewrite Eb, !length_app in Hl. unfold UINT32_MAX in Hl. lia. }
  rewrite E. cbn [mbind coding_bind]. eexists. split; [reflexivity|]. constructor; [|done].
  cbn. rewrite Eb, !Nat2Z.id, drop_app_length, take_app_length. by exists ps.
Qed.

(** A list cut into pieces of given lengths. *)
Lemma cut_list {A B : Type} (l : list A) (xss : list (list B)) :
  length l = length (concat xss) -> exists lss, l = concat lss /\ Forall2 (fun (xs : list B) (ys : list A) => length ys = length xs) xss lss.
Proof.
  revert l. induction xss as [|xs xss IH]; intros l Hl; cbn in Hl.
  { exists []. split; [by apply nil_length_inv|constructor]. }
  rewrite length_app in Hl. destruct (IH (drop (length xs) l)) as (lss & E & HF); [rewrite length_drop; lia|].
  exists (take (length xs) l :: lss). cbn. rewrite <- E, take_drop. split; [done|]. constructor; [rewrite length_take; lia|done].
Qed.

Lemma items_room {M : Type} (pack : M -> list Z) (ms : list M) (b : list Z) : items pack ms b -> Z.of_nat (length b) <= room (pack <$> ms).
Proof.
  intros (ps & Hp & ->). induction Hp as [|q p qs ps (pad & -> & Hpad & _) _ IH]; [done|].
  rewrite frames_cons, room_cons, length_app, Nat2Z.inj_add, frame_length, length_app. lia.
Qed.

(** The services of files and directories. *)
Definition file_service (service : FalconMetaServiceType) : bool :=
  bool_decide (service ∈ [MKDIR; MKDIR_SUB_MKDIR; MKDIR_SUB_CREATE; CREATE; STAT; OPEN; CLOSE; UNLINK; READDIR; OPENDIR; RMDIR;
    RMDIR_SUB_RMDIR; RMDIR_SUB_UNLINK; RENAME; RENAME_SUB_RENAME_LOCALLY; RENAME_SUB_CREATE; UTIMENS; CHOWN; CHMOD]).

Lemma MetaProcess_file (service : FalconMetaServiceType) (count : Z) (mem : list Z) (s : S) :
  file_service service = true ->
  MetaProcess little H PgMemoryManager DefaultMemoryManager sizeof_info sizeof_slice info_junk slice_junk (service_num service) count mem s =
  FileMetaProcess little H PgMemoryManager DefaultMemoryManager sizeof_info info_junk service count mem s.
Proof. intros Hf. unfold MetaProcess. rewrite service_decode. by destruct service. Qed.

Lemma call_replies (service : FalconMetaServiceType) (ms : list AnyMetaParam) (rs : list MetaResponse) (bytes post : list Z) (s s' : S) :
  manager_ok PgMemoryManager -> file_service service = true -> file_served H sizeof_info info_junk service ms rs s s' ->
  items pack_param ms bytes -> Z.of_nat (length bytes) <= INT32_MAX ->
  (forall n, 0 <= n <= room (pack_response <$> rs) -> backend_gives n = true) ->
  exists b, falcon_meta_call_by_serialized_shmem_internal (service_num service) (Z.of_nat (length ms)) (bytes ++ post) s = CallReply b (commit s') /\
    items pack_response rs b.
Proof.
  intros Hm Hf Hs Hb Hl Hg. unfold falcon_meta_call_by_serialized_shmem_internal. pose proof (items_count _ _ _ Hb).
  rewrite (proj2 (Z.ltb_ge _ _)) by lia. rewrite MetaProcess_file by done.
  destruct (FileMetaProcess_replies little H _ DefaultMemoryManager sizeof_info info_junk service ms rs bytes post s s' Hm Hs Hb)
    as (d & E & Hwf & Hd). { change SD_SIZE_T_MAX with (2 ^ 32 - 4). unfold INT32_MAX in *. lia. }
  rewrite E. pose proof (items_room _ _ _ Hd) as Hr. rewrite (valid_bytes_length d Hwf) in Hr. pose proof (wf_size _ Hwf).
  rewrite Hg by lia. eauto.
Qed.

(** What a batch of jobs needs of the memory. *)
Definition batch_fits (jobs : list job) : Prop :=
  let size := Z.of_nat (length (concat (request_attachment <$> jobs))) in
  size <= INT32_MAX /\ pool_gives size = true.

(** The common part of what follows: the items that are read are the first of
    all that were sent. *)
Lemma batch_answers (replyBuilder : SerializedData) (service : FalconMetaServiceType) (first : job) (jobs : list job)
    (ms : list AnyMetaParam) (rss : list (list MetaResponse)) (bytes post : list Z) (s s' : S) :
  manager_ok PgMemoryManager -> file_service service = true ->
  GetFalconMetaServiceType first 0 = Some service ->
  existsb (fun j => negb (Z.land (GetReqDatasize j) SERIALIZED_DATA_ALIGNMENT_MASK =? 0)) (first :: jobs) = false ->
  batch_fits (first :: jobs) ->
  concat (request_attachment <$> first :: jobs) ++ behind = bytes ++ post -> items pack_param ms bytes -> Z.of_nat (length bytes) <= INT32_MAX ->
  Forall2 (fun j rs => GetReqServiceCnt j = length rs) (first :: jobs) rss ->
  file_served H sizeof_info info_junk service ms (concat rss) s s' ->
  (forall n, 0 <= n <= room (pack_response <$> concat rss) -> backend_gives n = true) ->
  exists replies, BatchWorkerTask_DoWork replyBuilder (first :: jobs) s = Answered replies (commit s') /\ Forall2 (items pack_response) rss replies.
Proof.
  intros Hm Hf Hty Hal [Hsz Hg] Hmem Hb Hbl Hcnt Hs Hbg. unfold BatchWorkerTask_DoWork. rewrite Hty, Hal.
  assert (u32 (Z.of_nat (length (concat (request_attachment <$> first :: jobs)))) = Z.of_nat (length (concat (request_attachment <$> first :: jobs)))) as ->.
  { apply wrap_small. unfold in_range, INT32_MAX in *. lia. }
  rewrite Hg. cbn [negb]. rewrite Z.ltb_irrefl, Hmem.
  assert (sum_list (GetReqServiceCnt <$> first :: jobs) = length ms) as ->.
  { rewrite <- (fs_each _ _ _ _ _ _ _ _ Hs). clear -Hcnt. revert Hcnt. generalize (first :: jobs). intros l Hcnt.
    induction Hcnt as [|j rs l rss Hj _ IH]; [done|]. cbn. by rewrite length_app, <- IH, Hj. }
  rewrite wrap_small by (unfold in_range; pose proof (items_count _ _ _ Hb); unfold INT32_MAX in *; lia).
  destruct (call_replies service ms (concat rss) bytes post s s') as (b & -> & Hrb); [done..|].
  pose proof (items_length _ _ _ Hrb) as H4. rewrite reply_data_init by done.
  destruct (split_reply_items b (first :: jobs) rss [] b) as (replies & E & HF); [done| |done|done|done|].
  { pose proof (items_room _ _ _ Hrb). pose proof (fs_room _ _ _ _ _ _ _ _ Hs). unfold UINT32_MAX. lia. }
  change (Z.of_nat (length [])) with 0 in E. rewrite E. eauto.
Qed.

(** C10: jobs of several clients that are served by one call get their own
    answers.  When each of them sends as many items as it announces and the
    handler answers them all, each job is answered with exactly as many items
    as it sent, the answers to its items in its order; what the jobs get,
    taken together, is all that the handler answered. *)
Theorem BatchWorkerTask_answers (replyBuilder : SerializedData) (service : FalconMetaServiceType) (jobs : list job)
    (mss : list (list AnyMetaParam)) (rs : list MetaResponse) (s s' : S) :
  manager_ok PgMemoryManager -> batch_service service = true ->
  jobs <> [] -> Forall2 (job_of service) jobs mss -> Forall (fun ms => ms <> []) mss -> batch_fits jobs ->
  file_served H sizeof_info info_junk service (concat mss) rs s s' ->
  (forall n, 0 <= n <= room (pack_response <$> rs) -> backend_gives n = true) ->
  exists replies rss, BatchWorkerTask_DoWork replyBuilder jobs s = Answered replies (commit s') /\ rs = concat rss /\
    Forall2 (fun ms rs => length rs = length ms) mss rss /\ Forall2 (items pack_response) rss replies.
Proof.
  intros Hm Hsv Hne Hj Hnz Hfit Hs Hg. pose proof (jobs_items _ _ _ Hj) as (Hi & _ & Hal).
  destruct (cut_list rs mss (fs_each _ _ _ _ _ _ _ _ Hs)) as (rss & -> & Hrss).
  destruct jobs as [|first jobs]; [done|]. inversion Hj as [|? ms0 ? mss0 Hj0 Hj' E1 E2]; subst.
  destruct (batch_answers replyBuilder service first jobs (concat (ms0 :: mss0)) rss (concat (request_attachment <$> first :: jobs)) behind s s')
    as (replies & E & HF); [done| | |done|done|done|done|apply Hfit| |done|done|].
  - by destruct service.
  - apply (job_service _ _ ms0); [by destruct service|done|]. by apply Forall_cons in Hnz as [? _].
  - clear -Hj Hrss. revert Hj Hrss. generalize (first :: jobs) (ms0 :: mss0). intros l mss Hj. revert rss.
    induction Hj as [|j ms l mss Hj _ IH]; intros rss Hrss; inversion Hrss; subst; constructor.
    + rewrite (job_count _ _ _ Hj). congruence.
    + by apply IH.
  - eauto 10.
Qed.

(** A job that announces fewer items than it sends takes the place of those
    behind it.  The call reads as many items as all jobs announce together, so
    that the second item of the first job is handled as if it were the item of
    the second: the second client is sent the answer to an item it did not
    send, and its own request is never looked at. *)
Theorem BatchWorkerTask_misattributes (replyBuilder : SerializedData) (service : FalconMetaServiceType) (a b : job)
    (m1 m2 : AnyMetaParam) (r1 r2 : MetaResponse) (s s' : S) :
  manager_ok PgMemoryManager -> batch_service service = true ->
  j_type a = [service_num service] -> items pack_param [m1; m2] (request_attachment a) ->
  j_type b = [service_num service] -> GetReqDatasize b `mod` 4 = 0 -> batch_fits [a; b] ->
  file_served H sizeof_info info_junk service [m1; m2] [r1; r2] s s' ->
  (forall n, 0 <= n <= room (pack_response <$> [r1; r2]) -> backend_gives n = true) ->
  exists reply1 reply2, BatchWorkerTask_DoWork replyBuilder [a; b] s = Answered [reply1; reply2] (commit s') /\
    items pack_response [r1] reply1 /\ items pack_response [r2] reply2.
Proof.
  intros Hm Hsv Ha Hia Hb Hb4 Hfit Hs Hg.
  destruct (batch_answers replyBuilder service a [b] [m1; m2] [[r1]; [r2]] (request_attachment a) (request_attachment b ++ behind) s s')
    as (replies & E & HF); [done| | | |done| |done| | |done|done|].
  - by destruct service.
  - unfold GetFalconMetaServiceType. rewrite Ha. change ([?x] !! 0%nat) with (Some x). cbn [mbind option_bind].
    rewrite service_decode. cbn [mbind option_bind]. by destruct service.
  - cbn [existsb]. rewrite !land_mask_mod, Hb4. unfold GetReqDatasize. by rewrite (items_length _ _ _ Hia).
  - cbn. by rewrite app_nil_r, <- app_assoc.
  - destruct Hfit as [Hl _]. cbn in Hl. rewrite length_app in Hl. lia.
  - constructor; [unfold GetReqServiceCnt; by rewrite Ha|]. constructor; [unfold GetReqServiceCnt; by rewrite Hb|constructor].
  - inversion HF as [|? reply1 ? rest H1 HF1]; subst. inversion HF1 as [|? reply2 ? rest2 H2 HF2]; subst. inversion HF2; subst. eauto.
Qed.

(** ** A job on its own *)

Lemma merge_types_same (t : FalconMetaServiceType) (n : nat) : t <> PLAIN_COMMAND -> merge_types (replicate (Datatypes.S n) t) = [(t, Datatypes.S n)].
Proof.
  intros Ht. induction n as [|n IH]; [done|]. change (replicate (Datatypes.S (Datatypes.S n)) t) with (t :: replicate (Datatypes.S n) t).
  cbn [merge_types]. rewrite IH. rewrite bool_decide_eq_true_2, bool_decide_eq_false_2 by done. done.
Qed.

Lemma merge_types_one (l : list FalconMetaServiceType) (t : FalconMetaServiceType) (n : nat) : merge_types l = [(t, n)] -> l = replicate n t.
Proof.
  revert t n. induction l as [|x l IH]; intros t n; [done|]. cbn [merge_types]. destruct (merge_types l) as [|[t' n'] groups] eqn:E.
  - intros [= -> <-]. destruct l as [|y l]; [done|]. cbn in E. destruct (merge_types l) as [|[]]; [done|]. by destruct (_ && _).
  - destruct (bool_decide (t' = x) && negb (bool_decide (x = PLAIN_COMMAND))) eqn:Eb; [|done]. intros [= -> <- ->].
    apply andb_prop in Eb as [->%bool_decide_eq_true_1 _]. cbn. by rewrite <- (IH _ _ eq_refl).
Qed.

Lemma job_services_of (service : FalconMetaServiceType) (j : job) (ms : list AnyMetaParam) :
  service <> NOT_SUPPORTED -> job_of service j ms -> job_services j = Some (replicate (length ms) service).
Proof.
  intros Hs Hj. unfold job_services. rewrite (job_count _ _ _ Hj). destruct Hj as [Ht _].
  apply mapM_Some. apply Forall2_same_length_lookup_2; [by rewrite length_seq, length_replicate|].
  intros k x y [-> Hk]%lookup_seq [-> _]%lookup_replicate. unfold GetFalconMetaServiceType. rewrite Ht, (lookup_replicate_2 _ _ (0 + k)) by lia.
  cbn [mbind option_bind]. rewrite service_decode. cbn [mbind option_bind]. by rewrite bool_decide_eq_false_2.
Qed.

Lemma single_reply_bytes (bytes : list Z) :
  manager_ok DefaultMemoryManager -> Z.of_nat (length bytes) `mod` 4 = 0 -> Z.of_nat (length bytes) <= 2 ^ 31 -> single_reply bytes = Some bytes.
Proof.
  intros Hm H4 Hl. unfold single_reply. rewrite reply_data_init by done. cbn [mbind option_bind].
  change (SerializedDataInit None 0 0 None DefaultMemoryManager) with (SerializedDataInit None 0 0 (Some DefaultMemoryManager) DefaultMemoryManager).
  destruct (response_init _ DefaultMemoryManager Hm) as (d0 & E0 & Hwf & H0 & Hg). rewrite E0. cbn [mbind option_bind].
  unfold SerializedDataAppend. rewrite H0. cbn [reply_data sd_size sd_buffer]. rewrite Z.add_0_l.
  rewrite wrap_small by (unfold in_range; lia). destruct (enlarge_runs d0 _ Hwf Hg Hl) as [d1 E1]. rewrite E1.
  destruct (SerializedDataEnlarge_wf _ _ _ Hwf E1) as (Hwf1 & Hs1 & _). cbn [default from_option id]. f_equal. unfold valid_bytes. cbn [sd_size sd_buffer].
  rewrite Hs1, H0, Z.add_0_l, wrap_small by (unfold in_range; lia). rewrite !Nat2Z.id. cbn [default from_option id].
  rewrite firstn_all. unfold write_at. change (Z.to_nat 0) with 0%nat. rewrite take_0, app_nil_l. apply take_app_length.
Qed.

(** The answer to a job of one service. *)
Lemma SingleWorkerTask_answers (service : FalconMetaServiceType) (j : job) (ms : list AnyMetaParam) (rs : list MetaResponse) (s s' : S) :
  manager_ok PgMemoryManager -> manager_ok DefaultMemoryManager -> file_service service = true -> job_of service j ms -> ms <> [] ->
  pool_gives (GetReqDatasize j) = true -> GetReqDatasize j <= INT32_MAX ->
  file_served H sizeof_info info_junk service ms rs s s' ->
  (forall n, 0 <= n <= room (pack_response <$> rs) -> backend_gives n = true) ->
  exists reply, SingleWorkerTask_DoWork j s = Answered [reply] (commit s') /\ items pack_response rs reply.
Proof.
  intros Hm Hd Hf Hj Hne Hg Hl Hs Hbg. unfold SingleWorkerTask_DoWork. rewrite Hg, land_mask_mod. unfold GetReqDatasize in *.
  rewrite (items_length _ _ _ (proj2 Hj)). cbn [negb Z.eqb]. assert (service <> NOT_SUPPORTED /\ service <> PLAIN_COMMAND) as [Hn Hp].
  { by destruct service. }
  rewrite (job_services_of service j ms) by done. destruct ms as [|m ms]; [done|]. cbn [length].
  change (merge_types <$> Some ?l) with (Some (merge_types l)). rewrite merge_types_same by done.
  destruct (call_replies service (m :: ms) rs (request_attachment j) behind s s') as (b & E & Hb); [done|done|done|apply Hj|done|done|].
  cbn [length] in E. rewrite E. rewrite (single_reply_bytes b); [|done|by eapply items_length|].
  - exists b. split; [|done]. by destruct service.
  - pose proof (items_room _ _ _ Hb). pose proof (fs_room _ _ _ _ _ _ _ _ Hs). lia.
Qed.

(** A request whose items are of different services ends the process.  The
    number of commands that were formed is compared with the answer 1 of
    PQsendQuery, and no handler catches the exception that follows when it is
    not the same. *)
Theorem SingleWorkerTask_one_service (j : job) (services : list FalconMetaServiceType) (t1 t2 : FalconMetaServiceType) (s : S) :
  job_services j = Some services -> t1 ∈ services -> t2 ∈ services -> t1 <> t2 -> SingleWorkerTask_DoWork j s = Terminated.
Proof.
  intros Hj H1 H2 Hne. unfold SingleWorkerTask_DoWork. destruct (negb _); [done|]. destruct (negb _); [done|].
  rewrite Hj. change (merge_types <$> Some ?l) with (Some (merge_types l)).
  destruct (merge_types services) as [|[t n] [|g groups]] eqn:E; [done| |by destruct t].
  apply merge_types_one in E as ->. apply elem_of_replicate_inv in H1 as ->. by apply elem_of_replicate_inv in H2 as ->.
Qed.

(** ** Errors *)

Lemma error_reply_item (e : FalconErrorCode) (d0 : SerializedData) :
  sd_wf d0 -> sd_size d0 = 0 -> manager_gives d0 -> room [pack_response (error_only e)] <= 2 ^ 31 ->
  exists bytes, error_reply e d0 = Some bytes /\ items pack_response [error_only e] bytes.
Proof.
  intros Hwf H0 Hg Hroom. destruct (encode_items_answer little (fun x => Coded x) [error_only e] [error_only e] d0) as (d & E & _ & Hd);
    [done|done|done|by repeat constructor|done|].
  exists (valid_bytes d). split; [|done]. unfold error_reply. cbn in E. by destruct (write_segment _ _ _) as [d'|]; [injection E as ->|].
Qed.

(** C37: an error of the call reaches every client of the batch.  When a handler
    raises an error, the transaction is undone and each job is answered with one
    item, the code of that error. *)
Theorem BatchWorkerTask_error (replyBuilder : SerializedData) (service : FalconMetaServiceType) (jobs : list job)
    (mss : list (list AnyMetaParam)) (e : FalconErrorCode) (text : string) (s s' : S) :
  batch_service service = true -> jobs <> [] -> Forall2 (job_of service) jobs mss -> Forall (fun ms => ms <> []) mss -> batch_fits jobs ->
  FileMetaProcess little H PgMemoryManager DefaultMemoryManager sizeof_info info_junk service (Z.of_nat (length (concat mss)))
    (concat (request_attachment <$> jobs) ++ behind) s = Failed e s' ->
  error_message e = FALCON_ELOG_ERROR e text -> e <> SUCCESS -> e <> LAST_FALCON_ERROR_CODE ->
  sd_wf (SerializedDataClear replyBuilder) -> manager_gives replyBuilder -> room [pack_response (error_only e)] <= 2 ^ 31 ->
  exists reply, BatchWorkerTask_DoWork replyBuilder jobs s = Answered ((fun _ => reply) <$> jobs) (rollback s s') /\
    items pack_response [error_only e] reply.
Proof.
  intros Hsv Hne Hj Hnz [Hsz Hg] Hfail Htext Hs1 Hs2 Hwf Hgv Hroom. pose proof (jobs_items _ _ _ Hj) as (Hi & Hcnt & Hal).
  destruct jobs as [|first jobs]; [done|]. inversion Hj as [|? ms0 ? mss0 Hj0 Hj' E1 E2]; subst mss.
  unfold BatchWorkerTask_DoWork. rewrite (job_service service first ms0), Hal; [|by destruct service|done|by apply Forall_cons in Hnz as [? _]].
  rewrite Hcnt. pose proof (items_count _ _ _ Hi).
  rewrite (wrap_small 32 (Z.of_nat (length (concat (request_attachment <$> first :: jobs))))) by (unfold in_range, INT32_MAX in *; lia).
  rewrite Hg. cbn [negb]. rewrite Z.ltb_irrefl. rewrite wrap_small by (unfold in_range, INT32_MAX in *; lia).
  unfold falcon_meta_call_by_serialized_shmem_internal. rewrite (proj2 (Z.ltb_ge _ _)) by (unfold INT32_MAX in *; lia).
  rewrite MetaProcess_file, Hfail, Htext by (by destruct service). unfold result_code.
  destruct (error_code_roundtrip e text Hs1 Hs2) as [msg ->]. cbn [mbind option_bind fst]. rewrite bool_decide_eq_false_2 by done.
  destruct (error_reply_item e (SerializedDataClear replyBuilder)) as (b & E & Hb); [done|done|done|done|]. rewrite E. eauto.
Qed.
End WorkerTask.
