(* ===== verification/Connection.v ===== *)
(** * The client's side of a request (falcon_client/src/connection.cpp)

    A call of the client is packed, sent as a job of one item, and the answer
    is read back: its code, and the values that the call hands out. *)

From S2P Require Import FalconPrelude ErrorCode SerializedData MetaFile MetaSlice MetaMessages MetaProcess WorkerTask.

(** ** Values *)

Record timespec : Type := mkTimespec { tv_sec : Z; tv_nsec : Z }.

Definition SECONDS_DIFF_BETWEEN_PG_AND_UNIX : Z := 946684800.

Definition ConvertTimestampFromPGToUnix (t : Z) : timespec :=
  mkTimespec (s64 (u64 (u64 t / 1000000 + SECONDS_DIFF_BETWEEN_PG_AND_UNIX))) (u64 t mod 1000000).

(** struct stat. *)
Record stat : Type := mkStat {
  stat_ino : Z;
  stat_dev : Z;
  stat_mode : Z;
  stat_nlink : Z;
  stat_uid : Z;
  stat_gid : Z;
  stat_rdev : Z;
  stat_size : Z;
  stat_blksize : Z;
  stat_blocks : Z;
  stat_atim : timespec;
  stat_mtim : timespec;
  stat_ctim : timespec;
}.

Definition ST_BLKSIZE : Z := 4096.
Definition ST_NBLOCKSIZE : Z := 512.

Definition stat_of (a : attributes) : stat :=
  mkStat (a_ino a) (a_dev a) (a_mode a) (a_nlink a) (a_uid a) (a_gid a) (a_rdev a) (a_size a) ST_BLKSIZE
    (Z.quot (a_size a + ST_BLKSIZE - 1) ST_BLKSIZE * (ST_BLKSIZE / ST_NBLOCKSIZE))
    (ConvertTimestampFromPGToUnix (a_atim a)) (ConvertTimestampFromPGToUnix (a_mtim a)) (ConvertTimestampFromPGToUnix (a_ctim a)).

(** ** The tables a service expects *)

Inductive param_tag : Type :=
| TagNone | TagPlainCommand | TagPathOnly | TagMkdirSubMkdir | TagMkdirSubCreate | TagClose | TagReadDir | TagRmdirSubRmdir
| TagRmdirSubUnlink | TagRename | TagRenameSubRenameLocally | TagRenameSubCreate | TagUtimeNs | TagChown | TagChmod | TagKV
| TagKeyOnly | TagSliceInfo | TagSliceIndex | TagSliceId.

#[export] Instance param_tag_eq_dec : EqDecision param_tag.
Proof. solve_decision. Defined.

Definition tag_of (m : AnyMetaParam) : param_tag :=
  match m with
  | ParamNone => TagNone
  | PlainCommandParam _ => TagPlainCommand
  | PathOnlyParam _ => TagPathOnly
  | MkdirSubMkdirParam _ _ _ => TagMkdirSubMkdir
  | MkdirSubCreateParam _ _ _ _ _ _ => TagMkdirSubCreate
  | CloseParam _ _ _ _ => TagClose
  | ReadDirParam _ _ _ _ => TagReadDir
  | RmdirSubRmdirParam _ _ => TagRmdirSubRmdir
  | RmdirSubUnlinkParam _ _ => TagRmdirSubUnlink
  | RenameParam _ _ => TagRename
  | RenameSubRenameLocallyParam _ _ _ _ _ _ _ _ _ => TagRenameSubRenameLocally
  | RenameSubCreateParam _ _ _ _ => TagRenameSubCreate
  | UtimeNsParam _ _ _ => TagUtimeNs
  | ChownParam _ _ _ => TagChown
  | ChmodParam _ _ => TagChmod
  | KVParam _ _ _ _ _ _ => TagKV
  | KeyOnlyParam _ => TagKeyOnly
  | SliceInfoParam _ _ _ => TagSliceInfo
  | SliceIndexParam _ _ _ => TagSliceIndex
  | SliceIdParam _ _ => TagSliceId
  end.

(** [None] is the exception. *)
Definition ToFlatBuffersType (type : FalconMetaServiceType) : option param_tag :=
  match type with
  | PLAIN_COMMAND => Some TagPlainCommand
  | MKDIR | CREATE | STAT | OPEN | UNLINK | OPENDIR | RMDIR => Some TagPathOnly
  | CLOSE => Some TagClose
  | READDIR => Some TagReadDir
  | RENAME => Some TagRename
  | UTIMENS => Some TagUtimeNs
  | CHOWN => Some TagChown
  | CHMOD => Some TagChmod
  | KV_PUT => Some TagKV
  | KV_GET | KV_DEL => Some TagKeyOnly
  | SLICE_PUT => Some TagSliceInfo
  | SLICE_GET | SLICE_DEL => Some TagSliceIndex
  | FETCH_SLICE_ID => Some TagSliceId
  | _ => None
  end.

(** ** Calls *)

(** What a method gives to ProcessRequest: the service, the table, and the
    handler of the answer with the values it hands out. *)
Record request (A : Type) : Type := mkRequest {
  rq_type : FalconMetaServiceType;
  rq_param : AnyMetaParam;
  rq_handler : MetaResponse -> FalconErrorCode * option A;
}.
Arguments mkRequest {A}.
Arguments rq_type {A}.
Arguments rq_param {A}.
Arguments rq_handler {A}.

(** The cast of the code. *)
Definition code_of (m : MetaResponse) : FalconErrorCode := default LAST_FALCON_ERROR_CODE (error_of_num (error_code m)).

(** The handler of the calls without values. *)
Definition code_handler (m : MetaResponse) : FalconErrorCode * option unit :=
  (if error_code m <? error_num LAST_FALCON_ERROR_CODE then code_of m else PROGRAM_ERROR, Some tt).

Definition PlainCommand (command : string) : request (Z * Z * option (list string)) :=
  mkRequest PLAIN_COMMAND (PlainCommandParam (Some command)) (fun m =>
    match response m with
    | PlainCommandResponse row col data => (SUCCESS, Some (row, col, data))
    | _ => (PROGRAM_ERROR, None)
    end).

Definition Mkdir (path : string) : request unit := mkRequest MKDIR (PathOnlyParam (Some path)) code_handler.

(** inodeId, nodeId and stbuf. *)
Definition Create (path : string) : request (Z * Z * stat) :=
  mkRequest CREATE (PathOnlyParam (Some path)) (fun m =>
    match response m with
    | CreateResponse a node => (code_of m, Some (a_ino a, s32 node, stat_of a))
    | _ => (PROGRAM_ERROR, None)
    end).

Definition Stat (path : string) : request stat :=
  mkRequest STAT (PathOnlyParam (Some path)) (fun m =>
    match response m with
    | StatResponse a => (code_of m, Some (stat_of a))
    | _ => (PROGRAM_ERROR, None)
    end).

(** inodeId, size, nodeId and stbuf. *)
Definition Open (path : string) : request (Z * Z * Z * stat) :=
  mkRequest OPEN (PathOnlyParam (Some path)) (fun m =>
    match response m with
    | OpenResponse a node => (code_of m, Some (a_ino a, a_size a, s32 node, stat_of a))
    | _ => (PROGRAM_ERROR, None)
    end).

Definition Close (path : string) (size mtime nodeId : Z) : request unit :=
  mkRequest CLOSE (CloseParam (Some path) size mtime nodeId) code_handler.

(** inodeId, size and nodeId. *)
Definition Unlink (path : string) : request (Z * Z * Z) :=
  mkRequest UNLINK (PathOnlyParam (Some path)) (fun m =>
    match response m with
    | UnlinkResponse ino size node => (code_of m, Some (ino, size, s32 node))
    | _ => (PROGRAM_ERROR, None)
    end).

(** A null pointer for [lastFileName] leaves the field out. *)
Definition ReadDir (path : string) (maxReadCount lastShardIndex : Z) (lastFileName : option string)
    : request (Z * option string * list (option string * Z)) :=
  mkRequest READDIR (ReadDirParam (Some path) maxReadCount lastShardIndex lastFileName) (fun m =>
    match response m with
    | ReadDirResponse shard name l => (SUCCESS, Some (shard, name, l))
    | _ => (PROGRAM_ERROR, None)
    end).

Definition OpenDir (path : string) : request Z :=
  mkRequest OPENDIR (PathOnlyParam (Some path)) (fun m =>
    match response m with
    | OpenDirResponse ino => (SUCCESS, Some ino)
    | _ => (PROGRAM_ERROR, None)
    end).

Definition Rmdir (path : string) : request unit := mkRequest RMDIR (PathOnlyParam (Some path)) code_handler.
Definition Rename (src dst : string) : request unit := mkRequest RENAME (RenameParam (Some src) (Some dst)) code_handler.
Definition UtimeNs (path : string) (atime mtime : Z) : request unit := mkRequest UTIMENS (UtimeNsParam (Some path) atime mtime) code_handler.
Definition Chown (path : string) (uid gid : Z) : request unit := mkRequest CHOWN (ChownParam (Some path) uid gid) code_handler.
Definition Chmod (path : string) (mode : Z) : request unit := mkRequest CHMOD (ChmodParam (Some path) mode) code_handler.

Definition KvPut (key : string) (valueLen sliceNum : Z) (valueKey location size : list Z) : request unit :=
  mkRequest KV_PUT (KVParam (Some key) valueLen sliceNum (Some valueKey) (Some location) (Some size)) code_handler.

(** KvGetResult: as many slices as all three vectors have. *)
Definition kv_slices (valueKey location size : option (list Z)) : list (Z * Z * Z) :=
  match valueKey, location, size with
  | Some k, Some l, Some s => zip (zip k l) s
  | _, _, _ => []
  end.

Definition KvGet (key : string) : request (Z * Z * list (Z * Z * Z)) :=
  mkRequest KV_GET (KeyOnlyParam (Some key)) (fun m =>
    match response m with
    | GetKVMetaResponse len num k l s => (code_of m, Some (len, num, kv_slices k l s))
    | _ => (PROGRAM_ERROR, None)
    end).

Definition KvDel (key : string) : request unit := mkRequest KV_DEL (KeyOnlyParam (Some key)) code_handler.

Definition SlicePut (filename : string) (sliceNum : Z) (inodeId chunkId sliceId sliceSize sliceOffset sliceLen sliceLoc1 sliceLoc2 : list Z)
    : request unit :=
  mkRequest SLICE_PUT (SliceInfoParam (Some filename) sliceNum (mkVectors (Some inodeId) (Some chunkId) (Some sliceId) (Some sliceSize)
    (Some sliceOffset) (Some sliceLen) (Some sliceLoc1) (Some sliceLoc2))) code_handler.

Definition SliceGet (filename : string) (inodeId chunkId : Z) : request (Z * slice_vectors) :=
  mkRequest SLICE_GET (SliceIndexParam (Some filename) inodeId chunkId) (fun m =>
    match response m with
    | SliceInfoResponse n v => (code_of m, Some (n, v))
    | _ => (PROGRAM_ERROR, None)
    end).

Definition SliceDel (filename : string) (inodeId chunkId : Z) : request unit :=
  mkRequest SLICE_DEL (SliceIndexParam (Some filename) inodeId chunkId) code_handler.

Definition FetchSliceId (count type : Z) : request (Z * Z) :=
  mkRequest FETCH_SLICE_ID (SliceIdParam count type) (fun m =>
    match response m with
    | SliceIdResponse a b => (code_of m, Some (a, b))
    | _ => (PROGRAM_ERROR, None)
    end).

(** ** Sending *)

(** The answer of the remote procedure call: an error of brpc, or the bytes of
    the attachment. *)
Inductive rpc_result : Type :=
| RpcFailed (ErrorCode : Z)
| RpcReply (response_attachment : list Z).

Definition ELOGOFF : Z := 1006.
Definition EHOSTDOWN : Z := 112.

(** The code and the values handed out, or the client is gone. *)
Inductive client_result (A : Type) : Type :=
| Returned (e : FalconErrorCode) (result : option A)
| ClientCrash.
Arguments Returned {A} e result.
Arguments ClientCrash {A}.

(** Requests that are allowed to be batched. *)
Definition allows_batch (type : FalconMetaServiceType) : bool :=
  bool_decide (type ∈ [MKDIR; CREATE; STAT; OPEN; CLOSE; UNLINK]).

(** What the client makes of an answer: an error is returned as it is; the handler
    sees successes, and the answer of a create that found the file. *)
Definition client_answer {A : Type} (handler : MetaResponse -> FalconErrorCode * option A) (m : MetaResponse) : client_result A :=
  let created := match response m with CreateResponse _ _ => true | _ => false end in
  if negb (error_code m =? error_num SUCCESS) && negb (created && (error_code m =? error_num FILE_EXISTS))
  then Returned (if error_code m <? error_num LAST_FALCON_ERROR_CODE then code_of m else PROGRAM_ERROR) None
  else let '(e, result) := handler m in Returned e result.

Section ProcessRequest.
Context {FB : FlatBuffers} (little : bool) (DefaultMemoryManager : MemoryManager).
Context {W : Type} (MetaCall : job -> W -> rpc_result * W).

(** Step 4: whether the data could be set up is not tested. *)
Definition parse_response {A : Type} (handler : MetaResponse -> FalconErrorCode * option A) (bytes : list Z) : client_result A :=
  let n := Z.of_nat (length bytes) in
  match SerializedDataInit (Some bytes) n n None DefaultMemoryManager with
  | None => ClientCrash
  | Some response =>
      match item_at little response 0 with
      | Crash => ClientCrash
      | Refused => Returned REMOTE_QUERY_FAILED None
      | Coded item =>
          match unpack_response item.1 with
          | None => Returned REMOTE_QUERY_FAILED None
          | Some m =>
              client_answer handler m
          end
      end
  end.

Definition ProcessRequest {A : Type} (r : request A) (serializedDataBuffer : SerializedData) (w : W) : client_result A * SerializedData * W :=
  let buffer := SerializedDataClear serializedDataBuffer in
  if negb (bool_decide (ToFlatBuffersType (rq_type r) = Some (tag_of (rq_param r)))) then (ClientCrash, buffer, w)
  else
    match write_segment little buffer (pack_param (rq_param r)) with
    | None => (ClientCrash, buffer, w)
    | Some buffer' =>
        let '(answer, w') := MetaCall (mkJob [service_num (rq_type r)] (allows_batch (rq_type r)) (valid_bytes buffer')) w in
        match answer with
        | RpcFailed code =>
            (Returned (if (code =? ELOGOFF) || (code =? EHOSTDOWN) then SERVER_FAULT else REMOTE_QUERY_FAILED) None, buffer', w')
        | RpcReply bytes => (parse_response (rq_handler r) bytes, buffer', w')
        end
    end.

(** ** What is packed is what the service expects *)

Lemma response_read {A : Type} (handler : MetaResponse -> FalconErrorCode * option A) (m : MetaResponse) (bytes : list Z) :
  items pack_response [m] bytes -> Z.of_nat (length bytes) < 2 ^ 32 ->
  parse_response handler bytes = client_answer handler (norm_response m).
Proof.
  intros Hi Hl. unfold parse_response. pose proof (items_length _ _ _ Hi) as H4. rewrite reply_data_init by done.
  destruct Hi as (ps & Hp & ->). cbn in Hp. apply Forall2_cons_inv_l in Hp as (q & ps' & (pad & -> & Hpad & Hok) & Hp & ->).
  apply Forall2_nil_inv_l in Hp as ->. change 0 with (Z.of_nat (length (@nil Z))).
  rewrite (item_at_holds little _ [] (pack_response m ++ pad) []).
  - cbn [fst]. by rewrite unpack_pack_response.
  - exists []. rewrite app_nil_r. split; [done|]. split; [cbn [app sd_size reply_data]; lia|]. split; [done|]. by constructor.
Qed.

(** The job that is sent has one item. *)
Lemma request_sent {A : Type} (r : request A) (buffer : SerializedData) :
  sd_wf (SerializedDataClear buffer) -> manager_gives buffer -> room [pack_param (rq_param r)] <= 2 ^ 31 ->
  exists buffer', write_segment little (SerializedDataClear buffer) (pack_param (rq_param r)) = Some buffer' /\ sd_wf buffer' /\
    items pack_param [rq_param r] (valid_bytes buffer') /\ sd_memoryManager buffer' = sd_memoryManager buffer.
Proof.
  intros Hwf Hg Hroom. destruct (write_segments_runs little (SerializedDataClear buffer) [pack_param (rq_param r)]) as [d E];
    [done|done|cbn [sd_size SerializedDataClear]; lia|].
  destruct (write_segments_spec little (SerializedDataClear buffer) [pack_param (rq_param r)] d Hwf) as (Hwf' & ps & Hps & Hv);
    [cbn [sd_size SerializedDataClear]; lia|done|].
  cbn [write_segments] in E. destruct (write_segment _ _ _) as [d'|] eqn:E'; [|done]. injection E as ->.
  exists d. split; [done|]. split; [done|]. split.
  - exists ps. split; [done|]. rewrite Hv. done.
  - unfold write_segment, SerializedDataApplyForSegment in E'.
    destruct (SerializedDataEnlarge _ _) as [d1| |] eqn:E1; [|done|done]. apply SerializedDataEnlarge_wf in E1 as (_ & _ & _ & _ & Hm); [|done].
    injection E' as <-. cbn. by rewrite Hm.
Qed.
End ProcessRequest.
