(* ===== verification/Remote.v ===== *)
(** * A call from the client to the handler and back

    The client of Connection.v, the pool of WorkerTask.v and the backend of
    MetaProcess.v put together, for a client that is alone: its job is a batch
    of one, or is served by itself. *)

From S2P Require Import FalconPrelude ErrorCode SerializedData MetaFile MetaSlice MetaMessages MetaProcess WorkerTask Connection.

(** brpc's code for a call that was not answered in time. *)
Definition ERPCTIMEDOUT : Z := 1008.

Section Remote.
Context {FB : FlatBuffers} (little : bool).
Context {S : Type} (H : MetaHandlers S).
Context (PgMemoryManager DefaultMemoryManager : MemoryManager).
Context (sizeof_info sizeof_slice : Z).
Context (info_junk : nat -> MetaProcessInfoData) (slice_junk : nat -> SliceProcessInfo).
Context (behind : list Z) (pool_gives backend_gives : Z -> bool).
Context (commit : S -> S) (rollback : S -> S -> S).
Context (error_message : FalconErrorCode -> string).
Context (run_command : string -> S -> list pg_result * S).
Context (replyBuilder : SerializedData).

(** What the client gets of a task: a job that is not answered times out. *)
Definition rpc_of (s : S) (r : task_result S) : rpc_result * S :=
  match r with
  | Answered [bytes] s' => (RpcReply bytes, s')
  | _ => (RpcFailed ERPCTIMEDOUT, s)
  end.

Definition serve_job (j : job) (s : S) : rpc_result * S :=
  match DispatchMetaServiceJob j with
  | Dropped | Thrown => (RpcFailed ERPCTIMEDOUT, s)
  | Queued NOT_SUPPORT =>
      rpc_of s (SingleWorkerTask_DoWork little H PgMemoryManager DefaultMemoryManager sizeof_info sizeof_slice info_junk slice_junk
        behind pool_gives backend_gives commit rollback error_message run_command j s)
  | Queued _ =>
      rpc_of s (BatchWorkerTask_DoWork little H PgMemoryManager DefaultMemoryManager sizeof_info sizeof_slice info_junk slice_junk
        behind pool_gives backend_gives commit rollback error_message replyBuilder [j] s)
  end.

(** The memory a call of a single item needs. *)
Record call_fits (m : AnyMetaParam) (r : MetaResponse) : Prop := {
  cf_param : room [pack_param m] <= INT32_MAX;
  cf_pool : forall n, 0 <= n <= room [pack_param m] -> pool_gives n = true;
  cf_backend : forall n, 0 <= n <= room [pack_response r] -> backend_gives n = true;
}.

Context (pg_ok : manager_ok PgMemoryManager) (default_ok : manager_ok DefaultMemoryManager).

Lemma serve_job_replies (service : FalconMetaServiceType) (m : AnyMetaParam) (r : MetaResponse) (bytes : list Z) (s s' : S) :
  file_service service = true -> items pack_param [m] bytes -> call_fits m r ->
  file_served H sizeof_info info_junk service [m] [r] s s' ->
  exists reply, serve_job (mkJob [service_num service] (allows_batch service) bytes) s = (RpcReply reply, commit s') /\
    items pack_response [r] reply.
Proof.
  intros Hf Hi [Hp Hpool Hback] Hs. set (j := mkJob [service_num service] (allows_batch service) bytes).
  assert (job_of service j [m]) as Hj by done. pose proof (items_room _ _ _ Hi) as Hroom. cbn [fmap list_fmap] in Hroom.
  assert (DispatchMetaServiceJob j = Queued (if allows_batch service then FalconMetaServiceTypeToBatchServiceType service else NOT_SUPPORT)) as Ed.
  { unfold DispatchMetaServiceJob. rewrite (job_service service j [m]) by (by destruct service).
    unfold IsEmptyRequest, IsAllowBatchProcess. cbn. by rewrite andb_true_r. }
  unfold serve_job. rewrite Ed. destruct (allows_batch service) eqn:Eb.
  - destruct (batch_answers little H PgMemoryManager DefaultMemoryManager sizeof_info sizeof_slice info_junk slice_junk behind pool_gives
      backend_gives commit rollback error_message replyBuilder service j [] [m] [[r]] bytes behind s s') as (replies & E & HF).
    + done. + done. + apply (job_service service j [m]); by destruct service.
    + cbn [existsb]. rewrite land_mask_mod. unfold GetReqDatasize. cbn [request_attachment j]. by rewrite (items_length _ _ _ Hi).
    + split; cbn; rewrite app_nil_r; [lia|apply Hpool; lia].
    + cbn. by rewrite app_nil_r. + done. + lia. + by constructor. + done. + done.
    + inversion HF as [|? reply ? rest H1 HF1]; subst. inversion HF1; subst. exists reply. split; [|done].
      destruct service; try done; by rewrite E.
  - destruct (SingleWorkerTask_answers little H PgMemoryManager DefaultMemoryManager sizeof_info sizeof_slice info_junk slice_junk behind
      pool_gives backend_gives commit rollback error_message run_command service j [m] [r] s s') as (reply & E & Hr);
      [done|done|done|done|done|apply Hpool; unfold GetReqDatasize; cbn; lia|unfold GetReqDatasize; cbn; lia|done|done|].
    rewrite E. eauto.
Qed.

Lemma call_reaches_handler {A : Type} (r : Connection.request A) (buffer : SerializedData) (m : MetaResponse) (s s' : S) :
  ToFlatBuffersType (rq_type r) = Some (tag_of (rq_param r)) -> file_service (rq_type r) = true ->
  sd_wf (SerializedDataClear buffer) -> manager_gives buffer -> call_fits (rq_param r) m ->
  file_served H sizeof_info info_junk (rq_type r) [rq_param r] [m] s s' ->
  exists buffer', ProcessRequest little DefaultMemoryManager serve_job r buffer s =
      (client_answer (rq_handler r) (norm_response m), buffer', commit s') /\
    sd_wf (SerializedDataClear buffer') /\ manager_gives buffer'.
Proof.
  intros Htag Hf Hwf Hg Hfit Hs. pose proof (cf_param _ _ Hfit) as Hroom. unfold INT32_MAX in Hroom.
  destruct (request_sent little r buffer Hwf Hg) as (buffer' & Ew & Hwf' & Hi & Hmm); [lia|]. exists buffer'.
  destruct (serve_job_replies _ _ m _ s s' Hf Hi Hfit Hs) as (reply & Ej & Hr).
  split; [|split].
  - unfold ProcessRequest. rewrite bool_decide_eq_true_2 by done. cbn [negb]. rewrite Ew, Ej.
    rewrite (response_read little DefaultMemoryManager (rq_handler r) m reply Hr); [done|].
    pose proof (items_room _ _ _ Hr). pose proof (fs_room _ _ _ _ _ _ _ _ Hs). lia.
  - destruct Hwf'. split; cbn; [lia|done|done|done|done].
  - destruct Hg as (mm & ? & ?). exists mm. by rewrite Hmm.
Qed.
(** C9: a remote call is the call of the handler.  When the backend decodes the
    client's item, its handler returns and the answer can be encoded, then what
    the client's method returns, its code and the values it hands out, is what
    the client makes of that answer; the state afterwards is the committed state
    of the handler. *)
Theorem remote_call {A : Type} (r : Connection.request A) (buffer : SerializedData) (m : MetaResponse) (s s' : S) :
  ToFlatBuffersType (rq_type r) = Some (tag_of (rq_param r)) -> file_service (rq_type r) = true ->
  sd_wf (SerializedDataClear buffer) -> manager_gives buffer -> call_fits (rq_param r) m ->
  file_served H sizeof_info info_junk (rq_type r) [rq_param r] [m] s s' ->
  exists buffer', ProcessRequest little DefaultMemoryManager serve_job r buffer s =
      (client_answer (rq_handler r) (norm_response m), buffer', commit s') /\
    sd_wf (SerializedDataClear buffer') /\ manager_gives buffer'.
Proof. apply call_reaches_handler. Qed.
End Remote.
