(* ===== verification/WorkerServer.v ===== *)
(** * A worker

    The handlers of a worker as one server: the tables of directories and
    inodes, of slices and keys, and the slice numbers, with every service that
    MetaProcess.v can be asked for; mkdir, rmdir and rename are refused there.
    With Remote.v this gives the calls of a client to a worker from end to end. *)

From S2P Require Import FalconPrelude Catalog ErrorCode DirService InodeId PathCmp PathParse Placement ShardTable InodeTable ShardService MetaFile Attributes MetaReadDir MetaDir MetaSlice SerializedData MetaMessages MessageCodec MetaProcess WorkerTask Connection Remote.

Abbreviation srv := (server_state (Dir := gmap (Z * string) Z)) (only parsing).

Record worker_server : Type := mkServer {
  ws_srv : srv;
  ws_slices : slice_shards;
  ws_kvs : kv_shards;
  ws_ids : slice_ids;
}.

(** A command on a part of the state. *)
Definition zoom {S T A : Type} (get : S -> T) (set : T -> S -> S) (m : cmd T A) : cmd S A := fun s =>
  match m (get s) with
  | Ret a t => Ret a (set t s)
  | Raise e t => Raise e (set t s)
  | OutOfFuel => OutOfFuel
  end.

Definition on_srv {A : Type} : cmd srv A -> cmd worker_server A :=
  zoom ws_srv (fun t s => mkServer t (ws_slices s) (ws_kvs s) (ws_ids s)).
Definition on_slices {A : Type} : cmd slice_shards A -> cmd worker_server A :=
  zoom ws_slices (fun t s => mkServer (ws_srv s) t (ws_kvs s) (ws_ids s)).
Definition on_kvs {A : Type} : cmd kv_shards A -> cmd worker_server A :=
  zoom ws_kvs (fun t s => mkServer (ws_srv s) (ws_slices s) t (ws_ids s)).
Definition on_ids {A : Type} : cmd slice_ids A -> cmd worker_server A :=
  zoom ws_ids (fun t s => mkServer (ws_srv s) (ws_slices s) (ws_kvs s) t).

(** The part the sub-operations of MetaDir.v work on. *)
Definition on_tables {A : Type} (m : cmd worker A) : cmd worker_server A :=
  on_srv (zoom (fun s => mkWorker (pp_dir (sv_pp s)) (sv_inodes s))
    (fun t s => mkSrv (mkPP (pp_tree (sv_pp s)) (pp_nextval (sv_pp s)) (pp_seq (sv_pp s)) (wk_dirs t)) (wk_inodes t)) m).

Definition set_info (i : MetaProcessInfo) (d : MetaProcessInfoData) : MetaProcessInfoData := with_info (fun _ => i) d.
Definition succeeded_data (d : MetaProcessInfoData) : MetaProcessInfoData := with_info (with_error SUCCESS) d.

(** The sort of a batch moves pointers: each answer stays in the place of its
    request.  Requests for one path are answered in the order of the sort. *)
Fixpoint in_request_order (requests : list MetaProcessInfoData) (res : list MetaProcessInfo) : list MetaProcessInfoData :=
  match requests with
  | [] => []
  | d :: requests' =>
      match list_find (fun i => mi_path i = mi_path (md_info d)) res with
      | Some (k, i) => set_info i d :: in_request_order requests' (delete k res)
      | None => d :: in_request_order requests' res
      end
  end.

Section Worker.
Context {SS : ShardService} (sg : bool) (name_le : relation string) `{!RelDecision name_le}.
Context (now : Z).
Context (pg_qsort : list MetaProcessInfo -> list MetaProcessInfo) (hash_order : list Z -> list Z).
(** What MetaSlice.v needs: memory behind vectors, and the order of the index. *)
Context (behind : nat -> Z) (index_order : list SliceInfo -> list SliceInfo).

Definition batch (h : list MetaProcessInfo -> cmd srv (list MetaProcessInfo)) (ds : list MetaProcessInfoData)
    : cmd worker_server (list MetaProcessInfoData) :=
  res ← on_srv (h (md_info <$> ds)); mret (in_request_order ds res).

Definition one (h : MetaProcessInfo -> cmd srv MetaProcessInfo) (d : MetaProcessInfoData) : cmd worker_server MetaProcessInfoData :=
  i ← on_srv (h (md_info d)); mret (set_info i d).

(** The last name is read when the request goes on with a shard. *)
Definition worker_readdir (d : MetaProcessInfoData) : cmd worker_server (coding MetaProcessInfoData) :=
  r ← on_srv (FalconReadDirHandle sg name_le (mkReadDir (mi_path (md_info d)) (md_readDirMaxReadCount d) (md_readDirLastShardIndex d)
        (default EmptyString (md_readDirLastFileName d))));
  mret (match (r : readdir_reply) with
        | NullDereference => Crash
        | Page l shard name =>
            if negb (md_readDirLastShardIndex d =? -1) && negb (bool_decide (is_Some (md_readDirLastFileName d))) then Crash
            else Coded (mkData (with_error SUCCESS (md_info d)) (md_readDirMaxReadCount d) shard name l (md_dstPath d)
                   (md_dstParentId d) (md_dstParentIdPartId d) (md_dstName d) (md_targetIsDirectory d) (md_srcLockOrder d))
        end).

Definition worker_opendir (d : MetaProcessInfoData) : cmd worker_server MetaProcessInfoData :=
  ino ← on_srv (FalconOpenDirHandle (mi_path (md_info d)));
  mret (succeeded_data (with_info (set_row (row_ino ino)) d)).

Definition worker_rename_locally (d : MetaProcessInfoData) : cmd worker_server MetaProcessInfoData :=
  let i := md_info d in
  r ← on_tables (FalconRenameSubRenameLocallyHandle ss_local (mkRename (md_targetIsDirectory d) (st_ino (mi_row i)) (md_srcLockOrder d)
        (mi_parentId i) (mi_name i) (md_dstParentId d) (md_dstName d) (mi_parentId_partId i) (md_dstParentIdPartId d)));
  mret (succeeded_data (match (r : option inode_row) with Some row => with_info (with_row row) d | None => d end)).

Definition worker_handlers : MetaHandlers worker_server := {|
  h_mkdir := fun _ => raise WRONG_WORKER;
  h_mkdir_sub_mkdir := fun ds => _ ← on_tables (FalconMkdirSubMkdirHandle (md_info <$> ds)); mret (succeeded_data <$> ds);
  h_mkdir_sub_create := fun ds => _ ← on_tables (FalconMkdirSubCreateHandle hash_order ss_local (md_info <$> ds)); mret (succeeded_data <$> ds);
  h_create := fun ds => batch (FalconCreateHandle sg now pg_qsort hash_order (2 * length ds) false) ds;
  h_stat := batch (FalconStatHandle sg pg_qsort hash_order);
  h_open := batch (FalconOpenHandle sg pg_qsort hash_order);
  h_close := batch (FalconCloseHandle sg now pg_qsort hash_order);
  h_unlink := batch (FalconUnlinkHandle sg pg_qsort hash_order);
  h_readdir := worker_readdir;
  h_opendir := worker_opendir;
  h_rmdir := fun _ => raise WRONG_WORKER;
  h_rmdir_sub_rmdir := fun d =>
    _ ← on_tables (FalconRmdirSubRmdirHandle sg name_le ss_local (mi_parentId (md_info d)) (mi_name (md_info d))); mret (succeeded_data d);
  h_rmdir_sub_unlink := fun d =>
    _ ← on_tables (FalconRmdirSubUnlinkHandle ss_local (mi_parentId_partId (md_info d)) (mi_name (md_info d))); mret (succeeded_data d);
  h_rename := fun _ => raise WRONG_WORKER;
  h_rename_sub_rename_locally := worker_rename_locally;
  h_rename_sub_create := fun d =>
    _ ← on_tables (FalconRenameSubCreateHandle ss_local (mi_parentId_partId (md_info d)) (mi_name (md_info d)) (mi_row (md_info d)));
    mret (succeeded_data d);
  h_utimens := one (FalconUtimeNsHandle sg now);
  h_chown := one (FalconChownHandle sg);
  h_chmod := one (FalconChmodHandle sg);
  h_kv_put := fun i => on_kvs (FalconKvmetaPutHandle sg behind i);
  h_kv_get := fun i => on_kvs (FalconKvmetaGetHandle sg i);
  h_kv_del := fun i => on_kvs (FalconKvmetaDelHandle sg i);
  h_slice_put := fun l => on_slices (FalconSlicePutHandle sg behind l);
  h_slice_get := fun l => on_slices (FalconSliceGetHandle sg index_order l);
  h_slice_del := fun l => on_slices (FalconSliceDelHandle sg l);
  h_fetch_slice_id := fun i => on_ids (FalconFetchSliceIdHandle i);
|}.

(** The end of a transaction: the tree of paths is dropped, and after an error
    all changes but those of the sequence. *)
Definition end_transaction (p : pp_state (Dir := gmap (Z * string) Z)) (d : gmap (Z * string) Z) : pp_state (Dir := gmap (Z * string) Z) :=
  mkPP ∅ (pp_nextval p) (pp_seq p) d.
Definition worker_commit (s : worker_server) : worker_server :=
  mkServer (mkSrv (end_transaction (sv_pp (ws_srv s)) (pp_dir (sv_pp (ws_srv s)))) (sv_inodes (ws_srv s))) (ws_slices s) (ws_kvs s) (ws_ids s).
Definition worker_rollback (s s' : worker_server) : worker_server :=
  mkServer (mkSrv (end_transaction (sv_pp (ws_srv s')) (pp_dir (sv_pp (ws_srv s)))) (sv_inodes (ws_srv s))) (ws_slices s) (ws_kvs s) (ws_ids s).
End Worker.

(** ** Calls from end to end *)

Section Calls.
Context {FB : FlatBuffers} (little : bool).
Context (PgMemoryManager DefaultMemoryManager : MemoryManager).
Context (pg_ok : manager_ok PgMemoryManager) (default_ok : manager_ok DefaultMemoryManager).
Context (sizeof_info sizeof_slice : Z) (sizeof_ok : 0 <= sizeof_info <= MaxAllocSize).
Context (info_junk : nat -> MetaProcessInfoData) (slice_junk : nat -> SliceProcessInfo).
Context (shmem_behind : list Z) (pool_gives backend_gives : Z -> bool).
Context (error_message : FalconErrorCode -> string) (run_command : string -> worker_server -> list pg_result * worker_server).
Context (replyBuilder : SerializedData).
Context {SS : ShardService} (sg : bool) (name_le : relation string) `{!RelDecision name_le} (now : Z).
Context (pg_qsort : list MetaProcessInfo -> list MetaProcessInfo) (hash_order : list Z -> list Z).
Context (pg_qsort_perm : forall l, pg_qsort l ≡ₚ l) (hash_order_perm : forall l, hash_order l ≡ₚ l).
Context (covers : forall v, is_Some (ss_lookup v)).
Context (behind : nat -> Z) (index_order : list SliceInfo -> list SliceInfo).

Abbreviation handlers := (worker_handlers sg name_le now pg_qsort hash_order behind index_order).

(** A call of a client to the worker. *)
Definition worker_call {A : Type} (r : Connection.request A) (buffer : SerializedData) (w : worker_server)
    : client_result A * SerializedData * worker_server :=
  ProcessRequest little DefaultMemoryManager
    (serve_job little handlers PgMemoryManager DefaultMemoryManager sizeof_info sizeof_slice info_junk slice_junk shmem_behind
       pool_gives backend_gives worker_commit worker_rollback error_message run_command replyBuilder) r buffer w.

(** A worker between transactions. *)
Definition worker_ok (w : worker_server) : Prop := srv_ok (ws_srv w) /\ tables_ok (sv_inodes (ws_srv w)).

(** The row that a path leads to on the worker. *)
Definition row_at (w : worker_server) (path : string) (sh : Z) (k : Z * string) (r : inode_row) : Prop :=
  exists p, target_of (view_of (sv_pp (ws_srv w))) path = Some (p, k.2) /\ k.1 = CombineParentIdWithPartId p (HashPartId sg k.2) /\
    ss_lookup k.1 = Some (sh, ss_local) /\ find_row (sv_inodes (ws_srv w)) sh k = Some r.

Lemma commit_srv_ok (w : worker_server) : ds_ok (pp_dir (sv_pp (ws_srv w))) -> srv_ok (ws_srv (worker_commit w)).
Proof. intros H. split; [done|]. intros n p nd Hn. cbn in Hn. by rewrite lookup_empty in Hn. Qed.

(** The answer of stat for one path. *)
Lemma stat_served (path : string) (sh : Z) (k : Z * string) (r : inode_row) (w : worker_server) :
  worker_ok w -> absolute path -> c_string path = path -> row_at w path sh k r ->
  room [pack_response (mkResponse 0 (StatResponse (attributes_of r)))] <= 2 ^ 31 ->
  exists w', file_served handlers sizeof_info info_junk STAT [PathOnlyParam (Some path)] [mkResponse 0 (StatResponse (attributes_of r))] w w' /\
    worker_ok (worker_commit w') /\ sv_inodes (ws_srv w') = sv_inodes (ws_srv w).
Proof.
  intros [Hok Ht] Habs Hc (p & Htgt & Hk1 & Hl & Hr) Hroom. set (d := with_info (set_path path) (info_junk 0)).
  destruct (stat_handle sg pg_qsort hash_order pg_qsort_perm hash_order_perm covers [md_info d] (ws_srv w) Hok Ht)
    as (res & s' & E & Hok' & [Hv Hi] & Hres).
  set (i' := answer_one sg (view_of (sv_pp (ws_srv w))) 0 (stat_answer (sv_inodes (ws_srv w))) (md_info d)) in *.
  apply Permutation_singleton_r in Hres as ->.
  assert (mi_path i' = path /\ mi_errorCode i' = SUCCESS /\ attributes_of (mi_row i') = attributes_of r) as (Hp & He & Ha).
  { unfold i', answer_one, lookup_info. cbn. unfold VerifyPathValidity. rewrite (bool_decide_eq_true_2 (String.get 0 path = Some SLASH)) by done.
    cbn [negb]. change (has 0 ?x) with false. cbn [andb fst]. rewrite bool_decide_eq_true_2 by done. cbn [negb].
    change (target_of (table_view (pp_dir (sv_pp (ws_srv w)))) path = Some (p, k.2)) in Htgt. rewrite Htgt.
    rewrite <- Hk1, Hl, Z.eqb_refl. cbn. unfold stat_answer, info_key. cbn. rewrite <- surjective_pairing, Hr. done. }
  exists (mkServer s' (ws_slices w) (ws_kvs w) (ws_ids w)). split; [|split; [split|]].
  - split; [by right| | |done|done].
    { change (Z.of_nat (length [PathOnlyParam (Some path)])) with 1. rewrite Z.mul_1_r. unfold MaxAllocSize in *. rewrite wrap_small; [lia|].
      unfold in_range. lia. }
    exists [d], [set_info i' d]. split; [cbn; by rewrite Hc|]. split.
    + cbn [file_switch h_stat worker_handlers]. unfold batch_of, batch, on_srv, zoom, mbind, cmd_bind. cbn [fmap list_fmap]. rewrite E.
      unfold mret, cmd_ret. cbn. by rewrite decide_True.
    + constructor; [|constructor]. unfold encode_meta_response. cbn [set_info with_info md_info].
      rewrite He, (bool_decide_eq_true_2 (SUCCESS = SUCCESS)) by done. cbn [negb andb]. by rewrite Ha.
  - apply commit_srv_ok, Hok'.
  - intros v x Hx. cbn. rewrite Hi. by eapply Ht.
  - exact Hi.
Qed.

(** The row after utimens. *)
Definition utimens_row (atime mtime : Z) (r : inode_row) : inode_row :=
  modify_row (mkArgs true None false None None None None None None (Some atime) (Some mtime) None) r.

Lemma utimens_served (path : string) (atime mtime sh : Z) (k : Z * string) (r : inode_row) (w : worker_server) :
  worker_ok w -> absolute path -> path <> String SLASH EmptyString -> c_string path = path -> row_at w path sh k r ->
  in_signed_range 64 atime -> in_signed_range 64 mtime -> atime <> -1 -> mtime <> -1 ->
  room [pack_response (error_only SUCCESS)] <= 2 ^ 31 ->
  exists w', file_served handlers sizeof_info info_junk UTIMENS [UtimeNsParam (Some path) atime mtime] [error_only SUCCESS] w w' /\
    worker_ok (worker_commit w') /\ row_at (worker_commit w') path sh k (utimens_row atime mtime r).
Proof.
  intros [Hok Ht] Habs Hroot Hc (p & Htgt & Hk1 & Hl & Hr) Ha Hm Ha1 Hm1 Hroom.
  set (d := with_info (fun i => set_row (row_times atime mtime) (set_path path i)) (info_junk 0)).
  set (a := mkArgs true None false None None None None None None (Some atime) (Some mtime) None).
  pose proof (set_attributes_outcome sg a (md_info d) (ws_srv w) Hok Ht) as Hset. change (mi_path (md_info d)) with path in Hset.
  unfold setattr_outcome in Hset. rewrite Htgt, <- Hk1, Hl, Z.eqb_refl in Hset. cbn [negb] in Hset. rewrite <- surjective_pairing, Hr in Hset.
  destruct Hset as (s' & E & Hi & Hds & Hv); [by split_and!|done|done|]. rewrite bool_decide_eq_true_2 in E by done.
  exists (mkServer s' (ws_slices w) (ws_kvs w) (ws_ids w)). split; [|split; [split|]].
  - split; [by right| | |done|done].
    { change (Z.of_nat (length [UtimeNsParam (Some path) atime mtime])) with 1. rewrite Z.mul_1_r. unfold MaxAllocSize in *.
      rewrite wrap_small; [lia|]. unfold in_range. lia. }
    exists [d], [set_info (with_error SUCCESS (md_info d)) d]. split; [cbn; rewrite Hc; by rewrite !signed_wrap by (lia || done)|]. split.
    + cbn [file_switch h_utimens worker_handlers]. unfold single, first_of, one, on_srv, zoom, mbind, cmd_bind, FalconUtimeNsHandle.
      change (st_atim (mi_row (md_info d))) with atime. change (st_mtim (mi_row (md_info d))) with mtime.
      rewrite (proj2 (Z.eqb_neq atime (-1))), (proj2 (Z.eqb_neq mtime (-1))) by done. cbn [orb negb]. fold a. by rewrite E.
    + constructor; [done|constructor].
  - by apply commit_srv_ok.
  - intros v x Hx. cbn. rewrite Hi. unfold updated. destruct (decide (x = sh)) as [->|Hne].
    + rewrite lookup_alter_eq. destruct (Ht v sh Hx) as [rows ->]. eauto.
    + rewrite lookup_alter_ne by done. by eapply Ht.
  - exists p. split; [rewrite <- Htgt; by apply target_of_view|]. split; [done|]. split; [done|].
    cbn. rewrite Hi. unfold updated, find_row in *. rewrite lookup_alter_eq. destruct (sv_inodes (ws_srv w) !! sh) as [rows|]; [|done].
    cbn in Hr |- *. by rewrite lookup_alter_eq, Hr.
Qed.

(** The memory of the two calls. *)
Definition utimens_stat_fits (path : string) (atime mtime : Z) (r : inode_row) : Prop :=
  call_fits pool_gives backend_gives (UtimeNsParam (Some path) atime mtime) (error_only SUCCESS) /\
  call_fits pool_gives backend_gives (PathOnlyParam (Some path)) (mkResponse 0 (StatResponse (attributes_of (utimens_row atime mtime r)))) /\
  room [pack_response (error_only SUCCESS)] <= 2 ^ 31 /\
  room [pack_response (mkResponse 0 (StatResponse (attributes_of (utimens_row atime mtime r))))] <= 2 ^ 31.

Lemma utimens_then_stat (path : string) (atime mtime sh : Z) (k : Z * string) (r : inode_row) (buffer : SerializedData) (w : worker_server) :
  worker_ok w -> absolute path -> path <> String SLASH EmptyString -> c_string path = path -> row_at w path sh k r -> row_typed r ->
  in_signed_range 64 atime -> in_signed_range 64 mtime -> atime <> -1 -> mtime <> -1 ->
  sd_wf (SerializedDataClear buffer) -> manager_gives buffer -> utimens_stat_fits path atime mtime r ->
  exists b1 w1 b2 w2,
    worker_call (UtimeNs path atime mtime) buffer w = (Returned SUCCESS (Some tt), b1, w1) /\
    worker_call (Stat path) b1 w1 = (Returned SUCCESS (Some (mkStat (st_ino r) (st_dev r) (st_mode r) (st_nlink r) (st_uid r) (st_gid r) (st_rdev r)
      (st_size r) ST_BLKSIZE (Z.quot (st_size r + ST_BLKSIZE - 1) ST_BLKSIZE * (ST_BLKSIZE / ST_NBLOCKSIZE))
      (ConvertTimestampFromPGToUnix atime) (ConvertTimestampFromPGToUnix mtime) (ConvertTimestampFromPGToUnix (st_ctim r)))), b2, w2).
Proof.
  intros Hw Habs Hroot Hc Hat Hty Ha Hm Ha1 Hm1 Hwf Hg (F1 & F2 & R1 & R2).
  destruct (utimens_served path atime mtime sh k r w) as (w1 & S1 & Hw1 & Hat1); [done..|].
  destruct (stat_served path sh k (utimens_row atime mtime r) (worker_commit w1)) as (w2 & S2 & _ & _); [done..|].
  destruct (call_reaches_handler little handlers PgMemoryManager DefaultMemoryManager sizeof_info sizeof_slice info_junk slice_junk shmem_behind pool_gives
    backend_gives worker_commit worker_rollback error_message run_command replyBuilder pg_ok default_ok (UtimeNs path atime mtime) buffer
    (error_only SUCCESS) w w1) as (b1 & E1 & Hwf1 & Hg1); [done..|].
  destruct (call_reaches_handler little handlers PgMemoryManager DefaultMemoryManager sizeof_info sizeof_slice info_junk slice_junk shmem_behind pool_gives
    backend_gives worker_commit worker_rollback error_message run_command replyBuilder pg_ok default_ok (Stat path) b1
    (mkResponse 0 (StatResponse (attributes_of (utimens_row atime mtime r)))) (worker_commit w1) w2) as (b2 & E2 & _); [done..|].
  exists b1, (worker_commit w1), b2, (worker_commit w2). split; [exact E1|]. unfold worker_call. rewrite E2. do 2 f_equal.
  change (client_answer _ _) with (Returned SUCCESS (Some (stat_of (norm_attributes (attributes_of (utimens_row atime mtime r)))))).
  unfold stat_of, ConvertTimestampFromPGToUnix, norm_attributes. cbn. destruct Hty.
  assert (forall x, u64 (u64 x) = u64 x) as Hu by (intros; apply wrap_idemp; lia).
  rewrite !Hu. by typed_simpl.
Qed.

(** DoUtimens of falcon_client/fuse_main.cpp: what it hands to the call. *)
Definition UTIME_NOW : Z := 2 ^ 30 - 1.
Definition DoUtimens (tv : option (timespec * timespec)) : Z * Z :=
  match tv with
  | None => (-1, -1)
  | Some (atime, mtime) => if tv_nsec atime =? UTIME_NOW then (-1, -1) else (tv_sec atime, tv_sec mtime)
  end.

(** The times a client sets are not those it reads.  For a file of the worker
    and any two times from 1970 on, utimens succeeds and stat then reports every
    attribute of the file as it was, and for the times a second just after
    the beginning of the year 2000: the seconds that were handed down are taken
    for microseconds since then, and what is left of the division by a million
    is reported as nanoseconds. *)
Theorem utimens_stat_times (path : string) (atime mtime : timespec) (sh : Z) (k : Z * string) (r : inode_row) (buffer : SerializedData) (w : worker_server) :
  worker_ok w -> absolute path -> path <> String SLASH EmptyString -> c_string path = path -> row_at w path sh k r -> row_typed r ->
  0 <= tv_sec atime < 2 ^ 62 -> 0 <= tv_sec mtime < 2 ^ 62 -> tv_nsec atime <> UTIME_NOW ->
  sd_wf (SerializedDataClear buffer) -> manager_gives buffer -> utimens_stat_fits path (tv_sec atime) (tv_sec mtime) r ->
  exists b1 w1 b2 w2 st,
    worker_call (uncurry (UtimeNs path) (DoUtimens (Some (atime, mtime)))) buffer w = (Returned SUCCESS (Some tt), b1, w1) /\
    worker_call (Stat path) b1 w1 = (Returned SUCCESS (Some st), b2, w2) /\
    stat_atim st = mkTimespec (946684800 + tv_sec atime / 1000000) (tv_sec atime mod 1000000) /\
    stat_mtim st = mkTimespec (946684800 + tv_sec mtime / 1000000) (tv_sec mtime mod 1000000) /\
    stat_ino st = st_ino r /\ stat_mode st = st_mode r /\ stat_uid st = st_uid r /\ stat_gid st = st_gid r /\ stat_size st = st_size r.
Proof.
  intros Hw Habs Hroot Hc Hat Hty Ha Hm Hnow Hwf Hg Hfit. unfold DoUtimens. rewrite (proj2 (Z.eqb_neq _ _)) by done. cbn [uncurry].
  destruct (utimens_then_stat path (tv_sec atime) (tv_sec mtime) sh k r buffer w) as (b1 & w1 & b2 & w2 & E1 & E2);
    [done..|unfold in_signed_range; lia|unfold in_signed_range; lia|lia|lia|done|done|done|].
  exists b1, w1, b2, w2. eexists. split; [exact E1|]. split; [exact E2|]. cbn [stat_atim stat_mtim stat_ino stat_mode stat_uid stat_gid stat_size].
  assert (forall t, 0 <= t < 2 ^ 62 -> ConvertTimestampFromPGToUnix t = mkTimespec (946684800 + t / 1000000) (t mod 1000000)) as Hconv.
  { intros t Ht. unfold ConvertTimestampFromPGToUnix, SECONDS_DIFF_BETWEEN_PG_AND_UNIX. assert (0 <= t / 1000000 <= t).
    { split; [apply Z.div_pos; lia|]. apply Z.div_le_upper_bound; lia. }
    rewrite (wrap_small 64 t) by (unfold in_range; lia). rewrite wrap_small by (unfold in_range; lia).
    rewrite signed_id by (unfold in_signed_range; lia). f_equal. lia. }
  rewrite !Hconv by done. done.
Qed.
End Calls.
