(* ===== verification/ServiceDemo.v ===== *)
(** * Requests to a worker with one shard

    The server of MetaFile.v behind the whole path of a request: instances of
    what Remote.v, WorkerTask.v and WorkerServer.v state, with the codec of
    MessageCodec.v and a memory manager that hands out zeroed memory. *)

From S2P Require Import FalconPrelude Catalog ErrorCode DirService InodeId PathCmp PathParse Placement ShardTable InodeTable ShardService MetaFile Attributes MetaReadDir MetaDir MetaSlice SerializedData MetaMessages MessageCodec MetaProcess WorkerTask Connection Remote WorkerServer.

(** ** Checking a request by computation *)

Section Check.
Context {FB : FlatBuffers} {S : Type} (H : MetaHandlers S) (sizeof_info : Z) (info_junk : nat -> MetaProcessInfoData).

Definition coded {A : Type} (c : coding A) : option A := match c with Coded a => Some a | _ => None end.

(** The answers of the handler to the items of a request. *)
Definition answers_of (service : FalconMetaServiceType) (ms : list AnyMetaParam) (s : S) : option (list MetaResponse) :=
  infos ← coded (decode_each (decode_meta_param service) (norm_param <$> ms) (info_junk <$> seq 0 (length ms)));
  match file_switch H service infos s with
  | Ret (Coded infos') _ => mapM (fun i => coded (encode_meta_response service i)) infos'
  | _ => None
  end.

Lemma served_by_computation (service : FalconMetaServiceType) (ms : list AnyMetaParam) (rs : list MetaResponse) (s : S) :
  answers_of service ms s = Some rs -> length rs = length ms -> batch_service service = true \/ length ms = 1%nat ->
  u64 (sizeof_info * Z.of_nat (length ms)) <= MaxAllocSize -> room (pack_response <$> rs) <= 2 ^ 31 ->
  exists s', file_served H sizeof_info info_junk service ms rs s s'.
Proof.
  intros Ha Hl Hb Hs Hr. unfold answers_of in Ha.
  destruct (decode_each _ _ _) as [infos| |] eqn:Ed; cbn in Ha; [|discriminate|discriminate].
  destruct (file_switch H service infos s) as [[infos'| |] s'| |] eqn:Eh; try discriminate. exists s'. split; [done|done| |done|done].
  exists infos, infos'. split; [done|]. split; [done|]. apply mapM_Some_1 in Ha. eapply Forall2_impl; [exact Ha|].
  intros i r Hi. cbn beta in Hi |- *. destruct (encode_meta_response service i); cbn in Hi; congruence.
Qed.
End Check.

(** ** The worker *)

#[local] Instance one_shard : ShardService := table_shards (fun v => v) {[ INT32_MAX := 1 ]} 1.

(** The byte order of names. *)
Definition name_le (a b : string) : Prop := match String.compare a b with Gt => False | _ => True end.
#[local] Instance name_le_dec : RelDecision name_le.
Proof. intros a b. unfold name_le. destruct (String.compare a b); apply _. Defined.

Definition demo_worker : worker_server := mkServer full_server ∅ ∅ (mkSliceIds None None).
Definition junk_info : MetaProcessInfoData := mkData (MetaFile.request EmptyString) 0 0 None [] EmptyString 0 0 EmptyString false 0.
Definition demo_junk (_ : nat) : MetaProcessInfoData := junk_info.
Definition slice_junk (_ : nat) : SliceProcessInfo := mkSliceProcess [] [] [] [] [] [] [] [] EmptyString 0 0 0 SUCCESS.
Definition demo_handlers : MetaHandlers worker_server :=
  worker_handlers true name_le 77 (fun l => l) (fun l => l) (fun _ => 0) (fun l => l).

Lemma zero_manager_ok : manager_ok zero_manager.
Proof.
  split; [apply _|]. split.
  - intros n [Hn _]. cbn. destruct (Z.leb_spec 0 n); [eauto|lia].
  - intros old n [Hn _]. cbn. destruct (Z.leb_spec 0 n); [eauto|lia].
Qed.

Lemma empty_data_gives : manager_gives empty_data.
Proof. exists zero_manager. split; [done|]. apply zero_manager_ok. Qed.

(** A job of the client: one item with its length. *)
Definition frame_of (m : AnyMetaParam) : list Z := frame (pack_param m ++ [0; 0; 0]).
Definition stat_param (path : string) : AnyMetaParam := PathOnlyParam (Some path).
Definition stat_job (path : string) : job := mkJob [service_num STAT] true (frame_of (stat_param path)).

Lemma frame_items (ms : list AnyMetaParam) : items pack_param ms (concat (frame_of <$> ms)).
Proof.
  exists ((fun m => pack_param m ++ [0; 0; 0]) <$> ms). split.
  - apply Forall2_fmap, Forall_Forall2_diag, Forall_true. intros m. exists [0; 0; 0]. split; [done|]. split; [cbn; lia|]. by split.
  - unfold frames. by rewrite <- list_fmap_compose.
Qed.

Definition demo_batch (jobs : list job) : task_result worker_server :=
  BatchWorkerTask_DoWork true demo_handlers zero_manager zero_manager 500 500 demo_junk slice_junk [] (fun _ => true) (fun _ => true)
    worker_commit worker_rollback (fun e => FALCON_ELOG_ERROR e "error") empty_data jobs demo_worker.

(** The attributes of the file of the worker. *)
Definition file_answer : MetaResponse := mkResponse 0 (StatResponse (attributes_of a_file)).

Lemma BatchWorkerTask_answers_witness :
  exists replies s', demo_batch [stat_job "/a/f"; stat_job "/b/f"] = Answered replies s' /\
    Forall2 (items pack_response) [[file_answer]; [error_only PATH_IS_INVALID]] replies.
Proof.
  destruct (served_by_computation demo_handlers 500 demo_junk STAT (concat [[stat_param "/a/f"]; [stat_param "/b/f"]])
    [file_answer; error_only PATH_IS_INVALID] demo_worker) as [s' Hs]; [by vm_compute|done|by left|by vm_compute|by vm_compute|].
  destruct (BatchWorkerTask_answers true demo_handlers zero_manager zero_manager 500 500 demo_junk slice_junk [] (fun _ => true) (fun _ => true)
    worker_commit worker_rollback (fun e => FALCON_ELOG_ERROR e "error") empty_data STAT [stat_job "/a/f"; stat_job "/b/f"]
    [[stat_param "/a/f"]; [stat_param "/b/f"]] [file_answer; error_only PATH_IS_INVALID] demo_worker s' zero_manager_ok eq_refl ltac:(done))
    as (replies & rss & E & Hrs & Hl & HF); [|by repeat constructor|split; by vm_compute|done|done|].
  - repeat constructor; [exact (frame_items [stat_param "/a/f"])|exact (frame_items [stat_param "/b/f"])].
  - exists replies, (worker_commit s'). split; [exact E|].
    inversion Hl as [|? r1 ? rss1 L1 Hl1]; subst. inversion Hl1 as [|? r2 ? rss2 L2 Hl2]; subst. inversion Hl2; subst.
    destruct r1 as [|x [|]], r2 as [|y [|]]; try discriminate L1; try discriminate L2. injection Hrs as <- <-. exact HF.
Defined.

(** A client that announces one item and sends two: the other client, whose path
    does not exist, is answered with the attributes of the file. *)
Definition greedy_job : job := mkJob [service_num STAT] true (concat (frame_of <$> [stat_param "/b/f"; stat_param "/a/f"])).

Lemma BatchWorkerTask_misattributes_witness :
  exists reply1 reply2 s', demo_batch [greedy_job; stat_job "/nothing"] = Answered [reply1; reply2] s' /\
    items pack_response [file_answer] reply2.
Proof.
  destruct (served_by_computation demo_handlers 500 demo_junk STAT [stat_param "/b/f"; stat_param "/a/f"]
    [error_only PATH_IS_INVALID; file_answer] demo_worker) as [s' Hs]; [by vm_compute|done|by left|by vm_compute|by vm_compute|].
  destruct (BatchWorkerTask_misattributes true demo_handlers zero_manager zero_manager 500 500 demo_junk slice_junk [] (fun _ => true)
    (fun _ => true) worker_commit worker_rollback (fun e => FALCON_ELOG_ERROR e "error") empty_data STAT greedy_job (stat_job "/nothing")
    (stat_param "/b/f") (stat_param "/a/f") (error_only PATH_IS_INVALID) file_answer demo_worker s' zero_manager_ok eq_refl eq_refl
    (frame_items _) eq_refl) as (reply1 & reply2 & E & _ & H2); [by vm_compute|split; by vm_compute|exact Hs|done|].
  exists reply1, reply2, (worker_commit s'). split; [exact E|exact H2].
Defined.

Lemma BatchWorkerTask_error_witness :
  exists reply s', demo_batch [mkJob [service_num MKDIR] true (frame_of (stat_param "/d"))] = Answered [reply] s' /\
    items pack_response [error_only WRONG_WORKER] reply.
Proof.
  set (jobs := [mkJob [service_num MKDIR] true (frame_of (stat_param "/d"))]).
  assert (match FileMetaProcess true demo_handlers zero_manager zero_manager 500 demo_junk MKDIR 1 (concat (request_attachment <$> jobs) ++ []) demo_worker
          with Failed e _ => e = WRONG_WORKER | _ => False end) as He by (vm_compute; reflexivity).
  destruct (FileMetaProcess true demo_handlers _ _ 500 demo_junk MKDIR 1 _ demo_worker) as [|e s'| |] eqn:Ef; try done. subst e.
  destruct (BatchWorkerTask_error true demo_handlers zero_manager zero_manager 500 500 demo_junk slice_junk [] (fun _ => true) (fun _ => true)
    worker_commit worker_rollback (fun e => FALCON_ELOG_ERROR e "error") empty_data MKDIR jobs [[stat_param "/d"]] WRONG_WORKER "error"
    demo_worker s' eq_refl ltac:(done)) as (reply & E & Hr);
    [|by repeat constructor|split; by vm_compute|exact Ef|done|done|done|apply empty_data_wf|apply empty_data_gives|by vm_compute|].
  - repeat constructor. exact (frame_items [stat_param "/d"]).
  - exists reply, (worker_rollback demo_worker s'). split; [exact E|exact Hr].
Defined.

Lemma SingleWorkerTask_one_service_witness :
  SingleWorkerTask_DoWork true demo_handlers zero_manager zero_manager 500 500 demo_junk slice_junk [] (fun _ => true) (fun _ => true)
    worker_commit worker_rollback (fun e => FALCON_ELOG_ERROR e "error") (fun _ s => ([], s))
    (mkJob [service_num STAT; service_num OPEN] false (concat (frame_of <$> [stat_param "/a/f"; stat_param "/a/f"]))) demo_worker = Terminated.
Proof. apply (SingleWorkerTask_one_service _ _ _ _ _ _ _ _ _ _ _ _ _ _ _ _ [STAT; OPEN] STAT OPEN); [done|left|right; left|done]. Defined.

(** ** Calls of a client *)

Lemma all_fit (m : AnyMetaParam) (r : MetaResponse) : call_fits (fun _ => true) (fun _ => true) m r.
Proof. split; [by vm_compute|done|done]. Qed.

Lemma remote_call_witness :
  exists buffer' s', ProcessRequest true zero_manager
      (serve_job true demo_handlers zero_manager zero_manager 500 500 demo_junk slice_junk [] (fun _ => true) (fun _ => true)
         worker_commit worker_rollback (fun e => FALCON_ELOG_ERROR e "error") (fun _ s => ([], s)) empty_data) (Unlink "/a/f") empty_data demo_worker
    = (Returned SUCCESS (Some (9, 100, 1)), buffer', s').
Proof.
  destruct (served_by_computation demo_handlers 500 demo_junk UNLINK [stat_param "/a/f"]
    [mkResponse 0 (UnlinkResponse 9 100 1)] demo_worker) as [s' Hs]; [by vm_compute|done|by left|by vm_compute|by vm_compute|].
  destruct (remote_call true demo_handlers zero_manager zero_manager 500 500 demo_junk slice_junk [] (fun _ => true) (fun _ => true)
    worker_commit worker_rollback (fun e => FALCON_ELOG_ERROR e "error") (fun _ s => ([], s)) empty_data zero_manager_ok zero_manager_ok
    (Unlink "/a/f") empty_data (mkResponse 0 (UnlinkResponse 9 100 1)) demo_worker s' eq_refl eq_refl empty_data_wf empty_data_gives
    (all_fit _ _) Hs) as (buffer' & E & _).
  exists buffer', (worker_commit s'). exact E.
Defined.

Lemma utimens_stat_times_witness :
  exists b1 w1 b2 w2 st,
    worker_call true zero_manager zero_manager 500 500 demo_junk slice_junk [] (fun _ => true) (fun _ => true) (fun e => FALCON_ELOG_ERROR e "error")
      (fun _ s => ([], s)) empty_data true name_le 77 (fun l => l) (fun l => l) (fun _ => 0) (fun l => l) (Stat "/a/f") b1 w1 =
      (Returned SUCCESS (Some st), b2, w2) /\
    stat_mtim st = mkTimespec 946686500 0.
Proof.
  destruct (utimens_stat_times true zero_manager zero_manager zero_manager_ok zero_manager_ok 500 500 ltac:(unfold MaxAllocSize; lia) demo_junk slice_junk []
    (fun _ => true) (fun _ => true) (fun e => FALCON_ELOG_ERROR e "error") (fun _ s => ([], s)) empty_data true name_le 77 (fun l => l) (fun l => l)
    ltac:(done) ltac:(done) one_shard_covers (fun _ => 0) (fun l => l) "/a/f" (mkTimespec 1700000000 0) (mkTimespec 1700000000 0) INT32_MAX
    (key_in_a "f") a_file empty_data demo_worker) as (b1 & w1 & b2 & w2 & st & _ & E & _ & Hm & _).
  - split; [exact full_server_ok|exact full_tables_ok].
  - done.
  - done.
  - done.
  - exists 5. split; [by vm_compute|]. split; [by vm_compute|]. split; by vm_compute.
  - split; split; by vm_compute.
  - cbn. lia.
  - cbn. lia.
  - done.
  - exact empty_data_wf.
  - exact empty_data_gives.
  - split; [apply all_fit|]. split; [apply all_fit|]. split; by vm_compute.
  - exists b1, w1, b2, w2, st. split; [exact E|exact Hm].
Defined.

(** ** A request of the coordinator *)

Definition sub_rmdir (parent : Z) (name : string) : MetaProcessInfoData :=
  with_info (set_key parent 0 name) junk_info.

Lemma sub_rmdir_typed (parent : Z) (name : string) : in_range 64 parent -> c_string name = name -> data_typed (sub_rmdir parent name).
Proof. intros Hp Hn. split; [split|..]; cbn; try exact Hp; try exact Hn; unfold in_range, in_signed_range; try lia; done. Qed.

Lemma sub_requests_arrive_witness :
  exists d' infos', SerializedDataMetaParamEncode true RMDIR_SUB_RMDIR [sub_rmdir 5 "x"; sub_rmdir 6 "y"] empty_data = Coded d' /\
    SerializedDataMetaParamDecode true RMDIR_SUB_RMDIR (message_view (valid_bytes d' ++ [1; 2; 3])) [junk_info; junk_info] = Coded infos' /\
    (fun d => (mi_parentId (md_info d), mi_name (md_info d))) <$> infos' = [(5, "x"%string); (6, "y"%string)].
Proof.
  destruct (sub_requests_arrive true RMDIR_SUB_RMDIR [sub_rmdir 5 "x"; sub_rmdir 6 "y"] [junk_info; junk_info] empty_data)
    as (d' & E & Hd).
  - unfold sub_services. set_solver.
  - by repeat (constructor; [apply sub_rmdir_typed; done|]).
  - done.
  - exact empty_data_wf.
  - done.
  - exact empty_data_gives.
  - intros ms Hms. inversion Hms as [|? m1 ? ms1 _ H1]; subst. inversion H1 as [|? m2 ? ms2 _ H2]; subst. inversion H2; subst. by vm_compute.
  - destruct (Hd [1; 2; 3]) as (infos' & Ed & HF). exists d', infos'. split; [exact E|]. split; [exact Ed|].
    apply Forall2_cons_inv_l in HF as (d1 & r1 & [P1 N1] & HF & ->). apply Forall2_cons_inv_l in HF as (d2 & r2 & [P2 N2] & HF & ->).
    apply Forall2_nil_inv_l in HF as ->. cbn [fmap list_fmap]. by rewrite P1, N1, P2, N2.
Defined.
