(* ===== verification/DiskCache.v ===== *)
(** * The cache of data files on the local disk

    falcon_store/src/disk_cache/disk_cache.cpp with GetFilePath of
    falcon_store/src/util/utils.cpp.  The index of the cache is a linked list of
    items in the order of their insertion and a hash table from inode numbers to
    iterators of the list.  A list node is a number, an iterator is the number of
    its node, so that a hash table that points to no node of the list is a state
    of the model and its use is undefined behaviour ([None]).

    The file system is a parameter ([CacheFs]); what is used of it is
    [CacheFsLaws].  [float] and [double] are the executable formats of SpecFloat.
    The operations under the mutex of the cache are atomic ([op]);
    PreAllocSpace, which releases that mutex between its rounds, lets any of them
    run there ([during]). *)

From Stdlib Require Import Floats.SpecFloat.
From stdpp Require Import pretty.
From S2P Require Import FalconPrelude Decimal.

(** ** The file system *)

Record StatFs : Type := {
  f_bsize : Z;
  f_blocks : Z;
  f_bavail : Z;
  f_files : Z;
  f_ffree : Z
}.

(** [remove] returns 0 or errno, [access] whether the path exists; [opendir] is
    the names that readdir returns, with whether closedir succeeds; [stat] is the
    size and the time of the last access.  [rootPath] and [totalDirectory] are the
    globals of util/utils.cpp, set by InitStore; [float_undefined] is what a
    conversion from [float] to [uint64_t] gives that is out of range. *)
Class CacheFs : Type := {
  rootPath : string;
  totalDirectory : Z;
  float_undefined : spec_float -> Z;
  fs : Type;
  remove : string -> fs -> Z * fs;
  access : string -> fs -> bool;
  statfs : string -> fs -> option StatFs;
  opendir : string -> fs -> option (list string * bool);
  stat : string -> fs -> option (Z * Z)
}.

Class CacheFsLaws `{CacheFs} : Prop := {
  remove_gone p f f' : remove p f = (0, f') -> access p f' = false;
  remove_failed p f e f' : remove p f = (e, f') -> e <> 0 -> access p f' = access p f;
  remove_other p q f : p <> q -> access q (remove p f).2 = access q f
}.

(** ** Floating point

    [float] has 24 bits and [double] 53; conversions round to nearest. *)

Definition double_of_Z (x : Z) : spec_float := binary_normalize 53 1024 x 0 false.
Definition float_of_Z (x : Z) : spec_float := binary_normalize 24 128 x 0 false.

(** Conversion of a [float] to [double] is exact, of a [double] to [float] rounds. *)
Definition double_of_float (x : spec_float) : spec_float := x.
Definition float_of_double (x : spec_float) : spec_float :=
  match x with
  | S754_finite s m e => binary_normalize 24 128 (if s then Z.neg m else Z.pos m) e s
  | _ => x
  end.

Definition float_lt (x y : spec_float) : bool :=
  match SFcompare x y with Some Lt => true | _ => false end.
Definition float_le (x y : spec_float) : bool :=
  match SFcompare x y with Some Lt | Some Eq => true | _ => false end.
Definition float_eqb (x y : spec_float) : bool :=
  match SFcompare x y with Some Eq => true | _ => false end.

(** [x * 1.0 / y] of unsigned integers, computed in [double]. *)
Definition ratio (x y : Z) : spec_float :=
  SFdiv 53 1024 (SFmul 53 1024 (double_of_Z x) (double_of_Z 1)) (double_of_Z y).

(** [(uint64_t)x]: the fraction is cut off.  Outside of the range of the type the
    value is undefined, [other] then. *)
Definition u64_of_float (other : spec_float -> Z) (x : spec_float) : Z :=
  match x with
  | S754_zero _ => 0
  | S754_finite false m e =>
      let v := Z.shiftl (Z.pos m) e in if v <? 2 ^ 64 then v else u64 (other x)
  | _ => u64 (other x)
  end.

(** ** The state *)

Record CacheItem : Type := {
  inode : Z;
  item_size : Z;
  atime : Z;
  refs : Z
}.

(** [cacheItems] is the list of nodes, [nodes] what is in them. *)
Record Index : Type := {
  cacheItems : list nat;
  nodes : gmap nat CacheItem;
  next_node : nat;
  inodeToCacheIter : gmap Z nat
}.

Record Disk : Type := {
  totalCap : Z;
  blockRatio : spec_float;
  totalInodes : Z;
  freeInodes : Z;
  inodeRatio : spec_float
}.

Record DiskCache : Type := {
  rootDir : string;
  totalDirNum : Z;
  index : Index;
  disk : Disk;
  usedCap : Z;
  freeCap : Z;
  reservedCap : Z;
  freeRatio : spec_float;
  bgFreeRatio : spec_float;
  stop : bool;
  hasFreeSpace : bool
}.

Definition set_index (ix : Index) (used free : Z) (c : DiskCache) : DiskCache :=
  {| rootDir := rootDir c; totalDirNum := totalDirNum c; index := ix; disk := disk c; usedCap := used; freeCap := free;
     reservedCap := reservedCap c; freeRatio := freeRatio c; bgFreeRatio := bgFreeRatio c; stop := stop c;
     hasFreeSpace := hasFreeSpace c |}.
Definition set_disk (d : Disk) (free : Z) (c : DiskCache) : DiskCache :=
  {| rootDir := rootDir c; totalDirNum := totalDirNum c; index := index c; disk := d; usedCap := usedCap c; freeCap := free;
     reservedCap := reservedCap c; freeRatio := freeRatio c; bgFreeRatio := bgFreeRatio c; stop := stop c;
     hasFreeSpace := hasFreeSpace c |}.
Definition set_reservedCap (r : Z) (c : DiskCache) : DiskCache :=
  {| rootDir := rootDir c; totalDirNum := totalDirNum c; index := index c; disk := disk c; usedCap := usedCap c;
     freeCap := freeCap c; reservedCap := r; freeRatio := freeRatio c; bgFreeRatio := bgFreeRatio c; stop := stop c;
     hasFreeSpace := hasFreeSpace c |}.
Definition set_hasFreeSpace (b : bool) (c : DiskCache) : DiskCache :=
  {| rootDir := rootDir c; totalDirNum := totalDirNum c; index := index c; disk := disk c; usedCap := usedCap c;
     freeCap := freeCap c; reservedCap := reservedCap c; freeRatio := freeRatio c; bgFreeRatio := bgFreeRatio c;
     stop := stop c; hasFreeSpace := b |}.
Definition set_start (path : string) (dirNum : Z) (ratio bg : spec_float) (st : bool) (c : DiskCache) : DiskCache :=
  {| rootDir := path; totalDirNum := dirNum; index := index c; disk := disk c; usedCap := usedCap c; freeCap := freeCap c;
     reservedCap := reservedCap c; freeRatio := ratio; bgFreeRatio := bg; stop := st; hasFreeSpace := hasFreeSpace c |}.

(** [DiskCache()]: the members as they are initialised in the class. *)
Definition float_tenth : spec_float := float_of_double (ratio 1 10).
Definition float_fifth : spec_float := float_of_double (ratio 2 10).
Definition new_DiskCache : DiskCache :=
  {| rootDir := ""; totalDirNum := 101; index := {| cacheItems := []; nodes := ∅; next_node := 0; inodeToCacheIter := ∅ |};
     disk := {| totalCap := 0; blockRatio := S754_zero false; totalInodes := 0; freeInodes := 0; inodeRatio := S754_zero false |};
     usedCap := 0; freeCap := 0; reservedCap := 0; freeRatio := float_tenth; bgFreeRatio := float_fifth; stop := false;
     hasFreeSpace := true |}.

(** ** The list and the hash table *)

(** [cacheItems.emplace_back(elem)]: a new node at the end. *)
Definition emplace_back (it : CacheItem) (ix : Index) : Index :=
  {| cacheItems := cacheItems ix ++ [next_node ix]; nodes := <[next_node ix := it]> (nodes ix);
     next_node := S (next_node ix); inodeToCacheIter := inodeToCacheIter ix |}.
(** [cacheItems.erase(it)]. *)
Definition list_erase (n : nat) (ix : Index) : Index :=
  {| cacheItems := filter (fun m => m <> n) (cacheItems ix); nodes := delete n (nodes ix);
     next_node := next_node ix; inodeToCacheIter := inodeToCacheIter ix |}.
(** [*it = item]. *)
Definition set_node (n : nat) (it : CacheItem) (ix : Index) : Index :=
  {| cacheItems := cacheItems ix; nodes := <[n := it]> (nodes ix); next_node := next_node ix;
     inodeToCacheIter := inodeToCacheIter ix |}.
Definition set_iter (k : Z) (n : nat) (ix : Index) : Index :=
  {| cacheItems := cacheItems ix; nodes := nodes ix; next_node := next_node ix;
     inodeToCacheIter := <[k := n]> (inodeToCacheIter ix) |}.
Definition iter_erase (k : Z) (ix : Index) : Index :=
  {| cacheItems := cacheItems ix; nodes := nodes ix; next_node := next_node ix;
     inodeToCacheIter := delete k (inodeToCacheIter ix) |}.

(** The items in the order of the list. *)
Definition contents (ix : Index) : list CacheItem := omap (fun n => nodes ix !! n) (cacheItems ix).

(** ** The operations *)

Section operations.

Context `{CacheFs}.

Definition GetFilePath (inodeId : Z) : string :=
  let directoryId := s32 (inodeId `mod` u64 totalDirectory) in
  rootPath +:+ "/" +:+ pretty directoryId +:+ "/" +:+ pretty inodeId +:+ "-large".

(** The state of the operations; [None] is undefined behaviour. *)
Definition world : Type := DiskCache * fs.
Definition act (A : Type) : Type := world -> option (A * world).

#[global] Instance act_ret : MRet act := fun A a s => Some (a, s).
#[global] Instance act_bind : MBind act := fun A B f m s => '(a, s') ← m s; f a s'.

Definition cache : act DiskCache := fun s => Some (s.1, s).
Definition upd (f : DiskCache -> DiskCache) : act unit := fun s => Some (tt, (f s.1, s.2)).
Definition undefined {A} : act A := fun _ => None.
Definition call {A} (f : fs -> A * fs) : act A := fun s => let '(a, f') := f s.2 in Some (a, (s.1, f')).

(** [*it] *)
Definition deref (n : nat) : act CacheItem :=
  c ← cache; match nodes (index c) !! n with Some it => mret it | None => undefined end.
Definition store (n : nat) (it : CacheItem) : act unit :=
  _ ← deref n; upd (fun c => set_index (set_node n it (index c)) (usedCap c) (freeCap c) c).
(** [inodeToCacheIter.find(key)] *)
Definition find_iter (key : Z) : act (option nat) := c ← cache; mret (inodeToCacheIter (index c) !! key).

(** Node [n] with key [key] leaves the cache. *)
Definition erase_entry (n : nat) (key size : Z) : act unit :=
  _ ← deref n;
  upd (fun c => set_index (iter_erase key (list_erase n (index c))) (u64 (usedCap c - size)) (u64 (freeCap c + size)) c).

Definition GetCurFreeRatio : act Z := fun s =>
  let '(c, f) := s in
  match statfs (rootDir c) f with
  | None => Some (-1, s)
  | Some d =>
      let capacity := u64 (f_bsize d * f_bavail d) in
      let total := u64 (f_bsize d * f_blocks d) in
      let d' := {| totalCap := total; blockRatio := float_of_double (ratio capacity total); totalInodes := u64 (f_files d);
                   freeInodes := u64 (f_ffree d); inodeRatio := float_of_double (ratio (u64 (f_ffree d)) (u64 (f_files d))) |} in
      Some (0, (set_disk d' capacity c, f))
  end.

(** The loop of CleanupForEvict and of Cleanup over the nodes that are left. *)
Fixpoint evict_loop (toFreeCap toFreeInode : Z) (its : list nat) (freedCap freedInode : Z) : act unit :=
  match its with
  | [] => mret tt
  | n :: its' =>
      it ← deref n;
      if refs it >? 0 then evict_loop toFreeCap toFreeInode its' freedCap freedInode
      else
        ret ← call (remove (GetFilePath (inode it)));
        freed ← (if decide (ret = 0) then
                   _ ← erase_entry n (inode it) (item_size it);
                   mret (u64 (freedCap + item_size it), u64 (freedInode + 1))
                 else mret (freedCap, freedInode));
        if ((toFreeCap <=? freed.1) && (toFreeInode <=? freed.2))%bool then mret tt
        else evict_loop toFreeCap toFreeInode its' freed.1 freed.2
  end.

(** [(uint64_t)(total * (a - b))] in [float]. *)
Definition shortfall (total : Z) (a b : spec_float) : Z :=
  u64_of_float float_undefined (SFmul 24 128 (float_of_Z total) (SFsub 24 128 a b)).

Definition toFreeInode_of (c : DiskCache) (freeRatio : spec_float) : Z :=
  if float_lt (inodeRatio (disk c)) freeRatio then
    Z.min (shortfall (totalInodes (disk c)) freeRatio (inodeRatio (disk c))) (Z.of_nat (base.size (inodeToCacheIter (index c))))
  else 0.

Definition toFreeCap_of (c : DiskCache) (freeRatio blockRatio : spec_float) : Z :=
  if float_lt blockRatio freeRatio then Z.min (shortfall (totalCap (disk c)) freeRatio blockRatio) (usedCap c) else 0.

Definition freeBlockRatio (c : DiskCache) (preAllocSize : Z) : spec_float :=
  float_of_double (SFsub 53 1024 (double_of_float (blockRatio (disk c)))
    (ratio (u64 (preAllocSize + reservedCap c)) (totalCap (disk c)))).

Definition CleanupForEvict (preAllocSize : Z) : act unit :=
  c ← cache;
  evict_loop (toFreeCap_of c (freeRatio c) (freeBlockRatio c preAllocSize)) (toFreeInode_of c (freeRatio c))
    (cacheItems (index c)) 0 0.

Definition Cleanup : act unit :=
  c ← cache;
  let freeRatio := bgFreeRatio c in
  evict_loop (toFreeCap_of c freeRatio (blockRatio (disk c))) (toFreeInode_of c freeRatio) (cacheItems (index c)) 0 0.

(** One round of the thread CheckFreeSpace; whether the thread goes on. *)
Definition CheckFreeSpace : act bool :=
  c ← cache;
  if stop c then mret false else
  ret ← GetCurFreeRatio;
  if decide (ret <> 0) then mret false else
  c ← cache;
  let low := (float_lt (blockRatio (disk c)) (bgFreeRatio c) || float_lt (inodeRatio (disk c)) (bgFreeRatio c))%bool in
  _ ← (if low then _ ← upd (set_hasFreeSpace false); Cleanup else mret tt);
  _ ← upd (fun c => set_hasFreeSpace
    (float_le (bgFreeRatio c) (blockRatio (disk c)) && float_le (bgFreeRatio c) (inodeRatio (disk c)))%bool c);
  mret true.

Definition Delete (key : Z) : act Z :=
  c ← cache;
  if stop c then
    ret ← call (remove (GetFilePath key)); mret (if decide (ret = 0) then 0 else -1)
  else
    elem ← find_iter key;
    match elem with
    | None => mret 0
    | Some n =>
        it ← deref n;
        ret ← call (remove (GetFilePath key));
        if decide (ret <> 0) then mret (- ret) else
        _ ← erase_entry n key (item_size it); mret 0
    end.

(** Pin, called with the mutex of the cache; [now] is [time(nullptr)].  A key
    that is not in the table gets an iterator that points nowhere. *)
Definition Pin (key now : Z) : act unit :=
  c ← cache;
  if stop c then mret tt else
  elem ← find_iter key;
  match elem with
  | None => undefined
  | Some n =>
      it ← deref n;
      store n {| inode := inode it; item_size := item_size it; atime := now; refs := u32 (refs it + 1) |}
  end.

Definition Unpin (key : Z) : act unit :=
  c ← cache;
  if stop c then mret tt else
  elem ← find_iter key;
  match elem with
  | None => mret tt
  | Some n =>
      it ← deref n;
      if refs it >? 0 then
        store n {| inode := inode it; item_size := item_size it; atime := atime it; refs := u32 (refs it - 1) |}
      else mret tt
  end.

Definition Find (key : Z) (needPin : bool) (now : Z) : act bool :=
  c ← cache;
  if stop c then call (fun f => (access (GetFilePath key) f, f)) else
  elem ← find_iter key;
  match elem with
  | None => mret false
  | Some _ => _ ← (if needPin then Pin key now else mret tt); mret true
  end.

Definition DeleteOldCacheWithNoPin (key : Z) : act unit :=
  elem ← find_iter key;
  match elem with
  | None => mret tt
  | Some n =>
      it ← deref n;
      if refs it <=? 0 then
        ret ← call (remove (GetFilePath key));
        if decide (ret <> 0) then mret tt else erase_entry n key (item_size it)
      else mret tt
  end.

(** The item of node [n] gets the size [size], which is [delta] more. *)
Definition resize (n : nat) (it : CacheItem) (delta size now : Z) : act unit :=
  _ ← upd (fun c => set_index (index c) (u64 (usedCap c + delta)) (u64 (freeCap c - delta)) c);
  store n {| inode := inode it; item_size := size; atime := now; refs := refs it |}.

Definition InsertAndUpdate (key size : Z) (needPin : bool) (now : Z) : act unit :=
  c ← cache;
  if stop c then mret tt else
  elem ← find_iter key;
  match elem with
  | Some n => it ← deref n; resize n it (s64 (size - item_size it)) size now
  | None =>
      let elem := {| inode := key; item_size := size; atime := now; refs := 0 |} in
      _ ← upd (fun c => set_index (set_iter key (next_node (index c)) (emplace_back elem (index c)))
                          (u64 (usedCap c + size)) (u64 (freeCap c - size)) c);
      if needPin then Pin key now else mret tt
  end.

Definition Update (key size now : Z) : act bool :=
  c ← cache;
  if stop c then mret true else
  elem ← find_iter key;
  match elem with
  | None => mret false
  | Some n =>
      it ← deref n;
      if size <=? item_size it then mret true else
      _ ← resize n it (s64 (size - item_size it)) size now; mret true
  end.

Definition Add (key size now : Z) : act bool :=
  c ← cache;
  if stop c then mret true else
  elem ← find_iter key;
  match elem with
  | None => mret false
  | Some n => it ← deref n; _ ← resize n it (s64 size) (u64 (item_size it + size)) now; mret true
  end.

Definition Evict (size : Z) : act unit := _ ← GetCurFreeRatio; CleanupForEvict size.

(** ** The operations of other threads, and what runs between them *)

(** The operations under the mutex of the cache; [OpFs] is a change of the file
    system by others. *)
Inductive op : Type :=
| OpFind (key : Z) (needPin : bool) (now : Z)
| OpUnpin (key : Z)
| OpDelete (key : Z)
| OpDeleteOld (key : Z)
| OpInsert (key size : Z) (needPin : bool) (now : Z)
| OpUpdate (key size now : Z)
| OpAdd (key size now : Z)
| OpEvict (size : Z)
| OpCheckFreeSpace
| OpFs (f : fs).

Definition run_op (o : op) : act unit :=
  match o with
  | OpFind key needPin now => _ ← Find key needPin now; mret tt
  | OpUnpin key => Unpin key
  | OpDelete key => _ ← Delete key; mret tt
  | OpDeleteOld key => DeleteOldCacheWithNoPin key
  | OpInsert key size needPin now => InsertAndUpdate key size needPin now
  | OpUpdate key size now => _ ← Update key size now; mret tt
  | OpAdd key size now => _ ← Add key size now; mret tt
  | OpEvict size => Evict size
  | OpCheckFreeSpace => _ ← CheckFreeSpace; mret tt
  | OpFs f => call (fun _ => (tt, f))
  end.

Fixpoint run_ops (os : list op) : act unit :=
  match os with
  | [] => mret tt
  | o :: os' => _ ← run_op o; run_ops os'
  end.

(** [during i] is what other threads do while PreAllocSpace sleeps with [i]
    rounds left; before its first round it is [during 3]. *)
Fixpoint prealloc_rounds (size : Z) (during : nat -> list op) (retryCnt : nat) : act bool :=
  match retryCnt with
  | O => mret false
  | S retryCnt' =>
      _ ← Evict size;
      _ ← run_ops (during retryCnt');
      c ← cache;
      if freeCap c <=? u64 (reservedCap c + size) then prealloc_rounds size during retryCnt' else
      _ ← upd (set_hasFreeSpace true);
      _ ← upd (fun c => set_reservedCap (u64 (reservedCap c + size)) c);
      mret true
  end.

Definition PreAllocSpace (size : Z) (during : nat -> list op) : act bool :=
  c ← cache;
  if stop c then mret true else
  if u64 (reservedCap c + size) <? freeCap c then
    _ ← upd (fun c => set_reservedCap (u64 (reservedCap c + size)) c); mret true
  else
    _ ← upd (set_hasFreeSpace false);
    _ ← run_ops (during 3%nat);
    prealloc_rounds size during 3.

Definition FreePreAllocSpace (size : Z) : act unit :=
  c ← cache;
  if stop c then mret tt else upd (fun c => set_reservedCap (u64 (reservedCap c - size)) c).

(** What a thread asks of the cache: an operation under its mutex, or one under
    the mutex of allocations. *)
Inductive request : Type :=
| Under (o : op)
| Reserve (size : Z) (during : nat -> list op)
| Release (size : Z).

Definition run_request (q : request) : act unit :=
  match q with
  | Under o => run_op o
  | Reserve size during => _ ← PreAllocSpace size during; mret tt
  | Release size => FreePreAllocSpace size
  end.

Fixpoint run_requests (qs : list request) : act unit :=
  match qs with
  | [] => mret tt
  | q :: qs' => _ ← run_request q; run_requests qs'
  end.

(** HasFreeSpace reads the flag. *)
Definition HasFreeSpace : act bool := c ← cache; mret (hasFreeSpace c).

(** ** Start *)

(** Walk: the files of one directory; an error leaves the vector as it is. *)
Definition Walk (dirPath : string) (f : fs) : list CacheItem :=
  match opendir dirPath f with
  | None => []
  | Some (names, closed) =>
      let item name :=
        let '(sz, at_) := default (0, 0) (stat (dirPath +:+ "/" +:+ name) f) in
        {| inode := u64 (atoll name); item_size := u64 sz; atime := u64 at_; refs := 0 |} in
      let cacheVector := item <$> filter (fun name => name <> "." /\ name <> "..") names in
      if closed : bool then cacheVector else []
  end.

Definition atime_le (x y : CacheItem) : Prop := atime x <= atime y.
#[export] Instance atime_le_dec x y : Decision (atime_le x y).
Proof. unfold atime_le. apply _. Defined.

Fixpoint insert_all (items : list CacheItem) (now : Z) : act unit :=
  match items with
  | [] => mret tt
  | it :: items' => _ ← InsertAndUpdate (inode it) (item_size it) false now; insert_all items' now
  end.

(** ScanCache: [order] is the order in which the threads of the directories add
    their results.  [std::sort] leaves the order of equal elements open; here it
    is that of [merge_sort]. *)
Definition ScanCache (order : list nat) (now : Z) : act Z := fun s =>
  let '(c, f) := s in
  let initCacheVector := order ≫= fun i => Walk (rootDir c +:+ "/" +:+ pretty (Z.of_nat i)) f in
  (_ ← insert_all (merge_sort atime_le initCacheVector) now; mret 0) s.

Definition CheckSpaceEnough : act Z :=
  c ← cache;
  let blockRatio := float_of_double (ratio (u64 (freeCap c + usedCap c)) (totalCap (disk c))) in
  let inodeRatio :=
    float_of_double (ratio (u64 (freeInodes (disk c) + Z.of_nat (base.size (inodeToCacheIter (index c))))) (totalInodes (disk c))) in
  mret (if (float_le blockRatio (bgFreeRatio c) || float_le inodeRatio (bgFreeRatio c)
            || float_le blockRatio (freeRatio c) || float_lt inodeRatio (freeRatio c))%bool then -1 else 0).

Definition Start (path : string) (dirNum : Z) (ratio bgEvitRatio : spec_float) (order : list nat) (now : Z) : act Z :=
  c ← cache;
  _ ← upd (set_start path dirNum ratio (bgFreeRatio c) (stop c));
  if float_eqb ratio (S754_zero false) then _ ← upd (set_start path dirNum ratio (bgFreeRatio c) true); mret 0 else
  _ ← upd (set_start path dirNum ratio bgEvitRatio (stop c));
  ret ← ScanCache order now;
  if decide (ret <> 0) then mret ret else
  ret ← GetCurFreeRatio;
  if decide (ret <> 0) then mret ret else
  CheckSpaceEnough.
End operations.
