(* ===== verification/DiskCacheCorrect.v ===== *)
(** * The cache of data files is sound

    The invariant of DiskCache.v, what each operation does to the list of items,
    and what follows for files that are in use and for eviction. *)

From Stdlib Require Import Ascii Floats.SpecFloat.
From stdpp Require Import pretty.
From S2P Require Import FalconPrelude Decimal DiskCache.

(** ** Lists of items *)

Fixpoint total_size (l : list CacheItem) : Z :=
  match l with [] => 0 | it :: l' => item_size it + total_size l' end.

Definition upd_key (k : Z) (f : CacheItem -> CacheItem) (l : list CacheItem) : list CacheItem :=
  (fun it => if decide (inode it = k) then f it else it) <$> l.
Definition del_key (k : Z) (l : list CacheItem) : list CacheItem := filter (fun it => inode it <> k) l.

Lemma upd_key_absent k f l : k ∉ (inode <$> l) -> upd_key k f l = l.
Proof.
  induction l as [|it l IH]; cbn; [done|]. rewrite not_elem_of_cons. intros [H1 H2].
  rewrite decide_False by congruence. f_equal. by apply IH.
Qed.

Lemma del_key_absent k l : k ∉ (inode <$> l) -> del_key k l = l.
Proof.
  induction l as [|it l IH]; [done|]. rewrite fmap_cons, not_elem_of_cons. intros [H1 H2].
  unfold del_key. rewrite filter_cons, decide_True by congruence. f_equal. by apply IH.
Qed.

Lemma upd_key_inode k f l : (forall it, inode (f it) = inode it) -> inode <$> upd_key k f l = inode <$> l.
Proof.
  intros Hf. unfold upd_key. rewrite <- list_fmap_compose. apply list_fmap_ext. intros i it _. cbn. by case_decide.
Qed.

Lemma total_size_upd k f l it :
  NoDup (inode <$> l) -> it ∈ l -> inode it = k ->
  total_size (upd_key k f l) = total_size l + item_size (f it) - item_size it.
Proof.
  intros Hnd Hit <-. induction l as [|x l IH]; [by apply not_elem_of_nil in Hit|]. cbn in Hnd. apply NoDup_cons in Hnd as [Hx Hnd].
  cbn. fold (upd_key (inode it) f l). apply elem_of_cons in Hit as [->|Hit].
  - rewrite decide_True, upd_key_absent by done. lia.
  - rewrite decide_False, (IH Hnd Hit); [lia|]. intros E. apply Hx. rewrite E. by apply list_elem_of_fmap_2.
Qed.

Lemma total_size_del k l it :
  NoDup (inode <$> l) -> it ∈ l -> inode it = k -> total_size (del_key k l) = total_size l - item_size it.
Proof.
  intros Hnd Hit <-. induction l as [|x l IH]; [by apply not_elem_of_nil in Hit|]. cbn in Hnd. apply NoDup_cons in Hnd as [Hx Hnd].
  unfold del_key. rewrite filter_cons. fold (del_key (inode it) l). apply elem_of_cons in Hit as [->|Hit].
  - rewrite decide_False, del_key_absent by auto. cbn. lia.
  - rewrite decide_True. { cbn. rewrite (IH Hnd Hit). lia. }
    intros E. apply Hx. rewrite E. by apply list_elem_of_fmap_2.
Qed.

Lemma total_size_app l l' : total_size (l ++ l') = total_size l + total_size l'.
Proof. induction l; cbn; lia. Qed.

Lemma filter_id {A} (P : A -> Prop) `{!forall x, Decision (P x)} (l : list A) : Forall P l -> filter P l = l.
Proof. induction 1 as [|x l Hx _ IH]; [done|]. rewrite filter_cons, decide_True by done. by f_equal. Qed.

(** ** The index *)

Record wf (ix : Index) : Prop := {
  wf_nodup : NoDup (cacheItems ix);
  wf_nodes n : n ∈ cacheItems ix <-> is_Some (nodes ix !! n);
  wf_next n : n ∈ cacheItems ix -> (n < next_node ix)%nat;
  wf_iter k n : inodeToCacheIter ix !! k = Some n <-> exists it, nodes ix !! n = Some it /\ inode it = k
}.

Section index.

Context (ix : Index) (Hwf : wf ix).

Lemma elem_of_contents it : it ∈ contents ix <-> exists n, nodes ix !! n = Some it.
Proof.
  unfold contents. rewrite list_elem_of_omap. split; [intros (n & _ & E); eauto|]. intros [n E]. exists n. split; [|done].
  apply (wf_nodes _ Hwf). eauto.
Qed.

Lemma wf_iter_Some k n : inodeToCacheIter ix !! k = Some n ->
  exists it, nodes ix !! n = Some it /\ inode it = k /\ it ∈ contents ix.
Proof. intros E. apply (wf_iter _ Hwf) in E as (it & E1 & E2). exists it. rewrite elem_of_contents. eauto. Qed.

Lemma wf_iter_None k : inodeToCacheIter ix !! k = None -> k ∉ (inode <$> contents ix).
Proof.
  intros E Hk. apply list_elem_of_fmap in Hk as (it & -> & Hit). apply elem_of_contents in Hit as [n Hn].
  assert (inodeToCacheIter ix !! inode it = Some n) as E' by (apply (wf_iter _ Hwf); eauto). congruence.
Qed.

Lemma wf_keys : NoDup (inode <$> contents ix).
Proof.
  assert (forall ns, NoDup ns -> NoDup (inode <$> omap (fun n => nodes ix !! n) ns)) as H; [|apply H, (wf_nodup _ Hwf)].
  induction ns as [|n ns IH]; intros Hnd; [constructor|]. apply NoDup_cons in Hnd as [Hn Hnd]. cbn.
  destruct (nodes ix !! n) as [it|] eqn:E; [|by apply IH]. cbn. constructor; [|by apply IH].
  intros (it' & E1 & Hit')%list_elem_of_fmap. apply list_elem_of_omap in Hit' as (m & Hm & Em).
  assert (inodeToCacheIter ix !! inode it = Some n) as F by (apply (wf_iter _ Hwf); eauto).
  assert (inodeToCacheIter ix !! inode it = Some m) as G by (apply (wf_iter _ Hwf); eauto). congruence.
Qed.

(** The three changes of the index: an item is replaced, erased, or added. *)

Lemma wf_set_node n it it' : nodes ix !! n = Some it -> inode it' = inode it ->
  wf (set_node n it' ix) /\ contents (set_node n it' ix) = upd_key (inode it) (fun _ => it') (contents ix).
Proof.
  intros Hn Hi. split; [split|]; cbn.
  - apply (wf_nodup _ Hwf).
  - intros m. rewrite (wf_nodes _ Hwf), lookup_insert_is_Some. destruct (decide (n = m)) as [<-|]; naive_solver.
  - apply (wf_next _ Hwf).
  - intros k m. rewrite (wf_iter _ Hwf). destruct (decide (n = m)) as [<-|Hm].
    + rewrite lookup_insert_eq, Hn. split; intros (jt & [= <-] & E); eexists; split; [done|congruence|done|congruence].
    + by rewrite lookup_insert_ne.
  - assert (inodeToCacheIter ix !! inode it = Some n) as F by (apply (wf_iter _ Hwf); eauto).
    unfold contents, upd_key. cbn. induction (cacheItems ix) as [|m ms IH]; [done|]. cbn. destruct (decide (n = m)) as [<-|Hm].
    + rewrite lookup_insert_eq, Hn. cbn. rewrite decide_True by done. by f_equal.
    + rewrite lookup_insert_ne by done. destruct (nodes ix !! m) as [jt|] eqn:E; [|done]. cbn. rewrite decide_False; [by f_equal|].
      intros E'. assert (inodeToCacheIter ix !! inode it = Some m) by (apply (wf_iter _ Hwf); eauto). congruence.
Qed.

Lemma wf_erase n k : inodeToCacheIter ix !! k = Some n ->
  wf (iter_erase k (list_erase n ix)) /\ contents (iter_erase k (list_erase n ix)) = del_key k (contents ix).
Proof.
  intros Hk. destruct (wf_iter_Some _ _ Hk) as (it & Hn & Hi & _). split; [split|]; cbn.
  - apply NoDup_filter, (wf_nodup _ Hwf).
  - intros m. rewrite list_elem_of_filter, (wf_nodes _ Hwf), lookup_delete_is_Some. naive_solver.
  - intros m [_ Hm]%list_elem_of_filter. by apply (wf_next _ Hwf).
  - intros k' m. rewrite lookup_delete_Some, (wf_iter _ Hwf). split.
    + intros (Hne & jt & E1 & E2). exists jt. rewrite lookup_delete_Some. split; [|done]. split; [congruence|done].
    + intros (jt & [Hm E1]%lookup_delete_Some & E2). split; [|by eauto]. intros <-.
      assert (inodeToCacheIter ix !! k = Some m) by (apply (wf_iter _ Hwf); eauto). congruence.
  - unfold contents, del_key. cbn. induction (cacheItems ix) as [|m ms IH]; [done|].
    rewrite filter_cons. cbn. destruct (decide (m = n)) as [->|Hm].
    + rewrite decide_False by auto. rewrite Hn, filter_cons, decide_False by auto. apply IH.
    + rewrite decide_True by done. cbn. rewrite lookup_delete_ne by done.
      destruct (nodes ix !! m) as [jt|] eqn:E; [|apply IH]. rewrite filter_cons, decide_True; [by f_equal|].
      intros E'. assert (inodeToCacheIter ix !! k = Some m) by (apply (wf_iter _ Hwf); eauto). congruence.
Qed.

Lemma wf_insert it : inodeToCacheIter ix !! inode it = None ->
  wf (set_iter (inode it) (next_node ix) (emplace_back it ix)) /\
  contents (set_iter (inode it) (next_node ix) (emplace_back it ix)) = contents ix ++ [it].
Proof.
  intros Hk. assert (next_node ix ∉ cacheItems ix) as Hnew by (intros E%(wf_next _ Hwf); lia).
  assert (nodes ix !! next_node ix = None) as Hfree by (by rewrite eq_None_not_Some, <- (wf_nodes _ Hwf)).
  split; [split|]; cbn.
  - apply NoDup_app. split_and!; [apply (wf_nodup _ Hwf)| |apply NoDup_singleton]. set_solver.
  - intros m. rewrite elem_of_app, list_elem_of_singleton, (wf_nodes _ Hwf), lookup_insert_is_Some'. naive_solver.
  - intros m [Hm%(wf_next _ Hwf)| ->%list_elem_of_singleton]%elem_of_app; lia.
  - intros k m. rewrite lookup_insert_Some, (wf_iter _ Hwf). split.
    + intros [[<- <-]|(_ & jt & E1 & E2)]; [by exists it; rewrite lookup_insert_eq|]. exists jt. split; [|done].
      rewrite lookup_insert_ne; [done|]. congruence.
    + intros (jt & [[<- <-]|[Hm E1]]%lookup_insert_Some & E2); [by left|]. right. split; [|eauto]. intros E3.
      assert (inodeToCacheIter ix !! inode it = Some m) by (apply (wf_iter _ Hwf); exists jt; split; congruence). congruence.
  - unfold contents. cbn. rewrite omap_app. cbn. rewrite lookup_insert_eq. f_equal.
    apply list_omap_ext, Forall_Forall2_diag, Forall_forall. intros m Hm. rewrite lookup_insert_ne; [done|]. by intros <-.
Qed.

End index.

#[local] Arguments contents : simpl never.
#[local] Arguments wrap : simpl never.
#[local] Arguments signed : simpl never.

(** ** Reasoning about operations *)

Section cache.

Context `{CacheFs} `{!CacheFsLaws}.

Implicit Types (s : world) (c : DiskCache) (k : Z).

(** The operation is defined and ends in a state with [Q]. *)
Definition wp {A} (m : act A) (Q : A -> world -> Prop) (s : world) : Prop :=
  match m s with Some (a, s') => Q a s' | None => False end.

Lemma wp_ret {A} (a : A) Q s : Q a s -> wp (mret a) Q s.
Proof. done. Qed.
Lemma wp_bind {A B} (m : act A) (f : A -> act B) Q s : wp m (fun a => wp (f a) Q) s -> wp (m ≫= f) Q s.
Proof. unfold wp, mbind, act_bind. by destruct (m s) as [[a s']|]. Qed.
Lemma wp_cache Q s : Q s.1 s -> wp cache Q s.
Proof. done. Qed.
Lemma wp_upd f Q s : Q tt (f s.1, s.2) -> wp (upd f) Q s.
Proof. done. Qed.
Lemma wp_call {A} (g : fs -> A * fs) Q s : Q (g s.2).1 (s.1, (g s.2).2) -> wp (call g) Q s.
Proof. unfold wp, call. by destruct (g s.2). Qed.
Lemma wp_find_iter k Q s : Q (inodeToCacheIter (index s.1) !! k) s -> wp (find_iter k) Q s.
Proof. done. Qed.
Lemma wp_deref n it Q s : nodes (index s.1) !! n = Some it -> Q it s -> wp (deref n) Q s.
Proof. intros E HQ. unfold wp, deref, cache, mbind, act_bind. cbn. by rewrite E. Qed.
Lemma wp_weaken {A} (m : act A) (Q Q' : A -> world -> Prop) s : (forall a s', Q a s' -> Q' a s') -> wp m Q s -> wp m Q' s.
Proof. unfold wp. destruct (m s) as [[a s']|]; auto. Qed.
Lemma wp_if {A} (b : bool) (m m' : act A) Q s :
  (b = true -> wp m Q s) -> (b = false -> wp m' Q s) -> wp (if b then m else m') Q s.
Proof. destruct b; auto. Qed.

(** The index is sound and the used capacity is the sum of the sizes. *)
Definition ok (c : DiskCache) : Prop :=
  wf (index c) /\ usedCap c = u64 (total_size (contents (index c))).

Definition items (s : world) : list CacheItem := contents (index s.1).

(** [k] is in the cache with [r] references, and its file exists. *)
Definition pinned (k r : Z) (s : world) : Prop :=
  (exists it, it ∈ items s /\ inode it = k /\ refs it = r) /\ access (GetFilePath k) s.2 = true.

Lemma GetFilePath_inj k k' : GetFilePath k = GetFilePath k' -> k = k'.
Proof.
  unfold GetFilePath. intros E. apply (inj (String.append rootPath)) in E. apply (inj (String.append "/")) in E.
  set (d := pretty (s32 (k `mod` _))) in *. set (d' := pretty (s32 (k' `mod` _))) in *.
  assert (d = d') as Ed by (eapply (app_inj_lacks "/"%char); [by apply pretty_Z_lacks..|exact E]). rewrite Ed in E.
  apply (inj (String.append d')) in E. apply (inj (String.append "/")) in E. apply append_inj_r in E. by apply (inj pretty) in E.
Qed.

(** What no operation under the mutex changes. *)
Definition settings (c : DiskCache) : bool * Z := (stop c, reservedCap c).

Lemma settings_stop c c' : settings c' = settings c -> stop c' = stop c.
Proof. by intros [= ? ?]. Qed.

(** A step of the cache: the new state is sound, and every item in use is kept,
    up to what [eff] says of its references. *)
Definition steps_to (eff : Z -> Z -> option Z) (s s' : world) : Prop :=
  ok s'.1 /\ settings s'.1 = settings s.1 /\
  (stop s.1 = false -> forall k r r', 0 < r -> pinned k r s -> eff k r = Some r' -> pinned k r' s').

Definition no_effect (_ r : Z) : option Z := Some r.
Definition effect_on (key : Z) (f : Z -> option Z) (k r : Z) : option Z := if decide (k = key) then f r else Some r.

Lemma steps_refl s : ok s.1 -> steps_to no_effect s s.
Proof. intros Hs. split_and!; [done..|]. by intros _ k r r' Hr Hp [= <-]. Qed.

Lemma steps_trans s s1 s2 : steps_to no_effect s s1 -> steps_to no_effect s1 s2 -> steps_to no_effect s s2.
Proof.
  intros (H1 & H2 & H3) (G1 & G2 & G3). split_and!; [done|congruence|]. intros Hs k r r' Hr Hp [= <-].
  eapply G3; [by rewrite (settings_stop _ _ H2)|done|by eapply H3|done].
Qed.

(** Changes that leave the items and the files alone. *)
Lemma steps_same eff (f : DiskCache -> DiskCache) s :
  index (f s.1) = index s.1 -> usedCap (f s.1) = usedCap s.1 -> settings (f s.1) = settings s.1 ->
  ok s.1 -> (forall k r r', 0 < r -> eff k r = Some r' -> r' = r) -> steps_to eff s (f s.1, s.2).
Proof.
  intros E1 E2 E3 [H1 H2] He. split; [split; cbn; congruence|]. split; [done|]. intros _ k r r' Hr Hp E. apply He in E as ->; [|done].
  unfold pinned, items in *. cbn. by rewrite E1.
Qed.

(** ** The changes an operation makes *)

Lemma key_unique (l : list CacheItem) it it' : NoDup (inode <$> l) -> it ∈ l -> it' ∈ l -> inode it = inode it' -> it = it'.
Proof.
  intros Hnd [i Hi]%list_elem_of_lookup [j Hj]%list_elem_of_lookup E.
  assert (i = j) as <-; [|congruence]. apply (NoDup_lookup _ _ _ (inode it) Hnd); rewrite list_lookup_fmap; [by rewrite Hi|].
  rewrite Hj. cbn. by f_equal.
Qed.

Lemma effect_ne key f k r r' : k <> key -> effect_on key f k r = Some r' -> r' = r.
Proof. intros Hk. unfold effect_on. rewrite decide_False by done. congruence. Qed.

Lemma effect_eq key f r : effect_on key f key r = f r.
Proof. unfold effect_on. by rewrite decide_True. Qed.

(** An item is replaced. *)
Lemma steps_set_node key f s n it it' used free :
  ok s.1 -> nodes (index s.1) !! n = Some it -> inode it = key -> inode it' = key ->
  used = u64 (usedCap s.1 + item_size it' - item_size it) ->
  (forall r', 0 < refs it -> f (refs it) = Some r' -> refs it' = r') ->
  steps_to (effect_on key f) s (set_index (set_node n it' (index s.1)) used free s.1, s.2).
Proof.
  intros [Hwf Hu] Hn Hk Hk' -> Hf. destruct (wf_set_node _ Hwf n it it' Hn ltac:(congruence)) as [Hwf' Hc].
  assert (it ∈ items s) as Hit by (apply elem_of_contents; eauto). pose proof (wf_keys _ Hwf) as Hnd.
  split_and!; [split; cbn; [done|]|done|].
  - rewrite Hc, (total_size_upd _ _ _ it), Hu by done. unfold u64, wrap. 
    rewrite <- Z.add_sub_assoc, Zplus_mod_idemp_l. f_equal. lia.
  - intros _ k r r' Hr [(jt & Hj & Ek & Er) Ha] E. split; [|done]. unfold items. cbn. rewrite Hc.
    destruct (decide (k = key)) as [->|Hne].
    + assert (jt = it) as -> by (apply (key_unique (items s)); [done..|congruence]). subst r. rewrite effect_eq in E.
      exists it'. split_and!; [|done|by apply Hf]. apply list_elem_of_fmap. exists it. by rewrite decide_True by done.
    + apply effect_ne in E as ->; [|done]. exists jt. split_and!; [|done..]. apply list_elem_of_fmap. exists jt.
      by rewrite decide_False by congruence.
Qed.

(** An item is erased after its file was removed. *)
Lemma steps_erase key f s n it free :
  ok s.1 -> inodeToCacheIter (index s.1) !! key = Some n -> nodes (index s.1) !! n = Some it ->
  (0 < refs it -> f (refs it) = None) ->
  steps_to (effect_on key f) s
    (set_index (iter_erase key (list_erase n (index s.1))) (u64 (usedCap s.1 - item_size it)) free s.1,
     (remove (GetFilePath key) s.2).2).
Proof.
  intros [Hwf Hu] Hi Hn Hf. destruct (wf_erase _ Hwf n key Hi) as [Hwf' Hc]. pose proof (wf_keys _ Hwf) as Hnd.
  destruct (wf_iter_Some _ Hwf _ _ Hi) as (it1 & Hn1 & Hk & Hit). assert (it1 = it) as -> by congruence.
  split_and!; [split; cbn; [done|]|done|].
  - rewrite Hc, (total_size_del _ _ it), Hu by done. apply wrap_sub_l.
  - intros _ k r r' Hr [(jt & Hj & Ek & Er) Ha] E. destruct (decide (k = key)) as [->|Hne].
    + assert (jt = it) as -> by (apply (key_unique (items s)); [done..|congruence]). subst r.
      rewrite effect_eq, Hf in E; done.
    + apply effect_ne in E as ->; [|done]. split.
      * exists jt. split_and!; [|done..]. unfold items. cbn. rewrite Hc. apply list_elem_of_filter. split; [congruence|done].
      * cbn. rewrite remove_other; [done|]. intros E. by apply GetFilePath_inj in E.
Qed.

(** An item is added. *)
Lemma steps_insert key f s it free :
  ok s.1 -> inodeToCacheIter (index s.1) !! key = None -> inode it = key ->
  steps_to (effect_on key f) s
    (set_index (set_iter key (next_node (index s.1)) (emplace_back it (index s.1))) (u64 (usedCap s.1 + item_size it)) free s.1, s.2).
Proof.
  intros [Hwf Hu] Hi <-. destruct (wf_insert _ Hwf it Hi) as [Hwf' Hc].
  split_and!; [split; cbn; [done|]|done|].
  - rewrite Hc, total_size_app, Hu. cbn. rewrite Z.add_0_r. apply wrap_add_l.
  - intros _ k r r' Hr [(jt & Hj & Ek & Er) Ha] E. destruct (decide (k = inode it)) as [->|Hne].
    + destruct (wf_iter_None _ Hwf _ Hi). rewrite <- Ek. by apply list_elem_of_fmap_2.
    + apply effect_ne in E as ->; [|done]. split; [|done]. exists jt. split_and!; [|done..]. unfold items. cbn. rewrite Hc.
      apply elem_of_app. by left.
Qed.

(** A remove that failed. *)
Lemma steps_failed key f s :
  ok s.1 -> (remove (GetFilePath key) s.2).1 <> 0 -> (forall r r', f r = Some r' -> r' = r) ->
  steps_to (effect_on key f) s (s.1, (remove (GetFilePath key) s.2).2).
Proof.
  intros Hok Hr Hf. split_and!; [done..|]. intros _ k r r' Hr0 [(jt & Hj & Ek & Er) Ha] E.
  assert (r' = r) as -> by (destruct (decide (k = key)) as [->|]; [rewrite effect_eq in E; eauto|by eapply effect_ne]).
  split; [by exists jt|]. cbn. destruct (decide (k = key)) as [->|Hne].
  - destruct (remove (GetFilePath key) s.2) as [e f'] eqn:E'. cbn in *. by rewrite (remove_failed _ _ _ _ E' Hr).
  - rewrite remove_other; [done|]. intros E'. by apply GetFilePath_inj in E'.
Qed.

Lemma steps_weaken eff eff' s s' :
  steps_to eff s s' -> (forall k r r', 0 < r -> eff' k r = Some r' -> eff k r = Some r') -> steps_to eff' s s'.
Proof. intros (H1 & H2 & H3) Hw. split_and!; [done..|]. eauto. Qed.

(** ** The operations *)

Definition pin_effect (r : Z) : option Z := if r + 1 <? 2 ^ 32 then Some (r + 1) else None.
Definition unpin_effect (r : Z) : option Z := if ((1 <? r) && (r <? 2 ^ 32))%bool then Some (r - 1) else None.

(** What an operation does to the references of a key in use; [None] when the
    key can lose its file. *)
Definition effect (o : op) : Z -> Z -> option Z :=
  match o with
  | OpFind key true _ => effect_on key pin_effect
  | OpUnpin key => effect_on key unpin_effect
  | OpDelete key => effect_on key (fun _ => None)
  | OpFs f => fun k r => if access (GetFilePath k) f then Some r else None
  | _ => no_effect
  end.

Lemma steps_no_effect key s s' : steps_to (effect_on key Some) s s' -> steps_to no_effect s s'.
Proof. intros Hs. eapply steps_weaken; [done|]. intros k r r' _ [= <-]. unfold effect_on. by case_decide. Qed.

Lemma wp_store n it it' Q s :
  nodes (index s.1) !! n = Some it ->
  Q tt (set_index (set_node n it' (index s.1)) (usedCap s.1) (freeCap s.1) s.1, s.2) -> wp (store n it') Q s.
Proof. intros E HQ. apply wp_bind, (wp_deref _ it); [done|]. by apply wp_upd. Qed.

Lemma wp_erase_entry n it key size Q s :
  nodes (index s.1) !! n = Some it ->
  Q tt (set_index (iter_erase key (list_erase n (index s.1))) (u64 (usedCap s.1 - size)) (u64 (freeCap s.1 + size)) s.1, s.2) ->
  wp (erase_entry n key size) Q s.
Proof. intros E HQ. apply wp_bind, (wp_deref _ it); [done|]. by apply wp_upd. Qed.

Lemma ok_used s it : ok s.1 -> usedCap s.1 = u64 (usedCap s.1 + item_size it - item_size it).
Proof. intros [_ ->]. by rewrite Z.add_simpl_r, wrap_idemp. Qed.

Lemma wp_Pin key now n s :
  ok s.1 -> stop s.1 = false -> inodeToCacheIter (index s.1) !! key = Some n ->
  wp (Pin key now) (fun _ s' => steps_to (effect_on key pin_effect) s s' /\ s'.2 = s.2) s.
Proof.
  intros Hok Hs Hi. destruct (wf_iter_Some _ (proj1 Hok) _ _ Hi) as (it & Hn & Hk & Hit).
  apply wp_bind, wp_cache. rewrite Hs. apply wp_bind, wp_find_iter. rewrite Hi.
  apply wp_bind, (wp_deref _ it); [done|]. apply (wp_store _ it); [done|]. split; [|done].
  apply (steps_set_node _ _ _ _ it); cbn; [done..|by apply ok_used|]. intros r' Hr E. unfold pin_effect in E. case_match; [|done].
  bool_to_prop. injection E as <-. apply wrap_small. unfold in_range. lia.
Qed.

Lemma wp_Find key needPin now s :
  ok s.1 -> wp (Find key needPin now) (fun _ s' => steps_to (effect (OpFind key needPin now)) s s') s.
Proof.
  intros Hok. apply wp_bind, wp_cache, wp_if; intros Hs.
  { apply wp_call. split_and!; [done..|]. cbn. congruence. }
  apply wp_bind, wp_find_iter. destruct (inodeToCacheIter (index s.1) !! key) as [n|] eqn:Hi.
  - apply wp_bind. destruct needPin.
    + eapply wp_weaken; [|by eapply wp_Pin]. intros [] s' [Hs' _]. by apply wp_ret.
    + apply wp_ret, wp_ret. by apply steps_refl.
  - apply wp_ret. destruct needPin; [|by apply steps_refl]. split_and!; [done..|]. intros _ k r r' Hr [(jt & Hj & Ek & Er) Ha] E.
    destruct (decide (k = key)) as [->|Hne].
    + destruct (wf_iter_None _ (proj1 Hok) _ Hi). rewrite <- Ek. by apply list_elem_of_fmap_2.
    + apply effect_ne in E as ->; [|done]. split; [by exists jt|done].
Qed.

Lemma absent_not_pinned key r s : ok s.1 -> inodeToCacheIter (index s.1) !! key = None -> ~ pinned key r s.
Proof.
  intros Hok Hi [(jt & Hj & <- & _) _]. destruct (wf_iter_None _ (proj1 Hok) _ Hi). by apply list_elem_of_fmap_2.
Qed.

(** An effect on a key that is not in the cache is none. *)
Lemma steps_absent key f s s' :
  ok s.1 -> inodeToCacheIter (index s.1) !! key = None -> steps_to no_effect s s' -> steps_to (effect_on key f) s s'.
Proof.
  intros Hok Hi (H1 & H2 & H3). split_and!; [done..|]. intros Hs k r r' Hr Hp E. destruct (decide (k = key)) as [->|Hne].
  - by apply absent_not_pinned in Hp.
  - apply effect_ne in E as ->; [|done]. by eapply H3.
Qed.

Lemma wp_Unpin key s : ok s.1 -> wp (Unpin key) (fun _ s' => steps_to (effect (OpUnpin key)) s s' /\ s'.2 = s.2) s.
Proof.
  intros Hok. apply wp_bind, wp_cache, wp_if; intros Hs.
  { apply wp_ret. split; [|done]. split_and!; [done..|]. congruence. }
  apply wp_bind, wp_find_iter. destruct (inodeToCacheIter (index s.1) !! key) as [n|] eqn:Hi; cycle 1.
  { apply wp_ret. split; [|done]. apply steps_absent; [done..|]. by apply steps_refl. }
  destruct (wf_iter_Some _ (proj1 Hok) _ _ Hi) as (it & Hn & Hk & Hit). apply wp_bind, (wp_deref _ it); [done|].
  apply wp_if; intros Hr.
  - apply (wp_store _ it); [done|]. split; [|done].
    apply (steps_set_node _ _ _ _ it); cbn; [done..|by apply ok_used|]. intros r' _ E. unfold unpin_effect in E. case_match; [|done].
    bool_to_prop. injection E as <-. apply wrap_small. unfold in_range. lia.
  - apply wp_ret. split; [|done]. split_and!; [done..|]. intros _ k r r' Hr' [(jt & Hj & Ek & Er) Ha] E.
    destruct (decide (k = key)) as [->|Hne].
    + assert (jt = it) as -> by (apply (key_unique (items s)); [apply (wf_keys _ (proj1 Hok))|done..|congruence]). lia.
    + apply effect_ne in E as ->; [|done]. split; [by exists jt|done].
Qed.

Lemma wp_Delete key s : ok s.1 -> wp (Delete key) (fun _ s' => steps_to (effect (OpDelete key)) s s') s.
Proof.
  intros Hok. apply wp_bind, wp_cache, wp_if; intros Hs.
  { apply wp_bind, wp_call, wp_ret. split_and!; [done..|]. cbn. congruence. }
  apply wp_bind, wp_find_iter. destruct (inodeToCacheIter (index s.1) !! key) as [n|] eqn:Hi; cycle 1.
  { apply wp_ret. apply steps_absent; [done..|]. by apply steps_refl. }
  destruct (wf_iter_Some _ (proj1 Hok) _ _ Hi) as (it & Hn & Hk & Hit). apply wp_bind, (wp_deref _ it); [done|].
  apply wp_bind, wp_call. case_decide.
  - apply wp_ret. by apply steps_failed.
  - apply wp_bind, (wp_erase_entry _ it), wp_ret; [done|]. by apply (steps_erase key _ s n it).
Qed.

Lemma wp_DeleteOld key s : ok s.1 -> wp (DeleteOldCacheWithNoPin key) (fun _ s' => steps_to no_effect s s') s.
Proof.
  intros Hok. apply wp_bind, wp_find_iter. destruct (inodeToCacheIter (index s.1) !! key) as [n|] eqn:Hi; cycle 1.
  { apply wp_ret. by apply steps_refl. }
  destruct (wf_iter_Some _ (proj1 Hok) _ _ Hi) as (it & Hn & Hk & Hit). apply wp_bind, (wp_deref _ it); [done|].
  apply wp_if; intros Hr; [|by apply wp_ret, steps_refl]. apply wp_bind, wp_call. case_decide.
  - apply wp_ret, (steps_no_effect key), steps_failed; [done..|congruence].
  - apply (wp_erase_entry _ it); [done|]. apply (steps_no_effect key), (steps_erase key _ s n it); [done..|]. bool_to_prop. lia.
Qed.

Lemma wrap_add_signed a x : u64 (a + s64 x) = u64 (a + x).
Proof.
  unfold signed. case_match; [apply wrap_add_r|]. rewrite Z.add_sub_assoc. unfold wrap.
  rewrite <- (Z_mod_plus_full (a + x `mod` 2 ^ 64 - 2 ^ 64) 1). rewrite Z.mul_1_l, Z.sub_add. apply Zplus_mod_idemp_r.
Qed.

Lemma wp_resize key n it delta size now s :
  ok s.1 -> nodes (index s.1) !! n = Some it -> inode it = key -> u64 (item_size it + delta) = u64 size ->
  wp (resize n it delta size now) (fun _ s' => steps_to no_effect s s' /\ s'.2 = s.2) s.
Proof.
  intros Hok Hn Hk E. apply wp_bind, wp_upd, (wp_store _ it); [done|]. split; [|done].
  apply (steps_no_effect key).
  apply (steps_set_node key Some s n it {| inode := inode it; item_size := size; atime := now; refs := refs it |}
           (u64 (usedCap s.1 + delta)) (u64 (freeCap s.1 - delta))); cbn; [done..| |congruence].
  rewrite (Z.add_comm (usedCap s.1) size), <- Z.add_sub_assoc, <- (wrap_add_l 64 size), <- E, wrap_add_l. f_equal. lia.
Qed.

Lemma wp_InsertAndUpdate key size needPin now s :
  ok s.1 -> wp (InsertAndUpdate key size needPin now) (fun _ s' => steps_to no_effect s s') s.
Proof.
  intros Hok. apply wp_bind, wp_cache, wp_if; intros Hs; [by apply wp_ret, steps_refl|].
  apply wp_bind, wp_find_iter. destruct (inodeToCacheIter (index s.1) !! key) as [n|] eqn:Hi.
  - destruct (wf_iter_Some _ (proj1 Hok) _ _ Hi) as (it & Hn & Hk & Hit). apply wp_bind, (wp_deref _ it); [done|].
    eapply wp_weaken; [|apply (wp_resize key); [done..|]]; [by intros [] s' [E _]|]. rewrite wrap_add_signed. f_equal. lia.
  - set (it := {| inode := key; item_size := size; atime := now; refs := 0 |}).
    apply wp_bind, wp_upd. cbn [fst snd].
    pose proof (steps_insert key Some s it (u64 (freeCap s.1 - size)) Hok Hi eq_refl) as Hstep. cbn in Hstep.
    apply wp_if; intros Hp; [|by apply wp_ret, (steps_no_effect key)].
    eapply wp_weaken; [|eapply (wp_Pin key now (next_node (index s.1)))]; cbn; [|apply Hstep|done|apply lookup_insert_eq].
    intros [] s' [Hs' _]. apply (steps_no_effect key), steps_absent; [done..|]. destruct Hs' as (G1 & G2 & G3).
    destruct Hstep as (F1 & F2 & F3). split_and!; [done..|]. intros _ k r r' Hr Hk [= <-]. destruct (decide (k = key)) as [->|Hne].
    + by apply absent_not_pinned in Hk.
    + apply (G3 Hs k r r Hr); [|by unfold effect_on; rewrite decide_False]. eapply F3; [done..|]. unfold effect_on. by rewrite decide_False.
Qed.

Lemma wp_Update key size now s : ok s.1 -> wp (Update key size now) (fun _ s' => steps_to no_effect s s' /\ s'.2 = s.2) s.
Proof.
  intros Hok. assert (steps_to no_effect s s /\ s.2 = s.2) as Hrefl by (split; [by apply steps_refl|done]).
  apply wp_bind, wp_cache, wp_if; intros Hs; [by apply wp_ret|].
  apply wp_bind, wp_find_iter. destruct (inodeToCacheIter (index s.1) !! key) as [n|] eqn:Hi; [|by apply wp_ret].
  destruct (wf_iter_Some _ (proj1 Hok) _ _ Hi) as (it & Hn & Hk & Hit). apply wp_bind, (wp_deref _ it); [done|].
  apply wp_if; intros _; [by apply wp_ret|]. apply wp_bind. eapply wp_weaken; [|apply (wp_resize key); [done..|]]; [by intros [] s' E|]. rewrite wrap_add_signed. f_equal. lia.
Qed.

Lemma wp_Add key size now s : ok s.1 -> wp (Add key size now) (fun _ s' => steps_to no_effect s s' /\ s'.2 = s.2) s.
Proof.
  intros Hok. assert (steps_to no_effect s s /\ s.2 = s.2) as Hrefl by (split; [by apply steps_refl|done]).
  apply wp_bind, wp_cache, wp_if; intros Hs; [by apply wp_ret|].
  apply wp_bind, wp_find_iter. destruct (inodeToCacheIter (index s.1) !! key) as [n|] eqn:Hi; [|by apply wp_ret].
  destruct (wf_iter_Some _ (proj1 Hok) _ _ Hi) as (it & Hn & Hk & Hit). apply wp_bind, (wp_deref _ it); [done|].
  apply wp_bind. eapply wp_weaken; [|apply (wp_resize key); [done..|]]; [by intros [] s' E|]. by rewrite wrap_add_signed, wrap_idemp.
Qed.

(** ** Eviction *)

Definition enough (toFreeCap toFreeInode : Z) (removed : list CacheItem) : Prop :=
  toFreeCap <= u64 (total_size removed) /\ toFreeInode <= u64 (Z.of_nat (length removed)).

(** One pass over the items [l] that leaves [l'], with [done] removed before: a
    part of the list is gone through; what is removed there is not in use and its
    file is gone, what is kept is in use or could not be removed; the pass ends
    when enough is removed or the list is at its end, and not later. *)
Definition evicts (tc ti : Z) (done l l' : list CacheItem) (f' : fs) : Prop :=
  exists p q kept removed,
    l = p ++ q /\ l' = kept ++ q /\ sublist kept p /\ sublist removed p /\ p ≡ₚ kept ++ removed /\
    Forall (fun it => refs it <= 0 /\ access (GetFilePath (inode it)) f' = false) removed /\
    Forall (fun it => 0 < refs it \/ exists f e, (remove (GetFilePath (inode it)) f).1 = e /\ e <> 0) kept /\
    (enough tc ti (done ++ removed) \/ q = []) /\
    (forall r x, removed = r ++ [x] -> done ++ r <> [] -> ~ enough tc ti (done ++ r)).

Lemma evicts_nil tc ti done f' : evicts tc ti done [] [] f'.
Proof. exists [], [], [], []. split_and!; auto. intros r x E. by destruct r. Qed.

(** An item is kept. *)
Lemma evicts_keep tc ti done it l l' f' :
  (0 < refs it \/ exists f e, (remove (GetFilePath (inode it)) f).1 = e /\ e <> 0) ->
  evicts tc ti done l l' f' -> evicts tc ti done (it :: l) (it :: l') f'.
Proof.
  intros Hit (p & q & kept & removed & -> & -> & H1 & H2 & H3 & H4 & H5 & H6 & H7).
  exists (it :: p), q, (it :: kept), removed. split_and!; auto.
  - by constructor.
  - by constructor.
  - by rewrite H3.
Qed.

(** The last item of the pass is kept, with enough removed before. *)
Lemma evicts_keep_last tc ti done it l f' :
  (exists f e, (remove (GetFilePath (inode it)) f).1 = e /\ e <> 0) -> enough tc ti done ->
  evicts tc ti done (it :: l) (it :: l) f'.
Proof.
  intros Hit He. exists [it], l, [it], []. split_and!; auto.
  - by apply sublist_nil_l.
  - left. by rewrite app_nil_r.
  - intros r x E. by destruct r.
Qed.

(** An item is removed. *)
Lemma evicts_remove tc ti done it l l' f' :
  refs it <= 0 -> access (GetFilePath (inode it)) f' = false -> (done <> [] -> ~ enough tc ti done) ->
  evicts tc ti (done ++ [it]) l l' f' -> evicts tc ti done (it :: l) l' f'.
Proof.
  intros Hit Ha Hd (p & q & kept & removed & -> & -> & H1 & H2 & H3 & H4 & H5 & H6 & H7).
  exists (it :: p), q, kept, (it :: removed). split_and!; auto.
  - by constructor.
  - by constructor.
  - rewrite H3. apply Permutation_middle.
  - by rewrite <- app_assoc in H6.
  - intros [|y r] x E Hne; injection E as <- E.
    + rewrite app_nil_r in *. auto.
    + specialize (H7 r x E). rewrite <- app_assoc in H7. apply H7. by destruct done.
Qed.

Lemma evicts_remove_last tc ti done it l f' :
  refs it <= 0 -> access (GetFilePath (inode it)) f' = false -> (done <> [] -> ~ enough tc ti done) ->
  enough tc ti (done ++ [it]) -> evicts tc ti done (it :: l) l f'.
Proof.
  intros Hit Ha Hd He. exists [it], l, [], [it]. split_and!; auto.
  - by apply sublist_nil_l.
  - intros [|y r] x E Hne; [rewrite app_nil_r in *; auto|]. injection E as <- E. by destruct r.
Qed.

Definition items_at (s : world) (ns : list nat) : list CacheItem := omap (fun n => nodes (index s.1) !! n) ns.

Definition evict_post tc ti done (pre its : list nat) (s s' : world) : Prop :=
  steps_to no_effect s s' /\
  (forall path, (forall it, it ∈ items_at s its -> path <> GetFilePath (inode it)) -> access path s'.2 = access path s.2) /\
  exists l', items s' = items_at s pre ++ l' /\ evicts tc ti done (items_at s its) l' s'.2.

(** The state after the file of node [n] was removed. *)
Definition after_erase (s : world) n it : world :=
  (set_index (iter_erase (inode it) (list_erase n (index s.1))) (u64 (usedCap s.1 - item_size it)) (u64 (freeCap s.1 + item_size it)) s.1,
   (remove (GetFilePath (inode it)) s.2).2).

Section erased.

Context (s : world) (Hok : ok s.1) (pre its : list nat) (n : nat) (it : CacheItem).
Context (Hci : cacheItems (index s.1) = pre ++ n :: its) (Hn : nodes (index s.1) !! n = Some it).

Lemma erased_notin : n ∉ pre /\ n ∉ its.
Proof. clear Hn it. pose proof (wf_nodup _ (proj1 Hok)) as Hnd. rewrite Hci in Hnd. apply NoDup_app in Hnd as (_ & H1 & [H2 _]%NoDup_cons). set_solver. Qed.

Lemma erased_items ns : n ∉ ns -> items_at (after_erase s n it) ns = items_at s ns.
Proof.
  clear Hok Hci Hn pre its. intros Hns. apply list_omap_ext, Forall_Forall2_diag, Forall_forall. intros m Hm. cbn.
  rewrite lookup_delete_ne; [done|]. by intros <-.
Qed.

Lemma erased_list : cacheItems (index (after_erase s n it).1) = pre ++ its.
Proof.
  cbn. rewrite Hci, filter_app, filter_cons, decide_False by auto. destruct erased_notin as [H1 H2].
  rewrite !filter_id; [done|apply Forall_forall; set_solver..].
Qed.

Lemma erased_iter : inodeToCacheIter (index s.1) !! inode it = Some n.
Proof. apply (wf_iter _ (proj1 Hok)). eauto. Qed.

Lemma erased_step : refs it <= 0 -> steps_to no_effect s (after_erase s n it).
Proof. intros Hr. apply (steps_no_effect (inode it)), steps_erase; [done|apply erased_iter|done|lia]. Qed.

(** Nodes that are left have other keys. *)
Lemma erased_keys jt : jt ∈ items_at s its -> inode jt <> inode it.
Proof.
  intros (m & Hm & E)%list_elem_of_omap Ek. assert (inodeToCacheIter (index s.1) !! inode it = Some m) as F by (apply (wf_iter _ (proj1 Hok)); eauto).
  pose proof erased_iter as G. rewrite F in G. injection G as ->. by apply erased_notin in Hm.
Qed.

End erased.

Lemma length_snoc_u64 (done : list CacheItem) it :
  u64 (u64 (Z.of_nat (length done)) + 1) = u64 (Z.of_nat (length (done ++ [it]))) /\
  u64 (u64 (total_size done) + item_size it) = u64 (total_size (done ++ [it])).
Proof. rewrite total_size_app, length_app, !wrap_add_l. cbn. split; f_equal; lia. Qed.

Lemma items_at_app s ns ns' : items_at s (ns ++ ns') = items_at s ns ++ items_at s ns'.
Proof. apply omap_app. Qed.

Lemma items_at_cons s n it ns : nodes (index s.1) !! n = Some it -> items_at s (n :: ns) = it :: items_at s ns.
Proof. intros E. unfold items_at. cbn. by rewrite E. Qed.

(** The rest of the pass after an item was kept, with the file system as in [s1]. *)
Lemma post_keep tc ti done pre n its it s s1 s' :
  nodes (index s.1) !! n = Some it -> s1.1 = s.1 -> steps_to no_effect s s1 ->
  (forall path, path <> GetFilePath (inode it) -> access path s1.2 = access path s.2) ->
  (0 < refs it \/ exists f e, (remove (GetFilePath (inode it)) f).1 = e /\ e <> 0) ->
  evict_post tc ti done (pre ++ [n]) its s1 s' -> evict_post tc ti done pre (n :: its) s s'.
Proof.
  intros Hn E1 Hs Hf Hit (H1 & H2 & l' & H3 & H4). assert (forall ns, items_at s1 ns = items_at s ns) as Ei by (intros ns; unfold items_at; by rewrite E1).
  rewrite Ei in H3, H4. unfold evict_post. rewrite (items_at_cons s n it) by done. split_and!; [by eapply steps_trans| |].
  - intros path Hp. rewrite H2; [apply Hf, Hp; by left|]. intros jt Hj. rewrite Ei in Hj. apply Hp. by right.
  - exists (it :: l'). split; [|by apply evicts_keep]. rewrite H3, items_at_app, (items_at_cons s n it) by done. by rewrite <- app_assoc.
Qed.

(** The pass after an item was removed: it goes on, or it ends. *)
Section post_erase.

Context (tc ti : Z) (done : list CacheItem) (pre its : list nat) (n : nat) (it : CacheItem) (s : world).
Context (Hok : ok s.1) (Hci : cacheItems (index s.1) = pre ++ n :: its) (Hn : nodes (index s.1) !! n = Some it).
Context (Hr : refs it <= 0) (Hrm : (remove (GetFilePath (inode it)) s.2).1 = 0) (Hd : done <> [] -> ~ enough tc ti done).

Lemma erased_gone : access (GetFilePath (inode it)) (after_erase s n it).2 = false.
Proof. cbn. destruct (remove (GetFilePath (inode it)) s.2) as [e f'] eqn:E. cbn in *. subst e. by eapply remove_gone. Qed.

Lemma post_erase s' :
  evict_post tc ti (done ++ [it]) pre its (after_erase s n it) s' -> evict_post tc ti done pre (n :: its) s s'.
Proof.
  destruct (erased_notin _ Hok _ _ _ Hci) as [Hp Hi]. intros (H1 & H2 & l' & H3 & H4).
  rewrite (erased_items s n it) in H3, H4 by done. unfold evict_post. rewrite (items_at_cons s n it) by done. split_and!.
  - eapply steps_trans; [by eapply erased_step|done].
  - intros path Hpath. rewrite H2; [|rewrite erased_items by done; intros jt Hj; apply Hpath; by right].
    cbn. apply remove_other. intros E. by apply (Hpath it); [left|].
  - exists l'. split; [done|]. apply evicts_remove; [done| |done|done]. rewrite H2; [apply erased_gone|].
    rewrite erased_items by done. intros jt Hj E. apply GetFilePath_inj in E. by eapply (erased_keys s Hok pre its n it).
Qed.

Lemma post_erase_last : enough tc ti (done ++ [it]) -> evict_post tc ti done pre (n :: its) s (after_erase s n it).
Proof.
  destruct (erased_notin _ Hok _ _ _ Hci) as [Hp Hi]. intros He. unfold evict_post. rewrite (items_at_cons s n it) by done. split_and!.
  - by eapply erased_step.
  - intros path Hpath. cbn. apply remove_other. intros E. by apply (Hpath it); [left|].
  - exists (items_at s its). split; [|apply evicts_remove_last; [done|apply erased_gone|done..]].
    unfold items, contents. rewrite (erased_list s Hok pre its n it Hci Hn). rewrite omap_app.
    change (items_at (after_erase s n it) pre ++ items_at (after_erase s n it) its = items_at s pre ++ items_at s its).
    by rewrite !erased_items.
Qed.

End post_erase.

Lemma wp_evict_loop tc ti its : forall pre done s,
  ok s.1 -> cacheItems (index s.1) = pre ++ its -> (done <> [] -> ~ enough tc ti done) ->
  wp (evict_loop tc ti its (u64 (total_size done)) (u64 (Z.of_nat (length done))))
     (fun _ s' => evict_post tc ti done pre its s s') s.
Proof.
  induction its as [|n its IH]; intros pre done s Hok Hci Hd.
  { apply wp_ret. split_and!; [by apply steps_refl|done|]. exists []. split; [|apply evicts_nil].
    unfold items, contents. by rewrite Hci, !app_nil_r. }
  assert (is_Some (nodes (index s.1) !! n)) as [it Hn] by (apply (wf_nodes _ (proj1 Hok)); rewrite Hci; set_solver).
  assert (cacheItems (index s.1) = (pre ++ [n]) ++ its) as Hci' by (by rewrite <- app_assoc).
  apply wp_bind, (wp_deref _ it); [done|]. apply wp_if; intros Hr.
  { eapply wp_weaken; [|by apply (IH (pre ++ [n]))]. intros [] s' Hp. eapply (post_keep _ _ _ _ _ _ it s s); [done..|by apply steps_refl|done|left; lia|done]. }
  apply wp_bind, wp_call, wp_bind. cbn [fst snd]. case_decide as Hrm.
  - apply wp_bind, (wp_erase_entry _ it), wp_ret; [done|]. destruct (length_snoc_u64 done it) as [-> ->]. cbn [fst snd].
    match goal with |- wp _ _ ?t => change t with (after_erase s n it) end. apply wp_if; intros He.
    + apply wp_ret, post_erase_last; [done..|lia|done|done|]. bool_to_prop. done.
    + eapply wp_weaken; [|apply IH; [apply (erased_step s Hok n it Hn); lia|by apply erased_list|]].
      { intros [] s' Hp. apply (post_erase _ _ _ _ _ _ it); [done..|lia|done|done|exact Hp]. }
      intros _ [G1 G2]. bool_to_prop. lia.
  - apply wp_ret. cbn [fst snd]. set (s1 := (s.1, (remove (GetFilePath (inode it)) s.2).2)).
    assert (steps_to no_effect s s1) as Hs1 by (apply (steps_no_effect (inode it)), steps_failed; [done..|congruence]).
    assert (exists f e, (remove (GetFilePath (inode it)) f).1 = e /\ e <> 0) as Hf by eauto.
    assert (forall path, path <> GetFilePath (inode it) -> access path s1.2 = access path s.2) as Hpath by (intros; by apply remove_other).
    apply wp_if; intros He.
    + apply wp_ret. unfold evict_post. rewrite (items_at_cons s n it) by done. split_and!; [done| |].
      * intros path Hp. apply Hpath, Hp. by left.
      * exists (it :: items_at s its). split; [|apply evicts_keep_last; [done|bool_to_prop; done]].
        unfold items, contents. cbn. rewrite Hci, omap_app. cbn. by rewrite Hn.
    + eapply wp_weaken; [|by apply (IH (pre ++ [n]) done s1)]. intros [] s' Hp. eapply (post_keep _ _ _ _ _ _ it s s1); [done|done|done|done|by right|done].
Qed.

Lemma wp_evict tc ti s :
  ok s.1 ->
  wp (evict_loop tc ti (cacheItems (index s.1)) 0 0)
     (fun _ s' => steps_to no_effect s s' /\ evicts tc ti [] (items s) (items s') s'.2) s.
Proof.
  intros Hok. eapply wp_weaken; [|by apply (wp_evict_loop tc ti _ [] [])]. intros [] s' (H1 & _ & l' & H3 & H4). split; [done|].
  by rewrite H3.
Qed.

Lemma wp_GetCurFreeRatio s :
  ok s.1 -> wp GetCurFreeRatio (fun _ s' => steps_to no_effect s s' /\ items s' = items s /\ s'.2 = s.2) s.
Proof.
  intros Hok. unfold wp, GetCurFreeRatio. destruct s as [c f]. destruct (statfs (rootDir c) f); cbn.
  - split_and!; [|done..]. by apply (steps_same _ (set_disk _ _) (c, f)); [..|intros k r r' _ [= <-]].
  - split_and!; [by apply steps_refl|done..].
Qed.

Lemma wp_Cleanup s : ok s.1 -> wp Cleanup (fun _ s' => steps_to no_effect s s') s.
Proof. intros Hok. apply wp_bind, wp_cache. eapply wp_weaken; [|by apply wp_evict]. by intros [] s' [E _]. Qed.

Lemma wp_CleanupForEvict size s : ok s.1 -> wp (CleanupForEvict size) (fun _ s' => steps_to no_effect s s') s.
Proof. intros Hok. apply wp_bind, wp_cache. eapply wp_weaken; [|by apply wp_evict]. by intros [] s' [E _]. Qed.

Lemma wp_Evict size s : ok s.1 -> wp (Evict size) (fun _ s' => steps_to no_effect s s') s.
Proof.
  intros Hok. apply wp_bind. eapply wp_weaken; [|by apply wp_GetCurFreeRatio]. intros ret s1 (H1 & _ & _). cbn.
  eapply wp_weaken; [|apply wp_CleanupForEvict, H1]. intros [] s' H2. by eapply steps_trans.
Qed.

Lemma steps_hasFreeSpace b s : ok s.1 -> steps_to no_effect s (set_hasFreeSpace b s.1, s.2).
Proof. intros Hok. by apply (steps_same _ (set_hasFreeSpace b)); [..|intros k r r' _ [= <-]]. Qed.

Lemma wp_CheckFreeSpace s : ok s.1 -> wp CheckFreeSpace (fun _ s' => steps_to no_effect s s') s.
Proof.
  intros Hok. apply wp_bind, wp_cache, wp_if; intros Hs; [by apply wp_ret, steps_refl|].
  apply wp_bind. eapply wp_weaken; [|by apply wp_GetCurFreeRatio]. intros ret s1 (H1 & _ & _). cbn beta. case_decide as Hret; [by apply wp_ret|].
  apply wp_bind, wp_cache, wp_bind.
  assert (forall s2, steps_to no_effect s s2 ->
    wp (_ ← upd (fun c => set_hasFreeSpace (float_le (bgFreeRatio c) (blockRatio (disk c)) && float_le (bgFreeRatio c) (inodeRatio (disk c)))%bool c);
        mret true) (fun _ s' => steps_to no_effect s s') s2) as Hend.
  { intros s2 H2. apply wp_bind, wp_upd, wp_ret. eapply steps_trans; [done|]. apply steps_hasFreeSpace, H2. }
  apply wp_if; intros _; [|by apply wp_ret, Hend]. apply wp_bind, wp_upd.
  pose proof (steps_hasFreeSpace false s1 (proj1 H1)) as H2.
  eapply wp_weaken; [|apply wp_Cleanup, H2]. intros [] s2 H3. apply Hend. exact (steps_trans _ _ _ H1 (steps_trans _ _ _ H2 H3)).
Qed.

(** Every operation under the mutex. *)
Lemma wp_run_op o s : ok s.1 -> wp (run_op o) (fun _ s' => steps_to (effect o) s s') s.
Proof.
  intros Hok. destruct o; cbn [run_op].
  - apply wp_bind. eapply wp_weaken; [|by apply wp_Find]. by intros b s'.
  - eapply wp_weaken; [|by apply wp_Unpin]. by intros b s' [E _].
  - apply wp_bind. eapply wp_weaken; [|by apply wp_Delete]. by intros b s'.
  - by apply wp_DeleteOld.
  - by apply wp_InsertAndUpdate.
  - apply wp_bind. eapply wp_weaken; [|by apply wp_Update]. by intros b s' [E _].
  - apply wp_bind. eapply wp_weaken; [|by apply wp_Add]. by intros b s' [E _].
  - by apply wp_Evict.
  - apply wp_bind. eapply wp_weaken; [|by apply wp_CheckFreeSpace]. by intros b s'.
  - apply wp_call. split_and!; [done..|]. intros _ k r r' Hr [Hi Ha] E. cbn in *. case_match; [|done]. injection E as <-. by split.
Qed.

(** ** Sequences of operations *)

Fixpoint effects (os : list op) (k r : Z) : option Z :=
  match os with
  | [] => Some r
  | o :: os' => r' ← effect o k r; effects os' k r'
  end.

Lemma effect_pos o k r r' : 0 < r -> effect o k r = Some r' -> 0 < r'.
Proof.
  intros Hr. destruct o as [key [] now|key|key|key|key size [] now|key size now|key size now|size| |f]; cbn; unfold no_effect, effect_on, pin_effect, unpin_effect;
    repeat case_decide; repeat case_match; intros; simplify_eq; bool_to_prop; lia.
Qed.

(** The state after [os], and whatever else leaves items in use alone. *)
Definition ran (os : list op) (s s' : world) : Prop :=
  ok s'.1 /\ stop s'.1 = stop s.1 /\
  (stop s.1 = false -> forall k r r', 0 < r -> pinned k r s -> effects os k r = Some r' -> pinned k r' s' /\ 0 < r').

Lemma ran_steps o s s' : steps_to (effect o) s s' -> ran [o] s s'.
Proof.
  intros (H1 & H2 & H3). split_and!; [done|by apply settings_stop|]. intros Hs k r r' Hr Hp E. cbn in E.
  destruct (effect o k r) as [r1|] eqn:E1; [|done]. injection E as <-. eauto using effect_pos.
Qed.

Lemma ran_none s s' : steps_to no_effect s s' -> ran [] s s'.
Proof.
  intros (H1 & H2 & H3). split_and!; [done|by apply settings_stop|]. intros Hs k r r' Hr Hp [= <-]. split; [by eapply H3|done].
Qed.

Lemma ran_trans os os' s s1 s2 : ran os s s1 -> ran os' s1 s2 -> ran (os ++ os') s s2.
Proof.
  intros (H1 & H2 & H3) (G1 & G2 & G3). split_and!; [done|congruence|]. intros Hs k r r' Hr Hp E.
  assert (exists r1, effects os k r = Some r1 /\ effects os' k r1 = Some r') as (r1 & E1 & E2).
  { clear -E. revert r E. induction os as [|o os IH]; intros r E; cbn in *; [by eauto|]. destruct (effect o k r); cbn in *; [auto|done]. }
  destruct (H3 Hs k r r1 Hr Hp E1). eapply G3; [congruence|done..].
Qed.

Lemma wp_run_ops os : forall s, ok s.1 ->
  wp (run_ops os) (fun _ s' => ran os s s' /\ reservedCap s'.1 = reservedCap s.1) s.
Proof.
  induction os as [|o os IH]; intros s Hok; [by apply wp_ret; split; [apply ran_none, steps_refl|]|].
  apply wp_bind. eapply wp_weaken; [|by apply wp_run_op]. intros [] s1 H1. eapply wp_weaken; [|apply IH, H1].
  intros [] s2 [H2 E]. split; [eapply (ran_trans [o]); [by apply ran_steps|done]|]. rewrite E. by destruct H1 as (_ & [= ? ?] & _).
Qed.

(** CleanupForEvict and Cleanup are defined and keep the cache sound.  They go
    through a first part of the list: what they remove is not in use and its file
    is gone, what they keep is in use or could not be removed.  They end as soon as
    the items removed are enough in size and in number, or at the end of the
    list. *)
Theorem eviction_correct preAllocSize s :
  ok s.1 ->
  let c := s.1 in
  wp (CleanupForEvict preAllocSize)
     (fun _ s' => ok s'.1 /\ evicts (toFreeCap_of c (freeRatio c) (freeBlockRatio c preAllocSize)) (toFreeInode_of c (freeRatio c)) []
                               (items s) (items s') s'.2) s /\
  wp Cleanup
     (fun _ s' => ok s'.1 /\ evicts (toFreeCap_of c (bgFreeRatio c) (blockRatio (disk c))) (toFreeInode_of c (bgFreeRatio c)) []
                               (items s) (items s') s'.2) s.
Proof.
  intros Hok c. split; apply wp_bind, wp_cache; (eapply wp_weaken; [|by apply wp_evict]); intros [] s' [H1 H2]; (split; [apply H1|done]).
Qed.

(** ** Reservations *)

Fixpoint rounds_ops (during : nat -> list op) (r : nat) : list op :=
  match r with
  | O => []
  | S r' => during r' ++ rounds_ops during r'
  end.

(** The outcome [b] of an allocation of [size]. *)
Definition allocated (size : Z) (b : bool) (s s' : world) : Prop :=
  if b then reservedCap s'.1 = u64 (reservedCap s.1 + size) /\ reservedCap s'.1 < freeCap s'.1
  else reservedCap s'.1 = reservedCap s.1 /\ freeCap s'.1 <= u64 (reservedCap s'.1 + size).

Lemma ran_frame os s s1 s' :
  ran os s s1 -> index s'.1 = index s1.1 -> usedCap s'.1 = usedCap s1.1 -> stop s'.1 = stop s1.1 -> s'.2 = s1.2 -> ran os s s'.
Proof.
  intros (H1 & H2 & H3) E1 E2 E3 E4. split_and!; [destruct H1; split; congruence|congruence|]. intros Hs k r r' Hr Hp E.
  destruct (H3 Hs k r r' Hr Hp E) as [H4 H5]. split; [|done]. unfold pinned, items. by rewrite E1, E4.
Qed.

Lemma ran_evict_ops os s s1 s2 : steps_to no_effect s s1 -> ran os s1 s2 -> ran os s s2.
Proof. intros H1 H2. by apply (ran_trans [] os s s1); [apply ran_none|]. Qed.

Lemma wp_prealloc_rounds size during r : forall s, ok s.1 -> (r = 0%nat -> freeCap s.1 <= u64 (reservedCap s.1 + size)) ->
  wp (prealloc_rounds size during r)
     (fun b s' => exists os, prefix os (rounds_ops during r) /\ ran os s s' /\ allocated size b s s') s.
Proof.
  induction r as [|r IH]; intros s Hok Hfull.
  { apply wp_ret. exists []. split_and!; [apply prefix_nil|by apply ran_none, steps_refl|split; [done|by apply Hfull]]. }
  apply wp_bind. eapply wp_weaken; [|by apply wp_Evict]. intros [] s1 H1. apply wp_bind.
  eapply wp_weaken; [|apply wp_run_ops, H1]. intros [] s2 [H2 E2]. apply wp_bind, wp_cache.
  assert (ran (during r) s s2) as Hr by (by eapply ran_evict_ops).
  assert (reservedCap s2.1 = reservedCap s.1) as E by (rewrite E2; by destruct H1 as (_ & [= ? ?] & _)).
  apply wp_if; intros Hc; bool_to_prop.
  - eapply wp_weaken; [|by apply IH; [apply Hr|]]. intros b s' (os & H3 & H4 & H5). exists (during r ++ os). split_and!.
    + by apply prefix_app.
    + by eapply ran_trans.
    + unfold allocated in *. by rewrite E in H5.
  - apply wp_bind, wp_upd, wp_bind, wp_upd, wp_ret. cbn [fst snd]. exists (during r). split_and!.
    + by apply prefix_app_r.
    + by eapply ran_frame.
    + cbn. rewrite E. split; [done|]. by rewrite <- E.
Qed.

Lemma wp_PreAllocSpace size during s :
  ok s.1 ->
  wp (PreAllocSpace size during)
     (fun b s' => exists os, prefix os (during 3%nat ++ rounds_ops during 3) /\ ran os s s' /\
                  if stop s.1 then b = true /\ s' = s else allocated size b s s') s.
Proof.
  intros Hok. apply wp_bind, wp_cache, wp_if; intros Hs; rewrite Hs.
  { apply wp_ret. exists []. split_and!; [apply prefix_nil|by apply ran_none, steps_refl|done..]. }
  apply wp_if; intros Hc; bool_to_prop.
  - apply wp_bind, wp_upd, wp_ret. exists []. split_and!; [apply prefix_nil| |by split].
    by apply (ran_frame _ s s); [apply ran_none, steps_refl|..].
  - apply wp_bind, wp_upd, wp_bind. eapply wp_weaken; [|apply wp_run_ops; exact Hok]. intros [] s1 [H1 E1].
    eapply wp_weaken; [|apply wp_prealloc_rounds; [apply H1|done]]. intros b s' (os & H2 & H3 & H4).
    exists (during 3%nat ++ os). split_and!; [by apply prefix_app| |unfold allocated in *; by rewrite E1 in H4].
    apply (ran_trans _ _ s s1); [|done]. destruct H1 as (F1 & F2 & F3). split_and!; [done..|]. intros _ k r r' Hr Hp. by apply F3.
Qed.

(** C39: PreAllocSpace ends after at most three evictions, with the other threads
    doing anything between them.  It returns true with the reservation made and,
    together with all others, less than the free capacity of that moment; or false
    with the reservations as they were and no room for this one.  Files in use stay
    ([ran]).  A cache that is switched off grants everything. *)
Theorem PreAllocSpace_correct size during s :
  ok s.1 ->
  wp (PreAllocSpace size during)
     (fun b s' => exists os, prefix os (during 3%nat ++ during 2%nat ++ during 1%nat ++ during 0%nat) /\ ran os s s' /\
                  if stop s.1 then b = true /\ s' = s else
                  if b then reservedCap s'.1 = u64 (reservedCap s.1 + size) /\ reservedCap s'.1 < freeCap s'.1
                  else reservedCap s'.1 = reservedCap s.1 /\ freeCap s'.1 <= u64 (reservedCap s'.1 + size)) s.
Proof.
  intros Hok. eapply wp_weaken; [|by apply wp_PreAllocSpace]. intros b s' (os & H1 & H2 & H3). exists os. cbn in H1.
  by rewrite app_nil_r in H1.
Qed.

(** The operations that run with a request. *)
Definition request_ops (q : request) : list op :=
  match q with
  | Under o => [o]
  | Reserve _ during => during 3%nat ++ rounds_ops during 3
  | Release _ => []
  end.

Lemma wp_run_request q s : ok s.1 -> wp (run_request q) (fun _ s' => exists os, prefix os (request_ops q) /\ ran os s s') s.
Proof.
  intros Hok. destruct q as [o|size during|size]; cbn [run_request].
  - eapply wp_weaken; [|by apply wp_run_op]. intros [] s' Hs. exists [o]. split; [done|by apply ran_steps].
  - apply wp_bind. eapply wp_weaken; [|by apply wp_PreAllocSpace]. intros b s' (os & H1 & H2 & _). apply wp_ret. eauto.
  - apply wp_bind, wp_cache, wp_if; intros Hs; [apply wp_ret|apply wp_upd]; exists []; (split; [done|]).
    + by apply ran_none, steps_refl.
    + by apply (ran_frame _ s s); [apply ran_none, steps_refl|..].
Qed.

(** ** Files in use *)

Definition pins (k : Z) (os : list op) : Z :=
  Z.of_nat (count_if (fun o => match o with OpFind key true _ => bool_decide (key = k) | _ => false end) os).
Definition unpins (k : Z) (os : list op) : Z :=
  Z.of_nat (count_if (fun o => match o with OpUnpin key => bool_decide (key = k) | _ => false end) os).
(** [o] does not delete the file of [k]. *)
Definition spares (k : Z) (o : op) : Prop :=
  match o with
  | OpDelete key => key <> k
  | OpFs f => access (GetFilePath k) f = true
  | _ => True
  end.

Lemma effect_budget o k r :
  spares k o -> unpins k [o] < r -> r + pins k [o] < 2 ^ 32 ->
  exists r', effect o k r = Some r' /\ r - unpins k [o] <= r' <= r + pins k [o].
Proof.
  unfold pins, unpins. destruct o as [key [] now|key|key|key|key size [] now|key size now|key size now|size| |f]; cbn -[Z.pow];
    unfold no_effect, effect_on, pin_effect, unpin_effect; intros Hs Hu Hp; try (eexists; split; [done|lia]).
  - rewrite (bool_decide_ext (key = k) (k = key)) in * by done. destruct (decide (k = key)) as [Hk|Hk].
    + rewrite bool_decide_true in * by done. case_match; [|lia]. eexists; split; [done|lia].
    + rewrite bool_decide_false in * by done. eexists; split; [done|lia].
  - rewrite (bool_decide_ext (key = k) (k = key)) in * by done. destruct (decide (k = key)) as [Hk|Hk].
    + rewrite bool_decide_true in * by done. case_match; [|lia]. eexists; split; [done|lia].
    + rewrite bool_decide_false in * by done. eexists; split; [done|lia].
  - rewrite decide_False by done. eexists; split; [done|lia].
  - rewrite Hs. eexists; split; [done|lia].
Qed.

Lemma pins_app k os os' : pins k (os ++ os') = pins k os + pins k os' /\ unpins k (os ++ os') = unpins k os + unpins k os'.
Proof. unfold pins, unpins. induction os as [|o os [IH1 IH2]]; cbn; lia. Qed.

Lemma pins_nonneg k os : 0 <= pins k os /\ 0 <= unpins k os.
Proof. unfold pins, unpins. lia. Qed.

Lemma effects_budget os k : forall r,
  Forall (spares k) os -> unpins k os < r -> r + pins k os < 2 ^ 32 ->
  exists r', effects os k r = Some r' /\ r - unpins k os <= r' <= r + pins k os.
Proof.
  induction os as [|o os IH]; intros r Hs Hu Hp; [exists r; unfold pins, unpins; cbn; split; [done|lia]|].
  apply Forall_cons in Hs as [Ho Hs]. destruct (pins_app k [o] os) as [E1 E2]. cbn [app] in E1, E2. rewrite E1, E2 in *.
  pose proof (pins_nonneg k os). destruct (effect_budget o k r Ho) as (r1 & F1 & F2); [lia..|].
  destruct (IH r1 Hs) as (r' & F3 & F4); [lia..|]. exists r'. cbn. rewrite F1. cbn. split; [done|lia].
Qed.

Lemma wp_run_requests qs : forall s, ok s.1 ->
  wp (run_requests qs) (fun _ s' => exists os, sublist os (qs ≫= request_ops) /\ ran os s s') s.
Proof.
  induction qs as [|q qs IH]; intros s Hok; [by apply wp_ret; exists []; split; [|apply ran_none, steps_refl]|].
  apply wp_bind. eapply wp_weaken; [|by apply wp_run_request]. intros [] s1 (os & H1 & H2).
  eapply wp_weaken; [|apply IH, H2]. intros [] s2 (os' & H3 & H4). exists (os ++ os'). split; [|by eapply ran_trans].
  cbn. apply sublist_app; [destruct H1 as [l ->]; by apply sublist_inserts_r|done].
Qed.

Lemma sublist_count {A} (f : A -> bool) l l' : sublist l l' -> (count_if f l <= count_if f l')%nat.
Proof. induction 1; cbn; lia. Qed.


(** ** Start *)

Lemma wp_insert_all l now : forall s, ok s.1 -> wp (insert_all l now) (fun _ s' => steps_to no_effect s s') s.
Proof.
  induction l as [|it l IH]; intros s Hok; [by apply wp_ret, steps_refl|]. apply wp_bind.
  eapply wp_weaken; [|by apply wp_InsertAndUpdate]. intros [] s1 H1. eapply wp_weaken; [|apply IH, H1]. intros [] s2 H2.
  by eapply steps_trans.
Qed.

Lemma wp_scan order now Q s :
  wp (_ ← insert_all (merge_sort atime_le (order ≫= fun i => Walk (rootDir s.1 +:+ "/" +:+ pretty (Z.of_nat i)) s.2)) now; mret 0) Q s ->
  wp (ScanCache order now) Q s.
Proof. by destruct s. Qed.

Lemma wp_ScanCache order now s : ok s.1 -> wp (ScanCache order now) (fun ret s' => ret = 0 /\ ok s'.1) s.
Proof.
  intros Hok. apply wp_scan, wp_bind. eapply wp_weaken; [|by apply wp_insert_all]. intros [] s' H1. apply wp_ret. split; [done|apply H1].
Qed.

Lemma wp_Start path dirNum rat bg order now s : ok s.1 -> wp (Start path dirNum rat bg order now) (fun _ s' => ok s'.1) s.
Proof.
  intros Hok. apply wp_bind, wp_cache, wp_bind, wp_upd, wp_if; intros _; [by apply wp_bind, wp_upd, wp_ret|].
  apply wp_bind, wp_upd, wp_bind. eapply wp_weaken; [|by apply wp_ScanCache]. intros ret s1 [_ H1]. case_decide as Hr1; [by apply wp_ret|].
  apply wp_bind. eapply wp_weaken; [|by apply wp_GetCurFreeRatio]. intros ret2 s2 (H2 & _). case_decide as Hr2; [apply wp_ret, H2|].
  apply wp_bind, wp_cache, wp_ret, H2.
Qed.

Lemma ok_new : ok new_DiskCache.
Proof.
  split; [|done]. split; cbn.
  - constructor.
  - intros n. rewrite lookup_empty, is_Some_alt, elem_of_nil. done.
  - by intros n ?%elem_of_nil.
  - intros k n. rewrite lookup_empty. split; [done|]. intros (it & E & _). by rewrite lookup_empty in E.
Qed.

(** C38: from a new cache and any file system, Start and every sequence of requests
    are defined: no iterator is used that points to no item.  In the end the list
    and the hash table have the same items, no key twice, and usedCap is the sum of
    the sizes. *)
Theorem disk_cache_sound path dirNum rat bg order now qs f :
  wp (_ ← Start path dirNum rat bg order now; run_requests qs) (fun _ s' => ok s'.1) (new_DiskCache, f).
Proof.
  apply wp_bind. eapply wp_weaken; [|apply wp_Start, ok_new]. intros ret s1 H1.
  eapply wp_weaken; [|by apply wp_run_requests]. intros [] s2 (os & _ & H2). apply H2.
Qed.

(** ** What ScanCache finds *)

Definition inserted (now : Z) (it : CacheItem) : CacheItem :=
  {| inode := inode it; item_size := item_size it; atime := now; refs := 0 |}.

Lemma wp_insert_new it now s :
  ok s.1 -> stop s.1 = false -> inode it ∉ (inode <$> items s) ->
  wp (InsertAndUpdate (inode it) (item_size it) false now)
     (fun _ s' => ok s'.1 /\ stop s'.1 = false /\ items s' = items s ++ [inserted now it]) s.
Proof.
  intros Hok Hs Hk. apply wp_bind, wp_cache. rewrite Hs. apply wp_bind, wp_find_iter.
  destruct (inodeToCacheIter (index s.1) !! inode it) as [n|] eqn:Hi.
  { destruct Hk. destruct (wf_iter_Some _ (proj1 Hok) _ _ Hi) as (jt & _ & <- & Hj). by apply list_elem_of_fmap_2. }
  apply wp_bind, wp_upd, wp_ret. split_and!; [|done|].
  - apply (steps_insert (inode it) Some s (inserted now it) (u64 (freeCap s.1 - item_size it)) Hok Hi eq_refl).
  - by apply (wf_insert _ (proj1 Hok) (inserted now it)).
Qed.

Lemma wp_insert_all_new l now : forall s,
  ok s.1 -> stop s.1 = false -> NoDup (inode <$> (items s ++ l)) ->
  wp (insert_all l now) (fun _ s' => ok s'.1 /\ items s' = items s ++ (inserted now <$> l)) s.
Proof.
  induction l as [|it l IH]; intros s Hok Hs Hnd; [by apply wp_ret; rewrite app_nil_r|]. apply wp_bind.
  rewrite fmap_app, fmap_cons in Hnd.
  eapply wp_weaken; [|apply wp_insert_new; [done..|]].
  - intros [] s1 (H1 & H2 & H3). eapply wp_weaken; [|apply IH; [done..|]].
    + intros [] s2 [H4 H5]. split; [done|]. by rewrite H5, H3, <- app_assoc.
    + rewrite H3, <- app_assoc, !fmap_app. done.
  - apply NoDup_app in Hnd as (_ & H1 & _). intros Hin. apply (H1 _ Hin). by left.
Qed.

#[local] Instance atime_le_total : Total atime_le.
Proof. intros x y. unfold atime_le. lia. Qed.
#[local] Instance atime_le_trans : Transitive atime_le.
Proof. intros x y z. unfold atime_le. lia. Qed.

(** The directories below [rootPath] hold the files of [files], with the sizes and
    access times [sz] and [at_], where GetFilePath puts them. *)
Record holds (f : fs) (files : list Z) (sz at_ : Z -> Z) : Prop := {
  holds_nodup : NoDup files;
  holds_range k : k ∈ files -> 0 <= k < 2 ^ 63;
  holds_dir i : 0 <= i < totalDirectory -> exists names,
    opendir (rootPath +:+ "/" +:+ pretty i) f = Some (names, true) /\
    filter (fun name => name <> "." /\ name <> "..") names ≡ₚ
      (fun k => pretty k +:+ "-large") <$> filter (fun k => k `mod` totalDirectory = i) files;
  holds_stat k : k ∈ files -> stat (GetFilePath k) f = Some (sz k, at_ k)
}.

Section restore.

Context (f : fs) (files : list Z) (sz at_ : Z -> Z) (Hf : holds f files sz at_) (Htd : 0 < totalDirectory < 2 ^ 31).

Definition item_of (k : Z) : CacheItem := {| inode := k; item_size := u64 (sz k); atime := u64 (at_ k); refs := 0 |}.

Lemma Walk_holds i : 0 <= i < totalDirectory ->
  Walk (rootPath +:+ "/" +:+ pretty i) f ≡ₚ item_of <$> filter (fun k => k `mod` totalDirectory = i) files.
Proof.
  intros Hi. destruct (holds_dir _ _ _ _ Hf i Hi) as (names & E1 & E2). unfold Walk. rewrite E1, E2, <- list_fmap_compose.
  apply Permutation_refl', list_fmap_ext. intros j k Hj%list_elem_of_lookup_2. apply list_elem_of_filter in Hj as [Hk Hin].
  pose proof (holds_range _ _ _ _ Hf k Hin). cbn beta. unfold compose.
  assert ((rootPath +:+ "/" +:+ pretty i) +:+ "/" +:+ pretty k +:+ "-large" = GetFilePath k) as ->.
  { unfold GetFilePath. rewrite (wrap_small 64 totalDirectory) by (unfold in_range; lia). rewrite Hk, s32_small by lia. by rewrite !append_assoc. }
  rewrite (holds_stat _ _ _ _ Hf k Hin). cbn [default]. change ("-large") with (String "-" "large").
  rewrite atoll_pretty by done. unfold item_of. f_equal. apply wrap_small. unfold in_range. lia.
Qed.

Lemma holds_all order : order ≡ₚ seq 0 (Z.to_nat totalDirectory) ->
  order ≫= (fun i => Walk (rootPath +:+ "/" +:+ pretty (Z.of_nat i)) f) ≡ₚ item_of <$> files.
Proof.
  intros Ho. rewrite Ho.
  transitivity (item_of <$> (seq 0 (Z.to_nat totalDirectory) ≫= fun i => filter (fun k => k `mod` totalDirectory = Z.of_nat i) files)).
  { assert (forall l, Forall (fun i => (i < Z.to_nat totalDirectory)%nat) l ->
      l ≫= (fun i => Walk (rootPath +:+ "/" +:+ pretty (Z.of_nat i)) f) ≡ₚ
      item_of <$> (l ≫= fun i => filter (fun k => k `mod` totalDirectory = Z.of_nat i) files)) as Hl.
    { induction 1 as [|i l Hi _ IH]; [done|]. cbn. rewrite fmap_app, <- IH. f_equiv. apply Walk_holds. lia. }
    apply Hl, Forall_forall. intros i Hi%elem_of_seq. lia. }
  apply fmap_Permutation. clear Ho order. apply NoDup_Permutation.
  - apply NoDup_bind; [|intros i _; apply NoDup_filter, Hf|apply NoDup_seq].
    intros i j k _ _ [E1 _]%list_elem_of_filter [E2 _]%list_elem_of_filter. lia.
  - apply Hf.
  - intros k. rewrite list_elem_of_bind. split; [by intros (i & [_ Hk]%list_elem_of_filter & _)|]. intros Hk.
    pose proof (Z.mod_pos_bound k totalDirectory (proj1 Htd)). exists (Z.to_nat (k `mod` totalDirectory)).
    rewrite list_elem_of_filter, elem_of_seq. split; [split; [lia|done]|lia].
Qed.

(** ScanCache restores the cache after a restart: from directories that hold
    files where GetFilePath puts them, it makes one item for each, with the inode
    number read back from the name and the size of the file, not in use, the least
    recently used first; in whatever order the threads of the directories end. *)
Theorem ScanCache_restores order now s :
  ok s.1 -> stop s.1 = false -> items s = [] -> rootDir s.1 = rootPath -> s.2 = f ->
  order ≡ₚ seq 0 (Z.to_nat totalDirectory) ->
  wp (ScanCache order now)
     (fun ret s' => ret = 0 /\ ok s'.1 /\
        exists keys, keys ≡ₚ files /\ StronglySorted (fun k k' => u64 (at_ k) <= u64 (at_ k')) keys /\
                     items s' = (fun k => {| inode := k; item_size := u64 (sz k); atime := now; refs := 0 |}) <$> keys) s.
Proof.
  intros Hok Hs Hi Hroot Hfs Ho. apply wp_scan. rewrite Hroot, Hfs. set (l := merge_sort _ _).
  assert (l ≡ₚ item_of <$> files) as Hl by (by rewrite <- holds_all by done; apply merge_sort_Permutation).
  apply wp_bind. eapply wp_weaken; [|apply wp_insert_all_new; [done..|]].
  - intros [] s' [H1 H2]. apply wp_ret. split_and!; [done..|]. exists (inode <$> l).
    assert (item_of <$> (inode <$> l) = l) as El.
    { rewrite <- list_fmap_compose. rewrite <- (list_fmap_id l) at 2. apply list_fmap_ext. intros i it Hit%list_elem_of_lookup_2.
      rewrite Hl in Hit. by apply list_elem_of_fmap in Hit as (k & -> & _). }
    split_and!.
    + rewrite Hl, <- list_fmap_compose. by rewrite list_fmap_id.
    + pose proof (StronglySorted_merge_sort atime_le (order ≫= (fun i => Walk (rootPath +:+ "/" +:+ pretty (Z.of_nat i)) f))) as Hsort.
      fold l in Hsort. rewrite <- El in Hsort. clear -Hsort. induction (inode <$> l) as [|k ks IH]; [constructor|].
      cbn in Hsort. apply StronglySorted_inv in Hsort as [S1 S2]. constructor; [by apply IH|]. rewrite Forall_fmap in S2. exact S2.
    + rewrite H2, Hi. cbn. rewrite <- El at 1. by rewrite <- list_fmap_compose.
  - rewrite Hi. cbn. rewrite Hl, <- list_fmap_compose, list_fmap_id. apply Hf.
Qed.

End restore.
End cache.

(** ** An instance *)

Module Demo.

(** Files by path, with size and access time, on a disk of 1000 blocks of one
    byte and 100 inodes. *)
Definition demo_fs : Type := gmap string (Z * Z).

Fixpoint strip (p s : string) : option string :=
  match p, s with
  | EmptyString, _ => Some s
  | String a p', String b s' => if decide (a = b) then strip p' s' else None
  | String _ _, EmptyString => None
  end.

Definition demo_remove (p : string) (f : demo_fs) : Z * demo_fs :=
  match f !! p with Some _ => (0, delete p f) | None => (2, f) end.

Definition demo_used (f : demo_fs) : Z := foldr (fun e acc => e.2.1 + acc) 0 (map_to_list f).

#[export] Instance demo_cache_fs : CacheFs := {
  rootPath := "/c";
  totalDirectory := 2;
  float_undefined := fun _ => 0;
  fs := demo_fs;
  remove := demo_remove;
  access p f := bool_decide (is_Some (f !! p));
  statfs _ f := Some {| f_bsize := 1; f_blocks := 1000; f_bavail := 1000 - demo_used f; f_files := 100;
                        f_ffree := 100 - Z.of_nat (base.size f) |};
  opendir d f := Some ("." :: ".." :: omap (fun e => strip (d +:+ "/") e.1) (map_to_list f), true);
  stat p f := f !! p
}.

#[export] Instance demo_laws : CacheFsLaws.
Proof.
  split; cbn; unfold demo_remove, demo_fs.
  - intros p f f'. destruct (f !! p) eqn:E; intros [= <-]. apply bool_decide_false. rewrite lookup_delete_eq. by intros [? ?].
  - intros p f e f'. destruct (f !! p) eqn:E; intros [= <- <-] He; [by destruct He|by rewrite E].
  - intros p q f Hpq. destruct (f !! p) eqn:E; cbn; [|done]. by rewrite lookup_delete_ne.
Qed.

Definition tenth : spec_float := float_tenth.
Definition fifth : spec_float := float_fifth.

(** Three files of 300 bytes: 100 bytes of the disk are free. *)
Definition demo_disk : demo_fs :=
  <["/c/1/1-large" := (300, 30)]> (<["/c/0/2-large" := (300, 10)]> (<["/c/1/3-large" := (300, 20)]> ∅)).

Definition started : option (Z * world) := Start "/c" 2 tenth fifth [1; 0]%nat 5 (new_DiskCache, demo_disk).

(** After Start the items are in the order of their access times. *)
Example started_items : (fun r => (r.1, inode <$> items r.2, usedCap r.2.1)) <$> started = Some (0, [2; 3; 1], 900).
Proof. vm_compute. reflexivity. Qed.

(** Reserving 150 bytes evicts the oldest file that is not in use. *)
Example reserve_evicts :
  ('(_, s) ← started;
   (_ ← Find 2 true 6; b ← PreAllocSpace 150 (fun _ => []); c ← cache; mret (b, inode <$> contents (index c), reservedCap c)) s)
    ≫= (fun r => Some r.1)
  = Some (true, [2; 1], 150).
Proof. vm_compute. reflexivity. Qed.

Definition demo_state : world := (default (0, (new_DiskCache, ∅)) started).2.

Lemma demo_ok : ok demo_state.1.
Proof.
  pose proof (wp_Start "/c" 2 tenth fifth [1; 0]%nat 5 (new_DiskCache, demo_disk) ok_new) as Hs. unfold wp in Hs.
  unfold demo_state, started. by destruct (Start _ _ _ _ _ _ _) as [[ret s]|].
Qed.

Definition demo_pinned : world := (default (false, demo_state) (Find 2 true 6 demo_state)).2.

Lemma demo_pinned_ok : ok demo_pinned.1.
Proof.
  pose proof (wp_Find 2 true 6 demo_state demo_ok) as Hs. unfold wp in Hs. unfold demo_pinned.
  destruct (Find _ _ _ _) as [[b s]|]; [apply Hs|done].
Qed.

(** Another thread opens and closes the file while space is reserved. *)
Definition demo_requests : list request :=
  [Under (OpFind 2 true 7); Reserve 700 (fun _ => [OpUnpin 2; OpFind 2 true 8; OpCheckFreeSpace]); Under (OpEvict 900)].

Lemma disk_cache_sound_witness :
  wp (_ ← Start "/c" 2 tenth fifth [1; 0]%nat 5; run_requests demo_requests) (fun _ s' => ok s'.1) (new_DiskCache, demo_disk).
Proof. apply (disk_cache_sound "/c" 2 tenth fifth [1; 0]%nat 5 demo_requests demo_disk). Defined.


Lemma eviction_correct_witness :
  wp (CleanupForEvict 150) (fun _ s' => ok s'.1) demo_pinned.
Proof.
  destruct (eviction_correct 150 demo_pinned demo_pinned_ok) as [Hs _]. revert Hs. apply wp_weaken. intros [] s' Hs. apply Hs.
Defined.

Lemma PreAllocSpace_correct_witness :
  wp (PreAllocSpace 150 (fun _ => [])) (fun b s' => b = true /\ reservedCap s'.1 = 150 /\ ok s'.1) demo_pinned.
Proof.
  pose proof (PreAllocSpace_correct 150 (fun _ => []) demo_pinned demo_pinned_ok) as Hs.
  unfold wp in *. destruct (PreAllocSpace 150 (fun _ => []) demo_pinned) as [[b s']|] eqn:E; [|done].
  destruct Hs as (os & _ & Hr & _). assert (b = true /\ reservedCap s'.1 = 150) as [-> ->]; [|split_and!; [done..|apply Hr]].
  assert (option_map (fun r => (r.1, reservedCap r.2.1)) (PreAllocSpace 150 (fun _ => []) demo_pinned) = Some (true, 150)) as F
    by (vm_compute; reflexivity).
  rewrite E in F. injection F as F1 F2. split; [exact F1|exact F2].
Defined.

Lemma demo_holds : holds demo_disk [1; 2; 3] (fun _ => 300) (fun k => if decide (k = 1) then 30 else if decide (k = 2) then 10 else 20).
Proof.
  split.
  - repeat constructor; set_solver.
  - intros k Hk. assert (k = 1 \/ k = 2 \/ k = 3) by set_solver. lia.
  - intros i Hi. cbn in Hi. eexists. split; [reflexivity|]. assert (i = 0 \/ i = 1) as [-> | ->] by lia; vm_compute; solve_Permutation.
  - intros k Hk. assert (k = 1 \/ k = 2 \/ k = 3) as [->|[-> | ->]] by set_solver; vm_compute; reflexivity.
Qed.

Lemma ScanCache_restores_witness :
  wp (ScanCache [1; 0]%nat 5) (fun ret s' => ret = 0 /\ ok s'.1) (set_start "/c" 2 tenth fifth false new_DiskCache, demo_disk).
Proof.
  eapply wp_weaken; [|apply (@ScanCache_restores demo_cache_fs demo_disk [1; 2; 3] _ _ demo_holds); [done|exact ok_new|done..|]].
  - intros ret s' (H1 & H2 & _). split; [exact H1|exact H2].
  - apply perm_swap.
Defined.

End Demo.
