(* ===== verification/CachePins.v ===== *)
(** * What eviction leaves alone

    For the operations of DiskCache.v, what happens to the item of each key and to
    the files behind it: eviction only takes items that nobody has pinned, removes
    only their files, and the number of references of a key changes by pinning and
    unpinning alone. *)

From S2P Require Import FalconPrelude DiskCache DiskCacheCorrect.

Section pins.

Context `{CacheFs}.

Implicit Types (s : world) (ix : Index) (k : Z).

Definition item_at k ix : option CacheItem := n ← inodeToCacheIter ix !! k; nodes ix !! n.

(** The references of a key, none when it is not in the cache. *)
Definition refs_at k ix : Z := match item_at k ix with Some it => refs it | None => 0 end.

(** Eviction: an item stays as it is, or it had no reference and is gone. *)
Definition evicted ix ix' : Prop :=
  forall k, item_at k ix' = item_at k ix \/ item_at k ix' = None /\ exists it, item_at k ix = Some it /\ refs it <= 0.

(** The files of the keys in [K] are not touched: what [P] says of the file system
    stays, if removing other files does not change it. *)
Definition spared (K : Z -> Prop) (f f' : fs) : Prop :=
  forall P : fs -> Prop, (forall k g, ~ K k -> P g -> P (remove (GetFilePath k) g).2) -> P f -> P f'.

Definition in_use ix k : Prop := exists it, item_at k ix = Some it /\ 0 < refs it.

Lemma evicted_refl ix : evicted ix ix.
Proof. intros k. by left. Qed.

Lemma evicted_trans ix ix1 ix2 : evicted ix ix1 -> evicted ix1 ix2 -> evicted ix ix2.
Proof.
  intros H1 H2 k. destruct (H2 k) as [E|[E (it & E1 & Hr)]].
  - rewrite E. apply H1.
  - destruct (H1 k) as [E'|[E' _]]; [|congruence]. right. split; [done|]. exists it. by rewrite <- E'.
Qed.

Lemma evicted_in_use ix ix' k : evicted ix ix' -> in_use ix k -> item_at k ix' = item_at k ix.
Proof. intros He (it & E & Hr). destruct (He k) as [|[_ (it' & E' & Hr')]]; [done|]. exfalso. simplify_eq. lia. Qed.

Lemma spared_refl K f : spared K f f.
Proof. by intros P. Qed.

Lemma spared_trans K f f1 f2 : spared K f f1 -> spared K f1 f2 -> spared K f f2.
Proof. intros H1 H2 P HP Hf. apply H2, H1; done. Qed.

Lemma spared_mono (K K' : Z -> Prop) f f' : (forall k, K k -> K' k) -> spared K' f f' -> spared K f f'.
Proof. intros HK Hs P HP. apply Hs. intros k g Hk. apply HP. auto. Qed.

Lemma act_bind_inv {A B} (m : act A) (g : A -> act B) s b s' :
  (m ≫= g) s = Some (b, s') -> exists a s1, m s = Some (a, s1) /\ g a s1 = Some (b, s').
Proof. unfold mbind, act_bind. destruct (m s) as [[a s1]|]; [|done]. intros E. by exists a, s1. Qed.

Lemma deref_inv n s it s' : deref n s = Some (it, s') -> nodes (index s.1) !! n = Some it /\ s' = s.
Proof. unfold deref, cache, mbind, act_bind. cbn. destruct (nodes _ !! n); cbn; [by intros [= <- <-]|done]. Qed.

Lemma item_at_wf ix n it : wf ix -> nodes ix !! n = Some it -> item_at (inode it) ix = Some it.
Proof. intros Hwf Hn. assert (inodeToCacheIter ix !! inode it = Some n) as E by (apply (wf_iter _ Hwf); eauto). unfold item_at. by rewrite E. Qed.

Lemma item_at_inode ix k it : wf ix -> item_at k ix = Some it -> inode it = k.
Proof.
  intros Hwf E. unfold item_at in E. destruct (inodeToCacheIter ix !! k) as [n|] eqn:Ek; [|done]. cbn in E.
  destruct (wf_iter_Some _ Hwf _ _ Ek) as (it' & E' & Hk & _). congruence.
Qed.

(** An entry is erased. *)
Lemma item_at_erase ix n it k : wf ix -> nodes ix !! n = Some it ->
  item_at k (iter_erase (inode it) (list_erase n ix)) = if decide (k = inode it) then None else item_at k ix.
Proof.
  intros Hwf Hn. unfold item_at. cbn. case_decide as Hk; [subst; by rewrite lookup_delete_eq|]. rewrite lookup_delete_ne by done.
  destruct (inodeToCacheIter ix !! k) as [m|] eqn:Ek; [|done]. cbn. rewrite lookup_delete_ne; [done|]. intros <-.
  destruct (wf_iter_Some _ Hwf _ _ Ek) as (it' & E' & Hk' & _). congruence.
Qed.

(** What an eviction does: [m] is one. *)
Definition evicts_only {A} (m : act A) : Prop := forall s a s', m s = Some (a, s') -> wf (index s.1) ->
  wf (index s'.1) /\ evicted (index s.1) (index s'.1) /\ stop s'.1 = stop s.1 /\ spared (in_use (index s.1)) s.2 s'.2.

Lemma evicts_only_bind {A B} (m : act A) (g : A -> act B) :
  evicts_only m -> (forall a, evicts_only (g a)) -> evicts_only (m ≫= g).
Proof.
  intros Hm Hg s b s' E Hwf. apply act_bind_inv in E as (a & s1 & E1 & E2). destruct (Hm _ _ _ E1 Hwf) as (W1 & V1 & S1 & P1).
  destruct (Hg a _ _ _ E2 W1) as (W2 & V2 & S2 & P2). split_and!; [done|by eapply evicted_trans|congruence|].
  eapply spared_trans; [done|]. eapply spared_mono; [|done]. intros k Hk. pose proof (evicted_in_use _ _ _ V1 Hk) as E.
  destruct Hk as (it & E' & Hr). exists it. by rewrite E.
Qed.

Lemma evicts_only_same {A} (m : act A) :
  (forall s a s', m s = Some (a, s') -> index s'.1 = index s.1 /\ stop s'.1 = stop s.1 /\ s'.2 = s.2) -> evicts_only m.
Proof. intros Hm s a s' E Hwf. destruct (Hm _ _ _ E) as (-> & -> & ->). split_and!; [done|apply evicted_refl|done|apply spared_refl]. Qed.

Lemma evicts_only_ret {A} (a : A) : evicts_only (mret a).
Proof. apply evicts_only_same. by intros s b s' [= <- <-]. Qed.

Lemma evicts_only_if {A} (b : bool) (m m' : act A) : evicts_only m -> evicts_only m' -> evicts_only (if b then m else m').
Proof. by destruct b. Qed.

Lemma evict_loop_only tc ti its : forall fc fi, evicts_only (evict_loop tc ti its fc fi).
Proof.
  induction its as [|n its IH]; intros fc fi; [apply evicts_only_ret|]. intros s a s' E Hwf. cbn [evict_loop] in E.
  apply act_bind_inv in E as (it & s1 & [Hn ->]%deref_inv & E). destruct (Z.gtb_spec (refs it) 0) as [Hr|Hr]; [by apply (IH _ _ _ _ _ E)|].
  apply act_bind_inv in E as (ret & s1 & E1 & E). unfold call in E1. destruct (remove (GetFilePath (inode it)) s.2) as [e f'] eqn:Er.
  injection E1 as <- <-. assert (spared (in_use (index s.1)) s.2 f') as Hsp.
  { intros P HP Hf. specialize (HP (inode it) s.2). rewrite Er in HP. apply HP; [|done]. intros (it' & E' & Hr').
    rewrite (item_at_wf _ _ _ Hwf Hn) in E'. simplify_eq. lia. }
  assert (forall fc fi s2 a s', wf (index s2.1) -> evicted (index s.1) (index s2.1) -> stop s2.1 = stop s.1 -> s2.2 = f' ->
    (if ((tc <=? fc) && (ti <=? fi))%bool then mret tt else evict_loop tc ti its fc fi) s2 = Some (a, s') ->
    wf (index s'.1) /\ evicted (index s.1) (index s'.1) /\ stop s'.1 = stop s.1 /\ spared (in_use (index s.1)) s.2 s'.2) as Hend.
  { intros fc2 fi2 s2 a2 s3 W V S F E2. assert (evicts_only (if ((tc <=? fc2) && (ti <=? fi2))%bool then mret tt else evict_loop tc ti its fc2 fi2)) as Hr2
      by (apply evicts_only_if; [apply evicts_only_ret|apply IH]).
    destruct (Hr2 _ _ _ E2 W) as (W3 & V3 & S3 & P3). split_and!; [done|by eapply evicted_trans|congruence|].
    eapply spared_trans; [exact Hsp|]. rewrite <- F. eapply spared_mono; [|done]. intros k Hk.
    pose proof (evicted_in_use _ _ _ V Hk) as E3. destruct Hk as (it' & E' & Hr'). exists it'. by rewrite E3. }
  apply act_bind_inv in E as (freed & s2 & E2 & E). case_decide as He.
  - apply act_bind_inv in E2 as ([] & s3 & E2 & [= <- <-]). unfold erase_entry in E2.
    apply act_bind_inv in E2 as (it' & s4 & [Hn' ->]%deref_inv & [= <-]). cbn in *. simplify_eq.
    eapply Hend; [| | | |exact E]; cbn; [by eapply wf_erase, (wf_iter _ Hwf); eauto| |done|done].
    intros k. rewrite (item_at_erase _ _ it) by done. case_decide as Hk; [|by left]. right. split; [done|]. exists it.
    subst k. split; [by eapply item_at_wf|lia].
  - injection E2 as <- <-. eapply Hend; [| | | |exact E]; cbn; [done|apply evicted_refl|done|done].
Qed.

Lemma evicts_only_cache : evicts_only cache.
Proof. apply evicts_only_same. by intros s a s' [= <- <-]. Qed.

Lemma evicts_only_upd (g : DiskCache -> DiskCache) :
  (forall c, index (g c) = index c /\ stop (g c) = stop c) -> evicts_only (upd g).
Proof. intros Hg. apply evicts_only_same. intros s a s' [= <- <-]. cbn. by destruct (Hg s.1). Qed.

Lemma GetCurFreeRatio_only : evicts_only GetCurFreeRatio.
Proof.
  apply evicts_only_same. intros [c f] a s'. unfold GetCurFreeRatio. destruct (statfs _ _); by intros [= <- <-].
Qed.

Lemma Evict_only size : evicts_only (Evict size).
Proof.
  apply evicts_only_bind; [apply GetCurFreeRatio_only|]. intros _. apply evicts_only_bind; [apply evicts_only_cache|].
  intros c. apply evict_loop_only.
Qed.

Lemma prealloc_rounds_only size r : evicts_only (prealloc_rounds size (fun _ => []) r).
Proof.
  induction r as [|r IH]; cbn [prealloc_rounds]; [apply evicts_only_ret|].
  apply evicts_only_bind; [apply Evict_only|]. intros _. apply evicts_only_bind; [apply evicts_only_ret|]. intros _.
  apply evicts_only_bind; [apply evicts_only_cache|]. intros c. apply evicts_only_if; [done|].
  apply evicts_only_bind; [by apply evicts_only_upd|]. intros _. apply evicts_only_bind; [by apply evicts_only_upd|]. intros _.
  apply evicts_only_ret.
Qed.

(** PreAllocSpace, when nothing else runs between its rounds. *)
Lemma PreAllocSpace_only size : evicts_only (PreAllocSpace size (fun _ => [])).
Proof.
  apply evicts_only_bind; [apply evicts_only_cache|]. intros c. apply evicts_only_if; [apply evicts_only_ret|].
  apply evicts_only_if; (apply evicts_only_bind; [by apply evicts_only_upd|intros _]); [apply evicts_only_ret|].
  apply evicts_only_bind; [apply evicts_only_ret|]. intros _. apply prealloc_rounds_only.
Qed.

Lemma FreePreAllocSpace_only size : evicts_only (FreePreAllocSpace size).
Proof.
  apply evicts_only_bind; [apply evicts_only_cache|]. intros c. apply evicts_only_if; [apply evicts_only_ret|by apply evicts_only_upd].
Qed.

Lemma DeleteOld_only key : evicts_only (DeleteOldCacheWithNoPin key).
Proof.
  intros s a s' E Hwf. unfold DeleteOldCacheWithNoPin in E. apply act_bind_inv in E as (elem & s1 & E1 & E).
  injection E1 as <- <-. assert (evicts_only (mret a : act unit)) as Hret by apply evicts_only_ret.
  destruct (inodeToCacheIter (index s.1) !! key) as [n|] eqn:Hi; [|by destruct a; apply (Hret _ _ _ E)].
  apply act_bind_inv in E as (it & s1 & [Hn ->]%deref_inv & E).
  destruct (wf_iter_Some _ Hwf _ _ Hi) as (it1 & Hn1 & Hk & _). assert (it1 = it) as -> by congruence. subst key.
  destruct (Z.leb_spec (refs it) 0) as [Hr|Hr]; [|by destruct a; apply (Hret _ _ _ E)].
  apply act_bind_inv in E as (ret & s1 & E1 & E). unfold call in E1. destruct (remove (GetFilePath (inode it)) s.2) as [e f'] eqn:Er.
  injection E1 as <- <-. assert (spared (in_use (index s.1)) s.2 f') as Hsp.
  { intros P HP Hf. specialize (HP (inode it) s.2). rewrite Er in HP. apply HP; [|done]. intros (it' & E' & Hr').
    rewrite (item_at_wf _ _ _ Hwf Hn) in E'. simplify_eq. lia. }
  case_decide; [injection E as <- <-; split_and!; [done|apply evicted_refl|done|done]|].
  unfold erase_entry in E. apply act_bind_inv in E as (it' & s4 & [Hn' ->]%deref_inv & [= <- <-]). cbn in *.
  split_and!; [by eapply wf_erase| |done|done]. intros k. rewrite (item_at_erase _ _ it) by done.
  case_decide as Hk; [|by left]. right. split; [done|]. exists it. subst k. split; [by eapply item_at_wf|lia].
Qed.

(** ** References *)

Definition refs_ok ix : Prop := forall k, 0 <= refs_at k ix < 2 ^ 32.

(** The references of [key] change by [d], those of the other keys do not; no key
    other than [key] comes in. *)
Record counts (key d : Z) s s' : Prop := {
  ct_wf : wf (index s'.1);
  ct_stop : stop s'.1 = stop s.1;
  ct_refs k : refs_at k (index s'.1) = refs_at k (index s.1) + (if decide (k = key) then d else 0)
}.

Lemma counts_trans key d d' s s1 s2 : counts key d s s1 -> counts key d' s1 s2 -> counts key (d + d') s s2.
Proof.
  intros [W1 S1 R1] [W2 S2 R2]. split; [done|congruence|]. intros k. rewrite R2, R1. case_decide; lia.
Qed.

Lemma counts_same key s s' : wf (index s.1) -> index s'.1 = index s.1 -> stop s'.1 = stop s.1 -> counts key 0 s s'.
Proof. intros Hwf E1 E2. split; [by rewrite E1|done|]. intros k. rewrite E1. case_decide; lia. Qed.

Lemma counts_evicted key s s' :
  refs_ok (index s.1) -> wf (index s'.1) -> stop s'.1 = stop s.1 -> evicted (index s.1) (index s'.1) -> counts key 0 s s'.
Proof.
  intros Hr Hw Hs He. split; [done..|]. intros k. specialize (Hr k). unfold refs_at in *.
  destruct (He k) as [E|[E (it & E' & ?)]]; rewrite E; [|rewrite E' in *]; case_decide; lia.
Qed.

Lemma counts_ok key d s s' : refs_ok (index s.1) -> counts key d s s' -> 0 <= refs_at key (index s.1) + d < 2 ^ 32 -> refs_ok (index s'.1).
Proof. intros Hr Hc Hd k. rewrite (ct_refs _ _ _ _ Hc). specialize (Hr k). case_decide; [by subst|lia]. Qed.

(** The item of a key is replaced. *)
Lemma item_at_set ix key n it' k : wf ix -> inodeToCacheIter ix !! key = Some n ->
  item_at k (set_node n it' ix) = if decide (k = key) then Some it' else item_at k ix.
Proof.
  intros Hwf Hi. unfold item_at. cbn. case_decide as Hk; [subst; rewrite Hi; cbn; by rewrite lookup_insert_eq|].
  destruct (inodeToCacheIter ix !! k) as [m|] eqn:Ek; [|done]. cbn. rewrite lookup_insert_ne; [done|]. intros <-.
  destruct (wf_iter_Some _ Hwf _ _ Ek) as (it1 & E1 & Hk1 & _). destruct (wf_iter_Some _ Hwf _ _ Hi) as (it2 & E2 & Hk2 & _). congruence.
Qed.

Lemma refs_at_iter ix key n it : inodeToCacheIter ix !! key = Some n -> nodes ix !! n = Some it -> refs_at key ix = refs it.
Proof. intros Hi Hn. unfold refs_at, item_at. by rewrite Hi; cbn; rewrite Hn. Qed.

Lemma counts_set s key n it it' used free s' :
  wf (index s.1) -> inodeToCacheIter (index s.1) !! key = Some n -> nodes (index s.1) !! n = Some it -> inode it' = inode it ->
  s'.1 = set_index (set_node n it' (index s.1)) used free s.1 -> counts key (refs it' - refs it) s s'.
Proof.
  intros Hwf Hi Hn Hk Hs. split; [rewrite Hs; by eapply wf_set_node|by rewrite Hs|]. intros k. rewrite Hs. cbn. pose proof (refs_at_iter _ _ _ _ Hi Hn) as Er.
  unfold refs_at in *. rewrite (item_at_set _ key) by done. case_decide; [subst|]; lia.
Qed.

Lemma store_inv n it' s a s' : store n it' s = Some (a, s') ->
  s' = (set_index (set_node n it' (index s.1)) (usedCap s.1) (freeCap s.1) s.1, s.2).
Proof. intros E. apply act_bind_inv in E as (it & s1 & [_ ->]%deref_inv & [= _ <-]). done. Qed.

Lemma Pin_counts key now s a s' :
  wf (index s.1) -> stop s.1 = false -> 0 <= refs_at key (index s.1) < 2 ^ 32 - 1 -> Pin key now s = Some (a, s') ->
  counts key 1 s s' /\ s'.2 = s.2.
Proof.
  intros Hwf Hs Hr E. unfold Pin in E. apply act_bind_inv in E as (c & s1 & [= <- <-] & E). rewrite Hs in E.
  apply act_bind_inv in E as (elem & s1 & [= <- <-] & E). destruct (inodeToCacheIter (index s.1) !! key) as [n|] eqn:Hi; [|done].
  apply act_bind_inv in E as (it & s1 & [Hn ->]%deref_inv & ->%store_inv). split; [|done].
  rewrite (refs_at_iter _ _ _ _ Hi Hn) in Hr. set (s' := (_, _) : world).
  pose proof (counts_set s key n it {| inode := inode it; item_size := item_size it; atime := now; refs := u32 (refs it + 1) |} _ _ s' Hwf Hi Hn eq_refl eq_refl) as Hc. cbn [refs] in Hc.
  rewrite wrap_small in Hc by (unfold in_range; lia). by replace (refs it + 1 - refs it) with 1 in Hc by lia.
Qed.

Lemma Find_counts key pin now s found s' :
  wf (index s.1) -> stop s.1 = false -> 0 <= refs_at key (index s.1) < 2 ^ 32 - 1 -> Find key pin now s = Some (found, s') ->
  counts key (if (found && pin)%bool then 1 else 0) s s' /\ s'.2 = s.2 /\
  (found = false -> item_at key (index s.1) = None /\ s' = s) /\ (found = true -> is_Some (item_at key (index s.1))).
Proof.
  intros Hwf Hs Hr E. unfold Find in E. apply act_bind_inv in E as (c & s1 & [= <- <-] & E). rewrite Hs in E.
  apply act_bind_inv in E as (elem & s1 & [= <- <-] & E). destruct (inodeToCacheIter (index s.1) !! key) as [n|] eqn:Hi.
  - apply act_bind_inv in E as (u & s1 & E1 & [= <- <-]). destruct (wf_iter_Some _ Hwf _ _ Hi) as (it & Hn & _).
    assert (is_Some (item_at key (index s.1))) by (exists it; unfold item_at; by rewrite Hi).
    destruct pin; cbn; [destruct (Pin_counts _ _ _ _ _ Hwf Hs Hr E1); by split_and!|].
    injection E1 as _ <-. split_and!; [by apply counts_same|done..].
  - injection E as <- <-. split_and!; [by apply counts_same|done| |done]. intros _. split; [|done]. unfold item_at. by rewrite Hi.
Qed.

Lemma Unpin_counts key s a s' :
  wf (index s.1) -> stop s.1 = false -> refs_at key (index s.1) < 2 ^ 32 -> Unpin key s = Some (a, s') ->
  counts key (if 0 <? refs_at key (index s.1) then -1 else 0) s s' /\ s'.2 = s.2.
Proof.
  intros Hwf Hs Hr E. unfold Unpin in E. apply act_bind_inv in E as (c & s1 & [= <- <-] & E). rewrite Hs in E.
  apply act_bind_inv in E as (elem & s1 & [= <- <-] & E). destruct (inodeToCacheIter (index s.1) !! key) as [n|] eqn:Hi.
  - apply act_bind_inv in E as (it & s1 & [Hn ->]%deref_inv & E). rewrite (refs_at_iter _ _ _ _ Hi Hn) in *.
    destruct (Z.gtb_spec (refs it) 0) as [Hp|Hp].
    + apply store_inv in E as ->. rewrite (proj2 (Z.ltb_lt _ _)) by lia. split; [|done].
      set (s' := (_, _) : world).
      pose proof (counts_set s key n it {| inode := inode it; item_size := item_size it; atime := atime it; refs := u32 (refs it - 1) |} _ _ s' Hwf Hi Hn eq_refl eq_refl) as Hc. cbn [refs] in Hc.
      rewrite wrap_small in Hc by (unfold in_range; lia). by replace (refs it - 1 - refs it) with (-1) in Hc by lia.
    + injection E as _ <-. rewrite (proj2 (Z.ltb_ge _ _)) by lia. split; [by apply counts_same|done].
  - injection E as _ <-. unfold refs_at, item_at. rewrite Hi. cbn. split; [by apply counts_same|done].
Qed.

(** A new size does not change the references. *)
Lemma resize_counts key n it delta size now s a s' :
  wf (index s.1) -> inodeToCacheIter (index s.1) !! key = Some n -> nodes (index s.1) !! n = Some it ->
  resize n it delta size now s = Some (a, s') -> counts key 0 s s' /\ s'.2 = s.2.
Proof.
  intros Hwf Hi Hn E. unfold resize in E. apply act_bind_inv in E as (u & s1 & [= <- <-] & ->%store_inv). split; [|done].
  set (s' := (_, _) : world).
  pose proof (counts_set s key n it {| inode := inode it; item_size := size; atime := now; refs := refs it |} _ _ s' Hwf Hi Hn eq_refl eq_refl) as Hc.
  cbn [refs] in Hc. by rewrite Z.sub_diag in Hc.
Qed.

Lemma Update_counts key size now s b s' :
  wf (index s.1) -> Update key size now s = Some (b, s') -> counts key 0 s s' /\ s'.2 = s.2.
Proof.
  intros Hwf E. unfold Update in E. apply act_bind_inv in E as (c & s1 & [= <- <-] & E).
  assert (counts key 0 s s /\ s.2 = s.2) as Hrefl by (split; [by apply counts_same|done]).
  destruct (stop s.1); [by injection E as _ <-|]. apply act_bind_inv in E as (elem & s1 & [= <- <-] & E).
  destruct (inodeToCacheIter (index s.1) !! key) as [n|] eqn:Hi; [|by injection E as _ <-].
  apply act_bind_inv in E as (it & s1 & [Hn ->]%deref_inv & E). case_match; [by injection E as _ <-|].
  apply act_bind_inv in E as (u & s1 & E1 & [= _ <-]). by eapply resize_counts.
Qed.

Lemma Add_counts key size now s b s' :
  wf (index s.1) -> Add key size now s = Some (b, s') -> counts key 0 s s' /\ s'.2 = s.2.
Proof.
  intros Hwf E. unfold Add in E. apply act_bind_inv in E as (c & s1 & [= <- <-] & E).
  assert (counts key 0 s s /\ s.2 = s.2) as Hrefl by (split; [by apply counts_same|done]).
  destruct (stop s.1); [by injection E as _ <-|]. apply act_bind_inv in E as (elem & s1 & [= <- <-] & E).
  destruct (inodeToCacheIter (index s.1) !! key) as [n|] eqn:Hi; [|by injection E as _ <-].
  apply act_bind_inv in E as (it & s1 & [Hn ->]%deref_inv & E). apply act_bind_inv in E as (u & s1 & E1 & [= _ <-]). by eapply resize_counts.
Qed.

Lemma item_at_insert ix it k : wf ix -> inodeToCacheIter ix !! inode it = None ->
  item_at k (set_iter (inode it) (next_node ix) (emplace_back it ix)) = if decide (k = inode it) then Some it else item_at k ix.
Proof.
  intros Hwf Hi. unfold item_at. cbn. case_decide as Hk; [subst; rewrite lookup_insert_eq; cbn; by rewrite lookup_insert_eq|].
  rewrite lookup_insert_ne by done. destruct (inodeToCacheIter ix !! k) as [m|] eqn:Ek; [|done]. cbn. rewrite lookup_insert_ne; [done|].
  intros <-. destruct (wf_iter_Some _ Hwf _ _ Ek) as (it1 & E1 & _ & _). 
  assert (next_node ix ∈ cacheItems ix) as Hin%(wf_next _ Hwf) by (apply (wf_nodes _ Hwf); eauto). lia.
Qed.

(** InsertAndUpdate pins an item only when it brings it in. *)
Lemma InsertAndUpdate_counts key size pin now s a s' :
  wf (index s.1) -> stop s.1 = false -> InsertAndUpdate key size pin now s = Some (a, s') ->
  counts key (if (pin && bool_decide (item_at key (index s.1) = None))%bool then 1 else 0) s s' /\ s'.2 = s.2.
Proof.
  intros Hwf Hs E. unfold InsertAndUpdate in E. apply act_bind_inv in E as (c & s1 & [= <- <-] & E). rewrite Hs in E.
  apply act_bind_inv in E as (elem & s1 & [= <- <-] & E). destruct (inodeToCacheIter (index s.1) !! key) as [n|] eqn:Hi.
  - apply act_bind_inv in E as (it & s1 & [Hn ->]%deref_inv & E). rewrite bool_decide_false, andb_false_r; [by eapply resize_counts|].
    unfold item_at. by rewrite Hi; cbn; rewrite Hn.
  - rewrite bool_decide_true by (unfold item_at; by rewrite Hi). rewrite andb_true_r.
    apply act_bind_inv in E as (u & s1 & [= <- <-] & E). set (it := {| inode := key; item_size := size; atime := now; refs := 0 |}) in E.
    set (s1 := (_, _) : world) in E.
    assert (counts key 0 s s1) as H1.
    { split; cbn; [by apply (wf_insert _ Hwf it)|done|]. intros k. unfold refs_at. rewrite (item_at_insert _ it) by done.
      cbn. case_decide as Hk; [subst; unfold item_at; by rewrite Hi|lia]. }
    destruct pin; [|injection E as _ <-; by split].
    assert (refs_at key (index s1.1) = 0) as Er by (rewrite (ct_refs _ _ _ _ H1); unfold refs_at, item_at; rewrite Hi; by case_decide).
    destruct (Pin_counts key now s1 _ _ (ct_wf _ _ _ _ H1) Hs ltac:(rewrite Er; lia) E) as [H2 E2]. split; [|done].
    by apply (counts_trans key 0 1 s s1 s').
Qed.

End pins.
