(* ===== verification/StoreNode.v ===== *)
(** * The nodes that hold the data

    falcon_store/src/connection/node.cpp: the map from node numbers to the address
    and the connection of a node, how a node is chosen for a file, and how the map
    follows the view of the cluster.  An unordered_map is the list of its entries
    in the order of iteration; where [emplace] puts an entry, and how it reorders
    the others, is a parameter ([NodeWorld]).  Erasing keeps the order, as the
    standard says.  Connections are parameters, too. *)

From S2P Require Import FalconPrelude.

(** ** Unordered maps *)

Fixpoint find {V} (k : Z) (l : list (Z * V)) : option V :=
  match l with
  | e :: l' => if decide (e.1 = k) then Some e.2 else find k l'
  | [] => None
  end.

Definition erase {V} (k : Z) (l : list (Z * V)) : list (Z * V) := filter (fun e => e.1 <> k) l.

(** [rehash] is the order of the entries after an insertion, [CreateIOConnection]
    the connection or null, [CheckConnection] the outcome of an attempt. *)
Class NodeWorld : Type := {
  conn : Type;
  rehash : forall V : Type, Z -> V -> list (Z * V) -> list (Z * V);
  CreateIOConnection : string -> option conn;
  CheckConnection : conn -> nat -> Z
}.

Class NodeLaws `{NodeWorld} : Prop := {
  rehash_perm (V : Type) k (v : V) l : rehash V k v l ≡ₚ (k, v) :: l
}.

Definition CONNECTION_RETRY_NUM : nat := 300.

(** std::views::split: the parts between the separators, none of an empty string. *)
Fixpoint split_at (sep : Ascii.ascii) (s : string) : list string :=
  match s with
  | EmptyString => [EmptyString]
  | String c s' =>
      if decide (c = sep) then EmptyString :: split_at sep s'
      else match split_at sep s' with [] => [String c EmptyString] | p :: ps => String c p :: ps end
  end.
Definition views_split (sep : Ascii.ascii) (s : string) : list string :=
  match s with EmptyString => [] | _ => split_at sep s end.

Definition COLON : Ascii.ascii := Ascii.Ascii false true false true true true false false.
Definition COMMA : Ascii.ascii := Ascii.Ascii false false true true false true false false.

(** The text before the first colon, or all of it. *)
Fixpoint SplitIp (ipPort : string) : string :=
  match ipPort with
  | EmptyString => EmptyString
  | String c s => if decide (c = COLON) then EmptyString else String c (SplitIp s)
  end.

Definition hash64 (x : Z) : Z :=
  let x := u64 (Z.lxor x (Z.shiftr x 30) * 0xbf58476d1ce4e5b9) in
  let x := u64 (Z.lxor x (Z.shiftr x 27) * 0x94d049bb133111eb) in
  Z.lxor x (Z.shiftr x 31).

Section node.

Context `{NodeWorld}.

Definition emplace {V} (k : Z) (v : V) (l : list (Z * V)) : list (Z * V) :=
  match find k l with Some _ => l | None => rehash V k v l end.

Record StoreNode : Type := {
  initStatus : Z;
  nodeId : Z;
  nodeMap : list (Z * (string * conn))
}.

Definition set_nodeMap (m : list (Z * (string * conn))) (s : StoreNode) : StoreNode :=
  {| initStatus := initStatus s; nodeId := nodeId s; nodeMap := m |}.

(** The attempts to connect: whether one of at most [n] that are left succeeds. *)
Fixpoint connect_loop (c : conn) (retry_num n : nat) : bool :=
  match n with
  | O => false
  | S n' => if decide (CheckConnection c retry_num = 0) then true else connect_loop c (S retry_num) n'
  end.

(** One address of the view; [None]: the connection is null and is used. *)
Definition add_endpoint (i : Z) (rpcEndPoint : string) (s : StoreNode) : option StoreNode :=
  c ← CreateIOConnection rpcEndPoint;
  mret (if connect_loop c 0 CONNECTION_RETRY_NUM then set_nodeMap (emplace i (rpcEndPoint, c) (nodeMap s)) s
        else {| initStatus := 1; nodeId := nodeId s; nodeMap := nodeMap s |}).

Fixpoint add_endpoints (i : Z) (l : list string) (s : StoreNode) : option StoreNode :=
  match l with
  | [] => Some s
  | e :: l' => s' ← add_endpoint i e s; add_endpoints (i + 1) l' s'
  end.

Definition SetNodeConfig (initNodeId : Z) (clusterView : string) (s : StoreNode) : option (Z * StoreNode) :=
  s' ← add_endpoints 0 (views_split COMMA clusterView) {| initStatus := 0; nodeId := initNodeId; nodeMap := nodeMap s |};
  mret (initStatus s', s').

(** The first loop of UpdateNodeConfigByValue: what to delete, and what is left of
    the new view. *)
Fixpoint compare_nodes (m : list (Z * (string * conn))) (zk : list (Z * string)) (toDel : list Z) : list Z * list (Z * string) :=
  match m with
  | [] => (toDel, zk)
  | (k, (host, _)) :: m' =>
      match find k zk with
      | None => compare_nodes m' zk (toDel ++ [k])
      | Some host' =>
          if decide (SplitIp host <> SplitIp host') then compare_nodes m' zk (toDel ++ [k])
          else compare_nodes m' (erase k zk) toDel
      end
  end.

Fixpoint add_nodes (zk : list (Z * string)) (m : list (Z * (string * conn))) : list (Z * (string * conn)) :=
  match zk with
  | [] => m
  | (k, host) :: zk' =>
      match CreateIOConnection host with
      | None => add_nodes zk' m
      | Some c => add_nodes zk' (emplace k (host, c) m)
      end
  end.

Definition UpdateNodeConfigByValue (zkStoreNodes : list (Z * string)) (s : StoreNode) : StoreNode :=
  let '(toDel, zk) := compare_nodes (nodeMap s) zkStoreNodes [] in
  set_nodeMap (add_nodes zk (foldl (fun m k => erase k m) (nodeMap s) toDel)) s.

(** [fetched] is what FetchStoreNodes returned. *)
Definition UpdateNodeConfig (fetched : Z * list (Z * string)) (s : StoreNode) : Z * StoreNode :=
  if decide (fetched.1 <> 0) then (fetched.1, s) else (fetched.1, UpdateNodeConfigByValue fetched.2 s).

Definition Delete (s : StoreNode) : StoreNode := set_nodeMap [] s.

Definition GetRpcConnection (id : Z) (s : StoreNode) : option conn := snd <$> find id (nodeMap s).

Definition GetNodeId (s : StoreNode) : Z := nodeId s.

(** The first node, in the order of the map, with this address. *)
Definition GetNodeId_ip (ipPort : string) (s : StoreNode) : Z :=
  match list_find (fun e => SplitIp e.2.1 = SplitIp ipPort) (nodeMap s) with
  | Some (_, e) => e.1
  | None => -1
  end.

Definition IsLocal (otherNodeId : Z) (s : StoreNode) : bool := bool_decide (nodeId s = otherNodeId).

Definition IsLocal_ip (ipPort : string) (s : StoreNode) : bool :=
  match find (nodeId s) (nodeMap s) with
  | None => false
  | Some (host, _) => bool_decide (SplitIp ipPort = SplitIp host)
  end.

Definition GetRpcEndPoint (id : Z) (s : StoreNode) : string := default EmptyString (fst <$> find id (nodeMap s)).

(** [random] is the value of GenerateRandom; [None]: the iterator is advanced past
    the end. *)
Definition GetBackupNodeId (random : Z) (s : StoreNode) : option Z :=
  let i := Z.to_nat random in
  e ← nodeMap s !! i;
  if decide (nodeId s = e.1) then
    match nodeMap s !! S i with Some e' => Some e'.1 | None => fst <$> head (nodeMap s) end
  else Some e.1.

Definition GetNumberofAllNodes (s : StoreNode) : Z := s32 (Z.of_nat (length (nodeMap s))).

Definition AllocNode (inodeId : Z) (s : StoreNode) : Z :=
  match nodeMap s with
  | [] => nodeId s
  | _ =>
      let index := s32 (hash64 inodeId `mod` Z.of_nat (length (nodeMap s))) in
      default (-1) (fst <$> nodeMap s !! Z.to_nat index)
  end.

Fixpoint after {V} (k : Z) (l : list (Z * V)) : option (option Z) :=
  match l with
  | [] => None
  | (k', _) :: l' => if decide (k' = k) then Some (fst <$> head l') else after k l'
  end.

Definition GetNextNode (id inodeId : Z) (s : StoreNode) : Z :=
  match nodeMap s with
  | [] => id
  | e :: _ =>
      match after id (nodeMap s) with
      | None => AllocNode inodeId s
      | Some (Some k) => k
      | Some None => e.1
      end
  end.

Definition DeleteNode (id : Z) (s : StoreNode) : StoreNode := set_nodeMap (erase id (nodeMap s)) s.

Definition GetAllNodeId (s : StoreNode) : list Z := (nodeMap s).*1.

End node.

Arguments StoreNode {_}.

(** ** Lookups *)

Lemma find_elem {V} k (v : V) l : NoDup l.*1 -> find k l = Some v <-> (k, v) ∈ l.
Proof.
  induction l as [|[k' v'] l IH]; cbn; intros Hnd; [split; [done|by intros ?%elem_of_nil]|].
  apply NoDup_cons in Hnd as [Hn Hnd]. rewrite elem_of_cons. case_decide as E.
  - subst. split; [intros [= ->]; by left|]. intros [[= ->]|Hin]; [done|]. by destruct Hn; apply (list_elem_of_fmap_2 fst) in Hin.
  - rewrite IH by done. split; [by right|]. intros [[= -> ->]|]; done.
Qed.

Lemma find_None {V} k (l : list (Z * V)) : find k l = None <-> k ∉ l.*1.
Proof.
  induction l as [|[k' v'] l IH]; cbn; [split; [intros _; apply not_elem_of_nil|done]|].
  rewrite not_elem_of_cons. case_decide; [subst; naive_solver|]. rewrite IH. naive_solver.
Qed.

Lemma find_perm {V} k (l l' : list (Z * V)) : NoDup l.*1 -> l ≡ₚ l' -> find k l = find k l'.
Proof.
  intros Hnd Hp. assert (NoDup l'.*1) by (by rewrite <-Hp). destruct (find k l') as [v|] eqn:E.
  - apply find_elem; [done|]. rewrite Hp. by apply find_elem.
  - rewrite find_None in *. by rewrite Hp.
Qed.

Lemma find_erase {V} k k' (l : list (Z * V)) : find k (erase k' l) = if decide (k = k') then None else find k l.
Proof.
  unfold erase. induction l as [|[k1 v] l IH]; [by case_decide|].
  rewrite filter_cons. cbn [find fst]. repeat case_decide; cbn; subst; try done; by repeat case_decide.
Qed.

Lemma NoDup_erase {V} k (l : list (Z * V)) : NoDup l.*1 -> NoDup (erase k l).*1.
Proof.
  unfold erase. induction l as [|[k1 v] l IH]; [done|]. rewrite fmap_cons. intros [Hn Hnd]%NoDup_cons. rewrite filter_cons. case_decide; [|by auto].
  cbn. apply NoDup_cons. split; [|by auto]. intros Hin. apply Hn. apply list_elem_of_fmap in Hin as (e & -> & Hin).
  apply list_elem_of_filter in Hin as [_ Hin]. cbn; by apply (list_elem_of_fmap_2 fst).
Qed.

Lemma foldl_erase {V} (ks : list Z) (l : list (Z * V)) : NoDup l.*1 ->
  NoDup (foldl (fun m k => erase k m) l ks).*1 /\
  forall k, find k (foldl (fun m k => erase k m) l ks) = if decide (k ∈ ks) then None else find k l.
Proof.
  revert l. induction ks as [|k' ks IH]; intros l Hnd; cbn; [split; [done|]; intros k; by rewrite decide_False by apply not_elem_of_nil|].
  destruct (IH (erase k' l) (NoDup_erase _ _ Hnd)) as [H1 H2]. split; [done|]. intros k. rewrite H2, find_erase.
  destruct (decide (k ∈ ks)), (decide (k = k')), (decide (k ∈ k' :: ks)); set_solver.
Qed.

Section nodes.

Context `{NodeLaws}.

Lemma emplace_wf {V} k (v : V) l : NoDup l.*1 -> NoDup (emplace k v l).*1.
Proof.
  intros Hnd. unfold emplace. destruct (find k l) eqn:E; [done|]. rewrite rehash_perm. cbn. apply NoDup_cons. by rewrite <-find_None.
Qed.

Lemma find_emplace {V} k (v : V) k' l : NoDup l.*1 ->
  find k' (emplace k v l) = if decide (k' = k) then Some (default v (find k l)) else find k' l.
Proof.
  intros Hnd. pose proof (emplace_wf k v l Hnd) as Hnd'. unfold emplace in *. destruct (find k l) as [w|] eqn:E; [by case_decide; subst|].
  rewrite (find_perm k' _ ((k, v) :: l)) by (done || apply rehash_perm). cbn. destruct (decide (k = k')), (decide (k' = k)); by subst.
Qed.

(** What the first loop keeps: the nodes of the map whose address is the one of the
    view leave the view, the others are deleted. *)
Lemma compare_nodes_spec (m : list (Z * (string * conn))) : forall zk toDel, NoDup m.*1 -> NoDup zk.*1 -> (forall k, k ∈ m.*1 -> k ∉ toDel) ->
  let r := compare_nodes m zk toDel in
  NoDup r.2.*1 /\
  (forall k, k ∈ r.1 <-> k ∈ toDel \/ exists h c, find k m = Some (h, c) /\ forall h', find k zk = Some h' -> SplitIp h <> SplitIp h') /\
  (forall k, find k r.2 = match find k m with
     | Some (h, _) => match find k zk with Some h' => if decide (SplitIp h = SplitIp h') then None else Some h' | None => None end
     | None => find k zk end).
Proof.
  induction m as [|[k0 [h c]] m IH]; intros zk toDel Hm Hzk Hd; cbn; [split_and!; [done|naive_solver|done]|].
  apply NoDup_cons in Hm as [Hn Hm].
  assert (find k0 m = None) as Hk0 by (by apply find_None).
  destruct (find k0 zk) as [h'|] eqn:E; [destruct (decide (SplitIp h <> SplitIp h')) as [Hne|Heq]|].
  - destruct (IH zk (toDel ++ [k0]) Hm Hzk) as (H1 & H2 & H3); [set_solver|]. split_and!; [done| |].
    + intros k. rewrite H2, elem_of_app, list_elem_of_singleton. destruct (decide (k0 = k)) as [->|]; [|naive_solver].
      split; [intros _; right; exists h, c; split; [done|]; naive_solver|]. by auto.
    + intros k. rewrite H3. destruct (decide (k0 = k)) as [->|]; [|done]. rewrite Hk0, E. by rewrite decide_False.
  - destruct (IH (erase k0 zk) toDel Hm (NoDup_erase _ _ Hzk)) as (H1 & H2 & H3); [set_solver|].
    assert (SplitIp h = SplitIp h') by (by destruct (decide (SplitIp h = SplitIp h'))). split_and!; [done| |].
    + intros k. rewrite H2. setoid_rewrite find_erase. destruct (decide (k0 = k)) as [->|].
      * rewrite Hk0. split; [naive_solver|]. intros [?|(h1 & c1 & [= <- <-] & Hall)]; [by left|]. by destruct (Hall h').
      * by rewrite decide_False by done.
    + intros k. rewrite H3, find_erase. destruct (decide (k0 = k)) as [->|].
      * rewrite Hk0, E. by rewrite !decide_True.
      * by rewrite decide_False by done.
  - destruct (IH zk (toDel ++ [k0]) Hm Hzk) as (H1 & H2 & H3); [set_solver|]. split_and!; [done| |].
    + intros k. rewrite H2, elem_of_app, list_elem_of_singleton. destruct (decide (k0 = k)) as [->|]; [|naive_solver].
      split; [intros _; right; exists h, c; split; [done|]; naive_solver|]. by auto.
    + intros k. rewrite H3. destruct (decide (k0 = k)) as [->|]; [|done]. by rewrite Hk0, E.
Qed.

Lemma add_nodes_spec (zk : list (Z * string)) : forall m, NoDup zk.*1 -> NoDup m.*1 -> (forall k, is_Some (find k zk) -> find k m = None) ->
  NoDup (add_nodes zk m).*1 /\
  forall k, find k (add_nodes zk m) =
    match find k zk with Some h => (fun c => (h, c)) <$> CreateIOConnection h | None => find k m end.
Proof.
  induction zk as [|[k0 h] zk IH]; intros m Hzk Hm Hnew; cbn; [done|]. apply NoDup_cons in Hzk as [Hn Hzk].
  assert (find k0 zk = None) as Hk0 by (by apply find_None).
  assert (find k0 m = None) as Hk0m by (apply Hnew; cbn; by rewrite decide_True).
  assert (forall k, is_Some (find k zk) -> find k m = None /\ k <> k0) as Hnew'.
  { intros k Hk. assert (k <> k0) by (intros ->; rewrite Hk0 in Hk; by destruct Hk). split; [|done].
    apply Hnew. cbn. by rewrite decide_False. }
  destruct (CreateIOConnection h) as [c|] eqn:Ec.
  - destruct (IH (emplace k0 (h, c) m) Hzk (emplace_wf _ _ _ Hm)) as [H1 H2].
    { intros k Hk. rewrite find_emplace by done. destruct (Hnew' k Hk). by rewrite decide_False. }
    split; [done|]. intros k. rewrite H2, find_emplace by done. destruct (decide (k0 = k)) as [->|].
    + rewrite Hk0, decide_True by done. by rewrite Hk0m, Ec.
    + by rewrite decide_False by done.
  - destruct (IH m Hzk Hm) as [H1 H2]; [naive_solver|]. split; [done|]. intros k. rewrite H2.
    destruct (decide (k0 = k)) as [->|]; [|done]. by rewrite Hk0, Hk0m, Ec.
Qed.

(** After UpdateNodeConfigByValue the nodes are those of the view that was
    fetched: a node that the view does not have is gone, a node whose address is
    the same keeps its entry and its connection, every other node of the view has
    the new address with a new connection, or no entry when the connection could not be
    made; no node occurs twice. *)
Theorem UpdateNodeConfigByValue_correct zk s :
  NoDup zk.*1 -> NoDup (nodeMap s).*1 ->
  let s' := UpdateNodeConfigByValue zk s in
  NoDup (nodeMap s').*1 /\ nodeId s' = nodeId s /\
  forall k, find k (nodeMap s') =
    match find k zk with
    | None => None
    | Some host' =>
        match find k (nodeMap s) with
        | Some (host, c) =>
            if decide (SplitIp host = SplitIp host') then Some (host, c) else (fun c => (host', c)) <$> CreateIOConnection host'
        | None => (fun c => (host', c)) <$> CreateIOConnection host'
        end
    end.
Proof.
  intros Hzk Hm. unfold UpdateNodeConfigByValue.
  destruct (compare_nodes_spec (nodeMap s) zk [] Hm Hzk) as (H1 & H2 & H3); [intros ? _; apply not_elem_of_nil|].
  destruct (compare_nodes (nodeMap s) zk []) as [toDel zk']. cbn in *.
  destruct (foldl_erase toDel (nodeMap s) Hm) as [Hf1 Hf2].
  destruct (add_nodes_spec zk' _ H1 Hf1) as [Ha1 Ha2].
  { intros k [h Hk]. rewrite Hf2. case_decide as Hd; [done|]. rewrite H3 in Hk. destruct (find k (nodeMap s)) as [[h0 c0]|] eqn:E; [|done].
    destruct Hd. apply H2. right. exists h0, c0. split; [done|]. intros h' Hh. rewrite Hh in Hk. by case_decide. }
  split_and!; [done..|]. intros k. rewrite Ha2, H3, Hf2.
  destruct (find k (nodeMap s)) as [[h c]|] eqn:E, (find k zk) as [h'|] eqn:E'.
  - destruct (decide (SplitIp h = SplitIp h')) as [Heq|]; [|done]. rewrite decide_False; [done|].
    rewrite H2. intros [?%elem_of_nil|(h1 & c1 & ? & Hall)]; [done|]. simplify_eq. by apply (Hall h').
  - rewrite decide_True; [done|]. apply H2. right. naive_solver.
  - done.
  - by case_decide.
Qed.

(** ** Choosing a node *)

Lemma find_lookup {V} (l : list (Z * V)) i e : NoDup l.*1 -> l !! i = Some e -> find e.1 l = Some e.2.
Proof. intros Hnd Hi. apply find_elem; [done|]. rewrite <-surjective_pairing. by eapply list_elem_of_lookup_2. Qed.

(** While there are nodes, the node chosen for a file is one of them, so that
    there is a connection to it, and it depends on the inode number alone as long
    as the map does not change; when every node is gone it is the local one. *)
Theorem AllocNode_correct inodeId s :
  NoDup (nodeMap s).*1 -> Z.of_nat (length (nodeMap s)) < 2 ^ 31 ->
  match nodeMap s with
  | [] => AllocNode inodeId s = nodeId s
  | _ => exists i e, nodeMap s !! i = Some e /\ Z.of_nat i = hash64 inodeId `mod` Z.of_nat (length (nodeMap s)) /\
           AllocNode inodeId s = e.1 /\ GetRpcConnection (AllocNode inodeId s) s = Some e.2.2
  end.
Proof.
  intros Hnd Hlen. unfold AllocNode. destruct (nodeMap s) as [|e0 m] eqn:Em; [done|].
  set (n := hash64 inodeId `mod` Z.of_nat (length (e0 :: m))).
  assert (0 <= n < Z.of_nat (length (e0 :: m))) as Hn by (apply Z.mod_pos_bound; cbn; lia).
  assert (s32 n = n) as -> by (apply signed_small; unfold in_signed_range; lia).
  destruct (lookup_lt_is_Some_2 (e0 :: m) (Z.to_nat n)) as [e He]; [lia|]. exists (Z.to_nat n), e.
  rewrite He. change (default (-1) (fst <$> Some e)) with (fst e). split_and!; [done|lia|done|].
  unfold GetRpcConnection. rewrite Em, (find_lookup _ _ _ Hnd He). done.
Qed.

Lemma after_lookup {V} (l : list (Z * V)) : forall i e, NoDup l.*1 -> l !! i = Some e -> after e.1 l = Some (fst <$> l !! S i).
Proof.
  induction l as [|[k v] l IH]; intros i e Hnd Hi; [done|]. apply NoDup_cons in Hnd as [Hn Hnd].
  destruct i as [|i]; cbn in Hi.
  - injection Hi as <-. cbn. rewrite decide_True by done. by destruct l.
  - cbn [after]. rewrite decide_False; [by apply IH|]. intros ->. apply Hn. apply list_elem_of_lookup_2 in Hi. cbn. by apply (list_elem_of_fmap_2 fst).
Qed.

Lemma GetNextNode_lookup inodeId s i e :
  NoDup (nodeMap s).*1 -> nodeMap s !! i = Some e ->
  exists e', nodeMap s !! (S i mod length (nodeMap s))%nat = Some e' /\ GetNextNode e.1 inodeId s = e'.1.
Proof.
  intros Hnd Hi. pose proof (lookup_lt_Some _ _ _ Hi) as Hlt. unfold GetNextNode. destruct (nodeMap s) as [|e0 m] eqn:Em; [done|].
  rewrite (after_lookup _ _ _ Hnd Hi). destruct (decide (S i = length (e0 :: m))) as [Hlast|].
  - rewrite Hlast, Nat.Div0.mod_same. exists e0. split; [done|]. by rewrite (proj2 (lookup_ge_None (e0 :: m) (length (e0 :: m)))).
  - rewrite Nat.mod_small by lia. destruct (lookup_lt_is_Some_2 (e0 :: m) (S i)) as [e' He']; [lia|]. exists e'. by rewrite He'.
Qed.

(** Going from node to node with GetNextNode, every node is met before the
    first one comes again. *)
Theorem GetNextNode_visits_all inodeId s k k' :
  NoDup (nodeMap s).*1 -> k ∈ (nodeMap s).*1 -> k' ∈ (nodeMap s).*1 ->
  exists j, (j < length (nodeMap s))%nat /\ Nat.iter j (fun id => GetNextNode id inodeId s) k = k'.
Proof.
  intros Hnd [i Hi]%list_elem_of_lookup [i' Hi']%list_elem_of_lookup.
  rewrite list_lookup_fmap in Hi, Hi'. destruct (nodeMap s !! i) as [e|] eqn:E; [|done]. destruct (nodeMap s !! i') as [e'|] eqn:E'; [|done].
  cbn in *. simplify_eq. pose proof (lookup_lt_Some _ _ _ E) as Hlt. pose proof (lookup_lt_Some _ _ _ E') as Hlt'.
  assert (forall j, exists e1, nodeMap s !! ((i + j) mod length (nodeMap s))%nat = Some e1 /\
    Nat.iter j (fun id => GetNextNode id inodeId s) e.1 = e1.1) as Hj.
  { induction j as [|j (e1 & H1 & H2)]; [exists e; by rewrite Nat.add_0_r, Nat.mod_small|]. rewrite Nat.iter_succ, H2.
    destruct (GetNextNode_lookup inodeId s _ e1 Hnd H1) as (e2 & H3 & H4). exists e2. split; [|done]. rewrite <-H3. f_equal.
    rewrite <-(Nat.add_1_r (_ mod _)), Nat.Div0.add_mod_idemp_l. f_equal. lia. }
  exists (if decide (i <= i')%nat then i' - i else length (nodeMap s) + i' - i)%nat. case_decide as Hle.
  - split; [lia|]. destruct (Hj (i' - i)%nat) as (e1 & H1 & H2). rewrite H2.
    replace (i + (i' - i))%nat with i' in H1 by lia. rewrite Nat.mod_small in H1 by done. by simplify_eq.
  - split; [lia|]. destruct (Hj (length (nodeMap s) + i' - i)%nat) as (e1 & H1 & H2). rewrite H2.
    replace (i + (length (nodeMap s) + i' - i))%nat with (i' + 1 * length (nodeMap s))%nat in H1 by lia.
    rewrite Nat.Div0.mod_add, Nat.mod_small in H1 by done. by simplify_eq.
Qed.

(** ** The nodes of the configuration *)

(** The connection to an address answers within the attempts. *)
Definition connects (host : string) : bool :=
  match CreateIOConnection host with Some c => connect_loop c 0 CONNECTION_RETRY_NUM | None => false end.

Lemma add_endpoints_spec es : forall i s, NoDup (nodeMap s).*1 -> (forall k, i <= k -> find k (nodeMap s) = None) ->
  Forall (fun e => is_Some (CreateIOConnection e)) es ->
  exists s', add_endpoints i es s = Some s' /\ nodeId s' = nodeId s /\ NoDup (nodeMap s').*1 /\
    initStatus s' = (if forallb connects es then initStatus s else 1) /\
    (forall k, k < i -> find k (nodeMap s') = find k (nodeMap s)) /\
    (forall n e, es !! n = Some e ->
       find (i + Z.of_nat n) (nodeMap s') = if connects e then (fun c => (e, c)) <$> CreateIOConnection e else None).
Proof.
  induction es as [|e es IH]; intros i s Hnd Hnew Hall; cbn [add_endpoints forallb].
  { exists s. split_and!; try done. }
  apply Forall_cons in Hall as [[c Hc] Hall]. unfold add_endpoint. rewrite Hc. cbn [mbind option_bind mret option_ret].
  set (s1 := if connect_loop c 0 CONNECTION_RETRY_NUM then _ else _).
  assert (connects e = connect_loop c 0 CONNECTION_RETRY_NUM) as Hce by (unfold connects; by rewrite Hc).
  assert (NoDup (nodeMap s1).*1) as Hnd1 by (unfold s1; destruct (connect_loop _ _ _); cbn; [by apply emplace_wf|done]).
  assert (forall k, find k (nodeMap s1) = if decide (k = i) then (if connects e then Some (e, c) else None) else find k (nodeMap s)) as Hf1.
  { intros k. rewrite Hce. unfold s1. destruct (connect_loop _ _ _); cbn.
    - rewrite find_emplace by done. case_decide; [|done]. by rewrite Hnew by lia.
    - case_decide; [|done]. subst. by apply Hnew. }
  destruct (IH (i + 1) s1 Hnd1) as (s' & E & H1 & H2 & H3 & H4 & H5); [|done|].
  { intros k Hk. rewrite Hf1, decide_False by lia. apply Hnew. lia. }
  exists s'. split_and!; [done| |done| | |].
  - rewrite H1. unfold s1. by destruct (connect_loop _ _ _).
  - rewrite H3, Hce. unfold s1. by destruct (connect_loop _ _ _), (forallb connects es).
  - intros k Hk. rewrite H4, Hf1, decide_False by lia. done.
  - intros [|n] e' Hn; cbn in Hn; simplify_eq.
    + rewrite Z.add_0_r, H4, Hf1, decide_True by lia. rewrite Hc. by destruct (connects e').
    + rewrite <-(H5 n e' Hn). f_equal. lia.
Qed.

(** SetNodeConfig with a list of addresses returns 0 exactly when every one of
    them answers within 300 attempts; node [n] of the map is then the address at
    position [n] of the list, and an address that does not answer has no entry. *)
Theorem SetNodeConfig_correct initNodeId clusterView s :
  nodeMap s = [] -> Forall (fun e => is_Some (CreateIOConnection e)) (views_split COMMA clusterView) ->
  exists ret s', SetNodeConfig initNodeId clusterView s = Some (ret, s') /\ nodeId s' = initNodeId /\
    (ret = 0 <-> forall e, e ∈ views_split COMMA clusterView -> connects e = true) /\
    forall n e, views_split COMMA clusterView !! n = Some e ->
      find (Z.of_nat n) (nodeMap s') = if connects e then (fun c => (e, c)) <$> CreateIOConnection e else None.
Proof.
  intros Hs Hall. unfold SetNodeConfig.
  destruct (add_endpoints_spec (views_split COMMA clusterView) 0 {| initStatus := 0; nodeId := initNodeId; nodeMap := nodeMap s |})
    as (s' & E & H1 & _ & H3 & _ & H5); [cbn; rewrite Hs; constructor|cbn; by rewrite Hs|done|].
  rewrite E. cbn [mbind option_bind mret option_ret]. exists (initStatus s'), s'. split_and!; [done|done| |exact H5].
  rewrite H3. cbn. destruct (forallb connects (views_split COMMA clusterView)) eqn:Eb.
  - split; [|done]. intros _ e He. rewrite forallb_forall in Eb. apply Eb. by apply list_elem_of_In.
  - split; [done|]. intros Ha. apply not_true_iff_false in Eb. destruct Eb. apply forallb_forall. intros e He. apply Ha. by apply list_elem_of_In.
Qed.

End nodes.

(** ** Three nodes *)

Module Demo.

(** New entries come first; an address without text gives no connection; the
    connection to 10.0.0.9 never answers, the others at the second attempt. *)
#[export] Instance demo_nodes : NodeWorld := {|
  conn := string;
  rehash V k v l := (k, v) :: l;
  CreateIOConnection h := match h with EmptyString => None | _ => Some h end;
  CheckConnection c n := if decide (SplitIp c = "10.0.0.9") then 1 else match n with O => 1 | _ => 0 end
|}%string.

#[export] Instance demo_laws : NodeLaws.
Proof. split. done. Qed.

Definition no_nodes : StoreNode := {| initStatus := 0; nodeId := 0; nodeMap := [] |}.
Definition view : string := "10.0.0.1:56,10.0.0.2:56,10.0.0.3:56".
Definition three : StoreNode := (default (1, no_nodes) (SetNodeConfig 1 view no_nodes)).2.

Lemma three_nodes : NoDup (nodeMap three).*1 /\ (nodeMap three).*1 = [2; 1; 0].
Proof. split; [apply (bool_decide_unpack _)|]; vm_compute; done. Qed.

Lemma SetNodeConfig_correct_witness :
  exists ret s', SetNodeConfig 1 view no_nodes = Some (ret, s') /\ nodeId s' = 1 /\
    (ret = 0 <-> forall e, e ∈ views_split COMMA view -> connects e = true) /\
    find 2 (nodeMap s') = Some ("10.0.0.3:56", "10.0.0.3:56")%string.
Proof.
  destruct (SetNodeConfig_correct 1 view no_nodes) as (ret & s' & E & H1 & H2 & H3); [done|apply (bool_decide_unpack _); by vm_compute|].
  exists ret, s'. split_and!; [done..|]. apply (H3 2%nat "10.0.0.3:56"%string). by vm_compute.
Defined.

(** The view loses node 0, node 1 moves, node 2 keeps its address but not its port,
    node 5 is new. *)
Definition new_view : list (Z * string) := [(1, "10.0.0.7:56"); (2, "10.0.0.3:99"); (5, "10.0.0.5:56")]%string.

Lemma UpdateNodeConfigByValue_correct_witness :
  NoDup (nodeMap (UpdateNodeConfigByValue new_view three)).*1 /\
  find 0 (nodeMap (UpdateNodeConfigByValue new_view three)) = None /\
  find 1 (nodeMap (UpdateNodeConfigByValue new_view three)) = Some ("10.0.0.7:56", "10.0.0.7:56")%string /\
  find 2 (nodeMap (UpdateNodeConfigByValue new_view three)) = Some ("10.0.0.3:56", "10.0.0.3:56")%string.
Proof.
  destruct (UpdateNodeConfigByValue_correct new_view three) as (H1 & _ & H3);
    [by apply (bool_decide_unpack _); vm_compute|apply three_nodes|].
  split_and!; [done|by rewrite (H3 0)|by rewrite (H3 1)|by rewrite (H3 2)].
Defined.

Lemma AllocNode_correct_witness :
  AllocNode 12345 three = 2 /\
  exists i e, nodeMap three !! i = Some e /\ Z.of_nat i = hash64 12345 `mod` Z.of_nat (length (nodeMap three)) /\
    AllocNode 12345 three = e.1 /\ GetRpcConnection (AllocNode 12345 three) three = Some e.2.2.
Proof. split; [by vm_compute|]. exact (AllocNode_correct 12345 three (proj1 three_nodes) eq_refl). Defined.

Lemma GetNextNode_visits_all_witness :
  exists j, (j < length (nodeMap three))%nat /\ Nat.iter j (fun id => GetNextNode id 7 three) 1 = 2.
Proof. apply (GetNextNode_visits_all 7 three 1 2); [apply three_nodes|apply (bool_decide_unpack _); by vm_compute..]. Defined.

End Demo.
