(* ===== verification/IoClient.v ===== *)
(** * The client of the data nodes

    falcon_store/src/connection/falcon_io_client.cpp over the messages of
    remote_connection_def/brpc_io.proto: a call fails in the network, or it brings a
    reply and its attachment, and the client turns both into one number.  The stubs
    of brpc are parameters ([Brpc]), as are the codes of its errors. *)

From S2P Require Import FalconPrelude DiskCache StoreNode.

Definition EPERM : Z := 1.
Definition ENOENT : Z := 2.
Definition EIO : Z := 5.
Definition EBADF : Z := 9.
Definition EAGAIN : Z := 11.
Definition ENOMEM : Z := 12.
Definition EFAULT : Z := 14.
Definition EINVAL : Z := 22.
Definition ENOSPC : Z := 28.
Definition EOPNOTSUPP : Z := 95.
Definition ETIMEDOUT : Z := 110.
Definition EHOSTUNREACH : Z := 113.

(** ** The messages *)

Record OpenRequest : Type := {
  or_path : string;
  or_inode_id : Z;
  or_oflags : Z;
  or_size : Z;
  or_node_fail : bool
}.

Record OpenReply : Type := {
  or_error_code : Z;
  or_physical_fd : Z
}.

Record CloseRequest : Type := {
  cr_physical_fd : Z;
  cr_flush : bool;
  cr_sync : bool;
  cr_offset : Z
}.

Record ReadRequest : Type := {
  rr_path : string;
  rr_physical_fd : Z;
  rr_read_size : Z;
  rr_offset : Z
}.

Record ReadSmallFileRequest : Type := {
  rs_path : string;
  rs_inode_id : Z;
  rs_read_size : Z;
  rs_oflags : Z;
  rs_node_fail : bool
}.

Record WriteRequest : Type := {
  wr_physical_fd : Z;
  wr_offset : Z
}.

Record WriteReply : Type := {
  wr_error_code : Z;
  wr_write_size : Z
}.

Record DeleteRequest : Type := {
  dr_path : string;
  dr_inode_id : Z;
  dr_node_id : Z
}.

(** The fields of [struct StatFSBuf] and of StatFSReply. *)
Record StatFSBuf : Type := {
  fblocks : Z;
  fbfree : Z;
  fbavail : Z;
  ffiles : Z;
  fffree : Z
}.

(** TruncateOpenInstanceRequest and TruncateFileRequest. *)
Record TruncateRequest : Type := {
  tr_physical_fd : Z;
  tr_size : Z
}.

(** A call: the code of the controller when it failed, else the reply with the
    bytes attached to it. *)
Inductive rpc (A : Type) : Type :=
| Failed (ErrorCode : Z)
| Replied (response : A) (attachment : list Z).

Arguments Failed {_}.
Arguments Replied {_}.

(** The stubs; where a request has an attachment it is the second argument.  A
    reply with nothing but a code is the code.  brpc's codes are distinct, or the
    switch over them would not compile. *)
Class Brpc `{CacheFs} `{NodeWorld} : Type := {
  ENOSERVICE : Z;
  ENOMETHOD : Z;
  EREQUEST : Z;
  ERPCAUTH : Z;
  ERPCTIMEDOUT : Z;
  EFAILEDSOCKET : Z;
  brpc_codes : NoDup [0; ENOSERVICE; ENOMETHOD; EREQUEST; ERPCAUTH; ERPCTIMEDOUT; EFAILEDSOCKET];
  stub_OpenFile : conn -> OpenRequest -> fs -> rpc OpenReply * fs;
  stub_CloseFile : conn -> CloseRequest -> list Z -> fs -> rpc Z * fs;
  stub_ReadFile : conn -> ReadRequest -> fs -> rpc Z * fs;
  stub_ReadSmallFile : conn -> ReadSmallFileRequest -> fs -> rpc Z * fs;
  stub_WriteFile : conn -> WriteRequest -> list Z -> fs -> rpc WriteReply * fs;
  stub_DeleteFile : conn -> DeleteRequest -> fs -> rpc Z * fs;
  stub_StatFS : conn -> string -> fs -> rpc (Z * StatFSBuf) * fs;
  stub_TruncateOpenInstance : conn -> TruncateRequest -> fs -> rpc Z * fs;
  stub_TruncateFile : conn -> TruncateRequest -> fs -> rpc Z * fs;
  stub_CheckConnection : conn -> fs -> rpc Z * fs;
  stub_StatCluster : conn -> bool -> Z -> fs -> rpc (Z * list Z) * fs
}.

Section client.

Context `{Brpc}.

Definition BrpcErrorCodeToFuseErrno (brpcErrorCode : Z) : Z :=
  if decide (brpcErrorCode = 0) then 0
  else if decide (brpcErrorCode = ENOSERVICE \/ brpcErrorCode = ENOMETHOD) then EOPNOTSUPP
  else if decide (brpcErrorCode = EREQUEST) then EINVAL
  else if decide (brpcErrorCode = ERPCAUTH) then EPERM
  else if decide (brpcErrorCode = ERPCTIMEDOUT) then ETIMEDOUT
  else if decide (brpcErrorCode = EFAILEDSOCKET) then EIO
  else EFAULT.

(** A call that returns minus the error of the network or the code of the reply. *)
Definition code_only (r : rpc Z) : Z :=
  match r with
  | Failed code => - BrpcErrorCodeToFuseErrno code
  | Replied error_code _ => error_code
  end.

(** The result, and the new value of [physicalFd], which was [fd]. *)
Definition rpc_OpenFile (c : conn) (inodeId oflags fd originalSize : Z) (path : string) (nodeFail : bool) (f : fs) : (Z * Z) * fs :=
  let request := {| or_path := path; or_inode_id := inodeId; or_oflags := oflags; or_size := originalSize; or_node_fail := nodeFail |} in
  let '(r, f) := stub_OpenFile c request f in
  match r with
  | Failed code => ((BrpcErrorCodeToFuseErrno code, fd), f)
  | Replied response _ =>
      if decide (or_error_code response <> 0) then ((or_error_code response, fd), f) else ((0, or_physical_fd response), f)
  end.

Definition rpc_CloseFile (c : conn) (physicalFd : Z) (isFlush isSync : bool) (buf : list Z) (offset : Z) (f : fs) : Z * fs :=
  let request := {| cr_physical_fd := physicalFd; cr_flush := isFlush; cr_sync := isSync; cr_offset := u64 offset |} in
  let '(r, f) := stub_CloseFile c request buf f in (code_only r, f).

(** The result and the bytes that were put into the buffer. *)
Definition rpc_ReadFile (c : conn) (physicalFd bufferSize offset : Z) (path : string) (f : fs) : (Z * list Z) * fs :=
  let request := {| rr_path := path; rr_physical_fd := physicalFd; rr_read_size := bufferSize; rr_offset := u64 offset |} in
  let '(r, f) := stub_ReadFile c request f in
  match r with
  | Failed code => ((- BrpcErrorCodeToFuseErrno code, []), f)
  | Replied error_code attachment =>
      if decide (error_code <> 0) then ((error_code, []), f) else
      let retLen := s32 (Z.of_nat (length attachment)) in
      if bufferSize <? retLen then ((- EIO, []), f) else ((retLen, take (Z.to_nat (u64 retLen)) attachment), f)
  end.

Definition rpc_ReadSmallFile (c : conn) (inodeId size : Z) (path : string) (oflags : Z) (nodeFail : bool) (f : fs) : (Z * list Z) * fs :=
  let request := {| rs_path := path; rs_inode_id := inodeId; rs_read_size := u64 size; rs_oflags := oflags; rs_node_fail := nodeFail |} in
  let '(r, f) := stub_ReadSmallFile c request f in
  match r with
  | Failed code => ((BrpcErrorCodeToFuseErrno code, []), f)
  | Replied error_code attachment =>
      if decide (error_code <> 0) then ((error_code, []), f) else
      let retLen := s32 (Z.of_nat (length attachment)) in
      if decide (retLen <> size) then ((- EIO, []), f) else ((0, take (Z.to_nat (u64 retLen)) attachment), f)
  end.

Definition rpc_WriteFile (c : conn) (physicalFd : Z) (writeBuffer : list Z) (offset : Z) (f : fs) : Z * fs :=
  let '(r, f) := stub_WriteFile c {| wr_physical_fd := physicalFd; wr_offset := u64 offset |} writeBuffer f in
  match r with
  | Failed code => (- BrpcErrorCodeToFuseErrno code, f)
  | Replied response _ =>
      if decide (wr_error_code response <> 0) then (wr_error_code response, f) else
      let writedSize := s32 (wr_write_size response) in
      if decide (u64 writedSize <> Z.of_nat (length writeBuffer)) then (- EIO, f) else (0, f)
  end.

Definition rpc_DeleteFile (c : conn) (inodeId nodeId : Z) (path : string) (f : fs) : Z * fs :=
  let '(r, f) := stub_DeleteFile c {| dr_path := path; dr_inode_id := inodeId; dr_node_id := nodeId |} f in (code_only r, f).

(** The result, and what is in [fsBuf], which was [buf]. *)
Definition rpc_StatFS (c : conn) (path : string) (buf : StatFSBuf) (f : fs) : (Z * StatFSBuf) * fs :=
  let '(r, f) := stub_StatFS c path f in
  match r with
  | Failed code => ((- BrpcErrorCodeToFuseErrno code, buf), f)
  | Replied (error_code, response) _ =>
      if decide (error_code <> 0) then ((error_code, buf), f) else ((0, response), f)
  end.

Definition rpc_TruncateOpenInstance (c : conn) (physicalFd size : Z) (f : fs) : Z * fs :=
  let '(r, f) := stub_TruncateOpenInstance c {| tr_physical_fd := physicalFd; tr_size := u64 size |} f in (code_only r, f).

Definition rpc_TruncateFile (c : conn) (physicalFd size : Z) (f : fs) : Z * fs :=
  let '(r, f) := stub_TruncateFile c {| tr_physical_fd := physicalFd; tr_size := u64 size |} f in (code_only r, f).

Definition rpc_CheckConnection (c : conn) (f : fs) : Z * fs := let '(r, f) := stub_CheckConnection c f in (code_only r, f).

(** The result, and the new value of [stats]. *)
Definition rpc_StatCluster (c : conn) (nodeId : Z) (stats : list Z) (scatter : bool) (f : fs) : (Z * list Z) * fs :=
  let '(r, f) := stub_StatCluster c scatter nodeId f in
  match r with
  | Failed code => ((- BrpcErrorCodeToFuseErrno code, stats), f)
  | Replied (error_code, response) _ =>
      if decide (error_code <> 0) then ((error_code, stats), f) else ((0, u64 <$> response), f)
  end.

(** ** What the numbers mean *)

(** An error of the network is a positive errno: only success is 0, and only a
    timeout is ETIMEDOUT. *)
Lemma BrpcErrorCodeToFuseErrno_sign code :
  (BrpcErrorCodeToFuseErrno code = 0 <-> code = 0) /\ (code <> 0 -> 0 < BrpcErrorCodeToFuseErrno code) /\
  (BrpcErrorCodeToFuseErrno code = ETIMEDOUT <-> code = ERPCTIMEDOUT).
Proof.
  pose proof brpc_codes as Hn. rewrite !NoDup_cons in Hn. unfold BrpcErrorCodeToFuseErrno.
  repeat case_decide; subst; split_and!; try split; intros; subst; try done; try lia; set_solver.
Qed.

End client.
