(* ===== verification/WriteStream.v ===== *)
(** * The buffer of written data

    common/src/write_stream/stream_assembler.cpp and its header: writes to a file
    on another node are collected in one buffer of 256 KiB as long as each begins
    where the last one ended; a write to a file of this node goes to the cache of
    DiskCache.v at once.

    The calls to the other node are those of IoClient.v; pwrite and the memory pool
    are parameters ([StreamIO]; whether an allocation succeeds is an argument).  The operations run on the cache and
    the world outside of it ([act] of DiskCache.v).  WriteStream::Merge and the
    classes of slices it works on are not used by the program. *)

From S2P Require Import FalconPrelude DiskCache StoreNode IoClient.

Definition BRPC_RETRY_NUM : nat := 3.
Definition FALCON_STORE_STREAM_MAX_SIZE : Z := 256 * 1024.

(** [pwrite fd buf offset] returns the number of bytes or minus errno. *)
Class StreamIO : Type := {
  #[global] stream_cache :: CacheFs;
  #[global] stream_nodes :: NodeWorld;
  #[global] stream_brpc :: Brpc;
  pwrite : Z -> list Z -> Z -> fs -> Z * fs
}.

(** ** The buffer *)

(** [mem] is the block from the pool, as far as it was written, or null. *)
Record FixMemory : Type := {
  mem : option (list Z);
  fm_size : Z
}.

Definition capacity : Z := FALCON_STORE_STREAM_MAX_SIZE.

(** FixMemory::Append; [alloc] is whether the pool has a block. *)
Definition FixMemory_Append (alloc : bool) (buf : list Z) (m : FixMemory) : bool * FixMemory :=
  match (match mem m with Some b => Some b | None => if alloc then Some [] else None end) with
  | None => (false, m)
  | Some b =>
      let appendSize := Z.of_nat (length buf) in
      if capacity <? u64 (fm_size m + appendSize) then (false, {| mem := Some b; fm_size := fm_size m |})
      else
        let at_ := Z.to_nat (fm_size m) in
        (true, {| mem := Some (take at_ b ++ buf ++ drop (at_ + length buf) b); fm_size := u64 (fm_size m + appendSize) |})
  end.

Definition FixMemory_Clear (m : FixMemory) : FixMemory := {| mem := mem m; fm_size := 0 |}.

Record SerialData : Type := {
  buf : FixMemory;
  sd_size : Z;
  sd_offset : Z
}.

Definition new_SerialData : SerialData := {| buf := {| mem := None; fm_size := 0 |}; sd_size := 0; sd_offset := -1 |}.

Definition SerialData_Append (alloc : bool) (appendBuf : list Z) (appendOffset : Z) (d : SerialData) : bool * SerialData :=
  match FixMemory_Append alloc appendBuf (buf d) with
  | (false, m) => (false, {| buf := m; sd_size := sd_size d; sd_offset := sd_offset d |})
  | (true, m) =>
      (true, {| buf := m; sd_size := u64 (sd_size d + Z.of_nat (length appendBuf));
                sd_offset := if decide (sd_offset d = -1) then appendOffset else sd_offset d |})
  end.

Definition SerialData_Clear (d : SerialData) : SerialData := {| buf := FixMemory_Clear (buf d); sd_size := 0; sd_offset := -1 |}.
Definition SerialData_Empty (d : SerialData) : bool := bool_decide (sd_size d = 0).
Definition SerialData_End (d : SerialData) : Z :=
  u64 (sd_size d + (if decide (sd_offset d = -1) then 0 else sd_offset d)).

(** ** The stream *)

Section members.

Context `{NodeWorld}.

(** [client] is the connection to the node of the file, null when it is this one. *)
Record WriteStream : Type := {
  ws_physicalFd : Z;
  client : option conn;
  data : SerialData;
  ws_inodeId : Z;
  direct : bool
}.

Definition new_WriteStream : WriteStream :=
  {| ws_physicalFd := UINT64_MAX; client := None; data := new_SerialData; ws_inodeId := 0; direct := false |}.

Definition set_data (d : SerialData) (ws : WriteStream) : WriteStream :=
  {| ws_physicalFd := ws_physicalFd ws; client := client ws; data := d; ws_inodeId := ws_inodeId ws; direct := direct ws |}.

Definition SetFd (newPhysicalFd : Z) (ws : WriteStream) : Z * WriteStream :=
  if decide (ws_physicalFd ws <> UINT64_MAX /\ ws_physicalFd ws <> newPhysicalFd) then (- EBADF, ws)
  else (0, {| ws_physicalFd := newPhysicalFd; client := client ws; data := data ws; ws_inodeId := ws_inodeId ws; direct := direct ws |}).

Definition SetInodeId (newInodeId : Z) (ws : WriteStream) : WriteStream :=
  {| ws_physicalFd := ws_physicalFd ws; client := client ws; data := data ws; ws_inodeId := newInodeId; direct := direct ws |}.

Definition SetDirect (isDirect : bool) (ws : WriteStream) : WriteStream :=
  {| ws_physicalFd := ws_physicalFd ws; client := client ws; data := data ws; ws_inodeId := ws_inodeId ws; direct := isDirect |}.

Definition SetClient (falconIOClient : option conn) (ws : WriteStream) : WriteStream :=
  match falconIOClient with
  | Some c =>
      {| ws_physicalFd := ws_physicalFd ws; client := Some c; data := data ws; ws_inodeId := ws_inodeId ws; direct := direct ws |}
  | None => ws
  end.

Definition GetSize (ws : WriteStream) : Z := sd_size (data ws).

End members.

Arguments WriteStream {_}.

Section stream.

Context `{StreamIO}.

(** [now] and [during] are the time and the other threads of DiskCache.v. *)
Record ctx : Type := {
  now : Z;
  during : nat -> list op
}.

(** [for (i = 0; i < n && ret == -ETIMEDOUT; ++i) ret = m()] *)
Fixpoint rpc_retry (n : nat) (m : act Z) (ret : Z) : act Z :=
  match n with
  | O => mret ret
  | S n' => if decide (ret = - ETIMEDOUT) then r ← m; rpc_retry n' m r else mret ret
  end.

(** PersistToFile; [buf] is null or the bytes at the pointer. *)
Definition PersistToFile (ws : WriteStream) (buf : option (list Z)) (size offset currentSize : Z) (x : ctx) : act Z :=
  if size <=? 0 then mret 0 else
  match buf with
  | None => mret (- EINVAL)
  | Some b =>
      let bytes := take (Z.to_nat size) b in
      match client ws with
      | Some c => rpc_retry BRPC_RETRY_NUM (call (rpc_WriteFile c (ws_physicalFd ws) bytes offset)) (- ETIMEDOUT)
      | None =>
        let newSize := Z.max (u64 (offset + size)) currentSize in
        let sizeToAdd := u64 (newSize - currentSize) in
        granted ← PreAllocSpace sizeToAdd (during x);
        if negb granted then mret (- ENOSPC) else
        retSize ← call (pwrite (ws_physicalFd ws) bytes offset);
        if retSize <? 0 then _ ← FreePreAllocSpace sizeToAdd; mret retSize else
        added ← Add (ws_inodeId ws) sizeToAdd (now x);
        if negb added then _ ← FreePreAllocSpace sizeToAdd; mret (- ENOENT) else
        _ ← FreePreAllocSpace sizeToAdd; mret 0
      end
  end.

Definition Persist (ws : WriteStream) (currentSize : Z) (x : ctx) : act (Z * WriteStream) :=
  if decide (client ws = None /\ ws_physicalFd ws = UINT64_MAX) then mret (- EBADF, ws) else
  ret ← (if SerialData_Empty (data ws) then mret 0
         else PersistToFile ws (mem (buf (data ws))) (sd_size (data ws)) (sd_offset (data ws)) currentSize x);
  mret (ret, set_data (SerialData_Clear (data ws)) ws).

(** Push: [alloc] is the outcome of the allocation, if there is one. *)
Definition Push (ws : WriteStream) (b : list Z) (offset currentSize : Z) (alloc : bool) (x : ctx) : act (Z * WriteStream) :=
  let size := Z.of_nat (length b) in
  if size <=? 0 then mret (0, ws) else
  match client ws with
  | None =>
    if negb (direct ws) then ret ← PersistToFile ws (Some b) size offset currentSize x; mret (ret, ws)
    else if alloc then ret ← PersistToFile ws (Some b) size offset currentSize x; mret (ret, ws)
    else mret (- ENOMEM, ws)
  | Some _ =>
    first ← (if (negb (bool_decide (SerialData_End (data ws) = u64 offset)) || (FALCON_STORE_STREAM_MAX_SIZE <=? size))%bool
             then Persist ws currentSize x else mret (0, ws));
    let '(ret, ws) := first in
    if decide (ret <> 0) then mret (ret, ws) else
    if FALCON_STORE_STREAM_MAX_SIZE <=? size then
      ret ← PersistToFile ws (Some b) size offset currentSize x; mret (ret, ws)
    else
      second ← (if FALCON_STORE_STREAM_MAX_SIZE <? u64 (sd_size (data ws) + size) then Persist ws currentSize x else mret (0, ws));
      let '(ret, ws) := second in
      if decide (ret <> 0) then mret (ret, ws) else
      mret (0, set_data (SerialData_Append alloc b offset (data ws)).2 ws)
  end.

Definition Complete (ws : WriteStream) (currentSize : Z) (isFlush isSync : bool) (x : ctx) : act (Z * WriteStream) :=
  match client ws with
  | Some c =>
    if SerialData_Empty (data ws) then
      ret ← call (rpc_CloseFile c (ws_physicalFd ws) isFlush isSync [] 0); mret (ret, ws)
    else
      let bytes := take (Z.to_nat (sd_size (data ws))) (default [] (mem (buf (data ws)))) in
      ret ← rpc_retry BRPC_RETRY_NUM
              (call (rpc_CloseFile c (ws_physicalFd ws) isFlush isSync bytes (sd_offset (data ws)))) (- ETIMEDOUT);
      mret (ret, set_data (SerialData_Clear (data ws)) ws)
  | None => Persist ws currentSize x
  end.

(** A sequence of writes through the stream; each is its bytes, its offset and the
    size of the file at that time. *)
Fixpoint push_all (ws : WriteStream) (writes : list (list Z * Z * Z)) (x : ctx) : act (list Z * WriteStream) :=
  match writes with
  | [] => mret ([], ws)
  | (b, offset, currentSize) :: writes' =>
      r ← Push ws b offset currentSize true x;
      rs ← push_all r.2 writes' x;
      mret (r.1 :: rs.1, rs.2)
  end.

End stream.
