(* ===== verification/FileBytes.v ===== *)
(** * The contents of files

    A file is the list of its bytes.  [write_at] is what pwrite does to it: the
    gap between its end and the offset is filled with zeros.  [read_at] is what
    pread delivers. *)

From S2P Require Import FalconPrelude.

Definition write_at (f : list Z) (o : nat) (b : list Z) : list Z :=
  match b with
  | [] => f
  | _ => take o (f ++ replicate (o - length f) 0) ++ b ++ drop (o + length b) f
  end.

Definition read_at (f : list Z) (o n : nat) : list Z := take n (drop o f).

Lemma write_at_nil f o : write_at f o [] = f.
Proof. done. Qed.

Lemma write_at_cons f o b : b <> [] ->
  write_at f o b = take o (f ++ replicate (o - length f) 0) ++ b ++ drop (o + length b) f.
Proof. by destruct b. Qed.

Lemma take_pad_length (f : list Z) o : length (take o (f ++ replicate (o - length f) 0)) = o.
Proof. rewrite length_take, length_app, length_replicate. lia. Qed.

Lemma file_write_at_length f o b : b <> [] -> length (write_at f o b) = Nat.max (length f) (o + length b).
Proof. intros Hb. rewrite write_at_cons, !length_app, take_pad_length, length_drop by done. lia. Qed.

(** The part before a position at or behind the offset, and the part behind. *)
Lemma file_write_at_take f o b : b <> [] -> take (o + length b) (write_at f o b) = take o (f ++ replicate (o - length f) 0) ++ b.
Proof.
  intros Hb. rewrite write_at_cons, app_assoc by done. apply take_app_length'. by rewrite length_app, take_pad_length.
Qed.

Lemma write_at_drop f o b n : b <> [] -> drop (o + length b + n) (write_at f o b) = drop (o + length b + n) f.
Proof.
  intros Hb. rewrite write_at_cons, app_assoc by done. rewrite <- drop_drop, drop_app_length'; [by rewrite drop_drop|].
  by rewrite length_app, take_pad_length.
Qed.

Lemma pad_enough (f : list Z) o : (o <= length f)%nat -> f ++ replicate (o - length f) 0 = f.
Proof. intros Ho. replace (o - length f)%nat with 0%nat by lia. cbn. by rewrite app_nil_r. Qed.

(** Two writes, the second from where the first ends, are one write. *)
Lemma write_at_app f o a b : a <> [] -> write_at (write_at f o a) (o + length a) b = write_at f o (a ++ b).
Proof.
  intros Ha. destruct (decide (b = [])) as [->|Hb]; [by rewrite app_nil_r|].
  rewrite (write_at_cons _ _ b), pad_enough by (done || rewrite file_write_at_length by done; lia).
  rewrite file_write_at_take, write_at_drop by done. rewrite (write_at_cons f o (a ++ b)) by (by destruct a).
  rewrite length_app, <- !app_assoc. by rewrite Nat.add_assoc.
Qed.

(** A write done again over a part of itself, or in full. *)
Lemma write_at_again f o b : write_at (write_at f o b) o b = write_at f o b.
Proof.
  destruct (decide (b = [])) as [->|Hb]; [done|].
  rewrite (write_at_cons (write_at f o b)), pad_enough by (done || rewrite file_write_at_length by done; lia).
  pose proof (write_at_drop f o b 0 Hb) as E. rewrite Nat.add_0_r in E. rewrite E.
  rewrite (write_at_cons f o b) by done. f_equal. apply take_app_length'. by rewrite take_pad_length.
Qed.

Lemma read_write f o b : read_at (write_at f o b) o (length b) = b.
Proof.
  unfold read_at. destruct (decide (b = [])) as [->|Hb]; [done|].
  rewrite write_at_cons by done. rewrite drop_app_length' by (by rewrite take_pad_length). by apply take_app_length'.
Qed.

Lemma write_at_part f o b n : write_at (write_at f o (take n b)) o b = write_at f o b.
Proof.
  destruct (decide (take n b = [])) as [->|Ha]; [by rewrite write_at_nil|].
  assert (b <> []) as Hb by (intros ->; by rewrite take_nil in Ha).
  assert (length (take n b) <= length b)%nat as Hl by (rewrite length_take; lia).
  rewrite (write_at_cons _ _ b), pad_enough by (done || rewrite file_write_at_length by done; lia).
  replace (o + length b)%nat with (o + length (take n b) + (length b - length (take n b)))%nat by lia.
  rewrite write_at_drop by done. rewrite (write_at_cons f o b) by done.
  replace (o + length (take n b) + (length b - length (take n b)))%nat with (o + length b)%nat by lia. f_equal.
  rewrite write_at_cons by done. apply take_app_length'. by rewrite take_pad_length.
Qed.
