(* ===== verification/MemPool.v ===== *)
(** * The pool of memory blocks

    common/src/include/buffer/mem_pool.h: blocks of one size that are kept for
    reuse when they are given back, up to a number.  A block is a number; the
    allocator of the C library hands out numbers that are not in use ([next]), and
    whether it succeeds is an argument.  [live] are the blocks that it has handed
    out and not got back, [held] those the pool has given to its users. *)

From S2P Require Import FalconPrelude.

Record MemPool : Type := {
  m_init : bool;
  m_capacity : Z;
  m_size : Z;
  m_freeBlocks : list nat;
  live : list nat;
  next : nat
}.

(** [MemPool(blockSize, capacity)], with memory for the lock. *)
Definition new_MemPool (capacity : Z) : MemPool :=
  {| m_init := true; m_capacity := capacity; m_size := 0; m_freeBlocks := []; live := []; next := 0 |}.

Definition set_pool (size : Z) (free live : list nat) (next : nat) (s : MemPool) : MemPool :=
  {| m_init := m_init s; m_capacity := m_capacity s; m_size := size; m_freeBlocks := free; live := live; next := next |}.

(** [init(blockSize, capacity)]: [lock] is whether there is memory for the lock. *)
Definition init (capacity : Z) (lock : bool) (s : MemPool) : MemPool :=
  if m_init s then s else
  {| m_init := lock; m_capacity := capacity; m_size := m_size s; m_freeBlocks := m_freeBlocks s; live := live s; next := next s |}.

Definition aligned_alloc (success : bool) (s : MemPool) : option nat * MemPool :=
  if success then (Some (next s), set_pool (m_size s) (m_freeBlocks s) (next s :: live s) (S (next s)) s) else (None, s).

(** [::free] *)
Definition c_free (b : nat) (s : MemPool) : MemPool :=
  set_pool (m_size s) (m_freeBlocks s) (filter (fun x => x <> b) (live s)) (next s) s.

Definition alloc (success : bool) (s : MemPool) : option nat * MemPool :=
  if negb (m_init s) then (None, s) else
  let '(block, s) :=
    match m_freeBlocks s with
    | b :: free => (Some b, set_pool (m_size s) free (live s) (next s) s)
    | [] => aligned_alloc success s
    end in
  (block, match block with Some _ => set_pool (u64 (m_size s + 1)) (m_freeBlocks s) (live s) (next s) s | None => s end).

(** [while (!m_freeBlocks.empty() && num--)]: the blocks, and [num] after it. *)
Fixpoint take_free (free : list nat) (num : Z) : list nat * list nat * Z :=
  match free with
  | [] => ([], [], num)
  | b :: free' =>
      if num =? 0 then ([], free, num - 1)
      else let '(bulk, rest, num') := take_free free' (num - 1) in (b :: bulk, rest, num')
  end.

(** [while (num > 0)]: [success] is the outcome of each allocation. *)
Fixpoint alloc_rest (success : list bool) (num : Z) (s : MemPool) : list nat * Z * MemPool :=
  match success with
  | ok :: success' =>
      if 0 <? num then
        match aligned_alloc ok s with
        | (None, s) => ([], num, s)
        | (Some b, s) => let '(bulk, num', s) := alloc_rest success' (num - 1) s in (b :: bulk, num', s)
        end
      else ([], num, s)
  | [] => ([], num, s)
  end.

Definition calloc (num : Z) (success : list bool) (s : MemPool) : list nat * MemPool :=
  if negb (m_init s) then ([], s) else
  let '(bulk1, free, num) := take_free (m_freeBlocks s) num in
  let s := set_pool (m_size s) free (live s) (next s) s in
  let '(bulk2, num, s) := alloc_rest success num s in
  let bulk := bulk1 ++ bulk2 in
  if 0 <? num then ([], foldr c_free s bulk)
  else (bulk, set_pool (u64 (m_size s + Z.of_nat (length bulk))) (m_freeBlocks s) (live s) (next s) s).

Definition free (buf : option nat) (s : MemPool) : MemPool :=
  if negb (m_init s) then s else
  match buf with
  | None => s
  | Some b =>
      let s' := set_pool (u64 (m_size s - 1)) (m_freeBlocks s) (live s) (next s) s in
      if m_size s <? m_capacity s then set_pool (m_size s') (m_freeBlocks s' ++ [b]) (live s') (next s') s' else c_free b s'
  end.

(** What users do with the pool; they give back a block they hold. *)
Inductive use : Type :=
| Alloc (success : bool)
| Calloc (num : Z) (success : list bool)
| Free (b : nat).

(** The pool and the blocks in the hands of its users. *)
Definition step (u : use) (s : MemPool * list nat) : MemPool * list nat :=
  match u with
  | Alloc success => let '(b, s') := alloc success s.1 in (s', option_list b ++ s.2)
  | Calloc num success => let '(bs, s') := calloc num success s.1 in (s', bs ++ s.2)
  | Free b => if decide (b ∈ s.2) then (free (Some b) s.1, filter (fun x => x <> b) s.2) else s
  end.

(** ** The invariant *)

(** No block is free and in use, or in use twice; all are live; the counter is the
    number of blocks in use; and the pool keeps fewer blocks than its capacity. *)
Record pool_ok (s : MemPool) (held : list nat) : Prop := {
  po_nodup : NoDup (m_freeBlocks s ++ held);
  po_live : live s ≡ₚ m_freeBlocks s ++ held;
  po_next b : b ∈ live s -> (b < next s)%nat;
  po_size : m_size s = Z.of_nat (length held);
  po_bound : m_freeBlocks s = [] \/ Z.of_nat (length (m_freeBlocks s) + length held) < m_capacity s
}.

(** The blocks that are live are those of [l], each once. *)
Definition owns (s : MemPool) (l : list nat) : Prop := NoDup l /\ live s ≡ₚ l /\ forall b, b ∈ live s -> (b < next s)%nat.

Lemma owns_perm s l l' : l ≡ₚ l' -> owns s l -> owns s l'.
Proof. intros E (H1 & H2 & H3). split_and!; [by rewrite <- E|by rewrite H2|done]. Qed.

Lemma owns_aligned_alloc s l : owns s l -> owns (aligned_alloc true s).2 (next s :: l).
Proof.
  intros (H1 & H2 & H3). split_and!; cbn.
  - constructor; [|done]. rewrite <- H2. intros Hin%H3. lia.
  - by rewrite H2.
  - intros b [->|Hb]%elem_of_cons; [lia|]. apply H3 in Hb. lia.
Qed.

Lemma owns_c_free s b l : owns s (b :: l) -> owns (c_free b s) l.
Proof.
  intros (H1 & H2 & H3). apply NoDup_cons in H1 as [Hb Hl]. split_and!; cbn; [done| |].
  - rewrite H2, filter_cons, decide_False by auto. clear -Hb. induction l as [|x l IH]; [done|].
    apply not_elem_of_cons in Hb as [Hx Hb]. rewrite filter_cons, decide_True by done. constructor. by apply IH.
  - intros x [_ Hx]%list_elem_of_filter. by apply H3.
Qed.

Lemma owns_free_all s bs l : owns s (bs ++ l) -> owns (foldr c_free s bs) l.
Proof.
  revert l. induction bs as [|b bs IH]; intros l Ho; [done|]. cbn. apply owns_c_free, IH. eapply owns_perm; [|done].
  cbn. apply Permutation_middle.
Qed.

Lemma take_free_spec fr : forall num bulk rest num', 0 <= num -> take_free fr num = (bulk, rest, num') ->
  fr = bulk ++ rest /\ ((rest = [] /\ num' = num - Z.of_nat (length bulk) /\ 0 <= num') \/ (rest <> [] /\ num' = -1 /\ Z.of_nat (length bulk) = num)).
Proof.
  induction fr as [|b fr IH]; intros num bulk rest num' Hn E; cbn in E.
  { injection E as <- <- <-. split; [done|]. left. cbn. split_and!; [done|lia..]. }
  destruct (Z.eqb_spec num 0) as [->|Hne].
  { injection E as <- <- <-. split; [done|]. by right. }
  destruct (take_free fr (num - 1)) as [[bs r] m] eqn:Et. injection E as <- <- <-.
  destruct (IH (num - 1) bs r m ltac:(lia) Et) as [-> [(-> & -> & ?)|(? & -> & E)]]; (split; [done|]); cbn [length].
  - left. split_and!; [done|lia..].
  - right. split_and!; [done..|lia].
Qed.

Lemma alloc_rest_spec success : forall num s l bulk num' s',
  owns s l -> alloc_rest success num s = (bulk, num', s') ->
  owns s' (bulk ++ l) /\ num' = num - Z.of_nat (length bulk) /\ (0 <= num -> 0 <= num') /\ (num <= 0 -> bulk = []) /\
  m_size s' = m_size s /\ m_freeBlocks s' = m_freeBlocks s /\ m_capacity s' = m_capacity s /\ m_init s' = m_init s.
Proof.
  induction success as [|ok success IH]; intros num s l bulk num' s' Ho E; cbn in E.
  { injection E as <- <- <-. split_and!; try done. cbn. lia. }
  destruct (Z.ltb_spec 0 num); [|injection E as <- <- <-; split_and!; try done; cbn; lia].
  destruct ok; [|injection E as <- <- <-; split_and!; try done; cbn; lia].
  cbn in E. destruct (alloc_rest success (num - 1) _) as [[bs m] s2] eqn:Er. injection E as <- <- <-.
  destruct (IH _ _ (next s :: l) _ _ _ (owns_aligned_alloc s l Ho) Er) as (H1 & H2 & H3 & H4 & H5 & H6 & H7 & H8).
  split_and!; try done; [|cbn [length]; lia|lia|lia]. eapply owns_perm; [|done]. cbn. by rewrite Permutation_middle.
Qed.

Lemma pool_ok_owns s held :
  pool_ok s held <-> owns s (m_freeBlocks s ++ held) /\ m_size s = Z.of_nat (length held) /\
    (m_freeBlocks s = [] \/ Z.of_nat (length (m_freeBlocks s) + length held) < m_capacity s).
Proof. unfold owns. split; [intros []; split_and!; done|intros ((? & ? & ?) & ? & ?); by split]. Qed.

Lemma owns_same s s' l : live s' = live s -> next s' = next s -> owns s l -> owns s' l.
Proof. unfold owns. by intros -> ->. Qed.

(** ** The operations keep it *)

Lemma alloc_ok success s held :
  pool_ok s held -> Z.of_nat (length held) + 1 < 2 ^ 64 ->
  pool_ok (alloc success s).2 (option_list (alloc success s).1 ++ held).
Proof.
  intros Hok Hb. pose proof Hok as (Ho & Hs & Hbd)%pool_ok_owns. unfold alloc. destruct (m_init s); [|done]. cbn.
  assert (u64 (m_size s + 1) = Z.of_nat (length held) + 1) as Eu by (rewrite Hs; apply wrap_small; unfold in_range; lia).
  destruct (m_freeBlocks s) as [|b fr] eqn:Ef.
  - destruct success; [|done]. apply pool_ok_owns. cbn. rewrite Ef, Eu. cbn. split_and!; [|lia|by left].
    eapply owns_same; [..|exact (owns_aligned_alloc _ _ Ho)]; done.
  - apply pool_ok_owns. cbn. rewrite Eu. cbn. split_and!; [|lia|right; destruct Hbd as [|Hbd]; [done|cbn in Hbd; lia]].
    eapply owns_perm; [|eapply owns_same; [..|exact Ho]; done]. apply Permutation_middle.
Qed.

Lemma free_ok b s held :
  pool_ok s held -> b ∈ held -> m_init s = true -> Z.of_nat (length held) < 2 ^ 64 ->
  pool_ok (free (Some b) s) (filter (fun x => x <> b) held).
Proof.
  intros Hok Hb Hi Hlt. pose proof Hok as (Ho & Hs & Hbd)%pool_ok_owns. unfold free. rewrite Hi. cbn.
  destruct (list_elem_of_split held b Hb) as (h1 & h2 & ->). pose proof (proj1 Ho) as Hnd.
  apply NoDup_app in Hnd as (_ & _ & Hnd). apply NoDup_app in Hnd as (_ & Hd & [Hb2 _]%NoDup_cons).
  assert (forall l : list nat, b ∉ l -> filter (fun x => x <> b) l = l) as Hfil.
  { induction l as [|x l IH]; intros Hx; [done|]. apply not_elem_of_cons in Hx as [H1 H2]. rewrite filter_cons, decide_True by done. by rewrite IH. }
  assert (filter (fun x => x <> b) (h1 ++ b :: h2) = h1 ++ h2) as ->.
  { rewrite filter_app, filter_cons, decide_False by auto. rewrite !Hfil; [done..|]. intros Hb1. apply (Hd b Hb1). by left. }
  rewrite length_app in *. cbn [length] in *.
  assert (u64 (m_size s - 1) = Z.of_nat (length h1 + length h2)) as Eu by (rewrite Hs, wrap_small; unfold in_range; lia).
  assert (owns s (b :: m_freeBlocks s ++ h1 ++ h2)) as Ho'.
  { eapply owns_perm; [|exact Ho]. rewrite !(Permutation_app_comm (m_freeBlocks s)), <- Permutation_middle. done. }
  destruct (Z.ltb_spec (m_size s) (m_capacity s)); apply pool_ok_owns; cbn; rewrite ?Eu, !length_app; split_and!; try lia.
  - eapply owns_perm; [|eapply owns_same; [..|exact Ho']; done]. rewrite <- app_assoc. cbn. apply Permutation_middle.
  - right. cbn. destruct Hbd as [Hf|Hbd]; [rewrite Hf; cbn; lia|lia].
  - eapply owns_same; [..|apply owns_c_free, Ho']; done.
  - destruct Hbd as [|Hbd]; [by left|lia].
Qed.

Lemma calloc_ok num success s held :
  pool_ok s held -> 0 <= num -> Z.of_nat (length held) + num < 2 ^ 64 ->
  pool_ok (calloc num success s).2 ((calloc num success s).1 ++ held) /\
  (Z.of_nat (length (calloc num success s).1) <= num).
Proof.
  intros Hok Hn Hb. pose proof Hok as (Ho & Hs & Hbd)%pool_ok_owns. unfold calloc. destruct (m_init s); [|cbn; split; [done|lia]]. cbn [negb].
  destruct (take_free (m_freeBlocks s) num) as [[bulk1 rest] num1] eqn:Et. apply take_free_spec in Et as [Ef Hcase]; [|done].
  set (s1 := set_pool _ _ _ _ s). assert (owns s1 (bulk1 ++ rest ++ held)) as Ho1.
  { eapply owns_same; [done..|]. by rewrite Ef, <- app_assoc in Ho. }
  destruct (alloc_rest success num1 s1) as [[bulk2 num2] s2] eqn:Er.
  destruct (alloc_rest_spec _ _ _ _ _ _ _ Ho1 Er) as (H1 & H2 & H3 & H4 & H5 & H6 & H7 & H8). cbn in H5, H6, H7, H8.
  destruct (Z.ltb_spec 0 num2); cbn [fst snd].
  - destruct Hcase as [(-> & E1 & E2)|(? & -> & E)]; [|rewrite H4 in H2 by lia; cbn in H2; lia]. split; [|cbn; lia].
    assert (forall bs, m_size (foldr c_free s2 bs) = m_size s2 /\ m_freeBlocks (foldr c_free s2 bs) = m_freeBlocks s2) as Hsame
      by (induction bs as [|x bs [IH1 IH2]]; [done|]; cbn; by rewrite IH1, IH2).
    destruct (Hsame (bulk1 ++ bulk2)) as [F1 F2]. apply pool_ok_owns. rewrite F1, F2, H5, H6. cbn. split_and!; [|done|by left].
    apply owns_free_all. eapply owns_perm; [|exact H1]. cbn. rewrite app_assoc. by rewrite (Permutation_app_comm bulk2).
  - assert (Z.of_nat (length (bulk1 ++ bulk2)) <= num) as Hlen.
    { rewrite length_app. destruct Hcase as [(_ & E1 & E2)|(_ & -> & E)]; [lia|]. rewrite H4 by lia. cbn. lia. }
    split; [|done]. apply pool_ok_owns. cbn. rewrite H5, H6, H7, Hs, !length_app in *. split_and!.
    + eapply owns_same; [..|eapply owns_perm; [|exact H1]]; [done..|]. solve_Permutation.
    + rewrite wrap_small by (unfold in_range; lia). lia.
    + destruct Hcase as [(-> & _)|(Hr & -> & E)]; [by left|]. right. rewrite H4 by lia. cbn. destruct Hbd as [Hf|Hbd].
      * rewrite Ef in Hf. apply app_eq_nil in Hf as [_ Hf]. done.
      * rewrite Ef, length_app in Hbd. lia.
Qed.

(** ** All uses *)

Definition blocks_asked (u : use) : Z := match u with Alloc _ => 1 | Calloc num _ => Z.max 0 num | Free _ => 0 end.

Fixpoint asked (us : list use) : Z := match us with [] => 0 | u :: us' => blocks_asked u + asked us' end.

Definition valid_use (u : use) : Prop := match u with Calloc num _ => 0 <= num | _ => True end.

Lemma asked_nonneg us : 0 <= asked us.
Proof. induction us as [|u us IH]; cbn; [lia|]. destruct u; cbn; lia. Qed.

Lemma calloc_init num success s bs s' : m_init s = true -> calloc num success s = (bs, s') -> m_init s' = true.
Proof.
  intros Hi E. unfold calloc in E. rewrite Hi in E. cbn in E. destruct (take_free _ _) as [[b1 r] n1].
  assert (forall success n s0 b2 n2 s2, alloc_rest success n s0 = (b2, n2, s2) -> m_init s2 = m_init s0) as Ha.
  { clear. induction success as [|[] success IH]; intros n s0 b2 n2 s2 E; cbn in E; [by injection E as <- <- <-|..];
      (destruct (0 <? n); [|by injection E as <- <- <-]); [|by injection E as <- <- <-].
    destruct (alloc_rest success (n - 1) _) as [[b3 n3] s3] eqn:E3. injection E as <- <- <-. by apply IH in E3. }
  destruct (alloc_rest _ _ _) as [[b2 n2] s2] eqn:E2. apply Ha in E2. cbn in E2. destruct (0 <? n2); injection E as <- <-; cbn; [|congruence].
  induction (b1 ++ b2); cbn; congruence.
Qed.

Lemma pool_step_ok u s held :
  pool_ok s held -> m_init s = true -> valid_use u -> Z.of_nat (length held) + blocks_asked u < 2 ^ 64 ->
  pool_ok (step u (s, held)).1 (step u (s, held)).2 /\ m_init (step u (s, held)).1 = true /\
  Z.of_nat (length (step u (s, held)).2) <= Z.of_nat (length held) + blocks_asked u.
Proof.
  intros Hok Hi Hu Hb. destruct u as [success|num success|b]; cbn in Hb, Hu |- *.
  - pose proof (alloc_ok success s held Hok ltac:(lia)) as H1. destruct (alloc success s) as [o s'] eqn:E. cbn in *. split_and!; [done| |].
    + unfold alloc in E. rewrite Hi in E. cbn in E. destruct (m_freeBlocks s); [destruct success|]; by injection E as <- <-.
    + rewrite length_app. destruct o; cbn; lia.
  - destruct (calloc_ok num success s held Hok Hu ltac:(lia)) as [H1 H2]. destruct (calloc num success s) as [bs s'] eqn:E. cbn in *.
    split_and!; [done| |rewrite length_app; lia].
    by apply (calloc_init _ _ _ _ _ Hi E).
  - case_decide as Hin; cbn; [|split_and!; [done..|lia]]. split_and!; [apply free_ok; [done..|lia]| |].
    + unfold free. rewrite Hi. cbn. by destruct (_ <? _).
    + pose proof (length_filter (fun x => x <> b) held). lia.
Qed.

(** The pool never gives a block to two users: from a new pool, after every
    sequence of alloc, calloc and free, with allocations that fail at any time, the
    blocks in use and the free ones are all different and allocated, nothing is
    leaked or freed twice, m_size is the number of blocks in use, and there are free
    blocks only while the blocks are fewer than the capacity. *)
Theorem mem_pool_sound capacity us :
  Forall valid_use us -> asked us < 2 ^ 64 ->
  let '(s, held) := foldl (fun s u => step u s) (new_MemPool capacity, []) us in pool_ok s held.
Proof.
  assert (forall us s held, pool_ok s held -> m_init s = true -> Forall valid_use us -> Z.of_nat (length held) + asked us < 2 ^ 64 ->
    let '(s', held') := foldl (fun s u => step u s) (s, held) us in pool_ok s' held') as Hall.
  { clear. induction us as [|u us IH]; intros s held Hok Hi Hv Hb; [done|]. apply Forall_cons in Hv as [Hu Hv]. cbn in Hb.
    pose proof (asked_nonneg us). destruct (pool_step_ok u s held Hok Hi Hu ltac:(lia)) as (H1 & H2 & H3). cbn [foldl].
    destruct (step u (s, held)) as [s1 held1]. cbn in *. apply IH; [done..|lia]. }
  intros Hv Hb. apply Hall; [|done|done|cbn; lia]. split; cbn; [constructor|done|by intros b ?%elem_of_nil|done|by left].
Qed.

Lemma mem_pool_sound_witness :
  let '(s, held) := foldl (fun s u => step u s) (new_MemPool 3, [])
    [Calloc 2 [true; true]; Free 0; Alloc true; Free 1; Calloc 3 [true; false]; Alloc true; Free 7] in pool_ok s held.
Proof. apply (mem_pool_sound 3); [repeat constructor; cbn; lia|cbn; lia]. Defined.
