(* ===== verification/Base64.v ===== *)
(** * Base 64

    common/src/buffer/base64.cpp.  Bytes and characters are numbers from 0 to 255;
    what is written to the output is a list.  The terminating 0 of the encoder is
    left out. *)

From S2P Require Import FalconPrelude.

Definition BASE64_PAD : Z := 61.
Definition BASE64DE_FIRST : Z := 43.
Definition BASE64DE_LAST : Z := 122.

(** 'A' to 'Z', 'a' to 'z', '0' to '9', '+' and '/'. *)
Definition base64en : list Z := seqZ 65 26 ++ seqZ 97 26 ++ seqZ 48 10 ++ [43; 47].

Definition base64de : list Z :=
  replicate 43 255 ++ [62] ++ replicate 3 255 ++ [63] ++ seqZ 52 10 ++ replicate 7 255 ++ seqZ 0 26 ++ replicate 6 255 ++ seqZ 26 26 ++
  replicate 5 255.

(** An index into a table; the indices of the code are within the tables. *)
Definition at_ (table : list Z) (i : Z) : Z := table !!! Z.to_nat i.

(** The loop of the encoder: [s] is the position in the group of three bytes and [l]
    the byte before. *)
Fixpoint encode_loop (input : list Z) (s : nat) (l : Z) : list Z :=
  match input with
  | [] =>
      match s with
      | 1%nat => [at_ base64en (Z.shiftl (Z.land l 3) 4); BASE64_PAD; BASE64_PAD]
      | 2%nat => [at_ base64en (Z.shiftl (Z.land l 15) 2); BASE64_PAD]
      | _ => []
      end
  | c :: input' =>
      match s with
      | 0%nat => at_ base64en (Z.land (Z.shiftr c 2) 63) :: encode_loop input' 1 c
      | 1%nat => at_ base64en (Z.lor (Z.shiftl (Z.land l 3) 4) (Z.land (Z.shiftr c 4) 15)) :: encode_loop input' 2 c
      | _ =>
          at_ base64en (Z.lor (Z.shiftl (Z.land l 15) 2) (Z.land (Z.shiftr c 6) 3)) :: at_ base64en (Z.land c 63) :: encode_loop input' 0 c
      end
  end.

(** The characters; their number is what the function returns. *)
Definition base64_encode (input : list Z) : list Z := encode_loop input 0 0.

(** The loop of the decoder: [i] is the position of the next character, [cur] what is
    in out[j].  The value and the bytes before out[j]; a character that is not of the
    alphabet returns 0. *)
Fixpoint decode_loop (input : list Z) (i : nat) (cur : Z) (out : list Z) : Z * list Z :=
  match input with
  | [] => (Z.of_nat (length out), out)
  | ch :: input' =>
      if ch =? BASE64_PAD then (Z.of_nat (length out), out)
      else if ((ch <? BASE64DE_FIRST) || (BASE64DE_LAST <? ch))%bool then (0, out)
      else
        let c := at_ base64de ch in
        if c =? 255 then (0, out)
        else
          match (i `mod` 4)%nat with
          | 0%nat => decode_loop input' (S i) (Z.land (Z.shiftl c 2) 255) out
          | 1%nat => decode_loop input' (S i) (Z.shiftl (Z.land c 15) 4) (out ++ [Z.lor cur (Z.land (Z.shiftr c 4) 3)])
          | 2%nat => decode_loop input' (S i) (Z.shiftl (Z.land c 3) 6) (out ++ [Z.lor cur (Z.land (Z.shiftr c 2) 15)])
          | _ => decode_loop input' (S i) 0 (out ++ [Z.lor cur c])
          end
  end.

Definition base64_decode (input : list Z) : Z * list Z :=
  if Z.land (Z.of_nat (length input)) 3 =? 0 then decode_loop input 0 0 [] else (UINT32_MAX, []).

(** ** Round trip *)

Definition byte (b : Z) : Prop := 0 <= b < 256.

Lemma for_all_below (n : Z) (P : Z -> bool) : forallb P (seqZ 0 n) = true -> forall a, 0 <= a < n -> P a = true.
Proof. intros E a Ha. rewrite forallb_forall in E. apply E, list_elem_of_In, elem_of_seqZ. lia. Qed.

Lemma for_all_bytes (P : Z -> Z -> bool) : forallb (fun a => forallb (P a) (seqZ 0 256)) (seqZ 0 256) = true ->
  forall a b, byte a -> byte b -> P a b = true.
Proof. intros E a b Ha Hb. apply (for_all_below 256 (P a)); [|done]. by apply (for_all_below 256 (fun a => forallb (P a) (seqZ 0 256))). Qed.

(** A character of the alphabet is read as its value. *)
Lemma decode_char v rest i cur out :
  0 <= v < 64 ->
  decode_loop (at_ base64en v :: rest) i cur out =
    match (i `mod` 4)%nat with
    | 0%nat => decode_loop rest (S i) (Z.land (Z.shiftl v 2) 255) out
    | 1%nat => decode_loop rest (S i) (Z.shiftl (Z.land v 15) 4) (out ++ [Z.lor cur (Z.land (Z.shiftr v 4) 3)])
    | 2%nat => decode_loop rest (S i) (Z.shiftl (Z.land v 3) 6) (out ++ [Z.lor cur (Z.land (Z.shiftr v 2) 15)])
    | _ => decode_loop rest (S i) 0 (out ++ [Z.lor cur v])
    end.
Proof.
  intros Hv. set (ch := at_ base64en v).
  assert (((negb (ch =? BASE64_PAD)) && negb ((ch <? BASE64DE_FIRST) || (BASE64DE_LAST <? ch)) && (at_ base64de ch =? v))%bool = true) as E.
  { revert v Hv ch. apply (for_all_below 64 (fun v => let ch := at_ base64en v in
      (negb (ch =? BASE64_PAD) && negb ((ch <? BASE64DE_FIRST) || (BASE64DE_LAST <? ch)) && (at_ base64de ch =? v))%bool)). by vm_compute. }
  apply andb_true_iff in E as [[E1%negb_true_iff E2%negb_true_iff]%andb_true_iff E3%Z.eqb_eq].
  cbn [decode_loop]. rewrite E1, E2, E3. destruct (Z.eqb_spec v 255); [lia|done].
Qed.

(** The four values of three bytes. *)
Definition v1 (a : Z) : Z := Z.land (Z.shiftr a 2) 63.
Definition v2 (a b : Z) : Z := Z.lor (Z.shiftl (Z.land a 3) 4) (Z.land (Z.shiftr b 4) 15).
Definition v3 (b c : Z) : Z := Z.lor (Z.shiftl (Z.land b 15) 2) (Z.land (Z.shiftr c 6) 3).
Definition v4 (c : Z) : Z := Z.land c 63.

Lemma values a b : byte a -> byte b ->
  0 <= v1 a < 64 /\ 0 <= v2 a b < 64 /\ 0 <= v3 a b < 64 /\ 0 <= v4 a < 64 /\
  Z.lor (Z.land (Z.shiftl (v1 a) 2) 255) (Z.land (Z.shiftr (v2 a b) 4) 3) = a /\
  Z.shiftl (Z.land (v2 a b) 15) 4 = Z.shiftl (Z.shiftr b 4) 4 /\
  Z.lor (Z.shiftl (Z.shiftr a 4) 4) (Z.land (Z.shiftr (v3 a b) 2) 15) = a /\
  Z.shiftl (Z.land (v3 a b) 3) 6 = Z.shiftl (Z.shiftr b 6) 6 /\
  Z.lor (Z.shiftl (Z.shiftr a 6) 6) (v4 a) = a.
Proof.
  intros Ha Hb.
  assert (((0 <=? v1 a) && (v1 a <? 64) && (0 <=? v2 a b) && (v2 a b <? 64) && (0 <=? v3 a b) && (v3 a b <? 64) && (0 <=? v4 a) && (v4 a <? 64) &&
    (Z.lor (Z.land (Z.shiftl (v1 a) 2) 255) (Z.land (Z.shiftr (v2 a b) 4) 3) =? a) &&
    (Z.shiftl (Z.land (v2 a b) 15) 4 =? Z.shiftl (Z.shiftr b 4) 4) &&
    (Z.lor (Z.shiftl (Z.shiftr a 4) 4) (Z.land (Z.shiftr (v3 a b) 2) 15) =? a) &&
    (Z.shiftl (Z.land (v3 a b) 3) 6 =? Z.shiftl (Z.shiftr b 6) 6) && (Z.lor (Z.shiftl (Z.shiftr a 6) 6) (v4 a) =? a))%bool = true) as E.
  { revert a b Ha Hb. apply (for_all_bytes (fun a b => _)). by vm_compute. }
  rewrite !andb_true_iff in E. lia.
Qed.

Lemma mod_4 i : (i `mod` 4 = 0)%nat -> (S i `mod` 4 = 1)%nat /\ (S (S i) `mod` 4 = 2)%nat /\ (S (S (S i)) `mod` 4 = 3)%nat /\ ((i + 4) `mod` 4 = 0)%nat.
Proof.
  intros Hi. pose proof (Nat.div_mod_eq i 4) as E. rewrite Hi in E.
  split_and!; symmetry; [apply (Nat.mod_unique _ 4 (i / 4))|apply (Nat.mod_unique _ 4 (i / 4))|apply (Nat.mod_unique _ 4 (i / 4))|apply (Nat.mod_unique _ 4 (i / 4 + 1))]; lia.
Qed.

Lemma encode_three a b c rest l :
  encode_loop (a :: b :: c :: rest) 0 l =
  at_ base64en (v1 a) :: at_ base64en (v2 a b) :: at_ base64en (v3 b c) :: at_ base64en (v4 c) :: encode_loop rest 0 c.
Proof. done. Qed.

Lemma decode_three a b c rest i out : byte a -> byte b -> byte c -> (i `mod` 4 = 0)%nat -> forall cur,
  decode_loop (at_ base64en (v1 a) :: at_ base64en (v2 a b) :: at_ base64en (v3 b c) :: at_ base64en (v4 c) :: rest) i cur out =
  decode_loop rest (i + 4) 0 (out ++ [a; b; c]).
Proof.
  intros Ha Hb Hc Hi cur. pose proof (values a b Ha Hb) as V1. pose proof (values b c Hb Hc) as V2. pose proof (values c c Hc Hc) as V3.
  destruct (mod_4 i Hi) as (M1 & M2 & M3 & _).
  rewrite decode_char, Hi by lia. rewrite decode_char, M1 by lia. rewrite decode_char, M2 by lia. rewrite decode_char, M3 by lia.
  destruct V1 as (_ & _ & _ & _ & -> & -> & _). destruct V2 as (_ & _ & _ & _ & _ & _ & -> & -> & _). destruct V3 as (_ & _ & _ & _ & _ & _ & _ & _ & ->).
  replace (S (S (S (S i)))) with (i + 4)%nat by lia. by rewrite <- !app_assoc.
Qed.

Lemma pads_v2 a : Z.shiftl (Z.land a 3) 4 = v2 a 0.
Proof. unfold v2. by rewrite Z.lor_0_r. Qed.
Lemma pads_v3 b : Z.shiftl (Z.land b 15) 2 = v3 b 0.
Proof. unfold v3. by rewrite Z.lor_0_r. Qed.

Lemma decode_encode n : forall l, (length l < n)%nat -> Forall byte l -> forall i cur out prev, (i `mod` 4 = 0)%nat ->
  decode_loop (encode_loop l 0 prev) i cur out = (Z.of_nat (length (out ++ l)), out ++ l).
Proof.
  assert (byte 0) as H0 by (unfold byte; lia).
  induction n as [|n IH]; intros l Hl Hb i cur out prev Hi; [lia|]. destruct (mod_4 i Hi) as (M1 & M2 & _ & M4).
  destruct l as [|a [|b [|c rest]]].
  - by rewrite app_nil_r.
  - apply Forall_cons in Hb as [Ha _]. pose proof (values a 0 Ha H0) as V. cbn [encode_loop]. rewrite pads_v2.
    rewrite (decode_char (v1 a)), Hi by lia. rewrite decode_char, M1 by lia. destruct V as (_ & _ & _ & _ & -> & _). done.
  - apply Forall_cons in Hb as [Ha [Hb _]%Forall_cons]. pose proof (values a b Ha Hb) as V. pose proof (values b 0 Hb H0) as V'.
    cbn [encode_loop]. rewrite pads_v3. rewrite (decode_char (v1 a)), Hi by lia. rewrite (decode_char (v2 a b)), M1 by lia. rewrite decode_char, M2 by lia.
    destruct V as (_ & _ & _ & _ & -> & -> & _). destruct V' as (_ & _ & _ & _ & _ & _ & -> & _). by rewrite <- app_assoc.
  - apply Forall_cons in Hb as [Ha [Hb [Hc Hr]%Forall_cons]%Forall_cons]. rewrite encode_three, decode_three by done. cbn [length] in Hl.
    rewrite IH by (done || lia). by rewrite <- app_assoc.
Qed.

Lemma encode_length n : forall l prev, (length l < n)%nat -> length (encode_loop l 0 prev) = (4 * ((length l + 2) / 3))%nat.
Proof.
  induction n as [|n IH]; intros l prev Hl; [lia|]. destruct l as [|a [|b [|c rest]]]; try done. rewrite encode_three. cbn [length] in *.
  rewrite IH by lia. replace (S (S (S (length rest))) + 2)%nat with (length rest + 2 + 1 * 3)%nat by lia. rewrite Nat.div_add by lia. lia.
Qed.

(** Decoding what was encoded gives back the bytes and their number; the encoder
    writes four characters for every three bytes begun. *)
Theorem base64_roundtrip l :
  Forall byte l ->
  base64_decode (base64_encode l) = (Z.of_nat (length l), l) /\ length (base64_encode l) = (4 * ((length l + 2) / 3))%nat.
Proof.
  intros Hb. unfold base64_decode, base64_encode. rewrite (encode_length (S (length l))) by lia. split; [|done].
  change 3 with (Z.ones 2) at 1. rewrite Z.land_ones by lia. rewrite Nat2Z.inj_mul, Z.mul_comm, Z_mod_mult. cbn.
  by rewrite (decode_encode (S (length l))) by (done || lia).
Qed.

(** 1, 2, 255 and 0. *)
Lemma base64_roundtrip_witness : base64_encode [1; 2; 255; 0] = [65; 81; 76; 47; 65; 65; 61; 61] /\ base64_decode (base64_encode [1; 2; 255; 0]) = (4, [1; 2; 255; 0]).
Proof. split; [by vm_compute|]. apply (base64_roundtrip [1; 2; 255; 0]). repeat constructor; unfold byte; lia. Defined.
