(* ===== verification/WriteStreamCorrect.v ===== *)
(** * Buffering of writes is not seen

    What the buffer of WriteStream.v does to a file on another node is what the
    writes would have done one by one; a local write gives its reservation of
    space back on every path. *)

From S2P Require Import FalconPrelude DiskCache DiskCacheCorrect StoreNode IoClient WriteStream FileBytes.

(** What a call can carry: bytes that end within the range of [off_t], and fewer of
    them than the reply has bits for. *)
Definition in_call (o : Z) (b : list Z) : Prop := (0 <= o /\ o + Z.of_nat (length b) < 2 ^ 63) /\ Z.of_nat (length b) < 2 ^ 31.

Lemma in_call_nil : in_call 0 [].
Proof. split; cbn; lia. Qed.

(** What is relied on of the node behind the connection [c]: [content] is the file
    that is open there as [fd].  A call that returns 0 has written its bytes; a call
    that fails has written nothing but a part of them.  [serving] is what holds of
    the other node as long as the calls are those of the stream, [answering] that
    its calls succeed until the file is closed. *)
Class RemoteFile `{StreamIO} (c : conn) (fd : Z) : Type := {
  content : fs -> list Z;
  serving : fs -> Prop;
  answering : fs -> Prop;
  WriteFile_law b o f : in_call o b -> serving f ->
    serving (rpc_WriteFile c fd b o f).2 /\
    ((rpc_WriteFile c fd b o f).1 = 0 -> content (rpc_WriteFile c fd b o f).2 = write_at (content f) (Z.to_nat o) b) /\
    write_at (content (rpc_WriteFile c fd b o f).2) (Z.to_nat o) b = write_at (content f) (Z.to_nat o) b;
  CloseFile_law fl sy b o f : in_call o b -> serving f ->
    serving (rpc_CloseFile c fd fl sy b o f).2 /\
    ((rpc_CloseFile c fd fl sy b o f).1 = 0 -> content (rpc_CloseFile c fd fl sy b o f).2 = write_at (content f) (Z.to_nat o) b) /\
    write_at (content (rpc_CloseFile c fd fl sy b o f).2) (Z.to_nat o) b = write_at (content f) (Z.to_nat o) b;
  WriteFile_answers b o f : in_call o b -> answering f -> (rpc_WriteFile c fd b o f).1 = 0 /\ answering (rpc_WriteFile c fd b o f).2;
  CloseFile_answers fl sy b o f : in_call o b -> answering f -> (rpc_CloseFile c fd fl sy b o f).1 = 0
}.

Section remote.

Context `{RemoteFile}.

Implicit Types (s : world) (ws : WriteStream).

(** The outcome [r] of writing [b] at [o], with retries; [more] is what holds of
    the node when it still answers. *)
Definition wrote (more : fs -> Prop) (o : Z) (b : list Z) (r : Z) (s s' : world) : Prop :=
  serving s'.2 /\ (r = 0 -> content s'.2 = write_at (content s.2) (Z.to_nat o) b) /\
  write_at (content s'.2) (Z.to_nat o) b = write_at (content s.2) (Z.to_nat o) b /\
  (answering s.2 -> r = 0 /\ more s'.2).

Lemma rpc_retry_S n m ret :
  rpc_retry (S n) m ret = if decide (ret = - ETIMEDOUT) then r ← m; rpc_retry n m r else mret ret.
Proof. done. Qed.

Lemma wp_rpc_retry more o b (g : fs -> Z * fs) n : forall s,
  serving s.2 ->
  (forall f, serving f -> serving (g f).2 /\ ((g f).1 = 0 -> content (g f).2 = write_at (content f) (Z.to_nat o) b) /\
     write_at (content (g f).2) (Z.to_nat o) b = write_at (content f) (Z.to_nat o) b) ->
  (forall f, answering f -> (g f).1 = 0 /\ more (g f).2) ->
  wp (rpc_retry (S n) (call g) (- ETIMEDOUT)) (fun r s' => wrote more o b r s s') s.
Proof.
  assert (forall r s, r <> - ETIMEDOUT -> forall k, wp (rpc_retry k (call g) r) (fun r' s' => r' = r /\ s' = s) s) as Hstop.
  { intros r s Hr [|k]; [by apply wp_ret|]. cbn. rewrite decide_False by done. by apply wp_ret. }
  induction n as [|n IH]; intros s Hs Hd Hr; rewrite rpc_retry_S, decide_True by done; apply wp_bind, wp_call;
    destruct (Hd s.2 Hs) as (D1 & D2 & D3).
  - apply wp_ret. split_and!; [done..|by apply Hr].
  - destruct (decide ((g s.2).1 = - ETIMEDOUT)) as [Et|Hne].
    + rewrite Et. eapply wp_weaken; [|by apply (IH (s.1, (g s.2).2))]. intros r' s' (W1 & W2 & W3 & W4). cbn in *.
      split_and!; [done| |by rewrite W3|].
      * intros E0. by rewrite W2.
      * intros A. destruct (Hr _ A) as [E0 _]. by rewrite Et in E0.
    + eapply wp_weaken; [|by apply Hstop]. intros r' s' [-> ->]. split_and!; [done..|by apply Hr].
Qed.

Lemma wp_PersistToFile ws b o cur x s :
  client ws = Some c -> ws_physicalFd ws = fd -> in_call o b -> b <> [] -> serving s.2 ->
  wp (PersistToFile ws (Some b) (Z.of_nat (length b)) o cur x) (fun r s' => wrote answering o b r s s') s.
Proof.
  intros Hc Hfd Ho Hb Hs. unfold PersistToFile. destruct (Z.leb_spec (Z.of_nat (length b)) 0); [destruct b; [done|cbn in *; lia]|].
  rewrite Hc, Hfd, Nat2Z.id, take_ge by done.
  apply (wp_rpc_retry _ _ _ _ 2); [done|intros; by apply WriteFile_law|]. intros f A. by apply WriteFile_answers.
Qed.

(** ** The buffer *)

Definition pending (ws : WriteStream) : list Z := take (Z.to_nat (sd_size (data ws))) (default [] (mem (buf (data ws)))).

(** The file as the writer sees it. *)
Definition view ws (l : list Z) : list Z := write_at l (Z.to_nat (sd_offset (data ws))) (pending ws).

Record stream_ok ws : Prop := {
  so_fd : ws_physicalFd ws = fd;
  so_client : client ws = Some c;
  so_fm : fm_size (buf (data ws)) = sd_size (data ws);
  so_size : 0 <= sd_size (data ws) <= FALCON_STORE_STREAM_MAX_SIZE;
  so_empty : sd_size (data ws) = 0 -> sd_offset (data ws) = -1;
  so_offset : 0 < sd_size (data ws) -> 0 <= sd_offset (data ws) /\ sd_offset (data ws) + sd_size (data ws) < 2 ^ 63;
  so_length : Z.of_nat (length (pending ws)) = sd_size (data ws)
}.

Lemma stream_in_call ws : stream_ok ws -> sd_size (data ws) <> 0 -> in_call (sd_offset (data ws)) (pending ws).
Proof.
  intros Hok Hz. pose proof (so_size _ Hok). pose proof (so_length _ Hok). pose proof (so_offset _ Hok ltac:(lia)).
  unfold FALCON_STORE_STREAM_MAX_SIZE in *. split; lia.
Qed.

Lemma view_empty ws l : sd_size (data ws) = 0 -> view ws l = l.
Proof. intros E. unfold view, pending. by rewrite E. Qed.

Definition cleared ws : WriteStream := set_data (SerialData_Clear (data ws)) ws.

Lemma stream_ok_cleared ws : stream_ok ws -> stream_ok (cleared ws).
Proof. intros Hok. split; cbn; try done; try apply Hok; lia. Qed.

(** Persist empties the buffer and returns whether its bytes were written. *)
Lemma wp_Persist ws cur x s :
  stream_ok ws -> serving s.2 ->
  wp (Persist ws cur x)
     (fun r s' => r.2 = cleared ws /\ serving s'.2 /\ (r.1 = 0 -> content s'.2 = view ws (content s.2)) /\
                  (answering s.2 -> r.1 = 0 /\ answering s'.2)) s.
Proof.
  intros Hok Hs. unfold Persist. rewrite decide_False by (rewrite (so_client _ Hok); by intros [? _]). apply wp_bind.
  unfold SerialData_Empty. case_bool_decide as He.
  - apply wp_ret, wp_ret. split_and!; [done|done| |done]. intros _. by rewrite view_empty.
  - pose proof (so_size _ Hok). pose proof (so_length _ Hok) as Hl. pose proof (so_offset _ Hok ltac:(lia)).
    assert (pending ws <> []) as Hne by (intros E; rewrite E in Hl; cbn in Hl; lia).
    pose proof (stream_in_call ws Hok He) as Hcall. unfold pending in *. destruct (mem (buf (data ws))) as [m|] eqn:Em; [|by destruct Hne; cbn; apply take_nil].
    cbn in Hne, Hl, Hcall.
    assert (PersistToFile ws (Some m) (sd_size (data ws)) (sd_offset (data ws)) cur x =
            PersistToFile ws (Some (take (Z.to_nat (sd_size (data ws))) m)) (sd_size (data ws)) (sd_offset (data ws)) cur x) as ->.
    { unfold PersistToFile. by rewrite take_take, Nat.min_id. }
    rewrite <- Hl at 2. eapply wp_weaken; [|apply wp_PersistToFile; [apply Hok..|exact Hcall|done|done]].
    intros r s' (W0 & W1 & _ & W3). apply wp_ret. split_and!; [done|done| |done]. intros E. rewrite (W1 E). unfold view, pending. by rewrite Em.
Qed.

Definition appended (b : list Z) (off : Z) ws : WriteStream := set_data (SerialData_Append true b off (data ws)).2 ws.

Lemma Append_data ws b off :
  stream_ok ws -> sd_size (data ws) + Z.of_nat (length b) <= FALCON_STORE_STREAM_MAX_SIZE ->
  sd_size (data (appended b off ws)) = sd_size (data ws) + Z.of_nat (length b) /\
  fm_size (buf (data (appended b off ws))) = sd_size (data ws) + Z.of_nat (length b) /\
  sd_offset (data (appended b off ws)) = (if decide (sd_offset (data ws) = -1) then off else sd_offset (data ws)) /\
  pending (appended b off ws) = pending ws ++ b.
Proof.
  intros Hok Hfit. pose proof (so_size _ Hok). pose proof (so_length _ Hok) as Hl. unfold FALCON_STORE_STREAM_MAX_SIZE in *.
  unfold appended, SerialData_Append, FixMemory_Append. rewrite (so_fm _ Hok).
  rewrite (wrap_small 64 (sd_size (data ws) + Z.of_nat (length b))) by (unfold in_range; lia).
  assert (capacity <? sd_size (data ws) + Z.of_nat (length b) = false) as -> by (apply Z.ltb_ge; done).
  unfold pending in *. destruct (mem (buf (data ws))) as [m|]; cbn; split_and!; try done; cbn in Hl.
  - rewrite app_assoc, Z2Nat.inj_add, Nat2Z.id by lia. apply take_app_length'. rewrite length_app. lia.
  - rewrite take_nil in *. cbn. rewrite drop_nil, app_nil_r, Z2Nat.inj_add, Nat2Z.id by lia. apply take_ge. cbn in Hl. lia.
Qed.

Lemma stream_ok_appended ws b off :
  stream_ok ws -> 0 <= off /\ off + Z.of_nat (length b) < 2 ^ 63 -> b <> [] ->
  sd_size (data ws) + Z.of_nat (length b) <= FALCON_STORE_STREAM_MAX_SIZE ->
  (sd_size (data ws) = 0 \/ sd_offset (data ws) + sd_size (data ws) = off) ->
  stream_ok (appended b off ws) /\
  forall l, view (appended b off ws) l = write_at (view ws l) (Z.to_nat off) b.
Proof.
  intros Hok Hoff Hb Hfit Hc. destruct (Append_data ws b off Hok Hfit) as (E1 & E2 & E3 & E4).
  pose proof (so_size _ Hok). pose proof (so_length _ Hok) as Hl.
  assert (0 < Z.of_nat (length b)) by (destruct b; [done|cbn; lia]). split; [split|].
  - apply Hok.
  - apply Hok.
  - congruence.
  - rewrite E1. lia.
  - rewrite E1. lia.
  - intros _. rewrite E3, E1. pose proof (so_offset _ Hok). pose proof (so_empty _ Hok). case_decide; lia.
  - rewrite E4, E1, length_app. lia.
  - intros l. unfold view. rewrite E3, E4. destruct (decide (sd_size (data ws) = 0)) as [Hz|Hz].
    + assert (pending ws = []) as -> by (apply length_zero_iff_nil; lia). by rewrite (so_empty _ Hok Hz), decide_True.
    + destruct Hc as [|Hc]; [done|]. pose proof (so_offset _ Hok ltac:(lia)). rewrite decide_False by lia.
      rewrite <- Hc, Z2Nat.inj_add by lia. rewrite <- write_at_app by (intros E; rewrite E in Hl; cbn in Hl; lia).
      f_equal. lia.
Qed.

(** The outcome of a Push of [b] at [off]. *)
Definition pushed b off ws (s : world) (r : Z * WriteStream) (s' : world) : Prop :=
  stream_ok r.2 /\ serving s'.2 /\
  (r.1 = 0 -> view r.2 (content s'.2) = write_at (view ws (content s.2)) (Z.to_nat off) b) /\
  (answering s.2 -> r.1 = 0 /\ answering s'.2).

Lemma view_cleared ws l : view (cleared ws) l = l.
Proof. done. Qed.

(** Persist, where the code calls it or leaves the buffer as it is. *)
Lemma wp_persist_if (p : bool) ws cur x s :
  stream_ok ws -> serving s.2 ->
  wp (if p then Persist ws cur x else mret (0, ws))
     (fun r s' => stream_ok r.2 /\ serving s'.2 /\ (r.1 = 0 -> view r.2 (content s'.2) = view ws (content s.2)) /\
                  r.2 = (if p then cleared ws else ws) /\ (answering s.2 -> r.1 = 0 /\ answering s'.2)) s.
Proof.
  intros Hok Hs. destruct p; [|by apply wp_ret]. eapply wp_weaken; [|by apply wp_Persist]. intros r s' (E1 & E0 & E2 & E3). rewrite E1.
  split_and!; [by apply stream_ok_cleared|done| |done|done]. intros E. by rewrite view_cleared, E2.
Qed.

Lemma wp_Push ws b off cur x s :
  stream_ok ws -> serving s.2 -> in_call off b -> wp (Push ws b off cur true x) (fun r s' => pushed b off ws s r s') s.
Proof.
  intros Hok Hs Hcall. destruct Hcall as [Hoff Hlen] eqn:Hc. clear Hc. unfold Push. destruct (Z.leb_spec (Z.of_nat (length b)) 0) as [Hz|Hb].
  { apply wp_ret. assert (b = []) as -> by (apply length_zero_iff_nil; lia). by split_and!. }
  assert (b <> []) as Hne by (by destruct b). rewrite (so_client _ Hok). apply wp_bind.
  eapply wp_weaken; [|by apply wp_persist_if]. intros [r1 ws1] s1 (O1 & S1 & V1 & D1 & R1). cbn [fst snd] in *. destruct (decide (r1 <> 0)) as [Hr1|Hr1].
  { apply wp_ret. split_and!; [done|done|by intros E|intros R; by destruct (R1 R)]. }
  assert (r1 = 0) as -> by (by destruct (decide (r1 = 0))). specialize (V1 eq_refl).
  destruct (Z.leb_spec FALCON_STORE_STREAM_MAX_SIZE (Z.of_nat (length b))) as [Hlarge|Hsmall].
  - rewrite orb_true_r in D1. subst ws1. apply wp_bind. eapply wp_weaken; [|by apply wp_PersistToFile; [apply O1..| | |]].
    intros r s2 (W0 & W1 & W2 & W3). apply wp_ret. cbn in *. split_and!; [done|done| |naive_solver]. intros E. cbn in E. subst r.
    rewrite view_cleared in *. rewrite W1 by done. by rewrite V1.
  - rewrite orb_false_r in D1. apply wp_bind. eapply wp_weaken; [|by apply wp_persist_if].
    intros [r2 ws2] s2 (O2 & S2 & V2 & D2 & R2). cbn [fst snd] in *. destruct (decide (r2 <> 0)) as [Hr2|Hr2].
    { apply wp_ret. split_and!; [done|done|by intros E|intros R; destruct R1 as [_ R1]; [done|]; by destruct (R2 R1)]. }
    assert (r2 = 0) as -> by (by destruct (decide (r2 = 0))). specialize (V2 eq_refl). apply wp_ret.
    destruct (stream_ok_appended ws2 b off O2) as [O3 V3]; [apply Hoff|done| | |].
    { pose proof (so_size _ O1). subst ws2. destruct (Z.ltb_spec FALCON_STORE_STREAM_MAX_SIZE (u64 (sd_size (data ws1) + Z.of_nat (length b)))) as [|Hfit].
      - cbn. lia.
      - rewrite wrap_small in Hfit by (unfold in_range, FALCON_STORE_STREAM_MAX_SIZE in *; lia). lia. }
    { subst ws2. case_match; [by left|]. subst ws1. case_bool_decide as Hend; [|by left]. cbn [negb].
      destruct (decide (sd_size (data ws) = 0)) as [|Hz]; [by left|]. right. pose proof (so_size _ Hok).
      pose proof (so_offset _ Hok ltac:(lia)). unfold SerialData_End in Hend. rewrite decide_False in Hend by lia.
      unfold FALCON_STORE_STREAM_MAX_SIZE in *. rewrite !wrap_small in Hend by (unfold in_range; lia). lia. }
    split_and!; [done|done| |naive_solver]. intros _. cbn [snd]. change (set_data _ ws2) with (appended b off ws2). by rewrite V3, V2, V1.
Qed.

(** ** All writes *)

Definition write_all (l : list Z) (writes : list (list Z * Z * Z)) : list Z :=
  foldl (fun l w => write_at l (Z.to_nat w.1.2) w.1.1) l writes.

Lemma wp_push_all x writes : forall ws s,
  stream_ok ws -> serving s.2 -> Forall (fun w => in_call w.1.2 w.1.1) writes ->
  wp (push_all ws writes x)
     (fun r s' => stream_ok r.2 /\ serving s'.2 /\
        (Forall (fun ret => ret = 0) r.1 -> view r.2 (content s'.2) = write_all (view ws (content s.2)) writes) /\
        (answering s.2 -> Forall (fun ret => ret = 0) r.1 /\ answering s'.2)) s.
Proof.
  induction writes as [|[[b off] cur] writes IH]; intros ws s Hok Hs Hw; [by apply wp_ret|]. apply Forall_cons in Hw as [Ho Hw].
  apply wp_bind. eapply wp_weaken; [|by apply wp_Push]. intros [r1 ws1] s1 (O1 & S1 & V1 & R1). cbn [fst snd] in *. apply wp_bind.
  eapply wp_weaken; [|by apply IH]. intros [rs ws2] s2 (O2 & S2 & V2 & R2). apply wp_ret. cbn [fst snd] in *. split_and!; [done|done| |].
  - intros [H1 H2]%Forall_cons. rewrite V2 by done. cbn. by rewrite V1.
  - intros R. destruct (R1 R) as [E1 A1]. destruct (R2 A1) as [E2 A2]. split; [by constructor|done].
Qed.

Lemma wp_Complete ws cur fl sy x s :
  stream_ok ws -> serving s.2 ->
  wp (Complete ws cur fl sy x)
     (fun r s' => (r.1 = 0 -> content s'.2 = view ws (content s.2)) /\ (answering s.2 -> r.1 = 0)) s.
Proof.
  intros Hok Hs. unfold Complete. rewrite (so_client _ Hok), (so_fd _ Hok). unfold SerialData_Empty. case_bool_decide as He.
  - apply wp_bind, wp_call, wp_ret. cbn [fst snd]. rewrite view_empty by done. split.
    + intros E. by apply (CloseFile_law fl sy [] 0 _ in_call_nil).
    + intros A. by apply (CloseFile_answers fl sy [] 0 _ in_call_nil).
  - pose proof (so_size _ Hok). pose proof (so_offset _ Hok ltac:(lia)). apply wp_bind.
    fold (pending ws). eapply wp_weaken; [|apply (wp_rpc_retry (fun _ => True) (sd_offset (data ws)) (pending ws) _ 2); [done|..]].
    + intros r s' (W0 & W1 & _ & W3). apply wp_ret. cbn. split; [done|]. intros A. by apply W3.
    + intros f Hf. apply CloseFile_law; [by apply stream_in_call|done].
    + intros f A. split; [|done]. apply CloseFile_answers; [by apply stream_in_call|done].
Qed.


(** When the pool has no block, Push returns 0 and the bytes are gone. *)
Lemma Push_without_memory ws b cur x s :
  is_Some (client ws) -> data ws = new_SerialData -> 0 < Z.of_nat (length b) < FALCON_STORE_STREAM_MAX_SIZE ->
  wp (Push ws b 0 cur false x) (fun r s' => r.1 = 0 /\ data r.2 = new_SerialData /\ s' = s) s.
Proof.
  intros [c' Hc] Hd Hb. unfold Push. destruct (Z.leb_spec (Z.of_nat (length b)) 0); [lia|]. rewrite Hc, Hd. cbn [negb].
  destruct (Z.leb_spec FALCON_STORE_STREAM_MAX_SIZE (Z.of_nat (length b))); [lia|]. rewrite bool_decide_true by done.
  apply wp_bind, wp_ret. rewrite decide_False by auto. apply wp_bind. rewrite Hd. cbn [sd_size new_SerialData].
  rewrite wrap_small by (unfold in_range, FALCON_STORE_STREAM_MAX_SIZE in *; lia).
  destruct (Z.ltb_spec FALCON_STORE_STREAM_MAX_SIZE (0 + Z.of_nat (length b))); [lia|]. apply wp_ret.
  rewrite decide_False by auto. apply wp_ret. by rewrite Hd.
Qed.
End remote.

(** ** Writes to a file of this node *)

Section local.

Context `{StreamIO} `{!CacheFsLaws}.

Implicit Types (s : world) (ws : WriteStream).

(** The cache is sound and what is reserved is as before. *)
Definition balanced (s s' : world) : Prop := ok s'.1 /\ stop s'.1 = stop s.1 /\ reservedCap s'.1 = reservedCap s.1.

Lemma balanced_steps eff s s' : steps_to eff s s' -> balanced s s'.
Proof. intros (H1 & [= H2 H3] & _). by split_and!. Qed.

Lemma balanced_trans s s1 s2 : balanced s s1 -> balanced s1 s2 -> balanced s s2.
Proof. intros (H1 & H2 & H3) (G1 & G2 & G3). split_and!; congruence. Qed.

Lemma wp_FreePreAllocSpace size s1 s :
  ok s1.1 -> stop s1.1 = stop s.1 -> in_range 64 (reservedCap s.1) ->
  reservedCap s1.1 = (if stop s.1 then reservedCap s.1 else u64 (reservedCap s.1 + size)) ->
  wp (FreePreAllocSpace size) (fun _ s' => balanced s s' /\ s'.2 = s1.2 /\ index s'.1 = index s1.1) s1.
Proof.
  intros Hok Hs Hr E. apply wp_bind, wp_cache. rewrite Hs. destruct (stop s.1) eqn:Es; [apply wp_ret|apply wp_upd].
  - split_and!; [split_and!; congruence|done..].
  - split_and!; [|done..]. split_and!; [done|cbn; congruence|]. cbn. rewrite E, wrap_sub_l, Z.add_simpl_r. by apply wrap_small.
Qed.

(** A reservation around [body], which may change the cache but not what is
    reserved, is given back. *)
Lemma wp_reserved {A} size dur (body : bool -> act A) (Q : A -> world -> Prop) s :
  ok s.1 -> in_range 64 (reservedCap s.1) ->
  (forall s1, balanced s s1 -> wp (body false) Q s1) ->
  (forall s1, ok s1.1 -> stop s1.1 = stop s.1 ->
     reservedCap s1.1 = (if stop s.1 then reservedCap s.1 else u64 (reservedCap s.1 + size)) -> wp (body true) Q s1) ->
  wp (b ← PreAllocSpace size dur; body b) Q s.
Proof.
  intros Hok Hr Hf Ht. apply wp_bind. eapply wp_weaken; [|by apply wp_PreAllocSpace]. intros b s1 (os & _ & (R1 & R2 & _) & E).
  destruct (stop s.1) eqn:Es.
  - destruct E as [-> ->]. by apply Ht.
  - destruct b, E as [E _]; [apply Ht; congruence|]. apply Hf. split_and!; congruence.
Qed.

Lemma wp_PersistToFile_local ws b size off cur x s :
  client ws = None -> ok s.1 -> in_range 64 (reservedCap s.1) ->
  wp (PersistToFile ws b size off cur x) (fun _ s' => balanced s s') s.
Proof.
  intros Hc Hok Hr. unfold PersistToFile. rewrite Hc. destruct (size <=? 0); [by apply wp_ret|]. destruct b as [b|]; [|by apply wp_ret].
  set (sizeToAdd := u64 (Z.max (u64 (off + size)) cur - cur)).
  assert (forall s1 r, ok s1.1 -> stop s1.1 = stop s.1 ->
    reservedCap s1.1 = (if stop s.1 then reservedCap s.1 else u64 (reservedCap s.1 + sizeToAdd)) ->
    wp (_ ← FreePreAllocSpace sizeToAdd; mret r) (fun (_ : Z) s' => balanced s s') s1) as Hend.
  { intros s1 r O1 S1 R1. apply wp_bind. eapply wp_weaken; [|by apply (wp_FreePreAllocSpace sizeToAdd s1 s)].
    intros [] s2 [B _]. by apply wp_ret. }
  apply wp_reserved; [done..|by intros s1 B; apply wp_ret|]. intros s1 O1 S1 R1. cbn [negb].
  apply wp_bind, wp_call, wp_if; intros _; [by apply Hend|]. apply wp_bind.
  eapply wp_weaken; [|by apply wp_Add]. intros added s2 [(O2 & [= S2 R2] & _) _].
  destruct added; apply Hend; cbn in *; congruence.
Qed.

End local.

Module StreamDemo.

(** Files on the other node by their descriptors. *)
#[export] Instance demo_stream_cache : CacheFs := {
  rootPath := "/c";
  totalDirectory := 1;
  float_undefined := fun _ => 0;
  fs := gmap Z (list Z);
  remove _ f := (2, f);
  access _ _ := false;
  statfs _ _ := None;
  opendir _ _ := None;
  stat _ _ := None
}.

Definition demo_write (fd : Z) (b : list Z) (o : Z) (f : gmap Z (list Z)) : Z * gmap Z (list Z) :=
  (0, <[fd := write_at (f !!! fd) (Z.to_nat o) b]> f).

#[export] Instance demo_stream_nodes : NodeWorld := {
  conn := unit;
  rehash V k v l := (k, v) :: l;
  CreateIOConnection _ := Some tt;
  CheckConnection _ _ := 0
}.

(** The calls the stream does not make fail. *)
#[export] Instance demo_stream_brpc : Brpc.
Proof.
  refine {| ENOSERVICE := 1001; ENOMETHOD := 1002; EREQUEST := 1003; ERPCAUTH := 1004; ERPCTIMEDOUT := 1008; EFAILEDSOCKET := 1009;
    stub_OpenFile _ _ f := (Failed 1, f);
    stub_CloseFile _ r b f := let '(e, f) := demo_write (cr_physical_fd r) b (cr_offset r) f in (Replied e [], f);
    stub_ReadFile _ _ f := (Failed 1, f);
    stub_ReadSmallFile _ _ f := (Failed 1, f);
    stub_WriteFile _ r b f :=
      let '(e, f) := demo_write (wr_physical_fd r) b (wr_offset r) f in
      (Replied {| wr_error_code := e; wr_write_size := Z.of_nat (length b) |} [], f);
    stub_DeleteFile _ _ f := (Failed 1, f);
    stub_StatFS _ _ f := (Failed 1, f);
    stub_TruncateOpenInstance _ _ f := (Failed 1, f);
    stub_TruncateFile _ _ f := (Failed 1, f);
    stub_CheckConnection _ f := (Replied 0 [], f);
    stub_StatCluster _ _ _ f := (Failed 1, f) |}.
  apply (bool_decide_unpack _). by vm_compute.
Defined.

#[export] Instance demo_stream : StreamIO := {
  pwrite _ b _ f := (Z.of_nat (length b), f)
}.

Lemma demo_WriteFile b o (f : gmap Z (list Z)) : in_call o b -> rpc_WriteFile (tt : conn) 7 b o f = (0, <[7 := write_at (f !!! 7) (Z.to_nat o) b]> f).
Proof.
  intros [Ho Hb]. unfold rpc_WriteFile. cbn -[u64 s32 Z.of_nat].
  rewrite (wrap_small 64 o), s32_small, (wrap_small 64 (Z.of_nat _)) by (unfold in_range; lia). by rewrite !decide_False by auto.
Qed.

Lemma demo_CloseFile fl sy b o (f : gmap Z (list Z)) : in_call o b ->
  rpc_CloseFile (tt : conn) 7 fl sy b o f = (0, <[7 := write_at (f !!! 7) (Z.to_nat o) b]> f).
Proof. intros [Ho Hb]. unfold rpc_CloseFile. cbn -[u64]. rewrite (wrap_small 64 o) by (unfold in_range; lia). done. Qed.

#[export] Instance demo_remote : RemoteFile (tt : conn) 7.
Proof.
  refine {| content f := (f : gmap Z (list Z)) !!! 7; serving _ := True; answering _ := True |}; intros;
    rewrite ?demo_WriteFile, ?demo_CloseFile by done; cbn; rewrite ?lookup_total_insert_eq; split_and?; try done; apply write_at_again.
Defined.

Definition demo_ws : WriteStream :=
  {| ws_physicalFd := 7; client := Some (tt : conn); data := new_SerialData; ws_inodeId := 1; direct := false |}.

Definition demo_writes : list (list Z * Z * Z) := [([1; 2; 3], 0, 0); ([4], 3, 3); ([9; 9], 1, 4); ([5], 6, 4)].


End StreamDemo.
