(* ===== verification/ReadStream.v ===== *)
(** * Reading ahead

    common/src/read_stream/read_stream.cpp: up to three pipes of one block each are
    filled by one thread per pipe, thread i with the blocks i, i + n, i + 2n, ...
    of the file, and emptied in turn by the reader.

    The state is that of a ReadStream, with the position of every thread in its
    loop and of the reader in WaitPop.  A step is what happens between two points
    at which another thread can come in: a pipe is filled and emptied under its
    mutex, but its capacity and the flags are read outside of it.  A step is an
    executable function of an [action], so that an interleaving is a list of
    actions.  ReadFileLR delivers the bytes of the file or fails with an error
    ([Thread i (Some e)]). *)

From S2P Require Import FalconPrelude FileBytes.

Definition QUEUE_SIZE : nat := 3.

Record Pipe : Type := {
  p_mem : list Z;
  p_capacity : Z;
  p_size : Z;
  p_index : Z;
  p_stop : bool
}.

(** The position of a push thread: before the test of the loop, before WaitPush,
    after it, before and after it sets the flag of its pipe. *)
Inductive thread : Type :=
| Check_ (offset : Z)
| Pushing (offset : Z)
| Pushed (offset retSize : Z)
| Ending
| Finished.

(** The position of the reader: outside of WaitPop, or in its loop with the bytes
    it has got so far. *)
Inductive reader : Type :=
| Idle
| Popping (popSize : Z) (got : list Z).

Record ReadStream : Type := {
  stopOffset : Z;
  pipeCap : Z;
  pipeIndex : nat;
  pipeNum : nat;
  pipes : list Pipe;
  threads : list thread;
  rs_stop : bool;
  rs_reader : reader
}.

Definition set_pipe (i : nat) (p : Pipe) (s : ReadStream) : ReadStream :=
  {| stopOffset := stopOffset s; pipeCap := pipeCap s; pipeIndex := pipeIndex s; pipeNum := pipeNum s; pipes := <[i := p]> (pipes s);
     threads := threads s; rs_stop := rs_stop s; rs_reader := rs_reader s |}.
Definition set_thread (i : nat) (t : thread) (s : ReadStream) : ReadStream :=
  {| stopOffset := stopOffset s; pipeCap := pipeCap s; pipeIndex := pipeIndex s; pipeNum := pipeNum s; pipes := pipes s;
     threads := <[i := t]> (threads s); rs_stop := rs_stop s; rs_reader := rs_reader s |}.
Definition set_stopOffset (o : Z) (s : ReadStream) : ReadStream :=
  {| stopOffset := o; pipeCap := pipeCap s; pipeIndex := pipeIndex s; pipeNum := pipeNum s; pipes := pipes s;
     threads := threads s; rs_stop := rs_stop s; rs_reader := rs_reader s |}.
Definition set_reader (r : reader) (s : ReadStream) : ReadStream :=
  {| stopOffset := stopOffset s; pipeCap := pipeCap s; pipeIndex := pipeIndex s; pipeNum := pipeNum s; pipes := pipes s;
     threads := threads s; rs_stop := rs_stop s; rs_reader := r |}.
Definition set_rs_stop (b : bool) (s : ReadStream) : ReadStream :=
  {| stopOffset := stopOffset s; pipeCap := pipeCap s; pipeIndex := pipeIndex s; pipeNum := pipeNum s; pipes := pipes s;
     threads := threads s; rs_stop := b; rs_reader := rs_reader s |}.

Definition addPipeIndex (s : ReadStream) : ReadStream :=
  {| stopOffset := stopOffset s; pipeCap := pipeCap s; pipeIndex := (pipeIndex s + 1) `mod` pipeNum s; pipeNum := pipeNum s;
     pipes := pipes s; threads := threads s; rs_stop := rs_stop s; rs_reader := rs_reader s |}.

(** ** Pipes *)

Definition Pipe_Init (initSize : Z) (initMem : list Z) : Pipe :=
  {| p_mem := initMem; p_capacity := initSize; p_size := initSize; p_index := initSize; p_stop := false |}.

Definition Destroy : Pipe := {| p_mem := []; p_capacity := 0; p_size := 0; p_index := 0; p_stop := true |}.

(** Pipe::WaitPop: [None] while it waits; the value, the bytes, [end] and the pipe. *)
Definition Pipe_WaitPop (popSize : Z) (p : Pipe) : option (Z * list Z * bool * Pipe) :=
  if (negb (p_index p =? p_size p) || (p_size p <=? 0) || p_stop p)%bool then
    if p_size p <? 0 then Some (p_size p, [], false, Destroy)
    else if p_size p =? 0 then Some (0, [], false, Destroy)
    else if ((p_index p =? p_size p) && p_stop p)%bool then Some (0, [], false, Destroy)
    else
      let readSize := Z.min popSize (p_size p - p_index p) in
      let bytes := take (Z.to_nat readSize) (drop (Z.to_nat (p_index p)) (p_mem p)) in
      let index := p_index p + readSize in
      let p' := {| p_mem := p_mem p; p_capacity := p_capacity p; p_size := p_size p; p_index := index; p_stop := p_stop p |} in
      if index =? p_size p then Some (readSize, bytes, true, if p_stop p then Destroy else p')
      else Some (readSize, bytes, false, p')
  else None.

(** Pipe::WaitPush: [read] is ReadFileLR, its value and the bytes read. *)
Definition Pipe_WaitPush (read : Z -> Z -> Z * list Z) (offset : Z) (p : Pipe) : option (Z * Pipe) :=
  if ((p_index p =? p_size p) || p_stop p)%bool then
    if p_stop p then Some (0, p)
    else
      let '(readSize, bytes) := read offset (p_capacity p) in
      Some (readSize, {| p_mem := bytes ++ drop (length bytes) (p_mem p); p_capacity := p_capacity p; p_size := readSize;
                         p_index := 0; p_stop := p_stop p |})
  else None.

(** ** The stream *)

(** Init and StartPushThreaded with [blocks] blocks in the file; [mem] is what the
    memory pool gives, nothing when it has not enough. *)
Definition Init (blocks pipeSize : Z) (mem : list (list Z)) : option ReadStream :=
  let n := Z.to_nat (Z.min blocks (Z.of_nat QUEUE_SIZE)) in
  match mem with
  | [] => None
  | _ =>
      Some {| stopOffset := UINT64_MAX; pipeCap := pipeSize; pipeIndex := 0; pipeNum := n;
              pipes := (fun i => Pipe_Init pipeSize (mem !!! i)) <$> seq 0 n; threads := replicate n Finished; rs_stop := false;
              rs_reader := Idle |}
  end.

Definition StartPushThreaded (s : ReadStream) : ReadStream :=
  {| stopOffset := stopOffset s; pipeCap := pipeCap s; pipeIndex := pipeIndex s; pipeNum := pipeNum s; pipes := pipes s;
     threads := (fun i => Check_ (u64 (Z.of_nat i * pipeCap s))) <$> seq 0 (pipeNum s); rs_stop := rs_stop s;
     rs_reader := rs_reader s |}.

(** ReadFileLR on [file]; [fail] is an error of this call. *)
Definition read_file (file : list Z) (fail : option Z) (offset size : Z) : Z * list Z :=
  match fail with
  | Some e => (- e, [])
  | None => let bytes := read_at file (Z.to_nat offset) (Z.to_nat size) in (Z.of_nat (length bytes), bytes)
  end.

Inductive action : Type :=
| Thread (i : nat) (fail : option Z)
| Call (popSize : Z)
| Read
| Stop
| StopPipe (i : nat).

(** What a WaitPop of [popSize] bytes returned. *)
Record output : Type := {
  o_popSize : Z;
  o_ret : Z;
  o_bytes : list Z
}.

Section step.

Variable file : list Z.

Definition thread_step (i : nat) (fail : option Z) (s : ReadStream) : option ReadStream :=
  t ← threads s !! i;
  p ← pipes s !! i;
  match t with
  | Check_ offset =>
      Some (set_thread i (if (negb (rs_stop s) && (offset <? stopOffset s))%bool then Pushing offset else Ending) s)
  | Pushing offset =>
      '(retSize, p') ← Pipe_WaitPush (read_file file fail) offset p;
      Some (set_pipe i p' (set_thread i (Pushed offset retSize) s))
  | Pushed offset retSize =>
      if negb (retSize =? p_capacity p) then Some (set_stopOffset offset (set_thread i Ending s))
      else Some (set_thread i (Check_ (u64 (offset + Z.of_nat (pipeNum s) * pipeCap s))) s)
  | Ending =>
      let p' := {| p_mem := p_mem p; p_capacity := p_capacity p; p_size := p_size p; p_index := p_index p; p_stop := true |} in
      Some (set_pipe i p' (set_thread i Finished s))
  | Finished => None
  end.

(** One round of the loop of ReadStream::WaitPop. *)
Definition reader_step (s : ReadStream) : option (ReadStream * list output) :=
  match rs_reader s with
  | Idle => None
  | Popping popSize got =>
      let readSize := Z.of_nat (length got) in
      let done ret := [{| o_popSize := popSize; o_ret := ret; o_bytes := got |}] in
      if (rs_stop s || (readSize =? popSize))%bool then Some (set_reader Idle s, done readSize)
      else
        p ← pipes s !! pipeIndex s;
        '(curSize, bytes, isEnd, p') ← Pipe_WaitPop (popSize - readSize) p;
        let s' := set_pipe (pipeIndex s) p' s in
        let s' := if isEnd : bool then addPipeIndex s' else s' in
        if curSize <? 0 then Some (set_reader Idle s', done curSize)
        else if curSize =? 0 then Some (set_reader Idle s', done readSize)
        else Some (set_reader (Popping popSize (got ++ bytes)) s', [])
  end.

(** StopPushThreaded: the flag of the stream, while the reader is outside, and then
    the pipes one by one. *)
Definition step (a : action) (s : ReadStream) : option (ReadStream * list output) :=
  match a with
  | Thread i fail => s' ← thread_step i fail s; Some (s', [])
  | Call popSize =>
      match rs_reader s with Idle => Some (set_reader (Popping popSize []) s, []) | Popping _ _ => None end
  | Read => reader_step s
  | Stop => match rs_reader s with Idle => Some (set_rs_stop true s, []) | Popping _ _ => None end
  | StopPipe i => if (rs_stop s && bool_decide (i < pipeNum s)%nat)%bool then Some (set_pipe i Destroy s, []) else None
  end.

Fixpoint run (acts : list action) (s : ReadStream) : option (ReadStream * list output) :=
  match acts with
  | [] => Some (s, [])
  | a :: acts' => '(s1, o1) ← step a s; '(s2, o2) ← run acts' s1; Some (s2, o1 ++ o2)
  end.

End step.

(** The flags that the destructor sets before it waits for the threads. *)
Definition destructor (s : ReadStream) : ReadStream :=
  {| stopOffset := stopOffset s; pipeCap := pipeCap s; pipeIndex := pipeIndex s; pipeNum := pipeNum s;
     pipes := (fun p => {| p_mem := p_mem p; p_capacity := p_capacity p; p_size := p_size p; p_index := p_index p; p_stop := true |}) <$> pipes s;
     threads := threads s; rs_stop := rs_stop s; rs_reader := rs_reader s |}.

(** ** The calls of the store *)

(** The members as they are initialised in the class. *)
Definition new_ReadStream : ReadStream :=
  {| stopOffset := UINT64_MAX; pipeCap := 0; pipeIndex := 0; pipeNum := 0; pipes := []; threads := []; rs_stop := true;
     rs_reader := Idle |}.

(** StopPushThreaded, as one step. *)
Definition StopPushThreaded (s : ReadStream) : ReadStream :=
  {| stopOffset := stopOffset s; pipeCap := pipeCap s; pipeIndex := pipeIndex s; pipeNum := pipeNum s;
     pipes := (fun _ => Destroy) <$> pipes s; threads := threads s; rs_stop := true; rs_reader := rs_reader s |}.

(** WaitPushEnded: all threads have been joined. *)
Definition WaitPushEnded (s : ReadStream) : ReadStream :=
  {| stopOffset := stopOffset s; pipeCap := pipeCap s; pipeIndex := pipeIndex s; pipeNum := pipeNum s; pipes := pipes s;
     threads := (fun _ => Finished) <$> threads s; rs_stop := rs_stop s; rs_reader := rs_reader s |}.

(** WaitPop of [popSize] bytes while the threads of the stream read [file] and take
    the steps [acts], the last of which is that of the reader that returns. *)
Definition WaitPop (file : list Z) (acts : list action) (popSize : Z) (s : ReadStream) : option (Z * list Z * ReadStream) :=
  '(s', outs) ← run file (Call popSize :: acts) s;
  match outs with
  | [o] => Some (o_ret o, o_bytes o, s')
  | _ => None
  end.
