(* ===== verification/ReadStreamCorrect.v ===== *)
(** * Reading ahead delivers the file

    Under every interleaving of the threads of ReadStream.v the reader gets the
    bytes of the file in order and sees its end where it is, and it does not wait
    for ever. *)

From S2P Require Import FalconPrelude FileBytes ReadStream.

#[local] Notation "x ⊛ y" := (Nat.modulo x y) (at level 40, left associativity).

Section correct.

(** [c] is the size of a block and [n] the number of pipes. *)
Variables (file : list Z) (c n : nat).
Hypothesis Hc : (0 < c)%nat.
Hypothesis Hn : (0 < n)%nat.
Hypothesis Hbound : Z.of_nat (length file + n * c) < 2 ^ 63.

Definition block (x : nat) : list Z := read_at file (x * c) c.
Definition off (x : nat) : Z := Z.of_nat (x * c).

Lemma block_length x : length (block x) = Nat.min c (length file - x * c).
Proof. unfold block, read_at. by rewrite length_take, length_drop. Qed.

(** ** The block that a pipe has to deliver next *)

(** Block [x] is the next one of pipe [j] when the reader is at block [B]. *)
Definition due (B j x : nat) : Prop := x ⊛ n = j /\ (B <= x < B + n)%nat.

Lemma due_exists B j : (j < n)%nat -> exists x, due B j x.
Proof.
  intros Hj. exists (B + (j + (n - B ⊛ n)) ⊛ n)%nat. split.
  - rewrite Nat.Div0.add_mod_idemp_r. rewrite (Nat.Div0.div_mod B n) at 1.
    pose proof (Nat.mod_upper_bound B n ltac:(lia)).
    replace (n * (Nat.div B n) + B ⊛ n + (j + (n - B ⊛ n)))%nat with (j + (Nat.div B n + 1) * n)%nat by lia.
    rewrite Nat.Div0.mod_add. by apply Nat.mod_small.
  - pose proof (Nat.mod_upper_bound (j + (n - B ⊛ n)) n ltac:(lia)). lia.
Qed.

Lemma mod_close x y : x ⊛ n = y ⊛ n -> (x < y + n)%nat -> (y < x + n)%nat -> x = y.
Proof.
  intros E H1 H2. pose proof (Nat.Div0.div_mod x n). pose proof (Nat.Div0.div_mod y n).
  assert (Nat.div x n = Nat.div y n) by nia. congruence.
Qed.

Lemma due_unique B j x y : due B j x -> due B j y -> x = y.
Proof. intros [E1 H1] [E2 H2]. apply mod_close; [congruence|lia..]. Qed.

Lemma due_lt B j x : due B j x -> (j < n)%nat.
Proof. intros [<- _]. apply Nat.mod_upper_bound. lia. Qed.

Lemma due_self B : due B (B ⊛ n) B.
Proof. split; [done|lia]. Qed.

Lemma due_next B j x : due B j x -> x <> B -> due (S B) j x.
Proof. intros [E H] Hne. split; [done|lia]. Qed.

Lemma due_wrap B : due (S B) (B ⊛ n) (B + n).
Proof. split; [|lia]. rewrite <- (Nat.mul_1_l n) at 1. apply Nat.Div0.mod_add. Qed.

(** ** The invariant *)

Definition is_finished (t : thread) : bool := match t with Finished => true | _ => false end.
Definition ends (t : thread) : Prop := t = Ending \/ t = Finished.

(** The thread of a pipe that has to get block [x], and of one that has it.
    [dead x]: block [x] will not be delivered. *)
Definition due_thread (dead : nat -> Prop) (x : nat) (t : thread) : Prop :=
  ((t = Check_ (off x) \/ t = Pushing (off x)) /\ (x * c <= length file + n * c)%nat) \/
  (exists y, x = (y + n)%nat /\ t = Pushed (off y) (Z.of_nat (length (block y))) /\ (0 < length (block y))%nat) \/
  (ends t /\ dead x).
Definition held_thread (dead : nat -> Prop) (x : nat) (t : thread) : Prop :=
  t = Pushed (off x) (Z.of_nat (length (block x))) \/
  (length (block x) = c /\ (t = Check_ (off (x + n)) \/ t = Pushing (off (x + n)))) \/
  (ends t /\ dead (x + n)%nat).

Inductive pstate (B : nat) (dead : nat -> Prop) (x : nat) (p : Pipe) (t : thread) : Prop :=
| st_due : p_capacity p = Z.of_nat c -> p_index p = p_size p -> 0 < p_size p -> p_stop p = is_finished t ->
    due_thread dead x t -> pstate B dead x p t
| st_held : p_capacity p = Z.of_nat c -> prefix (block x) (p_mem p) -> p_size p = Z.of_nat (length (block x)) ->
    0 <= p_index p < p_size p -> (x <> B -> p_index p = 0) -> p_stop p = is_finished t ->
    held_thread dead x t -> pstate B dead x p t
| st_end : p_capacity p = Z.of_nat c -> p_size p = 0 -> p_index p = 0 -> (length file <= x * c)%nat -> p_stop p = is_finished t ->
    t = Pushed (off x) 0 \/ ends t -> pstate B dead x p t
| st_err : p_capacity p = Z.of_nat c -> p_size p < 0 -> p_index p = 0 -> p_stop p = is_finished t ->
    t = Pushed (off x) (p_size p) \/ ends t -> pstate B dead x p t
| st_gone : p_capacity p = 0 -> p_size p = 0 -> p_index p = 0 -> p_stop p = true -> dead x ->
    (forall o r, t = Pushed o r -> r = 0) -> pstate B dead x p t.

(** Block [x] is behind the end of the file, or behind an error that waits for the
    reader. *)
Definition dead (B : nat) (s : ReadStream) (x : nat) : Prop :=
  (length file <= x * c)%nat \/
  exists j y p, pipes s !! j = Some p /\ p_size p < 0 /\ due B j y /\ (y < x)%nat.

(** How far the reader is in the pipe. *)
Definition consumed (p : Pipe) : nat := if p_index p <? p_size p then Z.to_nat (p_index p) else 0.

Record inv (B : nat) (s : ReadStream) (D : list Z) : Prop := {
  inv_num : pipeNum s = n;
  inv_cap : pipeCap s = Z.of_nat c;
  inv_run : rs_stop s = false;
  inv_index : pipeIndex s = B ⊛ n;
  inv_pipes : length (pipes s) = n;
  inv_threads : length (threads s) = n;
  inv_state j p t : pipes s !! j = Some p -> threads s !! j = Some t -> exists x, due B j x /\ pstate B (dead B s) x p t;
  inv_stop : stopOffset s = UINT64_MAX \/
    exists b t, stopOffset s = off b /\ dead B s (S b) /\ threads s !! (b ⊛ n) = Some t /\ ends t;
  inv_pos p : pipes s !! (B ⊛ n) = Some p -> length D = Nat.min (length file) (B * c + consumed p);
  inv_data : prefix D file;
  inv_reader popSize got : rs_reader s = Popping popSize got -> Z.of_nat (length got) <= popSize
}.

Lemma dead_mono B s x y : dead B s x -> (x <= y)%nat -> dead B s y.
Proof. intros [H|(j & z & p & H1 & H2 & H3 & H4)] Hxy; [left; nia|right; exists j, z, p; split_and!; [done..|lia]]. Qed.

Lemma pstate_mono B d d' x p t : (forall y, d y -> d' y) -> pstate B d x p t -> pstate B d' x p t.
Proof.
  intros Hd [? ? ? ? Ht|? ? ? ? ? ? Ht| | |]; [eapply st_due|eapply st_held|eapply st_end|eapply st_err|eapply st_gone]; eauto;
    unfold due_thread, held_thread in *; naive_solver.
Qed.

Lemma pstate_next B d x p t : x <> B -> pstate B d x p t -> pstate (S B) d x p t.
Proof.
  intros Hx [ | | | |]; [by eapply st_due|eapply st_held; eauto|by eapply st_end|by eapply st_err|by eapply st_gone].
Qed.

(** ** Steps of the push threads *)

(** Pipe and thread [i] and the stop offset change. *)
Definition change (i : nat) (p' : Pipe) (t' : thread) (o : Z) (s : ReadStream) : ReadStream :=
  set_stopOffset o (set_pipe i p' (set_thread i t' s)).

Lemma dead_change B s i p p' t' o x :
  pipes s !! i = Some p -> (p_size p < 0 -> p_size p' < 0) -> dead B s x -> dead B (change i p' t' o s) x.
Proof.
  intros Hp He [H|(j & y & q & H1 & H2 & H3 & H4)]; [by left|]. right. destruct (decide (j = i)) as [->|Hj].
  - assert (q = p) as -> by congruence. exists i, y, p'. split_and!; [|auto..]. cbn. apply list_lookup_insert_eq.
    by apply lookup_lt_Some in Hp.
  - exists j, y, q. split_and!; [|done..]. cbn. by rewrite list_lookup_insert_ne.
Qed.

Lemma inv_change B s D i p t p' t' o :
  inv B s D -> pipes s !! i = Some p -> threads s !! i = Some t ->
  (p_size p < 0 -> p_size p' < 0) -> consumed p' = consumed p -> (ends t -> ends t') ->
  (o = stopOffset s \/ exists b, o = off b /\ dead B (change i p' t' o s) (S b) /\ b ⊛ n = i /\ ends t') ->
  (forall x, due B i x -> pstate B (dead B s) x p t -> pstate B (dead B (change i p' t' o s)) x p' t') ->
  inv B (change i p' t' o s) D.
Proof.
  intros Hinv Hp Ht He Hk Hends Ho Hst. pose proof (lookup_lt_Some _ _ _ Hp). pose proof (lookup_lt_Some _ _ _ Ht).
  assert (forall x, dead B s x -> dead B (change i p' t' o s) x) as Hd by (intros x; by eapply dead_change).
  split; cbn; rewrite ?length_insert; try apply Hinv.
  - intros j q u Hq Hu. destruct (decide (j = i)) as [->|Hj].
    + rewrite list_lookup_insert_eq in Hq by done. rewrite list_lookup_insert_eq in Hu by done. simplify_eq. destruct (inv_state _ _ _ Hinv i p t Hp Ht) as (x & Hx & Hs).
      exists x. split; [done|]. by apply Hst.
    + rewrite list_lookup_insert_ne in Hq by done. rewrite list_lookup_insert_ne in Hu by done. destruct (inv_state _ _ _ Hinv j q u Hq Hu) as (x & Hx & Hs).
      exists x. split; [done|]. by eapply pstate_mono.
  - destruct Ho as [->|(b & -> & H1 & H2 & H3)].
    + destruct (inv_stop _ _ _ Hinv) as [|(b & u & H1 & H2 & H3 & H4)]; [by left|]. right. destruct (decide (b ⊛ n = i)) as [E|E].
      * exists b, t'. rewrite E in *. assert (u = t) as -> by congruence. split_and!; [done|auto|by rewrite list_lookup_insert_eq|auto].
      * exists b, u. split_and!; [done|auto|by rewrite list_lookup_insert_ne by done|done].
    + right. exists b, t'. split_and!; [done..| |done]. rewrite H2. by apply list_lookup_insert_eq.
  - intros q Hq. destruct (decide (B ⊛ n = i)) as [E|E].
    + rewrite E, list_lookup_insert_eq in Hq by done. injection Hq as <-. rewrite Hk. apply (inv_pos _ _ _ Hinv). by rewrite E.
    + rewrite list_lookup_insert_ne in Hq by done. by apply (inv_pos _ _ _ Hinv).
Qed.

Lemma change_same i p t o s : pipes s !! i = Some p -> set_stopOffset o (set_thread i t s) = change i p t o s.
Proof. intros Hp. unfold change, set_pipe, set_stopOffset, set_thread. cbn. by rewrite (list_insert_id (pipes s) i p Hp). Qed.

Lemma change_offset i p t s : set_pipe i p (set_thread i t s) = change i p t (stopOffset s) s.
Proof. done. Qed.

Lemma off_u64 x : (x * c <= length file + n * c)%nat -> off x < UINT64_MAX /\ u64 (off x) = off x.
Proof. intros Hx. unfold off, UINT64_MAX. split; [lia|]. apply wrap_small. unfold in_range. lia. Qed.

Lemma off_lt x y : off x <= off y -> (x <= y)%nat.
Proof. unfold off. nia. Qed.

(** The thread ends at the test of its loop only before a block that is dead. *)
Lemma check_dead B s D i x :
  inv B s D -> threads s !! i = Some (Check_ (off x)) -> x ⊛ n = i -> (x * c <= length file + n * c)%nat ->
  (off x <? stopOffset s) = false -> dead B s x.
Proof.
  intros Hinv Ht Hx Hb Hlt. apply Z.ltb_ge in Hlt. destruct (off_u64 x Hb).
  destruct (inv_stop _ _ _ Hinv) as [E|(b & u & E & H2 & H3 & H4)]; [lia|]. rewrite E in Hlt. apply off_lt in Hlt.
  destruct (decide (b = x)) as [->|Hne]; [|eapply dead_mono; [done|lia]]. rewrite Hx in H3. rewrite Ht in H3. injection H3 as <-.
  by destruct H4.
Qed.

Lemma step_Check B s D i o p :
  inv B s D -> pipes s !! i = Some p -> threads s !! i = Some (Check_ o) ->
  inv B (set_thread i (if (negb (rs_stop s) && (o <? stopOffset s))%bool then Pushing o else Ending) s) D.
Proof.
  intros Hinv Hp Ht. rewrite (inv_run _ _ _ Hinv). cbn [negb andb].
  pose proof (change_same i p (if o <? stopOffset s then Pushing o else Ending) (stopOffset s) s Hp) as E.
  change (set_thread i (if o <? stopOffset s then Pushing o else Ending) s)
    with (set_stopOffset (stopOffset s) (set_thread i (if o <? stopOffset s then Pushing o else Ending) s)). rewrite E.
  eapply inv_change; [done..|by intros []|by left|]. intros x Hx Hst. set (s' := change _ _ _ _ _).
  assert (forall y, dead B s y -> dead B s' y) as Hd by (intros y; by eapply dead_change).
  destruct Hst as [G1 G2 G3 G4 G5|G1 G2 G3 G4 G5 G6 G7|? ? ? ? ? G|? ? ? ? G|G1 G2 G3 G4 G5 G6].
  - destruct G5 as [[[[= ->]|] Gb]|[(y & _ & ? & _)|[[|] _]]]; try done. apply st_due; try done.
    { by destruct (off x <? stopOffset s). }
    destruct (off x <? stopOffset s) eqn:El; [left; auto|]. right. right. split; [by left|]. apply Hd.
    eapply check_dead; [done..|apply Hx|done|done].
  - destruct G7 as [|[(Gl & [[= ->]|])|[[|] _]]]; try done. apply st_held; try done.
    { by destruct (off (x + n) <? stopOffset s). }
    destruct (off (x + n) <? stopOffset s) eqn:El; [right; left; auto|]. right. right. split; [by left|]. apply Hd.
    rewrite block_length in Gl. eapply check_dead; [done..| |nia|done].
    rewrite <- (Nat.mul_1_l n) at 1. rewrite Nat.Div0.mod_add. apply Hx.
  - destruct G as [|[|]]; done.
  - destruct G as [|[|]]; done.
  - apply st_gone; auto. intros o' r'. by destruct (o <? stopOffset s).
Qed.

Lemma consumed_eq p : p_index p = p_size p -> consumed p = 0%nat.
Proof. intros E. unfold consumed. by rewrite E, Z.ltb_irrefl. Qed.

Lemma read_block x : read_at file (Z.to_nat (off x)) (Z.to_nat (Z.of_nat c)) = block x.
Proof. unfold off. by rewrite !Nat2Z.id. Qed.

Lemma step_Pushing B s D i fail o p r p' :
  inv B s D -> pipes s !! i = Some p -> threads s !! i = Some (Pushing o) -> (forall e, fail = Some e -> 0 < e) ->
  Pipe_WaitPush (read_file file fail) o p = Some (r, p') -> inv B (set_pipe i p' (set_thread i (Pushed o r) s)) D.
Proof.
  intros Hinv Hp Ht Hf Hw. rewrite change_offset. destruct (inv_state _ _ _ Hinv i p _ Hp Ht) as (x0 & Hx0 & Hst0).
  destruct Hst0 as [G1 G2 G3 G4 G5|G1 G2 G3 G4 G5 G6 G7|? ? ? ? ? G|? ? ? ? G|G1 G2 G3 G4 G5 G6]; cbn [is_finished] in *;
    try (destruct G as [|[|]]; done); unfold Pipe_WaitPush in Hw.
  - destruct G5 as [[[|[= ->]] Gb]|[(y & _ & ? & _)|[[|] _]]]; try done. rewrite G2, Z.eqb_refl, G4 in Hw. cbn [orb] in Hw.
    destruct fail as [e|]; cbn [read_file] in Hw; injection Hw as <- <-.
    + specialize (Hf e eq_refl). eapply inv_change; [done..|by intros; cbn; lia|rewrite (consumed_eq p) by done; unfold consumed; cbn|by intros []|by left|].
      { destruct (Z.ltb_spec 0 (- e)); [lia|done]. }
      intros x Hx _. assert (x = x0) as -> by (by eapply due_unique). apply st_err; cbn; try done; [lia|by left].
    + rewrite G1, read_block. eapply inv_change; [done..|by intros; lia|rewrite (consumed_eq p) by done; unfold consumed; cbn|by intros []|by left|].
      { by destruct (0 <? _). }
      intros x Hx _. assert (x = x0) as -> by (by eapply due_unique). destruct (decide (length (block x0) = 0%nat)) as [E|E].
      * rewrite E. apply st_end; cbn; try done; [|by left]. rewrite block_length in E. lia.
      * apply st_held; cbn; try done; [by apply prefix_app_r|lia|by left].
  - assert (p_index p =? p_size p = false) as E by (apply Z.eqb_neq; lia). by rewrite E, G6 in Hw.
  - rewrite G4, orb_true_r in Hw. injection Hw as <- <-. eapply inv_change; [done..|by intros []|by left|]. intros x Hx _.
    assert (x = x0) as -> by (by eapply due_unique). apply st_gone; try done; [|congruence]. by eapply dead_change.
Qed.

Lemma add_mod_n y : (y + n) ⊛ n = y ⊛ n.
Proof. rewrite <- (Nat.mul_1_l n) at 1. apply Nat.Div0.mod_add. Qed.

Lemma off_next y : (y * c < length file)%nat -> u64 (off y + Z.of_nat n * Z.of_nat c) = off (y + n).
Proof. intros Hy. rewrite wrap_small; unfold off, in_range; lia. Qed.

Lemma step_Pushed B s D i o r p s' :
  inv B s D -> pipes s !! i = Some p -> threads s !! i = Some (Pushed o r) ->
  (if negb (r =? p_capacity p) then Some (set_stopOffset o (set_thread i Ending s))
   else Some (set_thread i (Check_ (u64 (o + Z.of_nat (pipeNum s) * pipeCap s))) s)) = Some s' -> inv B s' D.
Proof.
  intros Hinv Hp Ht. rewrite (inv_num _ _ _ Hinv), (inv_cap _ _ _ Hinv). set (t' := Check_ _).
  rewrite (change_same i p Ending o s Hp). change (set_thread i t' s) with (set_stopOffset (stopOffset s) (set_thread i t' s)).
  rewrite (change_same i p t' (stopOffset s) s Hp).
  destruct (inv_state _ _ _ Hinv i p _ Hp Ht) as (x0 & Hx0 & Hst0).
  assert (forall x, due B i x -> x = x0) as Hu by (intros x Hx; by eapply due_unique).
  (* the thread ends at block [y] *)
  assert (forall y, o = off y -> y ⊛ n = i -> dead B (change i p Ending o s) (S y) ->
    pstate B (dead B (change i p Ending o s)) x0 p Ending -> inv B (change i p Ending o s) D) as Hend.
  { intros y E1 E2 E3 E4. eapply inv_change; [done..|by left|right; exists y; split_and!; [done..|by left]|].
    intros x Hx _. by rewrite (Hu x Hx). }
  (* the thread goes on *)
  assert (pstate B (dead B (change i p t' (stopOffset s) s)) x0 p t' -> inv B (change i p t' (stopOffset s) s) D) as Hon.
  { intros E. eapply inv_change; [done..|by intros []|by left|]. intros x Hx _. by rewrite (Hu x Hx). }
  destruct Hst0 as [G1 G2 G3 G4 G5|G1 G2 G3 G4 G5 G6 G7|G1 G2 G3 G4 G5 G6|G1 G2 G3 G4 G5|G1 G2 G3 G4 G5 G6]; cbn [is_finished] in *.
  - destruct G5 as [[[|] _]|[(y & -> & [= -> ->] & Gl)|[[|] _]]]; try done. rewrite G1. pose proof (block_length y) as El.
    destruct (Z.eqb_spec (Z.of_nat (length (block y))) (Z.of_nat c)) as [E|E]; cbn [negb]; intros [= <-].
    + apply Hon, st_due; try done. left. unfold t'. rewrite off_next by lia. split; [by left|lia].
    + apply (Hend y); [done|by rewrite <- add_mod_n; apply Hx0|left; lia|]. apply st_due; try done. right. right. split; [by left|]. left. nia.
  - destruct G7 as [[= -> ->]|[(_ & [|])|[[|] _]]]; try done. rewrite G1. pose proof (block_length x0) as El.
    destruct (Z.eqb_spec (Z.of_nat (length (block x0))) (Z.of_nat c)) as [E|E]; cbn [negb]; intros [= <-].
    + apply Hon, st_held; try done. right. left. unfold t'. rewrite off_next by lia. split; [lia|by left].
    + apply (Hend x0); [done|apply Hx0|left; lia|]. apply st_held; try done. right. right. split; [by left|]. left. nia.
  - destruct G6 as [[= -> ->]|[|]]; try done. rewrite G1. destruct (Z.eqb_spec 0 (Z.of_nat c)); [lia|]. cbn [negb]. intros [= <-].
    apply (Hend x0); [done|apply Hx0|left; lia|]. apply st_end; try done. right. by left.
  - destruct G5 as [[= -> ->]|[|]]; try done. rewrite G1. destruct (Z.eqb_spec (p_size p) (Z.of_nat c)); [lia|]. cbn [negb]. intros [= <-].
    apply (Hend x0); [done|apply Hx0| |apply st_err; try done; right; by left]. right. exists i, x0, p. split_and!; [|done..|lia].
    cbn. apply list_lookup_insert_eq. by apply lookup_lt_Some in Hp.
  - rewrite (G6 o r eq_refl), G1. cbn [Z.eqb negb]. intros [= <-]. apply Hon, st_gone; try done. by eapply dead_change.
Qed.

Lemma step_Ending B s D i p :
  inv B s D -> pipes s !! i = Some p -> threads s !! i = Some Ending ->
  inv B (set_pipe i {| p_mem := p_mem p; p_capacity := p_capacity p; p_size := p_size p; p_index := p_index p; p_stop := true |}
           (set_thread i Finished s)) D.
Proof.
  intros Hinv Hp Ht. rewrite change_offset. eapply inv_change; [done..|by right|by left|]. intros x Hx Hst. set (s' := change _ _ _ _ _).
  assert (forall y, dead B s y -> dead B s' y) as Hd by (intros y; by eapply dead_change).
  destruct Hst as [G1 G2 G3 G4 G5|G1 G2 G3 G4 G5 G6 G7|G1 G2 G3 G4 G5 G6|G1 G2 G3 G4 G5|G1 G2 G3 G4 G5 G6].
  - apply st_due; try done. destruct G5 as [[[|] _]|[(y & _ & ? & _)|[_ G]]]; try done. right. right. split; [by right|auto].
  - apply st_held; try done. destruct G7 as [|[(_ & [|])|[_ G]]]; try done. right. right. split; [by right|auto].
  - apply st_end; try done. right. by right.
  - apply st_err; try done. right. by right.
  - apply st_gone; try done. auto.
Qed.

Lemma inv_thread_step B s D i fail s' :
  inv B s D -> (forall e, fail = Some e -> 0 < e) -> thread_step file i fail s = Some s' -> inv B s' D.
Proof.
  intros Hinv Hf. unfold thread_step. destruct (threads s !! i) as [t|] eqn:Ht; [|done]. destruct (pipes s !! i) as [p|] eqn:Hp; [|done].
  cbn. destruct t as [o|o|o r| |]; intros E.
  - injection E as <-. by eapply step_Check.
  - destruct (Pipe_WaitPush _ _ _) as [[r p']|] eqn:Hw; [|done]. injection E as <-. by eapply step_Pushing.
  - by eapply step_Pushed.
  - injection E as <-. by apply step_Ending.
  - done.
Qed.

(** ** Steps of the reader *)

Lemma inv_set_reader B s D r :
  inv B s D -> (forall popSize got, r = Popping popSize got -> Z.of_nat (length got) <= popSize) -> inv B (set_reader r s) D.
Proof. intros [] Hr. by split. Qed.

(** Nothing before the reader is dead but what is behind the end. *)
Lemma dead_here B s : dead B s B -> (length file <= B * c)%nat.
Proof. intros [H|(j & y & p & _ & _ & [_ H] & H')]; [done|lia]. Qed.

(** The pipe of the reader is destroyed at the end of the file. *)
Lemma inv_destroy B s D p t :
  inv B s D -> pipes s !! (B ⊛ n) = Some p -> threads s !! (B ⊛ n) = Some t -> (length file <= B * c)%nat ->
  consumed p = 0%nat -> 0 <= p_size p -> (forall o r, t = Pushed o r -> r = 0) ->
  inv B (set_pipe (B ⊛ n) Destroy s) D /\ length D = length file.
Proof.
  intros Hinv Hp Ht Hend Hk Hs Hpush. split.
  - pose proof (change_offset (B ⊛ n) Destroy t s) as E. unfold set_thread in E. rewrite list_insert_id in E by done.
    assert (set_pipe (B ⊛ n) Destroy s = change (B ⊛ n) Destroy t (stopOffset s) s) as -> by (rewrite <- E; by destruct s).
    eapply inv_change; [done..|by intros; lia|by rewrite Hk|done|by left|]. intros x Hx _.
    assert (x = B) as -> by (eapply due_unique; [done|apply due_self]). apply st_gone; try done. by left.
  - pose proof (inv_pos _ _ _ Hinv p Hp). lia.
Qed.

(** The bytes of a held block from the position of the reader. *)
Lemma held_bytes B D m k :
  length D = (B * c + k)%nat -> prefix D file -> (k + m <= length (block B))%nat ->
  prefix (D ++ take m (drop k (block B))) file.
Proof.
  intros Hl [r Hr] Hm. rewrite block_length in Hm. unfold block, read_at. rewrite skipn_firstn_comm, take_take, drop_drop.
  rewrite Nat.min_l by lia. assert (drop (B * c + k) file = r) as -> by (rewrite Hr; by apply drop_app_length').
  exists (drop m r). by rewrite <- app_assoc, take_drop.
Qed.

Lemma dead_set_pipe B s i p p' x :
  pipes s !! i = Some p -> 0 <= p_size p -> dead B s x -> dead B (set_pipe i p' s) x.
Proof.
  intros Hp Hs [H|(j & y & q & H1 & H2 & H3 & H4)]; [by left|]. right. exists j, y, q. split_and!; [|done..]. cbn.
  rewrite list_lookup_insert_ne; [done|]. intros <-. assert (q = p) as -> by congruence. lia.
Qed.

Section pop.

Context (B : nat) (s : ReadStream) (D : list Z) (p : Pipe) (t : thread).
Context (Hinv : inv B s D) (Hp : pipes s !! (B ⊛ n) = Some p) (Ht : threads s !! (B ⊛ n) = Some t).
Context (Hcap : p_capacity p = Z.of_nat c) (Hmem : prefix (block B) (p_mem p)) (Hsize : p_size p = Z.of_nat (length (block B))).
Context (Hidx : 0 <= p_index p < p_size p) (Hstop : p_stop p = is_finished t) (Hthread : held_thread (dead B s) B t).
Context (m : nat) (Hm : (0 < m)%nat) (Hfit : p_index p + Z.of_nat m <= p_size p).

Definition popped (b : bool) : Pipe :=
  {| p_mem := p_mem p; p_capacity := p_capacity p; p_size := p_size p; p_index := p_index p + Z.of_nat m; p_stop := b |}.

Lemma pop_bytes : take m (drop (Z.to_nat (p_index p)) (p_mem p)) = take m (drop (Z.to_nat (p_index p)) (block B)).
Proof.
  destruct Hmem as [r ->]. rewrite drop_app_le by lia. apply take_app_le. rewrite length_drop. lia.
Qed.

Lemma pop_position : length D = (B * c + Z.to_nat (p_index p))%nat.
Proof.
  pose proof (inv_pos _ _ _ Hinv p Hp) as E. unfold consumed in E. destruct (Z.ltb_spec (p_index p) (p_size p)); [|lia].
  pose proof (block_length B). lia.
Qed.

Lemma pop_data : prefix (D ++ take m (drop (Z.to_nat (p_index p)) (p_mem p))) file.
Proof. rewrite pop_bytes. apply held_bytes; [apply pop_position|apply Hinv|lia]. Qed.

Lemma pop_length : length (D ++ take m (drop (Z.to_nat (p_index p)) (p_mem p))) = (B * c + Z.to_nat (p_index p) + m)%nat.
Proof. rewrite pop_bytes, length_app, pop_position, length_take, length_drop. lia. Qed.

(** A part of the block is popped. *)
Lemma inv_pop :
  p_index p + Z.of_nat m < p_size p ->
  inv B (set_pipe (B ⊛ n) (popped (p_stop p)) s) (D ++ take m (drop (Z.to_nat (p_index p)) (p_mem p))).
Proof.
  intros Hlt. pose proof (lookup_lt_Some _ _ _ Hp). pose proof (block_length B) as El.
  assert (forall x, dead B s x -> dead B (set_pipe (B ⊛ n) (popped (p_stop p)) s) x) as Hd by (intros x; apply (dead_set_pipe _ _ _ p); [done|lia]).
  split; cbn; rewrite ?length_insert; try apply Hinv; [| | |apply pop_data].
  - intros j q u Hq Hu. destruct (decide (j = B ⊛ n)) as [->|Hj].
    + rewrite list_lookup_insert_eq in Hq by done. simplify_eq. exists B. split; [apply due_self|].
      apply (pstate_mono _ (dead B s)); [done|]. apply st_held; cbn; try done; lia.
    + rewrite list_lookup_insert_ne in Hq by done. destruct (inv_state _ _ _ Hinv j q u Hq Hu) as (x & Hx & Hs).
      exists x. split; [done|]. by eapply pstate_mono.
  - destruct (inv_stop _ _ _ Hinv) as [|(b & u & H1 & H2 & H3 & H4)]; [by left|]. right. exists b, u. auto.
  - intros q Hq. rewrite list_lookup_insert_eq in Hq by done. injection Hq as <-. rewrite pop_length.
    unfold consumed. cbn. destruct (Z.ltb_spec (p_index p + Z.of_nat m) (p_size p)); [|lia]. lia.
Qed.

(** The pipe after its block is popped. *)
Lemma pop_end_state d :
  (forall x, dead B s x -> d x) -> p_index p + Z.of_nat m = p_size p ->
  pstate (S B) d (B + n) (if p_stop p then Destroy else popped (p_stop p)) t.
Proof.
  intros Hd Hfull. pose proof (block_length B) as El. destruct (p_stop p) eqn:Es.
  - assert (t = Finished) as Et by (destruct t; done). apply st_gone; try done; [|by rewrite Et].
    destruct Hthread as [|[[_ [|]]|[_ G]]]; subst; try done. by apply Hd.
  - apply st_due; cbn; try done; [lia|]. destruct Hthread as [->|[[E G]|[G1 G2]]].
    + right. left. exists B. split_and!; [done..|lia].
    + left. split; [naive_solver|lia].
    + right. right. auto.
Qed.

Lemma consumed_next q x u : x <> B -> pstate B (dead B s) x q u -> consumed q = 0%nat.
Proof.
  intros Hx [G1 G2 G3|G1 G2 G3 G4 G5|G1 G2 G3|G1 G2 G3|G1 G2 G3]; unfold consumed.
  - by rewrite G2, Z.ltb_irrefl.
  - rewrite (G5 Hx). by destruct (_ <? _).
  - by rewrite G2, G3.
  - rewrite G3. destruct (Z.ltb_spec 0 (p_size q)); [lia|done].
  - by rewrite G2, G3.
Qed.

(** The rest of the block is popped, and the reader goes to the next pipe. *)
Lemma inv_pop_end :
  p_index p + Z.of_nat m = p_size p ->
  inv (S B) (addPipeIndex (set_pipe (B ⊛ n) (if p_stop p then Destroy else popped (p_stop p)) s))
    (D ++ take m (drop (Z.to_nat (p_index p)) (p_mem p))).
Proof.
  intros Hfull. pose proof (lookup_lt_Some _ _ _ Hp). pose proof (block_length B) as El.
  set (p' := if p_stop p then Destroy else popped (p_stop p)). set (s' := addPipeIndex _).
  assert (forall x, dead B s x -> dead (S B) s' x) as Hd.
  { intros x [Hx|(j & y & q & H1 & H2 & H3 & H4)]; [by left|]. right. exists j, y, q. assert (j <> B ⊛ n) as Hj by (intros ->; assert (q = p) as -> by congruence; lia).
    split_and!; [cbn; by rewrite list_lookup_insert_ne|done| |done]. apply due_next; [done|]. intros ->. by destruct H3 as [<- _]. }
  split; cbn; rewrite ?length_insert; try apply Hinv; [| | | |apply pop_data].
  - rewrite (inv_index _ _ _ Hinv), (inv_num _ _ _ Hinv), Nat.Div0.add_mod_idemp_l. f_equal. lia.
  - intros j q u Hq Hu. destruct (decide (j = B ⊛ n)) as [->|Hj].
    + rewrite list_lookup_insert_eq in Hq by done. simplify_eq. exists (B + n)%nat. split; [apply due_wrap|].
      by apply pop_end_state.
    + rewrite list_lookup_insert_ne in Hq by done. destruct (inv_state _ _ _ Hinv j q u Hq Hu) as (x & Hx & Hs).
      assert (x <> B) as Hne by (intros ->; by destruct Hx as [<- _]). exists x. split; [by apply due_next|].
      apply (pstate_mono _ (dead B s)); [done|]. by apply pstate_next.
  - destruct (inv_stop _ _ _ Hinv) as [|(b & u & H1 & H2 & H3 & H4)]; [by left|]. right. exists b, u. auto.
  - intros q Hq. rewrite pop_length. assert (consumed q = 0%nat) as ->; [|lia].
    destruct (decide (S B ⊛ n = B ⊛ n)) as [E|E].
    + rewrite E, list_lookup_insert_eq in Hq by done. injection Hq as <-. unfold p'. destruct (p_stop p); [done|]. by apply consumed_eq.
    + rewrite list_lookup_insert_ne in Hq by done. assert (is_Some (threads s !! (S B ⊛ n))) as [u Hu].
      { apply lookup_lt_is_Some. rewrite (inv_threads _ _ _ Hinv). apply Nat.mod_upper_bound. lia. }
      destruct (inv_state _ _ _ Hinv _ q u Hq Hu) as (x & Hx & Hs). eapply consumed_next; [|done]. intros ->. by destruct Hx as [Hx _].
Qed.

End pop.

(** What one round of WaitPop does: it fails, it delivers bytes, or it returns. *)
Definition reads (B : nat) (s : ReadStream) (D : list Z) (popSize : Z) (got : list Z) (s' : ReadStream) (outs : list output) : Prop :=
  (exists o, outs = [o] /\ o_ret o < 0) \/
  (exists B' bytes, inv B' s' (D ++ bytes) /\ rs_reader s' = Popping popSize (got ++ bytes) /\ outs = []) \/
  (inv B s' D /\ rs_reader s' = Idle /\
   outs = [{| o_popSize := popSize; o_ret := Z.of_nat (length got); o_bytes := got |}] /\
   (Z.of_nat (length got) = popSize \/ length D = length file)).

Lemma reads_end B s D p t popSize got outs :
  inv B s D -> pipes s !! (B ⊛ n) = Some p -> threads s !! (B ⊛ n) = Some t -> (length file <= B * c)%nat ->
  consumed p = 0%nat -> 0 <= p_size p -> (forall o r, t = Pushed o r -> r = 0) ->
  outs = [{| o_popSize := popSize; o_ret := Z.of_nat (length got); o_bytes := got |}] ->
  reads B s D popSize got (set_reader Idle (set_pipe (B ⊛ n) Destroy s)) outs.
Proof.
  intros Hinv Hp Ht H1 H2 H3 H4 ->. destruct (inv_destroy B s D p t) as [G1 G2]; [done..|]. right. right.
  split_and!; [by apply inv_set_reader|done|done|by right].
Qed.

Lemma reader_step_ok B s D popSize got s' outs :
  inv B s D -> rs_reader s = Popping popSize got -> reader_step s = Some (s', outs) -> reads B s D popSize got s' outs.
Proof.
  intros Hinv Hr. unfold reader_step. rewrite Hr, (inv_run _ _ _ Hinv). cbn [orb].
  pose proof (inv_reader _ _ _ Hinv _ _ Hr) as Hle.
  destruct (Z.eqb_spec (Z.of_nat (length got)) popSize) as [E|E].
  { intros [= <- <-]. right. right. split_and!; [by apply inv_set_reader|done|done|by left]. }
  rewrite (inv_index _ _ _ Hinv). pose proof (Nat.mod_upper_bound B n ltac:(lia)) as Hj.
  assert (is_Some (pipes s !! (B ⊛ n))) as [p Hp] by (apply lookup_lt_is_Some; by rewrite (inv_pipes _ _ _ Hinv)).
  assert (is_Some (threads s !! (B ⊛ n))) as [t Ht] by (apply lookup_lt_is_Some; by rewrite (inv_threads _ _ _ Hinv)).
  rewrite Hp. cbn. destruct (inv_state _ _ _ Hinv _ p t Hp Ht) as (x & Hx & Hst).
  assert (x = B) as -> by (eapply due_unique; [done|apply due_self]). unfold Pipe_WaitPop.
  destruct Hst as [G1 G2 G3 G4 G5|G1 G2 G3 G4 G5 G6 G7|G1 G2 G3 G4 G5 G6|G1 G2 G3 G4 G5|G1 G2 G3 G4 G5 G6].
  - rewrite G2, Z.eqb_refl. destruct (Z.leb_spec (p_size p) 0); [lia|]. cbn. destruct (p_stop p) eqn:Es; [|done].
    destruct (Z.ltb_spec (p_size p) 0); [lia|]. destruct (Z.eqb_spec (p_size p) 0); [lia|]. cbn. intros [= <- <-].
    assert (t = Finished) as -> by (by destruct t). destruct G5 as [[[|] _]|[(y & _ & ? & _)|[_ G]]]; try done.
    eapply reads_end; [done..|by eapply dead_here|by apply consumed_eq|lia|done|done].
  - destruct (Z.eqb_spec (p_index p) (p_size p)); [lia|]. cbn [negb orb]. destruct (Z.ltb_spec (p_size p) 0); [lia|].
    destruct (Z.eqb_spec (p_size p) 0); [lia|]. cbn [andb]. set (readSize := Z.min _ _).
    assert (readSize = Z.of_nat (Z.to_nat readSize)) as Er by (unfold readSize; lia). 
    assert (0 < readSize /\ p_index p + readSize <= p_size p /\ readSize <= popSize - Z.of_nat (length got)) as (R1 & R2 & R3) by (unfold readSize; lia).
    clearbody readSize. set (m := Z.to_nat readSize) in *. rewrite Er in *.
    assert (length (take m (drop (Z.to_nat (p_index p)) (p_mem p))) <= m)%nat as Hlen by (rewrite length_take; lia).
    destruct (Z.eqb_spec (p_index p + Z.of_nat m) (p_size p)) as [Ee|Ee]; cbn;
      (destruct (Z.ltb_spec (Z.of_nat m) 0); [lia|]); (destruct (Z.eqb_spec (Z.of_nat m) 0); [lia|]); intros [= <- <-]; right; left.
    + exists (S B). eexists. split_and!; [|done..]. apply inv_set_reader; [by eapply inv_pop_end; [..|lia|lia|lia]|].
      intros ? ? [= <- <-]. rewrite length_app. lia.
    + exists B. eexists. split_and!; [|done..]. apply inv_set_reader; [eapply inv_pop; [done..|lia|lia|lia]|].
      intros ? ? [= <- <-]. rewrite length_app. lia.
  - rewrite G2, G3. cbn. intros [= <- <-]. eapply reads_end; [done..|unfold consumed; by rewrite G2, G3|lia| |done].
    intros o r ->. destruct G6 as [[= _ ->]|[|]]; done.
  - rewrite G3. destruct (Z.ltb_spec (p_size p) 0); [|lia]. destruct (Z.leb_spec (p_size p) 0); [|lia].
    rewrite orb_true_r. cbn. destruct (Z.ltb_spec (p_size p) 0); [|lia]. intros [= <- <-]. left. by eexists.
  - rewrite G2, G3. cbn. intros [= <- <-]. eapply reads_end; [done..|by eapply dead_here|unfold consumed; by rewrite G2, G3|lia|done|done].
Qed.

(** ** Runs *)

Definition bytes_of (outs : list output) : list Z := outs ≫= o_bytes.
Definition current (s : ReadStream) : list Z := match rs_reader s with Idle => [] | Popping _ got => got end.

(** No thread stops the stream, and errors are positive numbers. *)
Definition regular (a : action) : Prop :=
  match a with
  | Thread _ fail => forall e, fail = Some e -> 0 < e
  | Call popSize => 0 <= popSize
  | Read => True
  | Stop | StopPipe _ => False
  end.

(** An output with all outputs before it. *)
Definition delivered (outs : list output) (o : output) : Prop :=
  o_ret o = Z.of_nat (length (o_bytes o)) /\ (o_ret o = o_popSize o \/ bytes_of (outs ++ [o]) = file).

Lemma prefix_full (D : list Z) : prefix D file -> length D = length file -> D = file.
Proof. intros [r ->] E. rewrite length_app in E. destruct r; [by rewrite app_nil_r|cbn in E; lia]. Qed.

Lemma thread_step_reader i fail s s' : thread_step file i fail s = Some s' -> rs_reader s' = rs_reader s.
Proof.
  unfold thread_step. destruct (threads s !! i) as [t|]; [|done]. destruct (pipes s !! i) as [p|]; [|done]. cbn.
  destruct t as [o|o|o r| |]; intros E.
  - by injection E as <-.
  - destruct (Pipe_WaitPush (read_file file fail) o p) as [[r p']|]; [|done]. by injection E as <-.
  - destruct (negb _); by injection E as <-.
  - by injection E as <-.
  - done.
Qed.

Lemma stream_step_ok B s D pre a s' outs :
  inv B s D -> D = bytes_of pre ++ current s -> regular a -> step file a s = Some (s', outs) -> Forall (fun o => 0 <= o_ret o) outs ->
  exists B' D', inv B' s' D' /\ D' = bytes_of (pre ++ outs) ++ current s' /\
    (outs = [] \/ exists o, outs = [o] /\ delivered pre o).
Proof.
  intros Hinv ED Ha Hs Ho. destruct a as [i fail|popSize| | |i]; cbn in Hs; [| | |done..].
  - destruct (thread_step file i fail s) as [s1|] eqn:E; [|done]. injection Hs as <- <-. exists B, D.
    split_and!; [by eapply inv_thread_step|rewrite app_nil_r|by left]. rewrite ED. unfold current.
    by rewrite (thread_step_reader _ _ _ _ E).
  - unfold current in ED. destruct (rs_reader s) eqn:Er; [|done]. injection Hs as <- <-. exists B, D.
    split_and!; [apply inv_set_reader; [done|by intros ? ? [= <- <-]]|by rewrite ED, !app_nil_r|by left].
  - unfold current in ED. destruct (rs_reader s) as [|popSize got] eqn:Er; [unfold reader_step in Hs; by rewrite Er in Hs|].
    destruct (reader_step_ok B s D popSize got s' outs Hinv Er Hs) as [(o & -> & Hneg)|[(B' & bytes & H1 & H2 & ->)|(H1 & H2 & -> & H4)]].
    + apply Forall_cons in Ho as [Ho _]. lia.
    + exists B', (D ++ bytes). split_and!; [done| |by left]. unfold current. rewrite H2, ED, app_nil_r. by rewrite app_assoc.
    + exists B, D. unfold current. rewrite H2. unfold bytes_of in *. rewrite bind_app. cbn. rewrite !app_nil_r. split_and!; [done..|].
      right. eexists. split; [done|]. split; [done|]. cbn. destruct H4 as [|H4]; [by left|]. right. unfold bytes_of. rewrite bind_app. cbn.
      rewrite app_nil_r, <- ED. apply prefix_full; [apply Hinv|done].
Qed.

Lemma run_ok acts : forall B s D pre s' outs,
  inv B s D -> D = bytes_of pre ++ current s -> Forall regular acts -> run file acts s = Some (s', outs) ->
  Forall (fun o => 0 <= o_ret o) outs ->
  exists B' D', inv B' s' D' /\ D' = bytes_of (pre ++ outs) ++ current s' /\
    forall outs1 o outs2, outs = outs1 ++ o :: outs2 -> delivered (pre ++ outs1) o.
Proof.
  induction acts as [|a acts IH]; intros B s D pre s' outs Hinv ED Ha Hrun Ho.
  { injection Hrun as <- <-. exists B, D. rewrite app_nil_r. split_and!; [done..|]. intros outs1 o outs2 E. by destruct outs1. }
  cbn in Hrun. destruct (step file a s) as [[s1 o1]|] eqn:Hs; [|done]. cbn in Hrun.
  destruct (run file acts s1) as [[s2 o2]|] eqn:Hr; [|done]. cbn in Hrun. injection Hrun as <- <-.
  apply Forall_cons in Ha as [Ha1 Ha2]. apply Forall_app in Ho as [Ho1 Ho2].
  destruct (stream_step_ok B s D pre a s1 o1) as (B1 & D1 & I1 & E1 & C1); [done..|].
  destruct (IH B1 s1 D1 (pre ++ o1) s2 o2) as (B2 & D2 & I2 & E2 & C2); [done..|].
  exists B2, D2. rewrite app_assoc. split_and!; [done..|]. intros outs1 o outs2 E. destruct C1 as [->|(o' & -> & C1)].
  - rewrite app_nil_r in C2. by eapply C2.
  - destruct outs1 as [|o1 outs1]; injection E as -> E; [by rewrite app_nil_r|]. specialize (C2 outs1 o outs2 E).
    by rewrite <- app_assoc in C2.
Qed.

(** ** The reader gets on *)

Lemma reader_enabled B s D popSize got p :
  inv B s D -> rs_reader s = Popping popSize got -> pipes s !! (B ⊛ n) = Some p ->
  (p_index p <> p_size p \/ p_size p <= 0 \/ p_stop p = true) -> is_Some (reader_step s).
Proof.
  intros Hinv Hr Hp Hg. unfold reader_step. rewrite Hr. destruct (_ || _)%bool; [done|]. rewrite (inv_index _ _ _ Hinv), Hp. cbn.
  assert (is_Some (Pipe_WaitPop (popSize - Z.of_nat (length got)) p)) as [[[[cur bytes] isEnd] p'] ->].
  { unfold Pipe_WaitPop. assert ((negb (p_index p =? p_size p) || (p_size p <=? 0) || p_stop p)%bool = true) as ->.
    { destruct Hg as [Hg|[Hg| ->]]; [apply Z.eqb_neq in Hg; by rewrite Hg|apply Z.leb_le in Hg; by rewrite Hg, orb_true_r|apply orb_true_r]. }
    repeat case_match; done. }
  cbn. repeat case_match; done.
Qed.

(** Steps that thread [t] needs before the reader can go on. *)
Definition rank (t : thread) : nat :=
  match t with Pushed _ _ => 3 | Check_ _ => 2 | Pushing _ | Ending => 1 | Finished => 0 end.

Lemma thread_progress B s D p t popSize got :
  inv B s D -> pipes s !! (B ⊛ n) = Some p -> threads s !! (B ⊛ n) = Some t -> rs_reader s = Popping popSize got ->
  p_index p = p_size p -> 0 < p_size p -> p_stop p = false ->
  exists s' t', thread_step file (B ⊛ n) None s = Some s' /\ threads s' !! (B ⊛ n) = Some t' /\
    (is_Some (reader_step s') \/ (rank t' < rank t)%nat).
Proof.
  intros Hinv Hp Ht Hr Hi Hs Hst. pose proof (lookup_lt_Some _ _ _ Hp) as Lp. pose proof (lookup_lt_Some _ _ _ Ht) as Lt.
  assert (exists s', thread_step file (B ⊛ n) None s = Some s') as [s' Hstep].
  { unfold thread_step. rewrite Ht, Hp. cbn. destruct t; try by eexists.
    - unfold Pipe_WaitPush. rewrite Hi, Z.eqb_refl, Hst. cbn. by eexists.
    - case_match; by eexists.
    - destruct (inv_state _ _ _ Hinv _ p _ Hp Ht) as (x & Hx & [ | | | | ]); simplify_eq/=; congruence. }
  assert (inv B s' D) as Hinv' by exact (inv_thread_step B s D (B ⊛ n) None s' Hinv ltac:(done) Hstep).
  pose proof (thread_step_reader _ _ _ _ Hstep) as Hr'. rewrite Hr in Hr'.
  assert (forall q, pipes s' !! (B ⊛ n) = Some q -> (p_index q <> p_size q \/ p_size q <= 0 \/ p_stop q = true) -> is_Some (reader_step s')) as Hen
    by (intros q Hq Hg; by eapply reader_enabled).
  pose proof Hstep as Hs0. unfold thread_step in Hstep. rewrite Ht, Hp in Hstep. cbn in Hstep. exists s'. destruct t as [o|o|o r| |]; [| | | |done].
  - injection Hstep as <-. eexists. split_and!; [exact Hs0|by apply list_lookup_insert_eq|]. right. destruct (_ && _)%bool; cbn; lia.
  - unfold Pipe_WaitPush in Hstep. rewrite Hi, Z.eqb_refl, Hst in Hstep. cbn in Hstep. injection Hstep as <-. eexists.
    split_and!; [exact Hs0|by apply list_lookup_insert_eq|]. left. eapply Hen; [by apply list_lookup_insert_eq|]. cbn. lia.
  - destruct (negb _); injection Hstep as <-; eexists; (split_and!; [exact Hs0|by apply list_lookup_insert_eq|]); right; cbn; lia.
  - injection Hstep as <-. eexists. split_and!; [exact Hs0|by apply list_lookup_insert_eq|]. left.
    eapply Hen; [by apply list_lookup_insert_eq|]. cbn. auto.
Qed.

Lemma wakes r : forall B s D t popSize got,
  inv B s D -> threads s !! (B ⊛ n) = Some t -> rs_reader s = Popping popSize got -> (rank t <= r)%nat ->
  exists k s', (k <= r)%nat /\ run file (replicate k (Thread (B ⊛ n) None)) s = Some (s', []) /\ is_Some (reader_step s').
Proof.
  assert (forall B s D t popSize got, inv B s D -> threads s !! (B ⊛ n) = Some t -> rs_reader s = Popping popSize got ->
    is_Some (reader_step s) \/ exists p, pipes s !! (B ⊛ n) = Some p /\ p_index p = p_size p /\ 0 < p_size p /\ p_stop p = false) as Hcase.
  { intros B s D t popSize got Hinv Ht Hr. pose proof (Nat.mod_upper_bound B n ltac:(lia)).
    assert (is_Some (pipes s !! (B ⊛ n))) as [p Hp] by (apply lookup_lt_is_Some; by rewrite (inv_pipes _ _ _ Hinv)).
    destruct (decide (p_index p <> p_size p \/ p_size p <= 0 \/ p_stop p = true)) as [Hg|Hg].
    - left. by eapply reader_enabled.
    - right. exists p. split_and!; [done|destruct (decide (p_index p = p_size p)); [done|exfalso; auto]|
        destruct (decide (p_size p <= 0)); [exfalso; auto|lia]|destruct (p_stop p); [exfalso; auto|done]]. }
  induction r as [|r IH]; intros B s D t popSize got Hinv Ht Hr Hk;
    (destruct (Hcase B s D t popSize got Hinv Ht Hr) as [Hen|(p & Hp & G1 & G2 & G3)];
     [exists 0%nat, s; split_and!; [lia|done|done]|]).
  all: destruct (thread_progress B s D p t popSize got) as (s1 & t1 & S1 & T1 & C1); [done..|].
  - destruct C1 as [C1|C1]; [|lia]. destruct t; cbn in Hk; try lia. unfold thread_step in S1. by rewrite Ht, Hp in S1.
  - assert (step file (Thread (B ⊛ n) None) s = Some (s1, [])) as E by (cbn; by rewrite S1).
    destruct C1 as [C1|C1].
    + exists 1%nat, s1. split_and!; [lia| |done]. cbn [replicate run]. by rewrite E.
    + pose proof (thread_step_reader _ _ _ _ S1) as R1. rewrite Hr in R1.
      destruct (IH B s1 D t1 popSize got) as (k & s' & H1 & H2 & H3); [|done|done|lia|].
      { exact (inv_thread_step B s D (B ⊛ n) None s1 Hinv ltac:(done) S1). }
      exists (S k), s'. split_and!; [lia| |done]. cbn [replicate run]. rewrite E. cbn. by rewrite H2.
Qed.

(** The state after Init and StartPushThreaded. *)
Lemma inv_start blocks mem s0 :
  Init blocks (Z.of_nat c) mem = Some s0 -> n = Z.to_nat (Z.min blocks 3) -> inv 0 (StartPushThreaded s0) [].
Proof.
  intros Hi En. unfold Init in Hi. destruct mem as [|m mem]; [done|]. unfold QUEUE_SIZE in Hi.
  change (Z.of_nat 3) with 3 in Hi. rewrite <- En in Hi. injection Hi as <-.
  split; cbn; try done.
  - by rewrite Nat.Div0.mod_0_l.
  - by rewrite length_fmap, length_seq.
  - by rewrite length_fmap, length_seq.
  - intros j p t (i & -> & Hi)%list_lookup_fmap_Some (i' & -> & Hi')%list_lookup_fmap_Some.
    apply lookup_seq in Hi as [-> Hj]. apply lookup_seq in Hi' as [-> _]. cbn. exists j. split; [split; [by apply Nat.mod_small|lia]|].
    apply st_due; cbn; try done; [lia|]. left. split; [left|nia]. f_equal. rewrite <- Nat2Z.inj_mul. apply (off_u64 j). nia.
  - by left.
  - intros p (i & -> & Hi)%list_lookup_fmap_Some. rewrite consumed_eq by done. cbn. lia.
  - apply prefix_nil.
Qed.
End correct.

(** C33: reading ahead delivers the file.  For every interleaving of the push
    threads and the reader, with reads of any sizes: as long as no WaitPop has
    returned an error and nobody has stopped the stream, what the calls have
    returned together is a first part of the file, each call returned as many bytes
    as it says, and one that returned less than it was asked for has reached the end
    of the file. *)
Theorem read_stream_in_order file c blocks mem s0 acts s' outs :
  (0 < c)%nat -> 1 <= blocks -> Z.of_nat (length file) + 3 * Z.of_nat c < 2 ^ 63 ->
  Init blocks (Z.of_nat c) mem = Some s0 -> Forall regular acts ->
  run file acts (StartPushThreaded s0) = Some (s', outs) -> Forall (fun o => 0 <= o_ret o) outs ->
  prefix (bytes_of outs) file /\
  forall outs1 o outs2, outs = outs1 ++ o :: outs2 ->
    o_ret o = Z.of_nat (length (o_bytes o)) /\ (o_ret o = o_popSize o \/ bytes_of (outs1 ++ [o]) = file).
Proof.
  intros Hc Hb Hbound Hi Ha Hrun Ho. set (n := Z.to_nat (Z.min blocks 3)).
  destruct (run_ok file c n Hc ltac:(lia) ltac:(nia) acts 0 (StartPushThreaded s0) [] [] s' outs) as (B & D & H1 & H2 & H3); [..|done|done|done|].
  - eapply inv_start; [lia..|nia|done|done].
  - unfold current. cbn. unfold Init in Hi. destruct mem; [done|]. by injection Hi as <-.
  - split; [|exact H3]. pose proof (inv_data _ _ _ _ _ _ H1) as Hp. rewrite H2 in Hp. by eapply prefix_app_l.
Qed.


(** ** Examples *)

Module Demo.

Definition demo_file : list Z := [10; 11; 12; 13; 14; 15; 16; 17; 18; 19].

(** Blocks of four bytes in three pipes; the threads run in the opposite order. *)
Definition demo_init : ReadStream :=
  {| stopOffset := UINT64_MAX; pipeCap := 4; pipeIndex := 0; pipeNum := 3; pipes := replicate 3 (Pipe_Init 4 []);
     threads := replicate 3 Finished; rs_stop := false; rs_reader := Idle |}.

Definition round (i : nat) : list action := replicate 4 (Thread i None).
Definition demo_acts : list action :=
  [Call 7] ++ round 2 ++ round 1 ++ round 0 ++ [Read; Read; Read; Call 100; Thread 0 None; Thread 1 None; Read; Read; Read].

Lemma read_stream_in_order_witness :
  match run demo_file demo_acts (StartPushThreaded demo_init) with
  | Some (_, outs) => o_ret <$> outs = [7; 3] /\ prefix (bytes_of outs) demo_file
  | None => False
  end.
Proof.
  destruct (run demo_file demo_acts (StartPushThreaded demo_init)) as [[s outs]|] eqn:E; [|vm_compute in E; discriminate E].
  assert (o_ret <$> outs = [7; 3]) as Er by (vm_compute in E; injection E as _ <-; reflexivity). split; [exact Er|].
  apply (read_stream_in_order demo_file 4 3 [[]; []; []] demo_init demo_acts s outs); [lia|lia|done|reflexivity| |exact E|].
  - repeat constructor; try done; lia.
  - apply Forall_forall. intros o Ho. apply (list_elem_of_fmap_2 o_ret) in Ho. rewrite Er in Ho. clear E. apply list_elem_of_In in Ho. destruct Ho as [<-|[<-|[]]]; lia.
Defined.


(** A thread whose pipe was destroyed by the reader, at the end of a file of four
    bytes. *)
Definition spinning (o : Z) : ReadStream :=
  {| stopOffset := UINT64_MAX; pipeCap := 4; pipeIndex := 0; pipeNum := 1; pipes := [Destroy]; threads := [Check_ o];
     rs_stop := false; rs_reader := Idle |}.

Lemma spin_round file o : o < UINT64_MAX -> run file (replicate 3 (Thread 0 None)) (spinning o) = Some (spinning (u64 (o + 4)), []).
Proof. intros Ho. cbn -[UINT64_MAX wrap]. rewrite (proj2 (Z.ltb_lt o UINT64_MAX) Ho). done. Qed.

Lemma run_app file acts acts' s s1 o1 s2 o2 :
  run file acts s = Some (s1, o1) -> run file acts' s1 = Some (s2, o2) -> run file (acts ++ acts') s = Some (s2, o1 ++ o2).
Proof.
  revert s o1. induction acts as [|a acts IH]; intros s o1 H1 H2; cbn in *; [by injection H1 as <- <-|].
  destruct (step file a s) as [[s3 o3]|]; [|done]. cbn in *. destruct (run file acts s3) as [[s4 o4]|] eqn:E; [|done]. cbn in *.
  injection H1 as <- <-. rewrite (IH s3 o4 E H2). cbn. by rewrite app_assoc.
Qed.

(** The reader meets the end of the file and destroys the pipe, whose capacity is
    then 0, before the thread compares the 0 bytes it got with that capacity.  The
    thread takes this for a full block and goes round for ever, also after the
    destructor has set the flags of the pipes and waits for it. *)
Lemma push_thread_spins :
  let acts := round 0 ++ [Call 4; Read; Read; Thread 0 None; Call 1; Read; Thread 0 None] in
  exists s0 s outs, Init 1 4 [[]] = Some s0 /\ run [1; 2; 3; 4] acts (StartPushThreaded s0) = Some (s, outs) /\
    (o_ret <$> outs) = [4; 0] /\
    forall k, exists s', run [1; 2; 3; 4] (replicate (3 * k) (Thread 0 None)) (destructor s) = Some (s', []) /\
      exists o, threads s' !! 0%nat = Some (Check_ o).
Proof.
  eexists _, _, _. split; [reflexivity|]. split; [vm_compute; reflexivity|]. split; [reflexivity|]. intros k.
  exists (spinning (u64 (8 + 4 * Z.of_nat k))). split; [|by eexists]. change (destructor _) with (spinning (u64 8)).
  induction k as [|k IH]; [done|]. replace (3 * S k)%nat with (3 * k + 3)%nat by lia. rewrite replicate_add.
  eapply (run_app _ _ _ _ _ [] _ []); [exact IH|]. rewrite spin_round.
  - rewrite wrap_add_l. by replace (8 + 4 * Z.of_nat (S k)) with (8 + 4 * Z.of_nat k + 4) by lia.
  - unfold UINT64_MAX, wrap. pose proof (Z.mod_pos_bound (8 + 4 * Z.of_nat k) (2 ^ 64) ltac:(lia)).
    pose proof (Z.div_mod (8 + 4 * Z.of_nat k) (2 ^ 64) ltac:(lia)). lia.
Qed.

End Demo.
