(* ===== verification/FalconFd.v ===== *)
(** * Open files

    common/include/buffer/open_instance.h and common/src/buffer/dir_open_instance.cpp:
    what is known of an open file, and the table of open files by descriptor and by
    inode.  An OpenInstance is shared by pointers; here it is a cell of a heap and a
    pointer is the number of the cell.  Every operation of the table is atomic, as
    its mutexes make it; whether make_shared has memory is an argument. *)

From S2P Require Import FalconPrelude DiskCache StoreNode IoClient WriteStream ReadStream ClientReadDir.

Section instance.

Context `{NodeWorld}.

Record OpenInstance : Type := mkOpenInstance {
  oi_fd : Z;
  oi_inodeId : Z;
  oi_serialReadEnd : Z;
  oi_currentSize : Z;
  oi_originalSize : Z;
  oi_physicalFd : Z;
  oi_oflags : Z;
  oi_nodeId : Z;
  oi_backupNodeId : Z;
  oi_nodeFail : bool;
  oi_writeCnt : Z;
  oi_writeFail : bool;
  oi_readFail : bool;
  oi_isRemoteCall : bool;
  oi_remoteFailed : bool;
  oi_isFlushed : bool;
  oi_isClosed : bool;
  oi_readBuffer : list Z;
  oi_readBufferSize : Z;
  oi_preReadStarted : bool;
  oi_preReadStopped : bool;
  oi_directReadFile : bool;
  oi_path : string;
  oi_isOpened : bool;
  oi_writeStream : WriteStream;
  oi_readStream : ReadStream
}.

Definition new_OpenInstance : OpenInstance :=
  mkOpenInstance UINT64_MAX 0 0 0 0 UINT64_MAX 0 (-1) (-1) false 0 false false false false false false [] 0 false false false EmptyString false new_WriteStream
    new_ReadStream.

Implicit Types o : OpenInstance.

Definition set_fd (v : Z) o : OpenInstance :=
  mkOpenInstance v (oi_inodeId o) (oi_serialReadEnd o) (oi_currentSize o) (oi_originalSize o) (oi_physicalFd o)
    (oi_oflags o) (oi_nodeId o) (oi_backupNodeId o) (oi_nodeFail o) (oi_writeCnt o) (oi_writeFail o) (oi_readFail o)
    (oi_isRemoteCall o) (oi_remoteFailed o) (oi_isFlushed o) (oi_isClosed o) (oi_readBuffer o) (oi_readBufferSize o)
    (oi_preReadStarted o) (oi_preReadStopped o) (oi_directReadFile o) (oi_path o) (oi_isOpened o) (oi_writeStream o)
    (oi_readStream o).
Definition set_inodeId (v : Z) o : OpenInstance :=
  mkOpenInstance (oi_fd o) v (oi_serialReadEnd o) (oi_currentSize o) (oi_originalSize o) (oi_physicalFd o) (oi_oflags
    o) (oi_nodeId o) (oi_backupNodeId o) (oi_nodeFail o) (oi_writeCnt o) (oi_writeFail o) (oi_readFail o)
    (oi_isRemoteCall o) (oi_remoteFailed o) (oi_isFlushed o) (oi_isClosed o) (oi_readBuffer o) (oi_readBufferSize o)
    (oi_preReadStarted o) (oi_preReadStopped o) (oi_directReadFile o) (oi_path o) (oi_isOpened o) (oi_writeStream o)
    (oi_readStream o).
Definition set_serialReadEnd (v : Z) o : OpenInstance :=
  mkOpenInstance (oi_fd o) (oi_inodeId o) v (oi_currentSize o) (oi_originalSize o) (oi_physicalFd o) (oi_oflags o)
    (oi_nodeId o) (oi_backupNodeId o) (oi_nodeFail o) (oi_writeCnt o) (oi_writeFail o) (oi_readFail o)
    (oi_isRemoteCall o) (oi_remoteFailed o) (oi_isFlushed o) (oi_isClosed o) (oi_readBuffer o) (oi_readBufferSize o)
    (oi_preReadStarted o) (oi_preReadStopped o) (oi_directReadFile o) (oi_path o) (oi_isOpened o) (oi_writeStream o)
    (oi_readStream o).
Definition set_currentSize (v : Z) o : OpenInstance :=
  mkOpenInstance (oi_fd o) (oi_inodeId o) (oi_serialReadEnd o) v (oi_originalSize o) (oi_physicalFd o) (oi_oflags o)
    (oi_nodeId o) (oi_backupNodeId o) (oi_nodeFail o) (oi_writeCnt o) (oi_writeFail o) (oi_readFail o)
    (oi_isRemoteCall o) (oi_remoteFailed o) (oi_isFlushed o) (oi_isClosed o) (oi_readBuffer o) (oi_readBufferSize o)
    (oi_preReadStarted o) (oi_preReadStopped o) (oi_directReadFile o) (oi_path o) (oi_isOpened o) (oi_writeStream o)
    (oi_readStream o).
Definition set_originalSize (v : Z) o : OpenInstance :=
  mkOpenInstance (oi_fd o) (oi_inodeId o) (oi_serialReadEnd o) (oi_currentSize o) v (oi_physicalFd o) (oi_oflags o)
    (oi_nodeId o) (oi_backupNodeId o) (oi_nodeFail o) (oi_writeCnt o) (oi_writeFail o) (oi_readFail o)
    (oi_isRemoteCall o) (oi_remoteFailed o) (oi_isFlushed o) (oi_isClosed o) (oi_readBuffer o) (oi_readBufferSize o)
    (oi_preReadStarted o) (oi_preReadStopped o) (oi_directReadFile o) (oi_path o) (oi_isOpened o) (oi_writeStream o)
    (oi_readStream o).
Definition set_physicalFd (v : Z) o : OpenInstance :=
  mkOpenInstance (oi_fd o) (oi_inodeId o) (oi_serialReadEnd o) (oi_currentSize o) (oi_originalSize o) v (oi_oflags o)
    (oi_nodeId o) (oi_backupNodeId o) (oi_nodeFail o) (oi_writeCnt o) (oi_writeFail o) (oi_readFail o)
    (oi_isRemoteCall o) (oi_remoteFailed o) (oi_isFlushed o) (oi_isClosed o) (oi_readBuffer o) (oi_readBufferSize o)
    (oi_preReadStarted o) (oi_preReadStopped o) (oi_directReadFile o) (oi_path o) (oi_isOpened o) (oi_writeStream o)
    (oi_readStream o).
Definition set_oflags (v : Z) o : OpenInstance :=
  mkOpenInstance (oi_fd o) (oi_inodeId o) (oi_serialReadEnd o) (oi_currentSize o) (oi_originalSize o) (oi_physicalFd
    o) v (oi_nodeId o) (oi_backupNodeId o) (oi_nodeFail o) (oi_writeCnt o) (oi_writeFail o) (oi_readFail o)
    (oi_isRemoteCall o) (oi_remoteFailed o) (oi_isFlushed o) (oi_isClosed o) (oi_readBuffer o) (oi_readBufferSize o)
    (oi_preReadStarted o) (oi_preReadStopped o) (oi_directReadFile o) (oi_path o) (oi_isOpened o) (oi_writeStream o)
    (oi_readStream o).
Definition set_nodeId (v : Z) o : OpenInstance :=
  mkOpenInstance (oi_fd o) (oi_inodeId o) (oi_serialReadEnd o) (oi_currentSize o) (oi_originalSize o) (oi_physicalFd
    o) (oi_oflags o) v (oi_backupNodeId o) (oi_nodeFail o) (oi_writeCnt o) (oi_writeFail o) (oi_readFail o)
    (oi_isRemoteCall o) (oi_remoteFailed o) (oi_isFlushed o) (oi_isClosed o) (oi_readBuffer o) (oi_readBufferSize o)
    (oi_preReadStarted o) (oi_preReadStopped o) (oi_directReadFile o) (oi_path o) (oi_isOpened o) (oi_writeStream o)
    (oi_readStream o).
Definition set_backupNodeId (v : Z) o : OpenInstance :=
  mkOpenInstance (oi_fd o) (oi_inodeId o) (oi_serialReadEnd o) (oi_currentSize o) (oi_originalSize o) (oi_physicalFd
    o) (oi_oflags o) (oi_nodeId o) v (oi_nodeFail o) (oi_writeCnt o) (oi_writeFail o) (oi_readFail o) (oi_isRemoteCall
    o) (oi_remoteFailed o) (oi_isFlushed o) (oi_isClosed o) (oi_readBuffer o) (oi_readBufferSize o) (oi_preReadStarted
    o) (oi_preReadStopped o) (oi_directReadFile o) (oi_path o) (oi_isOpened o) (oi_writeStream o) (oi_readStream o).
Definition set_nodeFail (v : bool) o : OpenInstance :=
  mkOpenInstance (oi_fd o) (oi_inodeId o) (oi_serialReadEnd o) (oi_currentSize o) (oi_originalSize o) (oi_physicalFd
    o) (oi_oflags o) (oi_nodeId o) (oi_backupNodeId o) v (oi_writeCnt o) (oi_writeFail o) (oi_readFail o)
    (oi_isRemoteCall o) (oi_remoteFailed o) (oi_isFlushed o) (oi_isClosed o) (oi_readBuffer o) (oi_readBufferSize o)
    (oi_preReadStarted o) (oi_preReadStopped o) (oi_directReadFile o) (oi_path o) (oi_isOpened o) (oi_writeStream o)
    (oi_readStream o).
Definition set_writeCnt (v : Z) o : OpenInstance :=
  mkOpenInstance (oi_fd o) (oi_inodeId o) (oi_serialReadEnd o) (oi_currentSize o) (oi_originalSize o) (oi_physicalFd
    o) (oi_oflags o) (oi_nodeId o) (oi_backupNodeId o) (oi_nodeFail o) v (oi_writeFail o) (oi_readFail o)
    (oi_isRemoteCall o) (oi_remoteFailed o) (oi_isFlushed o) (oi_isClosed o) (oi_readBuffer o) (oi_readBufferSize o)
    (oi_preReadStarted o) (oi_preReadStopped o) (oi_directReadFile o) (oi_path o) (oi_isOpened o) (oi_writeStream o)
    (oi_readStream o).
Definition set_writeFail (v : bool) o : OpenInstance :=
  mkOpenInstance (oi_fd o) (oi_inodeId o) (oi_serialReadEnd o) (oi_currentSize o) (oi_originalSize o) (oi_physicalFd
    o) (oi_oflags o) (oi_nodeId o) (oi_backupNodeId o) (oi_nodeFail o) (oi_writeCnt o) v (oi_readFail o)
    (oi_isRemoteCall o) (oi_remoteFailed o) (oi_isFlushed o) (oi_isClosed o) (oi_readBuffer o) (oi_readBufferSize o)
    (oi_preReadStarted o) (oi_preReadStopped o) (oi_directReadFile o) (oi_path o) (oi_isOpened o) (oi_writeStream o)
    (oi_readStream o).
Definition set_readFail (v : bool) o : OpenInstance :=
  mkOpenInstance (oi_fd o) (oi_inodeId o) (oi_serialReadEnd o) (oi_currentSize o) (oi_originalSize o) (oi_physicalFd
    o) (oi_oflags o) (oi_nodeId o) (oi_backupNodeId o) (oi_nodeFail o) (oi_writeCnt o) (oi_writeFail o) v
    (oi_isRemoteCall o) (oi_remoteFailed o) (oi_isFlushed o) (oi_isClosed o) (oi_readBuffer o) (oi_readBufferSize o)
    (oi_preReadStarted o) (oi_preReadStopped o) (oi_directReadFile o) (oi_path o) (oi_isOpened o) (oi_writeStream o)
    (oi_readStream o).
Definition set_isRemoteCall (v : bool) o : OpenInstance :=
  mkOpenInstance (oi_fd o) (oi_inodeId o) (oi_serialReadEnd o) (oi_currentSize o) (oi_originalSize o) (oi_physicalFd
    o) (oi_oflags o) (oi_nodeId o) (oi_backupNodeId o) (oi_nodeFail o) (oi_writeCnt o) (oi_writeFail o) (oi_readFail
    o) v (oi_remoteFailed o) (oi_isFlushed o) (oi_isClosed o) (oi_readBuffer o) (oi_readBufferSize o)
    (oi_preReadStarted o) (oi_preReadStopped o) (oi_directReadFile o) (oi_path o) (oi_isOpened o) (oi_writeStream o)
    (oi_readStream o).
Definition set_remoteFailed (v : bool) o : OpenInstance :=
  mkOpenInstance (oi_fd o) (oi_inodeId o) (oi_serialReadEnd o) (oi_currentSize o) (oi_originalSize o) (oi_physicalFd
    o) (oi_oflags o) (oi_nodeId o) (oi_backupNodeId o) (oi_nodeFail o) (oi_writeCnt o) (oi_writeFail o) (oi_readFail
    o) (oi_isRemoteCall o) v (oi_isFlushed o) (oi_isClosed o) (oi_readBuffer o) (oi_readBufferSize o)
    (oi_preReadStarted o) (oi_preReadStopped o) (oi_directReadFile o) (oi_path o) (oi_isOpened o) (oi_writeStream o)
    (oi_readStream o).
Definition set_isFlushed (v : bool) o : OpenInstance :=
  mkOpenInstance (oi_fd o) (oi_inodeId o) (oi_serialReadEnd o) (oi_currentSize o) (oi_originalSize o) (oi_physicalFd
    o) (oi_oflags o) (oi_nodeId o) (oi_backupNodeId o) (oi_nodeFail o) (oi_writeCnt o) (oi_writeFail o) (oi_readFail
    o) (oi_isRemoteCall o) (oi_remoteFailed o) v (oi_isClosed o) (oi_readBuffer o) (oi_readBufferSize o)
    (oi_preReadStarted o) (oi_preReadStopped o) (oi_directReadFile o) (oi_path o) (oi_isOpened o) (oi_writeStream o)
    (oi_readStream o).
Definition set_isClosed (v : bool) o : OpenInstance :=
  mkOpenInstance (oi_fd o) (oi_inodeId o) (oi_serialReadEnd o) (oi_currentSize o) (oi_originalSize o) (oi_physicalFd
    o) (oi_oflags o) (oi_nodeId o) (oi_backupNodeId o) (oi_nodeFail o) (oi_writeCnt o) (oi_writeFail o) (oi_readFail
    o) (oi_isRemoteCall o) (oi_remoteFailed o) (oi_isFlushed o) v (oi_readBuffer o) (oi_readBufferSize o)
    (oi_preReadStarted o) (oi_preReadStopped o) (oi_directReadFile o) (oi_path o) (oi_isOpened o) (oi_writeStream o)
    (oi_readStream o).
Definition set_readBuffer (v : list Z) o : OpenInstance :=
  mkOpenInstance (oi_fd o) (oi_inodeId o) (oi_serialReadEnd o) (oi_currentSize o) (oi_originalSize o) (oi_physicalFd
    o) (oi_oflags o) (oi_nodeId o) (oi_backupNodeId o) (oi_nodeFail o) (oi_writeCnt o) (oi_writeFail o) (oi_readFail
    o) (oi_isRemoteCall o) (oi_remoteFailed o) (oi_isFlushed o) (oi_isClosed o) v (oi_readBufferSize o)
    (oi_preReadStarted o) (oi_preReadStopped o) (oi_directReadFile o) (oi_path o) (oi_isOpened o) (oi_writeStream o)
    (oi_readStream o).
Definition set_readBufferSize (v : Z) o : OpenInstance :=
  mkOpenInstance (oi_fd o) (oi_inodeId o) (oi_serialReadEnd o) (oi_currentSize o) (oi_originalSize o) (oi_physicalFd
    o) (oi_oflags o) (oi_nodeId o) (oi_backupNodeId o) (oi_nodeFail o) (oi_writeCnt o) (oi_writeFail o) (oi_readFail
    o) (oi_isRemoteCall o) (oi_remoteFailed o) (oi_isFlushed o) (oi_isClosed o) (oi_readBuffer o) v (oi_preReadStarted
    o) (oi_preReadStopped o) (oi_directReadFile o) (oi_path o) (oi_isOpened o) (oi_writeStream o) (oi_readStream o).
Definition set_preReadStarted (v : bool) o : OpenInstance :=
  mkOpenInstance (oi_fd o) (oi_inodeId o) (oi_serialReadEnd o) (oi_currentSize o) (oi_originalSize o) (oi_physicalFd
    o) (oi_oflags o) (oi_nodeId o) (oi_backupNodeId o) (oi_nodeFail o) (oi_writeCnt o) (oi_writeFail o) (oi_readFail
    o) (oi_isRemoteCall o) (oi_remoteFailed o) (oi_isFlushed o) (oi_isClosed o) (oi_readBuffer o) (oi_readBufferSize
    o) v (oi_preReadStopped o) (oi_directReadFile o) (oi_path o) (oi_isOpened o) (oi_writeStream o) (oi_readStream o).
Definition set_preReadStopped (v : bool) o : OpenInstance :=
  mkOpenInstance (oi_fd o) (oi_inodeId o) (oi_serialReadEnd o) (oi_currentSize o) (oi_originalSize o) (oi_physicalFd
    o) (oi_oflags o) (oi_nodeId o) (oi_backupNodeId o) (oi_nodeFail o) (oi_writeCnt o) (oi_writeFail o) (oi_readFail
    o) (oi_isRemoteCall o) (oi_remoteFailed o) (oi_isFlushed o) (oi_isClosed o) (oi_readBuffer o) (oi_readBufferSize
    o) (oi_preReadStarted o) v (oi_directReadFile o) (oi_path o) (oi_isOpened o) (oi_writeStream o) (oi_readStream o).
Definition set_directReadFile (v : bool) o : OpenInstance :=
  mkOpenInstance (oi_fd o) (oi_inodeId o) (oi_serialReadEnd o) (oi_currentSize o) (oi_originalSize o) (oi_physicalFd
    o) (oi_oflags o) (oi_nodeId o) (oi_backupNodeId o) (oi_nodeFail o) (oi_writeCnt o) (oi_writeFail o) (oi_readFail
    o) (oi_isRemoteCall o) (oi_remoteFailed o) (oi_isFlushed o) (oi_isClosed o) (oi_readBuffer o) (oi_readBufferSize
    o) (oi_preReadStarted o) (oi_preReadStopped o) v (oi_path o) (oi_isOpened o) (oi_writeStream o) (oi_readStream o).
Definition set_path (v : string) o : OpenInstance :=
  mkOpenInstance (oi_fd o) (oi_inodeId o) (oi_serialReadEnd o) (oi_currentSize o) (oi_originalSize o) (oi_physicalFd
    o) (oi_oflags o) (oi_nodeId o) (oi_backupNodeId o) (oi_nodeFail o) (oi_writeCnt o) (oi_writeFail o) (oi_readFail
    o) (oi_isRemoteCall o) (oi_remoteFailed o) (oi_isFlushed o) (oi_isClosed o) (oi_readBuffer o) (oi_readBufferSize
    o) (oi_preReadStarted o) (oi_preReadStopped o) (oi_directReadFile o) v (oi_isOpened o) (oi_writeStream o)
    (oi_readStream o).
Definition set_isOpened (v : bool) o : OpenInstance :=
  mkOpenInstance (oi_fd o) (oi_inodeId o) (oi_serialReadEnd o) (oi_currentSize o) (oi_originalSize o) (oi_physicalFd
    o) (oi_oflags o) (oi_nodeId o) (oi_backupNodeId o) (oi_nodeFail o) (oi_writeCnt o) (oi_writeFail o) (oi_readFail
    o) (oi_isRemoteCall o) (oi_remoteFailed o) (oi_isFlushed o) (oi_isClosed o) (oi_readBuffer o) (oi_readBufferSize
    o) (oi_preReadStarted o) (oi_preReadStopped o) (oi_directReadFile o) (oi_path o) v (oi_writeStream o)
    (oi_readStream o).
Definition set_writeStream (v : WriteStream) o : OpenInstance :=
  mkOpenInstance (oi_fd o) (oi_inodeId o) (oi_serialReadEnd o) (oi_currentSize o) (oi_originalSize o) (oi_physicalFd
    o) (oi_oflags o) (oi_nodeId o) (oi_backupNodeId o) (oi_nodeFail o) (oi_writeCnt o) (oi_writeFail o) (oi_readFail
    o) (oi_isRemoteCall o) (oi_remoteFailed o) (oi_isFlushed o) (oi_isClosed o) (oi_readBuffer o) (oi_readBufferSize
    o) (oi_preReadStarted o) (oi_preReadStopped o) (oi_directReadFile o) (oi_path o) (oi_isOpened o) v (oi_readStream
    o).
Definition set_readStream (v : ReadStream) o : OpenInstance :=
  mkOpenInstance (oi_fd o) (oi_inodeId o) (oi_serialReadEnd o) (oi_currentSize o) (oi_originalSize o) (oi_physicalFd
    o) (oi_oflags o) (oi_nodeId o) (oi_backupNodeId o) (oi_nodeFail o) (oi_writeCnt o) (oi_writeFail o) (oi_readFail
    o) (oi_isRemoteCall o) (oi_remoteFailed o) (oi_isFlushed o) (oi_isClosed o) (oi_readBuffer o) (oi_readBufferSize
    o) (oi_preReadStarted o) (oi_preReadStopped o) (oi_directReadFile o) (oi_path o) (oi_isOpened o) (oi_writeStream
    o) v.

End instance.

Arguments OpenInstance {_}.

(** ** The table *)

Section table.

Context `{NodeWorld}.

(** [heap] is the cells, [next_cell] the next one that make_shared takes. *)
Record FalconFd : Type := mkFalconFd {
  heap : gmap nat OpenInstance;
  next_cell : nat;
  openInstanceMap : gmap Z nat;
  dirOpenInstanceMap : gmap Z DirOpenInstance;
  inodeToOpenInstanceMap : gmap Z (gset nat);
  nextFD : Z;
  currOpenInstance : Z;
  maxOpenInstanceNum : Z
}.

Implicit Types (t : FalconFd) (h : nat).

Definition START_FD : Z := 3.

Definition new_FalconFd (max : Z) : FalconFd := mkFalconFd ∅ 0 ∅ ∅ ∅ START_FD 0 max.

Definition set_cell h (o : OpenInstance) t : FalconFd :=
  mkFalconFd (<[h := o]> (heap t)) (next_cell t) (openInstanceMap t) (dirOpenInstanceMap t) (inodeToOpenInstanceMap t) (nextFD t)
    (currOpenInstance t) (maxOpenInstanceNum t).
Definition set_openInstanceMap (m : gmap Z nat) t : FalconFd :=
  mkFalconFd (heap t) (next_cell t) m (dirOpenInstanceMap t) (inodeToOpenInstanceMap t) (nextFD t) (currOpenInstance t)
    (maxOpenInstanceNum t).
Definition set_dirOpenInstanceMap (m : gmap Z DirOpenInstance) t : FalconFd :=
  mkFalconFd (heap t) (next_cell t) (openInstanceMap t) m (inodeToOpenInstanceMap t) (nextFD t) (currOpenInstance t)
    (maxOpenInstanceNum t).
Definition set_inodeMap (m : gmap Z (gset nat)) t : FalconFd :=
  mkFalconFd (heap t) (next_cell t) (openInstanceMap t) (dirOpenInstanceMap t) m (nextFD t) (currOpenInstance t)
    (maxOpenInstanceNum t).
Definition set_nextFD (n : Z) t : FalconFd :=
  mkFalconFd (heap t) (next_cell t) (openInstanceMap t) (dirOpenInstanceMap t) (inodeToOpenInstanceMap t) n (currOpenInstance t)
    (maxOpenInstanceNum t).
Definition set_currOpenInstance (n : Z) t : FalconFd :=
  mkFalconFd (heap t) (next_cell t) (openInstanceMap t) (dirOpenInstanceMap t) (inodeToOpenInstanceMap t) (nextFD t) n
    (maxOpenInstanceNum t).

(** ObtainFd calls itself while the number is reserved; [n] bounds the calls. *)
Fixpoint obtain_fd (n : nat) (next : Z) : option (Z * Z) :=
  match n with
  | O => None
  | S n' =>
      let newFd := next in
      let next := u64 (next + 1) in
      if ((newFd <=? 2) || (newFd =? UINT64_MAX))%bool then obtain_fd n' next else Some (newFd, next)
  end.

Definition ObtainFd t : option (Z * FalconFd) := '(fd, next) ← obtain_fd 5 (nextFD t); Some (fd, set_nextFD next t).

Definition AddOpenInstance (fd : Z) h t : FalconFd :=
  match openInstanceMap t !! fd with
  | None => set_openInstanceMap (<[fd := h]> (openInstanceMap t)) t
  | Some _ => t
  end.

Definition inode_insert (inodeId : Z) h t : FalconFd :=
  set_inodeMap (<[inodeId := {[h]} ∪ default ∅ (inodeToOpenInstanceMap t !! inodeId)]> (inodeToOpenInstanceMap t)) t.

Definition inode_erase (inodeId : Z) h t : FalconFd :=
  let left_ := default ∅ (inodeToOpenInstanceMap t !! inodeId) ∖ {[h]} in
  set_inodeMap (if decide (left_ = ∅) then delete inodeId (inodeToOpenInstanceMap t)
                else <[inodeId := left_]> (inodeToOpenInstanceMap t)) t.

Definition ReleaseOpenInstance t : FalconFd := set_currOpenInstance (u32 (currOpenInstance t - 1)) t.

(** [None]: the pointer in the table points to no instance. *)
Definition DeleteOpenInstance (fd : Z) (subCnt : bool) t : option (Z * FalconFd) :=
  if decide (fd = UINT64_MAX) then Some (0, t) else
  match openInstanceMap t !! fd with
  | None => Some (- EBADF, t)
  | Some h =>
      o ← heap t !! h;
      let t := set_openInstanceMap (delete fd (openInstanceMap t)) t in
      let t := inode_erase (oi_inodeId o) h t in
      Some (0, if subCnt then ReleaseOpenInstance t else t)
  end.

(** The wait for a free instance is over when there is one or 3 seconds have
    passed; the operations of other threads come before this one. *)
Definition WaitGetNewOpenInstance (addCnt alloc : bool) t : option nat * FalconFd :=
  if (addCnt && negb (maxOpenInstanceNum t =? 0) && negb (currOpenInstance t <? maxOpenInstanceNum t))%bool then (None, t)
  else if alloc then
    let h := next_cell t in
    (Some h, mkFalconFd (<[h := new_OpenInstance]> (heap t)) (S h) (openInstanceMap t) (dirOpenInstanceMap t)
               (inodeToOpenInstanceMap t) (nextFD t)
               (if addCnt then u32 (currOpenInstance t + 1) else currOpenInstance t) (maxOpenInstanceNum t))
  else (None, t).

(** The second AttachFd, for an instance that the caller has made. *)
Definition AttachFd_instance h t : option (Z * FalconFd) :=
  '(fd, t) ← ObtainFd t;
  o ← heap t !! h;
  let t := AddOpenInstance fd h (set_cell h (set_fd fd o) t) in
  Some (fd, inode_insert (oi_inodeId o) h t).

Definition AttachFd (inodeId oflags : Z) (readBuffer : list Z) (size : Z) (path : string) (nodeId backupNodeId : Z) (isRead alloc : bool)
    t : option (Z * FalconFd) :=
  match WaitGetNewOpenInstance true alloc t with
  | (None, t) => Some (UINT64_MAX, t)
  | (Some h, t) =>
      '(fd, t) ← ObtainFd t;
      o ← heap t !! h;
      let o := if isRead then set_readBuffer readBuffer o else o in
      let o := set_oflags oflags (set_physicalFd UINT64_MAX (set_fd fd (set_inodeId inodeId o))) in
      let o := set_path path (set_backupNodeId backupNodeId (set_nodeId nodeId (set_currentSize size (set_originalSize size o)))) in
      Some (fd, inode_insert inodeId h (AddOpenInstance fd h (set_cell h o t)))
  end.

Definition GetOpenInstanceByFd (fd : Z) t : option nat := openInstanceMap t !! fd.

Definition AddDirOpenInstance (fd : Z) (d : DirOpenInstance) t : Z * FalconFd :=
  match dirOpenInstanceMap t !! fd with
  | None => (0, set_dirOpenInstanceMap (<[fd := d]> (dirOpenInstanceMap t)) t)
  | Some _ => (- EBADF, t)
  end.

Definition AttachDirFd (alloc : bool) t : option (Z * FalconFd) :=
  '(fd, t) ← ObtainFd t;
  Some (if alloc then (fd, (AddDirOpenInstance fd new_DirOpenInstance t).2) else (UINT64_MAX, t)).

Definition GetDirOpenInstanceByFd (fd : Z) t : option DirOpenInstance := dirOpenInstanceMap t !! fd.

Definition DeleteDirOpenInstance (fd : Z) t : Z * FalconFd :=
  match dirOpenInstanceMap t !! fd with
  | Some _ => (0, set_dirOpenInstanceMap (delete fd (dirOpenInstanceMap t)) t)
  | None => (- EBADF, t)
  end.

Definition GetInodetoOpenInstanceSet (inodeId : Z) t : gset nat := default ∅ (inodeToOpenInstanceMap t !! inodeId).
Definition GetCurrentOpenInstanceCount t : Z := currOpenInstance t.

End table.

Arguments FalconFd {_}.

(** ** The table is sound *)

Section sound.

Context `{NodeWorld}.

Implicit Types (t : FalconFd) (h : nat) (fd : Z) (o : OpenInstance).

(** What a process does with the table: the two ways to open a file, a change of
    an instance, close, and directories. *)
Inductive fd_op : Type :=
| FdAttach (inodeId oflags : Z) (readBuffer : list Z) (size : Z) (path : string) (nodeId backupNodeId : Z) (isRead alloc : bool)
| FdNew (addCnt alloc : bool)
| FdAttachInstance (h : nat)
| FdUpdate (h : nat) (f : OpenInstance -> OpenInstance)
| FdDelete (fd : Z) (subCnt : bool)
| FdRelease
| FdAttachDir (alloc : bool)
| FdDeleteDir (fd : Z).

(** What the callers keep to: an instance is attached once, and its descriptor and
    inode do not change while it is. *)
Definition legal (op : fd_op) t : bool :=
  match op with
  | FdAttachInstance h =>
      match heap t !! h with Some o => bool_decide (openInstanceMap t !! oi_fd o <> Some h) | None => false end
  | FdUpdate h f =>
      match heap t !! h with
      | Some o => bool_decide (oi_fd (f o) = oi_fd o /\ (oi_inodeId (f o) = oi_inodeId o \/ openInstanceMap t !! oi_fd o <> Some h))
      | None => false
      end
  | _ => true
  end.

Definition run_fd_op (op : fd_op) t : option FalconFd :=
  match op with
  | FdAttach ino fl buf sz p n b r a => snd <$> AttachFd ino fl buf sz p n b r a t
  | FdNew addCnt alloc => Some (WaitGetNewOpenInstance addCnt alloc t).2
  | FdAttachInstance h => snd <$> AttachFd_instance h t
  | FdUpdate h f => o ← heap t !! h; Some (set_cell h (f o) t)
  | FdDelete fd subCnt => snd <$> DeleteOpenInstance fd subCnt t
  | FdRelease => Some (ReleaseOpenInstance t)
  | FdAttachDir alloc => snd <$> AttachDirFd alloc t
  | FdDeleteDir fd => Some (DeleteDirOpenInstance fd t).2
  end.

Fixpoint run_fd_ops (ops : list fd_op) t : option FalconFd :=
  match ops with
  | [] => Some t
  | op :: ops' => if legal op t then run_fd_op op t ≫= run_fd_ops ops' else None
  end.

Record table_ok t : Prop := {
  tk_next : 3 <= nextFD t;
  tk_cells h : is_Some (heap t !! h) -> (h < next_cell t)%nat;
  tk_fd fd h : openInstanceMap t !! fd = Some h ->
    2 < fd < nextFD t /\ dirOpenInstanceMap t !! fd = None /\ exists o, heap t !! h = Some o /\ oi_fd o = fd;
  tk_dir fd : is_Some (dirOpenInstanceMap t !! fd) -> 2 < fd < nextFD t;
  tk_inode ino h : h ∈ GetInodetoOpenInstanceSet ino t <->
    exists fd o, openInstanceMap t !! fd = Some h /\ heap t !! h = Some o /\ oi_inodeId o = ino;
  tk_nonempty ino : inodeToOpenInstanceMap t !! ino <> Some ∅
}.

(** However many numbers are reserved in a row, five calls find one that is not. *)
Lemma ObtainFd_terminates t :
  0 <= nextFD t < 2 ^ 64 -> exists fd next, ObtainFd t = Some (fd, set_nextFD next t) /\ 2 < fd < UINT64_MAX /\ 0 <= next < 2 ^ 64.
Proof.
  intros Hn. unfold ObtainFd, UINT64_MAX. assert (obtain_fd 5 0 = Some (3, 4)) as E0 by done.
  assert (obtain_fd 4 0 = Some (3, 4)) as E1 by done. assert (obtain_fd 5 1 = Some (3, 4)) as E2 by done.
  assert (obtain_fd 5 2 = Some (3, 4)) as E3 by done. assert (obtain_fd 5 (2 ^ 64 - 1) = Some (3, 4)) as E4 by done.
  destruct (decide (nextFD t <= 2)) as [Hs|Hs].
  { assert (nextFD t = 0 \/ nextFD t = 1 \/ nextFD t = 2) as [->|[->| ->]] by lia; rewrite ?E0, ?E2, ?E3; exists 3, 4; (split; [done|lia]). }
  destruct (decide (nextFD t = 2 ^ 64 - 1)) as [->|Hm]; [rewrite E4; exists 3, 4; split; [done|lia]|].
  exists (nextFD t), (u64 (nextFD t + 1)). cbn [obtain_fd]. destruct (Z.leb_spec (nextFD t) 2); [lia|].
  destruct (Z.eqb_spec (nextFD t) UINT64_MAX); [unfold UINT64_MAX in *; lia|]. cbn.
  rewrite wrap_small by (unfold in_range; lia). split; [done|lia].
Qed.

Lemma ObtainFd_next t : 3 <= nextFD t < UINT64_MAX -> ObtainFd t = Some (nextFD t, set_nextFD (nextFD t + 1) t).
Proof.
  intros Hn. unfold ObtainFd. cbn [obtain_fd]. destruct (Z.leb_spec (nextFD t) 2); [lia|].
  destruct (Z.eqb_spec (nextFD t) UINT64_MAX); [lia|]. cbn. unfold UINT64_MAX in *. rewrite wrap_small by (unfold in_range; lia). done.
Qed.

Lemma elem_of_set_insert ino h ino' h' t :
  h' ∈ GetInodetoOpenInstanceSet ino' (inode_insert ino h t) <-> (ino' = ino /\ h' = h) \/ h' ∈ GetInodetoOpenInstanceSet ino' t.
Proof.
  unfold GetInodetoOpenInstanceSet, inode_insert. cbn. destruct (decide (ino' = ino)) as [->|Hne].
  - rewrite lookup_insert_eq. set_solver.
  - rewrite lookup_insert_ne by done. naive_solver.
Qed.

Lemma elem_of_set_erase ino h ino' h' t :
  h' ∈ GetInodetoOpenInstanceSet ino' (inode_erase ino h t) <-> ~ (ino' = ino /\ h' = h) /\ h' ∈ GetInodetoOpenInstanceSet ino' t.
Proof.
  unfold GetInodetoOpenInstanceSet, inode_erase. cbn. destruct (decide (ino' = ino)) as [->|Hne].
  - case_decide as Hd; rewrite ?lookup_delete_eq, ?lookup_insert_eq; set_solver.
  - case_decide; rewrite ?lookup_delete_ne, ?lookup_insert_ne by done; naive_solver.
Qed.

Lemma attached_fd t h o : table_ok t -> heap t !! h = Some o -> openInstanceMap t !! oi_fd o <> Some h ->
  forall fd, openInstanceMap t !! fd <> Some h.
Proof. intros Hok Ho Hn fd Hfd. destruct (tk_fd _ Hok _ _ Hfd) as (_ & _ & o' & Ho' & E). congruence. Qed.

Lemma table_ok_new addCnt alloc t : table_ok t -> table_ok (WaitGetNewOpenInstance addCnt alloc t).2.
Proof.
  intros Hok. unfold WaitGetNewOpenInstance. case_match; [done|]. destruct alloc; [|done].
  assert (forall h, is_Some (heap t !! h) -> h <> next_cell t) as Hfresh by (intros h Hh%(tk_cells _ Hok); lia).
  split; cbn; try apply Hok.
  - intros h [->|[_ Hh]]%lookup_insert_is_Some; [lia|]. apply (tk_cells _ Hok) in Hh. lia.
  - intros fd h Hfd. destruct (tk_fd _ Hok _ _ Hfd) as (H1 & H2 & o & Ho & E). split_and!; try lia; [done|]. exists o.
    rewrite lookup_insert_ne; [done|]. intros <-. by eapply Hfresh.
  - intros ino h. etransitivity; [apply (tk_inode _ Hok)|]. split; intros (fd & o & H1 & H2 & H3); exists fd, o; split_and!; try done.
    + rewrite lookup_insert_ne; [done|]. intros <-. by eapply Hfresh.
    + destruct (tk_fd _ Hok _ _ H1) as (_ & _ & o' & Ho & _). rewrite lookup_insert_ne in H2; [done|]. intros <-. by eapply Hfresh.
Qed.

Lemma table_ok_attach t h o :
  table_ok t -> is_Some (heap t !! h) -> (forall fd, openInstanceMap t !! fd <> Some h) -> oi_fd o = nextFD t ->
  table_ok (inode_insert (oi_inodeId o) h (AddOpenInstance (nextFD t) h (set_cell h o (set_nextFD (nextFD t + 1) t)))).
Proof.
  intros Hok Hh Hna Hfd. pose proof (tk_next _ Hok).
  assert (openInstanceMap t !! nextFD t = None) as Hfree.
  { destruct (openInstanceMap t !! nextFD t) eqn:E; [|done]. apply (tk_fd _ Hok) in E. lia. }
  assert (dirOpenInstanceMap t !! nextFD t = None) as Hdir.
  { destruct (dirOpenInstanceMap t !! nextFD t) eqn:E; [|done]. pose proof (tk_dir _ Hok (nextFD t) ltac:(eauto)). lia. }
  unfold AddOpenInstance. cbn. rewrite Hfree. split; cbn.
  - lia.
  - intros h' [->|[_ Hh']]%lookup_insert_is_Some; by apply (tk_cells _ Hok).
  - intros fd h' [[<- <-]|[Hne E]]%lookup_insert_Some.
    + split_and!; [lia..|done|]. exists o. by rewrite lookup_insert_eq.
    + destruct (tk_fd _ Hok _ _ E) as (H1 & H2 & o' & Ho & E'). split_and!; [lia..|done|]. exists o'.
      rewrite lookup_insert_ne; [done|]. intros <-. by eapply Hna.
  - intros fd Hd%(tk_dir _ Hok). lia.
  - intros ino h'. rewrite elem_of_set_insert. change (GetInodetoOpenInstanceSet ino _) with (GetInodetoOpenInstanceSet ino t).
    rewrite (tk_inode _ Hok). split.
    + intros [[-> ->]|(fd & o' & H1 & H2 & H3)]; [exists (nextFD t), o; by rewrite !lookup_insert_eq|]. exists fd, o'.
      rewrite !lookup_insert_ne; [done|..]; intros <-; [by eapply Hna|congruence].
    + intros (fd & o' & [[<- <-]|[Hne E]]%lookup_insert_Some & H2 & H3).
      * rewrite lookup_insert_eq in H2. left. naive_solver.
      * right. exists fd, o'. rewrite lookup_insert_ne in H2; [done|]. intros <-. by eapply Hna.
  - intros ino. destruct (decide (ino = oi_inodeId o)) as [->|]; [rewrite lookup_insert_eq; intros [=E]; set_solver|].
    rewrite lookup_insert_ne by done. apply (tk_nonempty _ Hok).
Qed.

Lemma table_ok_count n t : table_ok t -> table_ok (set_currOpenInstance n t).
Proof. intros Hok. split; apply Hok. Qed.

Lemma table_ok_delete fd subCnt ret t t' : table_ok t -> DeleteOpenInstance fd subCnt t = Some (ret, t') ->
  table_ok t' /\ nextFD t' = nextFD t /\
  (fd <> UINT64_MAX -> GetOpenInstanceByFd fd t' = None /\ forall fd', fd' <> fd -> GetOpenInstanceByFd fd' t' = GetOpenInstanceByFd fd' t).
Proof.
  intros Hok. unfold DeleteOpenInstance. case_decide as Hm; [intros [= <- <-]; by split_and!|].
  destruct (openInstanceMap t !! fd) as [h|] eqn:Hfd; [|intros [= <- <-]; by split_and!].
  destruct (tk_fd _ Hok _ _ Hfd) as (H1 & H2 & o & Ho & E). rewrite Ho. cbn. intros [= <- <-].
  set (t1 := inode_erase _ _ _).
  assert (table_ok t1) as H1'; [|split_and!; [destruct subCnt; [by apply table_ok_count|done]|by destruct subCnt|]].
  - split; try apply Hok.
    + intros fd' h' E'. change (delete fd (openInstanceMap t) !! fd' = Some h') in E'.
      apply lookup_delete_Some in E' as [Hne E']. by apply (tk_fd _ Hok).
    + intros ino h'. subst t1. rewrite elem_of_set_erase. cbn.
      change (GetInodetoOpenInstanceSet ino _) with (GetInodetoOpenInstanceSet ino t). rewrite (tk_inode _ Hok). split.
      * intros (Hn & fd' & o' & G1 & G2 & G3). exists fd', o'. rewrite lookup_delete_ne; [done|]. intros <-. apply Hn.
        naive_solver.
      * intros (fd' & o' & [Hne G1]%lookup_delete_Some & G2 & G3). split; [|by exists fd', o']. intros [-> ->].
        destruct (tk_fd _ Hok _ _ G1) as (_ & _ & o2 & G4 & G5). congruence.
    + intros ino. subst t1. unfold inode_erase. cbn. case_decide as Hd.
      * destruct (decide (ino = oi_inodeId o)) as [->|]; [by rewrite lookup_delete_eq|].
        rewrite lookup_delete_ne by done. apply (tk_nonempty _ Hok).
      * destruct (decide (ino = oi_inodeId o)) as [->|]; [rewrite lookup_insert_eq; congruence|].
        rewrite lookup_insert_ne by done. apply (tk_nonempty _ Hok).
  - intros _. unfold GetOpenInstanceByFd. split; [destruct subCnt; cbn; apply lookup_delete_eq|].
    intros fd' Hne. destruct subCnt; cbn; by rewrite lookup_delete_ne.
Qed.

Lemma table_ok_update h o o' t :
  table_ok t -> heap t !! h = Some o -> oi_fd o' = oi_fd o ->
  (oi_inodeId o' = oi_inodeId o \/ openInstanceMap t !! oi_fd o <> Some h) -> table_ok (set_cell h o' t).
Proof.
  intros Hok Ho Hf Hi. split; cbn; try apply Hok.
  - intros h' [->|[_ Hh]]%lookup_insert_is_Some; apply (tk_cells _ Hok); eauto.
  - intros fd h' Hfd. destruct (tk_fd _ Hok _ _ Hfd) as (H1 & H2 & o1 & Ho1 & E). split_and!; [lia..|done|].
    destruct (decide (h = h')) as [<-|]; [exists o'; rewrite lookup_insert_eq; naive_solver congruence|].
    exists o1. by rewrite lookup_insert_ne.
  - intros ino h'. etransitivity; [apply (tk_inode _ Hok)|].
    destruct (decide (h = h')) as [<-|Hne]; [|by setoid_rewrite lookup_insert_ne]. setoid_rewrite lookup_insert_eq.
    assert (forall fd, openInstanceMap t !! fd = Some h -> oi_inodeId o' = oi_inodeId o) as Hin.
    { intros fd Hfd. destruct Hi as [|Hn]; [done|]. exfalso. by eapply attached_fd. }
    split; intros (fd & o1 & G1 & G2 & G3); specialize (Hin _ G1); eexists fd, _; (split_and!; [done..|congruence]).
Qed.

Lemma table_ok_dir fd d t : table_ok t -> 3 <= nextFD t ->
  fd = nextFD t -> table_ok (AddDirOpenInstance fd d (set_nextFD (nextFD t + 1) t)).2.
Proof.
  intros Hok Hn ->. unfold AddDirOpenInstance. cbn.
  assert (dirOpenInstanceMap t !! nextFD t = None) as ->.
  { destruct (dirOpenInstanceMap t !! nextFD t) eqn:E; [|done]. pose proof (tk_dir _ Hok (nextFD t) ltac:(eauto)). lia. }
  split; cbn; try apply Hok; [lia|..].
  - intros fd h Hfd. destruct (tk_fd _ Hok _ _ Hfd) as (H1 & H2 & H3). split_and!; [lia..| |done].
    rewrite lookup_insert_ne by lia. done.
  - intros fd [<-|[_ Hd%(tk_dir _ Hok)]]%lookup_insert_is_Some; lia.
Qed.

Lemma table_ok_dir_delete fd t : table_ok t -> table_ok (DeleteDirOpenInstance fd t).2.
Proof.
  intros Hok. unfold DeleteDirOpenInstance. case_match; [|done]. split; cbn; try apply Hok.
  - intros fd' h Hfd. destruct (tk_fd _ Hok _ _ Hfd) as (H1 & H2 & H3). split_and!; [lia..| |done]. by apply lookup_delete_None; right.
  - intros fd' [d' [_ Hd]%lookup_delete_Some]. apply (tk_dir _ Hok). eauto.
Qed.

Lemma table_ok_next t : table_ok t -> table_ok (set_nextFD (nextFD t + 1) t).
Proof.
  intros Hok. pose proof (tk_next _ Hok). split; cbn; try apply Hok; [lia|..].
  - intros fd h Hfd. destruct (tk_fd _ Hok _ _ Hfd) as (H1 & H2 & H3). split_and!; [lia..|done|done].
  - intros fd Hd%(tk_dir _ Hok). lia.
Qed.

(** AttachFd gives a number that is in use neither for a file nor for a directory,
    and no other descriptor changes. *)
Lemma AttachFd_correct ino fl buf sz p n b r a t :
  table_ok t -> nextFD t < UINT64_MAX ->
  exists fd t', AttachFd ino fl buf sz p n b r a t = Some (fd, t') /\ table_ok t' /\ nextFD t <= nextFD t' <= nextFD t + 1 /\
    (fd = UINT64_MAX /\ t' = t \/
     2 < fd < UINT64_MAX /\ openInstanceMap t !! fd = None /\ dirOpenInstanceMap t !! fd = None /\
     (exists h o, openInstanceMap t' = <[fd := h]> (openInstanceMap t) /\ heap t !! h = None /\ heap t' !! h = Some o /\
        oi_fd o = fd /\ oi_inodeId o = ino /\ oi_path o = p /\ oi_currentSize o = sz /\ oi_physicalFd o = UINT64_MAX)).
Proof.
  intros Hok Hn. pose proof (tk_next _ Hok) as H3. unfold AttachFd.
  destruct (WaitGetNewOpenInstance true a t) as [[h|] t1] eqn:E; cycle 1.
  { exists UINT64_MAX, t1. pose proof (table_ok_new true a t Hok) as Hok1. rewrite E in Hok1.
    assert (t1 = t) as -> by (unfold WaitGetNewOpenInstance in E; repeat case_match; naive_solver). split_and!; [done..|lia|lia|by left]. }
  pose proof (table_ok_new true a t Hok) as Hok1. rewrite E in Hok1. cbn in Hok1.
  assert (h = next_cell t /\ nextFD t1 = nextFD t /\ openInstanceMap t1 = openInstanceMap t /\ dirOpenInstanceMap t1 = dirOpenInstanceMap t /\
    heap t1 !! h = Some new_OpenInstance) as (-> & En & Em & Ed & Eh).
  { unfold WaitGetNewOpenInstance in E. repeat case_match; simplify_eq. cbn. by rewrite lookup_insert_eq. }
  rewrite ObtainFd_next by (rewrite En; lia). cbn -[AddOpenInstance inode_insert]. rewrite Eh.
  cbn -[AddOpenInstance inode_insert]. rewrite En. eexists _, _. split; [done|].
  assert (openInstanceMap t !! nextFD t = None) as Hf1.
  { destruct (openInstanceMap t !! nextFD t) eqn:E1; [|done]. apply (tk_fd _ Hok) in E1. lia. }
  assert (dirOpenInstanceMap t !! nextFD t = None) as Hf2.
  { destruct (dirOpenInstanceMap t !! nextFD t) eqn:E1; [|done]. pose proof (tk_dir _ Hok (nextFD t) ltac:(eauto)). lia. }
  assert (heap t !! next_cell t = None) as Hc.
  { destruct (heap t !! next_cell t) eqn:E1; [|done]. pose proof (tk_cells _ Hok (next_cell t) ltac:(eauto)). lia. }
  split_and!; [| | |right; split_and!; [lia|lia|done|done|]].
  - rewrite <- En. set (o := set_path p _).
    assert (oi_inodeId o = ino) as Ei by (by destruct r). rewrite <- Ei at 1.
    apply table_ok_attach; [done|by eexists| |by destruct r]. intros fd Hfd. rewrite Em in Hfd. destruct (tk_fd _ Hok _ _ Hfd) as (_ & _ & o' & Ho' & _). congruence.
  - unfold AddOpenInstance. cbn. rewrite Em, Hf1. cbn. lia.
  - unfold AddOpenInstance. cbn. rewrite Em, Hf1. cbn. lia.
  - exists (next_cell t). eexists. unfold AddOpenInstance. cbn. rewrite Em, Hf1. cbn. rewrite lookup_insert_eq.
    split_and!; [done..|]. by destruct r.
Qed.

Lemma run_fd_op_ok op t :
  table_ok t -> nextFD t < UINT64_MAX -> legal op t = true ->
  exists t', run_fd_op op t = Some t' /\ table_ok t' /\ nextFD t' <= nextFD t + 1.
Proof.
  intros Hok Hn Hl. pose proof (tk_next _ Hok). destruct op as [ino fl buf sz p n b r a|addCnt alloc|h|h f|fd subCnt| |alloc|fd]; cbn [run_fd_op legal] in *.
  - destruct (AttachFd_correct ino fl buf sz p n b r a t Hok Hn) as (fd & t' & -> & H1 & H2 & _). exists t'. split_and!; [done|done|lia].
  - eexists. split_and!; [done|by apply table_ok_new|]. unfold WaitGetNewOpenInstance. repeat case_match; cbn; lia.
  - destruct (heap t !! h) as [o|] eqn:Ho; [|done]. apply bool_decide_eq_true in Hl.
    unfold AttachFd_instance. rewrite ObtainFd_next by lia. cbn -[AddOpenInstance inode_insert]. rewrite Ho. cbn -[AddOpenInstance inode_insert].
    eexists. split_and!; [done| |unfold AddOpenInstance; case_match; cbn; lia].
    apply (table_ok_attach t h (set_fd (nextFD t) o)); [done|by eexists|by eapply attached_fd|done].
  - destruct (heap t !! h) as [o|] eqn:Ho; [|done]. apply bool_decide_eq_true in Hl as [Hf Hi]. eexists.
    split_and!; [done|by eapply table_ok_update|cbn; lia].
  - destruct (DeleteOpenInstance fd subCnt t) as [[ret t']|] eqn:E.
    + destruct (table_ok_delete _ _ _ _ _ Hok E) as (H1 & H2 & _). exists t'. split_and!; [done|done|lia].
    + exfalso. unfold DeleteOpenInstance in E. case_decide; [done|]. case_match eqn:Em; [|done].
      destruct (tk_fd _ Hok _ _ Em) as (_ & _ & o & Ho & _). by rewrite Ho in E.
  - eexists. split_and!; [done|by apply table_ok_count|cbn; lia].
  - unfold AttachDirFd. rewrite ObtainFd_next by lia. cbn -[AddDirOpenInstance]. eexists. split; [done|]. destruct alloc.
    + split; [apply table_ok_dir; [done|lia|done]|]. cbn -[AddDirOpenInstance]. unfold AddDirOpenInstance. case_match; cbn; lia.
    + split; [by apply table_ok_next|cbn; lia].
  - eexists. split_and!; [done|by apply table_ok_dir_delete|]. unfold DeleteDirOpenInstance. case_match; cbn; lia.
Qed.

Lemma run_fd_ops_ok ops : forall t t',
  table_ok t -> nextFD t + Z.of_nat (length ops) < UINT64_MAX -> run_fd_ops ops t = Some t' ->
  table_ok t' /\ nextFD t' < UINT64_MAX.
Proof.
  induction ops as [|op ops IH]; intros t t' Hok Hn E; cbn in E; [injection E as <-; cbn in Hn; split; [done|lia]|].
  destruct (legal op t) eqn:Hl; [|done]. cbn [length] in Hn.
  destruct (run_fd_op_ok op t Hok ltac:(lia) Hl) as (t1 & E1 & H1 & H2). rewrite E1 in E. cbn in E. apply (IH t1); [done|lia|done].
Qed.

Lemma table_ok_start max : table_ok (new_FalconFd max).
Proof.
  split; cbn; try done; try (intros ? [? E]; by rewrite lookup_empty in E).
  - intros ino h. unfold GetInodetoOpenInstanceSet. cbn. rewrite lookup_empty. cbn. split; [set_solver|].
    by intros (? & ? & E & _); rewrite lookup_empty in E.
Qed.

(** The table of open files is sound after any operations, in any order: every
    descriptor in it is a number from 3 on that is not that of a directory and leads
    to the instance that has this number; the set of an inode is exactly the
    instances with that inode that have a descriptor; no empty set is left behind;
    and the next operation never meets a pointer to nothing. *)
Theorem fd_table_sound max ops t :
  Z.of_nat (length ops) < 2 ^ 63 -> run_fd_ops ops (new_FalconFd max) = Some t ->
  (forall fd h, GetOpenInstanceByFd fd t = Some h ->
     2 < fd < UINT64_MAX /\ GetDirOpenInstanceByFd fd t = None /\ exists o, heap t !! h = Some o /\ oi_fd o = fd) /\
  (forall ino h, h ∈ GetInodetoOpenInstanceSet ino t <->
     exists fd o, GetOpenInstanceByFd fd t = Some h /\ heap t !! h = Some o /\ oi_inodeId o = ino) /\
  (forall ino, inodeToOpenInstanceMap t !! ino <> Some ∅) /\
  (forall op, legal op t = true -> is_Some (run_fd_op op t)).
Proof.
  intros Hl E. destruct (run_fd_ops_ok ops _ t (table_ok_start max) ltac:(cbn; unfold START_FD, UINT64_MAX; lia) E) as [Hok Hn].
  split_and!; [|apply Hok|apply Hok|].
  - intros fd h Hfd. destruct (tk_fd _ Hok _ _ Hfd) as (H1 & H2 & H3). split_and!; [lia..|done|done].
  - intros op Hop. destruct (run_fd_op_ok op t Hok Hn Hop) as (t' & -> & _). by eexists.
Qed.

End sound.

Module FdDemo.

#[export] Instance demo_fd_nodes : NodeWorld := {
  conn := unit;
  rehash V k v l := (k, v) :: l;
  CreateIOConnection _ := Some tt;
  CheckConnection _ _ := 0
}.

(** Two opens of inode 7, one of them closed, and a directory. *)
Definition demo_fd_ops : list fd_op :=
  [FdAttach 7 0 [] 10 "/a" 1 (-1) true true; FdNew false true; FdUpdate 1 (set_inodeId 7); FdAttachInstance 1; FdAttachDir true;
   FdDelete 3 true; FdDelete 3 true].

Lemma fd_table_sound_witness :
  exists t, run_fd_ops demo_fd_ops (new_FalconFd 40000) = Some t /\ GetInodetoOpenInstanceSet 7 t = {[1%nat]} /\
    GetOpenInstanceByFd 4 t = Some 1%nat /\ GetDirOpenInstanceByFd 4 t = None.
Proof.
  destruct (run_fd_ops demo_fd_ops (new_FalconFd 40000)) as [t|] eqn:E; [|by vm_compute in E].
  destruct (fd_table_sound 40000 demo_fd_ops t) as (H1 & H2 & _); [done|exact E|]. exists t. split; [done|].
  assert (GetOpenInstanceByFd 4 t = Some 1%nat) as E4.
  { assert (GetOpenInstanceByFd 4 <$> run_fd_ops demo_fd_ops (new_FalconFd 40000) = Some (Some 1%nat)) as E' by (by vm_compute).
    rewrite E in E'. by injection E'. }
  split_and!; [|done|by apply (H1 4 1%nat)].
  assert (GetInodetoOpenInstanceSet 7 <$> run_fd_ops demo_fd_ops (new_FalconFd 40000) = Some {[1%nat]}) as E'
    by (by vm_compute).
  rewrite E in E'. by injection E'.
Defined.

End FdDemo.
