(* ===== verification/FalconStore.v ===== *)
(** * The store of file data

    falcon_store/src/falcon_store/falcon_store.cpp: open, read, write, flush, close,
    delete and truncate of the data of a file, which is in the cache of this node
    (DiskCache.v), on another node (IoClient.v over the connections of StoreNode.v)
    or in the object storage.

    An operation on an OpenInstance is a function of the instance and of the store
    ([oact]), the others are functions of the store ([bact]); [None] is undefined
    behaviour, an exception that nobody catches, or a call that does not return.
    The store has the cache with the world outside of it, the nodes, the table
    nodeHash, and the work that was given to the thread pool and has not run yet.

    System calls and the object storage are parameters ([StoreIO]).  What other
    threads do and what the allocators answer is the argument [env] of an operation;
    one [env] holds for all of the operation. *)

From S2P Require Import FalconPrelude DiskCache StoreNode IoClient WriteStream FileBytes ReadStream FalconFd.

Definition O_ACCMODE : Z := 3.
Definition O_RDONLY : Z := 0.
Definition O_WRONLY : Z := 1.
Definition O_CREAT : Z := 64.
Definition O_DIRECT : Z := 16384.

Definition has_flag (oflags flag : Z) : bool := negb (Z.land oflags flag =? 0).
Definition read_only (oflags : Z) : bool := Z.land oflags O_ACCMODE =? O_RDONLY.

(** [open_] returns the descriptor or minus errno; [pread] the number of bytes or -1,
    the bytes, and what errno is then; [ftruncate] and [statvfs] 0 or errno.
    [pcut fd buf offset size] is IOBuf::pcut_into_file_descriptor.  ReadObject reads
    an object into a file or, when the descriptor is negative, only into the buffer;
    its bytes are those it put into the buffer. *)
Class StoreIO : Type := {
  #[global] store_stream :: StreamIO;
  open_ : string -> Z -> fs -> Z * fs;
  close_ : Z -> fs -> fs;
  fsync : Z -> fs -> fs;
  pread : Z -> Z -> Z -> fs -> (Z * list Z * Z) * fs;
  ftruncate : Z -> Z -> fs -> Z * fs;
  statvfs : string -> fs -> Z * StatFSBuf;
  pcut : Z -> list Z -> Z -> Z -> fs -> Z * fs;
  ReadObject : string -> Z -> Z -> Z -> fs -> (Z * list Z) * fs;
  PutFile : string -> string -> fs -> Z * fs;
  DeleteObject : string -> fs -> Z * fs;
  CopyObject : string -> string -> fs -> Z * fs;
  StatObjects : fs -> Z * StatFSBuf
}.

(** ** State *)

(** State passing with undefined behaviour. *)
Definition ost (S A : Type) : Type := S -> option (A * S).

#[global] Instance ost_ret S : MRet (ost S) := fun A a s => Some (a, s).
#[global] Instance ost_bind S : MBind (ost S) := fun A B f m s => '(a, s') ← m s; f a s'.

Definition ost_get {S} : ost S S := fun s => Some (s, s).
Definition ost_upd {S} (f : S -> S) : ost S unit := fun s => Some (tt, f s).
Definition ost_undefined {S A} : ost S A := fun _ => None.
Definition ost_opt {S A} (o : option A) : ost S A := fun s => a ← o; Some (a, s).

(** The members of FalconStore that InitStore sets, and two globals. *)
Record config : Type := {
  persistToStorage : bool;
  isInference : bool;
  toLocal : bool;
  parentPathLevel : Z;
  dataPath : string;
  READ_BIGFILE_SIZE : Z;
  FALCON_BLOCK_SIZE : Z
}.

(** Work for the thread pool: the closures of DownLoadFromStorage and of
    WriteToFileAsync with what they have captured. *)
Inductive task : Type :=
| LoadTask (path : string) (inodeId fileSize fd bufSize : Z) (toBuffer : bool)
| WriteTask (fd : Z) (buf : list Z) (bufSize inodeId : Z).

Section store.

Context `{StoreIO}.

(** The other threads and the allocators during an operation: [locked] is whether
    another thread holds the lock of the inode, [alloc] whether aligned_alloc and the
    pool have memory, [pool] the blocks for reading ahead.  [prefetched] and [sched]
    are what the threads of the read stream read, and which steps they and the
    reader take until WaitPop returns. *)
Record env : Type := {
  env_ctx : ctx;
  locked : bool;
  alloc : bool;
  pool : list (list Z);
  prefetched : list Z;
  sched : list action
}.

Record st : Type := {
  sw : world;
  sn : StoreNode;
  nodeHash : gmap string Z;
  tasks : list task
}.

Definition set_sw (w : world) (s : st) : st := {| sw := w; sn := sn s; nodeHash := nodeHash s; tasks := tasks s |}.
Definition set_sn (n : StoreNode) (s : st) : st := {| sw := sw s; sn := n; nodeHash := nodeHash s; tasks := tasks s |}.
Definition set_nodeHash (h : gmap string Z) (s : st) : st := {| sw := sw s; sn := sn s; nodeHash := h; tasks := tasks s |}.
Definition Submit (t : task) (s : st) : st := {| sw := sw s; sn := sn s; nodeHash := nodeHash s; tasks := tasks s ++ [t] |}.

Notation bact := (ost st).
Notation oact := (ost (OpenInstance * st)).

Definition on_cache {A} (m : act A) : bact A := fun s => '(a, w) ← m (sw s); Some (a, set_sw w s).
Definition sys {A} (f : fs -> A * fs) : bact A := on_cache (call f).
Definition on_store {A} (m : bact A) : oact A := fun s => '(a, s') ← m s.2; Some (a, (s.1, s')).
Definition this : oact OpenInstance := fun s => Some (s.1, s).
Definition assign (f : OpenInstance -> OpenInstance) : oact unit := fun s => Some (tt, (f s.1, s.2)).
Definition nodes_ : bact StoreNode := fun s => Some (sn s, s).

Variable cfg : config.

(** [path.substr(1)], which throws when the path is empty. *)
Definition substr1 (path : string) : option string :=
  match path with EmptyString => None | String _ p => Some p end.

(** ** Choice of the node *)

Definition SLASH : Ascii.ascii := Ascii.Ascii true true true true false true false false.

(** The last position from [n] down to 1 that has a slash, else 0. *)
Fixpoint last_slash (n : nat) (path : string) : nat :=
  match n with
  | O => O
  | S n' => if decide (String.get n path = Some SLASH) then n else last_slash n' path
  end.

Fixpoint join_dirs (l : list string) : string :=
  match l with [] => EmptyString | p :: l' => p +:+ "/" +:+ join_dirs l' end.

(** [None]: a position before the first one, or a vector with no last element. *)
Definition GetParentPath (path : string) (level : Z) : option string :=
  if decide (level = -1) then
    match path with
    | EmptyString => None
    | _ => Some (String.substring 0 (last_slash (String.length path - 1) path) path)
    end
  else
    let parentPathVec := take (Z.to_nat (Z.max level 1)) (filter (fun p => p <> EmptyString) (split_at SLASH path)) in
    let tmpLevel := 1 + Z.of_nat (length parentPathVec) in
    if decide (tmpLevel = level + 1) then Some ("/" +:+ join_dirs (take (Z.to_nat (level - 1)) parentPathVec))
    else match parentPathVec with
         | [] => None
         | _ => Some ("/" +:+ join_dirs (take (length parentPathVec - 1) parentPathVec))
         end.

(** [char] is signed. *)
Fixpoint hash_chars (hash : Z) (str : string) : Z :=
  match str with
  | EmptyString => hash
  | String c str' => hash_chars (u64 (u64 (Z.shiftl hash 5 + hash) + signed 8 (Z.of_N (Ascii.N_of_ascii c)))) str'
  end.
Definition myHash (str : string) : Z := hash_chars 5381 str.

Definition PathToNodeId (path : string) : bact Z :=
  parentPath ← ost_opt (GetParentPath path (parentPathLevel cfg));
  n ← nodes_;
  if decide (parentPath <> EmptyString) then
    _ ← ost_upd (fun s =>
      match nodeHash s !! parentPath with
      | None => set_nodeHash (<[parentPath := u64 (AllocNode (myHash parentPath) n)]> (nodeHash s)) s
      | Some _ => s
      end);
    s ← ost_get;
    mret (s32 (default 0 (nodeHash s !! parentPath)))
  else mret (AllocNode (myHash parentPath) n).

Definition AllocNodeId : oact unit :=
  o ← this;
  if decide (oi_nodeId o <> -1) then mret tt else
  n ← on_store nodes_;
  free ← (if toLocal cfg then on_store (on_cache HasFreeSpace) else mret false);
  if free : bool then assign (set_nodeId (GetNodeId n))
  else if isInference cfg then id ← on_store (PathToNodeId (oi_path o)); assign (set_nodeId id)
  else assign (set_nodeId (AllocNode (oi_inodeId o) n)).

Definition ConnectionError (err : Z) : bool := 0 <? err.
Definition IoError (err : Z) : bool := err <? 0.

Definition is_local : oact bool :=
  o ← this; n ← on_store nodes_; mret (IsLocal (oi_nodeId o) n).

(** ** Loading from the object storage *)

(** The closure loadObs: the result, and what it put into the buffer. *)
Definition loadObs (path : string) (inodeId fileSize fd bufSize : Z) (isSync toBuffer : bool) (x : env) : bact (Z * list Z) :=
  object ← ost_opt (substr1 path);
  r ← sys (ReadObject object 0 (if toBuffer then bufSize else 0) fd);
  let size := s32 r.1 in
  _ ← sys (fun f => (tt, close_ fd f));
  size ← (if size <? 0 then _ ← sys (remove (GetFilePath inodeId)); mret (- EIO)
          else _ ← on_cache (InsertAndUpdate inodeId fileSize isSync (now (env_ctx x))); mret size);
  _ ← on_cache (FreePreAllocSpace fileSize);
  mret (if size <? 0 then size else 0, if (toBuffer && (0 <=? size))%bool then r.2 else []).

(** What is common to DownLoadFromStorage and DownLoadFromStorageForBrpc. *)
Definition load_from_storage (inodeId : Z) (path : string) (fileSize bufSize : Z) (isSync toBuffer : bool) (x : env) : bact (Z * list Z) :=
  if (negb isSync && locked x)%bool then mret (0, []) else
  found ← on_cache (Find inodeId isSync (now (env_ctx x)));
  if found : bool then mret (0, []) else
  granted ← on_cache (PreAllocSpace fileSize (during (env_ctx x)));
  if negb granted then mret (- ENOSPC, []) else
  fd ← sys (open_ (GetFilePath inodeId) (Z.lor O_WRONLY O_CREAT));
  if fd <? 0 then _ ← on_cache (FreePreAllocSpace fileSize); mret (fd, []) else
  if isSync then loadObs path inodeId fileSize fd bufSize isSync toBuffer x
  else _ ← ost_upd (Submit (LoadTask path inodeId fileSize fd bufSize toBuffer)); mret (0, []).

(** Bytes that a call put into the buffer of the instance, from its beginning. *)
Definition fill_buffer (bytes : list Z) : oact unit :=
  assign (fun o => set_readBuffer (bytes ++ drop (length bytes) (oi_readBuffer o)) o).

Definition DownLoadFromStorage (isSync toBuffer : bool) (x : env) : oact Z :=
  o ← this;
  r ← on_store (load_from_storage (oi_inodeId o) (oi_path o) (oi_originalSize o) (oi_readBufferSize o) isSync toBuffer x);
  _ ← fill_buffer r.2;
  mret r.1.

(** The result and the bytes that are in the buffer of the caller then. *)
Definition DownLoadFromStorageForBrpc (inodeId : Z) (path : string) (bufSize : Z) (isSync toBuffer : bool) (x : env) : bact (Z * list Z) :=
  load_from_storage inodeId path bufSize bufSize isSync toBuffer x.

(** The task that WriteToFileAsync gives to the pool. *)
Definition write_task (fd : Z) (buf : list Z) (bufSize inodeId : Z) (x : env) : bact unit :=
  r ← sys (pwrite fd (take (Z.to_nat bufSize) buf) 0);
  _ ← sys (fun f => (tt, close_ fd f));
  _ ← (if s32 r <? 0 then mret tt else on_cache (InsertAndUpdate inodeId bufSize false (now (env_ctx x))));
  on_cache (FreePreAllocSpace bufSize).

(** A thread of the pool takes the first task. *)
Definition run_task (x : env) : bact unit :=
  s ← ost_get;
  match tasks s with
  | [] => mret tt
  | t :: ts =>
      _ ← ost_upd (fun s => {| sw := sw s; sn := sn s; nodeHash := nodeHash s; tasks := ts |});
      match t with
      | LoadTask path inodeId fileSize fd bufSize toBuffer =>
          _ ← loadObs path inodeId fileSize fd bufSize false toBuffer x; mret tt
      | WriteTask fd buf bufSize inodeId => write_task fd buf bufSize inodeId x
      end
  end.

Definition WriteToFileAsync (inodeId : Z) (buf : list Z) (bufSize : Z) (x : env) : bact Z :=
  if locked x then mret 0 else
  found ← on_cache (Find inodeId false (now (env_ctx x)));
  if found : bool then mret 0 else
  granted ← on_cache (PreAllocSpace bufSize (during (env_ctx x)));
  if negb granted then mret (- ENOSPC) else
  fd ← sys (open_ (GetFilePath inodeId) (Z.lor O_WRONLY O_CREAT));
  if fd <? 0 then _ ← on_cache (FreePreAllocSpace bufSize); mret fd else
  _ ← ost_upd (Submit (WriteTask fd buf bufSize inodeId)); mret 0.

(** ** Open *)

(** The call of one round of OpenFileFromRemote over the connection [c]. *)
Definition remote_call (largeFile : bool) (c : conn) : oact Z :=
  o ← this;
  if largeFile then
    r ← on_store (sys (rpc_OpenFile c (oi_inodeId o) (oi_oflags o) (oi_physicalFd o) (oi_originalSize o) (oi_path o) (oi_nodeFail o)));
    _ ← assign (set_physicalFd r.2); mret r.1
  else
    r ← on_store (sys (rpc_ReadSmallFile c (oi_inodeId o) (s64 (oi_originalSize o)) (oi_path o) (oi_oflags o) (oi_nodeFail o)));
    _ ← fill_buffer r.2; mret r.1.

(** After an error of the connection: the file goes to another node. *)
Definition switch_node : oact unit :=
  o ← this;
  n ← on_store nodes_;
  let id := AllocNode (oi_inodeId o) n in
  _ ← assign (fun o => set_nodeFail true (set_nodeId id o));
  if isInference cfg then
    parentPath ← ost_opt (GetParentPath (oi_path o) (parentPathLevel cfg));
    on_store (ost_upd (fun s => set_nodeHash (<[parentPath := u64 id]> (nodeHash s)) s))
  else mret tt.

(** The loop of OpenFileFromRemote with [n] rounds left: [inl] is a return from
    within, by way of [open], [inr] the value of [ret] and the last connection. *)
Fixpoint remote_loop (open : oact Z) (largeFile : bool) (n retryNum : nat) (ret : Z) (client : option conn) : oact (Z + Z * option conn) :=
  match n, retryNum with
  | S n', S retryNum' =>
      if negb (ConnectionError ret) then mret (inr (ret, client)) else
      o ← this;
      nd ← on_store nodes_;
      let client := GetRpcConnection (oi_nodeId o) nd in
      ret ← (match client with Some c => remote_call largeFile c | None => mret ret end);
      if negb (ConnectionError ret) then mret (inr (ret, client)) else
      if decide (ret = ETIMEDOUT) then remote_loop open largeFile n' retryNum' ret client else
      _ ← on_store (ost_upd (fun s => set_sn (DeleteNode (oi_nodeId o) (sn s)) s));
      if (negb (persistToStorage cfg) && negb (has_flag (oi_oflags o) O_CREAT))%bool then mret (inr (ret, client)) else
      _ ← switch_node;
      local ← is_local;
      if local : bool then r ← open; mret (inl r)
      else remote_loop open largeFile n' retryNum ret client
  | _, _ => mret (inr (ret, client))
  end.

Definition OpenFileFromRemote (open : oact Z) (largeFile : bool) : oact Z :=
  nd ← on_store nodes_;
  out ← remote_loop open largeFile (Z.to_nat (GetNumberofAllNodes nd)) BRPC_RETRY_NUM EHOSTUNREACH None;
  match out with
  | inl r => mret r
  | inr (ret, client) =>
      if ((ret =? 0) || largeFile)%bool then
        _ ← (if (ConnectionError ret || IoError ret)%bool then mret tt
             else assign (fun o => set_writeStream (SetClient client (oi_writeStream o)) o));
        mret (if 0 <? ret then - ret else ret)
      else if persistToStorage cfg then
        o ← this;
        object ← ost_opt (substr1 (oi_path o));
        r ← on_store (sys (ReadObject object 0 (oi_readBufferSize o) (-1)));
        _ ← fill_buffer r.2;
        if r.1 <? 0 then mret (- EIO) else mret 0
      else mret (if 0 <? ret then - ret else ret)
  end.

(** The part of OpenFile for a file of this node; [inl] is a return with an error,
    [inr] what [ret] is when the streams are set up. *)
Definition open_local (x : env) : oact (Z + Z) :=
  o ← this;
  let fileName := GetFilePath (oi_inodeId o) in
  _ ← (if oi_nodeFail o then on_store (on_cache (DeleteOldCacheWithNoPin (oi_inodeId o))) else mret tt);
  found ← on_store (on_cache (Find (oi_inodeId o) true (now (env_ctx x))));
  if found : bool then
    localFd ← on_store (sys (open_ fileName (oi_oflags o)));
    if localFd <? 0 then _ ← on_store (on_cache (Unpin (oi_inodeId o))); mret (inl localFd) else
    _ ← assign (set_physicalFd (u64 localFd)); mret (inr 0)
  else if negb (read_only (oi_oflags o)) then
    ret ← (if (negb (has_flag (oi_oflags o) O_CREAT) && (0 <? oi_originalSize o))%bool then
             if negb (persistToStorage cfg) then mret (- ENOENT) else DownLoadFromStorage true false x
           else mret 0);
    if decide (ret <> 0) then mret (inl ret) else
    localFd ← on_store (sys (open_ fileName (Z.lor (oi_oflags o) O_CREAT)));
    if localFd <? 0 then mret (inl localFd) else
    _ ← assign (set_physicalFd (u64 localFd));
    _ ← (if ((oi_originalSize o =? 0) || has_flag (oi_oflags o) O_CREAT)%bool
         then on_store (on_cache (InsertAndUpdate (oi_inodeId o) 0 true (now (env_ctx x)))) else mret tt);
    mret (inr 0)
  else if negb (persistToStorage cfg) then mret (inl (- ENOENT))
  else
    ret ← DownLoadFromStorage false false x;
    mret (if decide (ret <> 0) then inl ret else inr 0).

(** The streams of the instance get its inode and its descriptor. *)
Definition set_up_stream : oact Z :=
  o ← this;
  let ws := SetDirect (has_flag (oi_oflags o) O_DIRECT) (SetInodeId (oi_inodeId o) (oi_writeStream o)) in
  let '(ret, ws) := SetFd (oi_physicalFd o) ws in
  _ ← assign (set_writeStream ws);
  mret ret.

(** OpenFile and OpenFileFromRemote call each other; [depth] bounds the nesting. *)
Fixpoint open_file (depth : nat) (x : env) : oact Z :=
  match depth with
  | O => ost_undefined
  | S depth' =>
      o ← this;
      if decide (oi_physicalFd o <> UINT64_MAX) then mret 0 else
      _ ← AllocNodeId;
      local ← is_local;
      ret ← (if negb local then
               r ← OpenFileFromRemote (open_file depth' x) true; mret (if decide (r <> 0) then inl r else inr r)
             else open_local x);
      match ret with
      | inl ret => mret ret
      | inr _ => set_up_stream
      end
  end.

Definition OpenFile (x : env) : oact Z := open_file 2 x.

(** [if (!isOpened) { ret = OpenFile(); ... isOpened = true; }] *)
Definition open_once (x : env) : oact Z :=
  o ← this;
  if oi_isOpened o then mret 0 else
  ret ← OpenFile x;
  if decide (ret <> 0) then mret ret else
  _ ← assign (set_isOpened true); mret 0.

(** ** Write *)

(** The loop of WriteLocalFileForBrpc: [inl] is the offset at an error, [inr] that
    after the last byte.  Each round but the last writes a byte, so [fuel] is the
    number of bytes. *)
Fixpoint write_loop (fuel : nat) (fd : Z) (buf : list Z) (offset writeSize : Z) : bact (Z + Z) :=
  if decide (writeSize = 0) then mret (inr offset) else
  match fuel with
  | O => ost_undefined
  | S fuel' =>
      nwrite ← sys (pcut fd buf offset writeSize);
      if ((nwrite <? 0) || (writeSize <? nwrite))%bool then mret (inl (s64 (offset + (if 0 <? nwrite then nwrite else 0))))
      else write_loop fuel' fd (drop (Z.to_nat nwrite) buf) (s64 (offset + nwrite)) (writeSize - nwrite)
  end.

Definition WriteLocalFileForBrpc (buf : list Z) (offset : Z) (x : env) : oact Z :=
  o ← this;
  let writeSize := Z.of_nat (length buf) in
  let currentSize := oi_currentSize o in
  let newSize := Z.max currentSize (u64 (offset + writeSize)) in
  let sizeToAdd := u64 (newSize - currentSize) in
  let free r := _ ← on_store (on_cache (FreePreAllocSpace sizeToAdd)); mret r in
  let update size :=
    _ ← assign (set_currentSize size);
    on_store (on_cache (Update (oi_inodeId o) size (now (env_ctx x)))) in
  granted ← on_store (on_cache (PreAllocSpace sizeToAdd (during (env_ctx x))));
  if negb granted then mret (- ENOSPC) else
  written ← (if negb (has_flag (oi_oflags o) O_DIRECT) then
               out ← on_store (write_loop (length buf) (oi_physicalFd o) buf offset writeSize);
               match out with
               | inr _ => mret 0
               | inl offset =>
                   updated ← (if currentSize <? u64 offset then update (u64 offset) else mret true);
                   mret (if updated : bool then - EINVAL else - ENOENT)
               end
             else if negb (alloc x) then mret (- ENOMEM)
             else
               retSize ← on_store (sys (pwrite (oi_physicalFd o) buf offset));
               mret (if retSize <? 0 then retSize else 0));
  if decide (written <> 0) then free written else
  updated ← update newSize;
  free (if updated : bool then 0 else - ENOENT).

Definition StopPreReadThreaded : oact unit :=
  assign (fun o => set_readStream (StopPushThreaded (oi_readStream o)) (set_directReadFile true (set_preReadStopped true o))).

Definition WriteFile (buf : list Z) (offset : Z) (x : env) : oact Z :=
  let size := Z.of_nat (length buf) in
  o ← this;
  _ ← (if (oi_preReadStarted o && negb (oi_preReadStopped o))%bool then StopPreReadThreaded else mret tt);
  ret ← open_once x;
  if decide (ret <> 0) then _ ← assign (set_writeFail true); mret ret else
  o ← this;
  r ← on_store (on_cache (Push (oi_writeStream o) buf offset (oi_currentSize o) (alloc x) (env_ctx x)));
  _ ← assign (set_writeStream r.2);
  if decide (r.1 <> 0) then _ ← assign (set_writeFail true); mret r.1 else
  _ ← (if decide (size <> 0) then assign (fun o => set_currentSize (Z.max (oi_currentSize o) (u64 (size + offset))) o) else mret tt);
  mret 0.

(** ** Read

    A read returns its value and the bytes it has put into the buffer. *)

(** [for (i = 0; i < n; ++i) { r = m(); if (r != -ETIMEDOUT) break; }] *)
Fixpoint read_retry (n : nat) (m : bact (Z * list Z)) (r : Z * list Z) : bact (Z * list Z) :=
  match n with
  | O => mret r
  | S n' => r ← m; if decide (r.1 = - ETIMEDOUT) then read_retry n' m r else mret r
  end.

(** The two attempts to read a file of the cache: the first asks for
    [readBufferSize] bytes, the one after EAGAIN for those that are there. *)
Definition read_local (fd readBufferSize checkReadLength offset : Z) : bact (Z * list Z) :=
  r ← sys (pread fd readBufferSize offset);
  let '(n, bytes, err) := r in
  if decide (s32 n = checkReadLength) then mret (s32 n, bytes) else
  if decide (err <> EAGAIN) then mret (s32 (- err), []) else
  r ← sys (pread fd checkReadLength offset);
  let '(n, bytes, err) := r in
  mret (if decide (s32 n = checkReadLength) then (s32 n, bytes) else (s32 (- err), [])).

Definition ReadFileLR (offset readBufferSize : Z) (x : env) : oact (Z * list Z) :=
  o ← this;
  if s64 (oi_currentSize o) <=? offset then mret (0, []) else
  let checkReadLength := Z.min readBufferSize (u64 (oi_currentSize o - offset)) in
  local ← is_local;
  r ← (if local : bool then
         if (negb (oi_physicalFd o =? UINT64_MAX) && negb (locked x))%bool
         then on_store (read_local (oi_physicalFd o) readBufferSize checkReadLength offset) else mret (-1, [])
       else if oi_remoteFailed o then mret (-1, [])
       else
         nd ← on_store nodes_;
         r ← (match GetRpcConnection (oi_nodeId o) nd with
              | Some c => on_store (read_retry BRPC_RETRY_NUM
                  (sys (rpc_ReadFile c (oi_physicalFd o) (s32 readBufferSize) offset (oi_path o))) (- EHOSTUNREACH, []))
              | None => mret (- EHOSTUNREACH, [])
              end);
         _ ← (if decide (r.1 <> checkReadLength) then assign (set_remoteFailed true) else mret tt);
         mret r);
  if ((r.1 <? 0) && negb (oi_isRemoteCall o) && persistToStorage cfg)%bool then
    object ← ost_opt (substr1 (oi_path o));
    r ← on_store (sys (ReadObject object offset readBufferSize (-1)));
    mret (if s32 r.1 <? 0 then (- EIO, []) else (s32 r.1, r.2))
  else mret r.

Definition RandomRead (size offset : Z) (x : env) : oact (Z * list Z) :=
  o ← this;
  if (has_flag (oi_oflags o) O_DIRECT && negb (alloc x))%bool then mret (- ENOMEM, []) else ReadFileLR offset size x.

(** [None] when the steps of [x] do not let WaitPop return. *)
Definition SequenceRead (size : Z) (x : env) : oact (Z * list Z) :=
  o ← this;
  r ← ost_opt (WaitPop (prefetched x) (sched x) size (oi_readStream o));
  let '(retSize, bytes, rs) := r in
  let retSize := s32 retSize in
  _ ← assign (set_readStream rs);
  _ ← (if 0 <? retSize then assign (fun o => set_serialReadEnd (s64 (oi_serialReadEnd o + retSize)) o) else mret tt);
  mret (retSize, bytes).

Definition ReadToBuffer (size offset : Z) (x : env) : oact (Z * list Z) :=
  o ← this;
  if oi_directReadFile o then RandomRead size offset x
  else if decide (oi_serialReadEnd o <> offset) then _ ← StopPreReadThreaded; RandomRead size offset x
  else SequenceRead size x.

Definition StartPreReadThreaded (x : env) : oact bool :=
  o ← this;
  let fileBlocks := s32 (u64 (u64 (oi_currentSize o + FALCON_BLOCK_SIZE cfg) - 1) / FALCON_BLOCK_SIZE cfg) in
  match Init fileBlocks (FALCON_BLOCK_SIZE cfg) (pool x) with
  | None => mret false
  | Some rs => _ ← assign (set_readStream (StartPushThreaded rs)); mret true
  end.

(** The write stream is persisted before the file is read or truncated. *)
Definition persist_written (x : env) : oact Z :=
  o ← this;
  if 0 <? GetSize (oi_writeStream o) then
    r ← on_store (on_cache (Complete (oi_writeStream o) (oi_currentSize o) true false (env_ctx x)));
    _ ← assign (set_writeStream r.2); mret r.1
  else mret 0.

Definition ReadFile (size offset : Z) (x : env) : oact (Z * list Z) :=
  ret ← persist_written x;
  if decide (ret <> 0) then mret (ret, []) else
  o ← this;
  if ((READ_BIGFILE_SIZE cfg <=? oi_originalSize o) || negb (read_only (oi_oflags o)))%bool then
    ret ← open_once x;
    if decide (ret <> 0) then mret (ret, []) else
    o ← this;
    _ ← (if oi_preReadStarted o then mret tt else
         _ ← assign (set_preReadStarted true);
         local ← is_local;
         if local : bool then StopPreReadThreaded else
         started ← StartPreReadThreaded x;
         if started : bool then mret tt else StopPreReadThreaded);
    ReadToBuffer size offset x
  else
    let bufferSize := u64 (oi_readBufferSize o) in
    if u64 (offset + size) <=? bufferSize then
      mret (s32 size, take (Z.to_nat size) (drop (Z.to_nat offset) (oi_readBuffer o)))
    else if offset <? oi_readBufferSize o then
      mret (s32 (oi_readBufferSize o - offset), take (Z.to_nat (oi_readBufferSize o - offset)) (drop (Z.to_nat offset) (oi_readBuffer o)))
    else mret (0, []).

(** ** Flush and close *)

Definition FlushToStorage (path : string) (inodeId : Z) : bact Z :=
  object ← ost_opt (substr1 path);
  ret ← sys (PutFile object (GetFilePath inodeId));
  mret (if decide (ret = 0) then ret else - EIO).

(** The part of CloseTmpFiles for a file of this node; [ret] is what has gone wrong
    before. *)
Definition close_local (isFlush isSync : bool) (ret : Z) (x : env) : oact Z :=
  o ← this;
  if negb isFlush then
    _ ← on_store (sys (fun f => (tt, close_ (oi_physicalFd o) f)));
    _ ← on_store (on_cache (Unpin (oi_inodeId o)));
    mret ret
  else
    _ ← on_store (on_cache (InsertAndUpdate (oi_inodeId o) (oi_currentSize o) false (now (env_ctx x))));
    if ((0 <? oi_writeCnt o) && negb (oi_writeFail o))%bool then
      _ ← (if isSync then on_store (sys (fun f => (tt, fsync (oi_physicalFd o) f))) else mret tt);
      if persistToStorage cfg then
        ret ← on_store (FlushToStorage (oi_path o) (oi_inodeId o));
        _ ← assign (set_writeFail (bool_decide (ret <> 0)));
        mret ret
      else mret ret
    else mret ret.

(** The body of CloseTmpFiles; [flush_first] is its call of itself with [isFlush]. *)
Definition close_body (flush_first : oact Z) (isFlush isSync : bool) (x : env) : oact Z :=
  o ← this;
  if decide (oi_physicalFd o = UINT64_MAX) then mret 0 else
  if decide (oi_nodeId o = -1) then mret 0 else
  ret ← (if isFlush then _ ← assign (set_isFlushed true); mret 0
         else if negb (oi_isFlushed o) then
           ret ← flush_first;
           _ ← (if decide (ret <> 0) then assign (set_writeFail true) else mret tt);
           mret ret
         else mret 0);
  _ ← (if (negb isFlush && negb (oi_isRemoteCall o))%bool then
         _ ← StopPreReadThreaded; assign (fun o => set_readStream (WaitPushEnded (oi_readStream o)) o)
       else mret tt);
  ret ← (if oi_isRemoteCall o then mret ret else
         o ← this;
         r ← on_store (on_cache (Complete (oi_writeStream o) (oi_currentSize o) isFlush isSync (env_ctx x)));
         _ ← assign (set_writeStream r.2);
         if decide (r.1 <> 0) then _ ← assign (set_writeFail true); mret r.1 else mret ret);
  local ← is_local;
  if local : bool then close_local isFlush isSync ret x else mret ret.

Definition CloseTmpFiles (isFlush isSync : bool) (x : env) : oact Z :=
  close_body (close_body ost_undefined true isSync x) isFlush isSync x.

(** ** Small files *)

(** A whole file of the cache, which is pinned, is read, and it is unpinned.  errno
    is that of the last call that failed, also after a read that was only short. *)
Definition read_cached (inodeId size : Z) : bact (Z * list Z) :=
  localFd ← sys (open_ (GetFilePath inodeId) O_RDONLY);
  if localFd <? 0 then _ ← on_cache (Unpin inodeId); mret (localFd, []) else
  let finish r := _ ← sys (fun f => (tt, close_ localFd f)); _ ← on_cache (Unpin inodeId); mret r in
  r ← sys (pread localFd size 0);
  let '(retSize, bytes, err) := r in
  if decide (retSize = size) then finish (0, bytes) else
  if decide (err <> EAGAIN) then finish (- err, bytes) else
  r ← sys (pread localFd size 0);
  let '(retSize, bytes, err) := r in
  if decide (retSize = size) then finish (0, bytes) else finish (- err, bytes).

Definition ReadSmallFiles (x : env) : oact Z :=
  _ ← AllocNodeId;
  local ← is_local;
  if negb local then OpenFileFromRemote (OpenFile x) false else
  o ← this;
  _ ← (if oi_nodeFail o then on_store (on_cache (DeleteOldCacheWithNoPin (oi_inodeId o))) else mret tt);
  found ← on_store (on_cache (Find (oi_inodeId o) true (now (env_ctx x))));
  if found : bool then
    r ← on_store (read_cached (oi_inodeId o) (u64 (oi_readBufferSize o))); _ ← fill_buffer r.2; mret r.1
  else if negb (persistToStorage cfg) then mret (- ENOENT)
  else if negb (read_only (oi_oflags o)) then DownLoadFromStorage true true x
  else if oi_isRemoteCall o then
    ret ← DownLoadFromStorage false false x; mret (if decide (ret = 0) then - ENOENT else ret)
  else
    object ← ost_opt (substr1 (oi_path o));
    r ← on_store (sys (ReadObject object 0 (u64 (oi_readBufferSize o)) (-1)));
    _ ← fill_buffer r.2;
    if s32 r.1 <? 0 then mret (- EIO) else
    o ← this;
    on_store (WriteToFileAsync (oi_inodeId o) (oi_readBuffer o) (u64 (oi_readBufferSize o)) x).

Definition ReadSmallFilesForBrpc (inodeId : Z) (path : string) (size oflags : Z) (nodeFail : bool) (x : env) : bact (Z * list Z) :=
  _ ← (if nodeFail then on_cache (DeleteOldCacheWithNoPin inodeId) else mret tt);
  found ← on_cache (Find inodeId true (now (env_ctx x)));
  if found : bool then read_cached inodeId size
  else if negb (persistToStorage cfg) then mret (- ENOENT, [])
  else if negb (read_only oflags) then DownLoadFromStorageForBrpc inodeId path size true true x
  else
    r ← DownLoadFromStorageForBrpc inodeId path size false false x;
    mret (if decide (r.1 = 0) then (- ENOENT, []) else r).

(** ** Delete, stat and truncate *)

Definition DeleteFiles (inodeId nodeId : Z) (path : string) (x : env) : bact Z :=
  nd ← nodes_;
  let delete_object ret :=
    if persistToStorage cfg then
      object ← ost_opt (substr1 path);
      ret ← sys (DeleteObject object);
      mret (if decide (ret <> 0) then - EIO else ret)
    else mret ret in
  if (bool_decide (nodeId = -1) || IsLocal nodeId nd)%bool then
    found ← on_cache (Find inodeId false (now (env_ctx x)));
    if found : bool then
      ret ← on_cache (DiskCache.Delete inodeId);
      if decide (ret <> 0) then mret ret else delete_object ret
    else if negb (persistToStorage cfg) then mret (- ENOENT)
    else delete_object 0
  else
    match GetRpcConnection nodeId nd with
    | None => mret (- EHOSTUNREACH)
    | Some c =>
        ret ← sys (rpc_DeleteFile c inodeId nodeId path);
        if decide (ret <> 0) then delete_object ret else mret ret
    end.

Definition add_stat (a b : StatFSBuf) : StatFSBuf :=
  {| fblocks := u64 (fblocks a + fblocks b); fbfree := u64 (fbfree a + fbfree b); fbavail := u64 (fbavail a + fbavail b);
     ffiles := u64 (ffiles a + ffiles b); fffree := u64 (fffree a + fffree b) |}.

Definition zero_stat : StatFSBuf := {| fblocks := 0; fbfree := 0; fbavail := 0; ffiles := 0; fffree := 0 |}.

(** The loop of StatFS over the other nodes. *)
Fixpoint stat_nodes (ids : list Z) (buf : StatFSBuf) : bact (Z * StatFSBuf) :=
  match ids with
  | [] => mret (0, buf)
  | id :: ids' =>
      nd ← nodes_;
      if IsLocal id nd then stat_nodes ids' buf else
      match GetRpcConnection id nd with
      | None => mret (- EHOSTUNREACH, buf)
      | Some c =>
          r ← sys (rpc_StatFS c (GetRpcEndPoint id nd) zero_stat);
          stat_nodes ids' (if decide (r.1 <> 0) then buf else add_stat buf r.2)
      end
  end.

(** The result and what is in [vfsbuf] then, which was [buf]. *)
Definition StatFS (buf : StatFSBuf) : bact (Z * StatFSBuf) :=
  if persistToStorage cfg then sys (fun f => (StatObjects f, f)) else
  r ← sys (fun f => (statvfs (dataPath cfg) f, f));
  if decide (r.1 <> 0) then mret (- r.1, buf) else
  nd ← nodes_;
  stat_nodes (GetAllNodeId nd) r.2.

Definition StatFSForBrpc (path : string) (buf : StatFSBuf) : bact (Z * StatFSBuf) :=
  nd ← nodes_;
  if negb (IsLocal_ip path nd) then mret (0, buf) else
  r ← sys (fun f => (statvfs (dataPath cfg) f, f));
  mret (if decide (r.1 = 0) then (0, r.2) else (- r.1, buf)).

Definition CopyData (srcName dstName : string) : bact Z :=
  srcObject ← ost_opt (substr1 srcName);
  dstObject ← ost_opt (substr1 dstName);
  sys (CopyObject srcObject dstObject).

Definition DeleteDataAfterRename (objectName : string) : bact Z :=
  object ← ost_opt (substr1 objectName);
  sys (DeleteObject object).

Definition TruncateFile (size : Z) (x : env) : oact Z :=
  ret ← open_once x;
  if decide (ret <> 0) then mret ret else
  o ← this;
  local ← is_local;
  if local : bool then
    ret ← on_store (sys (ftruncate (oi_physicalFd o) size));
    mret (if decide (ret <> 0) then - ret else ret)
  else
    nd ← on_store nodes_;
    match GetRpcConnection (oi_nodeId o) nd with
    | None => mret (- EHOSTUNREACH)
    | Some c => on_store (sys (rpc_TruncateFile c (oi_physicalFd o) size))
    end.

Definition TruncateOpenInstance (size : Z) (x : env) : oact Z :=
  ret ← persist_written x;
  if decide (ret <> 0) then mret ret else
  o ← this;
  local ← is_local;
  nd ← on_store nodes_;
  ret ← (if (negb local && oi_isOpened o)%bool then
           match GetRpcConnection (oi_nodeId o) nd with
           | None => mret 0
           | Some c => on_store (sys (rpc_TruncateOpenInstance c (oi_physicalFd o) size))
           end
         else mret 0);
  if decide (ret <> 0) then mret ret else
  _ ← assign (fun o => set_originalSize (u64 size) (set_currentSize (u64 size) o));
  mret 0.

(** ** Statistics *)

Definition FUSE_OPS : nat := 0.
Definition OPS_END : nat := 21.
Definition FUSE_LAT : nat := 22.
Definition LAT_END : nat := 38.
Definition FUSE_READ : nat := 39.
Definition STATS_END : nat := 45.

(** How the statistics of another node are added: latencies are pairs of a sum and
    a maximum.  [None]: the vector of the other node is too short. *)
Definition merge_stat (i : nat) (cur remote : Z) : Z :=
  if decide (i < OPS_END)%nat then u64 (cur + remote)
  else if decide (FUSE_LAT <= i < LAT_END)%nat then
    if Nat.even (i - FUSE_LAT) then u64 (cur + remote) else Z.max cur remote
  else if decide (FUSE_READ <= i < STATS_END)%nat then u64 (cur + remote)
  else cur.

Definition merge_stats (cur remote : list Z) : option (list Z) :=
  if decide (length remote < STATS_END)%nat then None
  else Some (imap (fun i c => merge_stat i c (remote !!! i)) cur).

Fixpoint stat_cluster_nodes (ids : list Z) (cur : list Z) : bact (Z * list Z) :=
  match ids with
  | [] => mret (0, cur)
  | id :: ids' =>
      nd ← nodes_;
      if IsLocal id nd then stat_cluster_nodes ids' cur else
      r ← (match GetRpcConnection id nd with
           | None => mret (- EHOSTUNREACH, replicate STATS_END 0)
           | Some c => sys (rpc_StatCluster c id (replicate STATS_END 0) false)
           end);
      if decide (r.1 <> 0) then stat_cluster_nodes ids' cur else
      cur ← ost_opt (merge_stats cur r.2);
      stat_cluster_nodes ids' cur
  end.

(** [stored] is storedStats, [old] what is in [currentStats] before. *)
Definition StatCluster (nodeId : Z) (stored old : list Z) (scatter : bool) : bact (Z * list Z) :=
  nd ← nodes_;
  if (bool_decide (nodeId <> -1) && negb (IsLocal nodeId nd))%bool then mret (0, old) else
  if negb scatter then mret (0, stored) else stat_cluster_nodes (GetAllNodeId nd) stored.

End store.

Arguments st {_}.
Arguments env {_}.
Notation bact := (ost st).
Notation oact := (ost (OpenInstance * st)).
