(* ===== verification/StoreSpace.v ===== *)
(** * Space on the disk is given back

    Every operation of FalconStore.v leaves the cache sound, and what it has reserved
    in it is given back on every path, errors included, either by the operation or by
    the task it gives to the thread pool.  The reservations of the cache are thus
    always those of the tasks that wait. *)

From S2P Require Import FalconPrelude DiskCache DiskCacheCorrect StoreNode IoClient WriteStream WriteStreamCorrect.
From S2P Require Import FileBytes ReadStream FalconFd FalconStore.

(** ** Accounting *)

(** States with an invariant, and changes between them that leave a debt. *)
Class Ledger (S : Type) : Type := {
  sane : S -> Prop;
  owes : Z -> S -> S -> Prop;
  owes_refl s : sane s -> owes 0 s s;
  owes_trans d d' s s1 s2 : owes d s s1 -> owes d' s1 s2 -> owes (d + d') s s2;
  owes_sane d s s' : owes d s s' -> sane s'
}.

(** The computation is defined, or [partial] allows that it is not; it leaves the
    debt [D], which can depend on its result. *)
Definition costs {S A : Type} `{Ledger S} (partial : bool) (m : ost S A) (D : A -> Z) : Prop :=
  forall s, sane s -> match m s with Some (a, s') => owes (D a) s s' | None => partial = true end.

Section rules.

Context {S : Type} `{Ledger S} {partial : bool}.

Lemma costs_ret {A} (a : A) D : D a = 0 -> costs partial (mret a : ost S A) D.
Proof. intros E s Hs. cbn. rewrite E. by apply owes_refl. Qed.

Lemma costs_bind {A B} (m : ost S A) (f : A -> ost S B) d D :
  costs partial m d -> (forall a, costs partial (f a) (fun b => D b - d a)) -> costs partial (m ≫= f) D.
Proof.
  intros Hm Hf s Hs. unfold mbind, ost_bind. specialize (Hm s Hs). destruct (m s) as [[a s1]|]; [|done]. cbn.
  pose proof (owes_sane _ _ _ Hm) as H1. specialize (Hf a s1 H1). destruct (f a s1) as [[b s2]|]; [|done].
  rewrite <- (Zplus_minus (d a) (D b)). by eapply owes_trans.
Qed.

(** The usual case: the first part leaves no debt. *)
Lemma costs_seq {A B} (m : ost S A) (f : A -> ost S B) D :
  costs partial m (fun _ => 0) -> (forall a, costs partial (f a) D) -> costs partial (m ≫= f) D.
Proof.
  intros Hm Hf. eapply costs_bind; [done|]. intros a s Hs. specialize (Hf a s Hs). destruct (f a s) as [[b s']|]; [|done].
  by rewrite Z.sub_0_r.
Qed.

Lemma costs_weaken {A} (m : ost S A) D D' : (forall a, D a = D' a) -> costs partial m D -> costs partial m D'.
Proof. intros E Hm s Hs. specialize (Hm s Hs). destruct (m s) as [[a s']|]; [|done]. by rewrite <- E. Qed.

Lemma costs_opt {A} (o : option A) : (partial = false -> is_Some o) -> costs partial (ost_opt o : ost S A) (fun _ => 0).
Proof.
  intros Ho s Hs. unfold ost_opt. destruct o as [a|]; cbn; [by apply owes_refl|]. destruct partial; [done|].
  by destruct (Ho eq_refl).
Qed.

End rules.

#[local] Arguments wrap : simpl never.

Section space.

Context `{StoreIO} `{!CacheFsLaws} (cfg : config).

Implicit Types (s : st) (x : env) (o : OpenInstance).

Definition task_size (t : task) : Z :=
  match t with LoadTask _ _ fileSize _ _ _ => fileSize | WriteTask _ _ bufSize _ => bufSize end.

(** What the tasks that wait have reserved. *)
Definition waiting s : Z := foldr (fun t n => task_size t + n) 0 (tasks s).

Definition task_named (t : task) : Prop :=
  match t with LoadTask path _ _ _ _ _ => is_Some (substr1 path) | WriteTask _ _ _ _ => True end.

(** The node knows its number, and the tasks have names. *)
Definition sane_st s : Prop :=
  ok (sw s).1 /\ in_range 64 (reservedCap (sw s).1) /\ nodeId (sn s) <> -1 /\ Forall task_named (tasks s).

(** The reservations of the cache, apart from those of the tasks, have grown by [d];
    a cache that is switched off has none. *)
Definition owes_st (d : Z) s s' : Prop :=
  sane_st s' /\ stop (sw s').1 = stop (sw s).1 /\
  reservedCap (sw s').1 = (if stop (sw s).1 then reservedCap (sw s).1 else u64 (reservedCap (sw s).1 + (waiting s' - waiting s + d))).

Lemma owes_st_refl s : sane_st s -> owes_st 0 s s.
Proof.
  intros (H1 & H2 & H3 & H4). split_and!; [done..|]. rewrite Z.sub_diag, !Z.add_0_r. destruct (stop _); [done|]. symmetry. by apply wrap_small.
Qed.

Lemma owes_st_trans d d' s s1 s2 : owes_st d s s1 -> owes_st d' s1 s2 -> owes_st (d + d') s s2.
Proof.
  intros (H1 & H2 & H3) (G1 & G2 & G3). split_and!; [done|congruence|]. rewrite G3, H2, H3. destruct (stop (sw s).1); [done|].
  rewrite wrap_add_l. f_equal. lia.
Qed.

Lemma owes_st_sane d s s' : owes_st d s s' -> sane_st s'.
Proof. by intros (H1 & _). Qed.

#[export] Instance ledger_st : Ledger st :=
  {| sane := sane_st; owes := owes_st; owes_refl := owes_st_refl; owes_trans := owes_st_trans; owes_sane := owes_st_sane |}.

(** For operations on an instance: its path stays, and names a file. *)
Definition named (path : string) : Prop := is_Some (substr1 path) /\ is_Some (GetParentPath path (parentPathLevel cfg)).

#[export] Instance ledger_inst : Ledger (OpenInstance * st).
Proof.
  refine {| sane p := sane_st p.2 /\ named (oi_path p.1); owes d p p' := owes_st d p.2 p'.2 /\ named (oi_path p'.1) |}.
  - intros [o s] [H1 H2]. split; [by apply owes_st_refl|done].
  - intros d d' [o s] [o1 s1] [o2 s2] [H1 _] [G1 G2]. split; [by eapply owes_st_trans|done].
  - intros d [o s] [o' s'] [H1 H2]. split; [by eapply owes_st_sane|done].
Defined.

Context {partial : bool}.

Notation "m $: D" := (costs partial m D) (at level 70).

(** ** The steps *)

Lemma on_cache_costs {A} (m : act A) :
  (forall w, ok w.1 -> in_range 64 (reservedCap w.1) -> wp m (fun _ w' => balanced w w') w) -> on_cache m $: fun _ => 0.
Proof.
  intros Hm s (H1 & H2 & H3). specialize (Hm (sw s) H1 H2). unfold on_cache, wp in *. destruct (m (sw s)) as [[a w]|]; [|done]. cbn in *.
  destruct Hm as (B1 & B2 & B3). split_and!; cbn; [split_and!; cbn; [done|by rewrite B3|apply H3|apply H3]|done|].
  rewrite B3. unfold waiting. cbn. rewrite Z.sub_diag, Z.add_0_l, Z.add_0_r. destruct (stop (sw s).1); [done|]. symmetry. by apply wrap_small.
Qed.

Lemma sys_costs {A} (g : fs -> A * fs) : sys g $: fun _ => 0.
Proof. apply on_cache_costs. intros w Hok Hr. apply wp_call. by split_and!. Qed.

Lemma steps_costs {A} (m : act A) eff : (forall w, ok w.1 -> wp m (fun _ w' => steps_to eff w w') w) -> on_cache m $: fun _ => 0.
Proof. intros Hm. apply on_cache_costs. intros w Hok _. eapply wp_weaken; [|by apply Hm]. intros a w' Hw. exact (balanced_steps _ _ _ Hw). Qed.

Lemma Find_costs k b t : on_cache (Find k b t) $: fun _ => 0.
Proof. eapply steps_costs. intros. by apply wp_Find. Qed.
Lemma Unpin_costs k : on_cache (Unpin k) $: fun _ => 0.
Proof. eapply steps_costs. intros. eapply wp_weaken; [|by apply wp_Unpin]. by intros ? ? [? _]. Qed.
Lemma InsertAndUpdate_costs k sz b t : on_cache (InsertAndUpdate k sz b t) $: fun _ => 0.
Proof. eapply steps_costs. intros. by apply wp_InsertAndUpdate. Qed.
Lemma Update_costs k sz t : on_cache (Update k sz t) $: fun _ => 0.
Proof. eapply steps_costs. intros. eapply wp_weaken; [|by apply wp_Update]. by intros ? ? [? _]. Qed.
Lemma DeleteOld_costs k : on_cache (DeleteOldCacheWithNoPin k) $: fun _ => 0.
Proof. eapply steps_costs. intros. by apply wp_DeleteOld. Qed.
Lemma Delete_costs k : on_cache (DiskCache.Delete k) $: fun _ => 0.
Proof. eapply steps_costs. intros. by apply wp_Delete. Qed.
Lemma HasFreeSpace_costs : on_cache HasFreeSpace $: fun _ => 0.
Proof. eapply (steps_costs _ no_effect). intros w Hw. apply wp_bind, wp_cache, wp_ret. by apply steps_refl. Qed.

Lemma PreAllocSpace_costs size dur : on_cache (PreAllocSpace size dur) $: fun b => if b then size else 0.
Proof.
  intros s (H1 & H2 & H3 & H4). pose proof (wp_PreAllocSpace size dur (sw s) H1) as Hp. unfold on_cache, wp in *.
  destruct (PreAllocSpace size dur (sw s)) as [[b w]|]; [|done]. cbn in *. destruct Hp as (os & _ & (R1 & R2 & _) & E).
  unfold owes_st, sane_st, waiting. cbn. rewrite Z.sub_diag, Z.add_0_l. destruct (stop (sw s).1) eqn:Es.
  - destruct E as [-> ->]. by split_and!.
  - unfold allocated in E. destruct b, E as [E _]; rewrite E; split_and!; try done; try by apply wrap_in_range; try apply H2; try congruence.
    rewrite Z.add_0_r. symmetry. by apply wrap_small.
Qed.

Lemma FreePreAllocSpace_costs size : on_cache (FreePreAllocSpace size) $: fun _ => - size.
Proof.
  intros s (H1 & H2 & H3 & H4). unfold on_cache, FreePreAllocSpace, mbind, act_bind, cache. cbn. unfold owes_st, sane_st, waiting.
  destruct (stop (sw s).1) eqn:Es; cbn; rewrite ?Es; split_and!; try done; try apply H1; try by apply wrap_in_range.
  by rewrite Z.sub_diag.
Qed.

Lemma Submit_costs t : task_named t -> ost_upd (Submit t) $: fun _ => - task_size t.
Proof.
  intros Ht s (H1 & H2 & H3 & H4). cbn.
  split_and!; [split_and!; [done..|by apply Forall_app; split; [|constructor]]|done|]. cbn. unfold waiting. cbn. rewrite foldr_app. cbn.
  assert (forall l n, foldr (fun t n => task_size t + n) n l = foldr (fun t n => task_size t + n) 0 l + n) as E.
  { induction l as [|a l IH]; intros n; cbn; [lia|]. rewrite IH. lia. }
  rewrite E. destruct (stop (sw s).1); [done|]. symmetry. rewrite wrap_small; [lia|]. by replace (_ + (_ - _ + _)) with (reservedCap (sw s).1) by lia.
Qed.

Lemma on_store_costs {A} (m : bact A) D : m $: D -> on_store m $: D.
Proof.
  intros Hm [o s] [H1 H2]. specialize (Hm s H1). unfold on_store. cbn in *. destruct (m s) as [[a s']|]; [|done]. by split.
Qed.

Lemma costs_this {A} (f : OpenInstance -> oact A) D : (forall o, named (oi_path o) -> f o $: D) -> this ≫= f $: D.
Proof. intros Hf [o s] [H1 H2]. unfold this, mbind, ost_bind. cbn. by apply (Hf o H2 (o, s)). Qed.

Lemma assign_costs f : (forall o, oi_path (f o) = oi_path o) -> assign f $: fun _ => 0.
Proof. intros Hf [o s] [H1 H2]. cbn. split; [by apply owes_st_refl|]. by rewrite Hf. Qed.

Lemma nodes_costs : nodes_ $: fun _ => 0.
Proof. intros s Hs. by apply owes_st_refl. Qed.

Lemma upd_costs (f : st -> st) : (forall s, sw (f s) = sw s /\ tasks (f s) = tasks s /\ nodeId (sn (f s)) = nodeId (sn s)) -> ost_upd f $: fun _ => 0.
Proof.
  intros Hf s Hs. destruct (Hf s) as (E1 & E2 & E3). cbn. destruct (owes_st_refl s Hs) as (G1 & G2 & G3).
  unfold owes_st, sane_st, waiting in *. by rewrite E1, E2, E3.
Qed.

Lemma get_costs : (ost_get : bact st) $: fun _ => 0.
Proof. intros s Hs. by apply owes_st_refl. Qed.

End space.

(** One step through a computation without debts. *)
Ltac cost_step :=
  lazymatch goal with
  | |- forall _, _ => intros ?
  | |- costs _ (mret _) _ => apply costs_ret; by repeat case_match
  | |- costs _ (this ≫= _) _ => apply costs_this; intros ? ?
  | |- costs _ (_ ≫= _) _ => apply costs_seq; [|intros ?]
  | |- costs _ (if ?b then _ else _) _ => destruct b
  | |- costs _ (match ?x with _ => _ end) _ => destruct x
  | |- costs _ (on_store _) _ => apply on_store_costs
  | |- costs _ (sys _) _ => apply sys_costs
  | |- costs _ nodes_ _ => apply nodes_costs
  | |- costs _ ost_get _ => apply get_costs
  | |- costs _ (assign _) _ => apply assign_costs; intros ?; by repeat case_match
  | |- costs _ _ _ => solve [eauto with costs]
  end.
Ltac cost := repeat cost_step.

Create HintDb costs.
#[export] Hint Resolve Find_costs Unpin_costs InsertAndUpdate_costs Update_costs DeleteOld_costs Delete_costs HasFreeSpace_costs : costs.

(** Documented of writev(2), that it writes nothing only when it fails, and of
    open(2), that a descriptor is an [int]. *)
Class StoreLaws `{StoreIO} : Prop := {
  pcut_progress fd b o n f : 0 < n -> (pcut fd b o n f).1 <> 0;
  open_int p flags f : (open_ p flags f).1 < 2 ^ 31
}.

(** ** The operations *)

Section operations.

Context `{StoreIO} `{!CacheFsLaws} `{!StoreLaws} (cfg : config) {partial : bool}.

Implicit Types (s : st) (x : env) (o : OpenInstance).

Notation "m $: D" := (costs partial m D) (at level 70).
#[local] Existing Instance ledger_inst.
#[local] Hint Extern 0 (Ledger (OpenInstance * st)) => exact (ledger_inst cfg) : typeclass_instances.

Lemma loadObs_costs path inodeId fileSize fd bufSize isSync toBuffer x :
  is_Some (substr1 path) -> loadObs path inodeId fileSize fd bufSize isSync toBuffer x $: fun _ => - fileSize.
Proof.
  intros Hp. unfold loadObs. apply costs_seq; [by apply costs_opt|]. intros object. cost_step; [cost|]. cost_step; [cost|].
  apply costs_seq; [cost|]. intros size.
  eapply costs_bind; [apply FreePreAllocSpace_costs|]. intros ?. apply costs_ret. lia.
Qed.

(** A reservation that [body] gives back. *)
Lemma reserve_costs {A} size dur (r : A) (body : bact A) :
  body $: (fun _ => - size) -> (granted ← on_cache (PreAllocSpace size dur); if negb granted then mret r else body) $: fun _ => 0.
Proof.
  intros Hb. eapply costs_bind; [apply PreAllocSpace_costs|]. intros [|]; cbn; [|by apply costs_ret].
  eapply costs_weaken; [|exact Hb]. intros a. cbn. lia.
Qed.

Lemma free_costs {A} size (r : A) : (_ ← on_cache (FreePreAllocSpace size); mret r) $: fun _ => - size.
Proof. eapply costs_bind; [apply FreePreAllocSpace_costs|]. intros ?. apply costs_ret. lia. Qed.

Lemma submit_costs {A} t (r : A) : task_named t -> (_ ← ost_upd (Submit t); mret r) $: fun _ => - task_size t.
Proof. intros Ht. eapply costs_bind; [by apply Submit_costs|]. intros ?. apply costs_ret. lia. Qed.

Lemma load_from_storage_costs inodeId path fileSize bufSize isSync toBuffer x :
  is_Some (substr1 path) -> load_from_storage inodeId path fileSize bufSize isSync toBuffer x $: fun _ => 0.
Proof.
  intros Hp. unfold load_from_storage. cost_step; [cost|]. cost_step; [cost|]. cost_step; [cost|].
  apply reserve_costs. cost_step; [cost|]. cost_step; [apply free_costs|]. destruct isSync; [by apply loadObs_costs|by apply (submit_costs (LoadTask _ _ _ _ _ _))].
Qed.

Lemma fill_buffer_costs b : fill_buffer b $: fun _ => 0.
Proof. unfold fill_buffer. cost. Qed.

Lemma DownLoadFromStorage_costs isSync toBuffer x : DownLoadFromStorage isSync toBuffer x $: fun _ => 0.
Proof.
  unfold DownLoadFromStorage. apply costs_this. intros o Ho. apply costs_seq; [apply on_store_costs, load_from_storage_costs, Ho|].
  intros r. apply costs_seq; [apply fill_buffer_costs|]. cost.
Qed.

Lemma WriteToFileAsync_costs inodeId buf bufSize x : WriteToFileAsync inodeId buf bufSize x $: fun _ => 0.
Proof.
  unfold WriteToFileAsync. cost_step; [cost|]. cost_step; [cost|]. cost_step; [cost|]. apply reserve_costs. cost_step; [cost|].
  cost_step; [apply free_costs|by apply (submit_costs (WriteTask _ _ _ _))].
Qed.

#[local] Hint Resolve fill_buffer_costs DownLoadFromStorage_costs WriteToFileAsync_costs : costs.

Lemma PathToNodeId_costs path : is_Some (GetParentPath path (parentPathLevel cfg)) -> PathToNodeId cfg path $: fun _ => 0.
Proof.
  intros Hp. unfold PathToNodeId. apply costs_seq; [by apply costs_opt|]. intros parent. cost_step; [cost|]. cost_step; [|cost].
  apply costs_seq; [apply upd_costs; intros s; by case_match|]. intros _. cost.
Qed.

Lemma AllocNodeId_costs : AllocNodeId cfg $: fun _ => 0.
Proof.
  unfold AllocNodeId. apply costs_this. intros o Ho. cost. apply PathToNodeId_costs, Ho.
Qed.

Lemma is_local_costs : is_local $: fun _ => 0.
Proof. unfold is_local. cost. Qed.

Lemma remote_call_costs largeFile c : remote_call largeFile c $: fun _ => 0.
Proof. unfold remote_call. cost. Qed.

Lemma switch_node_costs : switch_node cfg $: fun _ => 0.
Proof.
  unfold switch_node. apply costs_this. intros o Ho. cost; [apply costs_opt; intros _; apply Ho|by apply upd_costs].
Qed.

#[local] Hint Resolve AllocNodeId_costs is_local_costs remote_call_costs switch_node_costs : costs.

(** An operation on an instance whose file is on this node. *)
Definition costs_local (m : oact Z) : Prop :=
  forall p, sane p -> IsLocal (oi_nodeId p.1) (sn p.2) = true -> match m p with Some (_, p') => owes 0 p p' | None => partial = true end.

Lemma costs_if_local (m : oact Z) (m' : oact (Z + Z * option conn)) :
  costs_local m -> m' $: (fun _ => 0) ->
  (local ← is_local; if local : bool then r ← m; mret (inl r) else m') $: fun _ => 0.
Proof.
  intros Hm Hm' p Hp. unfold is_local, this, on_store, nodes_, mbind, ost_bind. cbn. destruct p as [o s]. cbn.
  destruct (IsLocal (oi_nodeId o) (sn s)) eqn:E; [|by apply Hm']. specialize (Hm (o, s) Hp E). by destruct (m (o, s)) as [[a p']|].
Qed.

Lemma remote_loop_costs open largeFile n : forall retryNum ret client,
  costs_local open -> remote_loop cfg open largeFile n retryNum ret client $: fun _ => 0.
Proof.
  induction n as [|n IH]; intros [|retryNum] ret client Ho; cbn [remote_loop]; try by apply costs_ret.
  cost_step; [cost|]. cost_step. cost_step; [cost|]. cost_step; [cost|]. cost_step; [cost|]. cost_step; [by apply IH|].
  cost_step; [by cost; apply upd_costs|].
  cost_step; [cost|]. cost_step; [cost|]. apply costs_if_local; [done|by apply IH].
Qed.

Lemma OpenFileFromRemote_costs open largeFile : costs_local open -> OpenFileFromRemote cfg open largeFile $: fun _ => 0.
Proof.
  intros Ho. unfold OpenFileFromRemote. cost_step; [cost|]. cost_step; [by apply remote_loop_costs|]. cost_step; [cost|].
  cost_step. cost_step; [cost|]. cost_step; [|cost]. apply costs_this. intros oi Hn. apply costs_seq; [apply costs_opt; intros _; apply Hn|].
  intros object. cost.
Qed.

Lemma open_local_costs x : open_local cfg x $: fun _ => 0.
Proof. unfold open_local. cost. Qed.

Lemma set_up_stream_costs : set_up_stream $: fun _ => 0.
Proof. unfold set_up_stream. cost. Qed.

#[local] Hint Resolve open_local_costs set_up_stream_costs : costs.

Lemma open_at_local (m m' : oact (Z + Z)) (k : Z + Z -> oact Z) o s :
  IsLocal (oi_nodeId o) (sn s) = true -> nodeId (sn s) <> -1 ->
  (_ ← AllocNodeId cfg; local ← is_local; ret ← (if negb local then m else m'); k ret) (o, s) = (ret ← m'; k ret) (o, s).
Proof.
  intros Hl Hn. assert (AllocNodeId cfg (o, s) = Some (tt, (o, s))) as Ha.
  { unfold AllocNodeId, this, mbind, ost_bind. cbn. rewrite decide_True; [done|]. unfold IsLocal in Hl. by apply bool_decide_eq_true in Hl as <-. }
  assert (is_local (o, s) = Some (true, (o, s))) as Hi by (unfold is_local, this, on_store, nodes_, mbind, ost_bind; cbn; by rewrite Hl).
  unfold mbind at 1. unfold ost_bind at 1. rewrite Ha. cbn [mbind option_bind]. unfold mbind at 1. unfold ost_bind at 1. by rewrite Hi.
Qed.

(** The nested call of OpenFile is for a file of this node and opens it. *)
Lemma open_file_local depth x : costs_local (open_file cfg (S depth) x).
Proof.
  intros [o s] Hp Hl. cbn [open_file]. unfold this at 1. unfold mbind at 1. unfold ost_bind at 1. cbn [fst mbind option_bind].
  case_decide; [by apply (costs_ret 0 (fun _ => 0) eq_refl (o, s))|].
  rewrite open_at_local by (done || apply Hp).
  assert ((ret ← open_local cfg x; match ret with inl ret => mret ret | inr _ => set_up_stream end) $: fun _ => 0) as Hc by cost.
  exact (Hc (o, s) Hp).
Qed.

Lemma open_file_S depth x :
  open_file cfg (S depth) x =
    (o ← this;
     if decide (oi_physicalFd o <> UINT64_MAX) then mret 0 else
     _ ← AllocNodeId cfg;
     local ← is_local;
     ret ← (if negb local then
              r ← OpenFileFromRemote cfg (open_file cfg depth x) true; mret (if decide (r <> 0) then inl r else inr r)
            else open_local cfg x);
     match ret with inl ret => mret ret | inr _ => set_up_stream end).
Proof. done. Qed.

Lemma OpenFile_costs x : OpenFile cfg x $: fun _ => 0.
Proof.
  unfold OpenFile. rewrite open_file_S. apply costs_this. intros o Ho. cost_step; [cost|]. cost_step; [cost|]. cost_step; [cost|].
  cost_step; [|cost]. cost_step; [|cost]. cost_step; [|cost]. apply OpenFileFromRemote_costs, open_file_local.
Qed.

Lemma open_once_costs x : open_once cfg x $: fun _ => 0.
Proof. unfold open_once. cost. apply OpenFile_costs. Qed.

(** ** Streams *)

Lemma rpc_retry_balanced g n : forall ret w, ok w.1 -> wp (rpc_retry n (call g) ret) (fun _ w' => balanced w w') w.
Proof.
  induction n as [|n IH]; intros ret w Hok; cbn [rpc_retry]; [by apply wp_ret|]. case_decide; [|by apply wp_ret].
  apply wp_bind, wp_call. eapply wp_weaken; [|by apply (IH _ (w.1, (g w.2).2))]. done.
Qed.

Lemma PersistToFile_balanced ws b size off cur (x : ctx) w :
  ok w.1 -> in_range 64 (reservedCap w.1) -> wp (PersistToFile ws b size off cur x) (fun _ w' => balanced w w') w.
Proof.
  intros Hok Hr. destruct (client ws) as [c|] eqn:Hc; [|by apply wp_PersistToFile_local]. unfold PersistToFile. rewrite Hc.
  case_match; [by apply wp_ret|]. destruct b; [|by apply wp_ret]. by apply rpc_retry_balanced.
Qed.

Lemma Persist_balanced ws cur (x : ctx) w :
  ok w.1 -> in_range 64 (reservedCap w.1) -> wp (Persist ws cur x) (fun _ w' => balanced w w') w.
Proof.
  intros Hok Hr. unfold Persist. case_decide; [by apply wp_ret|]. apply wp_bind. apply wp_if; intros _; [by apply wp_ret, wp_ret|].
  eapply wp_weaken; [|by apply PersistToFile_balanced]. intros r w' Hw. by apply wp_ret.
Qed.

Lemma Complete_balanced ws cur fl sy (x : ctx) w :
  ok w.1 -> in_range 64 (reservedCap w.1) -> wp (Complete ws cur fl sy x) (fun _ w' => balanced w w') w.
Proof.
  intros Hok Hr. unfold Complete. destruct (client ws) as [c|]; [|by apply Persist_balanced]. case_match.
  - apply wp_bind, wp_call, wp_ret. by split_and!.
  - apply wp_bind. eapply wp_weaken; [|by apply rpc_retry_balanced]. intros r w' Hw. by apply wp_ret.
Qed.

Lemma balanced_range w w' : balanced w w' -> in_range 64 (reservedCap w.1) -> in_range 64 (reservedCap w'.1).
Proof. by intros (_ & _ & ->). Qed.

Lemma persist_if_balanced (p : bool) ws cur (x : ctx) w :
  ok w.1 -> in_range 64 (reservedCap w.1) ->
  wp (if p then Persist ws cur x else mret (0, ws)) (fun _ w' => balanced w w') w.
Proof. intros Hok Hr. destruct p; [by apply Persist_balanced|by apply wp_ret]. Qed.

Lemma Push_balanced ws b off cur a (x : ctx) w :
  ok w.1 -> in_range 64 (reservedCap w.1) -> wp (Push ws b off cur a x) (fun _ w' => balanced w w') w.
Proof.
  intros Hok Hr. assert (forall ws' w1, balanced w w1 ->
    wp (ret ← PersistToFile ws' (Some b) (Z.of_nat (length b)) off cur x; mret (ret, ws')) (fun _ w' => balanced w w') w1) as Hp.
  { intros ws' w1 Hw. apply wp_bind. eapply wp_weaken; [|apply PersistToFile_balanced; [apply Hw|by eapply balanced_range]].
    intros r w2 Hw2. apply wp_ret. by eapply balanced_trans. }
  assert (balanced w w) as Hrefl by done. unfold Push. case_match; [by apply wp_ret|]. destruct (client ws) as [c|] eqn:Hc.
  - apply wp_bind. eapply wp_weaken; [|by apply persist_if_balanced]. intros [r ws1] w1 Hw1. case_decide; [by apply wp_ret|].
    case_match; [by apply Hp|]. apply wp_bind.
    eapply wp_weaken; [|apply persist_if_balanced; [apply Hw1|by eapply balanced_range]].
    intros [r2 ws2] w2 Hw2. case_decide; apply wp_ret; by eapply balanced_trans.
  - case_match; [by apply Hp|]. destruct a; [by apply Hp|by apply wp_ret].
Qed.

Lemma Push_costs ws b off cur a (x : ctx) : on_cache (Push ws b off cur a x) $: fun _ => 0.
Proof. apply on_cache_costs. intros. by apply Push_balanced. Qed.
Lemma Complete_costs ws cur fl sy (x : ctx) : on_cache (Complete ws cur fl sy x) $: fun _ => 0.
Proof. apply on_cache_costs. intros. by apply Complete_balanced. Qed.

#[local] Hint Resolve open_once_costs OpenFile_costs Push_costs Complete_costs : costs.

(** ** The calls *)

Lemma write_loop_costs fuel fd : forall buf offset writeSize,
  0 <= writeSize <= Z.of_nat fuel -> write_loop fuel fd buf offset writeSize $: fun _ => 0.
Proof.
  induction fuel as [|fuel IH]; intros buf offset writeSize Hw; cbn [write_loop]; (case_decide; [by apply costs_ret|]); [lia|].
  intros s Hs. assert (forall n f, (pcut fd buf offset writeSize (sw s).2) = (n, f) -> n <> 0) as Hn.
  { intros n f E. pose proof (pcut_progress fd buf offset writeSize (sw s).2 ltac:(lia)) as Hp. by rewrite E in Hp. }
  pose proof (sys_costs (partial := partial) (pcut fd buf offset writeSize) s Hs) as Hc.
  unfold sys, on_cache, call in *. unfold mbind, ost_bind. cbn in *. destruct (pcut fd buf offset writeSize (sw s).2) as [n f] eqn:E.
  specialize (Hn n f eq_refl). cbn in *. destruct ((n <? 0) || (writeSize <? n))%bool eqn:Eb; [exact Hc|].
  apply orb_false_iff in Eb as [E1%Z.ltb_ge E2%Z.ltb_ge].
  assert (owes_st 0 s (set_sw ((sw s).1, f) s)) as Hc' by exact Hc.
  specialize (IH (drop (Z.to_nat n) buf) (s64 (offset + n)) (writeSize - n) ltac:(lia) _ (owes_st_sane _ _ _ Hc')).
  destruct (write_loop _ _ _ _ _ _) as [[r s2]|]; [|done]. by apply (owes_st_trans 0 0 _ _ _ Hc').
Qed.

Lemma WriteLocalFileForBrpc_costs buf offset x : WriteLocalFileForBrpc buf offset x $: fun _ => 0.
Proof.
  unfold WriteLocalFileForBrpc. apply costs_this. intros o Ho. set (add := u64 _).
  assert (forall r : Z, (_ ← on_store (on_cache (FreePreAllocSpace add)); mret r) $: fun _ => - add) as Hfree.
  { intros r. eapply costs_bind; [apply on_store_costs, FreePreAllocSpace_costs|]. intros ?. apply costs_ret. lia. }
  eapply costs_bind; [apply on_store_costs, PreAllocSpace_costs|]. intros [|]; cbn -[u64]; [|by apply costs_ret].
  apply costs_seq.
  - cost_step; [|cost]. cost_step; [apply on_store_costs, write_loop_costs; lia|]. cost.
  - intros written. eapply costs_weaken with (D := fun _ => - add); [intros; lia|]. cost_step; [apply Hfree|].
    apply costs_seq; [cost|]. intros upd. apply Hfree.
Qed.

Lemma StopPreReadThreaded_costs : StopPreReadThreaded $: fun _ => 0.
Proof. unfold StopPreReadThreaded. cost. Qed.
#[local] Hint Resolve StopPreReadThreaded_costs : costs.

Lemma WriteFile_costs buf offset x : WriteFile cfg buf offset x $: fun _ => 0.
Proof. unfold WriteFile. cost. Qed.

Lemma persist_written_costs x : persist_written x $: fun _ => 0.
Proof. unfold persist_written. cost. Qed.

Lemma FlushToStorage_costs path inodeId : is_Some (substr1 path) -> FlushToStorage path inodeId $: fun _ => 0.
Proof. intros Hp. unfold FlushToStorage. apply costs_seq; [by apply costs_opt|]. intros object. cost. Qed.

Lemma close_local_costs isFlush isSync ret x : close_local cfg isFlush isSync ret x $: fun _ => 0.
Proof. unfold close_local. apply costs_this. intros o Ho. cost. apply FlushToStorage_costs, Ho. Qed.

#[local] Hint Resolve persist_written_costs close_local_costs : costs.

Lemma close_body_costs m isFlush isSync x : (isFlush = false -> m $: fun _ => 0) -> close_body cfg m isFlush isSync x $: fun _ => 0.
Proof. intros Hm. unfold close_body. cost. Qed.

Lemma CloseTmpFiles_costs isFlush isSync x : CloseTmpFiles cfg isFlush isSync x $: fun _ => 0.
Proof. apply close_body_costs. intros _. by apply close_body_costs. Qed.

Lemma read_cached_costs inodeId size : read_cached inodeId size $: fun _ => 0.
Proof. unfold read_cached. cost. Qed.
#[local] Hint Resolve read_cached_costs : costs.

Lemma ReadSmallFiles_costs x : ReadSmallFiles cfg x $: fun _ => 0.
Proof.
  unfold ReadSmallFiles. cost_step; [cost|]. cost_step; [cost|]. cost_step; [apply OpenFileFromRemote_costs, open_file_local|].
  apply costs_this. intros o Ho. cost_step; [cost|]. cost_step; [cost|]. cost_step; [cost|]. cost_step; [cost|]. cost_step; [cost|].
  cost_step; [cost|]. apply costs_seq; [apply costs_opt; intros _; apply Ho|]. intros object. cost.
Qed.

Lemma ReadSmallFilesForBrpc_costs inodeId path size oflags nodeFail x :
  is_Some (substr1 path) -> ReadSmallFilesForBrpc cfg inodeId path size oflags nodeFail x $: fun _ => 0.
Proof. intros Hp. unfold ReadSmallFilesForBrpc, DownLoadFromStorageForBrpc. cost; by apply load_from_storage_costs. Qed.

Lemma DeleteFiles_costs inodeId id path x : is_Some (substr1 path) -> DeleteFiles cfg inodeId id path x $: fun _ => 0.
Proof. intros Hp. unfold DeleteFiles. cost; by apply costs_opt. Qed.

Lemma TruncateFile_costs size x : TruncateFile cfg size x $: fun _ => 0.
Proof. unfold TruncateFile. cost. Qed.

Lemma TruncateOpenInstance_costs size x : TruncateOpenInstance size x $: fun _ => 0.
Proof. unfold TruncateOpenInstance. cost. Qed.

Lemma read_retry_costs n (m : bact (Z * list Z)) : forall r, m $: (fun _ => 0) -> read_retry n m r $: fun _ => 0.
Proof. induction n as [|n IH]; intros r Hm; cbn [read_retry]; [by apply costs_ret|]. cost_step; [done|]. cost_step; [by apply IH|cost]. Qed.

Lemma read_local_costs fd size check off : read_local fd size check off $: fun _ => 0.
Proof. unfold read_local. cost. Qed.

#[local] Hint Resolve read_local_costs : costs.

Lemma ReadFileLR_costs off size x : ReadFileLR cfg off size x $: fun _ => 0.
Proof.
  unfold ReadFileLR. apply costs_this. intros o Ho. cost_step; [cost|]. cost_step; [cost|]. apply costs_seq.
  - cost. apply read_retry_costs, sys_costs.
  - intros r. cost_step; [|cost]. apply costs_seq; [apply costs_opt; intros _; apply Ho|]. intros object. cost.
Qed.

Lemma RandomRead_costs size off x : RandomRead cfg size off x $: fun _ => 0.
Proof. unfold RandomRead. cost. apply ReadFileLR_costs. Qed.

Lemma StartPreReadThreaded_costs x : StartPreReadThreaded cfg x $: fun _ => 0.
Proof. unfold StartPreReadThreaded. cost. Qed.

#[local] Hint Resolve RandomRead_costs StartPreReadThreaded_costs : costs.

(** A read can wait for the threads that read ahead. *)
Lemma ReadFile_costs size off x : partial = true -> ReadFile cfg size off x $: fun _ => 0.
Proof.
  intros Hp. unfold ReadFile, ReadToBuffer, SequenceRead. cost. apply costs_opt. congruence.
Qed.

Lemma run_task_costs x : run_task x $: fun _ => 0.
Proof.
  intros s Hs. destruct Hs as (? & ? & ? & H4) eqn:E. clear E. unfold run_task, ost_get, mbind, ost_bind. cbn. destruct (tasks s) as [|t ts] eqn:Et; [by apply owes_st_refl|].
  apply Forall_cons in H4 as [Ht Hts]. cbn.
  set (s1 := {| sw := sw s; sn := sn s; nodeHash := nodeHash s; tasks := ts |}).
  assert (owes_st (task_size t) s s1) as Hs1.
  { split_and!; [done|done|]. unfold waiting. rewrite Et. cbn. destruct (stop (sw s).1); [done|]. symmetry. rewrite wrap_small; [lia|].
    by replace (_ + (_ - _ + _)) with (reservedCap (sw s).1) by lia. }
  assert ((match t with
    | LoadTask path inodeId fileSize fd bufSize toBuffer => _ ← loadObs path inodeId fileSize fd bufSize false toBuffer x; mret tt
    | WriteTask fd buf bufSize inodeId => write_task fd buf bufSize inodeId x
    end) $: fun _ => - task_size t) as Hc.
  { destruct t; cbn.
    - eapply costs_bind; [by apply loadObs_costs|]. intros ?. apply costs_ret. lia.
    - unfold write_task. cost_step; [cost|]. cost_step; [cost|]. cost_step; [cost|]. apply FreePreAllocSpace_costs. }
  specialize (Hc s1 (owes_st_sane _ _ _ Hs1)). fold s1. destruct (_ s1) as [[u s2]|]; [|done].
  rewrite <- (Z.add_opp_diag_r (task_size t)). by eapply owes_st_trans.
Qed.

End operations.

(** ** Sequences of calls *)

Section sequence.

Context `{StoreIO} `{!CacheFsLaws} `{!StoreLaws} (cfg : config).

(** The calls that a client, the server of this node and the thread pool make; an
    instance is in any state. *)
Inductive store_op : Type :=
| SoOpen (o : OpenInstance) (x : env)
| SoWrite (o : OpenInstance) (buf : list Z) (offset : Z) (x : env)
| SoRead (o : OpenInstance) (size offset : Z) (x : env)
| SoClose (o : OpenInstance) (isFlush isSync : bool) (x : env)
| SoSmall (o : OpenInstance) (x : env)
| SoTruncate (o : OpenInstance) (size : Z) (x : env)
| SoTruncateInstance (o : OpenInstance) (size : Z) (x : env)
| SoServerWrite (o : OpenInstance) (buf : list Z) (offset : Z) (x : env)
| SoServerRead (o : OpenInstance) (offset size : Z) (x : env)
| SoServerSmall (inodeId : Z) (path : string) (size oflags : Z) (nodeFail : bool) (x : env)
| SoDelete (inodeId nodeId : Z) (path : string) (x : env)
| SoTask (x : env).

Definition on_instance {A} (o : OpenInstance) (m : oact A) : bact unit := fun s => '(_, p) ← m (o, s); Some (tt, p.2).

Definition run_store_op (op : store_op) : bact unit :=
  match op with
  | SoOpen o x => on_instance o (OpenFile cfg x)
  | SoWrite o buf offset x => on_instance o (WriteFile cfg buf offset x)
  | SoRead o size offset x => on_instance o (ReadFile cfg size offset x)
  | SoClose o isFlush isSync x => on_instance o (CloseTmpFiles cfg isFlush isSync x)
  | SoSmall o x => on_instance o (ReadSmallFiles cfg x)
  | SoTruncate o size x => on_instance o (TruncateFile cfg size x)
  | SoTruncateInstance o size x => on_instance o (TruncateOpenInstance size x)
  | SoServerWrite o buf offset x => on_instance o (WriteLocalFileForBrpc buf offset x)
  | SoServerRead o offset size x => on_instance o (ReadFileLR cfg offset size x)
  | SoServerSmall inodeId path size oflags nodeFail x => _ ← ReadSmallFilesForBrpc cfg inodeId path size oflags nodeFail x; mret tt
  | SoDelete inodeId nodeId path x => _ ← DeleteFiles cfg inodeId nodeId path x; mret tt
  | SoTask x => run_task x
  end.

Fixpoint run_store_ops (ops : list store_op) : bact unit :=
  match ops with
  | [] => mret tt
  | op :: ops' => _ ← run_store_op op; run_store_ops ops'
  end.

Definition op_named (op : store_op) : Prop :=
  match op with
  | SoOpen o _ | SoWrite o _ _ _ | SoRead o _ _ _ | SoClose o _ _ _ | SoSmall o _ | SoTruncate o _ _ | SoTruncateInstance o _ _
  | SoServerWrite o _ _ _ | SoServerRead o _ _ _ => named cfg (oi_path o)
  | SoServerSmall _ path _ _ _ _ | SoDelete _ _ path _ => is_Some (substr1 path)
  | SoTask _ => True
  end.

Definition waits_for_readahead (op : store_op) : bool := match op with SoRead _ _ _ _ => true | _ => false end.

Lemma on_instance_costs {A} partial o (m : oact A) :
  named cfg (oi_path o) -> @costs _ _ (ledger_inst cfg) partial m (fun _ => 0) -> costs partial (on_instance o m) (fun _ => 0).
Proof.
  intros Ho Hm s Hs. specialize (Hm (o, s) (conj Hs Ho)). unfold on_instance. destruct (m (o, s)) as [[a p]|]; [|done]. cbn. apply Hm.
Qed.

Lemma run_store_op_costs op : op_named op -> costs (waits_for_readahead op) (run_store_op op) (fun _ => 0).
Proof.
  destruct op; cbn; intros Hn; try (apply on_instance_costs; [done|]).
  - apply OpenFile_costs.
  - apply WriteFile_costs.
  - by apply ReadFile_costs.
  - apply CloseTmpFiles_costs.
  - apply ReadSmallFiles_costs.
  - apply TruncateFile_costs.
  - apply TruncateOpenInstance_costs.
  - apply WriteLocalFileForBrpc_costs.
  - apply ReadFileLR_costs.
  - cost. by apply ReadSmallFilesForBrpc_costs.
  - cost. by apply DeleteFiles_costs.
  - apply run_task_costs.
Qed.

Lemma run_store_ops_owes ops : forall s s', sane_st s -> Forall op_named ops -> run_store_ops ops s = Some (tt, s') -> owes_st 0 s s'.
Proof.
  induction ops as [|op ops IH]; intros s s' Hs Hn E; cbn in E; [injection E as <-; by apply owes_st_refl|].
  apply Forall_cons in Hn as [Hn1 Hn2]. pose proof (run_store_op_costs op Hn1 s Hs) as Hc. unfold mbind, ost_bind in E.
  destruct (run_store_op op s) as [[[] s1]|]; [|done]. cbn in E. apply (owes_st_trans 0 0 s s1); [exact Hc|].
  apply IH; [exact (owes_st_sane _ _ _ Hc)|done|done].
Qed.

(** C29: space on the disk is given back.  After any sequence of calls of the store, by
    clients and by the server, with tasks of the thread pool run at any points
    between them, whatever fails in them: the cache is sound and what is reserved in
    it is exactly what the tasks that still wait have reserved, thus nothing when
    there are none; and the next call is defined, except that a read can wait for
    the threads that read ahead. *)
Theorem store_reservations ops s s' :
  ok (sw s).1 -> stop (sw s).1 = false -> reservedCap (sw s).1 = 0 -> tasks s = [] -> nodeId (sn s) <> -1 ->
  Forall op_named ops -> run_store_ops ops s = Some (tt, s') ->
  ok (sw s').1 /\ reservedCap (sw s').1 = u64 (waiting s') /\
  forall op, op_named op -> waits_for_readahead op = false -> is_Some (run_store_op op s').
Proof.
  intros Hok Hst Hr Ht Hn Hops E.
  assert (sane_st s) as Hs by (split_and!; [done|by rewrite Hr|done|by rewrite Ht]).
  destruct (run_store_ops_owes ops s s' Hs Hops E) as (G1 & G2 & G3). split_and!; [apply G1| |].
  - rewrite G3, Hst, Hr. unfold waiting at 2. rewrite Ht. cbn. f_equal. lia.
  - intros op Ho Hw. pose proof (run_store_op_costs op Ho s' G1) as Hc. rewrite Hw in Hc.
    destruct (run_store_op op s') as [[u s2]|]; [by eexists|done].
Qed.

End sequence.
