(* ===== verification/StoreDemo.v ===== *)
(** * A node to evaluate the store on

    Concrete files, descriptors and objects for the parameters of FalconStore.v:
    the instance on which its theorems are applied. *)

From Stdlib Require Import Floats.SpecFloat.
From S2P Require Import FalconPrelude DiskCache DiskCacheCorrect StoreNode IoClient WriteStream FileBytes ReadStream FalconFd FalconStore StoreSpace.

Module Node.

Record node_fs : Type := {
  files : gmap string (list Z);
  fds : gmap Z string;
  next_fd : positive;
  objects : gmap string (list Z)
}.

Definition set_files (m : gmap string (list Z)) (f : node_fs) : node_fs :=
  {| files := m; fds := fds f; next_fd := next_fd f; objects := objects f |}.

Definition bytes_used (f : node_fs) : Z := foldr (fun e n => Z.of_nat (length e.2) + n) 0 (map_to_list (files f)).

Definition write_fd (fd : Z) (b : list Z) (off : Z) (f : node_fs) : Z * node_fs :=
  match fds f !! fd with
  | None => (-9, f)
  | Some p => (Z.of_nat (length b), set_files (<[p := write_at (files f !!! p) (Z.to_nat off) b]> (files f)) f)
  end.

(** A disk of 1000 bytes. *)
#[export] Instance node_cache : CacheFs := {
  rootPath := "/c";
  totalDirectory := 1;
  float_undefined := fun _ => 0;
  fs := node_fs;
  remove p f := if decide (is_Some (files f !! p)) then (0, set_files (delete p (files f)) f) else (2, f);
  access p f := bool_decide (is_Some (files f !! p));
  statfs _ f := Some {| f_bsize := 1; f_blocks := 1000; f_bavail := 1000 - bytes_used f; f_files := 100; f_ffree := 90 |};
  opendir _ _ := Some ([], true);
  stat _ _ := None
}.

#[export] Instance node_cache_laws : CacheFsLaws.
Proof.
  split; cbn.
  - intros p f f' E. case_decide; simplify_eq. cbn. by rewrite lookup_delete_eq.
  - intros p f e f' E He. by case_decide; simplify_eq.
  - intros p q f Hne. case_decide; [|done]. cbn. by rewrite lookup_delete_ne.
Qed.

#[export] Instance node_world : NodeWorld := {
  conn := unit;
  rehash V k v l := (k, v) :: l;
  CreateIOConnection _ := Some tt;
  CheckConnection _ _ := 0
}.

(** No other node answers. *)
#[export] Instance node_brpc : Brpc.
Proof.
  refine {| ENOSERVICE := 1001; ENOMETHOD := 1002; EREQUEST := 1003; ERPCAUTH := 1004; ERPCTIMEDOUT := 1008; EFAILEDSOCKET := 1009;
    stub_OpenFile _ _ f := (Failed 1009, f); stub_CloseFile _ _ _ f := (Failed 1009, f); stub_ReadFile _ _ f := (Failed 1009, f);
    stub_ReadSmallFile _ _ f := (Failed 1009, f); stub_WriteFile _ _ _ f := (Failed 1009, f); stub_DeleteFile _ _ f := (Failed 1009, f);
    stub_StatFS _ _ f := (Failed 1009, f); stub_TruncateOpenInstance _ _ f := (Failed 1009, f);
    stub_TruncateFile _ _ f := (Failed 1009, f); stub_CheckConnection _ f := (Failed 1009, f);
    stub_StatCluster _ _ _ f := (Failed 1009, f) |}.
  apply (bool_decide_unpack _). by vm_compute.
Defined.

#[export] Instance node_stream : StreamIO := { pwrite := write_fd }.

#[export] Instance node_io : StoreIO := {
  open_ p flags f :=
    if decide (is_Some (files f !! p) \/ has_flag flags O_CREAT = true) then
      (Z.min (Z.pos (next_fd f)) 1024,
       {| files := <[p := files f !!! p]> (files f); fds := <[Z.min (Z.pos (next_fd f)) 1024 := p]> (fds f);
          next_fd := Pos.succ (next_fd f); objects := objects f |})
    else (-2, f);
  close_ fd f := {| files := files f; fds := delete fd (fds f); next_fd := next_fd f; objects := objects f |};
  fsync _ f := f;
  pread fd size off f :=
    match fds f !! fd with
    | None => ((-1, [], 9), f)
    | Some p => let b := read_at (files f !!! p) (Z.to_nat off) (Z.to_nat size) in ((Z.of_nat (length b), b, 0), f)
    end;
  ftruncate fd size f :=
    match fds f !! fd with
    | None => (9, f)
    | Some p => (0, set_files (<[p := list.resize (Z.to_nat size) 0 (files f !!! p)]> (files f)) f)
    end;
  statvfs _ f := (0, {| fblocks := 1000; fbfree := 1000 - bytes_used f; fbavail := 1000 - bytes_used f; ffiles := 100; fffree := 90 |});
  pcut fd b off n f := let '(r, f') := write_fd fd (take (Z.to_nat n) b) off f in
    if decide (r = 0 /\ 0 < n) then (-1, f') else (r, f');
  ReadObject obj off size fd f :=
    match objects f !! obj with
    | None => ((-1, []), f)
    | Some l =>
        let b := if decide (size = 0) then drop (Z.to_nat off) l else read_at l (Z.to_nat off) (Z.to_nat size) in
        ((Z.of_nat (length b), b), if fd <? 0 then f else (write_fd fd b 0 f).2)
    end;
  PutFile obj p f :=
    match files f !! p with
    | None => (1, f)
    | Some l => (0, {| files := files f; fds := fds f; next_fd := next_fd f; objects := <[obj := l]> (objects f) |})
    end;
  DeleteObject obj f := (0, {| files := files f; fds := fds f; next_fd := next_fd f; objects := delete obj (objects f) |});
  CopyObject a b f :=
    match objects f !! a with
    | None => (1, f)
    | Some l => (0, {| files := files f; fds := fds f; next_fd := next_fd f; objects := <[b := l]> (objects f) |})
    end;
  StatObjects f := (0, zero_stat)
}.

#[export] Instance node_laws : StoreLaws.
Proof.
  split.
  - intros fd b o n f Hn. cbn. destruct (write_fd fd (take (Z.to_nat n) b) o f) as [r f'].
    case_decide as Hd; [done|]. cbn. intros ->. by apply Hd.
  - intros p flags f. cbn. case_decide; cbn; lia.
Qed.

(** The object "a" has the bytes 1 to 5; the cache is empty. *)
Definition node_files : node_fs := {| files := ∅; fds := ∅; next_fd := 3; objects := {[ "a" := [1; 2; 3; 4; 5] ]} |}.

Definition node_started : world :=
  (default (0, (new_DiskCache, node_files)) (Start "/c" 1 float_tenth float_fifth [0]%nat 5 (new_DiskCache, node_files))).2.

Lemma node_started_ok : ok node_started.1.
Proof.
  unfold node_started. pose proof (wp_Start "/c" 1 float_tenth float_fifth [0]%nat 5 (new_DiskCache, node_files) ok_new) as Hs.
  unfold wp in Hs. destruct (Start _ _ _ _ _ _ _) as [[r w]|] eqn:E; [exact Hs|done].
Qed.

Definition node_st : st := {| sw := node_started; sn := {| initStatus := 0; nodeId := 1; nodeMap := [] |}; nodeHash := ∅; tasks := [] |}.

Definition node_cfg : config :=
  {| persistToStorage := true; isInference := false; toLocal := false; parentPathLevel := -1; dataPath := "/c";
     READ_BIGFILE_SIZE := 4; FALCON_BLOCK_SIZE := 8 |}.

Definition quiet : env :=
  {| env_ctx := {| now := 7; during := fun _ => [] |}; locked := false; alloc := true; pool := []; prefetched := []; sched := [] |}.

(** An instance for the object "a", which is inode 9, opened with [flags]. *)
Definition node_instance (flags : Z) : OpenInstance :=
  set_originalSize 5 (set_currentSize 5 (set_oflags flags (set_path "/a" (set_inodeId 9 new_OpenInstance)))).

End Node.

Module SpaceDemo.

Import Node.

(** A reader has the object loaded in the background, a writer loads it himself. *)
Definition demo_ops : list store_op :=
  [SoOpen (node_instance O_RDONLY) quiet; SoOpen (node_instance O_WRONLY) quiet; SoServerSmall 9 "/a" 5 O_RDONLY false quiet;
   SoOpen (set_inodeId 10 (node_instance O_RDONLY)) quiet].

Lemma store_reservations_witness :
  exists s, run_store_ops node_cfg demo_ops node_st = Some (tt, s) /\ length (tasks s) = 2%nat /\ reservedCap (sw s).1 = 10 /\ ok (sw s).1 /\
    is_Some (run_store_op node_cfg (SoTask quiet) s).
Proof.
  assert (is_Some (run_store_ops node_cfg demo_ops node_st)) as [[[] s] E] by (apply (bool_decide_unpack _); by vm_compute).
  destruct (store_reservations node_cfg demo_ops node_st s) as (H1 & H2 & H3).
  - exact node_started_ok.
  - by vm_compute.
  - by vm_compute.
  - done.
  - done.
  - repeat constructor; by eexists.
  - exact E.
  - exists s. split; [done|].
    assert ((fun r => (length (tasks r.2), waiting r.2)) <$> run_store_ops node_cfg demo_ops node_st = Some (2%nat, 10)) as E' by (by vm_compute).
    rewrite E in E'. injection E' as E1 E2. cbn in E1, E2. split_and!; [done| |done|by apply H3]. by rewrite H2, E2.
Defined.

End SpaceDemo.
