(* ===== verification/StorePins.v ===== *)
(** * Open files are pinned

    A file of this node that OpenFile has opened has one reference more in the cache
    of DiskCache.v, so that it is not evicted, and CloseTmpFiles takes one away. *)

From S2P Require Import FalconPrelude DiskCache DiskCacheCorrect CachePins StoreNode IoClient WriteStream WriteStreamCorrect.
From S2P Require Import FileBytes ReadStream FalconFd FalconStore StoreSpace StoreDemo.

Lemma ost_bind_inv {S A B : Type} (m : ost S A) (g : A -> ost S B) s b s' :
  (m ≫= g) s = Some (b, s') -> exists a s1, m s = Some (a, s1) /\ g a s1 = Some (b, s').
Proof. unfold mbind, ost_bind. destruct (m s) as [[a s1]|]; [|done]. intros E. by exists a, s1. Qed.

(** [ost_inv E]: the first step of the computation in [E]. *)
Ltac ost_inv E := apply ost_bind_inv in E as (? & ? & ? & E).

Section pins.

Context `{StoreIO} `{!CacheFsLaws} `{!StoreLaws} (cfg : config).

Implicit Types (s : st) (x : env) (o : OpenInstance).

Lemma on_cache_inv {A} (m : act A) s a s' : on_cache m s = Some (a, s') -> exists w, m (sw s) = Some (a, w) /\ s' = set_sw w s.
Proof. unfold on_cache. destruct (m (sw s)) as [[b w]|]; cbn; [|done]. intros [= <- <-]. eauto. Qed.

Lemma sys_inv {A} (g : fs -> A * fs) s a s' : sys g s = Some (a, s') -> s' = set_sw ((sw s).1, (g (sw s).2).2) s /\ a = (g (sw s).2).1.
Proof. unfold sys. intros (w & E & ->)%on_cache_inv. unfold call in E. destruct (g (sw s).2) as [b f]. injection E as <- <-. done. Qed.

Lemma on_store_inv {A} (m : bact A) p a p' : on_store m p = Some (a, p') -> m p.2 = Some (a, p'.2) /\ p'.1 = p.1.
Proof. unfold on_store. destruct (m p.2) as [[b s]|]; cbn; [|done]. by intros [= <- <-]. Qed.

(** The cache is in use and its references are in range. *)
Definition counted s : Prop := wf (index (sw s).1) /\ stop (sw s).1 = false /\ refs_ok (index (sw s).1).

(** No other thread runs while space is allocated. *)
Definition alone x : Prop := during (env_ctx x) = fun _ => [].

Definition cnt (key d : Z) s s' : Prop := counts key d (sw s) (sw s') /\ counted s' /\ sn s' = sn s.

Lemma cnt_refl key s : counted s -> cnt key 0 s s.
Proof. intros Hc. split; [by apply counts_same; [apply Hc|..]|by split]. Qed.

Lemma cnt_trans key d d' s s1 s2 : cnt key d s s1 -> cnt key d' s1 s2 -> cnt key (d + d') s s2.
Proof. intros (C1 & _ & E1) (C2 & G2 & E2). split; [by eapply counts_trans|]. split; [done|congruence]. Qed.

Lemma cnt_other key key' s s' : cnt key 0 s s' -> cnt key' 0 s s'.
Proof.
  intros (C1 & G1 & E1). split; [|done]. destruct C1 as [W S R]. split; [done..|]. intros k. rewrite R. repeat case_decide; lia.
Qed.

Lemma cnt_intro key d s w :
  counted s -> counts key d (sw s) w -> 0 <= refs_at key (index (sw s).1) + d < 2 ^ 32 -> cnt key d s (set_sw w s).
Proof.
  intros (W & S & R) Hc Hd. split; [done|]. split; [|done]. split_and!; [apply Hc|cbn; by rewrite (ct_stop _ _ _ _ Hc)|by eapply counts_ok].
Qed.

Lemma cnt_zero key s w : counted s -> counts key 0 (sw s) w -> cnt key 0 s (set_sw w s).
Proof. intros Hc Hw. apply cnt_intro; [done..|]. rewrite Z.add_0_r. apply Hc. Qed.

Lemma sys_cnt {A} key (g : fs -> A * fs) s a s' : counted s -> sys g s = Some (a, s') -> cnt key 0 s s'.
Proof. intros Hc [-> _]%sys_inv. apply cnt_zero; [done|]. by apply counts_same; [apply Hc|..]. Qed.

Lemma evicts_cnt {A} key (m : act A) s a s' : evicts_only m -> counted s -> on_cache m s = Some (a, s') -> cnt key 0 s s'.
Proof.
  intros Hm Hc (w & E & ->)%on_cache_inv. destruct (Hm _ _ _ E ltac:(apply Hc)) as (W & V & S & _). apply cnt_zero; [done|].
  apply counts_evicted; [apply Hc|done..].
Qed.

Lemma evicts_absent {A} key (m : act A) s a s' :
  evicts_only m -> counted s -> on_cache m s = Some (a, s') -> item_at key (index (sw s).1) = None -> item_at key (index (sw s').1) = None.
Proof.
  intros Hm Hc (w & E & ->)%on_cache_inv Hi. destruct (Hm _ _ _ E ltac:(apply Hc)) as (W & V & S & _). cbn.
  destruct (V key) as [->|[-> _]]; done.
Qed.

(** There is room for one more reference to [key]. *)
Definition room key s : Prop := refs_at key (index (sw s).1) < 2 ^ 32 - 1.

Lemma Find_cnt key pin t s found s' :
  counted s -> room key s -> on_cache (Find key pin t) s = Some (found, s') ->
  cnt key (if (found && pin)%bool then 1 else 0) s s' /\ (found = false -> item_at key (index (sw s').1) = None).
Proof.
  intros Hc Hr (w & E & ->)%on_cache_inv. pose proof (proj2 (proj2 Hc) key) as Hk. unfold room in Hr.
  destruct (Find_counts key pin t (sw s) found w (proj1 Hc) (proj1 (proj2 Hc)) ltac:(lia) E) as (C & _ & Hf & _).
  split; [apply cnt_intro; [done..|destruct (found && pin)%bool; lia]|]. intros Ef. by destruct (Hf Ef) as [? ->].
Qed.

Lemma Unpin_cnt key s u s' :
  counted s -> on_cache (Unpin key) s = Some (u, s') -> cnt key (if 0 <? refs_at key (index (sw s).1) then -1 else 0) s s'.
Proof.
  intros Hc (w & E & ->)%on_cache_inv. pose proof (proj2 (proj2 Hc) key) as Hk.
  destruct (Unpin_counts key (sw s) u w (proj1 Hc) (proj1 (proj2 Hc)) ltac:(lia) E) as [C _].
  apply cnt_intro; [done..|]. destruct (Z.ltb_spec 0 (refs_at key (index (sw s).1))); lia.
Qed.

Lemma Insert_cnt key size pin t s u s' :
  counted s -> room key s -> on_cache (InsertAndUpdate key size pin t) s = Some (u, s') ->
  cnt key (if (pin && bool_decide (item_at key (index (sw s).1) = None))%bool then 1 else 0) s s'.
Proof.
  intros Hc Hr (w & E & ->)%on_cache_inv. pose proof (proj2 (proj2 Hc) key) as Hk. unfold room in Hr.
  destruct (InsertAndUpdate_counts key size pin t (sw s) u w (proj1 Hc) (proj1 (proj2 Hc)) E) as [C _].
  apply cnt_intro; [done..|]. destruct (pin && _)%bool; lia.
Qed.

Lemma Update_cnt key size t s b s' : counted s -> on_cache (Update key size t) s = Some (b, s') -> cnt key 0 s s'.
Proof. intros Hc (w & E & ->)%on_cache_inv. apply cnt_zero; [done|]. eapply Update_counts; [apply Hc|exact E]. Qed.

Lemma loadObs_cnt path key fileSize fd bufSize isSync toBuffer x s r s' :
  counted s -> room key s -> item_at key (index (sw s).1) = None ->
  loadObs path key fileSize fd bufSize isSync toBuffer x s = Some (r, s') ->
  cnt key (if (isSync && bool_decide (r.1 = 0))%bool then 1 else 0) s s'.
Proof.
  intros Hc Hr Hi E. unfold loadObs in E. apply ost_bind_inv in E as (object & s0 & E0 & E).
  assert (s0 = s) as -> by (unfold ost_opt in E0; destruct (substr1 path); cbn in E0; congruence).
  apply ost_bind_inv in E as (r1 & s1 & E1 & E). pose proof (sys_cnt key _ _ _ _ Hc E1) as C1. apply sys_inv in E1 as [-> _].
  apply ost_bind_inv in E as (u & s2 & E2 & E). pose proof (sys_cnt key _ _ _ _ (proj1 (proj2 C1)) E2) as C2.
  pose proof (cnt_trans _ _ _ _ _ _ C1 C2) as C. apply sys_inv in E2 as [-> _]. cbn in E.
  apply ost_bind_inv in E as (size & s3 & E3 & E). apply ost_bind_inv in E as (v & s4 & E4 & [= <- <-]). cbn.
  assert (cnt key (if (isSync && bool_decide ((if size <? 0 then size else 0) = 0))%bool then 1 else 0) s s3) as C3.
  { destruct (Z.ltb_spec (s32 r1.1) 0) as [Hneg|Hpos].
    - apply ost_bind_inv in E3 as (e & s5 & E5 & [= <- <-]). pose proof (sys_cnt key _ _ _ _ (proj1 (proj2 C)) E5) as C5.
      rewrite andb_false_r. by apply (cnt_trans _ _ _ _ _ _ C C5).
    - apply ost_bind_inv in E3 as (e & s5 & E5 & [= <- <-]). apply Insert_cnt in E5; [|apply C|exact Hr].
      destruct (Z.ltb_spec (s32 r1.1) 0); [lia|]. rewrite bool_decide_true by done. cbn in E5. rewrite bool_decide_true in E5 by done.
      apply (cnt_trans _ _ _ _ _ _ C E5). }
  pose proof (evicts_cnt key _ _ _ _ (FreePreAllocSpace_only fileSize) (proj1 (proj2 C3)) E4) as C4.
  pose proof (cnt_trans _ _ _ _ _ _ C3 C4) as C5. by rewrite Z.add_0_r in C5.
Qed.

Lemma cnt_room key s s' : room key s -> cnt key 0 s s' -> room key s'.
Proof. intros Hr (C & _). unfold room in *. rewrite (ct_refs _ _ _ _ C), decide_True by done. lia. Qed.

Lemma load_cnt key path fileSize bufSize isSync toBuffer x s r s' :
  counted s -> room key s -> alone x -> load_from_storage key path fileSize bufSize isSync toBuffer x s = Some (r, s') ->
  cnt key (if (isSync && bool_decide (r.1 = 0))%bool then 1 else 0) s s'.
Proof.
  intros Hc Hr Ha E. unfold load_from_storage in E. destruct (negb isSync && locked x)%bool eqn:El.
  { injection E as <- <-. apply andb_true_iff in El as [->%negb_true_iff _]. by apply cnt_refl. }
  apply ost_bind_inv in E as (found & s1 & E1 & E). destruct (Find_cnt _ _ _ _ _ _ Hc Hr E1) as [C1 Hf].
  destruct found; [injection E as <- <-; cbn in *; by rewrite andb_true_r|]. cbn in C1. specialize (Hf eq_refl).
  pose proof (proj1 (proj2 C1)) as Hc1. pose proof (cnt_room _ _ _ Hr C1) as Hr1. rewrite Ha in E.
  apply ost_bind_inv in E as (granted & s2 & E2 & E). pose proof (evicts_cnt key _ _ _ _ (PreAllocSpace_only fileSize) Hc1 E2) as C2.
  pose proof (evicts_absent key _ _ _ _ (PreAllocSpace_only fileSize) Hc1 E2 Hf) as Hi2.
  pose proof (cnt_trans _ _ _ _ _ _ C1 C2) as C12. cbn in C12. pose proof (cnt_room _ _ _ Hr C12) as Hr2.
  destruct granted; cbn in E; [|injection E as <- <-; by rewrite andb_false_r].
  apply ost_bind_inv in E as (fd & s3 & E3 & E). pose proof (sys_cnt key _ _ _ _ (proj1 (proj2 C12)) E3) as C3.
  pose proof (cnt_trans _ _ _ _ _ _ C12 C3) as C13. cbn in C13. apply sys_inv in E3 as [-> _].
  destruct (Z.ltb_spec fd 0) as [Hfd|Hfd].
  - apply ost_bind_inv in E as (v & s4 & E4 & [= <- <-]). cbn. rewrite bool_decide_false, andb_false_r by lia.
    apply (cnt_trans _ _ _ _ _ _ C13). exact (evicts_cnt key _ _ _ _ (FreePreAllocSpace_only fileSize) (proj1 (proj2 C13)) E4).
  - destruct isSync.
    + apply loadObs_cnt in E; [|apply C13|exact Hr2|exact Hi2]. apply (cnt_trans _ _ _ _ _ _ C13 E).
    + apply ost_bind_inv in E as (v & s4 & [= <- <-] & [= <- <-]). exact C13.
Qed.

Lemma DownLoad_cnt isSync toBuffer x o s ret o' s' :
  counted s -> room (oi_inodeId o) s -> alone x -> DownLoadFromStorage isSync toBuffer x (o, s) = Some (ret, (o', s')) ->
  cnt (oi_inodeId o) (if (isSync && bool_decide (ret = 0))%bool then 1 else 0) s s' /\ exists b, o' = set_readBuffer b o.
Proof.
  intros Hc Hr Ha E. unfold DownLoadFromStorage in E. apply ost_bind_inv in E as (o1 & p1 & [= <- <-] & E).
  apply ost_bind_inv in E as (r & p2 & [E1 E2]%on_store_inv & E). apply load_cnt in E1; [|done..].
  apply ost_bind_inv in E as (u & p3 & [= _ <-] & [= <- <- <-]). cbn in *. rewrite E2. cbn. eauto.
Qed.

(** OpenFile cannot undo the pin of a file it has loaded itself when the file cannot
    be opened then. *)
Definition loads_first o : bool :=
  (negb (read_only (oi_oflags o)) && negb (has_flag (oi_oflags o) O_CREAT) && (0 <? oi_originalSize o))%bool.

Lemma u64_fd p flags (f : fs) : 0 <= (open_ p flags f).1 -> u64 (open_ p flags f).1 <> UINT64_MAX.
Proof. intros Hp. pose proof (open_int p flags f). rewrite wrap_small by (unfold in_range; lia). unfold UINT64_MAX. lia. Qed.

(** The references after the part of OpenFile for a file of this node. *)
Definition opened o (out : Z + Z) o' s s' : Prop :=
  oi_inodeId o' = oi_inodeId o /\ oi_writeStream o' = oi_writeStream o /\ oi_oflags o' = oi_oflags o /\ oi_nodeId o' = oi_nodeId o /\
  exists d, cnt (oi_inodeId o) d s s' /\
    match out with
    | inr _ => d = if decide (oi_physicalFd o' = UINT64_MAX) then 0 else 1
    | inl e => e <> 0 /\ (d = 0 \/ d = 1 /\ loads_first o = true)
    end.

Lemma opened_step o out o' s s1 s' : cnt (oi_inodeId o) 0 s s1 -> opened o out o' s1 s' -> opened o out o' s s'.
Proof.
  intros C (? & ? & ? & ? & d & Hd & Ho). split_and!; [done..|]. exists d. split; [|done]. by apply (cnt_trans _ 0 d s s1 s').
Qed.

(** A file of the cache is opened. *)
Lemma open_hit_cnt o s s1 s' out o' :
  counted s -> cnt (oi_inodeId o) 1 s s1 ->
  (localFd ← on_store (sys (open_ (GetFilePath (oi_inodeId o)) (oi_oflags o)));
   if localFd <? 0 then _ ← on_store (on_cache (Unpin (oi_inodeId o))); mret (inl localFd) else
   _ ← assign (set_physicalFd (u64 localFd)); mret (inr 0 : Z + Z)) (o, s1) = Some (out, (o', s')) ->
  opened o out o' s s'.
Proof.
  intros Hc C E. apply ost_bind_inv in E as (fd & p2 & [E2 Eo]%on_store_inv & E). destruct p2 as [o2 s2]. cbn in *. subst o2.
  pose proof (cnt_trans _ _ _ _ _ _ C (sys_cnt _ _ _ _ _ (proj1 (proj2 C)) E2)) as C2. apply sys_inv in E2 as [-> Efd].
  destruct (Z.ltb_spec fd 0) as [Hfd|Hfd].
  - apply ost_bind_inv in E as (u & p3 & [E3 Eo]%on_store_inv & [= <- ->]). cbn in *. subst o'.
    pose proof (Unpin_cnt _ _ _ _ (proj1 (proj2 C2)) E3) as C3.
    assert (refs_at (oi_inodeId o) (index (sw s1).1) = refs_at (oi_inodeId o) (index (sw s).1) + 1) as Er.
    { destruct C as (C & _). by rewrite (ct_refs _ _ _ _ C), decide_True. }
    pose proof (proj2 (proj2 Hc) (oi_inodeId o)) as Hpos. cbn in C3. rewrite Er in C3.
    destruct (Z.ltb_spec 0 (refs_at (oi_inodeId o) (index (sw s).1) + 1)); [|lia].
    split_and!; [done..|]. exists (1 + 0 + -1). split; [apply (cnt_trans _ _ _ _ _ _ C2 C3)|]. split; [lia|by left].
  - apply ost_bind_inv in E as (u & p3 & [= _ <-] & [= <- <- <-]). split_and!; [done..|]. exists (1 + 0). split; [done|]. cbn.
    rewrite decide_False; [done|]. subst fd. by apply u64_fd.
Qed.

(** A file that is not in the cache is created or loaded, and opened for writing.
    [o1] is [o] up to its buffer. *)
Lemma open_new_cnt x o o1 s s1 s' d out o' :
  cnt (oi_inodeId o) d s s1 -> (exists b, o1 = set_readBuffer b o) -> room (oi_inodeId o) s -> counted s ->
  (if ((oi_originalSize o =? 0) || has_flag (oi_oflags o) O_CREAT)%bool
   then d = 0 /\ item_at (oi_inodeId o) (index (sw s1).1) = None else d = 1 /\ loads_first o = true) ->
  (localFd ← on_store (sys (open_ (GetFilePath (oi_inodeId o)) (Z.lor (oi_oflags o) O_CREAT)));
   if localFd <? 0 then mret (inl localFd) else
   _ ← assign (set_physicalFd (u64 localFd));
   _ ← (if ((oi_originalSize o =? 0) || has_flag (oi_oflags o) O_CREAT)%bool
        then on_store (on_cache (InsertAndUpdate (oi_inodeId o) 0 true (now (env_ctx x)))) else mret tt);
   mret (inr 0 : Z + Z)) (o1, s1) = Some (out, (o', s')) ->
  opened o out o' s s'.
Proof.
  intros C [b ->] Hr Hc Hd E. apply ost_bind_inv in E as (fd & p2 & [E2 Eo]%on_store_inv & E). destruct p2 as [o2 s2]. cbn in *. subst o2.
  pose proof (cnt_trans _ _ _ _ _ _ C (sys_cnt _ _ _ _ _ (proj1 (proj2 C)) E2)) as C2. rewrite Z.add_0_r in C2. apply sys_inv in E2 as [-> Efd].
  destruct (Z.ltb_spec fd 0) as [Hfd|Hfd].
  - injection E as <- <- <-. split_and!; [done..|]. exists d. split; [done|]. split; [lia|]. case_match; [by left; destruct Hd|by right].
  - apply ost_bind_inv in E as (u & p3 & [= _ <-] & E). apply ost_bind_inv in E as (v & p4 & E4 & [= <- ->]).
    assert (u64 fd <> UINT64_MAX) as Hmax by (subst fd; by apply u64_fd).
    case_match; [destruct Hd as [-> Hi]|destruct Hd as [-> Hl]].
    + apply on_store_inv in E4 as [E4 Eo]. cbn in *. subst o'. pose proof (cnt_room _ _ _ Hr C2) as Hr2.
      apply Insert_cnt in E4; [|apply C2|exact Hr2]. cbn in E4. rewrite bool_decide_true in E4 by done.
      split_and!; [done..|]. exists (0 + 1). split; [by apply (cnt_trans _ _ _ _ _ _ C2 E4)|]. cbn. by rewrite decide_False.
    + injection E4 as _ <- <-. split_and!; [done..|]. exists 1. split; [done|]. cbn. by rewrite decide_False.
Qed.

Lemma open_local_cnt x o s out o' s' :
  counted s -> room (oi_inodeId o) s -> alone x -> 0 <= oi_originalSize o -> oi_physicalFd o = UINT64_MAX ->
  open_local cfg x (o, s) = Some (out, (o', s')) -> opened o out o' s s'.
Proof.
  intros Hc Hr Ha Hs Hfd E. unfold open_local in E. apply ost_bind_inv in E as (o1 & p1 & [= <- <-] & E).
  apply ost_bind_inv in E as (u & p1 & E1 & E).
  assert (cnt (oi_inodeId o) 0 s p1.2 /\ p1.1 = o) as [C1 Eo].
  { destruct (oi_nodeFail o); [|injection E1 as _ <-; split; [by apply cnt_refl|done]]. apply on_store_inv in E1 as [E1 Eo]. split; [|done].
    by eapply evicts_cnt; [apply DeleteOld_only|..]. }
  destruct p1 as [o1 s1]. cbn in *. subst o1. apply (opened_step o out o' s s1 s'); [done|].
  pose proof (cnt_room _ _ _ Hr C1) as Hr1. pose proof (proj1 (proj2 C1)) as Hc1.
  apply ost_bind_inv in E as (found & p2 & [E2 Eo]%on_store_inv & E). destruct p2 as [o2 s2]. cbn in *. subst o2.
  destruct (Find_cnt _ _ _ _ _ _ Hc1 Hr1 E2) as [C2 Hf]. destruct found; [by apply (open_hit_cnt o s1 s2 s')|].
  cbn in C2. specialize (Hf eq_refl). pose proof (cnt_room _ _ _ Hr1 C2) as Hr2. pose proof (proj1 (proj2 C2)) as Hc2.
  apply (opened_step o out o' s1 s2 s'); [done|].
  destruct (read_only (oi_oflags o)) eqn:Ero; cbn in E.
  - destruct (persistToStorage cfg); cbn in E.
    + apply ost_bind_inv in E as (ret & p3 & E3 & [= <- ->]).
      apply DownLoad_cnt in E3 as [C3 [b ->]]; [|done..]. split_and!; [done..|]. exists 0. split; [done|].
      destruct (decide (ret <> 0)); [by split; [|left]|]. cbn. by rewrite decide_True.
    + injection E as <- <- <-. split_and!; [done..|]. exists 0. split; [by apply cnt_refl|by split; [|left]].
  - apply ost_bind_inv in E as (ret & p3 & E3 & E). destruct p3 as [o3 s3].
    assert (cnt (oi_inodeId o) (if ((oi_originalSize o =? 0) || has_flag (oi_oflags o) O_CREAT)%bool then 0 else if decide (ret = 0) then 1 else 0) s2 s3 /\
      (exists b, o3 = set_readBuffer b o) /\ (((oi_originalSize o =? 0) || has_flag (oi_oflags o) O_CREAT)%bool = true -> ret = 0 /\ s3 = s2) /\
      (((oi_originalSize o =? 0) || has_flag (oi_oflags o) O_CREAT)%bool = false -> loads_first o = true)) as (C3 & Hb & Hn & Hl).
    { assert (exists b, o = set_readBuffer b o) as Hself by (exists (oi_readBuffer o); by destruct o).
      unfold loads_first. rewrite Ero. destruct (has_flag (oi_oflags o) O_CREAT); cbn in *.
      - rewrite orb_true_r. injection E3 as <- <- <-. split_and!; [by apply cnt_refl|done|done|done].
      - rewrite orb_false_r. destruct (Z.ltb_spec 0 (oi_originalSize o)) as [Hp|Hp].
        + rewrite (proj2 (Z.eqb_neq _ _)) by lia. destruct (persistToStorage cfg); cbn in E3.
          * apply DownLoad_cnt in E3 as [C3 Hb]; [|done..]. cbn in C3. split_and!; [|done|done|done]. destruct (decide (ret = 0)); [by rewrite bool_decide_true in C3|].
            by rewrite bool_decide_false in C3.
          * injection E3 as <- <- <-. split_and!; [by apply cnt_refl|done|done|done].
        + rewrite (proj2 (Z.eqb_eq _ _)) by lia. injection E3 as <- <- <-. split_and!; [by apply cnt_refl|done|done|done]. }
    destruct (decide (ret <> 0)) as [Hret|Hret].
    + injection E as <- <- <-. destruct Hb as [b ->]. split_and!; [done..|]. exists 0. split; [|by split; [|left]].
      case_match; [done|]. by rewrite decide_False in C3.
    + assert (ret = 0) as -> by (by destruct (decide (ret = 0))). rewrite decide_True in C3 by done.
      eapply (open_new_cnt x o o3 s2 s3); [exact C3|done|done|done| |exact E].
      case_match; [|by split; [|apply Hl]]. split; [done|]. by destruct Hn as [_ ->].
Qed.

Lemma OpenFile_cnt x o s ret o' s' :
  counted s -> room (oi_inodeId o) s -> alone x -> 0 <= oi_originalSize o -> oi_physicalFd o = UINT64_MAX ->
  ws_physicalFd (oi_writeStream o) = UINT64_MAX -> IsLocal (oi_nodeId o) (sn s) = true -> nodeId (sn s) <> -1 ->
  OpenFile cfg x (o, s) = Some (ret, (o', s')) ->
  oi_inodeId o' = oi_inodeId o /\ oi_nodeId o' = oi_nodeId o /\ exists d, cnt (oi_inodeId o) d s s' /\
    (ret = 0 -> d = if decide (oi_physicalFd o' = UINT64_MAX) then 0 else 1) /\ (ret <> 0 -> d = 0 \/ d = 1 /\ loads_first o = true).
Proof.
  intros Hc Hr Ha Hs Hfd Hws Hl Hn E. unfold OpenFile in E. rewrite open_file_S in E.
  apply ost_bind_inv in E as (o1 & p1 & [= <- <-] & E). rewrite decide_False in E by (rewrite Hfd; auto).
  rewrite open_at_local in E by done. apply ost_bind_inv in E as (out & p1 & E1 & E). destruct p1 as [o1 s1].
  apply open_local_cnt in E1 as (I1 & I2 & I3 & I4 & d & Cd & Ho); [|done..]. destruct out as [e|z].
  - injection E as <- <- <-. destruct Ho as [He Ho]. split_and!; [done..|]. by exists d.
  - unfold set_up_stream in E. apply ost_bind_inv in E as (o2 & p2 & [= <- <-] & E). unfold SetFd, SetDirect, SetInodeId in E. cbn in E.
    rewrite I2, Hws, decide_False in E by naive_solver. apply ost_bind_inv in E as (u & p3 & [= _ <-] & [= <- <- <-]).
    split_and!; [done..|]. exists d. split_and!; [done|by intros _|done].
Qed.

(** ** Close *)

(** Operations of the cache that change no references. *)
Definition no_pins {A} (m : act A) : Prop := forall w a w', m w = Some (a, w') -> wf (index w.1) -> refs_ok (index w.1) ->
  (forall k, counts k 0 w w') /\ refs_ok (index w'.1).

Lemma no_pins_bind {A B} (m : act A) (g : A -> act B) : no_pins m -> (forall a, no_pins (g a)) -> no_pins (m ≫= g).
Proof.
  intros Hm Hg w b w' E Hw Hr. apply act_bind_inv in E as (a & w1 & E1 & E2). destruct (Hm _ _ _ E1 Hw Hr) as [C1 R1].
  destruct (Hg a _ _ _ E2 (ct_wf _ _ _ _ (C1 0)) R1) as [C2 R2]. split; [|done]. intros k. by apply (counts_trans k 0 0 w w1 w').
Qed.

Lemma no_pins_intro {A} (m : act A) key : (forall w a w', m w = Some (a, w') -> wf (index w.1) -> counts key 0 w w') -> no_pins m.
Proof.
  intros Hm w a w' E Hw Hr. pose proof (Hm _ _ _ E Hw) as [W S R].
  assert (forall k, refs_at k (index w'.1) = refs_at k (index w.1)) as Er by (intros k; rewrite R; case_decide; lia).
  split; [|intros k; rewrite Er; apply Hr]. intros k. split; [done..|]. intros k'. rewrite Er. case_decide; lia.
Qed.

Lemma no_pins_evicts {A} (m : act A) : evicts_only m -> no_pins m.
Proof.
  intros Hm w a w' E Hw Hr. destruct (Hm _ _ _ E Hw) as (W & V & S & _).
  assert (forall k, counts k 0 w w') as C by (intros k; by apply counts_evicted). split; [done|].
  apply (counts_ok 0 0 w w'); [done..|]. rewrite Z.add_0_r. apply Hr.
Qed.

Lemma no_pins_ret {A} (a : A) : no_pins (mret a).
Proof. apply no_pins_evicts, evicts_only_ret. Qed.

Lemma no_pins_call {A} (g : fs -> A * fs) : no_pins (call g).
Proof. apply (no_pins_intro _ 0). intros w a w' E Hw. unfold call in E. destruct (g w.2). injection E as <- <-. by apply counts_same. Qed.

Lemma no_pins_retry (g : fs -> Z * fs) n : forall r, no_pins (rpc_retry n (call g) r).
Proof.
  induction n as [|n IH]; intros r; cbn [rpc_retry]; [apply no_pins_ret|]. case_decide; [|apply no_pins_ret].
  apply no_pins_bind; [apply no_pins_call|done].
Qed.

Lemma no_pins_PersistToFile ws b size off cur x : alone x -> no_pins (PersistToFile ws b size off cur (env_ctx x)).
Proof.
  intros Ha. unfold PersistToFile. case_match; [apply no_pins_ret|]. destruct b as [b|]; [|apply no_pins_ret].
  destruct (client ws) as [c|]; [apply no_pins_retry|]. rewrite Ha.
  assert (forall size r, no_pins (_ ← FreePreAllocSpace size; mret (r : Z))) as Hfree.
  { intros n r. apply no_pins_bind; [apply no_pins_evicts, FreePreAllocSpace_only|]. intros _. apply no_pins_ret. }
  apply no_pins_bind; [apply no_pins_evicts, PreAllocSpace_only|]. intros [|]; cbn; [|apply no_pins_ret].
  apply no_pins_bind; [apply no_pins_call|]. intros r. case_match; [apply Hfree|].
  apply no_pins_bind; [eapply no_pins_intro; intros w b' w' E Hw; by eapply Add_counts|]. intros [|]; apply Hfree.
Qed.

Lemma no_pins_Complete ws cur fl sy x : alone x -> no_pins (Complete ws cur fl sy (env_ctx x)).
Proof.
  intros Ha. unfold Complete. destruct (client ws) as [c|].
  - case_match; (apply no_pins_bind; [first [apply no_pins_call|apply no_pins_retry]|intros ?; apply no_pins_ret]).
  - unfold Persist. case_decide; [apply no_pins_ret|]. apply no_pins_bind; [|intros ?; apply no_pins_ret].
    case_match; [apply no_pins_ret|by apply no_pins_PersistToFile].
Qed.

Lemma no_pins_cnt {A} key (m : act A) s a s' : no_pins m -> counted s -> on_cache m s = Some (a, s') -> cnt key 0 s s'.
Proof.
  intros Hm Hc (w & E & ->)%on_cache_inv. apply cnt_zero; [done|]. by eapply Hm; [exact E|apply Hc..].
Qed.

Lemma Insert_nopin_cnt key size t s u s' :
  counted s -> on_cache (InsertAndUpdate key size false t) s = Some (u, s') -> cnt key 0 s s'.
Proof.
  intros Hc (w & E & ->)%on_cache_inv. apply cnt_zero; [done|]. 
  by destruct (InsertAndUpdate_counts key size false t (sw s) u w (proj1 Hc) (proj1 (proj2 Hc)) E).
Qed.

Definition same_file o o' : Prop :=
  oi_inodeId o' = oi_inodeId o /\ oi_nodeId o' = oi_nodeId o /\ oi_physicalFd o' = oi_physicalFd o.

(** A step of a close that changes no references. *)
Definition closing key (p p' : OpenInstance * st) : Prop := same_file p.1 p'.1 /\ cnt key 0 p.2 p'.2.

Lemma closing_trans key p p1 p2 : closing key p p1 -> closing key p1 p2 -> closing key p p2.
Proof.
  intros [(A1 & A2 & A3) C1] [(B1 & B2 & B3) C2]. split; [split_and!; congruence|]. by apply (cnt_trans key 0 0 p.2 p1.2 p2.2).
Qed.

Definition closes {A} (m : oact A) : Prop := forall key p a p', counted p.2 -> m p = Some (a, p') -> closing key p p'.

Lemma closes_bind {A B} (m : oact A) (g : A -> oact B) : closes m -> (forall a, closes (g a)) -> closes (m ≫= g).
Proof.
  intros Hm Hg key p b p' Hc E. apply ost_bind_inv in E as (a & p1 & E1 & E2). pose proof (Hm key _ _ _ Hc E1) as C1.
  eapply closing_trans; [exact C1|]. eapply Hg; [apply C1|exact E2].
Qed.

Lemma closes_ret {A} (a : A) : closes (mret a).
Proof. intros key p b p' Hc [= _ <-]. split; [done|by apply cnt_refl]. Qed.
Lemma closes_this : closes this.
Proof. intros key p b p' Hc [= _ <-]. split; [done|by apply cnt_refl]. Qed.
Lemma closes_assign f : (forall o, same_file o (f o)) -> closes (assign f).
Proof. intros Hf key p b p' Hc [= _ <-]. split; [apply Hf|by apply cnt_refl]. Qed.
Lemma closes_store {A} (m : bact A) : (forall key s a s', counted s -> m s = Some (a, s') -> cnt key 0 s s') -> closes (on_store m).
Proof. intros Hm key p a p' Hc [E1 E2]%on_store_inv. split; [by rewrite E2|by eapply Hm]. Qed.
Lemma closes_is_local : closes is_local.
Proof.
  intros key [o s] b p' Hc E. unfold is_local, this, on_store, nodes_, mbind, ost_bind in E. cbn in E. injection E as _ <-.
  split; [done|by apply cnt_refl].
Qed.
Lemma closes_if {A} (b : bool) (m m' : oact A) : closes m -> closes m' -> closes (if b then m else m').
Proof. by destruct b. Qed.

Lemma closes_sys {A} (g : fs -> A * fs) : closes (on_store (sys g)).
Proof. apply closes_store. intros. by eapply sys_cnt. Qed.

(** What CloseTmpFiles does before it closes or flushes the file of this node. *)
Lemma closes_flush_local isSync ret x : closes (close_local cfg true isSync ret x).
Proof.
  unfold close_local. apply closes_bind; [apply closes_this|]. intros o. cbn [negb].
  apply closes_bind; [apply closes_store; intros key s a s' Hc E; eapply cnt_other, Insert_nopin_cnt; [exact Hc|exact E]|]. intros _.
  apply closes_if; [|apply closes_ret]. apply closes_bind; [apply closes_if; [apply closes_sys|apply closes_ret]|]. intros _.
  apply closes_if; [|apply closes_ret]. apply closes_bind; [|intros r; apply closes_bind; [by apply closes_assign|intros _; apply closes_ret]].
  apply closes_store. intros key s a s' Hc E. unfold FlushToStorage in E. apply ost_bind_inv in E as (ob & s1 & E1 & E).
  assert (s1 = s) as -> by (unfold ost_opt in E1; destruct (substr1 (oi_path o)); cbn in E1; congruence).
  apply ost_bind_inv in E as (r & s2 & E2 & [= _ <-]). by eapply sys_cnt.
Qed.

Lemma closes_complete isFlush isSync ret x : alone x ->
  closes (o ← this;
          r ← on_store (on_cache (Complete (oi_writeStream o) (oi_currentSize o) isFlush isSync (env_ctx x)));
          _ ← assign (set_writeStream r.2);
          if decide (r.1 <> 0) then _ ← assign (set_writeFail true); mret r.1 else mret ret).
Proof.
  intros Ha. apply closes_bind; [apply closes_this|]. intros o.
  apply closes_bind; [apply closes_store; intros key s a s' Hc E; by eapply no_pins_cnt; [apply no_pins_Complete|..]|]. intros r.
  apply closes_bind; [by apply closes_assign|]. intros _. case_decide; [|apply closes_ret].
  apply closes_bind; [by apply closes_assign|]. intros _. apply closes_ret.
Qed.

Lemma closes_flush m isSync x : alone x -> closes (close_body cfg m true isSync x).
Proof.
  intros Ha. unfold close_body. apply closes_bind; [apply closes_this|]. intros o. case_decide; [apply closes_ret|].
  case_decide; [apply closes_ret|]. apply closes_bind; [apply closes_bind; [by apply closes_assign|intros _; apply closes_ret]|].
  intros ret. apply closes_bind; [apply closes_ret|]. intros _.
  apply closes_bind; [apply closes_if; [apply closes_ret|by apply closes_complete]|]. intros ret'.
  apply closes_bind; [apply closes_is_local|]. intros l. apply closes_if; [apply closes_flush_local|apply closes_ret].
Qed.

Lemma closes_stop o : closes (if (negb false && negb (oi_isRemoteCall o))%bool then
         _ ← StopPreReadThreaded; assign (fun o => set_readStream (WaitPushEnded (oi_readStream o)) o) else mret tt).
Proof.
  apply closes_if; [|apply closes_ret]. apply closes_bind; [by apply closes_assign|]. intros _. by apply closes_assign.
Qed.

Lemma close_cnt m isSync x o s ret p' :
  alone x -> closes m -> counted s -> oi_physicalFd o <> UINT64_MAX -> oi_nodeId o <> -1 -> IsLocal (oi_nodeId o) (sn s) = true ->
  close_body cfg m false isSync x (o, s) = Some (ret, p') ->
  cnt (oi_inodeId o) (if 0 <? refs_at (oi_inodeId o) (index (sw s).1) then -1 else 0) s p'.2.
Proof.
  intros Ha Hm Hc Hfd Hn Hl E. set (key := oi_inodeId o). unfold close_body in E. apply ost_bind_inv in E as (o1 & p1 & [= <- <-] & E).
  rewrite !decide_False in E by done. apply ost_bind_inv in E as (r1 & p1 & E1 & E).
  assert (closing key (o, s) p1) as C1.
  { destruct (oi_isFlushed o); cbn in E1; [by eapply closes_ret; [|exact E1]|].
    eapply (closes_bind m); [done| |exact Hc|exact E1]. intros r. apply closes_bind; [|intros _; apply closes_ret].
    case_decide; [by apply closes_assign|apply closes_ret]. }
  apply ost_bind_inv in E as (u & p2 & E2 & E). pose proof (closing_trans _ _ _ _ C1 (closes_stop o key _ _ _ (proj1 (proj2 (proj2 C1))) E2)) as C2.
  apply ost_bind_inv in E as (r3 & p3 & E3 & E).
  assert (closing key (o, s) p3) as C3.
  { eapply closing_trans; [exact C2|]. eapply (closes_if (oi_isRemoteCall o)); [apply closes_ret|by apply closes_complete|apply C2|exact E3]. }
  apply ost_bind_inv in E as (l & p4 & E4 & E). destruct C3 as [(I1 & I2 & I3) C3]. destruct p3 as [o3 s3]. cbn [fst snd] in *.
  unfold is_local, this, on_store, nodes_, mbind, ost_bind in E4. cbn in E4. injection E4 as <- <-. destruct C3 as (D3 & G3 & S3).
  rewrite I2, S3, Hl in E. unfold close_local in E. apply ost_bind_inv in E as (o4 & p4 & [= <- <-] & E). cbn [negb] in E.
  apply ost_bind_inv in E as (v & p5 & [E5 Eo]%on_store_inv & E). apply ost_bind_inv in E as (z & p6 & [E6 _]%on_store_inv & [= _ <-]).
  cbn [fst snd] in *. pose proof (sys_cnt key _ _ _ _ G3 E5) as C5. apply sys_inv in E5 as [E5 _]. rewrite I1 in E6.
  pose proof (Unpin_cnt _ _ _ _ (proj1 (proj2 C5)) E6) as C6.
  assert (refs_at key (index (sw p5.2).1) = refs_at key (index (sw s).1)) as Er.
  { rewrite E5. cbn. rewrite (ct_refs _ _ _ _ D3), decide_True by done. lia. }
  fold key in C6. rewrite Er in C6. pose proof (cnt_trans key 0 0 s s3 p5.2 ltac:(by split_and!; [|apply G3..|]) C5) as C7.
  by apply (cnt_trans _ _ _ _ _ _ C7 C6).
Qed.

Lemma CloseTmpFiles_cnt isSync x o s ret p' :
  alone x -> counted s -> oi_physicalFd o <> UINT64_MAX -> oi_nodeId o <> -1 -> IsLocal (oi_nodeId o) (sn s) = true ->
  CloseTmpFiles cfg false isSync x (o, s) = Some (ret, p') ->
  cnt (oi_inodeId o) (if 0 <? refs_at (oi_inodeId o) (index (sw s).1) then -1 else 0) s p'.2.
Proof. intros Ha. apply close_cnt; [done|by apply closes_flush]. Qed.


End pins.

Module PinsDemo.

Import Node.

Lemma node_counted : counted node_st.
Proof.
  split_and!; [apply node_started_ok|by vm_compute|]. intros k.
  assert (inodeToCacheIter (index (sw node_st).1) = ∅) as E by (by vm_compute). unfold refs_at, item_at. by rewrite E, lookup_empty.
Qed.


End PinsDemo.
