(* ===== verification/IoServer.v ===== *)
(** * The server of a data node

    falcon_store/src/brpc/brpc_main.cpp: the handlers of the calls that IoClient.v
    makes, over the table of open files (FalconFd.v) and the store (FalconStore.v) of
    the node.  A handler is a function of the request and of the state of the server
    to the reply and the new state; [None] as in FalconStore.v.  A handler is one
    step: those that run at the same time are taken one after the other. *)

From S2P Require Import FalconPrelude DiskCache StoreNode IoClient WriteStream ReadStream FalconFd FalconStore.

Definition ALIGNMENT : Z := 512.

Section server.

Context `{StoreIO}.

Record server : Type := {
  table : FalconFd;
  store_ : st
}.

Variable cfg : config.

Definition set_table (t : FalconFd) (v : server) : server := {| table := t; store_ := store_ v |}.

Definition on_table {A} (f : FalconFd -> A * FalconFd) : ost server A := fun v => let '(a, t) := f (table v) in Some (a, set_table t v).
Definition on_table_opt {A} (f : FalconFd -> option (A * FalconFd)) : ost server A := fun v => '(a, t) ← f (table v); Some (a, set_table t v).
Definition in_store {A} (m : bact A) : ost server A := fun v => '(a, s) ← m (store_ v); Some (a, {| table := table v; store_ := s |}).

(** An operation on the instance that a pointer leads to. *)
Definition with_instance {A} (h : nat) (m : oact A) : ost server A := fun v =>
  o ← heap (table v) !! h;
  '(a, (o', s)) ← m (o, store_ v);
  Some (a, {| table := set_cell h o' (table v); store_ := s |}).

(** The instance of a descriptor: minus the error when there is none, or when it
    was closed. *)
Definition find_open (fd : Z) : ost server (Z + nat) := fun v =>
  match GetOpenInstanceByFd fd (table v) with
  | None => Some (inl (- EBADF), v)
  | Some h => o ← heap (table v) !! h; Some (if oi_isClosed o then inl (- ETIMEDOUT) else inr h, v)
  end.

Definition count_write : oact unit := assign (fun o => set_writeCnt (s32 (oi_writeCnt o + 1)) o).

(** [mem] is whether make_shared has memory. *)
Definition handle_OpenFile (request : OpenRequest) (mem : bool) (x : env) : ost server OpenReply :=
  h ← on_table (WaitGetNewOpenInstance false mem);
  match h with
  | None => mret {| or_error_code := - ENOMEM; or_physical_fd := 0 |}
  | Some h =>
      nd ← in_store nodes_;
      ret ← with_instance h (
        _ ← assign (fun o =>
          let o := set_oflags (or_oflags request) (set_path (or_path request) (set_inodeId (or_inode_id request) o)) in
          let o := set_currentSize (or_size request) (set_originalSize (or_size request) (set_physicalFd UINT64_MAX o)) in
          set_nodeFail (or_node_fail request) (set_isRemoteCall true (set_nodeId (GetNodeId nd) (set_directReadFile true o))));
        OpenFile cfg x);
      if decide (ret <> 0) then mret {| or_error_code := ret; or_physical_fd := 0 |} else
      fd ← on_table_opt (AttachFd_instance h);
      _ ← with_instance h (assign (set_isOpened true));
      mret {| or_error_code := 0; or_physical_fd := fd |}
  end.

Definition handle_CloseFile (request : CloseRequest) (buffer : list Z) (x : env) : ost server Z :=
  found ← find_open (cr_physical_fd request);
  match found with
  | inl e => mret e
  | inr h =>
      ret ← (match buffer with
             | [] => mret 0
             | _ => with_instance h (_ ← count_write; WriteLocalFileForBrpc buffer (s64 (cr_offset request)) x)
             end);
      closeRet ← with_instance h (CloseTmpFiles cfg (cr_flush request) (cr_sync request) x);
      let ret := if decide (ret = 0) then closeRet else ret in
      if cr_flush request then mret ret else
      _ ← with_instance h (assign (set_isClosed true));
      _ ← on_table_opt (DeleteOpenInstance (cr_physical_fd request) false);
      mret ret
  end.

(** The code and the attachment. *)
Definition handle_ReadFile (request : ReadRequest) (x : env) : ost server (Z * list Z) :=
  let readSize := s32 (rr_read_size request) in
  if readSize <? 0 then mret (- EAGAIN, []) else
  found ← find_open (rr_physical_fd request);
  match found with
  | inl e => mret (e, [])
  | inr h =>
      r ← with_instance h (
        o ← this;
        let allocSize := if has_flag (oi_oflags o) O_DIRECT then (readSize + ALIGNMENT - 1) / ALIGNMENT * ALIGNMENT else readSize in
        if negb (alloc x) then mret (- ENOMEM, []) else
        r ← ReadFileLR cfg (s64 (rr_offset request)) allocSize x;
        mret (s32 r.1, r.2));
      mret (if r.1 <? 0 then (r.1, []) else (0, take (Z.to_nat r.1) r.2))
  end.

(** [buffer] is what is in the memory that was allocated, [readSize] bytes. *)
Definition handle_ReadSmallFile (request : ReadSmallFileRequest) (buffer : list Z) (x : env) : ost server (Z * list Z) :=
  let readSize := s32 (rs_read_size request) in
  if ((readSize <? 0) || (s32 (READ_BIGFILE_SIZE cfg) <? readSize))%bool then mret (- EAGAIN, []) else
  if (has_flag (rs_oflags request) O_DIRECT && negb (alloc x))%bool then mret (- ENOMEM, []) else
  r ← in_store (ReadSmallFilesForBrpc cfg (rs_inode_id request) (rs_path request) readSize (rs_oflags request) (rs_node_fail request) x);
  mret (if r.1 <? 0 then (r.1, []) else (0, take (Z.to_nat readSize) (r.2 ++ drop (length r.2) buffer))).

Definition handle_WriteFile (request : WriteRequest) (buffer : list Z) (x : env) : ost server WriteReply :=
  found ← find_open (wr_physical_fd request);
  match found with
  | inl e => mret {| wr_error_code := e; wr_write_size := 0 |}
  | inr h =>
      ret ← with_instance h (_ ← count_write; WriteLocalFileForBrpc buffer (s64 (wr_offset request)) x);
      mret (if ret <? 0 then {| wr_error_code := ret; wr_write_size := 0 |}
            else {| wr_error_code := 0; wr_write_size := u64 (s32 (Z.of_nat (length buffer))) |})
  end.

Definition handle_DeleteFile (request : DeleteRequest) (x : env) : ost server Z :=
  in_store (DeleteFiles cfg (dr_inode_id request) (-1) (dr_path request) x).

Definition handle_StatFS (path : string) : ost server (Z * StatFSBuf) :=
  r ← in_store (StatFSForBrpc cfg path zero_stat);
  mret (if r.1 <? 0 then (r.1, zero_stat) else (0, r.2)).

Definition handle_TruncateOpenInstance (request : TruncateRequest) (x : env) : ost server Z :=
  found ← find_open (tr_physical_fd request);
  match found with
  | inl e => mret e
  | inr h => with_instance h (TruncateOpenInstance (s64 (tr_size request)) x)
  end.

Definition handle_TruncateFile (request : TruncateRequest) (x : env) : ost server Z :=
  found ← find_open (tr_physical_fd request);
  match found with
  | inl e => mret e
  | inr h => with_instance h (_ ← count_write; TruncateFile cfg (s64 (tr_size request)) x)
  end.

Definition handle_CheckConnection : ost server Z := mret 0.

Definition handle_StatCluster (scatter : bool) (node_id : Z) (stored : list Z) : ost server (Z * list Z) :=
  in_store (StatCluster node_id stored [] scatter).

End server.

Arguments server {_}.
