(* ===== verification/ServerFile.v ===== *)
(** * A file that is open at a server

    What the handlers of IoServer.v do to the bytes of a file that a client has
    opened: a write that returns 0 has written its bytes, one that fails has written
    a part of them at most, and nothing else that the server does for the client, in
    particular no eviction, changes the file. *)

From S2P Require Import FalconPrelude DiskCache DiskCacheCorrect CachePins StoreNode IoClient WriteStream WriteStreamCorrect.
From S2P Require Import FileBytes ReadStream FalconFd FalconStore StoreSpace StoreDemo StorePins IoServer.

(** Files and descriptors: [file_bytes] is the file at a path, [refers] that a
    descriptor is open on it.  What is documented of the calls: open returns a
    descriptor of the file, a write puts a first
    part of its bytes where it is told to and returns how many, and the others leave
    the file alone. *)
Class FileLaws `{StoreIO} : Type := {
  file_bytes : string -> fs -> list Z;
  refers : Z -> string -> fs -> Prop;
  open_law p flags f : 0 <= (open_ p flags f).1 -> refers (open_ p flags f).1 p (open_ p flags f).2;
  pcut_law fd p b o f : refers fd p f -> 0 <= o ->
    let r := pcut fd b o (Z.of_nat (length b)) f in
    refers fd p r.2 /\ file_bytes p r.2 = write_at (file_bytes p f) (Z.to_nat o) (take (Z.to_nat r.1) b);
  remove_law p q f : p <> q ->
    file_bytes q (remove p f).2 = file_bytes q f /\ forall fd, refers fd q f -> refers fd q (remove p f).2;
  close_law fd p f : file_bytes p (close_ fd f) = file_bytes p f;
  fsync_law fd p f : file_bytes p (fsync fd f) = file_bytes p f /\ forall fd', refers fd' p f -> refers fd' p (fsync fd f);
  PutFile_law a b p f : file_bytes p (PutFile a b f).2 = file_bytes p f /\ forall fd, refers fd p f -> refers fd p (PutFile a b f).2
}.

Section open_file.

Context `{StoreIO} `{!CacheFsLaws} `{!StoreLaws} `{!FileLaws} (cfg : config).

(** The inode [k] is open as [kfd] on this node, which is number [n]. *)
Context (k kfd n : Z).

Implicit Types (s : st) (x : env) (o : OpenInstance) (B : list Z).

Record inst o : Prop := {
  in_closed : oi_isClosed o = false;
  in_remote : oi_isRemoteCall o = true;
  in_inode : oi_inodeId o = k;
  in_fd : oi_physicalFd o = kfd;
  in_direct : has_flag (oi_oflags o) O_DIRECT = false;
  in_node : oi_nodeId o = n;
  in_path : named cfg (oi_path o);
  in_size : 0 <= oi_currentSize o < 2 ^ 64
}.

(** Nothing evicts the file: the cache is off, or has a reference to it. *)
Definition guard (w : world) : Prop := stop w.1 = true \/ in_use (index w.1) k.

(** The instance and the file behind it, with the bytes [B]. *)
Definition holds_file B (p : OpenInstance * st) : Prop :=
  inst p.1 /\ sane_st p.2 /\ nodeId (sn p.2) = n /\ guard (sw p.2) /\ refers kfd (GetFilePath k) (sw p.2).2 /\
  file_bytes (GetFilePath k) (sw p.2).2 = B.

(** Steps that leave it so. *)
Definition frames {A} (m : oact A) : Prop := forall B p a p', holds_file B p -> m p = Some (a, p') -> holds_file B p'.

Lemma frames_bind {A C : Type} (m : oact A) (g : A -> oact C) : frames m -> (forall a, frames (g a)) -> frames (m ≫= g).
Proof. intros Hm Hg B p b p' Hp E. apply ost_bind_inv in E as (a & p1 & E1 & E2). eapply Hg; [|exact E2]. by eapply Hm. Qed.

Lemma frames_ret {A} (a : A) : frames (mret a).
Proof. by intros B p b p' Hp [= _ <-]. Qed.
Lemma frames_if {A} (b : bool) (m m' : oact A) : frames m -> frames m' -> frames (if b then m else m').
Proof. by destruct b. Qed.

Lemma frames_this {A} (g : OpenInstance -> oact A) : (forall o, inst o -> frames (g o)) -> frames (this ≫= g).
Proof. intros Hg B p a p' Hp E. apply ost_bind_inv in E as (o & p1 & [= <- <-] & E). eapply (Hg p.1); [apply Hp|exact Hp|exact E]. Qed.

Lemma frames_assign f : (forall o, inst o -> inst (f o)) -> frames (assign f).
Proof. intros Hf B p a p' (I & Hp) [= _ <-]. split; [by apply Hf|exact Hp]. Qed.

Lemma frames_is_local {A} (g : bool -> oact A) : frames (g true) -> frames (is_local ≫= g).
Proof.
  intros Hg B [o s] a p' Hp E. apply ost_bind_inv in E as (l & p1 & E1 & E). unfold is_local, this, on_store, nodes_, mbind, ost_bind in E1.
  cbn in E1. injection E1 as <- <-. assert (IsLocal (oi_nodeId o) (sn s) = true) as El.
  { destruct Hp as (I & _ & Hs & _). apply bool_decide_eq_true. cbn in *. by rewrite Hs, (in_node _ I). }
  rewrite El in E. by eapply Hg.
Qed.

(** A change of the cache. *)
Lemma frames_cache {A} (m : act A) D :
  costs false (on_cache m) D ->
  (forall w a w', wf (index w.1) -> guard w -> refers kfd (GetFilePath k) w.2 -> m w = Some (a, w') ->
     guard w' /\ refers kfd (GetFilePath k) w'.2 /\ file_bytes (GetFilePath k) w'.2 = file_bytes (GetFilePath k) w.2) ->
  frames (on_store (on_cache m)).
Proof.
  intros Hc Hm B [o s] a [o' s'] (I & S & N & G & R & E) [E1 E2]%on_store_inv. cbn in *. subst o'.
  pose proof (Hc s S) as Hs. rewrite E1 in Hs. apply on_cache_inv in E1 as (w & Ew & ->).
  destruct (Hm _ _ _ ltac:(apply S) G R Ew) as (G' & R' & B'). split; [done|]. split; [exact (owes_st_sane _ _ _ Hs)|].
  split_and!; [done..|]. cbn. congruence.
Qed.

(** Eviction spares the file. *)
Lemma spared_file (w w' : world) : in_use (index w.1) k -> spared (in_use (index w.1)) w.2 w'.2 -> refers kfd (GetFilePath k) w.2 ->
  refers kfd (GetFilePath k) w'.2 /\ file_bytes (GetFilePath k) w'.2 = file_bytes (GetFilePath k) w.2.
Proof.
  intros Hu Hs Hr. apply (Hs (fun f => refers kfd (GetFilePath k) f /\ file_bytes (GetFilePath k) f = file_bytes (GetFilePath k) w.2)); [|done].
  intros k' g Hk [G1 G2]. assert (GetFilePath k' <> GetFilePath k) as Hne by (by intros ->%GetFilePath_inj).
  destruct (remove_law _ _ g Hne) as [L1 L2]. split; [by apply L2|congruence].
Qed.

Lemma evicts_file {A} (m : act A) :
  evicts_only m -> (forall w a w', stop w.1 = true -> m w = Some (a, w') -> w' = w) ->
  forall w a w', wf (index w.1) -> guard w -> refers kfd (GetFilePath k) w.2 -> m w = Some (a, w') ->
     guard w' /\ refers kfd (GetFilePath k) w'.2 /\ file_bytes (GetFilePath k) w'.2 = file_bytes (GetFilePath k) w.2.
Proof.
  intros Hm Hst w a w' Hw G R E. destruct (stop w.1) eqn:Es.
  - by rewrite (Hst _ _ _ Es E).
  - destruct G as [|Hu]; [congruence|]. destruct (Hm _ _ _ E Hw) as (W & V & S & P). split.
    + right. pose proof (evicted_in_use _ _ _ V Hu) as Ek. destruct Hu as (it & Hi & Hr). exists it. by rewrite Ek.
    + by apply spared_file.
Qed.

Lemma frames_PreAlloc size x : alone x -> frames (on_store (on_cache (PreAllocSpace size (during (env_ctx x))))).
Proof.
  intros ->. eapply frames_cache; [apply PreAllocSpace_costs|]. apply evicts_file; [apply PreAllocSpace_only|].
  intros w a w' Hs E. apply act_bind_inv in E as (c & w1 & [= <- <-] & E). rewrite Hs in E. by injection E.
Qed.

Lemma frames_Free size : frames (on_store (on_cache (FreePreAllocSpace size))).
Proof.
  eapply frames_cache; [apply FreePreAllocSpace_costs|]. apply evicts_file; [apply FreePreAllocSpace_only|].
  intros w a w' Hs E. apply act_bind_inv in E as (c & w1 & [= <- <-] & E). rewrite Hs in E. by injection E.
Qed.

Lemma counts_guard key (w w' : world) : counts key 0 w w' -> guard w -> guard w'.
Proof.
  intros [W S R] [G|(it & Hi & Hr)]; [left; congruence|right]. specialize (R k). unfold refs_at in R. rewrite Hi in R.
  unfold in_use. destruct (item_at k (index w'.1)) as [it'|]; [exists it'; split; [done|]|]; case_decide; lia.
Qed.

Lemma frames_Update size t : frames (on_store (on_cache (Update k size t))).
Proof.
  eapply frames_cache; [apply Update_costs|]. intros w a w' Hw G R E. destruct (Update_counts _ _ _ _ _ _ Hw E) as [C ->].
  split; [by eapply counts_guard|done].
Qed.

Lemma frames_Insert size t : frames (on_store (on_cache (InsertAndUpdate k size false t))).
Proof.
  eapply frames_cache; [apply InsertAndUpdate_costs|]. intros w a w' Hw G R E. destruct (stop w.1) eqn:Es.
  - apply act_bind_inv in E as (c & w1 & [= <- <-] & E). rewrite Es in E. by injection E as _ <-.
  - destruct (InsertAndUpdate_counts _ _ _ _ _ _ _ Hw Es E) as [C ->]. split; [by eapply counts_guard|done].
Qed.

Lemma frames_sys {A} (g : fs -> A * fs) :
  (forall f, file_bytes (GetFilePath k) (g f).2 = file_bytes (GetFilePath k) f /\
     (refers kfd (GetFilePath k) f -> refers kfd (GetFilePath k) (g f).2)) -> frames (on_store (sys g)).
Proof.
  intros Hg. eapply frames_cache; [apply sys_costs|]. intros w a w' Hw G R E. unfold call in E. destruct (Hg w.2) as [G1 G2].
  destruct (g w.2) as [b f]. injection E as _ <-. cbn in *. auto.
Qed.

(** ** Writes *)

Lemma s64_id z : 0 <= z < 2 ^ 63 -> s64 z = z.
Proof. intros Hz. apply signed_id; [lia|]. unfold in_signed_range. lia. Qed.

Lemma write_loop_file fuel : forall buf off s out s',
  0 <= off -> off + Z.of_nat (length buf) < 2 ^ 63 -> refers kfd (GetFilePath k) (sw s).2 ->
  write_loop fuel kfd buf off (Z.of_nat (length buf)) s = Some (out, s') ->
  exists m, (m <= length buf)%nat /\ s' = set_sw ((sw s).1, (sw s').2) s /\ refers kfd (GetFilePath k) (sw s').2 /\
    file_bytes (GetFilePath k) (sw s').2 = write_at (file_bytes (GetFilePath k) (sw s).2) (Z.to_nat off) (take m buf) /\
    match out with inr _ => m = length buf | inl _ => True end.
Proof.
  induction fuel as [|fuel IH]; intros buf off s out s' Ho Hl R E; cbn [write_loop] in E.
  { case_decide as Hz; [|done]. injection E as <- <-. exists 0%nat. split_and!; [lia|by destruct s as [[] ?]|done|done|].
    destruct buf; [done|cbn in Hz; lia]. }
  case_decide as Hz.
  { injection E as <- <-. exists 0%nat. split_and!; [lia|by destruct s as [[] ?]|done|done|]. destruct buf; [done|cbn in Hz; lia]. }
  apply ost_bind_inv in E as (nw & s1 & [-> Enw]%sys_inv & E).
  destruct (pcut_law kfd (GetFilePath k) buf off (sw s).2 R Ho) as [R1 B1]. pose proof (pcut_progress kfd buf off (Z.of_nat (length buf)) (sw s).2 ltac:(lia)) as Hp.
  rewrite <- Enw in *. set (f1 := (pcut kfd buf off (Z.of_nat (length buf)) (sw s).2).2) in *.
  destruct (Z.ltb_spec nw 0) as [Hneg|Hpos]; [|destruct (Z.ltb_spec (Z.of_nat (length buf)) nw) as [Hbig|Hfit]]; cbn [orb] in E.
  - injection E as <- <-. exists 0%nat. split_and!; [lia|done|done| |done]. cbn. rewrite B1. replace (Z.to_nat nw) with 0%nat by lia. done.
  - injection E as <- <-. exists (length buf). split_and!; [lia|done|done| |done]. cbn. rewrite B1, !take_ge by lia. done.
  - set (b1 := take (Z.to_nat nw) buf) in *. assert (length b1 = Z.to_nat nw) as Hb1 by (unfold b1; rewrite length_take; lia).
    assert (Z.of_nat (length (drop (Z.to_nat nw) buf)) = Z.of_nat (length buf) - nw) as Hd by (rewrite length_drop; lia).
    rewrite <- Hd, s64_id in E by lia.
    destruct (IH (drop (Z.to_nat nw) buf) (off + nw) (set_sw ((sw s).1, f1) s) out s' ltac:(lia) ltac:(lia) R1 E) as (m & Hm & Es & R2 & B2 & Ho2).
    exists (Z.to_nat nw + m)%nat. split_and!; [lia|exact Es|done| |destruct out; [done|lia]].
    rewrite B2. cbn. rewrite B1. replace (Z.to_nat (off + nw)) with (Z.to_nat off + length b1)%nat by lia.
    rewrite write_at_app by (intros E1; rewrite E1 in Hb1; cbn in Hb1; lia). by rewrite <- (take_take_drop buf (Z.to_nat nw) m).
Qed.

Lemma inst_size v o : 0 <= v < 2 ^ 64 -> inst o -> inst (set_currentSize v o).
Proof. intros Hv []. by split. Qed.

(** [currentSize = size] and DiskCache::Update. *)
Lemma frames_resize size t : 0 <= size < 2 ^ 64 ->
  frames (_ ← assign (set_currentSize size); on_store (on_cache (Update k size t))).
Proof.
  intros Hs. apply frames_bind; [apply frames_assign; intros o; by apply inst_size|]. intros _. apply frames_Update.
Qed.

Lemma frames_free_ret (r : Z) size : frames (_ ← on_store (on_cache (FreePreAllocSpace size)); mret r).
Proof. apply frames_bind; [apply frames_Free|]. intros _. apply frames_ret. Qed.

Lemma u64_range z : 0 <= u64 z < 2 ^ 64.
Proof. by apply wrap_in_range. Qed.

Lemma holds_loop B p buf off out p' :
  0 <= off -> off + Z.of_nat (length buf) < 2 ^ 63 -> holds_file B p ->
  on_store (write_loop (length buf) kfd buf off (Z.of_nat (length buf))) p = Some (out, p') ->
  exists m, (m <= length buf)%nat /\ holds_file (write_at B (Z.to_nat off) (take m buf)) p' /\ (is_Some (match out with inr z => Some z | _ => None end) -> m = length buf).
Proof.
  intros Ho Hl (I & S & N & G & R & E) [E1 E2]%on_store_inv.
  destruct (write_loop_file _ _ _ _ _ _ Ho Hl R E1) as (m & Hm & Es & R' & B' & Hout). exists m.
  split_and!; [done| |by destruct out; [intros []|]]. rewrite E in B'. destruct p' as [o' s']. cbn in *. subst o'. rewrite Es in *.
  by split_and!.
Qed.

Lemma WriteLocalFileForBrpc_file buf off x B p r p' :
  alone x -> 0 <= off -> off + Z.of_nat (length buf) < 2 ^ 63 -> holds_file B p ->
  WriteLocalFileForBrpc buf off x p = Some (r, p') ->
  exists m, (m <= length buf)%nat /\ holds_file (write_at B (Z.to_nat off) (take m buf)) p' /\ (r = 0 -> m = length buf) /\ r <= 0.
Proof.
  intros Ha Ho Hl Hp E. unfold WriteLocalFileForBrpc in E. apply ost_bind_inv in E as (o & p0 & [= <- <-] & E).
  pose proof (in_size _ (proj1 Hp)) as Hsz. rewrite (in_direct _ (proj1 Hp)), (in_fd _ (proj1 Hp)), (in_inode _ (proj1 Hp)) in E. cbn [negb] in E.
  set (newSize := Z.max _ _) in E. assert (0 <= newSize < 2 ^ 64) as Hnew by (pose proof (u64_range (off + Z.of_nat (length buf))); unfold newSize; lia).
  apply ost_bind_inv in E as (granted & p1 & E1 & E). pose proof (frames_PreAlloc _ x Ha _ _ _ _ Hp E1) as Hp1.
  destruct granted; cbn [negb] in E; [|injection E as <- <-; exists 0%nat; split_and!; [lia|done|done|done]].
  apply ost_bind_inv in E as (written & p2 & E2 & E). apply ost_bind_inv in E2 as (out & p3 & E3 & E2).
  destruct (holds_loop _ _ _ _ _ _ Ho Hl Hp1 E3) as (m & Hm & Hp3 & Hout). exists m.
  assert (holds_file (write_at B (Z.to_nat off) (take m buf)) p2 /\ (written = 0 -> m = length buf) /\ written <= 0) as (Hp2 & Hw & Hle).
  { destruct out as [off'|off'].
    - apply ost_bind_inv in E2 as (upd & p4 & E4 & [= <- <-]). split_and!; [|by destruct upd|by destruct upd].
      eapply (frames_if (oi_currentSize p.1 <? u64 off')); [apply frames_resize, u64_range|apply frames_ret|exact Hp3|exact E4].
    - injection E2 as <- <-. split_and!; [done| |done]. intros _. by apply Hout. }
  case_decide as Hnz.
  - pose proof (frames_free_ret _ _ _ _ _ _ Hp2 E) as Hp4. apply ost_bind_inv in E as (u & p5 & _ & [= <- <-]). by split_and!.
  - apply ost_bind_inv in E as (upd & p4 & E4 & E). pose proof (frames_resize _ _ Hnew _ _ _ _ Hp2 E4) as Hp4.
    pose proof (frames_free_ret _ _ _ _ _ _ Hp4 E) as Hp5. apply ost_bind_inv in E as (u & p5 & _ & [= <- <-]). split_and!; [done|done| |by destruct upd].
    intros _. apply Hw. by destruct (decide (written = 0)).
Qed.

(** ** Flush and close *)

Lemma wp_Unpin_fs key (w : world) z w' : ok w.1 -> Unpin key w = Some (z, w') -> w'.2 = w.2.
Proof. intros Hok E. pose proof (wp_Unpin key w Hok) as Hw. unfold wp in Hw. rewrite E in Hw. by destruct Hw. Qed.

Lemma frames_FlushToStorage path : frames (on_store (FlushToStorage path k)).
Proof.
  intros B p a p' Hp [E1 E2]%on_store_inv. unfold FlushToStorage in E1. apply ost_bind_inv in E1 as (ob & s1 & E3 & E1).
  assert (s1 = p.2) as -> by (unfold ost_opt in E3; destruct (substr1 path); cbn in E3; congruence).
  apply ost_bind_inv in E1 as (r & s2 & E4 & [= _ Es]). eapply (frames_sys (PutFile ob (GetFilePath k))).
  - intros f. destruct (PutFile_law ob (GetFilePath k) (GetFilePath k) f) as [L1 L2]. by split; [|apply L2].
  - exact Hp.
  - unfold on_store. rewrite E4. cbn. rewrite Es, <- E2. by destruct p'.
Qed.

Lemma frames_fsync fd : frames (on_store (sys (fun f => (tt, fsync fd f)))).
Proof. apply frames_sys. intros f. cbn. destruct (fsync_law fd (GetFilePath k) f) as [L1 L2]. by split; [|apply L2]. Qed.

Lemma frames_flush m isSync x : frames (close_body cfg m true isSync x).
Proof.
  unfold close_body. apply frames_this. intros o Io. rewrite (in_remote _ Io). case_decide; [apply frames_ret|]. case_decide; [apply frames_ret|].
  apply frames_bind; [apply frames_bind; [apply frames_assign; by intros ? []; split|intros _; apply frames_ret]|]. intros ret.
  apply frames_bind; [apply frames_ret|]. intros _. apply frames_bind; [apply frames_ret|]. intros ret'. apply frames_is_local.
  unfold close_local. apply frames_this. intros o1 I1. cbn [negb]. rewrite (in_inode _ I1).
  apply frames_bind; [apply frames_Insert|]. intros _. apply frames_if; [|apply frames_ret].
  apply frames_bind; [apply frames_if; [apply frames_fsync|apply frames_ret]|]. intros _. apply frames_if; [|apply frames_ret].
  apply frames_bind; [apply frames_FlushToStorage|]. intros r. apply frames_bind; [apply frames_assign; by intros ? []; split|]. intros _. apply frames_ret.
Qed.

(** After the close the bytes are still there. *)
Lemma close_file isSync x B p r p' :
  holds_file B p -> CloseTmpFiles cfg false isSync x p = Some (r, p') ->
  sane_st p'.2 /\ nodeId (sn p'.2) = n /\ file_bytes (GetFilePath k) (sw p'.2).2 = B.
Proof.
  intros Hp E. assert (sane_st p'.2) as Hs.
  { pose proof (CloseTmpFiles_costs (partial := false) cfg false isSync x p (conj (proj1 (proj2 Hp)) (in_path _ (proj1 Hp)))) as Hc.
    rewrite E in Hc. exact (owes_st_sane _ _ _ (proj1 Hc)). }
  split; [done|]. unfold CloseTmpFiles in E. set (m := close_body _ _ true _ _) in E. assert (frames m) as Hm by apply frames_flush.
  unfold close_body in E. apply ost_bind_inv in E as (o & p0 & [= <- <-] & E). rewrite (in_remote _ (proj1 Hp)) in E. clearbody m.
  case_decide; [by injection E as <- <-; destruct Hp as (? & ? & ? & ? & ? & ?)|].
  case_decide; [by injection E as <- <-; destruct Hp as (? & ? & ? & ? & ? & ?)|].
  apply ost_bind_inv in E as (r1 & p1 & E1 & E). assert (holds_file B p1) as Hp1.
  { cbn in E1. eapply (frames_if (negb (oi_isFlushed p.1))); [|apply frames_ret|exact Hp|exact E1].
    apply frames_bind; [done|]. intros r2. apply frames_bind; [|intros _; apply frames_ret].
    destruct (decide (r2 <> 0)); [apply frames_assign; by intros ? []; split|apply frames_ret]. }
  cbn in E. apply ost_bind_inv in E as (u & p2 & [= _ <-] & E). apply ost_bind_inv in E as (r3 & p3 & [= <- <-] & E).
  destruct p1 as [o1 s1]. destruct Hp1 as (I1 & S1 & N1 & G1 & R1 & B1). cbn in *.
  apply ost_bind_inv in E as (l & p4 & E4 & E). unfold is_local, this, on_store, nodes_, mbind, ost_bind in E4. cbn in E4. injection E4 as <- <-.
  assert (IsLocal (oi_nodeId o1) (sn s1) = true) as El by (apply bool_decide_eq_true; by rewrite N1, (in_node _ I1)).
  rewrite El in E. unfold close_local in E. apply ost_bind_inv in E as (o2 & p4 & [= <- <-] & E). cbn [negb] in E.
  apply ost_bind_inv in E as (v & p5 & [[E5 _]%sys_inv Eo]%on_store_inv & E). cbn in *.
  apply ost_bind_inv in E as (z & p6 & [(w & E6 & E7)%on_cache_inv _]%on_store_inv & [= _ <-]). rewrite E7, E5 in *. cbn in *. split; [done|].
  assert (w.2 = close_ (oi_physicalFd o1) (sw s1).2) as ->; [|by rewrite close_law].
  exact (wp_Unpin_fs (oi_inodeId o1) ((sw s1).1, close_ (oi_physicalFd o1) (sw s1).2) z w ltac:(apply S1) E6).
Qed.

(** ** The handlers *)

(** The descriptor [fd] of the table leads to the file, or it has been closed. *)
Definition serves (fd : Z) (v : server) : Prop :=
  sane_st (store_ v) /\
  (GetOpenInstanceByFd fd (table v) = None \/
   exists h o, GetOpenInstanceByFd fd (table v) = Some h /\ heap (table v) !! h = Some o /\ exists B, holds_file B (o, store_ v)).

Definition stored (v : server) : list Z := file_bytes (GetFilePath k) (sw (store_ v)).2.

(** A handler has written [b] at [off], if its code is 0, or a part of it. *)
Definition has_written (off : Z) (b : list Z) (code : Z) (v v' : server) : Prop :=
  (code = 0 -> stored v' = write_at (stored v) (Z.to_nat off) b) /\
  write_at (stored v') (Z.to_nat off) b = write_at (stored v) (Z.to_nat off) b.

Lemma has_written_part off b m code v v' :
  stored v' = write_at (stored v) (Z.to_nat off) (take m b) -> (code = 0 -> m = length b) -> has_written off b code v v'.
Proof. intros E Hc. split; rewrite E; [intros Hz; by rewrite (Hc Hz), firstn_all|apply write_at_part]. Qed.

(** The instance of the descriptor after an operation on it. *)
Definition put_back (h : nat) (v : server) (p : OpenInstance * st) : server := {| table := set_cell h p.1 (table v); store_ := p.2 |}.

Lemma with_instance_Some {A} h (m : oact A) v o a p : heap (table v) !! h = Some o -> m (o, store_ v) = Some (a, p) ->
  with_instance h m v = Some (a, put_back h v p).
Proof. intros Ho Hm. unfold with_instance. rewrite Ho. cbn. rewrite Hm. by destruct p. Qed.

Lemma put_back_serves fd h v B p :
  GetOpenInstanceByFd fd (table v) = Some h -> holds_file B p ->
  serves fd (put_back h v p) /\ stored (put_back h v p) = B /\ GetOpenInstanceByFd fd (table (put_back h v p)) = Some h /\
  heap (table (put_back h v p)) !! h = Some p.1.
Proof.
  intros Hfd Hp. pose proof Hp as (I & S & N & G & R & E). split_and!; [|done|done|by apply lookup_insert_eq].
  split; [done|]. right. exists h, p.1. split_and!; [done|by apply lookup_insert_eq|]. exists B. by destruct p.
Qed.

(** A counted write, as both handlers make it. *)
Lemma counted_write buf off x B p :
  alone x -> 0 <= off -> off + Z.of_nat (length buf) < 2 ^ 63 -> holds_file B p ->
  exists r p' m, (_ ← count_write; WriteLocalFileForBrpc buf off x) p = Some (r, p') /\ (m <= length buf)%nat /\
    holds_file (write_at B (Z.to_nat off) (take m buf)) p' /\ (r = 0 -> m = length buf) /\ r <= 0.
Proof.
  intros Ha Ho Hl Hp.
  assert (frames count_write) as Hcw by (apply frames_assign; by intros ? []; split).
  set (p1 := (set_writeCnt (s32 (oi_writeCnt p.1 + 1)) p.1, p.2)). assert (holds_file B p1) as Hp1 by (by eapply Hcw; [exact Hp|]).
  pose proof (WriteLocalFileForBrpc_costs (partial := false) cfg buf off x p1 (conj (proj1 (proj2 Hp1)) (in_path _ (proj1 Hp1)))) as Hc.
  destruct (WriteLocalFileForBrpc buf off x p1) as [[r p']|] eqn:E; [|done].
  destruct (WriteLocalFileForBrpc_file _ _ _ _ _ _ _ Ha Ho Hl Hp1 E) as (m & H3 & H4 & H5 & H6). exists r, p', m. split; [|done].
  unfold count_write, assign, mbind, ost_bind. cbn. exact E.
Qed.

Lemma handle_WriteFile_ok fd b off x v :
  alone x -> in_call off b -> serves fd v ->
  exists rep v', handle_WriteFile {| wr_physical_fd := fd; wr_offset := u64 off |} b x v = Some (rep, v') /\ serves fd v' /\
    has_written off b (wr_error_code rep) v v' /\ (wr_error_code rep = 0 -> u64 (s32 (wr_write_size rep)) = Z.of_nat (length b)).
Proof.
  intros Ha [[Ho Hend] Hl] [Hs Hv]. unfold handle_WriteFile. cbn [wr_physical_fd wr_offset]. unfold find_open.
  destruct Hv as [Hv|(h & o & Hfd & Hh & B & Hp)].
  - eexists _, _. split; [unfold mbind, ost_bind; cbn; rewrite Hv; reflexivity|]. cbn. split; [by split; [|left]|]. split; [by split|done].
  - assert (s64 (u64 off) = off) as Eo by (rewrite wrap_small by (unfold in_range; lia); apply s64_id; lia). rewrite Eo.
    destruct (counted_write b off x B (o, store_ v) Ha ltac:(lia) Hend Hp) as (r & p' & m & E & Hm & Hp' & Hr & Hle).
    destruct (put_back_serves fd h v _ p' Hfd Hp') as (Hs' & Hst & _).
    eexists _, (put_back h v p'). split.
    { unfold mbind at 1. unfold ost_bind at 1. rewrite Hfd, Hh. cbn [mbind option_bind]. rewrite (in_closed o (proj1 Hp)). cbn [mbind option_bind].
      unfold mbind at 1. unfold ost_bind at 1. rewrite (with_instance_Some h _ v o r p' Hh E). reflexivity. }
    split; [done|]. assert (stored v = B) as <- by apply Hp.
    split; [|].
    + apply (has_written_part _ _ m); [done|]. destruct (Z.ltb_spec r 0); cbn; intros Hz; [lia|]. apply Hr. lia.
    + destruct (Z.ltb_spec r 0); cbn -[Z.of_nat]; intros Hz; [lia|].
      rewrite (s32_small (Z.of_nat (length b))), (wrap_small 64 (Z.of_nat (length b))) by (unfold in_range; lia).
      rewrite s32_small by lia. apply wrap_small. unfold in_range. lia.
Qed.

(** The file is closed: the descriptor is gone and the bytes stay. *)
Lemma close_instance fd h isSync x B v o :
  fd <> UINT64_MAX -> GetOpenInstanceByFd fd (table v) = Some h -> heap (table v) !! h = Some o -> holds_file B (o, store_ v) ->
  exists r v', (closeRet ← with_instance h (CloseTmpFiles cfg false isSync x);
                _ ← with_instance h (assign (set_isClosed true));
                _ ← on_table_opt (DeleteOpenInstance fd false); mret closeRet) v = Some (r, v') /\ serves fd v' /\ stored v' = B.
Proof.
  intros Hmax Hfd Hh Hp.
  pose proof (CloseTmpFiles_costs (partial := false) cfg false isSync x (o, store_ v) (conj (proj1 (proj2 Hp)) (in_path _ (proj1 Hp)))) as Hc.
  destruct (CloseTmpFiles cfg false isSync x (o, store_ v)) as [[r p]|] eqn:E; [|done]. clear Hc.
  destruct (close_file isSync x B _ _ _ Hp E) as (Hs & Hsn & Hb).
  set (p2 := (set_isClosed true p.1, p.2)).
  assert (with_instance h (assign (set_isClosed true)) (put_back h v p) = Some (tt, put_back h (put_back h v p) p2)) as E2
    by (eapply with_instance_Some; [by apply lookup_insert_eq|reflexivity]).
  assert (exists t', DeleteOpenInstance fd false (table (put_back h (put_back h v p) p2)) = Some (0, t') /\ openInstanceMap t' !! fd = None) as (t' & E3 & Hnone).
  { unfold DeleteOpenInstance. rewrite decide_False by done. cbn. unfold GetOpenInstanceByFd in Hfd. rewrite Hfd, lookup_insert_eq. cbn.
    eexists. split; [done|]. cbn. apply lookup_delete_eq. }
  exists r, {| table := t'; store_ := p.2 |}. split; [|split; [split; [exact Hs|by left]|exact Hb]].
  unfold mbind at 1. unfold ost_bind at 1. rewrite (with_instance_Some h _ v o r p Hh E). cbn [mbind option_bind].
  unfold mbind at 1. unfold ost_bind at 1. rewrite E2. cbn [mbind option_bind].
  unfold mbind at 1. unfold ost_bind at 1. unfold on_table_opt. rewrite E3. reflexivity.
Qed.

Lemma flush_instance fd h isSync x B v o :
  GetOpenInstanceByFd fd (table v) = Some h -> heap (table v) !! h = Some o -> holds_file B (o, store_ v) ->
  exists r v', with_instance h (CloseTmpFiles cfg true isSync x) v = Some (r, v') /\ serves fd v' /\ stored v' = B.
Proof.
  intros Hfd Hh Hp.
  pose proof (CloseTmpFiles_costs (partial := false) cfg true isSync x (o, store_ v) (conj (proj1 (proj2 Hp)) (in_path _ (proj1 Hp)))) as Hc.
  destruct (CloseTmpFiles cfg true isSync x (o, store_ v)) as [[r p]|] eqn:E; [|done]. clear Hc.
  assert (frames (CloseTmpFiles cfg true isSync x)) as Hfr by (unfold CloseTmpFiles; apply frames_flush).
  pose proof (Hfr _ _ _ _ Hp E) as Hp'. destruct (put_back_serves fd h v B p Hfd Hp') as (H3 & H4 & _).
  exists r, (put_back h v p). split; [by apply (with_instance_Some h _ v o)|done].
Qed.

Lemma handle_CloseFile_ok fd flush isSync b off x v :
  fd <> UINT64_MAX -> alone x -> in_call off b -> serves fd v ->
  exists code v', handle_CloseFile cfg {| cr_physical_fd := fd; cr_flush := flush; cr_sync := isSync; cr_offset := u64 off |} b x v
      = Some (code, v') /\ serves fd v' /\ has_written off b code v v'.
Proof.
  intros Hmax Ha [[Ho Hend] Hl] [Hs Hv]. unfold handle_CloseFile. cbn [cr_physical_fd cr_flush cr_sync cr_offset]. unfold find_open.
  destruct Hv as [Hv|(h & o & Hfd & Hh & B & Hp)].
  { eexists _, _. split; [unfold mbind, ost_bind; cbn; rewrite Hv; reflexivity|]. split; [by split; [|left]|by split]. }
  assert (s64 (u64 off) = off) as Eo by (rewrite wrap_small by (unfold in_range; lia); apply s64_id; lia). rewrite Eo.
  assert (exists r v1 m, (match b with [] => mret 0 | _ => with_instance h (_ ← count_write; WriteLocalFileForBrpc b off x) end) v = Some (r, v1) /\
    GetOpenInstanceByFd fd (table v1) = Some h /\ (exists o1, heap (table v1) !! h = Some o1 /\ holds_file (write_at B (Z.to_nat off) (take m b)) (o1, store_ v1)) /\
    (r = 0 -> m = length b)) as (r & v1 & m & E1 & Hfd1 & (o1 & Hh1 & Hp1) & Hr).
  { destruct b as [|z b]; [exists 0, v, 0%nat; split_and!; [done|done|by exists o|done]|].
    destruct (counted_write (z :: b) off x B (o, store_ v) Ha ltac:(lia) Hend Hp) as (r & p' & m & E & Hm & Hp' & Hr & _).
    destruct (put_back_serves fd h v _ p' Hfd Hp') as (_ & _ & G1 & G2). exists r, (put_back h v p'), m.
    split_and!; [by apply (with_instance_Some h _ v o)|done| |done]. exists p'.1. split; [done|]. by destruct p'. }
  assert (stored v = B) as EB by apply Hp.
  destruct flush.
  - destruct (flush_instance fd h isSync x _ v1 o1 Hfd1 Hh1 Hp1) as (r2 & v2 & E2 & S2 & B2).
    exists (if decide (r = 0) then r2 else r), v2. split; [|split; [done|]].
    + unfold mbind at 1. unfold ost_bind at 1. rewrite Hfd, Hh. cbn [mbind option_bind]. rewrite (in_closed o (proj1 Hp)). cbn [mbind option_bind].
      unfold mbind at 1. unfold ost_bind at 1. rewrite E1. cbn [mbind option_bind]. unfold mbind at 1. unfold ost_bind at 1. rewrite E2. reflexivity.
    + apply (has_written_part _ _ m); [by rewrite EB|]. intros Hz. apply Hr. by case_decide.
  - destruct (close_instance fd h isSync x _ v1 o1 Hmax Hfd1 Hh1 Hp1) as (r2 & v2 & E2 & S2 & B2).
    exists (if decide (r = 0) then r2 else r), v2. split; [|split; [done|]].
    + unfold mbind at 1. unfold ost_bind at 1. rewrite Hfd, Hh. cbn [mbind option_bind]. rewrite (in_closed o (proj1 Hp)). cbn [mbind option_bind].
      unfold mbind at 1. unfold ost_bind at 1. rewrite E1. cbn [mbind option_bind]. clear E1.
      apply ost_bind_inv in E2 as (c & v3 & E3 & E2). unfold mbind at 1. unfold ost_bind at 1. rewrite E3. cbn [mbind option_bind].
      apply ost_bind_inv in E2 as (u & v4 & E4 & E2). unfold mbind at 1. unfold ost_bind at 1. rewrite E4. cbn [mbind option_bind].
      apply ost_bind_inv in E2 as (w & v5 & E5 & [= <- <-]). unfold mbind at 1. unfold ost_bind at 1. rewrite E5. reflexivity.
    + apply (has_written_part _ _ m); [by rewrite EB|]. intros Hz. apply Hr. by case_decide.
Qed.

End open_file.
