(* ===== verification/RemoteWrite.v ===== *)
(** * A writer and the server of the file

    The data path from end to end: the write stream of a client (WriteStream.v), its
    calls (IoClient.v), a network that may lose requests and replies, and the handlers
    of the node that has the file (IoServer.v) with its store (FalconStore.v) and its
    cache (DiskCache.v).  The server is shown to be a remote file in the sense of
    WriteStreamCorrect.v, from the open on. *)

From S2P Require Import FalconPrelude DiskCache DiskCacheCorrect CachePins StoreNode IoClient WriteStream WriteStreamCorrect.
From S2P Require Import FileBytes ReadStream FalconFd FalconStore StoreSpace StoreDemo StorePins IoServer ServerFile.

Section open.

Context `{StoreIO} `{!CacheFsLaws} `{!StoreLaws} `{!FileLaws} (cfg : config).

Implicit Types (s : st) (x : env) (o : OpenInstance).

(** Steps of the cache that leave the files alone. *)
Definition keeps_fs {A} (m : act A) : Prop := forall w a w', m w = Some (a, w') -> w'.2 = w.2.

Lemma keeps_fs_bind {A B} (m : act A) (g : A -> act B) : keeps_fs m -> (forall a, keeps_fs (g a)) -> keeps_fs (m ≫= g).
Proof. intros Hm Hg w b w' (a & w1 & E1 & E2)%act_bind_inv. by rewrite (Hg _ _ _ _ E2), (Hm _ _ _ E1). Qed.

Lemma InsertAndUpdate_fs key size pin t : keeps_fs (InsertAndUpdate key size pin t).
Proof.
  assert (forall A (a : A), keeps_fs (mret a)) as Hret by (by intros A a w b w' [= _ <-]).
  assert (keeps_fs cache) as Hc by (by intros w b w' [= _ <-]).
  assert (forall f, keeps_fs (upd f)) as Hu by (by intros f w b w' [= _ <-]).
  assert (forall A, keeps_fs (undefined : act A)) as Hn by (by intros A w b w').
  assert (forall n, keeps_fs (deref n)) as Hd by (intros n; apply keeps_fs_bind; [done|intros c]; by case_match).
  assert (forall n i, keeps_fs (store n i)) as Hs by (intros n i; by apply keeps_fs_bind).
  assert (forall i, keeps_fs (find_iter i)) as Hf by (intros i; by apply keeps_fs_bind).
  unfold InsertAndUpdate, Pin, resize.
  repeat lazymatch goal with |- keeps_fs _ => first [apply keeps_fs_bind|done|case_match] | |- _ => intro end.
Qed.

(** What opening does not change of an instance. *)
Definition same_instance o o' : Prop :=
  (oi_isClosed o', oi_isRemoteCall o', oi_inodeId o', oi_oflags o', oi_nodeId o', oi_path o', oi_currentSize o', oi_writeStream o') =
  (oi_isClosed o, oi_isRemoteCall o, oi_inodeId o, oi_oflags o, oi_nodeId o, oi_path o, oi_currentSize o, oi_writeStream o).

Lemma u64_open p flags (f : fs) : 0 <= (open_ p flags f).1 -> u64 (open_ p flags f).1 = (open_ p flags f).1.
Proof. intros Hp. pose proof (open_int p flags f). apply wrap_small. unfold in_range. lia. Qed.

(** The last part of opening: the descriptor of the file is put into the instance. *)
Lemma opened_refers path flags o s1 (m : oact unit) z o' s' :
  (forall p a p', m p = Some (a, p') -> p'.1 = p.1 /\ (sw p'.2).2 = (sw p.2).2) ->
  (localFd ← on_store (sys (open_ path flags));
   if localFd <? 0 then mret (inl localFd) else
   _ ← assign (set_physicalFd (u64 localFd)); _ ← m; mret (inr 0 : Z + Z)) (o, s1) = Some (inr z, (o', s')) ->
  same_instance o o' /\ oi_physicalFd o' <> UINT64_MAX /\ refers (oi_physicalFd o') path (sw s').2.
Proof.
  intros Hm E. apply ost_bind_inv in E as (fd & [o2 s2] & [E2 Eo]%on_store_inv & E). cbn [fst snd] in *. subst o2. apply sys_inv in E2 as [-> ->].
  destruct (Z.ltb_spec (open_ path flags (sw s1).2).1 0) as [|Hfd]; [done|].
  apply ost_bind_inv in E as (u & p3 & [= _ <-] & E). apply ost_bind_inv in E as (v & p4 & E4%Hm & [= _ ->]). cbn in E4.
  destruct E4 as [-> ->]. split_and!; [done|by apply u64_fd|]. cbn. rewrite u64_open by done. by apply open_law.
Qed.

Lemma open_local_refers x o s z o' s' :
  read_only (oi_oflags o) = false -> open_local cfg x (o, s) = Some (inr z, (o', s')) ->
  same_instance o o' /\ oi_physicalFd o' <> UINT64_MAX /\ refers (oi_physicalFd o') (GetFilePath (oi_inodeId o)) (sw s').2.
Proof.
  intros Hro E. unfold open_local in E. apply ost_bind_inv in E as (o1 & p1 & [= <- <-] & E).
  apply ost_bind_inv in E as (u & p1 & E1 & E).
  assert (p1.1 = o) as Eo by (destruct (oi_nodeFail o); [by apply on_store_inv in E1 as [_ E1]|by injection E1 as _ <-]).
  apply ost_bind_inv in E as (found & [o2 s2] & [_ Eo2]%on_store_inv & E). cbn in *. rewrite Eo in Eo2. subst o2. clear E1 Eo p1.
  destruct found.
  - apply (opened_refers _ (oi_oflags o) o s2 (mret tt) z); [by intros p a p' [= _ <-]|].
    apply ost_bind_inv in E as (fd & p2 & E2 & E). unfold mbind at 1, ost_bind at 1. rewrite E2. cbn [mbind option_bind].
    destruct (fd <? 0); [by apply ost_bind_inv in E as (? & ? & _ & [=])|exact E].
  - rewrite Hro in E. cbn [negb] in E. apply ost_bind_inv in E as (ret & [o3 s3] & E3 & E).
    assert (exists b, o3 = set_readBuffer b o) as [b ->].
    { assert (exists b, o = set_readBuffer b o) as Hself by (exists (oi_readBuffer o); by destruct o). clear E.
      repeat case_match; try (injection E3 as _ <- _; done). unfold DownLoadFromStorage in E3.
      apply ost_bind_inv in E3 as (o1 & p1 & [= <- <-] & E3). apply ost_bind_inv in E3 as (r & [o4 s4] & [_ E4]%on_store_inv & E3).
      apply ost_bind_inv in E3 as (v & p3 & [= _ <-] & [= _ <- _]). cbn in *. subst. eauto. }
    destruct (decide (ret <> 0)); [done|]. eapply (opened_refers _ _ (set_readBuffer b o)); [|exact E].
    intros p a p' Em. case_match; [|by injection Em as _ <-]. apply on_store_inv in Em as [(w & Ew & ->)%on_cache_inv ->]. split; [done|].
    by apply InsertAndUpdate_fs in Ew.
Qed.

Lemma OpenFile_refers x o s o' s' :
  counted s -> room (oi_inodeId o) s -> alone x -> 0 <= oi_originalSize o -> oi_physicalFd o = UINT64_MAX -> ws_physicalFd (oi_writeStream o) = UINT64_MAX -> IsLocal (oi_nodeId o) (sn s) = true ->
  nodeId (sn s) <> -1 -> read_only (oi_oflags o) = false -> OpenFile cfg x (o, s) = Some (0, (o', s')) ->
  oi_isClosed o' = oi_isClosed o /\ oi_isRemoteCall o' = oi_isRemoteCall o /\ oi_inodeId o' = oi_inodeId o /\ oi_oflags o' = oi_oflags o /\
  oi_nodeId o' = oi_nodeId o /\ oi_path o' = oi_path o /\ oi_currentSize o' = oi_currentSize o /\
  oi_physicalFd o' <> UINT64_MAX /\ refers (oi_physicalFd o') (GetFilePath (oi_inodeId o)) (sw s').2.
Proof.
  intros Hc Hr Ha Hs Hfd Hws Hl Hn Hro E. unfold OpenFile in E. rewrite open_file_S in E.
  apply ost_bind_inv in E as (o1 & p1 & [= <- <-] & E). rewrite decide_False in E by (rewrite Hfd; auto).
  rewrite open_at_local in E by done. apply ost_bind_inv in E as (out & p1 & E1 & E). destruct p1 as [o1 s1]. destruct out as [e|z].
  - injection E as -> <- <-. by destruct (open_local_cnt _ _ _ _ _ _ _ Hc Hr Ha Hs Hfd E1) as (_ & _ & _ & _ & d & _ & [? _]).
  - apply open_local_refers in E1 as ([=] & Hmax & Href); [|done].
    unfold set_up_stream in E. apply ost_bind_inv in E as (o2 & p2 & [= <- <-] & E).
    destruct (SetFd _ _) as [r ws]. apply ost_bind_inv in E as (u & p3 & [= _ <-] & [= _ <- <-]). done.
Qed.

(** ** The handler *)

(** A file that a client has opened for writing is pinned and open. *)
Lemma OpenFile_holds x o s o' s' :
  sane_st s -> named cfg (oi_path o) -> counted s -> room (oi_inodeId o) s -> alone x -> 0 <= oi_originalSize o ->
  oi_physicalFd o = UINT64_MAX -> ws_physicalFd (oi_writeStream o) = UINT64_MAX -> oi_nodeId o = nodeId (sn s) -> oi_isClosed o = false ->
  oi_isRemoteCall o = true -> has_flag (oi_oflags o) O_DIRECT = false -> 0 <= oi_currentSize o < 2 ^ 64 -> read_only (oi_oflags o) = false ->
  OpenFile cfg x (o, s) = Some (0, (o', s')) ->
  oi_physicalFd o' <> UINT64_MAX /\
  holds_file cfg (oi_inodeId o) (oi_physicalFd o') (nodeId (sn s)) (file_bytes (GetFilePath (oi_inodeId o)) (sw s').2) (o', s').
Proof.
  intros Hs Hp Hc Hr Ha Hsz Hfd Hws Hl Hcl Hrm Hd Hcs Hro E.
  assert (IsLocal (oi_nodeId o) (sn s) = true) as Hl' by (by apply bool_decide_eq_true). assert (nodeId (sn s) <> -1) as Hn1 by apply Hs.
  destruct (OpenFile_refers x o s o' s' Hc Hr Ha Hsz Hfd Hws Hl' Hn1 Hro E) as (F1 & F2 & F3 & F4 & F5 & F6 & F7 & F8 & F9).
  destruct (OpenFile_cnt cfg x o s 0 o' s' Hc Hr Ha Hsz Hfd Hws Hl' Hn1 E) as (_ & _ & d & (C1 & C2 & C3) & Ed & _).
  specialize (Ed eq_refl). rewrite decide_False in Ed by done. subst d.
  pose proof (OpenFile_costs (partial := false) cfg x (o, s) (conj Hs Hp)) as Hcost. rewrite E in Hcost. destruct Hcost as [Hcost%owes_st_sane _]. clear E.
  split; [done|]. split; [split; cbn; congruence|]. split_and!; [done|cbn; congruence| |done|done].
  right. destruct C1 as [_ _ C1]. specialize (C1 (oi_inodeId o)). rewrite decide_True in C1 by done. pose proof (proj2 (proj2 Hc) (oi_inodeId o)) as Hpos.
  unfold in_use. unfold refs_at at 1 in C1. cbn. destruct (item_at _ (index (sw s').1)) as [it|]; [exists it; split; [done|lia]|lia].
Qed.

Lemma with_instance_inv {A} h (m : oact A) v a v' : with_instance h m v = Some (a, v') ->
  exists o p, heap (table v) !! h = Some o /\ m (o, store_ v) = Some (a, p) /\ v' = put_back h v p.
Proof.
  unfold with_instance. destruct (heap (table v) !! h) as [o|]; [|done]. cbn [mbind option_bind].
  destruct (m (o, store_ v)) as [[b [o' s']]|] eqn:Em; [|done]. cbn [mbind option_bind]. intros [= <- <-]. by exists o, (o', s').
Qed.

(** The descriptor is given out. *)
Lemma attach_instance h o t s' rep v' :
  table_ok t -> nextFD t < UINT64_MAX -> is_Some (heap t !! h) ->
  (fd ← on_table_opt (AttachFd_instance h); _ ← with_instance h (assign (set_isOpened true));
   mret {| or_error_code := 0; or_physical_fd := fd |}) {| table := set_cell h o t; store_ := s' |} = Some (rep, v') ->
  let fd := or_physical_fd rep in
  store_ v' = s' /\ fd <> UINT64_MAX /\ GetOpenInstanceByFd fd (table v') = Some h /\
  heap (table v') !! h = Some (set_isOpened true (set_fd fd o)).
Proof.
  intros Ht Hn _ E. pose proof (tk_next _ Ht) as H3. apply ost_bind_inv in E as (fd & v1 & E1 & E). unfold on_table_opt, AttachFd_instance in E1.
  cbn [table] in E1. rewrite ObtainFd_next in E1 by done. cbn [mbind option_bind] in E1.
  change (heap (set_nextFD _ _)) with (<[h := o]> (heap t)) in E1. rewrite lookup_insert_eq in E1. cbn [mbind option_bind] in E1. injection E1 as <- <-.
  assert (openInstanceMap t !! nextFD t = None) as Hf.
  { destruct (openInstanceMap t !! nextFD t) eqn:E1; [|done]. apply (tk_fd _ Ht) in E1. lia. }
  apply ost_bind_inv in E as (u & v2 & E2 & [= <- ->]). unfold AddOpenInstance in E2. cbn in E2. rewrite Hf in E2.
  unfold with_instance in E2. cbn in E2. rewrite lookup_insert_eq in E2. cbn in E2. injection E2 as _ <-. cbn. split_and!; [done|unfold UINT64_MAX in *; lia|..].
  - apply lookup_insert_eq.
  - apply lookup_insert_eq.
Qed.

Definition GetNode (v : server) : Z := nodeId (sn (store_ v)).

(** A server that runs, and a request that opens a file for buffered writing. *)
Record ready (request : OpenRequest) (v : server) : Prop := {
  rd_sane : sane_st (store_ v);
  rd_counted : counted (store_ v);
  rd_room : room (or_inode_id request) (store_ v);
  rd_table : table_ok (table v);
  rd_fds : nextFD (table v) < UINT64_MAX;
  rd_path : named cfg (or_path request);
  rd_size : 0 <= or_size request < 2 ^ 64;
  rd_direct : has_flag (or_oflags request) O_DIRECT = false;
  rd_write : read_only (or_oflags request) = false
}.

(** Then the server serves the descriptor it returns. *)
Lemma handle_OpenFile_ok request mem x v rep v' :
  ready request v -> alone x -> handle_OpenFile cfg request mem x v = Some (rep, v') -> or_error_code rep = 0 ->
  or_physical_fd rep <> UINT64_MAX /\ exists kfd, serves cfg (or_inode_id request) kfd (GetNode v) (or_physical_fd rep) v'.
Proof.
  intros [Hs Hc Hr Ht Hnx Hp Hsz Hd Hro] Ha E Hrep. unfold handle_OpenFile in E. apply ost_bind_inv in E as (h & v1 & E1 & E).
  assert (store_ v1 = store_ v /\ match h with Some h => heap (table v1) !! h = Some new_OpenInstance /\ table_ok (table v1) /\
    nextFD (table v1) = nextFD (table v) | None => True end) as (Es & Hh).
  { unfold on_table in E1. pose proof (table_ok_new false mem _ Ht) as Hok. destruct (WaitGetNewOpenInstance false mem (table v)) as [h' t] eqn:Ew.
    injection E1 as <- <-. split; [done|]. unfold WaitGetNewOpenInstance in Ew. cbn in Ew. destruct mem; injection Ew as <- <-; [|done].
    split_and!; [by apply lookup_insert_eq|exact Hok|done]. }
  destruct h as [h|]; [|injection E as <- _; done]. destruct Hh as (Hh & Ht1 & Hn1). rewrite <- Hn1 in Hnx. rewrite <- Es in *. clear E1 Hn1.
  apply ost_bind_inv in E as (nd & v2 & E2 & E). injection E2 as <- <-.
  apply ost_bind_inv in E as (ret & v3 & (o & [o' s'] & Ho & E3 & ->)%with_instance_inv & E). cbn [table store_] in Ho, E3.
  rewrite Hh in Ho. injection Ho as <-. destruct (decide (ret <> 0)) as [|Hz]; [by injection E as <- _|].
  assert (ret = 0) as -> by (by destruct (decide (ret = 0))). apply ost_bind_inv in E3 as (u & p & [= _ <-] & E3).
  apply OpenFile_holds in E3 as [Hk Hf]; [|first [done|apply Hsz]..].
  destruct (attach_instance h o' (table v1) s' rep v' Ht1 Hnx ltac:(by rewrite Hh) E) as (Es' & Hmax & Hfd & Ho). clear E. split; [done|].
  exists (oi_physicalFd o'). unfold serves, GetNode. rewrite Es', <- Es. split; [apply Hf|]. right.
  exists h, (set_isOpened true (set_fd (or_physical_fd rep) o')). split_and!; [done..|]. eexists. destruct Hf as [[] Hf]. split; [by split|exact Hf].
Qed.

End open.

(** ** The client *)

Section client.

Context `{StreamIO}.

(** A client opens a file over the connection [c], writes to it through the stream,
    and flushes or closes it; the results of the calls. *)
Definition write_session (c : conn) (request : OpenRequest) (writes : list (list Z * Z * Z)) (cur : Z) (isFlush isSync : bool)
    (y : ctx) : act (Z * list Z * Z) :=
  o ← call (rpc_OpenFile c (or_inode_id request) (or_oflags request) UINT64_MAX (or_size request) (or_path request) (or_node_fail request));
  if decide (o.1 <> 0) then mret (o.1, [], 0) else
  let ws := SetClient (Some c) (SetFd o.2 new_WriteStream).2 in
  r ← push_all ws writes y;
  k ← Complete r.2 cur isFlush isSync y;
  mret (0, r.1, k.1).

Lemma wp_stream c fd `{!RemoteFile c fd} ws writes cur fl sy y s :
  ws_physicalFd ws = fd -> client ws = Some c -> data ws = new_SerialData -> Forall (fun w => in_call w.1.2 w.1.1) writes -> serving s.2 ->
  wp (r ← push_all ws writes y; k ← Complete r.2 cur fl sy y; mret (0, r.1, k.1))
     (fun r s' => Forall (fun ret => ret = 0) r.1.2 -> r.2 = 0 -> content s'.2 = write_all (content s.2) writes) s.
Proof.
  intros Hfd Hc Hd Hw Hs. assert (stream_ok (c := c) (fd := fd) ws) as Hok by (split; rewrite ?Hd; unfold pending; rewrite ?Hd; cbn; done).
  apply wp_bind. eapply wp_weaken; [|by apply (wp_push_all (c := c) (fd := fd))]. intros [rs ws1] s1 (O1 & S1 & V1 & _). apply wp_bind.
  eapply wp_weaken; [|by apply (wp_Complete (c := c) (fd := fd))]. intros [r ws2] s2 [V2 _]. apply wp_ret. cbn [fst snd] in *.
  intros G1 G2. rewrite V2, V1 by done. unfold view at 1, pending. by rewrite Hd.
Qed.

End client.

(** ** The network *)

(** What happens to a call, with the [env] in which the server runs it: the request
    or the reply may be lost, and the client sees an error of brpc then. *)
Inductive fate : Type :=
  | Delivered
  | LostRequest (code : positive)
  | LostReply (code : positive).

(** Below the client: its own files, the server, and what the network will do. *)
Record net `{StoreIO} (C : Type) : Type := {
  own : C;
  srv : server;
  calls : list (fate * env)
}.

Arguments own {_ _}.
Arguments srv {_ _}.
Arguments calls {_ _}.

Section network.

Context `{StoreIO} (cfg : config).

(** The files of the client; memory that the server has not written yet, and the
    counters it returns. *)
Context (C : CacheFs) (C_pwrite : Z -> list Z -> Z -> @fs C -> Z * @fs C) (garbage counters : list Z).

Definition deliver {A} (handle : env -> ost server (A * list Z)) (f : net (@fs C)) : rpc A * net (@fs C) :=
  match calls f with
  | [] => (Failed EFAILEDSOCKET, f)
  | (LostRequest code, _) :: rest => (Failed (Z.pos code), {| own := own f; srv := srv f; calls := rest |})
  | (d, x) :: rest =>
      match handle x (srv f) with
      | None => (Failed EFAILEDSOCKET, {| own := own f; srv := srv f; calls := rest |})
      | Some ((a, b), v) =>
          (match d with LostReply code => Failed (Z.pos code) | _ => Replied a b end, {| own := own f; srv := v; calls := rest |})
      end
  end.

Definition bare {S A} (m : ost S A) : ost S (A * list Z) := a ← m; mret (a, []).

Definition on_own {A} (g : @fs C -> A * @fs C) (f : net (@fs C)) : A * net (@fs C) :=
  let '(a, c) := g (own f) in (a, {| own := c; srv := srv f; calls := calls f |}).

Definition net_cache : CacheFs := {|
  rootPath := @rootPath C; totalDirectory := @totalDirectory C; float_undefined := @float_undefined C;
  fs := net (@fs C);
  remove p := on_own (@remove C p);
  access p f := @access C p (own f);
  statfs p f := @statfs C p (own f);
  opendir p f := @opendir C p (own f);
  stat p f := @stat C p (own f)
|}.

(** There is one other node. *)
Definition net_nodes : NodeWorld := {|
  conn := unit; rehash := rehash; CreateIOConnection _ := Some tt; CheckConnection _ _ := 0
|}.

Definition net_brpc : @Brpc net_cache net_nodes := @Build_Brpc net_cache net_nodes
  ENOSERVICE ENOMETHOD EREQUEST ERPCAUTH ERPCTIMEDOUT EFAILEDSOCKET brpc_codes
  (fun _ q => deliver (fun x => bare (handle_OpenFile cfg q (alloc x) x)))
  (fun _ q b => deliver (fun x => bare (handle_CloseFile cfg q b x)))
  (fun _ q => deliver (fun x => handle_ReadFile cfg q x))
  (fun _ q => deliver (fun x => handle_ReadSmallFile cfg q garbage x))
  (fun _ q b => deliver (fun x => bare (handle_WriteFile q b x)))
  (fun _ q => deliver (fun x => bare (handle_DeleteFile cfg q x)))
  (fun _ p => deliver (fun _ => bare (handle_StatFS cfg p)))
  (fun _ q => deliver (fun x => bare (handle_TruncateOpenInstance q x)))
  (fun _ q => deliver (fun x => bare (handle_TruncateFile cfg q x)))
  (fun _ => deliver (fun _ => bare handle_CheckConnection))
  (fun _ scatter i => deliver (fun _ => bare (handle_StatCluster scatter i counters))).

(** The client of the server. *)
Definition net_stream : StreamIO := {|
  stream_cache := net_cache; stream_nodes := net_nodes; stream_brpc := net_brpc;
  pwrite fd b o := on_own (C_pwrite fd b o)
|}.

Lemma EFAILEDSOCKET_nonzero : EFAILEDSOCKET <> 0.
Proof. pose proof brpc_codes as Hb. apply NoDup_cons in Hb as [Hb _]. set_solver. Qed.

Lemma Errno_nonzero e : e <> 0 -> 0 < BrpcErrorCodeToFuseErrno (H1 := net_brpc) e.
Proof. apply BrpcErrorCodeToFuseErrno_sign. Qed.

Lemma Errno_zero e : e <> 0 -> - BrpcErrorCodeToFuseErrno (H1 := net_brpc) e <> 0.
Proof. intros He%Errno_nonzero. lia. Qed.

(** An open that returns 0 has reached the server. *)
Lemma net_OpenFile request f :
  Forall (fun d => alone d.2) (calls f) ->
  let r := rpc_OpenFile (H1 := net_brpc) tt (or_inode_id request) (or_oflags request) UINT64_MAX (or_size request) (or_path request)
             (or_node_fail request) f in
  r.1.1 = 0 -> exists x rep, alone x /\ handle_OpenFile cfg request (alloc x) x (srv f) = Some (rep, srv r.2) /\ or_error_code rep = 0 /\
    r.1.2 = or_physical_fd rep /\ Forall (fun d => alone d.2) (calls r.2).
Proof.
  intros Hc. destruct request as [p ino fl sz nf]. unfold rpc_OpenFile. cbn [stub_OpenFile net_brpc or_path or_inode_id or_oflags or_size or_node_fail].
  pose proof EFAILEDSOCKET_nonzero as He. unfold deliver. destruct (calls f) as [|[d x] rest]; [cbn; intros E0; by apply Errno_nonzero in He; lia|].
  apply Forall_cons in Hc as [Hx Hrest]. set (m := handle_OpenFile cfg _ (alloc x) x). unfold bare, mbind, ost_bind.
  assert (forall code, BrpcErrorCodeToFuseErrno (H1 := net_brpc) (Z.pos code) <> 0) as Hp by (intros code; pose proof (Errno_nonzero (Z.pos code) ltac:(lia)); lia).
  assert (BrpcErrorCodeToFuseErrno (H1 := net_brpc) EFAILEDSOCKET <> 0) as Hs by (apply Errno_nonzero in He; lia).
  destruct (m (srv f)) as [[rep v]|] eqn:Em; destruct d; cbn [fst snd mbind option_bind]; cbn -[BrpcErrorCodeToFuseErrno]; try (by intros ?%Hp); try (by intros ?%Hs).
  case_decide as Hd; [by intros E0; cbn in E0|]. intros _. exists x, rep. split_and!; [done..| |done|done]. by destruct (decide (or_error_code rep = 0)).
Qed.

Section writes.

Context `{!@CacheFsLaws (@stream_cache store_stream)} `{!StoreLaws} `{!FileLaws} (k kfd n : Z) (fd : Z) (Hfd : fd <> UINT64_MAX).

Definition net_serving (f : net (@fs C)) : Prop := serves cfg k kfd n fd (srv f) /\ Forall (fun d => alone d.2) (calls f).

(** A call that writes [b] at [o], if it is [good]. *)
Lemma deliver_writes {A} (good : A -> Prop) (code : A -> Z) o b (handle : env -> ost server A) f :
  net_serving f ->
  (forall x v, alone x -> serves cfg k kfd n fd v -> exists a v', handle x v = Some (a, v') /\ serves cfg k kfd n fd v' /\
     has_written k o b (code a) v v' /\ (code a = 0 -> good a)) ->
  let r := deliver (fun x => bare (handle x)) f in
  net_serving r.2 /\ write_at (stored k (srv r.2)) (Z.to_nat o) b = write_at (stored k (srv f)) (Z.to_nat o) b /\
  match r.1 with
  | Failed e => e <> 0
  | Replied a _ => code a = 0 -> good a /\ stored k (srv r.2) = write_at (stored k (srv f)) (Z.to_nat o) b
  end.
Proof.
  intros [Hs Hc] Hh. pose proof EFAILEDSOCKET_nonzero as He. unfold deliver. destruct (calls f) as [|[d x] rest] eqn:Ec; [cbn; split_and!; [split; [done|by rewrite Ec]|done..]|]. apply Forall_cons in Hc as [Hx Hrest].
  destruct (Hh x (srv f) Hx Hs) as (a & v' & E & Hs' & [W1 W2] & Hg).
  assert (bare (handle x) (srv f) = Some ((a, []), v')) as Eb by (unfold bare, mbind, ost_bind; by rewrite E).
  destruct d; rewrite ?Eb; cbn [fst snd srv calls]; (split; [by split|]); split; try done. auto.
Qed.

(** [r] is the outcome of a call that writes [b] at [o]. *)
Definition net_wrote o b (f : net (@fs C)) (r : Z * net (@fs C)) : Prop :=
  net_serving r.2 /\ (r.1 = 0 -> stored k (srv r.2) = write_at (stored k (srv f)) (Z.to_nat o) b) /\
  write_at (stored k (srv r.2)) (Z.to_nat o) b = write_at (stored k (srv f)) (Z.to_nat o) b.

Lemma net_WriteFile b o f : in_call o b -> net_serving f -> net_wrote o b f (rpc_WriteFile (H1 := net_brpc) tt fd b o f).
Proof.
  intros Hi Hs.
  destruct (deliver_writes (fun rep => u64 (s32 (wr_write_size rep)) = Z.of_nat (length b)) wr_error_code o b
    (fun x => handle_WriteFile {| wr_physical_fd := fd; wr_offset := u64 o |} b x) f Hs) as (D1 & D2 & D3).
  { intros x v Hx Hv. by apply handle_WriteFile_ok. }
  unfold rpc_WriteFile. cbn [stub_WriteFile net_brpc]. destruct (deliver _ f) as [[e|rep att] f']; cbn [fst snd] in *.
  - split_and!; [done| |done]. by intros ?%Errno_zero.
  - case_decide as Hc; [by split_and!|]. assert (wr_error_code rep = 0) as E0 by (by destruct (decide (wr_error_code rep = 0))).
    destruct (D3 E0) as [D4 D5]. rewrite decide_False by auto. by split_and!.
Qed.

Lemma net_CloseFile fl sy b o f : in_call o b -> net_serving f -> net_wrote o b f (rpc_CloseFile (H1 := net_brpc) tt fd fl sy b o f).
Proof.
  intros Hi Hs.
  destruct (deliver_writes (fun _ => True) id o b
    (fun x => handle_CloseFile cfg {| cr_physical_fd := fd; cr_flush := fl; cr_sync := sy; cr_offset := u64 o |} b x) f Hs) as (D1 & D2 & D3).
  { intros x v Hx Hv. destruct (handle_CloseFile_ok cfg k kfd n fd fl sy b o x v) as (a & v' & E & E1 & E2); [done..|]. by exists a, v'. }
  unfold rpc_CloseFile. cbn [stub_CloseFile net_brpc]. destruct (deliver _ f) as [[e|rep att] f']; cbn [fst snd code_only] in *.
  - split_and!; [done| |done]. by intros ?%Errno_zero.
  - split_and!; [done| |done]. intros Hz. by apply (D3 Hz).
Qed.

(** The server is a remote file in the sense of WriteStreamCorrect.v. *)
Definition net_file : @RemoteFile net_stream tt fd.
Proof.
  refine (@Build_RemoteFile net_stream tt fd (fun f => stored k (srv f)) net_serving (fun _ => False) _ _ _ _); try done.
  - intros b o f Hi Hs. by apply net_WriteFile.
  - intros fl sy b o f Hi Hs. by apply net_CloseFile.
Defined.

End writes.


End network.

Module RemoteDemo.

Import Node.

#[local] Instance node_file_laws : FileLaws (H := node_io).
Proof.
  refine (@Build_FileLaws node_io (fun p f => files f !!! p) (fun fd p f => fds f !! fd = Some p) _ _ _ _ _ _); cbn.
  - intros p flags f Hp. case_decide; cbn in *; [|lia]. by apply lookup_insert_eq.
  - intros fd p b o f Hr Ho. unfold write_fd. rewrite Hr. rewrite Nat2Z.id, firstn_all.
    rewrite decide_False by lia. cbn. split; [done|]. by rewrite Nat2Z.id, firstn_all, lookup_total_insert_eq.
  - intros p q f Hne. case_decide; cbn; [|done]. by rewrite lookup_total_delete_ne.
  - done.
  - done.
  - intros a b p f. by case_match.
Defined.

Definition demo_request : OpenRequest :=
  {| or_path := "/b"; or_inode_id := 9; or_oflags := Z.lor O_CREAT O_WRONLY; or_size := 0; or_node_fail := false |}.

Definition demo_server : server := {| table := new_FalconFd 40000; store_ := node_st |}.

(** The reply to the first write is lost. *)
Definition demo_calls : list (fate * env) := [(Delivered, quiet); (LostReply 1008, quiet); (Delivered, quiet); (Delivered, quiet)].

Definition demo_writes : list (list Z * Z * Z) := [([1; 2], 0, 0); ([3], 2, 2); ([9], 1, 3)].

Definition demo_start : @world (net_cache node_cache) := (@new_DiskCache, {| own := node_files; srv := demo_server; calls := demo_calls |}).

Definition demo_session : @act (net_cache node_cache) (Z * list Z * Z) :=
  write_session (H := net_stream node_cfg node_cache write_fd [] []) tt demo_request demo_writes 3 false false {| now := 7; during := fun _ => [] |}.

Lemma demo_ready : ready node_cfg demo_request demo_server.
Proof.
  split; [|exact PinsDemo.node_counted|by vm_compute|exact (table_ok_start 40000)|by vm_compute|split; by eexists|by vm_compute..].
  split_and!; [exact node_started_ok|by vm_compute|done|done].
Qed.


End RemoteDemo.
