(* ===== verification/FalconMeta.v ===== *)
(** * The operations of the client

    falcon_client/src/falcon_meta.cpp with inner_falcon_meta.cpp: each operation of a
    file system, over the calls to the metadata servers (Connection.v), the table of
    open files (FalconFd.v) and the store (FalconStore.v).  FalconReadDir is in
    ClientReadDir.v.

    What is behind the router and the connections is the interface [MetaLink].  A
    process has one table and one store, also when it is a server for other nodes:
    they are the state of IoServer.v.  [None] as in FalconStore.v; an exception that
    nobody catches, or an answer that the client cannot read, is a [None] too. *)

From S2P Require Import FalconPrelude DiskCache StoreNode IoClient WriteStream ReadStream FalconFd FalconStore IoServer.
From S2P Require Import MetaFile ErrorCode MetaMessages Connection.

Definition RETRY_CNT : nat := 3.
Definition EMFILE : Z := 24.
Definition O_EXCL : Z := 128.
Definition S_IFMT : Z := 61440.
Definition S_IFREG : Z := 32768.

(** The router and the connections.  [zk] is whether the program was built with
    ZK_INIT.  The update of a connection to a worker throws when there is no worker
    with its number, the search for the worker of a path when the shard table is
    corrupt. *)
Class MetaLink : Type := {
  zk : bool;
  meta : Type;
  mconn : Type;
  GetCoordinatorConn : meta -> option mconn;
  GetWorkerConnByPath : string -> meta -> option (option mconn);
  TryToUpdateCNConn : mconn -> meta -> option (mconn * meta);
  TryToUpdateWorkerConn : mconn -> meta -> option (mconn * meta);
  Call : forall A : Type, mconn -> request A -> meta -> client_result A * meta
}.

Arguments Call {_} {_}.

Section client.

Context `{StoreIO} `{MetaLink} (cfg : config).

Record client : Type := {
  proc : server;
  link : meta
}.

Definition in_proc {A} (m : ost server A) : ost client A := fun c => '(a, v) ← m (proc c); Some (a, {| proc := v; link := link c |}).
Definition in_link {A} (m : meta -> option (A * meta)) : ost client A := fun c => '(a, l) ← m (link c); Some (a, {| proc := proc c; link := l |}).

(** ** Calls to the metadata servers *)

Definition ask {A} (c : mconn) (r : request A) : ost client (Z * option A) := in_link (fun l =>
  match Call c r l with
  | (Returned e result, l) => Some ((error_num e, result), l)
  | (ClientCrash, _) => None
  end).

(** The loop under ZK_INIT.  What an attempt does not hand out stays as it was. *)
Fixpoint retry_fault {A} (n : nat) (update : mconn -> meta -> option (mconn * meta)) (c : mconn) (r : request A) (res : Z * option A) :
    ost client (Z * option A) :=
  match n with
  | O => mret res
  | S n' =>
      if decide (res.1 = error_num SERVER_FAULT) then
        c ← in_link (update c);
        next ← ask c r;
        retry_fault n' update c r (next.1, match next.2 with Some a => Some a | None => res.2 end)
      else mret res
  end.

Definition attempts : nat := if zk then RETRY_CNT else O.

(** The code and what the call hands out; PROGRAM_ERROR when there is no connection. *)
Definition call_with {A} (conn : option mconn) (update : mconn -> meta -> option (mconn * meta)) (r : request A) :
    ost client (option (Z * option A)) :=
  match conn with
  | None => mret None
  | Some c => first ← ask c r; res ← retry_fault attempts update c r first; mret (Some res)
  end.

Definition coordinator_call {A} (r : request A) : ost client (option (Z * option A)) :=
  conn ← in_link (fun l => Some (GetCoordinatorConn l, l));
  call_with conn TryToUpdateCNConn r.

Definition worker_conn (path : string) : ost client (option mconn) := in_link (fun l => conn ← GetWorkerConnByPath path l; Some (conn, l)).

Definition worker_call {A} (path : string) (r : request A) : ost client (option (Z * option A)) :=
  conn ← worker_conn path; call_with conn TryToUpdateWorkerConn r.

Definition code {A} (res : option (Z * option A)) : Z := match res with None => error_num PROGRAM_ERROR | Some (e, _) => e end.

(** ** Operations on names *)

Definition FalconMkdir (path : string) : ost client Z := res ← coordinator_call (Mkdir path); mret (code res).
Definition FalconRmDir (path : string) : ost client Z := res ← coordinator_call (Rmdir path); mret (code res).
Definition FalconRename (srcName dstName : string) : ost client Z := res ← coordinator_call (Rename srcName dstName); mret (code res).

Definition FalconUtimens (path : string) (accessTime modifyTime : Z) : ost client Z :=
  res ← worker_call path (UtimeNs path accessTime modifyTime); mret (code res).
Definition FalconChown (path : string) (uid gid : Z) : ost client Z := res ← worker_call path (Chown path uid gid); mret (code res).
Definition FalconChmod (path : string) (mode : Z) : ost client Z := res ← worker_call path (Chmod path mode); mret (code res).

(** The result and what is in [stbuf] then. *)
Definition FalconGetStat (path : string) (stbuf : stat) : ost client (Z * stat) :=
  res ← worker_call path (Stat path);
  mret (code res, match res with Some (_, Some st) => st | _ => stbuf end).

(** ** Open and close *)

Definition table_ {A} (f : FalconFd -> A * FalconFd) : ost client A := in_proc (on_table f).
Definition instance_ {A} (h : nat) (m : oact A) : ost client A := in_proc (with_instance h m).
Definition find_fd (fd : Z) : ost client (option nat) := table_ (fun t => (GetOpenInstanceByFd fd t, t)).
Definition delete_fd (fd : Z) : ost client unit := _ ← in_proc (on_table_opt (DeleteOpenInstance fd true)); mret tt.
Definition release : ost client unit := table_ (fun t => (tt, ReleaseOpenInstance t)).

(** The result, the new values of [fd] and of [stbuf]; [junk] is what is in inodeId
    and nodeId when the call hands out nothing, [mem] whether there is memory for
    an instance. *)
Definition FalconCreate (path : string) (fd oflags : Z) (stbuf : stat) (junk : Z * Z) (mem : bool) : ost client (Z * Z * stat) :=
  res ← worker_call path (Create path);
  let '(inodeId, nodeId, stbuf) := match res with Some (_, Some v) => v | _ => (junk, stbuf) end in
  let errorCode := code res in
  let errorCode := if decide (errorCode = error_num FILE_EXISTS /\ has_flag oflags O_EXCL = false) then error_num SUCCESS else errorCode in
  if decide (errorCode <> error_num SUCCESS) then mret (errorCode, fd, stbuf) else
  fd ← in_proc (on_table_opt (AttachFd inodeId oflags [] (u64 (stat_size stbuf)) path nodeId (-1) true mem));
  if decide (fd = UINT64_MAX) then _ ← delete_fd fd; mret (- EMFILE, fd, stbuf) else
  mret (error_num SUCCESS, fd, stbuf).

(** For a small file that is only read FalconOpen reads all of it. *)
Definition reads_small (o : OpenInstance) : bool :=
  ((0 <? oi_originalSize o) && (oi_originalSize o <? READ_BIGFILE_SIZE cfg) && read_only (oi_oflags o))%bool.

Definition FalconOpen (path : string) (oflags fd : Z) (stbuf : stat) (mem : bool) (x : env) : ost client (Z * Z * stat) :=
  conn ← worker_conn path;
  match conn with
  | None => mret (error_num PROGRAM_ERROR, fd, stbuf)
  | Some c =>
      h ← table_ (WaitGetNewOpenInstance true mem);
      match h with
      | None => mret (- EMFILE, fd, stbuf)
      | Some h =>
          first ← ask c (Open path);
          res ← retry_fault attempts TryToUpdateWorkerConn c (Open path) first;
          let '(inodeId, size, nodeId, stbuf) := match res.2 with Some v => v | None => (0, 0, 0, stbuf) end in
          _ ← (if decide (res.1 <> error_num SUCCESS) then release else mret tt);
          _ ← instance_ h (assign (fun o =>
                let o := set_currentSize (u64 size) (set_originalSize (u64 size) (set_inodeId inodeId o)) in
                FalconFd.set_oflags oflags (FalconFd.set_path path (set_nodeId nodeId o))));
          if decide (res.1 <> error_num SUCCESS) then mret (res.1, fd, stbuf) else
          o ← instance_ h this;
          ret ← (if reads_small o then
                   if negb (alloc x) then mret (- ENOMEM) else
                   instance_ h (
                     _ ← assign (fun o => set_readBufferSize (s32 (oi_originalSize o)) (set_readBuffer [] o));
                     ReadSmallFiles cfg x)
                 else mret 0);
          if ret <? 0 then _ ← release; mret (ret, fd, stbuf) else
          fd ← in_proc (on_table_opt (AttachFd_instance h));
          mret (res.1, fd, stbuf)
      end
  end.

(** After the data are flushed: whether the metadata stay as they are. *)
Definition nothing_new (size : Z) (datasync : Z) (o : OpenInstance) : bool :=
  (oi_readFail o || oi_writeFail o || (0 <? datasync) || (negb (oi_nodeFail o) && (size =? oi_originalSize o)))%bool.

Definition FalconClose (path : string) (fd : Z) (isFlush : bool) (datasync : Z) (x : env) : ost client Z :=
  found ← find_fd fd;
  match found with
  | None => mret (error_num NOT_FOUND_FD)
  | Some h =>
      let done ret := if isFlush then mret ret else _ ← delete_fd fd; mret ret in
      o ← instance_ h this;
      let size := oi_currentSize o in
      innerRet ← (if oi_isOpened o then instance_ h (CloseTmpFiles cfg isFlush (0 <=? datasync) x) else mret 0);
      if decide (innerRet <> 0) then done innerRet else
      o ← instance_ h this;
      if nothing_new size datasync o then done (if oi_readFail o then - EIO else error_num SUCCESS) else
      conn ← worker_conn path;
      match conn with
      | None => mret (error_num PROGRAM_ERROR)
      | Some c =>
          let r := Close path (s64 size) 0 (oi_nodeId o) in
          first ← ask c r;
          res ← retry_fault attempts TryToUpdateWorkerConn c r first;
          _ ← instance_ h (assign (set_originalSize size));
          done res.1
      end
  end.

Definition FalconFsync (path : string) (fd datasync : Z) (x : env) : ost client Z :=
  FalconClose path fd true (if decide (datasync = 0) then 0 else 1) x.

(** ** Data *)

(** The data are deleted after the name; their result is only logged. *)
Definition FalconUnlink (path : string) (x : env) : ost client Z :=
  res ← worker_call path (Unlink path);
  let '(inodeId, _, nodeId) := match res with Some (_, Some v) => v | _ => (0, 0, 0) end in
  _ ← (if decide (code res = error_num SUCCESS) then in_proc (in_store (DeleteFiles cfg inodeId nodeId path x)) else mret 0);
  mret (code res).

Definition FalconWrite (fd : Z) (buffer : list Z) (offset : Z) (x : env) : ost client Z :=
  found ← find_fd fd;
  match found with
  | None => mret (- EBADF)
  | Some h => instance_ h (_ ← count_write; WriteFile cfg buffer offset x)
  end.

(** The result and the bytes that were put into the buffer. *)
Definition FalconRead (fd size offset : Z) (x : env) : ost client (Z * list Z) :=
  found ← find_fd fd;
  match found with
  | None => mret (- EBADF, [])
  | Some h =>
      instance_ h (
        r ← ReadFile cfg size offset x;
        _ ← (if r.1 <? 0 then assign (set_readFail true) else mret tt);
        mret r)
  end.

Definition FalconStatFS (buf : StatFSBuf) : ost client (Z * StatFSBuf) := in_proc (in_store (StatFS cfg buf)).

Definition zero_stbuf : stat := mkStat 0 0 0 0 0 0 0 0 0 0 (mkTimespec 0 0) (mkTimespec 0 0) (mkTimespec 0 0).

Definition S_ISREG (mode : Z) : bool := bool_decide (Z.land mode S_IFMT = S_IFREG).

(** The object is copied, the name is changed, and one of the two objects deleted. *)
Definition FalconRenamePersist (srcName dstName : string) : ost client Z :=
  r ← FalconGetStat srcName zero_stbuf;
  if decide (r.1 <> 0) then mret r.1 else
  if negb (S_ISREG (stat_mode r.2)) then mret (- EOPNOTSUPP) else
  ret ← in_proc (in_store (CopyData srcName dstName));
  if decide (ret <> 0) then mret ret else
  res ← coordinator_call (Rename srcName dstName);
  match res with
  | None => mret (error_num PROGRAM_ERROR)
  | Some (errorCode, _) =>
      _ ← in_proc (in_store (DeleteDataAfterRename (if decide (errorCode = error_num SUCCESS) then srcName else dstName)));
      mret errorCode
  end.

(** [hs] is the set of the instances of the inode, in the order of its iterator. *)
Fixpoint truncate_all (hs : list nat) (size : Z) (x : env) : ost client unit :=
  match hs with
  | [] => mret tt
  | h :: hs' => _ ← instance_ h (TruncateOpenInstance size x); truncate_all hs' size x
  end.

Definition FalconTruncate (path : string) (size : Z) (mem : bool) (x : env) : ost client Z :=
  r ← FalconOpen path O_WRONLY 0 zero_stbuf mem x;
  let '(ret, fd, _) := r in
  if decide (ret <> 0) then _ ← FalconClose path fd true (-1) x; _ ← FalconClose path fd false (-1) x; mret ret else
  found ← find_fd fd;
  match found with
  | None => ost_undefined
  | Some h =>
      o ← instance_ h this;
      set ← table_ (fun t => (GetInodetoOpenInstanceSet (oi_inodeId o) t, t));
      _ ← truncate_all (elements set) size x;
      ret ← instance_ h (
        _ ← count_write;
        _ ← assign (set_originalSize (oi_originalSize o));
        ret ← TruncateFile cfg size x;
        _ ← (if decide (ret <> 0) then assign (set_writeFail true) else mret tt);
        mret ret);
      flushRet ← FalconClose path fd true (-1) x;
      let ret := if decide (flushRet <> 0 /\ ret = 0) then flushRet else ret in
      releaseRet ← FalconClose path fd false (-1) x;
      mret (if decide (releaseRet <> 0 /\ ret = 0) then releaseRet else ret)
  end.

(** ** Directories *)

(** The result, and the new [fh] of [fi]. *)
Definition FalconOpenDir (path : string) (fh : Z) (mem : bool) : ost client (Z * Z) :=
  res ← coordinator_call (OpenDir path);
  if decide (code res = 0) then
    fd ← in_proc (on_table_opt (AttachDirFd mem)); mret (code res, fd)
  else mret (code res, fh).

Definition FalconCloseDir (fd : Z) : ost client Z :=
  found ← table_ (fun t => (GetDirOpenInstanceByFd fd t, t));
  match found with
  | None => mret (error_num NOT_FOUND_FD)
  | Some _ => table_ (DeleteDirOpenInstance fd)
  end.

End client.

Arguments client {_ _}.
