(* ===== verification/Fuse.v ===== *)
(** * The front end

    falcon_client/fuse_main.cpp: the callbacks of FUSE over the operations of
    FalconMeta.v, and falcon_client/src/error_code.cpp.  The statistics are not
    modelled; DoReadDir is FalconReadDir of ClientReadDir.v behind the tests of the
    other callbacks.  A pointer that may be null is an [option]. *)

From S2P Require Import FalconPrelude DiskCache StoreNode IoClient WriteStream ReadStream FalconFd FalconStore StoreDemo IoServer.
From S2P Require Import MetaFile ErrorCode MetaMessages Connection FalconMeta.

Definition ESRCH : Z := 3.
Definition ENXIO : Z := 6.
Definition EEXIST : Z := 17.
Definition EILSEQ : Z := 84.
Definition ECONNRESET : Z := 104.
Definition ENOTCONN : Z := 107.
Definition EREMOTEIO : Z := 121.

Definition ErrorCodeToErrno (errorCode : Z) : Z :=
  match error_of_num errorCode with
  | Some SUCCESS => 0
  | Some PATH_IS_INVALID => ENOENT
  | Some WRONG_WORKER => ESRCH
  | Some OBSOLETE_SHARD => ENXIO
  | Some REMOTE_QUERY_FAILED => EREMOTEIO
  | Some ARGUMENT_ERROR => EINVAL
  | Some INODE_ROW_TYPE_ERROR => EILSEQ
  | Some FILE_EXISTS => EEXIST
  | Some FILE_NOT_EXISTS => ENOENT
  | Some OUT_OF_MEMORY => ENOMEM
  | Some STREAM_ERROR => EIO
  | Some PROGRAM_ERROR => EFAULT
  | Some SMART_ROUTE_ERROR => EHOSTUNREACH
  | Some SERVER_FAULT => ECONNRESET
  | Some UNDEFINED => EAGAIN
  | Some MKDIR_DUPLICATE => error_num MKDIR_DUPLICATE
  | Some XKEY_EXISTS => EEXIST
  | Some XKEY_NOT_EXISTS => ENOENT
  | Some ZK_NOT_CONNECT => ENOTCONN
  | Some ZK_FETCH_RESULT_FAILED => EIO
  | Some TRANSACTION_FAULT => EIO
  | Some POOLED_FAULT => EAGAIN
  | Some NOT_FOUND_FD => EBADF
  | Some GET_ALL_WORKER_CONN_FAILED => EHOSTUNREACH
  | Some IO_ERROR => EIO
  | Some PATH_NOT_EXISTS => ENOENT
  | Some PATH_VERIFY_FAILED => EINVAL
  | _ => EIO
  end.

(** [ret > 0 ? -ErrorCodeToErrno(ret) : ret] *)
Definition to_errno (ret : Z) : Z := if 0 <? ret then - ErrorCodeToErrno ret else ret.

Definition UTIME_NOW : Z := 1073741823.

Section callbacks.

Context `{StoreIO} `{MetaLink} (cfg : config) (g_persist : bool).

(** A callback begins with the test of its path. *)
Definition with_path {A} (path : option string) (invalid : A) (m : string -> ost client A) : ost client A :=
  match path with
  | None | Some EmptyString => mret invalid
  | Some p => m p
  end.

Definition on_path (path : option string) (m : string -> ost client Z) : ost client Z :=
  with_path path (- EINVAL) (fun p => ret ← m p; mret (to_errno ret)).

(** A name that begins with the character 1 comes from the look-up of a component
    of a path: the next character says whether it is one in the middle, and both
    are taken out.  A name that ends before is read past its end. *)
Fixpoint strrchr (path : string) (c : Ascii.ascii) : option nat :=
  match path with
  | EmptyString => None
  | String a path' =>
      match strrchr path' c with
      | Some i => Some (S i)
      | None => if decide (a = c) then Some O else None
      end
  end.

Definition lookup_name (path : string) : option (option Ascii.ascii * string) :=
  match strrchr path SLASH with
  | Some i =>
      if decide (String.get (S i) path = Some (Ascii.ascii_of_nat 1)) then
        flag ← String.get (i + 2) path;
        Some (Some flag, String.substring 0 (S i) path +:+ String.substring (i + 3) (String.length path - (i + 3)) path)
      else Some (None, path)
  | None => Some (None, path)
  end.

Definition set_mode (mode : Z) (st : stat) : stat :=
  mkStat (stat_ino st) (stat_dev st) mode (stat_nlink st) (stat_uid st) (stat_gid st) (stat_rdev st) (stat_size st) (stat_blksize st)
    (stat_blocks st) (stat_atim st) (stat_mtim st) (stat_ctim st).

(** The result, and what is in [stbuf]; 16895 is 040777. *)
Definition DoGetAttr (path : option string) (stbuf : stat) : ost client (Z * stat) :=
  with_path path (- EINVAL, stbuf) (fun p =>
    r ← ost_opt (lookup_name p);
    if decide (r.1 = Some (Ascii.ascii_of_nat 49)) then mret (0, set_mode 16895 stbuf) else
    r ← FalconGetStat r.2 stbuf; mret (to_errno r.1, r.2)).

Definition DoMkDir (path : option string) : ost client Z := on_path path FalconMkdir.
Definition DoRmDir (path : option string) : ost client Z := on_path path FalconRmDir.
Definition DoUnlink (path : option string) (x : env) : ost client Z := on_path path (fun p => FalconUnlink cfg p x).
Definition DoChmod (path : option string) (mode : Z) : ost client Z := on_path path (fun p => FalconChmod p mode).
Definition DoChown (path : option string) (uid gid : Z) : ost client Z := on_path path (fun p => FalconChown p uid gid).

(** The result and the new [fh]. *)
Definition DoOpen (path : option string) (flags fh : Z) (mem : bool) (x : env) : ost client (Z * Z) :=
  with_path path (- EINVAL, fh) (fun p => r ← FalconOpen cfg p flags UINT64_MAX zero_stbuf mem x; mret (to_errno r.1.1, r.1.2)).

Definition DoCreate (path : option string) (flags fh : Z) (junk : Z * Z) (mem : bool) : ost client (Z * Z) :=
  with_path path (- EINVAL, fh) (fun p => r ← FalconCreate p 0 flags zero_stbuf junk mem; mret (to_errno r.1.1, r.1.2)).

Definition DoOpenAtomic (path : option string) (stbuf : stat) (flags fh : Z) (junk : Z * Z) (mem : bool) (x : env) :
    ost client (Z * Z * stat) :=
  with_path path (- EINVAL, fh, stbuf) (fun p =>
    if has_flag flags O_CREAT then
      r ← FalconCreate p UINT64_MAX flags stbuf junk mem;
      let ret := if decide (r.1.1 = error_num FILE_EXISTS /\ has_flag flags O_EXCL = false) then error_num SUCCESS else r.1.1 in
      mret (to_errno ret, r.1.2, r.2)
    else r ← FalconOpen cfg p flags UINT64_MAX stbuf mem x; mret (to_errno r.1.1, r.1.2, r.2)).

Definition DoOpenDir (path : option string) (fh : Z) (mem : bool) : ost client (Z * Z) :=
  with_path path (- EINVAL, fh) (fun p => r ← FalconOpenDir p fh mem; mret (to_errno r.1, r.2)).

Definition DoAccess (path : option string) : ost client Z := with_path path (- EINVAL) (fun _ => mret 0).
Definition DoSetXAttr (path : option string) (value : option string) : ost client Z :=
  match value with None => mret (- EINVAL) | Some _ => with_path path (- EINVAL) (fun _ => mret 0) end.

Definition DoRelease (path : option string) (fh : Z) (x : env) : ost client Z := on_path path (fun p => FalconClose cfg p fh false (-1) x).
Definition DoFlush (path : option string) (fh : Z) (x : env) : ost client Z := on_path path (fun p => FalconClose cfg p fh true (-1) x).
Definition DoFsync (path : option string) (datasync fh : Z) (x : env) : ost client Z := on_path path (fun p => FalconFsync cfg p fh datasync x).
Definition DoReleaseDir (path : option string) (fh : Z) : ost client Z := on_path path (fun _ => FalconCloseDir fh).

(** The result of FalconWrite is kept in an unsigned variable and becomes an [int]
    again. *)
Definition DoWrite (path : option string) (buffer : option (list Z)) (offset fh : Z) (x : env) : ost client Z :=
  match buffer with
  | None => mret (- EINVAL)
  | Some b => with_path path (- EINVAL) (fun _ =>
      ret ← FalconWrite cfg fh b offset x;
      mret (if decide (u32 ret <> 0) then s32 (u32 ret) else s32 (Z.of_nat (length b))))
  end.

(** The result and the bytes that were put into the buffer, which is not null. *)
Definition DoRead (path : option string) (size offset fh : Z) (x : env) : ost client (Z * list Z) :=
  with_path path (- EINVAL, []) (fun _ => FalconRead cfg fh size offset x).

(** DoFtruncate is the same: the open file is not used. *)
Definition DoTruncate (path : option string) (size : Z) (mem : bool) (x : env) : ost client Z :=
  on_path path (fun p => FalconTruncate cfg p size mem x).

Definition DoRename (srcPath dstPath : option string) : ost client Z :=
  on_path srcPath (fun src => match dstPath with
    | None | Some EmptyString => mret (- EINVAL)
    | Some dst => if g_persist then FalconRenamePersist src dst else FalconRename src dst
    end).

(** The result and what is in [vfsBuf], which is not null. *)
Definition DoStatfs (path : option string) (vfsBuf : StatFSBuf) : ost client (Z * StatFSBuf) :=
  with_path path (- EINVAL, vfsBuf) (fun _ => r ← FalconStatFS cfg vfsBuf; mret (to_errno r.1, r.2)).

Definition DoUtimens (path : option string) (tv : option (timespec * timespec)) : ost client Z :=
  on_path path (fun p =>
    match tv with
    | None => FalconUtimens p (-1) (-1)
    | Some (a, m) => if decide (tv_nsec a = UTIME_NOW) then FalconUtimens p (-1) (-1) else FalconUtimens p (tv_sec a) (tv_sec m)
    end).

(** ** What FUSE is told *)

Lemma ErrorCodeToErrno_positive errorCode : 0 < errorCode -> 0 < ErrorCodeToErrno errorCode.
Proof.
  intros Hp. unfold ErrorCodeToErrno. destruct (error_of_num errorCode) as [e|] eqn:E; [|done]. destruct e; try done.
  unfold error_of_num in E. destruct (Z.ltb_spec errorCode 0); [done|].
  assert (NoDup all_error_codes) as Hn by (apply (bool_decide_unpack _); by vm_compute).
  pose proof (NoDup_lookup all_error_codes _ 0%nat _ Hn E eq_refl). lia.
Qed.

Lemma to_errno_sign ret : to_errno ret <= 0 /\ (to_errno ret = 0 <-> ret = 0).
Proof.
  unfold to_errno. destruct (Z.ltb_spec 0 ret) as [Hp|Hp]; [|lia]. apply ErrorCodeToErrno_positive in Hp as Hq. lia.
Qed.

(** What a callback returns.  A callback that is an operation behind the test of its
    path never returns a positive number, which FUSE would not take for an error,
    and it returns 0 exactly when there is a path and the operation has succeeded:
    every code of the metadata servers becomes an error number. *)
Theorem callback_result path m c ret c' :
  on_path path m c = Some (ret, c') ->
  ret <= 0 /\ (ret = 0 <-> exists p, path = Some p /\ p <> EmptyString /\ m p c = Some (0, c')).
Proof.
  intros E. unfold on_path, with_path in E. destruct path as [[|a p]|].
  - injection E as <- _. split; [done|]. split; [done|]. by intros (p & [= <-] & Hp & _).
  - unfold mbind, ost_bind in E. destruct (m (String a p) c) as [[r c1]|] eqn:Em; [|done]. injection E as <- <-. destruct (to_errno_sign r) as [H1 H2].
    split; [done|]. rewrite H2. split; [intros ->; eauto|]. intros (q & [= <-] & _ & Eq). rewrite Em in Eq. by injection Eq.
  - injection E as <- _. split; [done|]. split; [done|]. by intros (p & [=] & _).
Qed.

End callbacks.

Module FuseDemo.

Import Node.

(** A client that cannot reach any metadata server. *)
#[local] Instance no_link : MetaLink := {
  zk := false; meta := unit; mconn := unit; GetCoordinatorConn _ := None; GetWorkerConnByPath _ _ := Some None;
  TryToUpdateCNConn c l := Some (c, l); TryToUpdateWorkerConn c l := Some (c, l); Call A _ _ l := (ClientCrash, l)
}.

Definition lonely : client := {| proc := {| table := new_FalconFd 2; store_ := node_st |}; link := tt |}.

Lemma callback_result_witness :
  exists c, DoMkDir (Some "/d") lonely = Some (- EFAULT, c) /\ ~ (exists p, Some "/d" = Some p /\ p <> EmptyString /\ FalconMkdir p lonely = Some (0, c)).
Proof.
  exists lonely. assert (DoMkDir (Some "/d") lonely = Some (- EFAULT, lonely)) as E by reflexivity. split; [exact E|].
  destruct (callback_result (Some "/d") FalconMkdir lonely (- EFAULT) lonely E) as [_ H1]. by rewrite <- H1.
Defined.

End FuseDemo.
