(* ===== verification/ClientFiles.v ===== *)
(** * The open files of a client

    What holds of the table of open files through the callbacks of Fuse.v, whatever
    the metadata servers, the network and the disk answer. *)

From S2P Require Import FalconPrelude DiskCache DiskCacheCorrect StoreNode IoClient WriteStream ReadStream FalconFd FalconStore StoreSpace StoreDemo StorePins IoServer.
From S2P Require Import MetaFile ErrorCode MetaMessages Connection FalconMeta Fuse.

Create HintDb names.

(** ** What the store leaves of an instance *)

Section names.

Context `{StoreIO} (cfg : config).

(** The number and the inode of an instance stay. *)
Definition same_names {A} (m : oact A) : Prop :=
  forall p a p', m p = Some (a, p') -> oi_fd p'.1 = oi_fd p.1 /\ oi_inodeId p'.1 = oi_inodeId p.1.

Lemma names_bind {A B} (m : oact A) (g : A -> oact B) : same_names m -> (forall a, same_names (g a)) -> same_names (m ≫= g).
Proof.
  intros Hm Hg p b p' E. apply ost_bind_inv in E as (a & p1 & E1 & E2). destruct (Hm _ _ _ E1) as [<- <-]. exact (Hg _ _ _ _ E2).
Qed.

Lemma names_ret {A} (a : A) : same_names (mret a).
Proof. by intros p b p' [= _ <-]. Qed.

Lemma names_undefined {A} : same_names (ost_undefined : oact A).
Proof. by intros p b p'. Qed.

Lemma names_opt {A} (a : option A) : same_names (ost_opt a).
Proof. destruct a; [apply names_ret|by intros p b p']. Qed.

Lemma names_this : same_names this.
Proof. by intros p b p' [= _ <-]. Qed.

Lemma names_store {A} (m : bact A) : same_names (on_store m).
Proof. intros p b p' [_ E]%on_store_inv. by rewrite E. Qed.

Lemma names_assign f : (forall o, oi_fd (f o) = oi_fd o /\ oi_inodeId (f o) = oi_inodeId o) -> same_names (assign f).
Proof. intros Hf p b p' [= _ <-]. apply Hf. Qed.

#[local] Hint Resolve names_ret names_undefined names_opt names_this names_store : names.

(** [names]: an operation that is made of others. *)
Ltac names := repeat lazymatch goal with
  | |- same_names (mbind _ _) => apply names_bind
  | |- same_names (assign _) => apply names_assign; by intros []
  | |- same_names (match ?x with _ => _ end) => destruct x
  | |- same_names _ => solve [eauto with names]
  | |- forall _, _ => intro
  end.

Lemma AllocNodeId_names : same_names (AllocNodeId cfg).
Proof. unfold AllocNodeId. names. Qed.
Lemma is_local_names : same_names is_local.
Proof. unfold is_local. names. Qed.
Lemma fill_buffer_names b : same_names (fill_buffer b).
Proof. unfold fill_buffer. names. Qed.
#[local] Hint Resolve AllocNodeId_names is_local_names fill_buffer_names : names.

Lemma DownLoadFromStorage_names a b x : same_names (DownLoadFromStorage a b x).
Proof. unfold DownLoadFromStorage. names. Qed.
Lemma remote_call_names l c : same_names (remote_call l c).
Proof. unfold remote_call. names. Qed.
Lemma switch_node_names : same_names (switch_node cfg).
Proof. unfold switch_node. names. Qed.
#[local] Hint Resolve DownLoadFromStorage_names remote_call_names switch_node_names : names.

Lemma remote_loop_names open l n : same_names open -> forall k ret c, same_names (remote_loop cfg open l n k ret c).
Proof. intros Ho. induction n as [|n IH]; intros [|k] ret c; cbn [remote_loop]; names. Qed.
#[local] Hint Resolve remote_loop_names : names.

Lemma OpenFileFromRemote_names open l : same_names open -> same_names (OpenFileFromRemote cfg open l).
Proof. intros Ho. unfold OpenFileFromRemote. names. Qed.
Lemma open_local_names x : same_names (open_local cfg x).
Proof. unfold open_local. names. Qed.
Lemma set_up_stream_names : same_names set_up_stream.
Proof. unfold set_up_stream. names. Qed.
#[local] Hint Resolve OpenFileFromRemote_names open_local_names set_up_stream_names : names.

Lemma open_file_names n x : same_names (open_file cfg n x).
Proof. induction n as [|n IH]; cbn [open_file]; names. Qed.
Lemma OpenFile_names x : same_names (OpenFile cfg x).
Proof. apply open_file_names. Qed.
#[local] Hint Resolve OpenFile_names : names.
Lemma open_once_names x : same_names (open_once cfg x).
Proof. unfold open_once. names. Qed.
Lemma StopPreReadThreaded_names : same_names StopPreReadThreaded.
Proof. unfold StopPreReadThreaded. names. Qed.
#[local] Hint Resolve open_once_names StopPreReadThreaded_names : names.

Lemma WriteFile_names b o x : same_names (WriteFile cfg b o x).
Proof. unfold WriteFile. names. Qed.
Lemma persist_written_names x : same_names (persist_written x).
Proof. unfold persist_written. names. Qed.
Lemma ReadFileLR_names o s x : same_names (ReadFileLR cfg o s x).
Proof. unfold ReadFileLR. names. Qed.
#[local] Hint Resolve persist_written_names ReadFileLR_names : names.
Lemma ReadToBuffer_names s o x : same_names (ReadToBuffer cfg s o x).
Proof. unfold ReadToBuffer, RandomRead, SequenceRead. names. Qed.
Lemma StartPreReadThreaded_names x : same_names (StartPreReadThreaded cfg x).
Proof. unfold StartPreReadThreaded. names. Qed.
#[local] Hint Resolve ReadToBuffer_names StartPreReadThreaded_names : names.
Lemma ReadFile_names s o x : same_names (ReadFile cfg s o x).
Proof. unfold ReadFile. names. Qed.

Lemma close_body_names m f s x : same_names m -> same_names (close_body cfg m f s x).
Proof. intros Hm. unfold close_body, close_local. names. Qed.
Lemma CloseTmpFiles_names f s x : same_names (CloseTmpFiles cfg f s x).
Proof. apply close_body_names, close_body_names, names_undefined. Qed.
Lemma ReadSmallFiles_names x : same_names (ReadSmallFiles cfg x).
Proof. unfold ReadSmallFiles, WriteToFileAsync. names. Qed.
Lemma TruncateFile_names s x : same_names (TruncateFile cfg s x).
Proof. unfold TruncateFile. names. Qed.
Lemma TruncateOpenInstance_names s x : same_names (TruncateOpenInstance s x).
Proof. unfold TruncateOpenInstance. names. Qed.

End names.

(** ** The number of open instances *)

Section count.

Context `{StoreIO} `{MetaLink} (cfg : config) (g_persist : bool).

Implicit Types (t : FalconFd) (k n M : Z).

(** [k] instances are counted that have no descriptor yet; descriptors are below
    [n], and [M] is the maximum. *)
Record inv M k n t : Prop := {
  iv_ok : table_ok t;
  iv_next : nextFD t <= n;
  iv_size : Z.of_nat (size (openInstanceMap t)) + 3 <= nextFD t;
  iv_count : currOpenInstance t = Z.of_nat (size (openInstanceMap t)) + k;
  iv_maxNum : maxOpenInstanceNum t = M;
  iv_bound : M = 0 \/ currOpenInstance t <= M
}.

(** The instance [h] has no descriptor yet. *)
Definition fresh h t : Prop := exists o, heap t !! h = Some o /\ oi_fd o = UINT64_MAX.

Lemma fresh_unattached M k n h t o :
  inv M k n t -> n < UINT64_MAX -> heap t !! h = Some o -> oi_fd o = UINT64_MAX -> openInstanceMap t !! oi_fd o <> Some h.
Proof. intros Hi Hn Ho Hf E. rewrite Hf in E. destruct (tk_fd _ (iv_ok _ _ _ _ Hi) _ _ E) as [Hr _]. pose proof (iv_next _ _ _ _ Hi). lia. Qed.

Lemma inv_cell M k n h o o' t :
  inv M k n t -> heap t !! h = Some o -> oi_fd o' = oi_fd o -> (oi_inodeId o' = oi_inodeId o \/ openInstanceMap t !! oi_fd o <> Some h) ->
  inv M k n (set_cell h o' t).
Proof. intros [] Ho Hf Hi. split; try done. by eapply table_ok_update. Qed.

Lemma files_inv_new M n mem t r t' : inv M 0 n t -> n < 2 ^ 32 -> WaitGetNewOpenInstance true mem t = (r, t') ->
  match r with None => t' = t | Some h => inv M 1 n t' /\ fresh h t' end.
Proof.
  intros Hi Hn E. pose proof (table_ok_new true mem t (iv_ok _ _ _ _ Hi)) as Hok. rewrite E in Hok. cbn in Hok.
  unfold WaitGetNewOpenInstance in E. cbn in E. destruct (negb (maxOpenInstanceNum t =? 0) && negb (currOpenInstance t <? maxOpenInstanceNum t))%bool eqn:Em.
  { by injection E as <- <-. }
  destruct mem; [|by injection E as <- <-]. injection E as <- <-. destruct Hi as [_ I2 I3 I4 I5 I6].
  assert (u32 (currOpenInstance t + 1) = currOpenInstance t + 1) as Eu by (apply wrap_small; unfold in_range; lia).
  rewrite Eu in Hok. split; [split; cbn; rewrite ?Eu; try done; try lia|exists new_OpenInstance; cbn; by rewrite lookup_insert_eq].
Qed.

Lemma inv_release M n t : inv M 1 n t -> n < 2 ^ 32 -> inv M 0 n (ReleaseOpenInstance t).
Proof.
  intros [I1 I2 I3 I4 I5 I6] Hn. assert (u32 (currOpenInstance t - 1) = currOpenInstance t - 1) as Eu by (apply wrap_small; unfold in_range; lia).
  split; cbn; rewrite ?Eu; try done; try lia. by apply table_ok_count.
Qed.

(** The descriptor is given out. *)
Lemma inv_attach M n h o t :
  inv M 1 n t -> n < UINT64_MAX -> is_Some (heap t !! h) -> (forall fd, openInstanceMap t !! fd <> Some h) -> oi_fd o = nextFD t ->
  inv M 0 (n + 1) (inode_insert (oi_inodeId o) h (AddOpenInstance (nextFD t) h (set_cell h o (set_nextFD (nextFD t + 1) t)))).
Proof.
  intros Hi Hn Hh Hu Ho. destruct Hi as [I1 I2 I3 I4 I5 I6]. pose proof (table_ok_attach t h o I1 Hh Hu Ho) as Hok.
  assert (openInstanceMap t !! nextFD t = None) as Hf by (destruct (openInstanceMap t !! nextFD t) eqn:E1; [|done]; apply (tk_fd _ I1) in E1; lia).
  unfold AddOpenInstance in *. cbn in *. rewrite Hf in *. split; cbn; try done; try lia.
  - rewrite map_size_insert_None by done. lia.
  - rewrite map_size_insert_None by done. lia.
Qed.

Lemma inv_AttachFd_instance M n h t fd t' :
  inv M 1 n t -> fresh h t -> n < UINT64_MAX -> AttachFd_instance h t = Some (fd, t') -> inv M 0 (n + 1) t'.
Proof.
  intros Hi (o & Ho & Hf) Hn E. pose proof (tk_next _ (iv_ok _ _ _ _ Hi)). pose proof (iv_next _ _ _ _ Hi).
  unfold AttachFd_instance in E. rewrite ObtainFd_next in E by lia. cbn [mbind option_bind] in E.
  change (heap (set_nextFD _ t)) with (heap t) in E. rewrite Ho in E. injection E as <- <-.
  apply (inv_attach M n h (set_fd (nextFD t) o)); [done|done|by eexists| |done].
  eapply attached_fd; [apply Hi|done|]. by eapply fresh_unattached.
Qed.

Lemma inv_AttachFd M n ino fl buf sz p nd b r a t fd t' :
  inv M 0 n t -> n + 1 < 2 ^ 32 -> AttachFd ino fl buf sz p nd b r a t = Some (fd, t') -> inv M 0 (n + 1) t'.
Proof.
  intros Hi Hn E. unfold AttachFd in E. destruct (WaitGetNewOpenInstance true a t) as [h t1] eqn:Ew.
  pose proof (files_inv_new _ _ _ _ _ _ Hi ltac:(lia) Ew) as Hw. destruct h as [h|].
  - destruct Hw as [Hi1 (o & Ho & Hf)]. pose proof (tk_next _ (iv_ok _ _ _ _ Hi1)). pose proof (iv_next _ _ _ _ Hi1).
    rewrite ObtainFd_next in E by (unfold UINT64_MAX; lia). cbn [mbind option_bind] in E. change (heap (set_nextFD _ t1)) with (heap t1) in E. rewrite Ho in E.
    cbn [mbind option_bind] in E. set (o' := FalconFd.set_path p _) in E. assert (oi_inodeId o' = ino /\ oi_fd o' = nextFD t1) as [Ei Ef] by (by destruct r).
    injection E as <- <-. rewrite <- Ei at 1. apply inv_attach; [done|unfold UINT64_MAX; lia|by eexists| |done].
    eapply attached_fd; [apply Hi1|done|]. eapply fresh_unattached; [done|unfold UINT64_MAX; lia|done|done].
  - injection E as <- <-. subst t1. destruct Hi. split; try done. lia.
Qed.

Lemma inv_delete M n fd ret t t' : inv M 0 n t -> n < 2 ^ 32 -> DeleteOpenInstance fd true t = Some (ret, t') -> inv M 0 n t'.
Proof.
  intros Hi Hn E. destruct (table_ok_delete _ _ _ _ _ (iv_ok _ _ _ _ Hi) E) as (Hok & Hnx & _). destruct Hi as [I1 I2 I3 I4 I5 I6].
  unfold DeleteOpenInstance in E. case_decide; [by injection E as <- <-|].
  destruct (openInstanceMap t !! fd) as [h|] eqn:Ef; [|by injection E as <- <-].
  destruct (heap t !! h) as [o|]; [|done]. cbn in E. injection E as <- <-.
  pose proof (map_size_delete_Some fd (openInstanceMap t) ltac:(rewrite Ef; by eexists)) as Es.
  assert (size (openInstanceMap t) <> O) by (intros E0; apply map_size_empty_inv in E0; by rewrite E0, lookup_empty in Ef).
  assert (u32 (currOpenInstance t - 1) = currOpenInstance t - 1) as Eu by (apply wrap_small; unfold in_range; lia).
  split; [exact Hok|..]; cbn; rewrite ?Eu, ?Es; try done; try lia.
Qed.

Lemma inv_AttachDirFd M n mem t fd t' : inv M 0 n t -> n < UINT64_MAX -> AttachDirFd mem t = Some (fd, t') -> inv M 0 (n + 1) t'.
Proof.
  intros Hi Hn E. pose proof (tk_next _ (iv_ok _ _ _ _ Hi)). destruct Hi as [I1 I2 I3 I4 I5 I6].
  unfold AttachDirFd in E. rewrite ObtainFd_next in E by lia. cbn -[AddDirOpenInstance] in E.
  assert (inv M 0 (n + 1) (set_nextFD (nextFD t + 1) t)) as Hi' by (split; cbn; try done; try lia; by apply table_ok_next).
  destruct mem; injection E as <- <-; [|done].
  pose proof (table_ok_dir _ ClientReadDir.new_DirOpenInstance t I1 ltac:(lia) eq_refl) as Hok. destruct Hi'. unfold AddDirOpenInstance in *. cbn in *.
  destruct (dirOpenInstanceMap t !! nextFD t); split; done.
Qed.

Lemma inv_dir_delete M n fd t : inv M 0 n t -> inv M 0 n (DeleteDirOpenInstance fd t).2.
Proof.
  intros Hi. pose proof (table_ok_dir_delete fd t (iv_ok _ _ _ _ Hi)) as Hok. destruct Hi. unfold DeleteDirOpenInstance in *.
  destruct (dirOpenInstanceMap t !! fd); split; done.
Qed.

Lemma inv_mono M k n n' t : n <= n' -> inv M k n t -> inv M k n' t.
Proof. intros Hn []. split; try done. lia. Qed.

(** *** Steps of the client *)

Definition tri {A} (P : FalconFd -> Prop) (m : ost client A) (Q : A -> FalconFd -> Prop) : Prop :=
  forall c a c', P (table (proc c)) -> m c = Some (a, c') -> Q a (table (proc c')).

Lemma tri_bind {A B} P (m : ost client A) R (g : A -> ost client B) Q : tri P m R -> (forall a, tri (R a) (g a) Q) -> tri P (m ≫= g) Q.
Proof. intros Hm Hg c b c' Hc E. apply ost_bind_inv in E as (a & c1 & E1 & E2). eapply Hg; [|exact E2]. by eapply Hm. Qed.

Lemma tri_ret {A} (a : A) (P : FalconFd -> Prop) Q : (forall t, P t -> Q a t) -> tri P (mret a) Q.
Proof. intros Hq c b c' Hc [= <- <-]. by apply Hq. Qed.

Lemma tri_weaken {A} P (m : ost client A) (R Q : A -> FalconFd -> Prop) : tri P m R -> (forall a t, R a t -> Q a t) -> tri P m Q.
Proof. intros Hm Hq c a c' Hc E. apply Hq. by eapply Hm. Qed.

Lemma in_proc_inv {A} (m : ost server A) c a c' : in_proc m c = Some (a, c') -> m (proc c) = Some (a, proc c').
Proof. unfold in_proc. destruct (m (proc c)) as [[b v]|]; [|done]. by intros [= <- <-]. Qed.

Lemma tri_link {A} (m : meta -> option (A * meta)) P : tri P (in_link m) (fun _ => P).
Proof. intros c a c' Hc E. unfold in_link in E. destruct (m (link c)) as [[b l]|]; [|done]. by injection E as <- <-. Qed.

Lemma tri_store {A} (m : bact A) P : tri P (in_proc (in_store m)) (fun _ => P).
Proof. intros c a c' Hc E%in_proc_inv. unfold in_store in E. destruct (m (store_ (proc c))) as [[b s]|]; [|done]. by injection E as _ <-. Qed.

Lemma tri_table {A} (f : FalconFd -> A * FalconFd) P (Q : A -> FalconFd -> Prop) : (forall t, P t -> Q (f t).1 (f t).2) -> tri P (table_ f) Q.
Proof.
  intros Hq c a c' Hc E%in_proc_inv. unfold on_table in E. specialize (Hq _ Hc). destruct (f (table (proc c))) as [b t].
  injection E as <- <-. exact Hq.
Qed.

Lemma tri_table_opt {A} (f : FalconFd -> option (A * FalconFd)) P (Q : A -> FalconFd -> Prop) :
  (forall t a t', P t -> f t = Some (a, t') -> Q a t') -> tri P (in_proc (on_table_opt f)) Q.
Proof.
  intros Hq c a c' Hc E%in_proc_inv. unfold on_table_opt in E. destruct (f (table (proc c))) as [[b t]|] eqn:Ef; [|done].
  injection E as <- <-. by eapply Hq.
Qed.

Lemma instance_inv {A} h (m : oact A) c a c' : instance_ h m c = Some (a, c') ->
  exists o p, heap (table (proc c)) !! h = Some o /\ m (o, store_ (proc c)) = Some (a, p) /\ table (proc c') = set_cell h p.1 (table (proc c)).
Proof.
  intros E%in_proc_inv. unfold with_instance in E. destruct (heap (table (proc c)) !! h) as [o|]; [|done]. cbn [mbind option_bind] in E.
  destruct (m (o, store_ (proc c))) as [[b [o' s']]|] eqn:Em; [|done]. cbn [mbind option_bind] in E. injection E as <- <-. by exists o, (o', s').
Qed.

Lemma tri_instance {A} M k n h (m : oact A) : same_names m -> tri (inv M k n) (instance_ h m) (fun _ => inv M k n).
Proof.
  intros Hm c a c' Hc (o & p & Ho & E & ->)%instance_inv. destruct (Hm _ _ _ E) as [E1 E2]. eapply inv_cell; [done..|]. by left.
Qed.

(** An instance without a descriptor may also get another inode. *)
Lemma tri_fresh {A} M k n h (m : oact A) :
  n < UINT64_MAX -> (forall p a p', m p = Some (a, p') -> oi_fd p'.1 = oi_fd p.1) ->
  tri (fun t => inv M k n t /\ fresh h t) (instance_ h m) (fun _ t => inv M k n t /\ fresh h t).
Proof.
  intros Hn Hm c a c' [Hc (o1 & Ho1 & Hf)] (o & p & Ho & E & ->)%instance_inv. rewrite Ho1 in Ho. injection Ho as <-. pose proof (Hm _ _ _ E) as E1.
  split; [eapply inv_cell; [done..|]; right; by eapply fresh_unattached|]. exists p.1. cbn. rewrite lookup_insert_eq. split; [done|]. by rewrite E1.
Qed.

(** *** Calls to the metadata servers *)

Lemma tri_ask {A} (c : mconn) (r : request A) P : tri P (ask c r) (fun _ => P).
Proof. apply tri_link. Qed.

Lemma tri_retry {A} u (r : request A) P (n : nat) : forall c res, tri P (retry_fault n u c r res) (fun _ => P).
Proof.
  induction n as [|n IH]; intros c res; cbn [retry_fault]; [by apply tri_ret|]. case_decide; [|by apply tri_ret].
  eapply tri_bind; [apply tri_link|]. intros c'. eapply tri_bind; [apply tri_ask|]. intros next. apply IH.
Qed.

Lemma tri_call_with {A} conn u (r : request A) P : tri P (call_with conn u r) (fun _ => P).
Proof.
  destruct conn; [|by apply tri_ret]. eapply tri_bind; [apply tri_ask|]. intros f. eapply tri_bind; [apply tri_retry|]. intros res. by apply tri_ret.
Qed.

Lemma tri_coordinator {A} (r : request A) P : tri P (coordinator_call r) (fun _ => P).
Proof. eapply tri_bind; [apply tri_link|]. intros conn. apply tri_call_with. Qed.
Lemma tri_worker {A} path (r : request A) P : tri P (worker_call path r) (fun _ => P).
Proof. eapply tri_bind; [apply tri_link|]. intros conn. apply tri_call_with. Qed.

(** *** Operations *)

Definition keeps {A} M n (m : ost client A) : Prop := tri (inv M 0 n) m (fun _ => inv M 0 n).

Lemma files_keeps_bind {A B} M n (m : ost client A) (g : A -> ost client B) : keeps M n m -> (forall a, keeps M n (g a)) -> keeps M n (m ≫= g).
Proof. apply tri_bind. Qed.
Lemma files_keeps_ret {A} M n (a : A) : keeps M n (mret a).
Proof. by apply tri_ret. Qed.
Lemma keeps_undefined {A} M n : keeps M n (ost_undefined : ost client A).
Proof. by intros c a c'. Qed.
Lemma keeps_opt {A} M n (a : option A) : keeps M n (ost_opt a).
Proof. destruct a; [apply files_keeps_ret|by intros c b c']. Qed.
Lemma keeps_link {A} M n (m : meta -> option (A * meta)) : keeps M n (in_link m).
Proof. apply tri_link. Qed.
Lemma keeps_store {A} M n (m : bact A) : keeps M n (in_proc (in_store m)).
Proof. apply tri_store. Qed.
Lemma keeps_instance {A} M n h (m : oact A) : same_names m -> keeps M n (instance_ h m).
Proof. apply tri_instance. Qed.
Lemma keeps_worker {A} M n path (r : request A) : keeps M n (worker_call path r).
Proof. apply tri_worker. Qed.
Lemma keeps_coordinator {A} M n (r : request A) : keeps M n (coordinator_call r).
Proof. apply tri_coordinator. Qed.
Lemma keeps_ask {A} M n c (r : request A) : keeps M n (ask c r).
Proof. apply tri_ask. Qed.
Lemma keeps_retry {A} M n u (r : request A) (k : nat) c res : keeps M n (retry_fault k u c r res).
Proof. apply tri_retry. Qed.
Lemma files_keeps_find M n fd : keeps M n (find_fd fd).
Proof. by apply tri_table. Qed.
Lemma keeps_look {A} M n (f : FalconFd -> A) : keeps M n (table_ (fun t => (f t, t))).
Proof. by apply tri_table. Qed.

Lemma keeps_delete M n fd : n < 2 ^ 32 -> keeps M n (delete_fd fd).
Proof. intros Hn. apply files_keeps_bind; [|intros; apply files_keeps_ret]. apply tri_table_opt. intros t a t' Hi E. by eapply inv_delete. Qed.

#[local] Hint Resolve @files_keeps_ret @keeps_undefined @keeps_opt @keeps_link @keeps_store @keeps_worker @keeps_coordinator @keeps_ask @keeps_retry
  @files_keeps_find @keeps_look keeps_delete : names.
#[local] Hint Resolve @names_bind @names_ret @names_this @names_assign @CloseTmpFiles_names @WriteFile_names @ReadFile_names
  @TruncateFile_names @TruncateOpenInstance_names : names.

(** [keeps]: an operation that gives out no descriptor. *)
Ltac keeps := repeat lazymatch goal with
  | |- keeps _ _ (mbind _ _) => apply files_keeps_bind
  | |- keeps _ _ (instance_ _ _) => apply keeps_instance
  | |- keeps _ _ (worker_conn _) => apply keeps_link
  | |- keeps _ _ (match ?x with _ => _ end) => destruct x
  | |- keeps _ _ _ => solve [eauto with names]
  | |- same_names (mbind _ _) => apply names_bind
  | |- same_names (assign _) => apply names_assign; by intros []
  | |- same_names count_write => apply names_assign; by intros []
  | |- same_names (match ?x with _ => _ end) => destruct x
  | |- same_names _ => solve [eauto with names]
  | |- forall _, _ => intro
  end.

Lemma FalconClose_keeps M n path fd fl ds x : n < 2 ^ 32 -> keeps M n (FalconClose cfg path fd fl ds x).
Proof. intros Hn. unfold FalconClose. keeps. Qed.

Lemma FalconWrite_keeps M n fd b o x : keeps M n (FalconWrite cfg fd b o x).
Proof. unfold FalconWrite. keeps. Qed.

Lemma FalconRead_keeps M n fd sz o x : keeps M n (FalconRead cfg fd sz o x).
Proof. unfold FalconRead. keeps. Qed.

Lemma FalconGetStat_keeps M n path st : keeps M n (FalconGetStat path st).
Proof. unfold FalconGetStat. keeps. Qed.
#[local] Hint Resolve FalconClose_keeps FalconWrite_keeps FalconRead_keeps FalconGetStat_keeps : names.

Lemma FalconRenamePersist_keeps M n src dst : keeps M n (FalconRenamePersist src dst).
Proof. unfold FalconRenamePersist. keeps. Qed.

Lemma FalconUnlink_keeps M n path x : keeps M n (FalconUnlink cfg path x).
Proof. unfold FalconUnlink. keeps. Qed.

Lemma FalconCloseDir_keeps M n fd : keeps M n (FalconCloseDir fd).
Proof. unfold FalconCloseDir. keeps. apply tri_table. intros t Ht. by apply inv_dir_delete. Qed.

Lemma truncate_all_keeps M n hs sz x : keeps M n (truncate_all hs sz x).
Proof. induction hs as [|h hs IH]; cbn [truncate_all]; keeps. Qed.
#[local] Hint Resolve truncate_all_keeps FalconRenamePersist_keeps FalconUnlink_keeps FalconCloseDir_keeps : names.

(** *** Operations that give out a descriptor *)

Definition opens {A} M n (m : ost client A) : Prop := tri (inv M 0 n) m (fun _ => inv M 0 (n + 1)).

Lemma keeps_opens {A} M n (m : ost client A) : keeps M n m -> opens M n m.
Proof. intros Hm. eapply tri_weaken; [exact Hm|]. intros a t. apply inv_mono. lia. Qed.
Lemma opens_after {A B} M n (m : ost client A) (g : A -> ost client B) : keeps M n m -> (forall a, opens M n (g a)) -> opens M n (m ≫= g).
Proof. apply tri_bind. Qed.
Lemma opens_then {A B} M n (m : ost client A) (g : A -> ost client B) : opens M n m -> (forall a, keeps M (n + 1) (g a)) -> opens M n (m ≫= g).
Proof. apply tri_bind. Qed.

Lemma FalconCreate_opens M n path fd fl st junk mem : n + 1 < 2 ^ 32 -> opens M n (FalconCreate path fd fl st junk mem).
Proof.
  intros Hn. unfold FalconCreate. apply opens_after; [keeps|]. intros res. destruct (match res with Some _ => _ | None => _ end) as [[ino nd] st'].
  set (e := if decide _ then error_num SUCCESS else _). destruct (decide (e <> error_num SUCCESS)); [apply keeps_opens; keeps|].
  apply opens_then; [apply tri_table_opt; intros t a t' Hi E; by eapply inv_AttachFd|intros fd'; keeps].
Qed.

Lemma FalconOpen_opens M n path fl fd st mem x : n + 1 < 2 ^ 32 -> opens M n (FalconOpen cfg path fl fd st mem x).
Proof.
  intros Hn. set (P := fun h t => inv M 1 n t /\ fresh h t).
  assert (forall h, tri (P h) release (fun _ t => inv M 0 n t /\ fresh h t)) as Hrel
    by (intros h; apply tri_table; intros t [Hi Hf]; split; [apply inv_release; [done|lia]|done]).
  assert (forall h A (a : A), tri (fun t => inv M 0 n t /\ fresh h t) (mret a) (fun _ => inv M 0 (n + 1))) as Hend
    by (intros h A a; apply tri_ret; intros t [Hi _]; eapply inv_mono; [|done]; lia).
  unfold FalconOpen. apply opens_after; [keeps|]. intros [c|]; [|apply keeps_opens; keeps].
  eapply tri_bind with (R := fun r t => match r with None => inv M 0 n t | Some h => P h t end).
  { apply tri_table. intros t Hi. destruct (WaitGetNewOpenInstance true mem t) as [r t'] eqn:E. pose proof (files_inv_new _ _ _ _ _ _ Hi ltac:(lia) E) as Hw.
    destruct r; [done|]. cbn. by rewrite Hw. }
  intros [h|]; [|apply keeps_opens; keeps]. eapply tri_bind; [apply tri_ask|]. intros first. eapply tri_bind; [apply tri_retry|]. intros [e v]. cbn [fst snd].
  destruct (match v with Some _ => _ | None => _ end) as [[[ino sz] nd] st'].
  assert (forall o, oi_fd (FalconFd.set_oflags fl (FalconFd.set_path path (set_nodeId nd (set_currentSize (u64 sz) (set_originalSize (u64 sz) (set_inodeId ino o)))))) = oi_fd o)
    as Hset by (by intros []).
  destruct (decide (e <> error_num SUCCESS)) as [He|He].
  - eapply tri_bind; [apply Hrel|]. intros ?.
    eapply tri_bind; [apply tri_fresh; [unfold UINT64_MAX; lia|]; intros p b p' [= _ <-]; apply Hset|]. intros ?. apply Hend.
  - eapply tri_bind with (R := fun _ => P h); [by apply tri_ret|]. intros ?.
    eapply tri_bind; [apply tri_fresh; [unfold UINT64_MAX; lia|]; intros p b p' [= _ <-]; apply Hset|]. intros ?.
    eapply tri_bind; [apply tri_fresh; [unfold UINT64_MAX; lia|]; by intros p b p' [= <- <-]|]. intros o.
    eapply tri_bind with (R := fun _ => P h).
    { destruct (reads_small cfg o); [|by apply tri_ret]. destruct (negb (alloc x)); [by apply tri_ret|].
      apply tri_fresh; [unfold UINT64_MAX; lia|]. intros p b p' E. apply ost_bind_inv in E as (u & p1 & [= _ <-] & E).
      by apply ReadSmallFiles_names in E as [-> _]. }
    intros ret. destruct (ret <? 0); [eapply tri_bind; [apply Hrel|]; intros ?; apply Hend|].
    eapply tri_bind; [apply tri_table_opt; intros t b t' [Hi Hf] E; eapply inv_AttachFd_instance; [done|done|unfold UINT64_MAX; lia|done]|].
    intros fd'. by apply tri_ret.
Qed.

Lemma FalconOpenDir_opens M n path fh mem : n + 1 < 2 ^ 32 -> opens M n (FalconOpenDir path fh mem).
Proof.
  intros Hn. unfold FalconOpenDir. apply opens_after; [keeps|]. intros res. case_decide; [|apply keeps_opens; keeps].
  apply opens_then; [|intros fd; keeps]. apply tri_table_opt. intros t a t' Hi E. eapply inv_AttachDirFd; [done|unfold UINT64_MAX; lia|done].
Qed.

Lemma FalconTruncate_opens M n path sz mem x : n + 1 < 2 ^ 32 -> opens M n (FalconTruncate cfg path sz mem x).
Proof.
  intros Hn. unfold FalconTruncate. apply opens_then; [by apply FalconOpen_opens|]. intros [[ret fd] st]. keeps.
Qed.


(** *** All callbacks *)

Inductive fuse_op : Type :=
  | FoGetAttr (path : option string) (st : stat)
  | FoMkDir (path : option string)
  | FoRmDir (path : option string)
  | FoUnlink (path : option string) (x : env)
  | FoRename (src dst : option string)
  | FoChmod (path : option string) (mode : Z)
  | FoChown (path : option string) (uid gid : Z)
  | FoUtimens (path : option string) (tv : option (timespec * timespec))
  | FoOpen (path : option string) (flags fh : Z) (mem : bool) (x : env)
  | FoCreate (path : option string) (flags fh : Z) (junk : Z * Z) (mem : bool)
  | FoOpenAtomic (path : option string) (st : stat) (flags fh : Z) (junk : Z * Z) (mem : bool) (x : env)
  | FoRead (path : option string) (size offset fh : Z) (x : env)
  | FoWrite (path : option string) (buffer : option (list Z)) (offset fh : Z) (x : env)
  | FoTruncate (path : option string) (size : Z) (mem : bool) (x : env)
  | FoFlush (path : option string) (fh : Z) (x : env)
  | FoFsync (path : option string) (datasync fh : Z) (x : env)
  | FoRelease (path : option string) (fh : Z) (x : env)
  | FoStatfs (path : option string) (buf : StatFSBuf)
  | FoOpenDir (path : option string) (fh : Z) (mem : bool)
  | FoReleaseDir (path : option string) (fh : Z).

Definition void {A} (m : ost client A) : ost client unit := _ ← m; mret tt.

Definition callback (op : fuse_op) : ost client unit :=
  match op with
  | FoGetAttr p st => void (DoGetAttr p st)
  | FoMkDir p => void (DoMkDir p)
  | FoRmDir p => void (DoRmDir p)
  | FoUnlink p x => void (DoUnlink cfg p x)
  | FoRename p q => void (DoRename g_persist p q)
  | FoChmod p mode => void (DoChmod p mode)
  | FoChown p uid gid => void (DoChown p uid gid)
  | FoUtimens p tv => void (DoUtimens p tv)
  | FoOpen p flags fh mem x => void (DoOpen cfg p flags fh mem x)
  | FoCreate p flags fh junk mem => void (DoCreate p flags fh junk mem)
  | FoOpenAtomic p st flags fh junk mem x => void (DoOpenAtomic cfg p st flags fh junk mem x)
  | FoRead p size offset fh x => void (DoRead cfg p size offset fh x)
  | FoWrite p b offset fh x => void (DoWrite cfg p b offset fh x)
  | FoTruncate p size mem x => void (DoTruncate cfg p size mem x)
  | FoFlush p fh x => void (DoFlush cfg p fh x)
  | FoFsync p datasync fh x => void (DoFsync cfg p datasync fh x)
  | FoRelease p fh x => void (DoRelease cfg p fh x)
  | FoStatfs p b => void (DoStatfs cfg p b)
  | FoOpenDir p fh mem => void (DoOpenDir p fh mem)
  | FoReleaseDir p fh => void (DoReleaseDir p fh)
  end.

Fixpoint callbacks (ops : list fuse_op) : ost client unit :=
  match ops with [] => mret tt | op :: ops' => _ ← callback op; callbacks ops' end.

Lemma with_path_opens {A} M n path (a : A) m : (forall p, opens M n (m p)) -> opens M n (with_path path a m).
Proof. intros Hm. destruct path as [[|c p]|]; [apply keeps_opens, files_keeps_ret|apply Hm|apply keeps_opens, files_keeps_ret]. Qed.

Lemma void_opens {A} M n (m : ost client A) : opens M n m -> opens M n (void m).
Proof. intros Hm. apply opens_then; [done|]. keeps. Qed.

Lemma callback_opens M n op : n + 1 < 2 ^ 32 -> opens M n (callback op).
Proof.
  intros Hn. assert (n < 2 ^ 32) as Hn0 by lia.
  destruct op; cbn [callback]; apply void_opens;
    try (apply keeps_opens; unfold DoGetAttr, DoMkDir, DoRmDir, DoUnlink, DoRename, DoChmod, DoChown, DoUtimens, DoRead, DoWrite, DoFlush, DoFsync,
      FalconFsync, DoRelease, DoStatfs, DoReleaseDir, FalconMkdir, FalconRmDir, FalconRename, FalconChmod, FalconChown, FalconUtimens, FalconStatFS,
      on_path, with_path; solve [keeps]).
  all: unfold DoOpen, DoCreate, DoOpenAtomic, DoTruncate, DoOpenDir, on_path; apply with_path_opens; intros p.
  - apply opens_then; [by apply FalconOpen_opens|keeps].
  - apply opens_then; [by apply FalconCreate_opens|keeps].
  - destruct (has_flag flags O_CREAT); [apply opens_then; [by apply FalconCreate_opens|keeps]|apply opens_then; [by apply FalconOpen_opens|keeps]].
  - apply opens_then; [by apply FalconTruncate_opens|keeps].
  - apply opens_then; [by apply FalconOpenDir_opens|keeps].
Qed.

Lemma callbacks_inv M ops : forall n, n + Z.of_nat (length ops) < 2 ^ 32 ->
  tri (inv M 0 n) (callbacks ops) (fun _ => inv M 0 (n + Z.of_nat (length ops))).
Proof.
  induction ops as [|op ops IH]; intros n Hn; cbn [callbacks length] in *.
  - apply tri_ret. intros t. apply inv_mono. lia.
  - eapply tri_bind; [apply callback_opens; lia|]. intros a. replace (n + Z.of_nat (S (length ops))) with (n + 1 + Z.of_nat (length ops)) in * by lia.
    apply IH. lia.
Qed.


End count.

(** ** Rename with objects *)

(** Objects of the store, and what is documented of the calls: a copy that returns 0
    has made the object, and no call changes an object that it does not name. *)
Class ObjectLaws `{StoreIO} : Type := {
  object : string -> fs -> option (list Z);
  CopyObject_law a b f : (CopyObject a b f).1 = 0 -> object b (CopyObject a b f).2 = object a f;
  CopyObject_other a b q f : q <> b -> object q (CopyObject a b f).2 = object q f;
  DeleteObject_other a q f : q <> a -> object q (DeleteObject a f).2 = object q f
}.

Section objects.

Context `{StoreIO} `{!ObjectLaws} `{MetaLink} (cfg : config).

Definition data_of (name : string) (c : client) : option (list Z) := object name (sw (store_ (proc c))).2.

Lemma in_link_proc {A} (m : meta -> option (A * meta)) c a c' : in_link m c = Some (a, c') -> proc c' = proc c.
Proof. unfold in_link. destruct (m (link c)) as [[b l]|]; [|done]. by intros [= <- <-]. Qed.

Lemma ask_proc {A} conn (r : request A) c a c' : ask conn r c = Some (a, c') -> proc c' = proc c.
Proof. apply in_link_proc. Qed.

Lemma retry_fault_proc {A} u (r : request A) (n : nat) : forall conn res c a c', retry_fault n u conn r res c = Some (a, c') -> proc c' = proc c.
Proof.
  induction n as [|n IH]; intros conn res c a c' E; cbn [retry_fault] in E; [by injection E as _ <-|].
  case_decide; [|by injection E as _ <-]. apply ost_bind_inv in E as (conn' & c1 & E1%in_link_proc & E).
  apply ost_bind_inv in E as (next & c2 & E2%ask_proc & E%IH). congruence.
Qed.

Lemma call_with_proc {A} conn u (r : request A) c a c' : call_with conn u r c = Some (a, c') -> proc c' = proc c.
Proof.
  intros E. destruct conn; [|by injection E as _ <-]. apply ost_bind_inv in E as (f & c1 & E1%ask_proc & E).
  apply ost_bind_inv in E as (res & c2 & E2%retry_fault_proc & [= _ <-]). congruence.
Qed.

Lemma coordinator_proc {A} (r : request A) c a c' : coordinator_call r c = Some (a, c') -> proc c' = proc c.
Proof. intros E. apply ost_bind_inv in E as (conn & c1 & E1%in_link_proc & E%call_with_proc). congruence. Qed.
Lemma worker_proc {A} path (r : request A) c a c' : worker_call path r c = Some (a, c') -> proc c' = proc c.
Proof. intros E. apply ost_bind_inv in E as (conn & c1 & E1 & E%call_with_proc). unfold worker_conn in E1. apply in_link_proc in E1. congruence. Qed.

Lemma in_store_inv {A} (m : bact A) c a c' : in_proc (in_store m) c = Some (a, c') -> m (store_ (proc c)) = Some (a, store_ (proc c')).
Proof.
  intros E%in_proc_inv. unfold in_store in E. destruct (m (store_ (proc c))) as [[b s]|]; [|done]. injection E as <- <-. done.
Qed.

(** C24: a rename with objects does not lose data: [srcObject] and [dstObject] are the
    objects of the two names.  When it returns 0 the new object has the data of the
    old one, and when it fails, at any point, the old object has its data still; no
    other object is changed. *)
Theorem rename_persist_keeps_data srcName dstName srcObject dstObject c ret c' :
  substr1 srcName = Some srcObject -> substr1 dstName = Some dstObject -> srcObject <> dstObject ->
  FalconRenamePersist srcName dstName c = Some (ret, c') ->
  (ret = 0 -> data_of dstObject c' = data_of srcObject c) /\
  (ret <> 0 -> data_of srcObject c' = data_of srcObject c) /\
  (forall q, q <> srcObject -> q <> dstObject -> data_of q c' = data_of q c).
Proof.
  intros Hs Hd Hne E. unfold FalconRenamePersist in E. apply ost_bind_inv in E as (r & c1 & E1 & E).
  assert (proc c1 = proc c) as P1 by (apply ost_bind_inv in E1 as (res & c0 & E0%worker_proc & [= _ <-]); done). unfold data_of. rewrite <- P1.
  case_decide as Hr; [by injection E as <- <-|]. destruct (S_ISREG (stat_mode r.2)); [|by injection E as <- <-]. cbn [negb] in E.
  apply ost_bind_inv in E as (copied & c2 & E2%in_store_inv & E). unfold CopyData in E2. rewrite Hs, Hd in E2. apply sys_inv in E2 as [E2 ->].
  set (f := (sw (store_ (proc c1))).2) in *. assert ((sw (store_ (proc c2))).2 = (CopyObject srcObject dstObject f).2) as F2 by (by rewrite E2).
  case_decide as Hc; [injection E as <- <-; rewrite F2; split_and!; [done|by rewrite CopyObject_other|intros q _ Hq; by rewrite CopyObject_other]|].
  assert ((CopyObject srcObject dstObject f).1 = 0) as H0c by (by destruct (decide ((CopyObject srcObject dstObject f).1 = 0))).
  apply ost_bind_inv in E as (res & c3 & P3%coordinator_proc & E). destruct res as [[code v]|]; cycle 1.
  { injection E as <- <-. rewrite P3, F2. split_and!; [done|by rewrite CopyObject_other|intros q _ Hq; by rewrite CopyObject_other]. }
  apply ost_bind_inv in E as (z & c4 & E4%in_store_inv & [= <- <-]). unfold DeleteDataAfterRename in E4.
  case_decide as Hz; rewrite ?Hs, ?Hd in E4; apply sys_inv in E4 as [-> _]; cbn; rewrite P3, F2.
  - split_and!; [intros _|done|intros q Hq1 Hq2]; rewrite DeleteObject_other by done; [by apply CopyObject_law|by apply CopyObject_other].
  - split_and!; [done|intros _|intros q Hq1 Hq2]; rewrite DeleteObject_other by done; by apply CopyObject_other.
Qed.

End objects.

(** ** Close *)

Section close.

Context `{StoreIO} `{MetaLink} (cfg : config).

Lemma find_fd_inv fd c r c' : find_fd fd c = Some (r, c') -> r = GetOpenInstanceByFd fd (table (proc c)) /\ c' = c.
Proof. destruct c as [[t s] l]. by intros [= <- <-]. Qed.

Lemma look_inv h c o c' : instance_ h this c = Some (o, c') -> heap (table (proc c)) !! h = Some o /\ c' = c.
Proof.
  destruct c as [[t s] l]. unfold instance_, in_proc, with_instance. cbn. destruct (heap t !! h) as [o1|] eqn:E; [|done]. cbn. intros [= <- <-].
  split; [done|]. unfold set_cell. rewrite insert_id by done. by destruct t.
Qed.

Lemma instance_link {A} h (m : oact A) c a c' : instance_ h m c = Some (a, c') ->
  link c' = link c /\ exists o o', heap (table (proc c)) !! h = Some o /\ m (o, store_ (proc c)) = Some (a, (o', store_ (proc c'))) /\
    heap (table (proc c')) !! h = Some o' /\ openInstanceMap (table (proc c')) = openInstanceMap (table (proc c)).
Proof.
  destruct c as [[t s] l]. unfold instance_, in_proc, with_instance. cbn. destruct (heap t !! h) as [o1|] eqn:E; [|done]. cbn [mbind option_bind].
  destruct (m (o1, s)) as [[b [o2 s2]]|] eqn:Em; [|done]. cbn [mbind option_bind]. intros [= <- <-]. cbn. split; [done|]. exists o1, o2.
  by rewrite lookup_insert_eq.
Qed.

Lemma delete_fd_inv fd c u c' : delete_fd fd c = Some (u, c') ->
  link c' = link c /\ (fd <> UINT64_MAX -> GetOpenInstanceByFd fd (table (proc c')) = None).
Proof.
  intros E. apply ost_bind_inv in E as (z & c1 & E & [= _ <-]). unfold in_proc, on_table_opt in E.
  destruct (DeleteOpenInstance fd true (table (proc c))) as [[r t]|] eqn:Ed; [|done]. injection E as _ <-. split; [done|]. intros Hfd. cbn.
  unfold DeleteOpenInstance in Ed. rewrite decide_False in Ed by done. unfold GetOpenInstanceByFd.
  destruct (openInstanceMap (table (proc c)) !! fd) as [h|] eqn:Eh; [|by injection Ed as _ <-].
  destruct (heap (table (proc c)) !! h); [|done]. injection Ed as _ <-. cbn. apply lookup_delete_eq.
Qed.

Lemma worker_conn_inv path c r c' : worker_conn path c = Some (r, c') -> c' = c.
Proof. destruct c as [v l]. unfold worker_conn, in_link. cbn. destruct (GetWorkerConnByPath path l); [|done]. cbn. by intros [= _ <-]. Qed.

(** The end of a close: the descriptor goes, unless it was only a flush. *)
Lemma close_end fd (isFlush : bool) (r : Z) c ret c' :
  (if isFlush then mret r else _ ← delete_fd fd; mret r) c = Some (ret, c') ->
  ret = r /\ link c' = link c /\ (isFlush = false -> fd <> UINT64_MAX -> GetOpenInstanceByFd fd (table (proc c')) = None).
Proof.
  destruct isFlush; [by intros [= <- <-]|]. intros E. apply ost_bind_inv in E as (u & c1 & [E1 E2]%delete_fd_inv & [= <- <-]). by split_and!.
Qed.

(** The data of an instance after the flush that comes before the report. *)
Definition flushed (isFlush isSync : bool) (x : env) (o : OpenInstance) (s : st) (o' : OpenInstance) : Prop :=
  if oi_isOpened o then exists s', CloseTmpFiles cfg isFlush isSync x (o, s) = Some (0, (o', s')) else o' = o.


End close.

Module ClientDemo.

Import Node.

(** A metadata server that knows the file "/a", inode 9 with 5 bytes on node 1, and
    keeps a list of the requests. *)
Definition demo_attr : attributes := mkAttr 9 0 (S_IFREG + 420) 1 0 0 0 5 4096 8 0 0 0.

Definition demo_answer (type : FalconMetaServiceType) (param : AnyMetaParam) : MetaResponse :=
  match type, param with
  | CREATE, _ => mkResponse 0 (CreateResponse (mkAttr 10 0 (S_IFREG + 420) 1 0 0 0 0 4096 0 0 0 0) 1)
  | STAT, PathOnlyParam (Some "/a") => mkResponse 0 (StatResponse demo_attr)
  | OPEN, PathOnlyParam (Some "/a") => mkResponse 0 (OpenResponse demo_attr 1)
  | CLOSE, _ | RENAME, _ => mkResponse 0 ResponseNone
  | _, _ => mkResponse (error_num FILE_NOT_EXISTS) ResponseNone
  end.

#[local] Instance demo_link : MetaLink := {
  zk := true;
  meta := list FalconMetaServiceType;
  mconn := unit;
  GetCoordinatorConn _ := Some tt;
  GetWorkerConnByPath _ _ := Some (Some tt);
  TryToUpdateCNConn c l := Some (c, l);
  TryToUpdateWorkerConn c l := Some (c, l);
  Call A _ r l := (client_answer (rq_handler r) (demo_answer (rq_type r) (rq_param r)), rq_type r :: l)
}.

Definition asked (c : client) : list FalconMetaServiceType := link c.

(** At most two files are open. *)
Definition demo_client : client := {| proc := {| table := new_FalconFd 2; store_ := node_st |}; link := [] |}.

(** The second open fails, and so does the fourth, for want of instances. *)
Definition demo_callbacks : list fuse_op :=
  [FoCreate (Some "/b") (Z.lor O_CREAT O_WRONLY) 0 (0, 0) true; FoOpen (Some "/none") O_RDONLY 0 true quiet;
   FoOpen (Some "/a") O_WRONLY 0 true quiet; FoWrite (Some "/b") (Some [1; 2; 3]) 0 3 quiet; FoOpen (Some "/a") O_WRONLY 0 true quiet;
   FoFlush (Some "/b") 3 quiet; FoRelease (Some "/b") 3 quiet].



#[local] Instance demo_objects : ObjectLaws (H := node_io).
Proof.
  refine {| object q f := objects f !! q |}; cbn.
  - intros a b f Hc. destruct (objects f !! a) as [l|] eqn:E; [|done]. cbn in *. by rewrite lookup_insert_eq.
  - intros a b q f Hq. destruct (objects f !! a) as [l|]; [|done]. cbn. by rewrite lookup_insert_ne.
  - intros a q f Hq. by rewrite lookup_delete_ne.
Defined.

Lemma rename_persist_keeps_data_witness :
  exists c, FalconRenamePersist "/a" "/c" demo_client = Some (0, c) /\ data_of "c" c = Some [1; 2; 3; 4; 5].
Proof.
  assert (is_Some (FalconRenamePersist "/a" "/c" demo_client)) as [[ret c] E] by (apply (bool_decide_unpack _); by vm_compute).
  assert (fst <$> FalconRenamePersist "/a" "/c" demo_client = Some 0) as E' by (by vm_compute). rewrite E in E'. injection E' as ->.
  destruct (rename_persist_keeps_data "/a" "/c" "a" "c" demo_client 0 c eq_refl eq_refl ltac:(done) E) as (H1 & _). exists c. split; [exact E|].
  rewrite (H1 eq_refl). by vm_compute.
Defined.

End ClientDemo.
