(* ===== verification/FileLock.v ===== *)
(** * Locks on files

    falcon_store/src/util/file_lock.cpp: shared and exclusive locks on inode
    numbers, kept in a map that has an entry only for an inode that is locked or
    waited for.  The state is the map and what every thread does: it holds a lock,
    or it waits on the condition variable of the entry, asleep or woken up.  A step
    is a stretch of code under the mutex. *)

From S2P Require Import FalconPrelude.

Inductive LockMode : Type := X | S_.

#[export] Instance LockMode_eq_dec : EqDecision LockMode.
Proof. solve_decision. Defined.

(** [static_cast<int>(m)] *)
Definition mode_int (m : LockMode) : Z := match m with X => -1 | S_ => 1 end.

(** [cv] is whether the pointer is not null. *)
Record FileLockState : Type := {
  cv : bool;
  lockCount : Z;
  waitingThreads : Z
}.

(** What [operator[]] inserts. *)
Definition empty_state : FileLockState := {| cv := false; lockCount := 0; waitingThreads := 0 |}.

Inductive status : Type :=
| Unlocked
| Holding (inodeId : Z) (m : LockMode)
| Waiting (inodeId : Z) (m : LockMode) (awake : bool).

Record FileLock : Type := {
  stateMap : gmap Z FileLockState;
  lockers : list status
}.

Definition entry (k : Z) (s : FileLock) : FileLockState := default empty_state (stateMap s !! k).

Definition set_lock (k : Z) (e : FileLockState) (s : FileLock) : FileLock :=
  {| stateMap := <[k := e]> (stateMap s); lockers := lockers s |}.
Definition set_status (i : nat) (t : status) (s : FileLock) : FileLock :=
  {| stateMap := stateMap s; lockers := <[i := t]> (lockers s) |}.

(** The predicate of the wait. *)
Definition may_lock (m : LockMode) (lockCount : Z) : bool :=
  match m with X => bool_decide (lockCount = 0) | S_ => bool_decide (0 <= lockCount) end.

(** innerGetFileLock up to its wait: the value, when it has returned. *)
Definition innerGetFileLock (i : nat) (k : Z) (m : LockMode) (wait : bool) (s : FileLock) : option bool * FileLock :=
  let e := entry k s in
  if lockCount e =? 0 then
    let cv' := if waitingThreads e =? 0 then true else cv e in
    (Some true, set_status i (Holding k m) (set_lock k {| cv := cv'; lockCount := mode_int m; waitingThreads := waitingThreads e |} s))
  else if ((0 <? lockCount e) && bool_decide (m = S_))%bool then
    (Some true, set_status i (Holding k m) (set_lock k {| cv := cv e; lockCount := lockCount e + 1; waitingThreads := waitingThreads e |} s))
  else if wait then
    if cv e then
      (None, set_status i (Waiting k m (may_lock m (lockCount e)))
               (set_lock k {| cv := cv e; lockCount := lockCount e; waitingThreads := waitingThreads e + 1 |} s))
    else (Some false, s)
  else (Some false, s).

(** A thread that was woken up looks at the predicate again. *)
Definition wake (i : nat) (k : Z) (m : LockMode) (s : FileLock) : FileLock :=
  let e := entry k s in
  if may_lock m (lockCount e) then
    set_status i (Holding k m)
      (set_lock k {| cv := cv e; lockCount := lockCount e + mode_int m; waitingThreads := waitingThreads e - 1 |} s)
  else set_status i (Waiting k m false) (set_lock k e s).

(** [cv->notify_all()] *)
Definition notify_all (k : Z) (s : FileLock) : FileLock :=
  {| stateMap := stateMap s;
     lockers := (fun t => match t with Waiting k' m _ => if decide (k' = k) then Waiting k' m true else t | _ => t end) <$> lockers s |}.

Definition ReleaseFileLock (k : Z) (m : LockMode) (s : FileLock) : FileLock :=
  match stateMap s !! k with
  | None => s
  | Some e =>
      let count := lockCount e - mode_int m in
      let s' := set_lock k {| cv := cv e; lockCount := count; waitingThreads := waitingThreads e |} s in
      if decide (count = 0) then
        if decide (waitingThreads e = 0) then {| stateMap := delete k (stateMap s'); lockers := lockers s' |} else notify_all k s'
      else s'
  end.

Definition TestLocked (k : Z) (m : LockMode) (s : FileLock) : bool :=
  match m with
  | X => bool_decide (is_Some (stateMap s !! k))
  | S_ => (bool_decide (is_Some (stateMap s !! k)) && (lockCount (entry k s) <? 0))%bool
  end.

(** A FileLocker is made, a waiting thread runs (woken up or without a reason), a
    FileLocker that has the lock is destroyed. *)
Inductive act : Type :=
| Lock (i : nat) (k : Z) (m : LockMode) (wait : bool)
| Run (i : nat)
| Spurious (i : nat)
| Unlock (i : nat).

Definition step (a : act) (s : FileLock) : option FileLock :=
  match a with
  | Lock i k m wait => match lockers s !! i with Some Unlocked => Some (innerGetFileLock i k m wait s).2 | _ => None end
  | Run i => match lockers s !! i with Some (Waiting k m true) => Some (wake i k m s) | _ => None end
  | Spurious i => match lockers s !! i with Some (Waiting k m false) => Some (set_status i (Waiting k m true) s) | _ => None end
  | Unlock i => match lockers s !! i with Some (Holding k m) => Some (ReleaseFileLock k m (set_status i Unlocked s)) | _ => None end
  end.

Definition start (n : nat) : FileLock := {| stateMap := ∅; lockers := replicate n Unlocked |}.

Definition reachable (n : nat) : FileLock -> Prop := rtc (fun s s' => exists a, step a s = Some s') (start n).

(** ** The invariant *)

Definition holds (k : Z) (m : LockMode) (t : status) : bool :=
  match t with Holding k' m' => bool_decide (k' = k /\ m' = m) | _ => false end.
Definition waits (k : Z) (t : status) : bool := match t with Waiting k' _ _ => bool_decide (k' = k) | _ => false end.

Definition holders (k : Z) (m : LockMode) (s : FileLock) : Z := Z.of_nat (count_if (holds k m) (lockers s)).
Definition waiters (k : Z) (s : FileLock) : Z := Z.of_nat (count_if (waits k) (lockers s)).

(** One inode: the count is the number of shared locks, or -1 for an exclusive
    one; a thread that sleeps could not have the lock. *)
Record lock_ok (k : Z) (s : FileLock) : Prop := {
  lo_count : lockCount (entry k s) = holders k S_ s - holders k X s;
  lo_excl : holders k X s = 0 \/ (holders k X s = 1 /\ holders k S_ s = 0);
  lo_wait : waitingThreads (entry k s) = waiters k s;
  lo_entry : is_Some (stateMap s !! k) <-> 0 < holders k S_ s + holders k X s + waiters k s;
  lo_cv : is_Some (stateMap s !! k) -> cv (entry k s) = true;
  lo_sleep i m : lockers s !! i = Some (Waiting k m false) -> may_lock m (lockCount (entry k s)) = false
}.

Definition ok (s : FileLock) : Prop := forall k, lock_ok k s.

Lemma count_if_insert {A} (p : A -> bool) l i x y :
  l !! i = Some x -> Z.of_nat (count_if p (<[i := y]> l)) = Z.of_nat (count_if p l) - Z.b2z (p x) + Z.b2z (p y).
Proof.
  revert i. induction l as [|z l IH]; intros [|i] Hi; cbn in Hi; simplify_eq/=; [destruct (p x), (p y); cbn; lia|].
  specialize (IH i Hi). destruct (p z); cbn; lia.
Qed.

Lemma holders_set k m s i t t' :
  lockers s !! i = Some t -> holders k m (set_status i t' s) = holders k m s - Z.b2z (holds k m t) + Z.b2z (holds k m t').
Proof. apply count_if_insert. Qed.
Lemma waiters_set k s i t t' :
  lockers s !! i = Some t -> waiters k (set_status i t' s) = waiters k s - Z.b2z (waits k t) + Z.b2z (waits k t').
Proof. apply count_if_insert. Qed.

Lemma entry_set k k' e s : entry k (set_lock k' e s) = if decide (k = k') then e else entry k s.
Proof. unfold entry. cbn. case_decide; subst; [by rewrite lookup_insert_eq|by rewrite lookup_insert_ne]. Qed.

Lemma count_nonneg k m s : 0 <= holders k m s /\ 0 <= waiters k s.
Proof. unfold holders, waiters. lia. Qed.

(** A change of one thread and of the entry of one inode leaves the other inodes
    alone. *)
Lemma ok_other k i t t' s s' :
  lockers s !! i = Some t -> lock_ok k s -> lockers s' = <[i := t']> (lockers s) -> stateMap s' !! k = stateMap s !! k ->
  (forall m, holds k m t = false) -> (forall m, holds k m t' = false) -> waits k t = false -> waits k t' = false ->
  lock_ok k s'.
Proof.
  intros Hi [H1 H2 H3 H4 H5 H6] Hl Hm Ht Ht' Hw Hw'.
  assert (forall m, holders k m s' = holders k m s) as Hh
    by (intros m; unfold holders; rewrite Hl, (count_if_insert _ _ i t t' Hi), Ht, Ht'; cbn; lia).
  assert (waiters k s' = waiters k s) as Hww by (unfold waiters; rewrite Hl, (count_if_insert _ _ i t t' Hi), Hw, Hw'; cbn; lia).
  assert (entry k s' = entry k s) as He by (unfold entry; by rewrite Hm).
  split; rewrite ?Hh, ?Hww, ?He, ?Hm; try done.
  intros j m. rewrite Hl. destruct (decide (j = i)) as [->|].
  - rewrite list_lookup_insert_eq by (by eapply lookup_lt_Some). intros [= ->]. cbn in Hw'. by rewrite bool_decide_eq_false in Hw'.
  - rewrite list_lookup_insert_ne by done. apply H6.
Qed.

Definition of_inode (k : Z) (t : status) : Prop :=
  match t with Unlocked => True | Holding k' _ | Waiting k' _ _ => k' = k end.

Lemma of_inode_other k k' t : of_inode k' t -> k <> k' -> (forall m, holds k m t = false) /\ waits k t = false.
Proof. destruct t; cbn; intros; split; try done; intros; subst; rewrite bool_decide_eq_false; naive_solver. Qed.

(** What a thread adds to the counts of an inode. *)
Definition held (k : Z) (m : LockMode) (t : status) : Z := Z.b2z (holds k m t).
Definition waiting (k : Z) (t : status) : Z := Z.b2z (waits k t).

Lemma ok_change k i t t' e s :
  ok s -> lockers s !! i = Some t -> of_inode k t -> of_inode k t' ->
  let h m := holders k m s - held k m t + held k m t' in
  let w := waiters k s - waiting k t + waiting k t' in
  lockCount e = h S_ - h X -> (h X = 0 \/ (h X = 1 /\ h S_ = 0)) -> waitingThreads e = w -> 0 < h S_ + h X + w -> cv e = true ->
  (forall m, t' = Waiting k m false -> may_lock m (lockCount e) = false) ->
  (forall j m, lockers s !! j = Some (Waiting k m false) -> may_lock m (lockCount (entry k s)) = false -> may_lock m (lockCount e) = false) ->
  ok (set_status i t' (set_lock k e s)).
Proof.
  intros Hok Hi Ht Ht' h w H1 H2 H3 H4 H5 H6 H7 k'. destruct (decide (k' = k)) as [->|Hk].
  - assert (forall m, holders k m (set_status i t' (set_lock k e s)) = h m) as Hh by (intros m; by rewrite (holders_set _ _ (set_lock k e s) i t t' Hi)).
    assert (waiters k (set_status i t' (set_lock k e s)) = w) as Hw by (by rewrite (waiters_set _ (set_lock k e s) i t t' Hi)).
    assert (entry k (set_status i t' (set_lock k e s)) = e) as He
      by (change (entry k (set_lock k e s) = e); rewrite entry_set; by destruct (decide (k = k))).
    assert (stateMap (set_status i t' (set_lock k e s)) !! k = Some e) as Hm by (cbn; by rewrite lookup_insert_eq).
    split; rewrite ?Hh, ?Hw, ?He, ?Hm; try done.
    intros j m. cbn. destruct (decide (j = i)) as [->|].
    + rewrite list_lookup_insert_eq by (by eapply lookup_lt_Some). intros [= ->]. by apply H6.
    + rewrite list_lookup_insert_ne by done. intros Hj. eapply H7; [done|]. by eapply lo_sleep.
  - destruct (of_inode_other k' k t Ht Hk), (of_inode_other k' k t' Ht' Hk). eapply (ok_other k' i t t' s); try done. cbn. by rewrite lookup_insert_ne.
Qed.

Lemma held_self k m m' : held k m (Holding k m') = match m, m' with X, X | S_, S_ => 1 | _, _ => 0 end.
Proof. unfold held. cbn. destruct m, m'; by rewrite ?bool_decide_eq_true_2 by done; rewrite ?bool_decide_eq_false_2 by naive_solver. Qed.
Lemma waiting_self k m b : waiting k (Waiting k m b) = 1.
Proof. unfold waiting. cbn. by rewrite bool_decide_eq_true_2. Qed.

Lemma may_lock_false m c : may_lock m c = false <-> c < 0 \/ (m = X /\ 0 < c).
Proof. destruct m; cbn; rewrite bool_decide_eq_false; (split; [intros ?|intros [?|[? ?]]]); try done; try lia. destruct (Z.lt_total c 0) as [|[|]]; auto; lia. Qed.

(** The counts of an inode, with what the entry says of them. *)
Lemma counts k s : ok s -> 
  lockCount (entry k s) = holders k S_ s - holders k X s /\ waitingThreads (entry k s) = waiters k s /\
  0 <= holders k S_ s /\ (holders k X s = 0 \/ (holders k X s = 1 /\ holders k S_ s = 0)) /\ 0 <= waiters k s /\
  (0 < holders k S_ s + holders k X s + waiters k s -> cv (entry k s) = true).
Proof.
  intros Hok. destruct (Hok k) as [H1 H2 H3 H4 H5 _]. pose proof (count_nonneg k S_ s). split_and!; try tauto; lia.
Qed.

Ltac counting k s :=
  destruct (counts k s) as (? & ? & ? & ? & ? & ?); [done|];
  cbn [lockCount waitingThreads cv mode_int]; rewrite ?held_self, ?waiting_self;
  repeat match goal with |- context [held ?k ?m Unlocked] => change (held k m Unlocked) with 0 end;
  repeat match goal with |- context [held ?k ?m (Waiting ?a ?b ?c)] => change (held k m (Waiting a b c)) with 0 end;
  repeat match goal with |- context [waiting ?k Unlocked] => change (waiting k Unlocked) with 0 end;
  repeat match goal with |- context [waiting ?k (Holding ?a ?b)] => change (waiting k (Holding a b)) with 0 end.

Lemma Lock_ok i k m wait s : ok s -> lockers s !! i = Some Unlocked -> ok (innerGetFileLock i k m wait s).2.
Proof.
  intros Hok Hi. unfold innerGetFileLock. destruct (Z.eqb_spec (lockCount (entry k s)) 0) as [E|E].
  - eapply ok_change; eauto; try done; counting k s; try (destruct m; cbn; lia).
    + destruct (Z.eqb_spec (waitingThreads (entry k s)) 0); [done|]. auto with lia.
    + intros j m' _. rewrite E. by destruct m'.
  - destruct (0 <? lockCount (entry k s)) eqn:E1, (bool_decide_reflect (m = S_)) as [->|Hm]; cbn [andb];
      [|destruct wait; [destruct (cv (entry k s)) eqn:Hcv|]; try done..].
    + eapply ok_change; eauto; try done; counting k s; try lia; [auto with lia|].
      intros j m' _. rewrite !may_lock_false. intuition lia.
    + eapply ok_change; eauto; try done; counting k s; try lia.
      intros m' [= -> Hm']. done.
    + eapply ok_change; eauto; try done; counting k s; try lia.
      intros m' [= <- Hm']. done.
    + eapply ok_change; eauto; try done; counting k s; try lia.
      intros m' [= -> Hm']. done.
Qed.

Lemma waiter_counted k m b i s : lockers s !! i = Some (Waiting k m b) -> 1 <= waiters k s.
Proof.
  intros Hi. unfold waiters. pose proof (count_if_pos (waits k) _ _ (list_elem_of_lookup_2 _ _ _ Hi)) as Hp.
  cbn in Hp. rewrite bool_decide_eq_true_2 in Hp by done. specialize (Hp eq_refl). lia.
Qed.
Lemma holder_counted k m i s : lockers s !! i = Some (Holding k m) -> 1 <= holders k m s.
Proof.
  intros Hi. unfold holders. pose proof (count_if_pos (holds k m) _ _ (list_elem_of_lookup_2 _ _ _ Hi)) as Hp.
  cbn in Hp. rewrite bool_decide_eq_true_2 in Hp by done. specialize (Hp eq_refl). lia.
Qed.

Lemma set_lock_id k s : is_Some (stateMap s !! k) -> set_lock k (entry k s) s = s.
Proof. intros [e He]. unfold set_lock, entry. rewrite He. cbn. rewrite insert_id by done. by destruct s. Qed.

Lemma Run_ok i k m s : ok s -> lockers s !! i = Some (Waiting k m true) -> ok (wake i k m s).
Proof.
  intros Hok Hi. pose proof (waiter_counted _ _ _ _ _ Hi). unfold wake. destruct (may_lock m (lockCount (entry k s))) eqn:E.
  - apply not_false_iff_true in E. rewrite may_lock_false in E.
    assert (0 <= lockCount (entry k s) /\ (m = X -> lockCount (entry k s) = 0)) as [Hc HX]
      by (split; [lia|intros ->; assert (~ 0 < lockCount (entry k s)) by tauto; lia]).
    eapply ok_change; eauto; try done; counting k s; try (destruct m; [specialize (HX eq_refl)|]; cbn; lia); [auto with lia|].
    intros j m' _. rewrite !may_lock_false. destruct m; cbn; intuition lia.
  - eapply ok_change; eauto; try done; counting k s; try lia; [auto with lia|]. by intros m' [= <-].
Qed.

Lemma Spurious_ok i k m s : ok s -> lockers s !! i = Some (Waiting k m false) -> ok (set_status i (Waiting k m true) s).
Proof.
  intros Hok Hi. pose proof (waiter_counted _ _ _ _ _ Hi). destruct (counts k s) as (? & ? & ? & ? & ? & ?); [done|].
  rewrite <-(set_lock_id k s) by (apply (lo_entry _ _ (Hok k)); lia).
  eapply ok_change; eauto; try done; counting k s; try lia. auto with lia.
Qed.

Lemma count_if_fmap {A B} (p : B -> bool) (q : A -> bool) (f : A -> B) l :
  (forall x, p (f x) = q x) -> count_if p (f <$> l) = count_if q l.
Proof. intros Hf. induction l as [|x l IH]; [done|]. rewrite fmap_cons. cbn [count_if]. by rewrite Hf, IH. Qed.

Lemma notify_ok k s : ok s -> ok (notify_all k s) /\ forall j m, lockers (notify_all k s) !! j <> Some (Waiting k m false).
Proof.
  intros Hok. split.
  - intros k'. destruct (Hok k') as [H1 H2 H3 H4 H5 H6].
    assert (forall m, holders k' m (notify_all k s) = holders k' m s) as Hh
      by (intros m; unfold holders, notify_all; cbn; f_equal; apply count_if_fmap; intros []; cbn; by try case_decide).
    assert (waiters k' (notify_all k s) = waiters k' s) as Hw
      by (unfold waiters, notify_all; cbn; f_equal; apply count_if_fmap; intros []; cbn; by try case_decide).
    split; rewrite ?Hh, ?Hw; try done.
    intros i m. unfold notify_all at 1. cbn. rewrite list_lookup_fmap.
    destruct (lockers s !! i) as [[|k1 m1|k1 m1 b]|] eqn:Hi; cbn; try done.
    case_decide; [done|]. intros [= -> -> ->]. by eapply H6.
  - intros j m. unfold notify_all. cbn. rewrite list_lookup_fmap.
    destruct (lockers s !! j) as [[|k1 m1|k1 m1 b]|]; cbn; try done. case_decide; [done|]. by intros [= -> -> ->].
Qed.

(** The last lock is given back and nobody waits: the entry goes. *)
Lemma erase_ok i k m s s' :
  ok s -> lockers s !! i = Some (Holding k m) -> lockCount (entry k s) - mode_int m = 0 -> waitingThreads (entry k s) = 0 ->
  lockers s' = <[i := Unlocked]> (lockers s) -> stateMap s' !! k = None ->
  (forall k', k' <> k -> stateMap s' !! k' = stateMap s !! k') -> ok s'.
Proof.
  intros Hok Hi Hc Hw Hl Hk Hm k'. destruct (decide (k' = k)) as [->|Hne].
  - destruct (counts k s) as (E1 & E2 & ? & ? & ? & _); [done|]. pose proof (holder_counted _ _ _ _ Hi) as Hp.
    assert (forall m', holders k m' s' = 0) as Hh.
    { intros m'. unfold holders at 1. rewrite Hl, (count_if_insert _ _ i _ Unlocked Hi).
      change (holders k m' s - held k m' (Holding k m) + 0 = 0). rewrite held_self. destruct m, m'; cbn in Hc; lia. }
    assert (waiters k s' = 0) as Hww.
    { unfold waiters at 1. rewrite Hl, (count_if_insert _ _ i _ Unlocked Hi). cbn. fold (waiters k s). lia. }
    split; unfold entry; rewrite ?Hh, ?Hww, ?Hk; cbn; try done; try lia.
    intros j m' Hj. apply waiter_counted in Hj. lia.
  - destruct (of_inode_other k' k (Holding k m)) as [? ?]; [done..|]. eapply (ok_other k' i _ Unlocked s); eauto.
Qed.

Lemma Unlock_ok i k m s : ok s -> lockers s !! i = Some (Holding k m) -> ok (ReleaseFileLock k m (set_status i Unlocked s)).
Proof.
  intros Hok Hi. pose proof (holder_counted _ _ _ _ Hi) as Hp.
  assert (is_Some (stateMap s !! k)) as [e He]
    by (apply (lo_entry _ _ (Hok k)); destruct (counts k s) as (? & ? & ? & ? & ? & ?); [done|]; destruct m; lia).
  assert (entry k s = e) as Hee by (unfold entry; by rewrite He).
  unfold ReleaseFileLock. change (stateMap (set_status i Unlocked s)) with (stateMap s). rewrite He, <-Hee.
  destruct (decide (lockCount _ - _ = 0)) as [Hc|Hc]; [destruct (decide (waitingThreads _ = 0)) as [Hw|Hw]|].
  - eapply (erase_ok i k m s); try done; cbn; [by rewrite lookup_delete_eq|].
    intros k' ?. by rewrite lookup_delete_ne, lookup_insert_ne.
  - destruct (notify_ok k s Hok) as [Hok' Hsl].
    assert (lockers (notify_all k s) !! i = Some (Holding k m)) as Hi' by (cbn; by rewrite list_lookup_fmap, Hi).
    pose proof (holder_counted _ _ _ _ Hi') as Hp'. rewrite <-(Hee : entry k (notify_all k s) = e) in Hee.
    match goal with |- ok ?x => enough (x = set_status i Unlocked (set_lock k
      {| cv := cv (entry k s); lockCount := lockCount (entry k s) - mode_int m; waitingThreads := waitingThreads (entry k s) |}
      (notify_all k s))) as -> end.
    + change (entry k s) with (entry k (notify_all k s)) in *.
      eapply ok_change; eauto; try done; counting k (notify_all k s); try (destruct m; cbn in *; lia).
      * apply (lo_cv _ _ (Hok' k)). by exists e.
      * intros j m' Hj. by destruct (Hsl j m').
    + unfold notify_all, set_status, set_lock. cbn. by rewrite list_fmap_insert.
  - change (ok (set_status i Unlocked (set_lock k
      {| cv := cv (entry k s); lockCount := lockCount (entry k s) - mode_int m; waitingThreads := waitingThreads (entry k s) |} s))).
    eapply ok_change; eauto; try done; counting k s; try (destruct m; cbn in *; lia).
    + apply (lo_cv _ _ (Hok k)). by exists e.
    + intros j m' _. rewrite !may_lock_false. destruct m; cbn in *; intuition lia.
Qed.

Lemma file_lock_step_ok a s s' : ok s -> step a s = Some s' -> ok s'.
Proof.
  intros Hok Hs. destruct a as [i k m wait|i|i|i]; cbn in Hs; destruct (lockers s !! i) as [[|k' m'|k' m' []]|] eqn:Hi; simplify_eq.
  - by apply Lock_ok.
  - by apply Run_ok.
  - by apply Spurious_ok.
  - by apply Unlock_ok.
Qed.

Lemma count_if_replicate {A} (p : A -> bool) n x : p x = false -> count_if p (replicate n x) = 0%nat.
Proof. intros Hp. induction n as [|n IH]; [done|]. cbn. by rewrite Hp, IH. Qed.

Lemma file_lock_start_ok n : ok (start n).
Proof.
  intros k. assert (forall m, holders k m (start n) = 0) as Hh by (intros m; unfold holders; cbn; by rewrite count_if_replicate).
  assert (waiters k (start n) = 0) as Hw by (unfold waiters; cbn; by rewrite count_if_replicate).
  split; rewrite ?Hh, ?Hw; cbn; try done; try lia.
  - rewrite lookup_empty. split; [by intros [? ?]|lia].
  - rewrite lookup_empty. by intros [? ?].
  - intros i m [E _]%lookup_replicate. done.
Qed.

Lemma file_lock_ok n s : reachable n s -> ok s.
Proof.
  intros Hr. pose proof (file_lock_start_ok n) as Hok. unfold reachable in Hr. revert Hok.
  induction Hr as [|s1 s2 s3 [a Ha] _ IH]; [done|]. intros Hok. apply IH. by eapply file_lock_step_ok.
Qed.

(** ** What the locks promise *)

Lemma count_if_witness {A} (p : A -> bool) l : (1 <= count_if p l)%nat -> exists i x, l !! i = Some x /\ p x = true.
Proof.
  intros H. destruct (decide (Exists (fun x => p x = true) l)) as [Hex|Hno].
  - apply Exists_exists in Hex as (x & [i Hi]%list_elem_of_lookup & Hp). eauto.
  - rewrite (proj2 (count_if_zero p l)) in H; [lia|]. intros x Hx. apply not_true_is_false. intros Hp. apply Hno, Exists_exists. eauto.
Qed.

Lemma holder_exists k m s : 1 <= holders k m s -> exists i, lockers s !! i = Some (Holding k m).
Proof.
  unfold holders. intros H. destruct (count_if_witness (holds k m) (lockers s)) as (i & [|k' m'|] & Hi & Hp); [lia|done| |done].
  cbn in Hp. apply bool_decide_eq_true in Hp as [-> ->]. eauto.
Qed.
Lemma waiter_exists k s : 1 <= waiters k s -> exists i m b, lockers s !! i = Some (Waiting k m b).
Proof.
  unfold waiters. intros H. destruct (count_if_witness (waits k) (lockers s)) as (i & [|k' m'|k' m' b] & Hi & Hp); [lia|done|done|].
  cbn in Hp. apply bool_decide_eq_true in Hp as ->. eauto.
Qed.

(** Two different holders are counted twice. *)
Lemma count_if_two {A} (p : A -> bool) l i j x y :
  i <> j -> l !! i = Some x -> l !! j = Some y -> p x = true -> p y = true -> (2 <= count_if p l)%nat.
Proof.
  revert i j. induction l as [|z l IH]; intros [|i] [|j] Hij Hi Hj Hx Hy; cbn in *; simplify_eq; try done.
  - rewrite Hx. pose proof (count_if_pos p l y (list_elem_of_lookup_2 _ _ _ Hj) Hy). lia.
  - rewrite Hy. pose proof (count_if_pos p l x (list_elem_of_lookup_2 _ _ _ Hi) Hx). lia.
  - pose proof (IH i j ltac:(congruence) Hi Hj Hx Hy). lia.
Qed.

Lemma in_use k s : ok s -> is_Some (stateMap s !! k) <->
  exists i, (exists m, lockers s !! i = Some (Holding k m)) \/ (exists m b, lockers s !! i = Some (Waiting k m b)).
Proof.
  intros Hok. rewrite (lo_entry _ _ (Hok k)). destruct (counts k s) as (_ & _ & ? & ? & ? & _); [done|]. split.
  - intros Hp. destruct (decide (1 <= holders k S_ s)) as [Hs|]; [destruct (holder_exists _ _ _ Hs); eauto|].
    destruct (decide (1 <= holders k X s)) as [Hs|]; [destruct (holder_exists _ _ _ Hs); eauto|].
    destruct (waiter_exists k s) as (? & ? & ? & ?); [lia|]. eauto.
  - intros (i & [[m Hi]|(m & b & Hi)]).
    + apply holder_counted in Hi. destruct m; lia.
    + apply waiter_counted in Hi. destruct (count_nonneg k X s). lia.
Qed.

(** C34: for every number of threads and every interleaving of locking, trying,
    waiting, waking up (also without a notification) and releasing: an exclusive
    lock on an inode excludes every other lock on it; a thread that sleeps waits for
    a lock that is held and excludes its own, so that no wake-up is lost; and
    TestLocked tells, for X, whether the inode is locked or waited for (the inodes
    the map has an entry for), for S, whether it is locked exclusively. *)
Theorem file_lock_correct n s : reachable n s ->
  (forall i j k m m', i <> j -> lockers s !! i = Some (Holding k m) -> lockers s !! j = Some (Holding k m') -> m = S_ /\ m' = S_) /\
  (forall i k m, lockers s !! i = Some (Waiting k m false) ->
     exists j m', lockers s !! j = Some (Holding k m') /\ (m = X \/ m' = X)) /\
  (forall k, TestLocked k X s = true <->
     exists i, (exists m, lockers s !! i = Some (Holding k m)) \/ (exists m b, lockers s !! i = Some (Waiting k m b))) /\
  (forall k, TestLocked k S_ s = true <-> exists i, lockers s !! i = Some (Holding k X)).
Proof.
  intros Hok%file_lock_ok. split_and!.
  - intros i j k m m' Hij Hi Hj. pose proof (holder_counted _ _ _ _ Hi). pose proof (holder_counted _ _ _ _ Hj).
    destruct (counts k s) as (_ & _ & ? & ? & _); [done|]. destruct m, m'; try lia; [|done].
    assert (2 <= count_if (holds k X) (lockers s))%nat; [|unfold holders in *; lia].
    eapply (count_if_two _ _ i j); eauto; cbn; by apply bool_decide_eq_true_2.
  - intros i k m Hi. pose proof (lo_sleep _ _ (Hok k) _ _ Hi) as Hs. rewrite may_lock_false in Hs.
    destruct (counts k s) as (Hc & _ & ? & ? & _); [done|]. rewrite Hc in Hs. destruct Hs as [Hs|[-> Hs]].
    + destruct (holder_exists k X s) as [j Hj]; [lia|]. eauto.
    + destruct (holder_exists k S_ s) as [j Hj]; [lia|]. eauto.
  - intros k. unfold TestLocked. rewrite bool_decide_eq_true. by apply in_use.
  - intros k. unfold TestLocked. rewrite andb_true_iff, bool_decide_eq_true, Z.ltb_lt.
    destruct (counts k s) as (Hc & _ & ? & ? & _); [done|]. rewrite Hc. split.
    + intros [_ ?]. apply holder_exists. lia.
    + intros [i Hi]. split; [apply in_use; eauto|]. apply holder_counted in Hi. lia.
Qed.

(** Three threads on inode 7: one holds it exclusively while the others wait; the
    release wakes both, the two shared locks are then held together. *)
Definition demo_acts : list act :=
  [Lock 0 7 X true; Lock 1 7 S_ true; Lock 2 7 S_ true; Unlock 0; Run 1; Run 2].

Fixpoint run_acts (l : list act) (s : FileLock) : option FileLock :=
  match l with [] => Some s | a :: l' => match step a s with Some s' => run_acts l' s' | None => None end end.

Lemma run_acts_reachable l s s' : run_acts l s = Some s' -> rtc (fun s s' => exists a, step a s = Some s') s s'.
Proof.
  revert s. induction l as [|a l IH]; intros s Hr; cbn in Hr; [by simplify_eq; constructor|].
  destruct (step a s) as [s1|] eqn:Ha; [|done]. eapply rtc_l; eauto.
Qed.

Definition demo_final : FileLock := default (start 3) (run_acts demo_acts (start 3)).

Lemma demo_reachable : reachable 3 demo_final.
Proof. apply (run_acts_reachable demo_acts). vm_compute. reflexivity. Qed.

Lemma file_lock_correct_witness :
  lockers demo_final = [Unlocked; Holding 7 S_; Holding 7 S_] /\ TestLocked 7 S_ demo_final = false /\
  (forall k, TestLocked k S_ demo_final = true <-> exists i, lockers demo_final !! i = Some (Holding k X)).
Proof. split_and!; [by vm_compute..|]. apply (file_lock_correct 3 demo_final demo_reachable). Defined.
