(* ===== verification/RemoteComm.v ===== *)
(** * Commands to other servers (falcon/distributed_backend/remote_comm_falcon.c)

    A backend gathers the commands for each server, sends them in one pipeline
    and waits for the results; at the end of its transaction it prepares and
    commits, or rolls back, the transactions it has begun there
    (falcon/transaction/transaction.c calls this from PostgreSQL's callbacks).

    The code is a program over the calls it makes of libpq, of PostgreSQL and of
    shared memory, the [event]s, so that other processes, the network and a
    crash can come between any two of them (TwoPhase.v).  Memory contexts and
    the freeing of results are left out. *)

From stdpp Require Import pretty.
From S2P Require Import FalconPrelude ForeignServer MetaMessages.

(** ** Programs *)

(** What is sent: a text, or the prepared statement cs_meta_call. *)
Inductive query : Type :=
| Sql (text : string)
| CsMetaCall (service : FalconMetaServiceType) (count : Z) (param : list Z).

#[export] Instance query_eq_dec : EqDecision query.
Proof. solve_decision. Defined.

Inductive PGresult : Type :=
| PGRES_COMMAND_OK
| PGRES_TUPLES_OK (rows : list string)
| PGRES_PIPELINE_SYNC
| PGRES_PIPELINE_ABORTED
| PGRES_FATAL_ERROR.

(** What GetForeignServerConnection (ForeignServer.v) does about one server. *)
Inductive link : Type := Kept | Renewed | NoConnection.

Inductive pg_call : Type :=
| BeginTransactionBlock | CommitTransactionCommand | SetRepeatableRead | EndTransactionBlock | UserAbortTransactionBlock
| PrepareTransactionBlock (gid : string) | PreventInTransactionBlock | FinishPreparedTransaction (gid : string) (isCommit : bool).

(** The calls of a backend, and what they answer.  [RecordTransactionCommit] is
    the moment at which PostgreSQL commits the local transaction, with the rows
    of falcon_distributed_transaction that it has inserted and deleted;
    [PathParseReset] is TransactionLevelPathParseReset (PathParse.v), and
    [LocalCaches] the end of the transaction for the directory cache and
    RWLockReleaseAll (DirPathHash.v, Rwlock.v). *)
Inductive event : Type :=
| PQsendQuery (server : Z) (q : query)
| PQpipelineSync (server : Z)
| PQgetResult (server : Z)
| Connect (servers : list Z)
| EnterInprogress (gid : string)
| RemoveInprogress (gid : string)
| ReadInprogress
| ReadRecords (server : Z)
| RecordTransactionCommit (inserted deleted : list (Z * string))
| RecordTransactionAbort
| PathParseReset
| LocalCaches (isCommit : bool)
| PgCall (call : pg_call).

(** [EnterInprogress] answers whether the name was there, or nothing when the
    table is full; [Connect] what became of the connections it got to and
    whether it raised. *)
Definition answer (e : event) : Type :=
  match e with
  | PQsendQuery _ _ | PQpipelineSync _ | PgCall _ => bool
  | PQgetResult _ => option PGresult
  | Connect _ => list (Z * link) * bool
  | EnterInprogress _ => option bool
  | ReadInprogress | ReadRecords _ => list string
  | RemoveInprogress _ | RecordTransactionCommit _ _ | RecordTransactionAbort | PathParseReset | LocalCaches _ => unit
  end.

(** [Halt] is a process that does not go on: it loops, or has ended. *)
Inductive prog (A : Type) : Type :=
| Done (a : A)
| Halt
| Do (e : event) (k : answer e -> prog A).
Arguments Done {A} a.
Arguments Halt {A}.
Arguments Do {A} e k.

Fixpoint pbind {A B : Type} (p : prog A) (f : A -> prog B) : prog B :=
  match p with
  | Done a => f a
  | Halt => Halt
  | Do e k => Do e (fun r => pbind (k r) f)
  end.

(** ** The state of a backend *)

Inductive RemoteCommand : Type :=
| PlainCommand (text : string)
| MetaCall (service : FalconMetaServiceType) (count : Z) (param : list Z).

Record RemoteConnectionCommandData : Type := mkCommandData {
  commandFlag : Z;
  remoteCommandList : list RemoteCommand;
}.

Inductive FalconExplicitTransactionState : Type :=
| FALCON_EXPLICIT_TRANSACTION_NONE
| FALCON_EXPLICIT_TRANSACTION_BEGIN
| FALCON_EXPLICIT_TRANSACTION_PREPARED.

#[export] Instance FalconExplicitTransactionState_eq_dec : EqDecision FalconExplicitTransactionState.
Proof. solve_decision. Defined.

(** [be_manager] has, for each server with an entry in the connection manager,
    whether there is a connection, and its transactionState; [be_inserted] and
    [be_deleted] are the rows of falcon_distributed_transaction that the running
    transaction has written. *)
Record backend : Type := mkBackend {
  be_cache : option (gmap Z RemoteConnectionCommandData);
  be_localWrite : bool;
  be_gid : string;
  be_manager : gmap Z (bool * FalconRemoteTransactionState);
  be_inserted : list (Z * string);
  be_deleted : list (Z * string);
  be_inAbort : bool;
  be_explicit : FalconExplicitTransactionState;
  be_xid : N;
}.

Definition set_commands (c : option (gmap Z RemoteConnectionCommandData)) (b : backend) : backend :=
  mkBackend c (be_localWrite b) (be_gid b) (be_manager b) (be_inserted b) (be_deleted b) (be_inAbort b) (be_explicit b) (be_xid b).
Definition set_localWrite (w : bool) (b : backend) : backend :=
  mkBackend (be_cache b) w (be_gid b) (be_manager b) (be_inserted b) (be_deleted b) (be_inAbort b) (be_explicit b) (be_xid b).
Definition set_gid (g : string) (b : backend) : backend :=
  mkBackend (be_cache b) (be_localWrite b) g (be_manager b) (be_inserted b) (be_deleted b) (be_inAbort b) (be_explicit b) (be_xid b).
Definition set_manager (m : gmap Z (bool * FalconRemoteTransactionState)) (b : backend) : backend :=
  mkBackend (be_cache b) (be_localWrite b) (be_gid b) m (be_inserted b) (be_deleted b) (be_inAbort b) (be_explicit b) (be_xid b).
Definition set_written (ins del : list (Z * string)) (b : backend) : backend :=
  mkBackend (be_cache b) (be_localWrite b) (be_gid b) (be_manager b) ins del (be_inAbort b) (be_explicit b) (be_xid b).
Definition set_inAbort (a : bool) (b : backend) : backend :=
  mkBackend (be_cache b) (be_localWrite b) (be_gid b) (be_manager b) (be_inserted b) (be_deleted b) a (be_explicit b) (be_xid b).
Definition set_explicit (e : FalconExplicitTransactionState) (b : backend) : backend :=
  mkBackend (be_cache b) (be_localWrite b) (be_gid b) (be_manager b) (be_inserted b) (be_deleted b) (be_inAbort b) e (be_xid b).

(** ** The monad: a backend runs a program and returns or raises *)

Definition proc (A : Type) : Type := backend -> prog ((FalconErrorCode + A) * backend).

#[export] Instance proc_ret : MRet proc := fun A a b => Done (inr a, b).
#[export] Instance proc_bind : MBind proc := fun A B f m b =>
  pbind (m b) (fun rb => match rb.1 with inl e => Done (inl e, rb.2) | inr a => f a rb.2 end).

Definition throw {A : Type} (e : FalconErrorCode) : proc A := fun b => Done (inl e, b).
Definition self : proc backend := fun b => Done (inr b, b).
Definition change (f : backend -> backend) : proc unit := fun b => Done (inr tt, f b).
Definition halt {A : Type} : proc A := fun _ => Halt.
Definition emit (e : event) : proc (answer e) := fun b => Do e (fun r => Done (inr r, b)).
Definition throw_unless (c : bool) (e : FalconErrorCode) : proc unit := if c then mret tt else throw e.

(** PG_TRY and the way PostgreSQL ends a transaction: the error and the state
    it was raised in. *)
Definition attempt_ {A : Type} (m : proc A) : proc (FalconErrorCode + A) :=
  fun b => pbind (m b) (fun rb => Done (inr rb.1, rb.2)).

(** ** Gathering commands *)

Definition REMOTE_COMMAND_FLAG_BEGIN_TYPE_MASK : Z := 0x3.
Definition REMOTE_COMMAND_FLAG_NO_BEGIN : Z := 0.
Definition REMOTE_COMMAND_FLAG_NEED_TRANSACTION_SNAPSHOT : Z := 1.
Definition REMOTE_COMMAND_FLAG_WRITE : Z := 2.

Definition ClearRemoteConnectionCommand : proc unit :=
  change (fun b => set_gid EmptyString (set_localWrite false (set_commands None b))).

Definition RegisterLocalProcessFlag (readOnly : bool) : proc unit :=
  if negb readOnly then change (set_localWrite true) else mret tt.

Definition append_command (c : RemoteCommand) (flag : Z) (m : gmap Z RemoteConnectionCommandData) (serverId : Z)
    : gmap Z RemoteConnectionCommandData :=
  let d := default (mkCommandData 0 []) (m !! serverId) in
  <[serverId := mkCommandData (Z.lor (commandFlag d) flag) (remoteCommandList d ++ [c])]> m.

(** RemoteConnectionCommandCacheInit makes an empty table. *)
Definition FalconAppendRemoteCommandToWorkerList (c : RemoteCommand) (flag : Z) (workers : list Z) : proc unit :=
  change (fun b => set_commands (Some (foldl (append_command c flag) (default ∅ (be_cache b)) workers)) b).

Definition FalconPlainCommandOnWorkerList (command : string) (flag : Z) (workers : list Z) : proc unit :=
  FalconAppendRemoteCommandToWorkerList (PlainCommand command) flag workers.

Definition FalconMetaCallOnWorkerList (service : FalconMetaServiceType) (count : Z) (param : list Z) (flag : Z)
    (workers : list Z) : proc unit :=
  if bool_decide (service = PLAIN_COMMAND) then throw PROGRAM_ERROR
  else FalconAppendRemoteCommandToWorkerList (MetaCall service count param) flag workers.

(** ** Connections *)

Definition state_of (b : backend) (i : Z) : FalconRemoteTransactionState :=
  default FALCON_REMOTE_TRANSACTION_NONE (snd <$> be_manager b !! i).

Definition conn_of (b : backend) (i : Z) : bool := default false (fst <$> be_manager b !! i).

Definition set_state (i : Z) (st : FalconRemoteTransactionState) : proc unit :=
  change (fun b => set_manager (<[i := (conn_of b i, st)]> (be_manager b)) b).

(** What the manager has after [Connect]: a new connection has no transaction.
    The functions of ForeignServer.v raise when a connection fails, unless an
    abort is under way. *)
Definition linked (m : gmap Z (bool * FalconRemoteTransactionState)) (l : Z * link)
    : gmap Z (bool * FalconRemoteTransactionState) :=
  match l.2 with
  | Kept => m
  | Renewed => <[l.1 := (true, FALCON_REMOTE_TRANSACTION_NONE)]> m
  | NoConnection => <[l.1 := (false, FALCON_REMOTE_TRANSACTION_NONE)]> m
  end.

Definition failed_link (l : Z * link) : bool := match l.2 with NoConnection => true | _ => false end.

Definition get_connections (ids : list Z) : proc unit :=
  r ← emit (Connect ids);
  _ ← change (fun b => set_manager (foldl linked (be_manager b) r.1) b);
  _ ← throw_unless (negb r.2) PROGRAM_ERROR;
  b ← self;
  throw_unless (negb (existsb failed_link r.1) || be_inAbort b) PROGRAM_ERROR.

Section RemoteComm.
(** Bound of the loops that read results; the order of hash_seq_search; the
    number of this server; what an unset buffer holds. *)
Context (fuel : nat).
Context (cache_seq : gmap Z RemoteConnectionCommandData -> list Z).
Context (localId : Z).
Context (unset : string).

Definition is_ok (r : PGresult) : bool :=
  match r with PGRES_COMMAND_OK | PGRES_TUPLES_OK _ => true | _ => false end.

Definition CheckPQpipelineSyncFinished (i : Z) : proc unit :=
  r ← emit (PQgetResult i);
  match r with
  | Some PGRES_PIPELINE_SYNC =>
      r2 ← emit (PQgetResult i);
      throw_unless (bool_decide (r2 = None)) PROGRAM_ERROR
  | _ => throw PROGRAM_ERROR
  end.

(** Only two NULLs in a row mean that nothing is left. *)
Fixpoint clear_loop (n : nat) (i : Z) (unfetched : bool) : proc bool :=
  match n with
  | O => halt
  | S n' =>
      r ← emit (PQgetResult i);
      match r with
      | Some _ => clear_loop n' i true
      | None =>
          r2 ← emit (PQgetResult i);
          match r2 with
          | Some _ => clear_loop n' i true
          | None => mret unfetched
          end
      end
  end.

Definition ClearPGresultInPGconn (i : Z) : proc bool := clear_loop fuel i false.

(** ** Sending and waiting *)

Definition command_query (c : RemoteCommand) : query :=
  match c with
  | PlainCommand text => Sql text
  | MetaCall service count param => CsMetaCall service count param
  end.

Fixpoint send_commands (i : Z) (cs : list RemoteCommand) : proc unit :=
  match cs with
  | [] => mret tt
  | c :: cs' =>
      ok ← emit (PQsendQuery i (command_query c));
      _ ← throw_unless ok REMOTE_QUERY_FAILED;
      send_commands i cs'
  end.

Definition needs_begin (b : backend) (i : Z) (flag : Z) : bool :=
  bool_decide (state_of b i = FALCON_REMOTE_TRANSACTION_NONE) &&
  negb (Z.land flag REMOTE_COMMAND_FLAG_BEGIN_TYPE_MASK =? REMOTE_COMMAND_FLAG_NO_BEGIN).

(** The state of the connection once its commands are on their way. *)
Definition began (flag : Z) (st : FalconRemoteTransactionState) : FalconRemoteTransactionState :=
  match st with
  | FALCON_REMOTE_TRANSACTION_NONE =>
      if negb (Z.land flag REMOTE_COMMAND_FLAG_WRITE =? 0) then FALCON_REMOTE_TRANSACTION_BEGIN_FOR_WRITE
      else if negb (Z.land flag REMOTE_COMMAND_FLAG_NEED_TRANSACTION_SNAPSHOT =? 0)
      then FALCON_REMOTE_TRANSACTION_BEGIN_FOR_SNAPSHOT
      else FALCON_REMOTE_TRANSACTION_NONE
  | _ => st
  end.

(** One server: whether BEGIN was sent. *)
Definition send_server (i : Z) (d : RemoteConnectionCommandData) : proc bool :=
  _ ← ClearPGresultInPGconn i;
  b ← self;
  let needBegin := needs_begin b i (commandFlag d) in
  _ ← (if needBegin then ok ← emit (PQsendQuery i (Sql "BEGIN;")); throw_unless ok REMOTE_QUERY_FAILED else mret tt);
  _ ← send_commands i (remoteCommandList d);
  ok ← emit (PQpipelineSync i);
  _ ← throw_unless ok REMOTE_QUERY_FAILED;
  _ ← change (fun b => set_manager (<[i := (conn_of b i, began (commandFlag d) (state_of b i))]> (be_manager b)) b);
  _ ← change (fun b => set_commands (<[i := mkCommandData (commandFlag d) []]> <$> be_cache b) b);
  mret needBegin.

Fixpoint send_servers (l : list (Z * RemoteConnectionCommandData)) : proc (list (Z * bool)) :=
  match l with
  | [] => mret []
  | (i, d) :: l' =>
      needBegin ← send_server i d;
      rest ← send_servers l';
      mret ((i, needBegin) :: rest)
  end.

(** The results up to the end of the pipeline. *)
Fixpoint receive_results (n : nat) (i : Z) : proc (list PGresult) :=
  match n with
  | O => halt
  | S n' =>
      r ← emit (PQgetResult i);
      match r with
      | Some PGRES_PIPELINE_SYNC =>
          r2 ← emit (PQgetResult i);
          _ ← throw_unless (bool_decide (r2 = None)) PROGRAM_ERROR;
          mret []
      | Some res =>
          if is_ok res then
            r2 ← emit (PQgetResult i);
            _ ← throw_unless (bool_decide (r2 = None)) PROGRAM_ERROR;
            rest ← receive_results n' i;
            mret (res :: rest)
          else throw REMOTE_QUERY_FAILED
      | None => throw REMOTE_QUERY_FAILED
      end
  end.

Definition receive_server (i : Z) (needBegin : bool) : proc (list PGresult) :=
  _ ← (if needBegin then
         r ← emit (PQgetResult i);
         match r with
         | Some PGRES_COMMAND_OK => r2 ← emit (PQgetResult i); throw_unless (bool_decide (r2 = None)) PROGRAM_ERROR
         | _ => throw REMOTE_QUERY_FAILED
         end
       else mret tt);
  receive_results fuel i.

Fixpoint receive_servers (l : list (Z * bool)) : proc (list (Z * list PGresult)) :=
  match l with
  | [] => mret []
  | (i, needBegin) :: l' =>
      res ← receive_server i needBegin;
      rest ← receive_servers l';
      mret ((i, res) :: rest)
  end.

(** The servers that still have commands to be sent. *)
Definition unsent (c : gmap Z RemoteConnectionCommandData) : list (Z * RemoteConnectionCommandData) :=
  omap (fun i => match c !! i with
                 | Some d => match remoteCommandList d with [] => None | _ => Some (i, d) end
                 | None => None
                 end) (cache_seq c).

Definition FalconSendCommandAndWaitForResult : proc (list (Z * list PGresult)) :=
  b ← self;
  match be_cache b with
  | None => halt
  | Some c =>
      let l := unsent c in
      _ ← get_connections l.*1;
      sent ← send_servers l;
      receive_servers sent
  end.

(** ** The end of the transaction *)

Definition FALCON_TRANSACTION_2PC_HEAD : string := "falcon_xact_".
Definition MAX_TRANSACTION_GID_LENGTH : nat := 127.

Definition gid_of (xid : N) (localWrite : bool) : string :=
  FALCON_TRANSACTION_2PC_HEAD +:+ pretty xid +:+ ":" +:+ pretty localId +:+ ":" +:+ (if localWrite then "T" else "F").

Definition GetImplicitTransactionGid : proc string :=
  b ← self;
  let str := gid_of (be_xid b) (be_localWrite b) in
  _ ← throw_unless (bool_decide (String.length str <= MAX_TRANSACTION_GID_LENGTH)%nat) PROGRAM_ERROR;
  mret str.

Definition quote : string := String (Ascii.ascii_of_nat 39) EmptyString.
Definition prepare_sql (gid : string) : string := "PREPARE TRANSACTION " +:+ quote +:+ gid +:+ quote +:+ ";".
Definition commit_sql (gid : string) : string := "COMMIT PREPARED " +:+ quote +:+ gid +:+ quote +:+ ";".
Definition rollback_sql (gid : string) : string := "ROLLBACK PREPARED " +:+ quote +:+ gid +:+ quote +:+ ";".

Definition is_writer (b : backend) (i : Z) : bool :=
  bool_decide (state_of b i = FALCON_REMOTE_TRANSACTION_BEGIN_FOR_WRITE).

Definition AddInprogressTransaction (gid : string) : proc unit :=
  found ← emit (EnterInprogress gid);
  match found with
  | Some true => throw PROGRAM_ERROR
  | Some false => mret tt
  | None => throw UNKNOWN
  end.

Definition RemoveInprogressTransaction (gid : string) : proc unit := emit (RemoveInprogress gid).

Definition Write2PCRecord (serverId : Z) (gid : string) : proc unit :=
  change (fun b => set_written (be_inserted b ++ [(serverId, gid)]) (be_deleted b) b).

Fixpoint prepare_send (gid : string) (ids : list Z) : proc unit :=
  match ids with
  | [] => mret tt
  | i :: ids' =>
      unfetched ← ClearPGresultInPGconn i;
      _ ← throw_unless (negb unfetched) PROGRAM_ERROR;
      b ← self;
      _ ← (if is_writer b i then
             ok ← emit (PQsendQuery i (Sql (prepare_sql gid)));
             _ ← throw_unless ok REMOTE_QUERY_FAILED;
             ok2 ← emit (PQpipelineSync i);
             throw_unless ok2 REMOTE_QUERY_FAILED
           else mret tt);
      prepare_send gid ids'
  end.

(** Whether a server has refused. *)
Fixpoint prepare_receive (gid : string) (ids : list Z) : proc bool :=
  match ids with
  | [] => mret false
  | i :: ids' =>
      r ← emit (PQgetResult i);
      failed ← match r with
               | None => mret false
               | Some res =>
                   if is_ok res then
                     r2 ← emit (PQgetResult i);
                     _ ← throw_unless (bool_decide (r2 = None)) PROGRAM_ERROR;
                     _ ← CheckPQpipelineSyncFinished i;
                     b ← self;
                     _ ← (if is_writer b i then
                            _ ← set_state i FALCON_REMOTE_TRANSACTION_PREPARE;
                            Write2PCRecord i gid
                          else mret tt);
                     mret false
                   else mret true
               end;
      rest ← prepare_receive gid ids';
      mret (failed || rest)
  end.

Definition FalconRemoteCommandPrepare : proc unit :=
  b0 ← self;
  match be_cache b0 with
  | None => mret tt
  | Some c =>
      let ids := cache_seq c in
      _ ← get_connections ids;
      b ← self;
      let writeServerCount := ((if be_localWrite b then 1 else 0) + length (filter (fun i => is_writer b i = true) ids))%nat in
      if bool_decide (writeServerCount < 2)%nat then mret tt
      else
        gid ← GetImplicitTransactionGid;
        _ ← change (set_gid gid);
        _ ← AddInprogressTransaction gid;
        _ ← prepare_send gid ids;
        failed ← prepare_receive gid ids;
        throw_unless (negb failed) REMOTE_QUERY_FAILED
  end.

(** COMMIT or COMMIT PREPARED to each server; [false] when the function
    returns early with a warning. *)
Definition commit_query (b : backend) (i : Z) : option query :=
  match state_of b i with
  | FALCON_REMOTE_TRANSACTION_BEGIN_FOR_SNAPSHOT | FALCON_REMOTE_TRANSACTION_BEGIN_FOR_WRITE => Some (Sql "COMMIT;")
  | FALCON_REMOTE_TRANSACTION_PREPARE =>
      Some (Sql (if bool_decide (be_gid b = EmptyString) then unset else commit_sql (be_gid b)))
  | FALCON_REMOTE_TRANSACTION_NONE => None
  end.

Fixpoint commit_send (ids : list Z) : proc bool :=
  match ids with
  | [] => mret true
  | i :: ids' =>
      unfetched ← ClearPGresultInPGconn i;
      if unfetched : bool then mret false
      else
        b ← self;
        ok ← match commit_query b i with
             | None => mret true
             | Some q =>
                 ok ← emit (PQsendQuery i q);
                 if ok : bool then emit (PQpipelineSync i) else mret false
             end;
        if ok : bool then commit_send ids' else mret false
  end.

Fixpoint commit_receive (ids : list Z) : proc unit :=
  match ids with
  | [] => mret tt
  | i :: ids' =>
      r ← emit (PQgetResult i);
      match r with
      | None => commit_receive ids'
      | Some res =>
          if is_ok res then
            r2 ← emit (PQgetResult i);
            match r2 with
            | Some _ => mret tt
            | None =>
                _ ← CheckPQpipelineSyncFinished i;
                _ ← set_state i FALCON_REMOTE_TRANSACTION_NONE;
                commit_receive ids'
            end
          else mret tt
      end
  end.

Definition FalconRemoteCommandCommit : proc unit :=
  b ← self;
  match be_cache b with
  | None => mret tt
  | Some c =>
      let ids := cache_seq c in
      _ ← get_connections ids;
      go ← commit_send ids;
      if go : bool then commit_receive ids else mret tt
  end.

Definition rollback_query (b : backend) (i : Z) : option query :=
  match state_of b i with
  | FALCON_REMOTE_TRANSACTION_BEGIN_FOR_SNAPSHOT | FALCON_REMOTE_TRANSACTION_BEGIN_FOR_WRITE => Some (Sql "ROLLBACK;")
  | FALCON_REMOTE_TRANSACTION_PREPARE =>
      Some (Sql (if bool_decide (be_gid b = EmptyString) then unset else rollback_sql (be_gid b)))
  | FALCON_REMOTE_TRANSACTION_NONE => None
  end.

Fixpoint abort_send (ids : list Z) : proc bool :=
  match ids with
  | [] => mret true
  | i :: ids' =>
      b ← self;
      ok ← (if negb (conn_of b i) then mret false
            else
              _ ← ClearPGresultInPGconn i;
              match rollback_query b i with
              | None => mret true
              | Some q =>
                  ok ← emit (PQsendQuery i q);
                  if ok : bool then emit (PQpipelineSync i) else mret false
              end);
      rest ← abort_send ids';
      mret (ok && rest)
  end.

(** The body of the loop that is left after one round: whether the results are
    those of a rollback that went well. *)
Definition rolled_back (i : Z) : proc bool :=
  r ← emit (PQgetResult i);
  match r with
  | None => mret true
  | Some PGRES_COMMAND_OK =>
      r2 ← emit (PQgetResult i);
      match r2 with
      | Some _ => mret false
      | None =>
          r3 ← emit (PQgetResult i);
          match r3 with
          | Some PGRES_PIPELINE_SYNC => r4 ← emit (PQgetResult i); mret (bool_decide (r4 = None))
          | _ => mret false
          end
      end
  | Some _ => mret false
  end.

Fixpoint abort_receive (ids : list Z) : proc bool :=
  match ids with
  | [] => mret true
  | i :: ids' =>
      b ← self;
      ok ← (if negb (conn_of b i) then mret true
            else
              ok ← rolled_back i;
              _ ← set_state i FALCON_REMOTE_TRANSACTION_NONE;
              mret ok);
      rest ← abort_receive ids';
      mret (ok && rest)
  end.

Definition FalconRemoteCommandAbort : proc bool :=
  b ← self;
  match be_cache b with
  | None => mret true
  | Some c =>
      let ids := cache_seq c in
      _ ← get_connections ids;
      s1 ← abort_send ids;
      s2 ← abort_receive ids;
      mret (s1 && s2)
  end.

End RemoteComm.
