(* ===== verification/Transaction.v ===== *)
(** * Transactions and their recovery (falcon/transaction)

    transaction.c hooks into the transactions of PostgreSQL; transaction_cleanup.c
    is the process that finishes, from the rows of falcon_distributed_transaction,
    the prepared transactions that a fault has left on other servers.  [transaction]
    is the order in which PostgreSQL calls the hooks: before the commit is
    recorded, after it, or after an abort; an error after the commit has been
    recorded ends the server. *)

From stdpp Require Import pretty.
From S2P Require Import FalconPrelude ForeignServer MetaMessages RemoteComm.

(** ** Explicit transactions (transaction.c) *)

Definition expect_state (st : FalconExplicitTransactionState) : proc unit :=
  b ← self; throw_unless (bool_decide (be_explicit b = st)) PROGRAM_ERROR.

Definition FalconExplicitTransactionBegin : proc unit :=
  _ ← expect_state FALCON_EXPLICIT_TRANSACTION_NONE;
  _ ← emit (PgCall BeginTransactionBlock);
  _ ← emit (PgCall CommitTransactionCommand);
  setIsolationLevelRes ← emit (PgCall SetRepeatableRead);
  _ ← throw_unless setIsolationLevelRes PROGRAM_ERROR;
  change (set_explicit FALCON_EXPLICIT_TRANSACTION_BEGIN).

Definition FalconExplicitTransactionCommit : proc bool :=
  _ ← expect_state FALCON_EXPLICIT_TRANSACTION_BEGIN;
  isCommit ← emit (PgCall EndTransactionBlock);
  _ ← emit (PgCall CommitTransactionCommand);
  _ ← change (set_explicit FALCON_EXPLICIT_TRANSACTION_NONE);
  mret isCommit.

Definition FalconExplicitTransactionRollback : proc unit :=
  _ ← expect_state FALCON_EXPLICIT_TRANSACTION_BEGIN;
  _ ← emit (PgCall UserAbortTransactionBlock);
  _ ← emit (PgCall CommitTransactionCommand);
  change (set_explicit FALCON_EXPLICIT_TRANSACTION_NONE).

Definition FalconExplicitTransactionPrepare (gid : string) : proc bool :=
  _ ← expect_state FALCON_EXPLICIT_TRANSACTION_BEGIN;
  isPrepare ← emit (PgCall (PrepareTransactionBlock gid));
  _ ← emit (PgCall CommitTransactionCommand);
  _ ← change (set_explicit FALCON_EXPLICIT_TRANSACTION_NONE);
  mret isPrepare.

Definition FalconExplicitTransactionCommitPrepared (gid : string) : proc unit :=
  _ ← expect_state FALCON_EXPLICIT_TRANSACTION_PREPARED;
  _ ← emit (PgCall PreventInTransactionBlock);
  _ ← emit (PgCall (FinishPreparedTransaction gid true));
  _ ← emit (PgCall CommitTransactionCommand);
  change (set_explicit FALCON_EXPLICIT_TRANSACTION_NONE).

Definition FalconExplicitTransactionRollbackPrepared (gid : string) : proc unit :=
  _ ← expect_state FALCON_EXPLICIT_TRANSACTION_PREPARED;
  _ ← emit (PgCall PreventInTransactionBlock);
  _ ← emit (PgCall (FinishPreparedTransaction gid false));
  _ ← emit (PgCall CommitTransactionCommand);
  change (set_explicit FALCON_EXPLICIT_TRANSACTION_NONE).

(** ** The callback *)

Inductive XactEvent : Type :=
| XACT_EVENT_COMMIT | XACT_EVENT_PARALLEL_COMMIT | XACT_EVENT_ABORT | XACT_EVENT_PARALLEL_ABORT | XACT_EVENT_PREPARE
| XACT_EVENT_PRE_COMMIT | XACT_EVENT_PARALLEL_PRE_COMMIT | XACT_EVENT_PRE_PREPARE.

Definition ClearRemoteTransactionGid : proc unit :=
  b ← self;
  _ ← (if bool_decide (be_gid b = EmptyString) then mret tt else RemoveInprogressTransaction (be_gid b));
  change (set_gid EmptyString).

Section Transaction.
Context (fuel : nat).
Context (cache_seq : gmap Z RemoteConnectionCommandData -> list Z).
Context (localId : Z).
Context (unset : string).

Definition FalconTransactionCallback (ev : XactEvent) : proc unit :=
  match ev with
  | XACT_EVENT_PRE_COMMIT => FalconRemoteCommandPrepare fuel cache_seq localId
  | XACT_EVENT_COMMIT =>
      _ ← FalconRemoteCommandCommit fuel cache_seq unset;
      _ ← emit PathParseReset;
      _ ← emit (LocalCaches true);
      _ ← ClearRemoteTransactionGid;
      ClearRemoteConnectionCommand
  | XACT_EVENT_ABORT =>
      _ ← change (set_inAbort true);
      _ ← emit PathParseReset;
      _ ← emit (LocalCaches false);
      _ ← FalconRemoteCommandAbort fuel cache_seq unset;
      _ ← ClearRemoteTransactionGid;
      _ ← ClearRemoteConnectionCommand;
      b ← self;
      _ ← (if bool_decide (be_explicit b = FALCON_EXPLICIT_TRANSACTION_BEGIN)
           then FalconExplicitTransactionRollback else mret tt);
      change (set_inAbort false)
  | XACT_EVENT_PREPARE => emit PathParseReset
  | XACT_EVENT_PRE_PREPARE | XACT_EVENT_PARALLEL_COMMIT | XACT_EVENT_PARALLEL_PRE_COMMIT | XACT_EVENT_PARALLEL_ABORT => mret tt
  end.

(** PostgreSQL's order of events; an error of the callback after the commit
    cannot be undone and stops the server, as does one during an abort. *)
Definition AbortTransaction : proc unit :=
  _ ← emit RecordTransactionAbort;
  _ ← change (set_written [] []);
  r ← attempt_ (FalconTransactionCallback XACT_EVENT_ABORT);
  match r with inl _ => halt | inr _ => mret tt end.

Definition CommitTransaction : proc bool :=
  r ← attempt_ (FalconTransactionCallback XACT_EVENT_PRE_COMMIT);
  match r with
  | inl _ => _ ← AbortTransaction; mret false
  | inr _ =>
      b ← self;
      _ ← emit (RecordTransactionCommit (be_inserted b) (be_deleted b));
      _ ← change (set_written [] []);
      r2 ← attempt_ (FalconTransactionCallback XACT_EVENT_COMMIT);
      match r2 with inl _ => halt | inr _ => mret true end
  end.

(** Whether the transaction was committed. *)
Definition transaction (body : proc unit) : proc bool :=
  r ← attempt_ body;
  match r with
  | inl _ => _ ← AbortTransaction; mret false
  | inr _ => CommitTransaction
  end.

(** ** Recovery (transaction_cleanup.c) *)

(** The order in which hash_seq_search visits a set. *)
Context (set_seq : gset string -> list string).

Definition select_sql : string :=
  "SELECT gid FROM pg_prepared_xacts WHERE gid LIKE " +:+ quote +:+ FALCON_TRANSACTION_2PC_HEAD +:+ "%:" +:+
  pretty localId +:+ ":%" +:+ quote +:+ ";".

Definition rows_of (r : PGresult) : list string := match r with PGRES_TUPLES_OK rows => rows | _ => [] end.

(** The first result of the first server that answered. *)
Definition GetRemotePreparedTransactionSet (serverId : Z) : proc (gset string) :=
  _ ← FalconPlainCommandOnWorkerList select_sql REMOTE_COMMAND_FLAG_NO_BEGIN [serverId];
  allResList ← FalconSendCommandAndWaitForResult fuel cache_seq;
  match allResList with
  | (_, res :: _) :: _ => mret (list_to_set (rows_of res))
  | _ => halt
  end.

Definition GetActiveTransactionSet : proc (gset string) :=
  active ← emit ReadInprogress; mret (list_to_set active).

Definition CommitOrRollbackPreparedTransaction (serverId : Z) (transactionGid : string) (isCommit : bool) : proc unit :=
  _ ← FalconPlainCommandOnWorkerList (if isCommit then commit_sql transactionGid else rollback_sql transactionGid)
        REMOTE_COMMAND_FLAG_NO_BEGIN [serverId];
  _ ← FalconSendCommandAndWaitForResult fuel cache_seq;
  mret tt.

(** The loop over the rows C of the server: what is left of A, and how many
    transactions were finished. *)
Fixpoint cleanup_records (serverId : Z) (setB setD : gset string) (setC : list string) (setA : gset string) (count : Z)
    : proc (gset string * Z) :=
  match setC with
  | [] => mret (setA, count)
  | x :: setC' =>
      if bool_decide (x ∈ setB) then cleanup_records serverId setB setD setC' setA count
      else if bool_decide (x ∈ setA) && bool_decide (x ∈ setD) then
        _ ← CommitOrRollbackPreparedTransaction serverId x true;
        cleanup_records serverId setB setD setC' (setA ∖ {[x]}) (count + 1)
      else if bool_decide (x ∈ setD) then cleanup_records serverId setB setD setC' setA count
      else
        _ ← change (fun b => set_written (be_inserted b) (be_deleted b ++ [(serverId, x)]) b);
        cleanup_records serverId setB setD setC' (setA ∖ {[x]}) count
  end.

(** The loop over what is left of A. *)
Fixpoint cleanup_rest (serverId : Z) (setB : gset string) (rest : list string) (count : Z) : proc Z :=
  match rest with
  | [] => mret count
  | y :: rest' =>
      if bool_decide (y ∈ setB) then cleanup_rest serverId setB rest' count
      else
        _ ← CommitOrRollbackPreparedTransaction serverId y false;
        cleanup_rest serverId setB rest' (count + 1)
  end.

Definition CleanupPreparedTransactions (serverId : Z) : proc Z :=
  setA ← GetRemotePreparedTransactionSet serverId;
  setB ← GetActiveTransactionSet;
  setC ← emit (ReadRecords serverId);
  setD ← GetRemotePreparedTransactionSet serverId;
  r ← cleanup_records serverId setB setD setC setA 0;
  cleanup_rest serverId setB (set_seq r.1) r.2.

(** An error on one server is caught, and the next server is taken. *)
Fixpoint Cleanup2PC (workerIdList : list Z) : proc Z :=
  match workerIdList with
  | [] => mret 0
  | i :: l' =>
      r ← attempt_ (CleanupPreparedTransactions i);
      count ← Cleanup2PC l';
      mret (match r with inl _ => 0 | inr c => c end + count)
  end.

(** One round of FalconDaemon2PCFailureCleanupProcessMain. *)
Definition cleanup_round (workerIdList : list Z) : proc bool :=
  _ ← Cleanup2PC workerIdList;
  CommitTransaction.

End Transaction.
