(* ===== verification/TwoPhase.v ===== *)
(** * The servers, the network and a crash

    What can happen around the programs of RemoteComm.v and Transaction.v: any
    number of backends and the recovery process take their steps in any order;
    the servers answer the commands of a connection one after the other, at any
    later time; a connection can break, and what was sent on it may still be
    executed; and the coordinator can crash, which loses its processes and its
    shared memory but not what it has committed.

    PostgreSQL on the other servers is the class [PgServers]: what the manual
    says of PREPARE TRANSACTION, COMMIT PREPARED, ROLLBACK PREPARED and of a
    transaction block. *)

From stdpp Require Import pretty.
From S2P Require Import FalconPrelude ForeignServer MetaMessages RemoteComm Transaction.

(** ** The other servers *)

Inductive gid_status : Type := Unprepared | Prepared | Committed | RolledBack.

#[export] Instance gid_status_eq_dec : EqDecision gid_status.
Proof. solve_decision. Defined.

Inductive block : Type := NoBlock | InBlock | FailedBlock.

(** A session: the process, the server and the number of the connection. *)
Abbreviation session := (nat * Z * nat)%type.

Definition begin_query : query := Sql "BEGIN;".

Class PgServers (localId : Z) (V : Type) : Type := {
  pg_status : V -> string -> gid_status;
  pg_block : V -> session -> block;
  pg_run : session -> query -> V -> PGresult * V;
  (** Commands that neither begin nor end a transaction. *)
  pg_ordinary : query -> Prop;

  pg_answers c q v : (pg_run c q v).1 <> PGRES_PIPELINE_SYNC;
  pg_status_changes c q v g :
    let v' := (pg_run c q v).2 in
    pg_status v' g <> pg_status v g ->
    (q = Sql (prepare_sql g) /\ pg_status v g = Unprepared /\ pg_status v' g = Prepared) \/
    (q = Sql (commit_sql g) /\ pg_status v g = Prepared /\ pg_status v' g = Committed) \/
    (q = Sql (rollback_sql g) /\ pg_status v g = Prepared /\ pg_status v' g = RolledBack);
  (** PREPARE TRANSACTION in a transaction block that has not failed. *)
  pg_prepare c g v :
    pg_block v c = InBlock -> is_ok (pg_run c (Sql (prepare_sql g)) v).1 = true ->
    pg_status (pg_run c (Sql (prepare_sql g)) v).2 g = Prepared;
  pg_finish c g v :
    (is_ok (pg_run c (Sql (commit_sql g)) v).1 = true -> pg_status (pg_run c (Sql (commit_sql g)) v).2 g = Committed) /\
    (is_ok (pg_run c (Sql (rollback_sql g)) v).1 = true -> pg_status (pg_run c (Sql (rollback_sql g)) v).2 g = RolledBack);
  pg_finish_rows c g v : rows_of (pg_run c (Sql (commit_sql g)) v).1 = [] /\ rows_of (pg_run c (Sql (rollback_sql g)) v).1 = [];
  pg_select c v :
    let r := (pg_run c (Sql (select_sql localId)) v).1 in
    is_ok r = true -> forall x f, gid_of localId x f ∈ rows_of r <-> pg_status v (gid_of localId x f) = Prepared;
  pg_begin c v : is_ok (pg_run c begin_query v).1 = true -> pg_block (pg_run c begin_query v).2 c = InBlock;
  pg_ordinary_block c q v :
    pg_ordinary q -> is_ok (pg_run c q v).1 = true -> pg_block v c = InBlock -> pg_block (pg_run c q v).2 c = InBlock;
  pg_other_block c q v c' : c <> c' -> pg_block (pg_run c q v).2 c' = pg_block v c';
  pg_meta_ordinary service count param : pg_ordinary (CsMetaCall service count param);
  pg_ordinary_text q g : pg_ordinary q -> q <> Sql (prepare_sql g) /\ q <> Sql (commit_sql g) /\ q <> Sql (rollback_sql g);
}.

(** ** Connections *)

(** A command that has not been executed ([None] is the end of the pipeline), or
    a result that has not been fetched. *)
Inductive item : Type := Todo (q : option query) | Ready (a : PGresult).

(** [pi_due]: PQgetResult has returned a result and owes the NULL that ends it;
    [pi_aborted]: a command has failed and the rest of the pipeline is skipped. *)
Record pipe : Type := mkPipe {
  pi_gen : nat;
  pi_items : list item;
  pi_due : bool;
  pi_aborted : bool;
  pi_broken : bool;
}.

Definition new_pipe (gen : nat) : pipe := mkPipe gen [] false false false.

Fixpoint first_todo (l : list item) : option (option query) :=
  match l with
  | [] => None
  | Todo q :: _ => Some q
  | Ready _ :: l' => first_todo l'
  end.

Fixpoint answer_first (a : PGresult) (l : list item) : list item :=
  match l with
  | [] => []
  | Todo _ :: l' => Ready a :: l'
  | Ready r :: l' => Ready r :: answer_first a l'
  end.

Definition todos (l : list item) : list query := omap (fun it => match it with Todo q => q | Ready _ => None end) l.

Section TwoPhase.
Context (localId : Z) {V : Type} {PG : PgServers localId V}.

(** ** The state of everything

    [sy_late] has the commands of broken connections, which may still be
    executed; [sy_decided] is the log of PostgreSQL: which transactions of the
    coordinator have committed or aborted; [sy_sent] is every command ever sent. *)
Record sys : Type := mkSys {
  sy_servers : Z -> V;
  sy_pipes : nat -> Z -> pipe;
  sy_late : list (session * query);
  sy_inprogress : gset string;
  sy_records : gset (Z * string);
  sy_decided : gmap N bool;
  sy_sent : list (Z * query);
}.

Definition with_pipe (t : nat) (i : Z) (p : pipe) (s : sys) : sys :=
  mkSys (sy_servers s)
    (fun t' i' => if bool_decide (t' = t) && (i' =? i) then p else sy_pipes s t' i')
    (sy_late s) (sy_inprogress s) (sy_records s) (sy_decided s) (sy_sent s).

Definition with_server (i : Z) (v : V) (s : sys) : sys :=
  mkSys (fun i' => if i' =? i then v else sy_servers s i') (sy_pipes s) (sy_late s) (sy_inprogress s) (sy_records s)
    (sy_decided s) (sy_sent s).

Definition with_late (l : list (session * query)) (s : sys) : sys :=
  mkSys (sy_servers s) (sy_pipes s) l (sy_inprogress s) (sy_records s) (sy_decided s) (sy_sent s).

Definition with_inprogress (g : gset string) (s : sys) : sys :=
  mkSys (sy_servers s) (sy_pipes s) (sy_late s) g (sy_records s) (sy_decided s) (sy_sent s).

Definition with_log (r : gset (Z * string)) (d : gmap N bool) (s : sys) : sys :=
  mkSys (sy_servers s) (sy_pipes s) (sy_late s) (sy_inprogress s) r d (sy_sent s).

Definition with_sent (i : Z) (q : query) (s : sys) : sys :=
  mkSys (sy_servers s) (sy_pipes s) (sy_late s) (sy_inprogress s) (sy_records s) (sy_decided s) ((i, q) :: sy_sent s).

Definition push (t : nat) (i : Z) (it : item) (s : sys) : sys :=
  let p := sy_pipes s t i in
  with_pipe t i (mkPipe (pi_gen p) (pi_items p ++ [it]) (pi_due p) (pi_aborted p) (pi_broken p)) s.

Definition break (t : nat) (i : Z) (s : sys) : sys :=
  let p := sy_pipes s t i in with_pipe t i (mkPipe (pi_gen p) (pi_items p) (pi_due p) (pi_aborted p) true) s.

(** A connection is given up, with what it was about to do: its commands may
    still be executed, and the client goes on with [p']. *)
Definition abandon (t : nat) (i : Z) (extra : list query) (p' : nat -> pipe) (s : sys) : sys :=
  let p := sy_pipes s t i in
  with_pipe t i (p' (S (pi_gen p))) (with_late (sy_late s ++ (pair (t, i, pi_gen p) <$> todos (pi_items p) ++ extra)) s).

(** A send has failed. *)
Definition lose (t : nat) (i : Z) (extra : list query) (s : sys) : sys :=
  abandon t i extra (fun gen => mkPipe gen [Ready PGRES_FATAL_ERROR] (pi_due (sy_pipes s t i)) true true) s.

(** ** The network *)

(** The server takes the next command of a connection. *)
Definition exec (t : nat) (i : Z) (s : sys) : sys :=
  let p := sy_pipes s t i in
  match first_todo (pi_items p) with
  | None => s
  | Some None =>
      with_pipe t i (mkPipe (pi_gen p) (answer_first PGRES_PIPELINE_SYNC (pi_items p)) (pi_due p) false (pi_broken p)) s
  | Some (Some q) =>
      if pi_aborted p then
        with_pipe t i (mkPipe (pi_gen p) (answer_first PGRES_PIPELINE_ABORTED (pi_items p)) (pi_due p) true (pi_broken p)) s
      else
        let r := pg_run (t, i, pi_gen p) q (sy_servers s i) in
        with_server i r.2
          (with_pipe t i (mkPipe (pi_gen p) (answer_first r.1 (pi_items p)) (pi_due p) (negb (is_ok r.1)) (pi_broken p)) s)
  end.

Definition exec_late (n : nat) (s : sys) : sys :=
  match sy_late s !! n with
  | None => s
  | Some (c, q) => with_server c.1.2 (pg_run c q (sy_servers s c.1.2)).2 (with_late (delete n (sy_late s)) s)
  end.

(** ** The calls of a process

    [ev t x e s r s']: the call [e] of the process [t] with transaction [x]
    answers [r]. *)
Definition relink (t : nat) (s : sys) (l : Z * link) : sys :=
  match l.2 with
  | Kept => s
  | Renewed | NoConnection => abandon t l.1 [] new_pipe s
  end.

Definition get_result (t : nat) (i : Z) (s : sys) (r : option PGresult) (s' : sys) : Prop :=
  let p := sy_pipes s t i in
  if pi_due p then r = None /\ s' = with_pipe t i (mkPipe (pi_gen p) (pi_items p) false (pi_aborted p) (pi_broken p)) s
  else
    match pi_items p with
    | [] => r = None /\ s' = s
    | it :: l =>
        (exists a, it = Ready a /\ r = Some a /\
           s' = with_pipe t i (mkPipe (pi_gen p) l true (pi_aborted p) (pi_broken p)) s) \/
        (pi_broken p = true /\ r = Some PGRES_FATAL_ERROR /\
           s' = abandon t i [] (fun gen => mkPipe gen [] true (pi_aborted p) true) s)
    end.

Definition ev (t : nat) (x : N) (e : event) (s : sys) : answer e -> sys -> Prop :=
  match e with
  | PQsendQuery i q => fun r s' =>
      let p := sy_pipes s t i in
      (r = true /\ pi_broken p = false /\ s' = with_sent i q (push t i (Todo (Some q)) s)) \/
      (r = false /\ exists extra, (extra = [] \/ extra = [q]) /\ s' = with_sent i q (lose t i extra s))
  | PQpipelineSync i => fun r s' =>
      (r = true /\ pi_broken (sy_pipes s t i) = false /\ s' = push t i (Todo None) s) \/ (r = false /\ s' = lose t i [] s)
  | PQgetResult i => fun r s' => get_result t i s r s'
  | Connect ids => fun r s' =>
      r.1.*1 `prefix_of` ids /\ (r.2 = false -> r.1.*1 = ids) /\ s' = foldl (relink t) s r.1
  | EnterInprogress g => fun r s' =>
      (r = None /\ s' = s) \/
      (r = Some (bool_decide (g ∈ sy_inprogress s)) /\ s' = with_inprogress (sy_inprogress s ∪ {[g]}) s)
  | RemoveInprogress g => fun _ s' => s' = with_inprogress (sy_inprogress s ∖ {[g]}) s
  | ReadInprogress => fun r s' => (forall g, g ∈ r <-> g ∈ sy_inprogress s) /\ s' = s
  | ReadRecords i => fun r s' => (forall g, g ∈ r <-> (i, g) ∈ sy_records s) /\ s' = s
  | RecordTransactionCommit ins del => fun _ s' =>
      s' = with_log ((sy_records s ∪ list_to_set ins) ∖ list_to_set del) (<[x := true]> (sy_decided s)) s
  | RecordTransactionAbort => fun _ s' => s' = with_log (sy_records s) (<[x := false]> (sy_decided s)) s
  | PathParseReset => fun _ s' => s' = s
  | LocalCaches _ => fun _ s' => s' = s
  | PgCall _ => fun _ s' => s' = s
  end.

(** ** Processes *)

Context (fuel : nat) (cache_seq : gmap Z RemoteConnectionCommandData -> list Z) (unset : string)
  (set_seq : gset string -> list string).

(** What a handler does of this: it says that it writes locally, gathers
    commands, sends them, and goes on with the results. *)
Inductive body : Type :=
| BodyEnd
| BodyFail (e : FalconErrorCode)
| BodyRegister (readOnly : bool) (k : body)
| BodyMeta (service : FalconMetaServiceType) (count : Z) (param : list Z) (flag : Z) (workers : list Z) (k : body)
| BodyPlain (command : string) (flag : Z) (workers : list Z) (k : body)
| BodySend (k : list (Z * list PGresult) -> body).

Fixpoint run_body (d : body) : proc unit :=
  match d with
  | BodyEnd => mret tt
  | BodyFail e => throw e
  | BodyRegister readOnly k => _ ← RegisterLocalProcessFlag readOnly; run_body k
  | BodyMeta service count param flag workers k =>
      _ ← FalconMetaCallOnWorkerList service count param flag workers; run_body k
  | BodyPlain command flag workers k => _ ← FalconPlainCommandOnWorkerList command flag workers; run_body k
  | BodySend k => res ← FalconSendCommandAndWaitForResult fuel cache_seq; run_body (k res)
  end.

(** The texts that a handler sends as they are neither begin nor end a
    transaction. *)
Fixpoint body_ok (d : body) : Prop :=
  match d with
  | BodyEnd | BodyFail _ => True
  | BodyRegister _ k | BodyMeta _ _ _ _ _ k => body_ok k
  | BodyPlain command _ _ k => pg_ordinary (Sql command) /\ body_ok k
  | BodySend k => forall res, body_ok (k res)
  end.

(** A backend between two transactions, with no transaction open on its
    connections. *)
Record between_transactions (b : backend) : Prop := {
  bt_cache : be_cache b = None;
  bt_gid : be_gid b = EmptyString;
  bt_states : forall i, state_of b i = FALCON_REMOTE_TRANSACTION_NONE;
  bt_written : be_inserted b = [] /\ be_deleted b = [];
  bt_inAbort : be_inAbort b = false;
}.

Record thread : Type := mkThread {
  th_xid : N;
  th_recovery : bool;
  th_prog : prog ((FalconErrorCode + bool) * backend);
}.

Record config : Type := mkConfig { cf_sys : sys; cf_threads : gmap nat thread }.

(** A transaction number that PostgreSQL has not given out before, and a
    process that has no connections yet. *)
Record fresh (t : nat) (x : N) (c : config) : Prop := {
  fresh_thread : cf_threads c !! t = None;
  fresh_pipes : forall i, sy_pipes (cf_sys c) t i = new_pipe 0;
  fresh_xid : forall t' th, cf_threads c !! t' = Some th -> th_xid th <> x;
  fresh_decided : sy_decided (cf_sys c) !! x = None;
  fresh_gid : forall f, (gid_of localId x f ∉ sy_inprogress (cf_sys c)) /\
    (forall i, (i, Sql (prepare_sql (gid_of localId x f))) ∉ sy_sent (cf_sys c));
}.

(** A crash: the processes and the shared memory are gone, and the
    transactions that were not decided have aborted. *)
Definition abort_live (threads : gmap nat thread) (d : gmap N bool) : gmap N bool :=
  d ∪ list_to_map ((fun p : nat * thread => (th_xid p.2, false)) <$> map_to_list threads).

Definition crash (c : config) : config :=
  mkConfig (with_inprogress ∅ (with_log (sy_records (cf_sys c)) (abort_live (cf_threads c) (sy_decided (cf_sys c))) (cf_sys c))) ∅.

Inductive step : config -> config -> Prop :=
| step_call s ts t x rec e k r s' :
    ts !! t = Some (mkThread x rec (Do e k)) -> ev t x e s r s' ->
    step (mkConfig s ts) (mkConfig s' (<[t := mkThread x rec (k r)]> ts))
| step_exec s ts t i : step (mkConfig s ts) (mkConfig (exec t i s) ts)
| step_late s ts n : step (mkConfig s ts) (mkConfig (exec_late n s) ts)
| step_break s ts t i : step (mkConfig s ts) (mkConfig (break t i s) ts)
| step_begin c t x d b :
    fresh t x c -> body_ok d -> between_transactions b -> be_xid b = x ->
    step c (mkConfig (cf_sys c)
      (<[t := mkThread x false (transaction fuel cache_seq localId unset (run_body d) b)]> (cf_threads c)))
| step_recovery c t x workers b :
    fresh t x c -> between_transactions b -> be_xid b = x -> be_localWrite b = false ->
    (forall t' th, cf_threads c !! t' = Some th -> th_recovery th = false) ->
    step c (mkConfig (cf_sys c)
      (<[t := mkThread x true (cleanup_round fuel cache_seq localId unset set_seq workers b)]> (cf_threads c)))
| step_end s ts t x rec a :
    ts !! t = Some (mkThread x rec (Done a)) -> step (mkConfig s ts) (mkConfig s (delete t ts))
| step_crash c : step c (crash c).

(** Nothing has happened yet. *)
Record initial (c : config) : Prop := {
  init_threads : cf_threads c = ∅;
  init_status : forall i x f, pg_status (sy_servers (cf_sys c) i) (gid_of localId x f) = Unprepared;
  init_pipes : forall t i, sy_pipes (cf_sys c) t i = new_pipe 0;
  init_rest : sy_late (cf_sys c) = [] /\ sy_inprogress (cf_sys c) = ∅ /\ sy_records (cf_sys c) = ∅ /\
    sy_decided (cf_sys c) = ∅ /\ sy_sent (cf_sys c) = [];
}.
End TwoPhase.
