(* ===== verification/TwoPhaseSafety.v ===== *)
(** * Two-phase commit keeps transactions whole

    Safety of the protocol of RemoteComm.v and Transaction.v in the system of
    TwoPhase.v, by rely and guarantee: every process keeps a global invariant and
    leaves alone what the others rely on. *)

From Stdlib Require Import Ascii.
From stdpp Require Import pretty.
From S2P Require Import FalconPrelude Decimal ForeignServer MetaMessages RemoteComm Transaction TwoPhase.

(** ** Names of transactions *)

Lemma gid_of_inj localId x f x' f' : gid_of localId x f = gid_of localId x' f' -> x = x'.
Proof.
  unfold gid_of, FALCON_TRANSACTION_2PC_HEAD. cbn [String.append]. intros E. repeat (injection E as E).
  apply (inj pretty). by eapply (app_inj_lacks ":"); [by apply pretty_N_lacks..|].
Qed.

Lemma sql_inj g g' :
  (prepare_sql g = prepare_sql g' -> g = g') /\ (commit_sql g = commit_sql g' -> g = g') /\
  (rollback_sql g = rollback_sql g' -> g = g').
Proof.
  unfold prepare_sql, commit_sql, rollback_sql, quote.
  split_and!; intros E; cbn [String.append] in E; repeat (injection E as E); exact (append_inj_r _ g g' E).
Qed.

Lemma sql_disjoint localId g g' :
  prepare_sql g <> commit_sql g' /\ prepare_sql g <> rollback_sql g' /\ commit_sql g <> rollback_sql g' /\
  prepare_sql g <> select_sql localId /\ commit_sql g <> select_sql localId /\ rollback_sql g <> select_sql localId.
Proof. by split_and!. Qed.

Section Safety.
Context (localId : Z) {V : Type} {PG : PgServers localId V}.
Abbreviation sys := (@sys V).
Abbreviation G := (gid_of localId).
Implicit Types (s : sys) (t : nat) (x y : N) (f : bool) (i j : Z) (g : string) (q : query).

(** ** The invariant *)

Definition st s i g : gid_status := pg_status (sy_servers s i) g.

(** PREPARE TRANSACTION has been sent. *)
Definition asked s i g : Prop := (i, Sql (prepare_sql g)) ∈ sy_sent s.

(** A command that a server may still execute. *)
Definition mention s i q : Prop :=
  (exists t, q ∈ todos (pi_items (sy_pipes s t i))) \/ (exists c, (c, q) ∈ sy_late s /\ c.1.2 = i).

Definition may_rollback s x f i : Prop :=
  sy_decided s !! x = Some false \/
  (sy_decided s !! x = Some true /\ (~ asked s i (G x f) \/ st s i (G x f) = Committed)).

(** What is left of a connection that was given up is not on the new one. *)
Definition late_gone s : Prop :=
  forall c q, (c, q) ∈ sy_late s -> (c.2 < pi_gen (sy_pipes s c.1.1 c.1.2))%nat.

Record Inv s : Prop := {
  inv_commit x f i : mention s i (Sql (commit_sql (G x f))) \/ st s i (G x f) = Committed -> sy_decided s !! x = Some true;
  inv_rolled x f i : st s i (G x f) = RolledBack -> sy_decided s !! x = Some false;
  inv_rollback x f i : mention s i (Sql (rollback_sql (G x f))) -> may_rollback s x f i;
  inv_whole x f i : sy_decided s !! x = Some true -> asked s i (G x f) ->
    (st s i (G x f) = Prepared /\ (i, G x f) ∈ sy_records s) \/ st s i (G x f) = Committed;
  inv_records x f i : (i, G x f) ∈ sy_records s -> sy_decided s !! x = Some true /\ asked s i (G x f);
  inv_asked x f i : mention s i (Sql (prepare_sql (G x f))) \/ st s i (G x f) <> Unprepared -> asked s i (G x f);
  inv_inprogress x f i : asked s i (G x f) -> sy_decided s !! x = None -> G x f ∈ sy_inprogress s;
  inv_late : late_gone s;
}.

(** A server executes a command that was waiting. *)
Lemma Inv_run s s' i c q :
  Inv s -> mention s i q ->
  sy_servers s' = (fun j => if j =? i then (pg_run c q (sy_servers s i)).2 else sy_servers s j) ->
  (forall j r, mention s' j r -> mention s j r) ->
  sy_inprogress s' = sy_inprogress s -> sy_records s' = sy_records s -> sy_decided s' = sy_decided s ->
  sy_sent s' = sy_sent s -> late_gone s' -> Inv s'.
Proof.
  intros HI Hq Ev Hm E1 E2 E3 E4 Hl.
  assert (forall j g, asked s' j g <-> asked s j g) as Ea by (intros; unfold asked; by rewrite E4).
  assert (forall j g, st s' j g = st s j g \/ (j = i /\ pg_status (pg_run c q (sy_servers s i)).2 g = st s' j g)) as Es.
  { intros j g. unfold st. rewrite Ev. destruct (Z.eqb_spec j i) as [->|]; [by right|by left]. }
  assert (forall x f j, st s' j (G x f) = st s j (G x f) \/
    (j = i /\ ((q = Sql (prepare_sql (G x f)) /\ st s j (G x f) = Unprepared /\ st s' j (G x f) = Prepared) \/
     (q = Sql (commit_sql (G x f)) /\ st s j (G x f) = Prepared /\ st s' j (G x f) = Committed) \/
     (q = Sql (rollback_sql (G x f)) /\ st s j (G x f) = Prepared /\ st s' j (G x f) = RolledBack)))) as Ec.
  { intros x f j. destruct (decide (st s' j (G x f) = st s j (G x f))) as [|Hne]; [by left|right].
    destruct (Es j (G x f)) as [?|[-> E]]; [done|]. split; [done|]. rewrite <- E. apply pg_status_changes.
    by rewrite E. }
  split.
  - intros x f j H. rewrite E3. destruct H as [H|H]; [apply (inv_commit _ HI x f j); left; auto|].
    destruct (Ec x f j) as [E|(-> & [(-> & A & B)|[(-> & A & B)|(-> & A & B)]])]; try congruence.
    + apply (inv_commit _ HI x f j). right. congruence.
    + apply (inv_commit _ HI x f i). by left.
  - intros x f j H. rewrite E3.
    destruct (Ec x f j) as [E|(-> & [(-> & A & B)|[(-> & A & B)|(-> & A & B)]])]; try congruence.
    + apply (inv_rolled _ HI x f j). congruence.
    + destruct (inv_rollback _ HI x f i Hq) as [?|[? [Hn|Hc]]]; [done| |congruence].
      destruct Hn. apply (inv_asked _ HI). right. congruence.
  - intros x f j H. destruct (inv_rollback _ HI x f j) as [Hd|[Hd Hc]]; [auto|left; congruence|]. right. rewrite E3. split; [done|].
    rewrite Ea. destruct Hc as [Hc|Hc]; [by left|]. right.
    destruct (Ec x f j) as [E|(-> & [(-> & A & B)|[(-> & A & B)|(-> & A & B)]])]; congruence.
  - intros x f j Hd Ha. rewrite E3 in Hd. rewrite Ea in Ha. rewrite E2.
    destruct (inv_whole _ HI x f j Hd Ha) as [[A1 B1]|A1];
      destruct (Ec x f j) as [E|(-> & [(-> & A & B)|[(-> & A & B)|(-> & A & B)]])]; try congruence.
    + left. split; congruence.
    + by right.
    + exfalso. destruct (inv_rollback _ HI x f i Hq) as [?|[? [Hn|Hc]]]; congruence.
    + right. congruence.
  - intros x f j H. rewrite E2 in H. rewrite E3, Ea. by apply (inv_records _ HI).
  - intros x f j H. rewrite Ea. apply (inv_asked _ HI). destruct H as [H|H]; [left; auto|].
    destruct (Ec x f j) as [E|(-> & [(-> & A & B)|[(-> & A & B)|(-> & A & B)]])];
      [right; congruence|by left|right; congruence|right; congruence].
  - intros x f j H Hd. rewrite Ea in H. rewrite E1. rewrite E3 in Hd. by apply (inv_inprogress _ HI x f j).
  - done.
Qed.

(** Nothing but waiting commands is lost. *)
Lemma Inv_fewer s s' :
  Inv s -> sy_servers s' = sy_servers s -> (forall j r, mention s' j r -> mention s j r) ->
  sy_inprogress s' = sy_inprogress s -> sy_records s' = sy_records s -> sy_decided s' = sy_decided s ->
  sy_sent s' = sy_sent s -> late_gone s' -> Inv s'.
Proof.
  intros HI E0 Hm E1 E2 E3 E4 Hl. unfold st in *.
  split; unfold may_rollback, st, asked; rewrite ?E0, ?E1, ?E2, ?E3, ?E4.
  - intros x f i [H|H]; apply (inv_commit _ HI x f i); auto.
  - apply (inv_rolled _ HI).
  - intros x f i H. apply (inv_rollback _ HI x f i). auto.
  - apply (inv_whole _ HI).
  - apply (inv_records _ HI).
  - intros x f i [H|H]; apply (inv_asked _ HI x f i); auto.
  - apply (inv_inprogress _ HI).
  - done.
Qed.

(** ** What a process knows of its connections *)

Definition pipe_of s t i : pipe := sy_pipes s t i.
Definition items s t i : list item := pi_items (sy_pipes s t i).
Definition in_block s t i : Prop := pg_block (sy_servers s i) (t, i, pi_gen (sy_pipes s t i)) = InBlock.

(** The answer to PREPARE is to come first. *)
Definition preparing s t i g : Prop :=
  exists rest,
    (items s t i = Todo (Some (Sql (prepare_sql g))) :: rest /\ in_block s t i) \/
    (exists a, items s t i = Ready a :: rest /\ (is_ok a = true -> st s i g <> Unprepared)).

(** Commands of a transaction block: some result is an error or will be, or
    all is well and the block is open or about to be opened. *)
Definition ordinary_item (it : item) : Prop :=
  match it with Todo (Some q) => pg_ordinary q | Todo None => False | Ready a => is_ok a = true end.

Definition no_sync (it : item) : Prop := it <> Todo None /\ it <> Ready PGRES_PIPELINE_SYNC.

Definition block_pending (l : list item) (aborted : bool) (opened : Prop) : Prop :=
  (exists a, Ready a ∈ l /\ is_ok a = false) \/
  (aborted = true /\ exists q, first_todo l = Some (Some q)) \/
  (aborted = false /\ exists pre post, l = (Ready <$> pre) ++ Todo (Some begin_query) :: post /\
     Forall (fun a => is_ok a = true) pre /\ Forall ordinary_item post) \/
  (aborted = false /\ opened /\ Forall ordinary_item l).

Definition block_opened s t i : Prop :=
  Forall no_sync (items s t i) /\ block_pending (items s t i) (pi_aborted (sy_pipes s t i)) (in_block s t i).

Definition block_closed s t i : Prop :=
  exists l z, items s t i = l ++ [z] /\ Forall no_sync l /\ (z = Todo None \/ z = Ready PGRES_PIPELINE_SYNC) /\
    block_pending l (pi_aborted (sy_pipes s t i)) (in_block s t i).

(** The recovery process only asks for and finishes prepared transactions. *)
Definition recovery_item s (it : item) : Prop :=
  match it with
  | Todo None => True
  | Todo (Some q) => q = Sql (select_sql localId) \/ exists g, q = Sql (commit_sql g) \/ q = Sql (rollback_sql g)
  | Ready a => forall x f, G x f ∈ rows_of a -> exists j, asked s j (G x f)
  end.

Definition recovery_items s t i : Prop := Forall (recovery_item s) (items s t i).

(** The answer to the question for prepared transactions is to come first; the
    transactions of [known] that are not in it are finished. *)
Definition finished s i g : Prop := st s i g = Committed \/ st s i g = RolledBack.

Definition selecting (known : list string) s t i : Prop :=
  (forall x f, G x f ∈ known -> st s i (G x f) <> Unprepared) /\
  exists rest,
    items s t i = Todo (Some (Sql (select_sql localId))) :: rest \/
    (exists a, items s t i = Ready a :: rest /\
       (is_ok a = true -> forall x f, G x f ∈ known -> G x f ∉ rows_of a -> finished s i (G x f))).

(** ** What a process relies on *)

Definition status_le (a b : gid_status) : Prop := a = b \/ a = Unprepared \/ (a = Prepared /\ b <> Unprepared).

(** What stays true of a connection while others run. *)
Record pipe_kept t i s s' : Prop := {
  kept_due : pi_due (sy_pipes s' t i) = pi_due (sy_pipes s t i);
  kept_idle : items s t i = [] -> items s' t i = [] /\ (in_block s t i -> in_block s' t i);
  kept_preparing g : preparing s t i g -> preparing s' t i g;
  kept_opened : block_opened s t i -> block_opened s' t i;
  kept_closed : block_closed s t i -> block_closed s' t i;
  kept_recovery : recovery_items s t i -> recovery_items s' t i;
  kept_selecting known : selecting known s t i -> selecting known s' t i;
}.

Record Rely (t : nat) (x : N) (recovery : bool) s s' : Prop := {
  rely_own : sy_decided s' !! x = sy_decided s !! x;
  rely_inprogress f : G x f ∈ sy_inprogress s' <-> G x f ∈ sy_inprogress s;
  rely_asked i f : asked s' i (G x f) <-> asked s i (G x f);
  rely_status i g : status_le (st s i g) (st s' i g);
  rely_decided y d : sy_decided s !! y = Some d -> sy_decided s' !! y = Some d;
  rely_settled y f i d : sy_decided s !! y = Some d -> (asked s' i (G y f) <-> asked s i (G y f));
  rely_sent iq : iq ∈ sy_sent s -> iq ∈ sy_sent s';
  rely_records : recovery = true -> sy_records s ⊆ sy_records s';
  rely_pipe i : pipe_kept t i s s';
}.

Lemma status_le_trans a b c : status_le a b -> status_le b c -> status_le a c.
Proof. unfold status_le. destruct a, b, c; intuition congruence. Qed.

Lemma status_le_refl a : status_le a a.
Proof. by left. Qed.

Lemma pipe_kept_trans t i s1 s2 s3 : pipe_kept t i s1 s2 -> pipe_kept t i s2 s3 -> pipe_kept t i s1 s3.
Proof.
  intros A B. split.
  - by rewrite (kept_due _ _ _ _ B), (kept_due _ _ _ _ A).
  - intros H. destruct (kept_idle _ _ _ _ A H) as [H1 H2]. destruct (kept_idle _ _ _ _ B H1). auto.
  - intros g H. by apply B, A.
  - intros H. by apply B, A.
  - intros H. by apply B, A.
  - intros H. by apply B, A.
  - intros known H. by apply B, A.
Qed.

Lemma Rely_refl t x rec s : Rely t x rec s s.
Proof. split; try done. intros. apply status_le_refl. Qed.

Lemma Rely_trans t x rec s1 s2 s3 : Rely t x rec s1 s2 -> Rely t x rec s2 s3 -> Rely t x rec s1 s3.
Proof.
  intros A B. split.
  - by rewrite (rely_own _ _ _ _ _ B), (rely_own _ _ _ _ _ A).
  - intros f. by rewrite (rely_inprogress _ _ _ _ _ B), (rely_inprogress _ _ _ _ _ A).
  - intros i f. by rewrite (rely_asked _ _ _ _ _ B), (rely_asked _ _ _ _ _ A).
  - intros i g. eapply status_le_trans; [apply A|apply B].
  - intros y d H. by apply B, A.
  - intros y f i d H. rewrite (rely_settled _ _ _ _ _ B y f i d), (rely_settled _ _ _ _ _ A y f i d H); [done|].
    by apply (rely_decided _ _ _ _ _ A).
  - intros iq H. by apply B, A.
  - intros Hr. etransitivity; [by apply A|by apply B].
  - intros i. eapply pipe_kept_trans; [apply A|apply B].
Qed.

Lemma status_le_known a b : status_le a b -> a <> Unprepared -> b <> Unprepared.
Proof. unfold status_le. intuition congruence. Qed.

Lemma finished_le s s' i g : status_le (st s i g) (st s' i g) -> finished s i g -> finished s' i g.
Proof. unfold status_le, finished. intuition congruence. Qed.

(** A connection that was not touched. *)
Lemma pipe_kept_same t i s s' :
  sy_pipes s' t i = sy_pipes s t i -> (in_block s t i -> in_block s' t i) ->
  (forall g, status_le (st s i g) (st s' i g)) -> (forall iq, iq ∈ sy_sent s -> iq ∈ sy_sent s') ->
  pipe_kept t i s s'.
Proof.
  intros Ep Hb Hs Hq. assert (items s' t i = items s t i) as Ei by (unfold items; by rewrite Ep). split.
  - by rewrite Ep.
  - rewrite Ei. auto.
  - intros g (rest & H). exists rest. rewrite Ei.
    destruct H as [[? ?]|(a & E & H)]; [left; auto|right]. exists a. split; [done|]. intros Ha.
    by eapply status_le_known; [apply Hs|apply H].
  - unfold block_opened, block_pending. rewrite Ei, Ep. intuition auto.
  - intros (l & z & H). exists l, z. revert H. unfold block_pending. rewrite Ei, Ep. intuition auto.
  - unfold recovery_items. rewrite Ei. intros Hf. eapply Forall_impl; [exact Hf|]. intros [[q|]|a]; cbn; try done.
    intros H x f Hin. destruct (H x f Hin) as [j Hj]. exists j. by apply Hq.
  - intros known [Hk (rest & H)]. split.
    { intros x f Hx. by eapply status_le_known; [apply Hs|apply Hk]. }
    exists rest. rewrite Ei. destruct H as [?|(a & E & H)]; [by left|right]. exists a. split; [done|].
    intros Ha x f Hx Hn. by eapply finished_le; [apply Hs|apply H].
Qed.

(** ** The network *)

Lemma pipe_with_same t i p s : sy_pipes (with_pipe t i p s) t i = p.
Proof. cbn. by rewrite bool_decide_eq_true_2, Z.eqb_refl. Qed.

Lemma pipe_with_other t i p s t' i' : (t', i') <> (t, i) -> sy_pipes (with_pipe t i p s) t' i' = sy_pipes s t' i'.
Proof. intros H. cbn. case_bool_decide; [|done]. destruct (Z.eqb_spec i' i); [congruence|done]. Qed.

Lemma todos_answer a l q : q ∈ todos (answer_first a l) -> q ∈ todos l.
Proof.
  unfold todos. induction l as [|[o|r] l IH]; cbn; [done| |done].
  intros H. destruct o; [by right|done].
Qed.

Lemma first_todo_elem l q : first_todo l = Some (Some q) -> q ∈ todos l.
Proof. unfold todos. induction l as [|[[r|]|r] l IH]; cbn; [done|intros [= ->]; by left|done|done]. Qed.

Lemma mention_with_pipe t i p s j q :
  (forall r, r ∈ todos (pi_items p) -> r ∈ todos (items s t i)) -> mention (with_pipe t i p s) j q -> mention s j q.
Proof.
  intros H [(t' & Hq)|Hl]; [|by right]. left. exists t'.
  destruct (decide ((t', j) = (t, i))) as [[= -> ->]|Hne].
  - rewrite pipe_with_same in Hq. by apply H.
  - by rewrite pipe_with_other in Hq.
Qed.

Lemma st_run s s' i j c q g :
  sy_servers s' = (fun j => if j =? i then (pg_run c q (sy_servers s i)).2 else sy_servers s j) ->
  status_le (st s j g) (st s' j g).
Proof.
  intros E. unfold st. rewrite E. destruct (Z.eqb_spec j i) as [->|]; [|apply status_le_refl].
  destruct (decide (pg_status (pg_run c q (sy_servers s i)).2 g = pg_status (sy_servers s i) g)) as [->|Hne]; [by left|].
  unfold status_le. destruct (pg_status_changes _ _ _ _ Hne) as [(_ & -> & _)|[(_ & -> & ->)|(_ & -> & ->)]]; auto.
Qed.

(** The next command of a block is answered. *)
Lemma block_pending_exec (l : list item) (ab : bool) (B : Prop) (a : PGresult) (B' : Prop) q :
  first_todo l = Some (Some q) -> block_pending l ab B -> (ab = true -> is_ok a = false) ->
  (q = begin_query -> is_ok a = true -> B') -> (pg_ordinary q -> is_ok a = true -> B -> B') ->
  block_pending (answer_first a l) (if ab then true else negb (is_ok a)) B'.
Proof.
  intros Hf H Hab Hbeg Hord.
  assert (is_ok a = false -> exists b, Ready b ∈ answer_first a l /\ is_ok b = false) as Hbad.
  { intros Ha. exists a. split; [|done]. clear -Hf. induction l as [|[o|r] l IH]; cbn in *; [done|by left|right; auto]. }
  destruct H as [(b & Hb & Eb)|[[-> _]|[(-> & pre & post & -> & Hpre & Hpost)|(-> & HB & Hall)]]].
  - left. exists b. split; [|done]. clear -Hb. induction l as [|[o|r] l IH]; cbn in *; [done| |].
    + apply elem_of_cons in Hb as [?|?]; [done|by right].
    + apply elem_of_cons in Hb as [->|?]; [by left|right; auto].
  - left. by apply Hbad, Hab.
  - assert (answer_first a ((Ready <$> pre) ++ Todo (Some begin_query) :: post) = (Ready <$> pre) ++ Ready a :: post) as Ea.
    { clear. induction pre as [|r pre IH]; cbn; [done|]. by f_equal. }
    assert (q = begin_query) as -> by (clear -Hf; induction pre; cbn in *; [by simplify_eq|auto]).
    destruct (is_ok a) eqn:Eok; [|by left; apply Hbad]. right. right. right. split; [done|]. split; [auto|].
    rewrite Ea. apply Forall_app. split; [|by constructor]. apply Forall_fmap. eapply Forall_impl; [exact Hpre|]. done.
  - destruct (is_ok a) eqn:Eok; [|by left; apply Hbad]. right. right. right. split; [done|].
    assert (pg_ordinary q /\ Forall ordinary_item (answer_first a l)) as [Hq Hl].
    { clear -Hf Hall Eok. induction Hall as [|[o|r] l Ho Hall IH]; cbn in *; [done| |].
      - simplify_eq. by split; [|constructor].
      - destruct (IH Hf). split; [done|by constructor]. }
    auto.
Qed.

Lemma first_todo_app l z :
  (exists o, first_todo l = Some o /\ first_todo (l ++ [z]) = Some o /\ forall a, answer_first a (l ++ [z]) = answer_first a l ++ [z]) \/
  (first_todo l = None /\ first_todo (l ++ [z]) = first_todo [z] /\ forall a, answer_first a (l ++ [z]) = l ++ answer_first a [z]).
Proof.
  induction l as [|[o|r] l IH]; [by right|left; by exists o|].
  destruct IH as [(o & E1 & E2 & E3)|(E1 & E2 & E3)]; [left; exists o|right]; cbn; split_and!; try done; intros a; by rewrite E3.
Qed.

Lemma no_sync_answer a l : a <> PGRES_PIPELINE_SYNC -> Forall no_sync l -> Forall no_sync (answer_first a l).
Proof.
  intros Ha. induction 1 as [|[o|r] l Ho Hl IH]; cbn; constructor; try done. split; [done|]. by intros [= ->].
Qed.

Lemma no_sync_todo l : Forall no_sync l -> first_todo l <> Some None.
Proof. induction 1 as [|[[q|]|r] l Ho Hl IH]; cbn; try done. by destruct Ho. Qed.

(** A command of the connection is answered. *)
Lemma pipe_kept_answer t i s s' a q :
  let p := sy_pipes s t i in
  first_todo (pi_items p) = Some (Some q) ->
  sy_pipes s' t i = mkPipe (pi_gen p) (answer_first a (pi_items p)) (pi_due p) (if pi_aborted p then true else negb (is_ok a)) (pi_broken p) ->
  sy_sent s' = sy_sent s -> (forall g, status_le (st s i g) (st s' i g)) ->
  (pi_aborted p = true -> is_ok a = false) -> a <> PGRES_PIPELINE_SYNC ->
  (q = begin_query -> is_ok a = true -> in_block s' t i) ->
  (pg_ordinary q -> is_ok a = true -> in_block s t i -> in_block s' t i) ->
  (forall g, q = Sql (prepare_sql g) -> is_ok a = true -> in_block s t i -> st s' i g <> Unprepared) ->
  (recovery_item s (Todo (Some q)) -> recovery_item s (Ready a)) ->
  (q = Sql (select_sql localId) -> is_ok a = true -> forall x f, st s i (G x f) <> Unprepared -> G x f ∉ rows_of a -> finished s' i (G x f)) ->
  pipe_kept t i s s'.
Proof.
  cbn zeta. intros Hf Ep Eq Hs Hab Hsync Hbeg Hord Hprep Hrec Hsel. unfold items in *.
  split; unfold items in *; rewrite ?Ep; cbn [pi_due pi_items].
  - done.
  - intros E. by rewrite E in Hf.
  - intros g (rest & H). unfold items in *. destruct H as [[E Hb]|(b & E & H)]; rewrite E in Hf; cbn in Hf.
    + simplify_eq. exists rest. right. exists a. unfold items. rewrite Ep, E. cbn. split; [done|]. intros Ha. by apply (Hprep g).
    + exists (answer_first a rest). right. exists b. unfold items. rewrite Ep, E. cbn. split; [done|]. intros Ha.
      by eapply status_le_known; [apply Hs|apply H].
  - intros [Hn H]. unfold block_opened, items in *. rewrite Ep. cbn [pi_items pi_aborted]. split; [by apply no_sync_answer|].
    eapply block_pending_exec; eauto.
  - intros (l & z & E & Hn & Hz & H). unfold items in E.
    destruct (first_todo_app l z) as [(o & E1 & E2 & E3)|(E1 & E2 & _)].
    + rewrite E, E2 in Hf. simplify_eq. exists (answer_first a l), z. unfold items. rewrite Ep. cbn [pi_items pi_aborted].
      rewrite E, E3. split; [done|]. split; [by apply no_sync_answer|]. split; [done|]. eapply block_pending_exec; eauto.
    + rewrite E, E2 in Hf. by destruct Hz as [->| ->].
  - unfold recovery_items, items. rewrite Ep. cbn [pi_items]. intros H.
    assert (forall it, recovery_item s it -> recovery_item s' it) as Hm.
    { intros [[r|]|r]; cbn; try done. unfold asked. by rewrite Eq. }
    revert Hf H. generalize (pi_items (sy_pipes s t i)). intros l. induction l as [|[o|r] l IH]; cbn; [done| |].
    + intros [= ->] H. inversion H; subst. constructor; [apply Hm; auto|]. eapply Forall_impl; [eassumption|]. done.
    + intros Hf H. inversion H; subst. constructor; [by apply Hm|]. by apply IH.
  - intros known [Hk (rest & H)]. split.
    { intros x f Hx. by eapply status_le_known; [apply Hs|apply Hk]. }
    unfold items in *. rewrite Ep. cbn [pi_items]. destruct H as [E|(b & E & H)]; rewrite E in Hf |- *; cbn in Hf |- *.
    + simplify_eq. exists rest. right. exists a. split; [done|]. auto.
    + exists (answer_first a rest). right. exists b. split; [done|]. intros Ha x f Hx Hnr.
      by eapply finished_le; [apply Hs|apply H].
Qed.

(** The end of a pipeline is reached. *)
Lemma pipe_kept_sync t i s s' :
  let p := sy_pipes s t i in
  first_todo (pi_items p) = Some None ->
  sy_pipes s' t i = mkPipe (pi_gen p) (answer_first PGRES_PIPELINE_SYNC (pi_items p)) (pi_due p) false (pi_broken p) ->
  sy_sent s' = sy_sent s -> sy_servers s' = sy_servers s -> pipe_kept t i s s'.
Proof.
  cbn zeta. intros Hf Ep Eq Es.
  assert (forall g, st s' i g = st s i g) as Est by (intros g; unfold st; by rewrite Es).
  split; unfold items in *; rewrite ?Ep; cbn [pi_due pi_items].
  - done.
  - intros E. by rewrite E in Hf.
  - intros g (rest & H). unfold items in *. destruct H as [[E Hb]|(b & E & H)]; rewrite E in Hf; cbn in Hf; [done|].
    eexists. right. exists b. unfold items. rewrite Ep, E. cbn. split; [done|]. by rewrite Est.
  - intros [Hn _]. by apply no_sync_todo in Hn.
  - intros (l & z & E & Hn & Hz & H). unfold items in E.
    destruct (first_todo_app l z) as [(o & E1 & E2 & E3)|(E1 & E2 & E3)].
    + rewrite E, E2 in Hf. simplify_eq. by apply no_sync_todo in Hn.
    + exists l, (Ready PGRES_PIPELINE_SYNC). unfold items. rewrite Ep. cbn [pi_items pi_aborted]. rewrite E, E3.
      destruct Hz as [->| ->]; [|by rewrite E, E2 in Hf]. split_and!; [done|done|by right|].
      unfold in_block. rewrite Ep, Es. cbn [pi_gen]. destruct H as [?|[(_ & q & Hq)|[(_ & pre & post & -> & _)|(_ & HB & Hall)]]].
      * by left.
      * congruence.
      * exfalso. clear -E1. induction pre; cbn in *; auto. done.
      * right. right. right. done.
  - unfold recovery_items, items. rewrite Ep. cbn [pi_items]. intros H.
    assert (forall it, recovery_item s it -> recovery_item s' it) as Hm.
    { intros [[r|]|r]; cbn; try done. unfold asked. by rewrite Eq. }
    revert Hf H. generalize (pi_items (sy_pipes s t i)). intros l. induction l as [|[o|r] l IH]; cbn; [done| |].
    + intros [= ->] H. inversion H; subst. constructor; [cbn; by intros ? ? ?%elem_of_nil|]. by eapply Forall_impl.
    + intros Hf H. inversion H; subst. constructor; [by apply Hm|]. by apply IH.
  - intros known [Hk (rest & H)]. split; [intros x f; rewrite Est; by apply Hk|].
    unfold items in *. rewrite Ep. cbn [pi_items]. destruct H as [E|(b & E & H)]; rewrite E in Hf |- *; cbn in Hf |- *; [done|].
    eexists. right. exists b. split; [done|]. unfold finished. intros Ha x f Hx Hnr. rewrite Est. by apply H.
Qed.

Lemma rows_of_error a : is_ok a = false -> rows_of a = [].
Proof. by destruct a. Qed.

Lemma pipes_with_server i v s : sy_pipes (with_server i v s) = sy_pipes s.
Proof. done. Qed.

Lemma exec_pipe_kept t i s : Inv s -> pipe_kept t i s (exec localId t i s).
Proof.
  intros HI. unfold exec. set (p := sy_pipes s t i).
  destruct (first_todo (pi_items p)) as [[q|]|] eqn:Ef; [destruct (pi_aborted p) eqn:Ea| |].
  - apply (pipe_kept_answer t i s _ PGRES_PIPELINE_ABORTED q); fold p; rewrite ?Ea, ?pipe_with_same; try done;
      [intros; apply status_le_refl|intros _ x f H%elem_of_nil; done].
  - set (r := pg_run (t, i, pi_gen p) q (sy_servers s i)).
    apply (pipe_kept_answer t i s _ r.1 q); fold p; rewrite ?Ea.
    + done.
    + exact (pipe_with_same t i _ s).
    + done.
    + intros g. by apply (st_run s _ i i (t, i, pi_gen p) q).
    + done.
    + apply pg_answers.
    + unfold in_block. intros -> Hok. cbn [sy_servers with_server]. rewrite Z.eqb_refl.
      rewrite pipes_with_server, pipe_with_same. cbn [pi_gen]. by apply pg_begin.
    + unfold in_block. intros Hq Hok Hb. cbn [sy_servers with_server]. rewrite Z.eqb_refl.
      rewrite pipes_with_server, pipe_with_same. cbn [pi_gen]. by apply pg_ordinary_block.
    + intros g -> Hok Hb. unfold st. cbn [sy_servers with_server]. rewrite Z.eqb_refl. unfold r.
      rewrite pg_prepare; done.
    + cbn. intros [->|(g & [->| ->])] x f Hin.
      * exists i. apply (inv_asked _ HI). right. destruct (is_ok r.1) eqn:Eok; [|by rewrite (rows_of_error r.1 Eok) in Hin; apply elem_of_nil in Hin].
        apply (pg_select _ _ Eok) in Hin. unfold st. congruence.
      * unfold r in Hin. destruct (pg_finish_rows (t, i, pi_gen p) g (sy_servers s i)) as [E _]. rewrite E in Hin. by apply elem_of_nil in Hin.
      * unfold r in Hin. destruct (pg_finish_rows (t, i, pi_gen p) g (sy_servers s i)) as [_ E]. rewrite E in Hin. by apply elem_of_nil in Hin.
    + intros -> Hok x f Hst Hn. assert (finished s i (G x f)) as Hfin.
      { destruct (pg_select _ _ Hok x f) as [_ Hsel]. unfold finished, st in *.
        destruct (pg_status (sy_servers s i) (G x f)); auto; [done|]. by destruct Hn; apply Hsel. }
      eapply finished_le; [|exact Hfin]. by apply (st_run s _ i i (t, i, pi_gen p) (Sql (select_sql localId))).
  - apply pipe_kept_sync; fold p; [done|by rewrite pipe_with_same|done|done].
  - apply pipe_kept_same; try done. intros. apply status_le_refl.
Qed.

Lemma Rely_net t x rec s s' :
  sy_decided s' = sy_decided s -> sy_inprogress s' = sy_inprogress s -> sy_sent s' = sy_sent s -> sy_records s' = sy_records s ->
  (forall i g, status_le (st s i g) (st s' i g)) -> (forall i, pipe_kept t i s s') -> Rely t x rec s s'.
Proof. intros E1 E2 E3 E4 Hs Hp. split; unfold asked; rewrite ?E1, ?E2, ?E3, ?E4; try done. Qed.

(** What a command on one session leaves of another. *)
Lemma in_block_other s i c q t j :
  c <> (t, j, pi_gen (sy_pipes s t j)) -> in_block s t j ->
  forall s', sy_pipes s' t j = sy_pipes s t j ->
    sy_servers s' = (fun j => if j =? i then (pg_run c q (sy_servers s i)).2 else sy_servers s j) -> in_block s' t j.
Proof.
  intros Hc Hb s' Ep Es. unfold in_block in *. rewrite Ep, Es. destruct (Z.eqb_spec j i) as [->|]; [|done].
  by rewrite pg_other_block.
Qed.

Lemma exec_cases t i s :
  let s' := exec localId t i s in
  (sy_servers s' = sy_servers s /\ forall j r, mention s' j r -> mention s j r) \/
  (exists q, q ∈ todos (items s t i) /\
    sy_servers s' = (fun j => if j =? i then (pg_run (t, i, pi_gen (sy_pipes s t i)) q (sy_servers s i)).2 else sy_servers s j) /\
    forall j r, mention s' j r -> mention s j r).
Proof.
  unfold exec. destruct (first_todo (pi_items (sy_pipes s t i))) as [[q|]|] eqn:Ef; [destruct (pi_aborted _)| |].
  - left. split; [done|]. intros j r. apply mention_with_pipe. cbn. intros r'. apply todos_answer.
  - right. exists q. split; [by apply first_todo_elem|]. split; [done|].
    intros j r H. eapply (mention_with_pipe t i); [|exact H]. cbn. intros r'. apply todos_answer.
  - left. split; [done|]. intros j r. apply mention_with_pipe. cbn. intros r'. apply todos_answer.
  - by left.
Qed.

Lemma exec_frame t i s :
  let s' := exec localId t i s in
  sy_decided s' = sy_decided s /\ sy_inprogress s' = sy_inprogress s /\ sy_sent s' = sy_sent s /\ sy_records s' = sy_records s /\
  sy_late s' = sy_late s /\ (forall t' i', pi_gen (sy_pipes s' t' i') = pi_gen (sy_pipes s t' i')) /\
  forall t' i', (t', i') <> (t, i) -> sy_pipes s' t' i' = sy_pipes s t' i'.
Proof.
  unfold exec. destruct (first_todo _) as [[q|]|]; [destruct (pi_aborted _)| |]; cbn -[with_pipe]; split_and!; try done;
    intros t' i'; try (intros; by rewrite ?pipes_with_server; apply pipe_with_other);
    (destruct (decide ((t', i') = (t, i))) as [[= -> ->]|Hne]; [by rewrite pipe_with_same|by rewrite pipe_with_other]).
Qed.

Lemma exec_safe t i s : Inv s -> Inv (exec localId t i s) /\ forall t' x rec, Rely t' x rec s (exec localId t i s).
Proof.
  intros HI. destruct (exec_frame t i s) as (E1 & E2 & E3 & E4 & E5 & E6 & Ep).
  pose proof (exec_cases t i s) as Hc. cbn zeta in Hc.
  assert (forall j g, status_le (st s j g) (st (exec localId t i s) j g)) as Hs.
  { intros j g. destruct Hc as [[Es _]|(q & _ & Es & _)]; [unfold st; rewrite Es; apply status_le_refl|by eapply st_run]. }
  split.
  - assert (late_gone (exec localId t i s)) as Hl.
    { intros c q. rewrite E5, E6. apply (inv_late _ HI). }
    destruct Hc as [[Es Hm]|(q & Hq & Es & Hm)]; [by apply (Inv_fewer s)|].
    eapply (Inv_run s _ i _ q); eauto. left. by exists t.
  - intros t' x rec. apply Rely_net; try done. intros j. destruct (decide ((t', j) = (t, i))) as [[= -> ->]|Hne].
    { by apply exec_pipe_kept. }
    apply pipe_kept_same; [by apply Ep| |by apply Hs|by rewrite E3].
    intros Hb. destruct Hc as [[Es _]|(q & _ & Es & _)].
    + unfold in_block in *. by rewrite Es, Ep.
    + eapply (in_block_other s i _ q t' j); [|done|by apply Ep|exact Es]. congruence.
Qed.

Lemma break_safe t i s : Inv s -> Inv (break t i s) /\ forall t' x rec, Rely t' x rec s (break t i s).
Proof.
  intros HI. assert (forall t' j, pi_items (sy_pipes (break t i s) t' j) = pi_items (sy_pipes s t' j) /\
    pi_gen (sy_pipes (break t i s) t' j) = pi_gen (sy_pipes s t' j) /\ pi_due (sy_pipes (break t i s) t' j) = pi_due (sy_pipes s t' j) /\
    pi_aborted (sy_pipes (break t i s) t' j) = pi_aborted (sy_pipes s t' j)) as Hp.
  { intros t' j. unfold break. destruct (decide ((t', j) = (t, i))) as [[= -> ->]|Hne];
      [by rewrite pipe_with_same|by rewrite pipe_with_other]. }
  split.
  - apply (Inv_fewer s); try done.
    + intros j r [(t' & H)|H]; [left; exists t'|by right]. by destruct (Hp t' j) as [<- _].
    + intros c q. destruct (Hp c.1.1 c.1.2) as (_ & -> & _). apply (inv_late _ HI).
  - intros t' x rec. apply Rely_net; try done; [intros; apply status_le_refl|]. intros j. destruct (Hp t' j) as (A & B & C & D).
    split; unfold preparing, block_opened, block_closed, recovery_items, selecting, items, in_block; rewrite ?A, ?B, ?C, ?D; auto.
Qed.

Lemma late_safe n s : Inv s -> Inv (exec_late localId n s) /\ forall t' x rec, Rely t' x rec s (exec_late localId n s).
Proof.
  intros HI. unfold exec_late. destruct (sy_late s !! n) as [[c q]|] eqn:En; [|split; [done|intros; apply Rely_refl]].
  assert ((c, q) ∈ sy_late s) as Hin by (by eapply list_elem_of_lookup_2).
  assert (forall cr, cr ∈ delete n (sy_late s) -> cr ∈ sy_late s) as Hdel by (intros cr; apply list_elem_of_delete_inv).
  split.
  - eapply (Inv_run s _ c.1.2 c q); try done.
    + right. eauto.
    + intros j r [H|(c' & H & E)]; [by left|]. right. exists c'. split; [|done]. by apply Hdel.
    + intros c' r H. apply (inv_late _ HI c' r). by apply Hdel.
  - intros t' x rec. apply Rely_net; try done; [intros; by eapply (st_run s _ c.1.2 i c q)|].
    intros j. apply pipe_kept_same; try done; [|intros; by eapply (st_run s _ c.1.2 j c q)].
    intros Hb. eapply (in_block_other s c.1.2 c q t' j); try done.
    pose proof (inv_late _ HI c q Hin) as Hlt. intros ->. cbn in Hlt. lia.
Qed.

(** ** What a process guarantees *)

Definition Guar (t : nat) (x : N) (rec : bool) s s' : Prop :=
  forall t' x' rec', t' <> t -> x' <> x -> (rec = true -> rec' = false) -> Rely t' x' rec' s s'.

(** A call of libpq: nothing but the connections of the process changes. *)
Record libpq_frame (t : nat) (x : N) s s' : Prop := {
  lf_servers : sy_servers s' = sy_servers s;
  lf_inprogress : sy_inprogress s' = sy_inprogress s;
  lf_records : sy_records s' = sy_records s;
  lf_decided : sy_decided s' = sy_decided s;
  lf_pipes t' i : t' <> t -> sy_pipes s' t' i = sy_pipes s t' i;
  lf_sent iq : iq ∈ sy_sent s -> iq ∈ sy_sent s';
  lf_asked y f i : y <> x \/ is_Some (sy_decided s !! x) -> (asked s' i (G y f) <-> asked s i (G y f));
}.

Lemma libpq_guar t x rec s s' : libpq_frame t x s s' -> Guar t x rec s s'.
Proof.
  intros [E1 E2 E3 E4 Ep Hs Ha] t' x' rec' Ht Hx _.
  assert (forall i g, st s' i g = st s i g) as Est by (intros; unfold st; by rewrite E1). split.
  - by rewrite E4.
  - by rewrite E2.
  - intros i f. apply Ha. by left.
  - intros i g. rewrite Est. apply status_le_refl.
  - by rewrite E4.
  - intros y f i d Hd. apply Ha. destruct (decide (y = x)) as [->|]; [right; eauto|by left].
  - done.
  - by rewrite E3.
  - intros i. apply pipe_kept_same; [by apply Ep| |intros; rewrite Est; apply status_le_refl|done].
    unfold in_block. by rewrite E1, Ep.
Qed.

Lemma frame_refl t x s : libpq_frame t x s s.
Proof. by split. Qed.

Lemma frame_trans t x s1 s2 s3 : libpq_frame t x s1 s2 -> libpq_frame t x s2 s3 -> libpq_frame t x s1 s3.
Proof.
  intros [A1 A2 A3 A4 Ap As Aa] [B1 B2 B3 B4 Bp Bs Ba]. split; try congruence.
  - intros t' i H. by rewrite Bp, Ap.
  - auto.
  - intros y f i H. rewrite Ba, Aa; [done|done|]. by rewrite A4.
Qed.

Lemma frame_pipe t x i p s : libpq_frame t x s (with_pipe t i p s).
Proof. split; try done. intros t' j H. apply pipe_with_other. congruence. Qed.

Lemma frame_abandon t x i extra p' s : libpq_frame t x s (abandon t i extra p' s).
Proof. split; try done. intros t' j H. unfold abandon. rewrite pipe_with_other by congruence. done. Qed.

(** The commands that keep the invariant when they are sent. *)
Record allowed s x i q : Prop := {
  al_prepare y f : q = Sql (prepare_sql (G y f)) -> y = x /\ sy_decided s !! x = None /\ G y f ∈ sy_inprogress s;
  al_commit y f : q = Sql (commit_sql (G y f)) -> sy_decided s !! y = Some true;
  al_rollback y f : q = Sql (rollback_sql (G y f)) -> may_rollback s y f i;
}.

Lemma Inv_send s s' x i q :
  Inv s -> allowed s x i q -> sy_servers s' = sy_servers s ->
  (forall j r, mention s' j r -> mention s j r \/ (j = i /\ r = q)) ->
  sy_inprogress s' = sy_inprogress s -> sy_records s' = sy_records s -> sy_decided s' = sy_decided s ->
  sy_sent s' = (i, q) :: sy_sent s -> late_gone s' -> Inv s'.
Proof.
  intros HI [Ap Ac Ar] E0 Hm E1 E2 E3 E4 Hl.
  assert (forall j g, st s' j g = st s j g) as Es by (intros; unfold st; by rewrite E0).
  assert (forall j g, asked s' j g <-> asked s j g \/ (j = i /\ q = Sql (prepare_sql g))) as Ea.
  { intros j g. unfold asked. rewrite E4, elem_of_cons. split; intros [H|H]; auto; [right; by simplify_eq|].
    destruct H as [-> ->]. by left. }
  split.
  - intros y f j H. rewrite E3. rewrite Es in H. destruct H as [H|H]; [|by apply (inv_commit _ HI y f j); right].
    apply Hm in H as [H|[-> H]]; [apply (inv_commit _ HI y f j); by left|]. by apply (Ac y f).
  - intros y f j. rewrite Es, E3. apply (inv_rolled _ HI).
  - intros y f j H. assert (may_rollback s y f j) as [Hd|[Hd Hc]].
    { apply Hm in H as [H|[-> H]]; [by apply (inv_rollback _ HI)|by apply Ar]. }
    + left. by rewrite E3.
    + right. rewrite E3, Ea, Es. split; [done|]. destruct Hc as [Hc|Hc]; [left|by right].
      intros [?|[-> Hq]]; [done|]. destruct (Ap y f Hq) as (-> & Hn & _). congruence.
  - intros y f j Hd Ha. rewrite E3 in Hd. rewrite Es, E2. apply Ea in Ha as [Ha|[-> Hq]]; [by apply (inv_whole _ HI)|].
    destruct (Ap y f Hq) as (-> & Hn & _). congruence.
  - intros y f j H. rewrite E2 in H. rewrite E3, Ea. destruct (inv_records _ HI y f j H). auto.
  - intros y f j H. rewrite Es in H. apply Ea. destruct H as [H|H].
    + apply Hm in H as [H|[-> H]]; [left; apply (inv_asked _ HI); by left|right; auto].
    + left. apply (inv_asked _ HI). by right.
  - intros y f j Ha Hd. rewrite E1. rewrite E3 in Hd. apply Ea in Ha as [Ha|[-> Hq]]; [by apply (inv_inprogress _ HI y f j)|].
    by destruct (Ap y f Hq) as (_ & _ & ?).
  - done.
Qed.

Lemma mention_abandon t i extra p' s j r :
  (forall n, todos (pi_items (p' n)) = []) -> mention (abandon t i extra p' s) j r ->
  mention s j r \/ (j = i /\ r ∈ extra).
Proof.
  intros Hp [(t' & H)|(c & H & E)].
  - unfold abandon in H. destruct (decide ((t', j) = (t, i))) as [[= -> ->]|Hne].
    + rewrite pipe_with_same, Hp in H. by apply elem_of_nil in H.
    + rewrite pipe_with_other in H by done. left. left. by exists t'.
  - cbn in H. apply elem_of_app in H as [H|H]; [left; right; eauto|].
    apply list_elem_of_fmap in H as (q' & [= -> ->] & H). cbn in E. subst j.
    apply elem_of_app in H as [H|H]; [left; left; by exists t|by right].
Qed.

Lemma late_abandon t i extra p' s : (forall n, pi_gen (p' n) = n) -> late_gone s -> late_gone (abandon t i extra p' s).
Proof.
  intros Hp Hl c q H. unfold abandon in *. cbn in H. apply elem_of_app in H as [H|H].
  - specialize (Hl c q H). destruct (decide (c.1 = (t, i))) as [E|Hne].
    + rewrite E. cbn [fst snd]. rewrite pipe_with_same, Hp. rewrite E in Hl. cbn in Hl. lia.
    + rewrite pipe_with_other by (by destruct c as [[] ?]; cbn in *; congruence). done.
  - apply list_elem_of_fmap in H as (q' & [= -> ->] & H). cbn [fst snd]. rewrite pipe_with_same, Hp. lia.
Qed.

Definition libpq_event (e : event) : bool :=
  match e with PQsendQuery _ _ | PQpipelineSync _ | PQgetResult _ | Connect _ => true | _ => false end.

Definition send_allowed s x (e : event) : Prop :=
  match e with PQsendQuery i q => allowed s x i q | _ => True end.

Lemma late_with_pipe t i p s : (pi_gen p = pi_gen (sy_pipes s t i)) -> late_gone s -> late_gone (with_pipe t i p s).
Proof.
  intros E Hl c q H. specialize (Hl c q H). destruct (decide (c.1 = (t, i))) as [Ec|Hne].
  - rewrite Ec in *. cbn [fst snd] in *. by rewrite pipe_with_same, E.
  - rewrite pipe_with_other by (by destruct c as [[] ?]; cbn in *; congruence). done.
Qed.

Lemma abandon_safe t x i p' s :
  (forall n, pi_gen (p' n) = n) -> (forall n, todos (pi_items (p' n)) = []) -> Inv s ->
  Inv (abandon t i [] p' s) /\ libpq_frame t x s (abandon t i [] p' s).
Proof.
  intros Hg Hp HI. split; [|apply frame_abandon]. apply (Inv_fewer s); try done.
  - intros j r H. apply mention_abandon in H as [?|[_ ?%elem_of_nil]]; done.
  - apply late_abandon; [done|apply HI].
Qed.

Lemma relink_safe t x l s : Inv s -> Inv (foldl (relink t) s l) /\ libpq_frame t x s (foldl (relink t) s l).
Proof.
  revert s. induction l as [|[i k] l IH]; intros s HI; cbn [foldl]; [split; [done|apply frame_refl]|].
  assert (Inv (relink t s (i, k)) /\ libpq_frame t x s (relink t s (i, k))) as [H1 H2].
  { unfold relink. destruct k; cbn [fst snd]; [split; [done|apply frame_refl]|by apply abandon_safe|by apply abandon_safe]. }
  destruct (IH _ H1) as [H3 H4]. split; [done|]. by eapply frame_trans.
Qed.

Lemma get_result_safe t x i s r s' : Inv s -> get_result t i s r s' -> Inv s' /\ libpq_frame t x s s'.
Proof.
  intros HI. unfold get_result. assert (forall p, pi_gen p = pi_gen (sy_pipes s t i) ->
    (forall q, q ∈ todos (pi_items p) -> q ∈ todos (items s t i)) -> Inv (with_pipe t i p s) /\ libpq_frame t x s (with_pipe t i p s)) as Hw.
  { intros p Hg Hq. split; [|apply frame_pipe]. apply (Inv_fewer s); try done; [intros j q; by apply mention_with_pipe|].
    apply late_with_pipe; [done|apply HI]. }
  destruct (pi_due _); [intros [_ ->]; by apply Hw|]. destruct (pi_items (sy_pipes s t i)) as [|it l] eqn:El.
  - intros [_ ->]. split; [done|apply frame_refl].
  - intros [(a & -> & _ & ->)|(_ & _ & ->)]; [apply Hw; [done|]; unfold items; by rewrite El|by apply abandon_safe].
Qed.

Lemma send_query_safe t x i q s s0 :
  Inv s -> allowed s x i q ->
  sy_servers s0 = sy_servers s -> sy_inprogress s0 = sy_inprogress s -> sy_records s0 = sy_records s ->
  sy_decided s0 = sy_decided s -> sy_sent s0 = sy_sent s -> (forall t' j, t' <> t -> sy_pipes s0 t' j = sy_pipes s t' j) ->
  (forall j r, mention s0 j r -> mention s j r \/ (j = i /\ r = q)) -> late_gone s0 ->
  Inv (with_sent i q s0) /\ libpq_frame t x s (with_sent i q s0).
Proof.
  intros HI Ha E0 E1 E2 E3 E4 Ep Hm Hl. split.
  - apply (Inv_send s _ x i q); try done. cbn. by rewrite E4.
  - split; cbn; try done; [rewrite E4; by right|]. intros y f j Hy. unfold asked. cbn. rewrite E4, elem_of_cons.
    split; [|by right]. intros [[= -> Hq]|?]; [|done].
    destruct (al_prepare _ _ _ _ Ha y f (eq_sym Hq)) as (-> & Hd & _). destruct Hy as [?|[d Hd']]; congruence.
Qed.

Lemma libpq_safe t x e s r s' :
  libpq_event e = true -> send_allowed s x e -> Inv s -> ev t x e s r s' -> Inv s' /\ libpq_frame t x s s'.
Proof.
  destruct e as [i q|i|i|ids| | | | | | | | | ]; try done; intros _ Ha HI; cbn [ev].
  - intros [(_ & _ & ->)|(_ & extra & Hx & ->)]; apply (send_query_safe t x i q s); try done.
    + intros t' j Ht. apply pipe_with_other. congruence.
    + intros j r0 [(t' & H)|H]; [|left; by right]. unfold push in H. destruct (decide ((t', j) = (t, i))) as [[= -> ->]|Hne].
      * rewrite pipe_with_same in H. cbn in H. unfold todos in H. rewrite omap_app in H. cbn in H.
        apply elem_of_app in H as [H|H]; [left; left; by exists t|]. apply list_elem_of_singleton in H as ->. by right.
      * rewrite pipe_with_other in H by done. left. left. by exists t'.
    + apply late_with_pipe; [done|apply HI].
    + intros t' j Ht. unfold lose, abandon. by rewrite pipe_with_other by congruence.
    + intros j r0 H. apply mention_abandon in H as [?|[-> H]]; [by left| |done].
      destruct Hx as [->| ->]; [by apply elem_of_nil in H|]. apply list_elem_of_singleton in H as ->. by right.
    + apply late_abandon; [done|apply HI].
  - intros [(_ & _ & ->)|(_ & ->)]; [|by apply abandon_safe]. split; [|apply frame_pipe].
    apply (Inv_fewer s); try done; [|apply late_with_pipe; [done|apply HI]].
    intros j r0. apply mention_with_pipe. cbn. unfold todos. intros r'. rewrite omap_app. cbn. by rewrite app_nil_r.
  - by apply get_result_safe.
  - intros (_ & _ & ->). by apply relink_safe.
Qed.

(** Changes of shared memory and of the log. *)
Lemma shared_guar t x rec s s' :
  sy_servers s' = sy_servers s -> sy_pipes s' = sy_pipes s -> sy_sent s' = sy_sent s ->
  (forall y f, y <> x -> (G y f ∈ sy_inprogress s' <-> G y f ∈ sy_inprogress s)) ->
  (forall y, y <> x -> sy_decided s' !! y = sy_decided s !! y) ->
  (forall d, sy_decided s !! x = Some d -> sy_decided s' !! x = Some d) ->
  (rec = false -> sy_records s ⊆ sy_records s') -> Guar t x rec s s'.
Proof.
  intros E0 E1 E2 Hi Hd Hx Hr t' x' rec' Ht Hne Hrec.
  assert (forall i g, st s' i g = st s i g) as Est by (intros; unfold st; by rewrite E0).
  split; unfold asked; rewrite ?E2; try done; auto.
  - intros i g. rewrite Est. apply status_le_refl.
  - intros y d H. destruct (decide (y = x)) as [->|]; [auto|]. by rewrite Hd.
  - intros ->. apply Hr. by destruct rec; [specialize (Hrec eq_refl)|].
  - intros i. apply pipe_kept_same; [by rewrite E1| |intros; rewrite Est; apply status_le_refl|by rewrite E2].
    unfold in_block. by rewrite E0, E1.
Qed.

Lemma enter_safe t x rec f s :
  Inv s -> let s' := with_inprogress (sy_inprogress s ∪ {[G x f]}) s in Inv s' /\ Guar t x rec s s'.
Proof.
  intros HI s'. split.
  - split; try apply HI. intros y f' i Ha Hd. cbn. apply elem_of_union_l. by apply (inv_inprogress _ HI y f' i).
  - apply shared_guar; try done. intros y f' Hy. cbn. rewrite elem_of_union, elem_of_singleton.
    split; [intros [?|E]; [done|]|by left]. by apply gid_of_inj in E.
Qed.

Lemma remove_safe t x rec f s :
  Inv s -> is_Some (sy_decided s !! x) -> let s' := with_inprogress (sy_inprogress s ∖ {[G x f]}) s in Inv s' /\ Guar t x rec s s'.
Proof.
  intros HI [d Hd] s'. split.
  - split; try apply HI. intros y f' i Ha Hn. cbn in *. apply elem_of_difference.
    split; [by apply (inv_inprogress _ HI y f' i)|]. intros ->%elem_of_singleton%gid_of_inj. congruence.
  - apply shared_guar; try done. intros y f' Hy. cbn. rewrite elem_of_difference, elem_of_singleton.
    split; [by intros []|]. intros ?. split; [done|]. intros E. by apply gid_of_inj in E.
Qed.

Lemma abort_safe t x rec s :
  Inv s -> sy_decided s !! x = None -> let s' := with_log (sy_records s) (<[x := false]> (sy_decided s)) s in Inv s' /\ Guar t x rec s s'.
Proof.
  intros HI Hn s'.
  assert (forall y, y <> x -> sy_decided s' !! y = sy_decided s !! y) as Hd by (intros; by apply lookup_insert_ne).
  split.
  - split; unfold may_rollback; cbn; fold s'.
    + intros y f i H. pose proof (inv_commit _ HI y f i H) as E. rewrite lookup_insert_ne; [done|]. congruence.
    + intros y f i H. pose proof (inv_rolled _ HI y f i H) as E. rewrite lookup_insert_ne; [done|]. congruence.
    + intros y f i H. destruct (decide (y = x)) as [->|]; [left; apply lookup_insert_eq|].
      rewrite !lookup_insert_ne by done. by apply (inv_rollback _ HI).
    + intros y f i H. destruct (decide (y = x)) as [->|]; [by rewrite lookup_insert_eq in H|].
      rewrite lookup_insert_ne in H by done. by apply (inv_whole _ HI).
    + intros y f i H. destruct (inv_records _ HI y f i H) as [Hy ?]. rewrite lookup_insert_ne by congruence. done.
    + apply (inv_asked _ HI).
    + intros y f i H. destruct (decide (y = x)) as [->|]; [by rewrite lookup_insert_eq|].
      rewrite lookup_insert_ne by done. by apply (inv_inprogress _ HI y f i).
    + apply (inv_late _ HI).
  - apply shared_guar; try done. intros d. congruence.
Qed.

(** A transaction can commit: all it has asked to prepare are prepared and
    have their rows, and the rows it deletes are of finished transactions. *)
Record commit_ready s x (ins del : list (Z * string)) : Prop := {
  cr_open : sy_decided s !! x = None;
  cr_inserted i g : (i, g) ∈ ins -> exists f, g = G x f /\ asked s i g;
  cr_asked i f : asked s i (G x f) -> st s i (G x f) <> Unprepared /\ (i, G x f) ∈ ins;
  cr_deleted i y f : (i, G y f) ∈ del -> st s i (G y f) = Committed;
}.

Lemma commit_safe t x rec ins del s :
  Inv s -> commit_ready s x ins del -> (rec = false -> del = []) ->
  let s' := with_log ((sy_records s ∪ list_to_set ins) ∖ list_to_set del) (<[x := true]> (sy_decided s)) s in
  Inv s' /\ Guar t x rec s s'.
Proof.
  intros HI [Hn Hins Hall Hdel] Hrec s'.
  assert (forall f i, st s i (G x f) <> Committed /\ st s i (G x f) <> RolledBack) as Hx.
  { intros f i. split; intros H; [apply or_intror with (A := mention s i (Sql (commit_sql (G x f)))) in H;
      apply (inv_commit _ HI) in H|apply (inv_rolled _ HI) in H]; congruence. }
  assert (forall y, y <> x -> sy_decided s' !! y = sy_decided s !! y) as Hd by (intros; by apply lookup_insert_ne).
  split.
  - split; unfold may_rollback; cbn; fold s'.
    + intros y f i H. pose proof (inv_commit _ HI y f i H) as E. rewrite lookup_insert_ne; [done|]. congruence.
    + intros y f i H. pose proof (inv_rolled _ HI y f i H) as E. rewrite lookup_insert_ne; [done|]. congruence.
    + intros y f i H. pose proof (inv_rollback _ HI y f i H) as E.
      rewrite !lookup_insert_ne; [done|]. intros <-. destruct E as [?|[? _]]; congruence.
    + intros y f i H Ha. change (asked s i (G y f)) in Ha. change (st s' i (G y f)) with (st s i (G y f)).
      destruct (decide (y = x)) as [->|].
      * left. destruct (Hall i f Ha) as [Hu Hi]. destruct (Hx f i) as [H1 H2].
        split; [destruct (st s i (G x f)); congruence|]. apply elem_of_difference. split; [apply elem_of_union_r; by apply elem_of_list_to_set|].
        intros H3%elem_of_list_to_set. by apply H1, Hdel.
      * rewrite lookup_insert_ne in H by done. destruct (inv_whole _ HI y f i H Ha) as [[H1 H2]|?]; [left|by right].
        split; [done|]. apply elem_of_difference. split; [by apply elem_of_union_l|]. intros H3%elem_of_list_to_set%Hdel. congruence.
    + intros y f i H. apply elem_of_difference in H as [H _]. apply elem_of_union in H as [H|H].
      * destruct (inv_records _ HI y f i H) as [Hy ?]. rewrite lookup_insert_ne by congruence. done.
      * apply elem_of_list_to_set in H. destruct (Hins _ _ H) as (f' & E & Ha). apply gid_of_inj in E as <-.
        by rewrite lookup_insert_eq.
    + apply (inv_asked _ HI).
    + intros y f i H. destruct (decide (y = x)) as [->|]; [by rewrite lookup_insert_eq|].
      rewrite lookup_insert_ne by done. by apply (inv_inprogress _ HI y f i).
    + apply (inv_late _ HI).
  - apply shared_guar; try done; [intros d; congruence|]. intros E. unfold s'. cbn. rewrite (Hrec E). set_solver.
Qed.
End Safety.
