(* ===== verification/TwoPhaseLogic.v ===== *)
(** * Reasoning about one process

    [wp]: whatever the others do between its calls, a program keeps the
    invariant of TwoPhaseSafety.v and its guarantee, and ends in a state that
    satisfies a postcondition.  The parts of the protocol that only end what was
    begun (commit and abort) are shown here from what they may send. *)

From stdpp Require Import pretty.
From S2P Require Import FalconPrelude ForeignServer MetaMessages RemoteComm Transaction TwoPhase TwoPhaseSafety.

Section Logic.
Context (localId : Z) {V : Type} {PG : PgServers localId V}.
Context (t : nat) (x : N) (rec : bool).
Abbreviation sys := (@sys V).
Abbreviation G := (gid_of localId).
Abbreviation Rely := (Rely localId t x rec).
Abbreviation Inv := (Inv localId).
Implicit Types (s : sys) (b : backend).

Fixpoint wp {A : Type} (p : prog A) (Q : A -> sys -> Prop) s : Prop :=
  match p with
  | Done a => forall s1, Rely s s1 -> Inv s1 -> Q a s1
  | Halt => True
  | Do e k => forall s1, Rely s s1 -> Inv s1 -> forall r s2, ev t x e s1 r s2 ->
      Inv s2 /\ Guar localId t x rec s1 s2 /\ wp (k r) Q s2
  end.

Lemma wp_rely {A : Type} (p : prog A) Q s s' : wp p Q s -> Rely s s' -> wp p Q s'.
Proof.
  destruct p as [a| |e k]; cbn; [|done|]; intros H HR s1 H1; apply H; by eapply Rely_trans.
Qed.

Lemma wp_mono {A : Type} (p : prog A) (Q Q' : A -> sys -> Prop) s :
  (forall a s', Inv s' -> Q a s' -> Q' a s') -> wp p Q s -> wp p Q' s.
Proof.
  intros HQ. revert s. induction p as [a| |e k IH]; cbn; intros s H; [auto|done|].
  intros s1 HR HI r s2 He. destruct (H s1 HR HI r s2 He) as (? & ? & ?). auto.
Qed.

(** A procedure of a backend. *)
Definition hwp {A : Type} (m : proc A) b (Q : FalconErrorCode + A -> backend -> sys -> Prop) s : Prop :=
  wp (m b) (fun rb s' => Q rb.1 rb.2 s') s.

Lemma hwp_bind {A B : Type} (m : proc A) (f : A -> proc B) b Q s :
  hwp m b (fun r b' s' => match r with inl e => Q (inl e) b' s' | inr a => hwp (f a) b' Q s' end) s ->
  hwp (m ≫= f) b Q s.
Proof.
  unfold hwp, mbind, proc_bind. generalize (m b). intros p. revert s. induction p as [[[e|a] b']| |e k IH]; cbn [pbind].
  - done.
  - intros s H. cbn [wp fst snd] in *. destruct (f a b') as [c| |e k] eqn:E; cbn; [| done|];
      intros s1 HR HI; specialize (H s1 HR HI); apply H; try done; apply Rely_refl.
  - done.
  - cbn. intros s H s1 HR HI r s2 He. destruct (H s1 HR HI r s2 He) as (? & ? & ?). auto.
Qed.

Lemma hwp_mono {A : Type} (m : proc A) b (Q Q' : FalconErrorCode + A -> backend -> sys -> Prop) s :
  (forall r b' s', Inv s' -> Q r b' s' -> Q' r b' s') -> hwp m b Q s -> hwp m b Q' s.
Proof. intros H. apply wp_mono. intros rb s'. apply H. Qed.

Lemma hwp_ret {A : Type} (a : A) b (Q : FalconErrorCode + A -> backend -> sys -> Prop) s :
  (forall s1, Rely s s1 -> Inv s1 -> Q (inr a) b s1) -> hwp (mret a) b Q s.
Proof. done. Qed.

Lemma hwp_throw {A : Type} e b (Q : FalconErrorCode + A -> backend -> sys -> Prop) s :
  (forall s1, Rely s s1 -> Inv s1 -> Q (inl e) b s1) -> hwp (throw e) b Q s.
Proof. done. Qed.

Lemma hwp_change f b (Q : FalconErrorCode + unit -> backend -> sys -> Prop) s :
  (forall s1, Rely s s1 -> Inv s1 -> Q (inr tt) (f b) s1) -> hwp (change f) b Q s.
Proof. done. Qed.

Lemma hwp_self_bind {A : Type} (f : backend -> proc A) b Q s : hwp (f b) b Q s -> hwp (b' ← self; f b') b Q s.
Proof. done. Qed.

Lemma hwp_change_bind {A : Type} (f : backend -> backend) (k : unit -> proc A) b Q s :
  hwp (k tt) (f b) Q s -> hwp (u ← change f; k u) b Q s.
Proof. done. Qed.

Lemma hwp_ret_bind {A B : Type} (a : A) (k : A -> proc B) b Q s : hwp (k a) b Q s -> hwp (a' ← mret a; k a') b Q s.
Proof. done. Qed.

Lemma hwp_assoc {A B C : Type} (m : proc A) (f : A -> proc B) (k : B -> proc C) b Q s :
  hwp ((m ≫= f) ≫= k) b Q s -> hwp (m ≫= fun a => f a ≫= k) b Q s.
Proof.
  unfold hwp, mbind, proc_bind. generalize (m b). intros p. revert s. induction p as [[[e|a] b']| |e p' IH]; cbn; try done.
  intros s H s1 HR HI r s2 He. destruct (H s1 HR HI r s2 He) as (? & ? & ?). auto.
Qed.

Lemma hwp_assoc_r {A B C : Type} (m : proc A) (f : A -> proc B) (k : B -> proc C) b Q s :
  hwp (m ≫= fun a => f a ≫= k) b Q s -> hwp ((m ≫= f) ≫= k) b Q s.
Proof.
  unfold hwp, mbind, proc_bind. generalize (m b). intros p. revert s. induction p as [[[e|a] b']| |e p' IH]; cbn; try done.
  intros s H s1 HR HI r s2 He. destruct (H s1 HR HI r s2 He) as (? & ? & ?). auto.
Qed.

Lemma hwp_attempt {A : Type} (m : proc A) b Q s :
  hwp m b (fun r b' s' => Q (inr r) b' s') s -> hwp (attempt_ m) b Q s.
Proof.
  unfold hwp, attempt_. generalize (m b). intros p. revert s. induction p as [rb| |e k IH]; cbn [pbind]; [done|done|].
  cbn. intros s H s1 HR HI r s2 He. destruct (H s1 HR HI r s2 He) as (? & ? & ?). auto.
Qed.

Lemma hwp_halt {A : Type} b (Q : FalconErrorCode + A -> backend -> sys -> Prop) s : hwp halt b Q s.
Proof. done. Qed.

(** A call, in the state it finds. *)
Lemma hwp_emit e b Q s :
  (forall s1, Rely s s1 -> Inv s1 -> forall r s2, ev t x e s1 r s2 ->
     Inv s2 /\ Guar localId t x rec s1 s2 /\ (forall s3, Rely s2 s3 -> Inv s3 -> Q (inr r) b s3)) ->
  hwp (emit e) b Q s.
Proof. done. Qed.

(** A call of libpq. *)
Lemma hwp_libpq e b Q s :
  libpq_event e = true ->
  (forall s1, Rely s s1 -> Inv s1 -> send_allowed localId s1 x e /\
     forall r s2, ev t x e s1 r s2 -> libpq_frame localId t x s1 s2 -> Inv s2 ->
       forall s3, Rely s2 s3 -> Inv s3 -> Q (inr r) b s3) ->
  hwp (emit e) b Q s.
Proof.
  intros He H. apply hwp_emit. intros s1 HR HI r s2 Hev. destruct (H s1 HR HI) as [Ha Hq].
  destruct (libpq_safe localId t x e s1 r s2 He Ha HI Hev) as [HI2 HF].
  split; [done|]. split; [by apply libpq_guar|]. by apply (Hq r s2).
Qed.

(** ** Programs that only call libpq *)

Fixpoint gentle {A : Type} (ok : Z -> query -> Prop) (p : prog A) (Q : A -> Prop) : Prop :=
  match p with
  | Done a => Q a
  | Halt => True
  | Do e k => libpq_event e = true /\ match e with PQsendQuery i q => ok i q | _ => True end /\ forall r, gentle ok (k r) Q
  end.

Definition gently {A : Type} (ok : Z -> query -> Prop) (m : proc A) b (Q : FalconErrorCode + A -> backend -> Prop) : Prop :=
  gentle ok (m b) (fun rb => Q rb.1 rb.2).

Lemma gently_bind {A B : Type} ok (m : proc A) (f : A -> proc B) b Q :
  gently ok m b (fun r b' => match r with inl e => Q (inl e) b' | inr a => gently ok (f a) b' Q end) ->
  gently ok (m ≫= f) b Q.
Proof.
  unfold gently, mbind, proc_bind. generalize (m b). intros p. induction p as [[[e|a] b']| |e k IH]; cbn [pbind gentle]; try done.
  intros (? & ? & ?). auto.
Qed.

Lemma gently_mono {A : Type} ok (m : proc A) b (Q Q' : FalconErrorCode + A -> backend -> Prop) :
  gently ok m b Q -> (forall r b', Q r b' -> Q' r b') -> gently ok m b Q'.
Proof.
  unfold gently. generalize (m b). intros p H HQ. induction p as [rb| |e k IH]; cbn in *; [auto|done|].
  destruct H as (? & ? & ?). auto.
Qed.

(** What stays true while the process talks to the other servers. *)
Definition settled (P : sys -> Prop) : Prop :=
  (forall s s', Rely s s' -> P s -> P s') /\ (forall s s', libpq_frame localId t x s s' -> P s -> P s').

Lemma gently_hwp {A : Type} (P : sys -> Prop) ok (m : proc A) b (Q : FalconErrorCode + A -> backend -> Prop) s :
  settled P -> (forall s' i q, P s' -> ok i q -> allowed localId s' x i q) -> P s -> gently ok m b Q ->
  hwp m b (fun r b' s' => Q r b' /\ P s') s.
Proof.
  intros [HR HF] Hok. unfold gently, hwp. generalize (m b). intros p. revert s.
  induction p as [rb| |e k IH]; cbn; intros s HP H; [eauto|done|].
  destruct H as (He & Hs & Hk). intros s1 H1 HI r s2 Hev.
  assert (send_allowed localId s1 x e) as Ha.
  { destruct e; cbn; try done. apply Hok; [by eapply HR|done]. }
  destruct (libpq_safe localId t x e s1 r s2 He Ha HI Hev) as [HI2 HF2].
  split; [done|]. split; [by apply libpq_guar|]. apply IH; [|done]. eapply HF; [exact HF2|]. by eapply HR.
Qed.

Lemma decided_settled d : settled (fun s => sy_decided s !! x = d).
Proof.
  split; intros s s' H <-; [apply (rely_own _ _ _ _ _ _ H)|]. by rewrite (lf_decided _ _ _ _ _ H).
Qed.

(** ** Commit and abort *)

(** What getting connections and ending transactions do to a backend. *)
Record calmed b b' : Prop := {
  ca_gid : be_gid b' = be_gid b;
  ca_written : be_inserted b' = be_inserted b /\ be_deleted b' = be_deleted b;
  ca_flags : be_inAbort b' = be_inAbort b /\ be_xid b' = be_xid b /\ be_localWrite b' = be_localWrite b;
  ca_cache : be_cache b' = be_cache b;
  ca_states i : state_of b' i = state_of b i \/ state_of b' i = FALCON_REMOTE_TRANSACTION_NONE;
}.

Lemma calmed_refl b : calmed b b.
Proof. split; auto. Qed.

Lemma calmed_trans b1 b2 b3 : calmed b1 b2 -> calmed b2 b3 -> calmed b1 b3.
Proof.
  intros [A1 [A2 A3] (A4 & A5 & A6) A7 A8] [B1 [B2 B3] (B4 & B5 & B6) B7 B8]. split; try congruence.
  - split; congruence.
  - split_and!; congruence.
  - intros i. destruct (B8 i) as [->| ->]; auto.
Qed.

Lemma state_linked m l i :
  default FALCON_REMOTE_TRANSACTION_NONE (snd <$> foldl linked m l !! i) = default FALCON_REMOTE_TRANSACTION_NONE (snd <$> m !! i) \/
  default FALCON_REMOTE_TRANSACTION_NONE (snd <$> foldl linked m l !! i) = FALCON_REMOTE_TRANSACTION_NONE.
Proof.
  revert m. induction l as [|[j k] l IH]; intros m; cbn [foldl]; [by left|].
  destruct (IH (linked m (j, k))) as [->| ->]; [|by right]. unfold linked. cbn [fst snd].
  destruct k; [by left|destruct (decide (i = j)) as [->|]..]; rewrite ?lookup_insert_eq, ?lookup_insert_ne by done; auto.
Qed.

Lemma calmed_linked b l : calmed b (set_manager (foldl linked (be_manager b) l) b).
Proof. split; cbn; auto. intros i. apply state_linked. Qed.

Lemma calmed_none b i : calmed b (set_manager (<[i := (conn_of b i, FALCON_REMOTE_TRANSACTION_NONE)]> (be_manager b)) b).
Proof.
  split; cbn; auto. intros j. unfold state_of at 1 3. cbn.
  destruct (decide (i = j)) as [->|]; [rewrite lookup_insert_eq; by right|rewrite lookup_insert_ne by done; by left].
Qed.

Lemma gently_emit ok e b (Q : FalconErrorCode + answer e -> backend -> Prop) :
  libpq_event e = true -> match e with PQsendQuery i q => ok i q | _ => True end -> (forall r, Q (inr r) b) -> gently ok (emit e) b Q.
Proof. done. Qed.

Lemma gently_throw_unless ok c e b (Q : FalconErrorCode + unit -> backend -> Prop) :
  Q (inl e) b -> Q (inr tt) b -> gently ok (throw_unless c e) b Q.
Proof. by destruct c. Qed.

Lemma gently_connections ok ids b : gently ok (get_connections ids) b (fun _ b' => calmed b b').
Proof.
  unfold get_connections. apply gently_bind, gently_emit; [done|done|]. intros [l raised]. cbn [fst snd].
  pose proof (calmed_linked b l) as Hc. apply gently_bind. cbn [gently gentle change fst snd].
  apply gently_bind, gently_throw_unless; [done|]. apply gently_bind. cbn [gently gentle self fst snd].
  by apply gently_throw_unless.
Qed.

Lemma gently_clear ok n i u b : gently ok (clear_loop n i u) b (fun _ b' => b' = b).
Proof.
  revert u. induction n as [|n IH]; intros u; cbn [clear_loop]; [done|].
  apply gently_bind, gently_emit; [done|done|]. intros [r|]; [apply IH|].
  apply gently_bind, gently_emit; [done|done|]. by intros [r|]; [apply IH|].
Qed.

Lemma gently_check ok i b : gently ok (CheckPQpipelineSyncFinished i) b (fun _ b' => b' = b).
Proof.
  apply gently_bind, gently_emit; [done|done|]. intros [[]|]; try done.
  apply gently_bind, gently_emit; [done|done|]. intros r. unfold throw_unless. by destruct (bool_decide _).
Qed.

Context (fuel : nat) (cache_seq : gmap Z RemoteConnectionCommandData -> list Z) (unset : string).

(** The prepared transactions of the backend go by the name [g]. *)
Definition named g b : Prop :=
  forall i, state_of b i = FALCON_REMOTE_TRANSACTION_PREPARE -> be_gid b = g /\ g <> EmptyString.

Lemma named_calmed g b b' : named g b -> calmed b b' -> named g b'.
Proof. intros H [E _ _ _ Hs] i Hi. rewrite E. apply (H i). destruct (Hs i) as [<-|?]; congruence. Qed.

(** What is sent to end a transaction named [g]. *)
Definition ends (text : string) (sql : string -> string) g (i : Z) (q : query) : Prop := q = Sql text \/ q = Sql (sql g).

Lemma gently_commit_send g ids b :
  named g b -> gently (ends "COMMIT;" commit_sql g) (commit_send fuel unset ids) b (fun _ b' => b' = b).
Proof.
  intros Hg. induction ids as [|i ids IH]; cbn [commit_send]; [done|].
  apply gently_bind. eapply gently_mono; [apply gently_clear|]. intros [?|[]] ? ->; [done|done|].
  apply gently_bind. cbn. destruct (commit_query unset b i) as [q|] eqn:Eq; [|apply IH].
  assert (ends "COMMIT;" commit_sql g i q) as Hq.
  { unfold commit_query in Eq. destruct (state_of b i) eqn:Es; simplify_eq; [by left|by left|].
    destruct (Hg i Es) as [-> Hne]. rewrite bool_decide_eq_false_2 by done. by right. }
  split; [done|]. split; [done|]. intros [|]; [|done]. cbn. split; [done|]. split; [done|]. intros [|]; [apply IH|done].
Qed.

Lemma gently_commit_receive ok ids b : gently ok (commit_receive ids) b (fun _ b' => calmed b b').
Proof.
  revert b. induction ids as [|i ids IH]; intros b; cbn [commit_receive]; [apply calmed_refl|].
  apply gently_bind, gently_emit; [done|done|]. intros [res|]; [|apply IH].
  destruct (is_ok res); [|apply calmed_refl]. apply gently_bind, gently_emit; [done|done|]. intros [r2|]; [apply calmed_refl|].
  apply gently_bind. eapply gently_mono; [apply gently_check|]. intros [e|[]] b' ->; [apply calmed_refl|].
  apply gently_bind. cbn. eapply gently_mono; [apply IH|]. intros r b2 H. eapply calmed_trans; [apply calmed_none|exact H].
Qed.

Lemma gently_commit g b :
  named g b -> gently (ends "COMMIT;" commit_sql g) (FalconRemoteCommandCommit fuel cache_seq unset) b (fun _ b' => calmed b b').
Proof.
  intros Hg. unfold FalconRemoteCommandCommit. apply gently_bind. cbn. destruct (be_cache b) as [c|]; [|apply calmed_refl].
  apply gently_bind. eapply gently_mono; [apply gently_connections|]. intros [e|[]] b1 H1; [done|].
  apply gently_bind. eapply gently_mono; [apply gently_commit_send; by eapply named_calmed|]. intros [e|[]] b2 ->; [done| |done].
  eapply gently_mono; [apply gently_commit_receive|]. intros r b3 H3. by eapply calmed_trans.
Qed.

Lemma gently_abort_send g ids b :
  named g b -> gently (ends "ROLLBACK;" rollback_sql g) (abort_send fuel unset ids) b (fun _ b' => b' = b).
Proof.
  intros Hg. induction ids as [|i ids IH]; cbn [abort_send]; [done|].
  apply gently_bind. cbn. apply gently_bind.
  assert (gently (ends "ROLLBACK;" rollback_sql g)
    (if negb (conn_of b i) then mret false
     else _ ← ClearPGresultInPGconn fuel i;
       match rollback_query unset b i with
       | None => mret true
       | Some q => ok ← emit (PQsendQuery i q); if ok : bool then emit (PQpipelineSync i) else mret false
       end) b (fun r b' => b' = b)) as Hone.
  { destruct (negb _); [done|]. apply gently_bind. eapply gently_mono; [apply gently_clear|]. intros [?|u] ? ->; [done|].
    destruct (rollback_query unset b i) as [q|] eqn:Eq; [|done].
    assert (ends "ROLLBACK;" rollback_sql g i q) as Hq.
    { unfold rollback_query in Eq. destruct (state_of b i) eqn:Es; simplify_eq; [by left|by left|].
      destruct (Hg i Es) as [-> Hne]. rewrite bool_decide_eq_false_2 by done. by right. }
    split; [done|]. split; [done|]. by intros [|]; cbn. }
  eapply gently_mono; [exact Hone|]. intros [e|ok] b' ->; [done|].
  apply gently_bind. eapply gently_mono; [apply IH|]. by intros [e|r] b' ->.
Qed.

Lemma gently_rolled_back ok i b : gently ok (rolled_back i) b (fun _ b' => b' = b).
Proof.
  apply gently_bind, gently_emit; [done|done|]. intros [[]|]; try done.
  apply gently_bind, gently_emit; [done|done|]. intros [r2|]; [done|].
  apply gently_bind, gently_emit; [done|done|]. by intros [[]|].
Qed.

Lemma gently_abort_receive ok ids b : gently ok (abort_receive ids) b (fun _ b' => calmed b b').
Proof.
  revert b. induction ids as [|i ids IH]; intros b; cbn [abort_receive]; [apply calmed_refl|].
  apply gently_bind. cbn. apply gently_bind. destruct (negb _).
  - cbn. apply gently_bind. eapply gently_mono; [apply IH|]. by intros [e|r] b' H.
  - apply gently_bind. eapply gently_mono; [apply gently_rolled_back|]. intros [e|r] b' ->; [apply calmed_refl|].
    apply gently_bind. cbn. apply gently_bind. eapply gently_mono; [apply IH|].
    intros [e|r'] b' H; (eapply calmed_trans; [apply calmed_none|exact H]).
Qed.

Lemma gently_abort g b :
  named g b -> gently (ends "ROLLBACK;" rollback_sql g) (FalconRemoteCommandAbort fuel cache_seq unset) b (fun _ b' => calmed b b').
Proof.
  intros Hg. unfold FalconRemoteCommandAbort. apply gently_bind. cbn. destruct (be_cache b) as [c|]; [|apply calmed_refl].
  apply gently_bind. eapply gently_mono; [apply gently_connections|]. intros [e|[]] b1 H1; [done|].
  apply gently_bind. eapply gently_mono; [apply gently_abort_send; by eapply named_calmed|]. intros [e|s1] b2 ->; [done|].
  apply gently_bind. eapply gently_mono; [apply gently_abort_receive|]. intros [e|s2] b3 H3; by eapply calmed_trans.
Qed.

(** ** The end of a transaction *)

Definition own_name b : Prop := be_gid b = EmptyString \/ exists f, be_gid b = G x f.

Lemma gid_nonempty y f : G y f <> EmptyString.
Proof. unfold gid_of, FALCON_TRANSACTION_2PC_HEAD. discriminate. Qed.

Lemma own_name_inj b y f : own_name b -> be_gid b = G y f -> y = x.
Proof. intros [E|[f' E]] E'; rewrite E in E'; [done|]. by apply gid_of_inj in E' as ->. Qed.

Lemma allowed_commit s b i q :
  own_name b -> sy_decided s !! x = Some true -> ends "COMMIT;" commit_sql (be_gid b) i q -> allowed localId s x i q.
Proof.
  intros Hn Hd [->| ->]; split; intros y f E; try done.
  assert (commit_sql (be_gid b) = commit_sql (G y f)) as E2 by congruence. apply sql_inj in E2. by apply own_name_inj in E2 as ->.
Qed.

Lemma allowed_rollback s b i q :
  own_name b -> sy_decided s !! x = Some false -> ends "ROLLBACK;" rollback_sql (be_gid b) i q -> allowed localId s x i q.
Proof.
  intros Hn Hd [->| ->]; split; intros y f E; try done.
  assert (rollback_sql (be_gid b) = rollback_sql (G y f)) as E2 by congruence. apply sql_inj in E2.
  apply own_name_inj in E2 as ->; [|done]. by left.
Qed.

Lemma Guar_refl s : Guar localId t x rec s s.
Proof. intros ? ? ? _ _ _. apply Rely_refl. Qed.

(** A call that changes nothing. *)
Lemma hwp_noop e b Q s :
  (forall s1 r s2, ev t x e s1 r s2 -> s2 = s1) ->
  (forall r s1, Rely s s1 -> Inv s1 -> Q (inr r) b s1) -> hwp (emit e) b Q s.
Proof.
  intros He HQ. apply hwp_emit. intros s1 HR HI r s2 Hev. apply He in Hev as ->.
  split; [done|]. split; [apply Guar_refl|]. intros s3 H3 HI3. apply HQ; [by eapply Rely_trans|done].
Qed.

Definition is_decided d s : Prop := sy_decided s !! x = Some d.

Lemma is_decided_rely d s s' : Rely s s' -> is_decided d s -> is_decided d s'.
Proof. intros H. destruct (decided_settled (Some d)) as [HR _]. exact (HR s s' H). Qed.

Lemma hwp_clear_gid d b s :
  own_name b -> is_decided d s -> hwp ClearRemoteTransactionGid b (fun r b' s' => r = inr tt /\ be_gid b' = EmptyString /\ is_decided d s') s.
Proof.
  intros Hn Hd. unfold ClearRemoteTransactionGid. apply hwp_self_bind, hwp_bind. destruct Hn as [E|[f E]].
  - rewrite bool_decide_eq_true_2 by done. apply hwp_ret. intros s1 H1 _. apply hwp_change. intros s2 H2 _.
    split; [done|]. split; [done|]. eapply is_decided_rely; [exact H2|]. by eapply is_decided_rely.
  - rewrite bool_decide_eq_false_2 by (rewrite E; apply gid_nonempty). rewrite E. apply hwp_emit. intros s1 H1 HI r s2 Hev; cbn in Hev; subst s2.
    pose proof (is_decided_rely d _ _ H1 Hd) as Hd1.
    destruct (remove_safe localId t x rec f s1 HI) as [HI2 HG]; [by exists d|]. split; [done|]. split; [done|].
    intros s3 H3 _. apply hwp_change. intros s4 H4 _. split; [done|]. split; [done|].
    eapply is_decided_rely; [exact H4|]. by eapply is_decided_rely.
Qed.

Lemma own_name_calmed b b' : own_name b -> calmed b b' -> own_name b'.
Proof. intros H [E _ _ _ _]. unfold own_name. by rewrite E. Qed.

Lemma hwp_explicit_rollback d b s :
  is_decided d s -> hwp FalconExplicitTransactionRollback b (fun _ _ s' => is_decided d s') s.
Proof.
  intros Hd. unfold FalconExplicitTransactionRollback, expect_state. apply hwp_bind, hwp_self_bind. unfold throw_unless.
  destruct (bool_decide _); [|by apply hwp_throw; intros s1 H1 _; eapply is_decided_rely].
  apply hwp_ret. intros s1 H1 _. apply hwp_bind, hwp_noop; [by intros ? ? ? Hev|]. intros r s2 H2 _.
  apply hwp_bind, hwp_noop; [by intros ? ? ? Hev|]. intros r' s3 H3 _. apply hwp_change. intros s4 H4 _.
  eapply is_decided_rely; [exact H4|]. eapply is_decided_rely; [exact H3|]. eapply is_decided_rely; [exact H2|].
  by eapply is_decided_rely.
Qed.

Lemma hwp_callback_abort b s :
  own_name b -> named (be_gid b) b -> is_decided false s ->
  hwp (FalconTransactionCallback fuel cache_seq localId unset XACT_EVENT_ABORT) b (fun _ _ s' => is_decided false s') s.
Proof.
  intros Hn Hg Hd. cbn [FalconTransactionCallback]. apply hwp_change_bind, hwp_bind, hwp_noop; [by intros ? ? ? Hev|].
  intros _ s0 H0 _. apply hwp_bind, hwp_noop; [by intros ? ? ? Hev|]. intros _ s1 H01 _. pose proof (Rely_trans _ _ _ _ _ _ _ H0 H01) as H1.
  apply hwp_bind.
  eapply hwp_mono; [|eapply (gently_hwp (is_decided false)); [apply decided_settled| |by eapply is_decided_rely|apply (gently_abort (be_gid b)); exact Hg]].
  2:{ intros s' i q Hs' Hq. by eapply (allowed_rollback s' b). }
  intros [e|ok] b2 s2 _ [Hc Hd2]; [done|].
  apply hwp_bind. eapply hwp_mono; [|apply (hwp_clear_gid false); [by eapply (own_name_calmed (set_inAbort true b))|exact Hd2]].
  intros r b3 s3 _ (-> & _ & Hd3). apply hwp_bind, hwp_change. intros s4 H4 _. apply hwp_self_bind, hwp_bind.
  pose proof (is_decided_rely _ _ _ H4 Hd3) as Hd4. destruct (bool_decide _).
  - eapply hwp_mono; [|by apply hwp_explicit_rollback]. intros [e|[]] b5 s5 _ Hd5; [done|].
    apply hwp_change. intros s6 H6 _. by eapply is_decided_rely.
  - apply hwp_ret. intros s5 H5 _. apply hwp_change. intros s6 H6 _. eapply is_decided_rely; [exact H6|]. by eapply is_decided_rely.
Qed.

Lemma hwp_callback_commit b s :
  own_name b -> named (be_gid b) b -> is_decided true s ->
  hwp (FalconTransactionCallback fuel cache_seq localId unset XACT_EVENT_COMMIT) b (fun _ _ s' => is_decided true s') s.
Proof.
  intros Hn Hg Hd. cbn [FalconTransactionCallback]. apply hwp_bind.
  eapply hwp_mono; [|eapply (gently_hwp (is_decided true)); [apply decided_settled| |exact Hd|apply (gently_commit (be_gid b)); exact Hg]].
  2:{ intros s' i q Hs' Hq. by eapply (allowed_commit s' b). }
  intros [e|[]] b2 s2 _ [Hc Hd2]; [done|]. apply hwp_bind, hwp_noop; [by intros ? ? ? Hev|].
  intros _ s0 H0 _. apply hwp_bind, hwp_noop; [by intros ? ? ? Hev|]. intros _ s3 H03 _. pose proof (Rely_trans _ _ _ _ _ _ _ H0 H03) as H3.
  apply hwp_bind. eapply hwp_mono; [|apply (hwp_clear_gid true); [by eapply own_name_calmed|by eapply is_decided_rely]].
  intros r b3 s4 _ (-> & _ & Hd4). apply hwp_change. intros s5 H5 _. by eapply is_decided_rely.
Qed.

(** The transaction has been decided. *)
Definition over s : Prop := is_Some (sy_decided s !! x).

Lemma hwp_abort b s :
  own_name b -> named (be_gid b) b -> sy_decided s !! x = None ->
  hwp (AbortTransaction fuel cache_seq localId unset) b (fun _ _ s' => over s') s.
Proof.
  intros Hn Hg Hd. unfold AbortTransaction. apply hwp_bind, hwp_emit. intros s1 H1 HI r s2 Hev; cbn in Hev; subst s2.
  assert (sy_decided s1 !! x = None) as Hd1 by (by rewrite (rely_own _ _ _ _ _ _ H1)).
  destruct (abort_safe localId t x rec s1 HI Hd1) as [HI2 HG]. split; [done|]. split; [done|]. intros s3 H3 _.
  apply hwp_change_bind, hwp_bind, hwp_attempt. eapply hwp_mono; [|apply (hwp_callback_abort (set_written [] [] b) s3); [done|done|]].
  - intros [e|[]] b' s' _ Hd'; [done|]. apply hwp_ret. intros s4 H4 _. exists false. by eapply is_decided_rely.
  - eapply is_decided_rely; [exact H3|]. apply lookup_insert_eq.
Qed.

(** From the moment the commit is recorded. *)
Lemma hwp_commit_recorded b s :
  own_name b -> named (be_gid b) b ->
  (forall s1, Rely s s1 -> Inv s1 -> commit_ready localId s1 x (be_inserted b) (be_deleted b)) -> (rec = false -> be_deleted b = []) ->
  hwp (_ ← emit (RecordTransactionCommit (be_inserted b) (be_deleted b));
       _ ← change (set_written [] []);
       r2 ← attempt_ (FalconTransactionCallback fuel cache_seq localId unset XACT_EVENT_COMMIT);
       match r2 with inl _ => halt | inr _ => mret true end) b (fun _ _ s' => over s') s.
Proof.
  intros Hn Hg Hr Hdel. apply hwp_bind, hwp_emit. intros s1 H1 HI r s2 Hev; cbn in Hev; subst s2.
  destruct (commit_safe localId t x rec (be_inserted b) (be_deleted b) s1 HI (Hr s1 H1 HI) Hdel) as [HI2 HG].
  split; [done|]. split; [done|]. intros s3 H3 _. apply hwp_change_bind, hwp_bind, hwp_attempt.
  eapply hwp_mono; [|apply (hwp_callback_commit (set_written [] [] b) s3); [done|done|]].
  - intros [e|[]] b' s' _ Hd'; [done|]. apply hwp_ret. intros s4 H4 _. exists true. by eapply is_decided_rely.
  - eapply is_decided_rely; [exact H3|]. apply lookup_insert_eq.
Qed.

(** An abort that ends a transaction. *)
Lemma hwp_abort_then {A : Type} (a : A) b s :
  own_name b -> named (be_gid b) b -> sy_decided s !! x = None ->
  hwp (_ ← AbortTransaction fuel cache_seq localId unset; mret a) b (fun _ _ s' => over s') s.
Proof.
  intros Hn Hg Hd. apply hwp_bind. eapply hwp_mono; [|by apply hwp_abort]. intros [e|[]] b' s' _ Ho; [done|].
  apply hwp_ret. intros s1 H1 _. destruct Ho as [d Ho]. exists d. by eapply is_decided_rely.
Qed.
End Logic.
