(* ===== verification/TwoPhasePrepare.v ===== *)
(** * The first phase

    FalconRemoteCommandPrepare of RemoteComm.v: when it returns, every server
    that was asked to prepare has prepared, and its row is written; when it
    raises, nothing has been decided. *)

From stdpp Require Import pretty.
From S2P Require Import FalconPrelude ForeignServer MetaMessages RemoteComm Transaction TwoPhase TwoPhaseSafety TwoPhaseLogic.

Section Prepare.
Context (localId : Z) {V : Type} {PG : PgServers localId V}.
Context (t : nat) (x : N) (rec : bool).
Context (fuel : nat) (cache_seq : gmap Z RemoteConnectionCommandData -> list Z).
Context (cache_seq_NoDup : forall c, NoDup (cache_seq c)).
Abbreviation sys := (@sys V).
Abbreviation G := (gid_of localId).
Abbreviation Rely := (Rely localId t x rec).
Abbreviation Inv := (Inv localId).
Abbreviation hwp := (hwp localId t x rec).
Abbreviation asked := (asked (V := V)).
Abbreviation preparing := (preparing localId).
Abbreviation in_block := (in_block localId).
Abbreviation st := (st localId).
Implicit Types (s : sys) (b : backend) (g : string).

(** ** Changes of one connection *)

(** Everything that the process knows but what concerns its connection [i]. *)
Record Near (i : Z) s s' : Prop := {
  near_own : sy_decided s' !! x = sy_decided s !! x;
  near_inprogress f : G x f ∈ sy_inprogress s' <-> G x f ∈ sy_inprogress s;
  near_asked j f : asked s' j (G x f) <-> asked s j (G x f);
  near_status j g : status_le (st s j g) (st s' j g);
  near_decided y d : sy_decided s !! y = Some d -> sy_decided s' !! y = Some d;
  near_settled y f j d : sy_decided s !! y = Some d -> (asked s' j (G y f) <-> asked s j (G y f));
  near_sent iq : iq ∈ sy_sent s -> iq ∈ sy_sent s';
  near_records : rec = true -> sy_records s ⊆ sy_records s';
  near_pipe j : j <> i -> pipe_kept localId t j s s';
}.

Lemma Rely_near i s s' : Rely s s' -> Near i s s'.
Proof.
  intros [? ? ? ? ? Hset ? ? ?]. by split.
Qed.

Lemma frame_near i s s' :
  libpq_frame localId t x s s' -> (forall j, j <> i -> sy_pipes s' t j = sy_pipes s t j) ->
  (forall j f, asked s' j (G x f) <-> asked s j (G x f)) -> Near i s s'.
Proof.
  intros [E1 E2 E3 E4 Ep Hs Ha] Hp Hx.
  assert (forall j g, st s' j g = st s j g) as Est by (intros; unfold TwoPhaseSafety.st; by rewrite E1).
  split; try done.
  - by rewrite E4.
  - by rewrite E2.
  - intros j g. rewrite Est. apply status_le_refl.
  - by rewrite E4.
  - intros y f j d Hd. destruct (decide (y = x)) as [->|]; [apply Hx|apply Ha; by left].
  - by rewrite E3.
  - intros j Hj. apply pipe_kept_same; [by apply Hp| |intros; rewrite Est; apply status_le_refl|done].
    unfold TwoPhaseSafety.in_block. by rewrite E1, Hp.
Qed.

Lemma get_result_pipes i s r s' j : get_result t i s r s' -> j <> i -> sy_pipes s' t j = sy_pipes s t j.
Proof.
  unfold get_result. intros H Hj. destruct (pi_due _); [destruct H as [_ ->]; apply pipe_with_other; congruence|].
  destruct (pi_items _); [by destruct H as [_ ->]|].
  destruct H as [(a & _ & _ & ->)|(_ & _ & ->)]; unfold abandon; rewrite ?pipe_with_other by congruence; done.
Qed.

Lemma get_result_sent i s r s' : get_result t i s r s' -> sy_sent s' = sy_sent s.
Proof.
  unfold get_result. destruct (pi_due _); [by intros [_ ->]|]. destruct (pi_items _); [by intros [_ ->]|].
  by intros [(a & _ & _ & ->)|(_ & _ & ->)].
Qed.

Lemma hwp_get i b Q s :
  (forall s1, Rely s s1 -> Inv s1 -> forall r s2, get_result t i s1 r s2 -> Near i s1 s2 -> sy_servers s2 = sy_servers s1 -> Inv s2 ->
     forall s3, Rely s2 s3 -> Inv s3 -> Q (inr r) b s3) ->
  hwp (emit (PQgetResult i)) b Q s.
Proof.
  intros H. apply hwp_libpq; [done|]. intros s1 H1 HI. split; [done|]. intros r s2 Hev HF HI2 s3 H3 HI3. cbn in Hev.
  eapply (H s1 H1 HI r s2); try done; [|apply HF]. apply frame_near; [done|by intros; eapply get_result_pipes|].
  intros j f. unfold TwoPhaseSafety.asked. by rewrite (get_result_sent _ _ _ _ Hev).
Qed.

(** Facts that do not concern the connection [i]. *)
Definition elsewhere (i : Z) (P : sys -> Prop) : Prop := forall s s', Near i s s' -> P s -> P s'.

Lemma elsewhere_rely i P s s' : elsewhere i P -> Rely s s' -> P s -> P s'.
Proof. intros H HR. apply H. by apply Rely_near. Qed.

(** A connection with nothing to fetch, in an open block. *)
Definition block_idle s i : Prop := items s t i = [] /\ in_block s t i.

Lemma block_idle_rely s s' i : Rely s s' -> block_idle s i -> block_idle s' i.
Proof.
  intros HR [H1 H2]. destruct (kept_idle _ _ _ _ _ (rely_pipe _ _ _ _ _ _ HR i) H1) as [H3 H4]. split; auto.
Qed.

Lemma due_rely s s' i : Rely s s' -> pi_due (sy_pipes s' t i) = pi_due (sy_pipes s t i).
Proof. intros HR. apply (kept_due _ _ _ _ _ (rely_pipe _ _ _ _ _ _ HR i)). Qed.

Lemma items_rely s s' i : Rely s s' -> items s t i = [] -> items s' t i = [].
Proof. intros HR H. by destruct (kept_idle _ _ _ _ _ (rely_pipe _ _ _ _ _ _ HR i) H). Qed.

Lemma get_result_idle s i r s' :
  get_result t i s r s' -> sy_servers s' = sy_servers s -> block_idle s i -> r = None /\ block_idle s' i.
Proof.
  unfold get_result, block_idle, items, TwoPhaseSafety.in_block. intros H Es [H1 H2]. rewrite H1 in H. rewrite Es.
  destruct (pi_due _); destruct H as [-> ->]; rewrite ?pipe_with_same; cbn; rewrite ?H1; auto.
Qed.

Lemma get_result_none s i s' :
  get_result t i s None s' -> pi_due (sy_pipes s' t i) = false /\ items s' t i = items s t i /\
    (pi_due (sy_pipes s t i) = false -> items s t i = []).
Proof.
  unfold get_result, items. destruct (pi_due (sy_pipes s t i)) eqn:Ed.
  - intros [_ ->]. rewrite pipe_with_same. done.
  - destruct (pi_items (sy_pipes s t i)) eqn:Ei; [intros [_ ->]; by rewrite Ed, Ei|].
    by intros [(a & _ & [=] & _)|(_ & [=] & _)].
Qed.

(** ClearPGresultInPGconn leaves nothing to fetch. *)
Lemma hwp_clear n i u b (P : sys -> Prop) (W : Prop) (Q : FalconErrorCode + bool -> backend -> sys -> Prop) s :
  elsewhere i P -> P s -> (W -> block_idle s i) ->
  (forall u' s', Inv s' -> P s' -> items s' t i = [] -> pi_due (sy_pipes s' t i) = false -> (W -> block_idle s' i) ->
     Q (inr u') b s') ->
  hwp (clear_loop n i u) b Q s.
Proof.
  intros HP. revert u s. induction n as [|n IH]; intros u s Hs HW HQ; cbn [clear_loop]; [done|].
  apply hwp_bind, hwp_get. intros s1 H1 _ r s2 Hg HN Es _ s3 H3 _.
  assert (P s3 /\ (W -> block_idle s3 i /\ r = None)) as [HP3 HW3].
  { split; [eapply (elsewhere_rely i); [done|exact H3|]; eapply HP; [exact HN|]; by eapply elsewhere_rely|].
    intros Hw. destruct (get_result_idle s1 i r s2 Hg Es) as [-> H2]; [eapply block_idle_rely; eauto|].
    split; [|done]. by eapply block_idle_rely. }
  destruct r as [r|]; [apply IH; [done|intros Hw; by destruct (HW3 Hw)|done]|].
  destruct (get_result_none _ _ _ Hg) as (Hd2 & _ & _).
  apply hwp_bind, hwp_get. intros s4 H4 _ r s5 Hg2 HN2 Es2 _ s6 H6 HI6.
  assert (P s6 /\ (W -> block_idle s6 i /\ r = None)) as [HP6 HW6].
  { split; [eapply (elsewhere_rely i); [done|exact H6|]; eapply HP; [exact HN2|]; by eapply elsewhere_rely|].
    intros Hw. destruct (get_result_idle s4 i r s5 Hg2 Es2) as [-> H5]; [eapply block_idle_rely; [exact H4|]; by apply HW3|].
    split; [|done]. by eapply block_idle_rely. }
  destruct r as [r|]; [apply IH; [done|intros Hw; by destruct (HW6 Hw)|done]|].
  destruct (get_result_none _ _ _ Hg2) as (Hd5 & Hi5 & Hi4). apply hwp_ret. intros s7 H7 HI7.
  apply HQ; [done|by eapply (elsewhere_rely i)| | |intros Hw; eapply block_idle_rely; [exact H7|by apply HW6]].
  - eapply items_rely; [exact H7|]. eapply items_rely; [exact H6|]. rewrite Hi5. apply Hi4.
    rewrite (due_rely _ _ _ H4), (due_rely _ _ _ H3). done.
  - by rewrite (due_rely _ _ _ H7), (due_rely _ _ _ H6).
Qed.

(** ** Sending *)

(** The transaction [g] is under way and has been asked of no one but the
    writers among [done]. *)
Record underway g b (done : list Z) s : Prop := {
  uw_open : sy_decided s !! x = None;
  uw_inprogress : g ∈ sy_inprogress s;
  uw_name j f : asked s j (G x f) -> G x f = g;
  uw_asked j : asked s j g -> j ∈ done /\ is_writer b j = true;
}.

Definition waiting g s i : Prop := pi_due (sy_pipes s t i) = false /\ preparing s t i g /\ asked s i g.

Lemma underway_near f b done i : elsewhere i (underway (G x f) b done).
Proof.
  intros s s' HN [H1 H2 H3 H4]. split.
  - by rewrite (near_own _ _ _ HN).
  - by rewrite (near_inprogress _ _ _ HN).
  - intros j f'. rewrite (near_asked _ _ _ HN). apply H3.
  - intros j. rewrite (near_asked _ _ _ HN). apply H4.
Qed.

Lemma waiting_near g i s s' j : j <> i -> Near i s s' -> waiting g s j -> waiting g s' j.
Proof.
  intros Hj HN (H1 & H2 & H3). pose proof (near_pipe _ _ _ HN j Hj) as Hk. split_and!.
  - by rewrite (kept_due _ _ _ _ _ Hk).
  - by apply (kept_preparing _ _ _ _ _ Hk).
  - by apply (near_sent _ _ _ HN).
Qed.

Lemma waiting_rely g s s' i : Rely s s' -> waiting g s i -> waiting g s' i.
Proof. intros HR. apply (waiting_near g (i + 1)); [lia|]. by apply Rely_near. Qed.

Lemma block_idle_near i s s' j : j <> i -> Near i s s' -> block_idle s j -> block_idle s' j.
Proof.
  intros Hj HN [H1 H2]. destruct (kept_idle _ _ _ _ _ (near_pipe _ _ _ HN j Hj) H1). split; auto.
Qed.

(** Where the loop is: the writers of [done] are to answer, those of [todo] are
    idle. *)
Definition sending g b (done todo : list Z) s : Prop :=
  underway g b done s /\ (forall j, j ∈ done -> is_writer b j = true -> waiting g s j) /\
  (forall j, j ∈ todo -> is_writer b j = true -> block_idle s j).

Lemma sending_near f b done todo i : i ∉ done -> i ∉ todo -> elsewhere i (sending (G x f) b done todo).
Proof.
  intros Hd Ht s s' HN (H1 & H2 & H3). split_and!.
  - by eapply underway_near.
  - intros j Hj Hw. eapply waiting_near; [|exact HN|auto]. by intros ->.
  - intros j Hj Hw. eapply block_idle_near; [|exact HN|auto]. by intros ->.
Qed.

Lemma own_prepare_allowed g b done i s f :
  g = G x f -> underway g b done s -> allowed localId s x i (Sql (prepare_sql g)).
Proof.
  intros -> [H1 H2 _ _]. split; intros y f' E.
  - assert (prepare_sql (G x f) = prepare_sql (G y f')) as E2 by congruence. apply sql_inj in E2.
    pose proof E2 as E3. apply gid_of_inj in E3 as <-. rewrite <- E2. done.
  - done.
  - done.
Qed.

(** PREPARE has been put on an idle connection. *)
Lemma sending_pushed f b done i todo s :
  let g := G x f in
  let s' := with_sent i (Sql (prepare_sql g)) (push t i (Todo (Some (Sql (prepare_sql g)))) s) in
  is_writer b i = true -> i ∉ done -> i ∉ todo -> sending g b done todo s -> block_idle s i -> pi_due (sy_pipes s t i) = false ->
  sending g b (done ++ [i]) todo s'.
Proof.
  intros g s' Hw Hnd Hnt ([U1 U2 U3 U4] & W1 & B1) [Hi Hb] Hdue.
  assert (forall j g', asked s' j g' <-> (j = i /\ g' = g) \/ asked s j g') as Ha.
  { intros j g'. unfold TwoPhaseSafety.asked, s'. cbn. rewrite elem_of_cons. split; intros [H|H]; auto.
    - left. split; [congruence|]. assert (prepare_sql g' = prepare_sql g) as E2 by congruence. by apply sql_inj in E2.
    - destruct H as [-> ->]. by left. }
  assert (sy_pipes s' t i = mkPipe (pi_gen (sy_pipes s t i)) (pi_items (sy_pipes s t i) ++ [Todo (Some (Sql (prepare_sql g)))])
    (pi_due (sy_pipes s t i)) (pi_aborted (sy_pipes s t i)) (pi_broken (sy_pipes s t i))) as Ep by (exact (pipe_with_same t i _ s)).
  assert (forall j, j <> i -> pipe_kept localId t j s s') as Hk.
  { intros j Hj. assert (sy_pipes s' t j = sy_pipes s t j) as Epj by (apply (pipe_with_other t i _ s t j); congruence).
    apply pipe_kept_same; [done| |intros; apply status_le_refl|cbn; by right].
    unfold TwoPhaseSafety.in_block. by rewrite Epj. }
  split_and!.
  - split; [done|done| |].
    + intros j f' [[-> E]|H]%Ha; [done|by eapply U3].
    + intros j [[-> _]|H]%Ha; [|destruct (U4 j H)]; (split; [apply elem_of_app; auto using list_elem_of_here|done]).
  - intros j [Hj|Hj%list_elem_of_singleton]%elem_of_app Hwj; [|subst j].
    + destruct (W1 j Hj Hwj) as (A1 & A2 & A3). assert (j <> i) as Hne by (by intros ->).
      split_and!; [by rewrite (kept_due _ _ _ _ _ (Hk j Hne))|by apply (kept_preparing _ _ _ _ _ (Hk j Hne))|apply Ha; by right].
    + split_and!; [by rewrite Ep|exists []; left|apply Ha; by left].
      unfold items, TwoPhaseSafety.in_block in *. rewrite Ep. cbn. rewrite Hi. done.
  - intros j Hj Hwj. assert (j <> i) as Hne by (by intros ->). destruct (B1 j Hj Hwj) as [A1 A2].
    destruct (kept_idle _ _ _ _ _ (Hk j Hne) A1). split; auto.
Qed.

Lemma sending_rely f b done todo s s' : Rely s s' -> sending (G x f) b done todo s -> sending (G x f) b done todo s'.
Proof.
  intros HR (A1 & A2 & A3). split_and!.
  - eapply (elsewhere_rely 0); [apply underway_near|exact HR|done].
  - intros j Hj Hwj. eapply waiting_rely; [exact HR|auto].
  - intros j Hj Hwj. eapply block_idle_rely; [exact HR|auto].
Qed.

Lemma sending_sync f b done i todo s :
  i ∉ todo -> libpq_frame localId t x s (push t i (Todo None) s) -> sending (G x f) b done todo s ->
  sending (G x f) b done todo (push t i (Todo None) s).
Proof.
  intros Hnt HF (A1 & A2 & A3). assert (Near i s (push t i (Todo None) s)) as HN.
  { apply frame_near; [done| |done]. intros j Hj. unfold push. apply pipe_with_other. congruence. }
  split_and!; [by eapply underway_near|..].
  - intros j Hj Hwj. destruct (decide (j = i)) as [->|Hne]; [|eapply waiting_near; [exact Hne|exact HN|auto]].
    destruct (A2 i Hj Hwj) as (C1 & (rest & C2) & C3). unfold waiting, TwoPhaseSafety.preparing, items, TwoPhaseSafety.in_block, push in *.
    rewrite pipe_with_same. cbn. split_and!; [done| |done]. exists (rest ++ [Todo None]).
    destruct C2 as [[E C2]|(a & E & C2)]; rewrite E; [left; done|right; exists a; done].
  - intros j Hj Hwj. eapply block_idle_near; [|exact HN|auto]. by intros ->.
Qed.

(** PREPARE on an idle connection. *)
Lemma hwp_send_prepare f b done i todo Q s :
  let g := G x f in
  is_writer b i = true -> i ∉ done -> i ∉ todo -> sending g b done todo s -> block_idle s i -> pi_due (sy_pipes s t i) = false ->
  (forall s', Inv s' -> sending g b (done ++ [i]) todo s' -> Q (inr tt) b s') ->
  (forall e s', Inv s' -> sy_decided s' !! x = None -> Q (inl e) b s') ->
  hwp (ok ← emit (PQsendQuery i (Sql (prepare_sql g)));
       _ ← throw_unless ok REMOTE_QUERY_FAILED;
       ok2 ← emit (PQpipelineSync i);
       throw_unless ok2 REMOTE_QUERY_FAILED) b Q s.
Proof.
  intros g Hw Hnd Hnt Hs Hidle Hdue HQ HE. apply hwp_bind, hwp_libpq; [done|]. intros s1 H1 HI1.
  pose proof (sending_rely f b done todo s s1 H1 Hs) as Hs1. split; [by eapply own_prepare_allowed; [|apply Hs1]|].
  intros r s2 Hev HF HI2 s3 H3 HI3. cbn in Hev. destruct Hev as [(-> & _ & ->)|(-> & extra & _ & ->)].
  2:{ apply hwp_bind, hwp_throw. intros s4 H4 HI4. apply HE; [done|].
      rewrite (rely_own _ _ _ _ _ _ H4), (rely_own _ _ _ _ _ _ H3). apply Hs1. }
  apply (sending_pushed f b done i todo s1) in Hs1; [|done..|by eapply block_idle_rely|by rewrite (due_rely _ _ _ H1)].
  cbn [throw_unless]. apply hwp_bind, hwp_ret. intros s4 H4 _. apply hwp_bind, hwp_libpq; [done|]. intros s5 H5 HI5. split; [done|].
  intros r s6 Hev HF6 HI6 s7 H7 HI7. assert (sending g b (done ++ [i]) todo s5) as Hs5.
  { eapply sending_rely; [exact H5|]. eapply sending_rely; [exact H4|]. by eapply sending_rely. }
  destruct Hev as [(-> & _ & ->)|(-> & ->)].
  2:{ apply hwp_throw. intros s8 H8 HI8. apply HE; [done|].
      rewrite (rely_own _ _ _ _ _ _ H8), (rely_own _ _ _ _ _ _ H7). apply Hs5. }
  apply hwp_ret. intros s8 H8 HI8. apply HQ; [done|]. eapply sending_rely; [exact H8|]. eapply sending_rely; [exact H7|].
  by apply sending_sync.
Qed.

Lemma hwp_prepare_send f b done todo Q s :
  let g := G x f in
  NoDup (done ++ todo) -> sending g b done todo s ->
  (forall s', Inv s' -> sending g b (done ++ todo) [] s' -> Q (inr tt) b s') ->
  (forall e s', Inv s' -> sy_decided s' !! x = None -> Q (inl e) b s') ->
  hwp (prepare_send fuel g todo) b Q s.
Proof.
  intros g. revert done s. induction todo as [|i todo IH]; intros done s Hnd Hs HQ HE; cbn [prepare_send].
  { apply hwp_ret. intros s1 H1 HI1. apply HQ; [done|]. rewrite app_nil_r. by eapply sending_rely. }
  assert ((i ∉ done) /\ (i ∉ todo)) as [Hid Hit].
  { apply NoDup_app in Hnd as (_ & Hd & Hn). apply NoDup_cons in Hn as [Hn _]. split; [|done].
    intros H. apply (Hd i H). left. }
  assert (NoDup ((done ++ [i]) ++ todo)) as Hnd' by (by rewrite <- app_assoc).
  apply hwp_bind, (hwp_clear _ i false b (sending g b done todo) (is_writer b i = true)).
  { by apply sending_near. }
  { destruct Hs as (A1 & A2 & A3). split_and!; auto. intros j Hj. apply A3. by right. }
  { intros Hw. apply Hs; [by left|done]. }
  intros u s1 HI1 Hs1 Hi1 Hd1 Hw1. unfold throw_unless at 1. apply hwp_bind. destruct u; cbn [negb].
  { apply hwp_throw. intros s2 H2 HI2. apply HE; [done|]. rewrite (rely_own _ _ _ _ _ _ H2). apply Hs1. }
  apply hwp_ret. intros s2 H2 HI2. apply (sending_rely f b done todo s1 s2 H2) in Hs1.
  apply hwp_self_bind, hwp_bind. destruct (is_writer b i) eqn:Ew.
  - apply (hwp_send_prepare f b done i todo); try done.
    + eapply block_idle_rely; [exact H2|by apply Hw1].
    + by rewrite (due_rely _ _ _ H2).
    + intros s3 HI3 Hs3. apply (IH (done ++ [i])); try done. intros s' HI'. rewrite <- app_assoc. by apply HQ.
  - apply hwp_ret. intros s3 H3 HI3. apply (IH (done ++ [i])); [done| |intros s' HI'; rewrite <- app_assoc; by apply HQ|done].
    apply (sending_rely f b done todo s2 s3 H3) in Hs1. destruct Hs1 as ([U1 U2 U3 U4] & A2 & A3). split_and!.
    + split; try done. intros j Hj. destruct (U4 j Hj). split; [apply elem_of_app; by left|done].
    + intros j [Hj|Hj%list_elem_of_singleton]%elem_of_app Hwj; [auto|]. subst. congruence.
    + auto.
Qed.

(** ** Receiving *)

(** The rows [ins] are those of servers that have prepared; the writers of
    [todo] are still to answer. *)
Definition receiving g b0 (all todo : list Z) (ins : list (Z * string)) s : Prop :=
  underway g b0 all s /\ (forall j, j ∈ todo -> is_writer b0 j = true -> waiting g s j) /\
  (forall p, p ∈ ins -> exists j, p = (j, g) /\ asked s j g /\ st s j g <> Unprepared).

Lemma receiving_near f b0 all todo ins i : i ∉ todo -> elsewhere i (receiving (G x f) b0 all todo ins).
Proof.
  intros Ht s s' HN (H1 & H2 & H3). split_and!.
  - by eapply underway_near.
  - intros j Hj Hw. eapply waiting_near; [|exact HN|auto]. by intros ->.
  - intros p Hp. destruct (H3 p Hp) as (j & -> & Ha & Hst). exists j. split; [done|]. split; [by apply (near_sent _ _ _ HN)|].
    by eapply status_le_known; [apply (near_status _ _ _ HN)|].
Qed.

Lemma receiving_rely f b0 all todo ins s s' :
  Rely s s' -> receiving (G x f) b0 all todo ins s -> receiving (G x f) b0 all todo ins s'.
Proof.
  intros HR (H1 & H2 & H3). split_and!.
  - eapply (elsewhere_rely 0); [apply underway_near|exact HR|done].
  - intros j Hj Hw. eapply waiting_rely; [exact HR|auto].
  - intros p Hp. destruct (H3 p Hp) as (j & -> & Ha & Hst). exists j. split; [done|].
    split; [by apply (rely_sent _ _ _ _ _ _ HR)|]. by eapply status_le_known; [apply (rely_status _ _ _ _ _ _ HR)|].
Qed.

(** The first result of a server that was asked is the answer. *)
Lemma waiting_result g s i r s' :
  get_result t i s r s' -> sy_servers s' = sy_servers s -> waiting g s i ->
  exists a, r = Some a /\ (is_ok a = true -> st s' i g <> Unprepared).
Proof.
  intros H Es (Hd & (rest & Hp) & _). unfold get_result in H. rewrite Hd in H. unfold TwoPhaseSafety.st. rewrite Es.
  unfold items in Hp. destruct Hp as [[E _]|(a & E & Ha)]; rewrite E in H;
    destruct H as [(a' & E' & -> & _)|(_ & -> & _)]; eexists; (split; [done|]); simplify_eq; done.
Qed.

(** Reading the results of [i] does not touch the rest. *)
Lemma hwp_read {A : Type} f b0 all todo ins i (k : option PGresult -> proc A) b Q s :
  i ∉ todo -> receiving (G x f) b0 all todo ins s ->
  (forall r s', receiving (G x f) b0 all todo ins s' -> hwp (k r) b Q s') ->
  hwp (r ← emit (PQgetResult i); k r) b Q s.
Proof.
  intros Hi Hs Hk. apply hwp_bind, hwp_get. intros s1 H1 _ r s2 _ HN _ _ s3 H3 _. apply Hk.
  eapply receiving_rely; [exact H3|]. eapply receiving_near; [exact Hi|exact HN|]. by eapply receiving_rely.
Qed.

Lemma hwp_expect f b0 all todo ins c b Q s :
  receiving (G x f) b0 all todo ins s ->
  (forall s', Inv s' -> receiving (G x f) b0 all todo ins s' -> Q (inr tt) b s') ->
  (forall e s', Inv s' -> receiving (G x f) b0 all todo ins s' -> Q (inl e) b s') ->
  hwp (throw_unless c PROGRAM_ERROR) b Q s.
Proof.
  intros Hs HQ HE. destruct c; [apply hwp_ret|apply hwp_throw]; intros s1 H1 HI1; [apply HQ|apply HE]; try done;
    by eapply receiving_rely.
Qed.

Lemma hwp_check f b0 all todo ins i b Q s :
  i ∉ todo -> receiving (G x f) b0 all todo ins s ->
  (forall s', Inv s' -> receiving (G x f) b0 all todo ins s' -> Q (inr tt) b s') ->
  (forall e s', Inv s' -> receiving (G x f) b0 all todo ins s' -> Q (inl e) b s') ->
  hwp (CheckPQpipelineSyncFinished i) b Q s.
Proof.
  intros Hi Hs HQ HE. unfold CheckPQpipelineSyncFinished. eapply hwp_read; [exact Hi|exact Hs|]. intros r s1 H1.
  assert (hwp (throw PROGRAM_ERROR) b Q s1) as Hthrow.
  { apply hwp_throw. intros s2 H2 HI2. apply HE; [done|]. by eapply receiving_rely. }
  destruct r as [[]|]; try exact Hthrow. eapply hwp_read; [exact Hi|exact H1|]. intros r s2 H2. by eapply hwp_expect.
Qed.

(** What is true when an error is raised before the decision. *)
Definition undecided_error g b s : Prop := be_gid b = g /\ sy_decided s !! x = None.

Lemma is_writer_other b i j stt : i <> j -> is_writer (set_manager (<[i := (conn_of b i, stt)]> (be_manager b)) b) j = is_writer b j.
Proof. intros H. unfold is_writer, state_of. cbn. by rewrite lookup_insert_ne. Qed.

(** The rows once server [i] has said that it is prepared. *)
Definition with_row g (b0 : backend) i (ins : list (Z * string)) : list (Z * string) :=
  if is_writer b0 i then ins ++ [(i, g)] else ins.

Lemma hwp_prepared_answer f b0 all todo i b Q s :
  let g := G x f in
  i ∉ todo -> is_writer b i = is_writer b0 i -> be_gid b = g -> receiving g b0 all todo (with_row g b0 i (be_inserted b)) s ->
  (forall b' s', Inv s' -> be_gid b' = g -> be_deleted b' = be_deleted b -> be_inserted b' = with_row g b0 i (be_inserted b) ->
     (forall j, j <> i -> is_writer b' j = is_writer b j) -> receiving g b0 all todo (be_inserted b') s' -> Q (inr false) b' s') ->
  (forall e s', Inv s' -> undecided_error g b s' -> Q (inl e) b s') ->
  hwp (r2 ← emit (PQgetResult i);
       _ ← throw_unless (bool_decide (r2 = None)) PROGRAM_ERROR;
       _ ← CheckPQpipelineSyncFinished i;
       b ← self;
       _ ← (if is_writer b i then
              _ ← set_state i FALCON_REMOTE_TRANSACTION_PREPARE;
              Write2PCRecord i g
            else mret tt);
       mret false) b Q s.
Proof.
  intros g Hi Hw Hg Hs HQ HE.
  assert (forall e s', Inv s' -> receiving g b0 all todo (with_row g b0 i (be_inserted b)) s' -> Q (inl e) b s') as HE'.
  { intros e s' HI' (A & _). apply HE; [done|]. split; [done|apply A]. }
  eapply hwp_read; [exact Hi|exact Hs|]. intros r2 s1 H1. apply hwp_bind.
  eapply hwp_expect; [exact H1| |exact HE']. intros s2 _ H2. apply hwp_bind.
  eapply hwp_check; [exact Hi|exact H2| |exact HE']. intros s3 _ H3. apply hwp_self_bind, hwp_bind.
  unfold with_row in *. rewrite <- Hw in *. destruct (is_writer b i) eqn:Ew.
  - apply hwp_change_bind, hwp_change. intros s4 H4 _. apply hwp_ret. intros s5 H5 HI5. apply HQ; cbn; try done.
    + intros j Hj. by apply (is_writer_other b i j).
    + eapply receiving_rely; [exact H5|]. by eapply receiving_rely.
  - apply hwp_ret. intros s4 H4 _. apply hwp_ret. intros s5 H5 HI5. apply HQ; try done.
    eapply receiving_rely; [exact H5|]. by eapply receiving_rely.
Qed.

(** The first result of server [i], and the row that its consent adds. *)
Lemma first_answer f b0 all todo ins i s1 r s2 s3 :
  let g := G x f in
  i ∉ todo -> receiving g b0 all (i :: todo) ins s1 -> get_result t i s1 r s2 -> Near i s1 s2 -> sy_servers s2 = sy_servers s1 -> Rely s2 s3 ->
  receiving g b0 all todo ins s3 /\ (is_writer b0 i = true -> r <> None) /\
  (forall a, r = Some a -> is_ok a = true -> receiving g b0 all todo (with_row g b0 i ins) s3).
Proof.
  intros g Hi (A1 & A2 & A3) Hget HN Es H3.
  assert (receiving g b0 all todo ins s3) as Hs3.
  { eapply receiving_rely; [exact H3|]. eapply receiving_near; [exact Hi|exact HN|]. split_and!; auto. intros j Hj. apply A2. by right. }
  assert (is_writer b0 i = true -> waiting g s1 i) as Hwait by (intros; apply A2; [by left|done]).
  split; [done|]. split.
  - intros Hwi. destruct (waiting_result g s1 i r s2 Hget Es (Hwait Hwi)) as (a & -> & _). done.
  - intros a -> Hok. unfold with_row. destruct (is_writer b0 i) eqn:Ew; [|done]. specialize (Hwait eq_refl).
    destruct (waiting_result g s1 i _ s2 Hget Es Hwait) as (a' & [= <-] & Ha).
    destruct Hs3 as (B1 & B2 & B3). split_and!; [done|done|]. intros p [Hp|Hp%list_elem_of_singleton]%elem_of_app; [auto|].
    exists i. split; [done|]. split; [apply (rely_sent _ _ _ _ _ _ H3), (near_sent _ _ _ HN); apply Hwait|].
    eapply status_le_known; [apply (rely_status _ _ _ _ _ _ H3)|auto].
Qed.

Lemma with_row_elem g b0 i ins p : p ∈ ins -> p ∈ with_row g b0 i ins.
Proof. unfold with_row. destruct (is_writer b0 i); [|done]. intros. apply elem_of_app. by left. Qed.

Lemma hwp_prepare_receive f b0 all ids b Q s :
  let g := G x f in
  NoDup ids -> (forall j, j ∈ ids -> is_writer b j = is_writer b0 j) -> be_gid b = g ->
  receiving g b0 all ids (be_inserted b) s ->
  (forall failed b' s', Inv s' -> be_gid b' = g -> be_deleted b' = be_deleted b -> receiving g b0 all [] (be_inserted b') s' ->
     (forall p, p ∈ be_inserted b -> p ∈ be_inserted b') ->
     (failed = false -> forall j, j ∈ ids -> is_writer b0 j = true -> (j, g) ∈ be_inserted b') -> Q (inr failed) b' s') ->
  (forall e b' s', Inv s' -> undecided_error g b' s' -> Q (inl e) b' s') ->
  hwp (prepare_receive g ids) b Q s.
Proof.
  intros g. revert b s Q. induction ids as [|i ids IH]; intros b s Q Hnd Hw Hg Hs HQ HE; cbn [prepare_receive].
  { apply hwp_ret. intros s1 H1 HI1. apply HQ; try done; [by eapply receiving_rely|]. intros _ j Hj. by apply elem_of_nil in Hj. }
  apply NoDup_cons in Hnd as [Hi Hnd].
  assert (forall failed b' s', Inv s' -> be_gid b' = g -> be_deleted b' = be_deleted b ->
    (forall j, j ∈ ids -> is_writer b' j = is_writer b0 j) -> (forall p, p ∈ be_inserted b -> p ∈ be_inserted b') ->
    (failed = false -> is_writer b0 i = true -> (i, g) ∈ be_inserted b') -> receiving g b0 all ids (be_inserted b') s' ->
    hwp (rest ← prepare_receive g ids; mret (failed || rest)) b' Q s') as Hrest.
  { intros failed b' s' HI' Hg' Hdel' Hw' Hins' Hi' Hs2. apply hwp_bind, IH; [done|done|done|done| |].
    - intros rest b2 s2 HI2 Hg2 Hdel2 Hs3 Hins2 Hrest. apply hwp_ret. intros s3 H3 HI3. apply HQ; try done; [congruence| |auto|].
      { by eapply receiving_rely. }
      intros [-> ->]%orb_false_iff j [->|Hj]%elem_of_cons Hwj; auto.
    - intros e b2 s2 HI2 H2. by apply HE. }
  assert (forall j, j ∈ ids -> is_writer b j = is_writer b0 j) as Hw' by (intros j Hj; apply Hw; by right).
  apply hwp_bind, hwp_get. intros s1 H1 _ r s2 Hget HN Es _ s3 H3 HI3.
  destruct (first_answer f b0 all ids (be_inserted b) i s1 r s2 s3) as (Hs3 & Hnone & Hok); try done; [by eapply receiving_rely|].
  apply hwp_bind. destruct r as [res|]; cycle 1.
  { apply hwp_ret. intros s4 H4 HI4. apply Hrest; try done; [|by eapply receiving_rely]. intros _ Hwi. by destruct (Hnone Hwi). }
  destruct (is_ok res) eqn:Eok; cycle 1.
  { apply hwp_ret. intros s4 H4 HI4. apply Hrest; try done. by eapply receiving_rely. }
  apply (hwp_prepared_answer f b0 all ids i b); [done|apply Hw; by left|done|by eapply Hok| |].
  - intros b' s4 HI4 Hg4 Hdel4 Hins4 Hw4 Hs4. apply Hrest; try done.
    + intros j Hj. rewrite Hw4; [auto|]. by intros ->.
    + rewrite Hins4. apply with_row_elem.
    + intros _ Hwi. rewrite Hins4. unfold with_row. rewrite Hwi. apply elem_of_app. right. by left.
  - intros e s4 HI4 H4. by apply HE.
Qed.

(** ** FalconRemoteCommandPrepare *)

Lemma commit_ready_rely ins del s s' : Rely s s' -> commit_ready localId s x ins del -> commit_ready localId s' x ins del.
Proof.
  intros HR [H1 H2 H3 H4]. split.
  - by rewrite (rely_own _ _ _ _ _ _ HR).
  - intros i g Hin. destruct (H2 i g Hin) as (f & -> & Ha). exists f. split; [done|]. by apply (rely_sent _ _ _ _ _ _ HR).
  - intros i f Ha. rewrite (rely_asked _ _ _ _ _ _ HR) in Ha. destruct (H3 i f Ha). split; [|done].
    by eapply status_le_known; [apply (rely_status _ _ _ _ _ _ HR)|].
  - intros i y f Hin. pose proof (rely_status _ _ _ _ _ _ HR i (G y f)) as Hle. rewrite (H4 i y f Hin) in Hle.
    by destruct Hle as [<-|[?|[? _]]].
Qed.

(** A backend whose transaction is about to end, before anything was prepared. *)
Record before_commit b s : Prop := {
  bc_gid : be_gid b = EmptyString;
  bc_xid : be_xid b = x;
  bc_inserted : be_inserted b = [];
  bc_states i : state_of b i <> FALCON_REMOTE_TRANSACTION_PREPARE;
  bc_open : sy_decided s !! x = None;
  bc_asked j f : ~ asked s j (G x f);
  bc_blocks i : is_writer b i = true -> block_idle s i;
}.

Lemma before_commit_rely b s s' : Rely s s' -> before_commit b s -> before_commit b s'.
Proof.
  intros HR [H1 H2 H3 H4 H5 H6 H7]. split; try done.
  - by rewrite (rely_own _ _ _ _ _ _ HR).
  - intros j f. by rewrite (rely_asked _ _ _ _ _ _ HR).
  - intros i Hi. by eapply block_idle_rely; [exact HR|auto].
Qed.

(** A connection that is not new keeps its state. *)
Lemma relink_kept (l : list (Z * link)) (m : gmap Z (bool * FalconRemoteTransactionState)) s i :
  default FALCON_REMOTE_TRANSACTION_NONE (snd <$> foldl linked m l !! i) <> FALCON_REMOTE_TRANSACTION_NONE ->
  default FALCON_REMOTE_TRANSACTION_NONE (snd <$> m !! i) = default FALCON_REMOTE_TRANSACTION_NONE (snd <$> foldl linked m l !! i) /\
  sy_pipes (foldl (relink t) s l) t i = sy_pipes s t i.
Proof.
  revert m s. induction l as [|[j k] l IH]; intros m s H; cbn [foldl] in *; [done|].
  destruct (IH _ (relink t s (j, k)) H) as [E1 E2]. rewrite <- E1, E2. unfold linked, relink in *. cbn [fst snd] in *.
  destruct k; [done|..]; (destruct (decide (i = j)) as [->|Hne];
    [rewrite lookup_insert_eq in E1; cbn in E1; congruence|
     rewrite lookup_insert_ne by done; split; [done|]; unfold abandon; by rewrite pipe_with_other by congruence]).
Qed.

Lemma hwp_connections b ids Q s :
  before_commit b s ->
  (forall b' s', Inv s' -> before_commit b' s' -> calmed b b' -> Q (inr tt) b' s') ->
  (forall e b' s', Inv s' -> before_commit b' s' -> Q (inl e) b' s') ->
  hwp (get_connections ids) b Q s.
Proof.
  intros Hs HQ HE. unfold get_connections. apply hwp_bind, hwp_libpq; [done|]. intros s1 H1 HI1. split; [done|].
  intros [l raised] s2 Hev HF HI2 s3 H3 HI3. destruct Hev as (_ & _ & ->). cbn [fst snd] in *.
  set (b1 := set_manager (foldl linked (be_manager b) l) b).
  assert (before_commit b1 s3) as Hb1.
  { eapply before_commit_rely; [exact H3|]. pose proof (before_commit_rely _ _ _ H1 Hs) as [C1 C2 C3 C4 C5 C6 C7].
    assert (calmed b b1) as Hc by apply calmed_linked. split; try done.
    - intros i. destruct (ca_states _ _ Hc i) as [->| ->]; [apply C4|done].
    - by rewrite (lf_decided _ _ _ _ _ HF).
    - intros j f Ha. assert (sy_sent (foldl (relink t) s1 l) = sy_sent s1) as Es.
      { clear. revert s1. induction l as [|[j k] l IH]; intros s1; cbn; [done|]. rewrite IH. by destruct k. }
      apply (C6 j f). unfold TwoPhaseSafety.asked. rewrite <- Es. exact Ha.
    - intros i Hi. assert (state_of b1 i = FALCON_REMOTE_TRANSACTION_BEGIN_FOR_WRITE) as Hst by (by apply bool_decide_eq_true_1 in Hi).
      destruct (relink_kept l (be_manager b) s1 i) as [E1 E2]; [unfold state_of in Hst; cbn in Hst; by rewrite Hst|].
      destruct (C7 i) as [D1 D2]; [apply bool_decide_eq_true_2; unfold state_of in *; cbn in Hst; congruence|].
      unfold block_idle, items, TwoPhaseSafety.in_block in *. rewrite E2, (lf_servers _ _ _ _ _ HF). done. }
  assert (calmed b b1) as Hc by apply calmed_linked.
  apply hwp_change_bind, hwp_bind. unfold throw_unless at 1. destruct raised; cbn [negb].
  { apply hwp_throw. intros s4 H4 HI4. apply HE; [done|]. by eapply before_commit_rely. }
  apply hwp_ret. intros s4 H4 _. apply hwp_self_bind. unfold throw_unless. destruct (_ || _).
  - apply hwp_ret. intros s5 H5 HI5. apply HQ; [done| |done]. eapply before_commit_rely; [exact H5|]. by eapply before_commit_rely.
  - apply hwp_throw. intros s5 H5 HI5. apply HE; [done|]. eapply before_commit_rely; [exact H5|]. by eapply before_commit_rely.
Qed.

(** What the callback leaves for PostgreSQL to commit or abort. *)
Definition prepared_ok b s : Prop :=
  own_name localId x b /\ named (be_gid b) b /\ commit_ready localId s x (be_inserted b) (be_deleted b).

Definition error_ok b s : Prop := own_name localId x b /\ named (be_gid b) b /\ sy_decided s !! x = None.

Lemma before_commit_error b s : before_commit b s -> error_ok b s.
Proof. intros [H1 _ _ H4 H5 _ _]. split_and!; [by left|by intros i Hi; destruct (H4 i)|done]. Qed.

Lemma before_commit_ready b s : be_deleted b = [] -> before_commit b s -> prepared_ok b s.
Proof.
  intros Hd [H1 _ H3 H4 H5 H6 _]. split_and!; [by left|by intros i Hi; destruct (H4 i)|]. rewrite Hd, H3. split; try done.
  - by intros i g ?%elem_of_nil.
  - intros i f Ha. by destruct (H6 i f).
  - by intros i y f ?%elem_of_nil.
Qed.

Lemma named_gid b f : be_gid b = G x f -> named (be_gid b) b.
Proof. intros E i _. split; [done|]. rewrite E. apply gid_nonempty. Qed.

(** Both loops, once the transaction is in the table of those under way. *)
Lemma hwp_prepare_loops f b ids Q s :
  let g := G x f in
  NoDup ids -> be_gid b = g -> be_inserted b = [] -> be_deleted b = [] ->
  sending g b [] ids s ->
  (forall b' s', Inv s' -> be_deleted b' = be_deleted b -> prepared_ok b' s' -> Q (inr tt) b' s') ->
  (forall e b' s', Inv s' -> error_ok b' s' -> Q (inl e) b' s') ->
  hwp (_ ← prepare_send fuel g ids;
       failed ← prepare_receive g ids;
       throw_unless (negb failed) REMOTE_QUERY_FAILED) b Q s.
Proof.
  intros g Hnd Hg Hins Hdel Hs HQ HE.
  assert (forall e b' s', Inv s' -> undecided_error g b' s' -> Q (inl e) b' s') as HE'.
  { intros e b' s' HI' [Hg' Ho]. apply HE; [done|]. split_and!; [right; by exists f|by eapply named_gid|done]. }
  apply hwp_bind, (hwp_prepare_send f b []); [done|done| |].
  2:{ intros e s' HI' Ho. apply HE'; [done|]. by split. }
  intros s1 HI1 (A1 & A2 & _). cbn [app] in *.
  apply hwp_bind, (hwp_prepare_receive f b ids); [done|done|done| | |done].
  { split_and!; [done|auto|]. rewrite Hins. by intros p ?%elem_of_nil. }
  intros failed b2 s2 HI2 Hg2 Hdel2 (U & _ & R) Hsub Hall. destruct failed; cbn [negb throw_unless].
  { apply hwp_throw. intros s3 H3 HI3. apply HE'; [done|]. split; [done|]. rewrite (rely_own _ _ _ _ _ _ H3). apply U. }
  apply hwp_ret. intros s3 H3 HI3. apply HQ; [done|done|]. split_and!; [right; by exists f|by eapply named_gid|].
  eapply commit_ready_rely; [exact H3|]. rewrite Hdel2, Hdel. destruct U as [U1 U2 U3 U4]. split; [done| | |].
  - intros i g' Hin. destruct (R _ Hin) as (j & [= -> ->] & Ha & _). by exists f.
  - intros i f' Ha. pose proof (U3 i f' Ha) as E. rewrite E in *. destruct (U4 i Ha) as [Hi Hw].
    pose proof (Hall eq_refl i Hi Hw) as Hin. split; [|done]. by destruct (R _ Hin) as (j & [= ->] & _ & ?).
  - by intros i y f' ?%elem_of_nil.
Qed.

Lemma hwp_prepare b Q s :
  before_commit b s -> be_deleted b = [] ->
  (forall b' s', Inv s' -> be_deleted b' = [] -> prepared_ok b' s' -> Q (inr tt) b' s') ->
  (forall e b' s', Inv s' -> error_ok b' s' -> Q (inl e) b' s') ->
  hwp (FalconRemoteCommandPrepare fuel cache_seq localId) b Q s.
Proof.
  intros Hs Hdel HQ HE. unfold FalconRemoteCommandPrepare. apply hwp_self_bind. destruct (be_cache b) as [c|]; cycle 1.
  { apply hwp_ret. intros s1 H1 HI1. apply HQ; [done|done|]. apply before_commit_ready; [done|]. by eapply before_commit_rely. }
  apply hwp_bind, (hwp_connections b); [done| |intros e b' s' HI' H'; by apply HE, before_commit_error].
  intros b1 s1 HI1 Hs1 Hc. assert (be_deleted b1 = []) as Hdel1 by (destruct (ca_written _ _ Hc); congruence).
  apply hwp_self_bind. destruct (bool_decide _).
  { apply hwp_ret. intros s2 H2 HI2. apply HQ; [done|done|]. apply before_commit_ready; [done|]. by eapply before_commit_rely. }
  unfold GetImplicitTransactionGid. apply hwp_bind, hwp_self_bind, hwp_bind. unfold throw_unless at 1. destruct (bool_decide _); cycle 1.
  { apply hwp_throw. intros s2 H2 HI2. apply HE; [done|]. apply before_commit_error. by eapply before_commit_rely. }
  apply hwp_ret. intros s2 H2 _. apply hwp_ret. intros s3 H3 _. rewrite (bc_xid _ _ Hs1). set (f := be_localWrite b1).
  apply hwp_change_bind, hwp_bind. unfold AddInprogressTransaction. apply hwp_bind, hwp_emit. intros s4 H4 HI4 r s5 Hev.
  assert (before_commit b1 s4) as Hs4.
  { eapply before_commit_rely; [exact H4|]. eapply before_commit_rely; [exact H3|]. by eapply before_commit_rely. }
  assert (forall s0, sy_decided s0 !! x = None -> error_ok (set_gid (G x f) b1) s0) as Herr.
  { intros s0 H0. split_and!; [right; by exists f|by apply (named_gid _ f)|done]. }
  destruct Hev as [[-> ->]|[-> ->]].
  { split; [done|]. split; [apply Guar_refl|]. intros s5 H5 _. apply hwp_throw. intros s6 H6 HI6. apply HE; [done|]. apply Herr.
    rewrite (rely_own _ _ _ _ _ _ H6), (rely_own _ _ _ _ _ _ H5). apply Hs4. }
  destruct (enter_safe localId t x rec f s4 HI4) as [HI5 HG]. split; [done|]. split; [done|]. intros s6 H6 _.
  case_bool_decide.
  { apply hwp_throw. intros s7 H7 HI7. apply HE; [done|]. apply Herr.
    rewrite (rely_own _ _ _ _ _ _ H7), (rely_own _ _ _ _ _ _ H6). apply Hs4. }
  apply hwp_ret. intros s7 H7 _. apply (hwp_prepare_loops f (set_gid (G x f) b1) (cache_seq c)); try done; [apply Hs1| |].
  2:{ intros b' s' HI' Hd' Hp. apply HQ; [done|by rewrite Hd'|done]. }
  eapply sending_rely; [exact H7|]. eapply sending_rely; [exact H6|]. destruct Hs4 as [_ _ _ _ D5 D6 D7]. split_and!.
  - split; [done|cbn; apply elem_of_union_r; by apply elem_of_singleton| |].
    + intros j f' Ha. by destruct (D6 j f').
    + intros j Ha. by destruct (D6 j f).
  - by intros j ?%elem_of_nil.
  - intros j _ Hj. by apply D7.
Qed.
End Prepare.
