(* ===== verification/TwoPhaseBody.v ===== *)
(** * The body of a transaction

    FalconSendCommandAndWaitForResult of RemoteComm.v as a handler uses it: when
    it returns, every server that was sent something to write is in a
    transaction block that has not failed. *)

From stdpp Require Import pretty.
From S2P Require Import FalconPrelude ForeignServer MetaMessages RemoteComm Transaction TwoPhase TwoPhaseSafety TwoPhaseLogic.
From S2P Require Import TwoPhasePrepare.

Section Body.
Context (localId : Z) {V : Type} {PG : PgServers localId V}.
Context (t : nat) (x : N) (rec : bool).
Context (fuel : nat) (cache_seq : gmap Z RemoteConnectionCommandData -> list Z).
Context (cache_seq_NoDup : forall c, NoDup (cache_seq c)).
Abbreviation sys := (@sys V).
Abbreviation G := (gid_of localId).
Abbreviation Rely := (Rely localId t x rec).
Abbreviation Inv := (Inv localId).
Abbreviation hwp := (hwp localId t x rec).
Abbreviation asked := (asked (V := V)).
Abbreviation in_block := (in_block localId).
Abbreviation Near := (Near localId t x rec).
Abbreviation elsewhere := (elsewhere localId t x rec).
Abbreviation block_idle := (block_idle localId t).
Abbreviation before_commit := (before_commit localId t x).
Implicit Types (s : sys) (b : backend) (g : string) (q : query).

(** ** Queues of commands *)

Definition opened s i : Prop := pi_due (sy_pipes s t i) = false /\ block_opened localId s t i.
Definition closed s i : Prop := pi_due (sy_pipes s t i) = false /\ block_closed localId s t i.

(** A command can be put on the connection: it opens the block, or the block
    is open. *)
Definition ready_for q s i : Prop :=
  (pi_due (sy_pipes s t i) = false /\ items s t i = [] /\ (q = begin_query \/ (in_block s t i /\ pg_ordinary q))) \/
  (opened s i /\ pg_ordinary q).

Lemma push_opened q s i : ready_for q s i -> opened (push t i (Todo (Some q)) s) i.
Proof.
  intros H. unfold opened, block_opened, items, TwoPhaseSafety.in_block, push. rewrite pipe_with_same. cbn [pi_due pi_items pi_aborted pi_gen].
  destruct H as [(Hd & Hi & Hq)|[(Hd & Hn & Hp) Hq]]; (split; [done|]).
  - unfold items in Hi. rewrite Hi. cbn. split; [by repeat constructor|]. unfold block_pending.
    destruct (pi_aborted (sy_pipes s t i)); [right; left; split; [done|by eexists]|].
    destruct Hq as [->|[Hb Hq]]; right; right; [left|right].
    + split; [done|]. by exists [], [].
    + split_and!; [done|done|by repeat constructor].
  - unfold items in *. split; [apply Forall_app; by split; [|repeat constructor]|].
    assert (first_todo (pi_items (sy_pipes s t i)) <> None -> first_todo (pi_items (sy_pipes s t i) ++ [Todo (Some q)]) = first_todo (pi_items (sy_pipes s t i))) as Hf.
    { destruct (first_todo_app (pi_items (sy_pipes s t i)) (Todo (Some q))) as [(o & -> & -> & _)|(-> & _)]; done. }
    destruct Hp as [(a & Ha & Hb)|[(Ha & q' & Hq')|[(Ha & pre & post & E & H1 & H2)|(Ha & Hb & Hl)]]].
    + left. exists a. split; [apply elem_of_app; by left|done].
    + right. left. split; [done|]. exists q'. rewrite Hf, Hq'; [done|]. by rewrite Hq'.
    + right. right. left. split; [done|]. exists pre, (post ++ [Todo (Some q)]). rewrite E. split; [by rewrite <- app_assoc|].
      split; [done|]. apply Forall_app. split; [done|by repeat constructor].
    + right. right. right. split_and!; [done|done|]. apply Forall_app. split; [done|by repeat constructor].
Qed.

Lemma push_closed s i : opened s i -> closed (push t i (Todo None) s) i.
Proof.
  intros (Hd & Hn & Hp). unfold closed, block_closed, items, TwoPhaseSafety.in_block, push. rewrite pipe_with_same.
  cbn [pi_due pi_items pi_aborted pi_gen]. split; [done|]. exists (pi_items (sy_pipes s t i)), (Todo None). auto.
Qed.

(** A result is taken off the queue. *)
Lemma closed_pop s i r s' :
  get_result t i s r s' -> sy_servers s' = sy_servers s -> closed s i ->
  exists a, r = Some a /\ pi_due (sy_pipes s' t i) = true /\
    ((a = PGRES_PIPELINE_SYNC /\ block_idle s' i) \/
     (a <> PGRES_PIPELINE_SYNC /\ (is_ok a = true -> block_closed localId s' t i))).
Proof.
  intros H Es (Hd & l & z & E & Hn & Hz & Hp). unfold get_result in H. rewrite Hd in H. unfold items in E.
  destruct (pi_items (sy_pipes s t i)) as [|it rest] eqn:Ei; [by destruct l|].
  destruct H as [(a & -> & -> & ->)|(_ & -> & ->)]; cycle 1.
  { exists PGRES_FATAL_ERROR. unfold abandon. rewrite pipe_with_same. split; [done|]. split; [done|]. by right. }
  exists a. rewrite pipe_with_same. split; [done|]. split; [done|].
  unfold TwoPhasePrepare.block_idle, block_closed, items, TwoPhaseSafety.in_block. rewrite Es, pipe_with_same. cbn [pi_items pi_gen pi_aborted].
  destruct l as [|it' l]; cbn in E; simplify_eq.
  - destruct Hz as [?|[= ->]]; [done|]. left. split; [done|]. split; [done|].
    destruct Hp as [(a & Ha%elem_of_nil & _)|[(_ & q & [=])|[(_ & pre & post & E & _)|(_ & Hb & _)]]]; [done|by destruct pre|done].
  - right. inversion Hn as [|? ? [_ Hns] Hn']; subst. split; [congruence|]. intros Hok. exists l, z. split_and!; try done.
    destruct Hp as [(a' & Ha & Hb)|[(Ha & q' & Hq')|[(Ha & pre & post & E & H1 & H2)|(Ha & Hb & Hl)]]].
    + apply elem_of_cons in Ha as [[= ->]|Ha]; [congruence|]. left. by exists a'.
    + right. left. split; [done|]. by exists q'.
    + right. right. left. split; [done|]. destruct pre as [|p pre]; cbn in E; simplify_eq. inversion H1; subst. by exists pre, post.
    + right. right. right. inversion Hl; subst. done.
Qed.

(** The NULL after a result. *)
Lemma null_due s i r s' :
  get_result t i s r s' -> pi_due (sy_pipes s t i) = true ->
  r = None /\ pi_due (sy_pipes s' t i) = false /\ items s' t i = items s t i /\
  pi_aborted (sy_pipes s' t i) = pi_aborted (sy_pipes s t i) /\ pi_gen (sy_pipes s' t i) = pi_gen (sy_pipes s t i).
Proof. intros H Hd. unfold get_result in H. rewrite Hd in H. destruct H as [-> ->]. unfold items. by rewrite pipe_with_same. Qed.

(** ** What is known while commands are under way *)

Record core b s : Prop := {
  co_gid : be_gid b = EmptyString;
  co_xid : be_xid b = x;
  co_written : be_inserted b = [] /\ be_deleted b = [];
  co_states i : state_of b i <> FALCON_REMOTE_TRANSACTION_PREPARE;
  co_open : sy_decided s !! x = None;
  co_asked j f : ~ asked s j (G x f);
}.

Lemma core_near b i : elsewhere i (core b).
Proof.
  intros s s' HN [H1 H2 H3 H4 H5 H6]. split; try done.
  - by rewrite (near_own _ _ _ _ _ _ _ HN).
  - intros j f. by rewrite (near_asked _ _ _ _ _ _ _ HN).
Qed.

Lemma core_rely b s s' : Rely s s' -> core b s -> core b s'.
Proof. intros HR. apply (elsewhere_rely localId t x rec 0); [apply core_near|done]. Qed.

(** The connections of [sent] have results to be fetched, the others are idle;
    [but] is left out. *)
Definition writers_ok (but : option Z) b (sent : list Z) s : Prop :=
  forall j, Some j <> but -> is_writer b j = true -> (j ∈ sent -> closed s j) /\ (j ∉ sent -> block_idle s j).

Lemma closed_near i s s' j : j <> i -> Near i s s' -> closed s j -> closed s' j.
Proof.
  intros Hj HN [H1 H2]. pose proof (near_pipe _ _ _ _ _ _ _ HN j Hj) as Hk.
  split; [by rewrite (kept_due _ _ _ _ _ Hk)|by apply (kept_closed _ _ _ _ _ Hk)].
Qed.

Lemma closed_rely s s' i : Rely s s' -> closed s i -> closed s' i.
Proof. intros HR. apply (closed_near (i + 1)); [lia|]. by apply Rely_near. Qed.

Lemma opened_rely s s' i : Rely s s' -> opened s i -> opened s' i.
Proof.
  intros HR [H1 H2]. pose proof (rely_pipe _ _ _ _ _ _ HR i) as Hk.
  split; [by rewrite (kept_due _ _ _ _ _ Hk)|by apply (kept_opened _ _ _ _ _ Hk)].
Qed.

Lemma ready_rely q s s' i : Rely s s' -> ready_for q s i -> ready_for q s' i.
Proof.
  intros HR [(H1 & H2 & H3)|[H1 H2]]; [left|right; split; [by eapply opened_rely|done]].
  destruct (kept_idle _ _ _ _ _ (rely_pipe _ _ _ _ _ _ HR i) H2) as [H4 H5].
  split_and!; [by rewrite (kept_due _ _ _ _ _ (rely_pipe _ _ _ _ _ _ HR i))|done|]. destruct H3 as [?|[? ?]]; auto.
Qed.

Definition apart i b sent s : Prop := core b s /\ writers_ok (Some i) b sent s.

Lemma apart_near i b sent : elsewhere i (apart i b sent).
Proof.
  intros s s' HN [H1 H2]. split; [by eapply core_near|]. intros j Hj Hw. assert (j <> i) as Hne by congruence.
  destruct (H2 j Hj Hw) as [A B]. split; intros Hin.
  - eapply closed_near; [exact Hne|exact HN|auto].
  - eapply block_idle_near; [exact Hne|exact HN|auto].
Qed.

Lemma apart_rely i b sent s s' : Rely s s' -> apart i b sent s -> apart i b sent s'.
Proof. intros HR. apply (elsewhere_rely localId t x rec i); [apply apart_near|done]. Qed.

(** ** Sending *)

Definition not_protocol q : Prop :=
  forall g, q <> Sql (prepare_sql g) /\ q <> Sql (commit_sql g) /\ q <> Sql (rollback_sql g).

Lemma not_protocol_allowed s i q : not_protocol q -> allowed localId s x i q.
Proof. intros H. split; intros y f E; by destruct (H (G y f)) as (? & ? & ?). Qed.

Lemma begin_not_protocol : not_protocol begin_query.
Proof. by intros g. Qed.

(** A command that is not of the protocol, on connection [i]; when [track], the
    connection stays one with an open block. *)
Lemma hwp_send_one (track : bool) i b sent q Q s :
  apart i b sent s -> not_protocol q -> (track = true -> ready_for q s i) ->
  (forall s', Inv s' -> apart i b sent s' -> (track = true -> opened s' i) -> Q (inr true) b s') ->
  (forall s', Inv s' -> core b s' -> Q (inr false) b s') ->
  hwp (emit (PQsendQuery i q)) b Q s.
Proof.
  intros Hs Hq Ht HQ HE. apply hwp_libpq; [done|]. intros s1 H1 HI1. split; [by apply not_protocol_allowed|].
  intros r s2 Hev HF HI2 s3 H3 HI3. cbn in Hev.
  assert (forall j f, asked s2 j (G x f) <-> asked s1 j (G x f)) as Ha.
  { assert (sy_sent s2 = (i, q) :: sy_sent s1) as Es by (destruct Hev as [(_ & _ & ->)|(_ & extra & _ & ->)]; done).
    intros j f. unfold TwoPhaseSafety.asked. rewrite Es, elem_of_cons. split; [|by right]. intros [E|?]; [|done].
    destruct (Hq (G x f)) as [? _]. congruence. }
  destruct Hev as [(-> & _ & ->)|(-> & extra & _ & ->)].
  - assert (Near i s1 (with_sent i q (push t i (Todo (Some q)) s1))) as HN.
    { apply frame_near; [done| |done]. intros j Hj. apply (pipe_with_other t i _ s1 t j). congruence. }
    apply HQ; [done| |].
    + eapply apart_rely; [exact H3|]. eapply apart_near; [exact HN|]. by eapply apart_rely.
    + intros Htr. eapply opened_rely; [exact H3|]. apply (push_opened q s1 i). by eapply ready_rely; [|apply Ht].
  - apply HE; [done|]. eapply core_rely; [exact H3|]. eapply core_rely in H1; [|apply Hs].
    destruct H1 as [A1 A2 A3 A4 A5 A6]. split; try done. intros j f. rewrite Ha. apply A6.
Qed.

Definition sending_on (track : bool) i b sent s : Prop := apart i b sent s /\ (track = true -> opened s i).

Lemma sending_on_rely track i b sent s s' : Rely s s' -> sending_on track i b sent s -> sending_on track i b sent s'.
Proof. intros HR [H1 H2]. split; [by eapply apart_rely|]. intros Ht. eapply opened_rely; [exact HR|auto]. Qed.

Definition ordinary_command (c : RemoteCommand) : Prop := pg_ordinary (command_query c).

Lemma ordinary_not_protocol c : ordinary_command c -> not_protocol (command_query c).
Proof. intros H g. by apply pg_ordinary_text. Qed.

(** A command and the test of the answer, then the rest. *)
Lemma hwp_send_step {A : Type} track i b sent q (k : proc A) Q s :
  apart i b sent s -> not_protocol q -> (track = true -> ready_for q s i) ->
  (forall s', sending_on track i b sent s' -> hwp k b Q s') ->
  (forall e s', Inv s' -> core b s' -> Q (inl e) b s') ->
  hwp (ok ← emit (PQsendQuery i q); _ ← throw_unless ok REMOTE_QUERY_FAILED; k) b Q s.
Proof.
  intros Hs Hq Ht Hk HE. apply hwp_bind, (hwp_send_one track i b sent); [done|done|done| |].
  - intros s1 HI1 Ha Ho. apply hwp_bind, hwp_ret. intros s2 H2 _. apply Hk. eapply sending_on_rely; [exact H2|by split].
  - intros s1 HI1 Hc. apply hwp_bind, hwp_throw. intros s2 H2 HI2. apply HE; [done|]. by eapply core_rely.
Qed.

Lemma hwp_send_rest track i b sent cs Q s :
  Forall ordinary_command cs -> sending_on track i b sent s ->
  (forall s', Inv s' -> sending_on track i b sent s' -> Q (inr tt) b s') ->
  (forall e s', Inv s' -> core b s' -> Q (inl e) b s') ->
  hwp (send_commands i cs) b Q s.
Proof.
  intros Hcs. revert s. induction Hcs as [|c cs Hc Hcs IH]; intros s Hs HQ HE; cbn [send_commands].
  - apply hwp_ret. intros s1 H1 HI1. apply HQ; [done|]. by eapply sending_on_rely.
  - apply (hwp_send_step track i b sent); [apply Hs|by apply ordinary_not_protocol| | |done].
    + intros Ht. right. split; [by apply Hs|done].
    + intros s1 H1. by apply IH.
Qed.

(** Whether the connection will be that of a writer. *)
Definition will_write b i (d : RemoteConnectionCommandData) : bool :=
  bool_decide (began (commandFlag d) (state_of b i) = FALCON_REMOTE_TRANSACTION_BEGIN_FOR_WRITE).

Lemma will_write_cases b i d :
  will_write b i d = true -> needs_begin b i (commandFlag d) = true \/ is_writer b i = true.
Proof.
  unfold will_write, needs_begin, is_writer. intros H%bool_decide_eq_true_1. destruct (state_of b i) eqn:E; cbn in H; try done.
  - left. rewrite bool_decide_eq_true_2 by done. cbn. unfold REMOTE_COMMAND_FLAG_WRITE in H.
    destruct (Z.eqb_spec (Z.land (commandFlag d) 2) 0) as [|Hne]; cbn in H; [by destruct (negb _) in H|].
    apply negb_true_iff, Z.eqb_neq. intros E3. apply Hne.
    change 2 with (Z.land 3 2). rewrite Z.land_assoc.
    change (Z.land (commandFlag d) 3) with (Z.land (commandFlag d) REMOTE_COMMAND_FLAG_BEGIN_TYPE_MASK). by rewrite E3.
  - right. by rewrite bool_decide_eq_true_2.
Qed.

Definition with_state b i (d : RemoteConnectionCommandData) : backend :=
  set_manager (<[i := (conn_of b i, began (commandFlag d) (state_of b i))]> (be_manager b)) b.

Lemma state_with_state b i d j :
  state_of (with_state b i d) j = if decide (j = i) then began (commandFlag d) (state_of b i) else state_of b j.
Proof.
  unfold state_of at 1, with_state. cbn. destruct (decide (j = i)) as [->|].
  - by rewrite (lookup_insert_eq (be_manager b) i).
  - by rewrite (lookup_insert_ne (be_manager b)).
Qed.

Lemma is_writer_with_state b i d j : is_writer (with_state b i d) j = if decide (j = i) then will_write b i d else is_writer b j.
Proof. unfold is_writer, will_write. rewrite state_with_state. by destruct (decide (j = i)). Qed.

Lemma core_with_state b i d s : core b s -> core (with_state b i d) s.
Proof.
  intros [H1 H2 H3 H4 H5 H6]. split; try done. intros j. rewrite state_with_state.
  destruct (decide (j = i)) as [->|]; [|apply H4]. specialize (H4 i). unfold began.
  destruct (state_of b i); try done. by repeat case_match.
Qed.

(** The first command, BEGIN or not, and the others. *)
Lemma hwp_send_block i b sent (d : RemoteConnectionCommandData) Q s :
  Forall ordinary_command (remoteCommandList d) -> remoteCommandList d <> [] ->
  apart i b sent s -> pi_due (sy_pipes s t i) = false -> items s t i = [] -> (is_writer b i = true -> in_block s t i) ->
  (forall s', Inv s' -> sending_on (will_write b i d) i b sent s' -> Q (inr tt) b s') ->
  (forall e s', Inv s' -> core b s' -> Q (inl e) b s') ->
  hwp (_ ← (if needs_begin b i (commandFlag d) then ok ← emit (PQsendQuery i (Sql "BEGIN;")); throw_unless ok REMOTE_QUERY_FAILED else mret tt);
       send_commands i (remoteCommandList d)) b Q s.
Proof.
  intros Hcs Hne Ha Hd Hi Hb HQ HE. apply hwp_bind. destruct (needs_begin b i (commandFlag d)) eqn:En.
  - apply hwp_bind, (hwp_send_one (will_write b i d) i b sent); [done|apply begin_not_protocol|left; auto| |].
    + intros s1 HI1 H1 H2. apply hwp_ret. intros s2 HR2 _. apply (hwp_send_rest (will_write b i d) i b sent); [done| |done|done].
      eapply sending_on_rely; [exact HR2|by split].
    + intros s1 HI1 H1. apply hwp_throw. intros s2 HR2 HI2. apply HE; [done|]. by eapply core_rely.
  - apply hwp_ret. intros s1 H1 _. destruct (remoteCommandList d) as [|c cs]; [done|].
    apply Forall_cons in Hcs as [Hc Hcs]. cbn [send_commands].
    apply (hwp_send_step (will_write b i d) i b sent); [by eapply apart_rely|by apply ordinary_not_protocol| | |done].
    + intros Hw. eapply ready_rely; [exact H1|]. left. split; [done|]. split; [done|]. right. split; [|done].
      destruct (will_write_cases b i d Hw); [congruence|auto].
    + intros s2 H2. by apply (hwp_send_rest (will_write b i d) i b sent).
Qed.

Definition cache_after b i (d : RemoteConnectionCommandData) : backend :=
  set_commands (<[i := mkCommandData (commandFlag d) []]> <$> be_cache b) b.

Lemma core_cache_after b i d s : core b s -> core (cache_after b i d) s.
Proof. intros [H1 H2 H3 H4 H5 H6]. by split. Qed.

Lemma hwp_send_server i b sent (d : RemoteConnectionCommandData) Q s :
  Forall ordinary_command (remoteCommandList d) -> remoteCommandList d <> [] -> i ∉ sent ->
  core b s -> writers_ok None b sent s ->
  (forall b' s', Inv s' -> b' = cache_after (with_state b i d) i d -> core b' s' -> writers_ok None b' (i :: sent) s' ->
     Q (inr (needs_begin b i (commandFlag d))) b' s') ->
  (forall e s', Inv s' -> core b s' -> Q (inl e) b s') ->
  hwp (send_server fuel i d) b Q s.
Proof.
  intros Hcs Hne Hi Hc Hw HQ HE. unfold send_server.
  apply hwp_bind, (hwp_clear localId t x rec _ i false b (apart i b sent) (is_writer b i = true)).
  { apply apart_near. }
  { split; [done|]. intros j Hj. by apply Hw. }
  { intros Hwi. by apply Hw. }
  intros u s1 HI1 Ha1 Hi1 Hd1 Hb1. apply hwp_self_bind, hwp_assoc, hwp_bind, (hwp_send_block i b sent); try done.
  { intros Hwi. by apply Hb1. }
  intros s2 HI2 Hs2. apply hwp_bind, hwp_libpq; [done|]. intros s3 H3 HI3. split; [done|]. intros r s4 Hev HF HI4 s5 H5 HI5.
  apply (sending_on_rely _ _ _ _ _ _ H3) in Hs2. destruct Hev as [(-> & _ & ->)|(-> & ->)]; cycle 1.
  { apply hwp_bind, hwp_throw. intros s6 H6 HI6. apply HE; [done|]. eapply core_rely; [exact H6|]. eapply core_rely; [exact H5|].
    destruct Hs2 as [[[C1 C2 C3 C4 C5 C6] _] _]. by split. }
  assert (Near i s3 (push t i (Todo None) s3)) as HN.
  { apply frame_near; [done| |done]. intros j Hj. apply (pipe_with_other t i _ s3 t j). congruence. }
  apply hwp_bind, hwp_ret. intros s6 H6 _. apply hwp_change_bind, hwp_change_bind, hwp_ret. intros s7 H7 HI7.
  assert (apart i b sent s7 /\ (will_write b i d = true -> closed s7 i)) as [[Hc7 Ha7] Hcl].
  { destruct Hs2 as [A1 A2]. split.
    - eapply apart_rely; [exact H7|]. eapply apart_rely; [exact H6|]. eapply apart_rely; [exact H5|]. by eapply apart_near.
    - intros Hww. eapply closed_rely; [exact H7|]. eapply closed_rely; [exact H6|]. eapply closed_rely; [exact H5|]. apply push_closed. auto. }
  apply HQ; [done|done|by apply core_cache_after, core_with_state|].
  intros j _ Hj. change (is_writer (with_state b i d) j = true) in Hj. rewrite is_writer_with_state in Hj.
  destruct (decide (j = i)) as [->|Hji]; [split; [auto|]; intros Hn; destruct Hn; by left|].
  destruct (Ha7 j) as [B1 B2]; [congruence|done|]. split; intros Hin.
  - apply B1. by apply elem_of_cons in Hin as [?|?].
  - apply B2. intros ?. apply Hin. by right.
Qed.

Definition cache_ok b : Prop :=
  forall c i d, be_cache b = Some c -> c !! i = Some d -> Forall ordinary_command (remoteCommandList d).

Lemma cache_ok_after b i d : cache_ok b -> cache_ok (cache_after (with_state b i d) i d).
Proof.
  intros H c j d' E Hj. unfold cache_after, with_state in E. cbn in E. destruct (be_cache b) as [c0|] eqn:Ec; [|done].
  injection E as <-. destruct (decide (i = j)) as [->|Hne].
  - rewrite lookup_insert_eq in Hj. by injection Hj as <-.
  - rewrite lookup_insert_ne in Hj by done. by apply (H c0 j).
Qed.

Lemma writers_ok_equiv but b S1 S2 s : (forall j, j ∈ S1 <-> j ∈ S2) -> writers_ok but b S1 s -> writers_ok but b S2 s.
Proof. intros HS H j Hj Hw. destruct (H j Hj Hw) as [A B]. split; intros Hin; [apply A|apply B]; by rewrite HS. Qed.

Lemma writers_ok_rely but b S s s' : Rely s s' -> writers_ok but b S s -> writers_ok but b S s'.
Proof.
  intros HR H j Hj Hw. destruct (H j Hj Hw) as [A B]. split; intros Hin.
  - eapply closed_rely; [exact HR|auto].
  - eapply block_idle_rely; [exact HR|auto].
Qed.

Lemma hwp_send_servers l b sent Q s :
  NoDup l.*1 -> (forall i, i ∈ l.*1 -> i ∉ sent) ->
  (forall i d, (i, d) ∈ l -> Forall ordinary_command (remoteCommandList d) /\ remoteCommandList d <> []) ->
  core b s -> writers_ok None b sent s -> cache_ok b ->
  (forall res b' s' sent', Inv s' -> res.*1 = l.*1 -> core b' s' -> cache_ok b' -> writers_ok None b' sent' s' ->
     (forall j, j ∈ sent' <-> j ∈ sent \/ j ∈ l.*1) -> Q (inr res) b' s') ->
  (forall e b' s', Inv s' -> core b' s' -> Q (inl e) b' s') ->
  hwp (send_servers fuel l) b Q s.
Proof.
  revert b sent s Q. induction l as [|[i d] l IH]; intros b sent s Q Hnd Hout Hd Hc Hw Hcache HQ HE; cbn [send_servers].
  { apply hwp_ret. intros s1 H1 HI1. apply (HQ [] b s1 sent); try done; [by eapply core_rely|by eapply writers_ok_rely|].
    intros j. cbn. rewrite elem_of_nil. by split; [left|intros [?|?]]. }
  cbn in Hnd. apply NoDup_cons in Hnd as [Hi Hnd]. destruct (Hd i d) as [Hord Hne]; [by left|].
  apply hwp_bind, (hwp_send_server i b sent d); try done; [apply Hout; by left| |by intros e s1 HI1 H1; apply HE].
  intros b1 s1 HI1 -> Hc1 Hw1. apply hwp_bind, (IH _ (i :: sent)); try done; [| |by apply cache_ok_after|].
  - intros j Hj [->|Hin]%elem_of_cons; [done|]. apply (Hout j); [by right|done].
  - intros j d' Hj. apply (Hd j). by right.
  - intros res b2 s2 sent2 HI2 Hres Hc2 Hcache2 Hw2 Hs2. apply hwp_ret. intros s3 H3 HI3.
    apply (HQ _ _ _ sent2); try done; [by rewrite fmap_cons, Hres|by eapply core_rely|by eapply writers_ok_rely|].
    intros j. rewrite Hs2. cbn. rewrite !elem_of_cons. tauto.
Qed.

(** ** Receiving *)

Definition receiving_on (track : bool) i b sent s : Prop := apart i b sent s /\ (track = true -> closed s i).

Lemma apart_get i b sent s1 r s2 s3 :
  apart i b sent s1 -> get_result t i s1 r s2 -> Near i s1 s2 -> Rely s2 s3 -> apart i b sent s3.
Proof. intros H _ HN HR. eapply apart_rely; [exact HR|]. by eapply apart_near. Qed.

(** A result with the NULL that ends it. *)
Lemma hwp_result {A : Type} track i b sent (k : option PGresult -> proc A) Q s :
  receiving_on track i b sent s ->
  (forall r s', apart i b sent s' ->
     (track = true -> exists a, r = Some a /\ pi_due (sy_pipes s' t i) = true /\
        ((a = PGRES_PIPELINE_SYNC /\ block_idle s' i) \/ (a <> PGRES_PIPELINE_SYNC /\ (is_ok a = true -> block_closed localId s' t i)))) ->
     hwp (k r) b Q s') ->
  hwp (r ← emit (PQgetResult i); k r) b Q s.
Proof.
  intros [Ha Hc] Hk. apply hwp_bind, hwp_get. intros s1 H1 _ r s2 Hg HN Es _ s3 H3 _. apply Hk.
  - eapply apart_get; [|exact Hg|exact HN|exact H3]. by eapply apart_rely.
  - intros Ht. destruct (closed_pop s1 i r s2 Hg Es) as (a & -> & Hd & H); [eapply closed_rely; [exact H1|auto]|].
    exists a. split; [done|]. split; [by rewrite (due_rely _ _ _ _ _ _ _ H3)|].
    destruct H as [[-> Hi]|[Hn Hok]]; [left|right]; (split; [done|]); [by eapply block_idle_rely|].
    intros Ho. apply (kept_closed _ _ _ _ _ (rely_pipe _ _ _ _ _ _ H3 i)). auto.
Qed.

Lemma hwp_null {A : Type} i b sent (k : unit -> proc A) (P : Prop) (F : sys -> Prop) Q s :
  apart i b sent s ->
  (forall s1 s2, Rely s1 s2 -> F s1 -> F s2) ->
  (forall s1 s2, F s1 -> sy_servers s2 = sy_servers s1 -> items s2 t i = items s1 t i ->
     pi_aborted (sy_pipes s2 t i) = pi_aborted (sy_pipes s1 t i) -> pi_gen (sy_pipes s2 t i) = pi_gen (sy_pipes s1 t i) -> F s2) ->
  (P -> pi_due (sy_pipes s t i) = true /\ F s) ->
  (forall s', Inv s' -> apart i b sent s' -> (P -> pi_due (sy_pipes s' t i) = false /\ F s') -> hwp (k tt) b Q s') ->
  (forall e s', Inv s' -> core b s' -> Q (inl e) b s') ->
  hwp (r2 ← emit (PQgetResult i); u ← throw_unless (bool_decide (r2 = None)) PROGRAM_ERROR; k u) b Q s.
Proof.
  intros Ha HF HF2 HP Hk HE. apply hwp_bind, hwp_get. intros s1 H1 _ r s2 Hg HN Es _ s3 H3 HI3.
  assert (apart i b sent s3) as Ha3 by (eapply apart_get; [|exact Hg|exact HN|exact H3]; by eapply apart_rely).
  apply hwp_bind. unfold throw_unless. case_bool_decide.
  - apply hwp_ret. intros s4 H4 HI4. apply Hk; [done|by eapply apart_rely|]. intros Hp. destruct (HP Hp) as [Hd Hf].
    destruct (null_due s1 i r s2 Hg) as (-> & Hd2 & Hi2 & Ha2 & Hg2); [by rewrite (due_rely _ _ _ _ _ _ _ H1)|].
    split; [by rewrite (due_rely _ _ _ _ _ _ _ H4), (due_rely _ _ _ _ _ _ _ H3)|].
    eapply HF; [exact H4|]. eapply HF; [exact H3|]. eapply HF2; [eapply HF; [exact H1|done]|done..].
  - apply hwp_throw. intros s4 H4 HI4. apply HE; [done|]. eapply core_rely; [exact H4|apply Ha3].
Qed.

Lemma block_closed_same s1 s2 i :
  block_closed localId s1 t i -> sy_servers s2 = sy_servers s1 -> items s2 t i = items s1 t i ->
  pi_aborted (sy_pipes s2 t i) = pi_aborted (sy_pipes s1 t i) -> pi_gen (sy_pipes s2 t i) = pi_gen (sy_pipes s1 t i) ->
  block_closed localId s2 t i.
Proof.
  intros (l & z & E & Hn & Hz & Hp) Es Ei Ea Eg. exists l, z. rewrite Ei, Ea. unfold TwoPhaseSafety.in_block. rewrite Es, Eg. done.
Qed.

Lemma block_idle_same s1 s2 i :
  block_idle s1 i -> sy_servers s2 = sy_servers s1 -> items s2 t i = items s1 t i ->
  pi_gen (sy_pipes s2 t i) = pi_gen (sy_pipes s1 t i) -> block_idle s2 i.
Proof. intros [H1 H2] Es Ei Eg. unfold TwoPhasePrepare.block_idle, TwoPhaseSafety.in_block. by rewrite Ei, Es, Eg. Qed.

Lemma block_closed_rely s s' i : Rely s s' -> block_closed localId s t i -> block_closed localId s' t i.
Proof. intros HR. apply (kept_closed _ _ _ _ _ (rely_pipe _ _ _ _ _ _ HR i)). Qed.

Lemma hwp_throw_core {A : Type} i b sent e (Q : FalconErrorCode + A -> backend -> sys -> Prop) s :
  apart i b sent s -> (forall e' s', Inv s' -> core b s' -> Q (inl e') b s') -> hwp (throw e) b Q s.
Proof. intros [Hc _] HE. apply hwp_throw. intros s1 H1 HI1. apply HE; [done|]. by eapply core_rely. Qed.

Lemma hwp_receive_results track i b sent n Q s :
  receiving_on track i b sent s ->
  (forall res s', Inv s' -> apart i b sent s' -> (track = true -> block_idle s' i) -> Q (inr res) b s') ->
  (forall e s', Inv s' -> core b s' -> Q (inl e) b s') ->
  hwp (receive_results n i) b Q s.
Proof.
  revert s Q. induction n as [|n IH]; intros s Q Hs HQ HE; cbn [receive_results]; [done|].
  apply (hwp_result track i b sent); [done|]. intros [r|] s1 Ha1 H1; [|by eapply hwp_throw_core].
  assert (r = PGRES_PIPELINE_SYNC \/ r <> PGRES_PIPELINE_SYNC) as [->|Hr] by (destruct r; auto).
  - apply (hwp_null i b sent _ (track = true) (fun s => block_idle s i)); try done.
    + intros s2 s3. apply block_idle_rely.
    + intros s2 s3 H E1 E2 _ E3. by eapply block_idle_same.
    + intros Ht. destruct (H1 Ht) as (a & [= <-] & Hd & [[_ Hi]|[? _]]); done.
    + intros s2 HI2 Ha2 H2. apply hwp_ret. intros s3 H3 HI3. apply HQ; [done|by eapply apart_rely|].
      intros Ht. eapply block_idle_rely; [exact H3|by apply H2].
  - assert (is_ok r = true -> hwp (r2 ← emit (PQgetResult i); _ ← throw_unless (bool_decide (r2 = None)) PROGRAM_ERROR;
      rest ← receive_results n i; mret (r :: rest)) b Q s1) as Hok; cycle 1.
    { destruct r; try done; cbn [is_ok]; try (by eapply hwp_throw_core); by apply Hok. }
    intros Ho. apply (hwp_null i b sent _ (track = true) (fun s => block_closed localId s t i)); try done.
    + intros s2 s3. apply block_closed_rely.
    + intros s2 s3 H E1 E2 E3 E4. by eapply block_closed_same.
    + intros Ht. destruct (H1 Ht) as (a & [= <-] & Hd & [[? _]|[_ Hc]]); [done|]. auto.
    + intros s2 HI2 Ha2 H2. apply hwp_bind, IH; [by split; [|exact H2]| |done].
      intros res s3 HI3 Ha3 H3. apply hwp_ret. intros s4 H4 HI4. apply HQ; [done|by eapply apart_rely|].
      intros Ht. eapply block_idle_rely; [exact H4|auto].
Qed.

Lemma hwp_receive_server track i needBegin b sent Q s :
  receiving_on track i b sent s ->
  (forall res s', Inv s' -> apart i b sent s' -> (track = true -> block_idle s' i) -> Q (inr res) b s') ->
  (forall e s', Inv s' -> core b s' -> Q (inl e) b s') ->
  hwp (receive_server fuel i needBegin) b Q s.
Proof.
  intros Hs HQ HE. unfold receive_server. destruct needBegin.
  - apply hwp_assoc_r, (hwp_result track i b sent); [done|]. intros r s1 Ha1 H1.
    destruct r as [[]|]; try by (apply hwp_bind; eapply hwp_throw_core).
    apply hwp_assoc_r, (hwp_null i b sent _ (track = true) (fun s => block_closed localId s t i)); try done.
    + intros s2 s3. apply block_closed_rely.
    + intros s2 s3 H E1 E2 E3 E4. by eapply block_closed_same.
    + intros Ht. destruct (H1 Ht) as (a & [= <-] & Hd & [[? _]|[_ Hc]]); [done|]. auto.
    + intros s2 HI2 Ha2 H2. by apply (hwp_receive_results track i b sent).
  - apply hwp_bind, hwp_ret. intros s1 H1 HI1. apply (hwp_receive_results track i b sent); [|done..].
    destruct Hs as [Ha Hc]. split; [by eapply apart_rely|]. intros Ht. eapply closed_rely; [exact H1|auto].
Qed.

Lemma hwp_receive_servers l b Q s :
  NoDup l.*1 -> core b s -> writers_ok None b l.*1 s ->
  (forall res s', Inv s' -> core b s' -> writers_ok None b [] s' -> Q (inr res) b s') ->
  (forall e s', Inv s' -> core b s' -> Q (inl e) b s') ->
  hwp (receive_servers fuel l) b Q s.
Proof.
  revert s Q. induction l as [|[i nb] l IH]; intros s Q Hnd Hc Hw HQ HE; cbn [receive_servers].
  { apply hwp_ret. intros s1 H1 HI1. apply HQ; [done|by eapply core_rely|by eapply writers_ok_rely]. }
  cbn in Hnd. apply NoDup_cons in Hnd as [Hi Hnd].
  apply hwp_bind, (hwp_receive_server (is_writer b i) i nb b l.*1); [|intros res s1 HI1 [Hc1 Ha1] H1|done].
  - split; [split; [done|]|intros Hwi; apply (Hw i); [done..|by left]].
    intros j Hj Hwj. destruct (Hw j) as [A B]; [done..|]. assert (j <> i) by congruence.
    split; intros Hin; [apply A; by right|apply B; cbn; intros [?|?]%elem_of_cons; done].
  - apply hwp_bind, IH; [done|done| | |done].
    + intros j _ Hwj. destruct (decide (j = i)) as [->|Hj]; [split; [done|auto]|apply Ha1; congruence].
    + intros res2 s2 HI2 Hc2 Hw2. apply hwp_ret. intros s3 H3 HI3. apply HQ; [done|by eapply core_rely|by eapply writers_ok_rely].
Qed.

(** ** FalconSendCommandAndWaitForResult *)

Lemma elem_of_unsent c i d : (i, d) ∈ unsent cache_seq c -> i ∈ cache_seq c /\ c !! i = Some d /\ remoteCommandList d <> [].
Proof.
  unfold unsent. intros (j & Hj & E)%list_elem_of_omap. destruct (c !! j) as [d'|] eqn:Ed; [|done].
  destruct (remoteCommandList d') eqn:El; [done|]. simplify_eq. split_and!; [done|done|congruence].
Qed.

Lemma unsent_NoDup c : NoDup (unsent cache_seq c).*1.
Proof.
  unfold unsent. pose proof (cache_seq_NoDup c) as H. induction H as [|i l Hi Hl IH]; cbn; [constructor|].
  destruct (c !! i) as [d|]; [|done]. destruct (remoteCommandList d); [done|]. cbn. constructor; [|done].
  intros ([j d'] & -> & (k & Hk & E)%list_elem_of_omap)%list_elem_of_fmap. destruct (c !! k) as [d2|]; [|done].
  destruct (remoteCommandList d2); [done|]. by simplify_eq.
Qed.

(** What a handler keeps between its calls. *)
Definition body_inv b s : Prop := before_commit b s /\ be_deleted b = [] /\ cache_ok b.

Lemma core_error b s : core b s -> error_ok localId x b s.
Proof. intros [H1 _ _ H4 H5 _]. split_and!; [by left|by intros i Hi; destruct (H4 i)|done]. Qed.

Lemma hwp_send_and_wait b Q s :
  body_inv b s ->
  (forall res b' s', Inv s' -> body_inv b' s' -> Q (inr res) b' s') ->
  (forall e b' s', Inv s' -> error_ok localId x b' s' -> Q (inl e) b' s') ->
  hwp (FalconSendCommandAndWaitForResult fuel cache_seq) b Q s.
Proof.
  intros (Hb & Hdel & Hok) HQ HE. unfold FalconSendCommandAndWaitForResult. apply hwp_self_bind.
  destruct (be_cache b) as [c|] eqn:Ec; [|done].
  apply hwp_bind, (hwp_connections localId t x rec b); [done| |intros e b' s' HI' H'; by apply HE, (before_commit_error localId t x)].
  intros b1 s1 HI1 [H1 H2 H3 H4 H5 H6 H7] Hc. destruct (ca_written _ _ Hc) as [_ Hdel1].
  apply hwp_bind, (hwp_send_servers _ _ []).
  - apply unsent_NoDup.
  - by intros i _ ?%elem_of_nil.
  - intros i d (_ & Hd & Hne)%elem_of_unsent. split; [by eapply Hok|done].
  - split; try done. split; [done|congruence].
  - intros i _ Hi. split; [by intros ?%elem_of_nil|by intros _; apply H7].
  - intros c' i d. rewrite (ca_cache _ _ Hc). apply Hok.
  - intros res b2 s2 sent2 HI2 Hres Hc2 Hok2 Hw2 Hsent. apply hwp_receive_servers; [rewrite Hres; apply unsent_NoDup|done| | |].
    + eapply writers_ok_equiv; [|exact Hw2]. intros j. rewrite Hsent, Hres, elem_of_nil. tauto.
    + intros res3 s3 HI3 [D1 D2 [D3 D3'] D4 D5 D6] Hw3. apply HQ; [done|]. split_and!; [|done|done]. split; try done.
      intros i Hi. apply (Hw3 i); [done|done|by apply not_elem_of_nil].
    + intros e s3 HI3 Hc3. apply HE; [done|]. by apply core_error.
  - intros e b2 s2 HI2 Hc2. apply HE; [done|]. by apply core_error.
Qed.

(** ** The handler and the whole transaction *)

Lemma body_inv_rely b s s' : Rely s s' -> body_inv b s -> body_inv b s'.
Proof. intros HR (H1 & H2 & H3). split_and!; [by eapply before_commit_rely|done|done]. Qed.

Lemma body_inv_error b s : body_inv b s -> error_ok localId x b s.
Proof. intros (H & _). by eapply before_commit_error. Qed.

Lemma append_ok c flag ws (m : gmap Z RemoteConnectionCommandData) :
  ordinary_command c -> (forall i d, m !! i = Some d -> Forall ordinary_command (remoteCommandList d)) ->
  forall i d, foldl (append_command c flag) m ws !! i = Some d -> Forall ordinary_command (remoteCommandList d).
Proof.
  intros Hc. revert m. induction ws as [|w ws IH]; intros m Hm; cbn [foldl]; [done|]. apply IH.
  intros i d. unfold append_command. destruct (decide (w = i)) as [->|Hne].
  - rewrite lookup_insert_eq. intros [= <-]. cbn. apply Forall_app. split; [|by repeat constructor].
    destruct (m !! i) as [d'|] eqn:E; cbn; [by eapply Hm|constructor].
  - rewrite lookup_insert_ne by done. apply Hm.
Qed.

Lemma body_inv_append c flag ws b s :
  ordinary_command c -> body_inv b s ->
  body_inv (set_commands (Some (foldl (append_command c flag) (default ∅ (be_cache b)) ws)) b) s.
Proof.
  intros Hc ([H1 H2 H3 H4 H5 H6 H7] & Hd & Hok). split_and!; [by split|done|]. intros m i d [= <-]. apply append_ok; [done|].
  intros j d'. destruct (be_cache b) as [m0|] eqn:E; cbn; [by apply Hok|by rewrite lookup_empty].
Qed.

Lemma hwp_body d b Q s :
  body_ok localId d -> body_inv b s ->
  (forall b' s', Inv s' -> body_inv b' s' -> Q (inr tt) b' s') ->
  (forall e b' s', Inv s' -> error_ok localId x b' s' -> Q (inl e) b' s') ->
  hwp (run_body fuel cache_seq d) b Q s.
Proof.
  revert b s. induction d as [|e|ro k IH|svc cnt param flag ws k IH|cmd flag ws k IH|k IH]; intros b s Hd Hs HQ HE; cbn [run_body body_ok] in *.
  - apply hwp_ret. intros s1 H1 HI1. apply HQ; [done|by eapply body_inv_rely].
  - apply hwp_throw. intros s1 H1 HI1. apply HE; [done|]. by eapply body_inv_error, body_inv_rely.
  - apply hwp_bind. unfold RegisterLocalProcessFlag. destruct ro; cbn [negb].
    + apply hwp_ret. intros s1 H1 HI1. apply IH; try done. by eapply body_inv_rely.
    + apply hwp_change. intros s1 H1 HI1. apply IH; try done. destruct (body_inv_rely _ _ _ H1 Hs) as ([] & ? & ?).
      split_and!; [by split|done|done].
  - apply hwp_bind. unfold FalconMetaCallOnWorkerList. destruct (bool_decide _).
    + apply hwp_throw. intros s1 H1 HI1. apply HE; [done|]. by eapply body_inv_error, body_inv_rely.
    + apply hwp_change. intros s1 H1 HI1. apply IH; try done. apply body_inv_append; [apply pg_meta_ordinary|by eapply body_inv_rely].
  - destruct Hd as [Hcmd Hd]. apply hwp_bind, hwp_change. intros s1 H1 HI1. apply IH; try done.
    apply body_inv_append; [done|by eapply body_inv_rely].
  - apply hwp_bind, hwp_send_and_wait; [done| |done]. intros res b1 s1 HI1 H1. by apply IH.
Qed.

Context (unset : string).

Lemma hwp_commit b s :
  before_commit b s -> be_deleted b = [] ->
  hwp (CommitTransaction fuel cache_seq localId unset) b (fun _ _ s' => over x s') s.
Proof.
  intros Hs Hdel. unfold CommitTransaction. apply hwp_bind, hwp_attempt, (hwp_prepare localId t x rec fuel cache_seq); try done.
  - intros b1 s1 HI1 Hd1 (Hn & Hg & Hr). apply hwp_self_bind, hwp_commit_recorded; [done|done| |done].
    intros s2 H2 _. by eapply commit_ready_rely.
  - intros e b1 s1 HI1 (Hn & Hg & Ho). by apply hwp_abort_then.
Qed.

Lemma hwp_transaction d b s :
  body_ok localId d -> body_inv b s ->
  hwp (transaction fuel cache_seq localId unset (run_body fuel cache_seq d)) b (fun _ _ s' => over x s') s.
Proof.
  intros Hd Hs. unfold transaction. apply hwp_bind, hwp_attempt, hwp_body; [done|done| |].
  - intros b1 s1 HI1 (Hb & Hdel & _). by apply hwp_commit.
  - intros e b1 s1 HI1 (Hn & Hg & Ho). by apply hwp_abort_then.
Qed.

(** A process that has just started. *)
Lemma between_inv b s :
  between_transactions b -> be_xid b = x -> sy_decided s !! x = None -> (forall j f, ~ asked s j (G x f)) -> body_inv b s.
Proof.
  intros [H1 H2 H3 [H4 H5] H6] Hx Hd Ha. split_and!; [|done|by intros c i d; rewrite H1]. split; try done.
  - intros i. by rewrite H3.
  - intros i Hi%bool_decide_eq_true_1. by rewrite H3 in Hi.
Qed.
End Body.
