(* ===== verification/TwoPhaseRecovery.v ===== *)
(** * The recovery process

    A round of transaction_cleanup.c (Transaction.v): it commits only what the
    coordinator has committed, rolls back only what it has aborted or what is no
    longer there, and deletes a row only when its transaction is committed. *)

From stdpp Require Import pretty.
From S2P Require Import FalconPrelude ForeignServer MetaMessages RemoteComm Transaction TwoPhase TwoPhaseSafety TwoPhaseLogic.
From S2P Require Import TwoPhasePrepare TwoPhaseBody.

Section Recovery.
Context (localId : Z) {V : Type} {PG : PgServers localId V}.
Context (t : nat) (x : N).
Context (fuel : nat) (cache_seq : gmap Z RemoteConnectionCommandData -> list Z) (unset : string)
  (set_seq : gset string -> list string).
Context (cache_seq_NoDup : forall c, NoDup (cache_seq c)).
Context (cache_seq_all : forall c i, i ∈ cache_seq c <-> is_Some (c !! i)).
Context (set_seq_all : forall l g, g ∈ set_seq l <-> g ∈ l).
Abbreviation sys := (@sys V).
Abbreviation G := (gid_of localId).
Abbreviation Rely := (Rely localId t x true).
Abbreviation Inv := (Inv localId).
Abbreviation hwp := (hwp localId t x true).
Abbreviation asked := (asked (V := V)).
Abbreviation st := (st localId).
Implicit Types (s : sys) (b : backend) (g : string) (q : query).

(** ** What it sends *)

Definition rquery s i q : Prop :=
  q = Sql (select_sql localId) \/
  exists g, (q = Sql (commit_sql g) /\ forall y f, g = G y f -> sy_decided s !! y = Some true) \/
            (q = Sql (rollback_sql g) /\ forall y f, g = G y f -> may_rollback localId s y f i).

Lemma rquery_allowed s i q : rquery s i q -> allowed localId s x i q.
Proof.
  assert (forall g g', Sql (prepare_sql g) <> Sql (commit_sql g') /\ Sql (prepare_sql g) <> Sql (rollback_sql g') /\
    Sql (commit_sql g) <> Sql (rollback_sql g') /\ Sql (prepare_sql g) <> Sql (select_sql localId) /\
    Sql (commit_sql g) <> Sql (select_sql localId) /\ Sql (rollback_sql g) <> Sql (select_sql localId)) as D.
  { intros g g'. destruct (sql_disjoint localId g g') as (? & ? & ? & ? & ? & ?). split_and!; congruence. }
  intros [->|(g & [[-> H]|[-> H]])]; split; intros y f E;
    try (exfalso; destruct (D (G y f) g) as (? & ? & ? & ? & ? & ?), (D g (G y f)) as (? & ? & ? & ? & ? & ?); congruence);
    try (exfalso; destruct (D (G y f) (G y f)) as (? & ? & ? & ? & ? & ?); congruence).
  - assert (commit_sql g = commit_sql (G y f)) as E2 by congruence. apply sql_inj in E2. by apply (H y f).
  - assert (rollback_sql g = rollback_sql (G y f)) as E2 by congruence. apply sql_inj in E2. by apply (H y f).
Qed.

Lemma rquery_item s i q s' : rquery s i q -> recovery_item localId s' (Todo (Some q)).
Proof. intros [->|(g & [[-> _]|[-> _]])]; [by left|right; exists g; by left|right; exists g; by right]. Qed.

Lemma rquery_not_prepare s i q g : rquery s i q -> q <> Sql (prepare_sql g).
Proof.
  intros [->|(g' & [[-> _]|[-> _]])] E; destruct (sql_disjoint localId g g) as (_ & _ & _ & ? & _);
    try (destruct (sql_disjoint localId g g') as (? & ? & _)); congruence.
Qed.

(** What lasts whatever the others and the process itself do. *)
Record Onward s s' : Prop := {
  on_status j g : status_le (st s j g) (st s' j g);
  on_decided y d : sy_decided s !! y = Some d -> sy_decided s' !! y = Some d;
  on_settled y f j d : sy_decided s !! y = Some d -> (asked s' j (G y f) <-> asked s j (G y f));
  on_sent iq : iq ∈ sy_sent s -> iq ∈ sy_sent s';
}.

Definition lasting (P : sys -> Prop) : Prop := forall s s', Onward s s' -> P s -> P s'.

Lemma Onward_rely s s' : Rely s s' -> Onward s s'.
Proof. intros []; by split. Qed.

Lemma Onward_near i s s' : Near localId t x true i s s' -> Onward s s'.
Proof. intros []; by split. Qed.

Lemma Onward_frame s s' : libpq_frame localId t x s s' -> Onward s s'.
Proof.
  intros [E1 E2 E3 E4 Ep Hs Ha]. split; try done.
  - intros j g. unfold TwoPhaseSafety.st. rewrite E1. apply status_le_refl.
  - by rewrite E4.
  - intros y f j d Hd. apply Ha. destruct (decide (y = x)) as [->|]; [right; eauto|by left].
Qed.

Lemma Onward_refl s : Onward s s.
Proof. split; try done. intros. apply status_le_refl. Qed.

Lemma Onward_trans s1 s2 s3 : Onward s1 s2 -> Onward s2 s3 -> Onward s1 s3.
Proof.
  intros [A1 A2 A3 A4] [B1 B2 B3 B4]. split; [|by eauto| |by eauto].
  - intros j g. by eapply status_le_trans.
  - intros y f j d Hd. rewrite (B3 y f j d), (A3 y f j d Hd); eauto.
Qed.

Lemma lasting_and P P' : lasting P -> lasting P' -> lasting (fun s => P s /\ P' s).
Proof. intros H H' s s' Ho [? ?]. split; eauto. Qed.

Lemma committed_lasting i g : lasting (fun s => st s i g = Committed).
Proof. intros s s' H Hc. pose proof (on_status _ _ H i g) as Hle. rewrite Hc in Hle. by destruct Hle as [<-|[?|[? _]]]. Qed.

Lemma may_rollback_lasting y f i : lasting (fun s => may_rollback localId s y f i).
Proof.
  intros s s' H [Hd|[Hd Hr]]; [left; by apply (on_decided _ _ H)|right]. split; [by apply (on_decided _ _ H)|].
  rewrite (on_settled _ _ H y f i true Hd). destruct Hr as [?|Hc]; [by left|right]. by apply (committed_lasting i _ s).
Qed.

Lemma rquery_lasting i q : lasting (fun s => rquery s i q).
Proof.
  intros s s' H [->|(g & [[-> Hg]|[-> Hg]])]; [by left|right; exists g..].
  - left. split; [done|]. intros y f E. apply (on_decided _ _ H). by apply (Hg y f).
  - right. split; [done|]. intros y f E. apply (may_rollback_lasting y f i s s' H). by apply Hg.
Qed.

(** ** What it knows of the world *)

Definition rows_asked s (a : PGresult) : Prop := forall y f, G y f ∈ rows_of a -> exists j, asked s j (G y f).

Record world s : Prop := {
  wo_open : sy_decided s !! x = None;
  wo_asked j f : ~ asked s j (G x f);
  wo_items j : recovery_items localId s t j;
}.

Lemma world_rely s s' : Rely s s' -> world s -> world s'.
Proof.
  intros HR [H1 H2 H3]. split.
  - by rewrite (rely_own _ _ _ _ _ _ HR).
  - intros j f. by rewrite (rely_asked _ _ _ _ _ _ HR).
  - intros j. by apply (kept_recovery _ _ _ _ _ (rely_pipe _ _ _ _ _ _ HR j)).
Qed.

Lemma recovery_item_sent s s' it :
  (forall iq, iq ∈ sy_sent s -> iq ∈ sy_sent s') -> recovery_item localId s it -> recovery_item localId s' it.
Proof. destruct it as [[q|]|a]; cbn; try done. intros Hs H y f Hr. destruct (H y f Hr) as [j Hj]. exists j. by apply Hs. Qed.

Lemma recovery_items_pipe s s' i j :
  (forall iq, iq ∈ sy_sent s -> iq ∈ sy_sent s') -> (j <> i -> sy_pipes s' t j = sy_pipes s t j) ->
  (forall j, recovery_items localId s t j) -> Forall (recovery_item localId s') (items s' t i) -> recovery_items localId s' t j.
Proof.
  intros Hs Hp Hj Hi. destruct (decide (j = i)) as [->|Hne]; [done|]. unfold recovery_items, items. rewrite Hp by done.
  eapply Forall_impl; [apply Hj|]. intros it. by apply recovery_item_sent.
Qed.

Lemma fatal_item s : recovery_item localId s (Ready PGRES_FATAL_ERROR).
Proof. intros y f H. by apply elem_of_nil in H. Qed.

Lemma rec_push s i it : (forall j, recovery_items localId s t j) -> recovery_item localId s it ->
  forall j, recovery_items localId (push t i it s) t j.
Proof.
  intros Hw Hit j. apply (recovery_items_pipe s _ i); try done; [intros; unfold push; apply pipe_with_other; congruence|].
  unfold items, push. rewrite pipe_with_same. apply Forall_app. split; [apply Hw|by repeat constructor].
Qed.

Lemma rec_abandon s i extra p' : (forall j, recovery_items localId s t j) ->
  (forall n, Forall (recovery_item localId s) (pi_items (p' n))) -> forall j, recovery_items localId (abandon t i extra p' s) t j.
Proof.
  intros Hw Hp j. apply (recovery_items_pipe s _ i); try done; [intros; unfold abandon; rewrite pipe_with_other by congruence; done|].
  unfold items, abandon. rewrite pipe_with_same. apply Hp.
Qed.

Lemma rec_get s i r s' : (forall j, recovery_items localId s t j) -> get_result t i s r s' ->
  (forall j, recovery_items localId s' t j) /\ (forall a, r = Some a -> rows_asked s' a).
Proof.
  intros Hw H. pose proof (Hw i) as Hi. unfold recovery_items, items in Hi. unfold get_result in H.
  destruct (pi_due _).
  { destruct H as [-> ->]. split; [|done]. intros j. apply (recovery_items_pipe s _ i); try done; [intros; apply pipe_with_other; congruence|].
    unfold items. by rewrite pipe_with_same. }
  destruct (pi_items _) as [|it l]; [destruct H as [-> ->]; by split|]. apply Forall_cons in Hi as [Hit Hl].
  destruct H as [(a & -> & -> & ->)|(_ & -> & ->)].
  - split; [|intros a' [= <-]; exact Hit]. intros j.
    apply (recovery_items_pipe s _ i); try done; [intros; apply pipe_with_other; congruence|]. unfold items. by rewrite pipe_with_same.
  - split; [|intros a' [= <-]; apply fatal_item]. intros j. by apply rec_abandon.
Qed.

Lemma rec_relink l s : (forall j, recovery_items localId s t j) -> forall j, recovery_items localId (foldl (relink t) s l) t j.
Proof.
  revert s. induction l as [|[i k] l IH]; intros s Hw; cbn [foldl]; [done|]. apply IH. unfold relink. cbn [fst snd].
  destruct k; [done|..]; by apply rec_abandon.
Qed.

Lemma relink_sent l s : sy_sent (foldl (relink t) s l) = sy_sent s.
Proof. revert s. induction l as [|[j k] l IH]; intros s; cbn; [done|]. rewrite IH. by destruct k. Qed.

(** A call of libpq keeps it. *)
Lemma world_ev e s r s' :
  libpq_event e = true -> match e with PQsendQuery i q => rquery s i q | _ => True end -> libpq_frame localId t x s s' ->
  world s -> ev t x e s r s' -> world s'.
Proof.
  intros He Hq HF [H1 H2 H3] Hev.
  assert ((forall j, recovery_items localId s' t j) /\
          (forall j f, (j, Sql (prepare_sql (G x f))) ∈ sy_sent s' -> (j, Sql (prepare_sql (G x f))) ∈ sy_sent s)) as [Hi Hs].
  { destruct e as [i q|i|i|ids| | | | | | | | | ]; try done; cbn [ev] in Hev.
    - split; cycle 1.
      { intros j f. destruct Hev as [(_ & _ & ->)|(_ & extra & _ & ->)]; cbn; (intros [E|?]%elem_of_cons; [|done]); exfalso;
          eapply (rquery_not_prepare s i q (G x f)); try done; congruence. }
      destruct Hev as [(_ & _ & ->)|(_ & extra & _ & ->)].
      + intros j. eapply Forall_impl; [apply (rec_push s i (Todo (Some q)) H3); by eapply rquery_item|].
        intros it. apply recovery_item_sent. by right.
      + intros j. eapply Forall_impl; [apply (rec_abandon s i extra _ H3)|intros it; apply recovery_item_sent; by right].
        intros n. repeat constructor. apply fatal_item.
    - destruct Hev as [(_ & _ & ->)|(_ & ->)]; (split; [|done]); [by apply rec_push|].
      apply rec_abandon; [done|]. intros n. repeat constructor. apply fatal_item.
    - split; [by destruct (rec_get s i r s' H3 Hev)|]. by rewrite (get_result_sent _ _ _ _ _ Hev).
    - destruct Hev as (_ & _ & ->). split; [by apply rec_relink|]. by rewrite relink_sent. }
  split; [by rewrite (lf_decided _ _ _ _ _ HF)| |done]. intros j f Ha. apply (H2 j f). by apply Hs.
Qed.

Lemma rows_asked_lasting a : lasting (fun s => rows_asked s a).
Proof. intros s s' H Hr y f Hin. destruct (Hr y f Hin) as [j Hj]. exists j. by apply (on_sent _ _ H). Qed.

(** ** Sending and waiting *)

(** The process has no transaction on any connection. *)
Record idle b : Prop := {
  id_gid : be_gid b = EmptyString;
  id_inserted : be_inserted b = [];
  id_localWrite : be_localWrite b = false;
  id_states i : state_of b i = FALCON_REMOTE_TRANSACTION_NONE;
}.

Lemma idle_writers b l : idle b -> filter (fun i => is_writer b i = true) l = [].
Proof.
  intros Hi. induction l as [|i l IH]; [done|]. rewrite filter_cons_False; [done|]. unfold is_writer. by rewrite (id_states _ Hi).
Qed.

Definition rdata s (p : Z * RemoteConnectionCommandData) : Prop :=
  commandFlag p.2 = 0 /\ Forall (fun c => rquery s p.1 (command_query c)) (remoteCommandList p.2).

Definition facts b s : Prop :=
  (forall c i d, be_cache b = Some c -> c !! i = Some d -> rdata s (i, d)) /\
  (forall i y f, (i, G y f) ∈ be_deleted b -> st s i (G y f) = Committed).

Lemma rdata_lasting p : lasting (fun s => rdata s p).
Proof. intros s s' H [Hf Hq]. split; [done|]. eapply Forall_impl; [exact Hq|]. intros c. by apply (rquery_lasting _ _ s). Qed.

Lemma facts_lasting b : lasting (facts b).
Proof.
  intros s s' H [H1 H2]. split.
  - intros c i d Ec Hd. apply (rdata_lasting _ s s' H). by eapply H1.
  - intros i y f Hin. apply (committed_lasting _ _ s s' H). auto.
Qed.

(** [P] is what else is known. *)
Section Sending.
Context (P : sys -> Prop) (HP : lasting P).

Record Ri b s : Prop := { ri_world : world s; ri_idle : idle b; ri_facts : facts b s; ri_more : P s }.

Lemma Ri_rely b s s' : Rely s s' -> Ri b s -> Ri b s'.
Proof.
  intros HR [H1 H2 H3 H4]. pose proof (Onward_rely _ _ HR) as Ho. split; [by eapply world_rely|done|by apply (facts_lasting b s s')|by apply (HP s s')].
Qed.

Lemma Ri_frame b e s r s' :
  libpq_event e = true -> match e with PQsendQuery i q => rquery s i q | _ => True end -> libpq_frame localId t x s s' ->
  ev t x e s r s' -> Ri b s -> Ri b s'.
Proof.
  intros He Hq HF Hev [H1 H2 H3 H4]. pose proof (Onward_frame _ _ HF) as Ho.
  split; [by apply (world_ev e s r s')|done|by apply (facts_lasting b s s')|by apply (HP s s')].
Qed.

(** A call of libpq. *)
Lemma hwp_rcall e b Q s :
  libpq_event e = true -> (forall s', Onward s s' -> match e with PQsendQuery i q => rquery s' i q | _ => True end) -> Ri b s ->
  (forall r s', Inv s' -> Onward s s' -> Ri b s' -> Q (inr r) b s') -> hwp (emit e) b Q s.
Proof.
  intros He Hq Hs HQ. apply hwp_libpq; [done|]. intros s1 H1 HI1. specialize (Hq s1 (Onward_rely _ _ H1)). split.
  { destruct e; try done. by apply rquery_allowed. }
  intros r s2 Hev HF HI2 s3 H3 HI3. apply HQ; [done| |].
  - eapply Onward_trans; [by apply Onward_rely|]. eapply Onward_trans; [by apply Onward_frame|by apply Onward_rely].
  - eapply Ri_rely; [exact H3|]. apply (Ri_frame b e s1 r s2); try done. by eapply Ri_rely.
Qed.

Lemma hwp_rget i b Q s :
  Ri b s -> (forall r s', Inv s' -> Onward s s' -> Ri b s' -> (forall a, r = Some a -> rows_asked s' a) -> Q (inr r) b s') ->
  hwp (emit (PQgetResult i)) b Q s.
Proof.
  intros Hs HQ. apply hwp_libpq; [done|]. intros s1 H1 HI1. split; [done|]. intros r s2 Hev HF HI2 s3 H3 HI3.
  pose proof (Ri_rely _ _ _ H1 Hs) as Hs1. apply HQ; [done| |eapply Ri_rely; [exact H3|]; by apply (Ri_frame b (PQgetResult i) s1 r s2)|].
  { eapply Onward_trans; [by apply Onward_rely|]. eapply Onward_trans; [by apply Onward_frame|by apply Onward_rely]. }
  intros a Ha. apply (rows_asked_lasting a s2 s3); [by apply Onward_rely|]. by apply (rec_get s1 i r s2 (wo_items _ (ri_world _ _ Hs1))).
Qed.

(** ClearPGresultInPGconn. *)
Definition but i b s : Prop :=
  (sy_decided s !! x = None /\ (forall j f, ~ asked s j (G x f)) /\ (forall j, j <> i -> recovery_items localId s t j)) /\
  facts b s /\ P s.

Lemma but_elsewhere i b : elsewhere localId t x true i (but i b).
Proof.
  intros s s' HN [(H1 & H2 & H3) [H4 H5]]. pose proof (Onward_near _ _ _ HN) as Ho.
  split_and!; [| | |by apply (facts_lasting b s s')|by apply (HP s s')].
  - by rewrite (near_own _ _ _ _ _ _ _ HN).
  - intros j f. by rewrite (near_asked _ _ _ _ _ _ _ HN).
  - intros j Hj. apply (kept_recovery _ _ _ _ _ (near_pipe _ _ _ _ _ _ _ HN j Hj)). auto.
Qed.

Lemma hwp_rclear i b Q s :
  Ri b s ->
  (forall u s', Inv s' -> Onward s s' -> Ri b s' -> items s' t i = [] -> pi_due (sy_pipes s' t i) = false -> Q (inr u) b s') ->
  hwp (ClearPGresultInPGconn fuel i) b Q s.
Proof.
  intros [[H1 H2 H3] Hid Hf Hp] HQ.
  apply (hwp_clear localId t x true fuel i false b (fun s' => but i b s' /\ Onward s s') False); [| |done|].
  { intros s1 s2 HN [Hb Ho]. split; [by eapply but_elsewhere|]. eapply Onward_trans; [exact Ho|by eapply Onward_near]. }
  { split; [by split_and!|apply Onward_refl]. }
  intros u s1 HI1 [[(D1 & D2 & D3) [D4 D5]] Ho] Hi Hd _. apply HQ; try done. split; try done. split; try done.
  intros j. destruct (decide (j = i)) as [->|Hj]; [|auto]. unfold recovery_items. rewrite Hi. constructor.
Qed.

Lemma hwp_rthrow {A : Type} e b (Q : FalconErrorCode + A -> backend -> sys -> Prop) s :
  Ri b s -> (forall e' s', Inv s' -> Ri b s' -> Q (inl e') b s') -> hwp (throw e) b Q s.
Proof. intros Hs HE. apply hwp_throw. intros s1 H1 HI1. apply HE; [done|]. by eapply Ri_rely. Qed.

Lemma hwp_runless c e b (Q : FalconErrorCode + unit -> backend -> sys -> Prop) s :
  Ri b s -> (forall s', Inv s' -> Onward s s' -> Ri b s' -> Q (inr tt) b s') -> (forall e' s', Inv s' -> Ri b s' -> Q (inl e') b s') ->
  hwp (throw_unless c e) b Q s.
Proof.
  intros Hs HQ HE. unfold throw_unless. destruct c; [|by eapply hwp_rthrow].
  apply hwp_ret. intros s1 H1 HI1. apply HQ; [done|by apply Onward_rely|by eapply Ri_rely].
Qed.

Lemma hwp_rsend_commands i cs b Q s :
  Forall (fun c => rquery s i (command_query c)) cs -> Ri b s ->
  (forall s', Inv s' -> Onward s s' -> Ri b s' -> Q (inr tt) b s') -> (forall e s', Inv s' -> Ri b s' -> Q (inl e) b s') ->
  hwp (send_commands i cs) b Q s.
Proof.
  revert s. induction cs as [|c cs IH]; intros s Hcs Hs HQ HE; cbn [send_commands].
  { apply hwp_ret. intros s1 H1 HI1. apply HQ; [done|by apply Onward_rely|by eapply Ri_rely]. }
  apply Forall_cons in Hcs as [Hc Hcs]. apply hwp_bind, hwp_rcall; [done| |done|].
  { intros s1 H1. by apply (rquery_lasting _ _ s s1). }
  intros ok s1 HI1 O1 Hs1. apply hwp_bind, hwp_runless; [done| |done]. intros s2 HI2 O2 Hs2.
  assert (Onward s s2) as O by (by eapply Onward_trans). apply IH; try done.
  - eapply Forall_impl; [exact Hcs|]. intros c' Hc'. by apply (rquery_lasting _ _ s s2).
  - intros s3 HI3 O3 Hs3. apply HQ; [done|by eapply Onward_trans|done].
Qed.

(** The state of the backend after a server was sent its commands. *)
Lemma Ri_after b i d s : commandFlag d = 0 -> Ri b s -> Ri (cache_after (with_state b i d) i d) s.
Proof.
  intros Hd [H1 [I1 I2 I3 I4] [F1 F2] H4]. split; try done.
  - split; try done. intros j. change (state_of (with_state b i d) j = FALCON_REMOTE_TRANSACTION_NONE).
    rewrite state_with_state. destruct (decide _) as [->|]; [|done]. by rewrite I4, Hd.
  - split; [|done]. intros c j d' E Hj. unfold cache_after, with_state in E. cbn in E. destruct (be_cache b) as [c0|] eqn:Ec; [|done].
    injection E as <-. destruct (decide (i = j)) as [->|Hne].
    + rewrite lookup_insert_eq in Hj. injection Hj as <-. split; [done|constructor].
    + rewrite lookup_insert_ne in Hj by done. by apply (F1 c0 j).
Qed.

Lemma hwp_rsend_server i d b Q s :
  rdata s (i, d) -> Ri b s ->
  (forall s', Inv s' -> Onward s s' -> let b' := cache_after (with_state b i d) i d in Ri b' s' -> Q (inr false) b' s') ->
  (forall e s', Inv s' -> Ri b s' -> Q (inl e) b s') ->
  hwp (send_server fuel i d) b Q s.
Proof.
  intros [Hd Hq] Hs HQ HE. unfold send_server. cbn [fst snd] in *.
  apply hwp_bind, hwp_rclear; [done|]. intros u s1 HI1 O1 Hs1 _ _. apply hwp_self_bind.
  assert (needs_begin b i (commandFlag d) = false) as -> by (unfold needs_begin; rewrite Hd; cbn; apply andb_false_r).
  apply hwp_ret_bind, hwp_bind, hwp_rsend_commands; [|done| |done].
  { eapply Forall_impl; [exact Hq|]. intros c' Hc'. by apply (rquery_lasting _ _ s s1). }
  intros s2 HI2 O2 Hs2. apply hwp_bind, hwp_rcall; [done|done|done|]. intros ok s3 HI3 O3 Hs3.
  apply hwp_bind, hwp_runless; [done| |done]. intros s4 HI4 O4 Hs4. apply hwp_change_bind, hwp_change_bind, hwp_ret.
  intros s5 H5 HI5. apply HQ; [done| |].
  - eapply Onward_trans; [exact O1|]. eapply Onward_trans; [exact O2|]. eapply Onward_trans; [exact O3|].
    eapply Onward_trans; [exact O4|by apply Onward_rely].
  - apply Ri_after; [done|]. by eapply Ri_rely.
Qed.

(** What is still to be sent. *)
Definition drained_but (l : list Z) b : Prop :=
  forall c i d, be_cache b = Some c -> c !! i = Some d -> i ∉ l -> remoteCommandList d = [].

Lemma hwp_rsend_servers l b Q s :
  Forall (rdata s) l -> Ri b s -> drained_but l.*1 b ->
  (forall b' s', Inv s' -> Ri b' s' -> be_deleted b' = be_deleted b -> drained_but [] b' -> Q (inr ((fun p => (p.1, false)) <$> l)) b' s') ->
  (forall e b' s', Inv s' -> Ri b' s' -> Q (inl e) b' s') ->
  hwp (send_servers fuel l) b Q s.
Proof.
  revert b s Q. induction l as [|[i d] l IH]; intros b s Q Hl Hs Hdr HQ HE; cbn [send_servers].
  { apply hwp_ret. intros s1 H1 HI1. apply HQ; try done. by eapply Ri_rely. }
  apply Forall_cons in Hl as [Hd Hl]. apply hwp_bind, hwp_rsend_server; [done|done| |auto].
  intros s1 HI1 O1 b1 Hs1. apply hwp_bind, IH; try done.
  - eapply Forall_impl; [exact Hl|]. intros p. by apply (rdata_lasting p s s1).
  - intros c j d' E Hj Hn. unfold b1, cache_after, with_state in E. cbn in E. destruct (be_cache b) as [c0|] eqn:Ec; [|done].
    injection E as <-. destruct (decide (i = j)) as [->|Hne].
    + rewrite lookup_insert_eq in Hj. by injection Hj as <-.
    + rewrite lookup_insert_ne in Hj by done. apply (Hdr c0 j d'); [done|done|]. cbn. intros [?|?]%elem_of_cons; congruence.
  - intros b2 s2 HI2 Hs2 Hdel Hdr2. apply hwp_ret. intros s3 H3 HI3. apply HQ; try done. by eapply Ri_rely.
Qed.

(** The rows that come back are names of transactions that were prepared somewhere. *)
Lemma hwp_rreceive_results n i b Q s :
  Ri b s ->
  (forall res s', Inv s' -> Onward s s' -> Ri b s' -> Forall (rows_asked s') res -> Q (inr res) b s') ->
  (forall e s', Inv s' -> Ri b s' -> Q (inl e) b s') ->
  hwp (receive_results n i) b Q s.
Proof.
  revert s Q. induction n as [|n IH]; intros s Q Hs HQ HE; cbn [receive_results]; [done|].
  apply hwp_bind, hwp_rget; [done|]. intros [r|] s1 HI1 O1 Hs1 Hr; [|by eapply hwp_rthrow].
  assert (hwp (r2 ← emit (PQgetResult i); _ ← throw_unless (bool_decide (r2 = None)) PROGRAM_ERROR;
      rest ← receive_results n i; mret (r :: rest)) b Q s1) as Hok.
  { apply hwp_bind, (hwp_rcall (PQgetResult i)); [done|done|done|]. intros r2 s2 HI2 O2 Hs2. apply hwp_bind, hwp_runless; [done| |done].
    intros s3 HI3 O3 Hs3. apply hwp_bind, IH; [done| |done].
    intros res s4 HI4 O4 Hs4 Hres. apply hwp_ret. intros s5 H5 HI5. pose proof (Onward_rely _ _ H5) as O5.
    assert (Onward s1 s5) as O by (eapply Onward_trans; [exact O2|]; eapply Onward_trans; [exact O3|]; by eapply Onward_trans).
    apply HQ; [done|by eapply Onward_trans|by eapply Ri_rely|]. constructor.
    - apply (rows_asked_lasting r s1 s5 O). auto.
    - eapply Forall_impl; [exact Hres|]. intros a. by apply (rows_asked_lasting a s4 s5). }
  destruct r; cbn [is_ok]; try done; try (by eapply hwp_rthrow).
  apply hwp_bind, (hwp_rcall (PQgetResult i)); [done|done|done|]. intros r2 s2 HI2 O2 Hs2. apply hwp_bind, hwp_runless; [done| |done].
  intros s3 HI3 O3 Hs3. apply hwp_ret. intros s4 H4 HI4. apply HQ; [done| |by eapply Ri_rely|constructor].
  eapply Onward_trans; [exact O1|]. eapply Onward_trans; [exact O2|]. eapply Onward_trans; [exact O3|by apply Onward_rely].
Qed.

Lemma hwp_rreceive_servers (ids : list Z) b Q s :
  Ri b s ->
  (forall res s', Inv s' -> Onward s s' -> Ri b s' -> Forall (fun p => Forall (rows_asked s') p.2) res -> Q (inr res) b s') ->
  (forall e s', Inv s' -> Ri b s' -> Q (inl e) b s') ->
  hwp (receive_servers fuel ((fun i => (i, false)) <$> ids)) b Q s.
Proof.
  revert s Q. induction ids as [|i ids IH]; intros s Q Hs HQ HE; cbn [receive_servers fmap list_fmap].
  { apply hwp_ret. intros s1 H1 HI1. apply HQ; [done|by apply Onward_rely|by eapply Ri_rely|constructor]. }
  apply hwp_bind. unfold receive_server. apply hwp_ret_bind, hwp_rreceive_results; [done| |done].
  intros res s1 HI1 O1 Hs1 Hres. apply hwp_bind, IH; [done| |done]. intros rest s2 HI2 O2 Hs2 Hrest.
  apply hwp_ret. intros s3 H3 HI3. pose proof (Onward_rely _ _ H3) as O3.
  apply HQ; [done|eapply Onward_trans; [exact O1|]; by eapply Onward_trans|by eapply Ri_rely|]. constructor.
  - eapply Forall_impl; [exact Hres|]. intros a. apply (rows_asked_lasting a s1 s3). by eapply Onward_trans.
  - eapply Forall_impl; [exact Hrest|]. intros p Hp. eapply Forall_impl; [exact Hp|]. intros a. by apply (rows_asked_lasting a s2 s3).
Qed.

Lemma hwp_rconnections ids b Q s :
  Ri b s ->
  (forall b' s', Inv s' -> Ri b' s' -> calmed b b' -> Q (inr tt) b' s') ->
  (forall e b' s', Inv s' -> Ri b' s' -> calmed b b' -> Q (inl e) b' s') ->
  hwp (get_connections ids) b Q s.
Proof.
  intros Hs HQ HE. unfold get_connections. apply hwp_bind, (hwp_rcall (Connect ids)); [done|done|done|].
  intros [l raised] s1 HI1 O1 Hs1. cbn [fst snd]. pose proof (calmed_linked b l) as Hc.
  apply hwp_change_bind. set (b1 := set_manager _ b) in *.
  assert (Ri b1 s1) as Hs1'.
  { destruct Hs1 as [H1 [I1 I2 I3 I4] H3 H4]. split; try done. split; try done. intros i.
    destruct (ca_states _ _ Hc i) as [->| ->]; [apply I4|done]. }
  apply hwp_bind, hwp_runless; [done| |auto]. intros s2 HI2 O2 Hs2. apply hwp_self_bind, hwp_runless; auto.
Qed.

(** FalconSendCommandAndWaitForResult. *)
Lemma hwp_rsend b Q s :
  Ri b s ->
  (forall res b' s', Inv s' -> Ri b' s' -> be_deleted b' = be_deleted b -> drained_but [] b' ->
     Forall (fun p => Forall (rows_asked s') p.2) res -> Q (inr res) b' s') ->
  (forall e b' s', Inv s' -> Ri b' s' -> Q (inl e) b' s') ->
  hwp (FalconSendCommandAndWaitForResult fuel cache_seq) b Q s.
Proof.
  intros Hs HQ HE. unfold FalconSendCommandAndWaitForResult. apply hwp_self_bind. destruct (be_cache b) as [c|] eqn:Ec; [|done].
  apply hwp_bind, hwp_rconnections; [done| |auto]. intros b1 s1 HI1 Hs1 Hc. pose proof (ca_cache _ _ Hc) as Ec1.
  apply hwp_bind, hwp_rsend_servers; [|done| | |done].
  - apply Forall_forall. intros [i d] (_ & Hd & _)%elem_of_unsent. apply (ri_facts _ _ Hs1) with c; congruence.
  - intros c' i d E Hd Hn. assert (c' = c) as -> by congruence. destruct (remoteCommandList d) eqn:El; [done|].
    destruct Hn. apply list_elem_of_fmap. exists (i, d). split; [done|]. apply list_elem_of_omap. exists i.
    split; [apply cache_seq_all; eauto|]. by rewrite Hd, El.
  - intros b2 s2 HI2 Hs2 Hdel Hdr.
    assert ((fun p : Z * RemoteConnectionCommandData => (p.1, false)) <$> unsent cache_seq c =
      (fun i : Z => (i, false)) <$> (unsent cache_seq c).*1) as -> by (by rewrite <- list_fmap_compose).
    apply hwp_rreceive_servers; [done| |auto]. intros res s3 HI3 O3 Hs3 Hres.
    apply HQ; try done. rewrite Hdel. apply Hc.
Qed.

(** A command for one server. *)
Lemma Ri_append text i b s :
  rquery s i (Sql text) -> Ri b s ->
  Ri (set_commands (Some (append_command (PlainCommand text) REMOTE_COMMAND_FLAG_NO_BEGIN (default ∅ (be_cache b)) i)) b) s.
Proof.
  intros Hq [H1 [I1 I2 I3 I4] [F1 F2] H4]. split; try done. split; [|done].
  assert (forall j d, default ∅ (be_cache b) !! j = Some d -> rdata s (j, d)) as F.
  { intros j d. destruct (be_cache b) as [c|] eqn:Ec; cbn; [by eapply F1|by rewrite lookup_empty]. }
  intros c j d [= <-]. unfold append_command. destruct (decide (i = j)) as [->|Hne]; [|rewrite lookup_insert_ne by done; apply F].
  rewrite lookup_insert_eq. intros [= <-]. destruct (default ∅ (be_cache b) !! j) as [d'|] eqn:Ed; cbn.
  - destruct (F j d' Ed) as [Hf Hl]. cbn in *. split; cbn; [by rewrite Hf|]. apply Forall_app. split; [done|by apply Forall_singleton].
  - split; cbn; [done|by apply Forall_singleton].
Qed.

Lemma hwp_get_prepared i b Q s :
  Ri b s ->
  (forall A b' s', Inv s' -> Ri b' s' -> be_deleted b' = be_deleted b -> drained_but [] b' ->
     (forall y f, G y f ∈ A -> exists j, asked s' j (G y f)) -> Q (inr A) b' s') ->
  (forall e b' s', Inv s' -> Ri b' s' -> Q (inl e) b' s') ->
  hwp (GetRemotePreparedTransactionSet fuel cache_seq localId i) b Q s.
Proof.
  intros Hs HQ HE. unfold GetRemotePreparedTransactionSet. apply hwp_bind, hwp_change. intros s1 H1 HI1.
  apply hwp_bind, hwp_rsend; [apply Ri_append; [by left|by eapply Ri_rely]| |done].
  intros res b2 s2 HI2 Hs2 Hdel Hdr Hres. destruct res as [|[j [|a rest]] res]; [done..|].
  apply hwp_ret. intros s3 H3 HI3. apply HQ; try done; [by eapply Ri_rely|].
  intros y f Hin. apply elem_of_list_to_set in Hin. apply Forall_cons in Hres as [Ha _]. cbn in Ha. apply Forall_cons in Ha as [Ha _].
  destruct (Ha y f Hin) as [k Hk]. exists k. by apply (rely_sent _ _ _ _ _ _ H3).
Qed.

(** ** Asking again: what is not there any more is finished *)

Definition known_there i (known : list string) s : Prop := forall y f, G y f ∈ known -> st s i (G y f) <> Unprepared.

Lemma known_lasting i known : lasting (known_there i known).
Proof. intros s s' H Hk y f Hin. eapply status_le_known; [apply (on_status _ _ H)|]. auto. Qed.

Definition gone i (known : list string) (a : PGresult) s : Prop :=
  forall y f, G y f ∈ known -> G y f ∉ rows_of a -> finished localId s i (G y f).

Lemma gone_lasting i known a : lasting (gone i known a).
Proof. intros s s' H Hk y f Hin Hn. eapply finished_le; [apply (on_status _ _ H)|]. auto. Qed.

(** One question is under way on the connection. *)
Definition asking i known b s : Prop :=
  Ri b s /\ pi_due (sy_pipes s t i) = false /\ selecting localId known s t i.

Lemma asking_rely i known b s s' : Rely s s' -> asking i known b s -> asking i known b s'.
Proof.
  intros HR (H1 & H2 & H3). split_and!; [by eapply Ri_rely|by rewrite (due_rely _ _ _ _ _ _ _ HR)|].
  by apply (kept_selecting _ _ _ _ _ (rely_pipe _ _ _ _ _ _ HR i)).
Qed.

Lemma hwp_ask i known b Q s :
  Ri b s -> items s t i = [] -> pi_due (sy_pipes s t i) = false -> known_there i known s ->
  (forall s', Inv s' -> asking i known b s' -> Q (inr tt) b s') -> (forall e s', Inv s' -> Ri b s' -> Q (inl e) b s') ->
  hwp (send_commands i [PlainCommand (select_sql localId)]) b Q s.
Proof.
  intros Hs Hi Hd Hk HQ HE. cbn [send_commands command_query]. apply hwp_bind, hwp_libpq; [done|]. intros s1 H1 HI1.
  assert (rquery s1 i (Sql (select_sql localId))) as Hq by (by left). split; [by apply rquery_allowed|].
  intros r s2 Hev HF HI2 s3 H3 HI3.
  assert (Ri b s3) as Hs3.
  { eapply Ri_rely; [exact H3|]. apply (Ri_frame b (PQsendQuery i (Sql (select_sql localId))) s1 r s2); try done. by eapply Ri_rely. }
  destruct Hev as [(-> & _ & ->)|(-> & _)]; cycle 1.
  { by apply hwp_bind, hwp_rthrow. }
  apply hwp_bind, hwp_ret. intros s4 H4 _. apply hwp_ret. intros s5 H5 HI5. apply HQ; [done|].
  eapply asking_rely; [exact H5|]. eapply asking_rely; [exact H4|]. split; [done|].
  assert (pi_due (sy_pipes s1 t i) = false) as Hd1 by (by rewrite (due_rely _ _ _ _ _ _ _ H1)).
  split; [rewrite (due_rely _ _ _ _ _ _ _ H3); cbn -[push]; unfold push; by rewrite pipe_with_same|].
  apply (kept_selecting _ _ _ _ _ (rely_pipe _ _ _ _ _ _ H3 i)). split.
  - apply (known_lasting i known s1); [by apply Onward_frame|]. apply (known_lasting i known s); [by apply Onward_rely|done].
  - exists []. left. unfold items. cbn -[push]. unfold push. rewrite pipe_with_same. cbn.
    change (pi_items (sy_pipes s1 t i)) with (items s1 t i). by rewrite (items_rely _ _ _ _ _ _ _ H1 Hi).
Qed.

Lemma hwp_ask_sync i known b Q s :
  asking i known b s ->
  (forall s', Inv s' -> asking i known b s' -> Q (inr true) b s') -> (forall s', Inv s' -> Ri b s' -> Q (inr false) b s') ->
  hwp (emit (PQpipelineSync i)) b Q s.
Proof.
  intros Hs HQ HE. apply hwp_libpq; [done|]. intros s1 H1 HI1. split; [done|]. intros r s2 Hev HF HI2 s3 H3 HI3.
  destruct (asking_rely _ _ _ _ _ H1 Hs) as (A1 & A2 & A3).
  assert (Ri b s2) as Hs2 by (by apply (Ri_frame b (PQpipelineSync i) s1 r s2)).
  destruct Hev as [(-> & _ & ->)|(-> & ->)]; [apply HQ|apply HE]; try done; [|by eapply Ri_rely].
  eapply asking_rely; [exact H3|]. split; [done|]. unfold push at 1. rewrite pipe_with_same. split; [done|].
  destruct A3 as (B1 & rest & B2). split; [done|]. exists (rest ++ [Todo None]).
  unfold items in *. unfold push. rewrite pipe_with_same. cbn.
  destruct B2 as [->|(a & -> & Ha)]; [by left|right]. by exists a.
Qed.

Lemma hwp_ask_get i known b Q s :
  asking i known b s ->
  (forall a s', Inv s' -> Ri b s' -> rows_asked s' a -> (is_ok a = true -> gone i known a s') -> Q (inr (Some a)) b s') ->
  hwp (emit (PQgetResult i)) b Q s.
Proof.
  intros Hs HQ. apply hwp_libpq; [done|]. intros s1 H1 HI1. split; [done|]. intros r s2 Hev HF HI2 s3 H3 HI3.
  destruct (asking_rely _ _ _ _ _ H1 Hs) as (A1 & A2 & A3).
  assert (Ri b s3) as Hs3 by (eapply Ri_rely; [exact H3|]; by apply (Ri_frame b (PQgetResult i) s1 r s2)).
  destruct (rec_get s1 i r s2 (wo_items _ (ri_world _ _ A1)) Hev) as [_ Hrows].
  assert (exists a, r = Some a /\ (is_ok a = true -> gone i known a s2)) as (a & -> & Ha).
  { cbn in Hev. unfold get_result in Hev. rewrite A2 in Hev. destruct A3 as (B1 & rest & B2). unfold items in B2.
    destruct B2 as [E|(a & E & Hg)]; rewrite E in Hev; destruct Hev as [(a' & [=] & -> & ->)|(_ & -> & ->)].
    - by exists PGRES_FATAL_ERROR.
    - exists a'. subst a'. done.
    - by exists PGRES_FATAL_ERROR. }
  pose proof (Onward_rely _ _ H3) as O3. apply HQ; try done; [apply (rows_asked_lasting a s2 s3 O3); auto|].
  intros Hok. apply (gone_lasting i known a s2 s3 O3). auto.
Qed.

Lemma hwp_ask_receive n i known b Q s :
  asking i known b s ->
  (forall res s', Inv s' -> Ri b s' -> (forall a rest, res = a :: rest -> rows_asked s' a /\ gone i known a s') -> Q (inr res) b s') ->
  (forall e s', Inv s' -> Ri b s' -> Q (inl e) b s') ->
  hwp (receive_results n i) b Q s.
Proof.
  intros Hs HQ HE. destruct n as [|n]; cbn [receive_results]; [done|].
  apply hwp_bind, (hwp_ask_get i known); [done|]. intros r s1 HI1 Hs1 Hr Hg.
  assert (is_ok r = true -> hwp (r2 ← emit (PQgetResult i); _ ← throw_unless (bool_decide (r2 = None)) PROGRAM_ERROR;
      rest ← receive_results n i; mret (r :: rest)) b Q s1) as Hok.
  { intros Ho. apply hwp_bind, (hwp_rcall (PQgetResult i)); [done|done|done|]. intros r2 s2 HI2 O2 Hs2.
    apply hwp_bind, hwp_runless; [done| |done]. intros s3 HI3 O3 Hs3. apply hwp_bind, hwp_rreceive_results; [done| |done].
    intros res s4 HI4 O4 Hs4 _. apply hwp_ret. intros s5 H5 HI5. pose proof (Onward_rely _ _ H5) as O5.
    assert (Onward s1 s5) as O by (eapply Onward_trans; [exact O2|]; eapply Onward_trans; [exact O3|]; by eapply Onward_trans).
    apply HQ; [done|by eapply Ri_rely|]. intros a rest [= -> ->].
    split; [apply (rows_asked_lasting a s1 s5 O)|apply (gone_lasting i known a s1 s5 O)]; auto. }
  destruct r; cbn [is_ok] in *; try (by apply Hok); try (by eapply hwp_rthrow).
  apply hwp_bind, (hwp_rcall (PQgetResult i)); [done|done|done|]. intros r2 s2 HI2 O2 Hs2. apply hwp_bind, hwp_runless; [done| |done].
  intros s3 HI3 O3 Hs3. apply hwp_ret. intros s4 H4 HI4. apply HQ; [done|by eapply Ri_rely|done].
Qed.

Lemma hwp_ask_server i known b Q s :
  let d := mkCommandData 0 [PlainCommand (select_sql localId)] in
  let b' := cache_after (with_state b i d) i d in
  Ri b s -> (forall s', P s' -> known_there i known s') ->
  (forall s', Inv s' -> asking i known b' s' -> Q (inr false) b' s') ->
  (forall e s', Inv s' -> Ri b s' -> Q (inl e) b s') ->
  hwp (send_server fuel i d) b Q s.
Proof.
  intros d b' Hs Hk HQ HE. unfold send_server. apply hwp_bind, hwp_rclear; [done|]. intros u s1 HI1 _ Hs1 Hi1 Hd1. apply hwp_self_bind.
  assert (needs_begin b i (commandFlag d) = false) as -> by (unfold needs_begin; apply andb_false_r).
  apply hwp_ret_bind, hwp_bind, (hwp_ask i known); [done|done|done|apply Hk, Hs1| |done].
  intros s2 HI2 Hs2. apply hwp_bind, (hwp_ask_sync i known); [done| |].
  - intros s3 HI3 Hs3. apply hwp_bind, hwp_ret. intros s4 H4 _. apply hwp_change_bind, hwp_change_bind, hwp_ret. intros s5 H5 HI5.
    apply HQ; [done|]. destruct (asking_rely _ _ _ _ _ H5 (asking_rely _ _ _ _ _ H4 Hs3)) as (? & ? & ?).
    split_and!; [by apply Ri_after|done|done].
  - intros s3 HI3 Hs3. by apply hwp_bind, hwp_rthrow.
Qed.

Lemma unsent_drained text c i :
  (forall j d, c !! j = Some d -> commandFlag d = 0 /\ remoteCommandList d = []) ->
  unsent cache_seq (append_command (PlainCommand text) REMOTE_COMMAND_FLAG_NO_BEGIN c i) =
    [(i, mkCommandData 0 [PlainCommand text])].
Proof.
  intros Hc. set (d := mkCommandData _ _).
  assert (append_command (PlainCommand text) REMOTE_COMMAND_FLAG_NO_BEGIN c i = <[i := d]> c) as ->.
  { unfold append_command. f_equal. destruct (c !! i) as [d'|] eqn:E; cbn; [|done]. destruct (Hc i d' E) as [-> ->]. done. }
  apply Permutation_singleton_r, NoDup_Permutation; [eapply NoDup_fmap_1, unsent_NoDup, cache_seq_NoDup|apply NoDup_singleton|].
  intros [j d']. rewrite list_elem_of_singleton. split.
  - intros (_ & Hd & Hne)%elem_of_unsent. destruct (decide (i = j)) as [->|Hj].
    + rewrite lookup_insert_eq in Hd. congruence.
    + rewrite lookup_insert_ne in Hd by done. destruct Hne. by apply (Hc j d').
  - intros [= -> ->]. apply list_elem_of_omap. exists i. rewrite lookup_insert_eq. split; [|done].
    apply cache_seq_all. rewrite lookup_insert_eq. eauto.
Qed.

(** GetRemotePreparedTransactionSet when nothing else is waiting to be sent. *)
Lemma hwp_get_prepared_again i known b Q s :
  Ri b s -> drained_but [] b -> (forall s', P s' -> known_there i known s') ->
  (forall D b' s', Inv s' -> Ri b' s' -> be_deleted b' = be_deleted b ->
     (forall y f, G y f ∈ known -> G y f ∉ D -> finished localId s' i (G y f)) -> Q (inr D) b' s') ->
  (forall e b' s', Inv s' -> Ri b' s' -> Q (inl e) b' s') ->
  hwp (GetRemotePreparedTransactionSet fuel cache_seq localId i) b Q s.
Proof.
  intros Hs Hdr Hk HQ HE. unfold GetRemotePreparedTransactionSet. apply hwp_bind, hwp_change. intros s1 H1 HI1. cbn [foldl].
  pose proof (Ri_append (select_sql localId) i b s1 (or_introl eq_refl) (Ri_rely _ _ _ H1 Hs)) as Hs1. set (b1 := set_commands _ b) in *.
  apply hwp_bind. unfold FalconSendCommandAndWaitForResult. apply hwp_self_bind. cbn [b1 be_cache set_commands].
  rewrite unsent_drained; cycle 1.
  { intros j d Hd. destruct (be_cache b) as [c|] eqn:Ec; cbn in Hd; [|by rewrite lookup_empty in Hd]. split.
    - by apply (proj1 (ri_facts _ _ Hs) c j d Ec Hd).
    - apply (Hdr c j d); [done|done|apply not_elem_of_nil]. }
  apply hwp_bind, hwp_rconnections; [done| |auto]. intros b2 s2 HI2 Hs2 Hc. cbn [send_servers].
  apply hwp_bind, hwp_bind, (hwp_ask_server i known); [done|done| |auto].
  intros s3 HI3 Hs3. set (b3 := cache_after _ _ _) in *. apply hwp_ret_bind, hwp_ret. intros s4 H4 _.
  cbn [receive_servers]. apply hwp_bind. unfold receive_server.
  apply hwp_ret_bind, (hwp_ask_receive fuel i known); [by eapply asking_rely| |auto]. intros res s5 HI5 Hs5 Hres.
  apply hwp_ret_bind, hwp_ret. intros s6 H6 _. destruct res as [|a rest]; [done|]. destruct (Hres a rest eq_refl) as [_ Hg].
  apply hwp_ret. intros s7 H7 HI7. apply HQ; [done| | |].
  - eapply Ri_rely; [exact H7|]. by eapply Ri_rely.
  - apply (proj2 (ca_written _ _ Hc)).
  - intros y f Hin Hn. rewrite elem_of_list_to_set in Hn. eapply gone_lasting; [|exact Hg|done|done].
    eapply Onward_trans; by apply Onward_rely.
Qed.
End Sending.

Lemma Ri_more (P P' : sys -> Prop) b s : Ri P b s -> P' s -> Ri P' b s.
Proof. intros [H1 H2 H3 _] H. by split. Qed.

(** ** One server *)

(** What the four sets tell: A and D are prepared transactions of the server,
    B those under way, C the rows of the server. *)
Record sets (i : Z) (A B : gset string) (C : list string) (D : option (gset string)) s : Prop := {
  se_rows y f : G y f ∈ C -> sy_decided s !! y = Some true /\ st s i (G y f) <> Unprepared;
  se_rest y f : G y f ∈ A -> G y f ∉ B -> G y f ∉ C -> may_rollback localId s y f i;
  se_gone y f d : D = Some d -> G y f ∈ C -> G y f ∉ d -> st s i (G y f) = Committed;
}.

Lemma sets_lasting i A B C D : lasting (sets i A B C D).
Proof.
  intros s s' H [H1 H2 H3]. split.
  - intros y f Hin. destruct (H1 y f Hin). split; [by apply (on_decided _ _ H)|]. by eapply status_le_known; [apply (on_status _ _ H)|].
  - intros y f HA HB HC. apply (may_rollback_lasting y f i s s' H). auto.
  - intros y f d HD HC Hn. apply (committed_lasting i _ s s' H). eauto.
Qed.

Section Server.
Context (i : Z) (A B : gset string) (C : list string) (D : gset string).
Abbreviation Rs := (Ri (sets i A B C (Some D))).

Lemma hwp_finish g (isCommit : bool) b Q s :
  rquery s i (Sql (if isCommit then commit_sql g else rollback_sql g)) -> Rs b s ->
  (forall b' s', Inv s' -> Rs b' s' -> Q (inr tt) b' s') -> (forall e b' s', Inv s' -> Rs b' s' -> Q (inl e) b' s') ->
  hwp (CommitOrRollbackPreparedTransaction fuel cache_seq i g isCommit) b Q s.
Proof.
  intros Hq Hs HQ HE. unfold CommitOrRollbackPreparedTransaction. apply hwp_bind, hwp_change. intros s1 H1 HI1.
  pose proof (sets_lasting i A B C (Some D)) as HL.
  apply hwp_bind, (hwp_rsend _ HL); [apply Ri_append| |done].
  - by apply (rquery_lasting _ _ s s1), Hq; apply Onward_rely.
  - by eapply Ri_rely.
  - intros res b2 s2 HI2 Hs2 _ _ _. apply hwp_ret. intros s3 H3 HI3. apply HQ; [done|]. by eapply Ri_rely.
Qed.

Lemma Ri_delete g b s : Rs b s -> g ∈ C -> g ∉ D -> Rs (set_written (be_inserted b) (be_deleted b ++ [(i, g)]) b) s.
Proof.
  intros [H1 [I1 I2 I3 I4] [F1 F2] H4] HC HD. split; try done. split; [done|]. cbn. intros j y f [Hin|Hin]%elem_of_app; [auto|].
  apply list_elem_of_singleton in Hin as [= -> <-]. by eapply (se_gone _ _ _ _ _ _ H4).
Qed.

Lemma hwp_cleanup_records rows A0 n b Q s :
  Rs b s -> (forall g, g ∈ rows -> g ∈ C) -> A0 ⊆ A -> (forall g, g ∈ A0 -> g ∉ B -> g ∈ C -> g ∈ rows) ->
  (forall A' n' b' s', Inv s' -> Rs b' s' -> A' ⊆ A -> (forall g, g ∈ A' -> g ∉ B -> g ∉ C) -> Q (inr (A', n')) b' s') ->
  (forall e b' s', Inv s' -> Rs b' s' -> Q (inl e) b' s') ->
  hwp (cleanup_records fuel cache_seq i B D rows A0 n) b Q s.
Proof.
  pose proof (sets_lasting i A B C (Some D)) as HL.
  revert A0 n b s. induction rows as [|g rows IH]; intros A0 n b s Hs Hrows HA0 Hleft HQ HE; cbn [cleanup_records].
  { apply hwp_ret. intros s1 H1 HI1. apply HQ; [done|by eapply Ri_rely|done|]. intros g Hg Hb Hc. by apply (elem_of_nil g), Hleft. }
  assert (forall g', g' ∈ rows -> g' ∈ C) as Hrows' by (intros g' Hg'; apply Hrows; by right).
  assert (g ∈ C) as HgC by (apply Hrows; by left).
  assert (forall A1, A1 ⊆ A0 -> (g ∉ B -> g ∉ A1) -> forall g', g' ∈ A1 -> g' ∉ B -> g' ∈ C -> g' ∈ rows) as Hnext.
  { intros A1 Hsub Hg g' HA1 HB HC. pose proof (Hleft g' (Hsub _ HA1) HB HC) as Hin. apply elem_of_cons in Hin as [->|?]; [by destruct (Hg HB)|done]. }
  case_bool_decide as HB; [apply IH; try done; apply Hnext; set_solver|].
  case_bool_decide as HA; cbn [andb].
  all: case_bool_decide as HD; cbn [andb].
  - apply hwp_bind, hwp_finish; [|done| |done].
    + right. exists g. left. split; [done|]. intros y f ->. by apply (se_rows _ _ _ _ _ _ (ri_more _ _ _ Hs) y f).
    + intros b1 s1 HI1 Hs1. apply IH; try done; [set_solver|apply Hnext; set_solver].
  - apply hwp_change_bind, IH; try done; [by apply Ri_delete|set_solver|apply Hnext; set_solver].
  - apply IH; try done. apply Hnext; set_solver.
  - apply hwp_change_bind, IH; try done; [by apply Ri_delete|set_solver|apply Hnext; set_solver].
Qed.

Lemma hwp_cleanup_rest rest n b Q s :
  Rs b s -> (forall g, g ∈ rest -> g ∉ B -> g ∈ A /\ (g ∉ C)) ->
  (forall n' b' s', Inv s' -> Rs b' s' -> Q (inr n') b' s') -> (forall e b' s', Inv s' -> Rs b' s' -> Q (inl e) b' s') ->
  hwp (cleanup_rest fuel cache_seq i B rest n) b Q s.
Proof.
  pose proof (sets_lasting i A B C (Some D)) as HL.
  revert n b s. induction rest as [|g rest IH]; intros n b s Hs Hr HQ HE; cbn [cleanup_rest].
  { apply hwp_ret. intros s1 H1 HI1. apply HQ; [done|]. by eapply Ri_rely. }
  assert (forall g', g' ∈ rest -> g' ∉ B -> g' ∈ A /\ (g' ∉ C)) as Hr' by (intros g' Hg'; apply Hr; by right).
  case_bool_decide as HB; [by apply IH|]. apply hwp_bind, hwp_finish; [|done| |done].
  - right. exists g. right. split; [done|]. intros y f ->. destruct (Hr (G y f)) as [HA HC]; [by left|done|].
    by apply (se_rest _ _ _ _ _ _ (ri_more _ _ _ Hs)).
  - intros b1 s1 HI1 Hs1. by apply IH.
Qed.
End Server.

(** What B and C tell of A. *)
Lemma sets_read i A B C s1 s2 :
  Inv s1 -> Inv s2 -> Onward s1 s2 ->
  (forall y f, G y f ∈ A -> exists j, asked s1 j (G y f)) -> (forall y f, G y f ∈ A -> G y f ∉ B -> G y f ∉ sy_inprogress s1) ->
  (forall g, g ∈ C <-> (i, g) ∈ sy_records s2) -> sets i A B C None s2.
Proof.
  intros HI1 HI2 Ho HA HB HC. split; [| |done].
  - intros y f Hin. apply HC in Hin. destruct (inv_records _ _ HI2 y f i Hin) as [Hd Ha]. split; [done|].
    by destruct (inv_whole _ _ HI2 y f i Hd Ha) as [[-> _]| ->].
  - intros y f HinA HinB HinC. destruct (HA y f HinA) as [j Hj]. destruct (sy_decided s1 !! y) as [d|] eqn:Ed.
    + pose proof (on_decided _ _ Ho y d Ed) as Ed2. destruct d; [right|by left]. split; [done|].
      destruct (decide ((i, Sql (prepare_sql (G y f))) ∈ sy_sent s2)) as [Ha|]; [right|by left].
      destruct (inv_whole _ _ HI2 y f i Ed2 Ha) as [[_ Hr]|?]; [|done]. destruct HinC. by apply HC.
    + destruct (HB y f HinA HinB). by apply (inv_inprogress _ _ HI1 y f j).
Qed.

Definition Rt := Ri (fun _ => True).
Lemma true_lasting : lasting (fun _ => True).
Proof. done. Qed.

Lemma hwp_cleanup_server i b Q s :
  Rt b s ->
  (forall r b' s', Inv s' -> Rt b' s' -> Q r b' s') ->
  hwp (CleanupPreparedTransactions fuel cache_seq localId set_seq i) b Q s.
Proof.
  intros Hs HQ. unfold CleanupPreparedTransactions.
  apply hwp_bind, (hwp_get_prepared _ true_lasting); [done| |auto]. intros A b1 s1 HI1 Hs1 _ Hdr HA.
  unfold GetActiveTransactionSet. apply hwp_bind, hwp_bind, hwp_emit. intros s2 H2 HI2 l s2' [HB ->].
  split; [done|]. split; [apply Guar_refl|]. intros s3 H3 _. apply hwp_ret. intros s4 H4 _.
  apply hwp_bind, hwp_emit. intros s5 H5 HI5 C s5' [HC ->]. split; [done|]. split; [apply Guar_refl|]. intros s6 H6 _.
  assert (Rely s2 s5) as H25 by (eapply Rely_trans; [exact H3|]; by eapply Rely_trans).
  set (B := list_to_set l : gset string).
  assert (sets i A B C None s5) as Hsets.
  { apply (sets_read _ _ _ _ s2); [done|done|by apply Onward_rely| | |done].
    - intros y f Hin. destruct (HA y f Hin) as [j Hj]. exists j. by apply (rely_sent _ _ _ _ _ _ H2).
    - intros y f _ Hn Hin. apply Hn, elem_of_list_to_set. by apply HB. }
  assert (Ri (sets i A B C None) b1 s6) as Hs6.
  { eapply (Ri_more (fun _ => True)); [|apply (sets_lasting i A B C None s5 s6); [by apply Onward_rely|done]].
    eapply Ri_rely; [done| |exact Hs1]. eapply Rely_trans; [exact H2|]. by eapply Rely_trans. }
  apply hwp_bind, (hwp_get_prepared_again _ (sets_lasting i A B C None) i C); [done|done| | |].
  - intros s' Hs' y f Hin. by apply (se_rows _ _ _ _ _ _ Hs' y f).
  - intros D b7 s7 HI7 Hs7 _ Hgone.
    assert (Ri (sets i A B C (Some D)) b7 s7) as Hs7'.
    { eapply Ri_more; [exact Hs7|]. destruct (ri_more _ _ _ Hs7) as [G1 G2 _]. split; [done|done|]. intros y f d [= ->] Hin Hn.
      destruct (Hgone y f Hin Hn) as [?|Hrb]; [done|]. apply (inv_rolled _ _ HI7) in Hrb. destruct (G1 y f Hin). congruence. }
    assert (forall r b' s', Inv s' -> Ri (sets i A B C (Some D)) b' s' -> Q r b' s') as HQ'.
    { intros r b' s' HI' H'. apply HQ; [done|]. by eapply Ri_more. }
    apply hwp_bind, (hwp_cleanup_records i A B C D); try done; auto.
    intros A' n b8 s8 HI8 Hs8 HA' Hrest. cbn [fst snd]. apply (hwp_cleanup_rest i A B C D); try done; auto.
    intros g Hg HgB. apply set_seq_all in Hg. split; [by apply HA'|by apply Hrest].
  - intros e b' s' HI' H'. apply HQ; [done|]. by eapply Ri_more.
Qed.

Lemma hwp_cleanup workers b Q s :
  Rt b s -> (forall n b' s', Inv s' -> Rt b' s' -> Q (inr n) b' s') ->
  hwp (Cleanup2PC fuel cache_seq localId set_seq workers) b Q s.
Proof.
  revert b s Q. induction workers as [|i ws IH]; intros b s Q Hs HQ; cbn [Cleanup2PC].
  { apply hwp_ret. intros s1 H1 HI1. apply HQ; [done|]. by eapply Ri_rely. }
  apply hwp_bind, hwp_attempt, hwp_cleanup_server; [done|]. intros r b1 s1 HI1 Hs1.
  apply hwp_bind, IH; [done|]. intros n b2 s2 HI2 Hs2. apply hwp_ret. intros s3 H3 HI3. apply HQ; [done|]. by eapply Ri_rely.
Qed.

(** ** The round *)

Lemma hwp_cleanup_round workers b s :
  Rt b s -> hwp (cleanup_round fuel cache_seq localId unset set_seq workers) b (fun _ _ s' => over x s') s.
Proof.
  intros Hs. unfold cleanup_round. apply hwp_bind, hwp_cleanup; [done|]. intros n b1 s1 HI1 Hs1.
  unfold CommitTransaction. apply hwp_bind, hwp_attempt. cbn [FalconTransactionCallback].
  assert (forall b', idle b' -> own_name localId x b' /\ named (be_gid b') b') as Hn.
  { intros b' [I1 I2 I3 I4]. split; [by left|]. intros i Hi. by rewrite I4 in Hi. }
  assert (forall b2 s2, Inv s2 -> Rt b2 s2 -> hwp (b ← self;
      _ ← emit (RecordTransactionCommit (be_inserted b) (be_deleted b));
      _ ← change (set_written [] []);
      r2 ← attempt_ (FalconTransactionCallback fuel cache_seq localId unset XACT_EVENT_COMMIT);
      match r2 with inl _ => halt | inr _ => mret true end) b2 (fun _ _ s' => over x s') s2) as Hok.
  { intros b2 s2 HI2 Hs2. destruct (Hn b2 (ri_idle _ _ _ Hs2)) as [N1 N2]. apply hwp_self_bind, hwp_commit_recorded; try done.
    intros s3 H3 _. destruct (Ri_rely _ true_lasting _ _ _ H3 Hs2) as [[W1 W2 W3] [I1 I2 I3 I4] [F1 F2] _]. split; try done.
    - intros i g. by rewrite I2, elem_of_nil.
    - intros i f Ha. by destruct (W2 i f). }
  unfold FalconRemoteCommandPrepare. apply hwp_self_bind. destruct (be_cache b1) as [c|]; cycle 1.
  { apply hwp_ret. intros s2 H2 HI2. apply Hok; [done|]. by eapply Ri_rely. }
  apply hwp_bind, (hwp_rconnections _ true_lasting); [done| |].
  - intros b2 s2 HI2 Hs2 _. apply hwp_self_bind. destruct (ri_idle _ _ _ Hs2) as [I1 I2 I3 I4].
    rewrite bool_decide_eq_true_2; [apply hwp_ret; intros s3 H3 HI3; apply Hok; [done|by eapply Ri_rely]|].
    rewrite I3, idle_writers by done. cbn. lia.
  - intros e b2 s2 HI2 Hs2 _. destruct (Hn b2 (ri_idle _ _ _ Hs2)) as [N1 N2].
    apply hwp_abort_then; [done|done|apply (ri_world _ _ _ Hs2)].
Qed.

Lemma between_idle b s :
  between_transactions b -> be_localWrite b = false ->
  sy_decided s !! x = None -> (forall j f, ~ asked s j (G x f)) -> (forall i, sy_pipes s t i = new_pipe 0) -> Rt b s.
Proof.
  intros [H1 H2 H3 [H4 H5] H6] Hw Hd Ha Hp. split; [|by split| |done].
  - split; [done|done|]. intros j. unfold recovery_items, items. rewrite Hp. constructor.
  - split; [by intros c i d; rewrite H1|]. intros i y f. by rewrite H5, elem_of_nil.
Qed.
End Recovery.
