(* ===== verification/TwoPhaseCorrect.v ===== *)
(** * Distributed transactions are all or nothing

    The processes of RemoteComm.v and Transaction.v together: whatever they do,
    whatever the network does and however often the coordinator crashes, no
    transaction is committed on one server and rolled back on another, and what
    the coordinator has committed is committed, or recorded and prepared, on
    every server that was asked. *)

From stdpp Require Import pretty.
From S2P Require Import FalconPrelude ForeignServer MetaMessages RemoteComm Transaction TwoPhase TwoPhaseSafety TwoPhaseLogic.
From S2P Require Import TwoPhasePrepare TwoPhaseBody TwoPhaseRecovery.

Section Correct.
Context (localId : Z) {V : Type} {PG : PgServers localId V}.
Context (fuel : nat) (cache_seq : gmap Z RemoteConnectionCommandData -> list Z) (unset : string)
  (set_seq : gset string -> list string).
Context (cache_seq_NoDup : forall c, NoDup (cache_seq c)).
Context (cache_seq_all : forall c i, i ∈ cache_seq c <-> is_Some (c !! i)).
Context (set_seq_all : forall l g, g ∈ set_seq l <-> g ∈ l).
Abbreviation sys := (@sys V).
Abbreviation config := (@config V).
Abbreviation G := (gid_of localId).
Abbreviation Inv := (Inv localId).
Abbreviation asked := (asked (V := V)).
Abbreviation step := (step localId fuel cache_seq unset set_seq).
Implicit Types (s : sys) (c : config).

Definition good (t : nat) (th : thread) s : Prop :=
  wp localId t (th_xid th) (th_recovery th) (th_prog th) (fun _ s' => over (th_xid th) s') s.

Record Cinv c : Prop := {
  ci_inv : Inv (cf_sys c);
  ci_good t th : cf_threads c !! t = Some th -> good t th (cf_sys c);
  ci_xids t t' th th' : cf_threads c !! t = Some th -> cf_threads c !! t' = Some th' -> th_xid th = th_xid th' -> t = t';
  ci_recovery t t' th th' : cf_threads c !! t = Some th -> cf_threads c !! t' = Some th' ->
    th_recovery th = true -> th_recovery th' = true -> t = t';
  ci_live x f i : asked (cf_sys c) i (G x f) -> sy_decided (cf_sys c) !! x = None ->
    exists t th, cf_threads c !! t = Some th /\ th_xid th = x;
}.

Lemma initial_ok c : initial localId c -> Cinv c.
Proof.
  intros [Ht Hst Hp (H1 & H2 & H3 & H4 & H5)]. destruct c as [s ts]. cbn in *. subst ts.
  assert (forall i q, ~ mention s i q) as Hm.
  { intros i q [(t & H)|(c & H & _)]; [rewrite Hp in H; by apply elem_of_nil in H|rewrite H1 in H; by apply elem_of_nil in H]. }
  assert (forall i g, ~ asked s i g) as Ha by (intros i g H; unfold TwoPhaseSafety.asked in H; rewrite H5 in H; by apply elem_of_nil in H).
  split; cbn; try (by intros *; rewrite lookup_empty).
  - split.
    + intros x f i [H|H]; [by destruct (Hm _ _ H)|unfold st in H; by rewrite Hst in H].
    + intros x f i H. unfold st in H. by rewrite Hst in H.
    + intros x f i H. by destruct (Hm _ _ H).
    + intros x f i _ H. by destruct (Ha _ _ H).
    + intros x f i H. by rewrite H3 in H.
    + intros x f i [H|H]; [by destruct (Hm _ _ H)|unfold st in H; by rewrite Hst in H].
    + intros x f i H. by destruct (Ha _ _ H).
    + intros c q H. rewrite H1 in H. by apply elem_of_nil in H.
  - intros x f i H. by destruct (Ha _ _ H).
Qed.

(** The network moves. *)
Lemma net_ok s s' ts :
  (Inv s -> Inv s' /\ forall t x rec, Rely localId t x rec s s') -> Cinv (mkConfig s ts) -> Cinv (mkConfig s' ts).
Proof.
  intros Hs [H1 H2 H3 H4 H5]. destruct (Hs H1) as [HI HR]. split; cbn in *; try done.
  - intros t th Ht. eapply wp_rely; [by apply H2|apply HR].
  - intros x f i Ha Hd. pose proof (HR O x false) as R. rewrite (rely_asked _ _ _ _ _ _ R) in Ha.
    rewrite (rely_own _ _ _ _ _ _ R) in Hd. by apply (H5 x f i).
Qed.

(** A process takes a step. *)
Lemma call_ok s ts t x rec e k r s' :
  ts !! t = Some (mkThread x rec (Do e k)) -> ev t x e s r s' -> Cinv (mkConfig s ts) ->
  Cinv (mkConfig s' (<[t := mkThread x rec (k r)]> ts)).
Proof.
  intros Ht Hev [H1 H2 H3 H4 H5]. cbn in *.
  destruct (H2 t _ Ht s (Rely_refl _ _ _ _ s) H1 r s' Hev) as (HI & HG & Hk). cbn in Hk.
  assert (forall t' th, t' <> t -> ts !! t' = Some th -> th_xid th <> x /\ (rec = true -> th_recovery th = false)) as Hoth.
  { intros t' th Hne Ht'. split.
    - intros E. destruct Hne. by apply (H3 t' t th (mkThread x rec (Do e k))).
    - intros ->. destruct (th_recovery th) eqn:E; [|done]. destruct Hne. by apply (H4 t' t th (mkThread x true (Do e k))). }
  assert (forall t' th, <[t := mkThread x rec (k r)]> ts !! t' = Some th ->
    (t' = t /\ th = mkThread x rec (k r)) \/ (t' <> t /\ ts !! t' = Some th)) as Hcase.
  { intros t' th. destruct (decide (t = t')) as [<-|Hne]; [rewrite lookup_insert_eq; intros [= <-]; by left|].
    rewrite lookup_insert_ne by done. right. split; congruence. }
  split; cbn; try done.
  - intros t' th [[-> ->]|[Hne Ht']]%Hcase; [done|]. destruct (Hoth t' th Hne Ht') as [Hx Hr].
    eapply wp_rely; [by apply H2|]. by apply HG.
  - intros t1 t2 th1 th2 [[-> ->]|[N1 L1]]%Hcase [[-> ->]|[N2 L2]]%Hcase Hx; try done.
    + destruct (Hoth t2 th2 N2 L2). by destruct H.
    + destruct (Hoth t1 th1 N1 L1). by destruct H.
    + by apply (H3 t1 t2 th1 th2).
  - intros t1 t2 th1 th2 [[-> ->]|[N1 L1]]%Hcase [[-> ->]|[N2 L2]]%Hcase R1 R2; try done.
    + destruct (Hoth t2 th2 N2 L2) as [_ Hr]. cbn in R1. rewrite Hr in R2; done.
    + destruct (Hoth t1 th1 N1 L1) as [_ Hr]. cbn in R2. rewrite Hr in R1; done.
    + by apply (H4 t1 t2 th1 th2).
  - intros y f i Ha Hd. destruct (decide (y = x)) as [->|Hy].
    { exists t, (mkThread x rec (k r)). by rewrite lookup_insert_eq. }
    assert (Rely localId (S t) y false s s') as R by (apply HG; [lia|done|done]).
    rewrite (rely_asked _ _ _ _ _ _ R) in Ha. rewrite (rely_own _ _ _ _ _ _ R) in Hd.
    destruct (H5 y f i Ha Hd) as (t' & th & Ht' & Hx). exists t', th. rewrite lookup_insert_ne; [done|].
    intros <-. rewrite Ht in Ht'. by simplify_eq.
Qed.

(** A process starts. *)
Lemma start_ok c t x rec p :
  fresh localId t x c -> (rec = true -> forall t' th, cf_threads c !! t' = Some th -> th_recovery th = false) ->
  good t (mkThread x rec p) (cf_sys c) -> Cinv c -> Cinv (mkConfig (cf_sys c) (<[t := mkThread x rec p]> (cf_threads c))).
Proof.
  intros [F1 F2 F3 F4 F5] Hrec Hg [H1 H2 H3 H4 H5].
  assert (forall t' th, <[t := mkThread x rec p]> (cf_threads c) !! t' = Some th ->
    (t' = t /\ th = mkThread x rec p) \/ (t' <> t /\ cf_threads c !! t' = Some th)) as Hcase.
  { intros t' th. destruct (decide (t = t')) as [<-|Hne]; [rewrite lookup_insert_eq; intros [= <-]; by left|].
    rewrite lookup_insert_ne by done. right. split; congruence. }
  split; cbn; try done.
  - intros t' th [[-> ->]|[Hne Ht']]%Hcase; [done|by apply H2].
  - intros t1 t2 th1 th2 [[-> ->]|[N1 L1]]%Hcase [[-> ->]|[N2 L2]]%Hcase Hx; try done.
    + by destruct (F3 t2 th2 L2).
    + by destruct (F3 t1 th1 L1).
    + by apply (H3 t1 t2 th1 th2).
  - intros t1 t2 th1 th2 [[-> ->]|[N1 L1]]%Hcase [[-> ->]|[N2 L2]]%Hcase R1 R2; try done.
    + cbn in R1. by rewrite (Hrec R1 t2 th2 L2) in R2.
    + cbn in R2. by rewrite (Hrec R2 t1 th1 L1) in R1.
    + by apply (H4 t1 t2 th1 th2).
  - intros y f i Ha Hd. destruct (H5 y f i Ha Hd) as (t' & th & Ht' & Hx). exists t', th.
    rewrite lookup_insert_ne; [done|]. intros <-. by rewrite F1 in Ht'.
Qed.

(** A process ends. *)
Lemma end_ok s ts t x rec a :
  ts !! t = Some (mkThread x rec (Done a)) -> Cinv (mkConfig s ts) -> Cinv (mkConfig s (delete t ts)).
Proof.
  intros Ht [H1 H2 H3 H4 H5]. cbn in *. destruct (H2 t _ Ht s (Rely_refl _ _ _ _ s) H1) as [d Hd]. cbn in Hd.
  split; cbn; try done.
  - intros t' th [_ Ht']%lookup_delete_Some. by apply H2.
  - intros t1 t2 th1 th2 [_ L1]%lookup_delete_Some [_ L2]%lookup_delete_Some. by apply H3.
  - intros t1 t2 th1 th2 [_ L1]%lookup_delete_Some [_ L2]%lookup_delete_Some. by apply H4.
  - intros y f i Ha Hn. destruct (H5 y f i Ha Hn) as (t' & th & Ht' & Hx). exists t', th. split; [|done].
    apply lookup_delete_Some. split; [|done]. intros <-. rewrite Ht in Ht'. simplify_eq. cbn in Hn. congruence.
Qed.

(** A crash aborts what was not decided. *)
Lemma abort_live_spec (ts : gmap nat thread) (d : gmap N bool) x :
  (forall b, d !! x = Some b -> abort_live ts d !! x = Some b) /\
  (abort_live ts d !! x = Some true -> d !! x = Some true) /\
  (abort_live ts d !! x = None -> d !! x = None /\ forall t th, ts !! t = Some th -> th_xid th <> x).
Proof.
  unfold abort_live. split_and!.
  - intros b Hb. by apply lookup_union_Some_l.
  - intros [?|[_ H]]%lookup_union_Some_raw; [done|]. apply elem_of_list_to_map_2, list_elem_of_fmap in H as (p & [=] & _).
  - intros [Hd Hl]%lookup_union_None. split; [done|]. intros t th Ht Hx.
    apply not_elem_of_list_to_map in Hl. apply Hl. rewrite <- list_fmap_compose. apply list_elem_of_fmap.
    exists (t, th). split; [done|]. by apply elem_of_map_to_list.
Qed.

Lemma crash_ok c : Cinv c -> Cinv (crash c).
Proof.
  intros [[I1 I2 I3 I4 I5 I6 I7 I8] H2 H3 H4 H5]. unfold crash.
  pose proof (abort_live_spec (cf_threads c) (sy_decided (cf_sys c))) as Ha.
  assert (forall x f i, asked (cf_sys c) i (G x f) -> abort_live (cf_threads c) (sy_decided (cf_sys c)) !! x = None -> False) as Hlive.
  { intros x f i Hask Hn. destruct (Ha x) as (_ & _ & H). destruct (H Hn) as [Hd Hx].
    destruct (H5 x f i Hask Hd) as (t & th & Ht & E). by apply (Hx t th). }
  split; cbn; try (by intros *; rewrite lookup_empty).
  - split; cbn; [| | | | | | |done]; intros x f i.
    + intros H. apply (Ha x). by apply (I1 x f i).
    + intros H. apply (Ha x). by apply (I2 x f i).
    + intros H. destruct (I3 x f i H) as [Hd|[Hd Hr]]; [left; by apply (Ha x)|right]. split; [by apply (Ha x)|done].
    + intros Hd. apply I4. by apply (Ha x).
    + intros H. destruct (I5 x f i H) as [Hd Hk]. split; [by apply (Ha x)|done].
    + apply I6.
    + intros Hk Hn. by destruct (Hlive x f i Hk).
  - intros x f i Hk Hn. by destruct (Hlive x f i Hk).
Qed.

Lemma step_ok c c' : step c c' -> Cinv c -> Cinv c'.
Proof.
  intros H. destruct H as [s ts t x rec e k r s' Ht Hev|s ts t i|s ts n|s ts t i|c t x d b Hf Hd Hb Hx|c t x ws b Hf Hb Hx Hw Hr|s ts t x rec a Ht|c].
  - by eapply call_ok.
  - apply net_ok. intros HI. by apply exec_safe.
  - apply net_ok. intros HI. by apply late_safe.
  - apply net_ok. intros HI. by apply break_safe.
  - intros Hc. apply start_ok; [done|done| |done]. apply (hwp_transaction localId t x false fuel cache_seq cache_seq_NoDup unset d b); [done|].
    apply between_inv; [done|done|apply Hf|]. intros j f. by apply (fresh_gid _ _ _ _ Hf).
  - intros Hc. apply start_ok; [done|done| |done]. apply hwp_cleanup_round; [done..|].
    apply between_idle; [done|done|apply Hf| |apply Hf]. intros j f. by apply (fresh_gid _ _ _ _ Hf).
  - by eapply end_ok.
  - apply crash_ok.
Qed.

Definition reachable c : Prop := exists c0, initial localId c0 /\ rtc step c0 c.

Lemma reachable_ok c : reachable c -> Cinv c.
Proof. intros (c0 & Hi & H). apply initial_ok in Hi. induction H; eauto using step_ok. Qed.

End Correct.
