(* ===== verification/TwoPhaseRun.v ===== *)
(** * A schedule that can be executed

    Of all the runs of TwoPhase.v, those in which each call succeeds and a server
    is run when its answer is waited for. *)

From stdpp Require Import pretty.
From S2P Require Import FalconPrelude ForeignServer MetaMessages RemoteComm Transaction TwoPhase TwoPhaseSafety TwoPhaseLogic.
From S2P Require Import TwoPhaseCorrect.

Section Drive.
Context (localId : Z) {V : Type} {PG : PgServers localId V}.
Context (fuel : nat) (cache_seq : gmap Z RemoteConnectionCommandData -> list Z) (unset : string)
  (set_seq : gset string -> list string).

Definition now (t : nat) (x : N) (e : event) (s : sys (V := V)) : option (answer e * sys (V := V)) :=
  match e return option (answer e * sys (V := V)) with
  | PQsendQuery i q =>
      if pi_broken (sy_pipes s t i) then Some (false, with_sent i q (lose t i [] s))
      else Some (true, with_sent i q (push t i (Todo (Some q)) s))
  | PQpipelineSync i =>
      if pi_broken (sy_pipes s t i) then Some (false, lose t i [] s) else Some (true, push t i (Todo None) s)
  | PQgetResult i =>
      let p := sy_pipes s t i in
      if pi_due p then Some (None, with_pipe t i (mkPipe (pi_gen p) (pi_items p) false (pi_aborted p) (pi_broken p)) s)
      else match pi_items p with
           | [] => Some (None, s)
           | Ready a :: l => Some (Some a, with_pipe t i (mkPipe (pi_gen p) l true (pi_aborted p) (pi_broken p)) s)
           | Todo _ :: _ => None
           end
  | Connect ids =>
      let l := (fun i => (i, if bool_decide (pi_gen (sy_pipes s t i) = O) then Renewed else Kept)) <$> ids in
      Some ((l, false), foldl (relink t) s l)
  | EnterInprogress g => Some (Some (bool_decide (g ∈ sy_inprogress s)), with_inprogress (sy_inprogress s ∪ {[g]}) s)
  | RemoveInprogress g => Some (tt, with_inprogress (sy_inprogress s ∖ {[g]}) s)
  | ReadInprogress => Some (elements (sy_inprogress s), s)
  | ReadRecords i => Some ((filter (fun p => p.1 = i) (elements (sy_records s))).*2, s)
  | RecordTransactionCommit ins del =>
      Some (tt, with_log ((sy_records s ∪ list_to_set ins) ∖ list_to_set del) (<[x := true]> (sy_decided s)) s)
  | RecordTransactionAbort => Some (tt, with_log (sy_records s) (<[x := false]> (sy_decided s)) s)
  | PathParseReset => Some (tt, s)
  | LocalCaches _ => Some (tt, s)
  | PgCall f => Some (true, s)
  end.

Lemma now_ok t x e s r s' : now t x e s = Some (r, s') -> ev t x e s r s'.
Proof.
  destruct e as [i q|i|i|ids|g|g| |i|ins del| | |b|f]; cbn [now ev answer] in *; try (by intros [= <- <-]).
  - destruct (pi_broken (sy_pipes s t i)) eqn:E; intros [= <- <-]; [right; split; [done|]; exists []; by split; [left|]|by left].
  - destruct (pi_broken (sy_pipes s t i)) eqn:E; intros [= <- <-]; [by right|by left].
  - unfold get_result. destruct (pi_due _); [by intros [= <- <-]|]. destruct (pi_items _) as [|[q|a] l]; [by intros [= <- <-]|done|].
    intros [= <- <-]. left. by exists a.
  - intros [= <- <-]. cbn [fst snd]. rewrite <- list_fmap_compose. cbn. rewrite list_fmap_id. done.
  - intros [= <- <-]. by right.
  - intros [= <- <-]. split; [|done]. intros g. apply elem_of_elements.
  - intros [= <- <-]. split; [|done]. intros g. rewrite list_elem_of_fmap. split.
    + intros ([j g'] & -> & [E Hin]%list_elem_of_filter). cbn in *. subst. by apply elem_of_elements.
    + intros Hin. exists (i, g). split; [done|]. apply list_elem_of_filter. split; [done|]. by apply elem_of_elements.
Qed.

Definition advance (t : nat) (c : config (V := V)) : option (config (V := V)) :=
  match cf_threads c !! t with
  | Some (mkThread x rec (Do e k)) =>
      match now t x e (cf_sys c) with
      | Some (r, s') => Some (mkConfig s' (<[t := mkThread x rec (k r)]> (cf_threads c)))
      | None => match e with PQgetResult i => Some (mkConfig (exec localId t i (cf_sys c)) (cf_threads c)) | _ => None end
      end
  | _ => None
  end.

Fixpoint drive (n : nat) (t : nat) (c : config (V := V)) : config (V := V) :=
  match n with
  | O => c
  | S n' => match advance t c with Some c' => drive n' t c' | None => c end
  end.

Lemma drive_ok n t c : rtc (step localId fuel cache_seq unset set_seq) c (drive n t c).
Proof.
  revert c. induction n as [|n IH]; intros c; cbn; [done|]. destruct (advance t c) as [c'|] eqn:E; [|done].
  eapply rtc_l; [|apply IH]. unfold advance in E. destruct c as [s ts]. cbn in E. destruct (ts !! t) as [[x rec [|  |e k]]|] eqn:Et; try done.
  destruct (now t x e s) as [[r s']|] eqn:En.
  - injection E as <-. eapply step_call; [exact Et|]. by apply now_ok.
  - destruct e; try done. injection E as <-. apply step_exec.
Qed.
End Drive.

