(* ===== verification/TwoPhaseLive.v ===== *)
(** * The recovery process gets its work done

    When its calls succeed and the servers answer, one round of the recovery
    process finishes every prepared transaction that a crash has left: those
    that the coordinator has committed are committed, the others rolled back. *)

From stdpp Require Import pretty.
From S2P Require Import FalconPrelude ForeignServer MetaMessages RemoteComm Transaction TwoPhase TwoPhaseSafety TwoPhaseLogic.
From S2P Require Import TwoPhasePrepare TwoPhaseBody TwoPhaseRecovery TwoPhaseCorrect TwoPhaseRun.

(** What a server does for a session that is in no transaction. *)
Class PgLive (localId : Z) (V : Type) {PG : PgServers localId V} : Prop := {
  pl_select c v :
    pg_block v c = NoBlock ->
    is_ok (pg_run c (Sql (select_sql localId)) v).1 = true /\ pg_block (pg_run c (Sql (select_sql localId)) v).2 c = NoBlock;
  pl_rows c v g : g ∈ rows_of (pg_run c (Sql (select_sql localId)) v).1 -> pg_status v g = Prepared;
  pl_finish c v g (isCommit : bool) :
    let q := Sql (if isCommit then commit_sql g else rollback_sql g) in
    pg_block v c = NoBlock -> pg_status v g = Prepared ->
    is_ok (pg_run c q v).1 = true /\ pg_block (pg_run c q v).2 c = NoBlock;
}.

Section Live.
Context (localId : Z) {V : Type} {PG : PgServers localId V} {PL : PgLive localId V}.
Context (fuel : nat) (cache_seq : gmap Z RemoteConnectionCommandData -> list Z) (unset : string)
  (set_seq : gset string -> list string).
Context (cache_seq_NoDup : forall c, NoDup (cache_seq c)).
Context (cache_seq_all : forall c i, i ∈ cache_seq c <-> is_Some (c !! i)).
Context (set_seq_all : forall l g, g ∈ set_seq l <-> g ∈ l).
Context (set_seq_NoDup : forall l, NoDup (set_seq l)).
Context (t : nat) (x : N).
Context (fuel_enough : (2 <= fuel)%nat).
Abbreviation sys := (@sys V).
Abbreviation G := (gid_of localId).
Abbreviation now := (now t x).
Implicit Types (s : sys) (b : backend) (g : string) (q : query).

(** ** Runs in which the servers answer *)

Definition prompt (e : event) s : option (answer e * sys) :=
  match now e s with
  | Some r => Some r
  | None => match e with PQgetResult i => now e (exec localId t i s) | _ => None end
  end.

Fixpoint twp {A : Type} (p : prog A) (Q : A -> sys -> Prop) s : Prop :=
  match p with
  | Done a => Q a s
  | Halt => False
  | Do e k => exists r s', prompt e s = Some (r, s') /\ twp (k r) Q s'
  end.

Definition dwp {A : Type} (m : proc A) b (Q : FalconErrorCode + A -> backend -> sys -> Prop) s : Prop :=
  twp (m b) (fun rb s' => Q rb.1 rb.2 s') s.

Lemma twp_mono {A : Type} (p : prog A) (Q Q' : A -> sys -> Prop) s :
  (forall a s', Q a s' -> Q' a s') -> twp p Q s -> twp p Q' s.
Proof. intros HQ. revert s. induction p as [a| |e k IH]; cbn; intros s H; [auto|done|]. destruct H as (r & s' & H1 & H2). eauto. Qed.

Lemma dwp_mono {A : Type} (m : proc A) b (Q Q' : FalconErrorCode + A -> backend -> sys -> Prop) s :
  (forall r b' s', Q r b' s' -> Q' r b' s') -> dwp m b Q s -> dwp m b Q' s.
Proof. intros H. apply twp_mono. intros rb s'. apply H. Qed.

Lemma dwp_bind {A B : Type} (m : proc A) (f : A -> proc B) b Q s :
  dwp m b (fun r b' s' => match r with inl e => Q (inl e) b' s' | inr a => dwp (f a) b' Q s' end) s -> dwp (m ≫= f) b Q s.
Proof.
  unfold dwp, mbind, proc_bind. generalize (m b). intros p. revert s. induction p as [[[e|a] b']| |e k IH]; cbn [pbind]; [done|done|done|].
  cbn. intros s (r & s' & H1 & H2). exists r, s'. auto.
Qed.

Lemma dwp_attempt {A : Type} (m : proc A) b Q s : dwp m b (fun r b' s' => Q (inr r) b' s') s -> dwp (attempt_ m) b Q s.
Proof.
  unfold dwp, attempt_. generalize (m b). intros p. revert s. induction p as [rb| |e k IH]; cbn [pbind]; [done|done|].
  cbn. intros s (r & s' & H1 & H2). exists r, s'. auto.
Qed.

Lemma dwp_emit e b Q s r s' : prompt e s = Some (r, s') -> Q (inr r) b s' -> dwp (emit e) b Q s.
Proof. intros H HQ. exists r, s'. auto. Qed.

Lemma dwp_ret {A : Type} (a : A) b (Q : FalconErrorCode + A -> backend -> sys -> Prop) s : Q (inr a) b s -> dwp (mret a) b Q s.
Proof. done. Qed.

(** Such a run is one of the runs of TwoPhase.v. *)
Lemma twp_steps rec (p : prog ((FalconErrorCode + bool) * backend)) Q s (ts : gmap nat thread) :
  twp p Q s ->
  exists a s', Q a s' /\ rtc (step localId fuel cache_seq unset set_seq) (mkConfig s (<[t := mkThread x rec p]> ts))
                            (mkConfig s' (<[t := mkThread x rec (Done a)]> ts)).
Proof.
  revert s. induction p as [a| |e k IH]; cbn [twp]; intros s H; [by exists a, s|done|].
  destruct H as (r & s' & H1 & H2). destruct (IH r s' H2) as (a & s2 & HQ & Hs). exists a, s2. split; [done|].
  assert (forall s0, now e s0 = Some (r, s') -> step localId fuel cache_seq unset set_seq (mkConfig s0 (<[t := mkThread x rec (Do e k)]> ts))
    (mkConfig s' (<[t := mkThread x rec (k r)]> ts))) as Hcall.
  { intros s0 Hn. rewrite <- (insert_insert_eq ts t (mkThread x rec (k r)) (mkThread x rec (Do e k))).
    eapply step_call; [apply lookup_insert_eq|]. by apply now_ok. }
  unfold prompt in H1. destruct (now e s) as [rs|] eqn:En.
  - injection H1 as ->. eapply rtc_l; [by apply Hcall|done].
  - destruct e; try done. eapply rtc_l; [apply step_exec|]. eapply rtc_l; [by apply Hcall|done].
Qed.

(** ** Connections with nothing on them *)

Definition gen s (j : Z) : nat := pi_gen (sy_pipes s t j).

Definition calm s : Prop :=
  forall j, sy_pipes s t j = new_pipe (gen s j) /\ pg_block (sy_servers s j) (t, j, Nat.max 1 (gen s j)) = NoBlock.

Record same s s' : Prop := {
  sa_servers : sy_servers s' = sy_servers s;
  sa_inprogress : sy_inprogress s' = sy_inprogress s;
  sa_records : sy_records s' = sy_records s;
  sa_decided : sy_decided s' = sy_decided s;
}.

Definition link_of s (i : Z) : Z * link := (i, if bool_decide (gen s i = O) then Renewed else Kept).

Lemma same_relink l s : same s (foldl (relink t) s l).
Proof.
  assert (forall s p, same s (relink t s p)) as H1 by (intros s' [i []]; by split).
  revert s. induction l as [|p l IH]; intros s; cbn [foldl]; [by split|].
  destruct (IH (relink t s p)) as [A1 A2 A3 A4], (H1 s p) as [B1 B2 B3 B4]. split; congruence.
Qed.

Lemma relink_pipe ids s0 s j :
  NoDup ids -> (forall i, i ∈ ids -> gen s i = gen s0 i) ->
  sy_pipes (foldl (relink t) s (link_of s0 <$> ids)) t j =
    if bool_decide (j ∈ ids) && bool_decide (gen s0 j = O) then new_pipe 1 else sy_pipes s t j.
Proof.
  revert s. induction ids as [|i ids IH]; intros s Hnd Hg; cbn [foldl fmap list_fmap]; [by rewrite (bool_decide_eq_false_2 (j ∈ [])) by apply not_elem_of_nil|].
  apply NoDup_cons in Hnd as [Hi Hnd]. assert (gen s i = gen s0 i) as Ei by (apply Hg; by left).
  assert (forall k, k <> i -> sy_pipes (relink t s (link_of s0 i)) t k = sy_pipes s t k) as Hother.
  { intros k Hk. unfold relink, link_of. cbn [fst snd]. destruct (bool_decide (gen s0 i = O)); [|done]. unfold abandon. rewrite pipe_with_other by congruence. done. }
  rewrite IH; [|done|intros k Hk; unfold gen; rewrite Hother by congruence; apply Hg; by right].
  destruct (decide (j = i)) as [->|Hji].
  - rewrite (bool_decide_eq_false_2 (i ∈ ids)) by done. rewrite (bool_decide_eq_true_2 (i ∈ i :: ids)) by (by left). cbn [andb].
    unfold relink, link_of. cbn [fst snd]. rewrite <- Ei. destruct (decide (gen s i = O)) as [E|E];
      [rewrite bool_decide_eq_true_2 by done|by rewrite bool_decide_eq_false_2 by done].
    unfold abandon. rewrite pipe_with_same. unfold gen in E. by rewrite E.
  - assert (bool_decide (j ∈ i :: ids) = bool_decide (j ∈ ids)) as ->.
    { apply bool_decide_ext. rewrite elem_of_cons. intuition. }
    destruct (_ && _); [done|]. by apply Hother.
Qed.

Lemma calm_relink ids s : NoDup ids -> calm s -> calm (foldl (relink t) s (link_of s <$> ids)).
Proof.
  intros Hnd Hc j. destruct (Hc j) as [H1 H2]. rewrite (sa_servers _ _ (same_relink _ s)). unfold gen.
  rewrite relink_pipe by done. destruct (bool_decide (j ∈ ids)); cbn [andb]; [|by rewrite H1]. case_bool_decide as E; [|by rewrite H1].
  cbn. rewrite E in H2. done.
Qed.

Lemma gen_relink ids s i : NoDup ids -> i ∈ ids -> gen (foldl (relink t) s (link_of s <$> ids)) i = Nat.max 1 (gen s i).
Proof.
  intros Hnd Hi. unfold gen at 1. rewrite relink_pipe by done. rewrite bool_decide_eq_true_2 by done. cbn [andb].
  case_bool_decide as E; [by rewrite E|]. fold (gen s i). lia.
Qed.

(** What the process keeps between its calls. *)
Record ready b : Prop := {
  re_idle : idle b;
  re_inAbort : be_inAbort b = false;
  re_cache c i d : be_cache b = Some c -> c !! i = Some d -> commandFlag d = 0 /\ remoteCommandList d = [];
}.

Lemma dwp_connections ids b Q s :
  NoDup ids -> calm s -> idle b ->
  (forall b' s', calm s' -> same s s' -> calmed b b' -> idle b' -> (forall i, i ∈ ids -> gen s' i = Nat.max 1 (gen s i)) -> Q (inr tt) b' s') ->
  dwp (get_connections ids) b Q s.
Proof.
  intros Hnd Hc Hi HQ. unfold get_connections. apply dwp_bind.
  set (l := link_of s <$> ids). eapply (dwp_emit (Connect ids) _ _ _ (l, false)); [reflexivity|]. cbn [fst snd].
  apply dwp_bind. cbn [dwp twp change fst snd]. apply dwp_bind. cbn [dwp twp throw_unless negb mret proc_ret fst snd]. apply dwp_bind.
  cbn [dwp twp self fst snd]. pose proof (calmed_linked b l) as Hcl. set (b' := set_manager _ b) in *.
  assert (existsb failed_link l = false) as ->.
  { unfold l. clear. induction ids as [|i ids IH]; cbn; [done|]. rewrite IH. unfold failed_link, link_of. cbn. by destruct (bool_decide _). }
  cbn [negb orb throw_unless]. apply dwp_ret. apply HQ; [by apply calm_relink|apply same_relink|done| |].
  - destruct Hi as [I1 I2 I3 I4]. split; try done. intros i. destruct (ca_states _ _ Hcl i) as [->| ->]; [apply I4|done].
  - intros i Hin. by apply gen_relink.
Qed.

(** ** One command and its answer *)

(** The connection to the server [i] and the server itself change. *)
Record upd (i : Z) (p : pipe) (v : V) s s' : Prop := {
  up_pipe : sy_pipes s' t i = p;
  up_pipes j : j <> i -> sy_pipes s' t j = sy_pipes s t j;
  up_server : sy_servers s' i = v;
  up_servers j : j <> i -> sy_servers s' j = sy_servers s j;
  up_rest : sy_inprogress s' = sy_inprogress s /\ sy_records s' = sy_records s /\ sy_decided s' = sy_decided s;
}.

Lemma upd_trans i p v p' v' s1 s2 s3 : upd i p v s1 s2 -> upd i p' v' s2 s3 -> upd i p' v' s1 s3.
Proof.
  intros [A1 A2 A3 A4 (A5 & A6 & A7)] [B1 B2 B3 B4 (B5 & B6 & B7)]. split; [done| |done| |split_and!; congruence].
  - intros j Hj. by rewrite B2, A2.
  - intros j Hj. by rewrite B4, A4.
Qed.

Lemma upd_with_pipe i p s : upd i p (sy_servers s i) s (with_pipe t i p s).
Proof. split; try done; [apply pipe_with_same|]. intros j Hj. apply pipe_with_other. congruence. Qed.

Lemma upd_with_server i p v s s' : upd i p (sy_servers s i) s s' -> upd i p v s (with_server i v s').
Proof.
  intros [A1 A2 A3 A4 A5]. split; cbn; try done; [by rewrite Z.eqb_refl|].
  intros j Hj. destruct (Z.eqb_spec j i); [done|]. by apply A4.
Qed.

Lemma upd_same i p v s s' s'' : upd i p v s s' -> sy_pipes s'' = sy_pipes s' -> same s' s'' -> upd i p v s s''.
Proof.
  intros [A1 A2 A3 A4 (A5 & A6 & A7)] Ep [B1 B2 B3 B4]. split; rewrite ?Ep, ?B1; try done. split_and!; congruence.
Qed.

Lemma get_idle i s n ab br : sy_pipes s t i = mkPipe n [] false ab br -> prompt (PQgetResult i) s = Some (None, s).
Proof. intros E. unfold prompt. cbn [TwoPhaseRun.now]. rewrite E. done. Qed.

Lemma get_due i s n l ab br :
  sy_pipes s t i = mkPipe n l true ab br ->
  exists s', prompt (PQgetResult i) s = Some (None, s') /\ upd i (mkPipe n l false ab br) (sy_servers s i) s s'.
Proof. intros E. unfold prompt. cbn [TwoPhaseRun.now]. rewrite E. cbn. eexists. split; [reflexivity|]. apply upd_with_pipe. Qed.

Lemma get_query i s n q l br :
  sy_pipes s t i = mkPipe n (Todo (Some q) :: l) false false br ->
  let r := pg_run (t, i, n) q (sy_servers s i) in
  exists s', prompt (PQgetResult i) s = Some (Some r.1, s') /\ upd i (mkPipe n l true (negb (is_ok r.1)) br) r.2 s s'.
Proof.
  intros E r. unfold prompt. cbn [TwoPhaseRun.now]. rewrite E. cbn [pi_due pi_items].
  unfold exec. rewrite E. cbn [pi_items first_todo pi_aborted pi_gen pi_due pi_broken answer_first sy_pipes with_server]. rewrite pipe_with_same.
  cbn [pi_due pi_items pi_gen pi_aborted pi_broken]. eexists. split; [reflexivity|]. fold r.
  pose proof (upd_with_pipe i (mkPipe n (Ready r.1 :: l) false (negb (is_ok r.1)) br) s) as U1.
  apply (upd_with_server _ _ r.2) in U1. eapply upd_trans; [exact U1|].
  set (s1 := with_server i r.2 _) in *. rewrite <- (up_server _ _ _ _ _ U1). apply upd_with_pipe.
Qed.

Lemma get_sync i s n l ab br :
  sy_pipes s t i = mkPipe n (Todo None :: l) false ab br ->
  exists s', prompt (PQgetResult i) s = Some (Some PGRES_PIPELINE_SYNC, s') /\ upd i (mkPipe n l true false br) (sy_servers s i) s s'.
Proof.
  intros E. unfold prompt. cbn [TwoPhaseRun.now]. rewrite E. cbn [pi_due pi_items].
  unfold exec. rewrite E. cbn [pi_items first_todo pi_aborted pi_gen pi_due pi_broken answer_first sy_pipes]. rewrite pipe_with_same.
  cbn [pi_due pi_items pi_gen pi_aborted pi_broken]. eexists. split; [reflexivity|].
  set (p1 := mkPipe n (Ready PGRES_PIPELINE_SYNC :: l) false false br).
  exact (upd_trans _ _ _ _ _ _ _ _ (upd_with_pipe i p1 s) (upd_with_pipe i _ (with_pipe t i p1 s))).
Qed.

Lemma dwp_clear i b Q s n : sy_pipes s t i = new_pipe n -> Q (inr false) b s -> dwp (ClearPGresultInPGconn fuel i) b Q s.
Proof.
  intros E HQ. unfold ClearPGresultInPGconn. destruct fuel as [|fuel']; [lia|]. cbn [clear_loop].
  apply dwp_bind. eapply dwp_emit; [by eapply get_idle|]. apply dwp_bind. eapply dwp_emit; [by eapply get_idle|]. by apply dwp_ret.
Qed.

(** A command without BEGIN. *)
Definition one text : RemoteConnectionCommandData := mkCommandData 0 [PlainCommand text].

Lemma dwp_send_one i text b Q s n :
  sy_pipes s t i = new_pipe n -> state_of b i = FALCON_REMOTE_TRANSACTION_NONE ->
  (forall s', upd i (mkPipe n [Todo (Some (Sql text)); Todo None] false false false) (sy_servers s i) s s' ->
     let d := one text in Q (inr false) (cache_after (with_state b i d) i d) s') ->
  dwp (send_server fuel i (one text)) b Q s.
Proof.
  intros E Hst HQ. unfold send_server. apply dwp_bind, (dwp_clear _ _ _ _ n); [done|]. apply dwp_bind. cbn [dwp twp self fst snd].
  assert (needs_begin b i (commandFlag (one text)) = false) as -> by (unfold needs_begin; apply andb_false_r).
  apply dwp_bind, dwp_ret, dwp_bind. cbn [one remoteCommandList send_commands command_query]. apply dwp_bind.
  eapply dwp_emit; [unfold prompt; cbn [TwoPhaseRun.now]; rewrite E; reflexivity|]. apply dwp_bind, dwp_ret, dwp_ret, dwp_bind.
  set (s1 := with_sent i _ _).
  assert (upd i (mkPipe n [Todo (Some (Sql text))] false false false) (sy_servers s i) s s1) as U1.
  { eapply upd_same; [apply (upd_with_pipe i)|unfold s1, push; by rewrite E|by split]. }
  eapply dwp_emit; [unfold prompt; cbn [TwoPhaseRun.now]; rewrite (up_pipe _ _ _ _ _ U1); reflexivity|].
  apply dwp_bind, dwp_ret, dwp_bind. cbn [dwp twp change fst snd]. apply dwp_bind. cbn [dwp twp change fst snd].
  apply dwp_ret. apply HQ. eapply upd_trans; [exact U1|]. unfold push. rewrite (up_pipe _ _ _ _ _ U1).
  rewrite <- (up_server _ _ _ _ _ U1). apply upd_with_pipe.
Qed.

Lemma dwp_receive_one i q b Q s n :
  sy_pipes s t i = mkPipe n [Todo (Some q); Todo None] false false false ->
  let r := pg_run (t, i, n) q (sy_servers s i) in
  is_ok r.1 = true ->
  (forall s', upd i (new_pipe n) r.2 s s' -> Q (inr [r.1]) b s') ->
  dwp (receive_server fuel i false) b Q s.
Proof.
  intros E r Hok HQ. unfold receive_server. apply dwp_bind, dwp_ret. destruct fuel as [|[|f]]; [lia|lia|]. cbn [receive_results].
  destruct (get_query i s n q [Todo None] false E) as (s1 & P1 & U1). fold r in P1, U1. rewrite Hok in U1.
  destruct (get_due i s1 _ _ _ _ (up_pipe _ _ _ _ _ U1)) as (s2 & P2 & U2).
  destruct (get_sync i s2 _ _ _ _ (up_pipe _ _ _ _ _ U2)) as (s3 & P3 & U3).
  destruct (get_due i s3 _ _ _ _ (up_pipe _ _ _ _ _ U3)) as (s4 & P4 & U4).
  apply dwp_bind. eapply dwp_emit; [exact P1|].
  assert (dwp (r2 ← emit (PQgetResult i); _ ← throw_unless (bool_decide (r2 = None)) PROGRAM_ERROR;
      rest ← receive_results (S f) i; mret (r.1 :: rest)) b Q s1) as Hrest.
  { apply dwp_bind. eapply dwp_emit; [exact P2|]. cbn [throw_unless]. apply dwp_bind, dwp_ret, dwp_bind. cbn [receive_results].
    apply dwp_bind. eapply dwp_emit; [exact P3|]. apply dwp_bind. eapply dwp_emit; [exact P4|]. apply dwp_bind, dwp_ret, dwp_ret, dwp_ret.
    apply HQ. rewrite (up_server _ _ _ _ _ U3), (up_server _ _ _ _ _ U2), (up_server _ _ _ _ _ U1) in U4.
    eapply upd_trans; [exact U1|]. eapply upd_trans; [exact U2|]. by eapply upd_trans. }
  destruct r.1; try done.
Qed.

(** The server [i] executes a command; nothing else changes. *)
Record moved (i : Z) (v : V) s s' : Prop := {
  mo_server : sy_servers s' i = v;
  mo_servers j : j <> i -> sy_servers s' j = sy_servers s j;
  mo_rest : sy_inprogress s' = sy_inprogress s /\ sy_records s' = sy_records s /\ sy_decided s' = sy_decided s;
}.

Definition answered (i : Z) q s : PGresult * V := pg_run (t, i, Nat.max 1 (gen s i)) q (sy_servers s i).

Definition with_command text i b : backend :=
  set_commands (Some (append_command (PlainCommand text) REMOTE_COMMAND_FLAG_NO_BEGIN (default ∅ (be_cache b)) i)) b.

Lemma ready_after b i text :
  be_inAbort b = false -> idle b ->
  (forall c j d, be_cache b = Some c -> c !! j = Some d -> j <> i -> commandFlag d = 0 /\ remoteCommandList d = []) ->
  ready (cache_after (with_state b i (one text)) i (one text)).
Proof.
  intros Ha [I1 I2 I3 I4] Hc. split; [|done|].
  - split; try done. intros j. change (state_of (with_state b i (one text)) j = FALCON_REMOTE_TRANSACTION_NONE).
    rewrite state_with_state. destruct (decide _) as [->|]; [|done]. by rewrite I4.
  - intros c j d E Hj. unfold cache_after, with_state in E. cbn in E. destruct (be_cache b) as [c0|] eqn:Ec; [|done].
    injection E as <-. destruct (decide (i = j)) as [->|Hne].
    + rewrite lookup_insert_eq in Hj. by injection Hj as <-.
    + rewrite lookup_insert_ne in Hj by done. by apply (Hc c0 j d).
Qed.

Lemma dwp_command i text b Q s :
  calm s -> ready b ->
  let r := answered i (Sql text) s in
  is_ok r.1 = true -> pg_block r.2 (t, i, Nat.max 1 (gen s i)) = NoBlock ->
  (forall b' s', calm s' -> ready b' -> be_deleted b' = be_deleted b -> moved i r.2 s s' -> Q (inr [(i, [r.1])]) b' s') ->
  dwp (FalconSendCommandAndWaitForResult fuel cache_seq) (with_command text i b) Q s.
Proof.
  intros Hc [Hid Hab Hca] r Hok Hbl HQ. unfold FalconSendCommandAndWaitForResult. apply dwp_bind. cbn [dwp twp self fst snd with_command be_cache set_commands].
  rewrite (unsent_drained cache_seq cache_seq_NoDup cache_seq_all); cycle 1.
  { intros j d. destruct (be_cache b) as [c|] eqn:E; cbn; [by eapply Hca|by rewrite lookup_empty]. }
  apply dwp_bind, dwp_connections; [apply NoDup_singleton|done|by destruct Hid|]. intros b1 s1 Hc1 Hs1 Hcl Hid1 Hgen.
  assert (gen s1 i = Nat.max 1 (gen s i)) as Hg by (apply Hgen; by left). destruct (Hc1 i) as [Hp1 Hb1].
  cbn [send_servers]. apply dwp_bind, dwp_bind, (dwp_send_one i text b1 _ s1 (gen s1 i)); [done|apply Hid1|].
  intros s2 U2. cbn zeta. set (b2 := cache_after _ _ _). apply dwp_bind, dwp_ret, dwp_ret. cbn [receive_servers]. apply dwp_bind.
  assert (pg_run (t, i, gen s1 i) (Sql text) (sy_servers s2 i) = r) as Er.
  { unfold r, answered. by rewrite (up_server _ _ _ _ _ U2), (sa_servers _ _ Hs1), Hg. }
  apply (dwp_receive_one i (Sql text) b2 _ s2 (gen s1 i)); [apply (up_pipe _ _ _ _ _ U2)|by rewrite Er|].
  rewrite Er. intros s3 U3. apply dwp_bind, dwp_ret, dwp_ret. pose proof (upd_trans _ _ _ _ _ _ _ _ U2 U3) as [P1 P2 P3 P4 (P5 & P6 & P7)].
  destruct Hs1 as [S1 S2 S3 S4]. apply HQ.
  - intros j. unfold gen. destruct (decide (j = i)) as [->|Hj].
    + rewrite P1, P3. cbn. split; [done|]. rewrite Hg. by replace (Nat.max 1 (Nat.max 1 (gen s i))) with (Nat.max 1 (gen s i)) by lia.
    + rewrite (P2 j Hj), (P4 j Hj). apply Hc1.
  - apply ready_after; [by destruct (ca_flags _ _ Hcl) as [-> _]|done|]. rewrite (ca_cache _ _ Hcl). intros c j d [= <-].
    unfold append_command. intros Hd Hj. rewrite lookup_insert_ne in Hd by done.
    destruct (be_cache b) as [c0|] eqn:E; cbn in Hd; [by eapply Hca|by rewrite lookup_empty in Hd].
  - apply (proj2 (ca_written _ _ Hcl)).
  - split; [done| |split_and!; congruence]. intros j Hj. by rewrite P4, S1.
Qed.

(** ** Finishing the prepared transactions of a server *)

Definition stat s (i : Z) g : gid_status := pg_status (sy_servers s i) g.

(** Nothing becomes prepared, and the tables of the coordinator stay. *)
Record fewer s s' : Prop := {
  fe_prepared j g : stat s' j g = Prepared -> stat s j g = Prepared;
  fe_rest : sy_inprogress s' = sy_inprogress s /\ sy_records s' = sy_records s /\ sy_decided s' = sy_decided s;
}.

Lemma fewer_refl s : fewer s s.
Proof. by split. Qed.

Lemma fewer_trans s1 s2 s3 : fewer s1 s2 -> fewer s2 s3 -> fewer s1 s3.
Proof. intros [A1 (A2 & A3 & A4)] [B1 (B2 & B3 & B4)]. split; [auto|split_and!; congruence]. Qed.

Lemma moved_stat i v s s' : moved i v s s' ->
  (forall g, stat s' i g = pg_status v g) /\ (forall j g, j <> i -> stat s' j g = stat s j g).
Proof. intros [M1 M2 _]. unfold stat. split; [by rewrite M1|]. intros j g Hj. by rewrite M2. Qed.

Lemma dwp_get_set i b Q s :
  calm s -> ready b ->
  (forall A b' s', calm s' -> ready b' -> be_deleted b' = be_deleted b -> fewer s s' -> (forall j g, stat s' j g = stat s j g) ->
     (forall g, g ∈ A -> stat s i g = Prepared) -> (forall y f, stat s i (G y f) = Prepared -> G y f ∈ A) -> Q (inr A) b' s') ->
  dwp (GetRemotePreparedTransactionSet fuel cache_seq localId i) b Q s.
Proof.
  intros Hc Hr HQ. unfold GetRemotePreparedTransactionSet. apply dwp_bind. cbn [dwp twp FalconPlainCommandOnWorkerList
    FalconAppendRemoteCommandToWorkerList change foldl fst snd]. apply dwp_bind. fold (with_command (select_sql localId) i b).
  destruct (Hc i) as [_ Hbl]. destruct (pl_select _ _ Hbl) as [Hok Hb']. apply (dwp_command i (select_sql localId) b); [done|done|done|done|].
  set (r := answered _ _ _) in *. intros b1 s1 Hc1 Hr1 Hd1 Hm. apply dwp_ret.
  assert (forall g, pg_status r.2 g = stat s i g) as Hsame.
  { intros g. destruct (decide (pg_status r.2 g = stat s i g)) as [|Hne]; [done|]. apply pg_status_changes in Hne.
    destruct (sql_disjoint localId g g) as (_ & _ & _ & D1 & D2 & D3). destruct Hne as [[E _]|[[E _]|[E _]]]; congruence. }
  destruct (moved_stat _ _ _ _ Hm) as [M1 M2].
  assert (forall j g, stat s1 j g = stat s j g) as Hst.
  { intros j g. destruct (decide (j = i)) as [->|Hj]; [by rewrite M1, Hsame|by apply M2]. }
  apply HQ; [done|done|done| |done| |].
  - split; [by intros j g; rewrite Hst|apply Hm].
  - intros g Hg. apply elem_of_list_to_set in Hg. by eapply pl_rows.
  - intros y f Hp. apply elem_of_list_to_set. by apply (pg_select _ _ Hok y f).
Qed.

Lemma dwp_finish i g (isCommit : bool) b Q s :
  calm s -> ready b -> stat s i g = Prepared ->
  (forall b' s', calm s' -> ready b' -> be_deleted b' = be_deleted b -> fewer s s' ->
     stat s' i g <> Prepared -> (forall g', g' <> g -> stat s' i g' = stat s i g') -> Q (inr tt) b' s') ->
  dwp (CommitOrRollbackPreparedTransaction fuel cache_seq i g isCommit) b Q s.
Proof.
  intros Hc Hr Hp HQ. unfold CommitOrRollbackPreparedTransaction. apply dwp_bind. cbn [dwp twp FalconPlainCommandOnWorkerList
    FalconAppendRemoteCommandToWorkerList change foldl fst snd]. apply dwp_bind.
  set (text := if isCommit then commit_sql g else rollback_sql g). fold (with_command text i b).
  destruct (Hc i) as [_ Hbl]. destruct (pl_finish _ _ g isCommit Hbl Hp) as [Hok Hb']. fold text in Hok, Hb'.
  apply (dwp_command i text b); [done|done|done|done|]. set (r := answered _ _ _) in *. intros b1 s1 Hc1 Hr1 Hd1 Hm. apply dwp_ret.
  assert (pg_status r.2 g <> Prepared) as Hfin.
  { destruct (pg_finish (t, i, Nat.max 1 (gen s i)) g (sy_servers s i)) as [F1 F2]. unfold r, answered, text in *.
    destruct isCommit; [rewrite F1 by done|rewrite F2 by done]; done. }
  assert (forall g', g' <> g -> pg_status r.2 g' = stat s i g') as Hother.
  { intros g' Hg'. destruct (decide (pg_status r.2 g' = stat s i g')) as [|Hne]; [done|]. apply pg_status_changes in Hne.
    unfold text in Hne. destruct (sql_disjoint localId g' g) as (D1 & D2 & D3 & _), (sql_disjoint localId g g') as (E1 & E2 & E3 & _).
    destruct (sql_inj g g') as (J1 & J2 & J3).
    destruct isCommit, Hne as [[E _]|[[E _]|[E _]]]; destruct Hg';
      first [exfalso; congruence|symmetry; apply J2; congruence|symmetry; apply J3; congruence]. }
  destruct (moved_stat _ _ _ _ Hm) as [M1 M2]. apply HQ; [done|done|done| |by rewrite M1|intros g' Hg'; by rewrite M1, Hother].
  split; [|apply Hm]. intros j g'. destruct (decide (j = i)) as [->|Hj]; [|by rewrite M2].
  rewrite M1. destruct (decide (g' = g)) as [->|Hg']; [by intros ?; destruct Hfin|by rewrite Hother].
Qed.

Lemma dwp_records i (B D : gset string) rows A0 n b Q s :
  calm s -> ready b -> (forall g, g ∈ A0 -> stat s i g = Prepared) -> (forall y f, stat s i (G y f) = Prepared -> G y f ∈ D) ->
  (forall A' n' b' s', calm s' -> ready b' -> fewer s s' -> (forall g, g ∈ A' -> stat s' i g = Prepared) ->
     (forall y f, stat s' i (G y f) = Prepared -> G y f ∈ A0 -> G y f ∈ A') -> Q (inr (A', n')) b' s') ->
  dwp (cleanup_records fuel cache_seq i B D rows A0 n) b Q s.
Proof.
  revert A0 n b s. induction rows as [|g rows IH]; intros A0 n b s Hc Hr HA HD HQ; cbn [cleanup_records].
  { apply dwp_ret, HQ; [done|done|apply fewer_refl|done|done]. }
  assert (g ∉ D -> dwp (_ ← change (fun b => set_written (be_inserted b) (be_deleted b ++ [(i, g)]) b);
    cleanup_records fuel cache_seq i B D rows (A0 ∖ {[g]}) n) b Q s) as Hdel.
  { intros Hg. apply dwp_bind. cbn [dwp twp change fst snd]. apply IH; [done|by destruct Hr as [[] ? ?]| |done|].
    - intros g' Hg'. apply HA. set_solver.
    - intros A' n' b' s' Hc' Hr' Hf HA' Hrest. apply HQ; try done. intros y f Hp Hin. apply Hrest; [done|].
      assert (G y f <> g); [|set_solver]. intros <-. apply Hg, HD. by apply (fe_prepared _ _ Hf). }
  case_bool_decide as HB; [by apply IH|]. case_bool_decide as HgA; case_bool_decide as HgD; cbn [andb]; [|by apply Hdel|by apply IH|by apply Hdel].
  apply dwp_bind, dwp_finish; [done|done|by apply HA|]. intros b1 s1 Hc1 Hr1 _ Hf1 Hg1 Hother.
  apply IH; [done|done| | |].
  - intros g' Hg'. rewrite Hother by set_solver. apply HA. set_solver.
  - intros y f Hp. apply HD. by apply (fe_prepared _ _ Hf1).
  - intros A' n' b' s' Hc' Hr' Hf HA' Hrest. apply HQ; [done|done|by eapply fewer_trans|done|]. intros y f Hp Hin. apply Hrest; [done|].
    assert (G y f <> g); [|set_solver]. intros <-. apply Hg1. by apply (fe_prepared _ _ Hf).
Qed.

Lemma dwp_rest i (B : gset string) rest n b Q s :
  calm s -> ready b -> NoDup rest -> (forall g, g ∈ rest -> stat s i g = Prepared) ->
  (forall n' b' s', calm s' -> ready b' -> fewer s s' -> (forall g, g ∈ rest -> g ∉ B -> stat s' i g <> Prepared) -> Q (inr n') b' s') ->
  dwp (cleanup_rest fuel cache_seq i B rest n) b Q s.
Proof.
  revert n b s. induction rest as [|g rest IH]; intros n b s Hc Hr Hnd Hp HQ; cbn [cleanup_rest].
  { apply dwp_ret, HQ; [done|done|apply fewer_refl|]. by intros g ?%elem_of_nil. }
  apply NoDup_cons in Hnd as [Hg Hnd]. case_bool_decide as HB.
  - apply IH; [done|done|done|intros g' Hg'; apply Hp; by right|]. intros n' b' s' Hc' Hr' Hf Hrest. apply HQ; try done.
    intros g' [->|Hg']%elem_of_cons Hn; [done|by apply Hrest].
  - apply dwp_bind, dwp_finish; [done|done|apply Hp; by left|]. intros b1 s1 Hc1 Hr1 _ Hf1 Hg1 Hother. apply IH; [done|done|done| |].
    + intros g' Hg'. rewrite Hother by congruence. apply Hp. by right.
    + intros n' b' s' Hc' Hr' Hf Hrest. apply HQ; [done|done|by eapply fewer_trans|].
      intros g' [->|Hg']%elem_of_cons Hn; [|by apply Hrest]. intros E. apply Hg1. by apply (fe_prepared _ _ Hf).
Qed.

(** What is prepared on a server after it was cleaned up is under way. *)
Lemma dwp_server i b Q s :
  calm s -> ready b ->
  (forall n b' s', calm s' -> ready b' -> fewer s s' ->
     (forall y f, stat s' i (G y f) = Prepared -> G y f ∈ sy_inprogress s) -> Q (inr n) b' s') ->
  dwp (CleanupPreparedTransactions fuel cache_seq localId set_seq i) b Q s.
Proof.
  intros Hc Hr HQ. unfold CleanupPreparedTransactions. apply dwp_bind, dwp_get_set; [done|done|].
  intros A b1 s1 Hc1 Hr1 _ Hf1 Hst1 HA1 HA2. unfold GetActiveTransactionSet. apply dwp_bind, dwp_bind.
  eapply dwp_emit; [reflexivity|]. apply dwp_ret, dwp_bind. eapply dwp_emit; [reflexivity|]. set (C := (filter _ _).*2).
  set (B := list_to_set _ : gset string). apply dwp_bind, dwp_get_set; [done|done|]. intros D b2 s2 Hc2 Hr2 _ Hf2 Hst2 HD1 HD2.
  apply dwp_bind, dwp_records; [done|done| | |].
  - intros g Hg. rewrite Hst2, Hst1. auto.
  - intros y f Hp. apply HD2. by rewrite <- Hst2.
  - intros A' n b3 s3 Hc3 Hr3 Hf3 HA3 Hrest. cbn [fst snd]. apply dwp_rest; [done|done|apply set_seq_NoDup| |].
    + intros g Hg. apply HA3. by apply set_seq_all.
    + intros n' b4 s4 Hc4 Hr4 Hf4 Hdone.
      assert (fewer s s3) as Hf13 by (eapply fewer_trans; [exact Hf1|]; by eapply fewer_trans).
      apply HQ; [done|done|by eapply fewer_trans|]. intros y f Hp.
      destruct (decide (G y f ∈ B)) as [HB|HB].
      * apply elem_of_list_to_set in HB. apply elem_of_elements in HB. by destruct (fe_rest _ _ Hf1) as (<- & _).
      * destruct (Hdone (G y f)); [|done|done]. apply set_seq_all, Hrest; [by apply (fe_prepared _ _ Hf4)|].
        apply HA2. apply (fe_prepared _ _ Hf13). by apply (fe_prepared _ _ Hf4).
Qed.

Lemma dwp_all workers b Q s :
  calm s -> ready b ->
  (forall n b' s', calm s' -> ready b' -> fewer s s' ->
     (forall i y f, i ∈ workers -> stat s' i (G y f) = Prepared -> G y f ∈ sy_inprogress s) -> Q (inr n) b' s') ->
  dwp (Cleanup2PC fuel cache_seq localId set_seq workers) b Q s.
Proof.
  revert b s Q. induction workers as [|i ws IH]; intros b s Q Hc Hr HQ; cbn [Cleanup2PC].
  { apply dwp_ret, HQ; [done|done|apply fewer_refl|]. by intros i y f ?%elem_of_nil. }
  apply dwp_bind, dwp_attempt, dwp_server; [done|done|]. intros n b1 s1 Hc1 Hr1 Hf1 H1. apply dwp_bind, IH; [done|done|].
  intros n' b2 s2 Hc2 Hr2 Hf2 H2. apply dwp_ret, HQ; [done|done|by eapply fewer_trans|].
  intros j y f [->|Hj]%elem_of_cons Hp.
  - apply (H1 y f). by apply (fe_prepared _ _ Hf2).
  - destruct (fe_rest _ _ Hf1) as (<- & _). by apply (H2 j y f).
Qed.

(** ** The end of the round *)

Lemma dwp_commit_send ids b Q s : calm s -> idle b -> Q (inr true) b s -> dwp (commit_send fuel unset ids) b Q s.
Proof.
  intros Hc Hi HQ. induction ids as [|i ids IH]; cbn [commit_send]; [done|]. destruct (Hc i) as [Hp _].
  apply dwp_bind, (dwp_clear _ _ _ _ _ Hp). apply dwp_bind. cbn [dwp twp self fst snd]. unfold commit_query. rewrite (id_states _ Hi i).
  apply dwp_bind, dwp_ret. exact IH.
Qed.

Lemma dwp_commit_receive ids b Q s : calm s -> Q (inr tt) b s -> dwp (commit_receive ids) b Q s.
Proof.
  intros Hc HQ. induction ids as [|i ids IH]; cbn [commit_receive]; [done|]. destruct (Hc i) as [Hp _].
  apply dwp_bind. eapply dwp_emit; [by eapply get_idle|]. exact IH.
Qed.

Lemma dwp_remote_commit b Q s :
  calm s -> idle b -> (forall b' s', calm s' -> same s s' -> idle b' -> Q (inr tt) b' s') ->
  dwp (FalconRemoteCommandCommit fuel cache_seq unset) b Q s.
Proof.
  intros Hc Hi HQ. unfold FalconRemoteCommandCommit. apply dwp_bind. cbn [dwp twp self fst snd].
  destruct (be_cache b) as [c|]; [|apply dwp_ret, HQ; [done|by split|done]].
  apply dwp_bind, dwp_connections; [apply cache_seq_NoDup|done|done|]. intros b1 s1 Hc1 Hs1 _ Hi1 _.
  apply dwp_bind, dwp_commit_send; [done|done|]. apply dwp_commit_receive; [done|]. auto.
Qed.

Lemma dwp_remote_prepare b Q s :
  calm s -> idle b -> (forall b' s', calm s' -> same s s' -> idle b' -> Q (inr tt) b' s') ->
  dwp (FalconRemoteCommandPrepare fuel cache_seq localId) b Q s.
Proof.
  intros Hc Hi HQ. unfold FalconRemoteCommandPrepare. apply dwp_bind. cbn [dwp twp self fst snd].
  destruct (be_cache b) as [c|]; [|apply dwp_ret, HQ; [done|by split|done]].
  apply dwp_bind, dwp_connections; [apply cache_seq_NoDup|done|done|]. intros b1 s1 Hc1 Hs1 _ Hi1 _.
  apply dwp_bind. cbn [dwp twp self fst snd]. rewrite (idle_writers b1 (cache_seq c) Hi1), (id_localWrite _ Hi1). apply dwp_ret. auto.
Qed.

Lemma dwp_round workers b Q s :
  calm s -> ready b ->
  (forall b' s', (forall i y f, i ∈ workers -> stat s' i (G y f) = Prepared -> G y f ∈ sy_inprogress s) ->
     sy_decided s' = <[x := true]> (sy_decided s) -> Q (inr true) b' s') ->
  dwp (cleanup_round fuel cache_seq localId unset set_seq workers) b Q s.
Proof.
  intros Hc Hr HQ. unfold cleanup_round. apply dwp_bind, dwp_all; [done|done|]. intros n b1 s1 Hc1 [Hi1 _ _] Hf1 H1.
  unfold CommitTransaction. apply dwp_bind, dwp_attempt. cbn [FalconTransactionCallback]. apply dwp_remote_prepare; [done|done|].
  intros b2 s2 Hc2 Hs2 Hi2. apply dwp_bind. cbn [dwp twp self fst snd]. apply dwp_bind. eapply dwp_emit; [reflexivity|].
  apply dwp_bind. cbn [dwp twp change fst snd]. set (s3 := with_log _ _ s2).
  apply dwp_bind, dwp_attempt, dwp_bind, dwp_remote_commit; [exact Hc2|by destruct Hi2|]. intros b4 s4 Hc4 Hs4 Hi4.
  apply dwp_bind. eapply dwp_emit; [reflexivity|]. apply dwp_bind. eapply dwp_emit; [reflexivity|]. unfold ClearRemoteTransactionGid.
  apply dwp_bind, dwp_bind. cbn [dwp twp self fst snd]. rewrite (id_gid _ Hi4). rewrite bool_decide_eq_true_2 by done.
  apply dwp_bind, dwp_ret. apply HQ.
  - intros i y f Hi Hp. apply (H1 i y f Hi). unfold stat in *. rewrite (sa_servers _ _ Hs4) in Hp. cbn in Hp. by rewrite (sa_servers _ _ Hs2) in Hp.
  - rewrite (sa_decided _ _ Hs4). cbn. rewrite (sa_decided _ _ Hs2). by destruct (fe_rest _ _ Hf1) as (_ & _ & ->).
Qed.

Lemma step_sent c c' : step localId fuel cache_seq unset set_seq c c' -> forall iq, iq ∈ sy_sent (cf_sys c) -> iq ∈ sy_sent (cf_sys c').
Proof.
  intros H iq. destruct H as [s ts t' x' rec e k r s' _ Hev|s ts t' i|s ts n|s ts t' i|c t' x' d b _ _ _ _|c t' x' ws b _ _ _ _ _|s ts t' x' rec a _|c]; cbn; try done.
  - destruct e; cbn in Hev.
    + destruct Hev as [(_ & _ & ->)|(_ & ex & _ & ->)]; by right.
    + by destruct Hev as [(_ & _ & ->)|(_ & ->)].
    + by rewrite (get_result_sent _ _ _ _ _ Hev).
    + destruct Hev as (_ & _ & ->). by rewrite relink_sent.
    + by destruct Hev as [[_ ->]|[_ ->]].
    + by subst.
    + by destruct Hev as [_ ->].
    + by destruct Hev as [_ ->].
    + by subst.
    + by subst.
    + by subst.
    + by subst.
    + by subst.
  - unfold exec. by repeat case_match.
  - unfold exec_late. by repeat case_match.
Qed.

End Live.
