(* ===== verification/TwoPhaseDemo.v ===== *)
(** * A coordinator, two servers and a crash

    A concrete server that satisfies [PgServers], and runs of the protocol: a
    transaction on two servers, a crash of the coordinator between the two
    phases, and the recovery process that finishes the transaction and removes
    its rows; and a connection that breaks in the second phase. *)

From stdpp Require Import pretty.
From S2P Require Import FalconPrelude Decimal ForeignServer MetaMessages RemoteComm Transaction TwoPhase TwoPhaseSafety TwoPhaseLogic.
From S2P Require Import TwoPhaseCorrect TwoPhaseRun TwoPhaseLive.

(** ** The text between a prefix and a suffix *)

Fixpoint unprefix (p text : string) : option string :=
  match p, text with
  | EmptyString, _ => Some text
  | String a p', String b text' => if Ascii.eqb a b then unprefix p' text' else None
  | String _ _, EmptyString => None
  end.

Fixpoint unsuffix (z text : string) : option string :=
  if String.eqb z text then Some EmptyString
  else match text with
       | EmptyString => None
       | String a text' => String a <$> unsuffix z text'
       end.

Definition between (p z text : string) : option string := unprefix p text ≫= unsuffix z.

Lemma unprefix_app p r : unprefix p (p +:+ r) = Some r.
Proof. induction p as [|a p IH]; [done|]. change (String a p +:+ r) with (String a (p +:+ r)). cbn. by rewrite Ascii.eqb_refl. Qed.

Lemma unprefix_inv p text r : unprefix p text = Some r -> text = p +:+ r.
Proof.
  revert text. induction p as [|a p IH]; intros text H; [by injection H as ->|]. destruct text as [|b text]; cbn in H; [done|].
  destruct (Ascii.eqb_spec a b) as [->|]; [|done]. rewrite (IH text H). done.
Qed.

Lemma unsuffix_app z r : unsuffix z (r +:+ z) = Some r.
Proof.
  induction r as [|a r IH].
  - change (EmptyString +:+ z) with z. destruct z; cbn [unsuffix]; by rewrite String.eqb_refl.
  - change (String a r +:+ z) with (String a (r +:+ z)). cbn [unsuffix].
    destruct (String.eqb_spec z (String a (r +:+ z))) as [E|]; [|by rewrite IH].
    apply (f_equal String.length) in E. cbn in E. rewrite append_length in E. lia.
Qed.

Lemma unsuffix_inv z text r : unsuffix z text = Some r -> text = r +:+ z.
Proof.
  revert r. induction text as [|a text IH]; intros r; cbn [unsuffix].
  - destruct (String.eqb_spec z EmptyString) as [->|]; [|done]. by intros [= <-].
  - destruct (String.eqb_spec z (String a text)) as [->|]; [by intros [= <-]|].
    intros (r' & Hr & ->)%fmap_Some. by rewrite (IH r' Hr).
Qed.

Lemma between_app p z g : between p z (p +:+ g +:+ z) = Some g.
Proof. unfold between. rewrite unprefix_app. apply unsuffix_app. Qed.

Lemma between_text p z text g : between p z text = Some g -> text = p +:+ g +:+ z.
Proof. unfold between. intros (r & Hr & Hg)%bind_Some. rewrite (unprefix_inv _ _ _ Hr). by rewrite (unsuffix_inv _ _ _ Hg). Qed.

(** ** A server *)

Record server : Type := mkServer { sv_status : gmap string gid_status; sv_block : gmap session block }.

Definition status_of (v : server) (g : string) : gid_status := default Unprepared (sv_status v !! g).
Definition block_of (v : server) (c : session) : block := default NoBlock (sv_block v !! c).

Inductive command : Type :=
| Begin | End | Prepare (g : string) | Finish (g : string) (commit : bool) | Select | Other.

Definition end_quote : string := quote +:+ ";".

Section Server.
Context (localId : Z).

Definition parse (q : query) : command :=
  match q with
  | CsMetaCall _ _ _ => Other
  | Sql text =>
      if String.eqb text "BEGIN;" then Begin
      else if String.eqb text "COMMIT;" || String.eqb text "ROLLBACK;" then End
      else if String.eqb text (select_sql localId) then Select
      else
        match between ("PREPARE TRANSACTION " +:+ quote) end_quote text, between ("COMMIT PREPARED " +:+ quote) end_quote text,
              between ("ROLLBACK PREPARED " +:+ quote) end_quote text with
        | Some g, _, _ => Prepare g
        | None, Some g, _ => Finish g true
        | None, None, Some g => Finish g false
        | None, None, None => Other
        end
  end.

Definition run (c : session) (q : query) (v : server) : PGresult * server :=
  match parse q with
  | Begin => (PGRES_COMMAND_OK, mkServer (sv_status v) (<[c := InBlock]> (sv_block v)))
  | End => (PGRES_COMMAND_OK, mkServer (sv_status v) (<[c := NoBlock]> (sv_block v)))
  | Prepare g =>
      match block_of v c, status_of v g with
      | InBlock, Unprepared => (PGRES_COMMAND_OK, mkServer (<[g := Prepared]> (sv_status v)) (<[c := NoBlock]> (sv_block v)))
      | _, _ => (PGRES_FATAL_ERROR, mkServer (sv_status v) (<[c := NoBlock]> (sv_block v)))
      end
  | Finish g commit =>
      match status_of v g with
      | Prepared => (PGRES_COMMAND_OK, mkServer (<[g := if commit then Committed else RolledBack]> (sv_status v)) (sv_block v))
      | _ => (PGRES_FATAL_ERROR, v)
      end
  | Select => (PGRES_TUPLES_OK (filter (fun g => status_of v g = Prepared) (map_to_list (sv_status v)).*1), v)
  | Other => (PGRES_COMMAND_OK, v)
  end.

Definition ordinary (q : query) : Prop := parse q = Other.

Lemma parse_texts g :
  parse (Sql (prepare_sql g)) = Prepare g /\ parse (Sql (commit_sql g)) = Finish g true /\
  parse (Sql (rollback_sql g)) = Finish g false /\ parse (Sql (select_sql localId)) = Select.
Proof.
  assert (prepare_sql g = ("PREPARE TRANSACTION " +:+ quote) +:+ g +:+ end_quote) as E1 by done.
  assert (commit_sql g = ("COMMIT PREPARED " +:+ quote) +:+ g +:+ end_quote) as E2 by done.
  assert (rollback_sql g = ("ROLLBACK PREPARED " +:+ quote) +:+ g +:+ end_quote) as E3 by done.
  destruct (sql_disjoint localId g g) as (_ & _ & _ & D1 & D2 & D3). unfold parse.
  split_and!.
  - rewrite (proj2 (String.eqb_neq _ _) D1). rewrite E1, between_app. done.
  - rewrite (proj2 (String.eqb_neq _ _) D2). rewrite E2, between_app. done.
  - rewrite (proj2 (String.eqb_neq _ _) D3). rewrite E3, between_app. done.
  - by rewrite String.eqb_refl.
Qed.

Lemma parse_inv q :
  (forall g, parse q = Prepare g -> q = Sql (prepare_sql g)) /\
  (forall g, parse q = Finish g true -> q = Sql (commit_sql g)) /\
  (forall g, parse q = Finish g false -> q = Sql (rollback_sql g)) /\
  (parse q = Select -> q = Sql (select_sql localId)).
Proof.
  destruct q as [text|service count param]; cbn [parse]; [|by split_and!].
  destruct (String.eqb text "BEGIN;"); [by split_and!|]. destruct (String.eqb text "COMMIT;" || String.eqb text "ROLLBACK;"); [by split_and!|].
  destruct (String.eqb_spec text (select_sql localId)) as [->|]; [by split_and!|].
  destruct (between ("PREPARE TRANSACTION " +:+ quote) end_quote text) as [g|] eqn:E1.
  { apply between_text in E1 as ->. split_and!; [by intros g' [= <-]|discriminate..]. }
  destruct (between ("COMMIT PREPARED " +:+ quote) end_quote text) as [g|] eqn:E2.
  { apply between_text in E2 as ->. split_and!; [discriminate|by intros g' [= <-]|discriminate..]. }
  destruct (between ("ROLLBACK PREPARED " +:+ quote) end_quote text) as [g|] eqn:E3.
  { apply between_text in E3 as ->. split_and!; [discriminate|discriminate|by intros g' [= <-]|discriminate]. }
  by split_and!.
Qed.

Lemma status_insert v m g g' st : status_of (mkServer (<[g := st]> (sv_status v)) m) g' = if decide (g = g') then st else status_of v g'.
Proof. unfold status_of. cbn. destruct (decide (g = g')) as [->|]; [by rewrite lookup_insert_eq|by rewrite lookup_insert_ne]. Qed.

Lemma block_insert v m c c' bl : block_of (mkServer m (<[c := bl]> (sv_block v))) c' = if decide (c = c') then bl else block_of v c'.
Proof. unfold block_of. cbn. destruct (decide (c = c')) as [->|]; [by rewrite lookup_insert_eq|by rewrite lookup_insert_ne]. Qed.

Lemma run_status c q v g :
  status_of (run c q v).2 g <> status_of v g ->
  (q = Sql (prepare_sql g) /\ status_of v g = Unprepared /\ status_of (run c q v).2 g = Prepared) \/
  (q = Sql (commit_sql g) /\ status_of v g = Prepared /\ status_of (run c q v).2 g = Committed) \/
  (q = Sql (rollback_sql g) /\ status_of v g = Prepared /\ status_of (run c q v).2 g = RolledBack).
Proof.
  destruct (parse_inv q) as (P1 & P2 & P3 & _). unfold run. destruct (parse q) as [| |g'|g' commit| |] eqn:Ep; try done.
  - destruct (block_of v c), (status_of v g') eqn:Es; try done. cbn [snd]. rewrite status_insert.
    destruct (decide (g' = g)) as [->|]; [|done]. intros _. left. by rewrite (P1 g eq_refl).
  - destruct (status_of v g') eqn:Es; try done. cbn [snd]. rewrite status_insert.
    destruct (decide (g' = g)) as [->|]; [|done]. intros _. right. destruct commit; [left|right]; by rewrite ?(P2 g eq_refl), ?(P3 g eq_refl).
Qed.

Lemma run_select c v g :
  g ∈ rows_of (run c (Sql (select_sql localId)) v).1 <-> status_of v g = Prepared.
Proof.
  destruct (parse_texts g) as (_ & _ & _ & Ep). unfold run. rewrite Ep. cbn [fst rows_of].
  rewrite list_elem_of_filter. split; [by intros [? _]|]. intros Hg. split; [done|]. unfold status_of in Hg.
  destruct (sv_status v !! g) as [st|] eqn:E; [|done]. apply list_elem_of_fmap. exists (g, st). split; [done|]. by apply elem_of_map_to_list.
Qed.

Lemma run_block c q v :
  (parse q = Begin -> block_of (run c q v).2 c = InBlock) /\
  (parse q = Other -> (run c q v).2 = v) /\ (forall c', c <> c' -> block_of (run c q v).2 c' = block_of v c').
Proof.
  unfold run. destruct (parse q) as [| |g'|g' commit| |] eqn:Ep; split_and!; try done; try (intros c' Hc).
  - intros _. cbn [snd]. rewrite block_insert. by rewrite decide_True.
  - cbn [snd]. rewrite block_insert. by rewrite decide_False.
  - cbn [snd]. rewrite block_insert. by rewrite decide_False.
  - destruct (block_of v c), (status_of v g'); cbn [snd]; rewrite block_insert; by rewrite decide_False.
  - by destruct (status_of v g').
Qed.

#[export, refine] Instance demo_servers : PgServers localId server := {
  pg_status := status_of;
  pg_block := block_of;
  pg_run := run;
  pg_ordinary := ordinary;
}.
Proof.
  - intros c q v. unfold run. destruct (parse q); try done.
    + by destruct (block_of v c), (status_of v g).
    + by destruct (status_of v g).
  - intros c q v g. apply run_status.
  - intros c g v Hb. destruct (parse_texts g) as (Ep & _). unfold run. rewrite Ep, Hb.
    destruct (status_of v g) eqn:E; cbn [fst snd is_ok]; try done. intros _. by rewrite status_insert, decide_True.
  - intros c g v. destruct (parse_texts g) as (_ & E1 & E2 & _). unfold run. rewrite E1, E2.
    destruct (status_of v g) eqn:E; cbn [fst snd is_ok]; split; try done; intros _; by rewrite status_insert, decide_True.
  - intros c g v. destruct (parse_texts g) as (_ & E1 & E2 & _). unfold run. rewrite E1, E2. by destruct (status_of v g).
  - intros c v r _ x f. apply run_select.
  - intros c v _. by apply run_block.
  - intros c q v Hq _ Hb. destruct (run_block c q v) as (_ & H & _). by rewrite H.
  - intros c q v c' Hc. by apply run_block.
  - done.
  - intros q g Hq. destruct (parse_texts g) as (E1 & E2 & E3 & _). unfold ordinary in Hq. split_and!; intros ->; congruence.
Defined.

#[export] Instance demo_live : PgLive localId server.
Proof.
  split.
  - intros c v Hb. change (is_ok (run c (Sql (select_sql localId)) v).1 = true /\ block_of (run c (Sql (select_sql localId)) v).2 c = NoBlock).
    destruct (parse_texts EmptyString) as (_ & _ & _ & Ep). unfold run. by rewrite Ep.
  - intros c v g. apply run_select.
  - intros c v g isCommit q Hb Hp. destruct (parse_texts g) as (_ & E1 & E2 & _).
    change (is_ok (run c q v).1 = true /\ block_of (run c q v).2 c = NoBlock). change (status_of v g = Prepared) in Hp.
    unfold run, q. destruct isCommit; rewrite ?E1, ?E2, Hp; done.
Qed.
End Server.

(** ** The run *)

Module Demo.
Definition localId : Z := 0.
Definition fuel : nat := 20.
Definition cache_seq (c : gmap Z RemoteConnectionCommandData) : list Z := (map_to_list c).*1.
Definition set_seq (g : gset string) : list string := elements g.
Abbreviation config := (TwoPhase.config (V := server)).
#[local] Existing Instance demo_servers.

(** A directory is made on the servers 1 and 2. *)
Definition handler : body :=
  BodyRegister false (BodyMeta MKDIR_SUB_MKDIR 1 [] REMOTE_COMMAND_FLAG_WRITE [1; 2] (BodySend (fun _ => BodyEnd))).

Definition backend_of (x : N) : backend := mkBackend None false EmptyString ∅ [] [] false FALCON_EXPLICIT_TRANSACTION_NONE x.

Definition begin (t : nat) (x : N) (c : config) : config :=
  mkConfig (cf_sys c) (<[t := mkThread x false (transaction fuel cache_seq localId EmptyString (run_body fuel cache_seq handler) (backend_of x))]>
    (cf_threads c)).
Definition recover (t : nat) (x : N) (c : config) : config :=
  mkConfig (cf_sys c) (<[t := mkThread x true (cleanup_round fuel cache_seq localId EmptyString set_seq [1; 2] (backend_of x))]>
    (cf_threads c)).
Definition finish (t : nat) (c : config) : config := mkConfig (cf_sys c) (delete t (cf_threads c)).

Definition start : config := mkConfig (mkSys (fun _ => mkServer ∅ ∅) (fun _ _ => new_pipe 0) [] ∅ ∅ ∅ []) ∅.

(** What is seen of the transaction 7. *)
Definition view (c : config) : option bool * gid_status * gid_status * list (Z * string) :=
  (sy_decided (cf_sys c) !! 7%N, status_of (sy_servers (cf_sys c) 1) (gid_of localId 7 true),
   status_of (sy_servers (cf_sys c) 2) (gid_of localId 7 true), elements (sy_records (cf_sys c))).

(** The crash comes when the commit has been recorded and no server has been told. *)
Definition untold : config := drive localId 60 1 (begin 1 7 start).
Definition crashed : config := crash untold.
Definition halfway : config := drive localId 50 2 (recover 2 8 crashed).
Definition recovered : config := drive localId 200 3 (recover 3 9 (finish 2 (drive localId 200 2 (recover 2 8 crashed)))).

Definition unused (x : N) (c : config) : bool :=
  forallb (fun p => negb (bool_decide (p.2 = Sql (prepare_sql (gid_of localId x true)))) &&
                    negb (bool_decide (p.2 = Sql (prepare_sql (gid_of localId x false))))) (sy_sent (cf_sys c)).

Lemma is_fresh t x c :
  cf_threads c = ∅ -> (forall i, sy_pipes (cf_sys c) t i = new_pipe 0) -> sy_decided (cf_sys c) !! x = None ->
  sy_inprogress (cf_sys c) = ∅ -> unused x c = true -> fresh localId t x c.
Proof.
  intros H1 H2 H3 H4 H5. split; rewrite ?H1; try done. intros f. rewrite H4. split; [set_solver|].
  intros i Hin. unfold unused in H5. rewrite forallb_forall in H5. specialize (H5 _ (proj1 (list_elem_of_In _ _) Hin)). cbn [snd] in H5.
  apply andb_true_iff in H5 as [A B]. destruct f; [apply negb_true_iff, bool_decide_eq_false_1 in A|apply negb_true_iff, bool_decide_eq_false_1 in B]; done.
Qed.

Abbreviation steps := (rtc (step localId fuel cache_seq EmptyString set_seq)).

Lemma between_ok x : between_transactions (backend_of x).
Proof. by split. Qed.

Lemma begin_ok t x c : fresh localId t x c -> steps c (begin t x c).
Proof. intros Hf. apply rtc_once. apply step_begin; [done|by cbn|apply between_ok|done]. Qed.

Lemma recover_ok t x c : fresh localId t x c -> cf_threads c = ∅ -> steps c (recover t x c).
Proof. intros Hf Ht. apply rtc_once. apply step_recovery; [done|apply between_ok|done|done|]. by rewrite Ht. Qed.

Lemma crashed_reached : steps start crashed.
Proof.
  etransitivity; [apply (begin_ok 1 7); apply is_fresh; done|]. etransitivity; [apply (drive_ok localId fuel cache_seq EmptyString set_seq 60 1)|].
  apply rtc_once, step_crash.
Qed.

Lemma crashed_fresh : fresh localId 2 8 crashed.
Proof. apply is_fresh; [done|intros i; vm_compute; done|vm_compute; done|done|vm_compute; done]. Qed.

Lemma halfway_reached : steps start halfway.
Proof.
  etransitivity; [apply crashed_reached|]. etransitivity; [apply (recover_ok 2 8); [apply crashed_fresh|done]|].
  apply (drive_ok localId fuel cache_seq EmptyString set_seq 50 2).
Qed.

Lemma start_initial : initial localId start.
Proof. by split. Qed.

Definition between_rounds : config := finish 2 (drive localId 200 2 (recover 2 8 crashed)).

(** The first round of the recovery process ends. *)
Lemma first_round_ends :
  match cf_threads (drive localId 200 2 (recover 2 8 crashed)) !! 2%nat with
  | Some (mkThread _ _ (Done (inr true, _))) => True
  | _ => False
  end.
Proof. vm_compute. done. Qed.

Lemma between_rounds_reached : steps start between_rounds.
Proof.
  etransitivity; [apply crashed_reached|]. etransitivity; [apply (recover_ok 2 8); [apply crashed_fresh|done]|].
  etransitivity; [apply (drive_ok localId fuel cache_seq EmptyString set_seq 200 2)|]. unfold between_rounds, finish.
  pose proof first_round_ends as H. set (c := drive localId 200 2 (recover 2 8 crashed)) in *. clearbody c.
  destruct (cf_threads c !! 2%nat) as [[x rec [a| |]]|] eqn:E; try done. destruct c as [s ts]. cbn in *.
  apply rtc_once. by apply (step_end _ _ _ _ _ s ts 2 x rec a).
Qed.

Lemma recovered_reached : steps start recovered.
Proof.
  etransitivity; [apply between_rounds_reached|].
  etransitivity; [apply (recover_ok 3 9)|apply (drive_ok localId fuel cache_seq EmptyString set_seq 200 3)].
  - apply is_fresh; [vm_compute; done|intros i; vm_compute; done|vm_compute; done|vm_compute; done|vm_compute; done].
  - vm_compute. done.
Qed.

Lemma cache_seq_NoDup c : NoDup (cache_seq c).
Proof. apply NoDup_fst_map_to_list. Qed.

Lemma cache_seq_all c i : i ∈ cache_seq c <-> is_Some (c !! i).
Proof.
  unfold cache_seq. rewrite list_elem_of_fmap. split.
  - intros ([j d] & -> & H%elem_of_map_to_list). by exists d.
  - intros [d H]. exists (i, d). split; [done|]. by apply elem_of_map_to_list.
Qed.


Lemma untold_reachable : reachable localId fuel cache_seq EmptyString set_seq untold.
Proof.
  exists start. split; [apply start_initial|]. etransitivity; [apply (begin_ok 1 7); apply is_fresh; done|].
  apply (drive_ok localId fuel cache_seq EmptyString set_seq 60 1).
Qed.


(** ** A connection breaks in the second phase *)

Definition broken (t : nat) (i : Z) (c : config) : config := mkConfig (break t i (cf_sys c)) (cf_threads c).

Definition backend_at_end (t : nat) (c : config) : option ((FalconErrorCode + bool) * backend) :=
  match cf_threads c !! t with Some (mkThread _ _ (Done rb)) => Some rb | _ => None end.

Definition after_break : config := drive localId 300 1 (broken 1 1 (drive localId 60 1 (begin 1 7 start))).

(** The next transaction of the same process: it writes on the server 2 and fails. *)
Definition next_handler : body :=
  BodyMeta MKDIR_SUB_MKDIR 1 [] REMOTE_COMMAND_FLAG_WRITE [2] (BodySend (fun _ => BodyFail PROGRAM_ERROR)).

Definition sent_next (b : backend) (c : config) : list (Z * query) :=
  let p := transaction fuel cache_seq localId EmptyString (run_body fuel cache_seq next_handler) b in
  let c' := drive localId 300 1 (mkConfig (cf_sys c) (<[1%nat := mkThread 10 false p]> (cf_threads c))) in
  rev (take (length (sy_sent (cf_sys c')) - length (sy_sent (cf_sys c))) (sy_sent (cf_sys c'))).

(** FalconRemoteCommandCommit stops at the first connection that fails: the transaction is reported as committed
    while the other server is not told, and its connection keeps the state of the transaction that has ended.
    The next transaction of the process then sends its command without BEGIN, so that it is executed at once, and
    the rollback of the failed transaction is the contents of a buffer that was not written. *)
Example failed_commit_leaves_states :
  exists b, backend_at_end 1 after_break = Some (inr true, b) /\
    state_of b 2 = FALCON_REMOTE_TRANSACTION_PREPARE /\ be_gid b = EmptyString /\
    view after_break = (Some true, Prepared, Prepared, [(1, gid_of localId 7 true); (2, gid_of localId 7 true)]) /\
    sent_next b after_break = [(2, CsMetaCall MKDIR_SUB_MKDIR 1 []); (2, Sql EmptyString)].
Proof.
  destruct (backend_at_end 1 after_break) as [[r b]|] eqn:E; [|vm_compute in E; discriminate E].
  vm_compute in E. injection E as <- <-. eexists. split; [reflexivity|]. vm_compute. done.
Qed.
End Demo.
